(* ===== verification/_CoqProject ===== *)
-Q . S2P
Prelude.v
TeeMm.v
HandleSpec.v
Handle.v
Pkcs11Handle.v
Pobj.v
WaitQueue.v
Mutex.v
RecMutex.v
LockdepGraph.v
Lockdep.v
Htree.v
HtreeShape.v
HtreeSync.v
HtreeCommit.v
HtreeCreate.v
ReeFs.v
ReeFsFile.v
Dirfile.v
DirfileSpec.v
ReeStore.v
ReeStoreRefs.v
Vm.v
VmMap.v
VmSplit.v
VmOps.v
VmSpec.v
Cipher.v
CipherModes.v
CipherSvc.v
TeeOp.v
TeeOpBuffer.v
TeeOpSpec.v
TeeOpState.v
TeeOpKernel.v
TeeOpDemo.v
ErrM.v
FsKey.v
Rpmb.v
RpmbSpec.v
RpmbWrite.v
RpmbDev.v
RpmbBlocks.v
RpmbLog.v
RpmbDevice.v
RpmbDevWrite.v
RpmbChip.v
RpmbDevProps.v
RpmbFat.v
RpmbFatSpec.v
RpmbFs.v
RpmbFatFind.v
RpmbFatFound.v
RpmbFsData.v
RpmbFsWrite.v
RpmbFsOps.v
RpmbFsNames.v
RpmbFsDir.v
RpmbFsCreate.v
RpmbRam.v
RpmbFsProps.v
RpmbDemo.v
Session.v
SessionLogic.v
SessionActs.v
SessionCtx.v
SessionLife.v
SessionSafe.v
SessionProps.v
SessionDemo.v
Shm.v
ShmRefs.v
ShmSafe.v
ShmRaces.v
ShmAddr.v
MsgParams.v
MsgPages.v
MsgRefs.v
MsgProps.v
