(* ===== verification/Prelude.v ===== *)
(** * OP-TEE OS: verification library

    OP-TEE is an operating system for the secure world of Arm processors. Normal
    world asks it to open sessions with trusted applications (TAs); TAs run in user
    mode and reach the kernel through system calls, mostly from the library
    [libutee]; what they store securely is kept by the kernel, encrypted and
    authenticated, in the file system of normal world or in the replay protected
    memory block (RPMB) of an eMMC chip.

    The library models the parts of [src/] that carry state and promises of their own,
    function by function, at the integer widths of the AArch64 build, and proves
    what makes them correct. C functions become Rocq functions on explicit state;
    [panic()], failing assertions, [TEE_Panic] and accesses out of bounds are
    [Panic]; results are the [TEE_Result] codes.

    ** Parts, files and sources

    Shared: [Prelude] (machine integers, outcomes, tactics, hint databases, lemmas on
    lists and arithmetic used everywhere).

    Kernel resources.
    - [TeeMm]: pools of address ranges, [core/arch/arm/mm/tee_mm.c]. State [pool],
      one definition per function of the file. What is handed out is aligned, in range
      and disjoint; an allocation fails only when no gap fits; freeing undoes it.
    - [HandleSpec], [Handle], [Pkcs11Handle]: the two handle databases
      ([core/kernel/handle.c], [ta/pkcs11/src/handle.c]) and the interface
      [HandleTable] both implement, a refinement of a finite map; the kernel's answers every sequence of
      calls as a map in which the smallest free number is given out.
    - [WaitQueue], [Mutex], [RecMutex]: [core/kernel/wait_queue.c],
      [mutex.c], [refcount.c]. Critical sections are functions, their interleaving by any
      number of threads a step relation; mutual exclusion, no lost wake-up, no panic.
    - [LockdepGraph], [Lockdep]: the lock order checker, [core/kernel/lockdep.c] and
      [mutex_lockdep.c]: its graph searches are exact, and threads whose locks
      it accepts never wait for each other in a circle.

    User address spaces: [core/mm/vm.c] with its loader system calls
    ([core/kernel/ldelf_syscalls.c]) and [core/arch/arm/tee/svc_cache.c].
    - [Vm]: regions and all operations on them. [VmMap]: layout, and the partial function
      from addresses to memory that a list of regions denotes. [VmSplit], [VmOps]:
      what each operation does to it. [VmSpec]: the theorems. Memory objects are the
      interface [Mobjs]; translation tables and pager are calls whose results
      are read from [vm_ext].

    Secure storage, bottom to top.
    - [Htree]: the hash tree in which a file is kept, [core/tee/fs_htree.c].
      [HtreeShape]: the tree is found and grown as a heap. [HtreeSync],
      [HtreeCommit], [HtreeCreate]: reading back, commit, crash safety, reopening.
    - [ReeFs], [ReeFsFile]: files as arrays of bytes over the tree, and its layout in the
      file of normal world, [core/tee/tee_ree_fs.c].
    - [Dirfile], [DirfileSpec]: the directory of objects, [core/tee/fs_dirfile.c], over any
      file that meets the class [ByteFile], which [ReeFsFile] discharges.
    - [ReeStore], [ReeStoreRefs]: the storage calls of [tee_ree_fs.c] over files
      and the shared directory, and the count of references to it.
    - [Pobj]: the registry of open persistent objects, [core/tee/tee_pobj.c], and the rules by
      which several handles may share an object, under the sequences of calls that
      [tee_svc_storage.c] makes (a rename reserves the new name first).

    Secure storage in RPMB, bottom to top: [core/tee/tee_rpmb_fs.c],
    [core/tee/tee_fs_key_manager.c], [core/kernel/huk_subkey.c].
    - [ErrM]: the state and error monad in which this part is written, with its
      weakest preconditions. [FsKey]: derivation and wrapping of keys, encryption of blocks;
      calls out are the class [Env].
    - [Rpmb]: the device, from frames to [tee_rpmb_read] and [tee_rpmb_write]; chip and
      normal world are the class [RpmbEnv], which may answer anything. [RpmbSpec]: what
      each function does to the state, what a read that is accepted has seen. [RpmbWrite]:
      a write request, with any normal world.
    - [RpmbDev], [RpmbBlocks]: the device as the file system sees it (classes [RpmbDev] and
      [RpmbDevLaws]): blocks, the images they go through, the death of the device.
      [RpmbLog]: signed requests and the images they lead to, in whatever order
      normal world delivers them. [RpmbDevice]: what the specification of the chip promises (class
      [RpmbDevice]); the code of [Rpmb] is an instance of [RpmbDevLaws] if moreover normal world
      delivers a request at once or never (class [PromptWorld], used for this link only). [RpmbDevWrite]: what
      [tee_rpmb_write] promises without that. [RpmbChip]: a chip that keeps both. [RpmbDevProps]: the theorems.
    - [RpmbFat], [RpmbFs]: the table of files, its cache, and the operations on
      files, against [RpmbDev]. [RpmbFatSpec], [RpmbFatFind], [RpmbFatFound]: the cache agrees with the
      device, what [read_fat] finds and enters in the pool of [TeeMm], and that it finds what is there. [RpmbFsData],
      [RpmbFsWrite], [RpmbFsOps], [RpmbFsNames], [RpmbFsDir], [RpmbFsCreate]: the
      operations. [RpmbFsProps]: the theorems. [RpmbRam], [RpmbDemo]: a device in memory, and
      concrete runs.

    Cryptographic operations, from the system call to the API.
    - [Cipher]: cipher system calls of [core/tee/tee_svc_cryp.c], the checks of
      [tee_cryp_utl.c], [core/crypto/aes-cts.c] and the ECB and CBC loops of
      [core/lib/libtomcrypt], over any block cipher ([BlockCipherLaws]).
      [CipherModes]: these loops are the modes, compared with a reference definition
      of ciphertext stealing. [CipherSvc]: the interfaces [CipherSvc] and [StreamSvc]
      that the kernel offers to TAs, and the kernel's instance.
    - [TeeOp]: [lib/libutee/tee_api_operations.c] against the interfaces [CipherSvc],
      [KeySvc], [HashSvc], [AuthencSvc]. [TeeOpBuffer]: its buffer of blocks.
      [TeeOpState]: the invariant of an operation. [TeeOpSpec]: cutting a message
      into pieces, for any service. [TeeOpKernel]: the same over the kernel
      of [Cipher]. [TeeOpDemo]: concrete operations.

    Sessions of TAs: [core/kernel/tee_ta_manager.c] with [user_ta.c], [pseudo_ta.c],
    the requests of [core/tee/entry_std.c] and the system calls of [core/tee/tee_svc.c].
    - [Session]: the shared state, the code as programs of atomic actions, waits and calls, and
      the machine that runs any number of threads in any interleaving, with user TAs that make system
      calls to any depth. After an opening that failed the code reads a session it has freed: the machine
      goes on with any value ([steps]) or fails there ([strict_steps]). [SessionLogic]: tokens for what a frame holds, the invariant that ties them to counters and
      locks, safe programs, and adequacy. [SessionActs], [SessionCtx], [SessionLife]: a rule for
      each action. [SessionSafe]: every program is safe. [SessionProps]: the theorems on runs, and
      on ids and deadlines. [SessionDemo]: concrete runs, and runs that fail.

    Memory of normal world: [core/arch/arm/mm/mobj_dyn_shm.c], [core/kernel/msg_param.c] and the
    parameters of [core/tee/entry_std.c].
    - [Shm]: registered shared memory, its references and mappings, as atomic sections. [ShmRefs]: any
      interleaving of them by threads that hold tokens, with the invariant on counters. [ShmSafe]: each
      step keeps it. [ShmRaces]: every step that breaks its assumptions can fail. [ShmAddr]: addresses inside an object.
    - [MsgParams]: lists of pages, parameters of messages copied in and out, clean-up, registration.
      [MsgPages]: the lists of pages. [MsgRefs]: states that differ by references.
      [MsgProps]: the theorems, with a platform to run them on.

    ** What the theorems show

    - Memory of normal world: no interleaving fails an assertion on registered memory or uses a freed
      object ([shm_runs_never_fail]) and counters are exact ([shm_references_exact]), when two races are
      excluded, each of which can be driven to a failure from any state ([shm_races_fail]); every address is in a non-secure page of the object
      ([shm_addresses_nonsecure]). Parameters stay inside their objects ([msg_memrefs_in_bounds]) and give
      their references back ([msg_references_returned]) but for what [msg_cleanup_unchecked] shows; lists of pages
      are read exactly ([msg_extract_pages_exact]); unregistering undoes registering ([msg_register_roundtrip]).

    - Sessions: whatever the interleaving, no assertion of the session manager fails and nothing
      freed is used but the error origin of an opening that failed ([sessions_never_fail]); an instance is entered once at a time and
      single-instance TAs by one thread ([ta_instances_exclusive]); nothing is held when no request is served
      ([idle_sessions_exact]); ids are unique and never run out ([session_ids_unique],
      [new_session_id_fresh]). Clients keep to their sessions, TAs neither
      panic nor are concurrent: [sessions_assumptions_needed] runs what happens otherwise.

    - Safety of resources: ranges of memory ([mm_regions_never_overlap]), regions of an
      address space ([vm_regions_never_overlap]), places of a file's elements
      ([layout_disjoint]) and files of objects ([dirfile_open_dedups]) never overlap.
    - Mutual exclusion and order of locks ([mutex_mutual_exclusion],
      [mutex_no_lost_wakeup], [lockdep_no_circular_wait], [recursive_mutex_correct]).
    - Storage is transactional: a sync that returns makes the new contents those that a
      later opening finds ([htree_sync_durable], [ree_fs_write_durable]), a crash before leaves
      the old ones ([htree_crash_safe]); a file is an array of bytes
      ([ree_fs_write_contents], [ree_fs_truncate_contents]), the directory a map
      ([dirfile_create_object], [dirfile_remove_object]).
    - So is storage in RPMB: whatever fails and in whatever image the chip is left, a file is as
      before or as after the operation and all others are untouched
      ([rpmb_fs_write_atomic], [rpmb_fs_truncate_atomic], [rpmb_fs_create_atomic],
      [rpmb_fs_rename_atomic], [rpmb_fs_remove_atomic]); reading and listing are exact
      ([rpmb_fs_read_contents], [rpmb_fs_opendir_lists], [fat_search_cache_independent]). Below, normal
      world cannot forge what is read ([rpmb_read_refines]); a write changes its blocks only, and success
      means that it was done ([rpmb_write_refines], [rpmb_write_req_acknowledged]) unless normal world had a request
      signed for an old count and replays its acknowledgement ([rpmb_write_replayed]).
      The theorems on files hold for a device whose acknowledgements are not replayed.
    - Access to user memory is decided exactly ([vm_check_access_rights_exact]), and
      mapping calls change exactly the addresses they name ([umap_add_region_exact],
      [vm_unmap_exact], [vm_set_prot_exact], [vm_remap_moves]).
    - Ciphers: the result depends on the message and not on its pieces
      ([ta_cipher_any_pieces]) and deciphering inverts it ([ta_cipher_roundtrip]); an
      operation stays well formed whatever is called on it ([operation_well_formed],
      [buffer_update_in_bounds]).
    - Reference counts are exact ([pobj_refcount_exact], [ree_fs_refcount_exact]), handle
      tables refine maps ([handle_db_refines_map], [ck_handle_db_refines_map]).

    Lemmas such as [VmSpec.map_param_drops_tail], [TeeOpDemo.cipher_update_room_short] or
    [RpmbDemo.write_loses_tail] run the code on an input where it does less than it means to.

    ** Bounds and fuel

    Loops of the source are structural recursions over the list, the counter or the data
    they walk, where there is one. The others have fuel, with a theorem that it suffices:
    the search for a session id (the sessions there are, [new_session_id_fresh]), the depth-first and breadth-first searches of [Lockdep] (the number of nodes and
    edges), the walk over the nodes of a hash tree (the length of a node's number in bits),
    the check of access rights page by page (the pages of the range,
    [vm_check_access_rights_exact]), [tee_buffer_update] (the length of the data), the search of the
    RPMB table (65536, as many blocks as 16 bits address), the copying of a file in
    [update_write_helper] (its size in pieces of 4096 bytes). Where fuel
    could run out the result is a value of its own, excluded by the theorems; only the draws of a file
    key until it is not zero are bounded by an argument of [rpmb_fs_create], since the
    source's loop ends with probability one and not by a count.

    ** Parameters

    Cryptography, random numbers and key wrapping of storage, block ciphers, and hardware
    or normal world below the modelled code are arguments with the laws used as
    named hypotheses; each property with such a hypothesis has a witness with a
    concrete instance. Failures of allocations and of calls out are arguments or lists of
    results, so every error path is run.

    ** Not modelled

    Drivers, platform and boot code, exception vectors, secure monitor and page tables
    (registers and assembly); vendored code (mbedTLS, libtomcrypt but for the two loops,
    libfdt, zlib, libc); the dynamic loader; pseudo TAs and example TAs.

    Of the messages: FF-A (configured out), caching attributes, which no code reads, and the physical memory object behind the
    reserved shared memory but for its counter; [serve] leaves sessions to [Session].

    Of the session manager: the secure partition (StMM), profiling and tracing, which are configured out; the
    copying of parameters, the loader and the entry points of pseudo TAs are answers of the environment. Its theorems on
    runs take the configuration without [CFG_SECURE_DATA_PATH], in which no parameter is refused.

    Not reached: object and storage system calls ([tee_svc_cryp.c], [tee_svc_storage.c], [tee_obj.c]) between
    the operations of [TeeOp] and the storage below, whose work is the layout of attributes in user memory;
    the PKCS#11 TA but for its handles (attributes, serializer, sessions); the memory objects of
    [core/mm/mobj.c] and the pager; hash system calls and the
    modes CTR and XTS; mapping of binaries ([ldelf_syscalls.c]). *)

From stdpp Require Import base gmap list strings relations.
From Stdlib Require Import ZArith Lia.

Local Open Scope Z_scope.

(** ** Machine-width integers

    A C object of an unsigned type of [w] bits is a [Z]; every arithmetic result
    that the source stores in (or computes at) that type goes through the
    corresponding wrap-around. The build modelled is AArch64: [size_t],
    [paddr_t], [vaddr_t] and [uintptr_t] have 64 bits, [unsigned int] 32. *)

Definition wrap (w x : Z) : Z := x mod 2 ^ w.

Definition u8 (x : Z) : Z := x mod 256.
Definition u16 (x : Z) : Z := x mod 65536.
Definition u32 (x : Z) : Z := x mod 4294967296.
Definition u64 (x : Z) : Z := x mod 18446744073709551616.

(** Conversion to a signed type of [w] bits (two's complement). *)
Definition s16 (x : Z) : Z := (x + 32768) mod 65536 - 32768.
Definition s32 (x : Z) : Z := (x + 2147483648) mod 4294967296 - 2147483648.

Definition UINT32_MAX : Z := 4294967295.
Definition UINT64_MAX : Z := 18446744073709551615.

Definition is_u16 (x : Z) : Prop := 0 <= x < 65536.
Definition is_u32 (x : Z) : Prop := 0 <= x < 4294967296.
Definition is_u64 (x : Z) : Prop := 0 <= x < 18446744073709551616.

(** ** Outcomes

    A C function that may call [panic()] or fail an [assert()] returns an
    [outcome]; [Panic] stands for both (neither returns to the caller). *)

Inductive outcome (A : Type) : Type :=
| Return (a : A)
| Panic.
Arguments Return {A} a.
Arguments Panic {A}.

Definition obind {A B} (m : outcome A) (k : A -> outcome B) : outcome B :=
  match m with
  | Return a => k a
  | Panic => Panic
  end.

Declare Scope c_scope.
Delimit Scope c_scope with c.
Notation "'do!' x <- m ; k" := (obind m (fun x => k))
  (at level 10, x pattern, m at level 100, k at level 200) : c_scope.
Notation "'assert!' b ; k" := (if b then k else Panic)
  (at level 10, b at level 100, k at level 200) : c_scope.

(** [(f & m) != 0] *)
Definition has_flag (f m : Z) : bool := negb (Z.land f m =? 0).

(** [BIT(n)] *)
Definition BIT (n : Z) : Z := Z.shiftl 1 n.

(** [!!b] as an integer *)
Definition b2z (b : bool) : Z := if b then 1 else 0.

(** ** [util.h]: rounding macros, at the 64-bit type of [paddr_t] *)

Definition ROUNDUP (v size : Z) : Z :=
  Z.land (u64 (v + (size - 1))) (u64 (Z.lnot (size - 1))).

Definition ROUNDDOWN (v size : Z) : Z :=
  Z.land v (u64 (Z.lnot (size - 1))).

Definition ROUNDUP_DIV (x y : Z) : Z :=
  x / y + (if Z.land x (y - 1) =? 0 then 0 else 1).

(** ** TEE result codes ([tee_api_defines.h]) *)

Definition TEE_SUCCESS : Z := 0x00000000.
Definition TEE_ERROR_CORRUPT_OBJECT : Z := 0xF0100001.
Definition TEE_ERROR_GENERIC : Z := 0xFFFF0000.
Definition TEE_ERROR_ACCESS_DENIED : Z := 0xFFFF0001.
Definition TEE_ERROR_ACCESS_CONFLICT : Z := 0xFFFF0003.
Definition TEE_ERROR_BAD_FORMAT : Z := 0xFFFF0005.
Definition TEE_ERROR_BAD_PARAMETERS : Z := 0xFFFF0006.
Definition TEE_ERROR_BAD_STATE : Z := 0xFFFF0007.
Definition TEE_ERROR_ITEM_NOT_FOUND : Z := 0xFFFF0008.
Definition TEE_ERROR_NOT_SUPPORTED : Z := 0xFFFF000A.
Definition TEE_ERROR_OUT_OF_MEMORY : Z := 0xFFFF000C.
Definition TEE_ERROR_BUSY : Z := 0xFFFF000D.
Definition TEE_ERROR_SECURITY : Z := 0xFFFF000F.
Definition TEE_ERROR_SHORT_BUFFER : Z := 0xFFFF0010.
Definition TEE_ERROR_TARGET_DEAD : Z := 0xFFFF3024.
Definition TEE_ERROR_MAC_INVALID : Z := 0xFFFF3071.

(** ** Automation *)

Create HintDb cint.

(** Unfolds the width operations and calls [lia] with the quotient/remainder
    equations of the constants involved. *)
Ltac cint :=
  unfold u8, u16, u32, u64, s16, s32, is_u16, is_u32, is_u64, UINT32_MAX, UINT64_MAX in *;
  Z.div_mod_to_equations; lia.

(** Case analysis on the innermost [if]/[match] scrutinee of the goal or of a
    hypothesis, keeping the equation. *)
Ltac case_goal :=
  match goal with
  | |- context [if ?b then _ else _] => destruct b eqn:?
  | |- context [match ?x with _ => _ end] => destruct x eqn:?
  end.
Ltac case_hyp H :=
  match type of H with
  | context [if ?b then _ else _] => destruct b eqn:?
  | context [match ?x with _ => _ end] => destruct x eqn:?
  end.

(** Turns boolean comparisons of the context into propositions. *)
Ltac zbool :=
  repeat match goal with
  | H : (_ <? _) = true |- _ => apply Z.ltb_lt in H
  | H : (_ <? _) = false |- _ => apply Z.ltb_ge in H
  | H : (_ <=? _) = true |- _ => apply Z.leb_le in H
  | H : (_ <=? _) = false |- _ => apply Z.leb_gt in H
  | H : (_ >? _) = true |- _ => rewrite Z.gtb_ltb in H; apply Z.ltb_lt in H
  | H : (_ >? _) = false |- _ => rewrite Z.gtb_ltb in H; apply Z.ltb_ge in H
  | H : (_ >=? _) = true |- _ => rewrite Z.geb_leb in H; apply Z.leb_le in H
  | H : (_ >=? _) = false |- _ => rewrite Z.geb_leb in H; apply Z.leb_gt in H
  | H : (_ =? _) = true |- _ => apply Z.eqb_eq in H
  | H : (_ =? _) = false |- _ => apply Z.eqb_neq in H
  | H : (_ && _)%bool = true |- _ => apply andb_true_iff in H; destruct H
  | H : (_ || _)%bool = false |- _ => apply orb_false_iff in H; destruct H
  | H : negb _ = true |- _ => apply negb_true_iff in H
  | H : negb _ = false |- _ => apply negb_false_iff in H
  end.

(** ** Shared lemmas: integers *)

Lemma u32_small x : is_u32 x -> u32 x = x.
Proof. cint. Qed.

Lemma u64_small x : is_u64 x -> u64 x = x.
Proof. cint. Qed.

Lemma u16_small x : is_u16 x -> u16 x = x.
Proof. cint. Qed.

Lemma u32_range x : is_u32 (u32 x).
Proof. cint. Qed.

Lemma u64_range x : is_u64 (u64 x).
Proof. cint. Qed.

#[export] Hint Resolve u32_range u64_range : cint.

(** Masking with [~(2^s - 1)] at 64 bits clears the low [s] bits. *)
Lemma land_lnot_ones64 x s :
  is_u64 x -> 0 <= s < 64 -> Z.land x (u64 (Z.lnot (2 ^ s - 1))) = x - x mod 2 ^ s.
Proof.
  intros Hx Hs.
  assert (Hones : 2 ^ s - 1 = Z.ones s) by (rewrite Z.ones_equiv; lia).
  rewrite Hones. unfold u64.
  change 18446744073709551616 with (2 ^ 64).
  rewrite <- Z.land_ones by lia.
  assert (x = Z.land x (Z.ones 64)) as Hx64.
  { rewrite Z.land_ones by lia. unfold is_u64 in Hx. rewrite Z.mod_small; lia. }
  rewrite (Z.land_comm _ (Z.ones 64)), Z.land_assoc, <- Hx64.
  rewrite <- Z.ldiff_land, Z.ldiff_ones_r, Z.shiftr_div_pow2, Z.shiftl_mul_pow2 by lia.
  pose proof (Z.div_mod x (2 ^ s)). nia.
Qed.

Lemma ROUNDDOWN_spec v s :
  is_u64 v -> 0 <= s < 64 -> ROUNDDOWN v (2 ^ s) = v - v mod 2 ^ s.
Proof. apply land_lnot_ones64. Qed.

Lemma ROUNDUP_spec v s :
  0 <= s < 64 -> 0 <= v -> v + (2 ^ s - 1) < 2 ^ 64 ->
  ROUNDUP v (2 ^ s) = (v + (2 ^ s - 1)) - (v + (2 ^ s - 1)) mod 2 ^ s.
Proof.
  intros Hs Hv Hb. unfold ROUNDUP.
  assert (0 < 2 ^ s) by (apply Z.pow_pos_nonneg; lia).
  assert (is_u64 (v + (2 ^ s - 1))) by (unfold is_u64; lia).
  rewrite u64_small by done. by apply land_lnot_ones64.
Qed.

Lemma b2z_range b : 0 <= b2z b <= 1.
Proof. destruct b; simpl; lia. Qed.

(** A single-bit mask selects that bit. *)
Lemma land_pow2 x k : 0 <= k -> Z.land x (2 ^ k) = if Z.testbit x k then 2 ^ k else 0.
Proof.
  intros Hk. apply Z.bits_inj'. intros n Hn. rewrite Z.land_spec, Z.pow2_bits_eqb by lia.
  destruct (Z.eqb_spec k n) as [->|Hne].
  - rewrite andb_true_r. destruct (Z.testbit x n); [|by rewrite Z.bits_0].
    by rewrite Z.pow2_bits_true.
  - rewrite andb_false_r. destruct (Z.testbit x k); [|by rewrite Z.bits_0].
    by rewrite Z.pow2_bits_false.
Qed.

Lemma has_flag_testbit x k : 0 <= k -> has_flag x (2 ^ k) = Z.testbit x k.
Proof.
  intros Hk. unfold has_flag. rewrite land_pow2 by done.
  assert (0 < 2 ^ k) by (apply Z.pow_pos_nonneg; lia).
  destruct (Z.testbit x k); [|done]. destruct (Z.eqb_spec (2 ^ k) 0); [lia|done].
Qed.

Lemma land_flag_eqb x y k :
  0 <= k -> (Z.land x (2 ^ k) =? Z.land y (2 ^ k)) = Bool.eqb (has_flag x (2 ^ k)) (has_flag y (2 ^ k)).
Proof.
  intros Hk. rewrite !has_flag_testbit, !land_pow2 by done.
  assert (0 < 2 ^ k) by (apply Z.pow_pos_nonneg; lia).
  destruct (Z.testbit x k), (Z.testbit y k); cbn [Bool.eqb]; rewrite ?Z.eqb_eq, ?Z.eqb_neq; lia.
Qed.

(** ** Shared lemmas: lists *)

Lemma filter_all {A} (P : A -> Prop) `{!forall x, Decision (P x)} (l : list A) :
  (forall x, x ∈ l -> P x) -> filter P l = l.
Proof.
  induction l as [|x l IH]; intros Hl; [done|].
  rewrite filter_cons, decide_True by (apply Hl; set_solver). f_equal. apply IH. set_solver.
Qed.

Lemma list_filter_iff_in {A} (P Q : A -> Prop) `{!forall x, Decision (P x), !forall x, Decision (Q x)}
    (l : list A) :
  (forall x, x ∈ l -> P x <-> Q x) -> filter P l = filter Q l.
Proof.
  induction l as [|x l IH]; intros Hl; [done|]. rewrite !filter_cons.
  assert (Hx : P x <-> Q x) by (apply Hl; set_solver).
  rewrite IH by (intros y Hy; apply Hl; set_solver). by rewrite (decide_ext _ _ _ _ Hx).
Qed.

Lemma in_left {A} (l1 l2 : list A) x : x ∈ l1 -> x ∈ l1 ++ l2.
Proof. rewrite elem_of_app. auto. Qed.

Lemma in_right {A} (l1 l2 : list A) x : x ∈ l2 -> x ∈ l1 ++ l2.
Proof. rewrite elem_of_app. auto. Qed.

(** ** Shared lemmas: relations *)

Lemma rtc_mono {A} (R S : A -> A -> Prop) x y :
  (forall x y, R x y -> S x y) -> rtc R x y -> rtc S x y.
Proof. intros HRS Hr. induction Hr; [apply rtc_refl|]. eapply rtc_l; eauto. Qed.

Lemma tc_mono {A} (R S : A -> A -> Prop) x y :
  (forall x y, R x y -> S x y) -> tc R x y -> tc S x y.
Proof. intros HRS Hr. induction Hr; [apply tc_once; auto|]. eapply tc_l; eauto. Qed.

(** ** Counting the elements of a list that pass a test *)

Definition cnt {A} (f : A -> bool) (T : list A) : Z := Z.of_nat (length (List.filter f T)).

Lemma cnt_nil {A} (f : A -> bool) : cnt f [] = 0.
Proof. done. Qed.

Lemma cnt_cons {A} (f : A -> bool) tk T : cnt f (tk :: T) = b2z (f tk) + cnt f T.
Proof. unfold cnt; cbn. destruct (f tk); cbn [length b2z]; lia. Qed.

Lemma cnt_app {A} (f : A -> bool) T1 T2 : cnt f (T1 ++ T2) = cnt f T1 + cnt f T2.
Proof. unfold cnt. rewrite List.filter_app, List.length_app. lia. Qed.

Lemma cnt_nonneg {A} (f : A -> bool) T : 0 <= cnt f T.
Proof. unfold cnt. lia. Qed.

Lemma cnt_pos {A} (f : A -> bool) T tk : tk ∈ T -> f tk = true -> 1 <= cnt f T.
Proof.
  intros H Hf. apply list_elem_of_split in H as (l1 & l2 & ->).
  rewrite cnt_app, cnt_cons, Hf. pose proof (cnt_nonneg f l1). pose proof (cnt_nonneg f l2). cbn [b2z]. lia.
Qed.

Lemma cnt_in {A} (f : A -> bool) T : 0 < cnt f T -> exists tk, tk ∈ T /\ f tk = true.
Proof.
  induction T as [|tk T IH]; [by rewrite cnt_nil|]. rewrite cnt_cons. destruct (f tk) eqn:E.
  - intros _. exists tk. split; [left|done].
  - cbn [b2z]. intros H. destruct IH as (x & Hx & Hf); [lia|]. exists x. split; [by right|done].
Qed.

#[export] Instance cnt_perm {A} (f : A -> bool) : Proper ((≡ₚ) ==> (=)) (cnt f).
Proof.
  intros T1 T2 H. induction H; rewrite ?cnt_cons; try lia.
Qed.

Lemma cnt_mono {A} (f g : A -> bool) T : (forall tk, f tk = true -> g tk = true) -> cnt f T <= cnt g T.
Proof.
  intros H. induction T as [|tk T IH]; [done|]. rewrite !cnt_cons. specialize (H tk).
  destruct (f tk), (g tk); cbn [b2z]; try lia; by rewrite H in *.
Qed.

Lemma cnt_none {A} (f : A -> bool) T : (forall tk, tk ∈ T -> f tk = false) -> cnt f T = 0.
Proof.
  intros H. induction T as [|tk T IH]; [done|]. rewrite cnt_cons, (H tk), IH; [done| |left]. intros x Hx. apply H. by right.
Qed.
