(* ===== verification/TeeMm.v ===== *)
(** * Memory pools: [core/arch/arm/mm/tee_mm.c]

    A pool hands out ranges of blocks of [2^shift] bytes between [lo] and [hi].
    The allocated ranges are a singly linked list that starts at a sentinel
    ([pool->entry]); low pools keep it sorted upwards, [TEE_MM_POOL_HI_ALLOC]
    pools downwards. This file models every operation of the file, the list
    invariant, the disjointness of the ranges handed out and the exactness of
    the first-fit search. *)

From stdpp Require Import base gmap list.
From Stdlib Require Import ZArith Lia.
From S2P Require Import Prelude.

Local Open Scope Z_scope.
Local Open Scope c_scope.

(** ** Data *)

Definition TEE_MM_POOL_HI_ALLOC : Z := BIT 0.
Definition TEE_MM_POOL_NEX_MALLOC : Z := BIT 1.

(** A list cell: its address ([e_ptr], what the C code compares in
    [tee_mm_free]) and its [uint32_t] offset and size in blocks. *)
Record tee_mm_entry := mk_entry {
  e_ptr : Z;
  e_offset : Z;
  e_size : Z
}.

(** [p_entry] is [NULL] ([None]) or the sentinel with the cells reachable from
    its [next]. The spin lock serialises the operations, each of which is one
    transition here. *)
Record tee_mm_pool := mk_pool {
  p_entry : option (tee_mm_entry * list tee_mm_entry);
  p_lo : Z;
  p_hi : Z;
  p_flags : Z;
  p_shift : Z;
  p_max_allocated : Z
}.

#[global] Instance tee_mm_entry_eq_dec : EqDecision tee_mm_entry.
Proof. solve_decision. Defined.

Definition hi_alloc (p : tee_mm_pool) : bool := has_flag (p_flags p) TEE_MM_POOL_HI_ALLOC.

Definition set_entry (p : tee_mm_pool) (e : option (tee_mm_entry * list tee_mm_entry)) : tee_mm_pool :=
  mk_pool e (p_lo p) (p_hi p) (p_flags p) (p_shift p) (p_max_allocated p).

Definition set_max_allocated (p : tee_mm_pool) (m : Z) : tee_mm_pool :=
  mk_pool (p_entry p) (p_lo p) (p_hi p) (p_flags p) (p_shift p) m.

(** ** Operations

    A [pool] or [p] argument that may be [NULL] is an [option]. The result of
    [pmalloc]/[pcalloc] is an argument: the address obtained, or [None]. *)

Definition tee_mm_init (pool : option tee_mm_pool) (lo hi shift flags : Z)
    (mem : option Z) : outcome (option tee_mm_pool * bool) :=
  match pool with
  | None => Return (None, false)
  | Some p =>
      let lo := ROUNDUP lo (Z.shiftl 1 shift) in
      let hi := ROUNDDOWN hi (Z.shiftl 1 shift) in
      assert! (Z.shiftr (u64 (hi - lo)) shift <? UINT32_MAX);
      match mem with
      | None => Return (Some (mk_pool None lo hi flags shift (p_max_allocated p)), false)
      | Some a =>
          let off :=
            if has_flag flags TEE_MM_POOL_HI_ALLOC
            then u32 (u64 (Z.shiftr (u64 (hi - lo - 1)) shift + 1))
            else 0 in
          Return (Some (mk_pool (Some (mk_entry a off 0, [])) lo hi flags shift
                                (p_max_allocated p)), true)
      end
  end.

(** The pointer walks of this file: advance from [e] while [next] exists and
    [go e next] holds. The result splits the cells after the sentinel into those
    walked over, the last of which (or the sentinel) is [entry], and the rest. *)
Fixpoint walk (go : tee_mm_entry -> tee_mm_entry -> bool) (e : tee_mm_entry)
    (next : list tee_mm_entry) : list tee_mm_entry * tee_mm_entry * list tee_mm_entry :=
  match next with
  | [] => ([], e, [])
  | n :: next' =>
      if go e n
      then let '(pre, e', post) := walk go n next' in (n :: pre, e', post)
      else ([], e, next)
  end.

(** [tee_mm_add]: link [nn] after [entry]. *)
Definition tee_mm_add (pre : list tee_mm_entry) (nn : tee_mm_entry) (post : list tee_mm_entry)
    : list tee_mm_entry := pre ++ nn :: post.

Definition tee_mm_stats_allocated (p : tee_mm_pool) : Z :=
  match p_entry p with
  | None => 0
  | Some (s, cells) =>
      u32 (Z.shiftl (foldl (fun sz e => u32 (sz + e_size e)) 0 (s :: cells)) (p_shift p))
  end.

Definition update_max_allocated (p : tee_mm_pool) : tee_mm_pool :=
  let sz := tee_mm_stats_allocated p in
  if sz >? p_max_allocated p then set_max_allocated p sz else p.

(** [struct malloc_stats], the members the pool fills in: size, max_allocated,
    allocated. *)
Definition tee_mm_get_pool_stats (p : tee_mm_pool) (reset : bool) : tee_mm_pool * (Z * Z * Z) :=
  (if reset then set_max_allocated p 0 else p,
   (u64 (p_hi p - p_lo p), p_max_allocated p, tee_mm_stats_allocated p)).

(** Size in blocks of an allocation request. *)
Definition psize_of (size shift : Z) : Z :=
  if size =? 0 then 0 else u64 (Z.shiftr (size - 1) shift + 1).

(** The gap between two neighbours, computed at [uint32_t]. *)
Definition gap_hi (e n : tee_mm_entry) : Z := u32 (u32 (e_offset e - e_offset n) - e_size n).
Definition gap_lo (e n : tee_mm_entry) : Z := u32 (u32 (e_offset n - e_size e) - e_offset e).

(** "check if we have enough memory" *)
Definition tail_has_room (p : tee_mm_pool) (entry : tee_mm_entry) (size : Z) : outcome bool :=
  if hi_alloc p then
    Return (negb (u32 (Z.shiftl (e_offset entry) (p_shift p)) <? size))
  else if p_hi p <=? p_lo p then Panic
  else
    let remaining := u64 (p_hi p - p_lo p) in
    let remaining :=
      u64 (remaining - u32 (Z.shiftl (u32 (e_offset entry + e_size entry)) (p_shift p))) in
    Return (negb (remaining <? size)).

Definition tee_mm_alloc (pool : option tee_mm_pool) (size : Z) (mem : option Z)
    : outcome (option tee_mm_pool * option tee_mm_entry) :=
  match pool with
  | None => Return (None, None)
  | Some p =>
      match p_entry p, mem with
      | None, _ | _, None => Return (Some p, None)
      | Some (s, cells), Some nn =>
          let psize := psize_of size (p_shift p) in
          let '(pre, entry, post) :=
            walk (fun e n => psize >? (if hi_alloc p then gap_hi e n else gap_lo e n)) s cells in
          do! room <- (match post with
                       | [] => tail_has_room p entry size
                       | _ :: _ => Return true
                       end);
          if negb room then Return (Some p, None)
          else
            let off := if hi_alloc p then u32 (e_offset entry - psize)
                       else u32 (e_offset entry + e_size entry) in
            let nn := mk_entry nn off (u32 psize) in
            Return (Some (update_max_allocated (set_entry p (Some (s, tee_mm_add pre nn post)))),
                    Some nn)
      end
  end.

Definition fit_in_gap (p : tee_mm_pool) (e : tee_mm_entry) (next : list tee_mm_entry)
    (offslo offshi : Z) : bool :=
  if hi_alloc p then
    negb ((offshi >? e_offset e)
          || (match next with n :: _ => offslo <? u32 (e_offset n + e_size n) | [] => false end)
          || (u64 (u64 (Z.shiftl offshi (p_shift p)) - 1) >? u64 (p_hi p - p_lo p)))
  else
    negb ((offslo <? u32 (e_offset e + e_size e))
          || (match next with n :: _ => offshi >? e_offset n | [] => false end)
          || (u64 (Z.shiftl offshi (p_shift p)) >? u64 (p_hi p - p_lo p))).

Definition tee_mm_alloc2 (pool : option tee_mm_pool) (base size : Z) (mem : option Z)
    : option tee_mm_pool * option tee_mm_entry :=
  match pool with
  | None => (None, None)
  | Some p =>
      match p_entry p with
      | None => (Some p, None)
      | Some (s, cells) =>
          if (u64 (base + size) <? base) || (base <? p_lo p) then (Some p, None)
          else
            match mem with
            | None => (Some p, None)
            | Some mm =>
                let offslo := Z.shiftr (u64 (base - p_lo p)) (p_shift p) in
                let offshi := u64 (Z.shiftr (u64 (base - p_lo p + size - 1)) (p_shift p) + 1) in
                let go (e n : tee_mm_entry) :=
                  if hi_alloc p then offshi <? u32 (e_offset n + e_size n)
                  else offslo >? e_offset n in
                let '(pre, entry, post) := walk go s cells in
                if negb (fit_in_gap p entry post offslo offshi) then (Some p, None)
                else
                  let mm := mk_entry mm (u32 offslo) (u32 (offshi - offslo)) in
                  (Some (update_max_allocated (set_entry p (Some (s, tee_mm_add pre mm post)))),
                   Some mm)
            end
      end
  end.

(** [pool] is what [p->pool] points to, [p] the address of the cell. *)
Definition tee_mm_free (pool : option tee_mm_pool) (p : option Z) : outcome (option tee_mm_pool) :=
  match p, pool with
  | None, _ => Return pool
  | _, None => Return None
  | Some p, Some pl =>
      match p_entry pl with
      | None => Panic
      | Some (s, cells) =>
          let '(pre, _, post) := walk (fun _ n => negb (e_ptr n =? p)) s cells in
          match post with
          | [] => Panic
          | _ :: post' => Return (Some (set_entry pl (Some (s, pre ++ post'))))
          end
      end
  end.

(** The loop of [tee_mm_final], at most [fuel] times round. *)
Fixpoint tee_mm_final_loop (fuel : nat) (p : tee_mm_pool) : outcome tee_mm_pool :=
  match fuel with
  | O => Return p
  | S fuel' =>
      match p_entry p with
      | Some (_, n :: _) =>
          do! p' <- tee_mm_free (Some p) (Some (e_ptr n));
          match p' with
          | Some p' => tee_mm_final_loop fuel' p'
          | None => Panic
          end
      | _ => Return p
      end
  end.

Definition tee_mm_final (pool : option tee_mm_pool) : outcome (option tee_mm_pool) :=
  match pool with
  | None => Return None
  | Some p =>
      match p_entry p with
      | None => Return (Some p)
      | Some (_, cells) =>
          do! p' <- tee_mm_final_loop (length cells) p;
          Return (Some (set_entry p' None))
      end
  end.

Definition tee_mm_get_bytes (pool : option tee_mm_pool) (mm : option tee_mm_entry) : Z :=
  match mm, pool with
  | Some m, Some p => u32 (Z.shiftl (e_size m) (p_shift p))
  | _, _ => 0
  end.

Definition tee_mm_addr_is_within_range (pool : option tee_mm_pool) (addr : Z) : bool :=
  match pool with
  | None => false
  | Some p => (addr >=? p_lo p) && (addr <=? p_hi p)
  end.

Definition tee_mm_is_empty (pool : option tee_mm_pool) : bool :=
  match pool with
  | None => true
  | Some p =>
      match p_entry p with
      | None | Some (_, []) => true
      | Some (_, _ :: _) => false
      end
  end.

Fixpoint find_cell (off : Z) (cells : list tee_mm_entry) : option tee_mm_entry :=
  match cells with
  | [] => None
  | e :: cells' =>
      if (off >=? e_offset e) && (off <? u32 (e_offset e + e_size e)) then Some e
      else find_cell off cells'
  end.

(** The local [offset] of the C function has type [uint16_t]. *)
Definition tee_mm_find (p : tee_mm_pool) (addr : Z) : outcome (option tee_mm_entry) :=
  let off := u16 (Z.shiftr (u64 (addr - p_lo p)) (p_shift p)) in
  if (addr >? p_hi p) || (addr <? p_lo p) then Return None
  else
    match p_entry p with
    | None => Panic
    | Some (_, cells) => Return (find_cell off cells)
    end.

Definition tee_mm_validate (p : tee_mm_pool) (addr : Z) : outcome bool :=
  do! e <- tee_mm_find p addr;
  Return (match e with Some _ => true | None => false end).

Definition tee_mm_get_smem (p : tee_mm_pool) (mm : tee_mm_entry) : Z :=
  u64 (u32 (Z.shiftl (e_offset mm) (p_shift p)) + p_lo p).

#[global] Arguments tee_mm_free : simpl never.
#[global] Arguments tee_mm_alloc : simpl never.
#[global] Arguments tee_mm_alloc2 : simpl never.

(** ** Invariant *)

(** Number of blocks of the pool. *)
Definition nblocks (p : tee_mm_pool) : Z := Z.shiftr (p_hi p - p_lo p) (p_shift p).

(** Bounds of a pool on which the 32-bit byte offsets of the file are exact:
    block aligned, not empty, smaller than 4 GiB. *)
Definition geometry (p : tee_mm_pool) : Prop :=
  0 <= p_shift p < 31 /\ 0 <= p_lo p < p_hi p /\ p_hi p < 2 ^ 64 /\
  p_hi p - p_lo p < 2 ^ 32 /\
  (2 ^ p_shift p | p_lo p) /\ (2 ^ p_shift p | p_hi p).

Definition cell_ok (e : tee_mm_entry) : Prop := 0 <= e_offset e /\ 0 <= e_size e.

Fixpoint chain_lo (nb : Z) (e : tee_mm_entry) (cells : list tee_mm_entry) : Prop :=
  match cells with
  | [] => e_offset e + e_size e <= nb
  | n :: cells' => e_offset e + e_size e <= e_offset n /\ chain_lo nb n cells'
  end.

Fixpoint chain_hi (e : tee_mm_entry) (cells : list tee_mm_entry) : Prop :=
  match cells with
  | [] => 0 <= e_offset e
  | n :: cells' => e_offset n + e_size n <= e_offset e /\ chain_hi n cells'
  end.

Definition chain (p : tee_mm_pool) (s : tee_mm_entry) (cells : list tee_mm_entry) : Prop :=
  if hi_alloc p then e_offset s = nblocks p /\ chain_hi s cells
  else e_offset s = 0 /\ chain_lo (nblocks p) s cells.

Definition wf_pool (p : tee_mm_pool) : Prop :=
  geometry p /\
  exists s cells, p_entry p = Some (s, cells) /\ e_size s = 0 /\
    Forall cell_ok (s :: cells) /\ chain p s cells.

Definition pool_cells (p : tee_mm_pool) : list tee_mm_entry :=
  match p_entry p with Some (_, cells) => cells | None => [] end.

Definition blocks_disjoint (a b : tee_mm_entry) : Prop :=
  e_offset a + e_size a <= e_offset b \/ e_offset b + e_size b <= e_offset a.

(** Byte ranges handed out, as the clients of the pool see them. *)
Definition region_in_pool (p : tee_mm_pool) (e : tee_mm_entry) : Prop :=
  p_lo p <= tee_mm_get_smem p e /\
  tee_mm_get_smem p e + tee_mm_get_bytes (Some p) (Some e) <= p_hi p.

Definition regions_disjoint (p : tee_mm_pool) (a b : tee_mm_entry) : Prop :=
  tee_mm_get_smem p a + tee_mm_get_bytes (Some p) (Some a) <= tee_mm_get_smem p b \/
  tee_mm_get_smem p b + tee_mm_get_bytes (Some p) (Some b) <= tee_mm_get_smem p a.

(** A run of [n] blocks from [b] that no cell of the pool touches. *)
Definition free_run (p : tee_mm_pool) (b n : Z) : Prop :=
  0 <= b /\ b + n <= nblocks p /\
  forall e, e ∈ pool_cells p -> e_offset e + e_size e <= b \/ b + n <= e_offset e.

(** ** Lemmas: geometry *)

Lemma nblocks_bytes p : geometry p -> nblocks p * 2 ^ p_shift p = p_hi p - p_lo p.
Proof.
  intros (Hs & Hlo & _ & _ & [a Ha] & [b Hb]). unfold nblocks.
  rewrite Z.shiftr_div_pow2 by lia.
  assert (0 < 2 ^ p_shift p) by (apply Z.pow_pos_nonneg; lia).
  replace (p_hi p - p_lo p) with ((b - a) * 2 ^ p_shift p) by lia.
  by rewrite Z.div_mul by lia.
Qed.

Lemma shift_pos p : geometry p -> 1 <= 2 ^ p_shift p < 2 ^ 31.
Proof.
  intros (Hs & _). split.
  - assert (0 < 2 ^ p_shift p) by (apply Z.pow_pos_nonneg; lia). lia.
  - apply Z.pow_lt_mono_r; lia.
Qed.

Lemma nblocks_bound p : geometry p -> 1 <= nblocks p < 2 ^ 32.
Proof.
  intros Hg. pose proof (nblocks_bytes p Hg). pose proof (shift_pos p Hg).
  destruct Hg as (_ & Hlo & _ & Hb & _). nia.
Qed.

(** Inside the pool a block count shifted at [uint32_t] does not wrap. *)
Lemma shiftl_exact p b :
  geometry p -> 0 <= b <= nblocks p ->
  u32 (Z.shiftl b (p_shift p)) = b * 2 ^ p_shift p /\
  0 <= b * 2 ^ p_shift p <= p_hi p - p_lo p.
Proof.
  intros Hg Hb. pose proof (nblocks_bytes p Hg). pose proof (shift_pos p Hg).
  assert (0 <= b * 2 ^ p_shift p <= p_hi p - p_lo p) by nia.
  destruct Hg as (Hs & Hlo & _ & Hlt & _).
  rewrite Z.shiftl_mul_pow2 by lia. split; [|done].
  apply u32_small. unfold is_u32. lia.
Qed.

Lemma psize_bounds p size :
  geometry p -> 0 < size < 2 ^ 64 ->
  1 <= psize_of size (p_shift p) < 2 ^ 64 /\
  (psize_of size (p_shift p) - 1) * 2 ^ p_shift p < size <= psize_of size (p_shift p) * 2 ^ p_shift p
  \/ (p_shift p = 0 /\ psize_of size (p_shift p) = size).
Proof.
  intros Hg Hsz. pose proof (shift_pos p Hg). destruct Hg as (Hs & _).
  unfold psize_of. destruct (Z.eqb_spec size 0); [lia|].
  rewrite Z.shiftr_div_pow2 by lia.
  pose proof (Z.div_mod (size - 1) (2 ^ p_shift p)) as Hd.
  pose proof (Z.mod_pos_bound (size - 1) (2 ^ p_shift p)) as Hm.
  destruct (decide (p_shift p = 0)) as [H0|Hn].
  - right. rewrite H0 in *. change (2 ^ 0) with 1. rewrite Z.div_1_r. split; [done|].
    rewrite u64_small; [lia|unfold is_u64; lia].
  - left. set (q := (size - 1) / 2 ^ p_shift p) in *.
    assert (2 <= 2 ^ p_shift p).
    { change 2 with (2 ^ 1) at 1. apply Z.pow_le_mono_r; lia. }
    assert (0 <= q) by (apply Z.div_pos; lia).
    assert (q + 1 < 2 ^ 64) by nia.
    rewrite u64_small by (unfold is_u64; lia). nia.
Qed.

(** A request of [size > 0] bytes takes the least number of blocks covering it. *)
Lemma psize_spec p size :
  geometry p -> 0 < size < 2 ^ 64 ->
  1 <= psize_of size (p_shift p) /\
  (psize_of size (p_shift p) - 1) * 2 ^ p_shift p < size <= psize_of size (p_shift p) * 2 ^ p_shift p.
Proof.
  intros Hg Hsz. destruct (psize_bounds p size Hg Hsz) as [|[Hs ->]]; [lia|].
  rewrite Hs. change (2 ^ 0) with 1. lia.
Qed.

Lemma psize_fits p size nb :
  geometry p -> 0 <= size < 2 ^ 64 -> 0 <= nb ->
  psize_of size (p_shift p) <= nb <-> size <= nb * 2 ^ p_shift p.
Proof.
  intros Hg Hsz Hnb. pose proof (shift_pos p Hg).
  destruct (decide (size = 0)) as [->|Hne].
  - unfold psize_of. simpl. nia.
  - destruct (psize_spec p size Hg) as (? & ? & ?); [lia|]. nia.
Qed.

(** ** Lemmas: the walk *)

Lemma walk_app go e cells pre e' post :
  walk go e cells = (pre, e', post) -> cells = pre ++ post.
Proof.
  revert e pre e' post. induction cells as [|n cells IH]; intros e pre e' post; simpl.
  - intros [= <- <- <-]. done.
  - destruct (go e n).
    + destruct (walk go n cells) as [[pre0 e0] post0] eqn:Hw.
      intros [= <- <- <-]. simpl. f_equal. eauto.
    + intros [= <- <- <-]. done.
Qed.

Lemma walk_last go e cells pre e' post :
  walk go e cells = (pre, e', post) -> last (e :: pre) = Some e'.
Proof.
  revert e pre e' post. induction cells as [|n cells IH]; intros e pre e' post; simpl.
  - intros [= <- <- <-]. done.
  - destruct (go e n).
    + destruct (walk go n cells) as [[pre0 e0] post0] eqn:Hw.
      intros [= <- <- <-]. simpl. apply IH in Hw. by destruct pre0.
    + intros [= <- <- <-]. done.
Qed.

Lemma walk_entry_in go e cells pre e' post :
  walk go e cells = (pre, e', post) -> e' ∈ e :: cells.
Proof.
  intros Hw. pose proof (walk_app _ _ _ _ _ _ Hw) as ->.
  apply walk_last in Hw. apply last_Some in Hw as [l Hl].
  assert (e' ∈ e :: pre) by (rewrite Hl; set_solver). set_solver.
Qed.

Lemma walk_stop go e cells pre e' n post :
  walk go e cells = (pre, e', n :: post) -> go e' n = false.
Proof.
  revert e pre e'. induction cells as [|m cells IH]; intros e pre e'; simpl; [done|].
  destruct (go e m) eqn:Hg.
  - destruct (walk go m cells) as [[pre0 e0] post0] eqn:Hw.
    intros [= <- <- ->]. eauto.
  - intros [= <- <- <- <-]. done.
Qed.

(** Splicing a cell in at the end of a walk keeps the chain. *)
Lemma chain_lo_insert go nb e cells pre e' post nn :
  walk go e cells = (pre, e', post) -> chain_lo nb e cells ->
  e_offset e' + e_size e' <= e_offset nn -> chain_lo nb nn post ->
  chain_lo nb e (pre ++ nn :: post).
Proof.
  revert e pre e' post. induction cells as [|n cells IH]; intros e pre e' post; simpl.
  - intros [= <- <- <-] ? ? ?. simpl. auto.
  - destruct (go e n).
    + destruct (walk go n cells) as [[pre0 e0] post0] eqn:Hw.
      intros [= <- <- <-] [? ?] ? ?. simpl. eauto.
    + intros [= <- <- <-] [? ?] ? ?. simpl in *. auto.
Qed.

Lemma chain_hi_insert go e cells pre e' post nn :
  walk go e cells = (pre, e', post) -> chain_hi e cells ->
  e_offset nn + e_size nn <= e_offset e' -> chain_hi nn post ->
  chain_hi e (pre ++ nn :: post).
Proof.
  revert e pre e' post. induction cells as [|n cells IH]; intros e pre e' post; simpl.
  - intros [= <- <- <-] ? ? ?. simpl. auto.
  - destruct (go e n).
    + destruct (walk go n cells) as [[pre0 e0] post0] eqn:Hw.
      intros [= <- <- <-] [? ?] ? ?. simpl. eauto.
    + intros [= <- <- <-] [? ?] ? ?. simpl in *. auto.
Qed.

Lemma walk_chain_lo go nb e cells pre e' post :
  walk go e cells = (pre, e', post) -> chain_lo nb e cells -> chain_lo nb e' post.
Proof.
  revert e pre e' post. induction cells as [|n cells IH]; intros e pre e' post; simpl.
  - intros [= <- <- <-]. done.
  - destruct (go e n).
    + destruct (walk go n cells) as [[pre0 e0] post0] eqn:Hw.
      intros [= <- <- <-] [? ?]. eauto.
    + intros [= <- <- <-]. done.
Qed.

Lemma walk_chain_hi go e cells pre e' post :
  walk go e cells = (pre, e', post) -> chain_hi e cells -> chain_hi e' post.
Proof.
  revert e pre e' post. induction cells as [|n cells IH]; intros e pre e' post; simpl.
  - intros [= <- <- <-]. done.
  - destruct (go e n).
    + destruct (walk go n cells) as [[pre0 e0] post0] eqn:Hw.
      intros [= <- <- <-] [? ?]. eauto.
    + intros [= <- <- <-]. done.
Qed.

(** ** Lemmas: order and disjointness in a chain *)

Lemma chain_lo_bounds nb e cells :
  Forall cell_ok (e :: cells) -> chain_lo nb e cells ->
  e_offset e + e_size e <= nb /\
  forall x, x ∈ cells -> e_offset e + e_size e <= e_offset x /\ e_offset x + e_size x <= nb.
Proof.
  revert e. induction cells as [|n cells IH]; intros e Hok Hch; simpl in Hch.
  - split; [done|]. set_solver.
  - destruct Hch as [Hen Hch]. inversion Hok as [|? ? He Hoks]; subst.
    inversion Hoks as [|? ? Hn ?]; subst. unfold cell_ok in *.
    destruct (IH n Hoks Hch) as [Hnb Hall]. split; [lia|].
    intros x [->|Hx]%elem_of_cons; [lia|]. specialize (Hall x Hx). lia.
Qed.

Lemma chain_hi_bounds e cells :
  Forall cell_ok (e :: cells) -> chain_hi e cells ->
  forall x, x ∈ cells -> e_offset x + e_size x <= e_offset e.
Proof.
  revert e. induction cells as [|n cells IH]; intros e Hok Hch; simpl in Hch.
  - set_solver.
  - destruct Hch as [Hen Hch]. inversion Hok as [|? ? He Hoks]; subst.
    inversion Hoks as [|? ? Hn ?]; subst. unfold cell_ok in *.
    intros x [->|Hx]%elem_of_cons; [lia|]. specialize (IH n Hoks Hch x Hx). lia.
Qed.

Lemma chain_lo_disjoint nb e pre nn post :
  Forall cell_ok (e :: pre ++ nn :: post) -> chain_lo nb e (pre ++ nn :: post) ->
  (forall x, x ∈ pre -> e_offset x + e_size x <= e_offset nn) /\
  (forall x, x ∈ post -> e_offset nn + e_size nn <= e_offset x) /\
  e_offset nn + e_size nn <= nb.
Proof.
  revert e. induction pre as [|m pre IH]; intros e Hok Hch; simpl in *.
  - destruct Hch as [? Hch]. inversion Hok as [|? ? ? Hok']; subst.
    destruct (chain_lo_bounds _ _ _ Hok' Hch) as [? Hall].
    split_and!; [set_solver| |done]. intros x Hx. specialize (Hall x Hx). lia.
  - destruct Hch as [? Hch]. inversion Hok as [|? ? ? Hok']; subst.
    destruct (IH m Hok' Hch) as (H1 & H2 & H3). split_and!; [|done..].
    intros x [->|Hx]%elem_of_cons; [|auto].
    destruct (chain_lo_bounds _ _ _ Hok' Hch) as [_ Hall].
    apply (Hall nn). set_solver.
Qed.

Lemma chain_hi_disjoint e pre nn post :
  Forall cell_ok (e :: pre ++ nn :: post) -> chain_hi e (pre ++ nn :: post) ->
  (forall x, x ∈ pre -> e_offset nn + e_size nn <= e_offset x) /\
  (forall x, x ∈ post -> e_offset x + e_size x <= e_offset nn).
Proof.
  revert e. induction pre as [|m pre IH]; intros e Hok Hch; simpl in *.
  - destruct Hch as [? Hch]. inversion Hok as [|? ? ? Hok']; subst.
    pose proof (chain_hi_bounds _ _ Hok' Hch) as Hall.
    split; [set_solver|done].
  - destruct Hch as [? Hch]. inversion Hok as [|? ? ? Hok']; subst.
    destruct (IH m Hok' Hch) as (H1 & H2). split; [|done].
    intros x [->|Hx]%elem_of_cons; [|auto].
    apply (chain_hi_bounds _ _ Hok' Hch). set_solver.
Qed.

(** Every cell of a well-formed pool lies between block 0 and block [nblocks]. *)
Lemma chain_cell_range p s cells e :
  Forall cell_ok (s :: cells) -> e_size s = 0 -> chain p s cells -> e ∈ cells ->
  0 <= e_offset e /\ 0 <= e_size e /\ e_offset e + e_size e <= nblocks p.
Proof.
  intros Hok Hs Hch He.
  assert (cell_ok e) as [? ?].
  { rewrite Forall_forall in Hok. apply Hok. set_solver. }
  split_and!; [done..|]. unfold chain in Hch.
  destruct (hi_alloc p); destruct Hch as [Hoff Hch].
  - pose proof (chain_hi_bounds _ _ Hok Hch e He). lia.
  - destruct (chain_lo_bounds _ _ _ Hok Hch) as [_ Hall]. by apply Hall.
Qed.

Lemma chain_split_disjoint p s pre nn post :
  Forall cell_ok (s :: pre ++ nn :: post) -> chain p s (pre ++ nn :: post) ->
  forall x, x ∈ pre ++ post -> blocks_disjoint x nn.
Proof.
  intros Hok Hch x Hx. unfold chain in Hch. unfold blocks_disjoint.
  apply elem_of_app in Hx.
  destruct (hi_alloc p); destruct Hch as [_ Hch].
  - destruct (chain_hi_disjoint _ _ _ _ Hok Hch) as [H1 H2].
    destruct Hx as [Hx|Hx]; [right; auto|left; auto].
  - destruct (chain_lo_disjoint _ _ _ _ _ Hok Hch) as (H1 & H2 & _).
    destruct Hx as [Hx|Hx]; [left; auto|right; auto].
Qed.

Lemma chain_pairwise p s cells i j a b :
  Forall cell_ok (s :: cells) -> chain p s cells -> i ≠ j ->
  cells !! i = Some a -> cells !! j = Some b -> blocks_disjoint a b.
Proof.
  intros Hok Hch Hij Ha Hb.
  rewrite <- (take_drop_middle _ _ _ Hb) in Hok, Hch.
  apply (chain_split_disjoint _ _ _ _ _ Hok Hch).
  apply elem_of_app.
  destruct (decide (i < j)%nat).
  - left. apply list_elem_of_lookup. exists i. by rewrite lookup_take_lt.
  - right. apply list_elem_of_lookup. exists (i - S j)%nat. rewrite lookup_drop.
    by replace (S j + (i - S j))%nat with i by lia.
Qed.

(** ** Lemmas: the first-fit search *)

Lemma gap_lo_exact nb e n cells :
  nb < 2 ^ 32 -> Forall cell_ok (e :: n :: cells) -> chain_lo nb e (n :: cells) ->
  gap_lo e n = e_offset n - (e_offset e + e_size e).
Proof.
  intros Hnb Hok Hch. inversion Hok as [|? ? He Hok']; subst.
  destruct Hch as [Hen Hch]. destruct (chain_lo_bounds _ _ _ Hok' Hch) as [Hn _].
  inversion Hok' as [|? ? Hn' _]; subst. unfold cell_ok in *. unfold gap_lo. cint.
Qed.

Lemma gap_hi_exact e n cells :
  e_offset e < 2 ^ 32 -> Forall cell_ok (e :: n :: cells) -> chain_hi e (n :: cells) ->
  gap_hi e n = e_offset e - (e_offset n + e_size n).
Proof.
  intros He Hok [Hen _]. inversion Hok as [|? ? He' Hok']; subst.
  inversion Hok' as [|? ? Hn' _]; subst. unfold cell_ok in *. unfold gap_hi. cint.
Qed.

(** Where the walk stops, the gap is large enough. *)
Lemma walk_gap_lo psize nb e cells pre e' n post :
  nb < 2 ^ 32 -> Forall cell_ok (e :: cells) -> chain_lo nb e cells ->
  walk (fun e n => psize >? gap_lo e n) e cells = (pre, e', n :: post) ->
  e_offset e' + e_size e' + psize <= e_offset n.
Proof.
  intros Hnb Hok Hch Hw. pose proof (walk_stop _ _ _ _ _ _ _ Hw) as Hstop.
  pose proof (walk_chain_lo _ _ _ _ _ _ _ Hw Hch) as Hch'.
  pose proof (walk_app _ _ _ _ _ _ Hw) as Happ.
  pose proof (walk_entry_in _ _ _ _ _ _ Hw) as Hin.
  assert (Forall cell_ok (e' :: n :: post)) as Hok'.
  { rewrite Forall_forall in *. intros x Hx. apply Hok. set_solver. }
  cbv beta in Hstop. erewrite gap_lo_exact in Hstop by done. zbool. lia.
Qed.

Lemma walk_gap_hi psize e cells pre e' n post :
  e_offset e < 2 ^ 32 -> Forall cell_ok (e :: cells) -> chain_hi e cells ->
  walk (fun e n => psize >? gap_hi e n) e cells = (pre, e', n :: post) ->
  e_offset n + e_size n + psize <= e_offset e'.
Proof.
  intros He Hok Hch Hw. pose proof (walk_stop _ _ _ _ _ _ _ Hw) as Hstop.
  pose proof (walk_chain_hi _ _ _ _ _ _ Hw Hch) as Hch'.
  pose proof (walk_app _ _ _ _ _ _ Hw) as Happ.
  pose proof (walk_entry_in _ _ _ _ _ _ Hw) as Hin.
  assert (Forall cell_ok (e' :: n :: post)) as Hok'.
  { rewrite Forall_forall in *. intros x Hx. apply Hok. set_solver. }
  assert (e_offset e' <= e_offset e).
  { apply elem_of_cons in Hin as [->|Hin]; [lia|].
    pose proof (chain_hi_bounds _ _ Hok Hch _ Hin).
    inversion Hok' as [|? ? [? ?] ?]; subst. lia. }
  cbv beta in Hstop. erewrite gap_hi_exact in Hstop by (done || lia). zbool. lia.
Qed.

(** If some free run lies above [e], the search does not miss the room. *)
Lemma walk_complete_lo psize nb e cells pre e' post b :
  nb < 2 ^ 32 -> 1 <= psize -> Forall cell_ok (e :: cells) -> chain_lo nb e cells ->
  walk (fun e n => psize >? gap_lo e n) e cells = (pre, e', post) ->
  e_offset e + e_size e <= b -> b + psize <= nb ->
  (forall x, x ∈ cells -> e_offset x + e_size x <= b \/ b + psize <= e_offset x) ->
  post = [] -> e_offset e' + e_size e' + psize <= nb.
Proof.
  intros Hnb Hp. revert e pre e' post. induction cells as [|n cells IH];
    intros e pre e' post Hok Hch Hw Heb Hbn Hrun Hpost; simpl in Hw.
  - injection Hw as <- <- <-. lia.
  - rewrite (gap_lo_exact nb e n cells) in Hw by done.
    destruct (psize >? _) eqn:Hgt; [|by injection Hw as <- <- <-].
    destruct (walk _ n cells) as [[pre0 e0] post0] eqn:Hw0.
    injection Hw as <- <- <-. zbool.
    destruct (Hrun n) as [Hn|Hn]; [set_solver| |].
    + inversion Hok as [|? ? ? Hok']; subst. destruct Hch as [_ Hch].
      eapply (IH n); eauto. intros x Hx. apply Hrun. set_solver.
    + lia.
Qed.

Lemma walk_complete_hi psize e cells pre e' post b :
  e_offset e < 2 ^ 32 -> 1 <= psize -> Forall cell_ok (e :: cells) -> chain_hi e cells ->
  walk (fun e n => psize >? gap_hi e n) e cells = (pre, e', post) ->
  0 <= b -> b + psize <= e_offset e ->
  (forall x, x ∈ cells -> e_offset x + e_size x <= b \/ b + psize <= e_offset x) ->
  post = [] -> psize <= e_offset e'.
Proof.
  intros He Hp. revert e He pre e' post. induction cells as [|n cells IH];
    intros e He pre e' post Hok Hch Hw Heb Hbn Hrun Hpost; simpl in Hw.
  - injection Hw as <- <- <-. lia.
  - rewrite (gap_hi_exact e n cells) in Hw by done.
    destruct (psize >? _) eqn:Hgt; [|by injection Hw as <- <- <-].
    destruct (walk _ n cells) as [[pre0 e0] post0] eqn:Hw0.
    injection Hw as <- <- <-. zbool.
    inversion Hok as [|? ? ? Hok']; subst. destruct Hch as [Hen Hch].
    inversion Hok' as [|? ? [? ?] ?]; subst.
    destruct (Hrun n) as [Hn|Hn]; [set_solver|lia|].
    eapply (IH n); eauto; [lia|]. intros x Hx. apply Hrun. set_solver.
Qed.

(** ** Lemmas: allocation *)

(** What an operation on the list leaves alone. *)
Definition same_geometry (p q : tee_mm_pool) : Prop :=
  p_lo q = p_lo p /\ p_hi q = p_hi p /\ p_flags q = p_flags p /\ p_shift q = p_shift p.

Lemma insert_geometry p c : same_geometry p (update_max_allocated (set_entry p c)).
Proof. unfold update_max_allocated. case_goal; done. Qed.

Lemma insert_cells p c : p_entry (update_max_allocated (set_entry p c)) = c.
Proof. unfold update_max_allocated. case_goal; done. Qed.

Lemma same_geometry_nblocks p q : same_geometry p q -> nblocks q = nblocks p.
Proof. intros (H1 & H2 & H3 & H4). unfold nblocks. by rewrite H1, H2, H4. Qed.

Lemma same_geometry_hi p q : same_geometry p q -> hi_alloc q = hi_alloc p.
Proof. intros (H1 & H2 & H3 & H4). unfold hi_alloc. by rewrite H3. Qed.

Lemma wf_insert p q s cells :
  geometry p -> same_geometry p q -> p_entry q = Some (s, cells) -> e_size s = 0 ->
  Forall cell_ok (s :: cells) -> chain p s cells -> wf_pool q.
Proof.
  intros Hg Hsame He Hs Hok Hch. split.
  - destruct Hsame as (H1 & H2 & H3 & H4). unfold geometry. by rewrite H1, H2, H4.
  - exists s, cells. split_and!; [done..|].
    unfold chain. rewrite (same_geometry_hi p q Hsame), (same_geometry_nblocks p q Hsame). done.
Qed.

Lemma Forall_cell_insert s pre nn post :
  Forall cell_ok (s :: pre ++ post) -> cell_ok nn -> Forall cell_ok (s :: pre ++ nn :: post).
Proof.
  rewrite !Forall_cons, !Forall_app, Forall_cons. naive_solver.
Qed.

(** The room check after the last cell compares bytes; it decides whether the
    blocks fit. *)
Lemma tail_room_lo p e size :
  geometry p -> hi_alloc p = false -> 0 <= size < 2 ^ 64 -> cell_ok e ->
  e_offset e + e_size e <= nblocks p ->
  tail_has_room p e size =
    Return (psize_of size (p_shift p) <=? nblocks p - (e_offset e + e_size e)).
Proof.
  intros Hg Hlo Hsz [? ?] Hle. unfold tail_has_room. rewrite Hlo.
  pose proof (nblocks_bound p Hg). pose proof (nblocks_bytes p Hg).
  rewrite (u32_small (e_offset e + e_size e)) by (unfold is_u32; lia).
  destruct (shiftl_exact p (e_offset e + e_size e) Hg) as [-> Hb]; [lia|].
  pose proof (psize_fits p size (nblocks p - (e_offset e + e_size e)) Hg Hsz ltac:(lia)) as Hps.
  destruct Hg as (_ & ? & ? & ? & _).
  destruct (Z.leb_spec (p_hi p) (p_lo p)); [lia|].
  rewrite (u64_small (p_hi p - p_lo p)) by (unfold is_u64; lia).
  rewrite u64_small by (unfold is_u64; lia). f_equal.
  apply eq_bool_prop_intro. rewrite negb_True, !Is_true_true, Z.ltb_lt, Z.leb_le. nia.
Qed.

Lemma tail_room_hi p e size :
  geometry p -> hi_alloc p = true -> 0 <= size < 2 ^ 64 -> 0 <= e_offset e <= nblocks p ->
  tail_has_room p e size = Return (psize_of size (p_shift p) <=? e_offset e).
Proof.
  intros Hg Hhi Hsz Hle. unfold tail_has_room. rewrite Hhi.
  destruct (shiftl_exact p (e_offset e) Hg) as [-> Hb]; [lia|].
  pose proof (psize_fits p size (e_offset e) Hg Hsz ltac:(lia)) as Hps. f_equal.
  apply eq_bool_prop_intro. rewrite negb_True, !Is_true_true, Z.ltb_lt, Z.leb_le. lia.
Qed.

Lemma psize_nonneg size shift : 0 <= psize_of size shift.
Proof. unfold psize_of. case_goal; [lia|]. apply u64_range. Qed.

(** Linking a range that fits behind [e'] keeps the chain, and the 32-bit
    stores of its offset and size are exact. *)
Lemma link_lo go nb s cells pre e' post a ps :
  nb < 2 ^ 32 -> Forall cell_ok (s :: cells) -> chain_lo nb s cells ->
  walk go s cells = (pre, e', post) -> 0 <= ps ->
  e_offset e' + e_size e' + ps <= match post with n :: _ => e_offset n | [] => nb end ->
  let nn := mk_entry a (u32 (e_offset e' + e_size e')) (u32 ps) in
  nn = mk_entry a (e_offset e' + e_size e') ps /\ cell_ok nn /\ chain_lo nb s (pre ++ nn :: post).
Proof.
  intros Hnb Hok Hch Hw Hps Hfit nn.
  pose proof (walk_chain_lo _ _ _ _ _ _ _ Hw Hch) as Hch'.
  pose proof (walk_entry_in _ _ _ _ _ _ Hw) as Hin.
  pose proof (walk_app _ _ _ _ _ _ Hw) as Happ.
  assert (Forall cell_ok (e' :: post)) as Hok'.
  { rewrite Forall_forall in *. intros x Hx. apply Hok. set_solver. }
  assert (0 <= e_offset e' + e_size e' /\ e_offset e' + e_size e' + ps <= nb) as [H1 H2].
  { inversion Hok' as [|? ? [? ?] Hok'']; subst. split; [lia|].
    destruct post as [|n post]; [done|].
    destruct (chain_lo_bounds _ _ _ Hok' Hch') as [_ Hall].
    destruct (Hall n) as [_ ?]; [set_solver|].
    inversion Hok'' as [|? ? [? ?] _]; subst. lia. }
  subst nn. rewrite !u32_small by (unfold is_u32; lia).
  split_and!; [done|unfold cell_ok; simpl; lia|].
  eapply chain_lo_insert; [done|done|simpl; lia|].
  destruct post as [|n post]; simpl in *; [lia|]. split; [lia|apply Hch'].
Qed.

Lemma link_hi go s cells pre e' post a ps :
  e_offset s < 2 ^ 32 -> Forall cell_ok (s :: cells) -> chain_hi s cells ->
  walk go s cells = (pre, e', post) -> 0 <= ps ->
  ps + match post with n :: _ => e_offset n + e_size n | [] => 0 end <= e_offset e' ->
  let nn := mk_entry a (u32 (e_offset e' - ps)) (u32 ps) in
  nn = mk_entry a (e_offset e' - ps) ps /\ cell_ok nn /\ chain_hi s (pre ++ nn :: post).
Proof.
  intros Hs Hok Hch Hw Hps Hfit nn.
  pose proof (walk_chain_hi _ _ _ _ _ _ Hw Hch) as Hch'.
  pose proof (walk_entry_in _ _ _ _ _ _ Hw) as Hin.
  pose proof (walk_app _ _ _ _ _ _ Hw) as Happ.
  assert (Forall cell_ok (e' :: post)) as Hok'.
  { rewrite Forall_forall in *. intros x Hx. apply Hok. set_solver. }
  inversion Hok' as [|? ? [? ?] Hok'']; subst.
  assert (e_offset e' <= e_offset s).
  { apply elem_of_cons in Hin as [->|Hin]; [lia|].
    pose proof (chain_hi_bounds _ _ Hok Hch _ Hin). lia. }
  assert (ps <= e_offset e').
  { destruct post as [|n post]; [lia|]. inversion Hok'' as [|? ? [? ?] _]; subst. lia. }
  subst nn. rewrite !u32_small by (unfold is_u32; lia).
  split_and!; [done|unfold cell_ok; simpl; lia|].
  eapply chain_hi_insert; [done|done|simpl; lia|].
  destruct post as [|n post]; simpl in *; [lia|]. split; [lia|apply Hch'].
Qed.

(** The result of a successful insertion: the pool stays well formed, the new
    cell is spliced into the old list and nothing else changes. *)
Definition inserted (p q : tee_mm_pool) (e : tee_mm_entry) : Prop :=
  wf_pool q /\ same_geometry p q /\
  exists pre post, pool_cells p = pre ++ post /\ pool_cells q = pre ++ e :: post.

Lemma inserted_intro p s pre post nn :
  geometry p -> p_entry p = Some (s, pre ++ post) -> e_size s = 0 ->
  Forall cell_ok (s :: pre ++ post) -> cell_ok nn -> chain p s (pre ++ nn :: post) ->
  inserted p (update_max_allocated (set_entry p (Some (s, tee_mm_add pre nn post)))) nn.
Proof.
  intros Hg He Hs Hok Hnn Hch. split_and!.
  - eapply (wf_insert p); [done|apply insert_geometry|apply insert_cells|done| |done].
    by apply Forall_cell_insert.
  - apply insert_geometry.
  - exists pre, post. unfold pool_cells. rewrite insert_cells, He. done.
Qed.

(** ** Lemmas: [tee_mm_alloc] *)

Definition alloc_result (p : tee_mm_pool) (size a : Z)
    (r : option tee_mm_pool * option tee_mm_entry) : Prop :=
  match r with
  | (Some q, Some e) =>
      inserted p q e /\ e_ptr e = a /\ e_size e = psize_of size (p_shift p)
  | (Some q, None) =>
      q = p /\ (0 < size -> forall b, ~ free_run p b (psize_of size (p_shift p)))
  | (None, _) => False
  end.

Lemma alloc_lo p s cells size a :
  geometry p -> hi_alloc p = false -> 0 <= size < 2 ^ 64 -> p_entry p = Some (s, cells) ->
  e_size s = 0 -> Forall cell_ok (s :: cells) -> chain p s cells ->
  exists r, tee_mm_alloc (Some p) size (Some a) = Return r /\ alloc_result p size a r.
Proof.
  intros Hg Hlo Hsz He Hs Hok Hch0. pose proof Hch0 as Hch.
  unfold chain in Hch. rewrite Hlo in Hch. destruct Hch as [Hs0 Hch].
  unfold tee_mm_alloc. rewrite He, Hlo.
  pose proof (nblocks_bound p Hg) as Hnb. pose proof (psize_nonneg size (p_shift p)) as Hps.
  destruct (walk _ s cells) as [[pre e'] post] eqn:Hw.
  pose proof (walk_app _ _ _ _ _ _ Hw) as Happ.
  assert (Hok' : Forall cell_ok (e' :: post)).
  { pose proof (walk_entry_in _ _ _ _ _ _ Hw). rewrite Forall_forall in *. set_solver. }
  assert (Hlink : e_offset e' + e_size e' + psize_of size (p_shift p)
      <= match post with n :: _ => e_offset n | [] => nblocks p end ->
    alloc_result p size a
      (let nn := mk_entry a (u32 (e_offset e' + e_size e')) (u32 (psize_of size (p_shift p))) in
       (Some (update_max_allocated (set_entry p (Some (s, tee_mm_add pre nn post)))), Some nn))).
  { intros Hfit. destruct (link_lo _ _ _ _ _ _ _ a _ (proj2 Hnb) Hok Hch Hw Hps Hfit) as (Heq & Hc & Hl).
    cbv zeta in *. rewrite Heq in *. split; [|done]. subst cells.
    eapply inserted_intro; eauto. unfold chain. by rewrite Hlo. }
  destruct post as [|n post].
  - pose proof (walk_chain_lo _ _ _ _ _ _ _ Hw Hch) as Hch'. simpl in Hch'.
    pose proof (Forall_inv Hok') as Hce.
    rewrite tail_room_lo by done. simpl.
    destruct (Z.leb_spec (psize_of size (p_shift p)) (nblocks p - (e_offset e' + e_size e'))) as [Hle|Hgt];
      (eexists; split; [reflexivity|]); [apply Hlink; lia|].
    split; [done|]. intros Hpos b (Hb & Hbn & Hrun). unfold pool_cells in Hrun. rewrite He in Hrun.
    assert (1 <= psize_of size (p_shift p)) by (apply psize_spec; [done|lia]).
    pose proof (walk_complete_lo _ _ _ _ _ _ _ b (proj2 Hnb) ltac:(done) Hok Hch Hw
      ltac:(lia) Hbn Hrun eq_refl). lia.
  - simpl. eexists; split; [reflexivity|]. apply Hlink.
    exact (walk_gap_lo _ _ _ _ _ _ _ _ (proj2 Hnb) Hok Hch Hw).
Qed.

Lemma alloc_hi p s cells size a :
  geometry p -> hi_alloc p = true -> 0 <= size < 2 ^ 64 -> p_entry p = Some (s, cells) ->
  e_size s = 0 -> Forall cell_ok (s :: cells) -> chain p s cells ->
  exists r, tee_mm_alloc (Some p) size (Some a) = Return r /\ alloc_result p size a r.
Proof.
  intros Hg Hhi Hsz He Hs Hok Hch0. pose proof Hch0 as Hch.
  unfold chain in Hch. rewrite Hhi in Hch. destruct Hch as [Hs0 Hch].
  unfold tee_mm_alloc. rewrite He, Hhi.
  pose proof (nblocks_bound p Hg) as Hnb. pose proof (psize_nonneg size (p_shift p)) as Hps.
  destruct (walk _ s cells) as [[pre e'] post] eqn:Hw.
  pose proof (walk_app _ _ _ _ _ _ Hw) as Happ.
  pose proof (walk_entry_in _ _ _ _ _ _ Hw) as Hin.
  assert (Hsb : e_offset s < 2 ^ 32) by lia.
  assert (Hok' : Forall cell_ok (e' :: post)) by (rewrite Forall_forall in *; set_solver).
  assert (He' : 0 <= e_offset e' <= nblocks p).
  { inversion Hok' as [|? ? [? ?] _]; subst. split; [done|].
    apply elem_of_cons in Hin as [->|Hin]; [lia|].
    pose proof (chain_hi_bounds _ _ Hok Hch _ Hin). lia. }
  assert (Hlink : psize_of size (p_shift p)
      + match post with n :: _ => e_offset n + e_size n | [] => 0 end <= e_offset e' ->
    alloc_result p size a
      (let nn := mk_entry a (u32 (e_offset e' - psize_of size (p_shift p)))
                   (u32 (psize_of size (p_shift p))) in
       (Some (update_max_allocated (set_entry p (Some (s, tee_mm_add pre nn post)))), Some nn))).
  { intros Hfit. destruct (link_hi _ _ _ _ _ _ a _ Hsb Hok Hch Hw Hps Hfit) as (Heq & Hc & Hl).
    cbv zeta in *. rewrite Heq in *. split; [|done]. subst cells.
    eapply inserted_intro; eauto. unfold chain. by rewrite Hhi. }
  destruct post as [|n post].
  - rewrite tail_room_hi by done. simpl.
    destruct (Z.leb_spec (psize_of size (p_shift p)) (e_offset e')) as [Hle|Hgt];
      (eexists; split; [reflexivity|]); [apply Hlink; lia|].
    split; [done|]. intros Hpos b (Hb & Hbn & Hrun). unfold pool_cells in Hrun. rewrite He in Hrun.
    assert (1 <= psize_of size (p_shift p)) by (apply psize_spec; [done|lia]).
    pose proof (walk_complete_hi _ _ _ _ _ _ b Hsb ltac:(done) Hok Hch Hw Hb
      ltac:(lia) Hrun eq_refl). lia.
  - simpl. eexists; split; [reflexivity|]. apply Hlink.
    pose proof (walk_gap_hi _ _ _ _ _ _ _ Hsb Hok Hch Hw). lia.
Qed.

Lemma tee_mm_alloc_spec p size a :
  wf_pool p -> 0 <= size < 2 ^ 64 ->
  exists r, tee_mm_alloc (Some p) size (Some a) = Return r /\ alloc_result p size a r.
Proof.
  intros (Hg & s & cells & He & Hs & Hok & Hch) Hsz.
  destruct (hi_alloc p) eqn:Hhi; [eapply alloc_hi|eapply alloc_lo]; eauto.
Qed.

(** ** Lemmas: [tee_mm_alloc2] *)

(** Block range of a fixed-address request. *)
Lemma alloc2_blocks p base size :
  geometry p -> p_lo p <= base -> 0 < size -> base - p_lo p + size <= 2 ^ 64 - 2 ^ p_shift p ->
  let offslo := Z.shiftr (u64 (base - p_lo p)) (p_shift p) in
  let offshi := u64 (Z.shiftr (u64 (base - p_lo p + size - 1)) (p_shift p) + 1) in
  0 <= offslo < offshi /\ offshi * 2 ^ p_shift p < 2 ^ 64 /\
  p_lo p + offslo * 2 ^ p_shift p <= base /\
  base + size <= p_lo p + offshi * 2 ^ p_shift p.
Proof.
  intros Hg Hb Hsz Hw. pose proof (shift_pos p Hg) as Hsh.
  destruct Hg as (Hs & _). cbv zeta.
  rewrite !(u64_small (base - _ + _ - _)), (u64_small (base - p_lo p)) by (unfold is_u64; lia).
  rewrite !Z.shiftr_div_pow2 by lia.
  set (w := 2 ^ p_shift p) in *.
  pose proof (Z.div_mod (base - p_lo p) w ltac:(lia)).
  pose proof (Z.mod_pos_bound (base - p_lo p) w ltac:(lia)).
  pose proof (Z.div_mod (base - p_lo p + size - 1) w ltac:(lia)).
  pose proof (Z.mod_pos_bound (base - p_lo p + size - 1) w ltac:(lia)).
  set (q1 := (base - p_lo p) / w) in *. set (q2 := (base - p_lo p + size - 1) / w) in *.
  assert (0 <= q1) by (apply Z.div_pos; lia).
  assert (q1 <= q2) by (apply Z.div_le_mono; lia).
  assert ((q2 + 1) * w < 2 ^ 64) by nia.
  rewrite u64_small by (unfold is_u64; nia). nia.
Qed.

(** The pieces of a well-formed list around the point a walk stops at. *)
Lemma walk_parts go p s cells pre e' post :
  Forall cell_ok (s :: cells) -> e_size s = 0 -> chain p s cells -> 0 <= nblocks p ->
  walk go s cells = (pre, e', post) ->
  cells = pre ++ post /\ Forall cell_ok (e' :: post) /\ e_offset e' + e_size e' <= nblocks p /\
  forall n post', post = n :: post' -> e_offset n + e_size n <= nblocks p.
Proof.
  intros Hok Hs Hch Hnb Hw.
  pose proof (walk_app _ _ _ _ _ _ Hw) as Happ.
  pose proof (walk_entry_in _ _ _ _ _ _ Hw) as Hin.
  split_and!; [done|rewrite Forall_forall in *; set_solver| |].
  - apply elem_of_cons in Hin as [->|Hin].
    + unfold chain in Hch. destruct (hi_alloc p); destruct Hch; lia.
    + by eapply chain_cell_range.
  - intros n post' ->. eapply chain_cell_range; eauto. set_solver.
Qed.

Lemma fit_in_gap_lo p e next offslo offshi :
  geometry p -> hi_alloc p = false -> cell_ok e -> e_offset e + e_size e <= nblocks p ->
  0 <= offslo <= offshi -> offshi * 2 ^ p_shift p < 2 ^ 64 ->
  fit_in_gap p e next offslo offshi = true ->
  e_offset e + e_size e <= offslo /\ offshi <= nblocks p /\
  match next with n :: _ => offshi <= e_offset n | [] => True end.
Proof.
  intros Hg Hlo [? ?] Hle Hoff Hbytes. unfold fit_in_gap. rewrite Hlo.
  pose proof (nblocks_bound p Hg). pose proof (nblocks_bytes p Hg).
  pose proof (shift_pos p Hg). destruct Hg as (Hs & ? & ? & ? & _).
  rewrite (u32_small (e_offset e + e_size e)) by (unfold is_u32; lia).
  rewrite Z.shiftl_mul_pow2 by lia.
  rewrite (u64_small (offshi * _)) by (unfold is_u64; nia).
  rewrite (u64_small (p_hi p - p_lo p)) by (unfold is_u64; lia).
  intros Hf. zbool. split_and!; [lia|nia|]. destruct next; [done|]. zbool. lia.
Qed.

Lemma fit_in_gap_hi p e next offslo offshi :
  hi_alloc p = true -> Forall cell_ok next -> nblocks p < 2 ^ 32 ->
  (forall n next', next = n :: next' -> e_offset n + e_size n <= nblocks p) ->
  fit_in_gap p e next offslo offshi = true ->
  offshi <= e_offset e /\ match next with n :: _ => e_offset n + e_size n <= offslo | [] => True end.
Proof.
  intros Hhi Hok Hnb Hn. unfold fit_in_gap. rewrite Hhi. intros Hf. zbool.
  split; [lia|]. destruct next as [|n next]; [done|].
  specialize (Hn n next eq_refl). inversion Hok as [|? ? [? ?] _]; subst.
  rewrite u32_small in * by (unfold is_u32; lia). zbool. lia.
Qed.

Definition covers (p : tee_mm_pool) (e : tee_mm_entry) (base size : Z) : Prop :=
  p_lo p + e_offset e * 2 ^ p_shift p <= base /\
  base + size <= p_lo p + (e_offset e + e_size e) * 2 ^ p_shift p.

Lemma link2 go p s cells pre e' post a offslo offshi :
  geometry p -> p_entry p = Some (s, cells) -> e_size s = 0 ->
  Forall cell_ok (s :: cells) -> chain p s cells ->
  walk go s cells = (pre, e', post) -> 0 <= offslo <= offshi -> offshi <= nblocks p ->
  (if hi_alloc p
   then offshi <= e_offset e' /\ match post with n :: _ => e_offset n + e_size n <= offslo | [] => True end
   else e_offset e' + e_size e' <= offslo /\ match post with n :: _ => offshi <= e_offset n | [] => True end) ->
  let mm := mk_entry a (u32 offslo) (u32 (offshi - offslo)) in
  mm = mk_entry a offslo (offshi - offslo) /\
  inserted p (update_max_allocated (set_entry p (Some (s, tee_mm_add pre mm post)))) mm.
Proof.
  intros Hg He Hs Hok Hch Hw Hoff Hnbo Hfit mm. pose proof (nblocks_bound p Hg).
  subst mm. rewrite !u32_small by (unfold is_u32; lia). split; [done|].
  pose proof (walk_app _ _ _ _ _ _ Hw) as Happ. subst cells.
  apply inserted_intro; [done..|unfold cell_ok; simpl; lia|].
  unfold chain in *. destruct (hi_alloc p); destruct Hch as [Hs0 Hch], Hfit as [Hf1 Hf2]; (split; [done|]).
  - eapply chain_hi_insert; [done|done|simpl; lia|].
    pose proof (walk_chain_hi _ _ _ _ _ _ Hw Hch) as Hch'.
    destruct post; simpl in *; [lia|]. split; [lia|apply Hch'].
  - eapply chain_lo_insert; [done|done|simpl; lia|].
    pose proof (walk_chain_lo _ _ _ _ _ _ _ Hw Hch) as Hch'.
    destruct post; simpl in *; [lia|]. split; [lia|apply Hch'].
Qed.

(** A cell for a range of blocks that is found to fit, empty or not. *)
Lemma alloc2_link go p s cells pre e' post a offslo offshi :
  geometry p -> p_entry p = Some (s, cells) -> e_size s = 0 -> Forall cell_ok (s :: cells) -> chain p s cells ->
  walk go s cells = (pre, e', post) -> 0 <= offslo <= offshi -> offshi * 2 ^ p_shift p < 2 ^ 64 ->
  fit_in_gap p e' post offslo offshi = true ->
  let mm := mk_entry a (u32 offslo) (u32 (offshi - offslo)) in
  mm = mk_entry a offslo (offshi - offslo) /\
  inserted p (update_max_allocated (set_entry p (Some (s, tee_mm_add pre mm post)))) mm.
Proof.
  intros Hg He Hs Hok Hch Hw Hoff Hby Hfit. pose proof (nblocks_bound p Hg) as Hnb.
  destruct (walk_parts _ p s cells _ _ _ Hok Hs Hch ltac:(lia) Hw) as (Happ & Hok' & He' & Hn).
  assert (Hlink : offshi <= nblocks p /\ if hi_alloc p
   then offshi <= e_offset e' /\ match post with n :: _ => e_offset n + e_size n <= offslo | [] => True end
   else e_offset e' + e_size e' <= offslo /\ match post with n :: _ => offshi <= e_offset n | [] => True end).
  { destruct (hi_alloc p) eqn:Hhi; inversion Hok' as [|? ? Hce Hok'']; subst.
    - pose proof (fit_in_gap_hi p e' post _ _ Hhi Hok'' ltac:(lia) Hn Hfit) as [? ?].
      destruct Hce. split; [lia|done].
    - destruct (fit_in_gap_lo p e' post _ _ Hg Hhi Hce He' Hoff Hby Hfit) as (? & ? & ?).
      auto. }
  destruct Hlink as [Hnbo Hlink]. exact (link2 _ p s cells pre e' post a _ _ Hg He Hs Hok Hch Hw Hoff Hnbo Hlink).
Qed.

Lemma tee_mm_alloc2_spec p base size mem :
  wf_pool p -> 0 <= base < 2 ^ 64 -> 0 < size < 2 ^ 64 ->
  base - p_lo p + size <= 2 ^ 64 - 2 ^ p_shift p ->
  match tee_mm_alloc2 (Some p) base size mem with
  | (Some q, Some e) => inserted p q e /\ mem = Some (e_ptr e) /\ covers p e base size
  | (Some q, None) => q = p
  | (None, _) => False
  end.
Proof.
  intros (Hg & s & cells & He & Hs & Hok & Hch) Hb Hsz Hwr. unfold tee_mm_alloc2. rewrite He.
  destruct (_ || _) eqn:Hsan; [done|]. zbool. destruct mem as [a|]; [|done].
  destruct (alloc2_blocks p base size Hg ltac:(lia) ltac:(lia) Hwr) as (Hoff & Hby & Hc1 & Hc2).
  set (offslo := Z.shiftr (u64 (base - p_lo p)) (p_shift p)) in *.
  set (offshi := u64 (Z.shiftr (u64 (base - p_lo p + size - 1)) (p_shift p) + 1)) in *.
  destruct (walk _ s cells) as [[pre e'] post] eqn:Hw.
  destruct (fit_in_gap p e' post offslo offshi) eqn:Hfit; [|done]. simpl negb. cbv iota.
  assert (Hoff' : 0 <= offslo <= offshi) by lia.
  destruct (alloc2_link _ p s cells pre e' post a _ _ Hg He Hs Hok Hch Hw Hoff' Hby Hfit) as [Heq Hins].
  split; [done|]. rewrite Heq. split; [done|]. unfold covers. simpl.
  replace (offslo + (offshi - offslo)) with offshi by lia. done.
Qed.

(** A request of no bytes: the block range is empty or one block, or, at the very beginning of the pool, wraps. *)
Lemma alloc2_empty_blocks p base :
  geometry p -> p_lo p <= base < 2 ^ 64 -> base - p_lo p <= 2 ^ 64 - 2 ^ p_shift p ->
  let offslo := Z.shiftr (u64 (base - p_lo p)) (p_shift p) in
  let offshi := u64 (Z.shiftr (u64 (base - p_lo p + 0 - 1)) (p_shift p) + 1) in
  0 <= offslo <= offshi /\ offshi * 2 ^ p_shift p < 2 ^ 64 \/
  offslo = 0 /\ offshi = 2 ^ (64 - p_shift p) /\ 0 < p_shift p.
Proof.
  intros Hg Hb Hw. pose proof (shift_pos p Hg) as Hsh. pose proof Hg as (Hs & Hlo & _). cbv zeta.
  rewrite (u64_small (base - p_lo p)) by (unfold is_u64; lia). rewrite !Z.shiftr_div_pow2 by lia.
  destruct (Z.eq_dec base (p_lo p)) as [->|Hne].
  - replace (u64 (p_lo p - p_lo p + 0 - 1)) with (2 ^ 64 - 1) by (replace (p_lo p - p_lo p + 0 - 1) with (-1) by lia; reflexivity).
    rewrite Z.sub_diag, Z.div_0_l by lia. destruct (Z.eq_dec (p_shift p) 0) as [->|Hs0]; [left; split; [split|]; vm_compute; congruence|right].
    replace ((2 ^ 64 - 1) / 2 ^ p_shift p) with (2 ^ (64 - p_shift p) - 1).
    2: { apply (Z.div_unique _ _ _ (2 ^ p_shift p - 1)); [lia|]. assert (2 ^ 64 = 2 ^ p_shift p * 2 ^ (64 - p_shift p)) by (rewrite <- Z.pow_add_r by lia; f_equal; lia). lia. }
    rewrite Z.sub_add, u64_small; [by split_and!; [..|lia]|]. unfold is_u64. split; [apply Z.pow_nonneg; lia|]. change 18446744073709551616 with (2 ^ 64).
    apply Z.pow_lt_mono_r; lia.
  - left. rewrite (u64_small (base - _ + _ - _)) by (unfold is_u64; lia). set (w := 2 ^ p_shift p) in *.
    pose proof (Z.div_mod (base - p_lo p) w ltac:(lia)). pose proof (Z.mod_pos_bound (base - p_lo p) w ltac:(lia)).
    pose proof (Z.div_mod (base - p_lo p + 0 - 1) w ltac:(lia)). pose proof (Z.mod_pos_bound (base - p_lo p + 0 - 1) w ltac:(lia)).
    set (q1 := (base - p_lo p) / w) in *. set (q2 := (base - p_lo p + 0 - 1) / w) in *.
    assert (0 <= q1) by (apply Z.div_pos; lia). assert (0 <= q2) by (apply Z.div_pos; lia).
    assert (q1 <= q2 + 1) by nia. assert ((q2 + 1) * w < 2 ^ 64) by nia.
    rewrite u64_small by (unfold is_u64; nia). nia.
Qed.

(** [tee_mm_alloc2] keeps a pool well-formed; a request in a pool at address 0 must not reach into the last block of
    the address space. *)
Lemma tee_mm_alloc2_wf p base size mem q e :
  wf_pool p -> 0 <= base < 2 ^ 64 -> 0 <= size < 2 ^ 64 -> (p_lo p = 0 -> base + size <= 2 ^ 64 - 2 ^ p_shift p) ->
  tee_mm_alloc2 (Some p) base size mem = (Some q, e) -> wf_pool q.
Proof.
  intros Hwf Hb Hsz Hlast Ha. pose proof Hwf as (Hg & s & cells & He & Hs & Hok & Hch).
  destruct (decide (u64 (base + size) < base \/ base < p_lo p)) as [Hrej|Hacc].
  { unfold tee_mm_alloc2 in Ha. rewrite He in Ha.
    replace ((u64 (base + size) <? base) || (base <? p_lo p)) with true in Ha; [by injection Ha as <- _|].
    symmetry. apply orb_true_iff. rewrite !Z.ltb_lt. done. }
  apply Decidable.not_or in Hacc as [Hnw Hin].
  assert (Hend : base + size < 2 ^ 64).
  { destruct (Z.lt_ge_cases (base + size) (2 ^ 64)) as [|Hge]; [done|]. exfalso. apply Hnw. unfold u64.
    replace (base + size) with (base + size - 2 ^ 64 + 1 * 2 ^ 64) by lia. rewrite Z.mod_add, Z.mod_small by lia. lia. }
  assert (Hw : base - p_lo p + size <= 2 ^ 64 - 2 ^ p_shift p).
  { destruct (Z.eq_dec (p_lo p) 0) as [E|Hne]; [rewrite E in *; specialize (Hlast eq_refl); lia|].
    pose proof Hg as (_ & Hlo & _ & _ & [k Hk] & _). pose proof (shift_pos p Hg). assert (1 <= k) by nia. nia. }
  destruct (Z.eq_dec size 0) as [->|Hpos].
  2: { pose proof (tee_mm_alloc2_spec p base size mem Hwf Hb ltac:(lia) Hw) as Hr. rewrite Ha in Hr. destruct e; [by destruct Hr as [[? _] _]|by subst]. }
  unfold tee_mm_alloc2 in Ha. rewrite He in Ha.
  replace ((u64 (base + 0) <? base) || (base <? p_lo p)) with false in Ha by (symmetry; apply orb_false_iff; rewrite !Z.ltb_ge; lia).
  destruct mem as [a|]; [|by injection Ha as <- _].
  pose proof (alloc2_empty_blocks p base Hg ltac:(lia) ltac:(lia)) as Hblk. cbv zeta in Hblk.
  set (offslo := Z.shiftr (u64 (base - p_lo p)) (p_shift p)) in *.
  set (offshi := u64 (Z.shiftr (u64 (base - p_lo p + 0 - 1)) (p_shift p) + 1)) in *.
  destruct (walk _ s cells) as [[pre e'] post] eqn:Hwk.
  destruct (fit_in_gap p e' post offslo offshi) eqn:Hfit; [|by injection Ha as <- _]. simpl negb in Ha. cbv iota in Ha. injection Ha as <- _.
  destruct Hblk as [[Hoff Hby]|(E1 & E2 & Hsp)].
  { by destruct (alloc2_link _ p s cells pre e' post a _ _ Hg He Hs Hok Hch Hwk Hoff Hby Hfit) as [_ [? _]]. }
  assert (Hz : u32 (offshi - offslo) = u32 (0 - 0)).
  { rewrite E1, E2, Z.sub_0_r. destruct Hg as (Hsh & _). unfold u32. replace (64 - p_shift p) with (32 - p_shift p + 32) by lia.
    rewrite Z.pow_add_r by lia. change 4294967296 with (2 ^ 32). by rewrite Z.mod_mul. }
  rewrite Hz, E1. change (u32 0) with (u32 0).
  assert (Hfit0 : fit_in_gap p e' post 0 0 = true).
  { pose proof (nblocks_bound p Hg). destruct (walk_parts _ p s cells _ _ _ Hok Hs Hch ltac:(lia) Hwk) as (_ & Hok' & He' & Hn).
    assert (2 ^ 32 <= offshi) by (rewrite E2; apply Z.pow_le_mono_r; [lia|]; destruct Hg; lia).
    inversion Hok' as [|? ? [Ho1 Ho2] Hok'']; subst. unfold fit_in_gap in *. destruct (hi_alloc p); zbool; [lia|].
    destruct post as [|n post]; [|specialize (Hn n post eq_refl); inversion Hok'' as [|? ? [? ?] _]; subst; zbool; lia].
    rewrite Z.shiftl_0_l. change (u64 0) with 0. apply negb_true_iff, orb_false_iff. split; [apply orb_false_iff; split; [zbool; lia|done]|].
    rewrite Z.gtb_ltb. apply Z.ltb_ge. apply Z.mod_pos_bound. lia. }
  by destruct (alloc2_link _ p s cells pre e' post a 0 0 Hg He Hs Hok Hch Hwk ltac:(lia) ltac:(lia) Hfit0) as [_ [? _]].
Qed.

(** ** Lemmas: [tee_mm_free] and the other operations *)

Lemma chain_lo_remove nb e pre n post :
  Forall cell_ok (e :: pre ++ n :: post) -> chain_lo nb e (pre ++ n :: post) ->
  chain_lo nb e (pre ++ post).
Proof.
  revert e. induction pre as [|m pre IH]; intros e Hok Hch; simpl in *.
  - destruct Hch as [? Hch]. inversion Hok as [|? ? ? Hok']; subst.
    inversion Hok' as [|? ? [? ?] ?]; subst. destruct post; simpl in *; [lia|].
    destruct Hch. split; [lia|done].
  - inversion Hok; subst. destruct Hch. auto.
Qed.

Lemma chain_hi_remove e pre n post :
  Forall cell_ok (e :: pre ++ n :: post) -> chain_hi e (pre ++ n :: post) ->
  chain_hi e (pre ++ post).
Proof.
  revert e. induction pre as [|m pre IH]; intros e Hok Hch; simpl in *.
  - destruct Hch as [? Hch]. inversion Hok as [|? ? ? Hok']; subst.
    inversion Hok' as [|? ? [? ?] ?]; subst. destruct post; simpl in *; [lia|].
    destruct Hch. split; [lia|done].
  - inversion Hok; subst. destruct Hch. auto.
Qed.

Lemma walk_ptr_miss p s cells :
  (forall x, x ∈ cells -> e_ptr x ≠ p) ->
  exists e', walk (fun _ n => negb (e_ptr n =? p)) s cells = (cells, e', []).
Proof.
  revert s. induction cells as [|n cells IH]; intros s Hn; simpl; [eauto|].
  destruct (Z.eqb_spec (e_ptr n) p) as [Heq|Hne]; [exfalso; eapply Hn; [|done]; set_solver|].
  simpl. destruct (IH n) as [e' ->]; [set_solver|]. eauto.
Qed.

Lemma walk_ptr_hit p s pre n post :
  (forall x, x ∈ pre -> e_ptr x ≠ p) -> e_ptr n = p ->
  exists e', walk (fun _ n => negb (e_ptr n =? p)) s (pre ++ n :: post) = (pre, e', n :: post).
Proof.
  revert s. induction pre as [|m pre IH]; intros s Hpre Hn; simpl.
  - rewrite Hn, Z.eqb_refl. simpl. eauto.
  - destruct (Z.eqb_spec (e_ptr m) p) as [Heq|Hne]; [exfalso; eapply Hpre; [|done]; set_solver|].
    simpl. destruct (IH m) as [e' ->]; [set_solver|done|]. eauto.
Qed.

(** [tee_mm_free] of a cell of the list removes exactly its first occurrence. *)
Lemma tee_mm_free_hit p s pre n post :
  p_entry p = Some (s, pre ++ n :: post) -> (forall x, x ∈ pre -> e_ptr x ≠ e_ptr n) ->
  tee_mm_free (Some p) (Some (e_ptr n)) = Return (Some (set_entry p (Some (s, pre ++ post)))).
Proof.
  intros He Hpre. unfold tee_mm_free. rewrite He.
  destruct (walk_ptr_hit (e_ptr n) s pre n post Hpre eq_refl) as [e' ->]. done.
Qed.

Lemma tee_mm_free_miss p s cells a :
  p_entry p = Some (s, cells) -> (forall x, x ∈ cells -> e_ptr x ≠ a) ->
  tee_mm_free (Some p) (Some a) = Panic.
Proof.
  intros He Hn. unfold tee_mm_free. rewrite He.
  destruct (walk_ptr_miss a s cells Hn) as [e' ->]. done.
Qed.

Lemma tee_mm_free_wf p a q :
  wf_pool p -> tee_mm_free (Some p) (Some a) = Return (Some q) ->
  wf_pool q /\ same_geometry p q /\
  exists pre n post, pool_cells p = pre ++ n :: post /\ e_ptr n = a /\ pool_cells q = pre ++ post.
Proof.
  intros (Hg & s & cells & He & Hs & Hok & Hch) Hf. unfold tee_mm_free in Hf. rewrite He in Hf.
  destruct (walk _ s cells) as [[pre e'] post] eqn:Hw. destruct post as [|n post]; [done|].
  injection Hf as <-. pose proof (walk_app _ _ _ _ _ _ Hw) as ->.
  pose proof (walk_stop _ _ _ _ _ _ _ Hw) as Hn. cbv beta in Hn. zbool.
  split_and!; [|done|exists pre, n, post; unfold pool_cells; by rewrite He].
  apply (wf_insert p _ s (pre ++ post)); try done.
  - rewrite Forall_cons, Forall_app, Forall_cons in Hok. rewrite Forall_cons, Forall_app. naive_solver.
  - unfold chain in *. destruct (hi_alloc p); destruct Hch; split; try done.
    + by eapply chain_hi_remove.
    + by eapply chain_lo_remove.
Qed.

(** ** Lemmas: initialisation, byte ranges, lookup *)

Lemma tee_mm_init_wf p0 lo hi shift flags a p :
  0 <= shift < 31 -> 0 <= lo -> lo + 2 ^ shift <= 2 ^ 64 -> 0 <= hi < 2 ^ 64 ->
  0 < ROUNDDOWN hi (2 ^ shift) - ROUNDUP lo (2 ^ shift) < 2 ^ 32 ->
  tee_mm_init (Some p0) lo hi shift flags (Some a) = Return (Some p, true) ->
  wf_pool p /\ pool_cells p = [].
Proof.
  intros Hs Hlo Hlob Hhi Hsz. unfold tee_mm_init.
  rewrite Z.shiftl_mul_pow2, Z.mul_1_l by lia.
  assert (Hw : 0 < 2 ^ shift) by (apply Z.pow_pos_nonneg; lia).
  pose proof (ROUNDUP_spec lo shift ltac:(lia) Hlo ltac:(lia)) as Hru.
  pose proof (ROUNDDOWN_spec hi shift Hhi ltac:(lia)) as Hrd.
  set (l := ROUNDUP lo (2 ^ shift)) in *. set (h := ROUNDDOWN hi (2 ^ shift)) in *.
  destruct (_ <? UINT32_MAX); [|done]. intros [= <-].
  pose proof (Z.mod_pos_bound (lo + (2 ^ shift - 1)) (2 ^ shift) Hw).
  pose proof (Z.mod_pos_bound hi (2 ^ shift) Hw).
  assert (2 ^ shift | l)%Z as Hdl.
  { rewrite Hru. exists ((lo + (2 ^ shift - 1)) / 2 ^ shift). rewrite Zmod_eq by lia. lia. }
  assert (2 ^ shift | h)%Z as Hdh.
  { rewrite Hrd. exists (hi / 2 ^ shift). rewrite Zmod_eq by lia. lia. }
  split; [|done]. set (p := mk_pool _ l h flags shift _).
  assert (Hg : geometry p).
  { unfold geometry; subst p; simpl. split_and!; try done; lia. }
  split; [done|]. eexists _, []. split; [done|]. split; [done|].
  pose proof (nblocks_bound p Hg) as Hnb. pose proof (nblocks_bytes p Hg) as Hnbb.
  unfold nblocks in Hnb, Hnbb. simpl in Hnb, Hnbb.
  unfold chain, hi_alloc, nblocks. subst p. simpl. destruct (has_flag flags TEE_MM_POOL_HI_ALLOC).
  - assert (Z.shiftr (u64 (h - l - 1)) shift + 1 = Z.shiftr (h - l) shift) as Heq.
    { rewrite u64_small by (unfold is_u64; lia).
      rewrite (Z.shiftr_div_pow2 (h - l - 1)) by lia.
      set (q := Z.shiftr (h - l) shift) in *.
      replace (h - l - 1) with ((q - 1) * 2 ^ shift + (2 ^ shift - 1)) by lia.
      rewrite Z.div_add_l, (Z.div_small (2 ^ shift - 1)) by lia. lia. }
    rewrite Heq, u64_small, u32_small by (unfold is_u64, is_u32; lia).
    split_and!; [|done|lia]. constructor; [|constructor]. unfold cell_ok; simpl. lia.
  - split_and!; [|done|lia]. constructor; [|constructor]. unfold cell_ok; simpl. lia.
Qed.

Lemma region_exact p e :
  geometry p -> 0 <= e_offset e -> 0 <= e_size e -> e_offset e + e_size e <= nblocks p ->
  tee_mm_get_smem p e = p_lo p + e_offset e * 2 ^ p_shift p /\
  tee_mm_get_bytes (Some p) (Some e) = e_size e * 2 ^ p_shift p /\
  p_lo p + (e_offset e + e_size e) * 2 ^ p_shift p <= p_hi p.
Proof.
  intros Hg Ho Hsz Hle. unfold tee_mm_get_smem, tee_mm_get_bytes.
  destruct (shiftl_exact p (e_offset e) Hg) as [-> ?]; [lia|].
  destruct (shiftl_exact p (e_size e) Hg) as [-> ?]; [lia|].
  destruct (shiftl_exact p (e_offset e + e_size e) Hg) as [_ ?]; [lia|].
  destruct Hg as (_ & ? & ? & _).
  rewrite u64_small by (unfold is_u64; lia). lia.
Qed.

Lemma wf_cell p e :
  wf_pool p -> e ∈ pool_cells p ->
  geometry p /\ 0 <= e_offset e /\ 0 <= e_size e /\ e_offset e + e_size e <= nblocks p.
Proof.
  intros (Hg & s & cells & He & Hs & Hok & Hch) Hin. split; [done|].
  unfold pool_cells in Hin. rewrite He in Hin. by eapply chain_cell_range.
Qed.

Lemma wf_region p e : wf_pool p -> e ∈ pool_cells p -> region_in_pool p e.
Proof.
  intros Hwf Hin. destruct (wf_cell p e Hwf Hin) as (Hg & ? & ? & ?).
  destruct (region_exact p e Hg) as (Hsm & Hby & Hend); [done..|].
  pose proof (shift_pos p Hg). unfold region_in_pool. rewrite Hsm, Hby. nia.
Qed.

Lemma wf_regions_disjoint p i j a b :
  wf_pool p -> i ≠ j -> pool_cells p !! i = Some a -> pool_cells p !! j = Some b ->
  regions_disjoint p a b.
Proof.
  intros Hwf Hij Ha Hb.
  destruct (wf_cell p a Hwf) as (Hg & ? & ? & ?); [by eapply list_elem_of_lookup_2|].
  destruct (wf_cell p b Hwf) as (_ & ? & ? & ?); [by eapply list_elem_of_lookup_2|].
  destruct (region_exact p a Hg) as (Ha1 & Ha2 & _); [done..|].
  destruct (region_exact p b Hg) as (Hb1 & Hb2 & _); [done..|].
  pose proof (shift_pos p Hg).
  destruct Hwf as (_ & s & cells & He & Hs & Hok & Hch). unfold pool_cells in Ha, Hb.
  rewrite He in Ha, Hb. pose proof (chain_pairwise _ _ _ _ _ _ _ Hok Hch Hij Ha Hb) as [?|?];
  unfold regions_disjoint; rewrite Ha1, Ha2, Hb1, Hb2; [left|right]; nia.
Qed.

Lemma find_cell_some off cells e :
  find_cell off cells = Some e ->
  e ∈ cells /\ e_offset e <= off < u32 (e_offset e + e_size e).
Proof.
  induction cells as [|n cells IH]; simpl; [done|]. case_goal.
  - intros [= <-]. zbool. split; [set_solver|lia].
  - intros H. destruct (IH H). split; [set_solver|done].
Qed.

Lemma find_cell_none off cells e :
  find_cell off cells = None -> e ∈ cells ->
  ~ (e_offset e <= off < u32 (e_offset e + e_size e)).
Proof.
  induction cells as [|n cells IH]; simpl; [set_solver|]. case_goal; [done|].
  intros H [->|Hin]%elem_of_cons; [|by apply IH].
  apply andb_false_iff in Heqb as [?|?]; zbool; lia.
Qed.

(** ** The pool as a transition system *)

(** One call by a client of the pool, under the range its arguments have in C. *)
Inductive mm_step : tee_mm_pool -> tee_mm_pool -> Prop :=
| step_alloc p size mem q e :
    0 <= size < 2 ^ 64 ->
    tee_mm_alloc (Some p) size mem = Return (Some q, e) -> mm_step p q
| step_alloc2 p base size mem q e :
    0 <= base < 2 ^ 64 -> 0 <= size < 2 ^ 64 ->
    (p_lo p = 0 -> base + size <= 2 ^ 64 - 2 ^ p_shift p) ->
    tee_mm_alloc2 (Some p) base size mem = (Some q, e) -> mm_step p q
| step_free p a q :
    tee_mm_free (Some p) (Some a) = Return (Some q) -> mm_step p q
| step_stats p reset q st :
    tee_mm_get_pool_stats p reset = (q, st) -> mm_step p q.

(** Pools obtained by [tee_mm_init] and any sequence of calls. *)
Definition mm_reachable (p : tee_mm_pool) : Prop :=
  exists p0 lo hi shift flags a p1,
    0 <= shift < 31 /\ 0 <= lo /\ lo + 2 ^ shift <= 2 ^ 64 /\ 0 <= hi < 2 ^ 64 /\
    0 < ROUNDDOWN hi (2 ^ shift) - ROUNDUP lo (2 ^ shift) < 2 ^ 32 /\
    tee_mm_init (Some p0) lo hi shift flags (Some a) = Return (Some p1, true) /\
    rtc mm_step p1 p.

Lemma mm_step_wf p q : mm_step p q -> wf_pool p -> wf_pool q.
Proof.
  intros Hstep Hwf. destruct Hstep as [p size mem q e Hsz Ha|p base size mem q e Hb Hsz Hw Ha|p a q Hf|p reset q st Hst].
  - destruct mem as [a|].
    + destruct (tee_mm_alloc_spec p size a Hwf Hsz) as ([[q'|] [e'|]] & Heq & Hr);
        rewrite Heq in Ha; simpl in Hr; try done; injection Ha as <- <-.
      * by destruct Hr as [[? _] _].
      * by destruct Hr as [-> _].
    + unfold tee_mm_alloc in Ha. destruct (p_entry p) as [[? ?]|]; by injection Ha as <- <-.
  - exact (tee_mm_alloc2_wf p base size mem q e Hwf Hb Hsz Hw Ha).
  - by eapply tee_mm_free_wf.
  - unfold tee_mm_get_pool_stats in Hst. injection Hst as <- _. by destruct reset.
Qed.

Lemma mm_reachable_wf p : mm_reachable p -> wf_pool p.
Proof.
  intros (p0 & lo & hi & shift & flags & a & p1 & Hs & Hlo & Hlob & Hhi & Hsz & Hi & Hst).
  destruct (tee_mm_init_wf _ _ _ _ _ _ _ Hs Hlo Hlob Hhi Hsz Hi) as [Hwf _].
  clear - Hwf Hst. induction Hst; eauto using mm_step_wf.
Qed.

Lemma tee_mm_final_loop_spec cells p s :
  p_entry p = Some (s, cells) ->
  tee_mm_final_loop (length cells) p = Return (set_entry p (Some (s, []))).
Proof.
  revert p. induction cells as [|n cells IH]; intros p He; simpl.
  - destruct p; simpl in *. by rewrite He.
  - rewrite He. rewrite (tee_mm_free_hit p s [] n cells He) by set_solver. simpl.
    rewrite IH by done. done.
Qed.

Lemma tee_mm_final_spec p s cells :
  p_entry p = Some (s, cells) -> tee_mm_final (Some p) = Return (Some (set_entry p None)).
Proof.
  intros He. unfold tee_mm_final. rewrite He, (tee_mm_final_loop_spec _ _ _ He). done.
Qed.

(** ** Properties *)

(** C21. In every pool reachable from [tee_mm_init] (size below 4 GiB) by any sequence of [tee_mm_alloc],
    [tee_mm_alloc2], [tee_mm_free] and statistics calls, with any sizes and addresses but for one case, every
    allocated byte range lies inside the pool and no two of them overlap, whether the pool allocates from the low or
    from the high end. The case left out, which [tee_mm_alloc2] does not refuse: in a pool that begins at address 0, a
    request that reaches into the last block of the 64-bit address space (see [alloc2_last_block_wraps]). *)
Theorem mm_regions_never_overlap p :
  mm_reachable p ->
  (forall e, e ∈ pool_cells p -> region_in_pool p e) /\
  (forall i j a b, i ≠ j -> pool_cells p !! i = Some a -> pool_cells p !! j = Some b ->
     regions_disjoint p a b).
Proof.
  intros Hr. apply mm_reachable_wf in Hr. split.
  - intros e. by apply wf_region.
  - intros i j a b. by apply wf_regions_disjoint.
Qed.

(** First fit is exact: on a well-formed pool [tee_mm_alloc] of a positive
    size always returns, and it returns an entry exactly when some run of
    enough blocks is free; the entry covers the request with less than one
    block to spare, sits inside the pool, overlaps no earlier entry, and the
    earlier entries keep their order. *)
Theorem tee_mm_alloc_exact p size a :
  wf_pool p -> 0 < size < 2 ^ 64 ->
  exists q r, tee_mm_alloc (Some p) size (Some a) = Return (Some q, r) /\ wf_pool q /\
    match r with
    | Some e =>
        (exists b, free_run p b (e_size e)) /\ e_ptr e = a /\
        (tee_mm_get_bytes (Some p) (Some e) - 2 ^ p_shift p < size <= tee_mm_get_bytes (Some p) (Some e)) /\
        region_in_pool p e /\ (forall x, x ∈ pool_cells p -> regions_disjoint p x e) /\
        exists pre post, pool_cells p = pre ++ post /\ pool_cells q = pre ++ e :: post
    | None => q = p /\ forall b, ~ free_run p b (psize_of size (p_shift p))
    end.
Proof.
  intros Hwf Hsz. destruct (tee_mm_alloc_spec p size a Hwf) as ([[q|] [e|]] & Heq & Hr);
    [lia| | |done|done]; simpl in Hr.
  - destruct Hr as ((Hq & Hsame & pre & post & Hp & Hqc) & Hptr & Hes).
    exists q, (Some e). split; [done|]. split; [done|].
    destruct (wf_cell q e Hq) as (Hgq & ? & ? & Hle); [rewrite Hqc; set_solver|].
    rewrite (same_geometry_nblocks p q Hsame) in Hle.
    assert (Hg : geometry p) by apply Hwf.
    destruct (region_exact p e Hg) as (Hsm & Hby & Hend); [done..|].
    pose proof (psize_spec p size Hg ltac:(lia)) as (? & ? & ?). rewrite <- Hes in *.
    pose proof (shift_pos p Hg).
    assert (Hdis : forall x, x ∈ pool_cells p -> blocks_disjoint x e).
    { destruct Hq as (_ & s & cells & He & _ & Hok & Hch). unfold pool_cells in Hqc.
      rewrite He in Hqc. subst cells. rewrite Hp. by eapply chain_split_disjoint. }
    split; [|split; [done|]; split; [rewrite Hby; nia|]; split; [|split; [|eauto]]].
    + exists (e_offset e). split_and!; [done|lia|]. intros x Hx.
      destruct (Hdis x Hx) as [?|?]; [left|right]; lia.
    + unfold region_in_pool; rewrite Hsm, Hby; nia.
    + intros x Hx. destruct (wf_cell p x Hwf Hx) as (_ & ? & ? & ?).
      destruct (region_exact p x Hg) as (Hsx & Hbx & _); [done..|].
      unfold regions_disjoint. rewrite Hsm, Hby, Hsx, Hbx.
      destruct (Hdis x Hx) as [?|?]; [left|right]; nia.
  - destruct Hr as [-> Hno]. exists p, None. split; [done|]. split; [done|].
    split; [done|]. apply Hno. lia.
Qed.

(** Freeing what [tee_mm_alloc] just returned (at an address no other cell
    has) succeeds and gives back the list of ranges as it was; freeing an
    address that is not in the list panics. *)
Theorem tee_mm_alloc_free p size a q e :
  wf_pool p -> 0 <= size < 2 ^ 64 -> (forall x, x ∈ pool_cells p -> e_ptr x ≠ a) ->
  tee_mm_free (Some p) (Some a) = Panic /\
  (tee_mm_alloc (Some p) size (Some a) = Return (Some q, Some e) ->
   exists q', tee_mm_free (Some q) (Some (e_ptr e)) = Return (Some q') /\
     p_entry q' = p_entry p /\ same_geometry p q').
Proof.
  intros Hwf Hsz Hfresh. pose proof Hwf as (Hg & s & cells & He & _). split.
  - eapply tee_mm_free_miss; [done|]. intros x Hx. apply Hfresh. unfold pool_cells. by rewrite He.
  - intros Ha. destruct (tee_mm_alloc_spec p size a Hwf Hsz) as (r & Heq & Hr).
    rewrite Ha in Heq. injection Heq as <-. simpl in Hr.
    destruct Hr as ((Hq & Hsame & pre & post & Hp & Hqc) & Hptr & _).
    destruct Hq as (_ & s' & cells' & He' & _ & _).
    assert (s' = s) as ->.
    { unfold tee_mm_alloc in Ha. rewrite He in Ha. destruct (walk _ _ _) as [[? ?] ?].
      destruct (match _ with [] => _ | _ => _ end) as [room|]; simpl in Ha; [|done].
      destruct room; simpl in Ha; [|done]. injection Ha as <- <-.
      rewrite insert_cells in He'. congruence. }
    unfold pool_cells in *. rewrite He, He' in *. subst cells cells'.
    exists (set_entry q (Some (s, pre ++ post))). split_and!; [|done|apply Hsame..].
    eapply tee_mm_free_hit; [done|].
    intros x Hx. rewrite Hptr. apply Hfresh. set_solver.
Qed.

(** In a pool of at most 65536 blocks [tee_mm_find] of an address below
    [hi] returns the cell whose byte range holds the address, and [NULL] when
    there is none. *)
Theorem tee_mm_find_exact p addr :
  wf_pool p -> nblocks p <= 65536 -> p_lo p <= addr < p_hi p ->
  exists r, tee_mm_find p addr = Return r /\
    match r with
    | Some e => e ∈ pool_cells p /\
        tee_mm_get_smem p e <= addr < tee_mm_get_smem p e + tee_mm_get_bytes (Some p) (Some e)
    | None => forall e, e ∈ pool_cells p ->
        ~ (tee_mm_get_smem p e <= addr < tee_mm_get_smem p e + tee_mm_get_bytes (Some p) (Some e))
    end.
Proof.
  intros Hwf Hnb Haddr. pose proof Hwf as (Hg & s & cells & He & Hs & Hok & Hch).
  unfold tee_mm_find. rewrite He.
  pose proof (nblocks_bytes p Hg) as Hbytes. pose proof (shift_pos p Hg) as Hsh.
  pose proof Hg as (Hsh' & Hlo & Hhi & Hsz & _).
  destruct (_ || _) eqn:Hr; [apply orb_true_iff in Hr as [?|?]; zbool; lia|]. clear Hr.
  rewrite u64_small by (unfold is_u64; lia). rewrite Z.shiftr_div_pow2 by lia.
  set (off := (addr - p_lo p) / 2 ^ p_shift p).
  assert (Hoff : off * 2 ^ p_shift p <= addr - p_lo p < (off + 1) * 2 ^ p_shift p).
  { pose proof (Z.div_mod (addr - p_lo p) (2 ^ p_shift p) ltac:(lia)).
    pose proof (Z.mod_pos_bound (addr - p_lo p) (2 ^ p_shift p) ltac:(lia)).
    unfold off. nia. }
  rewrite u16_small by (unfold is_u16; nia).
  assert (Hin : forall e, e ∈ pool_cells p ->
    (e_offset e <= off < u32 (e_offset e + e_size e) <->
     tee_mm_get_smem p e <= addr < tee_mm_get_smem p e + tee_mm_get_bytes (Some p) (Some e))).
  { intros e Hine. destruct (wf_cell p e Hwf Hine) as (_ & ? & ? & ?).
    destruct (region_exact p e Hg) as (-> & -> & _); [done..|].
    rewrite u32_small by (unfold is_u32; nia). nia. }
  eexists; split; [reflexivity|].
  unfold pool_cells in *. rewrite He in *.
  destruct (find_cell off cells) as [e|] eqn:Hf.
  - apply find_cell_some in Hf as [? ?]. split; [done|]. by apply Hin.
  - intros e Hine Hc. apply (find_cell_none _ _ _ Hf Hine). by apply Hin.
Qed.

(** A low pool of 65537 blocks of 4 KiB with its last block allocated. *)
Definition big_pool : tee_mm_pool :=
  mk_pool (Some (mk_entry 1 0 0, [mk_entry 2 65536 1])) 0x40000000 0x50001000 0 12 0.

(** Beyond 65536 blocks [tee_mm_find] is wrong: its block offset has 16
    bits, so the well-formed pool [big_pool] has an allocated address that
    [tee_mm_find] does not find. *)
Theorem tee_mm_find_truncates :
  wf_pool big_pool /\
  (exists e, e ∈ pool_cells big_pool /\
     tee_mm_get_smem big_pool e <= 0x50000000
       < tee_mm_get_smem big_pool e + tee_mm_get_bytes (Some big_pool) (Some e)) /\
  tee_mm_find big_pool 0x50000000 = Return None.
Proof.
  split_and!.
  - split.
    + unfold geometry; simpl. split_and!; try lia.
      * by exists 0x40000.
      * by exists 0x50001.
    + eexists _, _. split; [reflexivity|]. split; [done|]. split.
      * repeat constructor; simpl; lia.
      * vm_compute. split_and!; congruence.
  - exists (mk_entry 2 65536 1). split; [set_solver|]. vm_compute. split; congruence.
  - reflexivity.
Qed.

(** The state after [tee_mm_init] of a 4 GiB pool and one allocation of all of it. *)
Definition full_4g_pool : outcome (option tee_mm_pool * option tee_mm_entry) :=
  do! r <- tee_mm_init (Some (mk_pool None 0 0 0 0 0)) 0x100000000 0x200000000 12 0 (Some 1);
  tee_mm_alloc (fst r) 0x100000000 (Some 2).

(** The 4 GiB bound of the invariant is needed: [tee_mm_init] accepts a pool
    of 4 GiB (its assertion only bounds the block count), and once that pool is
    fully allocated the 32-bit shift in [tee_mm_alloc] still reports room: a
    further request succeeds and gets the address of the first range. *)
Theorem tee_mm_alloc_wraps_at_4gib :
  exists p q a b, full_4g_pool = Return (Some p, Some a) /\ nblocks p = e_size a /\
    tee_mm_alloc (Some p) 4096 (Some 3) = Return (Some q, Some b) /\
    tee_mm_get_smem q b = tee_mm_get_smem p a.
Proof. do 4 eexists. split_and!; reflexivity. Qed.

(** [tee_mm_alloc2] for a range that ends in the last block of the address space: the number of the block behind it
    wraps when it is shifted, the check against the end of the pool passes, and the pool of eight blocks at address 0 gets a cell of
    4294967295 blocks. *)
Example alloc2_last_block_wraps :
  let p := mk_pool (Some (mk_entry 1 0 0, [])) 0 0x8000 0 12 0 in
  tee_mm_init (Some (mk_pool None 0 0 0 0 0)) 0 0x8000 12 0 (Some 1) = Return (Some p, true) /\
  snd (tee_mm_alloc2 (Some p) 4096 (2 ^ 64 - 1 - 4096) (Some 2)) = Some (mk_entry 2 1 4294967295).
Proof. split; vm_compute; reflexivity. Qed.

(** ** Witnesses *)

Definition demo_pool0 : tee_mm_pool :=
  mk_pool (Some (mk_entry 1 0 0, [])) 0x1000 0x9000 0 12 0.

Definition demo_pool : tee_mm_pool :=
  mk_pool (Some (mk_entry 1 0 0, [mk_entry 2 0 2])) 0x1000 0x9000 0 12 8192.

Lemma demo_pool_reachable : mm_reachable demo_pool.
Proof.
  exists (mk_pool None 0 0 0 0 0), 0x1000, 0x9fff, 12, 0, 1, demo_pool0.
  split_and!; try (vm_compute; congruence); try reflexivity.
  apply rtc_once, (step_alloc _ 5000 (Some 2) _ (Some (mk_entry 2 0 2))); [lia|reflexivity].
Qed.

Lemma mm_regions_never_overlap_witness :
  region_in_pool demo_pool (mk_entry 2 0 2).
Proof. apply (mm_regions_never_overlap demo_pool demo_pool_reachable). apply list_elem_of_here. Defined.

Lemma tee_mm_alloc_exact_witness :
  exists q r, tee_mm_alloc (Some demo_pool) 4097 (Some 3) = Return (Some q, r) /\ wf_pool q.
Proof.
  destruct (tee_mm_alloc_exact demo_pool 4097 3 (mm_reachable_wf _ demo_pool_reachable)
    ltac:(lia)) as (q & r & H1 & H2 & _). eauto.
Defined.

Lemma tee_mm_alloc_free_witness :
  tee_mm_free (Some demo_pool) (Some 7) = Panic.
Proof.
  apply (tee_mm_alloc_free demo_pool 4096 7 demo_pool (mk_entry 7 2 1)
    (mm_reachable_wf _ demo_pool_reachable) ltac:(lia)).
  intros x Hx. apply list_elem_of_singleton in Hx. subst x. discriminate.
Defined.

Lemma tee_mm_find_exact_witness :
  exists r, tee_mm_find demo_pool 0x2004 = Return r.
Proof.
  destruct (tee_mm_find_exact demo_pool 0x2004 (mm_reachable_wf _ demo_pool_reachable)) as (r & H & _);
    [vm_compute; congruence|vm_compute; split; congruence|eauto].
Defined.
