(* ===== verification/HandleSpec.v ===== *)
(** * Handle tables: what their clients rely on

    Two parts of the system map small integers to pointers:
    [core/kernel/handle.c] for the kernel and [ta/pkcs11/src/handle.c] for the
    PKCS#11 TA. [HandleTable] states what both promise, as a refinement of a
    finite map from live handles to pointers; [Handle.v] and [Pkcs11Handle.v]
    discharge it. The theorems below are proved against the interface. *)

From stdpp Require Import base gmap list.
From Stdlib Require Import ZArith Lia.
From S2P Require Import Prelude.

Local Open Scope Z_scope.

(** A heap on which [realloc] decides by size; no object has 4 GiB or more. *)
Class Heap := {
  realloc : Z -> bool;
  realloc_bound : forall n, realloc n = true -> n < 4294967296
}.

Class HandleTable (DB : Type) := {
  ht_inv : DB -> Prop;
  ht_map : DB -> gmap Z Z;
  ht_empty : DB;
  ht_valid : Z -> bool;
  ht_get : forall `{Heap}, DB -> Z -> DB * Z;
  ht_put : DB -> Z -> DB * Z;
  ht_lookup : DB -> Z -> Z;
  ht_empty_spec : ht_inv ht_empty /\ ht_map ht_empty = ∅;
  ht_get_spec `{Heap} db p db' h : ht_inv db -> p ≠ 0 -> ht_get db p = (db', h) ->
    ht_inv db' /\
    if ht_valid h then ht_map db !! h = None /\ ht_map db' = <[h := p]> (ht_map db)
    else ht_map db' = ht_map db;
  ht_put_spec db h db' p : ht_inv db -> ht_put db h = (db', p) ->
    ht_inv db' /\ ht_map db' = delete h (ht_map db) /\ p = default 0 (ht_map db !! h);
  ht_lookup_spec db h : ht_inv db -> ht_lookup db h = default 0 (ht_map db !! h);
  ht_map_nonnull db h p : ht_map db !! h = Some p -> p ≠ 0
}.

(** An array of pointers read as a map: the non-null cells. *)
Definition nonnull (p : Z) : option Z := if p =? 0 then None else Some p.

Definition array_map (ptrs : list Z) : gmap Z Z := omap nonnull (map_seqZ 0 ptrs).

Lemma array_map_lookup ptrs h :
  array_map ptrs !! h =
    if bool_decide (0 <= h) then ptrs !! Z.to_nat h ≫= nonnull else None.
Proof.
  unfold array_map. rewrite lookup_omap. case_bool_decide.
  - rewrite lookup_map_seqZ. rewrite option_guard_True by lia.
    by replace (h - 0) with h by lia.
  - rewrite lookup_map_seqZ. rewrite option_guard_False by lia. done.
Qed.

Lemma array_map_insert ptrs h p :
  p ≠ 0 -> 0 <= h -> (Z.to_nat h < length ptrs)%nat ->
  array_map (<[Z.to_nat h := p]> ptrs) = <[h := p]> (array_map ptrs).
Proof.
  intros Hp Hh Hlen. apply map_eq. intros k. rewrite lookup_insert, !array_map_lookup.
  destruct (decide (h = k)) as [<-|Hne].
  - rewrite bool_decide_true by done. rewrite list_lookup_insert_eq by done. simpl.
    unfold nonnull. by destruct (Z.eqb_spec p 0).
  - case_bool_decide; [|done]. rewrite list_lookup_insert_ne by lia. done.
Qed.

Lemma array_map_clear ptrs h :
  0 <= h -> array_map (<[Z.to_nat h := 0]> ptrs) = delete h (array_map ptrs).
Proof.
  intros Hh. apply map_eq. intros k. rewrite lookup_delete, !array_map_lookup.
  destruct (decide (h = k)) as [<-|Hne].
  - rewrite bool_decide_true by done.
    destruct (decide (Z.to_nat h < length ptrs)%nat).
    + rewrite list_lookup_insert_eq by done. done.
    + rewrite list_insert_ge by lia. rewrite lookup_ge_None_2 by lia. done.
  - case_bool_decide; [|done]. rewrite list_lookup_insert_ne by lia. done.
Qed.

Lemma array_map_grow ptrs n : array_map (ptrs ++ replicate n 0) = array_map ptrs.
Proof.
  apply map_eq. intros k. rewrite !array_map_lookup. case_bool_decide; [|done].
  destruct (decide (Z.to_nat k < length ptrs)%nat).
  - by rewrite lookup_app_l.
  - rewrite lookup_app_r, (lookup_ge_None_2 ptrs) by lia. simpl.
    destruct (replicate n 0 !! (Z.to_nat k - length ptrs)%nat) eqn:Hl; [|done].
    apply lookup_replicate in Hl as [-> _]. done.
Qed.

Lemma array_map_nil : array_map [] = ∅.
Proof. done. Qed.

(** ** Clients of the interface *)

Section clients.
Context {DB : Type} `{!HandleTable DB} `{!Heap}.

(** A client's calls. *)
Inductive ht_call :=
| CGet (p : Z)
| CPut (h : Z).

Definition ht_run (db : DB) (c : ht_call) : DB :=
  match c with
  | CGet p => fst (ht_get db p)
  | CPut h => fst (ht_put db h)
  end.

(** The finite map the same calls act on; a [get] whose handle is not valid
    failed and left the map alone. *)
Definition ht_run_map (db : DB) (c : ht_call) (m : gmap Z Z) : gmap Z Z :=
  match c with
  | CGet p => let h := snd (ht_get db p) in if ht_valid h then <[h := p]> m else m
  | CPut h => delete h m
  end.

Definition call_ok (c : ht_call) : Prop :=
  match c with CGet p => p ≠ 0 | CPut _ => True end.

Fixpoint ht_trace (db : DB) (m : gmap Z Z) (cs : list ht_call) : DB * gmap Z Z :=
  match cs with
  | [] => (db, m)
  | c :: cs' => ht_trace (ht_run db c) (ht_run_map db c m) cs'
  end.

Lemma ht_run_refines db c :
  ht_inv db -> call_ok c ->
  ht_inv (ht_run db c) /\ ht_map (ht_run db c) = ht_run_map db c (ht_map db).
Proof.
  intros Hi Hc. destruct c as [p|h]; simpl in *.
  - destruct (ht_get db p) as [db' h] eqn:Hg.
    destruct (ht_get_spec db p db' h Hi Hc Hg) as [? Hm]. simpl.
    split; [done|]. destruct (ht_valid h); [apply Hm|done].
  - destruct (ht_put db h) as [db' p] eqn:Hg.
    destruct (ht_put_spec db h db' p Hi Hg) as (? & ? & _). done.
Qed.

Lemma ht_trace_refines cs db m :
  ht_inv db -> Forall call_ok cs -> ht_map db = m ->
  ht_inv (fst (ht_trace db m cs)) /\
  ht_map (fst (ht_trace db m cs)) = snd (ht_trace db m cs).
Proof.
  revert db m. induction cs as [|c cs IH]; intros db m Hi Hok Hm; simpl; [done|].
  inversion Hok; subst. destruct (ht_run_refines db c Hi) as [? ?]; [done|].
  apply IH; auto.
Qed.

Lemma ht_trace_lookup cs h :
  Forall call_ok cs ->
  ht_lookup (fst (ht_trace ht_empty ∅ cs)) h =
  default 0 (snd (ht_trace ht_empty ∅ cs) !! h).
Proof.
  intros Hok. destruct ht_empty_spec as [Hi Hm].
  destruct (ht_trace_refines cs ht_empty ∅ Hi Hok Hm) as [Hi' Hm'].
  rewrite ht_lookup_spec by done. by rewrite Hm'.
Qed.
End clients.
