(* ===== verification/Handle.v ===== *)
(** * Kernel handle database: [core/kernel/handle.c]

    The database is an array of pointers with its capacity; handles are indices.
    [NULL] is 0. The array doubles when it is full. *)

From stdpp Require Import base gmap list.
From Stdlib Require Import ZArith Lia.
From S2P Require Import Prelude HandleSpec.

Local Open Scope Z_scope.

Definition HANDLE_DB_INITIAL_MAX_PTRS : Z := 4.

Record handle_db := mk_handle_db {
  ptrs : list Z;
  max_ptrs : Z
}.

Definition HANDLE_DB_INITIALIZER : handle_db := mk_handle_db [] 0.

(** The loops over [n < db->max_ptrs] read [db->ptrs[n]] in order. *)
Definition handle_cells (db : handle_db) : list Z := take (Z.to_nat (max_ptrs db)) (ptrs db).

(** Returns the database after the call and the pointers the destructor was
    called on, in order. *)
Definition handle_db_destroy (db : option handle_db) (has_destructor : bool)
    : option handle_db * list Z :=
  match db with
  | None => (None, [])
  | Some db =>
      (Some HANDLE_DB_INITIALIZER,
       if has_destructor then filter (fun p => p ≠ 0) (handle_cells db) else [])
  end.

Definition handle_db_is_empty (db : option handle_db) : bool :=
  match db with
  | None => true
  | Some db => forallb (fun p => p =? 0) (handle_cells db)
  end.

(** First [n >= from] with a null cell. *)
Fixpoint find_null (cells : list Z) (from : Z) : option Z :=
  match cells with
  | [] => None
  | p :: cells' => if p =? 0 then Some from else find_null cells' (from + 1)
  end.

(** [n] is a [size_t], the function returns an [int]. *)
Definition handle_get `{Heap} (db : option handle_db) (ptr : Z) : option handle_db * Z :=
  match db with
  | None => (None, -1)
  | Some db =>
      if ptr =? 0 then (Some db, -1)
      else
        match find_null (handle_cells db) 0 with
        | Some n => (Some (mk_handle_db (<[Z.to_nat n := ptr]> (ptrs db)) (max_ptrs db)), s32 n)
        | None =>
            let n := max_ptrs db in
            let new_max_ptrs :=
              if max_ptrs db =? 0 then HANDLE_DB_INITIAL_MAX_PTRS else u64 (max_ptrs db * 2) in
            if negb (realloc (u64 (new_max_ptrs * 8))) then (Some db, -1)
            else
              let cells := ptrs db ++ replicate (Z.to_nat (new_max_ptrs - max_ptrs db)) 0 in
              (Some (mk_handle_db (<[Z.to_nat n := ptr]> cells) new_max_ptrs), s32 n)
        end
  end.

Definition handle_put (db : option handle_db) (handle : Z) : option handle_db * Z :=
  match db with
  | None => (None, 0)
  | Some db =>
      if (handle <? 0) || (handle >=? max_ptrs db) then (Some db, 0)
      else
        (Some (mk_handle_db (<[Z.to_nat handle := 0]> (ptrs db)) (max_ptrs db)),
         default 0 (ptrs db !! Z.to_nat handle))
  end.

Definition handle_lookup (db : option handle_db) (handle : Z) : Z :=
  match db with
  | None => 0
  | Some db =>
      if (handle <? 0) || (handle >=? max_ptrs db) then 0
      else default 0 (ptrs db !! Z.to_nat handle)
  end.

(** ** Invariant and lemmas *)

(** [max_ptrs] is the length of the array, which a heap below 4 GiB bounds. *)
Definition db_inv (db : handle_db) : Prop :=
  Z.of_nat (length (ptrs db)) = max_ptrs db /\ max_ptrs db < 536870912.

Lemma handle_cells_all db : db_inv db -> handle_cells db = ptrs db.
Proof. intros [H _]. unfold handle_cells. apply take_ge. lia. Qed.

Lemma find_null_some cells from n :
  find_null cells from = Some n ->
  from <= n < from + Z.of_nat (length cells) /\ cells !! Z.to_nat (n - from) = Some 0 /\
  forall k, from <= k < n -> exists p, cells !! Z.to_nat (k - from) = Some p /\ p ≠ 0.
Proof.
  revert from. induction cells as [|p cells IH]; intros from; simpl; [done|].
  destruct (Z.eqb_spec p 0) as [->|Hp].
  - intros [= <-]. replace (from - from) with 0 by lia. simpl. split_and!; [lia..|done|]. intros; lia.
  - intros Hf. destruct (IH _ Hf) as (H1 & H2 & H3).
    split_and!; [lia..| |].
    + replace (Z.to_nat (n - from)) with (S (Z.to_nat (n - (from + 1)))) by lia. done.
    + intros k Hk. destruct (decide (k = from)) as [->|].
      * replace (from - from) with 0 by lia. simpl. eauto.
      * replace (Z.to_nat (k - from)) with (S (Z.to_nat (k - (from + 1)))) by lia.
        apply H3. lia.
Qed.

Lemma find_null_none cells from :
  find_null cells from = None -> forall k p, cells !! k = Some p -> p ≠ 0.
Proof.
  revert from. induction cells as [|p cells IH]; intros from; simpl; [done|].
  destruct (Z.eqb_spec p 0); [done|]. intros Hf [|k] q Hq; simpl in Hq; [congruence|]. eauto.
Qed.

(** [handle_get] stores the pointer in a cell that was null or new. *)
Lemma handle_get_cases `{Heap} db p db' h :
  db_inv db -> p ≠ 0 -> handle_get (Some db) p = (Some db', h) ->
  db_inv db' /\
  ((h = -1 /\ db' = db) \/
   (0 <= h /\ array_map (ptrs db) !! h = None /\
    array_map (ptrs db') = <[h := p]> (array_map (ptrs db)) /\
    forall k, 0 <= k < h -> is_Some (array_map (ptrs db) !! k))).
Proof.
  intros Hi Hp. pose proof Hi as [Hlen Hb]. unfold handle_get.
  destruct (Z.eqb_spec p 0) as [|_]; [done|]. rewrite handle_cells_all by done.
  destruct (find_null (ptrs db) 0) as [n|] eqn:Hf.
  - intros [= <- <-]. destruct (find_null_some _ _ _ Hf) as (Hn & H0 & Hbelow).
    replace (n - 0) with n in H0 by lia.
    assert (s32 n = n) as -> by cint.
    split; [unfold db_inv; simpl; rewrite length_insert; done|]. right.
    split_and!; [lia| |by apply array_map_insert; [done|lia..]|].
    + rewrite array_map_lookup, bool_decide_true, H0 by lia. done.
    + intros k Hk. destruct (Hbelow k) as (q & Hq & Hq0); [lia|].
      replace (k - 0) with k in Hq by lia.
      rewrite array_map_lookup, bool_decide_true, Hq by lia. simpl. unfold nonnull.
      destruct (Z.eqb_spec q 0); [done|eauto].
  - set (nm := if max_ptrs db =? 0 then _ else _).
    destruct (realloc (u64 (nm * 8))) eqn:Hr; simpl; [|intros [= <- <-]; auto].
    apply realloc_bound in Hr. intros [= <- <-].
    assert (max_ptrs db < nm < 536870912) as Hnm.
    { revert Hr. subst nm. unfold HANDLE_DB_INITIAL_MAX_PTRS.
      destruct (Z.eqb_spec (max_ptrs db) 0) as [->|]; [lia|].
      rewrite (u64_small (max_ptrs db * 2)), u64_small by (unfold is_u64; lia). lia. }
    assert (s32 (max_ptrs db) = max_ptrs db) as -> by cint.
    split; [unfold db_inv; simpl; rewrite length_insert, length_app, length_replicate; lia|].
    right. split_and!; [lia| | |].
    + rewrite array_map_lookup, bool_decide_true by lia. rewrite lookup_ge_None_2 by lia. done.
    + simpl. rewrite array_map_insert; [by rewrite array_map_grow|done|lia|].
      rewrite length_app, length_replicate. lia.
    + intros k Hk. rewrite array_map_lookup, bool_decide_true by lia.
      destruct (ptrs db !! Z.to_nat k) as [q|] eqn:Hq; [|apply lookup_ge_None in Hq; lia].
      simpl. unfold nonnull. pose proof (find_null_none _ _ Hf _ _ Hq).
      destruct (Z.eqb_spec q 0); [done|eauto].
Qed.

Lemma handle_lookup_map db h :
  db_inv db -> handle_lookup (Some db) h = default 0 (array_map (ptrs db) !! h).
Proof.
  intros [Hlen _]. unfold handle_lookup. rewrite array_map_lookup.
  destruct (Z.ltb_spec h 0); [by rewrite bool_decide_false by lia|].
  rewrite bool_decide_true by lia. simpl. rewrite Z.geb_leb.
  destruct (Z.leb_spec (max_ptrs db) h); [by rewrite lookup_ge_None_2 by lia|].
  destruct (ptrs db !! Z.to_nat h) as [q|] eqn:Hq; [|done]. simpl. unfold nonnull.
  by destruct (Z.eqb_spec q 0).
Qed.

Lemma handle_put_map db h db' p :
  db_inv db -> handle_put (Some db) h = (Some db', p) ->
  db_inv db' /\ array_map (ptrs db') = delete h (array_map (ptrs db)) /\
  p = default 0 (array_map (ptrs db) !! h).
Proof.
  intros Hi Hput. pose proof (handle_lookup_map db h Hi) as Hl. pose proof Hi as [Hlen Hb].
  unfold handle_put in Hput. unfold handle_lookup in Hl.
  destruct (_ || _) eqn:Hr; injection Hput as <- <-.
  - split_and!; [done| |done]. symmetry. apply delete_id. rewrite array_map_lookup.
    apply orb_true_iff in Hr as [?|?]; zbool.
    + by rewrite bool_decide_false by lia.
    + case_bool_decide; [|done]. by rewrite lookup_ge_None_2 by lia.
  - zbool. split_and!; [unfold db_inv; simpl; by rewrite length_insert| |done].
    by apply array_map_clear.
Qed.

Lemma array_map_nonnull l h p : array_map l !! h = Some p -> p ≠ 0.
Proof.
  rewrite array_map_lookup. case_bool_decide; [|done].
  destruct (l !! Z.to_nat h) as [q|]; simpl; [|done]. unfold nonnull.
  destruct (Z.eqb_spec q 0); [done|]. by intros [= <-].
Qed.

Definition db_of (r : option handle_db * Z) : handle_db * Z :=
  (default HANDLE_DB_INITIALIZER (fst r), snd r).

#[export] Program Instance kernel_handle_table : HandleTable handle_db := {|
  ht_inv := db_inv;
  ht_map db := array_map (ptrs db);
  ht_empty := HANDLE_DB_INITIALIZER;
  ht_valid h := 0 <=? h;
  ht_get _ db p := db_of (handle_get (Some db) p);
  ht_put db h := db_of (handle_put (Some db) h);
  ht_lookup db h := handle_lookup (Some db) h
|}.
Next Obligation. done. Qed.
Next Obligation.
  intros Hh db p db' h Hi Hp Hg. unfold db_of in Hg.
  destruct (handle_get (Some db) p) as [[d|] n] eqn:He; simpl in Hg.
  - injection Hg as <- <-. destruct (handle_get_cases db p d n Hi Hp He) as [? [[-> ->]|(Hn & ? & ? & _)]];
      [done|]. destruct (Z.leb_spec 0 n); [done|lia].
  - exfalso. unfold handle_get in He. repeat case_hyp He; congruence.
Qed.
Next Obligation.
  intros db h db' p Hi Hg. unfold db_of in Hg.
  destruct (handle_put (Some db) h) as [[d|] n] eqn:He; simpl in Hg.
  - injection Hg as <- <-. by apply handle_put_map.
  - exfalso. unfold handle_put in He. repeat case_hyp He; congruence.
Qed.
Next Obligation. intros. by apply handle_lookup_map. Qed.
Next Obligation. intros db h p. apply array_map_nonnull. Qed.

(** ** Properties *)

(** A reference table: the live handles with their pointers, and how many handles there are room for. *)
Record ref_table := mk_ref_table {
  rt_map : gmap Z Z;
  rt_room : Z
}.

Definition rt_free (t : ref_table) : option Z :=
  head (filter (fun h => rt_map t !! h = None) (seqZ 0 (rt_room t))).
Definition rt_pointers (t : ref_table) : list Z := omap (fun h => rt_map t !! h) (seqZ 0 (rt_room t)).

(** A new handle is the smallest that is free; the room grows only when none is, if the heap has
    eight bytes for each handle. *)
Definition rt_get `{Heap} (t : ref_table) (p : Z) : ref_table * Z :=
  if p =? 0 then (t, -1)
  else
    match rt_free t with
    | Some h => (mk_ref_table (<[h := p]> (rt_map t)) (rt_room t), h)
    | None =>
        let room := if rt_room t =? 0 then 4 else 2 * rt_room t in
        if realloc (8 * room) then (mk_ref_table (<[rt_room t := p]> (rt_map t)) room, rt_room t) else (t, -1)
    end.

(** Calls with their answers: a handle or pointer, whether the table is empty, the pointers destroyed. *)
Inductive handle_call := HGet (p : Z) | HPut (h : Z) | HLookup (h : Z) | HIsEmpty | HDestroy.
Inductive handle_answer := ANum (n : Z) | ABool (b : bool) | APtrs (l : list Z).

Definition run_db `{Heap} (db : handle_db) (c : handle_call) : handle_db * handle_answer :=
  match c with
  | HGet p => let '(db', n) := db_of (handle_get (Some db) p) in (db', ANum n)
  | HPut h => let '(db', n) := db_of (handle_put (Some db) h) in (db', ANum n)
  | HLookup h => (db, ANum (handle_lookup (Some db) h))
  | HIsEmpty => (db, ABool (handle_db_is_empty (Some db)))
  | HDestroy => (default HANDLE_DB_INITIALIZER (fst (handle_db_destroy (Some db) true)), APtrs (snd (handle_db_destroy (Some db) true)))
  end.
Definition run_ref `{Heap} (t : ref_table) (c : handle_call) : ref_table * handle_answer :=
  match c with
  | HGet p => let '(t', n) := rt_get t p in (t', ANum n)
  | HPut h => (mk_ref_table (delete h (rt_map t)) (rt_room t), ANum (default 0 (rt_map t !! h)))
  | HLookup h => (t, ANum (default 0 (rt_map t !! h)))
  | HIsEmpty => (t, ABool (bool_decide (rt_map t = ∅)))
  | HDestroy => (mk_ref_table ∅ 0, APtrs (rt_pointers t))
  end.

Fixpoint answers {T} (run : T -> handle_call -> T * handle_answer) (t : T) (cs : list handle_call) : list handle_answer :=
  match cs with
  | [] => []
  | c :: cs => let '(t, a) := run t c in a :: answers run t cs
  end.

(** *** The database and the reference *)

Record same_table (db : handle_db) (t : ref_table) : Prop := {
  st_db : db_inv db;
  st_map : array_map (ptrs db) = rt_map t;
  st_room : max_ptrs db = rt_room t;
}.

Lemma array_map_nth l (n : nat) : array_map l !! Z.of_nat n = l !! n ≫= nonnull.
Proof. rewrite array_map_lookup, bool_decide_true, Nat2Z.id by lia. done. Qed.

(** The loop of [handle_get] finds what the reference picks. *)
Lemma find_null_free (l : list Z) (m : gmap Z Z) from :
  (forall n : nat, (n < length l)%nat -> m !! (from + Z.of_nat n) = l !! n ≫= nonnull) ->
  find_null l from = head (filter (fun h => m !! h = None) (seqZ from (Z.of_nat (length l)))).
Proof.
  revert from. induction l as [|p l IH]; intros from Hm; [done|]. cbn [find_null length].
  rewrite seqZ_cons by lia. rewrite filter_cons.
  assert (H0 := Hm 0%nat ltac:(cbn; lia)). rewrite Z.add_0_r in H0. cbn in H0. unfold nonnull in H0.
  destruct (Z.eqb_spec p 0); [by rewrite decide_True|].
  rewrite decide_False by (by rewrite H0). replace (Z.pred (Z.of_nat (S (length l)))) with (Z.of_nat (length l)) by lia.
  apply IH. intros k Hk. etransitivity; [|exact (Hm (S k) ltac:(cbn; lia))]. f_equal. lia.
Qed.

Lemma same_free db t : same_table db t -> find_null (handle_cells db) 0 = rt_free t.
Proof.
  intros [Hi Hm Hr]. rewrite handle_cells_all by done. unfold rt_free. destruct Hi as [Hl _].
  rewrite <- Hr, <- Hl. apply find_null_free. intros n Hn. rewrite <- Hm, Z.add_0_l. apply array_map_nth.
Qed.

Lemma same_get `{Heap} db t p : same_table db t ->
  same_table (fst (db_of (handle_get (Some db) p))) (fst (rt_get t p)) /\ snd (db_of (handle_get (Some db) p)) = snd (rt_get t p).
Proof.
  intros Hs. pose proof Hs as [Hi Hm Hr]. pose proof Hi as [Hl Hb]. unfold rt_get. rewrite <- (same_free db t Hs).
  destruct (handle_get (Some db) p) as [o h] eqn:Hg. pose proof Hg as Hd. unfold handle_get in Hd.
  destruct (Z.eqb_spec p 0) as [|Hp]; [by injection Hd as <- <-|]. 
  assert (Hc : forall db', o = Some db' -> db_inv db') by (intros db' ->; by apply (handle_get_cases db p db' h)).
  destruct (find_null (handle_cells db) 0) as [n|] eqn:Hf.
  - injection Hd as <- <-. rewrite handle_cells_all in Hf by done. apply find_null_some in Hf as (Hn & _ & _).
    split; [|cbn; cint]. split; [by apply Hc| |done].
    change (array_map (<[Z.to_nat n := p]> (ptrs db)) = <[n := p]> (rt_map t)). rewrite array_map_insert by (done || lia). by rewrite Hm.
  - rewrite <- Hr.
    assert (He : realloc (u64 ((if max_ptrs db =? 0 then HANDLE_DB_INITIAL_MAX_PTRS else u64 (max_ptrs db * 2)) * 8)) =
                 realloc (8 * (if max_ptrs db =? 0 then 4 else 2 * max_ptrs db))).
    { f_equal. unfold HANDLE_DB_INITIAL_MAX_PTRS. destruct (Z.eqb_spec (max_ptrs db) 0); [done|].
      rewrite (u64_small (max_ptrs db * 2)), u64_small by (unfold is_u64; lia). lia. }
    rewrite He in Hd. destruct (realloc _) eqn:Hre; cbn [negb] in Hd; [|by injection Hd as <- <-].
    assert (En : (if max_ptrs db =? 0 then HANDLE_DB_INITIAL_MAX_PTRS else u64 (max_ptrs db * 2)) = (if max_ptrs db =? 0 then 4 else 2 * max_ptrs db)).
    { destruct (Z.eqb_spec (max_ptrs db) 0); [done|]. rewrite u64_small by (unfold is_u64; lia). lia. }
    rewrite En in Hd. injection Hd as <- <-. split; [|cbn; cint]. split; [by apply Hc| |done].
    assert (max_ptrs db < (if max_ptrs db =? 0 then 4 else 2 * max_ptrs db)) by (destruct (Z.eqb_spec (max_ptrs db) 0); lia).
    change (array_map (<[Z.to_nat (max_ptrs db) := p]> (ptrs db ++ replicate (Z.to_nat ((if max_ptrs db =? 0 then 4 else 2 * max_ptrs db) - max_ptrs db)) 0)) = <[max_ptrs db := p]> (rt_map t)).
    rewrite array_map_insert; [by rewrite array_map_grow, Hm|done|lia|]. rewrite length_app, length_replicate. lia.
Qed.

Lemma same_put db t h : same_table db t ->
  same_table (fst (db_of (handle_put (Some db) h))) (mk_ref_table (delete h (rt_map t)) (rt_room t)) /\ snd (db_of (handle_put (Some db) h)) = default 0 (rt_map t !! h).
Proof.
  intros [Hi Hm Hr]. destruct (handle_put (Some db) h) as [[db'|] p] eqn:Hp.
  - destruct (handle_put_map db h db' p Hi Hp) as (Hi' & Hm' & ->). rewrite <- Hm. split; [|done]. split; [done|done|].
    unfold handle_put in Hp. cbn. destruct (_ || _); by injection Hp as <-.
  - exfalso. unfold handle_put in Hp. by destruct (_ || _).
Qed.

Lemma nonnull_cells l : forallb (fun p => p =? 0) l = bool_decide (array_map l = ∅).
Proof.
  apply eq_bool_prop_intro. rewrite Is_true_true, forallb_forall, bool_decide_spec. split.
  - intros Hl. apply map_empty. intros h. rewrite array_map_lookup. case_bool_decide; [|done].
    destruct (l !! Z.to_nat h) as [p|] eqn:Hp; [|done]. cbn. unfold nonnull.
    by rewrite (Hl p) by (apply list_elem_of_In; by eapply list_elem_of_lookup_2).
  - intros He p Hin%list_elem_of_In. apply list_elem_of_lookup_1 in Hin as [n Hn]. pose proof (array_map_nth l n) as Hm.
    rewrite He, Hn in Hm. cbn in Hm. unfold nonnull in Hm. by destruct (p =? 0).
Qed.

Lemma nonnull_pointers l (m : gmap Z Z) from :
  (forall n : nat, (n < length l)%nat -> m !! (from + Z.of_nat n) = l !! n ≫= nonnull) ->
  filter (fun p => p ≠ 0) l = omap (fun h => m !! h) (seqZ from (Z.of_nat (length l))).
Proof.
  revert from. induction l as [|p l IH]; intros from Hm; [done|]. cbn [length].
  rewrite seqZ_cons by lia. rewrite filter_cons. cbn [omap list_omap].
  assert (H0 := Hm 0%nat ltac:(cbn; lia)). rewrite Z.add_0_r in H0. cbn in H0. unfold nonnull in H0. rewrite H0.
  rewrite (IH (from + 1)); [|intros k Hk; etransitivity; [|exact (Hm (S k) ltac:(cbn; lia))]; f_equal; lia].
  replace (Z.pred (Z.of_nat (S (length l)))) with (Z.of_nat (length l)) by lia. fold (Z.succ from).
  change (from + 1) with (Z.succ from). destruct (Z.eqb_spec p 0); [by rewrite decide_False by naive_solver|by rewrite decide_True].
Qed.

(** Each call answers as the reference does and keeps the two the same. *)
Lemma same_run `{Heap} db t c : same_table db t ->
  same_table (fst (run_db db c)) (fst (run_ref t c)) /\ snd (run_db db c) = snd (run_ref t c).
Proof.
  intros Hs. pose proof Hs as [Hi Hm Hr]. destruct c as [p|h|h| |]; cbn [run_db run_ref].
  - destruct (same_get db t p Hs) as [H1 H2]. destruct (db_of _), (rt_get t p). cbn in *. by subst.
  - destruct (same_put db t h Hs) as [H1 H2]. destruct (db_of _). cbn in *. by subst.
  - split; [done|]. cbn [snd]. by rewrite handle_lookup_map, Hm.
  - split; [done|]. cbn [snd handle_db_is_empty]. by rewrite handle_cells_all, nonnull_cells, Hm.
  - split; [by split|]. cbn [snd handle_db_destroy]. rewrite handle_cells_all by done. f_equal. unfold rt_pointers.
    destruct Hi as [Hl _]. rewrite <- Hr, <- Hl. apply nonnull_pointers. intros n Hn. rewrite <- Hm, Z.add_0_l. apply array_map_nth.
Qed.

Lemma same_answers `{Heap} cs db t : same_table db t -> answers run_db db cs = answers run_ref t cs.
Proof.
  revert db t. induction cs as [|c cs IH]; intros db t Hs; [done|]. cbn [answers].
  destruct (same_run db t c Hs) as [H1 H2]. destruct (run_db db c), (run_ref t c). cbn in *. subst. f_equal. by apply IH.
Qed.

(** C25. The kernel handle database answers any sequence of calls ([handle_get] with any pointer, NULL included,
    [handle_put] and [handle_lookup] of any number, [handle_db_is_empty], [handle_db_destroy]) as a finite map from handles to pointers does in which
    a new handle is the smallest that is not live: handles, pointers, and the pointers given to the
    destructor with their order, are the same, and [handle_get] fails for NULL and when the room has to grow and the heap has no
    memory for it, only. *)
Theorem handle_db_refines_map (H : Heap) cs :
  answers run_db HANDLE_DB_INITIALIZER cs = answers run_ref (mk_ref_table ∅ 0) cs.
Proof. by apply same_answers. Qed.

(** [handle_get] on a consistent database either fails with -1 and changes
    nothing, or returns the smallest handle that is not live; the handle then
    looks up to the pointer, every other handle keeps its pointer, and
    [handle_put] of it returns the pointer and restores the old lookups. *)
Theorem handle_get_fresh (H : Heap) db p db' h :
  db_inv db -> p ≠ 0 -> handle_get (Some db) p = (Some db', h) ->
  (h = -1 /\ db' = db) \/
  (handle_lookup (Some db) h = 0 /\ handle_lookup (Some db') h = p /\
   (forall k, 0 <= k < h -> handle_lookup (Some db) k ≠ 0) /\
   (forall k, k ≠ h -> handle_lookup (Some db') k = handle_lookup (Some db) k) /\
   exists db'', handle_put (Some db') h = (Some db'', p) /\
     forall k, handle_lookup (Some db'') k = handle_lookup (Some db) k).
Proof.
  intros Hi Hp Hg. destruct (handle_get_cases db p db' h Hi Hp Hg) as [Hi' [?|(Hh & Hn & Hm & Hb)]];
    [by left|right].
  assert (Hl : forall k, handle_lookup (Some db') k = if decide (h = k) then p else handle_lookup (Some db) k).
  { intros k. rewrite !handle_lookup_map, Hm, lookup_insert by done. by case_decide. }
  destruct (handle_put (Some db') h) as [[db''|] q] eqn:Hput.
  2:{ unfold handle_put in Hput. repeat case_hyp Hput; congruence. }
  destruct (handle_put_map _ _ _ _ Hi' Hput) as (Hi'' & Hm'' & Hq).
  split_and!.
  - by rewrite handle_lookup_map, Hn.
  - rewrite Hl. by rewrite decide_True.
  - intros k Hk. rewrite handle_lookup_map by done. destruct (Hb k Hk) as [q' Hq'].
    rewrite Hq'. simpl. by eapply array_map_nonnull.
  - intros k Hk. rewrite Hl. by rewrite decide_False by congruence.
  - exists db''. rewrite Hm, lookup_insert_eq in Hq. subst q. split; [done|].
    intros k. rewrite !handle_lookup_map, Hm'', Hm by done.
    rewrite delete_insert_id by done. done.
Qed.

(** ** Witnesses *)

Definition demo_heap : Heap := {|
  realloc := fun n => n <? 1048576;
  realloc_bound := fun n Hn => Z.lt_trans _ _ _ (proj1 (Z.ltb_lt _ _) Hn) (eq_refl : 1048576 < 4294967296)
|}.

Lemma handle_db_refines_map_witness :
  @answers _ (@run_db demo_heap) HANDLE_DB_INITIALIZER [HGet 100; HGet 0; HGet 200; HPut 0; HIsEmpty; HGet 300; HGet 400; HGet 500; HGet 600; HLookup 4; HDestroy; HIsEmpty] =
  [ANum 0; ANum (-1); ANum 1; ANum 100; ABool false; ANum 0; ANum 2; ANum 3; ANum 4; ANum 600; APtrs [300; 200; 400; 500; 600]; ABool true].
Proof. rewrite handle_db_refines_map. vm_compute. reflexivity. Defined.

Lemma handle_get_fresh_witness :
  let r := @handle_get demo_heap (Some (mk_handle_db [7; 0; 9; 0] 4)) 5 in
  snd r = -1 \/ handle_lookup (fst r) (snd r) = 5.
Proof.
  destruct (handle_get_fresh demo_heap (mk_handle_db [7; 0; 9; 0] 4) 5
    (mk_handle_db [7; 5; 9; 0] 4) 1) as [[? _]|(_ & Hl & _)].
  - split; [reflexivity|simpl; lia].
  - discriminate.
  - reflexivity.
  - left. assumption.
  - right. exact Hl.
Defined.
