(* ===== verification/Pkcs11Handle.v ===== *)
(** * PKCS#11 TA handle database: [ta/pkcs11/src/handle.c]

    As the kernel's, with [uint32_t] handles of which 0 is reserved as invalid:
    the cell of index 0 is never used. *)

From stdpp Require Import base gmap list.
From Stdlib Require Import ZArith Lia.
From S2P Require Import Prelude HandleSpec Handle.

Local Open Scope Z_scope.

Record ck_handle_db := mk_ck_db {
  ck_ptrs : list Z;
  ck_max_ptrs : Z
}.

Definition ck_handle_db_init : ck_handle_db := mk_ck_db [] 0.

Definition ck_handle_db_destroy (db : option ck_handle_db) : option ck_handle_db :=
  match db with
  | None => None
  | Some _ => Some (mk_ck_db [] 0)
  end.

(** The cells the loops [for (n = 1; n < db->max_ptrs; n++)] visit. *)
Definition ck_cells (db : ck_handle_db) : list Z :=
  drop 1 (take (Z.to_nat (ck_max_ptrs db)) (ck_ptrs db)).

Definition ck_handle_get `{Heap} (db : option ck_handle_db) (ptr : Z) : option ck_handle_db * Z :=
  match db with
  | None => (None, 0)
  | Some db =>
      if ptr =? 0 then (Some db, 0)
      else
        match find_null (ck_cells db) 1 with
        | Some n => (Some (mk_ck_db (<[Z.to_nat n := ptr]> (ck_ptrs db)) (ck_max_ptrs db)), n)
        | None =>
            let n := Z.max 1 (ck_max_ptrs db) in
            let new_max_ptrs :=
              if ck_max_ptrs db =? 0 then HANDLE_DB_INITIAL_MAX_PTRS else u32 (ck_max_ptrs db * 2) in
            if negb (realloc (u64 (new_max_ptrs * 8))) then (Some db, 0)
            else
              let cells := ck_ptrs db ++ replicate (Z.to_nat (new_max_ptrs - ck_max_ptrs db)) 0 in
              (Some (mk_ck_db (<[Z.to_nat n := ptr]> cells) new_max_ptrs), n)
        end
  end.

Definition ck_handle_put (db : option ck_handle_db) (handle : Z) : option ck_handle_db * Z :=
  match db with
  | None => (None, 0)
  | Some db =>
      if (handle =? 0) || (handle >=? ck_max_ptrs db) then (Some db, 0)
      else
        (Some (mk_ck_db (<[Z.to_nat handle := 0]> (ck_ptrs db)) (ck_max_ptrs db)),
         default 0 (ck_ptrs db !! Z.to_nat handle))
  end.

Definition ck_handle_lookup (db : option ck_handle_db) (handle : Z) : Z :=
  match db with
  | None => 0
  | Some db =>
      if (handle =? 0) || (handle >=? ck_max_ptrs db) then 0
      else default 0 (ck_ptrs db !! Z.to_nat handle)
  end.

Fixpoint find_ptr (ptr : Z) (cells : list Z) (from : Z) : Z :=
  match cells with
  | [] => 0
  | p :: cells' => if p =? ptr then from else find_ptr ptr cells' (from + 1)
  end.

Definition ck_handle_lookup_handle (db : ck_handle_db) (ptr : Z) : Z :=
  if ptr =? 0 then 0 else find_ptr ptr (ck_cells db) 1.

(** ** Invariant and lemmas *)

Definition ck_inv (db : ck_handle_db) : Prop :=
  Z.of_nat (length (ck_ptrs db)) = ck_max_ptrs db /\ ck_max_ptrs db < 536870912 /\
  (ck_max_ptrs db = 0 \/ 4 <= ck_max_ptrs db) /\
  (forall p, ck_ptrs db !! 0%nat = Some p -> p = 0).

Lemma ck_cells_lookup db k :
  ck_inv db -> ck_cells db !! k = ck_ptrs db !! S k.
Proof.
  intros (H & _). unfold ck_cells. rewrite lookup_drop, take_ge by lia. done.
Qed.

Lemma ck_cells_length db : ck_inv db -> length (ck_cells db) = (length (ck_ptrs db) - 1)%nat.
Proof.
  intros (H & _). unfold ck_cells. rewrite length_drop, take_ge by lia. done.
Qed.

Lemma ck_handle_get_cases `{Heap} db p db' h :
  ck_inv db -> p ≠ 0 -> ck_handle_get (Some db) p = (Some db', h) ->
  ck_inv db' /\
  ((h = 0 /\ db' = db) \/
   (0 < h /\ array_map (ck_ptrs db) !! h = None /\
    array_map (ck_ptrs db') = <[h := p]> (array_map (ck_ptrs db)))).
Proof.
  intros Hi Hp. pose proof Hi as (Hlen & Hb & Hm & H0). unfold ck_handle_get.
  destruct (Z.eqb_spec p 0) as [|_]; [done|].
  destruct (find_null (ck_cells db) 1) as [n|] eqn:Hf.
  - intros [= <- <-]. destruct (find_null_some _ _ _ Hf) as (Hn & Hz & _).
    rewrite ck_cells_length in Hn by done. rewrite ck_cells_lookup in Hz by done.
    replace (S (Z.to_nat (n - 1))) with (Z.to_nat n) in Hz by lia.
    split.
    + unfold ck_inv; simpl. rewrite length_insert. split_and!; [done..|].
      rewrite list_lookup_insert_ne by lia. done.
    + right. split_and!; [lia| |by apply array_map_insert; [done|lia..]].
      rewrite array_map_lookup, bool_decide_true, Hz by lia. done.
  - set (nm := if ck_max_ptrs db =? 0 then _ else _).
    destruct (realloc (u64 (nm * 8))) eqn:Hr; simpl; [|intros [= <- <-]; auto].
    apply realloc_bound in Hr. intros [= <- <-].
    assert (Z.max 1 (ck_max_ptrs db) < nm < 536870912 /\ 4 <= nm) as Hnm.
    { revert Hr. subst nm. unfold HANDLE_DB_INITIAL_MAX_PTRS.
      destruct (Z.eqb_spec (ck_max_ptrs db) 0) as [->|]; [lia|].
      rewrite (u32_small (ck_max_ptrs db * 2)), u64_small by (unfold is_u32, is_u64; lia). lia. }
    split.
    + unfold ck_inv; simpl. rewrite length_insert, length_app, length_replicate.
      split_and!; [lia..|]. rewrite list_lookup_insert_ne by lia.
      destruct (ck_ptrs db) as [|c cs] eqn:Hc; simpl; [|simpl in H0; done].
      intros q Hq. apply lookup_replicate in Hq. by destruct Hq.
    + right. split_and!; [lia| |].
      * rewrite array_map_lookup, bool_decide_true by lia. rewrite lookup_ge_None_2 by lia. done.
      * simpl. rewrite array_map_insert; [by rewrite array_map_grow|done|lia|].
        rewrite length_app, length_replicate. lia.
Qed.

Lemma ck_handle_lookup_map db h :
  ck_inv db -> ck_handle_lookup (Some db) h = default 0 (array_map (ck_ptrs db) !! h).
Proof.
  intros (Hlen & _ & _ & H0). unfold ck_handle_lookup. rewrite array_map_lookup.
  assert (Hz : default 0 (ck_ptrs db !! 0%nat) = 0).
  { destruct (ck_ptrs db !! 0%nat) eqn:He; [by apply H0|done]. }
  assert (Hn : forall o : option Z, default 0 o = default 0 (o ≫= nonnull)).
  { intros [q|]; [|done]. simpl. unfold nonnull. by destruct (Z.eqb_spec q 0). }
  destruct (Z.eqb_spec h 0) as [->|Hh]; simpl; [by rewrite <- Hn|].
  rewrite Z.geb_leb. destruct (Z.leb_spec (ck_max_ptrs db) h).
  - case_bool_decide; [|done]. by rewrite lookup_ge_None_2 by lia.
  - case_bool_decide; [by rewrite <- Hn|]. by replace (Z.to_nat h) with 0%nat by lia.
Qed.

Lemma ck_handle_put_map db h db' p :
  ck_inv db -> ck_handle_put (Some db) h = (Some db', p) ->
  ck_inv db' /\ array_map (ck_ptrs db') = delete h (array_map (ck_ptrs db)) /\
  p = default 0 (array_map (ck_ptrs db) !! h).
Proof.
  intros Hi Hput. pose proof (ck_handle_lookup_map db h Hi) as Hl.
  pose proof Hi as (Hlen & Hb & Hm & H0).
  unfold ck_handle_put in Hput. unfold ck_handle_lookup in Hl.
  assert (Hid : array_map (ck_ptrs db) !! h = None -> array_map (ck_ptrs db) = delete h (array_map (ck_ptrs db)))
    by (intros; by rewrite delete_id).
  destruct (_ || _) eqn:Hr; injection Hput as <- <-.
  - split_and!; [done| |done]. apply Hid. rewrite array_map_lookup. case_bool_decide; [|done].
    apply orb_true_iff in Hr as [?|?]; zbool; [subst h; change (Z.to_nat 0) with 0%nat|by rewrite lookup_ge_None_2 by lia].
    destruct (ck_ptrs db !! 0%nat) eqn:He; [|done]. by rewrite (H0 _ eq_refl).
  - zbool. split_and!; [| |done].
    + unfold ck_inv; simpl. rewrite length_insert. split_and!; [done..|]. intros q Hq.
      destruct (decide (Z.to_nat h = 0%nat)) as [Hz|Hz].
      * rewrite Hz in Hq. destruct (ck_ptrs db); simpl in Hq; congruence.
      * rewrite list_lookup_insert_ne in Hq by done. auto.
    + simpl. destruct (decide (0 <= h)); [by apply array_map_clear|].
      replace (Z.to_nat h) with 0%nat by lia.
      assert (<[0%nat := 0]> (ck_ptrs db) = ck_ptrs db) as ->.
      { destruct (ck_ptrs db) as [|c l] eqn:He; [done|]. simpl. f_equal. by rewrite (H0 c). }
      apply Hid. by rewrite array_map_lookup, bool_decide_false by lia.
Qed.

Definition ck_db_of (r : option ck_handle_db * Z) : ck_handle_db * Z :=
  (default ck_handle_db_init (fst r), snd r).

#[export] Program Instance pkcs11_handle_table : HandleTable ck_handle_db := {|
  ht_inv := ck_inv;
  ht_map db := array_map (ck_ptrs db);
  ht_empty := ck_handle_db_init;
  ht_valid h := negb (h =? 0);
  ht_get _ db p := ck_db_of (ck_handle_get (Some db) p);
  ht_put db h := ck_db_of (ck_handle_put (Some db) h);
  ht_lookup db h := ck_handle_lookup (Some db) h
|}.
Next Obligation.
  split; [|done]. split_and!; simpl; try lia. intros p Hp. discriminate Hp.
Qed.
Next Obligation.
  intros Hh db p db' h Hi Hp Hg. unfold ck_db_of in Hg.
  destruct (ck_handle_get (Some db) p) as [[d|] n] eqn:He; simpl in Hg.
  - injection Hg as <- <-. destruct (ck_handle_get_cases db p d n Hi Hp He) as [? [[-> ->]|(Hn & ? & ?)]];
      [done|]. destruct (Z.eqb_spec n 0); [lia|done].
  - exfalso. unfold ck_handle_get in He. repeat case_hyp He; congruence.
Qed.
Next Obligation.
  intros db h db' p Hi Hg. unfold ck_db_of in Hg.
  destruct (ck_handle_put (Some db) h) as [[d|] n] eqn:He; simpl in Hg.
  - injection Hg as <- <-. by apply ck_handle_put_map.
  - exfalso. unfold ck_handle_put in He. repeat case_hyp He; congruence.
Qed.
Next Obligation. intros. by apply ck_handle_lookup_map. Qed.
Next Obligation. intros db h p. apply array_map_nonnull. Qed.

Lemma find_ptr_spec ptr cells from :
  0 < from ->
  (find_ptr ptr cells from = 0 /\ ptr ∉ cells) \/
  (from <= find_ptr ptr cells from /\ cells !! Z.to_nat (find_ptr ptr cells from - from) = Some ptr).
Proof.
  revert from. induction cells as [|p cells IH]; intros from Hf; simpl.
  - left. split; [done|set_solver].
  - destruct (Z.eqb_spec p ptr) as [->|Hne].
    + right. split; [lia|]. by rewrite Z.sub_diag.
    + destruct (IH (from + 1)) as [[? ?]|[? Hl]]; [lia|left; set_solver|right]. split; [lia|].
      by replace (Z.to_nat (find_ptr ptr cells (from + 1) - from))
        with (S (Z.to_nat (find_ptr ptr cells (from + 1) - (from + 1)))) by lia.
Qed.

(** ** Properties *)

(** The PKCS#11 handle database refines the same finite map, never hands out
    handle 0, and [handle_lookup_handle] inverts it: it returns a handle that
    looks up to the pointer, or 0 when no live handle does. *)
Theorem ck_handle_db_refines_map (H : Heap) cs :
  Forall call_ok cs ->
  let db := fst (ht_trace (DB := ck_handle_db) ck_handle_db_init ∅ cs) in
  let m := snd (ht_trace (DB := ck_handle_db) ck_handle_db_init ∅ cs) in
  (forall h, ck_handle_lookup (Some db) h = default 0 (m !! h)) /\ m !! 0 = None /\
  (forall p, p ≠ 0 ->
     let h := ck_handle_lookup_handle db p in
     if h =? 0 then forall k, m !! k ≠ Some p else m !! h = Some p).
Proof.
  intros Hok. destruct (ht_empty_spec (DB := ck_handle_db)) as [Hi0 Hm0].
  destruct (ht_trace_refines cs (ck_handle_db_init : ck_handle_db) ∅ Hi0 Hok Hm0) as [Hi Hm].
  cbv zeta. set (db := fst _) in *. set (m := snd _) in *.
  change (array_map (ck_ptrs db) = m) in Hm. change (ck_inv db) in Hi. clearbody db m.
  assert (Hl : forall h, ck_handle_lookup (Some db) h = default 0 (m !! h)).
  { intros h. by rewrite ck_handle_lookup_map, Hm. }
  pose proof Hi as (Hlen & _ & _ & H0).
  assert (Hnull : m !! 0 = None).
  { rewrite <- Hm, array_map_lookup, bool_decide_true by lia.
    change (Z.to_nat 0) with 0%nat.
    destruct (ck_ptrs db !! 0%nat) eqn:He; [|done]. simpl. by rewrite (H0 _ eq_refl). }
  split_and!; [done..|]. intros p Hp. unfold ck_handle_lookup_handle.
  destruct (Z.eqb_spec p 0) as [|_]; [done|].
  destruct (find_ptr_spec p (ck_cells db) 1) as [[-> Hnin]|[Hf Hc]]; [lia| |].
  - simpl. intros k Hk. rewrite <- Hm, array_map_lookup in Hk. case_bool_decide; [|done].
    destruct (Z.to_nat k) as [|j] eqn:Hj.
    + destruct (ck_ptrs db !! 0%nat) as [c|] eqn:He; [|done]. simpl in Hk. by rewrite (H0 _ eq_refl) in Hk.
    + rewrite <- ck_cells_lookup in Hk by done. destruct (ck_cells db !! j) as [c|] eqn:He; [|done].
      simpl in Hk. unfold nonnull in Hk. destruct (Z.eqb_spec c 0); [done|]. injection Hk as ->.
      apply Hnin. by eapply list_elem_of_lookup_2.
  - set (h := find_ptr p (ck_cells db) 1) in *. destruct (Z.eqb_spec h 0); [lia|].
    rewrite ck_cells_lookup in Hc by done.
    rewrite <- Hm, array_map_lookup, bool_decide_true by lia.
    replace (S (Z.to_nat (h - 1))) with (Z.to_nat h) in Hc by lia. rewrite Hc. simpl. unfold nonnull.
    by destruct (Z.eqb_spec p 0).
Qed.

(** ** Witness *)

Lemma ck_handle_db_refines_map_witness :
  let db := fst (@ht_trace ck_handle_db _ demo_heap ck_handle_db_init ∅ [CGet 100; CGet 200; CPut 1]) in
  ck_handle_lookup (Some db) 2 = 200 /\ ck_handle_lookup (Some db) 1 = 0.
Proof.
  destruct (ck_handle_db_refines_map demo_heap [CGet 100; CGet 200; CPut 1]) as (Hl & _ & _).
  - repeat constructor; discriminate.
  - split; rewrite Hl; vm_compute; reflexivity.
Defined.
