(* ===== verification/Pobj.v ===== *)
(** * Persistent object registry: [core/tee/tee_pobj.c]

    The registry lists the persistent objects that are open somewhere in the
    TEE, with a reference count and the flags of the first opener, and decides
    which further opens the sharing rules allow. [pobjs_mutex] serialises the
    operations; each one is a transition on the list. *)

From stdpp Require Import base gmap list.
From Stdlib Require Import ZArith Lia.
From S2P Require Import Prelude.

Local Open Scope Z_scope.

(** ** Data *)

Definition TEE_DATA_FLAG_ACCESS_READ : Z := 0x00000001.
Definition TEE_DATA_FLAG_ACCESS_WRITE : Z := 0x00000002.
Definition TEE_DATA_FLAG_ACCESS_WRITE_META : Z := 0x00000004.
Definition TEE_DATA_FLAG_SHARE_READ : Z := 0x00000010.
Definition TEE_DATA_FLAG_SHARE_WRITE : Z := 0x00000020.
Definition TEE_DATA_FLAG_OVERWRITE : Z := 0x00000400.

Inductive tee_pobj_usage :=
| TEE_POBJ_USAGE_OPEN
| TEE_POBJ_USAGE_RENAME
| TEE_POBJ_USAGE_CREATE
| TEE_POBJ_USAGE_ENUM.

#[global] Instance tee_pobj_usage_eq_dec : EqDecision tee_pobj_usage.
Proof. solve_decision. Defined.

(** UUIDs and object identifiers are their bytes (an identifier's length is
    [obj_id_len]); [po_ptr] is the address of the structure and [po_fops] that
    of the file operations. *)
Record tee_pobj := mk_pobj {
  po_ptr : Z;
  po_refcnt : Z;
  po_uuid : list Z;
  po_obj_id : list Z;
  po_flags : Z;
  po_temporary : bool;
  po_creating : bool;
  po_fops : Z
}.

Definition set_refcnt (n : Z) (o : tee_pobj) : tee_pobj :=
  mk_pobj (po_ptr o) n (po_uuid o) (po_obj_id o) (po_flags o) (po_temporary o) (po_creating o) (po_fops o).
Definition set_obj_id (i : list Z) (o : tee_pobj) : tee_pobj :=
  mk_pobj (po_ptr o) (po_refcnt o) (po_uuid o) i (po_flags o) (po_temporary o) (po_creating o) (po_fops o).
Definition set_created (o : tee_pobj) : tee_pobj :=
  mk_pobj (po_ptr o) (po_refcnt o) (po_uuid o) (po_obj_id o) (po_flags o) false false (po_fops o).

(** Writes through a pointer to a structure of the list. *)
Definition update_at (p : Z) (f : tee_pobj -> tee_pobj) (l : list tee_pobj) : list tee_pobj :=
  map (fun o => if po_ptr o =? p then f o else o) l.

Definition lookup_at (p : Z) (l : list tee_pobj) : option tee_pobj :=
  snd <$> list_find (fun o => po_ptr o = p) l.

(** ** Operations *)

Definition tee_pobj_check_access (oflags nflags : Z) : Z :=
  if has_flag oflags TEE_DATA_FLAG_ACCESS_WRITE_META
     || has_flag nflags TEE_DATA_FLAG_ACCESS_WRITE_META
  then TEE_ERROR_ACCESS_CONFLICT
  else if (has_flag oflags TEE_DATA_FLAG_ACCESS_READ || has_flag nflags TEE_DATA_FLAG_ACCESS_READ)
       && negb (has_flag nflags TEE_DATA_FLAG_SHARE_READ && has_flag oflags TEE_DATA_FLAG_SHARE_READ)
  then TEE_ERROR_ACCESS_CONFLICT
  else if negb (Z.land nflags TEE_DATA_FLAG_SHARE_READ =? Z.land oflags TEE_DATA_FLAG_SHARE_READ)
  then TEE_ERROR_ACCESS_CONFLICT
  else if (has_flag oflags TEE_DATA_FLAG_ACCESS_WRITE || has_flag nflags TEE_DATA_FLAG_ACCESS_WRITE)
       && negb (has_flag nflags TEE_DATA_FLAG_SHARE_WRITE && has_flag oflags TEE_DATA_FLAG_SHARE_WRITE)
  then TEE_ERROR_ACCESS_CONFLICT
  else if negb (Z.land nflags TEE_DATA_FLAG_SHARE_WRITE =? Z.land oflags TEE_DATA_FLAG_SHARE_WRITE)
  then TEE_ERROR_ACCESS_CONFLICT
  else TEE_SUCCESS.

Definition same_object (uuid obj_id : list Z) (fops : Z) (o : tee_pobj) : bool :=
  bool_decide (po_obj_id o = obj_id) && bool_decide (po_uuid o = uuid) && (po_fops o =? fops).

(** The scan has no [break]: the last match wins. *)
Definition find_open (uuid obj_id : list Z) (fops : Z) (l : list tee_pobj) : option tee_pobj :=
  foldl (fun acc o => if same_object uuid obj_id fops o then Some o else acc) None l.

(** [mem] is the result of [calloc] for the structure and [mem_id] whether the
    [malloc] of the identifier succeeds. Returns the list, the result and [*obj]. *)
Definition tee_pobj_get (l : list tee_pobj) (uuid obj_id : list Z) (flags : Z)
    (usage : tee_pobj_usage) (fops : Z) (mem : option Z) (mem_id : bool)
    : list tee_pobj * Z * option Z :=
  match find_open uuid obj_id fops l with
  | Some o =>
      if decide (usage = TEE_POBJ_USAGE_ENUM) then
        (update_at (po_ptr o) (fun o => set_refcnt (u32 (po_refcnt o + 1)) o) l, TEE_SUCCESS,
         Some (po_ptr o))
      else if po_creating o
              || (bool_decide (usage = TEE_POBJ_USAGE_CREATE)
                  && negb (has_flag flags TEE_DATA_FLAG_OVERWRITE))
      then (l, TEE_ERROR_ACCESS_CONFLICT, None)
      else
        let res := tee_pobj_check_access (po_flags o) flags in
        if res =? TEE_SUCCESS then
          (update_at (po_ptr o) (fun o => set_refcnt (u32 (po_refcnt o + 1)) o) l, res,
           Some (po_ptr o))
        else (l, res, None)
  | None =>
      match mem with
      | None => (l, TEE_ERROR_OUT_OF_MEMORY, None)
      | Some p =>
          if negb mem_id then (l, TEE_ERROR_OUT_OF_MEMORY, None)
          else
            let creating := bool_decide (usage = TEE_POBJ_USAGE_CREATE) in
            (l ++ [mk_pobj p 1 uuid obj_id flags creating creating fops], TEE_SUCCESS, Some p)
      end
  end.

Definition tee_pobj_create_final (l : list tee_pobj) (po : Z) : list tee_pobj :=
  update_at po set_created l.

(** [TAILQ_REMOVE] of the structure at address [p]. *)
Definition remove_at (p : Z) (l : list tee_pobj) : list tee_pobj :=
  filter (fun o => po_ptr o ≠ p) l.

(** [obj] points to a structure of the list; a dangling pointer has no
    behaviour in C and leaves the list alone here. *)
Definition tee_pobj_release (l : list tee_pobj) (obj : option Z) : list tee_pobj * Z :=
  match obj with
  | None => (l, TEE_ERROR_BAD_PARAMETERS)
  | Some p =>
      match lookup_at p l with
      | None => (l, TEE_SUCCESS)
      | Some o =>
          let n := u32 (po_refcnt o - 1) in
          (if n =? 0 then remove_at p l else update_at p (set_refcnt n) l, TEE_SUCCESS)
      end
  end.

Definition tee_pobj_rename (l : list tee_pobj) (obj : option Z) (obj_id : option (list Z))
    (mem_id : bool) : list tee_pobj * Z :=
  match obj, obj_id with
  | None, _ | _, None => (l, TEE_ERROR_BAD_PARAMETERS)
  | Some p, Some new_id =>
      match lookup_at p l with
      | None => (l, TEE_SUCCESS)
      | Some o =>
          if negb (po_refcnt o =? 1) then (l, TEE_ERROR_BAD_STATE)
          else if negb mem_id then (l, TEE_ERROR_OUT_OF_MEMORY)
          else (update_at p (set_obj_id new_id) l, TEE_SUCCESS)
      end
  end.

(** ** The sharing rule

    What the excerpts of the TEE Internal Core API in the source ask of any two
    handles open on one object. *)

Definition may_share (f g : Z) : Prop :=
  has_flag f TEE_DATA_FLAG_ACCESS_WRITE_META = false /\
  has_flag g TEE_DATA_FLAG_ACCESS_WRITE_META = false /\
  (has_flag f TEE_DATA_FLAG_ACCESS_READ = true \/ has_flag g TEE_DATA_FLAG_ACCESS_READ = true ->
   has_flag f TEE_DATA_FLAG_SHARE_READ = true /\ has_flag g TEE_DATA_FLAG_SHARE_READ = true) /\
  (has_flag f TEE_DATA_FLAG_ACCESS_WRITE = true \/ has_flag g TEE_DATA_FLAG_ACCESS_WRITE = true ->
   has_flag f TEE_DATA_FLAG_SHARE_WRITE = true /\ has_flag g TEE_DATA_FLAG_SHARE_WRITE = true) /\
  has_flag f TEE_DATA_FLAG_SHARE_READ = has_flag g TEE_DATA_FLAG_SHARE_READ /\
  has_flag f TEE_DATA_FLAG_SHARE_WRITE = has_flag g TEE_DATA_FLAG_SHARE_WRITE.

(** ** The registry with its clients' references

    [r_open] records every reference handed out and not yet released: a data handle with the
    flags asked for; an enumeration, which gives no access to the data; or the new name that
    [syscall_storage_obj_rename] reserves with TEE_DATA_FLAG_ACCESS_WRITE_META before it renames an
    object, and whether it has called [tee_pobj_rename] yet. It is not part of the program: it
    is what the invariants speak about. *)

Inductive pobj_ref :=
| RData (flags : Z)
| REnum
| RName (renamed : bool).

Record registry := mk_registry {
  r_objs : list tee_pobj;
  r_open : list (Z * pobj_ref)
}.

Definition new_ref (usage : tee_pobj_usage) (flags : Z) : pobj_ref :=
  match usage with
  | TEE_POBJ_USAGE_ENUM => REnum
  | TEE_POBJ_USAGE_RENAME => RName false
  | _ => RData flags
  end.
Definition ref_flags (h : pobj_ref) : option Z :=
  match h with RData f => Some f | REnum => None | RName _ => Some TEE_DATA_FLAG_ACCESS_WRITE_META end.

(** The calls, as the callers in [tee_svc_storage.c] make them: a rename is of an object that the
    caller has open with TEE_DATA_FLAG_ACCESS_WRITE_META, once for a name it has reserved in the same storage of the same TA. *)
Inductive reg_step : registry -> registry -> Prop :=
| step_get r uuid obj_id flags usage fops mem mem_id l res out :
    (forall p, mem = Some p -> p ∉ map po_ptr (r_objs r)) ->
    (usage = TEE_POBJ_USAGE_RENAME -> flags = TEE_DATA_FLAG_ACCESS_WRITE_META) ->
    tee_pobj_get (r_objs r) uuid obj_id flags usage fops mem mem_id = (l, res, out) ->
    Z.of_nat (length (r_open r)) < 4294967295 ->
    reg_step r (mk_registry l (match out with
                               | Some p => (p, new_ref usage flags) :: r_open r
                               | None => r_open r
                               end))
| step_release r p f l res hs1 hs2 :
    r_open r = hs1 ++ (p, f) :: hs2 ->
    tee_pobj_release (r_objs r) (Some p) = (l, res) ->
    reg_step r (mk_registry l (hs1 ++ hs2))
| step_create_final r p :
    reg_step r (mk_registry (tee_pobj_create_final (r_objs r) p) (r_open r))
| step_rename r p f o q po mem_id l res hs1 hs2 :
    (p, RData f) ∈ r_open r -> has_flag f TEE_DATA_FLAG_ACCESS_WRITE_META = true ->
    r_open r = hs1 ++ (q, RName false) :: hs2 ->
    lookup_at p (r_objs r) = Some o -> lookup_at q (r_objs r) = Some po ->
    po_uuid po = po_uuid o -> po_fops po = po_fops o ->
    tee_pobj_rename (r_objs r) (Some p) (Some (po_obj_id po)) mem_id = (l, res) ->
    reg_step r (mk_registry l (hs1 ++ (q, RName true) :: hs2)).

Definition reg_reachable (r : registry) : Prop := rtc reg_step (mk_registry [] []) r.

Definition refs_to (p : Z) (hs : list (Z * pobj_ref)) : list (option Z) :=
  (fun h => ref_flags h.2) <$> filter (fun h => h.1 = p) hs.

Definition same_key (o o' : tee_pobj) : Prop :=
  po_uuid o = po_uuid o' /\ po_obj_id o = po_obj_id o' /\ po_fops o = po_fops o'.

(** ** Lemmas: access check *)

Lemma check_access_iff o n :
  tee_pobj_check_access o n = TEE_SUCCESS <-> may_share o n.
Proof.
  unfold tee_pobj_check_access, may_share.
  change TEE_DATA_FLAG_SHARE_READ with (2 ^ 4). change TEE_DATA_FLAG_SHARE_WRITE with (2 ^ 5).
  rewrite !land_flag_eqb by lia.
  destruct (has_flag o TEE_DATA_FLAG_ACCESS_WRITE_META), (has_flag n TEE_DATA_FLAG_ACCESS_WRITE_META); simpl; try (split; [done|intros (? & ? & _); done]).
  destruct (has_flag o (2 ^ 4)), (has_flag n (2 ^ 4)), (has_flag o (2 ^ 5)), (has_flag n (2 ^ 5)),
    (has_flag o TEE_DATA_FLAG_ACCESS_READ), (has_flag n TEE_DATA_FLAG_ACCESS_READ); simpl; try (split; [done|intros (_ & _ & ? & _ & ? & ?); tauto || congruence]);
    destruct (has_flag o TEE_DATA_FLAG_ACCESS_WRITE), (has_flag n TEE_DATA_FLAG_ACCESS_WRITE); simpl; split; try done; intuition congruence.
Qed.

Lemma may_share_sym f g : may_share f g -> may_share g f.
Proof. unfold may_share. intros (? & ? & ? & ? & -> & ->). tauto. Qed.

(** Sharing with the first opener's flags is enough for any two later openers. *)
Lemma may_share_join o f g : may_share o f -> may_share o g -> may_share f g.
Proof.
  unfold may_share. intros (H1 & H2 & H3 & H4 & H5 & H6) (G1 & G2 & G3 & G4 & G5 & G6).
  rewrite <- H5, <- H6, <- G5, <- G6 in *. tauto.
Qed.

(** ** Lemmas: the list of objects *)

Lemma update_at_ptrs p f l :
  (forall o, po_ptr (f o) = po_ptr o) -> po_ptr <$> update_at p f l = po_ptr <$> l.
Proof.
  intros Hf. unfold update_at. induction l as [|o l IH]; simpl; [done|].
  f_equal; [|done]. by destruct (po_ptr o =? p).
Qed.

Lemma elem_of_update_at p f l o :
  o ∈ update_at p f l <->
  exists o0, o0 ∈ l /\ o = if po_ptr o0 =? p then f o0 else o0.
Proof. unfold update_at. rewrite list_elem_of_fmap. naive_solver. Qed.

Lemma lookup_at_some p l o : lookup_at p l = Some o -> o ∈ l /\ po_ptr o = p.
Proof.
  unfold lookup_at. rewrite fmap_Some. intros ([i o'] & Hf & ->).
  apply list_find_Some in Hf as (Hl & Hp & _). split; [by eapply list_elem_of_lookup_2|done].
Qed.

Lemma lookup_at_in p l o :
  NoDup (po_ptr <$> l) -> o ∈ l -> po_ptr o = p -> lookup_at p l = Some o.
Proof.
  intros Hnd Hin Hp. induction l as [|o' l IH]; [set_solver|].
  simpl in Hnd. apply NoDup_cons in Hnd as [Hni Hnd]. unfold lookup_at in *. simpl.
  destruct (decide (po_ptr o' = p)) as [Heq|Hne].
  - simpl. apply elem_of_cons in Hin as [->|Hin]; [done|].
    exfalso. apply Hni. rewrite Heq, <- Hp. by apply list_elem_of_fmap_2.
  - apply elem_of_cons in Hin as [->|Hin]; [done|]. rewrite <- (IH Hnd Hin).
    destruct (list_find _ l) as [[i x]|]; done.
Qed.

Lemma same_ptr_same_obj l o o' :
  NoDup (po_ptr <$> l) -> o ∈ l -> o' ∈ l -> po_ptr o = po_ptr o' -> o = o'.
Proof.
  intros Hnd Ho Ho' Hp.
  pose proof (lookup_at_in (po_ptr o) l o Hnd Ho eq_refl).
  pose proof (lookup_at_in (po_ptr o) l o' Hnd Ho' (eq_sym Hp)). congruence.
Qed.

Lemma foldl_last_some {A} (P : A -> bool) (l : list A) acc o :
  foldl (fun acc o => if P o then Some o else acc) acc l = Some o ->
  acc = Some o \/ (o ∈ l /\ P o = true).
Proof.
  revert acc. induction l as [|x l IH]; intros acc; simpl; [auto|].
  intros H. apply IH in H as [H|[? ?]]; [|right; split; [set_solver|done]].
  destruct (P x) eqn:Hx; [|auto]. injection H as ->. right. split; [set_solver|done].
Qed.

Lemma foldl_last_kept {A} (P : A -> bool) (l : list A) a :
  foldl (fun acc o => if P o then Some o else acc) (Some a) l ≠ None.
Proof. revert a. induction l as [|y l IH]; intros a; simpl; [done|]. destruct (P y); apply IH. Qed.

Lemma foldl_last_none {A} (P : A -> bool) (l : list A) acc :
  foldl (fun acc o => if P o then Some o else acc) acc l = None ->
  forall o, o ∈ l -> P o = false.
Proof.
  revert acc. induction l as [|x l IH]; intros acc; simpl; [set_solver|].
  intros H o [->|Hin]%elem_of_cons; [|by eapply IH].
  destruct (P x) eqn:Hx; [|done]. by apply foldl_last_kept in H.
Qed.

Lemma find_open_some uuid obj_id fops l o :
  find_open uuid obj_id fops l = Some o ->
  o ∈ l /\ po_uuid o = uuid /\ po_obj_id o = obj_id /\ po_fops o = fops.
Proof.
  unfold find_open. intros H. apply foldl_last_some in H as [H|[Hin H]]; [done|].
  unfold same_object in H. zbool. repeat match goal with H : bool_decide _ = true |- _ => apply bool_decide_eq_true in H end.
  done.
Qed.

Lemma same_object_iff uuid obj_id fops o :
  same_object uuid obj_id fops o = true <->
  po_uuid o = uuid /\ po_obj_id o = obj_id /\ po_fops o = fops.
Proof.
  unfold same_object. rewrite !andb_true_iff, !bool_decide_eq_true, Z.eqb_eq. tauto.
Qed.

(** ** Lemmas: references *)

Lemma refs_to_cons p q f hs :
  refs_to p ((q, f) :: hs) = if decide (q = p) then ref_flags f :: refs_to p hs else refs_to p hs.
Proof. unfold refs_to. rewrite filter_cons. simpl. by case_decide. Qed.

Lemma refs_to_app p hs1 hs2 : refs_to p (hs1 ++ hs2) = refs_to p hs1 ++ refs_to p hs2.
Proof. unfold refs_to. by rewrite filter_app, fmap_app. Qed.

Lemma refs_to_length p hs : (length (refs_to p hs) <= length hs)%nat.
Proof. unfold refs_to. rewrite length_fmap. apply length_filter. Qed.

Lemma refs_to_nonempty p f hs : (p, f) ∈ hs -> (1 <= length (refs_to p hs))%nat.
Proof.
  intros Hin. assert (ref_flags f ∈ refs_to p hs).
  { unfold refs_to. apply list_elem_of_fmap. exists (p, f). split; [done|].
    by apply list_elem_of_filter. }
  destruct (refs_to p hs); [set_solver|simpl; lia].
Qed.

(** Two references to one object. *)
Lemma refs_to_at p hs i h : hs !! i = Some (p, h) -> refs_to p hs !! length (refs_to p (take i hs)) = Some (ref_flags h).
Proof.
  intros Hi. assert (E : refs_to p hs = refs_to p (take i hs) ++ ref_flags h :: refs_to p (drop (S i) hs)).
  { rewrite <- (take_drop_middle hs i (p, h) Hi) at 1. by rewrite refs_to_app, refs_to_cons, decide_True. }
  rewrite E. by apply list_lookup_middle.
Qed.

Lemma refs_to_before p hs i j h : hs !! i = Some (p, h) -> (i < j)%nat ->
  (length (refs_to p (take i hs)) < length (refs_to p (take j hs)))%nat.
Proof.
  intros Hi Hj. assert (Hi' : take j hs !! i = Some (p, h)) by (by rewrite lookup_take_lt).
  apply refs_to_at, lookup_lt_Some in Hi'. by rewrite take_take, Nat.min_l in Hi' by lia.
Qed.

Lemma refs_to_two p hs i j h k : i ≠ j -> hs !! i = Some (p, h) -> hs !! j = Some (p, k) ->
  exists m n, m ≠ n /\ refs_to p hs !! m = Some (ref_flags h) /\ refs_to p hs !! n = Some (ref_flags k).
Proof.
  intros Hij Hi Hj. eexists _, _. split_and!; [|by eapply refs_to_at|by eapply refs_to_at].
  destruct (decide (i < j)%nat) as [Hlt|Hlt].
  - pose proof (refs_to_before _ _ _ _ _ Hi Hlt). lia.
  - assert (Hgt : (j < i)%nat) by lia. pose proof (refs_to_before _ _ _ _ _ Hj Hgt). lia.
Qed.

Lemma refs_to_nil p hs : (forall h, h ∈ hs -> h.1 ≠ p) -> refs_to p hs = [].
Proof.
  induction hs as [|[q f] hs IH]; intros H; [done|]. rewrite refs_to_cons.
  rewrite decide_False; [apply IH; set_solver|]. apply (H (q, f)). set_solver.
Qed.

(** ** Invariant *)

#[global] Instance same_key_equiv : Equivalence same_key.
Proof. unfold same_key. split; [intros o; done|intros x y; intuition congruence|intros x y z; intuition congruence]. Qed.

Lemma same_key_via x y a b : same_key x a -> same_key y b -> same_key x y -> same_key a b.
Proof. intros Ha Hb Hxy. etransitivity; [symmetry; exact Ha|]. by etransitivity. Qed.

(** No second use of an object but enumeration. *)
Definition exclusive (o : tee_pobj) : Prop := has_flag (po_flags o) TEE_DATA_FLAG_ACCESS_WRITE_META = true.
Definition no_data (hs : list (Z * pobj_ref)) (o : tee_pobj) : Prop := forall f, (po_ptr o, RData f) ∉ hs.

(** While a rename is under way two listed objects have the same name; both are exclusive, and one
    has no data handle. A name that is reserved and not used yet is the reservation's alone. *)
Record keys_ok (l : list tee_pobj) (hs : list (Z * pobj_ref)) : Prop := {
  ko_twice : forall o o', o ∈ l -> o' ∈ l -> same_key o o' ->
    o = o' \/ exclusive o /\ exclusive o' /\ (no_data hs o \/ no_data hs o');
  ko_name : forall o o', o ∈ l -> o' ∈ l -> same_key o o' -> (po_ptr o, RName false) ∈ hs -> o = o';
}.

Record reg_inv (r : registry) : Prop := {
  inv_ptrs : NoDup (po_ptr <$> r_objs r);
  inv_keys : keys_ok (r_objs r) (r_open r);
  inv_count : forall o, o ∈ r_objs r ->
    po_refcnt o = Z.of_nat (length (refs_to (po_ptr o) (r_open r))) /\ 1 <= po_refcnt o;
  inv_live : forall h, h ∈ r_open r -> h.1 ∈ po_ptr <$> r_objs r;
  inv_first : forall o f, o ∈ r_objs r -> Some f ∈ refs_to (po_ptr o) (r_open r) ->
    f = po_flags o \/ may_share (po_flags o) f;
  inv_pairs : forall p i j f g, i ≠ j ->
    refs_to p (r_open r) !! i = Some (Some f) -> refs_to p (r_open r) !! j = Some (Some g) ->
    may_share f g;
  inv_bound : Z.of_nat (length (r_open r)) < 4294967296
}.

(** Fewer objects, and no new references but to objects that are not exclusive. *)
Lemma keys_ok_sub l hs l' hs' :
  keys_ok l hs -> (forall o, o ∈ l' -> o ∈ l) ->
  (forall o f, o ∈ l -> (po_ptr o, RData f) ∈ hs' -> (po_ptr o, RData f) ∈ hs \/ ~ exclusive o) ->
  (forall o, o ∈ l -> (po_ptr o, RName false) ∈ hs' -> (po_ptr o, RName false) ∈ hs) ->
  keys_ok l' hs'.
Proof.
  intros [H1 H2] Hl Hd Hn. split.
  - intros o o' Ho%Hl Ho'%Hl Hk. destruct (H1 o o' Ho Ho' Hk) as [|(E1 & E2 & Hnd)]; [by left|]. right. split_and!; [done..|].
    destruct Hnd as [Hnd|Hnd]; [left|right]; intros f Hin; [destruct (Hd o f Ho Hin)|destruct (Hd o' f Ho' Hin)]; [by eapply Hnd|done|by eapply Hnd|done].
  - intros o o' Ho%Hl Ho'%Hl Hk Hin. apply H2; auto.
Qed.

(** Updates of one object that keep pointer, name and flags. *)
Lemma keys_ok_update l hs p f :
  keys_ok l hs ->
  (forall o, po_ptr (f o) = po_ptr o /\ same_key (f o) o /\ po_flags (f o) = po_flags o) ->
  keys_ok (update_at p f l) hs.
Proof.
  intros [H1 H2] Hf.
  assert (Hu : forall x, x ∈ update_at p f l -> exists a, a ∈ l /\ x = (if po_ptr a =? p then f a else a) /\
    po_ptr x = po_ptr a /\ same_key x a /\ po_flags x = po_flags a).
  { intros x (a & Ha & ->)%elem_of_update_at. exists a. split_and!; [done|done|..]; destruct (po_ptr a =? p); try apply Hf; done. }
  split.
  - intros x y (a & Ha & -> & Pa & Ka & Fa)%Hu (b & Hb & -> & Pb & Kb & Fb)%Hu Hk.
    destruct (H1 a b Ha Hb (same_key_via _ _ _ _ Ka Kb Hk)) as [->|(E1 & E2 & Hnd)]; [by left|]. right. unfold exclusive, no_data in *.
    by rewrite Fa, Fb, Pa, Pb.
  - intros x y (a & Ha & -> & Pa & Ka & Fa)%Hu (b & Hb & -> & Pb & Kb & Fb)%Hu Hk Hin. rewrite Pa in Hin.
    assert (a = b) as ->; [|done]. apply H2; [done|done|by eapply same_key_via|done].
Qed.

(** A list entered in front: pairs of positions of [x :: l]. *)
Lemma pairs_cons {A} (R : A -> A -> Prop) (x : option A) (l : list (option A)) :
  (forall f g, R f g -> R g f) ->
  (forall f g, x = Some f -> Some g ∈ l -> R f g) ->
  (forall i j f g, i ≠ j -> l !! i = Some (Some f) -> l !! j = Some (Some g) -> R f g) ->
  forall i j f g, i ≠ j -> (x :: l) !! i = Some (Some f) -> (x :: l) !! j = Some (Some g) -> R f g.
Proof.
  intros Hsym Hx Hl [|i] [|j] f g Hij Hi Hj; simpl in *; [done| | |eauto].
  - injection Hi as ->. eapply Hx; [done|by eapply list_elem_of_lookup_2].
  - injection Hj as ->. apply Hsym. eapply Hx; [done|by eapply list_elem_of_lookup_2].
Qed.

(** Removing an element of a list keeps pairwise properties. *)
Lemma pairs_remove {A} (R : A -> A -> Prop) (l1 l2 : list (option A)) x :
  (forall i j f g, i ≠ j -> (l1 ++ x :: l2) !! i = Some (Some f) ->
     (l1 ++ x :: l2) !! j = Some (Some g) -> R f g) ->
  forall i j f g, i ≠ j -> (l1 ++ l2) !! i = Some (Some f) -> (l1 ++ l2) !! j = Some (Some g) -> R f g.
Proof.
  intros H i j f g Hij Hi Hj.
  assert (Hs : forall k v, (l1 ++ l2) !! k = Some v ->
    (l1 ++ x :: l2) !! (if decide (k < length l1)%nat then k else S k) = Some v).
  { intros k v Hk. case_decide.
    - rewrite lookup_app_l in * by done. done.
    - rewrite lookup_app_r in * by lia.
      replace (S k - length l1)%nat with (S (k - length l1)) by lia. done. }
  eapply H; [|by apply Hs|by apply Hs]. repeat case_decide; lia.
Qed.

Lemma refcnt_bound r o : reg_inv r -> o ∈ r_objs r -> po_refcnt o <= Z.of_nat (length (r_open r)).
Proof.
  intros Hi Ho. destruct (inv_count r Hi o Ho) as [-> _].
  pose proof (refs_to_length (po_ptr o) (r_open r)). lia.
Qed.

(** A further reference to a listed object. *)
Lemma inv_add_ref r o hf :
  reg_inv r -> o ∈ r_objs r -> Z.of_nat (length (r_open r)) < 4294967295 ->
  (forall f, ref_flags hf = Some f -> may_share (po_flags o) f) ->
  reg_inv (mk_registry (update_at (po_ptr o) (fun o => set_refcnt (u32 (po_refcnt o + 1)) o) (r_objs r))
             ((po_ptr o, hf) :: r_open r)).
Proof.
  intros Hi Ho Hb Hf. constructor; simpl.
  - rewrite update_at_ptrs by done. apply Hi.
  - apply keys_ok_update; [|done]. eapply keys_ok_sub; [apply (inv_keys r Hi)|done| |].
    + intros x f Hx [Heq|?]%elem_of_cons; [|by left]. right. injection Heq as Hp <-.
      assert (x = o) as -> by (eapply same_ptr_same_obj; [apply Hi|..]; done).
      destruct (Hf f eq_refl) as [Hm _]. unfold exclusive. congruence.
    + intros x Hx [Heq|?]%elem_of_cons; [|done]. exfalso. injection Heq as _ <-.
      destruct (Hf _ eq_refl) as (_ & Hm & _). done.
  - intros x (y & Hy & ->)%elem_of_update_at. destruct (inv_count r Hi y Hy) as [Hc H1].
    pose proof (refcnt_bound r y Hi Hy). rewrite refs_to_cons.
    destruct (Z.eqb_spec (po_ptr y) (po_ptr o)) as [Heq|Hne].
    + simpl. rewrite decide_True by done. simpl. rewrite u32_small by (unfold is_u32; lia). lia.
    + rewrite decide_False by done. done.
  - rewrite update_at_ptrs by done. intros h [->|Hh]%elem_of_cons.
    + simpl. by apply list_elem_of_fmap_2.
    + by apply (inv_live r Hi).
  - intros x f (y & Hy & ->)%elem_of_update_at Hin.
    assert (po_ptr (if po_ptr y =? po_ptr o then set_refcnt (u32 (po_refcnt y + 1)) y else y) = po_ptr y) as Hp
      by (by destruct (po_ptr y =? po_ptr o)).
    assert (po_flags (if po_ptr y =? po_ptr o then set_refcnt (u32 (po_refcnt y + 1)) y else y) = po_flags y) as Hfl
      by (by destruct (po_ptr y =? po_ptr o)).
    rewrite Hp in Hin. rewrite Hfl. rewrite refs_to_cons in Hin. case_decide as Hd.
    + assert (y = o) as -> by (eapply same_ptr_same_obj; [apply Hi|..]; done).
      apply elem_of_cons in Hin as [Ef|Hin]; [right; by apply Hf|]. by apply (inv_first r Hi).
    + by apply (inv_first r Hi).
  - intros p. rewrite refs_to_cons. case_decide as Hd; [|apply (inv_pairs r Hi)]. subst p.
    apply pairs_cons; [apply may_share_sym| |apply (inv_pairs r Hi)].
    intros f g Ef Hg. specialize (Hf f Ef).
    destruct (inv_first r Hi o g Ho Hg) as [->|Hg']; [by apply may_share_sym|].
    by eapply may_share_join.
  - lia.
Qed.

(** A first reference to a new object. *)
Lemma inv_add_obj r o hf :
  reg_inv r -> po_ptr o ∉ po_ptr <$> r_objs r -> Z.of_nat (length (r_open r)) < 4294967295 ->
  (forall o', o' ∈ r_objs r -> same_object (po_uuid o) (po_obj_id o) (po_fops o) o' = false) ->
  po_refcnt o = 1 -> (forall f, ref_flags hf = Some f -> f = po_flags o) ->
  reg_inv (mk_registry (r_objs r ++ [o]) ((po_ptr o, hf) :: r_open r)).
Proof.
  intros Hi Hp Hb Hk Hr Hf.
  assert (Hno : refs_to (po_ptr o) (r_open r) = []).
  { apply refs_to_nil. intros h Hh Heq. apply Hp. rewrite <- Heq. by apply (inv_live r Hi). }
  assert (Hne : forall x, x ∈ r_objs r -> po_ptr o ≠ po_ptr x).
  { intros x Hx Heq. apply Hp. rewrite Heq. by apply list_elem_of_fmap_2. }
  assert (Hkey : forall x, x ∈ r_objs r -> same_key x o -> False).
  { intros x Hx (H1 & H2 & H3). specialize (Hk x Hx). apply not_true_iff_false in Hk. apply Hk.
    by apply same_object_iff. }
  constructor; simpl.
  - rewrite fmap_app. apply NoDup_app. split_and!; [apply Hi| |by apply NoDup_singleton].
    intros x Hx Hs. apply list_elem_of_singleton in Hs. subst. done.
  - assert (Hold : keys_ok (r_objs r) ((po_ptr o, hf) :: r_open r)).
    { eapply keys_ok_sub; [apply (inv_keys r Hi)|done|..]; intros x; [intros f|]; intros Hx Hin.
      all: apply elem_of_cons in Hin as [Heq|?]; [|by try left]; injection Heq as Heq _; by destruct (Hne x Hx). }
    split; intros x y Hx Hy Hs; rewrite elem_of_app, list_elem_of_singleton in Hx, Hy;
      (destruct Hx as [Hx| ->], Hy as [Hy| ->]; [by apply Hold| | |by auto]); exfalso; eapply Hkey; try done.
    all: by symmetry.
  - intros x [Hx| ->%list_elem_of_singleton]%elem_of_app; rewrite refs_to_cons.
    + rewrite decide_False by auto. by apply (inv_count r Hi).
    + rewrite decide_True, Hno by done. simpl. lia.
  - intros h [->|Hh]%elem_of_cons; rewrite fmap_app; apply elem_of_app.
    + right. simpl. set_solver.
    + left. by apply (inv_live r Hi).
  - intros x f [Hx| ->%list_elem_of_singleton]%elem_of_app; rewrite refs_to_cons.
    + rewrite decide_False by auto. by apply (inv_first r Hi).
    + rewrite decide_True, Hno by done. intros Hin%list_elem_of_singleton. left. by apply Hf.
  - intros p. rewrite refs_to_cons. case_decide as Hd; [|apply (inv_pairs r Hi)]. subst p. rewrite Hno.
    intros [|i] [|j] f g; simpl; try done.
  - lia.
Qed.

Lemma inv_get r uuid obj_id flags usage fops mem mem_id l res out :
  reg_inv r -> (forall p, mem = Some p -> p ∉ map po_ptr (r_objs r)) ->
  (usage = TEE_POBJ_USAGE_RENAME -> flags = TEE_DATA_FLAG_ACCESS_WRITE_META) ->
  Z.of_nat (length (r_open r)) < 4294967295 ->
  tee_pobj_get (r_objs r) uuid obj_id flags usage fops mem mem_id = (l, res, out) ->
  reg_inv (mk_registry l (match out with
                          | Some p => (p, new_ref usage flags) :: r_open r
                          | None => r_open r
                          end)).
Proof.
  intros Hi Hm Hu0 Hb. unfold tee_pobj_get.
  assert (Hfl : forall f, ref_flags (new_ref usage flags) = Some f -> f = flags).
  { intros f. destruct usage; cbn; intros [= <-]; try done. by rewrite Hu0. }
  assert (Hsame : reg_inv (mk_registry (r_objs r) (r_open r))) by (by destruct r).
  destruct (find_open uuid obj_id fops (r_objs r)) as [o|] eqn:Hf.
  - apply find_open_some in Hf as (Ho & _). case_decide as Hu.
    + subst usage. intros [= <- <- <-]. by apply inv_add_ref.
    + destruct (_ || _); [by intros [= <- <- <-]|].
      destruct (Z.eqb_spec (tee_pobj_check_access (po_flags o) flags) TEE_SUCCESS) as [Hc|];
        intros [= <- <- <-]; [|done].
      apply inv_add_ref; [done..|]. intros f ->%Hfl. by apply check_access_iff.
  - destruct mem as [p|]; [|by intros [= <- <- <-]].
    destruct mem_id; simpl; intros [= <- <- <-]; [|done].
    apply (inv_add_obj r (mk_pobj p 1 uuid obj_id flags _ _ fops)); simpl; try done; [by apply Hm|].
    intros o' Ho'. unfold find_open in Hf. by eapply (foldl_last_none _ _ _ Hf).
Qed.

Lemma lookup_live r p f :
  reg_inv r -> (p, f) ∈ r_open r -> exists o, lookup_at p (r_objs r) = Some o.
Proof.
  intros Hi Hin. apply (inv_live r Hi) in Hin. simpl in Hin.
  apply list_elem_of_fmap in Hin as (o & -> & Ho). exists o.
  apply lookup_at_in; [apply Hi|done..].
Qed.

(** Giving a reference back. *)
Lemma inv_release r p f l res hs1 hs2 :
  reg_inv r -> r_open r = hs1 ++ (p, f) :: hs2 ->
  tee_pobj_release (r_objs r) (Some p) = (l, res) -> reg_inv (mk_registry l (hs1 ++ hs2)).
Proof.
  intros Hi Hopen Hrel.
  destruct (lookup_live r p f Hi) as [o Hl]; [rewrite Hopen; set_solver|].
  unfold tee_pobj_release in Hrel. rewrite Hl in Hrel. injection Hrel as <- <-.
  apply lookup_at_some in Hl as [Ho Hp].
  destruct (inv_count r Hi o Ho) as [Hc H1]. pose proof (refcnt_bound r o Hi Ho).
  pose proof (inv_bound r Hi). rewrite u32_small by (unfold is_u32; lia).
  assert (Hrefs : forall q, length (refs_to q (r_open r)) =
    ((if decide (p = q) then 1 else 0) + length (refs_to q (hs1 ++ hs2)))%nat).
  { intros q. rewrite Hopen, !refs_to_app, refs_to_cons, !length_app. case_decide; simpl; lia. }
  assert (Hkeys : forall l', (forall x, x ∈ l' -> x ∈ r_objs r) -> keys_ok l' (hs1 ++ hs2)).
  { intros l' Hl'. eapply keys_ok_sub; [apply (inv_keys r Hi)|done| |]; rewrite Hopen; intros; [left|]; set_solver. }
  assert (Hsub : forall q x, x ∈ refs_to q (hs1 ++ hs2) -> x ∈ refs_to q (r_open r)).
  { intros q x. rewrite Hopen, !refs_to_app, refs_to_cons. case_decide; set_solver. }
  assert (Hpairs : forall q i j f g, i ≠ j -> refs_to q (hs1 ++ hs2) !! i = Some (Some f) ->
     refs_to q (hs1 ++ hs2) !! j = Some (Some g) -> may_share f g).
  { intros q. pose proof (inv_pairs r Hi q) as Hq. rewrite Hopen, refs_to_app, refs_to_cons in Hq.
    rewrite refs_to_app. case_decide; [by eapply pairs_remove|done]. }
  assert (Hlen : Z.of_nat (length (hs1 ++ hs2)) < 4294967296).
  { rewrite Hopen in *. rewrite !length_app in *. simpl in *. lia. }
  assert (Hlive : forall h, h ∈ hs1 ++ hs2 -> h.1 ∈ po_ptr <$> r_objs r).
  { intros h Hh. apply (inv_live r Hi). rewrite Hopen. set_solver. }
  rewrite <- Hp in Hrefs. pose proof (Hrefs (po_ptr o)) as Hro. rewrite decide_True in Hro by done.
  destruct (Z.eqb_spec (po_refcnt o - 1) 0) as [Hz|Hnz]; constructor; simpl; try done.
  - unfold remove_at. eapply sublist_NoDup; [apply (inv_ptrs r Hi)|].
    apply fmap_sublist, sublist_filter.
  - apply Hkeys. by intros x [_ ?]%list_elem_of_filter.
  - intros x [Hx Hin]%list_elem_of_filter. destruct (inv_count r Hi x Hin) as [-> ?].
    rewrite Hrefs, decide_False by congruence. destruct (inv_count r Hi x Hin). split; [lia|].
    rewrite Hrefs, decide_False in * by congruence. lia.
  - intros h Hh. specialize (Hlive h Hh). apply list_elem_of_fmap in Hlive as (x & Hx & Hin).
    apply list_elem_of_fmap. exists x. split; [done|]. apply list_elem_of_filter. split; [|done].
    intros Heq. destruct h as [q g]. simpl in Hx. subst q.
    pose proof (refs_to_nonempty _ _ _ Hh) as Hne. rewrite Heq, <- Hp in Hne. lia.
  - intros x g [_ Hin]%list_elem_of_filter Hg. apply (inv_first r Hi); auto.
  - rewrite update_at_ptrs by done. apply Hi.
  - apply keys_ok_update; [by apply Hkeys|done].
  - intros x (y & Hy & ->)%elem_of_update_at. destruct (inv_count r Hi y Hy) as [Hcy Hy1].
    destruct (Z.eqb_spec (po_ptr y) p) as [Heq|Hne].
    + assert (y = o) as -> by (eapply same_ptr_same_obj; [apply Hi|..]; congruence). simpl. lia.
    + rewrite Hrefs, decide_False in Hcy by congruence. lia.
  - rewrite update_at_ptrs by done. done.
  - intros x g (y & Hy & ->)%elem_of_update_at Hg.
    destruct (po_ptr y =? p); simpl in *; apply (inv_first r Hi); auto.
Qed.

(** Updates that keep pointer, count and flags, and references that change between forms with the same flags. *)
Lemma inv_update r p g hs :
  reg_inv r ->
  (forall o, po_ptr (g o) = po_ptr o /\ po_refcnt (g o) = po_refcnt o /\ po_flags (g o) = po_flags o) ->
  (forall q, refs_to q hs = refs_to q (r_open r)) -> (forall h, h ∈ hs -> exists h', h' ∈ r_open r /\ h'.1 = h.1) ->
  length hs = length (r_open r) ->
  keys_ok (update_at p g (r_objs r)) hs ->
  reg_inv (mk_registry (update_at p g (r_objs r)) hs).
Proof.
  intros Hi Hg Hr Hl Hn Hk. constructor; simpl; try done.
  - rewrite update_at_ptrs by (intros; apply Hg). apply Hi.
  - intros x (y & Hy & ->)%elem_of_update_at. rewrite Hr. destruct (Hg y) as (H1 & H2 & _).
    destruct (po_ptr y =? p); rewrite ?H1, ?H2; by apply (inv_count r Hi).
  - rewrite update_at_ptrs by (intros; apply Hg). intros h (h' & Hh & <-)%Hl. by apply Hi.
  - intros x f (y & Hy & ->)%elem_of_update_at. rewrite Hr. destruct (Hg y) as (H1 & _ & H3).
    destruct (po_ptr y =? p); rewrite ?H1, ?H3; by apply (inv_first r Hi).
  - intros q. rewrite Hr. apply Hi.
  - rewrite Hn. apply Hi.
Qed.

Lemma inv_create_final r p : reg_inv r -> reg_inv (mk_registry (tee_pobj_create_final (r_objs r) p) (r_open r)).
Proof. intros Hi. apply inv_update; [done..|by eauto|done|]. apply keys_ok_update; [apply Hi|done]. Qed.

(** An object that is open with TEE_DATA_FLAG_ACCESS_WRITE_META: nothing else than enumerations holds it. *)
Lemma meta_alone r o h f hs1 hs2 :
  reg_inv r -> o ∈ r_objs r -> r_open r = hs1 ++ (po_ptr o, h) :: hs2 -> ref_flags h = Some f ->
  has_flag f TEE_DATA_FLAG_ACCESS_WRITE_META = true ->
  exclusive o /\ forall h', (po_ptr o, h') ∈ hs1 ++ hs2 -> h' = REnum.
Proof.
  intros Hi Ho Hopen Hf Hm.
  assert (Hr : refs_to (po_ptr o) (r_open r) = refs_to (po_ptr o) hs1 ++ Some f :: refs_to (po_ptr o) hs2).
  { by rewrite Hopen, refs_to_app, refs_to_cons, decide_True, Hf. }
  split.
  - unfold exclusive. destruct (inv_first r Hi o f Ho) as [<-|(_ & ? & _)]; [rewrite Hr; set_solver|done|congruence].
  - intros h' Hin. destruct (ref_flags h') as [g|] eqn:Hg; [|by destruct h']. exfalso.
    assert (Hin' : Some g ∈ refs_to (po_ptr o) hs1 ++ refs_to (po_ptr o) hs2).
    { rewrite <- refs_to_app, <- Hg. apply list_elem_of_fmap. exists (po_ptr o, h'). split; [done|]. by apply list_elem_of_filter. }
    assert (Hsh : may_share f g); [|destruct Hsh; congruence].
    apply elem_of_app in Hin' as [Hin'|Hin']; apply list_elem_of_lookup in Hin' as [j Hj]; pose proof (lookup_lt_Some _ _ _ Hj);
      set (n := length (refs_to (po_ptr o) hs1)) in *.
    + apply (inv_pairs r Hi (po_ptr o) n j); [lia|by rewrite Hr, list_lookup_middle|by rewrite Hr, lookup_app_l].
    + apply (inv_pairs r Hi (po_ptr o) n (S (n + j))); [lia|by rewrite Hr, list_lookup_middle|].
      rewrite Hr, lookup_app_r by lia. fold n. by replace (S (n + j) - n)%nat with (S j) by lia.
Qed.

(** The object takes the name that only the reservation had. *)
Lemma keys_ok_rename l hs0 hs o po :
  NoDup (po_ptr <$> l) -> keys_ok l hs0 -> keys_ok l hs -> o ∈ l -> po ∈ l -> po_uuid po = po_uuid o -> po_fops po = po_fops o ->
  exclusive o -> exclusive po -> (po_ptr po, RName false) ∈ hs0 -> no_data hs po ->
  (po_ptr o, RName false) ∉ hs -> (po_ptr po, RName false) ∉ hs ->
  keys_ok (update_at (po_ptr o) (set_obj_id (po_obj_id po)) l) hs.
Proof.
  intros Hnd H0 [H1 H2] Ho Hpo Hu Hops Eo Epo Hname Hdata Hno Hnpo.
  assert (Hat : forall a, a ∈ l -> po_ptr a = po_ptr o -> a = o) by (intros; by eapply same_ptr_same_obj).
  assert (Hpq : forall b, b ∈ l -> same_key (set_obj_id (po_obj_id po) o) b -> po = b).
  { intros b Hb Hk. apply (ko_name _ _ H0); [done|done| |done]. unfold same_key in *. cbn in Hk. intuition congruence. }
  split; intros x y (a & Ha & ->)%elem_of_update_at (b & Hb & ->)%elem_of_update_at Hk;
    (destruct (Z.eqb_spec (po_ptr a) (po_ptr o)) as [Hap|Hap]; [rewrite (Hat a Ha Hap) in *|]);
    (destruct (Z.eqb_spec (po_ptr b) (po_ptr o)) as [Hbp|Hbp]; [rewrite (Hat b Hb Hbp) in *|]); try by auto.
  - right. rewrite <- (Hpq b Hb Hk). split_and!; [done|done|by right].
  - right. assert (po = a) as <- by (apply Hpq; [done|by symmetry]). split_and!; [done|done|by left].
  - intros Hin. assert (po = a) as <- by (apply Hpq; [done|by symmetry]). done.
Qed.

Lemma inv_rename r p f o q po mem_id l res hs1 hs2 :
  reg_inv r -> (p, RData f) ∈ r_open r -> has_flag f TEE_DATA_FLAG_ACCESS_WRITE_META = true ->
  r_open r = hs1 ++ (q, RName false) :: hs2 -> lookup_at p (r_objs r) = Some o -> lookup_at q (r_objs r) = Some po ->
  po_uuid po = po_uuid o -> po_fops po = po_fops o ->
  tee_pobj_rename (r_objs r) (Some p) (Some (po_obj_id po)) mem_id = (l, res) ->
  reg_inv (mk_registry l (hs1 ++ (q, RName true) :: hs2)).
Proof.
  intros Hi Hp Hf Hopen Hlo Hlq Hu Hops. apply lookup_at_some in Hlo as Ho. apply lookup_at_some in Hlq as Hq.
  destruct Ho as [Ho <-]. destruct Hq as [Hq <-].
  destruct (meta_alone r po (RName false) _ hs1 hs2 Hi Hq Hopen eq_refl eq_refl) as [Eq Aq].
  apply list_elem_of_split in Hp as (k1 & k2 & Hp). destruct (meta_alone r o (RData f) f k1 k2 Hi Ho Hp eq_refl Hf) as [Eo Ao].
  assert (Hne : po_ptr o ≠ po_ptr po).
  { intros Heq. assert (Hin : (po_ptr po, RData f) ∈ r_open r) by (rewrite Hp, Heq; set_solver). rewrite Hopen in Hin.
    apply elem_of_app in Hin as [Hin|[Hin|Hin]%elem_of_cons]; [|by injection Hin|]; by discriminate (Aq (RData f) ltac:(set_solver)). }
  set (hs := hs1 ++ (po_ptr po, RName true) :: hs2).
  assert (Hkeys : keys_ok (r_objs r) hs).
  { eapply keys_ok_sub; [apply (inv_keys r Hi)|done|..]; intros x; [intros y|]; subst hs; rewrite Hopen; [left|]; set_solver. }
  assert (Hupd : forall g, (forall o, po_ptr (g o) = po_ptr o /\ po_refcnt (g o) = po_refcnt o /\ po_flags (g o) = po_flags o) ->
    keys_ok (update_at (po_ptr o) g (r_objs r)) hs -> reg_inv (mk_registry (update_at (po_ptr o) g (r_objs r)) hs)).
  { intros g Hg Hk. apply inv_update; [done|done| | |by subst hs; rewrite Hopen, !length_app|done].
    - intros x. subst hs. rewrite Hopen, !refs_to_app, !refs_to_cons. done.
    - subst hs. rewrite Hopen. intros h [Hh|[->|Hh]%elem_of_cons]%elem_of_app; [exists h|exists (po_ptr po, RName false)|exists h]; set_solver. }
  unfold tee_pobj_rename. rewrite Hlo.
  assert (Hid : update_at (po_ptr o) id (r_objs r) = r_objs r).
  { unfold update_at. rewrite <- (map_id (r_objs r)) at 2. apply map_ext. intros x. by destruct (_ =? _). }
  destruct (negb _); [|destruct (negb _)]; intros [= <- <-]; [rewrite <- Hid; by apply Hupd; rewrite ?Hid..|].
  assert (Hin : forall x h, (x, h) ∈ hs -> h = RName true \/ (x, h) ∈ hs1 ++ hs2).
  { subst hs. intros x h [?|[[= -> ->]|?]%elem_of_cons]%elem_of_app; [right|by left|right]; set_solver. }
  apply Hupd; [done|]. apply (keys_ok_rename _ (r_open r)); try done; [apply Hi|apply Hi|rewrite Hopen; set_solver|..].
  - intros g [?|Hg]%Hin; [done|]. by discriminate (Aq _ Hg).
  - intros [?|Hg]%Hin; [done|]. assert (Hk : (po_ptr o, RName false) ∈ k1 ++ k2); [|by discriminate (Ao _ Hk)].
    assert (Hg' : (po_ptr o, RName false) ∈ r_open r) by (rewrite Hopen; set_solver). rewrite Hp in Hg'. set_solver.
  - intros [?|Hg]%Hin; [done|]. by discriminate (Aq _ Hg).
Qed.

Lemma reg_step_inv r r' : reg_step r r' -> reg_inv r -> reg_inv r'.
Proof.
  intros Hs Hi. destruct Hs.
  - by eapply inv_get.
  - by eapply inv_release.
  - by apply inv_create_final.
  - by eapply inv_rename.
Qed.

Lemma reg_inv_init : reg_inv (mk_registry [] []).
Proof. constructor; simpl; try (intros; set_solver); try lia; [constructor|]. split; intros; set_solver. Qed.

Lemma reg_reachable_inv r : reg_reachable r -> reg_inv r.
Proof.
  intros Hr. pose proof reg_inv_init as Hi. unfold reg_reachable in Hr.
  remember (mk_registry [] []) as r0. clear Heqr0.
  induction Hr as [|x y z Hs Hr IH]; [done|]. apply IH. by eapply reg_step_inv.
Qed.

Lemma check_access_codes o n :
  tee_pobj_check_access o n = TEE_SUCCESS \/ tee_pobj_check_access o n = TEE_ERROR_ACCESS_CONFLICT.
Proof. unfold tee_pobj_check_access. repeat case_match; auto. Qed.

(** ** Properties *)

(** C26. Sharing rule: in every state of the registry reachable by opens, creations, enumerations,
    releases and renames, made as [tee_svc_storage.c] makes them, any two data handles on one stored object (the
    same UUID, identifier and storage, which two structures of the list have while a rename is under way) agree
    with the sharing rule of the TEE Internal Core API; in particular a handle with ACCESS_WRITE_META is
    alone, and a reader or writer coexists only with handles that all carry the matching share flag. *)
Theorem pobj_open_handles_may_share r i j p q f g o o' :
  reg_reachable r -> i ≠ j ->
  r_open r !! i = Some (p, RData f) -> r_open r !! j = Some (q, RData g) ->
  lookup_at p (r_objs r) = Some o -> lookup_at q (r_objs r) = Some o' -> same_key o o' ->
  may_share f g.
Proof.
  intros Hi%reg_reachable_inv Hij Hf Hg [Ho <-]%lookup_at_some [Ho' <-]%lookup_at_some Hk.
  destruct (ko_twice _ _ (inv_keys r Hi) o o' Ho Ho' Hk) as [->|(_ & _ & [Hn|Hn])].
  - destruct (refs_to_two _ _ _ _ _ _ Hij Hf Hg) as (m & n & Hmn & Hm & Hn). exact (inv_pairs r Hi _ m n f g Hmn Hm Hn).
  - exfalso. apply (Hn f). by eapply list_elem_of_lookup_2.
  - exfalso. apply (Hn g). by eapply list_elem_of_lookup_2.
Qed.

(** Reference counts: in every reachable state the counter of a listed object is the number of references
    handed out and not yet released (so it never wraps), and an object is listed exactly while it is
    referenced. Two listed objects with one UUID, identifier and file system, as there are while a rename is under way,
    are both closed to every use but enumeration. *)
Theorem pobj_refcount_exact r :
  reg_reachable r ->
  (forall o, o ∈ r_objs r -> po_refcnt o = Z.of_nat (length (refs_to (po_ptr o) (r_open r)))) /\
  (forall p, p ∈ po_ptr <$> r_objs r <-> refs_to p (r_open r) ≠ []) /\
  (forall o o', o ∈ r_objs r -> o' ∈ r_objs r -> same_key o o' -> o = o' \/
     forall n, ~ may_share (po_flags o) n /\ ~ may_share (po_flags o') n).
Proof.
  intros Hi%reg_reachable_inv. split; [|split].
  - intros o Ho. by apply (inv_count r Hi).
  - intros p. split.
    + intros (o & -> & Ho)%list_elem_of_fmap Hn. destruct (inv_count r Hi o Ho) as [Hc Hp].
      rewrite Hn in Hc. simpl in Hc. lia.
    + destruct (refs_to p (r_open r)) as [|x l] eqn:Hx; [done|]. intros _.
      assert (Hin : x ∈ refs_to p (r_open r)) by (rewrite Hx; set_solver).
      unfold refs_to in Hin. apply list_elem_of_fmap in Hin as ([q y] & -> & Hin).
      apply list_elem_of_filter in Hin as [<- Hin]. apply (inv_live r Hi _ Hin).
  - intros o o' Ho Ho' Hk. destruct (ko_twice _ _ (inv_keys r Hi) o o' Ho Ho' Hk) as [|(E & E' & _)]; [by left|].
    right. intros n. unfold exclusive in *. split; intros [? _]; congruence.
Qed.

(** Opening a listed object, on every branch: an enumeration always gets
    a reference; while the object is being created every other use is refused
    with ACCESS_CONFLICT, and so is a creation without OVERWRITE; otherwise the
    use is granted exactly when the flags may share with those of the first
    opener, and a refusal is ACCESS_CONFLICT and changes nothing. *)
Theorem tee_pobj_get_listed r o flags usage mem mem_id :
  reg_reachable r -> find_open (po_uuid o) (po_obj_id o) (po_fops o) (r_objs r) = Some o ->
  let granted := (update_at (po_ptr o) (fun o => set_refcnt (u32 (po_refcnt o + 1)) o) (r_objs r),
                  TEE_SUCCESS, Some (po_ptr o)) in
  let refused := (r_objs r, TEE_ERROR_ACCESS_CONFLICT, None) in
  let got := tee_pobj_get (r_objs r) (po_uuid o) (po_obj_id o) flags usage (po_fops o) mem mem_id in
  (usage = TEE_POBJ_USAGE_ENUM -> got = granted) /\
  (usage ≠ TEE_POBJ_USAGE_ENUM -> po_creating o = true -> got = refused) /\
  (usage = TEE_POBJ_USAGE_CREATE -> has_flag flags TEE_DATA_FLAG_OVERWRITE = false -> got = refused) /\
  (usage ≠ TEE_POBJ_USAGE_ENUM -> po_creating o = false ->
   (usage = TEE_POBJ_USAGE_CREATE -> has_flag flags TEE_DATA_FLAG_OVERWRITE = true) ->
   (may_share (po_flags o) flags /\ got = granted) \/ (~ may_share (po_flags o) flags /\ got = refused)).
Proof.
  intros Hr Ho. cbv zeta. unfold tee_pobj_get. rewrite Ho.
  split; [intros ->; done|]. split; [|split].
  - intros Hu Hc. rewrite decide_False, Hc by done. done.
  - intros -> Hf. rewrite Hf. simpl. by rewrite orb_true_r.
  - intros Hu Hc Hov. rewrite decide_False, Hc by done. simpl.
    replace (bool_decide (usage = TEE_POBJ_USAGE_CREATE) && negb (has_flag flags TEE_DATA_FLAG_OVERWRITE))
      with false by (case_bool_decide; [rewrite Hov|]; done).
    destruct (check_access_codes (po_flags o) flags) as [Hs|Hs]; rewrite Hs.
    + left. split; [by apply check_access_iff|done].
    + right. split; [|done]. intros Hm%check_access_iff. rewrite Hs in Hm. done.
Qed.

(** A registry after one open for shared reading, twice. *)
Definition demo_registry : registry :=
  mk_registry
    [mk_pobj 4096 2 [1] [7; 7] (0x11) false false 64]
    [(4096, RData 0x11); (4096, RData 0x11)].

Lemma demo_registry_reachable : reg_reachable demo_registry.
Proof.
  eapply rtc_l; [apply (step_get _ [1] [7; 7] 0x11 TEE_POBJ_USAGE_OPEN 64 (Some 4096) true
    [mk_pobj 4096 1 [1] [7; 7] 0x11 false false 64] TEE_SUCCESS (Some 4096))|].
  1: intros p; simpl; set_solver. 1: done. 1: reflexivity. 1: simpl; lia.
  eapply rtc_l; [apply (step_get _ [1] [7; 7] 0x11 TEE_POBJ_USAGE_OPEN 64 None true
    [mk_pobj 4096 2 [1] [7; 7] 0x11 false false 64] TEE_SUCCESS (Some 4096))|].
  1: done. 1: done. 1: vm_compute; reflexivity. 1: simpl; lia.
  apply rtc_refl.
Defined.

(** An object is renamed, and its new name is enumerated meanwhile: two objects of the list have it. *)
Definition renamed_registry : registry :=
  mk_registry
    [mk_pobj 4096 1 [1] [8; 8] 0x4 false false 64; mk_pobj 8192 2 [1] [8; 8] 0x4 false false 64]
    [(8192, REnum); (8192, RName true); (4096, RData 0x4)].

Lemma renamed_registry_reachable : reg_reachable renamed_registry.
Proof.
  eapply rtc_l; [apply (step_get _ [1] [7; 7] 0x4 TEE_POBJ_USAGE_OPEN 64 (Some 4096) true
    [mk_pobj 4096 1 [1] [7; 7] 0x4 false false 64] TEE_SUCCESS (Some 4096))|].
  1: intros p; simpl; set_solver. 1: done. 1: reflexivity. 1: simpl; lia.
  eapply rtc_l; [apply (step_get _ [1] [8; 8] 0x4 TEE_POBJ_USAGE_RENAME 64 (Some 8192) true
    [mk_pobj 4096 1 [1] [7; 7] 0x4 false false 64; mk_pobj 8192 1 [1] [8; 8] 0x4 false false 64] TEE_SUCCESS (Some 8192))|].
  1: intros p; simpl; set_solver. 1: done. 1: vm_compute; reflexivity. 1: simpl; lia.
  eapply rtc_l; [apply (step_rename _ 4096 0x4 (mk_pobj 4096 1 [1] [7; 7] 0x4 false false 64) 8192 (mk_pobj 8192 1 [1] [8; 8] 0x4 false false 64) true
    [mk_pobj 4096 1 [1] [8; 8] 0x4 false false 64; mk_pobj 8192 1 [1] [8; 8] 0x4 false false 64] TEE_SUCCESS [] [(4096, RData 0x4)])|].
  1: simpl; set_solver. 1-7: reflexivity.
  eapply rtc_l; [apply (step_get _ [1] [8; 8] 0 TEE_POBJ_USAGE_ENUM 64 None true
    [mk_pobj 4096 1 [1] [8; 8] 0x4 false false 64; mk_pobj 8192 2 [1] [8; 8] 0x4 false false 64] TEE_SUCCESS (Some 8192))|].
  1: done. 1: done. 1: vm_compute; reflexivity. 1: simpl; lia.
  apply rtc_refl.
Defined.

Lemma pobj_open_handles_may_share_witness : may_share 0x11 0x11.
Proof.
  apply (pobj_open_handles_may_share demo_registry 0 1 4096 4096 0x11 0x11
    (mk_pobj 4096 2 [1] [7; 7] (0x11) false false 64) (mk_pobj 4096 2 [1] [7; 7] (0x11) false false 64));
    [apply demo_registry_reachable|lia|reflexivity..].
Defined.

Lemma pobj_refcount_exact_witness :
  8192 ∈ po_ptr <$> r_objs renamed_registry /\ refs_to 8192 (r_open renamed_registry) ≠ [].
Proof.
  assert (Hn : refs_to 8192 (r_open renamed_registry) ≠ []) by (vm_compute; congruence).
  split; [|done]. by apply (pobj_refcount_exact renamed_registry renamed_registry_reachable).
Defined.

Lemma tee_pobj_get_listed_witness :
  tee_pobj_get (r_objs demo_registry) [1] [7; 7] 0 TEE_POBJ_USAGE_ENUM 64 None false =
  ([mk_pobj 4096 3 [1] [7; 7] 0x11 false false 64], TEE_SUCCESS, Some 4096).
Proof.
  exact (proj1 (tee_pobj_get_listed demo_registry (mk_pobj 4096 2 [1] [7; 7] 0x11 false false 64)
    0 TEE_POBJ_USAGE_ENUM None false demo_registry_reachable eq_refl) eq_refl).
Defined.
