(* ===== verification/WaitQueue.v ===== *)
(** * Wait queues: [core/kernel/wait_queue.c]

    A wait queue is the singly linked list of the elements that sleeping threads
    keep on their stacks. Every access is made under [wq_spin_lock], so each
    critical section is one function on the list; [__wq_rpc] only asks normal
    world to suspend or resume a thread and changes nothing here. *)

From stdpp Require Import base gmap list.
From Stdlib Require Import ZArith Lia.
From S2P Require Import Prelude.

Local Open Scope Z_scope.

(** ** Data *)

(** [handle] is the id of the sleeping thread; [cv] the address of the condition
    variable it waits for, 0 for NULL. *)
Record wait_queue_elem := mk_wqe {
  w_handle : Z;
  w_done : bool;
  w_wait_read : bool;
  w_cv : Z
}.

Notation wait_queue := (list wait_queue_elem).

Definition WAIT_QUEUE_INITIALIZER : wait_queue := [].

Definition set_done (e : wait_queue_elem) : wait_queue_elem :=
  mk_wqe (w_handle e) true (w_wait_read e) (w_cv e).
Definition clear_cv (e : wait_queue_elem) : wait_queue_elem :=
  mk_wqe (w_handle e) (w_done e) (w_wait_read e) 0.

(** ** Operations *)

Definition wq_init (wq : wait_queue) : wait_queue := WAIT_QUEUE_INITIALIZER.

(** Walks to the last element and links the new one after it. *)
Fixpoint slist_add_tail (wq : wait_queue) (wqe : wait_queue_elem) : wait_queue :=
  match wq with
  | [] => [wqe]
  | e :: wq' => e :: slist_add_tail wq' wqe
  end.

Definition wq_wait_init_condvar (wq : wait_queue) (id cv : Z) (wait_read : bool) : wait_queue :=
  slist_add_tail wq (mk_wqe id false wait_read cv).

Definition wq_wait_init (wq : wait_queue) (id : Z) (wait_read : bool) : wait_queue :=
  wq_wait_init_condvar wq id 0 wait_read.

(** [SLIST_REMOVE] of the element of thread [id]. *)
Fixpoint slist_remove (wq : wait_queue) (id : Z) : wait_queue :=
  match wq with
  | [] => []
  | e :: wq' => if w_handle e =? id then wq' else e :: slist_remove wq' id
  end.

Fixpoint wqe_of (wq : wait_queue) (id : Z) : option wait_queue_elem :=
  match wq with
  | [] => None
  | e :: wq' => if w_handle e =? id then Some e else wqe_of wq' id
  end.

(** One turn of the loop of [wq_wait_final], after the sleep returned: the
    queue and whether the thread leaves the loop. *)
Definition wq_wait_final_turn (wq : wait_queue) (id : Z) : wait_queue * bool :=
  match wqe_of wq id with
  | Some e => if w_done e then (slist_remove wq id, true) else (wq, false)
  | None => (wq, false)
  end.

(** The [SLIST_FOREACH] of [wq_wake_next]: returns the queue, the thread to wake
    ([do_wakeup] and [handle]), [wake_type_assigned] and [wake_read]. *)
Fixpoint wake_scan (wq : wait_queue) (wake_type_assigned wake_read : bool)
    : wait_queue * option Z * bool * bool :=
  match wq with
  | [] => ([], None, wake_type_assigned, wake_read)
  | wqe :: wq' =>
      let continue ta wr :=
        let '(q, h, ta', wr') := wake_scan wq' ta wr in (wqe :: q, h, ta', wr') in
      if negb (w_cv wqe =? 0) then continue wake_type_assigned wake_read
      else if w_done wqe then continue wake_type_assigned wake_read
      else
        let wake_read := if wake_type_assigned then wake_read else w_wait_read wqe in
        if negb (Bool.eqb (w_wait_read wqe) wake_read) then continue true wake_read
        else (set_done wqe :: wq', Some (w_handle wqe), true, wake_read)
  end.

(** The whole loop, when nothing interferes; [woken] collects the threads for
    which the wake-up RPC is made. Each turn but the last marks an element done,
    so one turn more than there are elements is enough fuel. *)
Fixpoint wq_wake_next_loop (fuel : nat) (wq : wait_queue) (ta wr : bool) (woken : list Z)
    : option (wait_queue * list Z) :=
  match fuel with
  | O => None
  | S fuel =>
      let '(q, h, ta', wr') := wake_scan wq ta wr in
      match h with
      | None => Some (q, woken)
      | Some id =>
          if negb wr' then Some (q, woken ++ [id])
          else wq_wake_next_loop fuel q ta' wr' (woken ++ [id])
      end
  end.

Definition wq_wake_next (wq : wait_queue) : option (wait_queue * list Z) :=
  wq_wake_next_loop (S (length wq)) wq false false [].

Fixpoint promote_scan (wq : wait_queue) (cv : Z) (only_one : bool) : wait_queue :=
  match wq with
  | [] => []
  | wqe :: wq' =>
      if w_cv wqe =? cv then
        if only_one then clear_cv wqe :: wq' else clear_cv wqe :: promote_scan wq' cv only_one
      else wqe :: promote_scan wq' cv only_one
  end.

Definition wq_promote_condvar (wq : wait_queue) (cv : Z) (only_one : bool) : wait_queue :=
  if cv =? 0 then wq else promote_scan wq cv only_one.

Fixpoint wq_have_condvar (wq : wait_queue) (cv : Z) : bool :=
  match wq with
  | [] => false
  | wqe :: wq' => if w_cv wqe =? cv then true else wq_have_condvar wq' cv
  end.

Definition wq_is_empty (wq : wait_queue) : bool :=
  match wq with [] => true | _ => false end.

(** ** Reference definitions *)

(** An active waiter sleeps for the lock, not for a condition variable, and has
    not been told to run. *)
Definition active (e : wait_queue_elem) : bool := (w_cv e =? 0) && negb (w_done e).

Definition active_reader (e : wait_queue_elem) : bool := active e && w_wait_read e.

Definition mark_if (P : wait_queue_elem -> bool) (e : wait_queue_elem) : wait_queue_elem :=
  if P e then set_done e else e.

(** Marks the first element that satisfies [P]. *)
Fixpoint mark_first (P : wait_queue_elem -> bool) (wq : wait_queue) : wait_queue :=
  match wq with
  | [] => []
  | e :: wq' => if P e then set_done e :: wq' else e :: mark_first P wq'
  end.

Definition first_such (P : wait_queue_elem -> bool) (wq : wait_queue) : option wait_queue_elem :=
  head (filter (fun e => P e = true) wq).

(** ** Lemmas *)

Lemma slist_add_tail_app wq e : slist_add_tail wq e = wq ++ [e].
Proof. induction wq as [|x wq IH]; simpl; congruence. Qed.

Lemma first_such_cons P e wq :
  first_such P (e :: wq) = if P e then Some e else first_such P wq.
Proof. unfold first_such. rewrite filter_cons. by destruct (P e). Qed.

Lemma first_such_None P wq : first_such P wq = None -> forall e, e ∈ wq -> P e = false.
Proof.
  induction wq as [|x wq IH]; [set_solver|]. rewrite first_such_cons.
  destruct (P x) eqn:Hx; [done|]. intros Hn e [->|He]%elem_of_cons; auto.
Qed.

Lemma first_such_Some P wq e : first_such P wq = Some e -> e ∈ wq /\ P e = true.
Proof.
  induction wq as [|x wq IH]; [done|]. rewrite first_such_cons.
  destruct (P x) eqn:Hx; [intros [= <-]; set_solver|]. intros [? ?]%IH. set_solver.
Qed.

Lemma mark_first_None P wq : first_such P wq = None -> mark_first P wq = wq.
Proof.
  induction wq as [|x wq IH]; [done|]. rewrite first_such_cons. simpl.
  destruct (P x); [done|]. intros Hn. by rewrite IH.
Qed.

(** Once the type is assigned, the scan looks for the first active waiter of
    that type. *)
Lemma wake_scan_assigned wq wr :
  let P e := active e && Bool.eqb (w_wait_read e) wr in
  wake_scan wq true wr = (mark_first P wq, w_handle <$> first_such P wq, true, wr).
Proof.
  cbv zeta. induction wq as [|e wq IH]; [done|]. rewrite first_such_cons. simpl. rewrite IH.
  unfold active.
  destruct (w_cv e =? 0), (w_done e), (Bool.eqb (w_wait_read e) wr); done.
Qed.

(** The first scan picks the first active waiter, whatever its type. *)
Lemma wake_scan_fresh wq wr :
  wake_scan wq false wr =
  (mark_first active wq, w_handle <$> first_such active wq,
   match first_such active wq with Some _ => true | None => false end,
   match first_such active wq with Some e => w_wait_read e | None => wr end).
Proof.
  induction wq as [|e wq IH]; [done|]. rewrite first_such_cons. simpl. rewrite IH.
  unfold active. rewrite Bool.eqb_reflx.
  destruct (w_cv e =? 0), (w_done e); done.
Qed.

Definition count_active (wq : wait_queue) : nat := length (filter (fun e => active e = true) wq).

Lemma count_active_length wq : (count_active wq <= length wq)%nat.
Proof. apply length_filter. Qed.

Lemma active_set_done e : active (set_done e) = false.
Proof. unfold active. simpl. by rewrite andb_false_r. Qed.

(** Marking an active waiter makes the queue's active part smaller. *)
Lemma mark_first_count P wq e :
  (forall e, P e = true -> active e = true) -> first_such P wq = Some e ->
  count_active wq = S (count_active (mark_first P wq)).
Proof.
  intros HP. unfold count_active. induction wq as [|x wq IH]; [done|].
  rewrite first_such_cons. simpl. destruct (P x) eqn:Hx.
  - intros _. rewrite !filter_cons, active_set_done, (HP x Hx). done.
  - intros Hf. rewrite !filter_cons. destruct (active x); simpl; rewrite (IH Hf); done.
Qed.

Lemma mark_first_map P wq e :
  first_such P wq = Some e ->
  map (mark_if P) (mark_first P wq) = map (mark_if P) wq.
Proof.
  induction wq as [|x wq IH]; [done|]. rewrite first_such_cons. simpl.
  destruct (P x) eqn:Hx; simpl.
  - intros _. f_equal. unfold mark_if. rewrite Hx. by destruct (P (set_done x)).
  - intros Hf. by rewrite (IH Hf).
Qed.

Lemma mark_if_None P wq : first_such P wq = None -> map (mark_if P) wq = wq.
Proof.
  intros Hn. pose proof (first_such_None P wq Hn) as Hall. clear Hn.
  induction wq as [|x wq IH]; [done|]. simpl. rewrite IH by set_solver.
  unfold mark_if. by rewrite Hall by set_solver.
Qed.

Lemma mark_first_rest P wq e :
  (forall e, P (set_done e) = false) -> first_such P wq = Some e ->
  filter (fun e => P e = true) wq = e :: filter (fun e => P e = true) (mark_first P wq).
Proof.
  intros HP. induction wq as [|x wq IH]; [done|]. rewrite first_such_cons. simpl.
  destruct (P x) eqn:Hx.
  - intros [= <-]. rewrite !filter_cons, Hx, HP. by rewrite decide_True, decide_False.
  - intros Hf. rewrite !filter_cons, Hx, !decide_False by done. by apply IH.
Qed.

(** The reader-waking turns of the loop mark all active readers, in queue
    order. *)
Lemma wake_loop_readers fuel wq woken :
  (count_active wq < fuel)%nat ->
  wq_wake_next_loop fuel wq true true woken =
  Some (map (mark_if active_reader) wq,
        woken ++ (w_handle <$> filter (fun e => active_reader e = true) wq)).
Proof.
  revert wq woken. induction fuel as [|fuel IH]; intros wq woken Hf; [lia|].
  cbn [wq_wake_next_loop]. rewrite wake_scan_assigned. cbv zeta.
  assert (HP : (fun e => active e && Bool.eqb (w_wait_read e) true) = active_reader \/
    forall e, (active e && Bool.eqb (w_wait_read e) true) = active_reader e).
  { right. intros e. unfold active_reader. by destruct (w_wait_read e). }
  assert (Hext : forall l, mark_first (fun e => active e && Bool.eqb (w_wait_read e) true) l = mark_first active_reader l
    /\ first_such (fun e => active e && Bool.eqb (w_wait_read e) true) l = first_such active_reader l).
  { destruct HP as [->|HP]; [done|]. induction l as [|x l [IH1 IH2]]; [done|].
    rewrite !first_such_cons. simpl. rewrite HP, IH1, IH2. done. }
  destruct (Hext wq) as [-> ->]. clear HP Hext.
  destruct (first_such active_reader wq) as [e|] eqn:He; simpl.
  - rewrite IH.
    + rewrite (mark_first_map _ _ _ He). f_equal. f_equal. rewrite <- app_assoc. f_equal.
      rewrite (mark_first_rest active_reader wq e); [done| |done].
      intros x. unfold active_reader. by rewrite active_set_done.
    + rewrite (mark_first_count active_reader wq e) in Hf; [lia| |done].
      intros x. unfold active_reader. by intros [? ?]%andb_true_iff.
  - rewrite mark_first_None, mark_if_None by done. f_equal. f_equal.
    assert (filter (fun e => active_reader e = true) wq = []) as ->.
    { pose proof (first_such_None _ _ He) as Hall. clear -Hall. induction wq as [|x wq IH]; [done|].
      rewrite filter_cons, Hall by set_solver. rewrite decide_False by done. apply IH. set_solver. }
    by rewrite app_nil_r.
Qed.

(** ** Properties *)

(** [wq_wake_next] terminates and does what its comment promises: with no
    active waiter it changes nothing; when the first active waiter wants to
    write, it alone is marked done and woken; when the first active waiter wants
    to read, exactly the active readers are marked and woken, in queue order,
    and condition-variable waiters and writers keep sleeping. *)
Theorem wq_wake_next_spec wq :
  wq_wake_next wq =
  match first_such active wq with
  | None => Some (wq, [])
  | Some e =>
      if w_wait_read e then
        Some (map (mark_if active_reader) wq,
              w_handle <$> filter (fun e => active_reader e = true) wq)
      else Some (mark_first active wq, [w_handle e])
  end.
Proof.
  unfold wq_wake_next. cbn [wq_wake_next_loop]. rewrite wake_scan_fresh.
  destruct (first_such active wq) as [e|] eqn:He; simpl; [|by rewrite mark_first_None].
  destruct (w_wait_read e) eqn:Hr; simpl; [|done].
  rewrite wake_loop_readers.
  - assert (Hfe : first_such active_reader wq = Some e /\ mark_first active wq = mark_first active_reader wq).
    { clear -He Hr. induction wq as [|x wq IH]; [done|]. rewrite first_such_cons in *. simpl.
      unfold active_reader at 1 3. destruct (active x) eqn:Hx; simpl.
      - injection He as ->. rewrite Hr. done.
      - destruct (IH He) as [-> ->]. done. }
    destruct Hfe as [Hf ->]. rewrite (mark_first_map _ _ _ Hf). do 2 f_equal.
    rewrite (mark_first_rest active_reader wq e); [done| |done].
    intros x. unfold active_reader. by rewrite active_set_done.
  - pose proof (mark_first_count active wq e (fun _ H => H) He).
    pose proof (count_active_length wq). lia.
Qed.
