(* ===== verification/Mutex.v ===== *)
(** * Mutexes and condition variables: [core/kernel/mutex.c]

    A mutex is a 16-bit state under its spinlock and a wait queue; threads that
    cannot lock it enqueue themselves and sleep until a wake-up marks them done,
    then try again. The file has the critical sections of every operation as
    functions, the interleaving of any number of threads as a step relation whose
    steps are those sections, and the invariants: mutual exclusion, no lost
    wake-up, no panic, progress. [RecMutex] builds the recursive mutex on top. *)

From stdpp Require Import base gmap list.
From Stdlib Require Import ZArith Lia.
From S2P Require Import Prelude WaitQueue.

Local Open Scope Z_scope.

(** ** Data *)

(** [state]: -1 write locked, 0 unlocked, > 0 number of readers (a [short]). *)
Record mutex := mk_mutex {
  m_wq : wait_queue;
  m_state : Z
}.

Definition MUTEX_INITIALIZER : mutex := mk_mutex WAIT_QUEUE_INITIALIZER 0.

Definition mutex_init (m : mutex) : mutex := MUTEX_INITIALIZER.

(** What the assertions at the entry of the operations look at. *)
Record cpu_ctx := mk_cpu_ctx {
  have_no_spinlock : bool;
  thread_id_valid : bool;
  in_normal_mode : bool
}.

Definition lock_asserts (c : cpu_ctx) : bool :=
  have_no_spinlock c && thread_id_valid c && in_normal_mode c.
Definition unlock_asserts (c : cpu_ctx) : bool :=
  have_no_spinlock c && thread_id_valid c.

(** ** Critical sections

    Each function is what the operation does between taking and releasing
    [m->spin_lock]; the boolean of the locking ones is [can_lock]. *)

Definition __mutex_lock_section (m : mutex) (id : Z) : mutex * bool :=
  let can_lock := m_state m =? 0 in
  if negb can_lock
  then (mk_mutex (wq_wait_init (m_wq m) id false) (m_state m), can_lock)
  else (mk_mutex (m_wq m) (-1), can_lock).

Definition __mutex_read_lock_section (m : mutex) (id : Z) : mutex * bool :=
  let can_lock := negb (m_state m =? -1) in
  if negb can_lock
  then (mk_mutex (wq_wait_init (m_wq m) id true) (m_state m), can_lock)
  else (mk_mutex (m_wq m) (s16 (m_state m + 1)), can_lock).

Definition __mutex_trylock (c : cpu_ctx) (m : mutex) : outcome (mutex * bool) :=
  (assert! unlock_asserts c;
   let can_lock_write := m_state m =? 0 in
   if can_lock_write then Return (mk_mutex (m_wq m) (-1), can_lock_write)
   else Return (m, can_lock_write))%c.

Definition __mutex_read_trylock (c : cpu_ctx) (m : mutex) : outcome (mutex * bool) :=
  (assert! lock_asserts c;
   let can_lock := negb (m_state m =? -1) in
   if can_lock then Return (mk_mutex (m_wq m) (s16 (m_state m + 1)), can_lock)
   else Return (m, can_lock))%c.

(** Up to the call of [wq_wake_next]; the boolean says whether that call is made. *)
Definition __mutex_unlock_section (c : cpu_ctx) (m : mutex) : outcome (mutex * bool) :=
  (assert! unlock_asserts c;
   if m_state m =? 0 then Panic else Return (mk_mutex (m_wq m) 0, true))%c.

Definition __mutex_read_unlock_section (c : cpu_ctx) (m : mutex) : outcome (mutex * bool) :=
  (assert! unlock_asserts c;
   if m_state m <=? 0 then Panic
   else let new_state := s16 (m_state m - 1) in
        Return (mk_mutex (m_wq m) new_state, new_state =? 0))%c.

Definition mutex_destroy (m : mutex) : outcome mutex :=
  if negb (m_state m =? 0) then Panic
  else if negb (wq_is_empty (m_wq m)) then Panic
  else Return m.

(** A condition variable is its [m] field: the address of the mutex it is
    linked to, 0 for NULL. *)
Definition CONDVAR_INITIALIZER : Z := 0.

Definition condvar_init (cv_m : Z) : Z := CONDVAR_INITIALIZER.

(** [wq_of] gives the wait queue of the mutex at an address. *)
Definition condvar_destroy (wq_of : Z -> wait_queue) (cv cv_m : Z) : outcome Z :=
  if negb (cv_m =? 0) && wq_have_condvar (wq_of cv_m) cv then Panic
  else Return (condvar_init cv_m).

(** [cv_signal]: [m] is the mutex [cv->m] points to, when it is not NULL. *)
Definition cv_signal (cv_m : Z) (m : mutex) (cv : Z) (only_one : bool) : mutex :=
  if negb (cv_m =? 0) then mk_mutex (wq_promote_condvar (m_wq m) cv only_one) (m_state m) else m.

(** [__condvar_wait] up to the wake-up of other waiters, for the mutex at
    address [maddr]. Returns the new [cv->m], the mutex, whether
    [wq_wake_next] is called and whether the lock is to be taken back for
    reading ([old_state > 0]). *)
Definition __condvar_wait_section (cv_m maddr cv : Z) (m : mutex) (id : Z)
    : outcome (Z * mutex * bool * bool) :=
  if negb (cv_m =? 0) && negb (cv_m =? maddr) then Panic
  else if m_state m =? 0 then Panic
  else
    let old_state := m_state m in
    let wq := wq_wait_init_condvar (m_wq m) id cv (m_state m >? 0) in
    let new_state := if m_state m >? 1 then s16 (m_state m - 1) else 0 in
    Return (maddr, mk_mutex wq new_state, new_state =? 0, old_state >? 0).

(** ** Threads

    The control points of a thread with respect to one mutex. [Waking] is
    inside the loop of [wq_wake_next], with its two local flags and what follows
    the call; a thread in [Waiting] is in the loop of [wq_wait_final], after
    which it (re)tries the lock, for reading if [rd]. *)
Inductive after_wake := WakeReturn | WakeWait (rd : bool).

Inductive tpc :=
| Outside
| Locking (rd : bool)
| Waiting (rd : bool)
| Waking (k : after_wake) (ta wr : bool)
| HoldsWrite
| HoldsRead.

Record sys := mk_sys {
  s_mutex : mutex;
  s_cvs : gmap Z Z;
  s_threads : list tpc
}.

Definition cv_link (cvs : gmap Z Z) (cv : Z) : Z := default 0 (cvs !! cv).

Definition after_wake_pc (k : after_wake) : tpc :=
  match k with WakeReturn => Outside | WakeWait rd => Waiting rd end.

Definition unlocked_pc (wake : bool) (k : after_wake) : tpc :=
  if wake then Waking k false false else after_wake_pc k.

(** The operations a client can start. *)
Inductive call :=
| CallLock (rd : bool)
| CallTrylock (rd : bool)
| CallUnlock
| CallReadUnlock
| CallWait (cv : Z)
| CallSignal (cv : Z) (only_one : bool).

(** The calls a well-behaved client makes: it takes the lock only when it does
    not hold it, gives back what it holds, and waits on and signals a condition
    variable with the lock held. *)
Definition allowed (pc : tpc) (c : call) : bool :=
  match c, pc with
  | CallLock _, Outside => true
  | CallTrylock _, Outside => true
  | CallUnlock, HoldsWrite => true
  | CallReadUnlock, HoldsRead => true
  | CallWait cv, HoldsWrite | CallWait cv, HoldsRead => negb (cv =? 0)
  | CallSignal _ _, HoldsWrite | CallSignal _ _, HoldsRead => true
  | _, _ => false
  end.

Definition holding (rd : bool) : tpc := if rd then HoldsRead else HoldsWrite.

Section system.
(** The address of the mutex, which condition variables remember. *)
Context (maddr : Z).

(** Thread [t], at control point [pc], starts operation [c] on the CPU context
    [cx]. *)
Definition exec_call (cx : cpu_ctx) (s : sys) (t : nat) (pc : tpc) (c : call) : outcome sys :=
  let id := Z.of_nat t in
  let goto m cvs pc' := mk_sys m cvs (<[t := pc']> (s_threads s)) in
  (match c with
  | CallLock rd =>
      assert! lock_asserts cx; Return (goto (s_mutex s) (s_cvs s) (Locking rd))
  | CallTrylock rd =>
      do! r <- (if rd then __mutex_read_trylock cx (s_mutex s) else __mutex_trylock cx (s_mutex s));
      Return (goto (fst r) (s_cvs s) (if snd r : bool then holding rd else pc))
  | CallUnlock =>
      do! r <- __mutex_unlock_section cx (s_mutex s);
      Return (goto (fst r) (s_cvs s) (unlocked_pc (snd r) WakeReturn))
  | CallReadUnlock =>
      do! r <- __mutex_read_unlock_section cx (s_mutex s);
      Return (goto (fst r) (s_cvs s) (unlocked_pc (snd r) WakeReturn))
  | CallWait cv =>
      do! (cv_m, m, wake, rd) <- __condvar_wait_section (cv_link (s_cvs s) cv) maddr cv (s_mutex s) id;
      Return (goto m (<[cv := cv_m]> (s_cvs s)) (unlocked_pc wake (WakeWait rd)))
  | CallSignal cv only_one =>
      Return (goto (cv_signal (cv_link (s_cvs s) cv) (s_mutex s) cv only_one) (s_cvs s) pc)
  end)%c.

(** The next step of an operation under way; [None] between operations. *)
Definition exec_inside (s : sys) (t : nat) (pc : tpc) : option sys :=
  let id := Z.of_nat t in
  let m := s_mutex s in
  let goto m pc' := mk_sys m (s_cvs s) (<[t := pc']> (s_threads s)) in
  match pc with
  | Locking rd =>
      let '(m', can_lock) := if rd then __mutex_read_lock_section m id else __mutex_lock_section m id in
      Some (goto m' (if can_lock : bool then holding rd else Waiting rd))
  | Waiting rd =>
      let '(wq, done) := wq_wait_final_turn (m_wq m) id in
      Some (goto (mk_mutex wq (m_state m)) (if done then Locking rd else Waiting rd))
  | Waking k ta wr =>
      let '(wq, h, ta', wr') := wake_scan (m_wq m) ta wr in
      let stop := match h with None => true | Some _ => negb wr' end in
      Some (goto (mk_mutex wq (m_state m)) (if stop then after_wake_pc k else Waking k ta' wr'))
  | _ => None
  end.

Inductive inside_step : sys -> sys -> Prop :=
| inside_intro s s' t pc :
    s_threads s !! t = Some pc -> exec_inside s t pc = Some s' -> inside_step s s'.

Inductive sys_step : sys -> sys -> Prop :=
| step_inside s s' : inside_step s s' -> sys_step s s'
| step_call s s' t pc cx c :
    s_threads s !! t = Some pc -> lock_asserts cx = true -> allowed pc c = true ->
    exec_call cx s t pc c = Return s' -> sys_step s s'.

Definition sys_init (n : nat) : sys := mk_sys MUTEX_INITIALIZER ∅ (replicate n Outside).

Definition sys_reachable (n : nat) (s : sys) : Prop := rtc sys_step (sys_init n) s.

End system.

(** ** Counting threads *)

Definition is_writer (pc : tpc) : bool := match pc with HoldsWrite => true | _ => false end.
Definition is_reader (pc : tpc) : bool := match pc with HoldsRead => true | _ => false end.

Fixpoint count (P : tpc -> bool) (ths : list tpc) : Z :=
  match ths with [] => 0 | pc :: ths => b2z (P pc) + count P ths end.

Lemma count_insert P ths t pc pc' :
  ths !! t = Some pc -> count P (<[t := pc']> ths) = count P ths - b2z (P pc) + b2z (P pc').
Proof.
  revert t. induction ths as [|x ths IH]; intros [|t] Ht; simpl in *; try done.
  - injection Ht as ->. lia.
  - rewrite (IH t Ht). lia.
Qed.

Lemma count_bounds P ths : 0 <= count P ths <= Z.of_nat (length ths).
Proof. induction ths as [|x ths IH]; simpl; [lia|]. pose proof (b2z_range (P x)). lia. Qed.

Lemma count_lower P ths t pc : ths !! t = Some pc -> b2z (P pc) <= count P ths.
Proof.
  revert t. induction ths as [|x ths IH]; intros [|t] Ht; simpl in *; try done.
  - injection Ht as ->. pose proof (count_bounds P ths). lia.
  - specialize (IH t Ht). pose proof (b2z_range (P x)). lia.
Qed.

Lemma count_upper P ths t pc :
  ths !! t = Some pc -> count P ths <= Z.of_nat (length ths) - 1 + b2z (P pc).
Proof.
  revert t. induction ths as [|x ths IH]; intros [|t] Ht; simpl in *; try done.
  - injection Ht as ->. pose proof (count_bounds P ths). lia.
  - specialize (IH t Ht). pose proof (b2z_range (P x)). lia.
Qed.

Lemma count_replicate P n pc : P pc = false -> count P (replicate n pc) = 0.
Proof. intros Hp. induction n as [|n IH]; simpl; [done|]. by rewrite Hp, IH. Qed.

(** ** The lock invariant: the state counts the holders *)

Definition lock_inv (st : Z) (ths : list tpc) : Prop :=
  Z.of_nat (length ths) <= 32767 /\
  ((count is_writer ths = 1 /\ count is_reader ths = 0 /\ st = -1) \/
   (count is_writer ths = 0 /\ st = count is_reader ths)).

Ltac lock_inv_tac :=
  match goal with
  | Ht : ?ths !! ?t = Some ?pc, Hi : lock_inv _ ?ths |- lock_inv _ (<[?t := ?pc']> ?ths) =>
      unfold lock_inv in *; rewrite !(count_insert _ ths t pc pc' Ht), length_insert;
      pose proof (count_lower is_writer ths t pc Ht); pose proof (count_lower is_reader ths t pc Ht);
      pose proof (count_upper is_reader ths t pc Ht);
      pose proof (count_bounds is_writer ths); pose proof (count_bounds is_reader ths)
  end.

Lemma lock_inv_neutral st ths t pc pc' :
  lock_inv st ths -> ths !! t = Some pc ->
  is_writer pc' = is_writer pc -> is_reader pc' = is_reader pc ->
  lock_inv st (<[t := pc']> ths).
Proof. intros Hi Ht Hw Hr. lock_inv_tac. rewrite Hw, Hr. lia. Qed.

Lemma lock_inv_write ths t pc :
  lock_inv 0 ths -> ths !! t = Some pc -> is_writer pc = false -> is_reader pc = false ->
  lock_inv (-1) (<[t := HoldsWrite]> ths).
Proof. intros Hi Ht Hw Hr. lock_inv_tac. rewrite Hw, Hr in *. simpl in *. lia. Qed.

Lemma lock_inv_read st ths t pc :
  lock_inv st ths -> ths !! t = Some pc -> is_writer pc = false -> is_reader pc = false ->
  st ≠ -1 -> lock_inv (s16 (st + 1)) (<[t := HoldsRead]> ths).
Proof.
  intros Hi Ht Hw Hr Hs. lock_inv_tac. rewrite Hw, Hr in *. simpl in *.
  assert (s16 (st + 1) = st + 1) as -> by (assert (0 <= st < 32767) by lia; cint). lia.
Qed.

Lemma lock_inv_release_write st ths t pc' :
  lock_inv st ths -> ths !! t = Some HoldsWrite -> is_writer pc' = false -> is_reader pc' = false ->
  st = -1 /\ lock_inv 0 (<[t := pc']> ths).
Proof. intros Hi Ht Hw Hr. split; [|lock_inv_tac; rewrite Hw, Hr in *; simpl in *; lia].
  pose proof (count_lower is_writer ths t _ Ht). unfold lock_inv in Hi. simpl in *. lia.
Qed.

Lemma lock_inv_release_read st ths t pc' :
  lock_inv st ths -> ths !! t = Some HoldsRead -> is_writer pc' = false -> is_reader pc' = false ->
  0 < st <= 32767 /\ s16 (st - 1) = st - 1 /\ lock_inv (st - 1) (<[t := pc']> ths).
Proof.
  intros Hi Ht Hw Hr. assert (0 < st <= 32767) as Hs.
  { pose proof (count_lower is_reader ths t _ Ht). pose proof (count_bounds is_reader ths).
    unfold lock_inv in Hi. simpl in *. lia. }
  split; [done|]. split; [cint|]. lock_inv_tac. rewrite Hw, Hr in *. simpl in *. lia.
Qed.

(** ** The queue invariant: one element per sleeping thread *)

Definition wqe_key (e : wait_queue_elem) : Z * bool := (w_handle e, w_wait_read e).

(** A thread has its element in the queue while it waits, and, in
    [condvar_wait], already while it wakes the others. *)
Definition queued_pc (pc : tpc) : option bool :=
  match pc with
  | Waiting rd | Waking (WakeWait rd) _ _ => Some rd
  | _ => None
  end.

Definition queue_inv (keys : list (Z * bool)) (ths : list tpc) : Prop :=
  NoDup (keys.*1) /\
  forall id rd, (id, rd) ∈ keys <->
    exists t pc, id = Z.of_nat t /\ ths !! t = Some pc /\ queued_pc pc = Some rd.

Lemma queue_inv_neutral keys ths t pc pc' :
  queue_inv keys ths -> ths !! t = Some pc -> queued_pc pc' = queued_pc pc ->
  queue_inv keys (<[t := pc']> ths).
Proof.
  intros [Hn Hq] Ht Hp. split; [done|]. intros id rd. rewrite Hq.
  assert (t < length ths)%nat by (by eapply lookup_lt_Some).
  split; intros (u & x & -> & Hu & Hx); destruct (decide (u = t)) as [->|Hne].
  - exists t, pc'. rewrite list_lookup_insert_eq by done. naive_solver congruence.
  - exists u, x. rewrite list_lookup_insert_ne by done. done.
  - rewrite list_lookup_insert_eq in Hu by done. injection Hu as <-. exists t, pc.
    rewrite <- Hp. done.
  - rewrite list_lookup_insert_ne in Hu by done. by exists u, x.
Qed.

Lemma queue_inv_enqueue keys ths t pc pc' rd :
  queue_inv keys ths -> ths !! t = Some pc -> queued_pc pc = None -> queued_pc pc' = Some rd ->
  queue_inv (keys ++ [(Z.of_nat t, rd)]) (<[t := pc']> ths).
Proof.
  intros [Hn Hq] Ht Hp Hp'. assert (t < length ths)%nat by (by eapply lookup_lt_Some). split.
  - rewrite fmap_app. apply NoDup_app. split; [done|]. split; [|apply NoDup_singleton].
    simpl. intros i ([i' r] & -> & Hin)%list_elem_of_fmap Hi. apply list_elem_of_singleton in Hi.
    simpl in Hi. subst i'. apply Hq in Hin as (u & x & Hu & Hx & Hr).
    assert (u = t) as -> by lia. rewrite Ht in Hx. injection Hx as <-. congruence.
  - intros id r. rewrite elem_of_app, list_elem_of_singleton, Hq. split.
    + intros [(u & x & -> & Hu & Hx)|[= -> ->]].
      * exists u, x. rewrite list_lookup_insert_ne by congruence. done.
      * exists t, pc'. rewrite list_lookup_insert_eq by done. done.
    + intros (u & x & -> & Hu & Hx). destruct (decide (u = t)) as [->|Hne].
      * right. rewrite list_lookup_insert_eq in Hu by done. naive_solver congruence.
      * left. rewrite list_lookup_insert_ne in Hu by done. by exists u, x.
Qed.

Lemma queue_inv_dequeue keys1 keys2 ths t pc' rd :
  queue_inv (keys1 ++ (Z.of_nat t, rd) :: keys2) ths -> queued_pc pc' = None ->
  queue_inv (keys1 ++ keys2) (<[t := pc']> ths).
Proof.
  intros [Hn Hq] Hp. rewrite fmap_app in Hn. simpl in Hn.
  pose proof (Permutation_middle keys1.*1 keys2.*1 (Z.of_nat t)) as Hperm.
  rewrite <- Hperm in Hn. apply NoDup_cons in Hn as [Hni Hn].
  assert (Hin : (Z.of_nat t, rd) ∈ keys1 ++ (Z.of_nat t, rd) :: keys2) by set_solver.
  apply Hq in Hin as (u & pc & Hu & Ht & _). assert (u = t) as -> by lia. clear Hu.
  assert (t < length ths)%nat by (by eapply lookup_lt_Some). rewrite <- fmap_app in Hni, Hn.
  split; [done|]. intros id r. split.
  - intros Hin. assert (id ≠ Z.of_nat t).
    { intros ->. apply Hni. apply list_elem_of_fmap. by exists (Z.of_nat t, r). }
    assert ((id, r) ∈ keys1 ++ (Z.of_nat t, rd) :: keys2) as (u & x & -> & Hu & Hx)%Hq by set_solver.
    exists u, x. rewrite list_lookup_insert_ne by congruence. done.
  - intros (u & x & -> & Hu & Hx). destruct (decide (u = t)) as [->|Hne].
    + rewrite list_lookup_insert_eq in Hu by done. naive_solver congruence.
    + rewrite list_lookup_insert_ne in Hu by done.
      assert ((Z.of_nat u, r) ∈ keys1 ++ (Z.of_nat t, rd) :: keys2) by (apply Hq; by exists u, x).
      assert (Z.of_nat u ≠ Z.of_nat t) by lia. set_solver.
Qed.

Lemma wqe_of_split wq id e :
  wqe_of wq id = Some e ->
  w_handle e = id /\ exists q1 q2, wq = q1 ++ e :: q2 /\ slist_remove wq id = q1 ++ q2.
Proof.
  induction wq as [|x wq IH]; simpl; [done|]. destruct (Z.eqb_spec (w_handle x) id) as [Hx|Hx].
  - intros [= <-]. split; [done|]. by exists [], wq.
  - intros (Hh & q1 & q2 & -> & Hr)%IH. split; [done|]. exists (x :: q1), q2. by rewrite Hr.
Qed.

Lemma mark_first_keys P wq : wqe_key <$> mark_first P wq = wqe_key <$> wq.
Proof.
  induction wq as [|x wq IH]; [done|]. cbn [mark_first].
  destruct (P x); [done|]. by rewrite !fmap_cons, IH.
Qed.

Lemma wake_scan_keys wq ta wr q h ta' wr' :
  wake_scan wq ta wr = (q, h, ta', wr') -> wqe_key <$> q = wqe_key <$> wq.
Proof.
  destruct ta; [rewrite wake_scan_assigned|rewrite wake_scan_fresh]; intros [= <- _ _ _];
    apply mark_first_keys.
Qed.

Lemma promote_keys wq cv o : wqe_key <$> wq_promote_condvar wq cv o = wqe_key <$> wq.
Proof.
  unfold wq_promote_condvar. destruct (cv =? 0); [done|].
  induction wq as [|x wq IH]; [done|]. cbn [promote_scan].
  destruct (w_cv x =? cv); [destruct o; [done|]|]; by rewrite !fmap_cons, IH.
Qed.

Lemma enqueue_keys wq id cv rd :
  wqe_key <$> wq_wait_init_condvar wq id cv rd = (wqe_key <$> wq) ++ [(id, rd)].
Proof. unfold wq_wait_init_condvar. by rewrite slist_add_tail_app, fmap_app. Qed.

(** ** The wake-up invariant: a free lock with active waiters is being handed on *)

Definition handing_on (wq : wait_queue) (ths : list tpc) : Prop :=
  (exists e, e ∈ wq /\ w_done e = true) \/
  (exists t rd, ths !! t = Some (Locking rd)) \/
  (exists t k wr, ths !! t = Some (Waking k false wr)).

Definition wake_inv (wq : wait_queue) (st : Z) (ths : list tpc) : Prop :=
  st = 0 -> (exists e, e ∈ wq /\ active e = true) -> handing_on wq ths.

Lemma handing_on_locking wq ths t rd pc :
  ths !! t = Some pc -> handing_on wq (<[t := Locking rd]> ths).
Proof.
  intros Ht. right. left. exists t, rd. apply list_lookup_insert_eq. by eapply lookup_lt_Some.
Qed.

Lemma handing_on_waking wq ths t k wr pc :
  ths !! t = Some pc -> handing_on wq (<[t := Waking k false wr]> ths).
Proof.
  intros Ht. right. right. exists t, k, wr. apply list_lookup_insert_eq. by eapply lookup_lt_Some.
Qed.

(** Steps of a thread that is not itself handing the lock on. *)
Lemma handing_on_other wq wq' ths t pc pc' :
  handing_on wq ths -> ths !! t = Some pc ->
  match pc with Locking _ | Waking _ false _ => False | _ => True end ->
  (forall e, e ∈ wq -> w_done e = true -> e ∈ wq') ->
  handing_on wq' (<[t := pc']> ths).
Proof.
  intros Hh Ht Hpc Hd. destruct Hh as [(e & He & Hdone)|[(u & rd & Hu)|(u & k & wr & Hu)]].
  - left. eauto.
  - right. left. exists u, rd. rewrite list_lookup_insert_ne; [done|]. intros ->. rewrite Ht in Hu.
    injection Hu as ->. done.
  - right. right. exists u, k, wr. rewrite list_lookup_insert_ne; [done|]. intros ->. rewrite Ht in Hu.
    injection Hu as ->. done.
Qed.

Lemma mark_first_elem P wq e :
  e ∈ mark_first P wq -> e ∈ wq \/ exists e0, first_such P wq = Some e0 /\ e = set_done e0.
Proof.
  induction wq as [|x wq IH]; simpl; [set_solver|]. rewrite first_such_cons.
  destruct (P x) eqn:Hx; [|set_solver]. intros [->|He]%elem_of_cons; [|left; set_solver]. eauto.
Qed.

Lemma mark_first_done P wq e0 : first_such P wq = Some e0 -> set_done e0 ∈ mark_first P wq.
Proof.
  induction wq as [|x wq IH]; simpl; [done|]. rewrite first_such_cons.
  destruct (P x); [intros [= <-]; set_solver|]. intros Hf. apply elem_of_cons. auto.
Qed.

Lemma mark_first_keeps_done P wq e :
  (forall e, P e = true -> active e = true) -> e ∈ wq -> w_done e = true -> e ∈ mark_first P wq.
Proof.
  intros HP. induction wq as [|x wq IH]; simpl; [set_solver|]. intros [->|He]%elem_of_cons Hd.
  - destruct (P x) eqn:Hx; [|set_solver]. apply HP in Hx. unfold active in Hx. rewrite Hd in Hx.
    by rewrite andb_false_r in Hx.
  - destruct (P x); set_solver.
Qed.

(** A turn of [wq_wake_next] keeps the invariant: the first turn finds an
    active waiter if there is one; later turns leave handing on to others. *)
Lemma wake_inv_scan wq st ths t k ta wr q h ta' wr' pc' :
  wake_inv wq st ths -> ths !! t = Some (Waking k ta wr) ->
  wake_scan wq ta wr = (q, h, ta', wr') -> wake_inv q st (<[t := pc']> ths).
Proof.
  intros Hi Ht Hs Hst (e & He & Hact). destruct ta.
  - rewrite wake_scan_assigned in Hs. cbv zeta in Hs.
    remember (fun e => active e && Bool.eqb (w_wait_read e) wr) as P eqn:HP.
    assert (Hact' : forall e, P e = true -> active e = true) by (subst P; intros x [? ?]%andb_true_iff; done).
    injection Hs as <- _ _ _. clear HP.
    apply mark_first_elem in He as [He|(e0 & He0 & ->)]; [|by rewrite active_set_done in Hact].
    eapply handing_on_other; [apply Hi; eauto|done|done|].
    intros x Hx Hd. by apply mark_first_keeps_done.
  - rewrite wake_scan_fresh in Hs. injection Hs as <- _ _ _.
    destruct (first_such active wq) as [e0|] eqn:Hf.
    + left. exists (set_done e0). split; [by apply mark_first_done|done].
    + rewrite mark_first_None in He by done. rewrite (first_such_None _ _ Hf e He) in Hact. done.
Qed.

(** ** The system invariant *)

Record sys_inv (maddr : Z) (s : sys) : Prop := {
  si_lock : lock_inv (m_state (s_mutex s)) (s_threads s);
  si_queue : queue_inv (wqe_key <$> m_wq (s_mutex s)) (s_threads s);
  si_wake : wake_inv (m_wq (s_mutex s)) (m_state (s_mutex s)) (s_threads s);
  si_cvs : forall cv, cv_link (s_cvs s) cv = 0 \/ cv_link (s_cvs s) cv = maddr
}.

Lemma lock_inv_state_range st ths : lock_inv st ths -> -1 <= st <= 32767.
Proof. pose proof (count_bounds is_reader ths). unfold lock_inv. lia. Qed.

Lemma sys_inv_init maddr n : Z.of_nat n <= 32767 -> sys_inv maddr (sys_init n).
Proof.
  intros Hn. constructor; simpl.
  - unfold lock_inv. rewrite length_replicate, !count_replicate by done. lia.
  - split; [constructor|]. intros id rd. split; [set_solver|].
    intros (t & pc & -> & [-> _]%lookup_replicate & Hq). done.
  - intros _ (e & He & _). set_solver.
  - left. unfold cv_link. by rewrite lookup_empty.
Qed.

Lemma holding_flags rd : is_writer (holding rd) = negb rd /\ is_reader (holding rd) = rd.
Proof. by destruct rd. Qed.

Lemma inside_locking maddr s s' t rd :
  sys_inv maddr s -> s_threads s !! t = Some (Locking rd) ->
  exec_inside s t (Locking rd) = Some s' -> sys_inv maddr s'.
Proof.
  intros [Hl Hq Hw Hc] Ht He. pose proof (lock_inv_state_range _ _ Hl) as Hr. simpl in He.
  unfold __mutex_read_lock_section, __mutex_lock_section in He.
  destruct rd; simpl in He; [destruct (Z.eqb_spec (m_state (s_mutex s)) (-1)) as [Hs|Hs]
                            |destruct (Z.eqb_spec (m_state (s_mutex s)) 0) as [Hs|Hs]];
    simpl in He; injection He as <-; constructor; simpl; try done.
  - by eapply lock_inv_neutral.
  - unfold wq_wait_init. rewrite enqueue_keys. by eapply queue_inv_enqueue.
  - unfold wake_inv. lia.
  - by eapply lock_inv_read.
  - by eapply queue_inv_neutral.
  - pose proof (lock_inv_read _ _ t _ Hl Ht eq_refl eq_refl Hs) as Hl'.
    unfold wake_inv, lock_inv in *. intros Hz. exfalso.
    pose proof (count_lower is_reader _ t HoldsRead (list_lookup_insert_eq _ _ _ (lookup_lt_Some _ _ _ Ht))).
    simpl in *. lia.
  - rewrite Hs in Hl. by eapply lock_inv_write.
  - by eapply queue_inv_neutral.
  - by eapply lock_inv_neutral.
  - unfold wq_wait_init. rewrite enqueue_keys. by eapply queue_inv_enqueue.
  - unfold wake_inv. lia.
Qed.

Lemma inside_waiting maddr s s' t rd :
  sys_inv maddr s -> s_threads s !! t = Some (Waiting rd) ->
  exec_inside s t (Waiting rd) = Some s' -> sys_inv maddr s'.
Proof.
  intros [Hl Hq Hw Hc] Ht He. simpl in He. unfold wq_wait_final_turn in He.
  destruct (wqe_of (m_wq (s_mutex s)) (Z.of_nat t)) as [e|] eqn:Hwq;
    [destruct (w_done e) eqn:Hd|]; injection He as <-; constructor; simpl; try done.
  all: try by eapply lock_inv_neutral.
  all: try by eapply queue_inv_neutral.
  all: try by rewrite list_insert_id.
  - apply wqe_of_split in Hwq as (Hh & q1 & q2 & Hq12 & Hrem). rewrite Hrem.
    rewrite Hq12, fmap_app, fmap_cons in Hq. unfold wqe_key at 2 in Hq. rewrite Hh in Hq.
    rewrite fmap_app. by eapply queue_inv_dequeue.
  - intros _ _. by eapply handing_on_locking.
Qed.

Lemma inside_waking maddr s s' t k ta wr :
  sys_inv maddr s -> s_threads s !! t = Some (Waking k ta wr) ->
  exec_inside s t (Waking k ta wr) = Some s' -> sys_inv maddr s'.
Proof.
  intros [Hl Hq Hw Hc] Ht He. simpl in He.
  destruct (wake_scan (m_wq (s_mutex s)) ta wr) as [[[q h] ta'] wr'] eqn:Hs.
  injection He as <-. constructor; simpl; [| | |done].
  - eapply lock_inv_neutral; [done..| |]; destruct h, wr', k; done.
  - rewrite (wake_scan_keys _ _ _ _ _ _ _ Hs). eapply queue_inv_neutral; [done..|].
    destruct h, wr', k; done.
  - by eapply wake_inv_scan.
Qed.

Lemma inside_step_inv maddr s s' : inside_step s s' -> sys_inv maddr s -> sys_inv maddr s'.
Proof.
  intros [s0 s1 t pc Ht He] Hi. destruct pc; try done;
    eauto using inside_locking, inside_waiting, inside_waking.
Qed.

(** ** Calls: they neither panic nor break the invariant *)

Section calls.
Context (maddr : Z) (cx : cpu_ctx) (s : sys) (t : nat).
Context (Hi : sys_inv maddr s) (Hcx : lock_asserts cx = true).

Definition call_fine (pc : tpc) (c : call) : Prop :=
  exists s', exec_call maddr cx s t pc c = Return s' /\ sys_inv maddr s'.

Lemma unlock_asserts_ok : unlock_asserts cx = true.
Proof. unfold lock_asserts in Hcx. unfold unlock_asserts. by apply andb_true_iff in Hcx as [-> _]. Qed.

Lemma call_lock_fine rd : s_threads s !! t = Some Outside -> call_fine Outside (CallLock rd).
Proof.
  intros Ht. destruct Hi as [Hl Hq Hw Hc]. eexists. unfold exec_call. rewrite Hcx.
  split; [done|]. constructor; simpl; [by eapply lock_inv_neutral|by eapply queue_inv_neutral| |done].
  intros _ _. by eapply handing_on_locking.
Qed.

Lemma call_trylock_fine rd : s_threads s !! t = Some Outside -> call_fine Outside (CallTrylock rd).
Proof.
  intros Ht. pose proof Hi as [Hl Hq Hw Hc]. unfold call_fine, exec_call.
  unfold __mutex_trylock, __mutex_read_trylock. rewrite unlock_asserts_ok, Hcx.
  assert (Hsame : sys_inv maddr (mk_sys (s_mutex s) (s_cvs s) (<[t := Outside]> (s_threads s)))).
  { rewrite list_insert_id by done. by destruct s. }
  destruct rd.
  - destruct (Z.eqb_spec (m_state (s_mutex s)) (-1)) as [Hs|Hs]; eexists; (split; [reflexivity|]); [done|].
    pose proof (lock_inv_read _ _ t _ Hl Ht eq_refl eq_refl Hs) as Hl'.
    constructor; simpl; [done|by eapply queue_inv_neutral| |done].
    intros Hz. pose proof (count_lower is_reader _ t HoldsRead (list_lookup_insert_eq _ _ _ (lookup_lt_Some _ _ _ Ht))).
    unfold lock_inv in Hl'. simpl in *. lia.
  - destruct (Z.eqb_spec (m_state (s_mutex s)) 0) as [Hs|Hs]; eexists; (split; [reflexivity|]); [|done].
    rewrite Hs in Hl. constructor; simpl; [by eapply lock_inv_write|by eapply queue_inv_neutral|done|done].
Qed.

Lemma call_unlock_fine : s_threads s !! t = Some HoldsWrite -> call_fine HoldsWrite CallUnlock.
Proof.
  intros Ht. pose proof Hi as [Hl Hq Hw Hc]. unfold call_fine, exec_call, __mutex_unlock_section.
  rewrite unlock_asserts_ok.
  destruct (lock_inv_release_write _ _ t (Waking WakeReturn false false) Hl Ht eq_refl eq_refl) as [Hs Hl'].
  destruct (Z.eqb_spec (m_state (s_mutex s)) 0); [lia|]. eexists. split; [reflexivity|].
  constructor; simpl; [done|by eapply queue_inv_neutral| |done].
  intros _ _. by eapply handing_on_waking.
Qed.

Lemma unlocked_pc_flags wake k :
  is_writer (unlocked_pc wake k) = false /\ is_reader (unlocked_pc wake k) = false.
Proof. by destruct wake, k. Qed.

Lemma unlocked_pc_queued wake k :
  queued_pc (unlocked_pc wake k) = match k with WakeReturn => None | WakeWait rd => Some rd end.
Proof. by destruct wake, k. Qed.

(** Releasing with a wake-up exactly when the lock became free. *)
Lemma wake_inv_release wq st pc k :
  s_threads s !! t = Some pc ->
  wake_inv wq st (<[t := unlocked_pc (st =? 0) k]> (s_threads s)).
Proof.
  intros Ht Hst _. rewrite Hst. simpl. by eapply handing_on_waking.
Qed.

Lemma call_read_unlock_fine : s_threads s !! t = Some HoldsRead -> call_fine HoldsRead CallReadUnlock.
Proof.
  intros Ht. pose proof Hi as [Hl Hq Hw Hc]. unfold call_fine, exec_call, __mutex_read_unlock_section.
  rewrite unlock_asserts_ok.
  destruct (unlocked_pc_flags (s16 (m_state (s_mutex s) - 1) =? 0) WakeReturn) as [Hp1 Hp2].
  destruct (lock_inv_release_read _ _ t _ Hl Ht Hp1 Hp2) as (Hs & Hs1 & Hl').
  destruct (Z.leb_spec (m_state (s_mutex s)) 0); [lia|]. eexists. split; [reflexivity|].
  constructor; simpl; [by rewrite Hs1 at 1| | |done].
  - eapply queue_inv_neutral; [done..|]. by rewrite unlocked_pc_queued.
  - by eapply wake_inv_release.
Qed.

Lemma call_wait_fine pc cv :
  s_threads s !! t = Some pc -> pc = HoldsWrite \/ pc = HoldsRead ->
  call_fine pc (CallWait cv).
Proof.
  intros Ht Hpc. pose proof Hi as [Hl Hq Hw Hc]. unfold call_fine, exec_call, __condvar_wait_section.
  set (st := m_state (s_mutex s)) in *.
  set (ns := if st >? 1 then s16 (st - 1) else 0).
  destruct (unlocked_pc_flags (ns =? 0) (WakeWait (st >? 0))) as [Hp1 Hp2].
  assert (Hst : st ≠ 0 /\ lock_inv ns (<[t := unlocked_pc (ns =? 0) (WakeWait (st >? 0))]> (s_threads s))).
  { destruct Hpc as [-> | ->].
    - destruct (lock_inv_release_write _ _ t _ Hl Ht Hp1 Hp2) as [Hs Hl']. split; [lia|].
      subst ns. destruct (Z.gtb_spec st 1); [lia|done].
    - destruct (lock_inv_release_read _ _ t _ Hl Ht Hp1 Hp2) as (Hs & Hs1 & Hl'). split; [lia|].
      subst ns. destruct (Z.gtb_spec st 1); [by rewrite Hs1 in *|]. by replace (st - 1) with 0 in Hl' by lia. }
  destruct Hst as [Hst Hl'].
  replace (negb (cv_link (s_cvs s) cv =? 0) && negb (cv_link (s_cvs s) cv =? maddr)) with false
    by (destruct (Hc cv) as [-> | ->]; rewrite ?Z.eqb_refl; simpl; by rewrite ?andb_false_r).
  destruct (Z.eqb_spec st 0); [done|]. eexists. split; [reflexivity|]. constructor; simpl; [done| | |].
  - rewrite enqueue_keys. eapply queue_inv_enqueue; [done..| |by rewrite unlocked_pc_queued].
    by destruct Hpc as [-> | ->].
  - by eapply wake_inv_release.
  - intros cv'. unfold cv_link. destruct (decide (cv' = cv)) as [->|Hne].
    + rewrite lookup_insert_eq. auto.
    + rewrite lookup_insert_ne by done. apply Hc.
Qed.

Lemma call_signal_fine pc cv only_one :
  s_threads s !! t = Some pc -> pc = HoldsWrite \/ pc = HoldsRead ->
  call_fine pc (CallSignal cv only_one).
Proof.
  intros Ht Hpc. pose proof Hi as [Hl Hq Hw Hc]. unfold call_fine, exec_call, cv_signal.
  assert (Hst : m_state (s_mutex s) ≠ 0).
  { pose proof (count_lower is_writer _ _ _ Ht). pose proof (count_lower is_reader _ _ _ Ht).
    unfold lock_inv in Hl. destruct Hpc as [-> | ->]; simpl in *; lia. }
  rewrite list_insert_id by done.
  eexists. split; [reflexivity|].
  destruct (negb (cv_link (s_cvs s) cv =? 0)); constructor; simpl; try done.
  - by rewrite promote_keys.
  - intros Hz. done.
Qed.

Lemma call_allowed_fine pc c :
  s_threads s !! t = Some pc -> allowed pc c = true -> call_fine pc c.
Proof.
  intros Ht Ha. destruct c, pc; try done;
    eauto using call_lock_fine, call_trylock_fine, call_unlock_fine, call_read_unlock_fine,
      call_wait_fine, call_signal_fine.
Qed.
End calls.

Lemma sys_step_inv maddr s s' : sys_step maddr s s' -> sys_inv maddr s -> sys_inv maddr s'.
Proof.
  intros [s0 s1 Hin|s0 s1 t pc cx c Ht Hcx Ha He] Hi; [by eapply inside_step_inv|].
  destruct (call_allowed_fine maddr cx s0 t Hi Hcx pc c Ht Ha) as (s2 & He' & Hi'). congruence.
Qed.

Lemma sys_reachable_inv maddr n s :
  Z.of_nat n <= 32767 -> sys_reachable maddr n s -> sys_inv maddr s.
Proof.
  intros Hn Hr. pose proof (sys_inv_init maddr n Hn) as Hi. unfold sys_reachable in Hr.
  remember (sys_init n) as s0. clear Heqs0.
  induction Hr as [|x y z Hs Hr IH]; [done|]. apply IH. by eapply sys_step_inv.
Qed.

(** ** Progress *)

Definition gets_locked (s : sys) : Prop :=
  exists s', rtc inside_step s s' /\ m_state (s_mutex s') ≠ 0.

Lemma gets_locked_step s s' : inside_step s s' -> gets_locked s' -> gets_locked s.
Proof. intros Hs (x & Hx & Hn). exists x. split; [by eapply rtc_l|done]. Qed.

Lemma gets_locked_locking s t rd :
  m_state (s_mutex s) = 0 -> s_threads s !! t = Some (Locking rd) -> gets_locked s.
Proof.
  intros Hs Ht. destruct (exec_inside s t (Locking rd)) as [s'|] eqn:He.
  - exists s'. split; [apply rtc_once; by econstructor|]. simpl in He.
    unfold __mutex_read_lock_section, __mutex_lock_section in He. rewrite Hs in He.
    destruct rd; injection He as <-; done.
  - simpl in He. by destruct (if rd then _ else _).
Qed.

Lemma wqe_of_in wq e :
  NoDup ((wqe_key <$> wq).*1) -> e ∈ wq -> wqe_of wq (w_handle e) = Some e.
Proof.
  induction wq as [|x wq IH]; [set_solver|]. rewrite !fmap_cons. intros [Hni Hn]%NoDup_cons Hin.
  simpl. apply elem_of_cons in Hin as [->|Hin]; [by rewrite Z.eqb_refl|].
  destruct (Z.eqb_spec (w_handle x) (w_handle e)) as [Heq|Hne]; [|by apply IH].
  exfalso. apply Hni. simpl. rewrite Heq. apply list_elem_of_fmap. exists (wqe_key e).
  split; [done|]. by apply list_elem_of_fmap_2.
Qed.

Lemma gets_locked_waiting maddr s t rd e :
  sys_inv maddr s -> m_state (s_mutex s) = 0 -> s_threads s !! t = Some (Waiting rd) ->
  e ∈ m_wq (s_mutex s) -> w_done e = true -> w_handle e = Z.of_nat t -> gets_locked s.
Proof.
  intros Hi Hs Ht He Hd Hh. pose proof (wqe_of_in _ _ (proj1 (si_queue _ _ Hi)) He) as Hw.
  rewrite Hh in Hw. eapply gets_locked_step.
  - eapply inside_intro; [done|]. simpl. unfold wq_wait_final_turn. rewrite Hw, Hd. reflexivity.
  - apply (gets_locked_locking _ t rd); [done|]. simpl. apply list_lookup_insert_eq.
    by eapply lookup_lt_Some.
Qed.

Lemma wake_scan_count wq ta wr q id ta' wr' :
  wake_scan wq ta wr = (q, Some id, ta', wr') -> count_active wq = S (count_active q).
Proof.
  destruct ta; [rewrite wake_scan_assigned|rewrite wake_scan_fresh]; intros [= <- Hf _ _].
  - destruct (first_such _ wq) as [e|] eqn:He; [|done]. eapply mark_first_count; [|done].
    by intros x [? ?]%andb_true_iff.
  - destruct (first_such _ wq) as [e|] eqn:He; [|done]. by eapply mark_first_count.
Qed.

Lemma wake_scan_keeps_done wq ta wr q h ta' wr' e :
  wake_scan wq ta wr = (q, h, ta', wr') -> e ∈ wq -> w_done e = true -> e ∈ q.
Proof.
  destruct ta; [rewrite wake_scan_assigned|rewrite wake_scan_fresh]; intros [= <- _ _ _] He Hd;
    apply mark_first_keeps_done; try done.
  by intros x [? ?]%andb_true_iff.
Qed.

(** A woken [condvar_wait] caller finishes waking others before it runs. *)
Lemma gets_locked_waking maddr n s t rd ta wr e :
  count_active (m_wq (s_mutex s)) = n ->
  sys_inv maddr s -> m_state (s_mutex s) = 0 -> s_threads s !! t = Some (Waking (WakeWait rd) ta wr) ->
  e ∈ m_wq (s_mutex s) -> w_done e = true -> w_handle e = Z.of_nat t -> gets_locked s.
Proof.
  revert s ta wr. induction n as [|n IH]; intros s ta wr Hn Hi Hs Ht He Hd Hh;
    destruct (wake_scan (m_wq (s_mutex s)) ta wr) as [[[q h] ta'] wr'] eqn:Hw;
    pose proof (wake_scan_keeps_done _ _ _ _ _ _ _ e Hw He Hd) as Heq.
  all: assert (Hstep : inside_step s (mk_sys (mk_mutex q (m_state (s_mutex s))) (s_cvs s)
    (<[t := if match h with None => true | Some _ => negb wr' end then Waiting rd
            else Waking (WakeWait rd) ta' wr']> (s_threads s))))
    by (eapply inside_intro; [done|]; simpl; by rewrite Hw).
  all: pose proof (inside_step_inv maddr _ _ Hstep Hi) as Hi'.
  all: eapply gets_locked_step; [exact Hstep|].
  all: assert (Hlt : (t < length (s_threads s))%nat) by (by eapply lookup_lt_Some).
  - destruct h as [id|]; [apply wake_scan_count in Hw; lia|].
    eapply (gets_locked_waiting maddr _ t rd e); try done. simpl. by apply list_lookup_insert_eq.
  - destruct h as [id|]; [destruct wr'|].
    + apply (IH _ ta' true); try done; simpl; [apply wake_scan_count in Hw; lia|by apply list_lookup_insert_eq].
    + eapply (gets_locked_waiting maddr _ t rd e); try done. simpl. by apply list_lookup_insert_eq.
    + eapply (gets_locked_waiting maddr _ t rd e); try done. simpl. by apply list_lookup_insert_eq.
Qed.

Lemma gets_locked_done maddr s e :
  sys_inv maddr s -> m_state (s_mutex s) = 0 -> e ∈ m_wq (s_mutex s) -> w_done e = true ->
  gets_locked s.
Proof.
  intros Hi Hs He Hd. destruct (proj2 (si_queue _ _ Hi) (w_handle e) (w_wait_read e)) as [Hq _].
  destruct Hq as (t & pc & Hh & Ht & Hp); [by apply (list_elem_of_fmap_2 wqe_key)|].
  destruct pc as [| |rd|[|rd] ta wr| |]; try done.
  - by eapply gets_locked_waiting.
  - by eapply gets_locked_waking.
Qed.

Lemma gets_locked_handing_on maddr s :
  sys_inv maddr s -> m_state (s_mutex s) = 0 ->
  (exists e, e ∈ m_wq (s_mutex s) /\ active e = true) -> gets_locked s.
Proof.
  intros Hi Hs Hact. destruct (si_wake _ _ Hi Hs Hact) as [(e & He & Hd)|[(t & rd & Ht)|(t & k & wr & Ht)]].
  - by eapply gets_locked_done.
  - by eapply gets_locked_locking.
  - destruct (exec_inside s t (Waking k false wr)) as [s'|] eqn:He; simpl in He;
      rewrite wake_scan_fresh in He; [|done].
    destruct (first_such active (m_wq (s_mutex s))) as [e|] eqn:Hf.
    + assert (Hstep : inside_step s s') by (eapply inside_intro; [done|]; simpl; by rewrite wake_scan_fresh, Hf).
      eapply gets_locked_step; [exact Hstep|].
      eapply (gets_locked_done maddr _ (set_done e)); [by eapply inside_step_inv|..];
        injection He as <-; simpl; [done|by apply mark_first_done|done].
    + destruct Hact as (e & Hin & Ha). rewrite (first_such_None _ _ Hf e Hin) in Ha. done.
Qed.

(** ** Properties *)

(** C11. Mutual exclusion: with at most 32767 threads, whatever the
    interleaving of lock, try-lock, unlock, read variants, condition-variable
    waits and signals by clients that only give back what they hold, a thread
    that holds the mutex for writing is alone, and otherwise the 16-bit state is
    the number of threads that hold it for reading (it never wraps). *)
Theorem mutex_mutual_exclusion maddr n s :
  Z.of_nat n <= 32767 -> sys_reachable maddr n s ->
  (forall t u, s_threads s !! t = Some HoldsWrite -> t ≠ u ->
     s_threads s !! u ≠ Some HoldsWrite /\ s_threads s !! u ≠ Some HoldsRead) /\
  (m_state (s_mutex s) = -1 <-> exists t, s_threads s !! t = Some HoldsWrite) /\
  (m_state (s_mutex s) ≠ -1 -> m_state (s_mutex s) = count is_reader (s_threads s)).
Proof.
  intros Hn Hr. destruct (si_lock _ _ (sys_reachable_inv _ _ _ Hn Hr)) as [_ Hl].
  pose proof (count_bounds is_reader (s_threads s)). split; [|split].
  - intros t u Ht Hne. pose proof (count_lower is_writer _ _ _ Ht) as H1. simpl in H1.
    destruct Hl as [(Hw & Hrd & _)|[Hw _]]; [|lia].
    assert (Hu : forall pc, s_threads s !! u = Some pc -> is_writer pc = false /\ is_reader pc = false).
    { intros pc Hu. split; apply not_true_iff_false; intros Hp.
      - pose proof (count_insert is_writer _ t _ Outside Ht) as Hc. simpl in Hc.
        assert (Hu' : <[t := Outside]> (s_threads s) !! u = Some pc) by (by rewrite list_lookup_insert_ne).
        pose proof (count_lower is_writer _ _ _ Hu') as H2. rewrite Hp in H2. simpl in H2. lia.
      - pose proof (count_lower is_reader _ _ _ Hu) as H2. rewrite Hp in H2. simpl in H2. lia. }
    split; intros Hx; apply Hu in Hx; naive_solver.
  - split.
    + intros Hs. destruct Hl as [(Hw & _)|[_ Hst]]; [|lia]. clear -Hw.
      induction (s_threads s) as [|x l IH]; simpl in Hw; [lia|].
      destruct (is_writer x) eqn:Hx; [exists 0%nat; by destruct x|].
      simpl in Hw. destruct IH as [t Ht]; [lia|]. by exists (S t).
    + intros [t Ht]. pose proof (count_lower is_writer _ _ _ Ht) as H1. simpl in H1. lia.
  - intros Hs. lia.
Qed.

(** C39. No lost wake-up: whenever the mutex is free and some thread sleeps for
    it, steps of operations already under way (no further call by any client)
    lead to a state where the mutex is locked; no sleeper is forgotten behind a
    free lock. *)
Theorem mutex_no_lost_wakeup maddr n s :
  Z.of_nat n <= 32767 -> sys_reachable maddr n s ->
  m_state (s_mutex s) = 0 -> (exists e, e ∈ m_wq (s_mutex s) /\ active e = true) ->
  exists s', rtc inside_step s s' /\ m_state (s_mutex s') ≠ 0.
Proof. intros Hn Hr. apply (gets_locked_handing_on maddr). by eapply sys_reachable_inv. Qed.

(** No panic: in a reachable state no call of a well-behaved client hits a
    panic or an assertion; and a client that unlocks a free mutex, or gives back
    a read lock nobody has, panics. *)
Theorem mutex_calls_no_panic maddr n s t pc cx c :
  Z.of_nat n <= 32767 -> sys_reachable maddr n s -> lock_asserts cx = true ->
  (s_threads s !! t = Some pc -> allowed pc c = true -> exec_call maddr cx s t pc c ≠ Panic) /\
  (m_state (s_mutex s) = 0 -> exec_call maddr cx s t pc CallUnlock = Panic) /\
  (m_state (s_mutex s) <= 0 -> exec_call maddr cx s t pc CallReadUnlock = Panic).
Proof.
  intros Hn Hr Hcx. pose proof (sys_reachable_inv _ _ _ Hn Hr) as Hi. split; [|split].
  - intros Ht Ha. destruct (call_allowed_fine maddr cx s t Hi Hcx pc c Ht Ha) as (s2 & -> & _). done.
  - intros Hs. unfold exec_call, __mutex_unlock_section. rewrite Hs. by destruct (unlock_asserts cx).
  - intros Hs. unfold exec_call, __mutex_read_unlock_section.
    destruct (unlock_asserts cx); [|done]. by destruct (Z.leb_spec (m_state (s_mutex s)) 0); [|lia].
Qed.

(** ** Runs, for concrete executions *)

Inductive action := Start (t : nat) (c : call) | Continue (t : nat).

Definition demo_ctx : cpu_ctx := mk_cpu_ctx true true true.

Definition do_action (maddr : Z) (s : sys) (a : action) : option sys :=
  match a with
  | Start t c =>
      match s_threads s !! t with
      | Some pc =>
          if allowed pc c then
            match exec_call maddr demo_ctx s t pc c with Return s' => Some s' | Panic => None end
          else None
      | None => None
      end
  | Continue t => match s_threads s !! t with Some pc => exec_inside s t pc | None => None end
  end.

Fixpoint run (maddr : Z) (s : sys) (l : list action) : option sys :=
  match l with
  | [] => Some s
  | a :: l => match do_action maddr s a with Some s' => run maddr s' l | None => None end
  end.

Lemma do_action_step maddr s a s' : do_action maddr s a = Some s' -> sys_step maddr s s'.
Proof.
  destruct a as [t c|t]; simpl; destruct (s_threads s !! t) as [pc|] eqn:Ht; try done.
  - destruct (allowed pc c) eqn:Ha; [|done].
    destruct (exec_call maddr demo_ctx s t pc c) as [x|] eqn:He; [|done]. intros [= <-].
    apply (step_call maddr s x t pc demo_ctx c Ht eq_refl Ha He).
  - intros He. apply step_inside. by econstructor.
Qed.

Lemma run_reachable maddr n l s : run maddr (sys_init n) l = Some s -> sys_reachable maddr n s.
Proof.
  unfold sys_reachable. generalize (sys_init n). induction l as [|a l IH]; simpl; intros s0.
  - intros [= <-]. apply rtc_refl.
  - destruct (do_action maddr s0 a) as [s1|] eqn:Ha; [|done]. intros Hr.
    eapply rtc_l; [by eapply do_action_step|by apply IH].
Qed.

(** Thread 1 sleeps for the lock thread 0 has just released. *)
Definition demo_run : list action :=
  [Start 0 (CallLock false); Continue 0; Start 1 (CallLock false); Continue 1; Start 0 CallUnlock].
Definition demo_sys : sys :=
  mk_sys (mk_mutex [mk_wqe 1 false false 0] 0) ∅ [Waking WakeReturn false false; Waiting false].

Lemma mutex_mutual_exclusion_witness :
  exists s, sys_reachable 64 2 s /\ m_state (s_mutex s) = -1 /\ s_threads s !! 1%nat ≠ Some HoldsRead.
Proof.
  exists (mk_sys (mk_mutex [mk_wqe 1 false false 0] (-1)) ∅ [HoldsWrite; Waiting false]).
  assert (Hr : sys_reachable 64 2 (mk_sys (mk_mutex [mk_wqe 1 false false 0] (-1)) ∅ [HoldsWrite; Waiting false])).
  { apply (run_reachable 64 2 (take 4 demo_run)). vm_compute. reflexivity. }
  split; [exact Hr|]. split; [reflexivity|].
  refine (proj2 (proj1 (mutex_mutual_exclusion 64 2 _ _ Hr) 0%nat 1%nat _ _)); [lia|reflexivity|lia].
Defined.

Lemma mutex_no_lost_wakeup_witness :
  exists s', rtc inside_step demo_sys s' /\ m_state (s_mutex s') ≠ 0.
Proof.
  apply (mutex_no_lost_wakeup 64 2 demo_sys); [lia| |reflexivity|].
  - apply (run_reachable 64 2 demo_run). vm_compute. reflexivity.
  - exists (mk_wqe 1 false false 0). split; [simpl; set_solver|reflexivity].
Defined.

Lemma mutex_calls_no_panic_witness :
  exec_call 64 demo_ctx demo_sys 0 Outside CallUnlock = Panic.
Proof.
  refine (proj1 (proj2 (mutex_calls_no_panic 64 2 demo_sys 0 Outside demo_ctx CallUnlock _ _ _)) _);
    [lia| |reflexivity|reflexivity].
  apply (run_reachable 64 2 demo_run). vm_compute. reflexivity.
Defined.

(** The boundary of C15: signalling without holding the mutex can strand
    the waiter. Thread 0 waits on a condition variable, thread 1 signals it
    without the lock: the waiter becomes an active waiter of a free mutex, and no
    step of the threads under way ever locks it. *)
Theorem signal_without_lock_strands_waiter :
  exists s s', sys_reachable 64 2 s /\
    exec_call 64 demo_ctx s 1 Outside (CallSignal 128 true) = Return s' /\
    (exists e, e ∈ m_wq (s_mutex s') /\ active e = true) /\
    forall s'', rtc inside_step s' s'' -> m_state (s_mutex s'') = 0.
Proof.
  set (q cv := [mk_wqe 0 false false cv]). set (c := {[128 := 64]} : gmap Z Z).
  exists (mk_sys (mk_mutex (q 128) 0) c [Waiting false; Outside]).
  exists (mk_sys (mk_mutex (q 0) 0) c [Waiting false; Outside]).
  split; [|split; [vm_compute; reflexivity|split]].
  - apply (run_reachable 64 2 [Start 0 (CallLock false); Continue 0; Start 0 (CallWait 128); Continue 0]).
    vm_compute. reflexivity.
  - exists (mk_wqe 0 false false 0). split; [simpl; set_solver|reflexivity].
  - intros s'' Hr. remember (mk_sys (mk_mutex (q 0) 0) c [Waiting false; Outside]) as s0 eqn:Hs0.
    induction Hr as [x|x y z Hxy Hr IH]; [by subst|]. apply IH. subst x.
    inversion Hxy as [a b t pc Ht He]; subst. destruct t as [|[|t]]; simpl in Ht; [| |done];
      injection Ht as <-; [|done]. vm_compute in He. injection He as <-. reflexivity.
Qed.
