(* ===== verification/RecMutex.v ===== *)
(** * Reference counters and recursive mutexes: [core/kernel/refcount.c], [core/kernel/mutex.c]

    A recursive mutex is a mutex with an owner and a counter of nested locks.
    The owner is read without a lock, so the stores around it are separate steps
    here; what the inner mutex does while a thread sleeps is in [Mutex]. *)

From stdpp Require Import base gmap list.
From Stdlib Require Import ZArith Lia.
From S2P Require Import Prelude WaitQueue Mutex.

Local Open Scope Z_scope.

(** ** Reference counters

    [cas] lists the values other threads stored between our load and each
    failing compare-and-swap; after them the swap succeeds. The result is the
    value written ([None]: nothing) and the value returned. *)

Definition refcount_set (val x : Z) : Z := x.
Definition refcount_val (val : Z) : Z := val.

Fixpoint refcount_inc (oval : Z) (cas : list Z) : option Z * bool :=
  let nval := u32 (oval + 1) in
  if oval =? 0 then (None, false)
  else match cas with
       | [] => (Some nval, true)
       | oval' :: cas => refcount_inc oval' cas
       end.

Fixpoint refcount_dec (oval : Z) (cas : list Z) : outcome (Z * bool) :=
  (assert! negb (oval =? 0);
   let nval := u32 (oval - 1) in
   match cas with
   | [] => Return (nval, nval =? 0)
   | oval' :: cas => refcount_dec oval' cas
   end)%c.

(** ** Recursive mutexes *)

Definition THREAD_ID_INVALID : Z := -1.

Record recursive_mutex := mk_rmutex {
  rm_m : mutex;
  rm_owner : Z;
  rm_lock_depth : Z
}.

Definition RECURSIVE_MUTEX_INITIALIZER : recursive_mutex :=
  mk_rmutex MUTEX_INITIALIZER THREAD_ID_INVALID 0.

Definition mutex_init_recursive (m : recursive_mutex) : recursive_mutex := RECURSIVE_MUTEX_INITIALIZER.

Definition mutex_destroy_recursive (m : recursive_mutex) : outcome recursive_mutex :=
  (do! i <- mutex_destroy (rm_m m); Return (mk_rmutex i (rm_owner m) (rm_lock_depth m)))%c.

Definition mutex_get_recursive_lock_depth (cx : cpu_ctx) (m : recursive_mutex) (ct : Z) : outcome Z :=
  (assert! have_no_spinlock cx && (rm_owner m =? ct); Return (refcount_val (rm_lock_depth m)))%c.

(** Control points of a thread: between the stores of the two operations the
    thread owns the inner mutex. *)
Inductive rpc :=
| ROutside
| RLocking                (* in __mutex_lock(&m->m) *)
| RLocked                 (* got it, before the owner is stored *)
| ROwned                  (* owner stored, before lock_depth is set *)
| RHolds (n : nat)        (* n nested locks *)
| RDropped                (* lock_depth reached 0, owner not yet cleared *)
| RCleared.               (* owner cleared, before __mutex_unlock *)

Inductive rcall := RLock | RUnlock | RGo.

(** [cas]: what interferes with the counter during the operation. *)
Definition rec_exec (cx : cpu_ctx) (m : recursive_mutex) (ct : Z) (pc : rpc) (c : rcall)
    (cas : list Z) : outcome (recursive_mutex * rpc) :=
  let pcs n := match n with O => ROutside | _ => RHolds n end in
  let n := match pc with RHolds n => n | _ => 0%nat end in
  (match c, pc with
  (* __mutex_lock_recursive up to the call of __mutex_lock *)
  | RLock, _ =>
      assert! have_no_spinlock cx && in_normal_mode cx;
      if rm_owner m =? ct then
        match refcount_inc (rm_lock_depth m) cas with
        | (Some v, true) => Return (mk_rmutex (rm_m m) (rm_owner m) v, RHolds (S n))
        | _ => Panic
        end
      else Return (m, RLocking)
  (* the critical section of __mutex_lock *)
  | RGo, RLocking =>
      let '(i, can_lock) := __mutex_lock_section (rm_m m) ct in
      if can_lock : bool then Return (mk_rmutex i (rm_owner m) (rm_lock_depth m), RLocked)
      else Return (m, RLocking)
  | RGo, RLocked =>
      assert! rm_owner m =? THREAD_ID_INVALID;
      Return (mk_rmutex (rm_m m) ct (rm_lock_depth m), ROwned)
  | RGo, ROwned =>
      Return (mk_rmutex (rm_m m) (rm_owner m) (refcount_set (rm_lock_depth m) 1), RHolds 1)
  (* __mutex_unlock_recursive *)
  | RUnlock, _ =>
      assert! have_no_spinlock cx && (rm_owner m =? ct);
      do! (v, zero) <- refcount_dec (rm_lock_depth m) cas;
      Return (mk_rmutex (rm_m m) (rm_owner m) v, if zero : bool then RDropped else pcs (pred n))
  | RGo, RDropped => Return (mk_rmutex (rm_m m) THREAD_ID_INVALID (rm_lock_depth m), RCleared)
  | RGo, RCleared =>
      do! r <- __mutex_unlock_section cx (rm_m m);
      Return (mk_rmutex (fst r) (rm_owner m) (rm_lock_depth m), ROutside)
  | RGo, _ => Return (m, pc)
  end)%c.

(** Calls of a well-behaved client: it unlocks only what it locked and nests
    fewer than 2^32 - 1 locks. *)
Definition rec_allowed (pc : rpc) (c : rcall) : Prop :=
  match c, pc with
  | RLock, ROutside => True
  | RLock, RHolds n => Z.of_nat n < UINT32_MAX
  | RUnlock, RHolds _ => True
  | RGo, (RLocking | RLocked | ROwned | RDropped | RCleared) => True
  | _, _ => False
  end.

Definition rsys : Type := recursive_mutex * list rpc.

Inductive rec_step : rsys -> rsys -> Prop :=
| rec_step_intro cx m ths t pc c m' pc' :
    ths !! t = Some pc -> lock_asserts cx = true -> rec_allowed pc c ->
    rec_exec cx m (Z.of_nat t) pc c [] = Return (m', pc') ->
    rec_step (m, ths) (m', <[t := pc']> ths).

Definition rec_init (n : nat) : rsys := (RECURSIVE_MUTEX_INITIALIZER, replicate n ROutside).

Definition rec_reachable (n : nat) (s : rsys) : Prop := rtc rec_step (rec_init n) s.

(** ** Invariant *)

Definition inside (pc : rpc) : bool :=
  match pc with ROutside | RLocking => false | _ => true end.

(** What the fields are, given where the thread inside stands. *)
Definition fields_ok (m : recursive_mutex) (t : nat) (pc : rpc) : Prop :=
  m_state (rm_m m) = -1 /\
  match pc with
  | RLocked | RCleared => rm_owner m = THREAD_ID_INVALID
  | ROwned => rm_owner m = Z.of_nat t
  | RHolds n => rm_owner m = Z.of_nat t /\ rm_lock_depth m = Z.of_nat n /\ 1 <= Z.of_nat n <= UINT32_MAX
  | RDropped => rm_owner m = Z.of_nat t /\ rm_lock_depth m = 0
  | _ => False
  end.

Definition rec_inv (s : rsys) : Prop :=
  let '(m, ths) := s in
  ((forall t pc, ths !! t = Some pc -> inside pc = false) /\
   m_state (rm_m m) = 0 /\ rm_owner m = THREAD_ID_INVALID) \/
  (exists t pc, ths !! t = Some pc /\ inside pc = true /\ fields_ok m t pc /\
     forall u pc', ths !! u = Some pc' -> u ≠ t -> inside pc' = false).

Lemma insert_outside (ths : list rpc) (t : nat) pc' :
  (forall u pc, ths !! u = Some pc -> u ≠ t -> inside pc = false) -> inside pc' = false ->
  forall u pc, <[t := pc']> ths !! u = Some pc -> inside pc = false.
Proof.
  intros H Hp u pc Hu. apply list_lookup_insert_Some in Hu as [(-> & -> & _)|[Hne Hu]]; eauto.
Qed.

Lemma rec_inv_inside m' (ths : list rpc) t pc pc' :
  ths !! t = Some pc -> (forall u x, ths !! u = Some x -> u ≠ t -> inside x = false) ->
  inside pc' = true -> fields_ok m' t pc' -> rec_inv (m', <[t := pc']> ths).
Proof.
  intros Ht Ho Hp Hf. right. exists t, pc'.
  split; [apply list_lookup_insert_eq; by eapply lookup_lt_Some|]. split; [done|]. split; [done|].
  intros u x Hu Hne. rewrite list_lookup_insert_ne in Hu by done. eauto.
Qed.

(** A thread that is not inside: locking succeeds only when nobody is. *)
Lemma rec_outside_step cx m ths t pc c :
  rec_inv (m, ths) -> ths !! t = Some pc -> inside pc = false -> lock_asserts cx = true ->
  rec_allowed pc c ->
  exists m' pc', rec_exec cx m (Z.of_nat t) pc c [] = Return (m', pc') /\ rec_inv (m', <[t := pc']> ths).
Proof.
  intros Hi Ht Hp Hcx Ha. unfold lock_asserts in Hcx.
  destruct pc; try done; destruct c; try done; simpl.
  - destruct (have_no_spinlock cx), (in_normal_mode cx), (thread_id_valid cx); try done. simpl.
    assert (Hne : rm_owner m ≠ Z.of_nat t).
    { destruct Hi as [(_ & _ & ->)|(u & x & Hu & Hx & [_ Hf] & _)]; [unfold THREAD_ID_INVALID; lia|].
      assert (u ≠ t) by (intros ->; rewrite Ht in Hu; injection Hu as <-; done).
      unfold THREAD_ID_INVALID in Hf. destruct x; try done; lia. }
    destruct (Z.eqb_spec (rm_owner m) (Z.of_nat t)); [done|]. eexists _, _. split; [done|].
    destruct Hi as [(Ho & Hs)|(u & x & Hu & Hx & Hf & Ho)]; [left|right].
    + split; [|done]. apply insert_outside; eauto.
    + assert (u ≠ t) by (intros ->; rewrite Ht in Hu; injection Hu as <-; done).
      exists u, x. split; [by rewrite list_lookup_insert_ne|]. split; [done|]. split; [done|].
      intros v y [(-> & <- & _)|[Hne' Hv]]%list_lookup_insert_Some Hvu; eauto.
  - unfold __mutex_lock_section. destruct (Z.eqb_spec (m_state (rm_m m)) 0) as [Hs|Hs]; simpl.
    + eexists _, _. split; [done|].
      destruct Hi as [(Ho & _ & Hw)|(u & x & Hu & Hx & [Hf _] & _)]; [|lia].
      eapply rec_inv_inside; [done|eauto|done|]. split; done.
    + eexists _, _. split; [done|]. by rewrite list_insert_id.
Qed.

Lemma rec_inside_step cx m ths t pc c :
  ths !! t = Some pc -> inside pc = true -> fields_ok m t pc ->
  (forall u x, ths !! u = Some x -> u ≠ t -> inside x = false) ->
  lock_asserts cx = true -> rec_allowed pc c ->
  exists m' pc', rec_exec cx m (Z.of_nat t) pc c [] = Return (m', pc') /\ rec_inv (m', <[t := pc']> ths).
Proof.
  intros Ht Hp [Hst Hf] Ho Hcx Ha. unfold lock_asserts in Hcx.
  assert (Hc : have_no_spinlock cx = true /\ in_normal_mode cx = true /\ unlock_asserts cx = true).
  { unfold unlock_asserts. by destruct (have_no_spinlock cx), (in_normal_mode cx), (thread_id_valid cx). }
  destruct Hc as (Hc1 & Hc2 & Hc3).
  destruct pc; try done; destruct c; try done; cbn [rec_exec]; rewrite ?Hc1, ?Hc2.
  - rewrite Hf. eexists _, _. split; [done|]. by eapply rec_inv_inside.
  - eexists _, _. split; [done|]. eapply rec_inv_inside; [done..|].
    split; simpl; [done|]. split; [done|]. unfold refcount_set. split; [done|unfold UINT32_MAX; lia].
  - destruct Hf as (Hw & Hd & Hn). rewrite Hw, Z.eqb_refl. simpl.
    simpl in Ha. unfold refcount_inc. destruct (Z.eqb_spec (rm_lock_depth m) 0); [lia|].
    eexists _, _. split; [done|]. eapply rec_inv_inside; [done..|]. split; [done|].
    split; [done|]. cbn [rm_lock_depth]. rewrite u32_small by (unfold is_u32, UINT32_MAX in *; lia).
    rewrite Hd. lia.
  - destruct Hf as (Hw & Hd & Hn). rewrite Hw, Z.eqb_refl. simpl.
    destruct (Z.eqb_spec (rm_lock_depth m) 0); [lia|]. simpl.
    rewrite u32_small by (unfold is_u32, UINT32_MAX in *; lia).
    destruct (Z.eqb_spec (rm_lock_depth m - 1) 0) as [Hz|Hz]; eexists _, _; (split; [done|]).
    + eapply rec_inv_inside; [done..|]. split; [done|]. split; [done|]. simpl. lia.
    + destruct n as [|[|n]]; [lia..|]. eapply rec_inv_inside; [done..|]. split; [done|].
      split; [done|]. simpl. lia.
  - eexists _, _. split; [done|]. by eapply rec_inv_inside.
  - unfold __mutex_unlock_section. rewrite Hc3, Hst. simpl. eexists _, _. split; [done|].
    left. split; [|done]. by apply insert_outside.
Qed.

Lemma rec_step_fine cx m ths t pc c :
  rec_inv (m, ths) -> ths !! t = Some pc -> lock_asserts cx = true -> rec_allowed pc c ->
  exists m' pc', rec_exec cx m (Z.of_nat t) pc c [] = Return (m', pc') /\ rec_inv (m', <[t := pc']> ths).
Proof.
  intros Hi Ht Hcx Ha. destruct (inside pc) eqn:Hp; [|by apply rec_outside_step].
  destruct Hi as [(Ho & _)|(u & x & Hu & Hx & Hf & Ho)]; [rewrite (Ho t pc Ht) in Hp; done|].
  assert (u = t) as -> by (destruct (decide (t = u)) as [->|Hne]; [done|]; rewrite (Ho t pc Ht Hne) in Hp; done).
  rewrite Ht in Hu. injection Hu as <-. by apply rec_inside_step.
Qed.

Lemma rec_reachable_inv n s : rec_reachable n s -> rec_inv s.
Proof.
  intros Hr. assert (Hi : rec_inv (rec_init n)).
  { left. split; [|done]. intros t pc [-> _]%lookup_replicate. done. }
  unfold rec_reachable in Hr. remember (rec_init n) as s0. clear Heqs0.
  induction Hr as [|x y z Hs Hr IH]; [done|]. apply IH.
  destruct Hs as [cx m ths t pc c m' pc' Ht Hcx Ha He].
  destruct (rec_step_fine cx m ths t pc c Hi Ht Hcx Ha) as (m2 & pc2 & He2 & Hi2). congruence.
Qed.

(** ** Properties *)

(** C40. Recursive mutexes: in every reachable state no allowed call panics or
    fails an assertion (the owner assertions, the zero checks of the counter and
    the state check of the inner unlock included), at most one thread is inside,
    and a thread that made [n] nested locks is the recorded owner and reads depth
    [n]. *)
Theorem recursive_mutex_correct n m ths :
  rec_reachable n (m, ths) ->
  (forall cx t pc c, ths !! t = Some pc -> lock_asserts cx = true -> rec_allowed pc c ->
     rec_exec cx m (Z.of_nat t) pc c [] ≠ Panic) /\
  (forall t u pc pc', ths !! t = Some pc -> ths !! u = Some pc' ->
     inside pc = true -> inside pc' = true -> t = u) /\
  (forall cx t k, ths !! t = Some (RHolds k) -> have_no_spinlock cx = true ->
     mutex_get_recursive_lock_depth cx m (Z.of_nat t) = Return (Z.of_nat k)).
Proof.
  intros Hi%rec_reachable_inv. split; [|split].
  - intros cx t pc c Ht Hcx Ha. destruct (rec_step_fine cx m ths t pc c Hi Ht Hcx Ha) as (? & ? & -> & _).
    done.
  - intros t u pc pc' Ht Hu Hp Hp'. destruct Hi as [(Ho & _)|(v & x & Hv & Hx & _ & Ho)].
    + rewrite (Ho t pc Ht) in Hp. done.
    + destruct (decide (t = v)) as [->|Hn1]; [|rewrite (Ho t pc Ht Hn1) in Hp; done].
      destruct (decide (u = v)) as [->|Hn2]; [done|rewrite (Ho u pc' Hu Hn2) in Hp'; done].
  - intros cx t k Ht Hcx. destruct Hi as [(Ho & _)|(v & x & Hv & Hx & [_ Hf] & Ho)].
    + specialize (Ho t _ Ht). done.
    + assert (v = t) as -> by (destruct (decide (t = v)) as [->|Hne]; [done|]; specialize (Ho t _ Ht Hne); done).
      rewrite Ht in Hv. injection Hv as <-. destruct Hf as (Hw & Hd & _).
      unfold mutex_get_recursive_lock_depth. by rewrite Hcx, Hw, Hd, Z.eqb_refl.
Qed.

Lemma recursive_mutex_correct_witness :
  mutex_get_recursive_lock_depth demo_ctx (mk_rmutex (mk_mutex [] (-1)) 0 2) 0 = Return 2.
Proof.
  refine (proj2 (proj2 (recursive_mutex_correct 1 (mk_rmutex (mk_mutex [] (-1)) 0 2) [RHolds 2] _))
    demo_ctx 0%nat 2%nat eq_refl eq_refl).
  eapply rtc_l; [eapply (rec_step_intro demo_ctx _ _ 0%nat ROutside RLock _ RLocking); [reflexivity|reflexivity|done|reflexivity]|].
  eapply rtc_l; [eapply (rec_step_intro demo_ctx _ _ 0%nat RLocking RGo _ RLocked); [reflexivity|reflexivity|done|reflexivity]|].
  eapply rtc_l; [eapply (rec_step_intro demo_ctx _ _ 0%nat RLocked RGo _ ROwned); [reflexivity|reflexivity|done|reflexivity]|].
  eapply rtc_l; [eapply (rec_step_intro demo_ctx _ _ 0%nat ROwned RGo _ (RHolds 1)); [reflexivity|reflexivity|done|reflexivity]|].
  eapply rtc_l; [eapply (rec_step_intro demo_ctx _ _ 0%nat (RHolds 1) RLock _ (RHolds 2)); [reflexivity|reflexivity|done|reflexivity]|].
  apply rtc_refl.
Defined.
