(* ===== verification/LockdepGraph.v ===== *)
(** * Lock dependency graph: [core/kernel/lockdep.c]

    The graph records which lock was taken while which other was held. Nodes are
    identified by their [lock_id] (one node per id is an invariant); flags are
    kept in the nodes as in the source. This file has the graph, the insertions,
    the removal of a node and the depth-first search that decides whether the
    graph is a DAG, with its correctness. *)

From stdpp Require Import base gmap list relations.
From Stdlib Require Import ZArith Lia.
From S2P Require Import Prelude.

Local Open Scope Z_scope.

(** ** Data *)

Definition LOCKDEP_NODE_TEMP_MARK : Z := BIT 0.
Definition LOCKDEP_NODE_PERM_MARK : Z := BIT 1.
Definition LOCKDEP_NODE_BFS_VISITED : Z := BIT 2.

(** A call stack is NULL or a zero-terminated array, without its terminator. *)
Definition call_stack := option (list Z).

Record lockdep_edge := mk_edge {
  e_to : Z;
  e_thread_id : Z;
  e_call_stack_from : call_stack;
  e_call_stack_to : call_stack
}.

Record lockdep_node := mk_node {
  n_lock_id : Z;
  n_edges : list lockdep_edge;
  n_flags : Z
}.

Notation graph := (list lockdep_node).

Record lockdep_lock := mk_lock {
  l_node : Z;
  l_call_stack : call_stack
}.

(** The answers of the allocator, in order; when the list is used up it
    succeeds. *)
Definition heap := list bool.
Definition alloc (h : heap) : bool * heap := match h with [] => (true, []) | b :: h => (b, h) end.

(** ** Access by id *)

Fixpoint find_node (g : graph) (id : Z) : option lockdep_node :=
  match g with
  | [] => None
  | n :: g => if n_lock_id n =? id then Some n else find_node g id
  end.

Definition node_flags (g : graph) (id : Z) : Z :=
  match find_node g id with Some n => n_flags n | None => 0 end.
Definition node_edges (g : graph) (id : Z) : list lockdep_edge :=
  match find_node g id with Some n => n_edges n | None => [] end.

Definition map_node (f : lockdep_node -> lockdep_node) (id : Z) (g : graph) : graph :=
  map (fun n => if n_lock_id n =? id then f n else n) g.

Definition or_flags (g : graph) (id m : Z) : graph :=
  map_node (fun n => mk_node (n_lock_id n) (n_edges n) (Z.lor (n_flags n) m)) id g.

(** ** Operations *)

(** Returns the graph and whether the node is there. *)
Definition lockdep_add_to_graph (g : graph) (lock_id : Z) (h : heap) : graph * bool * heap :=
  match find_node g lock_id with
  | Some _ => (g, true, h)
  | None =>
      let '(ok, h) := alloc h in
      if ok then (g ++ [mk_node lock_id [] 0], true, h) else (g, false, h)
  end.

Definition dup_call_stack (stack : call_stack) (h : heap) : call_stack * heap :=
  match stack with
  | None => (None, h)
  | Some _ => let '(ok, h) := alloc h in if ok then (stack, h) else (None, h)
  end.

Definition lockdep_add_edge (g : graph) (from to : Z) (call_stack_from call_stack_to : call_stack)
    (thread_id : Z) (h : heap) : graph * Z * heap :=
  if existsb (fun e => e_to e =? to) (node_edges g from) then (g, TEE_SUCCESS, h)
  else
    let '(ok, h) := alloc h in
    if negb ok then (g, TEE_ERROR_OUT_OF_MEMORY, h)
    else
      let '(sf, h) := dup_call_stack call_stack_from h in
      let '(st, h) := dup_call_stack call_stack_to h in
      (map_node (fun n => mk_node (n_lock_id n) (n_edges n ++ [mk_edge to thread_id sf st]) (n_flags n)) from g,
       TEE_SUCCESS, h).

(** The recursion follows edges and stops at marked nodes, so it is never
    deeper than there are nodes. *)
Fixpoint lockdep_visit (fuel : nat) (g : graph) (node : Z) : option (graph * Z) :=
  match fuel with
  | O => None
  | S fuel =>
      let flags := node_flags g node in
      if has_flag flags LOCKDEP_NODE_PERM_MARK then Some (g, TEE_SUCCESS)
      else if has_flag flags LOCKDEP_NODE_TEMP_MARK then Some (g, TEE_ERROR_BAD_STATE)
      else
        let each := fix each (es : list lockdep_edge) (g : graph) : option (graph * Z) :=
          match es with
          | [] => Some (g, TEE_SUCCESS)
          | e :: es =>
              match lockdep_visit fuel g (e_to e) with
              | Some (g, res) => if res =? TEE_SUCCESS then each es g else Some (g, res)
              | None => None
              end
          end in
        match each (node_edges g node) (or_flags g node LOCKDEP_NODE_TEMP_MARK) with
        | Some (g, res) =>
            if res =? TEE_SUCCESS then Some (or_flags g node LOCKDEP_NODE_PERM_MARK, TEE_SUCCESS)
            else Some (g, res)
        | None => None
        end
  end.

Definition clear_flags (n : lockdep_node) : lockdep_node := mk_node (n_lock_id n) (n_edges n) 0.

Fixpoint sort_loop (fuel : nat) (ids : list Z) (g : graph) : option (graph * Z) :=
  match ids with
  | [] => Some (g, TEE_SUCCESS)
  | id :: ids =>
      if node_flags g id =? 0 then
        match lockdep_visit fuel g id with
        | Some (g, res) => if res =? TEE_SUCCESS then sort_loop fuel ids g else Some (g, res)
        | None => None
        end
      else sort_loop fuel ids g
  end.

Definition lockdep_graph_sort (g : graph) : option (graph * Z) :=
  match sort_loop (S (length g)) (map n_lock_id g) g with
  | Some (g, res) =>
      if res =? TEE_SUCCESS then Some (map clear_flags g, TEE_SUCCESS) else Some (g, res)
  | None => None
  end.

Fixpoint find_edge_to (es : list lockdep_edge) (to : Z) : option lockdep_edge :=
  match es with
  | [] => None
  | e :: es => if e_to e =? to then Some e else find_edge_to es to
  end.

(** The search continues with the next node when the edge is not found. *)
Fixpoint lockdep_find_edge (g : graph) (from to : Z) : option lockdep_edge :=
  match g with
  | [] => None
  | n :: g =>
      if n_lock_id n =? from then
        match find_edge_to (n_edges n) to with
        | Some e => Some e
        | None => lockdep_find_edge g from to
        end
      else lockdep_find_edge g from to
  end.

(** [lockdep_node_destroy]: the leading edges to the node go first... *)
Fixpoint drop_leading (es : list lockdep_edge) (node : Z) : list lockdep_edge :=
  match es with
  | [] => []
  | e :: es' => if e_to e =? node then drop_leading es' node else es
  end.

(** ... then, behind the kept [edge], the others one at a time. *)
Fixpoint drop_after (edge : lockdep_edge) (es : list lockdep_edge) (node : Z) : list lockdep_edge :=
  match es with
  | [] => [edge]
  | next :: es => if e_to next =? node then drop_after edge es node else edge :: drop_after next es node
  end.

Definition drop_edges (es : list lockdep_edge) (node : Z) : list lockdep_edge :=
  match drop_leading es node with
  | [] => []
  | edge :: es => drop_after edge es node
  end.

Fixpoint remove_node (g : graph) (id : Z) : graph :=
  match g with
  | [] => []
  | n :: g => if n_lock_id n =? id then g else n :: remove_node g id
  end.

Definition lockdep_node_destroy (g : graph) (node : Z) : graph :=
  map (fun from => mk_node (n_lock_id from) (drop_edges (n_edges from) node) (n_flags from))
      (remove_node g node).

Definition lockdep_lock_destroy (g : graph) (lock_id : Z) : graph :=
  match find_node g lock_id with
  | Some n => lockdep_node_destroy g (n_lock_id n)
  | None => g
  end.

Definition lockdep_graph_delete (g : graph) : graph := [].

(** ** The relation the graph stands for *)

Definition edge_rel (g : graph) (x y : Z) : Prop := y ∈ e_to <$> node_edges g x.

Definition acyclic (g : graph) : Prop := forall x, ~ tc (edge_rel g) x x.

Definition ids (g : graph) : list Z := n_lock_id <$> g.

(** One node per id, and edges end in the graph. *)
Definition graph_wf (g : graph) : Prop :=
  NoDup (ids g) /\ forall x y, edge_rel g x y -> y ∈ ids g.

Definition flags_clear (g : graph) : Prop := forall n, n ∈ g -> n_flags n = 0.

(** ** Lemmas: access *)

Lemma find_node_in g id n : find_node g id = Some n -> n ∈ g /\ n_lock_id n = id.
Proof.
  induction g as [|x g IH]; simpl; [done|]. destruct (Z.eqb_spec (n_lock_id x) id).
  - intros [= <-]. set_solver.
  - intros [? ?]%IH. set_solver.
Qed.

Lemma find_node_ids g id : is_Some (find_node g id) <-> id ∈ ids g.
Proof.
  induction g as [|x g IH]; simpl; [split; [intros [? ?]; done|set_solver]|].
  destruct (Z.eqb_spec (n_lock_id x) id) as [->|Hne]; [split; [set_solver|eauto]|].
  rewrite IH. set_solver.
Qed.

Lemma find_node_None g id : find_node g id = None <-> id ∉ ids g.
Proof. rewrite eq_None_not_Some. by rewrite find_node_ids. Qed.

Lemma find_node_map f id id' g :
  (forall n, n_lock_id (f n) = n_lock_id n) ->
  find_node (map_node f id g) id' = if id' =? id then f <$> find_node g id' else find_node g id'.
Proof.
  intros Hf. induction g as [|x g IH]; simpl; [by destruct (id' =? id)|].
  destruct (Z.eqb_spec (n_lock_id x) id) as [Hx|Hx]; rewrite ?Hf.
  - destruct (Z.eqb_spec (n_lock_id x) id') as [E|E], (Z.eqb_spec id' id) as [E'|E']; [done|by destruct E'; rewrite <- E|by destruct E; rewrite E'|done].
  - rewrite IH. destruct (Z.eqb_spec (n_lock_id x) id'), (Z.eqb_spec id' id); congruence.
Qed.

Lemma ids_map f id g : (forall n, n_lock_id (f n) = n_lock_id n) -> ids (map_node f id g) = ids g.
Proof.
  intros Hf. unfold ids, map_node. induction g as [|x g IH]; simpl; [done|].
  f_equal; [|done]. by destruct (n_lock_id x =? id).
Qed.

Lemma ids_or_flags g id m : ids (or_flags g id m) = ids g.
Proof. by apply ids_map. Qed.

Lemma edges_or_flags g id m x : node_edges (or_flags g id m) x = node_edges g x.
Proof.
  unfold node_edges, or_flags. rewrite find_node_map by done.
  destruct (x =? id); [|done]. by destruct (find_node g x).
Qed.

Lemma flags_or_flags g id m x :
  id ∈ ids g ->
  node_flags (or_flags g id m) x = if x =? id then Z.lor (node_flags g x) m else node_flags g x.
Proof.
  intros [n Hn]%find_node_ids. unfold node_flags, or_flags. rewrite find_node_map by done.
  destruct (Z.eqb_spec x id) as [->|]; [|done]. by rewrite Hn.
Qed.

Lemma node_edges_in g x e : e ∈ node_edges g x -> x ∈ ids g.
Proof.
  unfold node_edges. destruct (find_node g x) eqn:Hf; [|set_solver].
  intros _. apply find_node_ids. eauto.
Qed.

Lemma edge_rel_source g x y : edge_rel g x y -> x ∈ ids g.
Proof.
  unfold edge_rel. intros (e & _ & He)%list_elem_of_fmap. by eapply node_edges_in.
Qed.

(** ** Depth-first search *)

Definition strip (g : graph) : graph := map clear_flags g.

Lemma ids_strip g : ids (strip g) = ids g.
Proof. unfold ids, strip. rewrite <- (list_fmap_compose clear_flags n_lock_id). done. Qed.

Lemma edges_strip g x : node_edges (strip g) x = node_edges g x.
Proof.
  unfold node_edges, strip. induction g as [|n g IH]; simpl; [done|].
  by destruct (n_lock_id n =? x).
Qed.

Lemma strip_or_flags g id m : strip (or_flags g id m) = strip g.
Proof.
  unfold strip, or_flags, map_node. induction g as [|n g IH]; simpl; [done|].
  f_equal; [|done]. by destruct (n_lock_id n =? id).
Qed.

Lemma strip_clear g : flags_clear g -> strip g = g.
Proof.
  unfold flags_clear, strip. induction g as [|n g IH]; simpl; [done|]. intros Hc. f_equal.
  - specialize (Hc n). destruct n as [i e f]. simpl in *. unfold clear_flags. simpl.
    by rewrite Hc by set_solver.
  - apply IH. set_solver.
Qed.

Lemma flags_clear_node g x : flags_clear g -> node_flags g x = 0.
Proof.
  intros Hc. unfold node_flags. destruct (find_node g x) as [n|] eqn:Hn; [|done].
  apply find_node_in in Hn as [Hn _]. by apply Hc.
Qed.

Lemma strip_flags_clear g : flags_clear (strip g).
Proof. intros n (m & -> & _)%list_elem_of_fmap. done. Qed.

Definition same_graph (g g' : graph) : Prop := strip g' = strip g.

Lemma same_graph_ids g g' : same_graph g g' -> ids g' = ids g.
Proof. intros H. by rewrite <- (ids_strip g'), H, ids_strip. Qed.

Lemma same_graph_edges g g' x : same_graph g g' -> node_edges g' x = node_edges g x.
Proof. intros H. by rewrite <- (edges_strip g'), H, edges_strip. Qed.

#[global] Instance same_graph_equiv : Equivalence same_graph.
Proof.
  unfold same_graph. split; [intros g|intros g g'|intros g1 g2 g3]; [done|congruence|congruence].
Qed.

Lemma same_graph_rel g g' x y : same_graph g g' -> edge_rel g' x y <-> edge_rel g x y.
Proof. intros H. unfold edge_rel. by rewrite (same_graph_edges _ _ _ H). Qed.

Definition white (g : graph) (x : Z) : Prop := node_flags g x = 0.
Definition grey (g : graph) (x : Z) : Prop := node_flags g x = 1.
Definition black (g : graph) (x : Z) : Prop := node_flags g x = 3.

Definition white_count (g : graph) : nat := length (filter (fun x => node_flags g x = 0) (ids g)).

Section dfs.
(** [E] is the relation of the graph being searched, which the search does not
    change. *)
Context (g0 : graph) (Hwf : graph_wf g0).
Notation E := (edge_rel g0).

Record dfs_inv (g : graph) : Prop := {
  di_same : same_graph g0 g;
  di_flags : forall x, white g x \/ grey g x \/ black g x;
  di_closed : forall x y, black g x -> E x y -> black g y;
  di_acyclic : forall x, black g x -> ~ tc E x x
}.

Lemma dfs_in g x : dfs_inv g -> x ∈ ids g0 -> x ∈ ids g.
Proof. intros Hi. by rewrite (same_graph_ids _ _ (di_same g Hi)). Qed.

Lemma mark_flags g n m x :
  dfs_inv g -> n ∈ ids g0 ->
  node_flags (or_flags g n m) x = if x =? n then Z.lor (node_flags g x) m else node_flags g x.
Proof. intros Hi Hn. apply flags_or_flags. by apply dfs_in. Qed.

Lemma filter_length_lt (P Q : Z -> Prop) `{!forall x, Decision (P x), !forall x, Decision (Q x)} l n :
  (forall x, P x -> Q x) -> n ∈ l -> Q n -> ~ P n ->
  (length (filter P l) < length (filter Q l))%nat.
Proof.
  intros HPQ Hn HQ HP. assert (Hle : forall l, (length (filter P l) <= length (filter Q l))%nat).
  { clear -HPQ. intros l. induction l as [|x l IH]; [done|]. rewrite !filter_cons.
    destruct (decide (P x)), (decide (Q x)); simpl; try lia. naive_solver. }
  induction l as [|x l IH]; [set_solver|]. rewrite !filter_cons.
  apply elem_of_cons in Hn as [->|Hn].
  - rewrite decide_False, decide_True by done. simpl. specialize (Hle l). lia.
  - specialize (IH Hn). destruct (decide (P x)), (decide (Q x)); simpl; try lia. naive_solver.
Qed.

Lemma filter_length_le (P Q : Z -> Prop) `{!forall x, Decision (P x), !forall x, Decision (Q x)} l :
  (forall x, P x -> Q x) -> (length (filter P l) <= length (filter Q l))%nat.
Proof.
  intros HPQ. induction l as [|x l IH]; [done|]. rewrite !filter_cons.
  destruct (decide (P x)), (decide (Q x)); simpl; try lia. naive_solver.
Qed.

(** Marking a white node grey. *)
Lemma mark_temp g n :
  dfs_inv g -> n ∈ ids g0 -> white g n ->
  let g1 := or_flags g n LOCKDEP_NODE_TEMP_MARK in
  dfs_inv g1 /\ grey g1 n /\ (white_count g1 < white_count g)%nat /\
  (forall x, x ≠ n -> node_flags g1 x = node_flags g x).
Proof.
  intros Hi Hn Hw. cbv zeta. set (g1 := or_flags g n LOCKDEP_NODE_TEMP_MARK).
  assert (Hfl : forall x, node_flags g1 x = if x =? n then 1 else node_flags g x).
  { intros x. unfold g1. rewrite mark_flags by done. destruct (Z.eqb_spec x n) as [->|]; [|done].
    unfold white in Hw. by rewrite Hw. }
  assert (Hb : forall x, black g1 x -> black g x).
  { intros x. unfold black. rewrite Hfl. destruct (x =? n); [lia|done]. }
  split; [|split; [|split]].
  - constructor.
    + unfold same_graph, g1. rewrite strip_or_flags. apply Hi.
    + intros x. unfold white, grey, black. rewrite Hfl. destruct (x =? n); [lia|apply (di_flags g Hi)].
    + intros x y Hx%Hb Hxy. pose proof (di_closed g Hi x y Hx Hxy) as Hy.
      unfold black in *. rewrite Hfl. destruct (Z.eqb_spec y n) as [->|]; [|done].
      unfold white in Hw. lia.
    + intros x Hx%Hb. by apply (di_acyclic g Hi).
  - unfold grey. by rewrite Hfl, Z.eqb_refl.
  - unfold white_count. assert (ids g1 = ids g) as -> by apply ids_or_flags. apply (filter_length_lt _ _ _ n).
    + intros x. rewrite (Hfl x). by destruct (x =? n).
    + by apply dfs_in.
    + done.
    + rewrite (Hfl n), Z.eqb_refl. done.
  - intros x Hx. rewrite Hfl. by destruct (Z.eqb_spec x n).
Qed.

(** Everything reachable from a closed set stays in it. *)
Lemma closed_reach (P : Z -> Prop) x y :
  (forall a b, P a -> E a b -> P b) -> P x -> tc E x y -> P y.
Proof. intros Hc Hx Ht. induction Ht; eauto. Qed.

(** A grey node whose successors are all black can be made black. *)
Lemma mark_perm g n :
  dfs_inv g -> n ∈ ids g0 -> grey g n -> (forall y, E n y -> black g y) ->
  let g1 := or_flags g n LOCKDEP_NODE_PERM_MARK in
  dfs_inv g1 /\ black g1 n /\ (white_count g1 <= white_count g)%nat /\
  (forall x, x ≠ n -> node_flags g1 x = node_flags g x).
Proof.
  intros Hi Hn Hg Hs. cbv zeta. set (g1 := or_flags g n LOCKDEP_NODE_PERM_MARK).
  assert (Hfl : forall x, node_flags g1 x = if x =? n then 3 else node_flags g x).
  { intros x. unfold g1. rewrite mark_flags by done. destruct (Z.eqb_spec x n) as [->|]; [|done].
    unfold grey in Hg. by rewrite Hg. }
  assert (Hb : forall x, black g x -> black g1 x).
  { intros x. unfold black. rewrite Hfl. by destruct (x =? n). }
  assert (Hb' : forall x, black g1 x -> x = n \/ black g x).
  { intros x. unfold black. rewrite Hfl. destruct (Z.eqb_spec x n); auto. }
  split; [|split; [|split]].
  - constructor.
    + unfold same_graph, g1. rewrite strip_or_flags. apply Hi.
    + intros x. unfold white, grey, black. rewrite Hfl. destruct (x =? n); [lia|apply (di_flags g Hi)].
    + intros x y [->|Hx]%Hb' Hxy; apply Hb; [by apply Hs|by eapply (di_closed g Hi)].
    + intros x [->|Hx]%Hb' Ht; [|by apply (di_acyclic g Hi x)].
      assert (exists y, E n y /\ (y = n \/ tc E y n)) as (y & Hy & Hyn) by (inversion Ht; eauto).
      assert (black g n); [|unfold black, grey in *; lia].
      destruct Hyn as [->|Hyn]; [by apply Hs|].
      eapply (closed_reach (black g)); [apply (di_closed g Hi)|by apply Hs|done].
  - unfold black. by rewrite Hfl, Z.eqb_refl.
  - unfold white_count. assert (ids g1 = ids g) as -> by apply ids_or_flags. apply filter_length_le.
    intros x. rewrite (Hfl x). by destruct (x =? n).
  - intros x Hx. rewrite Hfl. by destruct (Z.eqb_spec x n).
Qed.

(** What a search leaves behind: on success the node is black and the grey
    nodes are the same; a failure is a real cycle. *)
Definition searched (g : graph) : Prop :=
  same_graph g0 g /\ forall x, white g x \/ grey g x \/ black g x.

Lemma dfs_searched g : dfs_inv g -> searched g.
Proof. intros Hi. split; apply Hi. Qed.

Definition visit_post (g : graph) (P : graph -> Prop) (r : option (graph * Z)) : Prop :=
  exists g' res, r = Some (g', res) /\ searched g' /\
    ((res = TEE_SUCCESS /\ dfs_inv g' /\ P g' /\
      (forall x, grey g' x <-> grey g x) /\ (forall x, black g x -> black g' x) /\
      (white_count g' <= white_count g)%nat) \/
     (res = TEE_ERROR_BAD_STATE /\ exists x, tc E x x)).

Definition visit_edges (fuel : nat) := fix each (es : list lockdep_edge) (g : graph) : option (graph * Z) :=
  match es with
  | [] => Some (g, TEE_SUCCESS)
  | e :: es =>
      match lockdep_visit fuel g (e_to e) with
      | Some (g, res) => if res =? TEE_SUCCESS then each es g else Some (g, res)
      | None => None
      end
  end.

Lemma visit_edges_spec fuel n es g :
  (forall g m, dfs_inv g -> m ∈ ids g0 -> (forall x, grey g x -> tc E x m) ->
     (white_count g < fuel)%nat -> visit_post g (fun g' => black g' m) (lockdep_visit fuel g m)) ->
  dfs_inv g -> (forall e, e ∈ es -> E n (e_to e)) ->
  (forall x, grey g x -> x = n \/ tc E x n) -> (white_count g < fuel)%nat ->
  visit_post g (fun g' => forall e, e ∈ es -> black g' (e_to e)) (visit_edges fuel es g).
Proof.
  intros Hv. revert g. induction es as [|e es IH]; intros g Hi He Hg Hc; simpl.
  - exists g, TEE_SUCCESS. split; [done|]. split; [by apply dfs_searched|]. left. set_solver.
  - assert (Hne : E n (e_to e)) by (apply He; set_solver).
    destruct (Hv g (e_to e)) as (g1 & r1 & -> & Hs1 & Hr1); [done|by eapply Hwf| |done|].
    { intros x [->|Hx]%Hg; [by apply tc_once|]. eapply tc_r; eauto. }
    destruct Hr1 as [(-> & Hi1 & Hb1 & Hg1 & Hbb1 & Hc1)|(-> & Hcyc)]; simpl.
    + destruct (IH g1) as (g2 & r2 & -> & Hs2 & Hr2); [done|set_solver|by setoid_rewrite Hg1|lia|].
      exists g2, r2. split; [done|]. split; [done|].
      destruct Hr2 as [(-> & Hi2 & Hb2 & Hg2 & Hbb2 & Hc2)|(-> & Hcyc)]; [left|by right].
      split; [done|]. split; [done|]. split; [intros x [->|Hx]%elem_of_cons; auto|].
      split; [intros x; by rewrite Hg2|]. split; [auto|lia].
    + exists g1, TEE_ERROR_BAD_STATE. split; [done|]. split; [done|]. by right.
Qed.

Lemma lockdep_visit_spec fuel g n :
  dfs_inv g -> n ∈ ids g0 -> (forall x, grey g x -> tc E x n) ->
  (white_count g < fuel)%nat ->
  visit_post g (fun g' => black g' n) (lockdep_visit fuel g n).
Proof.
  revert g n. induction fuel as [|fuel IH]; intros g n Hi Hn Hg Hc; [lia|].
  cbn [lockdep_visit]. fold (visit_edges fuel).
  destruct (di_flags g Hi n) as [Hw|[Hgr|Hb]].
  - unfold white in Hw. rewrite Hw. change (has_flag 0 LOCKDEP_NODE_PERM_MARK) with false.
    change (has_flag 0 LOCKDEP_NODE_TEMP_MARK) with false. cbn [negb].
    destruct (mark_temp g n Hi Hn Hw) as (Hi1 & Hg1 & Hc1 & Ho1).
    set (g1 := or_flags g n LOCKDEP_NODE_TEMP_MARK) in *.
    assert (Hedges : node_edges g n = node_edges g0 n) by (apply same_graph_edges, Hi).
    destruct (visit_edges_spec fuel n (node_edges g n) g1 IH Hi1) as (g2 & r2 & Hr & Hs2 & Hr2).
    { intros e He. rewrite Hedges in He. unfold edge_rel. by apply list_elem_of_fmap_2. }
    { intros x Hx. destruct (decide (x = n)) as [->|Hne]; [by left|]. right. apply Hg.
      unfold grey in *. by rewrite <- Ho1. }
    { lia. }
    rewrite Hr. destruct Hr2 as [(-> & Hi2 & Hb2 & Hg2 & Hbb2 & Hc2)|(-> & Hcyc)]; cbn -[or_flags].
    + destruct (mark_perm g2 n Hi2 Hn) as (Hi3 & Hb3 & Hc3 & Ho3).
      { by apply Hg2. }
      { intros y Hy. unfold edge_rel in Hy. apply list_elem_of_fmap in Hy as (e & -> & He).
        apply Hb2. by rewrite Hedges. }
      eexists _, _. split; [done|]. split; [by apply dfs_searched|]. left. split; [done|]. split; [done|]. split; [done|].
      split; [|split; [|lia]].
      * intros x. destruct (decide (x = n)) as [->|Hne].
        { unfold grey, black in *. lia. }
        unfold grey in *. rewrite Ho3 by done. rewrite Hg2. by rewrite Ho1.
      * intros x Hx. destruct (decide (x = n)) as [->|Hne]; [done|].
        unfold black. rewrite Ho3 by done. apply Hbb2. unfold black. by rewrite Ho1.
    + exists g2, TEE_ERROR_BAD_STATE. split; [done|]. split; [done|]. by right.
  - unfold grey in Hgr. rewrite Hgr. change (has_flag 1 LOCKDEP_NODE_PERM_MARK) with false.
    change (has_flag 1 LOCKDEP_NODE_TEMP_MARK) with true. cbv iota.
    exists g, TEE_ERROR_BAD_STATE. split; [done|]. split; [by apply dfs_searched|]. right. split; [done|].
    exists n. by apply Hg.
  - unfold black in Hb. rewrite Hb. change (has_flag 3 LOCKDEP_NODE_PERM_MARK) with true. cbv iota.
    exists g, TEE_SUCCESS. split; [done|]. split; [by apply dfs_searched|]. left. done.
Qed.

Lemma sort_loop_spec fuel l g :
  dfs_inv g -> (forall x, ~ grey g x) -> (forall x, x ∈ l -> x ∈ ids g0) ->
  (white_count g < fuel)%nat ->
  visit_post g (fun g' => forall x, x ∈ l -> black g' x) (sort_loop fuel l g).
Proof.
  revert g. induction l as [|n l IH]; intros g Hi Hg Hl Hc; simpl.
  - exists g, TEE_SUCCESS. split; [done|]. split; [by apply dfs_searched|]. left. set_solver.
  - destruct (Z.eqb_spec (node_flags g n) 0) as [Hw|Hw].
    + destruct (lockdep_visit_spec fuel g n) as (g1 & r1 & -> & Hs1 & Hr1); [done|set_solver| |done|].
      { intros x Hx. by apply Hg in Hx. }
      destruct Hr1 as [(-> & Hi1 & Hb1 & Hg1 & Hbb1 & Hc1)|(-> & Hcyc)]; simpl.
      * destruct (IH g1) as (g2 & r2 & -> & Hs2 & Hr2); [done| |set_solver|lia|].
        { intros x. rewrite Hg1. apply Hg. }
        exists g2, r2. split; [done|]. split; [done|].
        destruct Hr2 as [(-> & Hi2 & Hb2 & Hg2 & Hbb2 & Hc2)|(-> & Hcyc)]; [left|by right].
        split; [done|]. split; [done|]. split; [intros x [->|Hx]%elem_of_cons; auto|].
        split; [intros x; by rewrite Hg2|]. split; [auto|lia].
      * exists g1, TEE_ERROR_BAD_STATE. split; [done|]. split; [done|]. by right.
    + destruct (IH g) as (g2 & r2 & -> & Hs2 & Hr2); [done|done|set_solver|done|].
      exists g2, r2. split; [done|]. split; [done|].
      destruct Hr2 as [(-> & Hi2 & Hb2 & Hg2 & Hbb2 & Hc2)|(-> & Hcyc)]; [left|by right].
      split; [done|]. split; [done|]. split; [|done]. intros x [->|Hx]%elem_of_cons; [|auto].
      apply Hbb2. destruct (di_flags g Hi n) as [?|[?|?]]; [done|by apply Hg in H|done].
Qed.
End dfs.

(** ** The sort, as the other components use it *)

Lemma lockdep_graph_sort_spec g :
  graph_wf g -> flags_clear g ->
  (acyclic g /\ lockdep_graph_sort g = Some (g, TEE_SUCCESS)) \/
  ((exists x, tc (edge_rel g) x x) /\ exists g', searched g g' /\ lockdep_graph_sort g = Some (g', TEE_ERROR_BAD_STATE)).
Proof.
  intros Hwf Hc. unfold lockdep_graph_sort.
  assert (Hi : dfs_inv g g).
  { constructor; unfold white, grey, black; try done.
    - intros x. left. by apply flags_clear_node.
    - intros x y Hx. rewrite flags_clear_node in Hx by done. done.
    - intros x Hx. rewrite flags_clear_node in Hx by done. done. }
  destruct (sort_loop_spec g Hwf (S (length g)) (map n_lock_id g) g Hi) as (g' & r & -> & Hs & Hr).
  - intros x. unfold grey. by rewrite flags_clear_node.
  - done.
  - unfold white_count, ids. pose proof (length_filter (fun x => node_flags g x = 0) (n_lock_id <$> g)).
    rewrite length_fmap in H. lia.
  - destruct Hr as [(-> & Hi' & Hb & _)|(-> & x & Hx)]; simpl.
    + left. split.
      * intros x Hx. apply (di_acyclic _ _ Hi' x); [|done]. apply Hb.
        assert (exists y, edge_rel g x y) as [y Hy] by (inversion Hx; eauto).
        by apply edge_rel_source in Hy.
      * destruct Hs as [Hs _]. unfold same_graph, strip in Hs. rewrite Hs. fold (strip g). by rewrite strip_clear.
    + right. eauto.
Qed.

(** ** Lemmas: how the operations change the relation *)

Lemma edges_app_new g id x : node_edges (g ++ [mk_node id [] 0]) x = node_edges g x.
Proof.
  unfold node_edges. induction g as [|n g IH]; simpl; [by destruct (id =? x)|].
  by destruct (n_lock_id n =? x).
Qed.

Lemma add_to_graph_spec g id h g' ok h' :
  lockdep_add_to_graph g id h = (g', ok, h') -> graph_wf g -> flags_clear g ->
  graph_wf g' /\ flags_clear g' /\ (forall x y, edge_rel g' x y <-> edge_rel g x y) /\
  (ok = true -> id ∈ ids g') /\ (forall x, x ∈ ids g -> x ∈ ids g').
Proof.
  unfold lockdep_add_to_graph. intros Ha [Hnd Hcl] Hfl.
  destruct (find_node g id) as [n|] eqn:Hf.
  - injection Ha as <- <- <-. split; [done|]. split; [done|]. split; [done|].
    split; [|done]. intros _. apply find_node_ids. eauto.
  - destruct (alloc h) as [[] h1]; injection Ha as <- <- <-.
    2: { split; [done|]. split; [done|]. done. }
    apply find_node_None in Hf.
    assert (Hrel : forall x y, edge_rel (g ++ [mk_node id [] 0]) x y <-> edge_rel g x y)
      by (intros; unfold edge_rel; by rewrite edges_app_new).
    assert (Hids : ids (g ++ [mk_node id [] 0]) = ids g ++ [id]) by (unfold ids; by rewrite fmap_app).
    split; [split|split; [|split; [done|]]].
    + rewrite Hids. apply NoDup_app. split; [done|]. split; [set_solver|apply NoDup_singleton].
    + intros x y Hy%Hrel%Hcl. rewrite Hids. set_solver.
    + intros n [Hn| ->%list_elem_of_singleton]%elem_of_app; [by apply Hfl|done].
    + rewrite Hids. set_solver.
Qed.

Lemma existsb_edge es to : existsb (fun e => e_to e =? to) es = true <-> to ∈ e_to <$> es.
Proof.
  rewrite existsb_exists, list_elem_of_fmap. split.
  - intros (e & He & Hto%Z.eqb_eq). exists e. split; [done|]. by apply list_elem_of_In.
  - intros (e & -> & He). exists e. split; [by apply list_elem_of_In|]. by apply Z.eqb_refl.
Qed.

Lemma add_edge_spec g from to sf st tid h g' res h' :
  lockdep_add_edge g from to sf st tid h = (g', res, h') ->
  graph_wf g -> flags_clear g -> from ∈ ids g -> to ∈ ids g ->
  graph_wf g' /\ flags_clear g' /\ ids g' = ids g /\
  ((res = TEE_SUCCESS /\ forall x y, edge_rel g' x y <-> edge_rel g x y \/ (x = from /\ y = to)) \/
   (res = TEE_ERROR_OUT_OF_MEMORY /\ g' = g)).
Proof.
  unfold lockdep_add_edge. intros Ha Hwf Hfl Hfrom Hto.
  destruct (existsb _ _) eqn:Hex.
  - injection Ha as <- <- <-. apply existsb_edge in Hex. repeat (split; [done|]). left. split; [done|].
    intros x y. split; [auto|]. intros [?|[-> ->]]; done.
  - destruct (alloc h) as [[] h1]; simpl in Ha.
    2: { injection Ha as <- <- <-. repeat (split; [done|]). by right. }
    destruct (dup_call_stack sf h1) as [sf' h2], (dup_call_stack st h2) as [st' h3].
    injection Ha as <- <- <-. set (f := fun n => mk_node _ _ _). 
    assert (Hids : ids (map_node f from g) = ids g) by (by apply ids_map).
    assert (Hrel : forall x y, edge_rel (map_node f from g) x y <-> edge_rel g x y \/ (x = from /\ y = to)).
    { intros x y. unfold edge_rel, node_edges. rewrite find_node_map by done.
      destruct (Z.eqb_spec x from) as [->|Hne].
      - apply find_node_ids in Hfrom as [n Hn]. rewrite Hn. simpl. rewrite fmap_app. simpl. set_solver.
      - destruct (find_node g x); set_solver. }
    split; [split|split; [|split; [done|by left]]].
    + rewrite Hids. apply Hwf.
    + intros x y [Hy|[-> ->]]%Hrel; rewrite Hids; [by eapply Hwf|done].
    + unfold flags_clear, map_node. intros n (m & -> & Hm)%list_elem_of_fmap.
      destruct (n_lock_id m =? from); simpl; by apply Hfl.
Qed.

Lemma drop_after_spec edge es node :
  e_to edge ≠ node -> drop_after edge es node = edge :: filter (fun e => e_to e ≠ node) es.
Proof.
  revert edge. induction es as [|e es IH]; intros edge Hne; simpl; [done|].
  rewrite filter_cons. destruct (Z.eqb_spec (e_to e) node) as [He|He].
  - rewrite decide_False by (intros Hx; done). by apply IH.
  - rewrite decide_True by done. by rewrite IH.
Qed.

(** Unlinking edge by edge is filtering. *)
Lemma drop_edges_spec es node : drop_edges es node = filter (fun e => e_to e ≠ node) es.
Proof.
  unfold drop_edges. induction es as [|e es IH]; simpl; [done|]. rewrite filter_cons.
  destruct (Z.eqb_spec (e_to e) node) as [He|He].
  - rewrite decide_False by (intros Hx; done). done.
  - rewrite decide_True by done. by rewrite drop_after_spec.
Qed.

Lemma find_remove g id x :
  NoDup (ids g) -> find_node (remove_node g id) x = if x =? id then None else find_node g x.
Proof.
  unfold ids. induction g as [|n g IH]; simpl; [by destruct (x =? id)|].
  intros [Hni Hnd]%NoDup_cons. destruct (Z.eqb_spec (n_lock_id n) id) as [Hn|Hn].
  - destruct (Z.eqb_spec x id) as [Hx|Hx].
    + apply find_node_None. by rewrite Hx, <- Hn.
    + destruct (Z.eqb_spec (n_lock_id n) x); [congruence|done].
  - simpl. rewrite IH by done. destruct (Z.eqb_spec (n_lock_id n) x), (Z.eqb_spec x id); congruence.
Qed.

Lemma ids_remove g id : NoDup (ids g) -> ids (remove_node g id) = filter (fun x => x ≠ id) (ids g).
Proof.
  unfold ids. induction g as [|n g IH]; simpl; [done|]. intros [Hni Hnd]%NoDup_cons.
  rewrite filter_cons. destruct (Z.eqb_spec (n_lock_id n) id) as [Hn|Hn].
  - rewrite decide_False by (intros Hx; done). rewrite filter_all; [done|].
    intros y Hy Hyi. by rewrite Hyi, <- Hn in Hy.
  - rewrite decide_True by done. by rewrite fmap_cons, IH.
Qed.

Lemma lock_destroy_spec g id :
  graph_wf g -> flags_clear g ->
  let g' := lockdep_lock_destroy g id in
  graph_wf g' /\ flags_clear g' /\ (forall x, x ∈ ids g' <-> x ∈ ids g /\ x ≠ id) /\
  (forall x y, edge_rel g' x y <-> edge_rel g x y /\ x ≠ id /\ y ≠ id).
Proof.
  intros [Hnd Hcl] Hfl. cbv zeta. unfold lockdep_lock_destroy.
  destruct (find_node g id) as [n|] eqn:Hf.
  - apply find_node_in in Hf as [Hn <-]. set (id := n_lock_id n). unfold lockdep_node_destroy.
    set (f := fun from => mk_node _ _ _).
    assert (Hids : ids (map f (remove_node g id)) = filter (fun x => x ≠ id) (ids g)).
    { rewrite <- ids_remove by done. unfold ids. rewrite <- (list_fmap_compose f n_lock_id). done. }
    assert (Hrel : forall x y, edge_rel (map f (remove_node g id)) x y <-> edge_rel g x y /\ x ≠ id /\ y ≠ id).
    { intros x y. unfold edge_rel, node_edges.
      assert (Hfm : forall l, find_node (map f l) x = f <$> find_node l x).
      { induction l as [|a l IH]; simpl; [done|]. by destruct (n_lock_id a =? x). }
      rewrite Hfm, find_remove by done. destruct (Z.eqb_spec x id) as [->|Hx]; simpl; [set_solver|].
      destruct (find_node g x) as [m|]; simpl; [|set_solver]. rewrite drop_edges_spec.
      rewrite !list_elem_of_fmap. setoid_rewrite list_elem_of_filter. naive_solver. }
    split; [split|split; [|split]].
    + rewrite Hids. by apply NoDup_filter.
    + intros x y (Hxy & Hx & Hy)%Hrel. rewrite Hids. apply list_elem_of_filter. eauto.
    + intros a (b & -> & Hb)%list_elem_of_fmap. simpl. apply Hfl.
      assert (Hsub : forall l, b ∈ remove_node l id -> b ∈ l).
      { induction l as [|c l IH]; simpl; [done|]. destruct (n_lock_id c =? id); set_solver. }
      by apply Hsub.
    + intros x. rewrite Hids, list_elem_of_filter. tauto.
    + exact Hrel.
  - apply find_node_None in Hf. split; [done|]. split; [done|]. split.
    + intros x. split; [|tauto]. intros Hx. split; [done|]. intros ->. done.
    + intros x y. split; [|tauto]. intros Hxy. split; [done|].
      split; intros ->; [by apply edge_rel_source in Hxy|by apply Hcl in Hxy].
Qed.

(** ** Properties *)

(** The cycle check: on a graph with one node per lock, no dangling edge
    and clear flags, [lockdep_graph_sort] terminates (recursion as deep as there
    are nodes is enough); it answers TEE_SUCCESS exactly when the graph has no
    cycle, and then leaves the graph with its flags as it was; otherwise it
    answers TEE_ERROR_BAD_STATE and has only touched flags. *)
Theorem lockdep_graph_sort_exact g :
  graph_wf g -> flags_clear g ->
  (lockdep_graph_sort g = Some (g, TEE_SUCCESS) <-> acyclic g) /\
  ((exists g', same_graph g g' /\ lockdep_graph_sort g = Some (g', TEE_ERROR_BAD_STATE)) <-> ~ acyclic g).
Proof.
  intros Hwf Hfl. destruct (lockdep_graph_sort_spec g Hwf Hfl) as [[Ha Hs]|[[x Hx] (g' & [Hg _] & Hs)]].
  - rewrite Hs. split; [done|]. split; [|done]. intros (g' & _ & [=]).
  - assert (Ha : ~ acyclic g) by (intros Ha; by apply (Ha x)).
    split; [|split; [done|eauto]]. split; [|done]. rewrite Hs. intros [=].
Qed.

Lemma lockdep_graph_sort_exact_witness :
  let g := [mk_node 1 [mk_edge 2 0 None None] 0; mk_node 2 [mk_edge 1 0 None None] 0] in
  ~ acyclic g.
Proof.
  cbv zeta. apply lockdep_graph_sort_exact.
  - split.
    + apply (bool_decide_unpack _). vm_compute. exact I.
    + intros x y Hxy. unfold edge_rel, node_edges in Hxy.
      cbn [find_node n_lock_id] in Hxy. destruct (1 =? x); [|destruct (2 =? x)]; simpl in Hxy.
      1,2: apply list_elem_of_singleton in Hxy as ->; repeat constructor.
      by apply not_elem_of_nil in Hxy.
  - intros n Hn. repeat (apply elem_of_cons in Hn as [->|Hn]; [reflexivity|]). by apply not_elem_of_nil in Hn.
  - exists [mk_node 1 [mk_edge 2 0 None None] 1; mk_node 2 [mk_edge 1 0 None None] 1].
    split; reflexivity.
Defined.
