(* ===== verification/Lockdep.v ===== *)
(** * Lock order validation: [core/kernel/lockdep.c], [core/kernel/mutex_lockdep.c]

    Acquire, try-acquire and release over the graph of [LockdepGraph], the
    breadth-first search that reports the shortest cycle, and the checks the
    mutex code makes, over one graph and one list of owned locks per thread. *)

From stdpp Require Import base gmap list relations sorting.
From Stdlib Require Import ZArith Lia.
From S2P Require Import Prelude LockdepGraph.

Local Open Scope Z_scope.

(** ** Shortest cycle

    A queue element is a node and the path that led to it. The returned path
    is NULL ([None]) or the zero-terminated array, without its terminator. *)

Inductive bfs_outcome :=
| BfsReturn (ret : option (list Z)) (g : graph) (h : heap)
| BfsNext (queue : list (Z * list Z)) (g : graph) (h : heap).

Fixpoint bfs_edges (start : Z) (path : list Z) (es : list lockdep_edge) (queue : list (Z * list Z))
    (g : graph) (h : heap) : bfs_outcome :=
  match es with
  | [] => BfsNext queue g h
  | e :: es =>
      if e_to e =? start then
        let '(ok, h) := alloc h in BfsReturn (if ok then Some path else None) g h
      else if negb (has_flag (node_flags g (e_to e)) LOCKDEP_NODE_BFS_VISITED) then
        let g := or_flags g (e_to e) LOCKDEP_NODE_BFS_VISITED in
        let '(ok, h) := alloc h in
        if negb ok then BfsReturn None g h
        else
          let '(ok, h) := alloc h in
          if negb ok then BfsReturn None g h
          else bfs_edges start path es (queue ++ [(e_to e, path ++ [e_to e])]) g h
      else bfs_edges start path es queue g h
  end.

(** A node enters the queue once, so one turn per node and one to see the queue
    empty are enough. *)
Fixpoint bfs_loop (fuel : nat) (start : Z) (queue : list (Z * list Z)) (g : graph) (h : heap)
    : option (option (list Z) * graph * heap) :=
  match fuel with
  | O => None
  | S fuel =>
      match queue with
      | [] => Some (None, g, h)
      | (n, path) :: queue =>
          match bfs_edges start path (node_edges g n) queue g h with
          | BfsReturn ret g h => Some (ret, g, h)
          | BfsNext queue g h => bfs_loop fuel start queue g h
          end
      end
  end.

Definition lockdep_graph_get_shortest_cycle (g : graph) (node : Z) (h : heap)
    : option (option (list Z) * graph * heap) :=
  let g := or_flags g node LOCKDEP_NODE_BFS_VISITED in
  let '(ok, h) := alloc h in
  if negb ok then Some (None, g, h)
  else
    let '(ok, h) := alloc h in
    if negb ok then Some (None, g, h)
    else bfs_loop (S (length g)) node [(node, [node])] g h.

(** [lockdep_print_cycle_info]: the edges whose information is printed, the
    closing one last. Panics when the assertion on the cycle fails or an edge
    that is not there is dereferenced. *)
Fixpoint cycle_edges (g : graph) (first : Z) (from : Z) (p : list Z) : outcome (list lockdep_edge) :=
  (match p with
  | [] =>
      match lockdep_find_edge g from first with
      | Some e => Return [e]
      | None => Panic
      end
  | to :: p =>
      match lockdep_find_edge g from to with
      | Some e => do! l <- cycle_edges g first to p; Return (e :: l)
      | None => Panic
      end
  end)%c.

Definition lockdep_print_cycle_info (g : graph) (node : Z) (h : heap)
    : option (outcome (list lockdep_edge * graph * heap)) :=
  match lockdep_graph_get_shortest_cycle g node h with
  | None => None
  | Some (cycle, g, h) =>
      Some (match cycle with
      | Some (c0 :: p) =>
          if c0 =? 0 then Panic
          else (do! l <- cycle_edges g c0 c0 p; Return (l, g, h))%c
      | _ => Panic
      end)
  end.

(** ** Acquire and release *)

Fixpoint add_edges (owned : list lockdep_lock) (g : graph) (node : Z) (acq_stack : call_stack)
    (tid : Z) (h : heap) : graph * Z * heap :=
  match owned with
  | [] => (g, TEE_SUCCESS, h)
  | lock :: owned =>
      let '(g, res, h) := lockdep_add_edge g (l_node lock) node (l_call_stack lock) acq_stack tid h in
      if res =? TEE_SUCCESS then add_edges owned g node acq_stack tid h else (g, res, h)
  end.

(** [tid] is the address of the thread's list and [acq_stack] what
    [lockdep_get_kernel_stack] returned. *)
Definition __lockdep_lock_acquire (g : graph) (owned : list lockdep_lock) (id tid : Z)
    (acq_stack : call_stack) (h : heap)
    : option (outcome (graph * list lockdep_lock * Z * heap)) :=
  let '(g, ok, h) := lockdep_add_to_graph g id h in
  if negb ok then Some (Return (g, owned, TEE_ERROR_OUT_OF_MEMORY, h))
  else
    let '(g, res, h) := add_edges owned g id acq_stack tid h in
    if negb (res =? TEE_SUCCESS) then Some (Return (g, owned, res, h))
    else
      match lockdep_graph_sort g with
      | None => None
      | Some (g, res) =>
          if negb (res =? TEE_SUCCESS) then
            match lockdep_print_cycle_info g id h with
            | None => None
            | Some r => Some (do! (_, g, h) <- r; Return (g, owned, res, h))%c
            end
          else
            let '(ok, h) := alloc h in
            if negb ok then Some (Return (g, owned, TEE_ERROR_OUT_OF_MEMORY, h))
            else Some (Return (g, owned ++ [mk_lock id acq_stack], TEE_SUCCESS, h))
      end.

Definition __lockdep_lock_tryacquire (g : graph) (owned : list lockdep_lock) (id : Z)
    (acq_stack : call_stack) (h : heap) : graph * list lockdep_lock * Z * heap :=
  let '(g, ok, h) := lockdep_add_to_graph g id h in
  if negb ok then (g, owned, TEE_ERROR_OUT_OF_MEMORY, h)
  else
    let '(ok, h) := alloc h in
    if negb ok then (g, owned, TEE_ERROR_OUT_OF_MEMORY, h)
    else (g, owned ++ [mk_lock id acq_stack], TEE_SUCCESS, h).

(** Removes the last lock with the id ([TAILQ_FOREACH_REVERSE]). *)
Fixpoint remove_last (owned : list lockdep_lock) (id : Z) : option (list lockdep_lock) :=
  match owned with
  | [] => None
  | l :: owned =>
      match remove_last owned id with
      | Some owned' => Some (l :: owned')
      | None => if l_node l =? id then Some owned else None
      end
  end.

Definition __lockdep_lock_release (owned : list lockdep_lock) (id : Z) : list lockdep_lock * Z :=
  match remove_last owned id with
  | Some owned => (owned, TEE_SUCCESS)
  | None => (owned, TEE_ERROR_ITEM_NOT_FOUND)
  end.

Definition lockdep_queue_delete (owned : list lockdep_lock) : list lockdep_lock := [].

(** ** The mutex checks: one graph, one owned list per thread; an error panics *)

Record lockdep_state := mk_ls {
  ls_graph : graph;
  ls_owned : list (list lockdep_lock)
}.

Definition mutex_lockdep_init (nthreads : nat) : lockdep_state := mk_ls [] (replicate nthreads []).

Definition mutex_lock_check (s : lockdep_state) (thread : nat) (m : Z) (stack : call_stack) (h : heap)
    : option (outcome lockdep_state) :=
  let owned := default [] (ls_owned s !! thread) in
  match __lockdep_lock_acquire (ls_graph s) owned m (Z.of_nat thread) stack h with
  | None => None
  | Some r =>
      Some (do! (g, owned, res, _) <- r;
            if negb (res =? TEE_SUCCESS) then Panic
            else Return (mk_ls g (<[thread := owned]> (ls_owned s))))%c
  end.

Definition mutex_trylock_check (s : lockdep_state) (thread : nat) (m : Z) (stack : call_stack) (h : heap)
    : outcome lockdep_state :=
  let owned := default [] (ls_owned s !! thread) in
  let '(g, owned, res, _) := __lockdep_lock_tryacquire (ls_graph s) owned m stack h in
  if negb (res =? TEE_SUCCESS) then Panic
  else Return (mk_ls g (<[thread := owned]> (ls_owned s))).

Definition mutex_unlock_check (s : lockdep_state) (thread : nat) (m : Z) : outcome lockdep_state :=
  let owned := default [] (ls_owned s !! thread) in
  let '(owned, res) := __lockdep_lock_release owned m in
  if negb (res =? TEE_SUCCESS) then Panic
  else Return (mk_ls (ls_graph s) (<[thread := owned]> (ls_owned s))).

Definition mutex_destroy_check (s : lockdep_state) (m : Z) : lockdep_state :=
  mk_ls (lockdep_lock_destroy (ls_graph s) m) (ls_owned s).

(** ** Lemmas: breadth-first search *)

(** [is_path E s v p]: [p] lists the nodes of a walk from [s] to [v]. *)
Inductive is_path (E : Z -> Z -> Prop) (s : Z) : Z -> list Z -> Prop :=
| path_start : is_path E s s [s]
| path_step u v p : is_path E s u p -> E u v -> is_path E s v (p ++ [v]).

Lemma is_path_length E s v p : is_path E s v p -> (1 <= length p)%nat.
Proof. destruct 1; [done|]. rewrite length_app. simpl. lia. Qed.

Lemma is_path_nsteps E s v p : is_path E s v p -> nsteps E (pred (length p)) s v.
Proof.
  induction 1 as [|u v p Hp IH He]; simpl; [constructor|].
  pose proof (is_path_length _ _ _ _ Hp). rewrite length_app. simpl.
  replace (pred (length p + 1)) with (S (pred (length p))) by lia. eapply nsteps_r; eauto.
Qed.

Definition visited (g : graph) (v : Z) : Prop := has_flag (node_flags g v) LOCKDEP_NODE_BFS_VISITED = true.

#[global] Instance visited_dec g v : Decision (visited g v).
Proof. unfold visited. apply _. Defined.

Lemma visited_or_flags g x v :
  x ∈ ids g -> visited (or_flags g x LOCKDEP_NODE_BFS_VISITED) v <-> v = x \/ visited g v.
Proof.
  intros Hx. unfold visited. rewrite flags_or_flags by done.
  change LOCKDEP_NODE_BFS_VISITED with (2 ^ 2). destruct (Z.eqb_spec v x) as [->|Hne].
  - rewrite has_flag_testbit, Z.lor_spec, Z.pow2_bits_true, orb_true_r by lia. tauto.
  - tauto.
Qed.

Definition labels (queue : list (Z * list Z)) : list (Z * nat) :=
  map (fun q => (fst q, pred (length (snd q)))) queue.

Definition unvisited_count (g : graph) : nat := length (filter (fun x => ~ visited g x) (ids g)).

(** Marking an unvisited node. *)
Lemma unvisited_mark g x :
  NoDup (ids g) -> x ∈ ids g -> ~ visited g x ->
  unvisited_count g = S (unvisited_count (or_flags g x LOCKDEP_NODE_BFS_VISITED)).
Proof.
  intros Hnd Hin Hnv. unfold unvisited_count. rewrite ids_or_flags.
  set (g1 := or_flags g x LOCKDEP_NODE_BFS_VISITED).
  assert (Hvv : forall y, ~ visited g1 y <-> y ≠ x /\ ~ visited g y).
  { intros y. unfold g1. rewrite visited_or_flags by done. tauto. }
  clearbody g1. induction (ids g) as [|y l IH]; [set_solver|].
  apply NoDup_cons in Hnd as [Hni Hnd]. rewrite !filter_cons.
  destruct (decide (y = x)) as [->|Hne].
  - rewrite (decide_True (P := ~ visited g x)) by done.
    rewrite (decide_False (P := ~ visited g1 x)) by (rewrite Hvv; tauto). simpl. do 2 f_equal.
    apply list_filter_iff_in. intros y Hy. rewrite Hvv. set_solver.
  - assert (Hxl : x ∈ l) by set_solver. specialize (IH Hnd Hxl).
    destruct (decide (~ visited g y)) as [Hy|Hy].
    + rewrite (decide_True (P := ~ visited g1 y)) by (rewrite Hvv; tauto). simpl. by rewrite IH.
    + rewrite (decide_False (P := ~ visited g1 y)) by (rewrite Hvv; tauto). done.
Qed.

Section bfs.
Context (g0 : graph) (Hwf : graph_wf g0) (start : Z).
Notation E := (edge_rel g0).

(** [dn] are the nodes already dequeued, with their distance. *)
Record bfs_inv (dn : list (Z * nat)) (queue : list (Z * list Z)) (g : graph) : Prop := {
  bi_same : same_graph g0 g;
  bi_visited : forall v, visited g v <-> v ∈ (dn ++ labels queue).*1;
  bi_paths : forall v p, (v, p) ∈ queue -> is_path E start v p;
  bi_start : (start, 0%nat) ∈ dn ++ labels queue
}.

(** What holds of a node all of whose edges have been looked at. *)
Definition edges_done (u : Z) (k : nat) (lab : list (Z * nat)) : Prop :=
  forall y, E u y -> y ≠ start /\ exists j, (y, j) ∈ lab /\ (j <= k + 1)%nat.

(** Distances in the queue grow, by at most one from the head; [d] is a lower
    bound and [dn] is below it. *)
Definition queue_ordered (d : nat) (dn : list (Z * nat)) (queue : list (Z * list Z)) : Prop :=
  (forall u k, (u, k) ∈ dn -> (k <= d)%nat) /\
  Forall (fun q => d <= q.2 <= S d)%nat (labels queue) /\
  Sorted Nat.le (labels queue).*2.

Lemma labels_app q1 q2 : labels (q1 ++ q2) = labels q1 ++ labels q2.
Proof. apply map_app. Qed.

Lemma sorted_snoc l d : Sorted Nat.le l -> Forall (fun x => x <= d)%nat l -> Sorted Nat.le (l ++ [d]).
Proof.
  intros Hs Hf. apply StronglySorted_Sorted. apply Sorted_StronglySorted in Hs; [|intros ???; lia].
  induction Hs as [|x l Hs IH Hx]; [repeat constructor|]. simpl.
  apply Forall_cons in Hf as [Hxd Hf]. constructor; [by apply IH|].
  apply Forall_app. split; [done|]. by constructor.
Qed.

(** Looking at the edges of the dequeued node [u] at distance [d]. *)
Lemma bfs_edges_spec u d path dn : forall es queue g,
  is_path E start u path -> d = pred (length path) ->
  (forall e, e ∈ es -> E u (e_to e)) ->
  bfs_inv ((u, d) :: dn) queue g -> queue_ordered d dn queue ->
  (exists g1, bfs_edges start path es queue g [] = BfsReturn (Some path) g1 [] /\
     same_graph g0 g1 /\ start ∈ e_to <$> es) \/
  exists queue' g', bfs_edges start path es queue g [] = BfsNext queue' g' [] /\
    bfs_inv ((u, d) :: dn) queue' g' /\ queue_ordered d dn queue' /\
    (length queue' + unvisited_count g' = length queue + unvisited_count g)%nat /\
    (forall x, x ∈ labels queue -> x ∈ labels queue') /\
    (forall e, e ∈ es -> e_to e ≠ start /\
       exists j, (e_to e, j) ∈ ((u, d) :: dn) ++ labels queue' /\ (j <= d + 1)%nat).
Proof.
  induction es as [|e es IH]; intros queue g Hp Hd He Hi Ho; simpl.
  - right. exists queue, g. split; [done|]. split; [done|]. split; [done|]. split; [done|].
    split; [done|]. set_solver.
  - assert (Hue : E u (e_to e)) by (apply He; set_solver).
    destruct (Z.eqb_spec (e_to e) start) as [Hs|Hs].
    { left. exists g. split; [done|]. split; [apply Hi|]. rewrite <- Hs. set_solver. }
    assert (Hin : e_to e ∈ ids g).
    { rewrite (same_graph_ids _ _ (bi_same _ _ _ Hi)). by eapply Hwf. }
    destruct (has_flag (node_flags g (e_to e)) LOCKDEP_NODE_BFS_VISITED) eqn:Hv; simpl.
    + destruct (IH queue g Hp Hd) as [(g1 & Hr & Hsg & Hx)|(q' & g' & Hr & Hi' & Ho' & Hc & Hsub & Hdn)]; [set_solver|done..| |].
      * left. exists g1. split; [done|]. split; [done|set_solver].
      * right. exists q', g'. split; [done|]. split; [done|]. split; [done|]. split; [done|]. split; [done|].
        intros x [->|Hx]%elem_of_cons; [|by apply Hdn]. split; [done|].
        assert (Hvis : visited g (e_to e)) by done. apply (bi_visited _ _ _ Hi) in Hvis.
        apply list_elem_of_fmap in Hvis as ([y j] & Hy & Hyj). simpl in Hy. subst y.
        exists j. apply elem_of_app in Hyj as [Hyj|Hyj].
        { split; [by apply (in_left ((u, d) :: dn))|]. apply elem_of_cons in Hyj as [[= _ ->]|Hyj]; [lia|].
          apply Ho in Hyj. lia. }
        split; [apply (in_right ((u, d) :: dn)); by apply Hsub|].
        destruct Ho as (_ & Hf & _). rewrite Forall_forall in Hf. apply Hf in Hyj. simpl in Hyj. lia.
    + set (g1 := or_flags g (e_to e) LOCKDEP_NODE_BFS_VISITED).
      set (q1 := queue ++ [(e_to e, path ++ [e_to e])]).
      assert (Hlab : labels q1 = labels queue ++ [(e_to e, S d)]).
      { unfold q1. rewrite labels_app. simpl. rewrite length_app. simpl.
        pose proof (is_path_length _ _ _ _ Hp). do 3 f_equal. lia. }
      assert (Hi1 : bfs_inv ((u, d) :: dn) q1 g1).
      { constructor.
        - unfold same_graph, g1. rewrite strip_or_flags. apply Hi.
        - intros v. unfold g1. rewrite visited_or_flags by done. rewrite (bi_visited _ _ _ Hi), Hlab.
          rewrite !fmap_app. simpl. set_solver.
        - intros v p [Hvp|Hvp]%elem_of_app; [by apply (bi_paths _ _ _ Hi)|].
          apply list_elem_of_singleton in Hvp. injection Hvp as -> ->. by eapply path_step.
        - rewrite Hlab, (assoc_L (++)). apply elem_of_app. left. apply Hi. }
      assert (Ho1 : queue_ordered d dn q1).
      { destruct Ho as (Ho1 & Ho2 & Ho3). split; [done|]. rewrite Hlab. split.
        - apply Forall_app. split; [done|]. repeat constructor.
        - rewrite fmap_app. apply sorted_snoc; [done|]. apply Forall_fmap.
          eapply Forall_impl; [exact Ho2|]. simpl. lia. }
      assert (Hc1 : (length q1 + unvisited_count g1 = length queue + unvisited_count g)%nat).
      { unfold q1, g1. rewrite length_app. simpl. rewrite (unvisited_mark g (e_to e)); [lia| |done|].
        - rewrite (same_graph_ids _ _ (bi_same _ _ _ Hi)). apply Hwf.
        - unfold visited. by rewrite Hv. }
      destruct (IH q1 g1 Hp Hd) as [(g2 & Hr & Hsg & Hx)|(q' & g' & Hr & Hi' & Ho' & Hc & Hsub & Hdn)]; [set_solver|done..| |].
      * left. exists g2. split; [done|]. split; [done|set_solver].
      * right. exists q', g'. split; [done|]. split; [done|]. split; [done|]. split; [lia|].
        split; [intros x Hx; apply Hsub; rewrite Hlab; by apply in_left|].
        intros x [->|Hx]%elem_of_cons; [|by apply Hdn]. split; [done|]. exists (S d). split; [|lia].
        apply (in_right ((u, d) :: dn)), Hsub. rewrite Hlab. apply in_right. by apply list_elem_of_singleton.
Qed.

Definition all_done (dn lab : list (Z * nat)) : Prop :=
  forall u k, (u, k) ∈ dn -> edges_done u k lab.

Definition queue_ok (dn : list (Z * nat)) (queue : list (Z * list Z)) : Prop :=
  match queue with
  | [] => True
  | q :: _ => queue_ordered (pred (length (snd q))) dn queue
  end.

(** A walk no longer than the head of the queue ends in a labelled node. *)
Lemma short_walks_labelled dn queue g d :
  bfs_inv dn queue g -> all_done dn (dn ++ labels queue) ->
  (forall v j, (v, j) ∈ labels queue -> (d <= j)%nat) ->
  forall k v, nsteps E k start v -> (k <= d)%nat ->
  exists j, (v, j) ∈ dn ++ labels queue /\ (j <= k)%nat.
Proof.
  intros Hi Hd Hq. induction k as [|k IH]; intros v Hn Hk.
  - inversion Hn; subst. exists 0%nat. split; [apply Hi|lia].
  - apply nsteps_inv_r in Hn as (u & Hu & Huv). destruct (IH u Hu) as (j & Hj & Hjk); [lia|].
    apply elem_of_app in Hj as [Hj|Hj]; [|apply Hq in Hj; lia].
    destruct (Hd u j Hj v Huv) as (_ & j' & Hj' & Hle). exists j'. split; [done|lia].
Qed.

(** No cycle is shorter than the head's distance plus one. *)
Lemma no_shorter_cycle dn queue g d k :
  bfs_inv dn queue g -> all_done dn (dn ++ labels queue) ->
  (forall v j, (v, j) ∈ labels queue -> (d <= j)%nat) ->
  nsteps E (S k) start start -> (d <= k)%nat.
Proof.
  intros Hi Hd Hq Hn. apply nsteps_inv_r in Hn as (v & Hv & Hvs).
  destruct (decide (d <= k)%nat) as [Hdk|Hdk]; [done|]. exfalso.
  destruct (short_walks_labelled dn queue g d Hi Hd Hq k v Hv) as (j & Hj & Hjk); [lia|].
  apply elem_of_app in Hj as [Hj|Hj]; [|apply Hq in Hj; lia].
  by destruct (Hd v j Hj start Hvs) as [Hne _].
Qed.

Lemma queue_head_min d dn queue v j :
  queue_ordered d dn queue -> (v, j) ∈ labels queue -> (d <= j)%nat.
Proof. intros (_ & Hf & _) Hin. rewrite Forall_forall in Hf. apply Hf in Hin. simpl in Hin. lia. Qed.

(** After a turn the new head is no nearer and the order still holds. *)
Lemma queue_ok_next u d dn queue :
  queue_ordered d dn queue -> queue_ok ((u, d) :: dn) queue.
Proof.
  intros Ho. pose proof Ho as (Hdn & Hf & Hs). destruct queue as [|[v p] queue]; [done|]. simpl in *.
  set (d' := pred (length p)) in *. apply Forall_cons in Hf as [Hv Hf]. simpl in Hv.
  split; [|split].
  - intros x k [[= -> ->]|Hx]%elem_of_cons; [lia|]. apply Hdn in Hx. lia.
  - simpl. constructor; [simpl; lia|]. apply Sorted_extends in Hs; [|intros ???; lia].
    apply Forall_forall. intros [x k] Hx. rewrite Forall_forall in Hf. apply Hf in Hx as Hx'. simpl in *.
    assert (Hk : (d' <= k)%nat); [|lia].
    rewrite Forall_forall in Hs. apply Hs. by apply (list_elem_of_fmap_2 snd _ (x, k)).
  - done.
Qed.

Lemma bfs_dequeue u path dn queue g :
  bfs_inv dn ((u, path) :: queue) g -> bfs_inv ((u, pred (length path)) :: dn) queue g.
Proof.
  intros [Hs Hv Hp Hst]. constructor; [done| | |].
  - intros v. rewrite Hv. simpl. rewrite !fmap_app. simpl. set_solver.
  - intros v p Hin. apply Hp. by right.
  - simpl in Hst. rewrite elem_of_app in Hst. rewrite elem_of_cons in Hst. simpl.
    rewrite elem_of_cons, elem_of_app. tauto.
Qed.

Lemma queue_ordered_tail d dn q queue : queue_ordered d dn (q :: queue) -> queue_ordered d dn queue.
Proof.
  intros (H1 & H2 & H3). simpl in *. split; [done|]. apply Forall_cons in H2 as [_ H2]. split; [done|].
  by apply Sorted_inv in H3 as [H3 _].
Qed.

Definition bfs_post (r : option (option (list Z) * graph * heap)) : Prop :=
  exists ret g', r = Some (ret, g', []) /\ same_graph g0 g' /\
    match ret with
    | Some p => (exists u, is_path E start u p /\ E u start) /\
                forall k, nsteps E (S k) start start -> (length p <= S k)%nat
    | None => forall k, ~ nsteps E (S k) start start
    end.

Lemma bfs_loop_spec fuel : forall dn queue g,
  bfs_inv dn queue g -> all_done dn (dn ++ labels queue) -> queue_ok dn queue ->
  (length queue + unvisited_count g < fuel)%nat ->
  bfs_post (bfs_loop fuel start queue g []).
Proof.
  induction fuel as [|fuel IH]; intros dn queue g Hi Hd Ho Hf; [lia|].
  destruct queue as [|[u path] queue]; cbn [bfs_loop].
  - exists None, g. split; [done|]. split; [apply Hi|]. intros k Hn.
    pose proof (no_shorter_cycle dn [] g (S k) k Hi Hd) as Hlt.
    assert ((S k <= k)%nat); [|lia]. apply Hlt; [|done]. intros v j Hvj. by apply not_elem_of_nil in Hvj.
  - simpl in Ho. set (d := pred (length path)) in *.
    assert (Hp : is_path E start u path) by (apply (bi_paths _ _ _ Hi); set_solver).
    destruct (bfs_edges_spec u d path dn (node_edges g u) queue g Hp eq_refl)
      as [(g1 & -> & Hs1 & Hx)|(q' & g' & -> & Hi' & Ho' & Hc & Hsub & Hdn)].
    { intros e He. unfold edge_rel. rewrite <- (same_graph_edges _ _ u (bi_same _ _ _ Hi)).
      by apply list_elem_of_fmap_2. }
    { by apply bfs_dequeue. }
    { by eapply queue_ordered_tail. }
    + exists (Some path), g1. split; [done|]. split; [done|]. split.
      * exists u. split; [done|]. unfold edge_rel. by rewrite <- (same_graph_edges _ _ u (bi_same _ _ _ Hi)).
      * intros k Hn. pose proof (is_path_length _ _ _ _ Hp).
        assert ((d <= k)%nat); [|unfold d in *; lia].
        eapply (no_shorter_cycle dn ((u, path) :: queue) g); [done|done| |done].
        intros v j. by apply queue_head_min with dn.
    + apply (IH ((u, d) :: dn)); [done| |by apply queue_ok_next|simpl in Hf; lia].
      intros v k [[= -> ->]|Hv]%elem_of_cons.
      * intros y Hy. unfold edge_rel in Hy. rewrite <- (same_graph_edges _ _ u (bi_same _ _ _ Hi)) in Hy.
        apply list_elem_of_fmap in Hy as (e & -> & He). by apply Hdn.
      * intros y Hy. destruct (Hd v k Hv y Hy) as (Hne & j & Hj & Hle). split; [done|].
        exists j. split; [|done]. apply elem_of_app in Hj as [Hj|Hj].
        { apply (in_left ((u, d) :: dn)). by right. }
        simpl in Hj. apply elem_of_cons in Hj as [[= -> ->]|Hj].
        { apply (in_left ((u, d) :: dn)). by left. }
        apply in_right. by apply Hsub.
Qed.
End bfs.

(** Flags that the depth-first search leaves when it fails: no BFS mark. *)
Definition no_bfs_marks (g : graph) : Prop := forall v, ~ visited g v.

Lemma shortest_cycle_post g start :
  graph_wf g -> no_bfs_marks g -> start ∈ ids g ->
  bfs_post g start (lockdep_graph_get_shortest_cycle g start []).
Proof.
  intros Hwf Hb Hs. unfold lockdep_graph_get_shortest_cycle. cbn [alloc negb].
  set (g1 := or_flags g start LOCKDEP_NODE_BFS_VISITED).
  apply (bfs_loop_spec g Hwf start _ [] [(start, [start])] g1).
  - constructor.
    + unfold same_graph, g1. by rewrite strip_or_flags.
    + intros v. unfold g1. rewrite visited_or_flags by done. simpl. specialize (Hb v). set_solver.
    + intros v p Hvp. apply list_elem_of_singleton in Hvp as [= -> ->]. constructor.
    + simpl. by left.
  - intros u k Hu. by apply not_elem_of_nil in Hu.
  - simpl. split; [intros u k Hu; by apply not_elem_of_nil in Hu|]. split; simpl; repeat constructor; simpl; lia.
  - pose proof (unvisited_mark g start (proj1 Hwf) Hs (Hb start)) as Hu. fold g1 in Hu.
    pose proof (length_filter (fun x => ~ visited g x) (ids g)) as Hl. unfold unvisited_count in Hu at 1.
    assert (length (ids g) = length g1) as Hlen.
    { unfold g1, or_flags, map_node, ids. by rewrite !length_map. }
    simpl. lia.
Qed.

(** ** Lemmas: the printed cycle *)

Fixpoint chain (E : Z -> Z -> Prop) (s : Z) (q : list Z) (v : Z) : Prop :=
  match q with
  | [] => s = v
  | a :: q => E s a /\ chain E a q v
  end.

Lemma chain_snoc E s q u v : chain E s q u -> E u v -> chain E s (q ++ [v]) v.
Proof. revert s. induction q as [|a q IH]; simpl; [intros s -> Huv; done|]. intros s [? ?] ?. eauto. Qed.

Lemma is_path_chain E s v p : is_path E s v p -> exists q, p = s :: q /\ chain E s q v.
Proof.
  induction 1 as [|u v p Hp (q & -> & Hq) He]; [by exists []|].
  exists (q ++ [v]). split; [done|]. by eapply chain_snoc.
Qed.

Lemma find_edge_some g x y : NoDup (ids g) -> edge_rel g x y -> exists e, lockdep_find_edge g x y = Some e.
Proof.
  unfold edge_rel, node_edges. intros Hnd. induction g as [|n g IH]; simpl; [set_solver|].
  unfold ids in Hnd. simpl in Hnd. apply NoDup_cons in Hnd as [Hni Hnd].
  destruct (n_lock_id n =? x); [|by apply IH].
  intros Hy. assert (exists e, find_edge_to (n_edges n) y = Some e) as [e ->]; [|eauto].
  clear -Hy. induction (n_edges n) as [|a l IH]; [set_solver|]. simpl.
  destruct (Z.eqb_spec (e_to a) y); [eauto|]. apply IH. set_solver.
Qed.

Lemma cycle_edges_ok g first q : NoDup (ids g) -> forall from u,
  chain (edge_rel g) from q u -> edge_rel g u first ->
  exists l, cycle_edges g first from q = Return l /\ length l = S (length q).
Proof.
  intros Hnd. induction q as [|a q IH]; intros from u Hc Hu; simpl in *.
  - subst from. destruct (find_edge_some g u first Hnd Hu) as [e ->]. eauto.
  - destruct Hc as [Ha Hc]. destruct (find_edge_some g from a Hnd Ha) as [e ->].
    destruct (IH a u Hc Hu) as (l & -> & Hl). simpl. exists (e :: l). simpl. by rewrite Hl.
Qed.

(** ** Lemmas: adding the edges of an acquisition *)

Lemma add_edges_spec owned node acq tid : forall g h g' res h',
  add_edges owned g node acq tid h = (g', res, h') ->
  graph_wf g -> flags_clear g -> node ∈ ids g -> (forall l, l ∈ owned -> l_node l ∈ ids g) ->
  graph_wf g' /\ flags_clear g' /\ ids g' = ids g /\
  (forall x y, edge_rel g x y -> edge_rel g' x y) /\
  (forall x y, edge_rel g' x y -> edge_rel g x y \/ (x ∈ l_node <$> owned /\ y = node)) /\
  (res = TEE_SUCCESS -> forall x, x ∈ l_node <$> owned -> edge_rel g' x node) /\
  (h = [] -> res = TEE_SUCCESS /\ h' = []).
Proof.
  induction owned as [|l owned IH]; intros g h g' res h' Ha Hwf Hfl Hn Ho; simpl in Ha.
  - injection Ha as <- <- <-. split; [done|]. split; [done|]. split; [done|]. split; [done|].
    split; [by left|]. split; [set_solver|done].
  - destruct (lockdep_add_edge g (l_node l) node (l_call_stack l) acq tid h) as [[g1 r1] h1] eqn:H1.
    destruct (add_edge_spec _ _ _ _ _ _ _ _ _ _ H1 Hwf Hfl) as (Hwf1 & Hfl1 & Hids1 & Hr1); [apply Ho; cbn; apply list_elem_of_here|done|].
    assert (Hh1 : h = [] -> r1 = TEE_SUCCESS /\ h1 = []).
    { intros ->. unfold lockdep_add_edge in H1. simpl in H1.
      destruct (existsb _ _); [by injection H1 as <- <- <-|].
      destruct (l_call_stack l), acq; simpl in H1; by injection H1 as <- <- <-. }
    destruct Hr1 as [[-> Hrel]|[-> ->]].
    + change (TEE_SUCCESS =? TEE_SUCCESS) with true in Ha. cbv iota in Ha.
      destruct (IH g1 h1 g' res h' Ha) as (Hwf2 & Hfl2 & Hids2 & Hup & Hdown & Hall & Hmem);
        [done|done|by rewrite Hids1|intros x Hx; rewrite Hids1; apply Ho; cbn; by apply list_elem_of_further|].
      split; [done|]. split; [done|]. split; [congruence|]. split; [|split; [|split]].
      * intros x y Hxy. apply Hup, Hrel. by left.
      * intros x y [[Hxy|[-> ->]]%Hrel|[Hx ->]]%Hdown; [by left|right; split; [|done]; rewrite fmap_cons..].
        { apply list_elem_of_here. }
        { by apply list_elem_of_further. }
      * intros Hres x. rewrite fmap_cons. intros [->|Hx]%elem_of_cons; [|by apply Hall].
        apply Hup, Hrel. by right.
      * intros Hh. by apply Hmem, Hh1.
    + change (TEE_ERROR_OUT_OF_MEMORY =? TEE_SUCCESS) with false in Ha. cbv iota in Ha.
      injection Ha as <- <- <-. split; [done|]. split; [done|]. split; [done|]. split; [done|].
      split; [by left|]. split; [done|]. intros Hh. by apply Hh1 in Hh as [? _].
Qed.

(** A cycle created by edges into [id] comes from a path from [id] back to one
    of their sources. *)
Lemma new_edges_paths (E E' : Z -> Z -> Prop) (O : Z -> Prop) id x y :
  (forall x y, E' x y -> E x y \/ (O x /\ y = id)) ->
  rtc E' x y -> rtc E x y \/ exists o, O o /\ rtc E x o /\ rtc E' id y.
Proof.
  intros HE Hr. induction Hr as [x|x z y Hxz Hr IH]; [by left|].
  destruct (HE x z Hxz) as [Hxz'|[Ho ->]].
  - destruct IH as [IH|(o & Ho & H1 & H2)]; [left; by eapply rtc_l|].
    right. exists o. split; [done|]. split; [by eapply rtc_l|done].
  - right. exists x. done.
Qed.

Lemma new_edges_cycle (E E' : Z -> Z -> Prop) (O : Z -> Prop) id x :
  (forall x y, E' x y -> E x y \/ (O x /\ y = id)) -> (forall x, ~ tc E x x) -> tc E' x x ->
  exists o, O o /\ rtc E id o.
Proof.
  intros HE Hac Hx. assert (exists z, E' x z /\ rtc E' z x) as (z & Hxz & Hzx).
  { inversion Hx; subst; [eexists; split; [done|apply rtc_refl]|]. eexists. split; [done|by apply tc_rtc]. }
  assert (exists o, O o /\ rtc E x o /\ rtc E' id x) as (o & Ho & Hxo & Hix).
  { destruct (HE x z Hxz) as [Hxz'|[Ho ->]]; [|by exists x].
    destruct (new_edges_paths E E' O id z x HE Hzx) as [Hr|(o & Ho & H1 & H2)].
    - exfalso. apply (Hac x). eapply tc_rtc_r; [by apply tc_once|done].
    - exists o. split; [done|]. split; [by eapply rtc_l|done]. }
  destruct (new_edges_paths E E' O id id x HE Hix) as [Hr|(o' & Ho' & H1 & H2)]; [|by exists o'].
  exists o. split; [done|]. by etrans.
Qed.

Lemma tc_nsteps {A} (R : A -> A -> Prop) x y : tc R x y -> exists k, nsteps R (S k) x y.
Proof.
  induction 1 as [x y H|x y z H _ (k & IH)]; [exists 0%nat|exists (S k)]; [by apply nsteps_once|].
  by eapply nsteps_l.
Qed.

Lemma searched_no_bfs g g' : searched g g' -> no_bfs_marks g'.
Proof.
  intros [_ Hf] v. unfold visited, white, grey, black in *.
  destruct (Hf v) as [-> | [-> | ->]]; done.
Qed.

Lemma same_graph_wf g g' : same_graph g g' -> graph_wf g -> graph_wf g'.
Proof.
  intros Hs [Hnd Hcl]. split; rewrite (same_graph_ids _ _ Hs); [done|].
  intros x y Hxy. apply (Hcl x y). by apply (same_graph_rel g g').
Qed.

(** On a graph with a cycle through the node, the report is printed: the
    assertions hold and every edge of the cycle is found. *)
Lemma print_cycle_ok g id :
  graph_wf g -> no_bfs_marks g -> id ∈ ids g -> id ≠ 0 -> tc (edge_rel g) id id ->
  exists l g', lockdep_print_cycle_info g id [] = Some (Return (l, g', [])) /\ same_graph g g'.
Proof.
  intros Hwf Hb Hid Hnz Hc. unfold lockdep_print_cycle_info.
  destruct (shortest_cycle_post g id Hwf Hb Hid) as (ret & g' & -> & Hs & Hret).
  destruct (tc_nsteps _ _ _ Hc) as [k Hk].
  destruct ret as [p|]; [|by destruct (Hret k)].
  destruct Hret as [(u & Hp & Hu) _]. apply is_path_chain in Hp as (q & -> & Hq).
  destruct (Z.eqb_spec id 0); [done|].
  destruct (cycle_edges_ok g' id q) with (from := id) (u := u) as (l & -> & _).
  - rewrite (same_graph_ids _ _ Hs). apply Hwf.
  - clear -Hq Hs. revert Hq. generalize id as s. induction q as [|a q IH]; simpl; [done|].
    intros s [Ha Hq]. split; [by apply (same_graph_rel g g')|by apply IH].
  - by apply (same_graph_rel g g').
  - exists l, g'. done.
Qed.

(** ** Acquisition *)

Definition owned_ids (owned : list lockdep_lock) : list Z := l_node <$> owned.

(** With memory, on an acyclic graph. *)
Lemma acquire_exact g owned id tid acq :
  graph_wf g -> flags_clear g -> acyclic g -> (forall x, x ∈ owned_ids owned -> x ∈ ids g) -> id ≠ 0 ->
  exists g' owned' res,
    __lockdep_lock_acquire g owned id tid acq [] = Some (Return (g', owned', res, [])) /\
    ((res = TEE_SUCCESS /\ (forall o, o ∈ owned_ids owned -> ~ rtc (edge_rel g) id o) /\
      owned' = owned ++ [mk_lock id acq] /\ acyclic g' /\
      (forall x y, edge_rel g' x y <-> edge_rel g x y \/ (x ∈ owned_ids owned /\ y = id))) \/
     (res = TEE_ERROR_BAD_STATE /\ (exists o, o ∈ owned_ids owned /\ rtc (edge_rel g) id o) /\
      owned' = owned)).
Proof.
  intros Hwf Hfl Hac Ho Hnz. unfold __lockdep_lock_acquire.
  destruct (lockdep_add_to_graph g id []) as [[g1 ok] h1] eqn:H1.
  destruct (add_to_graph_spec _ _ _ _ _ _ H1 Hwf Hfl) as (Hwf1 & Hfl1 & Hrel1 & Hid1 & Hsub1).
  assert (ok = true /\ h1 = []) as [-> ->].
  { unfold lockdep_add_to_graph in H1. by destruct (find_node g id); injection H1 as <- <- <-. }
  specialize (Hid1 eq_refl). cbn [negb].
  destruct (add_edges owned g1 id acq tid []) as [[g2 res2] h2] eqn:H2.
  destruct (add_edges_spec owned id acq tid _ _ _ _ _ H2 Hwf1 Hfl1 Hid1) as
    (Hwf2 & Hfl2 & Hids2 & Hup & Hdown & Hall & Hmem).
  { intros l Hl. apply Hsub1, Ho. by apply list_elem_of_fmap_2. }
  destruct (Hmem eq_refl) as [-> ->]. change (TEE_SUCCESS =? TEE_SUCCESS) with true. cbn [negb].
  assert (Hrel2 : forall x y, edge_rel g2 x y <-> edge_rel g x y \/ (x ∈ owned_ids owned /\ y = id)).
  { intros x y. split.
    - intros [Hxy|?]%Hdown; [left; by apply Hrel1|by right].
    - intros [Hxy|[Hx ->]]; [by apply Hup, Hrel1|by apply Hall]. }
  destruct (lockdep_graph_sort_spec g2 Hwf2 Hfl2) as [[Ha ->]|[[x Hx] (g3 & Hse & ->)]].
  - simpl. eexists _, _, _. split; [reflexivity|]. left. split; [done|].
    split; [|split; [done|split; [exact Ha|exact Hrel2]]].
    intros o Hin Hr. apply (Ha id).
    assert (Hr2 : rtc (edge_rel g2) id o).
    { eapply rtc_mono; [|exact Hr]. intros x y Hxy. apply Hrel2. by left. }
    eapply tc_rtc_l; [exact Hr2|]. apply tc_once, Hrel2. by right.
  - simpl. assert (Hc : exists o, o ∈ owned_ids owned /\ rtc (edge_rel g) id o).
    { apply (new_edges_cycle (edge_rel g) (edge_rel g2) (fun o => o ∈ owned_ids owned) id x);
        [intros a b; apply Hrel2|done|done]. }
    pose proof Hse as [Hs3 _].
    destruct (print_cycle_ok g3 id) as (l & g4 & -> & Hs4).
    + by eapply same_graph_wf.
    + by eapply searched_no_bfs.
    + by rewrite (same_graph_ids _ _ Hs3), Hids2.
    + done.
    + destruct Hc as (o & Hin & Hr). eapply tc_rtc_l with o.
      * eapply rtc_mono; [|exact Hr]. intros a b Hab.
        apply (same_graph_rel g2 g3); [done|]. apply Hrel2. by left.
      * apply tc_once, (same_graph_rel g2 g3); [done|]. apply Hrel2. by right.
    + simpl. eexists _, _, _. split; [reflexivity|]. right. done.
Qed.

(** Whatever the allocator does, a successful acquisition. *)
Lemma acquire_success g owned id tid acq h g' owned' h' :
  graph_wf g -> flags_clear g -> (forall x, x ∈ owned_ids owned -> x ∈ ids g) ->
  __lockdep_lock_acquire g owned id tid acq h = Some (Return (g', owned', TEE_SUCCESS, h')) ->
  graph_wf g' /\ flags_clear g' /\ acyclic g' /\ owned' = owned ++ [mk_lock id acq] /\
  (forall x, x ∈ ids g -> x ∈ ids g') /\ id ∈ ids g' /\
  (forall x y, edge_rel g x y -> edge_rel g' x y) /\
  (forall x, x ∈ owned_ids owned -> edge_rel g' x id).
Proof.
  intros Hwf Hfl Ho. unfold __lockdep_lock_acquire.
  destruct (lockdep_add_to_graph g id h) as [[g1 ok] h1] eqn:H1.
  destruct (add_to_graph_spec _ _ _ _ _ _ H1 Hwf Hfl) as (Hwf1 & Hfl1 & Hrel1 & Hid1 & Hsub1).
  destruct ok; [|done]. specialize (Hid1 eq_refl). cbn [negb].
  destruct (add_edges owned g1 id acq tid h1) as [[g2 res2] h2] eqn:H2.
  destruct (add_edges_spec owned id acq tid _ _ _ _ _ H2 Hwf1 Hfl1 Hid1) as
    (Hwf2 & Hfl2 & Hids2 & Hup & Hdown & Hall & _).
  { intros l Hl. apply Hsub1, Ho. by apply list_elem_of_fmap_2. }
  destruct (Z.eqb_spec res2 TEE_SUCCESS) as [->|Hne]; cbn [negb].
  2: { intros [= _ _ Hr _]. done. }
  destruct (lockdep_graph_sort_spec g2 Hwf2 Hfl2) as [[Ha ->]|[_ (g3 & Hse & ->)]].
  - simpl. destruct (alloc h2) as [[] h3]; simpl; [|done]. intros [= <- <- _].
    split; [done|]. split; [done|]. split; [done|]. split; [done|].
    split; [intros x Hx; rewrite Hids2; auto|]. split; [by rewrite Hids2|].
    split; [intros x y Hxy; by apply Hup, Hrel1|]. by apply Hall.
  - simpl. destruct (lockdep_print_cycle_info g3 id h2) as [[[[l g4] h4]|]|]; simpl; try done.
Qed.

(** ** Threads and their locks

    [lw_waits] records, for each thread, the mutex it has announced with
    [mutex_lock_check] and not obtained yet; such a thread makes no other call. *)
Record lock_world := mk_lw {
  lw_state : lockdep_state;
  lw_waits : list (option Z)
}.

Definition owned_of (s : lockdep_state) (t : nat) : list Z := owned_ids (default [] (ls_owned s !! t)).

Inductive lw_step : lock_world -> lock_world -> Prop :=
| lw_lock s w t m stack h s' :
    w !! t = Some None -> mutex_lock_check s t m stack h = Some (Return s') ->
    lw_step (mk_lw s w) (mk_lw s' (<[t := Some m]> w))
| lw_got s w t m :
    w !! t = Some (Some m) -> lw_step (mk_lw s w) (mk_lw s (<[t := None]> w))
| lw_trylock s w t m stack h s' :
    w !! t = Some None -> mutex_trylock_check s t m stack h = Return s' ->
    lw_step (mk_lw s w) (mk_lw s' w)
| lw_unlock s w t m s' :
    w !! t = Some None -> mutex_unlock_check s t m = Return s' ->
    lw_step (mk_lw s w) (mk_lw s' w)
| lw_destroy s w m :
    (forall t, m ∉ owned_of s t) ->
    lw_step (mk_lw s w) (mk_lw (mutex_destroy_check s m) w).

Definition lw_init (n : nat) : lock_world := mk_lw (mutex_lockdep_init n) (replicate n None).

Definition lw_reachable (n : nat) (s : lock_world) : Prop := rtc lw_step (lw_init n) s.

Record lw_inv (s : lock_world) : Prop := {
  lwi_wf : graph_wf (ls_graph (lw_state s));
  lwi_flags : flags_clear (ls_graph (lw_state s));
  lwi_acyclic : acyclic (ls_graph (lw_state s));
  lwi_len : length (ls_owned (lw_state s)) = length (lw_waits s);
  lwi_owned : forall t x, x ∈ owned_of (lw_state s) t -> x ∈ ids (ls_graph (lw_state s));
  lwi_waits : forall t m, lw_waits s !! t = Some (Some m) ->
    exists hs, owned_of (lw_state s) t = hs ++ [m] /\
      forall x, x ∈ hs -> edge_rel (ls_graph (lw_state s)) x m
}.

Lemma owned_of_insert g o t u l :
  (t < length o)%nat ->
  owned_of (mk_ls g (<[t := l]> o)) u = if decide (u = t) then owned_ids l else owned_of (mk_ls g o) u.
Proof.
  intros Ht. unfold owned_of. simpl. destruct (decide (u = t)) as [->|Hne].
  - by rewrite list_lookup_insert_eq.
  - by rewrite list_lookup_insert_ne.
Qed.

Lemma remove_last_sub owned id owned' :
  remove_last owned id = Some owned' -> forall x, x ∈ owned_ids owned' -> x ∈ owned_ids owned.
Proof.
  revert owned'. induction owned as [|l owned IH]; intros owned' Hr; simpl in Hr; [done|].
  destruct (remove_last owned id) as [o|].
  - injection Hr as <-. intros x. unfold owned_ids. rewrite !fmap_cons, !elem_of_cons.
    intros [?|Hx]; [by left|]. right. by apply (IH o eq_refl).
  - destruct (l_node l =? id); [|done]. injection Hr as <-. intros x Hx. by right.
Qed.

Lemma lw_step_lock s w t m stack h s' :
  lw_inv (mk_lw s w) -> w !! t = Some None -> mutex_lock_check s t m stack h = Some (Return s') ->
  lw_inv (mk_lw s' (<[t := Some m]> w)).
Proof.
  intros [Hwf Hfl Hac Hlen Hown Hw] Ht Hc. simpl in *. unfold mutex_lock_check in Hc.
  set (owned := default [] (ls_owned s !! t)) in *.
  destruct (__lockdep_lock_acquire _ _ _ _ _ _) as [[[[[g' o'] res] h']|]|] eqn:Ha; simpl in Hc; try done.
  destruct (Z.eqb_spec res TEE_SUCCESS) as [->|]; simpl in Hc; [|done]. injection Hc as <-.
  apply acquire_success in Ha as (Hwf' & Hfl' & Hac' & -> & Hids & Hid & Hup & Hall); [|done|done|apply (Hown t)].
  assert (Hlt : (t < length (ls_owned s))%nat) by (rewrite Hlen; by eapply lookup_lt_Some).
  constructor; simpl; [done|done|done|by rewrite !length_insert| |].
  - intros u x. rewrite owned_of_insert by done. destruct (decide (u = t)) as [->|Hne].
    + unfold owned_ids. rewrite fmap_app, elem_of_app. intros [Hx|Hx].
      * apply Hids, (Hown t). exact Hx.
      * by apply list_elem_of_singleton in Hx as ->.
    + intros Hx. apply Hids. by apply (Hown u).
  - intros u m' Hu. rewrite owned_of_insert by done. destruct (decide (u = t)) as [->|Hne].
    + rewrite list_lookup_insert_eq in Hu by (rewrite <- Hlen; done). injection Hu as <-.
      exists (owned_ids owned). split; [unfold owned_ids; by rewrite fmap_app|exact Hall].
    + rewrite list_lookup_insert_ne in Hu by done. destruct (Hw u m' Hu) as (hs & Heq & Hhs).
      exists hs. split; [exact Heq|]. intros x Hx. by apply Hup, Hhs.
Qed.

(** Steps that leave the waiting threads alone and keep their edges. *)
Lemma lw_inv_other s s' w :
  lw_inv (mk_lw s w) ->
  graph_wf (ls_graph s') -> flags_clear (ls_graph s') -> acyclic (ls_graph s') ->
  length (ls_owned s') = length (ls_owned s) ->
  (forall t x, x ∈ owned_of s' t -> x ∈ ids (ls_graph s')) ->
  (forall t m, w !! t = Some (Some m) -> owned_of s' t = owned_of s t) ->
  (forall t x y, x ∈ owned_of s t -> y ∈ owned_of s t -> edge_rel (ls_graph s) x y -> edge_rel (ls_graph s') x y) ->
  lw_inv (mk_lw s' w).
Proof.
  intros [Hwf Hfl Hac Hlen Hown Hw] H1 H2 H3 H4 H5 H6 H7. simpl in *.
  constructor; simpl; [done|done|done|by rewrite H4|done|].
  intros t m Ht. destruct (Hw t m Ht) as (hs & Heq & Hhs). exists hs.
  split; [rewrite <- Heq; by eapply H6|]. intros x Hx. apply (H7 t); rewrite ?Heq; [set_solver..|by apply Hhs].
Qed.

Lemma lw_step_trylock s w t m stack h s' :
  lw_inv (mk_lw s w) -> w !! t = Some None -> mutex_trylock_check s t m stack h = Return s' ->
  lw_inv (mk_lw s' w).
Proof.
  intros Hi Ht Hc. pose proof Hi as [Hwf Hfl Hac Hlen Hown Hw]. simpl in *.
  unfold mutex_trylock_check, __lockdep_lock_tryacquire in Hc.
  destruct (lockdep_add_to_graph (ls_graph s) m h) as [[g1 ok] h1] eqn:H1.
  destruct (add_to_graph_spec _ _ _ _ _ _ H1 Hwf Hfl) as (Hwf1 & Hfl1 & Hrel1 & Hid1 & Hsub1).
  destruct ok; [|done]. cbn [negb] in Hc. destruct (alloc h1) as [[] h2]; [|done]. simpl in Hc.
  injection Hc as <-. assert (Hlt : (t < length (ls_owned s))%nat) by (rewrite Hlen; by eapply lookup_lt_Some).
  apply (lw_inv_other s _ w Hi); simpl; [done|done| |by rewrite length_insert| | |].
  - intros x Hx. apply (Hac x). eapply tc_mono; [|exact Hx]. intros a b. by apply Hrel1.
  - intros u x. rewrite owned_of_insert by done. destruct (decide (u = t)) as [->|Hne].
    + unfold owned_ids. rewrite fmap_app, elem_of_app. intros [Hx|Hx].
      * apply Hsub1, (Hown t). exact Hx.
      * apply list_elem_of_singleton in Hx as ->. auto.
    + intros Hx. apply Hsub1. by apply (Hown u).
  - intros u m' Hu. rewrite owned_of_insert by done. rewrite decide_False; [done|congruence].
  - intros u x y _ _ Hxy. by apply Hrel1.
Qed.

Lemma lw_step_unlock s w t m s' :
  lw_inv (mk_lw s w) -> w !! t = Some None -> mutex_unlock_check s t m = Return s' ->
  lw_inv (mk_lw s' w).
Proof.
  intros Hi Ht Hc. pose proof Hi as [Hwf Hfl Hac Hlen Hown Hw]. simpl in *.
  unfold mutex_unlock_check, __lockdep_lock_release in Hc.
  destruct (remove_last (default [] (ls_owned s !! t)) m) as [o|] eqn:Hr; [|done].
  simpl in Hc. injection Hc as <-.
  assert (Hlt : (t < length (ls_owned s))%nat) by (rewrite Hlen; by eapply lookup_lt_Some).
  apply (lw_inv_other s _ w Hi); simpl; [done|done|done|by rewrite length_insert| | |done].
  - intros u x. rewrite owned_of_insert by done. destruct (decide (u = t)) as [->|Hne].
    + intros Hx. apply (Hown t). by apply (remove_last_sub _ _ _ Hr).
    + intros Hx. by apply (Hown u).
  - intros u m' Hu. rewrite owned_of_insert by done. rewrite decide_False; [done|congruence].
Qed.

Lemma lw_step_inv s s' : lw_step s s' -> lw_inv s -> lw_inv s'.
Proof.
  intros Hs Hi. destruct Hs as [s w t m stack h s' Ht Hc|s w t m Ht|s w t m stack h s' Ht Hc|s w t m s' Ht Hc|s w m Hm].
  - by eapply lw_step_lock.
  - destruct Hi as [Hwf Hfl Hac Hlen Hown Hw]. constructor; simpl in *; try done.
    + by rewrite length_insert.
    + intros u m' Hu. apply list_lookup_insert_Some in Hu as [(_ & [=] & _)|[_ Hu]]. eauto.
  - by eapply lw_step_trylock.
  - by eapply lw_step_unlock.
  - pose proof Hi as [Hwf Hfl Hac Hlen Hown Hw]. simpl in *.
    destruct (lock_destroy_spec (ls_graph s) m Hwf Hfl) as (Hwf' & Hfl' & Hids & Hrel).
    apply (lw_inv_other s _ w Hi); simpl; [done|done| |done| |done|].
    + intros x Hx. apply (Hac x). eapply tc_mono; [|exact Hx]. intros a b Hab. by apply Hrel in Hab as [? _].
    + intros t x Hx. apply Hids. split; [by apply (Hown t)|]. intros ->. by apply (Hm t).
    + intros t x y Hx Hy Hxy. apply Hrel. split; [done|]. split; intros ->; by apply (Hm t).
Qed.

Lemma lw_reachable_inv n s : lw_reachable n s -> lw_inv s.
Proof.
  intros Hr. assert (Hi : lw_inv (lw_init n)).
  { constructor; simpl.
    - split; [constructor|]. intros x y Hxy. by apply edge_rel_source, not_elem_of_nil in Hxy.
    - intros x Hx. by apply not_elem_of_nil in Hx.
    - intros x Hx. assert (exists y, edge_rel [] x y) as [y Hy] by (inversion Hx; eauto).
      by apply edge_rel_source, not_elem_of_nil in Hy.
    - by rewrite !length_replicate.
    - intros t x. unfold owned_of. simpl. destruct (replicate n [] !! t) as [l|] eqn:Hl; simpl.
      + apply lookup_replicate in Hl as [-> _]. intros Hx. by apply not_elem_of_nil in Hx.
      + intros Hx. by apply not_elem_of_nil in Hx.
    - intros t m [[=] _]%lookup_replicate. }
  unfold lw_reachable in Hr. remember (lw_init n) as s0. clear Heqs0.
  induction Hr as [|x y z Hs Hr IH]; [done|]. apply IH. by eapply lw_step_inv.
Qed.

(** ** Properties *)

(** [x] is held by a thread that waits for [y]. *)
Definition blocks (s : lock_world) (x y : Z) : Prop :=
  exists t hs, lw_waits s !! t = Some (Some y) /\ owned_of (lw_state s) t = hs ++ [y] /\ x ∈ hs.

(** C12. Deadlock freedom: as long as the checks of the mutex code have not
    panicked, whatever the interleaving of lock, try-lock, unlock and destroy
    (of mutexes nobody owns) by any number of threads and whatever the
    allocator answers, there is no circular wait: no chain of threads, each
    holding a mutex the previous one waits for, closes on itself. *)
Theorem lockdep_no_circular_wait n s x :
  lw_reachable n s -> ~ tc (blocks s) x x.
Proof.
  intros Hi%lw_reachable_inv Hx. apply (lwi_acyclic s Hi x). eapply tc_mono; [|exact Hx].
  intros a b (t & hs & Ht & Ho & Ha). destruct (lwi_waits s Hi t b Ht) as (hs' & Ho' & He).
  apply He. rewrite Ho in Ho'. by apply app_inj_tail in Ho' as [-> _].
Qed.

(** What an acquisition answers, when memory is available: it terminates
    without panicking; it is refused with TEE_ERROR_BAD_STATE exactly when the
    graph already orders the new lock before a lock the thread owns (the lock
    itself included), the report of the cycle finding every edge it prints; and
    otherwise the lock is appended to the owned list, the graph gains exactly the
    edges from the owned locks and stays acyclic. *)
Theorem lockdep_acquire_exact g owned id tid acq :
  graph_wf g -> flags_clear g -> acyclic g -> (forall x, x ∈ owned_ids owned -> x ∈ ids g) -> id ≠ 0 ->
  exists g' owned' res,
    __lockdep_lock_acquire g owned id tid acq [] = Some (Return (g', owned', res, [])) /\
    ((res = TEE_SUCCESS /\ (forall o, o ∈ owned_ids owned -> ~ rtc (edge_rel g) id o) /\
      owned' = owned ++ [mk_lock id acq] /\ acyclic g' /\
      (forall x y, edge_rel g' x y <-> edge_rel g x y \/ (x ∈ owned_ids owned /\ y = id))) \/
     (res = TEE_ERROR_BAD_STATE /\ (exists o, o ∈ owned_ids owned /\ rtc (edge_rel g) id o) /\
      owned' = owned)).
Proof. apply acquire_exact. Qed.

(** The reported cycle is real and shortest: when memory is available the
    breadth-first search terminates; if a cycle through the node exists it
    returns a path [node; ...] along edges whose last node has an edge back to
    the node, and no cycle through the node is shorter; if there is none it
    returns NULL. *)
Theorem lockdep_shortest_cycle g node :
  graph_wf g -> no_bfs_marks g -> node ∈ ids g ->
  exists ret g', lockdep_graph_get_shortest_cycle g node [] = Some (ret, g', []) /\
    same_graph g g' /\
    match ret with
    | Some p => (exists u, is_path (edge_rel g) node u p /\ edge_rel g u node) /\
                forall k, nsteps (edge_rel g) (S k) node node -> (length p <= S k)%nat
    | None => forall k, ~ nsteps (edge_rel g) (S k) node node
    end.
Proof. apply shortest_cycle_post. Qed.

(** Thread 0 holds 16 and waits for 32; thread 1 holds 32. *)
Definition demo_graph : graph :=
  [mk_node 16 [mk_edge 32 0 None None] 0; mk_node 32 [] 0].

Definition demo_world : lock_world :=
  mk_lw (mk_ls demo_graph [[mk_lock 16 None; mk_lock 32 None]; [mk_lock 32 None]]) [Some 32; None].

Lemma demo_world_reachable : lw_reachable 2 demo_world.
Proof.
  eapply rtc_l; [eapply (lw_lock _ _ 0%nat 16 None []); reflexivity|].
  eapply rtc_l; [eapply (lw_got _ _ 0%nat 16); reflexivity|].
  eapply rtc_l; [eapply (lw_lock _ _ 1%nat 32 None []); reflexivity|].
  eapply rtc_l; [eapply (lw_got _ _ 1%nat 32); reflexivity|].
  eapply rtc_l; [eapply (lw_lock _ _ 0%nat 32 None []); reflexivity|].
  apply rtc_refl.
Defined.

Lemma lockdep_no_circular_wait_witness : blocks demo_world 16 32 /\ ~ tc (blocks demo_world) 16 16.
Proof.
  split.
  - exists 0%nat, [16]. split; [reflexivity|]. split; [reflexivity|]. by apply list_elem_of_singleton.
  - apply (lockdep_no_circular_wait 2 demo_world 16 demo_world_reachable).
Defined.

Lemma demo_graph_rel x y : edge_rel demo_graph x y -> x = 16 /\ y = 32.
Proof.
  unfold edge_rel, node_edges. cbn [demo_graph find_node n_lock_id].
  destruct (Z.eqb_spec 16 x) as [<-|]; [|destruct (32 =? x)]; simpl.
  - intros Hy. by apply list_elem_of_singleton in Hy.
  - intros Hy. by apply not_elem_of_nil in Hy.
  - intros Hy. by apply not_elem_of_nil in Hy.
Qed.

Lemma demo_graph_wf : graph_wf demo_graph.
Proof.
  split; [apply (bool_decide_unpack _); vm_compute; exact I|].
  intros x y [_ ->]%demo_graph_rel. apply (bool_decide_unpack _). vm_compute. exact I.
Qed.

Lemma demo_graph_acyclic : acyclic demo_graph.
Proof.
  intros x Hx. assert (exists z, edge_rel demo_graph x z /\ (z = x \/ exists w, edge_rel demo_graph z w)) as (z & H1 & H2).
  { inversion Hx as [a b H|a b c H H']; subst; [eauto|]. exists b. split; [done|]. right.
    inversion H'; eauto. }
  apply demo_graph_rel in H1 as [-> ->]. destruct H2 as [[=]|(w & [[=] _]%demo_graph_rel)].
Qed.

Lemma lockdep_acquire_exact_witness :
  exists g' owned' res,
    __lockdep_lock_acquire demo_graph [mk_lock 32 None] 16 0 None [] = Some (Return (g', owned', res, [])) /\
    res = TEE_ERROR_BAD_STATE.
Proof.
  destruct (lockdep_acquire_exact demo_graph [mk_lock 32 None] 16 0 None) as (g' & o & res & He & Hr).
  - apply demo_graph_wf.
  - intros n Hn. repeat (apply elem_of_cons in Hn as [->|Hn]; [reflexivity|]). by apply not_elem_of_nil in Hn.
  - apply demo_graph_acyclic.
  - intros x Hx. apply list_elem_of_singleton in Hx as ->. apply (bool_decide_unpack _). vm_compute. exact I.
  - lia.
  - exists g', o, res. split; [exact He|]. destruct Hr as [(_ & Hno & _)|[-> _]]; [|reflexivity].
    exfalso. apply (Hno 32); [by apply list_elem_of_singleton|]. apply rtc_once. by apply list_elem_of_singleton.
Defined.

Lemma lockdep_shortest_cycle_witness :
  exists ret g', lockdep_graph_get_shortest_cycle demo_graph 16 [] = Some (ret, g', []) /\ ret = None.
Proof.
  destruct (lockdep_shortest_cycle demo_graph 16) as (ret & g' & He & _ & _).
  - apply demo_graph_wf.
  - intros v. unfold visited, node_flags. cbn [demo_graph find_node n_lock_id].
    destruct (16 =? v), (32 =? v); vm_compute; congruence.
  - apply (bool_decide_unpack _). vm_compute. exact I.
  - exists ret, g'. split; [exact He|]. vm_compute in He. by injection He as <- _.
Defined.
