(* ===== verification/Htree.v ===== *)
(** * Hash tree of a secure storage file: [core/tee/fs_htree.c], [core/include/tee/fs_htree.h]

    A file is a binary tree of nodes, one per data block; a node authenticates
    its block and its children, the header authenticates the root. Every element
    has two places on storage, so that an update is written beside the committed
    version and becomes current with one header write. This file has the data
    and the operations; [HtreeShape] and [HtreeSync] have the theorems.

    Cryptography, the random generator and the key manager are parameters;
    storage is a map from places to contents. Every call that can fail takes its
    result from [w_ext] (nothing left there: it succeeds). *)

From stdpp Require Import base gmap list.
From Stdlib Require Import ZArith Lia.
From S2P Require Import Prelude.

Local Open Scope Z_scope.

(** ** Data *)

Definition TEE_FS_HTREE_HASH_SIZE : nat := 32.
Definition TEE_FS_HTREE_IV_SIZE : nat := 16.
Definition TEE_FS_HTREE_FEK_SIZE : nat := 16.
Definition TEE_FS_HTREE_TAG_SIZE : nat := 16.

Definition HTREE_NODE_COMMITTED_BLOCK : Z := BIT 0.
Definition HTREE_NODE_COMMITTED_CHILD (n : Z) : Z := BIT (1 + n).

Record tee_fs_htree_node_image := mk_nimage {
  ni_hash : list Z;
  ni_iv : list Z;
  ni_tag : list Z;
  ni_flags : Z
}.

Record tee_fs_htree_imeta := mk_imeta {
  im_length : Z;
  im_max_node_id : Z
}.

Record tee_fs_htree_image := mk_image {
  hd_iv : list Z;
  hd_tag : list Z;
  hd_enc_fek : list Z;
  hd_imeta : list Z;
  hd_counter : Z
}.

(** NULL or a node; [parent] is the node above, NULL for the root. *)
Inductive htree_node :=
| Null
| Node (id : Z) (dirty block_updated : bool) (node : tee_fs_htree_node_image) (child0 child1 : htree_node).

Record tee_fs_htree := mk_htree {
  ht_root : htree_node;
  ht_head : tee_fs_htree_image;
  ht_fek : list Z;
  ht_imeta : tee_fs_htree_imeta;
  ht_dirty : bool
}.

(** Place of an element: [idx] counts from 0, the last component is the version. *)
Inductive slot :=
| SHead (vers : Z)
| SNode (idx vers : Z)
| SBlock (idx vers : Z).

#[global] Instance slot_eq_dec : EqDecision slot.
Proof. solve_decision. Defined.

Record storage := mk_storage {
  st_head : gmap Z tee_fs_htree_image;
  st_node : gmap (Z * Z) tee_fs_htree_node_image;
  st_block : gmap (Z * Z) (list Z)
}.

(** ** Calls out and errors *)

Record world := mk_world {
  w_store : storage;
  w_ext : list Z;
  w_rng : nat
}.

Inductive result (A : Type) := Ok (a : A) | Err (code : Z) | Crash.
Arguments Ok {A} a.
Arguments Err {A} code.
Arguments Crash {A}.

Definition M (A : Type) : Type := world -> result A * world.

Definition ret {A} (a : A) : M A := fun w => (Ok a, w).
Definition err {A} (code : Z) : M A := fun w => (Err code, w).
Definition crash {A} : M A := fun w => (Crash, w).
Definition bind {A B} (m : M A) (k : A -> M B) : M B := fun w =>
  match m w with
  | (Ok a, w) => k a w
  | (Err c, w) => (Err c, w)
  | (Crash, w) => (Crash, w)
  end.

Declare Scope htree_scope.
Delimit Scope htree_scope with ht.
Notation "'let!' x ':=' m 'in' k" := (bind m (fun x => k))
  (at level 200, x pattern, m at level 100, k at level 200) : htree_scope.
Notation "m ';;' k" := (bind m (fun _ => k)) (at level 100, right associativity) : htree_scope.
Local Open Scope htree_scope.

Definition check (b : bool) : M unit := if b then ret tt else crash.

(** One external call that can fail. *)
Definition ext : M unit := fun w =>
  match w_ext w with
  | [] => (Ok tt, w)
  | c :: l => (if c =? TEE_SUCCESS then Ok tt else Err c, mk_world (w_store w) l (w_rng w))
  end.

Definition put_store (f : storage -> storage) : M unit := fun w =>
  (Ok tt, mk_world (f (w_store w)) (w_ext w) (w_rng w)).

Definition of_option {A} (o : option A) (code : Z) : M A :=
  match o with Some a => ret a | None => err code end.

(** ** Storage access

    A read returns what is there; a place never written gives fewer bytes than
    asked for, TEE_ERROR_CORRUPT_OBJECT. *)

Definition rpc_read_head (vers : Z) : M tee_fs_htree_image :=
  ext ;; ext ;; fun w => of_option (st_head (w_store w) !! vers) TEE_ERROR_CORRUPT_OBJECT w.

Definition rpc_read_node (node_id vers : Z) : M tee_fs_htree_node_image :=
  ext ;; ext ;; fun w => of_option (st_node (w_store w) !! (node_id - 1, vers)) TEE_ERROR_CORRUPT_OBJECT w.

Definition rpc_write_head (vers : Z) (head : tee_fs_htree_image) : M unit :=
  ext ;; ext ;;
  put_store (fun st => mk_storage (<[vers := head]> (st_head st)) (st_node st) (st_block st)).

Definition rpc_write_node (node_id vers : Z) (node : tee_fs_htree_node_image) : M unit :=
  ext ;; ext ;;
  put_store (fun st => mk_storage (st_head st) (<[(node_id - 1, vers) := node]> (st_node st)) (st_block st)).

(** ** Encodings of structures that are hashed or encrypted (little endian) *)

Fixpoint le_bytes (n : nat) (x : Z) : list Z :=
  match n with
  | O => []
  | S n => x mod 256 :: le_bytes n (x / 256)
  end.

Fixpoint le_val (l : list Z) : Z :=
  match l with
  | [] => 0
  | b :: l => b + 256 * le_val l
  end.

(** [iv], [tag] and [flags], what follows [hash] in the structure. *)
Definition node_data (ni : tee_fs_htree_node_image) : list Z :=
  ni_iv ni ++ ni_tag ni ++ le_bytes 2 (ni_flags ni).

(** [length], [max_node_id] and four bytes of padding. *)
Definition imeta_bytes (im : tee_fs_htree_imeta) : list Z :=
  le_bytes 8 (im_length im) ++ le_bytes 4 (im_max_node_id im) ++ le_bytes 4 0.

Definition imeta_of_bytes (l : list Z) : tee_fs_htree_imeta :=
  mk_imeta (le_val (take 8 l)) (le_val (take 4 (drop 8 l))).

(** ** Navigation *)

Definition UINT_MAX : Z := 4294967295.

Definition node_id_to_level (node_id : Z) : outcome Z :=
  if negb (node_id =? 0) && (node_id <? UINT_MAX) then Return (Z.log2 node_id + 1) else Panic.

Definition node_id_of (t : htree_node) : Z := match t with Null => 0 | Node id _ _ _ _ _ => id end.

Definition child_of (t : htree_node) (b : bool) : htree_node :=
  match t with Null => Null | Node _ _ _ _ c0 c1 => if b then c1 else c0 end.

(** The loop of [find_closest_node] with [n] levels to go: [bit_idx] is [n - 1]. *)
Fixpoint walk_down (n : nat) (node_id : Z) (t : htree_node) : htree_node :=
  match n with
  | O => t
  | S n =>
      match child_of t (Z.testbit node_id (Z.of_nat n)) with
      | Null => t
      | child => walk_down n node_id child
      end
  end.

Definition depth_of (node_id : Z) : nat := Z.to_nat (Z.log2 node_id).

Definition find_closest_node (root : htree_node) (node_id : Z) : outcome htree_node :=
  (do! level <- node_id_to_level node_id;
   Return (walk_down (Z.to_nat (level - 1)) node_id root))%c.

Definition find_node (root : htree_node) (node_id : Z) : outcome (option htree_node) :=
  (do! node <- find_closest_node root node_id;
   Return (if node_id_of node =? node_id then Some node else None))%c.

(** Writes through the pointer that [find_closest_node] returned. *)
Fixpoint update_down (n : nat) (node_id : Z) (f : htree_node -> htree_node) (t : htree_node) : htree_node :=
  match n with
  | O => f t
  | S n =>
      match t with
      | Null => Null
      | Node id d u ni c0 c1 =>
          match child_of t (Z.testbit node_id (Z.of_nat n)) with
          | Null => f t
          | _ => if Z.testbit node_id (Z.of_nat n)
                 then Node id d u ni c0 (update_down n node_id f c1)
                 else Node id d u ni (update_down n node_id f c0) c1
          end
      end
  end.

Definition update_node (root : htree_node) (node_id : Z) (f : htree_node -> htree_node) : htree_node :=
  update_down (depth_of node_id) node_id f root.

Definition zero_nimage : tee_fs_htree_node_image := mk_nimage (replicate 32 0) (replicate 16 0) (replicate 16 0) 0.

(** [calloc] of a node with its id. *)
Definition new_node (id : Z) : htree_node := Node id false false zero_nimage Null Null.

Definition set_child (b : bool) (c : htree_node) (t : htree_node) : htree_node :=
  match t with
  | Null => Null
  | Node id d u ni c0 c1 => if b then Node id d u ni c0 c else Node id d u ni c c1
  end.

Definition of_outcome {A} (o : outcome A) : M A := match o with Return a => ret a | Panic => crash end.

Definition is_null (t : htree_node) : bool := match t with Null => true | _ => false end.

(** The loop of [get_node] that adds the missing nodes, [n] up to [node_id]. *)
Fixpoint add_nodes (count : nat) (n : Z) (root : htree_node) : M htree_node :=
  match count with
  | O => ret root
  | S count =>
      let! node := of_outcome (find_closest_node root n) in
      if node_id_of node =? n then add_nodes count (n + 1) root
      else
        check (Z.shiftr n 1 =? node_id_of node) ;;
        check (is_null (child_of node (Z.odd n))) ;;
        ext ;; (* calloc *)
        add_nodes count (n + 1) (update_node root n (set_child (Z.odd n) (new_node n)))
  end.

(** Returns the tree and [max_node_id]; the node asked for is the one
    [find_closest_node] now finds. *)
Definition get_node (create : bool) (node_id : Z) (root : htree_node) (max_node_id : Z)
    : M (htree_node * Z) :=
  let! node := of_outcome (find_closest_node root node_id) in
  if node_id_of node =? node_id then ret (root, max_node_id)
  else if negb create then err TEE_ERROR_GENERIC
  else
    let! root := add_nodes (Z.to_nat (node_id - node_id_of node)) (node_id_of node + 1) root in
    ret (root, if node_id >? max_node_id then node_id else max_node_id).

Definition get_idx_from_counter (counter0 counter1 : Z) : Z :=
  if Z.land counter0 1 =? 0 then
    if Z.land counter1 1 =? 0 then 0
    else if counter0 >? counter1 then 0
    else 1
  else if negb (Z.land counter1 1 =? 0) then 1
  else -1.

Definition img_of (t : htree_node) : tee_fs_htree_node_image :=
  match t with Null => zero_nimage | Node _ _ _ ni _ _ => ni end.

Definition set_img (ni : tee_fs_htree_node_image) (t : htree_node) : htree_node :=
  match t with Null => Null | Node id d u _ c0 c1 => Node id d u ni c0 c1 end.

Definition set_root_dirty (t : htree_node) : htree_node :=
  match t with Null => Null | Node id _ u ni c0 c1 => Node id true u ni c0 c1 end.

(** ** Operations *)

Section htree.
(** SHA-256, AES-GCM with its authenticated data, the key wrapping of
    [tee_fs_fek_crypt] for the file's UUID, and the random generator. *)
Context (sha256 : list Z -> list Z).
Context (gcm_enc : list Z -> list Z -> list Z -> list Z -> list Z * list Z).
Context (gcm_dec : list Z -> list Z -> list Z -> list Z -> list Z -> option (list Z)).
Context (fek_encrypt fek_decrypt : list Z -> list Z).
Context (rng : nat -> list Z).
Context (block_size : nat).

Definition crypto_rng_read : M (list Z) :=
  ext ;; fun w => (Ok (rng (w_rng w)), mk_world (w_store w) (w_ext w) (S (w_rng w))).

(** [init_head_from_data]: returns the root image and the header. *)
Definition init_head_from_data (hash : option (list Z)) : M (tee_fs_htree_node_image * tee_fs_htree_image) :=
  match hash with
  | Some h =>
      let! root := rpc_read_node 1 0 in
      if bool_decide (ni_hash root = h) then
        let! head := rpc_read_head 0 in ret (root, head)
      else
        let! root := rpc_read_node 1 1 in
        if bool_decide (ni_hash root = h) then
          let! head := rpc_read_head 1 in ret (root, head)
        else err TEE_ERROR_SECURITY
  | None =>
      let! head0 := rpc_read_head 0 in
      let! head1 := rpc_read_head 1 in
      let idx := get_idx_from_counter (hd_counter head0) (hd_counter head1) in
      if idx <? 0 then err TEE_ERROR_SECURITY
      else
        let! root := rpc_read_node 1 idx in
        ret (root, if idx =? 0 then head0 else head1)
  end.

(** The loop of [init_tree_from_data], from [node_id]. *)
Fixpoint init_tree_loop (count : nat) (node_id : Z) (root : htree_node) (max_node_id : Z) : M htree_node :=
  match count with
  | O => ret root
  | S count =>
      let! node := of_outcome (find_node root (Z.shiftr node_id 1)) in
      match node with
      | None => err TEE_ERROR_GENERIC
      | Some node =>
          let committed_version :=
            b2z (has_flag (ni_flags (img_of node)) (HTREE_NODE_COMMITTED_CHILD (Z.land node_id 1))) in
          let! node_image := rpc_read_node node_id committed_version in
          let! (root, _) := get_node true node_id root max_node_id in
          init_tree_loop count (node_id + 1) (update_node root node_id (set_img node_image)) max_node_id
      end
  end.

Definition init_tree_from_data (root : htree_node) (max_node_id : Z) : M htree_node :=
  init_tree_loop (Z.to_nat (max_node_id - 1)) 2 root max_node_id.

Definition hash_of (t : htree_node) : list Z := match t with Null => [] | Node _ _ _ ni _ _ => ni_hash ni end.

(** What the digest of a node covers; [meta] only for the root. *)
Definition node_hash_input (ni : tee_fs_htree_node_image) (c0 c1 : htree_node) (meta : option Z) : list Z :=
  node_data ni ++ match meta with Some len => le_bytes 8 len | None => [] end ++ hash_of c0 ++ hash_of c1.

Definition calc_node_hash (ni : tee_fs_htree_node_image) (c0 c1 : htree_node) (meta : option Z) : M (list Z) :=
  ext ;; ext ;;
  match meta with Some _ => ext | None => ret tt end ;;
  (if is_null c0 then ret tt else ext) ;;
  (if is_null c1 then ret tt else ext) ;;
  ext ;;
  ret (sha256 (node_hash_input ni c0 c1 meta)).

(** Additional authenticated data: the header's covers the first
    [TEE_FS_HTREE_FEK_SIZE] bytes of the root hash. *)
Definition block_aad (enc_fek iv : list Z) : list Z :=
  take TEE_FS_HTREE_FEK_SIZE enc_fek ++ take TEE_FS_HTREE_IV_SIZE iv.

Definition head_aad (root_hash : list Z) (counter : Z) (enc_fek iv : list Z) : list Z :=
  take TEE_FS_HTREE_FEK_SIZE root_hash ++ le_bytes 4 counter ++ block_aad enc_fek iv.

(** [authenc_init] for a node ([head = false]) or the header: allocation, start
    and the updates with authenticated data; the fresh IV comes from the caller. *)
Definition authenc_init (head : bool) : M unit :=
  ext ;; ext ;; (if head then ext ;; ext else ret tt) ;; ext ;; ext.

Definition authenc_decrypt_final (fek iv aad tag crypt : list Z) : M (list Z) :=
  fun w =>
    match ext w with
    | (Ok _, w) =>
        match gcm_dec fek iv aad crypt tag with
        | None => (Err TEE_ERROR_CORRUPT_OBJECT, w)
        | Some plain =>
            if bool_decide (length plain = length crypt) then (Ok plain, w) else (Err TEE_ERROR_GENERIC, w)
        end
    | (Err c, w) => (Err (if c =? TEE_ERROR_MAC_INVALID then TEE_ERROR_CORRUPT_OBJECT else c), w)
    | (Crash, w) => (Crash, w)
    end.

Definition authenc_encrypt_final (fek iv aad plain : list Z) : M (list Z * list Z) :=
  ext ;;
  let '(crypt, tag) := gcm_enc fek iv aad plain in
  if bool_decide (length crypt = length plain) && bool_decide (length tag = TEE_FS_HTREE_TAG_SIZE)
  then ret (crypt, tag) else err TEE_ERROR_GENERIC.

(** Returns the key and the metadata of the header. *)
Definition verify_root (root_hash : list Z) (head : tee_fs_htree_image) : M (list Z * tee_fs_htree_imeta) :=
  ext ;;
  let fek := fek_decrypt (hd_enc_fek head) in
  authenc_init true ;;
  let! plain := authenc_decrypt_final fek (hd_iv head)
    (head_aad root_hash (hd_counter head) (hd_enc_fek head) (hd_iv head)) (hd_tag head) (hd_imeta head) in
  ret (fek, imeta_of_bytes plain).

(** [traverse_post_order] with [verify_node]; [meta] is given for the root. *)
Fixpoint verify_nodes (meta : option Z) (t : htree_node) : M unit :=
  match t with
  | Null => ret tt
  | Node _ _ _ ni c0 c1 =>
      verify_nodes None c0 ;;
      verify_nodes None c1 ;;
      let! digest := calc_node_hash ni c0 c1 meta in
      if bool_decide (digest = ni_hash ni) then ret tt else err TEE_ERROR_CORRUPT_OBJECT
  end.

Definition verify_tree (root : htree_node) (meta : Z) : M unit :=
  ext ;; verify_nodes (Some meta) root.

Definition set_hash (h : list Z) (ni : tee_fs_htree_node_image) : tee_fs_htree_node_image :=
  mk_nimage h (ni_iv ni) (ni_tag ni) (ni_flags ni).
Definition set_flags (f : Z) (ni : tee_fs_htree_node_image) : tee_fs_htree_node_image :=
  mk_nimage (ni_hash ni) (ni_iv ni) (ni_tag ni) f.

Definition init_root_node (imeta : tee_fs_htree_imeta) : M htree_node :=
  ext ;;
  let! h := calc_node_hash zero_nimage Null Null (Some (im_length imeta)) in
  ret (Node 1 true false (set_hash h zero_nimage) Null Null).

(** [traverse_post_order] with [htree_sync_node_to_storage]. [parent] is the
    flags word of the parent, [None] for the root; it is returned when the
    callback changed it (and so made the parent dirty). *)
Fixpoint sync_nodes (counter meta : Z) (parent : option Z) (t : htree_node) : M (htree_node * option Z) :=
  match t with
  | Null => ret (Null, None)
  | Node id dirty block_updated ni c0 c1 =>
      let! (c0, p0) := sync_nodes counter meta (Some (ni_flags ni)) c0 in
      let flags := default (ni_flags ni) p0 in
      let! (c1, p1) := sync_nodes counter meta (Some flags) c1 in
      let flags := default flags p1 in
      let dirty := dirty || bool_decide (is_Some p0) || bool_decide (is_Some p1) in
      let ni := set_flags flags ni in
      check (implb block_updated dirty) ;;
      if negb dirty then ret (Node id dirty block_updated ni c0 c1, None)
      else
        let f := HTREE_NODE_COMMITTED_CHILD (Z.land id 1) in
        let parent' := (fun p => Z.lxor p f) <$> parent in
        let vers := match parent' with
                    | Some p => b2z (has_flag p f)
                    | None => b2z (Z.land counter 1 =? 0)
                    end in
        let! h := calc_node_hash ni c0 c1 (match parent with Some _ => None | None => Some meta end) in
        let ni := set_hash h ni in
        rpc_write_node id vers ni ;;
        ret (Node id false false ni c0 c1, parent')
  end.

Definition update_root (ht : tee_fs_htree) : M tee_fs_htree_image :=
  let counter := u32 (hd_counter (ht_head ht) + 1) in
  let enc_fek := hd_enc_fek (ht_head ht) in
  let! iv := crypto_rng_read in
  authenc_init true ;;
  let! (crypt, tag) := authenc_encrypt_final (ht_fek ht) iv
    (head_aad (hash_of (ht_root ht)) counter enc_fek iv) (imeta_bytes (ht_imeta ht)) in
  ret (mk_image iv tag enc_fek crypt counter).

(** [tee_fs_htree_sync_to_storage] on an open tree, up to the header write. *)
Definition sync_to_storage_nodes (ht : tee_fs_htree) : M tee_fs_htree :=
  let! (root, _) := sync_nodes (hd_counter (ht_head ht)) (im_length (ht_imeta ht)) None (ht_root ht) in
  let ht := mk_htree root (ht_head ht) (ht_fek ht) (ht_imeta ht) (ht_dirty ht) in
  let! head := update_root ht in
  ret (mk_htree root head (ht_fek ht) (ht_imeta ht) (ht_dirty ht)).

(** An operation that fails closes the tree: [*ht_arg] becomes NULL. The result
    is the tree left, the code and the value. *)
Definition close_on_error {A} (ht : tee_fs_htree) (m : M (tee_fs_htree * A)) (w : world)
    : outcome (option tee_fs_htree * Z * option A) * world :=
  match m w with
  | (Ok (ht, a), w) => (Return (Some ht, TEE_SUCCESS, Some a), w)
  | (Err c, w) => (Return (None, c, None), w)
  | (Crash, w) => (Panic, w)
  end.

(** The allocation of the hash context is made before anything can close the
    tree. The value is the new root hash. *)
Definition tee_fs_htree_sync_to_storage (ht_arg : option tee_fs_htree) (w : world)
    : outcome (option tee_fs_htree * Z * option (list Z)) * world :=
  match ht_arg with
  | None => (Return (None, TEE_ERROR_CORRUPT_OBJECT, None), w)
  | Some ht =>
      if negb (ht_dirty ht) then (Return (Some ht, TEE_SUCCESS, None), w)
      else
        match ext w with
        | (Err c, w) => (Return (Some ht, c, None), w)
        | (Crash, w) => (Panic, w)
        | (Ok _, w) =>
            close_on_error ht
              (let! ht := sync_to_storage_nodes ht in
               rpc_write_head (Z.land (hd_counter (ht_head ht)) 1) (ht_head ht) ;;
               ret (mk_htree (ht_root ht) (ht_head ht) (ht_fek ht) (ht_imeta ht) false,
                    hash_of (ht_root ht))) w
        end
  end.

Definition empty_imeta : tee_fs_htree_imeta := mk_imeta 0 0.

(** The header being created: everything zero but the wrapped key. *)
Definition tee_fs_htree_open (create : bool) (hash : option (list Z)) : world -> outcome (option tee_fs_htree * Z) * world :=
  fun w =>
  match ext w with (* calloc *)
  | (Err _, w) => (Return (None, TEE_ERROR_OUT_OF_MEMORY), w)
  | (Crash, w) => (Panic, w)
  | (Ok _, w) =>
      if create then
        match (let! fek := crypto_rng_read in
               ext ;;
               let! root := init_root_node empty_imeta in
               ret (mk_htree root (mk_image (replicate 16 0) (replicate 16 0) (fek_encrypt fek) (replicate 16 0) 0)
                             fek empty_imeta true)) w with
        | (Ok ht, w) =>
            match tee_fs_htree_sync_to_storage (Some ht) w with
            | (Return (Some ht, res, _), w) =>
                if negb (res =? TEE_SUCCESS) then (Return (None, res), w)
                else
                  match rpc_write_head 0 (mk_image (replicate 16 0) (replicate 16 0) (replicate 16 0) (replicate 16 0) 0) w with
                  | (Ok _, w) => (Return (Some ht, TEE_SUCCESS), w)
                  | (Err c, w) => (Return (None, c), w)
                  | (Crash, w) => (Panic, w)
                  end
            | (Return (None, res, _), w) => (Return (None, res), w)
            | (Panic, w) => (Panic, w)
            end
        | (Err c, w) => (Return (None, c), w)
        | (Crash, w) => (Panic, w)
        end
      else
        match (let! (rimg, head) := init_head_from_data hash in
               let! (fek, imeta) := verify_root (ni_hash rimg) head in
               let! root := init_tree_from_data (Node 1 false false rimg Null Null) (im_max_node_id imeta) in
               verify_tree root (im_length imeta) ;;
               ret (mk_htree root head fek imeta false)) w with
        | (Ok ht, w) => (Return (Some ht, TEE_SUCCESS), w)
        | (Err c, w) => (Return (None, c), w)
        | (Crash, w) => (Panic, w)
        end
  end.

Definition tee_fs_htree_get_meta (ht : tee_fs_htree) : Z := im_length (ht_imeta ht).

(** [tee_fs_htree_get_meta] hands out a pointer; its users assign [length]. *)
Definition set_meta_length (len : Z) (ht : tee_fs_htree) : tee_fs_htree :=
  mk_htree (ht_root ht) (ht_head ht) (ht_fek ht) (mk_imeta len (im_max_node_id (ht_imeta ht))) (ht_dirty ht).

Definition tee_fs_htree_meta_set_dirty (ht : tee_fs_htree) : tee_fs_htree :=
  mk_htree (set_root_dirty (ht_root ht)) (ht_head ht) (ht_fek ht) (ht_imeta ht) true.

Definition tee_fs_htree_close (ht_arg : option tee_fs_htree) : option tee_fs_htree := None.

Definition BLOCK_NUM_TO_NODE_ID (num : Z) : Z := num + 1.

(** The node of a block, with the tree it is in. *)
Definition get_block_node (create : bool) (block_num : Z) (ht : tee_fs_htree) : M (tee_fs_htree * htree_node) :=
  let id := BLOCK_NUM_TO_NODE_ID block_num in
  let! (root, max) := get_node create id (ht_root ht) (im_max_node_id (ht_imeta ht)) in
  let! node := of_outcome (find_closest_node root id) in
  ret (mk_htree root (ht_head ht) (ht_fek ht) (mk_imeta (im_length (ht_imeta ht)) max) (ht_dirty ht), node).

Definition block_updated_of (t : htree_node) : bool :=
  match t with Null => false | Node _ _ u _ _ _ => u end.

Definition mark_updated (ni : tee_fs_htree_node_image) (t : htree_node) : htree_node :=
  match t with Null => Null | Node id _ _ _ c0 c1 => Node id true true ni c0 c1 end.

Definition block_vers (ni : tee_fs_htree_node_image) : Z := b2z (has_flag (ni_flags ni) HTREE_NODE_COMMITTED_BLOCK).

Definition write_block_body (block_num : Z) (block : list Z) (ht : tee_fs_htree) : M (tee_fs_htree * unit) :=
  let! (ht, node) := get_block_node true block_num ht in
  let ni := img_of node in
  let ni := if negb (block_updated_of node)
            then set_flags (Z.lxor (ni_flags ni) HTREE_NODE_COMMITTED_BLOCK) ni else ni in
  ext ;; (* rpc_write_init *)
  let! iv := crypto_rng_read in
  authenc_init false ;;
  let! (crypt, tag) := authenc_encrypt_final (ht_fek ht) iv (block_aad (hd_enc_fek (ht_head ht)) iv) block in
  ext ;; (* rpc_write_final *)
  put_store (fun st => mk_storage (st_head st) (st_node st) (<[(block_num, block_vers ni) := crypt]> (st_block st))) ;;
  let ni := mk_nimage (ni_hash ni) iv tag (ni_flags ni) in
  ret (mk_htree (update_node (ht_root ht) (BLOCK_NUM_TO_NODE_ID block_num) (mark_updated ni))
                (ht_head ht) (ht_fek ht) (ht_imeta ht) true, tt).

Definition tee_fs_htree_write_block (ht_arg : option tee_fs_htree) (block_num : Z) (block : list Z) (w : world)
    : outcome (option tee_fs_htree * Z * option unit) * world :=
  match ht_arg with
  | None => (Return (None, TEE_ERROR_CORRUPT_OBJECT, None), w)
  | Some ht => close_on_error ht (write_block_body block_num block ht) w
  end.

Definition read_block_body (block_num : Z) (ht : tee_fs_htree) : M (tee_fs_htree * list Z) :=
  let! (ht, node) := get_block_node false block_num ht in
  let ni := img_of node in
  ext ;; ext ;; (* rpc_read_init, rpc_read_final *)
  let! enc_block := fun w => of_option (st_block (w_store w) !! (block_num, block_vers ni)) TEE_ERROR_CORRUPT_OBJECT w in
  (if bool_decide (length enc_block = block_size) then ret tt else err TEE_ERROR_CORRUPT_OBJECT) ;;
  authenc_init false ;;
  let! block := authenc_decrypt_final (ht_fek ht) (ni_iv ni) (block_aad (hd_enc_fek (ht_head ht)) (ni_iv ni))
    (ni_tag ni) enc_block in
  ret (ht, block).

Definition tee_fs_htree_read_block (ht_arg : option tee_fs_htree) (block_num : Z) (w : world)
    : outcome (option tee_fs_htree * Z * option (list Z)) * world :=
  match ht_arg with
  | None => (Return (None, TEE_ERROR_CORRUPT_OBJECT, None), w)
  | Some ht => close_on_error ht (read_block_body block_num ht) w
  end.

(** Unlinks the node from its parent. *)
Definition unlink_node (root : htree_node) (id : Z) : htree_node :=
  update_down (pred (depth_of id)) (Z.shiftr id 1) (set_child (Z.odd id) Null) root.

Fixpoint truncate_loop (count : nat) (ht : tee_fs_htree) : outcome tee_fs_htree :=
  match count with
  | O => Return ht
  | S count =>
      let max := im_max_node_id (ht_imeta ht) in
      (do! node <- find_closest_node (ht_root ht) max;
       assert! (node_id_of node =? max);
       assert! is_null (child_of node false) && is_null (child_of node true);
       assert! negb (max =? 1);
       truncate_loop count
         (mk_htree (unlink_node (ht_root ht) max) (ht_head ht) (ht_fek ht)
                   (mk_imeta (im_length (ht_imeta ht)) (max - 1)) true))%c
  end.

Definition tee_fs_htree_truncate (ht_arg : option tee_fs_htree) (block_num : Z)
    : outcome (option tee_fs_htree * Z) :=
  match ht_arg with
  | None => Return (None, TEE_ERROR_CORRUPT_OBJECT)
  | Some ht =>
      let node_id := BLOCK_NUM_TO_NODE_ID block_num in
      (do! ht <- truncate_loop (Z.to_nat (im_max_node_id (ht_imeta ht) - node_id)) ht;
       Return (Some ht, TEE_SUCCESS))%c
  end.

End htree.
