(* ===== verification/HtreeShape.v ===== *)
(** * Hash tree: shape, lookup and growth

    The tree of [Htree] is a heap-ordered binary tree: node [id] has children
    [2 id] and [2 id + 1], and the ids present are 1 to the largest. The walk by
    the bits of an id finds exactly the present nodes; growing and truncating
    keep the shape and the assertions on the way never fail. *)

From stdpp Require Import base gmap list.
From Stdlib Require Import ZArith Lia.
From S2P Require Import Prelude Htree.

Local Open Scope Z_scope.

(** ** Bits of ids *)

Definition shr (x : Z) (n : nat) : Z := Z.shiftr x (Z.of_nat n).

Lemma shr_0 x : shr x 0 = x.
Proof. apply Z.shiftr_0_r. Qed.

Lemma shr_bit x n : shr x n = 2 * shr x (S n) + b2z (Z.testbit x (Z.of_nat n)).
Proof.
  unfold shr. rewrite Z.testbit_odd.
  replace (Z.of_nat (S n)) with (Z.of_nat n + 1) by lia.
  rewrite <- Z.shiftr_shiftr by lia. rewrite <- Z.div2_spec.
  rewrite (Z.div2_odd (Z.shiftr x (Z.of_nat n))) at 1. unfold b2z. by destruct (Z.odd _).
Qed.

Lemma shr_pos x n : 1 <= shr x n -> 1 <= x.
Proof.
  unfold shr. rewrite Z.shiftr_div_pow2 by lia. intros H.
  assert (0 < 2 ^ Z.of_nat n) by (apply Z.pow_pos_nonneg; lia).
  destruct (Z.lt_ge_cases x 0) as [Hneg|Hge].
  - assert (x / 2 ^ Z.of_nat n < 0); [|lia]. apply Z.div_lt_upper_bound; lia.
  - assert (x / 2 ^ Z.of_nat n <= x) by (apply Z.div_le_upper_bound; nia). lia.
Qed.

Lemma shr_log2 x n : 1 <= shr x n -> Z.log2 (shr x n) = Z.log2 x - Z.of_nat n.
Proof.
  intros H. pose proof (shr_pos x n H) as Hx. unfold shr in *.
  rewrite Z.log2_shiftr by lia. apply Z.max_r.
  destruct (Z.le_gt_cases (Z.of_nat n) (Z.log2 x)) as [|Hgt]; [lia|].
  rewrite Z.shiftr_eq_0 in H; [lia|lia|lia].
Qed.

Lemma shr_depth x : 1 <= x -> shr x (depth_of x) = 1.
Proof.
  intros Hx. unfold shr, depth_of. pose proof (Z.log2_spec x ltac:(lia)) as [H1 H2].
  pose proof (Z.log2_nonneg x). rewrite Z2Nat.id by lia. rewrite Z.shiftr_div_pow2 by lia.
  rewrite Z.pow_succ_r in H2 by lia. symmetry. apply Z.div_unique with (x - 2 ^ Z.log2 x); lia.
Qed.

(** The distance to an ancestor is determined by the two ids. *)
Lemma shr_inj x n m : 1 <= shr x n -> shr x n = shr x m -> n = m.
Proof.
  intros H He. pose proof (shr_log2 x n H). rewrite He in H. pose proof (shr_log2 x m H).
  rewrite He in *. lia.
Qed.

Lemma shr_shr x n m : shr (shr x n) m = shr x (n + m).
Proof. unfold shr. rewrite Z.shiftr_shiftr by lia. f_equal. lia. Qed.

(** ** Well-formed trees and their contents *)

Fixpoint tree_wf (p : Z) (t : htree_node) : Prop :=
  match t with
  | Null => True
  | Node id _ _ _ c0 c1 => id = p /\ tree_wf (2 * p) c0 /\ tree_wf (2 * p + 1) c1
  end.

(** What a node holds besides its id and children. *)
Notation nstate := (bool * bool * tee_fs_htree_node_image)%type.

Fixpoint view (t : htree_node) : gmap Z nstate :=
  match t with
  | Null => ∅
  | Node id d u ni c0 c1 => <[id := (d, u, ni)]> (view c0 ∪ view c1)
  end.

(** The ids present are 1 to [m]. *)
Definition shape (m : Z) (t : htree_node) : Prop :=
  1 <= m /\ tree_wf 1 t /\ forall i, is_Some (view t !! i) <-> 1 <= i <= m.

Lemma view_ancestor p t i v : tree_wf p t -> view t !! i = Some v -> exists j, shr i j = p.
Proof.
  revert p. induction t as [|id d u ni c0 IH0 c1 IH1]; intros p Hw Hv; [done|].
  destruct Hw as (-> & Hw0 & Hw1). simpl in Hv.
  apply lookup_insert_Some in Hv as [[-> _]|[_ Hv]]; [exists 0%nat; apply shr_0|].
  apply lookup_union_Some_raw in Hv as [Hv|[_ Hv]].
  - apply (IH0 _ Hw0) in Hv as [j Hj]. exists (S j). pose proof (shr_bit i j).
    pose proof (b2z_range (Z.testbit i (Z.of_nat j))). lia.
  - apply (IH1 _ Hw1) in Hv as [j Hj]. exists (S j). pose proof (shr_bit i j).
    pose proof (b2z_range (Z.testbit i (Z.of_nat j))). lia.
Qed.

(** An id in the subtree of a node lies on the side its next bit says. *)
Lemma view_side p d u ni c0 c1 i n v :
  1 <= p -> tree_wf p (Node p d u ni c0 c1) -> shr i (S n) = p ->
  view (Node p d u ni c0 c1) !! i = Some v ->
  view (if Z.testbit i (Z.of_nat n) then c1 else c0) !! i = Some v.
Proof.
  intros Hp (_ & Hw0 & Hw1) Hs Hv. pose proof (shr_bit i n) as Hb. simpl in Hv.
  assert (Hne : i ≠ p).
  { intros ->. assert (S n = 0%nat); [|lia]. apply (shr_inj p); rewrite ?shr_0; lia. }
  rewrite lookup_insert_ne in Hv by done.
  assert (Hj : forall q j, 2 * p <= q <= 2 * p + 1 -> shr i j = q -> shr i n = q).
  { intros q j Hq Hj. assert (j = n) as ->; [|done].
    pose proof (shr_bit i j). pose proof (b2z_range (Z.testbit i (Z.of_nat j))).
    assert (S j = S n); [|lia]. apply (shr_inj i); lia. }
  apply lookup_union_Some_raw in Hv as [Hv|[_ Hv]].
  - destruct (view_ancestor _ _ _ _ Hw0 Hv) as [j Hq]. apply Hj in Hq; [|lia].
    destruct (Z.testbit i (Z.of_nat n)); [simpl in Hb; lia|done].
  - destruct (view_ancestor _ _ _ _ Hw1 Hv) as [j Hq]. apply Hj in Hq; [|lia].
    destruct (Z.testbit i (Z.of_nat n)); [done|simpl in Hb; lia].
Qed.

Lemma view_side_conv p d u ni c0 c1 i n :
  1 <= p -> tree_wf p (Node p d u ni c0 c1) -> shr i (S n) = p ->
  view (Node p d u ni c0 c1) !! i = view (if Z.testbit i (Z.of_nat n) then c1 else c0) !! i.
Proof.
  intros Hp Hw Hs. destruct (view (Node p d u ni c0 c1) !! i) as [v|] eqn:Hv.
  - symmetry. by apply (view_side p d u ni).
  - simpl in Hv. apply lookup_insert_None in Hv as [Hv _].
    apply lookup_union_None in Hv as [H0 H1]. by destruct (Z.testbit i (Z.of_nat n)).
Qed.

(** ** The walk *)

Lemma child_wf p t b : tree_wf p t -> tree_wf (2 * p + b2z b) (child_of t b).
Proof.
  destruct t as [|id d u ni c0 c1]; [done|]. intros (-> & H0 & H1). destruct b; simpl; [done|].
  by rewrite Z.add_0_r.
Qed.

(** The walk ends at the deepest present ancestor of the id. *)
Lemma walk_down_closest n i : forall t,
  1 <= shr i n -> tree_wf (shr i n) t -> t ≠ Null ->
  exists k, (k <= n)%nat /\ walk_down n i t ≠ Null /\ node_id_of (walk_down n i t) = shr i k /\
    tree_wf (shr i k) (walk_down n i t) /\
    (k = 0%nat \/ child_of (walk_down n i t) (Z.testbit i (Z.of_nat (pred k))) = Null).
Proof.
  induction n as [|n IH]; intros t Hp Hw Hn.
  - exists 0%nat. simpl. split; [lia|]. split; [done|]. split; [|auto].
    destruct t; [done|]. by destruct Hw as [-> _].
  - pose proof (shr_bit i n) as Hb. cbn [walk_down].
    set (c := child_of t (Z.testbit i (Z.of_nat n))).
    assert (Hwc : tree_wf (shr i n) c) by (rewrite Hb; by apply child_wf).
    destruct c as [|cid cd cu cni cc0 cc1] eqn:Hc.
    + exists (S n). split; [lia|]. split; [done|]. split; [|split; [done|right; done]].
      destruct t; [done|]. by destruct Hw as [-> _].
    + destruct (IH (Node cid cd cu cni cc0 cc1)) as (k & Hk & H1 & H2 & H3 & H4); [|done|done|].
      { pose proof (b2z_range (Z.testbit i (Z.of_nat n))). lia. }
      exists k. split; [lia|]. done.
Qed.

(** The walk finds a node that is there. *)
Lemma walk_down_found n i d u ni : forall t,
  1 <= shr i n -> tree_wf (shr i n) t -> view t !! i = Some (d, u, ni) ->
  exists c0 c1, walk_down n i t = Node i d u ni c0 c1.
Proof.
  induction n as [|n IH]; intros t Hp Hw Hv.
  - rewrite shr_0 in *. destruct t as [|id d' u' ni' c0 c1]; [done|]. destruct Hw as (-> & _).
    simpl in Hv. rewrite lookup_insert_eq in Hv. injection Hv as -> -> ->. by exists c0, c1.
  - destruct t as [|id d' u' ni' c0 c1]; [done|]. pose proof Hw as (Hid & Hw0 & Hw1). subst id.
    rewrite (view_side_conv _ _ _ _ _ _ _ n) in Hv by done. cbn [walk_down child_of].
    pose proof (shr_bit i n) as Hb.
    assert (Hwc : tree_wf (shr i n) (if Z.testbit i (Z.of_nat n) then c1 else c0)).
    { rewrite Hb. destruct (Z.testbit i (Z.of_nat n)); simpl; [done|by rewrite Z.add_0_r]. }
    destruct (if Z.testbit i (Z.of_nat n) then c1 else c0) as [|a b c e f g] eqn:Hc; [done|].
    apply IH; [|done|done]. pose proof (b2z_range (Z.testbit i (Z.of_nat n))). lia.
Qed.

(** Where the walk ends at the id, the node is there. *)
Lemma walk_down_hit i : 1 <= i -> forall n t,
  1 <= shr i n -> tree_wf (shr i n) t -> t ≠ Null ->
  node_id_of (walk_down n i t) = i -> is_Some (view t !! i).
Proof.
  intros Hi. induction n as [|n IH]; intros t Hp Hw Hn Hid.
  - rewrite shr_0 in *. destruct t as [|id d u ni c0 c1]; [done|]. simpl in *. subst id.
    rewrite lookup_insert_eq. eauto.
  - destruct t as [|id d u ni c0 c1]; [done|]. pose proof Hw as (He & Hw0 & Hw1). subst id.
    rewrite (view_side_conv _ _ _ _ _ _ _ n) by done. cbn [walk_down child_of] in Hid.
    pose proof (shr_bit i n) as Hb. pose proof (b2z_range (Z.testbit i (Z.of_nat n))).
    assert (Hwc : tree_wf (shr i n) (if Z.testbit i (Z.of_nat n) then c1 else c0)).
    { rewrite Hb. destruct (Z.testbit i (Z.of_nat n)); simpl; [done|by rewrite Z.add_0_r]. }
    destruct (if Z.testbit i (Z.of_nat n) then c1 else c0) as [|a b c e f g] eqn:Hc.
    + simpl in Hid. exfalso. assert (S n = 0%nat); [|lia]. apply (shr_inj i); rewrite ?shr_0; lia.
    + apply IH; [lia|done|done|done].
Qed.

(** ... and when the node is not there, the walk ends above it, where the path
    stops. *)
Lemma closest_absent t i :
  1 <= i -> tree_wf 1 t -> t ≠ Null -> view t !! i = None ->
  exists k, (k < depth_of i)%nat /\ node_id_of (walk_down (depth_of i) i t) = shr i (S k) /\
    child_of (walk_down (depth_of i) i t) (Z.testbit i (Z.of_nat k)) = Null.
Proof.
  intros Hi Hw Hn Hv. pose proof (shr_depth i Hi) as Hd.
  destruct (walk_down_closest (depth_of i) i t) as (k & Hk & H1 & H2 & H3 & H4); [lia|by rewrite Hd|done|].
  destruct k as [|k].
  - exfalso. rewrite shr_0 in H2.
    destruct (walk_down_hit i Hi (depth_of i) t) as [v Hv']; [lia|by rewrite Hd|done|done|congruence].
  - destruct H4 as [|H4]; [done|]. exists k. split; [lia|]. done.
Qed.

Lemma find_closest_ok t i :
  1 <= i < UINT_MAX -> find_closest_node t i = Return (walk_down (depth_of i) i t).
Proof.
  intros Hi. unfold find_closest_node, node_id_to_level, depth_of.
  replace (negb (i =? 0) && (i <? UINT_MAX)) with true.
  - simpl. by replace (Z.log2 i + 1 - 1) with (Z.log2 i) by lia.
  - symmetry. apply andb_true_iff. split; [apply negb_true_iff, Z.eqb_neq; lia|apply Z.ltb_lt; lia].
Qed.

Lemma shape_not_null m t : shape m t -> t ≠ Null.
Proof.
  intros (Hm & _ & Hi) ->. destruct (proj2 (Hi 1) ltac:(lia)) as [v Hv]. done.
Qed.

Lemma shape_lookup m t i :
  shape m t -> 1 <= i <= m ->
  exists d u ni c0 c1, view t !! i = Some (d, u, ni) /\ walk_down (depth_of i) i t = Node i d u ni c0 c1.
Proof.
  intros (Hm & Hw & Hin) Hi. destruct (proj2 (Hin i) Hi) as [[[d u] ni] Hv].
  pose proof (shr_depth i ltac:(lia)) as Hd.
  destruct (walk_down_found (depth_of i) i d u ni t) as (c0 & c1 & Hwd); [lia|by rewrite Hd|done|].
  by exists d, u, ni, c0, c1.
Qed.

(** ** Updates through the walk *)

Lemma update_down_step n i f t :
  t ≠ Null ->
  update_down (S n) i f t =
  let b := Z.testbit i (Z.of_nat n) in
  if is_null (child_of t b) then f t else set_child b (update_down n i f (child_of t b)) t.
Proof.
  destruct t as [|id d u ni c0 c1]; [done|]. intros _. cbn [update_down child_of].
  by destruct (Z.testbit i (Z.of_nat n)); [destruct c1|destruct c0].
Qed.

Lemma walk_down_step n i t :
  walk_down (S n) i t =
  let c := child_of t (Z.testbit i (Z.of_nat n)) in if is_null c then t else walk_down n i c.
Proof. cbn [walk_down]. by destruct (child_of t _). Qed.

(** The other side of a node does not hold the id. *)
Lemma view_other_side p d u ni c0 c1 i n :
  1 <= p -> tree_wf p (Node p d u ni c0 c1) -> shr i (S n) = p ->
  view (child_of (Node p d u ni c0 c1) (negb (Z.testbit i (Z.of_nat n)))) !! i = None.
Proof.
  intros Hp Hw Hs. destruct (view _ !! i) as [v|] eqn:Hv; [|done]. exfalso.
  pose proof (child_wf p _ (negb (Z.testbit i (Z.of_nat n))) Hw) as Hc.
  destruct (view_ancestor _ _ _ _ Hc Hv) as [j Hj]. pose proof (shr_bit i n). pose proof (shr_bit i j).
  pose proof (b2z_range (Z.testbit i (Z.of_nat j))). pose proof (b2z_range (Z.testbit i (Z.of_nat n))).
  assert (j = n) as ->.
  { assert (S j = S n); [|lia]. pose proof (b2z_range (negb (Z.testbit i (Z.of_nat n)))).
    apply (shr_inj i); lia. }
  destruct (Z.testbit i (Z.of_nat n)); simpl in *; lia.
Qed.

Lemma view_child_lookup p d u ni c0 c1 i n :
  1 <= p -> tree_wf p (Node p d u ni c0 c1) -> shr i (S n) = p ->
  view (Node p d u ni c0 c1) !! i = view (child_of (Node p d u ni c0 c1) (Z.testbit i (Z.of_nat n))) !! i.
Proof. apply view_side_conv. Qed.

Lemma shr_neq i n : 1 <= shr i (S n) -> i ≠ shr i (S n).
Proof. intros Hp He. assert (S n = 0%nat); [|lia]. apply (shr_inj i); rewrite ?shr_0; lia. Qed.

Lemma view_set_child p d u ni c0 c1 c i n (o : option nstate) :
  let t := Node p d u ni c0 c1 in
  let b := Z.testbit i (Z.of_nat n) in
  1 <= p -> tree_wf p t -> shr i (S n) = p ->
  (forall j, view c !! j = if decide (j = i) then o else view (child_of t b) !! j) ->
  forall j, view (set_child b c t) !! j = if decide (j = i) then o else view t !! j.
Proof.
  intros t b Hp Hw Hs Hc j. pose proof (shr_neq i n ltac:(lia)) as Hne.
  pose proof (view_other_side p d u ni c0 c1 i n Hp Hw Hs) as Ho. fold t in Ho. fold b in Ho.
  subst t. destruct b; simpl in *; destruct (decide (j = i)) as [->|Hj].
  - rewrite lookup_insert_ne by congruence. rewrite lookup_union, Ho, Hc, decide_True by done.
    by rewrite (left_id_L None _).
  - destruct (decide (j = p)) as [->|Hjp]; [by rewrite !lookup_insert_eq|].
    rewrite !lookup_insert_ne by done. by rewrite !lookup_union, Hc, decide_False.
  - rewrite lookup_insert_ne by congruence. rewrite lookup_union, Ho, Hc, decide_True by done.
    by rewrite (right_id_L None _).
  - destruct (decide (j = p)) as [->|Hjp]; [by rewrite !lookup_insert_eq|].
    rewrite !lookup_insert_ne by done. by rewrite !lookup_union, Hc, decide_False.
Qed.

Lemma set_child_wf p t c b :
  tree_wf p t -> tree_wf (2 * p + b2z b) c -> tree_wf p (set_child b c t).
Proof.
  destruct t as [|id d u ni c0 c1]; [done|]. intros (-> & H0 & H1) Hc.
  destruct b; simpl in *; [done|]. by rewrite Z.add_0_r in Hc.
Qed.

Lemma child_shr i n t :
  1 <= shr i (S n) -> tree_wf (shr i (S n)) t ->
  1 <= shr i n /\ tree_wf (shr i n) (child_of t (Z.testbit i (Z.of_nat n))).
Proof.
  intros Hp Hw. pose proof (shr_bit i n) as Hb. pose proof (b2z_range (Z.testbit i (Z.of_nat n))).
  split; [lia|]. rewrite Hb. by apply child_wf.
Qed.

(** Changing the state of a present node, not its id or children. *)
Definition state_update (g : htree_node -> htree_node) : Prop :=
  forall id d u ni c0 c1, exists d' u' ni', g (Node id d u ni c0 c1) = Node id d' u' ni' c0 c1.

Definition state_of (t : htree_node) : option nstate :=
  match t with Null => None | Node _ d u ni _ _ => Some (d, u, ni) end.

Lemma update_state n i g : forall t,
  state_update g -> 1 <= shr i n -> tree_wf (shr i n) t -> is_Some (view t !! i) ->
  tree_wf (shr i n) (update_down n i g t) /\
  forall j, view (update_down n i g t) !! j =
    if decide (j = i) then state_of (g (walk_down n i t)) else view t !! j.
Proof.
  induction n as [|n IH]; intros t Hg Hp Hw Hin.
  - rewrite shr_0 in *. destruct t as [|id d u ni c0 c1]; [by destruct Hin|].
    destruct Hw as (-> & Hw0 & Hw1). simpl.
    destruct (Hg i d u ni c0 c1) as (d' & u' & ni' & He). rewrite He. simpl.
    split; [done|]. intros j. destruct (decide (j = i)) as [->|Hj]; [by rewrite lookup_insert_eq|].
    by rewrite !lookup_insert_ne.
  - destruct t as [|id d u ni c0 c1]; [by destruct Hin|]. pose proof Hw as (Hid & _). subst id.
    rewrite (view_child_lookup _ _ _ _ _ _ _ n) in Hin by done.
    rewrite update_down_step, walk_down_step by done. cbv zeta.
    destruct (child_shr i n _ Hp Hw) as [Hp' Hwc].
    destruct (IH (child_of (Node (shr i (S n)) d u ni c0 c1) (Z.testbit i (Z.of_nat n)))) as [IH1 IH2]; [done..|].
    destruct (is_null _) eqn:Hnull.
    { destruct (child_of _ _); [by destruct Hin|done]. }
    split; [apply set_child_wf; [done|]; by rewrite <- shr_bit|]. by apply view_set_child.
Qed.

(** Hanging a new node under the node where the walk stops: its ancestors are
    present. *)
Lemma update_add n i : forall t,
  1 <= shr i (S n) -> tree_wf (shr i (S n)) t -> t ≠ Null -> view t !! i = None ->
  (forall j, (1 <= j <= n)%nat -> is_Some (view t !! shr i j)) ->
  let t' := update_down (S n) i (set_child (Z.testbit i 0) (new_node i)) t in
  tree_wf (shr i (S n)) t' /\
  forall j, view t' !! j = if decide (j = i) then Some (false, false, zero_nimage) else view t !! j.
Proof.
  induction n as [|n IH]; intros t Hp Hw Hn Hv Hanc; cbv zeta;
    (destruct t as [|id d u ni c0 c1]; [done|]); pose proof Hw as (Hid & _); subst id;
    rewrite update_down_step by done; cbv zeta.
  - rewrite (view_child_lookup _ _ _ _ _ _ _ 0) in Hv by done.
    destruct (child_shr i 0 _ Hp Hw) as [Hp' Hwc]. rewrite shr_0 in Hwc.
    change (Z.testbit i 0) with (Z.testbit i (Z.of_nat 0)).
    destruct (child_of (Node (shr i 1) d u ni c0 c1) (Z.testbit i (Z.of_nat 0))) as [|x d1 u1 n1 y z] eqn:Hc.
    2: { destruct Hwc as [-> _]. simpl in Hv. by rewrite lookup_insert_eq in Hv. }
    cbn [is_null]. split.
    + apply set_child_wf; [done|]. simpl. pose proof (shr_bit i 0) as Hb. by rewrite shr_0 in Hb.
    + apply (view_set_child _ _ _ _ _ _ _ i 0); [done..|]. intros j. rewrite Hc. simpl.
      destruct (decide (j = i)) as [->|Hj]; [by rewrite lookup_insert_eq|].
      by rewrite lookup_insert_ne, lookup_union, !lookup_empty by done.
  - rewrite (view_child_lookup _ _ _ _ _ _ _ (S n)) in Hv by done.
    destruct (child_shr i (S n) _ Hp Hw) as [Hp' Hwc].
    set (c := child_of _ _) in *.
    assert (Hcn : c ≠ Null).
    { destruct (Hanc (S n)) as [v Hx]; [lia|]. intros Hc.
      rewrite (view_child_lookup _ d u ni c0 c1 _ 0 Hp Hw) in Hx by (rewrite shr_shr; f_equal; lia).
      replace (Z.testbit (shr i (S n)) (Z.of_nat 0)) with (Z.testbit i (Z.of_nat (S n))) in Hx.
      - fold c in Hx. by rewrite Hc in Hx.
      - unfold shr. rewrite Z.shiftr_spec by lia. f_equal; lia. }
    replace (is_null c) with false by (by destruct c).
    destruct (IH c Hp' Hwc Hcn Hv) as [IH1 IH2].
    { intros j Hj. destruct (Hanc j ltac:(lia)) as [v Hx].
      rewrite (view_child_lookup _ d u ni c0 c1 _ (S n - j) Hp Hw) in Hx by (rewrite shr_shr; f_equal; lia).
      replace (Z.testbit (shr i j) (Z.of_nat (S n - j))) with (Z.testbit i (Z.of_nat (S n))) in Hx; [eauto|].
      unfold shr. rewrite Z.shiftr_spec by lia. f_equal; lia. }
    split; [apply set_child_wf; [done|]; by rewrite <- shr_bit|].
    by apply (view_set_child _ _ _ _ _ _ _ i (S n)).
Qed.

(** ** Growing *)

(** The walk to [i] is the walk to its parent and one step. *)
Lemma walk_down_last n i : forall t,
  1 <= shr (shr i 1) n -> tree_wf (shr (shr i 1) n) t -> is_Some (view t !! shr i 1) ->
  walk_down (S n) i t =
  let x := walk_down n (shr i 1) t in
  let c := child_of x (Z.testbit i 0) in if is_null c then x else c.
Proof.
  induction n as [|n IH]; intros t Hp Hw Hin.
  - rewrite walk_down_step. cbv zeta. cbn [walk_down]. by destruct (is_null _).
  - destruct t as [|id d u ni c0 c1]; [by destruct Hin|]. pose proof Hw as (Hid & _).
    rewrite walk_down_step, (walk_down_step n). cbv zeta.
    assert (Hb : Z.testbit (shr i 1) (Z.of_nat n) = Z.testbit i (Z.of_nat (S n))).
    { unfold shr. rewrite Z.shiftr_spec by lia. f_equal; lia. }
    rewrite Hb. subst id. rewrite (view_child_lookup _ _ _ _ _ _ _ n) in Hin by done.
    destruct (child_shr _ n _ Hp Hw) as [Hp' Hwc]. rewrite Hb in Hin, Hwc.
    set (c := child_of _ _) in *. destruct (is_null c) eqn:Hc.
    + destruct c; [by destruct Hin|done].
    + by apply IH.
Qed.

Lemma depth_parent i : 2 <= i -> depth_of i = S (depth_of (shr i 1)).
Proof.
  intros Hi. unfold depth_of, shr. change (Z.of_nat 1) with 1. rewrite Z.log2_shiftr by lia.
  pose proof (Z.log2_le_mono 2 i Hi) as Hl. change (Z.log2 2) with 1 in Hl. lia.
Qed.

Lemma shr1_range i m : 1 <= m -> i = m + 1 -> 1 <= shr i 1 <= m.
Proof.
  intros Hm ->. unfold shr. change (Z.of_nat 1) with 1. rewrite Z.shiftr_div_pow2 by lia.
  change (2 ^ 1) with 2. Z.div_mod_to_equations; lia.
Qed.

(** The first missing id hangs under its parent, on a free side. *)
Lemma closest_next m t :
  shape m t ->
  exists d u ni c0 c1, walk_down (depth_of (m + 1)) (m + 1) t = Node (shr (m + 1) 1) d u ni c0 c1 /\
    child_of (Node (shr (m + 1) 1) d u ni c0 c1) (Z.testbit (m + 1) 0) = Null.
Proof.
  intros Hsh. pose proof Hsh as (Hm & Hw & Hin). set (i := m + 1) in *.
  pose proof (shr1_range i m Hm eq_refl) as Hq.
  destruct (shape_lookup m t (shr i 1) Hsh Hq) as (d & u & ni & c0 & c1 & Hv & Hwd).
  exists d, u, ni, c0, c1. rewrite (depth_parent i) by lia.
  assert (Hq1 : shr (shr i 1) (depth_of (shr i 1)) = 1) by (apply shr_depth; lia).
  rewrite walk_down_last by (rewrite ?Hq1; eauto; lia). cbv zeta. rewrite Hwd.
  assert (Hnull : child_of (Node (shr i 1) d u ni c0 c1) (Z.testbit i 0) = Null); [|by rewrite Hnull].
  destruct (child_of _ (Z.testbit i 0)) as [|x a b c e f] eqn:Hc; [done|]. exfalso.
  destruct (walk_down_hit i ltac:(lia) (depth_of i) t) as [v Hx].
  - rewrite shr_depth by lia. lia.
  - by rewrite shr_depth by lia.
  - by eapply shape_not_null.
  - rewrite (depth_parent i) by lia. rewrite walk_down_last by (rewrite ?Hq1; eauto; lia). cbv zeta.
    rewrite Hwd, Hc. simpl. pose proof (child_wf (shr i 1) (Node (shr i 1) d u ni c0 c1) (Z.testbit i 0)) as Hcw.
    rewrite Hc in Hcw.
    destruct (walk_down_closest (depth_of (shr i 1)) (shr i 1) t) as (k & _ & _ & Hk & Hkw & _);
      [lia|by rewrite Hq1|by eapply shape_not_null|].
    rewrite Hwd in Hk, Hkw. simpl in Hk. rewrite <- Hk in Hkw. apply Hcw in Hkw as [-> _].
    pose proof (shr_bit i 0) as Hb. rewrite shr_0 in Hb. change (Z.of_nat 0) with 0 in Hb. done.
  - assert (1 <= i <= m) by (apply Hin; eauto). lia.
Qed.

Definition fresh_state : nstate := (false, false, zero_nimage).

(** [t'] is [t] with fresh nodes up to [m']. *)
Definition grown (m m' : Z) (t t' : htree_node) : Prop :=
  shape m' t' /\ forall i, view t' !! i = if decide (m < i <= m') then Some fresh_state else view t !! i.

Lemma grown_refl m t : shape m t -> grown m m t t.
Proof. intros Hs. split; [done|]. intros i. by rewrite decide_False by lia. Qed.

Lemma grown_trans m1 m2 m3 t1 t2 t3 :
  m1 <= m2 <= m3 -> grown m1 m2 t1 t2 -> grown m2 m3 t2 t3 -> grown m1 m3 t1 t3.
Proof.
  intros Hm [_ H12] [Hs H23]. split; [done|]. intros i. rewrite H23, H12.
  repeat case_decide; try lia; done.
Qed.

Lemma add_next m t :
  shape m t ->
  grown m (m + 1) t (update_node t (m + 1) (set_child (Z.odd (m + 1)) (new_node (m + 1)))).
Proof.
  intros Hsh. pose proof Hsh as (Hm & Hw & Hin). set (i := m + 1).
  pose proof (shr1_range i m Hm eq_refl) as Hq. unfold update_node.
  rewrite (depth_parent i) by lia. rewrite <- Z.bit0_odd.
  assert (Hd : shr i (S (depth_of (shr i 1))) = 1) by (rewrite <- depth_parent by lia; apply shr_depth; lia).
  assert (Hnv : view t !! i = None).
  { destruct (view t !! i) eqn:Hv; [|done]. assert (1 <= i <= m) by (apply Hin; eauto). lia. }
  destruct (update_add (depth_of (shr i 1)) i t) as [Hw' Hv']; [lia|by rewrite Hd|by eapply shape_not_null|done| |].
  { intros j Hj. apply Hin. assert (1 <= shr i j).
    { clear -Hj Hd Hq. pose proof (shr_depth (shr i 1) ltac:(lia)) as Hx. rewrite shr_shr in Hx.
      replace (1 + depth_of (shr i 1))%nat with (j + (1 + depth_of (shr i 1) - j))%nat in Hx by lia.
      rewrite <- shr_shr in Hx. apply (shr_pos _ (1 + depth_of (shr i 1) - j)). lia. }
    split; [done|]. assert (shr i j <= shr i 1); [|lia].
    replace j with (1 + (j - 1))%nat by lia. rewrite <- shr_shr. unfold shr at 1.
    rewrite Z.shiftr_div_pow2 by lia.
    assert (0 < 2 ^ Z.of_nat (j - 1)) by (apply Z.pow_pos_nonneg; lia).
    apply Z.div_le_upper_bound; nia. }
  rewrite Hd in Hw'. split; [split; [lia|split; [done|]]|].
  - intros j. rewrite Hv'. destruct (decide (j = i)) as [->|Hj]; [split; [lia|eauto]|].
    rewrite Hin. lia.
  - intros j. rewrite Hv'. unfold fresh_state. repeat case_decide; try lia; done.
Qed.

(** External calls touch neither the storage nor the generator. *)
Definition quiet (w w' : world) : Prop := w_store w' = w_store w /\ w_rng w' = w_rng w.

#[global] Instance quiet_preorder : PreOrder quiet.
Proof. unfold quiet. split; [done|]. intros a b c [-> ->] [-> ->]. done. Qed.

Lemma ext_cases w : exists w', quiet w w' /\ ((ext w = (Ok tt, w') /\ (w_ext w = [] -> w' = w)) \/ exists c, ext w = (Err c, w') /\ w_ext w ≠ []).
Proof.
  unfold ext. destruct (w_ext w) as [|c l] eqn:He; [exists w; split; [done|]; left; done|].
  exists (mk_world (w_store w) l (w_rng w)). split; [done|].
  destruct (c =? TEE_SUCCESS); [left; done|]. right. eauto.
Qed.

Lemma add_nodes_spec count : forall n m t w,
  shape m t -> 1 <= n <= m + 1 -> n + Z.of_nat count <= UINT_MAX ->
  let m' := Z.max m (n + Z.of_nat count - 1) in
  exists w', quiet w w' /\
    ((exists t', add_nodes count n t w = (Ok t', w') /\ grown m m' t t' /\ (w_ext w = [] -> w' = w)) \/
     (exists c, add_nodes count n t w = (Err c, w') /\ w_ext w ≠ [])).
Proof.
  induction count as [|count IH]; intros n m t w Hsh Hn Hb; cbv zeta.
  - exists w. split; [done|]. left. exists t. split; [done|]. split; [|done].
    replace (Z.max m (n + Z.of_nat 0 - 1)) with m by lia. by apply grown_refl.
  - pose proof Hsh as (Hm & Hw & Hin). cbn [add_nodes]. unfold bind, of_outcome.
    rewrite find_closest_ok by lia. unfold ret.
    destruct (decide (n <= m)) as [Hle|Hgt].
    + destruct (shape_lookup m t n Hsh ltac:(lia)) as (d & u & ni & c0 & c1 & Hv & ->).
      cbn [node_id_of]. rewrite Z.eqb_refl.
      destruct (IH (n + 1) m t w Hsh) as (w' & Hq & Hr); [lia|lia|]. exists w'. split; [done|].
      by replace (n + Z.of_nat (S count) - 1) with (n + 1 + Z.of_nat count - 1) by lia.
    + assert (n = m + 1) as -> by lia.
      destruct (closest_next m t Hsh) as (d & u & ni & c0 & c1 & -> & Hc).
      pose proof (shr1_range (m + 1) m Hm eq_refl) as Hq1.
      change (Z.shiftr (m + 1) 1) with (shr (m + 1) 1).
      cbn [node_id_of]. destruct (Z.eqb_spec (shr (m + 1) 1) (m + 1)); [lia|].
      rewrite <- Z.bit0_odd, Hc, Z.eqb_refl. unfold check, ret. cbn [is_null].
      destruct (ext_cases w) as (w1 & Hq & [[-> Hnil]|(c & -> & Hne)]).
      2: { exists w1. split; [done|]. right. eauto. }
      pose proof (add_next m t Hsh) as Hg. rewrite <- Z.bit0_odd in Hg. pose proof Hg as [Hsh1 _].
      destruct (IH (m + 1 + 1) (m + 1) _ w1 Hsh1) as (w' & Hq' & Hr); [lia|lia|].
      exists w'. split; [by etrans|].
      replace (Z.max m (m + 1 + Z.of_nat (S count) - 1)) with (Z.max (m + 1) (m + 1 + 1 + Z.of_nat count - 1)) by lia.
      destruct Hr as [(t' & -> & Hg' & Hw')|(c & -> & Hne)].
      * left. exists t'. split; [done|]. split.
        { eapply grown_trans; [|exact Hg|exact Hg']. lia. }
        intros He. rewrite Hw'; [by rewrite Hnil|]. by rewrite Hnil.
      * right. exists c. split; [done|]. intros He. apply Hne. by rewrite Hnil.
Qed.

Lemma closest_ancestor m t i :
  shape m t -> 1 <= i -> 1 <= node_id_of (walk_down (depth_of i) i t) <= i /\
    node_id_of (walk_down (depth_of i) i t) <= m.
Proof.
  intros Hsh Hi. pose proof Hsh as (Hm & Hw & Hin). pose proof (shr_depth i Hi) as Hd.
  destruct (walk_down_closest (depth_of i) i t) as (k & Hk & Hn & Hid & Hkw & _); [lia|by rewrite Hd|by eapply shape_not_null|].
  assert (1 <= shr i k).
  { replace (depth_of i) with (k + (depth_of i - k))%nat in Hd by lia. rewrite <- shr_shr in Hd.
    apply (shr_pos _ (depth_of i - k)). lia. }
  assert (shr i k <= i).
  { unfold shr. rewrite Z.shiftr_div_pow2 by lia.
    assert (0 < 2 ^ Z.of_nat k) by (apply Z.pow_pos_nonneg; lia). apply Z.div_le_upper_bound; nia. }
  split; [lia|]. rewrite Hid. apply Hin.
  (* the ancestor reached is present *)
  assert (Hpres : forall n t, 1 <= shr i n -> tree_wf (shr i n) t -> t ≠ Null ->
    is_Some (view t !! node_id_of (walk_down n i t))).
  { clear. induction n as [|n IH]; intros t Hp Hw Hn.
    - destruct t as [|id d u ni c0 c1]; [done|]. simpl. rewrite lookup_insert_eq. eauto.
    - rewrite walk_down_step. cbv zeta. destruct t as [|id d u ni c0 c1]; [done|].
      pose proof Hw as (Hid & _). subst id. destruct (child_shr i n _ Hp Hw) as [Hp' Hwc].
      set (c := child_of _ _) in *. destruct (is_null c) eqn:Hc.
      + simpl. rewrite lookup_insert_eq. eauto.
      + assert (c ≠ Null) as Hcn by (by destruct c). specialize (IH c Hp' Hwc Hcn) as [v Hv].
        unfold c in Hv. set (j := node_id_of _) in *. simpl. destruct (decide (j = shr i (S n))) as [->|Hj].
        * rewrite lookup_insert_eq. eauto.
        * rewrite lookup_insert_ne by done. rewrite lookup_union.
          destruct (Z.testbit i (Z.of_nat n)); simpl in Hv; rewrite Hv.
          { destruct (view c0 !! j); simpl; eauto. }
          { destruct (view c1 !! j); simpl; eauto. } }
  rewrite <- Hid. apply Hpres; [lia|by rewrite Hd|by eapply shape_not_null].
Qed.

Lemma get_node_spec create i m max t w :
  shape m t -> m = Z.max 1 max -> 1 <= i < UINT_MAX ->
  exists w', quiet w w' /\
  (((i <= m \/ create = true) /\
    exists t', get_node create i t max w = (Ok (t', Z.max max (if i <=? m then max else i)), w') /\
      grown m (Z.max m i) t t' /\ (w_ext w = [] -> w' = w)) \/
   (exists c, get_node create i t max w = (Err c, w') /\
      ((m < i /\ create = false /\ c = TEE_ERROR_GENERIC /\ w' = w) \/ w_ext w ≠ []))).
Proof.
  intros Hsh Hm Hi. unfold get_node, bind, of_outcome. rewrite find_closest_ok by lia. unfold ret.
  destruct (closest_ancestor m t i Hsh ltac:(lia)) as [Ha Ham].
  destruct (Z.leb_spec i m) as [Hle|Hgt].
  - destruct (shape_lookup m t i Hsh ltac:(lia)) as (d & u & ni & c0 & c1 & Hv & ->).
    cbn [node_id_of]. rewrite Z.eqb_refl. exists w. split; [done|]. left. split; [auto|].
    exists t. split; [by rewrite Z.max_id|]. split; [|done].
    rewrite Z.max_l by lia. by apply grown_refl.
  - destruct (Z.eqb_spec (node_id_of (walk_down (depth_of i) i t)) i) as [He|Hne]; [lia|].
    destruct create; cbn [negb].
    + set (a := node_id_of _) in *.
      destruct (add_nodes_spec (Z.to_nat (i - a)) (a + 1) m t w Hsh) as (w' & Hq & Hr); [lia|lia|].
      exists w'. split; [done|].
      replace (Z.max m (a + 1 + Z.of_nat (Z.to_nat (i - a)) - 1)) with (Z.max m i) in Hr by lia.
      destruct Hr as [(t' & -> & Hg & Hw)|(c & -> & Hc)].
      * left. split; [auto|]. exists t'. split; [|done].
        destruct (Z.gtb_spec i max); [by rewrite Z.max_r by lia|lia].
      * right. exists c. split; [done|]. by right.
    + exists w. split; [done|]. right. exists TEE_ERROR_GENERIC. split; [done|]. left. done.
Qed.

(** ** Truncating *)

Lemma update_unlink n i d u ni : forall t,
  1 <= shr i (S n) -> tree_wf (shr i (S n)) t ->
  view t !! i = Some (d, u, ni) -> view t !! (2 * i) = None -> view t !! (2 * i + 1) = None ->
  (forall j, (1 <= j <= n)%nat -> is_Some (view t !! shr i j)) ->
  let t' := update_down n (shr i 1) (set_child (Z.testbit i 0) Null) t in
  tree_wf (shr i (S n)) t' /\
  forall j, view t' !! j = if decide (j = i) then None else view t !! j.
Proof.
  assert (H2 : forall b, shr (2 * i + b2z b) 1 = i).
  { intros b. unfold shr. change (Z.of_nat 1) with 1. rewrite Z.shiftr_div_pow2 by lia. change (2 ^ 1) with 2.
    pose proof (b2z_range b). Z.div_mod_to_equations; lia. }
  induction n as [|n IH]; intros t Hp Hw Hv Hv0 Hv1 Hanc; cbv zeta;
    (destruct t as [|id d0 u0 n0 c0 c1]; [done|]); pose proof Hw as (Hid & _); subst id.
  - cbn [update_down]. rewrite (view_child_lookup _ _ _ _ _ _ _ 0) in Hv by done.
    destruct (child_shr i 0 _ Hp Hw) as [Hp' Hwc]. rewrite shr_0 in Hp', Hwc.
    change (Z.testbit i 0) with (Z.testbit i (Z.of_nat 0)).
    assert (Hk : forall b, view (child_of (Node (shr i 1) d0 u0 n0 c0 c1) (Z.testbit i (Z.of_nat 0))) !! (2 * i + b2z b) = None).
    { intros b. assert (Hb : view (Node (shr i 1) d0 u0 n0 c0 c1) !! (2 * i + b2z b) = None)
        by (destruct b; simpl b2z; [done|by rewrite Z.add_0_r]).
      rewrite (view_child_lookup _ d0 u0 n0 c0 c1 _ 1 Hp Hw) in Hb by (rewrite <- (shr_shr _ 1 1), H2; done).
      replace (Z.testbit (2 * i + b2z b) (Z.of_nat 1)) with (Z.testbit i (Z.of_nat 0)) in Hb; [done|].
      rewrite <- (H2 b) at 1. unfold shr. rewrite Z.shiftr_spec by lia. f_equal; lia. }
    split; [by apply set_child_wf|]. apply (view_set_child _ _ _ _ _ _ _ i 0); [done..|].
    destruct (child_of _ _) as [|x a b c e f] eqn:Hc; [done|]. destruct Hwc as (-> & He & Hf).
    assert (e = Null) as ->.
    { destruct e as [|y ? ? ? ? ?]; [done|]. destruct He as [-> _]. specialize (Hk false). simpl in Hk.
      rewrite lookup_insert_ne, lookup_union, Z.add_0_r, lookup_insert_eq in Hk by lia.
      by destruct (view f !! (2 * i)). }
    assert (f = Null) as ->.
    { destruct f as [|y ? ? ? ? ?]; [done|]. destruct Hf as [-> _]. specialize (Hk true). simpl in Hk.
      rewrite lookup_insert_ne, lookup_union, lookup_empty, lookup_insert_eq in Hk by lia. done. }
    intros j. simpl. destruct (decide (j = i)) as [->|Hj]; [done|].
    by rewrite lookup_insert_ne, lookup_union, !lookup_empty by done.
  - assert (Hp1 : shr (shr i 1) (S n) = shr i (S (S n))) by (rewrite shr_shr; f_equal; lia).
    rewrite update_down_step by done. cbv zeta.
    assert (Hb : Z.testbit (shr i 1) (Z.of_nat n) = Z.testbit i (Z.of_nat (S n))).
    { unfold shr. rewrite Z.shiftr_spec by lia. f_equal; lia. }
    rewrite Hb. destruct (child_shr i (S n) _ Hp Hw) as [Hp' Hwc].
    assert (Hdown : forall x k, shr x k = i -> 
      view (Node (shr i (S (S n))) d0 u0 n0 c0 c1) !! x =
      view (child_of (Node (shr i (S (S n))) d0 u0 n0 c0 c1) (Z.testbit i (Z.of_nat (S n)))) !! x).
    { intros x k Hx. assert (Hbit : Z.testbit i (Z.of_nat (S n)) = Z.testbit x (Z.of_nat (k + S n))).
      { rewrite <- Hx. unfold shr. rewrite Z.shiftr_spec by lia. f_equal; lia. }
      rewrite Hbit. apply view_child_lookup; [done|done|].
      rewrite <- Hx, shr_shr. f_equal; lia. }
    rewrite (Hdown _ 0%nat) in Hv by apply shr_0.
    rewrite (Hdown _ 1%nat) in Hv0 by (rewrite <- (H2 false) at 2; simpl; by rewrite Z.add_0_r).
    rewrite (Hdown _ 1%nat) in Hv1 by apply (H2 true).
    set (c := child_of _ _) in *.
    replace (is_null c) with false by (by destruct c).
    destruct (IH c Hp' Hwc Hv Hv0 Hv1) as [IH1 IH2].
    { intros j Hj. destruct (Hanc j ltac:(lia)) as [v Hx].
      rewrite (view_child_lookup _ d0 u0 n0 c0 c1 _ (S n - j) Hp Hw) in Hx by (rewrite shr_shr; f_equal; lia).
      replace (Z.testbit (shr i j) (Z.of_nat (S n - j))) with (Z.testbit i (Z.of_nat (S n))) in Hx; [eauto|].
      unfold shr. rewrite Z.shiftr_spec by lia. f_equal; lia. }
    split; [apply set_child_wf; [done|]; by rewrite <- shr_bit|].
    by apply (view_set_child _ _ _ _ _ _ _ i (S n)).
Qed.

Lemma unlink_last m t :
  shape m t -> 2 <= m ->
  shape (m - 1) (unlink_node t m) /\
  forall j, view (unlink_node t m) !! j = if decide (j = m) then None else view t !! j.
Proof.
  intros Hsh Hm. pose proof Hsh as (_ & Hw & Hin). unfold unlink_node.
  destruct (shape_lookup m t m Hsh ltac:(lia)) as (d & u & ni & c0 & c1 & Hv & _).
  rewrite <- Z.bit0_odd. change (Z.shiftr m 1) with (shr m 1).
  rewrite (depth_parent m) by lia. cbn [pred].
  assert (Hd : shr m (S (depth_of (shr m 1))) = 1) by (rewrite <- depth_parent by lia; apply shr_depth; lia).
  assert (Habs : forall i, m < i -> view t !! i = None).
  { intros i Hi. destruct (view t !! i) eqn:Hx; [|done]. assert (1 <= i <= m) by (apply Hin; eauto). lia. }
  destruct (update_unlink (depth_of (shr m 1)) m d u ni t) as [Hw' Hv']; [lia|by rewrite Hd|done|apply Habs; lia|apply Habs; lia| |].
  { intros j Hj. apply Hin. assert (1 <= shr m j).
    { pose proof (shr_depth m ltac:(lia)) as Hx. rewrite depth_parent in Hx by lia.
      replace (S (depth_of (shr m 1))) with (j + (S (depth_of (shr m 1)) - j))%nat in Hx by lia.
      rewrite <- shr_shr in Hx. apply (shr_pos _ (S (depth_of (shr m 1)) - j)). lia. }
    split; [done|]. unfold shr. rewrite Z.shiftr_div_pow2 by lia.
    assert (0 < 2 ^ Z.of_nat j) by (apply Z.pow_pos_nonneg; lia). apply Z.div_le_upper_bound; nia. }
  rewrite Hd in Hw'. split; [|done]. split; [lia|]. split; [done|].
  intros j. rewrite Hv'. destruct (decide (j = m)) as [->|Hj].
  - split; [intros [? ?]; done|lia].
  - rewrite Hin. lia.
Qed.

(** What the loop of [tee_fs_htree_truncate] leaves. *)
Lemma truncate_loop_spec count : forall ht m,
  shape m (ht_root ht) -> m = im_max_node_id (ht_imeta ht) -> m < UINT_MAX -> Z.of_nat count < m ->
  exists ht', truncate_loop count ht = Return ht' /\ shape (m - Z.of_nat count) (ht_root ht') /\
    im_max_node_id (ht_imeta ht') = m - Z.of_nat count /\
    im_length (ht_imeta ht') = im_length (ht_imeta ht) /\
    ht_head ht' = ht_head ht /\ ht_fek ht' = ht_fek ht /\
    (forall j, view (ht_root ht') !! j = if decide (m - Z.of_nat count < j) then None else view (ht_root ht) !! j).
Proof.
  induction count as [|count IH]; intros ht m Hsh Hm Hb Hc.
  - exists ht. replace (m - Z.of_nat 0) with m by lia. repeat (split; [done|]). intros j.
    case_decide as Hj; [|done]. destruct (view (ht_root ht) !! j) eqn:Hx; [|done].
    destruct Hsh as (_ & _ & Hin). assert (1 <= j <= m) by (apply Hin; eauto). lia.
  - cbn [truncate_loop]. rewrite <- Hm. rewrite find_closest_ok by lia. cbn [obind].
    destruct (shape_lookup m (ht_root ht) m Hsh ltac:(lia)) as (d & u & ni & c0 & c1 & Hv & Hwd).
    rewrite Hwd. cbn [node_id_of]. rewrite Z.eqb_refl.
    destruct (walk_down_closest (depth_of m) m (ht_root ht)) as (k & _ & _ & Hk & Hkw & _).
    { rewrite shr_depth; lia. } { rewrite shr_depth by lia. apply Hsh. } { by eapply shape_not_null. }
    rewrite Hwd in Hk, Hkw. simpl in Hk. rewrite <- Hk in Hkw. destruct Hkw as (_ & H0 & H1).
    assert (Hleaf : forall b, is_null (child_of (Node m d u ni c0 c1) b) = true).
    { assert (Hgen : forall n t i x, 1 <= shr i n -> tree_wf (shr i n) t -> (exists c0 c1, walk_down n i t = Node i d u ni c0 c1 /\ (is_Some (view c0 !! x) \/ is_Some (view c1 !! x))) -> is_Some (view t !! x)).
      { clear. induction n as [|n IH]; intros t i x Hp Hw (c0 & c1 & Hwd & Hx).
        - simpl in Hwd. subst t. simpl. destruct (decide (x = i)) as [->|]; [rewrite lookup_insert_eq; eauto|].
          rewrite lookup_insert_ne, lookup_union by done.
          destruct Hx as [[v ->]|[v ->]]; [destruct (view c1 !! x)|destruct (view c0 !! x)]; simpl; eauto.
        - rewrite walk_down_step in Hwd. cbv zeta in Hwd. destruct t as [|id d' u' ni' e0 e1]; [done|].
          pose proof Hw as (Hid & _). subst id. destruct (child_shr i n _ Hp Hw) as [Hp' Hwc].
          set (c := child_of _ _) in *. destruct (is_null c) eqn:Hc.
          + injection Hwd as He _ _ _ _ _. exfalso. by apply (shr_neq i n).
          + destruct (IH c i x Hp' Hwc) as [v Hv]; [eauto|]. unfold c in Hv. simpl.
            destruct (decide (x = shr i (S n))) as [->|]; [rewrite lookup_insert_eq; eauto|].
            rewrite lookup_insert_ne, lookup_union by done.
            destruct (Z.testbit i (Z.of_nat n)); simpl in Hv; rewrite Hv;
              [destruct (view e0 !! x)|destruct (view e1 !! x)]; simpl; eauto. }
      intros b. destruct (child_of _ b) as [|x ? ? ? ? ?] eqn:Hcb; [done|]. exfalso.
      assert (Hx : is_Some (view (ht_root ht) !! x)).
      { apply (Hgen (depth_of m) _ m); [rewrite shr_depth; lia|rewrite shr_depth by lia; apply Hsh|].
        exists c0, c1. split; [done|]. destruct b; simpl in Hcb; subst; [right|left]; simpl; rewrite lookup_insert_eq; eauto. }
      apply Hsh in Hx. destruct b; simpl in Hcb; subst; [destruct H1 as [-> _]|destruct H0 as [-> _]]; lia. }
    rewrite !Hleaf. cbn [andb]. destruct (Z.eqb_spec m 1); [lia|]. cbn [negb].
    destruct (unlink_last m (ht_root ht) Hsh ltac:(lia)) as [Hsh' Hv'].
    set (ht1 := mk_htree _ _ _ _ _).
    destruct (IH ht1 (m - 1) Hsh' eq_refl) as (ht' & Hr & Hs & Hmx & Hl & Hh & Hf & Hvw); [lia|lia|].
    exists ht'. replace (m - Z.of_nat (S count)) with (m - 1 - Z.of_nat count) by lia.
    repeat (split; [done|]). intros j. rewrite Hvw. simpl. rewrite Hv'.
    repeat case_decide; try lia; done.
Qed.

Lemma truncate_ok ht m block_num :
  shape m (ht_root ht) -> m = Z.max 1 (im_max_node_id (ht_imeta ht)) -> m < UINT_MAX -> 0 <= block_num ->
  exists ht', tee_fs_htree_truncate (Some ht) block_num = Return (Some ht', TEE_SUCCESS) /\
    shape (Z.min m (block_num + 1)) (ht_root ht') /\
    Z.max 1 (im_max_node_id (ht_imeta ht')) = Z.min m (block_num + 1) /\
    im_length (ht_imeta ht') = im_length (ht_imeta ht) /\ ht_head ht' = ht_head ht /\ ht_fek ht' = ht_fek ht /\
    forall j, view (ht_root ht') !! j = if decide (block_num + 1 < j) then None else view (ht_root ht) !! j.
Proof.
  intros Hsh Hm Hb Hn. unfold tee_fs_htree_truncate, BLOCK_NUM_TO_NODE_ID.
  destruct (decide (im_max_node_id (ht_imeta ht) <= block_num + 1)) as [Hle|Hgt].
  - replace (Z.to_nat (im_max_node_id (ht_imeta ht) - (block_num + 1))) with 0%nat by lia.
    exists ht. split; [done|]. rewrite Z.min_l by lia. repeat (split; [done|]).
    intros j. case_decide; [|done]. destruct (view (ht_root ht) !! j) eqn:Hx; [|done].
    assert (1 <= j <= m) by (apply Hsh; eauto). lia.
  - assert (m = im_max_node_id (ht_imeta ht)) as Hm' by lia. rewrite <- Hm' in *.
    destruct (truncate_loop_spec (Z.to_nat (m - (block_num + 1))) ht m Hsh Hm' Hb ltac:(lia)) as
      (ht' & -> & Hs & Hmx & Hl & Hh & Hf & Hv).
    exists ht'. split; [done|]. replace (Z.min m (block_num + 1)) with (block_num + 1) by lia.
    replace (m - Z.of_nat (Z.to_nat (m - (block_num + 1)))) with (block_num + 1) in * by lia.
    split; [done|]. split; [lia|done].
Qed.

(** ** Properties *)

(** Lookup: in a tree whose nodes are 1 to [m], [find_node] finds every id
    from 1 to [m], with its state, and no other. *)
Theorem find_node_exact m t i :
  shape m t -> 1 <= i < UINT_MAX ->
  (1 <= i <= m -> exists d u ni c0 c1, find_node t i = Return (Some (Node i d u ni c0 c1)) /\
     view t !! i = Some (d, u, ni)) /\
  (m < i -> find_node t i = Return None).
Proof.
  intros Hsh Hi. unfold find_node. rewrite find_closest_ok by done. simpl. split; intros Hm.
  - destruct (shape_lookup m t i Hsh Hm) as (d & u & ni & c0 & c1 & Hv & ->).
    cbn [node_id_of]. rewrite Z.eqb_refl. eauto 10.
  - destruct (closest_ancestor m t i Hsh ltac:(lia)) as [Ha Ham].
    by destruct (Z.eqb_spec (node_id_of (walk_down (depth_of i) i t)) i); [lia|].
Qed.

(** Growth: asked to create node [i], [get_node] never fails an assertion;
    when memory lasts it returns a tree whose nodes are 1 to [max m i], the old
    ones unchanged and the new ones zero-initialised, and the recorded maximum is
    updated; asked not to create, it refuses ids beyond the end with
    TEE_ERROR_GENERIC and changes nothing. *)
Theorem get_node_grows i m max t w :
  shape m t -> m = Z.max 1 max -> 1 <= i < UINT_MAX ->
  (forall create, fst (get_node create i t max w) ≠ Crash) /\
  (w_ext w = [] -> exists t' max', get_node true i t max w = (Ok (t', max'), w) /\
     shape (Z.max m i) t' /\ Z.max 1 max' = Z.max m i /\
     forall j, view t' !! j = if decide (m < j <= Z.max m i) then Some fresh_state else view t !! j) /\
  (m < i -> get_node false i t max w = (Err TEE_ERROR_GENERIC, w)) /\
  (i <= m -> get_node false i t max w = (Ok (t, max), w)).
Proof.
  intros Hsh Hm Hi. split; [|split; [|split]].
  - intros create. destruct (get_node_spec create i m max t w Hsh Hm Hi) as (w' & _ & [(_ & t' & -> & _)|(c & -> & _)]); done.
  - intros He. destruct (get_node_spec true i m max t w Hsh Hm Hi) as (w' & _ & [(_ & t' & -> & [Hs Hv] & Hw)|(c & _ & [(_ & [=] & _)|Hn])]); [|done].
    rewrite Hw by done. eexists _, _. split; [done|]. split; [done|]. split; [|done].
    destruct (Z.leb_spec i m); lia.
  - intros Hlt. unfold get_node, bind, of_outcome. rewrite find_closest_ok by done. unfold ret.
    destruct (closest_ancestor m t i Hsh ltac:(lia)) as [Ha Ham].
    by destruct (Z.eqb_spec (node_id_of (walk_down (depth_of i) i t)) i); [lia|].
  - intros Hle. unfold get_node, bind, of_outcome. rewrite find_closest_ok by done. unfold ret.
    destruct (shape_lookup m t i Hsh ltac:(lia)) as (d & u & ni & c0 & c1 & _ & ->).
    cbn [node_id_of]. by rewrite Z.eqb_refl.
Qed.

(** Truncation: cutting an open tree to [block_num] never fails an
    assertion, removes exactly the nodes above [block_num + 1], keeps the state
    of the others and records the new maximum. *)
Theorem truncate_exact ht m block_num :
  shape m (ht_root ht) -> m = Z.max 1 (im_max_node_id (ht_imeta ht)) -> m < UINT_MAX -> 0 <= block_num ->
  exists ht', tee_fs_htree_truncate (Some ht) block_num = Return (Some ht', TEE_SUCCESS) /\
    shape (Z.min m (block_num + 1)) (ht_root ht') /\
    Z.max 1 (im_max_node_id (ht_imeta ht')) = Z.min m (block_num + 1) /\
    forall j, view (ht_root ht') !! j = if decide (block_num + 1 < j) then None else view (ht_root ht) !! j.
Proof.
  intros Hsh Hm Hb Hn. destruct (truncate_ok ht m block_num Hsh Hm Hb Hn) as (ht' & Ht & Hs & Hmx & _ & _ & _ & Hv).
  by exists ht'.
Qed.

Definition demo_leaf (id : Z) : htree_node := new_node id.
Definition demo_tree : htree_node :=
  Node 1 false false zero_nimage (Node 2 false false zero_nimage (demo_leaf 4) Null) (demo_leaf 3).

Lemma demo_tree_shape : shape 4 demo_tree.
Proof.
  split; [lia|]. split; [repeat split|]. intros i. cbn [view demo_tree demo_leaf new_node].
  rewrite !(right_id_L ∅ (∪)), !insert_empty. split.
  - intros [v Hv]. repeat (apply lookup_insert_Some in Hv as [[<- _]|[_ Hv]]; [lia|]).
    apply lookup_union_Some_raw in Hv as [Hv|[_ Hv]].
    + apply lookup_insert_Some in Hv as [[<- _]|[_ Hv]]; [lia|].
      apply lookup_singleton_Some in Hv as [<- _]. lia.
    + apply lookup_singleton_Some in Hv as [<- _]. lia.
  - intros Hi. assert (i = 1 \/ i = 2 \/ i = 3 \/ i = 4) as [-> | [-> | [-> | ->]]] by lia; vm_compute; eauto.
Qed.

Lemma find_node_exact_witness : find_node demo_tree 5 = Return None.
Proof. apply (find_node_exact 4 demo_tree 5); [apply demo_tree_shape|unfold UINT_MAX; lia|lia]. Defined.

Definition demo_world0 : world := mk_world (mk_storage ∅ ∅ ∅) [] 0.

Lemma get_node_grows_witness :
  exists t' max', get_node true 7 demo_tree 4 demo_world0 = (Ok (t', max'), demo_world0) /\ shape 7 t'.
Proof.
  destruct (proj1 (proj2 (get_node_grows 7 4 4 demo_tree demo_world0 demo_tree_shape eq_refl
    ltac:(unfold UINT_MAX; lia))) eq_refl) as (t' & max' & He & Hs & _).
  by exists t', max'.
Defined.

Lemma truncate_exact_witness :
  exists ht', tee_fs_htree_truncate
    (Some (mk_htree demo_tree (mk_image [] [] [] [] 1) [] (mk_imeta 0 4) false)) 1 = Return (Some ht', TEE_SUCCESS) /\
    shape 2 (ht_root ht').
Proof.
  destruct (truncate_exact (mk_htree demo_tree (mk_image [] [] [] [] 1) [] (mk_imeta 0 4) false) 4 1)
    as (ht' & He & Hs & _); [apply demo_tree_shape|reflexivity|unfold UINT_MAX; lia|lia|].
  exists ht'. split; [exact He|exact Hs].
Defined.
