(* ===== verification/HtreeSync.v ===== *)
(** * Hash tree: blocks, commit and reopening

    Reading back what was written, what a sync puts on storage, that nothing
    committed is touched before the header write, and that reopening yields the
    committed tree. *)

From stdpp Require Import base gmap list.
From Stdlib Require Import ZArith Lia.
From S2P Require Import Prelude Htree HtreeShape.

Local Open Scope Z_scope.

(** ** Little-endian encodings *)

Lemma le_bytes_length n x : length (le_bytes n x) = n.
Proof. revert x. induction n as [|n IH]; intros x; simpl; [done|]. by rewrite IH. Qed.

Lemma le_val_bytes n x : 0 <= x < 256 ^ Z.of_nat n -> le_val (le_bytes n x) = x.
Proof.
  revert x. induction n as [|n IH]; intros x Hx; simpl; [change (256 ^ 0) with 1 in Hx; lia|].
  rewrite Nat2Z.inj_succ, Z.pow_succ_r in Hx by lia. rewrite IH.
  - pose proof (Z.div_mod x 256). lia.
  - split; [apply Z.div_pos; lia|]. apply Z.div_lt_upper_bound; lia.
Qed.

Definition imeta_ok (im : tee_fs_htree_imeta) : Prop := is_u64 (im_length im) /\ is_u32 (im_max_node_id im).

Lemma imeta_roundtrip im : imeta_ok im -> imeta_of_bytes (imeta_bytes im) = im.
Proof.
  intros [Hl Hm]. unfold imeta_of_bytes, imeta_bytes.
  rewrite take_app_le, take_ge by (rewrite le_bytes_length; lia).
  rewrite drop_app_ge by (rewrite le_bytes_length; lia). rewrite le_bytes_length. simpl (8 - 8)%nat.
  rewrite drop_0. rewrite take_app_le, take_ge by (rewrite le_bytes_length; lia).
  rewrite !le_val_bytes; [by destruct im| |].
  - unfold is_u32 in Hm. change (256 ^ Z.of_nat 4) with 4294967296. lia.
  - unfold is_u64 in Hl. change (256 ^ Z.of_nat 8) with 18446744073709551616. lia.
Qed.

(** ** Worlds where every call succeeds *)

Lemma ext_nil w : w_ext w = [] -> ext w = (Ok tt, w).
Proof. unfold ext. by intros ->. Qed.

(** Runs the calls of a world where every one succeeds. *)
Ltac htrun := repeat (unfold bind, ret; cbv beta iota; rewrite ext_nil by done); cbv beta iota.

Definition upd_store (w : world) (f : storage -> storage) : world :=
  mk_world (f (w_store w)) (w_ext w) (w_rng w).
Definition next_rng (w : world) : world := mk_world (w_store w) (w_ext w) (S (w_rng w)).

Lemma rpc_write_node_nil id v ni w :
  w_ext w = [] ->
  rpc_write_node id v ni w =
  (Ok tt, upd_store w (fun st => mk_storage (st_head st) (<[(id - 1, v) := ni]> (st_node st)) (st_block st))).
Proof. intros He. unfold rpc_write_node, bind. by rewrite !ext_nil. Qed.

Lemma rpc_read_node_nil id v w :
  w_ext w = [] ->
  rpc_read_node id v w = of_option (st_node (w_store w) !! (id - 1, v)) TEE_ERROR_CORRUPT_OBJECT w.
Proof. intros He. unfold rpc_read_node, bind. by rewrite !ext_nil. Qed.

Lemma rpc_read_head_nil v w :
  w_ext w = [] ->
  rpc_read_head v w = of_option (st_head (w_store w) !! v) TEE_ERROR_CORRUPT_OBJECT w.
Proof. intros He. unfold rpc_read_head, bind. by rewrite !ext_nil. Qed.

Lemma authenc_init_nil b w : w_ext w = [] -> authenc_init b w = (Ok tt, w).
Proof. intros He. destruct b; unfold authenc_init, bind, ret; repeat (rewrite ext_nil by done; cbv iota beta); done. Qed.

(** ** Places kept *)

Definition slot_same (s : slot) (st st' : storage) : Prop :=
  match s with
  | SHead v => st_head st' !! v = st_head st !! v
  | SNode i v => st_node st' !! (i, v) = st_node st !! (i, v)
  | SBlock i v => st_block st' !! (i, v) = st_block st !! (i, v)
  end.

#[global] Instance slot_same_preorder s : PreOrder (slot_same s).
Proof. split; [intros st|intros a b c]; destruct s; simpl; congruence. Qed.

(** Whatever happens, [m] does not change what [s] holds. *)
Definition keeps {A} (s : slot) (m : M A) : Prop :=
  forall w, slot_same s (w_store w) (w_store (snd (m w))).

Lemma keeps_ret {A} s (a : A) : keeps s (ret a).
Proof. intros w. simpl. reflexivity. Qed.

Lemma keeps_err {A} s c : keeps (A := A) s (err c).
Proof. intros w. simpl. reflexivity. Qed.

Lemma keeps_crash {A} s : keeps (A := A) s crash.
Proof. intros w. simpl. reflexivity. Qed.

Lemma keeps_ext s : keeps s ext.
Proof. intros w. unfold ext. destruct (w_ext w); simpl; reflexivity. Qed.

Lemma keeps_bind {A B} s (m : M A) (k : A -> M B) :
  keeps s m -> (forall a w w', m w = (Ok a, w') -> keeps s (k a)) -> keeps s (bind m k).
Proof.
  intros Hm Hk w. unfold bind. specialize (Hm w). destruct (m w) as [[a|c|] w'] eqn:He; simpl in *; [|done|done].
  etrans; [exact Hm|]. by apply (Hk a w w').
Qed.

Lemma keeps_bind' {A B} s (m : M A) (k : A -> M B) :
  keeps s m -> (forall a, keeps s (k a)) -> keeps s (bind m k).
Proof. intros Hm Hk. apply keeps_bind; eauto. Qed.

Lemma keeps_check s b : keeps s (check b).
Proof. destruct b; [apply keeps_ret|apply keeps_crash]. Qed.

Lemma keeps_of_outcome {A} s (o : outcome A) : keeps s (of_outcome o).
Proof. destruct o; [apply keeps_ret|apply keeps_crash]. Qed.

Lemma keeps_authenc_init s b : keeps s (authenc_init b).
Proof.
  unfold authenc_init. repeat (apply keeps_bind'; [|intros _]); try apply keeps_ext.
  destruct b; [apply keeps_bind'; [|intros _]; apply keeps_ext|apply keeps_ret].
Qed.

Create HintDb keeps.
#[export] Hint Resolve keeps_ret keeps_err keeps_crash keeps_ext keeps_check keeps_of_outcome
  keeps_authenc_init : keeps.

Lemma keeps_write_node s id v ni : s ≠ SNode (id - 1) v -> keeps s (rpc_write_node id v ni).
Proof.
  intros Hs. unfold rpc_write_node. apply keeps_bind'; [auto with keeps|intros _].
  apply keeps_bind'; [auto with keeps|intros _]. intros w. destruct s as [v'|i v'|i v']; simpl; try done.
  rewrite lookup_insert_ne; [done|]. congruence.
Qed.

Lemma keeps_add_nodes s count : forall n t, keeps s (add_nodes count n t).
Proof.
  induction count as [|count IH]; intros n t; simpl; [auto with keeps|].
  apply keeps_bind'; [auto with keeps|intros node]. destruct (_ =? _); [apply IH|].
  repeat (apply keeps_bind'; [auto with keeps|intros _]). apply IH.
Qed.

Lemma keeps_get_node s create id t max : keeps s (get_node create id t max).
Proof.
  unfold get_node. apply keeps_bind'; [auto with keeps|intros node].
  destruct (_ =? _); [auto with keeps|]. destruct (negb create); [auto with keeps|].
  apply keeps_bind'; [apply keeps_add_nodes|auto with keeps].
Qed.

Lemma keeps_get_block_node s create b ht : keeps s (get_block_node create b ht).
Proof.
  unfold get_block_node. apply keeps_bind'; [apply keeps_get_node|intros [root max]].
  apply keeps_bind'; auto with keeps.
Qed.
#[export] Hint Resolve keeps_get_block_node keeps_get_node : keeps.

(** ** Equal views, equal trees *)

Lemma view_disjoint p t0 t1 i v :
  1 <= p -> tree_wf (2 * p) t0 -> tree_wf (2 * p + 1) t1 -> view t0 !! i = Some v -> view t1 !! i = None.
Proof.
  intros Hp H0 H1 Hv. destruct (view t1 !! i) as [v1|] eqn:Hv1; [|done]. exfalso.
  destruct (view_ancestor _ _ _ _ H0 Hv) as [j Hj]. destruct (view_ancestor _ _ _ _ H1 Hv1) as [k Hk].
  pose proof (shr_bit i j). pose proof (shr_bit i k).
  pose proof (b2z_range (Z.testbit i (Z.of_nat j))). pose proof (b2z_range (Z.testbit i (Z.of_nat k))).
  assert (S j = S k) by (apply (shr_inj i); lia). assert (j = k) as -> by lia. lia.
Qed.

Lemma view_not_root p t b i v :
  1 <= p -> tree_wf (2 * p + b2z b) t -> view t !! i = Some v -> i ≠ p.
Proof.
  intros Hp Hw Hv ->. destruct (view_ancestor _ _ _ _ Hw Hv) as [j Hj].
  pose proof (shr_bit p j). pose proof (b2z_range (Z.testbit p (Z.of_nat j))). pose proof (b2z_range b).
  assert (S j = 0%nat); [|lia]. apply (shr_inj p); rewrite ?shr_0; lia.
Qed.

Lemma view_root p d u ni c0 c1 : view (Node p d u ni c0 c1) !! p = Some (d, u, ni).
Proof. simpl. apply lookup_insert_eq. Qed.

Lemma view_eq_tree p : 1 <= p -> forall t t',
  tree_wf p t -> tree_wf p t' -> (forall i, view t !! i = view t' !! i) -> t = t'.
Proof.
  intros Hp t. revert p Hp. induction t as [|id d u ni c0 IH0 c1 IH1]; intros p Hp t' Hw Hw' Hv.
  - destruct t' as [|id' d' u' ni' e0 e1]; [done|]. destruct Hw' as (-> & _). specialize (Hv p).
    by rewrite view_root in Hv.
  - destruct Hw as (-> & Hw0 & Hw1). destruct t' as [|id' d' u' ni' e0 e1].
    { specialize (Hv p). by rewrite view_root in Hv. }
    destruct Hw' as (-> & Hw0' & Hw1'). pose proof (Hv p) as Hr. rewrite !view_root in Hr.
    injection Hr as <- <- <-.
    assert (Hsub : forall i, view c0 !! i = view e0 !! i /\ view c1 !! i = view e1 !! i).
    { intros i. specialize (Hv i). simpl in Hv. destruct (decide (i = p)) as [->|Hne].
      - assert (forall b t, tree_wf (2 * p + b2z b) t -> view t !! p = None) as Hno.
        { intros b t Ht. destruct (view t !! p) eqn:Hx; [|done]. by eapply (view_not_root p t b) in Hx. }
        split; [rewrite (Hno false c0), (Hno false e0)|rewrite (Hno true c1), (Hno true e1)]; simpl; rewrite ?Z.add_0_r; done.
      - rewrite !lookup_insert_ne, !lookup_union in Hv by done.
        destruct (view c0 !! i) as [v|] eqn:H0, (view e0 !! i) as [v'|] eqn:H0'.
        + rewrite (view_disjoint p _ _ _ _ Hp Hw0 Hw1 H0), (view_disjoint p _ _ _ _ Hp Hw0' Hw1' H0') in *. done.
        + exfalso. rewrite (view_disjoint p _ _ _ _ Hp Hw0 Hw1 H0) in Hv.
          destruct (view e1 !! i) as [v'|] eqn:H1; [|done].
          by rewrite (view_disjoint p _ _ _ _ Hp Hw0 Hw1' H0) in H1.
        + exfalso. rewrite (view_disjoint p _ _ _ _ Hp Hw0' Hw1' H0') in Hv.
          destruct (view c1 !! i) as [v|] eqn:H1; [|done].
          by rewrite (view_disjoint p _ _ _ _ Hp Hw0' Hw1 H0') in H1.
        + split; [done|]. destruct (view c1 !! i), (view e1 !! i); done. }
    f_equal; [apply (IH0 (2 * p))|apply (IH1 (2 * p + 1))]; try lia; try done; intros i; apply Hsub.
Qed.

(** ** Cryptography *)

(** What the file system relies on: decryption with the same key, IV and
    authenticated data gives the plaintext back, ciphertexts are as long as
    plaintexts and tags have 16 bytes; the key wrapping can be undone. *)
Class HtreeCrypto (gcm_enc : list Z -> list Z -> list Z -> list Z -> list Z * list Z)
    (gcm_dec : list Z -> list Z -> list Z -> list Z -> list Z -> option (list Z))
    (fek_encrypt fek_decrypt : list Z -> list Z) : Prop := {
  gcm_roundtrip key iv aad plain :
    gcm_dec key iv aad (fst (gcm_enc key iv aad plain)) (snd (gcm_enc key iv aad plain)) = Some plain;
  gcm_length key iv aad plain : length (fst (gcm_enc key iv aad plain)) = length plain;
  gcm_tag key iv aad plain : length (snd (gcm_enc key iv aad plain)) = TEE_FS_HTREE_TAG_SIZE;
  fek_roundtrip fek : fek_decrypt (fek_encrypt fek) = fek
}.

(** A tree whose nodes and recorded maximum agree. *)
Definition ht_shape (m : Z) (ht : tee_fs_htree) : Prop :=
  shape m (ht_root ht) /\ m = Z.max 1 (im_max_node_id (ht_imeta ht)).

Section blocks.
Context {gcm_enc gcm_dec fek_encrypt fek_decrypt}
  {Hcrypto : HtreeCrypto gcm_enc gcm_dec fek_encrypt fek_decrypt}.
Context (rng : nat -> list Z) (block_size : nat).
Notation write_block := (tee_fs_htree_write_block gcm_enc rng).
Notation read_block := (tee_fs_htree_read_block gcm_dec block_size).

(** The image a write of a block starts from. *)
Definition start_img (s : nstate) : tee_fs_htree_node_image :=
  let '(_, u, ni) := s in
  if u : bool then ni else set_flags (Z.lxor (ni_flags ni) HTREE_NODE_COMMITTED_BLOCK) ni.

(** State of a node in a tree grown to hold it. *)
Definition state_at (t : htree_node) (i : Z) : nstate := default fresh_state (view t !! i).

Lemma get_block_node_ok m ht b w :
  ht_shape m ht -> 0 <= b -> b + 1 < UINT_MAX -> w_ext w = [] ->
  exists t' max' node, get_block_node true b ht w =
      (Ok (mk_htree t' (ht_head ht) (ht_fek ht) (mk_imeta (im_length (ht_imeta ht)) max') (ht_dirty ht), node), w) /\
    grown m (Z.max m (b + 1)) (ht_root ht) t' /\
    Z.max 1 max' = Z.max m (b + 1) /\ im_max_node_id (ht_imeta ht) <= max' /\
    node = walk_down (depth_of (b + 1)) (b + 1) t' /\
    state_of node = Some (state_at (ht_root ht) (b + 1)).
Proof.
  intros [Hsh Hm] Hb0 Hb1 He. unfold get_block_node, BLOCK_NUM_TO_NODE_ID, bind.
  destruct (get_node_spec true (b + 1) m _ (ht_root ht) w Hsh Hm ltac:(lia)) as
    (w' & _ & [(_ & t' & -> & Hg & Hw)|(c & _ & [(_ & [=] & _)|Hn])]); [|done].
  rewrite Hw by done. cbv zeta. unfold of_outcome. pose proof Hg as [Hs' Hv'].
  rewrite find_closest_ok by lia. unfold ret. cbv iota beta.
  destruct (shape_lookup _ _ (b + 1) Hs' ltac:(lia)) as (d & u & ni & c0 & c1 & Hv & Hwd).
  eexists _, _, _. split; [done|]. split; [done|]. split; [destruct (Z.leb_spec (b + 1) m); lia|].
  split; [lia|]. split; [done|]. rewrite Hwd. simpl. rewrite <- Hv, Hv'. unfold state_at.
  destruct (view (ht_root ht) !! (b + 1)) as [s|] eqn:Hs; case_decide as Hd; try done.
  - assert (1 <= b + 1 <= m) by (apply Hsh; eauto). lia.
  - assert (Hno : ~ (1 <= b + 1 <= m)) by (intros Hx; apply Hsh in Hx as [x Hx]; congruence). lia.
Qed.

Lemma mark_updated_state ni : state_update (mark_updated ni).
Proof. intros id d u n c0 c1. exists true, true, ni. done. Qed.

(** A write: the node gets a fresh IV and tag and the block goes to the version
    its flags name. *)
Lemma write_block_ok m ht b block w :
  ht_shape m ht -> 0 <= b -> b + 1 < UINT_MAX -> w_ext w = [] ->
  let ni := start_img (state_at (ht_root ht) (b + 1)) in
  let iv := rng (w_rng w) in
  let c := gcm_enc (ht_fek ht) iv (block_aad (hd_enc_fek (ht_head ht)) iv) block in
  exists ht' w', write_block (Some ht) b block w = (Return (Some ht', TEE_SUCCESS, Some tt), w') /\
    ht_shape (Z.max m (b + 1)) ht' /\
    ht_head ht' = ht_head ht /\ ht_fek ht' = ht_fek ht /\ ht_dirty ht' = true /\
    im_length (ht_imeta ht') = im_length (ht_imeta ht) /\
    im_max_node_id (ht_imeta ht) <= im_max_node_id (ht_imeta ht') /\
    (forall i, view (ht_root ht') !! i =
       if decide (i = b + 1) then Some (true, true, mk_nimage (ni_hash ni) iv (snd c) (ni_flags ni))
       else if decide (m < i <= b + 1) then Some fresh_state else view (ht_root ht) !! i) /\
    w' = next_rng (upd_store w (fun st => mk_storage (st_head st) (st_node st)
           (<[(b, block_vers ni) := fst c]> (st_block st)))).
Proof.
  intros Hsh Hb0 Hb1 He. cbv zeta.
  destruct (get_block_node_ok m ht b w Hsh Hb0 Hb1 He) as (t' & max' & node & Hg & Hgr & Hmx & Hmxle & Hnode & Hst).
  unfold tee_fs_htree_write_block, close_on_error, write_block_body. unfold bind at 1. rewrite Hg.
  assert (Hni : (if negb (block_updated_of node)
     then set_flags (Z.lxor (ni_flags (img_of node)) HTREE_NODE_COMMITTED_BLOCK) (img_of node) else img_of node)
     = start_img (state_at (ht_root ht) (b + 1))).
  { destruct node as [|id d u n c0 c1]; [done|]. simpl in Hst. injection Hst as <-. by destruct u. }
  rewrite Hni. set (ni := start_img _).
  unfold crypto_rng_read. htrun. rewrite authenc_init_nil by done. unfold authenc_encrypt_final. htrun.
  cbn [ht_fek ht_head].
  destruct (gcm_enc _ _ _ block) as [c tag] eqn:Henc.
  pose proof (gcm_length (ht_fek ht) (rng (w_rng w)) (block_aad (hd_enc_fek (ht_head ht)) (rng (w_rng w))) block) as Hl.
  pose proof (gcm_tag (ht_fek ht) (rng (w_rng w)) (block_aad (hd_enc_fek (ht_head ht)) (rng (w_rng w))) block) as Htg.
  rewrite Henc in Hl, Htg. simpl in Hl, Htg. rewrite !bool_decide_true by done. cbn [andb]. htrun. unfold put_store.
  pose proof Hgr as [Hs' Hv']. pose proof (shr_depth (b + 1) ltac:(lia)) as Hd.
  destruct (update_state (depth_of (b + 1)) (b + 1)
    (mark_updated (mk_nimage (ni_hash ni) (rng (w_rng w)) tag (ni_flags ni))) t') as [Hw' Hvu].
  { apply mark_updated_state. } { lia. } { rewrite Hd. apply Hs'. } { apply Hs'. lia. }
  eexists _, _. split; [reflexivity|]. cbn [ht_root ht_head ht_fek ht_dirty ht_imeta im_length im_max_node_id].
  unfold update_node, BLOCK_NUM_TO_NODE_ID.
  split; [split; [|simpl; lia]|]; cbn [ht_root].
  - split; [lia|]. split; [by rewrite Hd in Hw'|]. intros i. rewrite Hvu, <- (proj2 (proj2 Hs')).
    case_decide as Hi; [|done]. subst i. rewrite <- Hnode. destruct node; [done|]. split; [|eauto].
    intros _. apply Hs'. lia.
  - split; [done|]. split; [done|]. split; [done|]. split; [done|]. split; [done|]. split; [|done].
    intros i. rewrite Hvu, <- Hnode. destruct node as [|id d u n c0 c1]; [done|]. cbn [mark_updated state_of snd].
    case_decide as Hi; [done|]. rewrite Hv'. repeat case_decide; try lia; done.
Qed.

(** What reading block [b] gives, from the state of its node. *)
Lemma read_block_ok m ht b w :
  ht_shape m ht -> 0 <= b -> b + 1 < UINT_MAX -> w_ext w = [] ->
  read_block (Some ht) b w =
  (Return
    (match view (ht_root ht) !! (b + 1) with
     | None => (None, TEE_ERROR_GENERIC, None)
     | Some (_, _, ni) =>
         match st_block (w_store w) !! (b, block_vers ni) with
         | None => (None, TEE_ERROR_CORRUPT_OBJECT, None)
         | Some c =>
             if bool_decide (length c = block_size) then
               match gcm_dec (ht_fek ht) (ni_iv ni) (block_aad (hd_enc_fek (ht_head ht)) (ni_iv ni)) c (ni_tag ni) with
               | None => (None, TEE_ERROR_CORRUPT_OBJECT, None)
               | Some plain => if bool_decide (length plain = length c) then (Some ht, TEE_SUCCESS, Some plain)
                               else (None, TEE_ERROR_GENERIC, None)
               end
             else (None, TEE_ERROR_CORRUPT_OBJECT, None)
         end
     end), w).
Proof.
  intros [Hsh Hm] Hb0 Hb1 He. unfold tee_fs_htree_read_block, close_on_error, read_block_body.
  unfold get_block_node, BLOCK_NUM_TO_NODE_ID, bind.
  unfold get_node, bind, of_outcome. rewrite !find_closest_ok by lia. unfold ret. cbv iota beta.
  destruct (view (ht_root ht) !! (b + 1)) as [[[d u] ni]|] eqn:Hv.
  - assert (Hin : 1 <= b + 1 <= m) by (apply Hsh; eauto).
    destruct (shape_lookup m _ (b + 1) Hsh Hin) as (d' & u' & ni' & c0 & c1 & Hv' & Hwd).
    rewrite Hv in Hv'. injection Hv' as <- <- <-. rewrite Hwd. cbn [node_id_of]. rewrite Z.eqb_refl.
    rewrite find_closest_ok by lia. rewrite Hwd. cbn [img_of].
    htrun.
    destruct (st_block (w_store w) !! (b, block_vers ni)) as [c|]; cbn [of_option]; [|done].
    unfold ret. destruct (bool_decide (length c = block_size)); [|done].
    rewrite authenc_init_nil by done. cbv iota beta. unfold authenc_decrypt_final. rewrite ext_nil by done.
    cbv iota beta. cbn [ht_fek ht_head]. destruct (gcm_dec _ _ _ _ _) as [plain|]; [|done].
    destruct (bool_decide (length plain = length c)); [|done]. by destruct ht as [? ? ? [? ?] ?].
  - assert (Hlt : m < b + 1).
    { destruct (Z.le_gt_cases (b + 1) m) as [Hle|]; [|done].
      assert (Hx : is_Some (view (ht_root ht) !! (b + 1))) by (apply Hsh; lia).
      destruct Hx as [x Hx]. exfalso. discriminate (eq_trans (eq_sym Hx) Hv). }
    destruct (closest_ancestor m _ (b + 1) Hsh ltac:(lia)) as [Ha Ham].
    by destruct (Z.eqb_spec (node_id_of (walk_down (depth_of (b + 1)) (b + 1) (ht_root ht))) (b + 1)); [lia|].
Qed.

(** Code and value of a result. *)
Definition code_and_value {A} (r : outcome (option tee_fs_htree * Z * option A) * world) : outcome (Z * option A) :=
  match fst r with Return (_, res, v) => Return (res, v) | Panic => Panic end.

Lemma write_read_ok m ht b block w :
  ht_shape m ht -> 0 <= b -> b + 1 < UINT_MAX -> w_ext w = [] -> length block = block_size ->
  exists ht' w', write_block (Some ht) b block w = (Return (Some ht', TEE_SUCCESS, Some tt), w') /\
    read_block (Some ht') b w' = (Return (Some ht', TEE_SUCCESS, Some block), w') /\
    forall b', 0 <= b' -> b' + 1 <= m -> m < UINT_MAX -> b' ≠ b ->
      code_and_value (read_block (Some ht') b' w') = code_and_value (read_block (Some ht) b' w).
Proof.
  intros Hsh Hb0 Hb1 He Hlen.
  destruct (write_block_ok m ht b block w Hsh Hb0 Hb1 He) as (ht' & w' & Hw & Hsh' & Hh & Hf & _ & _ & _ & Hv & Hw').
  exists ht', w'. split; [done|].
  assert (He' : w_ext w' = []) by (by rewrite Hw'). split.
  - rewrite (read_block_ok (Z.max m (b + 1))) by done. do 2 f_equal.
    rewrite Hv, decide_True by done. cbn [ni_iv ni_tag]. rewrite Hh, Hf, Hw'. cbn [w_store next_rng upd_store st_block].
    unfold block_vers. cbn [ni_flags]. rewrite lookup_insert_eq.
    rewrite gcm_length, bool_decide_true by done. rewrite gcm_roundtrip. by rewrite bool_decide_true.
  - intros b' Hb0' Hbm Hmx Hne. rewrite (read_block_ok (Z.max m (b + 1))) by (done || lia).
    rewrite (read_block_ok m) by (done || lia).
    rewrite Hv, decide_False by lia. rewrite decide_False by lia. unfold code_and_value. cbn [fst].
    rewrite Hh, Hf, Hw'. cbn [w_store next_rng upd_store st_block].
    destruct (view (ht_root ht) !! (b' + 1)) as [[[d u] ni]|]; [|done].
    rewrite lookup_insert_ne by congruence.
    destruct (st_block (w_store w) !! (b', block_vers ni)) as [c|]; [|done].
    destruct (bool_decide (length c = block_size)); [|done].
    destruct (gcm_dec _ _ _ _ _) as [plain|]; [|done]. by destruct (bool_decide _).
Qed.

(** Read back: writing a block of the right size to an open tree succeeds
    when the calls to storage, generator and cryptography do; reading it then
    gives the same bytes, and reading any other block of the file gives what it
    gave before, whatever order the tree was built in. *)
Theorem htree_write_read m ht b block w :
  ht_shape m ht -> 0 <= b -> b + 1 < UINT_MAX -> w_ext w = [] -> length block = block_size ->
  exists ht' w', write_block (Some ht) b block w = (Return (Some ht', TEE_SUCCESS, Some tt), w') /\
    read_block (Some ht') b w' = (Return (Some ht', TEE_SUCCESS, Some block), w') /\
    forall b', 0 <= b' -> b' + 1 <= m -> m < UINT_MAX -> b' ≠ b ->
      code_and_value (read_block (Some ht') b' w') = code_and_value (read_block (Some ht) b' w).
Proof. apply write_read_ok. Qed.

(** The writes of [write_block] keep every place but the one block. *)
Lemma keeps_write_block s m ht b block :
  ht_shape m ht -> 0 <= b -> b + 1 < UINT_MAX ->
  s ≠ SBlock b (block_vers (start_img (state_at (ht_root ht) (b + 1)))) ->
  forall w, slot_same s (w_store w) (w_store (snd (write_block (Some ht) b block w))).
Proof.
  intros [Hsh Hm] Hb0 Hb1 Hs w. unfold tee_fs_htree_write_block, close_on_error.
  assert (Hk : slot_same s (w_store w) (w_store (snd (write_block_body gcm_enc rng b block ht w)))).
  { revert w. change (keeps s (write_block_body gcm_enc rng b block ht)). unfold write_block_body.
    apply keeps_bind; [apply keeps_get_block_node|]. intros [ht1 node] w w' Hg.
    assert (Hst : state_of node = Some (state_at (ht_root ht) (b + 1))).
    { unfold get_block_node, BLOCK_NUM_TO_NODE_ID, bind in Hg.
      destruct (get_node_spec true (b + 1) m _ (ht_root ht) w Hsh Hm ltac:(lia)) as
        (w1 & _ & [(_ & t' & Hgn & Hgr & _)|(c & Hgn & _)]); rewrite Hgn in Hg; [|done].
      unfold of_outcome in Hg. rewrite find_closest_ok in Hg by lia. unfold ret in Hg.
      injection Hg as _ <- _. pose proof Hgr as [Hs' Hv'].
      destruct (shape_lookup _ _ (b + 1) Hs' ltac:(lia)) as (d & u & ni & c0 & c1 & Hv & ->). simpl.
      rewrite <- Hv, Hv'. unfold state_at.
      destruct (view (ht_root ht) !! (b + 1)) as [x|] eqn:Hx; case_decide as Hd; try done.
      - assert (1 <= b + 1 <= m) by (apply Hsh; eauto). lia.
      - assert (Hno : ~ (1 <= b + 1 <= m)) by (intros Hy; apply Hsh in Hy as [y Hy]; congruence). lia. }
    assert (Hni : (if negb (block_updated_of node)
       then set_flags (Z.lxor (ni_flags (img_of node)) HTREE_NODE_COMMITTED_BLOCK) (img_of node) else img_of node)
       = start_img (state_at (ht_root ht) (b + 1))).
    { destruct node as [|id d u n c0 c1]; [done|]. simpl in Hst. injection Hst as <-. by destruct u. }
    rewrite Hni.
    apply keeps_bind'; [auto with keeps|intros _]. apply keeps_bind'.
    { unfold crypto_rng_read. apply keeps_bind'; [auto with keeps|intros _ x; simpl; reflexivity]. }
    intros iv. apply keeps_bind'; [auto with keeps|intros _]. apply keeps_bind'.
    { unfold authenc_encrypt_final. apply keeps_bind'; [auto with keeps|intros _].
      destruct (gcm_enc _ _ _ _). destruct (_ && _); auto with keeps. }
    intros [c tag]. apply keeps_bind'; [auto with keeps|intros _]. apply keeps_bind'; [|auto with keeps].
    intros x. destruct s as [v|i v|i v]; simpl; try done. rewrite lookup_insert_ne; [done|congruence]. }
  destruct (write_block_body gcm_enc rng b block ht w) as [[[? ?]|?|] ?]; done.
Qed.
End blocks.

(** ** Flags *)

Definition child_vers (flags : Z) (b : bool) : Z := b2z (has_flag flags (HTREE_NODE_COMMITTED_CHILD (b2z b))).

Lemma child_flag_pow b : HTREE_NODE_COMMITTED_CHILD (b2z b) = 2 ^ (1 + b2z b).
Proof. unfold HTREE_NODE_COMMITTED_CHILD, BIT. by destruct b. Qed.

Definition toggle (b : bool) (flags : Z) : Z := Z.lxor flags (HTREE_NODE_COMMITTED_CHILD (b2z b)).

Lemma child_vers_toggle flags b b' :
  child_vers (toggle b flags) b' = if Bool.eqb b b' then 1 - child_vers flags b' else child_vers flags b'.
Proof.
  unfold child_vers, toggle. rewrite !child_flag_pow, !has_flag_testbit by (destruct b'; simpl; lia).
  rewrite Z.lxor_spec, Z.pow2_bits_eqb by (destruct b; simpl; lia).
  replace (1 + b2z b =? 1 + b2z b') with (Bool.eqb b b') by (by destruct b, b').
  by destruct (Bool.eqb b b'), (Z.testbit flags (1 + b2z b')).
Qed.

Lemma child_vers_range flags b : 0 <= child_vers flags b <= 1.
Proof. apply b2z_range. Qed.

Lemma block_vers_toggle_child b flags ni :
  block_vers (set_flags (toggle b flags) ni) = block_vers (set_flags flags ni).
Proof.
  unfold block_vers, toggle, HTREE_NODE_COMMITTED_BLOCK. cbn [ni_flags set_flags]. f_equal.
  change (BIT 0) with (2 ^ 0). rewrite child_flag_pow, !has_flag_testbit by lia.
  rewrite Z.lxor_spec, Z.pow2_bits_eqb by (destruct b; simpl; lia).
  replace (1 + b2z b =? 0) with false by (by destruct b). by destruct (Z.testbit flags 0).
Qed.

Lemma block_vers_toggle_block ni :
  block_vers (set_flags (Z.lxor (ni_flags ni) HTREE_NODE_COMMITTED_BLOCK) ni) = 1 - block_vers ni.
Proof.
  unfold block_vers, HTREE_NODE_COMMITTED_BLOCK. cbn [ni_flags set_flags].
  change (BIT 0) with (2 ^ 0). rewrite !has_flag_testbit, Z.lxor_spec, Z.pow2_bits_true by lia.
  by destruct (Z.testbit (ni_flags ni) 0).
Qed.

Lemma child_vers_toggle_block flags b :
  child_vers (Z.lxor flags HTREE_NODE_COMMITTED_BLOCK) b = child_vers flags b.
Proof.
  unfold child_vers, HTREE_NODE_COMMITTED_BLOCK. f_equal. change (BIT 0) with (2 ^ 0).
  rewrite child_flag_pow, !has_flag_testbit by (destruct b; simpl; lia).
  rewrite Z.lxor_spec, Z.pow2_bits_eqb by (destruct b; simpl; lia).
  replace (0 =? 1 + b2z b) with false by (by destruct b). by destruct (Z.testbit flags (1 + b2z b)).
Qed.

(** ** Ids below a node *)

Definition below (p i : Z) : Prop := exists j, shr i j = p.

Lemma below_child p b i : below (2 * p + b2z b) i -> below p i.
Proof.
  intros [j Hj]. exists (S j). pose proof (shr_bit i j). pose proof (b2z_range (Z.testbit i (Z.of_nat j))).
  pose proof (b2z_range b). lia.
Qed.

Lemma below_other p b i : 1 <= p -> below (2 * p + b2z b) i -> ~ below (2 * p + b2z (negb b)) i.
Proof.
  intros Hp [j Hj] [k Hk]. pose proof (shr_bit i j). pose proof (shr_bit i k).
  pose proof (b2z_range (Z.testbit i (Z.of_nat j))). pose proof (b2z_range (Z.testbit i (Z.of_nat k))).
  pose proof (b2z_range b). pose proof (b2z_range (negb b)).
  assert (S j = S k) by (apply (shr_inj i); lia). assert (j = k) as -> by lia. destruct b; simpl in *; lia.
Qed.

Lemma below_not_self p b : 1 <= p -> ~ below (2 * p + b2z b) p.
Proof.
  intros Hp [j Hj]. pose proof (shr_bit p j). pose proof (b2z_range (Z.testbit p (Z.of_nat j))). pose proof (b2z_range b).
  assert (S j = 0%nat); [|lia]. apply (shr_inj p); rewrite ?shr_0; lia.
Qed.

Lemma below_self p : below p p.
Proof. exists 0%nat. apply shr_0. Qed.

(** The side of a node, from its id. *)
Lemma land_child p b : Z.land (2 * p + b2z b) 1 = b2z b.
Proof.
  change 1 with (Z.ones 1). rewrite Z.land_ones by lia. change (2 ^ 1) with 2.
  pose proof (b2z_range b). Z.div_mod_to_equations; lia.
Qed.

Section sync.
Context (sha256 : list Z -> list Z).
Notation sync_nodes := (sync_nodes sha256).

(** Nodes that a sync rewrites: dirty ones and their ancestors. *)
Fixpoint needs (t : htree_node) : bool :=
  match t with
  | Null => false
  | Node _ d _ _ c0 c1 => d || needs c0 || needs c1
  end.

Definition synced_flags (flags : Z) (c0 c1 : htree_node) : Z :=
  let flags := if needs c0 then toggle false flags else flags in
  if needs c1 then toggle true flags else flags.

(** The tree a successful sync leaves in memory. *)
Fixpoint synced (meta : option Z) (t : htree_node) : htree_node :=
  match t with
  | Null => Null
  | Node id d u ni c0 c1 =>
      if needs t then
        let c0' := synced None c0 in
        let c1' := synced None c1 in
        let ni := set_flags (synced_flags (ni_flags ni) c0 c1) ni in
        Node id false false (set_hash (sha256 (node_hash_input ni c0' c1' meta)) ni) c0' c1'
      else t
  end.

(** In a clean stored tree every node is on storage, in the version its parent
    names, with the right hash. *)
Fixpoint stored (st : storage) (meta : option Z) (v : Z) (t : htree_node) : Prop :=
  match t with
  | Null => True
  | Node id d u ni c0 c1 =>
      d = false /\ u = false /\ st_node st !! (id - 1, v) = Some ni /\
      ni_hash ni = sha256 (node_hash_input ni c0 c1 meta) /\
      stored st None (child_vers (ni_flags ni) false) c0 /\
      stored st None (child_vers (ni_flags ni) true) c1
  end.

(** In a tree with changes under way this holds of what a sync will not
    rewrite; an updated block makes its node dirty. *)
Fixpoint pending (st : storage) (meta : option Z) (v : Z) (t : htree_node) : Prop :=
  match t with
  | Null => True
  | Node id d u ni c0 c1 =>
      (u = true -> d = true) /\
      (needs t = false -> st_node st !! (id - 1, v) = Some ni /\ ni_hash ni = sha256 (node_hash_input ni c0 c1 meta)) /\
      pending st None (child_vers (ni_flags ni) false) c0 /\
      pending st None (child_vers (ni_flags ni) true) c1
  end.

Lemma stored_clean st meta v t : stored st meta v t -> needs t = false.
Proof.
  revert meta v. induction t as [|id d u ni c0 IH0 c1 IH1]; intros meta v; simpl; [done|].
  intros (-> & _ & _ & _ & H0 & H1). by rewrite (IH0 _ _ H0), (IH1 _ _ H1).
Qed.

Lemma stored_pending st meta v t : stored st meta v t -> pending st meta v t.
Proof.
  revert meta v. induction t as [|id d u ni c0 IH0 c1 IH1]; intros meta v; simpl; [done|].
  intros (-> & -> & Hs & Hh & H0 & H1). split; [done|]. split; [done|]. auto.
Qed.

Lemma pending_stored st meta v t : pending st meta v t -> needs t = false -> stored st meta v t.
Proof.
  revert meta v. induction t as [|id d u ni c0 IH0 c1 IH1]; intros meta v; cbn [pending stored]; [done|].
  intros (Hu & Hs & H0 & H1) Hn. destruct (Hs Hn) as [Hst Hh]. simpl in Hn.
  apply orb_false_iff in Hn as [Hn Hn1]. apply orb_false_iff in Hn as [-> Hn0].
  split; [done|]. split; [destruct u; [by specialize (Hu eq_refl)|done]|]. auto.
Qed.

Lemma synced_clean meta t : needs t = false -> synced meta t = t.
Proof. destruct t; [done|]. cbn [synced]. by intros ->. Qed.

(** Frames: [stored] and [pending] of a subtree look at its own nodes only. *)
Definition same_below (p : Z) (st st' : storage) : Prop :=
  forall i v, below p i -> st_node st' !! (i - 1, v) = st_node st !! (i - 1, v).

Lemma same_below_child p b st st' : same_below p st st' -> same_below (2 * p + b2z b) st st'.
Proof. intros Hs i v Hi. apply Hs. by eapply below_child. Qed.

Lemma stored_frame st st' t : forall p meta v,
  tree_wf p t -> same_below p st st' -> stored st meta v t -> stored st' meta v t.
Proof.
  induction t as [|id d u ni c0 IH0 c1 IH1]; intros p meta v Hw Hs; cbn [stored]; [done|].
  destruct Hw as (-> & Hw0 & Hw1). intros (-> & -> & Hst & Hh & H0 & H1).
  split; [done|]. split; [done|]. split; [rewrite (Hs p v (below_self p)); done|]. split; [done|].
  split; [apply (IH0 (2 * p)); [done| |done]|apply (IH1 (2 * p + 1)); [done| |done]].
  - replace (2 * p) with (2 * p + b2z false) by (simpl; lia). by apply same_below_child.
  - by apply (same_below_child p true).
Qed.

Lemma pending_frame st st' t : forall p meta v,
  tree_wf p t -> same_below p st st' -> pending st meta v t -> pending st' meta v t.
Proof.
  induction t as [|id d u ni c0 IH0 c1 IH1]; intros p meta v Hw Hs; cbn [pending]; [done|].
  destruct Hw as (-> & Hw0 & Hw1). intros (Hu & Hst & H0 & H1).
  split; [done|]. split; [rewrite (Hs p v (below_self p)); done|].
  split; [apply (IH0 (2 * p)); [done| |done]|apply (IH1 (2 * p + 1)); [done| |done]].
  - replace (2 * p) with (2 * p + b2z false) by (simpl; lia). by apply same_below_child.
  - by apply (same_below_child p true).
Qed.

Lemma keeps_calc_hash s ni c0 c1 meta : keeps s (calc_node_hash sha256 ni c0 c1 meta).
Proof.
  unfold calc_node_hash. repeat (apply keeps_bind'; [|intros _]); try apply keeps_ext; try apply keeps_ret.
  - destruct meta; auto with keeps.
  - destruct (is_null c0); auto with keeps.
  - destruct (is_null c1); auto with keeps.
Qed.

(** A sync of a subtree writes nodes of the subtree only. *)
Lemma keeps_sync_outside s cnt meta t : forall p parent,
  tree_wf p t -> match s with SNode idx _ => ~ below p (idx + 1) | _ => True end ->
  keeps s (sync_nodes cnt meta parent t).
Proof.
  induction t as [|id d u ni c0 IH0 c1 IH1]; intros p parent Hw Hs; [apply keeps_ret|].
  destruct Hw as (-> & Hw0 & Hw1). cbn [Htree.sync_nodes].
  apply keeps_bind'; [apply (IH0 (2 * p)); [done|]|intros [c0' p0]].
  { destruct s; try done. intros Hb. apply Hs. apply (below_child p false). simpl. by rewrite Z.add_0_r. }
  apply keeps_bind'; [apply (IH1 (2 * p + 1)); [done|]|intros [c1' p1]].
  { destruct s; try done. intros Hb. apply Hs. by apply (below_child p true). }
  cbv zeta. apply keeps_bind'; [auto with keeps|intros _]. destruct (negb _); [auto with keeps|].
  apply keeps_bind'; [apply keeps_calc_hash|intros h]. apply keeps_bind'; [|auto with keeps].
  apply keeps_write_node. intros ->. apply Hs. replace (p - 1 + 1) with p by lia. apply below_self.
Qed.

Lemma calc_hash_nil ni c0 c1 meta w :
  w_ext w = [] -> calc_node_hash sha256 ni c0 c1 meta w = (Ok (sha256 (node_hash_input ni c0 c1 meta)), w).
Proof.
  intros He. unfold calc_node_hash. destruct meta, (is_null c0), (is_null c1); by htrun.
Qed.

Definition meta_for (parent : option Z) (meta : Z) : option Z :=
  match parent with Some _ => None | None => Some meta end.

(** The version a rewritten node goes to. *)
Definition new_vers (cnt : Z) (parent : option Z) (id : Z) : Z :=
  let f := HTREE_NODE_COMMITTED_CHILD (Z.land id 1) in
  match parent with
  | Some p => b2z (has_flag (Z.lxor p f) f)
  | None => b2z (Z.land cnt 1 =? 0)
  end.

(** Only nodes are written by a sync. *)
Definition only_nodes (w w' : world) : Prop :=
  w_ext w' = w_ext w /\ w_rng w' = w_rng w /\
  st_head (w_store w') = st_head (w_store w) /\ st_block (w_store w') = st_block (w_store w).

#[local] Instance only_nodes_preorder : PreOrder only_nodes.
Proof.
  unfold only_nodes. split; [done|]. intros a b c (? & ? & ? & ?) (? & ? & ? & ?).
  split; [congruence|]. split; [congruence|]. split; congruence.
Qed.

Lemma synced_flags_false flags c0 c1 :
  child_vers (synced_flags flags c0 c1) false =
  if needs c0 then child_vers (toggle false flags) false else child_vers flags false.
Proof. unfold synced_flags. destruct (needs c0), (needs c1); rewrite ?child_vers_toggle; done. Qed.

Lemma synced_flags_true flags c0 c1 :
  child_vers (synced_flags flags c0 c1) true =
  if needs c1 then child_vers (toggle true (if needs c0 then toggle false flags else flags)) true
  else child_vers flags true.
Proof. unfold synced_flags. destruct (needs c0), (needs c1); rewrite ?child_vers_toggle; done. Qed.

Lemma synced_wf mo t : forall q, tree_wf q t -> tree_wf q (synced mo t).
Proof.
  revert mo. induction t as [|id d u ni a IHa b IHb]; intros mo q; [done|].
  intros (-> & Ha & Hb). cbn [synced]. destruct (needs _); [|done]. split; [done|]. auto.
Qed.

Lemma set_flags_same ni : set_flags (ni_flags ni) ni = ni.
Proof. by destruct ni. Qed.

Lemma sync_ok cnt meta t : forall p parent v w,
  1 <= p -> tree_wf p t -> w_ext w = [] -> pending (w_store w) (meta_for parent meta) v t ->
  exists w', sync_nodes cnt meta parent t w =
      (Ok (synced (meta_for parent meta) t,
           if needs t then (fun x => Z.lxor x (HTREE_NODE_COMMITTED_CHILD (Z.land p 1))) <$> parent else None), w') /\
    only_nodes w w' /\
    stored (w_store w') (meta_for parent meta) (if needs t then new_vers cnt parent p else v)
           (synced (meta_for parent meta) t).
Proof.
  induction t as [|id d u ni c0 IH0 c1 IH1]; intros p parent v w Hp Hw He Hpd.
  { exists w. done. }
  pose proof Hw as (-> & Hw0 & Hw1). destruct Hpd as (Hu & Hst & Hp0 & Hp1).
  set (flags := ni_flags ni) in *.
  assert (Hf0 : HTREE_NODE_COMMITTED_CHILD (Z.land (2 * p) 1) = HTREE_NODE_COMMITTED_CHILD (b2z false)).
  { f_equal. rewrite <- (land_child p false). f_equal. simpl. lia. }
  assert (Hf1 : HTREE_NODE_COMMITTED_CHILD (Z.land (2 * p + 1) 1) = HTREE_NODE_COMMITTED_CHILD (b2z true)).
  { f_equal. apply (land_child p true). }
  destruct (IH0 (2 * p) (Some flags) _ w ltac:(lia) Hw0 He Hp0) as (w1 & Hr0 & Ho0 & Hs0).
  rewrite Hf0 in Hr0. cbn [meta_for] in Hr0, Hs0.
  pose proof (fun s Hs => keeps_sync_outside s cnt meta c0 (2 * p) (Some flags) Hw0 Hs w) as Hk0.
  rewrite Hr0 in Hk0. cbn [snd] in Hk0.
  set (flags1 := if needs c0 then toggle false flags else flags).
  assert (Hd0 : default flags (if needs c0 then (fun x => Z.lxor x (HTREE_NODE_COMMITTED_CHILD (b2z false))) <$> Some flags else None) = flags1).
  { unfold flags1. by destruct (needs c0). }
  assert (He1 : w_ext w1 = []) by (by destruct Ho0 as (-> & _)).
  assert (Hsb1 : same_below (2 * p + 1) (w_store w) (w_store w1)).
  { intros i x Hi. apply (Hk0 (SNode (i - 1) x)). replace (i - 1 + 1) with i by lia.
    pose proof (below_other p true i Hp Hi) as Hn. simpl in Hn. by rewrite Z.add_0_r in Hn. }
  destruct (IH1 (2 * p + 1) (Some flags1) (child_vers flags true) w1 ltac:(lia) Hw1 He1) as (w2 & Hr1 & Ho1 & Hs1).
  { by apply (pending_frame (w_store w) _ c1 (2 * p + 1)). }
  rewrite Hf1 in Hr1. cbn [meta_for] in Hr1, Hs1.
  pose proof (fun s Hs => keeps_sync_outside s cnt meta c1 (2 * p + 1) (Some flags1) Hw1 Hs w1) as Hk1.
  rewrite Hr1 in Hk1. cbn [snd] in Hk1.
  assert (Hd1 : default flags1 (if needs c1 then (fun x => Z.lxor x (HTREE_NODE_COMMITTED_CHILD (b2z true))) <$> Some flags1 else None)
    = synced_flags flags c0 c1).
  { unfold synced_flags, flags1. by destruct (needs c1). }
  assert (He2 : w_ext w2 = []) by (by destruct Ho1 as (-> & _)).
  (* the children as stored now, under the new flags *)
  assert (Hs0' : stored (w_store w2) None (child_vers (synced_flags flags c0 c1) false) (synced None c0)).
  { apply (stored_frame (w_store w1) _ _ (2 * p)).
    - by apply synced_wf.
    - intros i x Hi. apply (Hk1 (SNode (i - 1) x)). replace (i - 1 + 1) with i by lia.
      pose proof (below_other p false i Hp) as Hn. simpl in Hn. rewrite Z.add_0_r in Hn. by apply Hn.
    - rewrite synced_flags_false. destruct (needs c0) eqn:Hn; [|exact Hs0].
      unfold new_vers in Hs0. rewrite Hf0 in Hs0. exact Hs0. }
  assert (Hs1' : stored (w_store w2) None (child_vers (synced_flags flags c0 c1) true) (synced None c1)).
  { rewrite synced_flags_true. fold flags1. destruct (needs c1) eqn:Hn; [|exact Hs1].
    unfold new_vers in Hs1. rewrite Hf1 in Hs1. exact Hs1. }
  cbn [Htree.sync_nodes]. unfold bind at 1. fold flags. rewrite Hr0. cbv beta iota zeta. rewrite Hd0.
  unfold bind at 1. rewrite Hr1. cbv beta iota zeta. rewrite Hd1.
  assert (Hb0 : forall (o : bool) (z : Z), bool_decide (is_Some (if o then Some z else None)) = o).
  { intros [] z; [by apply bool_decide_true; eauto|by apply bool_decide_false; intros [? ?]]. }
  cbn [fmap option_fmap option_map]. rewrite !Hb0.
  change (d || needs c0 || needs c1) with (needs (Node p d u ni c0 c1)).
  set (n := needs (Node p d u ni c0 c1)) in *.
  unfold bind at 1. replace (implb u n) with true.
  2: { destruct u; [|done]. unfold n. simpl. by rewrite Hu. }
  cbn [check ret]. cbv beta iota. destruct n eqn:Hn; cbn [negb].
  - unfold bind. rewrite calc_hash_nil by done. cbv beta iota. rewrite rpc_write_node_nil by done. cbv beta iota. unfold ret.
    assert (Hsy : forall m, synced m (Node p d u ni c0 c1) =
      Node p false false (set_hash (sha256 (node_hash_input (set_flags (synced_flags flags c0 c1) ni) (synced None c0) (synced None c1) m))
        (set_flags (synced_flags flags c0 c1) ni)) (synced None c0) (synced None c1)).
    { intros m. cbn [synced]. fold n. by rewrite Hn. }
    rewrite Hsy. fold (meta_for parent meta).
    eexists. split; [reflexivity|]. split.
    { etrans; [exact Ho0|]. etrans; [exact Ho1|]. done. }
    cbn [stored]. split; [done|]. split; [done|]. split.
    { cbn [w_store upd_store st_node]. unfold new_vers. destruct parent; simpl; by rewrite lookup_insert_eq. }
    split; [done|].
    assert (Hfr : forall b, same_below (2 * p + b2z b) (w_store w2)
      (mk_storage (st_head (w_store w2)) (<[(p - 1, new_vers cnt parent p) := set_hash (sha256 (node_hash_input (set_flags (synced_flags flags c0 c1) ni) (synced None c0) (synced None c1) (meta_for parent meta))) (set_flags (synced_flags flags c0 c1) ni)]> (st_node (w_store w2))) (st_block (w_store w2)))).
    { intros b i x Hi. simpl. rewrite lookup_insert_ne; [done|]. intros [= Hx _].
      assert (i = p) as -> by lia. by apply (below_not_self p b) in Hi. }
    split.
    + eapply (stored_frame (w_store w2) _ _ (2 * p)); [by apply synced_wf| |exact Hs0'].
      pose proof (Hfr false) as H. simpl in H. rewrite Z.add_0_r in H.
      unfold new_vers in H. destruct parent; exact H.
    + eapply (stored_frame (w_store w2) _ _ (2 * p + 1)); [by apply synced_wf| |exact Hs1'].
      pose proof (Hfr true) as H. unfold new_vers in H. destruct parent; exact H.
  - unfold n in Hn. cbn [needs] in Hn. apply orb_false_iff in Hn as [Hn Hn1]. apply orb_false_iff in Hn as [-> Hn0].
    assert (Hsf : synced_flags flags c0 c1 = ni_flags ni) by (unfold synced_flags; by rewrite Hn0, Hn1).
    rewrite Hsf, set_flags_same in *. rewrite (synced_clean None c0), (synced_clean None c1) in * by done.
    assert (u = false) as -> by (destruct u; [by specialize (Hu eq_refl)|done]).
    assert (Hsy : forall m, synced m (Node p false false ni c0 c1) = Node p false false ni c0 c1).
    { intros m. apply synced_clean. simpl. by rewrite Hn0, Hn1. }
    rewrite Hsy. exists w2. split; [done|]. split; [by etrans|].
    cbn [stored]. split; [done|]. split; [done|].
    destruct Hst as [Hst Hh]; [done|]. split; [|done].
    rewrite <- Hst. etrans; [apply (Hk1 (SNode (p - 1) v))|apply (Hk0 (SNode (p - 1) v))];
      replace (p - 1 + 1) with p by lia.
    + by apply (below_not_self p true).
    + pose proof (below_not_self p false Hp) as Hb. simpl in Hb. by rewrite Z.add_0_r in Hb.
Qed.

(** ** Reading a stored tree *)

Lemma view_child_some p d u ni c0 c1 b i x :
  1 <= p -> tree_wf p (Node p d u ni c0 c1) ->
  view (if b : bool then c1 else c0) !! i = Some x -> view (Node p d u ni c0 c1) !! i = Some x.
Proof.
  intros Hp (_ & Hw0 & Hw1) Hx. simpl.
  assert (Hwb : tree_wf (2 * p + b2z b) (if b then c1 else c0)) by (destruct b; simpl; rewrite ?Z.add_0_r; done).
  assert (Hne : i ≠ p) by (by eapply (view_not_root p (if b then c1 else c0) b i x)).
  rewrite lookup_insert_ne by done.
  rewrite lookup_union. destruct b.
  - destruct (view c0 !! i) as [y|] eqn:H0; [|by rewrite Hx].
    by rewrite (view_disjoint p _ _ _ _ Hp Hw0 Hw1 H0) in Hx.
  - rewrite Hx. by destruct (view c1 !! i).
Qed.

Lemma shr1_child p b : 1 <= p -> shr (2 * p + b2z b) 1 = p.
Proof.
  intros Hp. unfold shr. change (Z.of_nat 1) with 1. rewrite Z.shiftr_div_pow2 by lia. change (2 ^ 1) with 2.
  pose proof (b2z_range b). Z.div_mod_to_equations; lia.
Qed.

Lemma odd_child p b : Z.odd (2 * p + b2z b) = b.
Proof. rewrite Z.add_comm, Z.odd_add_mul_2. by destruct b. Qed.

(** Where the image of a node of a stored tree is. *)
Lemma stored_lookup st t : forall p meta v i d u ni,
  1 <= p -> tree_wf p t -> stored st meta v t -> view t !! i = Some (d, u, ni) ->
  d = false /\ u = false /\
  (i = p -> st_node st !! (i - 1, v) = Some ni) /\
  (i ≠ p -> exists nq, view t !! shr i 1 = Some (false, false, nq) /\
     st_node st !! (i - 1, child_vers (ni_flags nq) (Z.odd i)) = Some ni).
Proof.
  induction t as [|id d0 u0 n0 c0 IH0 c1 IH1]; intros p meta v i d u ni Hp Hw Hs Hv; [done|].
  pose proof Hw as (-> & Hw0 & Hw1). destruct Hs as (-> & -> & Hst & _ & Hs0 & Hs1).
  assert (Hside : forall b, view (if b : bool then c1 else c0) !! i = Some (d, u, ni) ->
    d = false /\ u = false /\ i ≠ p /\ exists nq, view (Node p false false n0 c0 c1) !! shr i 1 = Some (false, false, nq) /\
     st_node st !! (i - 1, child_vers (ni_flags nq) (Z.odd i)) = Some ni).
  { intros b Hb.
    assert (Hwb : tree_wf (2 * p + b2z b) (if b then c1 else c0)) by (destruct b; simpl; rewrite ?Z.add_0_r; done).
    assert (Hr : d = false /\ u = false /\
      (i = 2 * p + b2z b -> st_node st !! (i - 1, child_vers (ni_flags n0) b) = Some ni) /\
      (i ≠ 2 * p + b2z b -> exists nq, view (if b then c1 else c0) !! shr i 1 = Some (false, false, nq) /\
         st_node st !! (i - 1, child_vers (ni_flags nq) (Z.odd i)) = Some ni)).
    { pose proof (b2z_range b). destruct b; [eapply IH1|eapply IH0]; try done; simpl in *; lia. }
    destruct Hr as (-> & -> & Hr1 & Hr2). split; [done|]. split; [done|].
    split; [by eapply (view_not_root p (if b then c1 else c0) b i (false, false, ni))|].
    destruct (decide (i = 2 * p + b2z b)) as [->|Hne].
    - exists n0. rewrite shr1_child, view_root, odd_child by done. auto.
    - destruct (Hr2 Hne) as (nq & Hq & Hn). exists nq. split; [|done].
      by apply (view_child_some p false false n0 c0 c1 b). }
  simpl in Hv. apply lookup_insert_Some in Hv as [[<- [= <- <- <-]]|[Hne Hv]].
  - split; [done|]. split; [done|]. split; done.
  - apply lookup_union_Some_raw in Hv as [Hv|[_ Hv]].
    + destruct (Hside false Hv) as (-> & -> & Hip & Hex). split; [done|]. split; [done|]. split; [done|auto].
    + destruct (Hside true Hv) as (-> & -> & Hip & Hex). split; [done|]. split; [done|]. split; [done|auto].
Qed.

(** [get_node] on a tree still being read, whatever the recorded maximum. *)
Lemma get_next_node m t max w :
  shape m t -> m + 1 < UINT_MAX -> w_ext w = [] ->
  exists t' max', get_node true (m + 1) t max w = (Ok (t', max'), w) /\ grown m (m + 1) t t'.
Proof.
  intros Hsh Hb He. pose proof Hsh as (Hm & _). unfold get_node, bind, of_outcome.
  rewrite find_closest_ok by lia. unfold ret.
  destruct (closest_ancestor m t (m + 1) Hsh ltac:(lia)) as [Ha Ham].
  set (a := node_id_of _) in *. destruct (Z.eqb_spec a (m + 1)); [lia|]. cbn [negb].
  destruct (add_nodes_spec (Z.to_nat (m + 1 - a)) (a + 1) m t w Hsh) as (w' & Hq & Hr); [lia|lia|].
  replace (Z.max m (a + 1 + Z.of_nat (Z.to_nat (m + 1 - a)) - 1)) with (m + 1) in Hr by lia.
  destruct Hr as [(t' & -> & Hg & Hw)|(c & _ & Hc)]; [|done]. rewrite Hw by done. eauto.
Qed.

Lemma set_img_state ni : state_update (set_img ni).
Proof. intros id d u n c0 c1. by exists d, u, ni. Qed.

Lemma init_tree_loop_ok t v meta max w M0 : forall count n r,
  stored (w_store w) meta v t -> shape M0 t -> M0 < UINT_MAX -> w_ext w = [] ->
  shape (n - 1) r -> n - 1 + Z.of_nat count = M0 -> 
  (forall i, i < n -> view r !! i = view t !! i) ->
  init_tree_loop count n r max w = (Ok t, w).
Proof.
  induction count as [|count IH]; intros n r Hst HshT Hb He Hsh Hc Hv; cbn [init_tree_loop].
  - assert (M0 = n - 1) as -> by lia. unfold ret. do 2 f_equal.
    apply (view_eq_tree 1); [lia|apply Hsh|apply HshT|]. intros i.
    destruct (Z.lt_ge_cases i n) as [Hlt|Hge]; [by apply Hv|].
    assert (Hno : forall t, shape (n - 1) t -> view t !! i = None).
    { intros t' (_ & _ & Hin). destruct (view t' !! i) eqn:Hx; [|done].
      assert (1 <= i <= n - 1) by (apply Hin; eauto). lia. }
    by rewrite !Hno.
  - pose proof Hsh as (Hn1 & _). assert (Hq : 1 <= shr n 1 <= n - 1) by (apply (shr1_range n (n - 1)); lia).
    change (Z.shiftr n 1) with (shr n 1). unfold bind at 1.
    destruct (shape_lookup (n - 1) r (shr n 1) Hsh Hq) as (d & u & nq & e0 & e1 & Hvq & Hwd).
    unfold find_node, of_outcome. rewrite find_closest_ok by lia. cbn [obind]. rewrite Hwd. cbn [node_id_of].
    rewrite Z.eqb_refl. unfold ret. cbn [img_of]. cbv zeta.
    assert (HnT : is_Some (view t !! n)) by (apply HshT; lia). destruct HnT as [[[dn un] nn] HvT].
    destruct (stored_lookup _ t 1 meta v n dn un nn ltac:(lia) (proj1 (proj2 HshT)) Hst HvT) as (-> & -> & _ & Hx).
    destruct (Hx ltac:(lia)) as (nq' & Hq' & Hread). rewrite Hv in Hvq by lia.
    pose proof (eq_trans (eq_sym Hq') Hvq) as Heq. injection Heq as <- <- <-.
    assert (Hver : b2z (has_flag (ni_flags nq') (HTREE_NODE_COMMITTED_CHILD (Z.land n 1))) = child_vers (ni_flags nq') (Z.odd n)).
    { unfold child_vers. do 3 f_equal. pose proof (shr_bit n 0) as Hn. rewrite shr_0 in Hn. rewrite Hn at 1.
      rewrite land_child. by rewrite <- Z.bit0_odd. }
    rewrite Hver. unfold bind at 1. rewrite rpc_read_node_nil, Hread by done. cbn [of_option]. unfold ret.
    destruct (get_next_node (n - 1) r max w Hsh ltac:(lia) He) as (t' & max' & Hg & Hgr).
    replace (n - 1 + 1) with n in Hg, Hgr by lia. unfold bind. rewrite Hg. pose proof Hgr as [Hs' Hv'].
    pose proof (shr_depth n ltac:(lia)) as Hd.
    destruct (update_state (depth_of n) n (set_img nn) t') as [Hwu Hvu];
      [apply set_img_state|lia|rewrite Hd; apply Hs'|apply Hs'; lia|].
    rewrite Hd in Hwu.
    destruct (shape_lookup n t' n Hs' ltac:(lia)) as (d1 & u1 & n1 & f0 & f1 & Hvn & Hwn).
    assert (Hfr : view t' !! n = Some fresh_state) by (rewrite Hv', decide_True by lia; done).
    pose proof (eq_trans (eq_sym Hvn) Hfr) as Heq2. injection Heq2 as -> -> ->. rewrite Hwn in Hvu. cbn [set_img state_of] in Hvu.
    apply IH; try done; [|lia|].
    + replace (n + 1 - 1) with n by lia. split; [lia|]. split; [done|]. intros i. unfold update_node. rewrite Hvu.
      case_decide as Hi; [subst; split; [lia|eauto]|]. apply Hs'.
    + intros i Hi. unfold update_node. rewrite Hvu. case_decide as Hin; [by subst|].
      rewrite Hv', decide_False by lia. apply Hv. lia.
Qed.

Lemma verify_nodes_ok st t w : w_ext w = [] -> forall meta v, stored st meta v t -> verify_nodes sha256 meta t w = (Ok tt, w).
Proof.
  intros He. induction t as [|id d u ni c0 IH0 c1 IH1]; intros meta v; cbn [stored verify_nodes]; [done|].
  intros (_ & _ & _ & Hh & H0 & H1). unfold bind. rewrite (IH0 _ _ H0), (IH1 _ _ H1).
  rewrite calc_hash_nil by done. by rewrite bool_decide_true.
Qed.
End sync.
