(* ===== verification/HtreeCommit.v ===== *)
(** * Hash tree: commit, crash and reopening

    [committed] says that storage holds exactly a given clean tree as its current
    version, [working] that a tree in memory is a committed one with changes under
    way. Reopening yields the committed tree, a sync commits the working one, and
    until the header is written the old version stays in place. *)

From stdpp Require Import base gmap list.
From Stdlib Require Import ZArith Lia.
From S2P Require Import Prelude Htree HtreeShape HtreeSync.

Local Open Scope Z_scope.

Definition parity (c : Z) : Z := Z.land c 1.

Lemma parity_mod c : parity c = c mod 2.
Proof. unfold parity. change 1 with (Z.ones 1). by rewrite Z.land_ones by lia. Qed.

Lemma parity_cases c : parity c = 0 \/ parity c = 1.
Proof. rewrite parity_mod. Z.div_mod_to_equations; lia. Qed.

Lemma parity_succ c : parity (c + 1) = 1 - parity c.
Proof. rewrite !parity_mod. Z.div_mod_to_equations; lia. Qed.

(** The header of the larger counter is selected. *)
Lemma get_idx_selects c0 c1 c :
  (if parity c =? 0 then c0 else c1) = c -> (if parity c =? 0 then c1 else c0) < c ->
  get_idx_from_counter c0 c1 = parity c.
Proof.
  intros H1 H2. unfold get_idx_from_counter. fold (parity c0) (parity c1).
  destruct (parity_cases c) as [Hp|Hp]; rewrite Hp in H1, H2 |- *; simpl in H1, H2; subst c.
  - rewrite Hp. cbn [Z.eqb]. destruct (parity c1 =? 0); [done|].
    destruct (Z.gtb_spec c0 c1); [done|lia].
  - rewrite Hp. cbn [Z.eqb negb]. destruct (parity c0 =? 0); [|done].
    destruct (Z.gtb_spec c0 c1); [lia|done].
Qed.

Section commit.
Context (sha256 : list Z -> list Z).
Context {gcm_enc gcm_dec fek_encrypt fek_decrypt}
  {Hcrypto : HtreeCrypto gcm_enc gcm_dec fek_encrypt fek_decrypt}.
Context (rng : nat -> list Z) (block_size : nat).
Notation write_block := (tee_fs_htree_write_block gcm_enc rng).
Notation read_block := (tee_fs_htree_read_block gcm_dec block_size).
Notation sync := (tee_fs_htree_sync_to_storage sha256 gcm_enc rng).
Notation open_file := (tee_fs_htree_open sha256 gcm_enc gcm_dec fek_encrypt fek_decrypt rng).
Notation stored := (stored sha256).
Notation pending := (pending sha256).
Notation synced := (synced sha256).

Definition counter_of (ht : tee_fs_htree) : Z := hd_counter (ht_head ht).
Definition meta_of (ht : tee_fs_htree) : Z := im_length (ht_imeta ht).

Record committed (st : storage) (m : Z) (ht : tee_fs_htree) : Prop := {
  cm_shape : ht_shape m ht;
  cm_bound : m < UINT_MAX;
  cm_tree : stored st (Some (meta_of ht)) (parity (counter_of ht)) (ht_root ht);
  cm_head : st_head st !! parity (counter_of ht) = Some (ht_head ht);
  cm_old : exists h, st_head st !! (1 - parity (counter_of ht)) = Some h /\ hd_counter h < counter_of ht;
  cm_valid : gcm_dec (ht_fek ht) (hd_iv (ht_head ht))
    (head_aad (hash_of (ht_root ht)) (counter_of ht) (hd_enc_fek (ht_head ht)) (hd_iv (ht_head ht)))
    (hd_imeta (ht_head ht)) (hd_tag (ht_head ht)) = Some (imeta_bytes (ht_imeta ht));
  cm_length : length (hd_imeta (ht_head ht)) = length (imeta_bytes (ht_imeta ht));
  cm_fek : ht_fek ht = fek_decrypt (hd_enc_fek (ht_head ht));
  cm_imeta : imeta_ok (ht_imeta ht);
  cm_clean : ht_dirty ht = false
}.

(** ** Reopening *)

Lemma root_shape ni : shape 1 (Node 1 false false ni Null Null).
Proof.
  split; [lia|]. split; [done|]. intros i. simpl. rewrite (right_id_L ∅ (∪)), insert_empty. split.
  - intros [x [-> _]%lookup_singleton_Some]. lia.
  - intros Hi. assert (i = 1) as -> by lia. rewrite lookup_singleton_eq. eauto.
Qed.

Lemma open_committed m ht w :
  committed (w_store w) m ht -> w_ext w = [] -> open_file false None w = (Return (Some ht, TEE_SUCCESS), w).
Proof.
  intros [[Hsh Hm] Hb Htr Hhd (h & Hold & Hlt) Hval Hlen Hfek Him Hcl] He.
  destruct (ht_root ht) as [|id d u ni c0 c1] eqn:Hroot; [by destruct (shape_not_null m Null Hsh)|].
  pose proof Hsh as (_ & (-> & _) & _).
  pose proof Htr as (-> & -> & Hr & _). change (1 - 1) with 0 in Hr.
  set (c := counter_of ht) in *.
  unfold tee_fs_htree_open. rewrite ext_nil by done. cbv iota beta.
  assert (Hinit : init_head_from_data None w = (Ok (ni, ht_head ht), w)).
  { unfold init_head_from_data. unfold bind at 1. rewrite rpc_read_head_nil by done.
    assert (Hheads : exists h0 h1, st_head (w_store w) !! 0 = Some h0 /\ st_head (w_store w) !! 1 = Some h1 /\
      (if parity c =? 0 then h0 else h1) = ht_head ht /\ (if parity c =? 0 then h1 else h0) = h).
    { destruct (parity_cases c) as [Hp|Hp]; rewrite Hp in Hhd, Hold |- *; simpl in Hold |- *; eauto 10. }
    destruct Hheads as (h0 & h1 & -> & H1 & Hsel & Hoth). cbn [of_option]. unfold ret.
    unfold bind at 1. rewrite rpc_read_head_nil, H1 by done. cbn [of_option]. unfold ret. cbv zeta.
    rewrite (get_idx_selects (hd_counter h0) (hd_counter h1) c).
    2: { revert Hsel. by destruct (parity c =? 0); intros ->. }
    2: { revert Hoth. by destruct (parity c =? 0); intros ->. }
    destruct (parity_cases c) as [Hp|Hp]; rewrite Hp in *; cbn [Z.ltb Z.compare Z.eqb];
      unfold bind; rewrite rpc_read_node_nil by done; change (1 - 1) with 0; rewrite Hr; cbn [of_option Z.eqb] in *;
      unfold ret; by rewrite <- Hsel. }
  unfold bind at 1. rewrite Hinit. cbv beta iota.
  assert (Hver : verify_root gcm_dec fek_decrypt (ni_hash ni) (ht_head ht) w = (Ok (ht_fek ht, ht_imeta ht), w)).
  { unfold verify_root. unfold bind at 1. rewrite ext_nil by done. cbv iota beta zeta. unfold bind at 1.
    rewrite authenc_init_nil by done. unfold bind at 1, authenc_decrypt_final. rewrite ext_nil by done.
    rewrite <- Hfek. unfold c, counter_of in Hval. simpl in Hval. rewrite Hval.
    rewrite bool_decide_true by done. unfold ret. by rewrite imeta_roundtrip. }
  unfold bind at 1. rewrite Hver. cbv beta iota. unfold init_tree_from_data.
  assert (Htree : init_tree_loop (Z.to_nat (im_max_node_id (ht_imeta ht) - 1)) 2
    (Node 1 false false ni Null Null) (im_max_node_id (ht_imeta ht)) w = (Ok (Node 1 false false ni c0 c1), w)).
  { eapply (init_tree_loop_ok sha256); [exact Htr|exact Hsh|done|done|apply root_shape|lia|].
    intros i Hi. destruct (decide (i = 1)) as [->|Hne]; [by rewrite !view_root|].
    assert (Hno : forall k t, shape k t -> view t !! i = None).
    { intros k t (_ & _ & Hin). destruct (view t !! i) eqn:Hx; [|done]. assert (1 <= i <= k) by (apply Hin; eauto). lia. }
    by rewrite (Hno _ _ Hsh), (Hno _ _ (root_shape ni)). }
  unfold bind at 1. rewrite Htree. cbv beta iota. unfold verify_tree, bind. rewrite ext_nil by done. cbv beta iota.
  fold (meta_of ht). rewrite (verify_nodes_ok sha256 _ _ w He _ _ Htr). unfold ret. do 4 f_equal.
  destruct ht as [r hd f im dd]. simpl in *. by subst.
Qed.

(** ** A tree with changes under way *)

Record changing (st : storage) (m : Z) (ht : tee_fs_htree) : Prop := {
  wk_shape : ht_shape m ht;
  wk_bound : m < UINT_MAX;
  wk_tree : pending st (Some (meta_of ht)) (parity (counter_of ht)) (ht_root ht);
  wk_fek : ht_fek ht = fek_decrypt (hd_enc_fek (ht_head ht));
  wk_imeta : imeta_ok (ht_imeta ht);
  wk_counter : 0 <= counter_of ht < UINT32_MAX;
  wk_dirty : ht_dirty ht = needs (ht_root ht)
}.

(** ... of a file that has been committed before. *)
Definition working (st : storage) (m : Z) (ht : tee_fs_htree) : Prop :=
  changing st m ht /\
  exists h, st_head st !! parity (counter_of ht) = Some h /\ hd_counter h = counter_of ht.

Lemma committed_working st m ht :
  committed st m ht -> 0 <= counter_of ht < UINT32_MAX -> working st m ht.
Proof.
  intros [Hsh Hb Htr Hhd Hold Hval Hlen Hfek Him Hcl] Hc. split; [|eauto]. constructor; try done.
  - by apply stored_pending.
  - by rewrite Hcl, (stored_clean _ _ _ _ _ Htr).
Qed.

Lemma view_synced_ids mo t i : is_Some (view (synced mo t) !! i) <-> is_Some (view t !! i).
Proof.
  revert mo. induction t as [|id d u ni c0 IH0 c1 IH1]; intros mo; [done|]. cbn [HtreeSync.synced].
  destruct (needs _); [|done]. cbn [view]. rewrite !lookup_insert_is_Some, !lookup_union_is_Some.
  by rewrite IH0, IH1.
Qed.

(** A sync leaves what concerns the block of a node as it is. *)
Definition block_part (ni : tee_fs_htree_node_image) : list Z * list Z * Z := (ni_iv ni, ni_tag ni, block_vers ni).

Lemma block_part_flags ni c0 c1 :
  block_part (set_flags (synced_flags (ni_flags ni) c0 c1) ni) = block_part ni.
Proof.
  unfold block_part. f_equal. unfold synced_flags.
  destruct (needs c0), (needs c1); rewrite ?block_vers_toggle_child; by destruct ni.
Qed.

Lemma view_synced_block mo t i :
  (fun s => block_part s.2) <$> view (synced mo t) !! i = (fun s => block_part s.2) <$> view t !! i.
Proof.
  revert mo. induction t as [|id d u ni c0 IH0 c1 IH1]; intros mo; [done|]. cbn [HtreeSync.synced].
  destruct (needs _); [|done]. cbn [view]. destruct (decide (i = id)) as [->|Hne].
  - rewrite !lookup_insert_eq. cbn [fmap option_fmap option_map snd]. f_equal. apply (block_part_flags ni c0 c1).
  - rewrite !lookup_insert_ne, !lookup_union by done. specialize (IH0 None). specialize (IH1 None).
    destruct (view (synced None c0) !! i), (view c0 !! i), (view (synced None c1) !! i), (view c1 !! i); done.
Qed.

Lemma synced_shape m mo t : shape m t -> shape m (synced mo t).
Proof.
  intros (Hm & Hw & Hin). split; [done|]. split; [by apply synced_wf|]. intros i. by rewrite view_synced_ids.
Qed.

(** Before the header is written: the nodes are in place for the next counter. *)
Lemma sync_nodes_ok m ht w :
  changing (w_store w) m ht -> ht_dirty ht = true -> w_ext w = [] ->
  exists head w', sync_to_storage_nodes sha256 gcm_enc rng ht w =
      (Ok (mk_htree (synced (Some (meta_of ht)) (ht_root ht)) head (ht_fek ht) (ht_imeta ht) true), w') /\
    w_ext w' = [] /\ st_head (w_store w') = st_head (w_store w) /\ st_block (w_store w') = st_block (w_store w) /\
    hd_counter head = counter_of ht + 1 /\ hd_enc_fek head = hd_enc_fek (ht_head ht) /\
    stored (w_store w') (Some (meta_of ht)) (parity (counter_of ht + 1)) (synced (Some (meta_of ht)) (ht_root ht)) /\
    gcm_dec (ht_fek ht) (hd_iv head)
      (head_aad (hash_of (synced (Some (meta_of ht)) (ht_root ht))) (hd_counter head) (hd_enc_fek head) (hd_iv head))
      (hd_imeta head) (hd_tag head) = Some (imeta_bytes (ht_imeta ht)) /\
    length (hd_imeta head) = length (imeta_bytes (ht_imeta ht)).
Proof.
  intros [[Hsh Hm] Hb Htr Hfek Him Hc Hd] Hdirty He.
  destruct (sync_ok sha256 (counter_of ht) (meta_of ht) (ht_root ht) 1 None (parity (counter_of ht)) w
    ltac:(lia) (proj1 (proj2 Hsh)) He Htr) as (w1 & Hs & (Ho1 & Ho2 & Ho3 & Ho4) & Hst).
  assert (He1 : w_ext w1 = []) by congruence.
  rewrite <- Hd, Hdirty in Hst. cbn [meta_for] in Hs, Hst.
  unfold sync_to_storage_nodes. unfold bind at 1. fold (counter_of ht) (meta_of ht). rewrite Hs. cbv beta iota zeta.
  unfold update_root. cbn [ht_head ht_fek ht_imeta ht_root]. unfold crypto_rng_read. htrun.
  rewrite authenc_init_nil by done. unfold authenc_encrypt_final. htrun. fold (counter_of ht).
  destruct (gcm_enc _ _ _ _) as [crypt tag] eqn:Henc. cbv beta iota.
  match type of Henc with gcm_enc ?k ?iv ?aad ?p = _ =>
    pose proof (gcm_length k iv aad p) as Hl; pose proof (gcm_tag k iv aad p) as Ht;
    pose proof (gcm_roundtrip k iv aad p) as Hrt end.
  rewrite Henc in Hl, Ht, Hrt. cbn [fst snd] in Hl, Ht, Hrt. rewrite !bool_decide_true by done. cbn [andb].
  rewrite Hdirty. assert (Hu : u32 (counter_of ht + 1) = counter_of ht + 1).
  { apply u32_small. unfold is_u32, UINT32_MAX in *. lia. }
  eexists _, _. split; [reflexivity|]. cbn [w_ext w_store hd_counter hd_enc_fek hd_iv hd_imeta hd_tag].
  rewrite Hu in *. split; [done|]. split; [done|]. split; [done|]. split; [done|]. split; [done|].
  split; [|done]. unfold new_vers in Hst. fold (parity (counter_of ht)) in Hst. rewrite parity_succ.
  destruct (parity_cases (counter_of ht)) as [Hp|Hp]; rewrite Hp in *; exact Hst.
Qed.

(** A successful sync commits, provided the other header is older. *)
Lemma sync_commits_gen m ht w :
  changing (w_store w) m ht -> ht_dirty ht = true -> w_ext w = [] ->
  exists ht' w', sync (Some ht) w = (Return (Some ht', TEE_SUCCESS, Some (hash_of (ht_root ht'))), w') /\
    w_ext w' = [] /\
    (forall st, st_node st = st_node (w_store w') -> st_head st !! (1 - parity (counter_of ht)) = st_head (w_store w') !! (1 - parity (counter_of ht)) ->
       (exists h, st_head st !! parity (counter_of ht) = Some h /\ hd_counter h < counter_of ht + 1) ->
       committed st m ht') /\
    ht_root ht' = synced (Some (meta_of ht)) (ht_root ht) /\ ht_imeta ht' = ht_imeta ht /\
    ht_fek ht' = ht_fek ht /\ hd_enc_fek (ht_head ht') = hd_enc_fek (ht_head ht) /\
    counter_of ht' = counter_of ht + 1 /\ st_block (w_store w') = st_block (w_store w) /\
    st_head (w_store w') !! parity (counter_of ht) = st_head (w_store w) !! parity (counter_of ht).
Proof.
  intros Hwk Hdirty He. destruct (sync_nodes_ok m ht w Hwk Hdirty He) as
    (head & w1 & Hs & He1 & Hh1 & Hb1 & Hcnt & Hef & Hst & Hval & Hlen).
  unfold tee_fs_htree_sync_to_storage. rewrite Hdirty. cbn [negb]. rewrite ext_nil by done. cbv beta iota.
  unfold close_on_error. unfold bind at 1. rewrite Hs. cbv beta iota. cbn [ht_head ht_root ht_fek ht_imeta].
  unfold rpc_write_head. htrun. unfold put_store. cbv beta iota.
  destruct Hwk as [[Hsh Hm] Hb Htr Hfek Him Hc Hd].
  pose proof (parity_succ (counter_of ht)) as Hps. unfold parity at 1 in Hps. rewrite Hcnt, Hps.
  exists (mk_htree (synced (Some (meta_of ht)) (ht_root ht)) head (ht_fek ht) (ht_imeta ht) false).
  eexists. split; [reflexivity|]. cbn [ht_root ht_head ht_imeta ht_fek w_store w_ext st_block st_node st_head].
  split; [done|]. split.
  2: { repeat (split; [done|]). rewrite lookup_insert_ne by (destruct (parity_cases (counter_of ht)); lia). by rewrite Hh1. }
  intros st Hsn Hsh1 (h & Hhd & Hhc).
  constructor; unfold counter_of, meta_of; cbn [ht_root ht_head ht_imeta ht_fek ht_dirty]; rewrite ?Hcnt, ?Hef;
    fold (counter_of ht) (meta_of ht); try done.
  - split; [by apply synced_shape|done].
  - eapply (stored_frame sha256 (w_store w1) _ _ 1); [by apply synced_wf; apply Hsh|intros i x _; by rewrite Hsn|exact Hst].
  - rewrite parity_succ, Hsh1. by rewrite lookup_insert_eq.
  - rewrite parity_succ. replace (1 - (1 - parity (counter_of ht))) with (parity (counter_of ht)) by lia. eauto.
  - rewrite Hcnt, Hef in Hval. exact Hval.
Qed.

Lemma sync_commits m ht w :
  working (w_store w) m ht -> ht_dirty ht = true -> w_ext w = [] ->
  exists ht' w', sync (Some ht) w = (Return (Some ht', TEE_SUCCESS, Some (hash_of (ht_root ht'))), w') /\
    committed (w_store w') m ht' /\ ht_imeta ht' = ht_imeta ht /\
    counter_of ht' = counter_of ht + 1 /\ st_block (w_store w') = st_block (w_store w) /\
    ht_root ht' = synced (Some (meta_of ht)) (ht_root ht) /\ ht_fek ht' = ht_fek ht /\
    hd_enc_fek (ht_head ht') = hd_enc_fek (ht_head ht).
Proof.
  intros [Hch (h & Hhd & Hhc)] Hdirty He. destruct (sync_commits_gen m ht w Hch Hdirty He) as
    (ht' & w' & Hs & _ & Hcm & Hr & Him & Hf & Hef & Hc & Hb & Hh).
  exists ht', w'. split; [done|]. split; [|done]. apply Hcm; [done|done|]. rewrite Hh. exists h. split; [done|lia].
Qed.

(** ** Writes keep a tree [working]

    While node [x] is being added and marked, the condition is suspended for it
    and its ancestors. *)
Fixpoint pending_but (x : Z) (st : storage) (meta : option Z) (v : Z) (t : htree_node) : Prop :=
  match t with
  | Null => True
  | Node id d u ni c0 c1 =>
      (u = true -> d = true) /\
      (~ below id x -> needs t = false ->
         st_node st !! (id - 1, v) = Some ni /\ ni_hash ni = sha256 (node_hash_input ni c0 c1 meta)) /\
      pending_but x st None (child_vers (ni_flags ni) false) c0 /\
      pending_but x st None (child_vers (ni_flags ni) true) c1
  end.

Lemma pending_but_intro x st meta v t : pending st meta v t -> pending_but x st meta v t.
Proof.
  revert meta v. induction t as [|id d u ni c0 IH0 c1 IH1]; intros meta v; cbn [HtreeSync.pending pending_but]; [done|].
  intros (Hu & Hs & H0 & H1). auto.
Qed.

Lemma pending_but_elim x st t : forall p meta v,
  tree_wf p t -> ~ below p x -> pending_but x st meta v t -> pending st meta v t.
Proof.
  induction t as [|id d u ni c0 IH0 c1 IH1]; intros p meta v Hw Hx; cbn [HtreeSync.pending pending_but]; [done|].
  destruct Hw as (-> & Hw0 & Hw1). intros (Hu & Hs & H0 & H1). split; [done|]. split; [auto|]. split.
  - apply (IH0 (2 * p)); [done| |done]. intros Hb. apply Hx. apply (below_child p false). simpl. by rewrite Z.add_0_r.
  - apply (IH1 (2 * p + 1)); [done| |done]. intros Hb. apply Hx. by apply (below_child p true).
Qed.

(** The conditions of the two sides of a node, by side. *)
Lemma pending_but_side x st meta v p d u ni c0 c1 b c :
  pending_but x st meta v (Node p d u ni c0 c1) -> below p x ->
  pending_but x st None (child_vers (ni_flags ni) b) c ->
  pending_but x st meta v (set_child b c (Node p d u ni c0 c1)).
Proof. intros (Hu & Hs & H0 & H1) Hb Hc. by destruct b; cbn [set_child pending_but]. Qed.

Lemma pending_but_child x st meta v p d u ni c0 c1 b :
  pending_but x st meta v (Node p d u ni c0 c1) ->
  pending_but x st None (child_vers (ni_flags ni) b) (child_of (Node p d u ni c0 c1) b).
Proof. intros (Hu & Hs & H0 & H1). by destruct b. Qed.

Lemma pending_but_add x st n : forall t meta v,
  1 <= shr x n -> tree_wf (shr x n) t -> t ≠ Null -> pending_but x st meta v t ->
  pending_but x st meta v (update_down n x (set_child (Z.testbit x 0) (new_node x)) t).
Proof.
  induction n as [|n IH]; intros t meta v Hp Hw Hn Hpb.
  - destruct t as [|id d u ni c0 c1]; [done|]. destruct Hw as (-> & _). rewrite shr_0 in *. cbn [update_down].
    apply pending_but_side; [done|apply below_self|]. cbn [pending_but new_node]. split; [done|]. split; [|done].
    intros Hb. by destruct Hb; apply below_self.
  - rewrite update_down_step by done. cbv zeta. destruct t as [|id d u ni c0 c1]; [done|].
    pose proof Hw as (-> & _). destruct (child_shr x n _ Hp Hw) as [Hp' Hwc].
    assert (Hb : below (shr x (S n)) x) by (by exists (S n)).
    destruct (is_null _) eqn:Hnull.
    + apply pending_but_side; [done|done|]. cbn [pending_but new_node]. split; [done|]. split; [|done].
      intros Hbx. by destruct Hbx; apply below_self.
    + apply pending_but_side; [done|done|]. apply IH; [done|done| |by eapply pending_but_child].
      intros Hc. by rewrite Hc in Hnull.
Qed.

Lemma needs_mark ni n i : forall t,
  1 <= shr i n -> tree_wf (shr i n) t -> is_Some (view t !! i) ->
  needs (update_down n i (mark_updated ni) t) = true.
Proof.
  induction n as [|n IH]; intros t Hp Hw Hin.
  - destruct t as [|id d u n0 c0 c1]; [by destruct Hin|]. done.
  - destruct t as [|id d u n0 c0 c1]; [by destruct Hin|]. pose proof Hw as (-> & _).
    rewrite (view_child_lookup _ _ _ _ _ _ _ n) in Hin by done. rewrite update_down_step by done. cbv zeta.
    destruct (child_shr i n _ Hp Hw) as [Hp' Hwc].
    specialize (IH (child_of (Node (shr i (S n)) d u n0 c0 c1) (Z.testbit i (Z.of_nat n))) Hp' Hwc Hin).
    destruct (is_null _) eqn:Hnull; [destruct (child_of _ _); [by destruct Hin|done]|].
    destruct (Z.testbit i (Z.of_nat n)); cbn [set_child needs child_of] in *; rewrite IH; by rewrite ?orb_true_r.
Qed.

Lemma pending_mark x st ni' n : forall t meta v d u ni c0 c1,
  1 <= shr x n -> tree_wf (shr x n) t -> walk_down n x t = Node x d u ni c0 c1 -> is_Some (view t !! x) ->
  (forall b, child_vers (ni_flags ni') b = child_vers (ni_flags ni) b) ->
  pending_but x st meta v t -> pending st meta v (update_down n x (mark_updated ni') t).
Proof.
  induction n as [|n IH]; intros t meta v d u ni c0 c1 Hp Hw Hwd Hin Hcv Hpb.
  - simpl in Hwd. subst t. destruct Hw as (Hx & Hw0 & Hw1). rewrite shr_0 in *. cbn [update_down mark_updated HtreeSync.pending].
    destruct Hpb as (_ & _ & H0 & H1). split; [done|]. split; [done|]. rewrite !Hcv.
    pose proof (below_not_self x false Hp) as Hb0. simpl in Hb0. rewrite Z.add_0_r in Hb0.
    split; [by apply (pending_but_elim x _ _ (2 * x))|].
    apply (pending_but_elim x _ _ (2 * x + 1)); [done|by apply (below_not_self x true)|done].
  - destruct t as [|id d0 u0 n0 e0 e1]; [by destruct Hin|]. pose proof Hw as (-> & Hw0 & Hw1).
    rewrite (view_child_lookup _ _ _ _ _ _ _ n) in Hin by done.
    pose proof (needs_mark ni' n x) as Hnm.
    rewrite walk_down_step in Hwd. rewrite update_down_step by done. cbv zeta in Hwd |- *.
    destruct (child_shr x n _ Hp Hw) as [Hp' Hwc].
    set (b := Z.testbit x (Z.of_nat n)) in *. set (q := shr x (S n)) in *.
    destruct (is_null _) eqn:Hnull; [destruct (child_of _ _); [by destruct Hin|done]|].
    pose proof (pending_but_child x st meta v q d0 u0 n0 e0 e1 b Hpb) as Hcb.
    pose proof (IH _ None (child_vers (ni_flags n0) b) d u ni c0 c1 Hp' Hwc Hwd Hin Hcv Hcb) as Hrec.
    specialize (Hnm _ Hp' Hwc Hin).
    assert (Hside : below (2 * q + b2z b) x).
    { exists n. unfold q, b. by rewrite <- shr_bit. }
    pose proof (below_other q b x Hp Hside) as Hoth.
    destruct Hpb as (Hu & _ & H0 & H1). destruct b; cbn [set_child child_of HtreeSync.pending] in *.
    + split; [done|]. split; [cbn [needs]; rewrite Hnm, orb_true_r; done|]. split; [|done].
      simpl in Hoth. rewrite Z.add_0_r in Hoth. by apply (pending_but_elim x _ _ (2 * q)).
    + split; [done|]. split; [cbn [needs]; rewrite Hnm, orb_true_r; done|]. split; [done|].
      by apply (pending_but_elim x _ _ (2 * q + 1)).
Qed.

(** The tree a write leaves: the node is added when it is the next one, then
    marked. *)
Definition written_tree (m i : Z) (ni : tee_fs_htree_node_image) (t : htree_node) : htree_node :=
  update_node (if i <=? m then t else update_node t i (set_child (Z.odd i) (new_node i))) i (mark_updated ni).

Lemma written_tree_spec m i ni t :
  shape m t -> 1 <= i <= m + 1 ->
  tree_wf 1 (written_tree m i ni t) /\
  forall j, view (written_tree m i ni t) !! j = if decide (j = i) then Some (true, true, ni) else view t !! j.
Proof.
  intros Hsh Hi. unfold written_tree.
  set (t1 := if i <=? m then t else _).
  assert (Hg : grown m (Z.max m i) t t1).
  { unfold t1. destruct (Z.leb_spec i m); [rewrite Z.max_l by lia; by apply grown_refl|].
    assert (i = m + 1) as -> by lia. rewrite Z.max_r by lia. by apply add_next. }
  pose proof Hg as [Hs1 Hv1]. pose proof (shr_depth i ltac:(lia)) as Hd.
  destruct (update_state (depth_of i) i (mark_updated ni) t1) as [Hw Hv];
    [apply mark_updated_state|lia|rewrite Hd; apply Hs1|apply Hs1; lia|].
  rewrite Hd in Hw. split; [done|]. intros j. unfold update_node. rewrite Hv.
  destruct (shape_lookup _ _ i Hs1 ltac:(lia)) as (d & u & n & c0 & c1 & Hvi & ->). cbn [mark_updated state_of].
  case_decide; [done|]. rewrite Hv1. by rewrite decide_False by lia.
Qed.

Lemma start_img_children s b : child_vers (ni_flags (start_img s)) b = child_vers (ni_flags s.2) b.
Proof. destruct s as [[d u] ni]. simpl. destruct u; [done|]. simpl. apply child_vers_toggle_block. Qed.

Lemma pending_written st m i ni t meta v :
  shape m t -> 1 <= i <= m + 1 ->
  (forall b, child_vers (ni_flags ni) b = child_vers (ni_flags (state_at t i).2) b) ->
  pending st meta v t -> pending st meta v (written_tree m i ni t) /\ needs (written_tree m i ni t) = true.
Proof.
  intros Hsh Hi Hcv Hpd. pose proof (shr_depth i ltac:(lia)) as Hd. unfold written_tree.
  set (t1 := if i <=? m then t else _).
  assert (Hg : grown m (Z.max m i) t t1 /\ pending_but i st meta v t1).
  { unfold t1. destruct (Z.leb_spec i m).
    - split; [rewrite Z.max_l by lia; by apply grown_refl|]. by apply pending_but_intro.
    - assert (i = m + 1) as -> by lia. split; [rewrite Z.max_r by lia; by apply add_next|].
      rewrite <- Z.bit0_odd. apply pending_but_add; [lia|rewrite Hd; apply Hsh|by eapply shape_not_null|].
      by apply pending_but_intro. }
  destruct Hg as [[Hs1 Hv1] Hpb].
  destruct (shape_lookup _ _ i Hs1 ltac:(lia)) as (d & u & n & c0 & c1 & Hvi & Hwd).
  assert (Hn : (state_at t i).2 = n).
  { unfold state_at. pose proof (Hv1 i) as Hx. pose proof (eq_trans (eq_sym Hvi) Hx) as Hy.
    case_decide as Hdec; [|by rewrite <- Hy]. injection Hy as -> -> ->.
    destruct (view t !! i) eqn:Hti; [|done]. assert (1 <= i <= m) by (apply Hsh; eauto). lia. }
  split.
  - eapply pending_mark; [lia|rewrite Hd; apply Hs1|exact Hwd|apply Hs1; lia| |exact Hpb].
    intros b. by rewrite Hcv, Hn.
  - apply needs_mark; [lia|rewrite Hd; apply Hs1|apply Hs1; lia].
Qed.

(** What one successful write does to a working tree. *)
Lemma write_working m ht b block w :
  working (w_store w) m ht -> 0 <= b <= m -> b + 1 < UINT_MAX -> w_ext w = [] ->
  let s := state_at (ht_root ht) (b + 1) in
  exists ht' w' ni', write_block (Some ht) b block w = (Return (Some ht', TEE_SUCCESS, Some tt), w') /\
    working (w_store w') (Z.max m (b + 1)) ht' /\ w_ext w' = [] /\
    ht_root ht' = written_tree m (b + 1) ni' (ht_root ht) /\ ni_flags ni' = ni_flags (start_img s) /\
    ht_head ht' = ht_head ht /\ meta_of ht' = meta_of ht /\
    st_head (w_store w') = st_head (w_store w) /\ st_node (w_store w') = st_node (w_store w) /\
    exists c, st_block (w_store w') = <[(b, block_vers (start_img s)) := c]> (st_block (w_store w)).
Proof.
  intros [[Hsh Hb Htr Hfek Him Hc Hd] Hhd] Hb0 Hb1 He s. pose proof Hsh as [Hs0 Hm].
  destruct (write_block_ok rng m ht b block w Hsh ltac:(lia) Hb1 He) as
    (ht' & w' & Hw & Hsh' & Hh & Hf & Hdt & Hlen & Hmx & Hv & Hw'). fold s in Hv, Hw'.
  set (ni' := mk_nimage (ni_hash (start_img s)) (rng (w_rng w)) _ _) in Hv.
  destruct (written_tree_spec m (b + 1) ni' (ht_root ht) Hs0 ltac:(lia)) as [Hwt Hvt].
  assert (Hroot : ht_root ht' = written_tree m (b + 1) ni' (ht_root ht)).
  { apply (view_eq_tree 1); [lia|apply Hsh'|done|]. intros i. rewrite Hv, Hvt.
    case_decide; [done|]. by rewrite decide_False by lia. }
  destruct (pending_written (w_store w') m (b + 1) ni' (ht_root ht) (Some (meta_of ht)) (parity (counter_of ht)))
    as [Hpd Hnd]; [done|lia|intros x; apply start_img_children| |].
  { eapply (pending_frame sha256 (w_store w) _ _ 1); [apply Hs0| |exact Htr]. rewrite Hw'. intros i x _. done. }
  exists ht', w', ni'. split; [done|]. split; [|rewrite Hw'; do 7 (split; [done|]); eexists; reflexivity].
  split; [|unfold counter_of; rewrite Hh, Hw'; done].
  constructor; unfold counter_of, meta_of; rewrite ?Hh, ?Hf, ?Hlen; try done.
  - lia.
  - rewrite Hroot. exact Hpd.
  - destruct Him as [Hi1 Hi2]. split; [by rewrite Hlen|]. destruct Hsh' as [_ Hm']. unfold is_u32, UINT_MAX in *. lia.
  - by rewrite Hdt, Hroot, Hnd.
Qed.

(** Marking the metadata dirty. *)
Lemma set_dirty_working st m ht len :
  is_u64 len -> working st m ht -> working st m (tee_fs_htree_meta_set_dirty (set_meta_length len ht)).
Proof.
  intros Hlen [[[Hsh Hm] Hb Htr Hfek Him Hc Hd] Hhd]. split; [|exact Hhd]. destruct (ht_root ht) as [|id d u ni c0 c1] eqn:Hroot;
    [by destruct (shape_not_null m Null Hsh)|].
  constructor; unfold tee_fs_htree_meta_set_dirty, set_meta_length, counter_of, meta_of;
    cbn [ht_root ht_head ht_imeta ht_fek ht_dirty im_length im_max_node_id];
    rewrite ?Hroot; cbn [set_root_dirty]; try done.
  - split; [|done]. cbn [ht_root ht_imeta]. rewrite ?Hroot. cbn [set_root_dirty]. destruct Hsh as (H1 & H2 & H3). split; [done|]. split; [done|].
    intros i. rewrite <- H3. cbn [view]. by rewrite !lookup_insert_is_Some.
  - destruct Htr as (_ & _ & H0 & H1). done.
  - split; [done|apply Him].
Qed.

(** ** Crashes *)

(** The places of the nodes of a tree stored at version [v]. *)
Fixpoint node_slots (v : Z) (t : htree_node) : list (Z * Z) :=
  match t with
  | Null => []
  | Node id _ _ ni c0 c1 =>
      (id - 1, v) :: node_slots (child_vers (ni_flags ni) false) c0 ++ node_slots (child_vers (ni_flags ni) true) c1
  end.

Lemma stored_slots st st' meta v t :
  stored st meta v t -> (forall k, k ∈ node_slots v t -> st_node st' !! k = st_node st !! k) -> stored st' meta v t.
Proof.
  revert meta v. induction t as [|id d u ni c0 IH0 c1 IH1]; intros meta v; cbn [HtreeSync.stored node_slots]; [done|].
  intros (-> & -> & Hs & Hh & H0 & H1) Hk. split; [done|]. split; [done|].
  split; [rewrite Hk by (by left); done|]. split; [done|].
  split; [apply IH0|apply IH1]; try done; intros k Hin; apply Hk; right; [by apply in_left|by apply in_right].
Qed.

(** The version of a node's place is named by the flags of its parent. *)
Lemma node_slots_version t : forall p v idx x,
  1 <= p -> tree_wf p t -> (idx, x) ∈ node_slots v t ->
  (exists s, view t !! (idx + 1) = Some s) /\
  (idx + 1 = p -> x = v) /\
  (idx + 1 ≠ p -> exists s, view t !! shr (idx + 1) 1 = Some s /\ x = child_vers (ni_flags s.2) (Z.odd (idx + 1))).
Proof.
  induction t as [|id d u ni c0 IH0 c1 IH1]; intros p v idx x Hp Hw Hin; [by apply not_elem_of_nil in Hin|].
  pose proof Hw as (-> & Hw0 & Hw1). cbn [node_slots] in Hin.
  assert (Hside : forall b, (idx, x) ∈ node_slots (child_vers (ni_flags ni) b) (if b : bool then c1 else c0) ->
    (exists s, view (Node p d u ni c0 c1) !! (idx + 1) = Some s) /\ idx + 1 ≠ p /\
    exists s, view (Node p d u ni c0 c1) !! shr (idx + 1) 1 = Some s /\ x = child_vers (ni_flags s.2) (Z.odd (idx + 1))).
  { intros b Hb.
    assert (Hwb : tree_wf (2 * p + b2z b) (if b then c1 else c0)) by (destruct b; simpl; rewrite ?Z.add_0_r; done).
    assert (Hr : (exists s, view (if b then c1 else c0) !! (idx + 1) = Some s) /\
      (idx + 1 = 2 * p + b2z b -> x = child_vers (ni_flags ni) b) /\
      (idx + 1 ≠ 2 * p + b2z b -> exists s, view (if b then c1 else c0) !! shr (idx + 1) 1 = Some s /\
         x = child_vers (ni_flags s.2) (Z.odd (idx + 1)))).
    { pose proof (b2z_range b). destruct b; [apply IH1|apply IH0]; try done; simpl in *; lia. }
    destruct Hr as ([s Hs] & Hr1 & Hr2).
    split; [exists s; by apply (view_child_some p d u ni c0 c1 b)|].
    split; [by eapply (view_not_root p (if b then c1 else c0) b (idx + 1) s)|].
    destruct (decide (idx + 1 = 2 * p + b2z b)) as [He|Hne].
    - exists (d, u, ni). rewrite He, shr1_child, view_root, odd_child by done. auto.
    - destruct (Hr2 Hne) as (s' & Hs' & ->). exists s'. split; [by apply (view_child_some p d u ni c0 c1 b)|done]. }
  apply elem_of_cons in Hin as [[= -> ->]|Hin].
  - replace (p - 1 + 1) with p by lia. rewrite view_root. split; [eauto|]. split; done.
  - apply elem_of_app in Hin as [Hin|Hin]; [destruct (Hside false Hin) as (H1 & H2 & H3)|destruct (Hside true Hin) as (H1 & H2 & H3)];
      (split; [done|]; split; [done|auto]).
Qed.

Lemma sync_parent_result cnt meta pf t w t' p' w' :
  tree_wf (node_id_of t) t ->
  Htree.sync_nodes sha256 cnt meta (Some pf) t w = (Ok (t', p'), w') ->
  p' = None \/ p' = Some (Z.lxor pf (HTREE_NODE_COMMITTED_CHILD (Z.land (node_id_of t) 1))).
Proof.
  destruct t as [|id d u ni c0 c1]; cbn [Htree.sync_nodes]; [intros _ [= _ <- _]; by left|]. intros _. unfold bind.
  destruct (Htree.sync_nodes _ _ _ _ c0 w) as [[[c0' p0]|c|] w0]; [|done|done].
  destruct (Htree.sync_nodes _ _ _ _ c1 w0) as [[[c1' p1]|c|] w1]; [|done|done]. cbv zeta.
  destruct (check _ w1) as [[[]|c|] w2]; [|done|done]. destruct (negb _); [intros [= _ <- _]; by left|].
  destruct (calc_node_hash _ _ _ _ _ w2) as [[h|c|] w3]; [|done|done].
  destruct (rpc_write_node _ _ _ w3) as [[[]|c|] w4]; [|done|done].
  unfold ret. intros [= _ <- _]. right. done.
Qed.

(** A sync never writes the version a node has according to its parent. *)
Lemma sync_keeps_version cnt meta idx x t : forall p parent,
  1 <= p -> tree_wf p t ->
  (idx + 1 = p -> x ≠ new_vers cnt parent p) ->
  (idx + 1 ≠ p -> forall s, view t !! shr (idx + 1) 1 = Some s -> x = child_vers (ni_flags s.2) (Z.odd (idx + 1))) ->
  keeps (SNode idx x) (Htree.sync_nodes sha256 cnt meta parent t).
Proof.
  induction t as [|id d u ni c0 IH0 c1 IH1]; intros p parent Hp Hw Hx1 Hx2; [apply keeps_ret|].
  pose proof Hw as (-> & Hw0 & Hw1). cbn [Htree.sync_nodes].
  assert (Hside : forall b pf, child_vers pf b = child_vers (ni_flags ni) b ->
    keeps (SNode idx x) (Htree.sync_nodes sha256 cnt meta (Some pf) (if b : bool then c1 else c0))).
  { intros b pf Hpf.
    assert (Hwb : tree_wf (2 * p + b2z b) (if b then c1 else c0)) by (destruct b; simpl; rewrite ?Z.add_0_r; done).
    assert (H1 : idx + 1 = 2 * p + b2z b -> x ≠ new_vers cnt (Some pf) (2 * p + b2z b)).
    { intros He. rewrite (Hx2 ltac:(pose proof (b2z_range b); lia) (d, u, ni)).
      - rewrite He, odd_child. cbn [snd]. unfold new_vers. rewrite land_child. fold (toggle b pf).
        fold (child_vers (toggle b pf) b). rewrite child_vers_toggle, eqb_reflx, Hpf. lia.
      - rewrite He, shr1_child by done. apply view_root. }
    assert (H2 : idx + 1 ≠ 2 * p + b2z b -> forall s, view (if b then c1 else c0) !! shr (idx + 1) 1 = Some s ->
      x = child_vers (ni_flags s.2) (Z.odd (idx + 1))).
    { intros Hne s Hs. assert (Hs' : view (Node p d u ni c0 c1) !! shr (idx + 1) 1 = Some s)
        by (by apply (view_child_some p d u ni c0 c1 b)).
      apply Hx2; [|done]. intros He.
      destruct (view_ancestor _ _ _ _ Hwb Hs) as [j Hj]. rewrite He, shr_shr in Hj.
      assert (below (2 * p + b2z b) p) as Hbs by (by exists (1 + j)%nat). by apply (below_not_self p b) in Hbs. }
    pose proof (b2z_range b). destruct b; [eapply (IH1 (2 * p + 1))|eapply (IH0 (2 * p))]; try done; simpl in *;
      try lia; rewrite ?Z.add_0_r in *; done. }
  apply keeps_bind; [apply (Hside false); done|]. intros [c0' p0] w w' Hr0.
  assert (Hf1 : child_vers (default (ni_flags ni) p0) true = child_vers (ni_flags ni) true).
  { assert (Hww : tree_wf (node_id_of c0) c0) by (destruct c0; [done|]; destruct Hw0 as [-> ?]; done).
    assert (Hl : Z.land (node_id_of c0) 1 = b2z false).
    { destruct c0 as [|id0 ? ? ? ? ?]; [done|]. destruct Hw0 as (-> & _). simpl node_id_of.
      rewrite <- (land_child p false). f_equal. simpl. lia. }
    apply sync_parent_result in Hr0 as [-> | ->]; [done| |done]. rewrite Hl.
    change (child_vers (toggle false (ni_flags ni)) true = child_vers (ni_flags ni) true).
    by rewrite child_vers_toggle. }
  apply keeps_bind'; [apply (Hside true); done|]. intros [c1' p1].
  cbv zeta. apply keeps_bind'; [auto with keeps|intros _]. destruct (negb _); [auto with keeps|].
  apply keeps_bind'; [apply keeps_calc_hash|intros h]. apply keeps_bind'; [|auto with keeps].
  apply keeps_write_node. intros [= Hi Hv]. apply Hx1; [lia|]. rewrite Hv. unfold new_vers. by destruct parent.
Qed.

(** The places that make up a committed file. *)
Definition base_slot (ht : tee_fs_htree) (s : slot) : Prop :=
  match s with
  | SHead _ => True
  | SNode idx x => (idx, x) ∈ node_slots (parity (counter_of ht)) (ht_root ht)
  | SBlock idx x => exists s, view (ht_root ht) !! (idx + 1) = Some s /\ x = block_vers s.2
  end.

Definition intact (ht : tee_fs_htree) (st st' : storage) : Prop :=
  forall s, base_slot ht s -> slot_same s st st'.

Lemma committed_intact st st' m ht : committed st m ht -> intact ht st st' -> committed st' m ht.
Proof.
  intros [Hsh Hb Htr Hhd Hold Hval Hlen Hfek Him Hcl] Hin. constructor; try done.
  - eapply stored_slots; [exact Htr|]. intros [idx x] Hk. apply (Hin (SNode idx x) Hk).
  - rewrite <- Hhd. apply (Hin (SHead _) I).
  - destruct Hold as (h & Hh & Hlt). exists h. split; [|done]. rewrite <- Hh. apply (Hin (SHead _) I).
Qed.

(** The current tree names, for the nodes of the committed one, the same
    versions of their children, and the other version of an updated block. *)
Definition follows (t0 t : htree_node) : Prop :=
  forall i s0, view t0 !! i = Some s0 -> exists s, view t !! i = Some s /\
    (forall b, child_vers (ni_flags s.2) b = child_vers (ni_flags s0.2) b) /\
    block_vers s.2 = if s.1.2 : bool then 1 - block_vers s0.2 else block_vers s0.2.

Lemma follows_start t m st meta v : stored st meta v t -> tree_wf 1 t -> shape m t -> follows t t.
Proof.
  intros Hs Hw Hsh i [[d u] n] Hv. exists (d, u, n). split; [done|]. split; [done|].
  by destruct (stored_lookup sha256 st t 1 meta v i d u n ltac:(lia) Hw Hs Hv) as (_ & -> & _).
Qed.

Lemma start_img_block (s : nstate) :
  block_vers (start_img s) = if s.1.2 : bool then block_vers s.2 else 1 - block_vers s.2.
Proof. destruct s as [[d []] ni]; [done|]. simpl. apply block_vers_toggle_block. Qed.

Lemma follows_written t0 t m i ni :
  shape m t -> 1 <= i <= m + 1 -> ni_flags ni = ni_flags (start_img (state_at t i)) ->
  follows t0 t -> follows t0 (written_tree m i ni t).
Proof.
  intros Hsh Hi Hfl Hf j s0 Hs0. destruct (Hf j s0 Hs0) as (s & Hs & Hc & Hb).
  destruct (written_tree_spec m i ni t Hsh Hi) as [_ Hv]. rewrite Hv.
  destruct (decide (j = i)) as [->|Hne]; [|by exists s]. exists (true, true, ni). split; [done|].
  assert (Hst : state_at t i = s) by (unfold state_at; by rewrite Hs). rewrite Hst in Hfl.
  cbn [fst snd]. split.
  - intros b. rewrite Hfl, start_img_children. apply Hc.
  - transitivity (block_vers (start_img s)); [unfold block_vers; by rewrite Hfl|].
    rewrite start_img_block, Hb. destruct s as [[d []] n]; simpl; lia.
Qed.

(** A session: writes without gaps and metadata changes since the last commit. *)
Inductive session (st0 : storage) (m0 : Z) (ht0 : tee_fs_htree) : storage -> Z -> tee_fs_htree -> Prop :=
| ses_start : session st0 m0 ht0 st0 m0 ht0
| ses_write st m ht b block r ht' w' :
    session st0 m0 ht0 st m ht -> 0 <= b <= m -> b + 1 < UINT_MAX ->
    write_block (Some ht) b block (mk_world st [] r) = (Return (Some ht', TEE_SUCCESS, Some tt), w') ->
    session st0 m0 ht0 (w_store w') (Z.max m (b + 1)) ht'
| ses_meta st m ht len :
    session st0 m0 ht0 st m ht -> is_u64 len ->
    session st0 m0 ht0 st m (tee_fs_htree_meta_set_dirty (set_meta_length len ht)).

(** The block a write goes to is not one of the committed file. *)
Lemma write_slot_not_base ht0 t b :
  follows (ht_root ht0) t ->
  ~ base_slot ht0 (SBlock b (block_vers (start_img (state_at t (b + 1))))).
Proof.
  intros Hf (s0 & Hs0 & Hv). destruct (Hf (b + 1) s0 Hs0) as (s & Hs & _ & Hb).
  unfold state_at in Hv. rewrite Hs in Hv. simpl in Hv. rewrite start_img_block, Hb in Hv.
  destruct s as [[d []] n]; simpl in Hv; lia.
Qed.

Lemma session_inv st0 m0 ht0 st m ht :
  committed st0 m0 ht0 -> 0 <= counter_of ht0 < UINT32_MAX ->
  session st0 m0 ht0 st m ht ->
  working st m ht /\ follows (ht_root ht0) (ht_root ht) /\ counter_of ht = counter_of ht0 /\ intact ht0 st0 st.
Proof.
  intros Hc Hcnt Hs. induction Hs as [|st m ht b block r ht' w' Hs IH Hb Hb1 Hw|st m ht len Hs IH Hlen].
  - split; [by apply committed_working|]. split; [|split; [done|intros s _; reflexivity]].
    destruct Hc as [[Hsh _] _ Htr]. eapply follows_start; [exact Htr|apply Hsh|exact Hsh].
  - destruct IH as (Hwk & Hf & Hct & Hin).
    destruct (write_working m ht b block (mk_world st [] r) Hwk Hb Hb1 eq_refl) as
      (ht2 & w2 & ni' & Hw2 & Hwk2 & _ & Hroot & Hfl & Hhd & _ & Hsh2 & Hsn2 & c & Hsb2).
    rewrite Hw in Hw2. injection Hw2 as <- <-. split; [done|].
    assert (Hsh : shape m (ht_root ht)) by apply Hwk. split.
    { rewrite Hroot. apply follows_written; [done|lia|done|done]. }
    split; [unfold counter_of in *; congruence|].
    intros s Hbs. etrans; [by apply Hin|].
    destruct s as [v|i v|i v]; simpl; [by rewrite Hsh2|by rewrite Hsn2|]. rewrite Hsb2.
    rewrite lookup_insert_ne; [done|]. intros [= <- <-]. by eapply write_slot_not_base.
  - destruct IH as (Hwk & Hf & Hct & Hin). split; [by apply set_dirty_working|]. split; [|done].
    intros i s0 Hs0. destruct (Hf i s0 Hs0) as ([[d u] n] & Hx & Hrest).
    unfold tee_fs_htree_meta_set_dirty, set_meta_length. cbn [ht_root]. destruct (ht_root ht) as [|id d' u' ni c0 c1]; [done|].
    cbn [set_root_dirty]. simpl in Hx |- *. destruct (decide (i = id)) as [->|Hne].
    + rewrite lookup_insert_eq in Hx |- *. injection Hx as -> -> ->. by exists (true, u, n).
    + rewrite lookup_insert_ne in Hx |- * by done. by exists (d, u, n).
Qed.

(** Up to the header write, a sync keeps the committed file in place. *)
Lemma sync_nodes_intact ht0 ht m s :
  ht_shape m ht -> tree_wf 1 (ht_root ht0) -> follows (ht_root ht0) (ht_root ht) ->
  counter_of ht = counter_of ht0 -> base_slot ht0 s ->
  keeps s (sync_to_storage_nodes sha256 gcm_enc rng ht).
Proof.
  intros [Hsh _] Hw0 Hf Hct Hbs. unfold sync_to_storage_nodes. pose proof (proj1 (proj2 Hsh)) as Hw. apply keeps_bind'.
  - destruct s as [v|idx x|idx x]; [by eapply keeps_sync_outside| |by eapply keeps_sync_outside].
    destruct (node_slots_version (ht_root ht0) 1 _ idx x ltac:(lia) Hw0 Hbs) as (_ & Hv1 & Hv2).
    eapply (sync_keeps_version _ _ _ _ _ 1); [lia|done| |].
    + intros Hi. rewrite (Hv1 Hi). unfold new_vers. fold (parity (hd_counter (ht_head ht))). fold (counter_of ht).
      rewrite Hct. by destruct (parity_cases (counter_of ht0)) as [-> | ->].
    + intros Hi s Hs. destruct (Hv2 Hi) as (s0 & Hs0 & ->). destruct (Hf _ _ Hs0) as (s' & Hs' & Hc & _).
      rewrite Hs in Hs'. injection Hs' as <-. by rewrite Hc.
  - intros [root p']. cbv zeta. apply keeps_bind'; [|auto with keeps]. unfold update_root. cbv zeta.
    apply keeps_bind'.
    { unfold crypto_rng_read. apply keeps_bind'; [auto with keeps|intros _ x; simpl; reflexivity]. }
    intros iv. apply keeps_bind'; [auto with keeps|intros _]. apply keeps_bind'; [|intros []; auto with keeps].
    unfold authenc_encrypt_final. apply keeps_bind'; [auto with keeps|intros _].
    destruct (gcm_enc _ _ _ _). destruct (_ && _); auto with keeps.
Qed.

Definition fresh_world (st : storage) (r : nat) : world := mk_world st [] r.

(** ** Properties *)

(** C31. Reopening: when storage holds a tree as its committed version, opening
    the file rebuilds exactly that tree (every node image, the header, the key and
    the metadata), with all hashes and tags verified. *)
Theorem htree_reopen m ht w :
  committed (w_store w) m ht -> w_ext w = [] -> open_file false None w = (Return (Some ht, TEE_SUCCESS), w).
Proof. apply open_committed. Qed.

(** C7. Durability: after any session of gap-free writes and metadata changes
    on a committed file, a sync whose calls succeed commits: opening the file
    afterwards gives the synced tree, its blocks read as they did before the
    sync, and the header counter has advanced by one. *)
Theorem htree_sync_durable st0 m0 ht0 st m ht r r' :
  committed st0 m0 ht0 -> 0 <= counter_of ht0 < UINT32_MAX ->
  session st0 m0 ht0 st m ht -> ht_dirty ht = true ->
  exists ht' w', sync (Some ht) (fresh_world st r) =
      (Return (Some ht', TEE_SUCCESS, Some (hash_of (ht_root ht'))), w') /\
    counter_of ht' = counter_of ht0 + 1 /\ ht_imeta ht' = ht_imeta ht /\
    open_file false None (fresh_world (w_store w') r') = (Return (Some ht', TEE_SUCCESS), fresh_world (w_store w') r') /\
    st_block (w_store w') = st_block st.
Proof.
  intros Hc Hcnt Hs Hd. destruct (session_inv _ _ _ _ _ _ Hc Hcnt Hs) as (Hwk & _ & Hct & _).
  destruct (sync_commits m ht (fresh_world st r) Hwk Hd eq_refl) as
    (ht' & w' & Hsy & Hcm & Him & Hc' & Hbl & _).
  exists ht', w'. split; [done|]. split; [lia|]. split; [done|]. split; [|done].
  apply (open_committed m); done.
Qed.

(** C1. Crash safety: after any session on a committed file, interrupt the next
    operation anywhere, by any failure of any call out. If a write of a block
    (whatever its outcome) or a sync that does not succeed was under way, the
    storage it leaves still holds the old file: opening it gives the tree that was
    committed, and every block of it reads as it did. *)
Theorem htree_crash_safe st0 m0 ht0 st m ht w r :
  committed st0 m0 ht0 -> 0 <= counter_of ht0 < UINT32_MAX ->
  session st0 m0 ht0 st m ht -> w_store w = st ->
  let old_file st' :=
    open_file false None (fresh_world st' r) = (Return (Some ht0, TEE_SUCCESS), fresh_world st' r) /\
    forall b, 0 <= b < m0 -> code_and_value (read_block (Some ht0) b (fresh_world st' r)) =
                        code_and_value (read_block (Some ht0) b (fresh_world st0 r)) in
  (forall b block, 0 <= b -> b + 1 < UINT_MAX -> old_file (w_store (snd (write_block (Some ht) b block w)))) /\
  ((forall ht' v, fst (sync (Some ht) w) ≠ Return (Some ht', TEE_SUCCESS, v)) ->
   old_file (w_store (snd (sync (Some ht) w)))).
Proof.
  intros Hc Hcnt Hs Hst old_file.
  destruct (session_inv _ _ _ _ _ _ Hc Hcnt Hs) as (Hwk & Hf & Hct & Hin).
  assert (Hold : forall st', intact ht0 st0 st' -> old_file st').
  { intros st' Hi. pose proof (committed_intact _ _ _ _ Hc Hi) as Hc'. split; [by apply (open_committed m0)|].
    intros b Hb. pose proof Hc as [Hsh Hbd]. rewrite !(read_block_ok block_size m0) by (done || lia).
    unfold code_and_value. cbn [fst w_store fresh_world].
    destruct (view (ht_root ht0) !! (b + 1)) as [[[d u] n]|] eqn:Hv; [|done].
    assert (Hsame : slot_same (SBlock b (block_vers n)) st0 st') by (apply Hi; by exists (d, u, n)).
    simpl in Hsame. rewrite Hsame. done. }
  split.
  - intros b block Hb0 Hb1. apply Hold. intros s Hbs. etrans; [by apply Hin|]. rewrite <- Hst.
    eapply keeps_write_block; [apply Hwk|done|done|]. intros ->. by eapply write_slot_not_base.
  - intros Hns. apply Hold. intros s Hbs. etrans; [by apply Hin|]. rewrite <- Hst.
    revert Hns. unfold tee_fs_htree_sync_to_storage. destruct (ht_dirty ht) eqn:Hd; cbn [negb].
    2: { intros Hns. exfalso. by apply (Hns ht None). }
    pose proof (keeps_ext s w) as Hke. destruct (ext w) as [[[]|c|] w1]; cbn [snd] in *; [|done|done].
    intros Hns. etrans; [exact Hke|]. clear Hke. revert Hns. unfold close_on_error. unfold bind at 1 3.
    assert (Hk : keeps s (sync_to_storage_nodes sha256 gcm_enc rng ht)).
    { eapply (sync_nodes_intact ht0 ht m); [apply Hwk|apply Hc|done|done|done]. }
    specialize (Hk w1). destruct (sync_to_storage_nodes sha256 gcm_enc rng ht w1) as [[ht1|c|] w2]; cbn [snd] in *; [|done|done].
    unfold rpc_write_head, bind. pose proof (keeps_ext s w2) as Hk2. destruct (ext w2) as [[[]|c|] w3]; cbn [snd] in *;
      [|intros _; by etrans|intros _; by etrans].
    pose proof (keeps_ext s w3) as Hk3. destruct (ext w3) as [[[]|c|] w4]; cbn [snd] in *;
      [|intros _; etrans; [exact Hk|]; by etrans|intros _; etrans; [exact Hk|]; by etrans].
    intros Hns. exfalso. eapply Hns. reflexivity.
Qed.
End commit.
