(* ===== verification/HtreeCreate.v ===== *)
(** * Hash tree: creating a file, concrete files and two flaws

    A created file is committed and can be reopened. A toy instance of the
    cryptography makes files concrete: on it the theorems of [HtreeSync] and
    [HtreeCommit] are applied, and a truncation is run whose result cannot be
    opened again. *)

From stdpp Require Import base gmap list.
From Stdlib Require Import ZArith Lia.
From S2P Require Import Prelude Htree HtreeShape HtreeSync HtreeCommit.

Local Open Scope Z_scope.

Section create.
Context (sha256 : list Z -> list Z).
Context {gcm_enc gcm_dec fek_encrypt fek_decrypt}
  {Hcrypto : HtreeCrypto gcm_enc gcm_dec fek_encrypt fek_decrypt}.
Context (rng : nat -> list Z).
Notation open_file := (tee_fs_htree_open sha256 gcm_enc gcm_dec fek_encrypt fek_decrypt rng).

Definition new_head (enc_fek : list Z) : tee_fs_htree_image :=
  mk_image (replicate 16 0) (replicate 16 0) enc_fek (replicate 16 0) 0.

(** The tree [tee_fs_htree_open] builds before its first sync. *)
Definition initial_tree (fek : list Z) : tee_fs_htree :=
  mk_htree (Node 1 true false (set_hash (sha256 (node_hash_input zero_nimage Null Null (Some (im_length empty_imeta)))) zero_nimage) Null Null)
    (new_head (fek_encrypt fek)) fek empty_imeta true.

Lemma initial_changing st fek :
  changing sha256 (fek_decrypt := fek_decrypt) st 1 (initial_tree fek).
Proof.
  constructor; cbn; try done.
  - split; [|done]. split; [lia|]. split; [done|]. intros i. simpl. rewrite (right_id_L ∅ (∪)), insert_empty. split.
    + intros [x [-> _]%lookup_singleton_Some]. lia.
    + intros Hi. assert (i = 1) as -> by lia. rewrite lookup_singleton_eq. eauto.
  - symmetry. apply fek_roundtrip.
Qed.

Lemma open_create_ok w :
  w_ext w = [] ->
  exists ht w', open_file true None w = (Return (Some ht, TEE_SUCCESS), w') /\
    committed sha256 (gcm_dec := gcm_dec) (fek_decrypt := fek_decrypt) (w_store w') 1 ht /\
    counter_of ht = 1 /\ ht_imeta ht = empty_imeta /\ st_block (w_store w') = st_block (w_store w).
Proof.
  intros He. unfold tee_fs_htree_open, init_root_node, crypto_rng_read. htrun. rewrite calc_hash_nil by done.
  cbv beta iota. fold (new_head (fek_encrypt (rng (w_rng w)))). fold (initial_tree (rng (w_rng w))).
  set (w1 := mk_world _ _ _).
  destruct (sync_commits_gen sha256 rng 1 (initial_tree (rng (w_rng w))) w1 (initial_changing _ _) eq_refl He)
    as (ht & w2 & Hs & He2 & Hcm & _ & Him & _ & _ & Hc & Hb & _).
  rewrite Hs. cbv beta iota. rewrite Z.eqb_refl. cbn [negb]. unfold rpc_write_head, put_store. htrun.
  eexists _, _. split; [reflexivity|]. cbn [w_store st_block]. split; [|done].
  apply Hcm; [done| |].
  - cbn [st_head]. change (parity (counter_of (initial_tree _))) with 0. by rewrite lookup_insert_ne.
  - eexists. cbn [st_head]. change (parity (counter_of (initial_tree _))) with 0. by rewrite lookup_insert_eq.
Qed.

(** Creation: when the calls out succeed, creating a file succeeds on any
    storage, whatever it held; the file has no data, its counter is 1, and opening
    it gives back the same tree. *)
Theorem htree_create w r :
  w_ext w = [] ->
  exists ht w', open_file true None w = (Return (Some ht, TEE_SUCCESS), w') /\
    tee_fs_htree_get_meta ht = 0 /\ hd_counter (ht_head ht) = 1 /\
    open_file false None (fresh_world (w_store w') r) = (Return (Some ht, TEE_SUCCESS), fresh_world (w_store w') r) /\
    st_block (w_store w') = st_block (w_store w).
Proof.
  intros He. destruct (open_create_ok w He) as (ht & w' & Ho & Hcm & Hc & Him & Hb).
  exists ht, w'. split; [done|]. split; [unfold tee_fs_htree_get_meta; by rewrite Him|]. split; [done|].
  split; [|done]. by apply (open_committed sha256 rng 1).
Qed.
End create.

(** ** A concrete instance *)

(** The digest is a polynomial of the input, in 32 bytes; the cipher is the
    identity, and a tag sums up everything it covers. *)
Definition demo_sha (l : list Z) : list Z := le_bytes 32 (foldr (fun b acc => (b + 1 + 257 * acc) mod 2 ^ 256) 0 l).
Definition demo_tag (key iv aad plain : list Z) : list Z := replicate 16 (foldr Z.add 0 (key ++ iv ++ aad ++ plain)).
Definition demo_enc (key iv aad plain : list Z) : list Z * list Z := (plain, demo_tag key iv aad plain).
Definition demo_dec (key iv aad crypt tag : list Z) : option (list Z) :=
  if bool_decide (tag = demo_tag key iv aad crypt) then Some crypt else None.
Definition demo_wrap (fek : list Z) : list Z := fek.
Definition demo_rng (n : nat) : list Z := replicate 16 (Z.of_nat n).

#[global] Instance demo_crypto : HtreeCrypto demo_enc demo_dec demo_wrap demo_wrap.
Proof. split; intros; try done. unfold demo_dec, demo_enc. simpl. by rewrite bool_decide_true. Qed.

Notation demo_open := (tee_fs_htree_open demo_sha demo_enc demo_dec demo_wrap demo_wrap demo_rng).
Notation demo_write := (tee_fs_htree_write_block demo_enc demo_rng).
Notation demo_read := (tee_fs_htree_read_block demo_dec 2).
Notation demo_sync := (tee_fs_htree_sync_to_storage demo_sha demo_enc demo_rng).

Definition empty_storage : storage := mk_storage ∅ ∅ ∅.

Definition demo_created : outcome (option tee_fs_htree * Z) * world :=
  demo_open true None (fresh_world empty_storage 0).
Definition demo_ht : tee_fs_htree :=
  match fst demo_created with Return (Some ht, _) => ht | _ => initial_tree demo_sha (fek_encrypt := demo_wrap) [] end.
Definition demo_w : world := snd demo_created.

(** The tree and the world an operation leaves. *)
Definition tree_left {A} (r : outcome (option tee_fs_htree * Z * option A) * world) : tee_fs_htree :=
  match fst r with Return (Some ht, _, _) => ht | _ => demo_ht end.

Lemma demo_committed :
  committed demo_sha (gcm_dec := demo_dec) (fek_decrypt := demo_wrap) (w_store demo_w) 1 demo_ht /\ w_ext demo_w = [].
Proof.
  split; [|vm_compute; reflexivity].
  destruct (open_create_ok demo_sha demo_rng (fresh_world empty_storage 0) eq_refl) as (ht & w' & Ho & Hc & _).
  assert (Hd : demo_created = (Return (Some ht, TEE_SUCCESS), w')) by exact Ho.
  unfold demo_ht, demo_w. by rewrite Hd.
Qed.

Lemma htree_create_witness :
  exists ht w', demo_open true None (fresh_world empty_storage 0) = (Return (Some ht, TEE_SUCCESS), w') /\
    demo_open false None (fresh_world (w_store w') 7) = (Return (Some ht, TEE_SUCCESS), fresh_world (w_store w') 7).
Proof.
  destruct (htree_create demo_sha demo_rng (fresh_world empty_storage 0) 7 eq_refl) as (ht & w' & H1 & _ & _ & H2 & _).
  exists ht, w'. exact (conj H1 H2).
Defined.

Lemma htree_reopen_witness : demo_open false None demo_w = (Return (Some demo_ht, TEE_SUCCESS), demo_w).
Proof. apply (htree_reopen demo_sha demo_rng 1 demo_ht demo_w); apply demo_committed. Defined.

Lemma htree_write_read_witness :
  exists ht' w', demo_write (Some demo_ht) 2 [5; 6] demo_w = (Return (Some ht', TEE_SUCCESS, Some tt), w') /\
    demo_read (Some ht') 2 w' = (Return (Some ht', TEE_SUCCESS, Some [5; 6]), w').
Proof.
  destruct (htree_write_read demo_rng 2 1 demo_ht 2 [5; 6] demo_w) as (ht' & w' & H1 & H2 & _);
    [apply (cm_shape _ _ _ _ (proj1 demo_committed))|lia|done|vm_compute; reflexivity|done|].
  exists ht', w'. exact (conj H1 H2).
Defined.

(** Block 0 of the new file has been written, and the length recorded. *)
Definition demo_written := demo_write (Some demo_ht) 0 [5; 6] (fresh_world (w_store demo_w) 4).
Definition demo_changed : tee_fs_htree := tee_fs_htree_meta_set_dirty (set_meta_length 2 (tree_left demo_written)).

Lemma demo_session :
  session demo_rng (gcm_enc := demo_enc) (w_store demo_w) 1 demo_ht (w_store (snd demo_written)) 1 demo_changed.
Proof.
  apply ses_meta; [|by unfold is_u64].
  eapply (ses_write _ _ _ _ _ 1 _ 0 [5; 6] 4); [apply ses_start|lia|done|].
  vm_compute; reflexivity.
Qed.

Lemma htree_sync_durable_witness :
  exists ht' w', demo_sync (Some demo_changed) (fresh_world (w_store (snd demo_written)) 9) =
      (Return (Some ht', TEE_SUCCESS, Some (hash_of (ht_root ht'))), w') /\
    demo_open false None (fresh_world (w_store w') 0) = (Return (Some ht', TEE_SUCCESS), fresh_world (w_store w') 0).
Proof.
  destruct (htree_sync_durable demo_sha demo_rng (w_store demo_w) 1 demo_ht (w_store (snd demo_written)) 1
    demo_changed 9 0) as (ht' & w' & H1 & _ & _ & H2 & _);
    [apply demo_committed|vm_compute; done|apply demo_session|done|]. by exists ht', w'.
Defined.

(** The sync fails at its third call out. *)
Definition demo_failing : world := mk_world (w_store (snd demo_written)) [TEE_SUCCESS; TEE_SUCCESS; TEE_ERROR_GENERIC] 9.

Lemma htree_crash_safe_witness :
  demo_open false None (fresh_world (w_store (snd (demo_sync (Some demo_changed) demo_failing))) 0) =
  (Return (Some demo_ht, TEE_SUCCESS), fresh_world (w_store (snd (demo_sync (Some demo_changed) demo_failing))) 0).
Proof.
  apply (htree_crash_safe demo_sha demo_rng 2 (w_store demo_w) 1 demo_ht (w_store (snd demo_written)) 1 demo_changed
    demo_failing 0); [apply demo_committed|vm_compute; done|apply demo_session|done|].
  intros ht' v. vm_compute. congruence.
Defined.

(** ** Truncation *)

(** A committed file of four blocks. *)
Definition write_next (s : tee_fs_htree * world) (b : Z) : tee_fs_htree * world :=
  let r := demo_write (Some (fst s)) b [b; b] (snd s) in (tree_left r, snd r).
Definition four_written : tee_fs_htree * world := foldl write_next (demo_ht, demo_w) [0; 1; 2; 3].
Definition four_synced := demo_sync (Some (fst four_written)) (snd four_written).

(** Cut to [block_num] blocks, the length recorded, and synced. *)
Definition cut_and_synced (block_num : Z) :=
  match tee_fs_htree_truncate (Some (tree_left four_synced)) block_num with
  | Return (Some ht, _) => demo_sync (Some (tee_fs_htree_meta_set_dirty (set_meta_length 2 ht))) (snd four_synced)
  | _ => demo_sync None (snd four_synced)
  end.

(** A flaw: truncation unlinks the last nodes without marking their parent
    as changed, and the sync that follows rewrites only changed nodes. On a file of
    four blocks that opens, truncation to two blocks (node 4, below node 2, goes) and the
    sync report success, and the file can no longer be opened: node 2 still has on
    storage a digest that covers node 4. *)
Theorem truncate_leaves_stale_hash :
  fst (demo_open false None (snd four_synced)) = Return (Some (tree_left four_synced), TEE_SUCCESS) /\
  (exists h, fst (cut_and_synced 2) = Return (Some (tree_left (cut_and_synced 2)), TEE_SUCCESS, Some h)) /\
  fst (demo_open false None (snd (cut_and_synced 2))) = Return (None, TEE_ERROR_CORRUPT_OBJECT).
Proof. split; [vm_compute; reflexivity|]. split; [|vm_compute; reflexivity]. eexists. vm_compute. reflexivity. Qed.

(** ** The header and the root hash *)

(** A flaw: the tag of the header is meant to cover the root hash, of 32
    bytes, but the call passes the size of the key, 16. Two root hashes that agree on
    their first half are accepted or refused alike, whatever the cryptography. *)
Theorem header_covers_half_hash gcm_dec fek_decrypt h h' head w :
  take TEE_FS_HTREE_FEK_SIZE h = take TEE_FS_HTREE_FEK_SIZE h' ->
  verify_root gcm_dec fek_decrypt h head w = verify_root gcm_dec fek_decrypt h' head w.
Proof. intros He. unfold verify_root, head_aad. by rewrite He. Qed.

Lemma header_covers_half_hash_witness :
  verify_root demo_dec demo_wrap (replicate 16 1 ++ replicate 16 2) (ht_head demo_ht) demo_w =
  verify_root demo_dec demo_wrap (replicate 16 1 ++ replicate 16 3) (ht_head demo_ht) demo_w.
Proof. apply header_covers_half_hash. reflexivity. Defined.
