(* ===== verification/ReeFs.v ===== *)
(** * Files in normal-world storage: [core/tee/tee_ree_fs.c]

    A file is an array of bytes kept in the blocks of a hash tree ([Htree]). This
    file has the layout of a tree on storage and the byte operations on an open
    file; [ReeFsFile] has the theorems on contents. [ht] is [fdp->ht], [None] when
    an error has closed it. *)

From stdpp Require Import base gmap list.
From Stdlib Require Import ZArith Lia.
From S2P Require Import Prelude Htree.

Local Open Scope Z_scope.

Definition BLOCK_SHIFT : Z := 12.
Definition BLOCK_SIZE : Z := Z.shiftl 1 BLOCK_SHIFT.
Definition BLOCK_BYTES : nat := Z.to_nat BLOCK_SIZE.

(** The parameter and the result are [int]. *)
Definition pos_to_block_num (position : Z) : Z := Z.shiftr (s32 position) BLOCK_SHIFT.

(** ** Layout *)

Inductive tee_fs_htree_type := TEE_FS_HTREE_TYPE_HEAD | TEE_FS_HTREE_TYPE_NODE | TEE_FS_HTREE_TYPE_BLOCK.

(** [sizeof] of the two structures on storage. *)
Definition image_size : Z := 68.
Definition node_size : Z := 66.
Definition block_nodes : Z := BLOCK_SIZE / (node_size * 2).

(** Offset and size. *)
Definition get_offs_size (type : tee_fs_htree_type) (idx vers : Z) : outcome (Z * Z) :=
  (assert! (vers =? 0) || (vers =? 1);
   match type with
   | TEE_FS_HTREE_TYPE_HEAD => Return (image_size * vers, image_size)
   | TEE_FS_HTREE_TYPE_NODE =>
       let pbn := u64 (1 + idx / block_nodes * block_nodes * 2) in
       Return (u64 (pbn * BLOCK_SIZE + 2 * node_size * (idx mod block_nodes) + node_size * vers), node_size)
   | TEE_FS_HTREE_TYPE_BLOCK =>
       let bidx := u64 (2 * idx + vers) in
       let pbn := u64 (2 + bidx + bidx / (block_nodes * 2 - 1)) in
       Return (u64 (pbn * BLOCK_SIZE), BLOCK_SIZE)
   end)%c.

Definition slot_offs_size (s : slot) : outcome (Z * Z) :=
  match s with
  | SHead vers => get_offs_size TEE_FS_HTREE_TYPE_HEAD 0 vers
  | SNode idx vers => get_offs_size TEE_FS_HTREE_TYPE_NODE idx vers
  | SBlock idx vers => get_offs_size TEE_FS_HTREE_TYPE_BLOCK idx vers
  end.

(** The whole element lies in the first [len] bytes of the file. *)
Definition slot_within (len : Z) (s : slot) : bool :=
  match slot_offs_size s with Return (offs, size) => offs + size <=? len | Panic => false end.

(** [tee_fs_rpc_truncate]: normal world cuts the file. *)
Definition cut_storage (len : Z) (st : storage) : storage :=
  mk_storage (filter (fun '(v, _) => slot_within len (SHead v) = true) (st_head st))
             (filter (fun '(k, _) => slot_within len (SNode k.1 k.2) = true) (st_node st))
             (filter (fun '(k, _) => slot_within len (SBlock k.1 k.2) = true) (st_block st)).

(** ** Operations on an open file *)

Section ree_fs.
Context (gcm_enc : list Z -> list Z -> list Z -> list Z -> list Z * list Z).
Context (gcm_dec : list Z -> list Z -> list Z -> list Z -> list Z -> option (list Z)).
Context (rng : nat -> list Z).
Notation write_block := (tee_fs_htree_write_block gcm_enc rng).
Notation read_block := (tee_fs_htree_read_block gcm_dec BLOCK_BYTES).

(** What an operation leaves: the tree, the code and a value on success. *)
Notation fd_result A := (outcome (option tee_fs_htree * Z * option A) * world)%type.

Definition chunk_size (pos remain_bytes : Z) : Z :=
  let offset := pos mod BLOCK_SIZE in
  let size := Z.min remain_bytes BLOCK_SIZE in
  if size + offset >? BLOCK_SIZE then BLOCK_SIZE - offset else size.

(** [memcpy(block + offset, data, ...)] *)
Definition patch (block : list Z) (offset : Z) (data : list Z) : list Z :=
  take (Z.to_nat offset) block ++ data ++ drop (Z.to_nat offset + length data) block.

(** The loop of [out_of_place_write], for the given number of blocks; the value
    is the final [pos]. *)
Fixpoint write_loop (count : nat) (start_block_num pos remain_bytes : Z) (data_ptr : option (list Z))
    (ht : tee_fs_htree) (w : world) : fd_result Z :=
  match count with
  | O => (Return (Some ht, TEE_SUCCESS, Some pos), w)
  | S count =>
      let offset := pos mod BLOCK_SIZE in
      let size_to_write := chunk_size pos remain_bytes in
      match (if u64 (start_block_num * BLOCK_SIZE) <? ROUNDUP (tee_fs_htree_get_meta ht) BLOCK_SIZE
             then read_block (Some ht) start_block_num w
             else (Return (Some ht, TEE_SUCCESS, Some (replicate BLOCK_BYTES 0)), w)) with
      | (Return (Some ht, _, Some block), w) =>
          let data := match data_ptr with
                      | Some d => take (Z.to_nat size_to_write) d
                      | None => replicate (Z.to_nat size_to_write) 0
                      end in
          match write_block (Some ht) start_block_num (patch block offset data) w with
          | (Return (Some ht, _, Some _), w) =>
              write_loop count (u64 (start_block_num + 1)) (u64 (pos + size_to_write))
                (u64 (remain_bytes - size_to_write)) (drop (Z.to_nat size_to_write) <$> data_ptr) ht w
          | (Return (ht, res, _), w) => (Return (ht, res, None), w)
          | (Panic, w) => (Panic, w)
          end
      | (Return (ht, res, _), w) => (Return (ht, res, None), w)
      | (Panic, w) => (Panic, w)
      end
  end.

(** A closed tree has no metadata to look at: [meta->length] faults. *)
Definition out_of_place_write (ht : option tee_fs_htree) (pos : Z) (buf : option (list Z)) (len : Z) (w : world)
    : fd_result unit :=
  if len =? 0 then (Return (ht, TEE_ERROR_BAD_PARAMETERS, None), w)
  else
    match ext w with (* get_tmp_block *)
    | (Ok _, w) =>
        match ht with
        | None => (Panic, w)
        | Some ht =>
            let start_block_num := u64 (pos_to_block_num pos) in
            let end_block_num := u64 (pos_to_block_num (u64 (pos + len - 1))) in
            match write_loop (Z.to_nat (end_block_num - start_block_num + 1)) start_block_num pos len buf ht w with
            | (Return (Some ht, _, Some pos), w) =>
                if pos >? tee_fs_htree_get_meta ht
                then (Return (Some (tee_fs_htree_meta_set_dirty (set_meta_length pos ht)), TEE_SUCCESS, Some tt), w)
                else (Return (Some ht, TEE_SUCCESS, Some tt), w)
            | (Return (ht, res, _), w) => (Return (ht, res, None), w)
            | (Panic, w) => (Panic, w)
            end
        end
    | (_, w) => (Return (ht, TEE_ERROR_OUT_OF_MEMORY, None), w)
    end.

Definition ree_fs_ftruncate_internal (ht : option tee_fs_htree) (new_file_len : Z) (w : world) : fd_result unit :=
  match ht with
  | None => (Panic, w)
  | Some ht =>
      let length := tee_fs_htree_get_meta ht in
      if new_file_len >? length then out_of_place_write (Some ht) length None (u64 (new_file_len - length)) w
      else
        match get_offs_size TEE_FS_HTREE_TYPE_BLOCK (ROUNDUP new_file_len BLOCK_SIZE / BLOCK_SIZE) 1,
              tee_fs_htree_truncate (Some ht) (new_file_len / BLOCK_SIZE) with
        | Return (offs, sz), Return (Some ht, _) =>
            match ext w with (* tee_fs_rpc_truncate *)
            | (Ok _, w) =>
                (Return (Some (tee_fs_htree_meta_set_dirty (set_meta_length new_file_len ht)), TEE_SUCCESS, Some tt),
                 mk_world (cut_storage (u64 (offs + sz)) (w_store w)) (w_ext w) (w_rng w))
            | (Err c, w) => (Return (Some ht, c, None), w)
            | (Crash, w) => (Panic, w)
            end
        | Return _, Return (None, res) => (Return (None, res, None), w)
        | _, _ => (Panic, w)
        end
  end.

(** The loop of [ree_fs_read_primitive]: [start_block_num] is an [int]; the value
    is what has been copied to [data_ptr]. *)
Fixpoint read_loop (count : nat) (start_block_num pos remain_bytes : Z) (data : list Z)
    (ht : tee_fs_htree) (w : world) : fd_result (list Z) :=
  match count with
  | O => (Return (Some ht, TEE_SUCCESS, Some data), w)
  | S count =>
      let offset := pos mod BLOCK_SIZE in
      let size_to_read := chunk_size pos remain_bytes in
      match read_block (Some ht) (u64 start_block_num) w with
      | (Return (Some ht, _, Some block), w) =>
          read_loop count (start_block_num + 1) (u64 (pos + size_to_read)) (u64 (remain_bytes - size_to_read))
            (data ++ take (Z.to_nat size_to_read) (drop (Z.to_nat offset) block)) ht w
      | (Return (ht, res, _), w) => (Return (ht, res, None), w)
      | (Panic, w) => (Panic, w)
      end
  end.

(** [*len] as it is set before the data is read. *)
Definition clip_len (length pos len : Z) : Z :=
  if (u64 (pos + len) <? len) || (pos >? length) then 0
  else if u64 (pos + len) >? length then length - pos
  else len.

Definition ree_fs_read_primitive (ht : option tee_fs_htree) (pos len : Z) (w : world) : fd_result (list Z) :=
  match ht with
  | None => (Panic, w)
  | Some ht =>
      let remain_bytes := clip_len (tee_fs_htree_get_meta ht) pos len in
      if remain_bytes =? 0 then (Return (Some ht, TEE_SUCCESS, Some []), w)
      else
        let start_block_num := pos_to_block_num pos in
        let end_block_num := pos_to_block_num (u64 (pos + remain_bytes - 1)) in
        match ext w with (* get_tmp_block *)
        | (Ok _, w) => read_loop (Z.to_nat (end_block_num - start_block_num + 1)) start_block_num pos remain_bytes [] ht w
        | (_, w) => (Return (Some ht, TEE_ERROR_OUT_OF_MEMORY, None), w)
        end
  end.

Definition ree_fs_write_primitive (ht : option tee_fs_htree) (pos : Z) (buf : list Z) (w : world) : fd_result unit :=
  let len := Z.of_nat (length buf) in
  if len =? 0 then (Return (ht, TEE_SUCCESS, Some tt), w)
  else
    match ht with
    | None => (Panic, w)
    | Some ht =>
        let file_size := tee_fs_htree_get_meta ht in
        if u64 (pos + len) <? len then (Return (Some ht, TEE_ERROR_BAD_PARAMETERS, None), w)
        else if file_size <? pos then
          match ree_fs_ftruncate_internal (Some ht) pos w with
          | (Return (ht, _, Some _), w) => out_of_place_write ht pos (Some buf) len w
          | (Return (ht, res, None), w) => (Return (ht, res, None), w)
          | (Panic, w) => (Panic, w)
          end
        else out_of_place_write (Some ht) pos (Some buf) len w
    end.

(** ** Opening and closing *)

Context (sha256 : list Z -> list Z) (fek_encrypt fek_decrypt : list Z -> list Z).

(** A call whose result is not looked at. *)
Definition ext_ignored (w : world) : world := snd (ext w).

(** [None]: the file is not open; [hash] is the root hash to check, if any. *)
Definition ree_fs_open_primitive (create : bool) (hash : option (list Z)) (w : world)
    : outcome (option tee_fs_htree * Z) * world :=
  match ext w with (* calloc *)
  | (Ok _, w) =>
      match ext w with (* tee_fs_rpc_create_dfh or tee_fs_rpc_open_dfh *)
      | (Ok _, w) =>
          match tee_fs_htree_open sha256 gcm_enc gcm_dec fek_encrypt fek_decrypt rng create hash w with
          | (Return (Some ht, res), w) => (Return (Some ht, res), w)
          | (Return (None, res), w) =>
              (* tee_fs_rpc_close, tee_fs_rpc_remove_dfh *)
              (Return (None, res), if create then ext_ignored (ext_ignored w) else ext_ignored w)
          | (Panic, w) => (Panic, w)
          end
      | (Err c, w) => (Return (None, c), if create then ext_ignored w else w)
      | (Crash, w) => (Panic, w)
      end
  | (_, w) => (Return (None, TEE_ERROR_OUT_OF_MEMORY), w)
  end.

(** Nothing in memory is left of the handle. *)
Definition ree_fs_close_primitive (ht : option tee_fs_htree) (w : world) : option tee_fs_htree * world :=
  (tee_fs_htree_close ht, ext_ignored w).

Definition ree_dirf_commit_writes (ht : option tee_fs_htree) (w : world) : fd_result (list Z) :=
  tee_fs_htree_sync_to_storage sha256 gcm_enc rng ht w.
End ree_fs.
