(* ===== verification/ReeFsFile.v ===== *)
(** * Normal-world files: layout on storage and contents

    The elements of a hash tree have disjoint places in the file, a truncation
    keeps the places that are still used, and the byte operations read and write the
    file as an array of bytes. *)

From stdpp Require Import base gmap list.
From Stdlib Require Import ZArith Lia.
From S2P Require Import Prelude Htree HtreeShape HtreeSync HtreeCommit HtreeCreate ReeFs.

Local Open Scope Z_scope.

(** ** Layout *)

Lemma BLOCK_BYTES_Z : Z.of_nat BLOCK_BYTES = 4096.
Proof. reflexivity. Qed.
#[global] Opaque BLOCK_BYTES.

(** Places that fit: below 2^48 elements. *)
Definition slot_ok (s : slot) : Prop :=
  match s with
  | SHead v => v = 0 \/ v = 1
  | SNode i v | SBlock i v => 0 <= i < 2 ^ 48 /\ (v = 0 \/ v = 1)
  end.

(** Block of the file and position in it. *)
Definition slot_place (s : slot) : Z * Z * Z :=
  match s with
  | SHead v => (0, 68 * v, 68)
  | SNode i v => (1 + i / 31 * 62, 132 * (i mod 31) + 66 * v, 66)
  | SBlock i v => (2 + (2 * i + v) + (2 * i + v) / 61, 0, 4096)
  end.

Lemma slot_offs_place s :
  slot_ok s -> let '(pbn, off, size) := slot_place s in
  slot_offs_size s = Return (pbn * 4096 + off, size) /\
  0 <= pbn < 2 ^ 50 /\ 0 <= off /\ 0 < size /\ off + size <= 4096.
Proof.
  unfold slot_offs_size, get_offs_size.
  assert (Hbn : block_nodes = 31) by reflexivity. change BLOCK_SIZE with 4096.
  destruct s as [v|i v|i v]; cbn [slot_ok slot_place].
  - intros [-> | ->]; cbn; (split; [done|lia]).
  - intros [Hi Hv]. rewrite Hbn. replace ((v =? 0) || (v =? 1)) with true by (destruct Hv as [-> | ->]; done).
    assert (2 ^ 48 = 281474976710656) as E by reflexivity. assert (2 ^ 50 = 1125899906842624) as E2 by reflexivity.
    split; [do 2 f_equal|]; unfold node_size in *; cint.
  - intros [Hi Hv]. rewrite Hbn. change (31 * 2 - 1) with 61.
    replace ((v =? 0) || (v =? 1)) with true by (destruct Hv as [-> | ->]; done).
    assert (2 ^ 48 = 281474976710656) as E by reflexivity. assert (2 ^ 50 = 1125899906842624) as E2 by reflexivity.
    split; [|cint]. do 2 f_equal. rewrite (u64_small (2 * i + v)) by cint. cint.
Qed.

Lemma slot_place_inj s1 s2 :
  slot_ok s1 -> slot_ok s2 -> s1 ≠ s2 ->
  let '(p1, o1, z1) := slot_place s1 in
  let '(p2, o2, z2) := slot_place s2 in
  p1 ≠ p2 \/ o1 + z1 <= o2 \/ o2 + z2 <= o1.
Proof.
  destruct s1 as [v|i v|i v], s2 as [v'|i' v'|i' v']; cbn [slot_ok slot_place]; intros H1 H2 Hne.
  - assert (v ≠ v') by congruence. lia.
  - left. Z.div_mod_to_equations; lia.
  - left. Z.div_mod_to_equations; lia.
  - left. Z.div_mod_to_equations; lia.
  - assert (i ≠ i' \/ v ≠ v') by (destruct (decide (i = i')); [right; congruence|by left]).
    Z.div_mod_to_equations; lia.
  - left. Z.div_mod_to_equations; lia.
  - left. Z.div_mod_to_equations; lia.
  - left. Z.div_mod_to_equations; lia.
  - left. assert (i ≠ i' \/ v ≠ v') by (destruct (decide (i = i')); [right; congruence|by left]).
    Z.div_mod_to_equations; lia.
Qed.

(** Layout: any two different elements of a file (headers, nodes and blocks
    in their two versions) occupy disjoint ranges of bytes. *)
Theorem layout_disjoint s1 s2 :
  slot_ok s1 -> slot_ok s2 -> s1 ≠ s2 ->
  exists o1 z1 o2 z2, slot_offs_size s1 = Return (o1, z1) /\ slot_offs_size s2 = Return (o2, z2) /\
    0 <= o1 /\ 0 <= o2 /\ (o1 + z1 <= o2 \/ o2 + z2 <= o1).
Proof.
  intros H1 H2 Hne. pose proof (slot_offs_place s1 H1) as P1. pose proof (slot_offs_place s2 H2) as P2.
  pose proof (slot_place_inj s1 s2 H1 H2 Hne) as Hi.
  destruct (slot_place s1) as [[p1 o1] z1], (slot_place s2) as [[p2 o2] z2].
  destruct P1 as (-> & P1), P2 as (-> & P2). eexists _, _, _, _. split; [done|]. split; [done|]. lia.
Qed.

Lemma layout_disjoint_witness :
  exists o1 z1 o2 z2, slot_offs_size (SNode 31 0) = Return (o1, z1) /\ slot_offs_size (SBlock 30 1) = Return (o2, z2) /\
    0 <= o1 /\ 0 <= o2 /\ (o1 + z1 <= o2 \/ o2 + z2 <= o1).
Proof. apply (layout_disjoint (SNode 31 0) (SBlock 30 1)); cbn; [lia|lia|done]. Defined.

(** Where the comment in [get_offs_size] has them the other way round. *)
Example layout_second_node_block :
  slot_offs_size (SNode 31 0) = Return (63 * 4096, 66) /\ slot_offs_size (SBlock 30 1) = Return (64 * 4096, 4096).
Proof. split; reflexivity. Qed.

Lemma pos_to_block_num_small p : 0 <= p < 2147483648 -> pos_to_block_num p = p / 4096.
Proof.
  intros Hp. unfold pos_to_block_num, BLOCK_SHIFT. rewrite Z.shiftr_div_pow2 by lia. change (2 ^ 12) with 4096.
  f_equal. cint.
Qed.

(** From 2 GiB on the position does not fit the [int] parameter, and the block
    number is far off. *)
Example large_position_block :
  u64 (pos_to_block_num 2147483647) = 524287 /\ u64 (pos_to_block_num 2147483648) = 2 ^ 64 - 524288.
Proof. split; reflexivity. Qed.

Lemma roundup_block v : 0 <= v < 2 ^ 63 -> ROUNDUP v BLOCK_SIZE = (v + 4095) / 4096 * 4096.
Proof.
  intros Hv. change BLOCK_SIZE with (2 ^ 12). assert (2 ^ 63 = 9223372036854775808) as E by reflexivity.
  rewrite ROUNDUP_spec; [|lia|lia|change (2 ^ 12) with 4096; change (2 ^ 64) with 18446744073709551616; lia].
  change (2 ^ 12) with 4096. Z.div_mod_to_equations; lia.
Qed.

(** ** Bytes by position *)

Definition len (l : list Z) : Z := Z.of_nat (length l).
Definition byte (l : list Z) (i : Z) : option Z := l !! Z.to_nat i.

(** [data] written over [l] at [pos], which may extend it. *)
Definition splice (pos : Z) (data l : list Z) : list Z :=
  take (Z.to_nat pos) l ++ data ++ drop (Z.to_nat pos + length data) l.

Lemma len_nonneg l : 0 <= len l.
Proof. unfold len. lia. Qed.

Lemma splice_len pos data l : 0 <= pos <= len l -> len (splice pos data l) = Z.max (len l) (pos + len data).
Proof. unfold splice, len. intros Hp. rewrite !length_app, length_take, length_drop. lia. Qed.

Lemma splice_byte pos data l i :
  0 <= pos <= len l -> 0 <= i ->
  byte (splice pos data l) i = if (pos <=? i) && (i <? pos + len data) then byte data (i - pos) else byte l i.
Proof.
  unfold splice, byte, len. intros Hp Hi. destruct (Z.leb_spec pos i); cbn [andb].
  - rewrite lookup_app_r by (rewrite length_take; lia). rewrite length_take.
    destruct (Z.ltb_spec i (pos + Z.of_nat (length data))).
    + rewrite lookup_app_l by lia. f_equal. lia.
    + rewrite lookup_app_r by lia. rewrite lookup_drop. f_equal. lia.
  - rewrite lookup_app_l by (rewrite length_take; lia). rewrite lookup_take_lt by lia. done.
Qed.

Lemma byte_ext l l' : len l = len l' -> (forall i, 0 <= i < len l -> byte l i = byte l' i) -> l = l'.
Proof.
  unfold len, byte. intros Hl H. apply list_eq. intros i. destruct (decide (i < length l)%nat) as [Hi|Hi].
  - specialize (H (Z.of_nat i) ltac:(lia)). by rewrite Nat2Z.id in H.
  - rewrite !lookup_ge_None_2 by lia. done.
Qed.

Lemma splice_nil pos l : splice pos [] l = l.
Proof. unfold splice. simpl. rewrite Nat.add_0_r. apply take_drop. Qed.

Lemma len_take n l : 0 <= n <= len l -> len (take (Z.to_nat n) l) = n.
Proof. unfold len. intros Hn. rewrite length_take. lia. Qed.

Lemma len_drop n l : 0 <= n <= len l -> len (drop (Z.to_nat n) l) = len l - n.
Proof. unfold len. intros Hn. rewrite length_drop. lia. Qed.

Lemma byte_take n l i : 0 <= i < n -> byte (take (Z.to_nat n) l) i = byte l i.
Proof. intros Hi. unfold byte. rewrite lookup_take_lt by lia. done. Qed.

Lemma byte_drop n l i : 0 <= n -> 0 <= i -> byte (drop (Z.to_nat n) l) i = byte l (n + i).
Proof. intros Hn Hi. unfold byte. rewrite lookup_drop. f_equal. lia. Qed.

(** Writing in two steps. *)
Lemma splice_splice pos n data l :
  0 <= pos <= len l -> 0 <= n <= len data ->
  splice (pos + n) (drop (Z.to_nat n) data) (splice pos (take (Z.to_nat n) data) l) = splice pos data l.
Proof.
  intros Hp Hn. pose proof (len_take n data Hn) as Ht. pose proof (len_drop n data Hn) as Hd.
  pose proof (splice_len pos (take (Z.to_nat n) data) l Hp) as H1.
  apply byte_ext.
  - rewrite !splice_len by (rewrite ?splice_len; lia). lia.
  - intros i Hi. rewrite !splice_byte by lia. rewrite Ht, Hd.
    repeat match goal with |- context [?x <=? ?y] => destruct (Z.leb_spec x y)
      | |- context [?x <? ?y] => destruct (Z.ltb_spec x y) end; cbn [andb]; try lia; try done.
    + rewrite byte_drop by lia. f_equal. lia.
    + apply byte_take. lia.
Qed.

(** ** Contents of an open file *)

Section contents.
Context {gcm_enc gcm_dec fek_encrypt fek_decrypt}
  {Hcrypto : HtreeCrypto gcm_enc gcm_dec fek_encrypt fek_decrypt}.
Context (rng : nat -> list Z).
Notation write_block := (tee_fs_htree_write_block gcm_enc rng).
Notation read_block := (tee_fs_htree_read_block gcm_dec BLOCK_BYTES).
Notation write_loop := (write_loop gcm_enc gcm_dec rng).
Notation read_loop := (read_loop gcm_dec).
Notation out_of_place_write := (out_of_place_write gcm_enc gcm_dec rng).
Notation ftruncate := (ree_fs_ftruncate_internal gcm_enc gcm_dec rng).
Notation write_file := (ree_fs_write_primitive gcm_enc gcm_dec rng).
Notation read_file := (ree_fs_read_primitive gcm_dec).
Notation session := (session (gcm_enc := gcm_enc) rng).

(** Every block that holds bytes of [c] can be read, and has them. *)
Definition holds (ht : tee_fs_htree) (w : world) (c : list Z) : Prop :=
  forall b, 0 <= b -> b * 4096 < len c ->
    exists blk, read_block (Some ht) b w = (Return (Some ht, TEE_SUCCESS, Some blk), w) /\ len blk = 4096 /\
      forall i, 0 <= i < 4096 -> b * 4096 + i < len c -> byte blk i = byte c (b * 4096 + i).

(** A file of less than 2 GiB with all its blocks in the tree. *)
Record block_file (m : Z) (ht : tee_fs_htree) (w : world) (c : list Z) : Prop := {
  bf_shape : ht_shape m ht;
  bf_small : m <= 524288;
  bf_ext : w_ext w = [];
  bf_blocks : len c <= m * 4096;
  bf_holds : holds ht w c
}.

Lemma read_block_stable ht b w c v :
  code_and_value (read_block (Some ht) b w) = Return (c, Some v) ->
  (exists m, ht_shape m ht) -> 0 <= b -> b + 1 < UINT_MAX -> w_ext w = [] ->
  read_block (Some ht) b w = (Return (Some ht, TEE_SUCCESS, Some v), w).
Proof.
  intros Hv [m Hm] Hb Hb1 He. revert Hv. rewrite (read_block_ok BLOCK_BYTES m) by done. unfold code_and_value. cbn [fst].
  repeat match goal with |- context [match ?x with _ => _ end] =>
    lazymatch x with context [match _ with _ => _ end] => fail | _ => destruct x end end; try done. intros [= <- <-]. done.
Qed.

(** One block written: the bytes of that block change. *)
Lemma write_block_file m ht w c b blk data off :
  block_file m ht w c -> 0 <= b <= m -> b < 524288 -> len blk = 4096 ->
  0 <= off -> off + len data <= 4096 -> b * 4096 + off <= len c ->
  (forall i, 0 <= i < 4096 -> b * 4096 + i < len c -> byte blk i = byte c (b * 4096 + i)) ->
  exists ht' w', write_block (Some ht) b (patch blk off data) w = (Return (Some ht', TEE_SUCCESS, Some tt), w') /\
    block_file (Z.max m (b + 1)) ht' w' (splice (b * 4096 + off) data c) /\
    tee_fs_htree_get_meta ht' = tee_fs_htree_get_meta ht /\ ht_dirty ht' = true /\
    (forall st0 m0 ht0, session st0 m0 ht0 (w_store w) m ht -> session st0 m0 ht0 (w_store w') (Z.max m (b + 1)) ht').
Proof.
  intros [Hsh Hm He Hbl Hh] Hb Hbs Hblk Hoff Hod Hpos Hby.
  pose proof (len_nonneg data) as Hd0. pose proof (len_nonneg c) as Hc0.
  assert (Hp : patch blk off data = splice off data blk) by reflexivity. rewrite Hp.
  assert (Hlen : len (splice off data blk) = 4096) by (rewrite splice_len by lia; lia).
  assert (Hb1 : b + 1 < UINT_MAX) by (unfold UINT_MAX; lia).
  destruct (write_read_ok rng BLOCK_BYTES m ht b (splice off data blk) w Hsh ltac:(lia) Hb1 He) as
    (ht' & w' & Hw & Hrd & Hoth); [pose proof BLOCK_BYTES_Z; unfold len in Hlen; lia|].
  destruct (write_block_ok rng m ht b (splice off data blk) w Hsh ltac:(lia) Hb1 He) as
    (ht2 & w2 & Hw2 & Hsh' & _ & _ & Hd & Hml & _ & _ & Hw').
  rewrite Hw in Hw2. injection Hw2 as <- <-.
  assert (He' : w_ext w' = []) by (by rewrite Hw').
  exists ht', w'. split; [done|]. split; [|split; [exact Hml|split; [done|]]].
  - constructor; [done|lia|done| |].
    + rewrite splice_len by lia. lia.
    + intros b' Hb' Hlt. rewrite splice_len in Hlt by lia. destruct (decide (b' = b)) as [->|Hne].
      * exists (splice off data blk). split; [done|]. split; [done|]. intros i Hi Hil.
        rewrite splice_len in Hil by lia. rewrite !splice_byte by lia.
        destruct (Z.leb_spec off i), (Z.leb_spec (b * 4096 + off) (b * 4096 + i)); try lia;
        destruct (Z.ltb_spec i (off + len data)), (Z.ltb_spec (b * 4096 + i) (b * 4096 + off + len data)); try lia; cbn [andb];
          try (apply Hby; lia).
        f_equal. lia.
      * destruct (Hh b' Hb') as (blk' & Hr & Hl & Hbb); [lia|].
        exists blk'. split.
        { eapply (read_block_stable ht' b' w' TEE_SUCCESS); [|eauto|done|unfold UINT_MAX; lia|done].
          rewrite Hoth by (unfold UINT_MAX; lia). by rewrite Hr. }
        split; [done|]. intros i Hi Hil. rewrite splice_len in Hil by lia. rewrite splice_byte by lia.
        destruct (Z.leb_spec (b * 4096 + off) (b' * 4096 + i)); cbn [andb];
          [destruct (Z.ltb_spec (b' * 4096 + i) (b * 4096 + off + len data)); [lia|]|]; apply Hbb; lia.
  - intros st0 m0 ht0 Hs. destruct w as [st x r]. simpl in He. subst x.
    by eapply (ses_write rng st0 m0 ht0 st m ht b).
Qed.

Lemma chunk_size_spec pos rem :
  0 <= pos -> 0 <= rem -> 0 <= chunk_size pos rem <= rem /\ pos mod 4096 + chunk_size pos rem <= 4096 /\
  (0 < rem -> 0 < chunk_size pos rem) /\ (chunk_size pos rem < rem -> (pos + chunk_size pos rem) mod 4096 = 0) /\
  (pos + chunk_size pos rem) / 4096 = pos / 4096 + (if (pos + chunk_size pos rem) mod 4096 =? 0 then if chunk_size pos rem =? 0 then 0 else 1 else 0).
Proof.
  intros Hp Hr. unfold chunk_size. change BLOCK_SIZE with 4096. destruct (Z.gtb_spec (Z.min rem 4096 + pos mod 4096) 4096).
  - destruct (Z.eqb_spec ((pos + (4096 - pos mod 4096)) mod 4096) 0); [|Z.div_mod_to_equations; lia].
    destruct (Z.eqb_spec (4096 - pos mod 4096) 0); Z.div_mod_to_equations; lia.
  - destruct (Z.eqb_spec ((pos + Z.min rem 4096) mod 4096) 0), (Z.eqb_spec (Z.min rem 4096) 0); Z.div_mod_to_equations; lia.
Qed.

(** Blocks touched by [n] bytes from [pos] on. *)
Definition block_count (pos n : Z) : Z := if n =? 0 then 0 else (pos + n - 1) / 4096 - pos / 4096 + 1.

Lemma block_count_step pos n :
  0 <= pos -> 0 < n ->
  block_count pos n = 1 + block_count (pos + chunk_size pos n) (n - chunk_size pos n) /\
  (block_count (pos + chunk_size pos n) (n - chunk_size pos n) ≠ 0 -> (pos + chunk_size pos n) / 4096 = pos / 4096 + 1).
Proof.
  intros Hp Hn. destruct (chunk_size_spec pos n Hp ltac:(lia)) as (H1 & H2 & H3 & H4 & H5). specialize (H3 Hn).
  unfold block_count. set (k := chunk_size pos n) in *. clearbody k. destruct (Z.eqb_spec n 0); [lia|].
  destruct (Z.eqb_spec (n - k) 0).
  - split; [|done]. assert (n = k) as -> by lia. Z.div_mod_to_equations; lia.
  - specialize (H4 ltac:(lia)). rewrite H4 in H5. cbn [Z.eqb] in H5. destruct (Z.eqb_spec k 0); [lia|].
    split; [|done]. rewrite H5. replace (pos + k + (n - k) - 1) with (pos + n - 1) by lia. lia.
Qed.

(** The block a write starts from: the one on storage, or zeros beyond the end. *)
Lemma start_block m ht w c pos :
  block_file m ht w c -> 0 <= pos <= len c -> pos < 2147483648 ->
  0 <= tee_fs_htree_get_meta ht -> len c = Z.max (tee_fs_htree_get_meta ht) pos ->
  (pos <= tee_fs_htree_get_meta ht \/ pos mod 4096 = 0) ->
  exists blk,
    (if u64 (pos / 4096 * BLOCK_SIZE) <? ROUNDUP (tee_fs_htree_get_meta ht) BLOCK_SIZE
     then read_block (Some ht) (pos / 4096) w
     else (Return (Some ht, TEE_SUCCESS, Some (replicate BLOCK_BYTES 0)), w))
    = (Return (Some ht, TEE_SUCCESS, Some blk), w) /\ len blk = 4096 /\
    forall i, 0 <= i < 4096 -> pos / 4096 * 4096 + i < len c -> byte blk i = byte c (pos / 4096 * 4096 + i).
Proof.
  intros [Hsh Hm He Hbl Hh] Hp Hp2 Hm0 Hlc Hal. set (L := tee_fs_htree_get_meta ht) in *.
  rewrite roundup_block by lia. rewrite u64_small by (change BLOCK_SIZE with 4096; cint). change BLOCK_SIZE with 4096.
  destruct (Z.ltb_spec (pos / 4096 * 4096) ((L + 4095) / 4096 * 4096)) as [Hlt|Hge].
  - destruct (Hh (pos / 4096)) as (blk & Hr & Hl & Hb); [Z.div_mod_to_equations; lia|Z.div_mod_to_equations; lia|].
    by exists blk.
  - eexists. split; [done|]. split; [unfold len; rewrite length_replicate; apply BLOCK_BYTES_Z|].
    intros i Hi Hil. exfalso. Z.div_mod_to_equations; lia.
Qed.

Lemma write_loop_ok count : forall m ht w c start pos data,
  block_file m ht w c -> 0 <= pos <= len c -> pos + len data <= 2147483648 ->
  0 <= tee_fs_htree_get_meta ht -> len c = Z.max (tee_fs_htree_get_meta ht) pos ->
  (count ≠ 0%nat -> pos <= tee_fs_htree_get_meta ht \/ pos mod 4096 = 0) ->
  Z.of_nat count = block_count pos (len data) -> (count ≠ 0%nat -> start = pos / 4096) ->
  exists ht' w' m', write_loop count start pos (len data) (Some data) ht w =
      (Return (Some ht', TEE_SUCCESS, Some (pos + len data)), w') /\
    block_file m' ht' w' (splice pos data c) /\ tee_fs_htree_get_meta ht' = tee_fs_htree_get_meta ht /\
    (ht_dirty ht = true \/ data ≠ [] -> ht_dirty ht' = true) /\
    (forall st0 m0 ht0, session st0 m0 ht0 (w_store w) m ht -> session st0 m0 ht0 (w_store w') m' ht').
Proof.
  induction count as [|count IH]; intros m ht w c start pos data Hbf Hpos Hend HL HLc Hal Hcount Hstart.
  - pose proof (len_nonneg data) as Hd0. unfold block_count in Hcount. destruct (Z.eqb_spec (len data) 0) as [Hz|];
      [|Z.div_mod_to_equations; lia].
    assert (data = []) as -> by (destruct data; [done|unfold len in Hz; simpl in Hz; lia]).
    exists ht, w, m. split; [simpl; by rewrite Z.add_0_r|]. rewrite splice_nil.
    split; [done|]. split; [done|]. split; [by intros [?|?]|done].
  - pose proof (len_nonneg data) as Hd0. assert (Hn : 0 < len data).
    { unfold block_count in Hcount. destruct (Z.eqb_spec (len data) 0); lia. }
    rewrite Hstart by done. destruct (block_count_step pos (len data) ltac:(lia) Hn) as [Hbc Hnext].
    destruct (chunk_size_spec pos (len data)) as (Hc1 & Hc2 & Hc3 & Hc4 & _); [lia|lia|].
    destruct (start_block m ht w c pos) as (blk & Hr & Hbl & Hby); [done|done|lia|done|done|by apply Hal|].
    cbn [ReeFs.write_loop]. rewrite Hr. change BLOCK_SIZE with 4096. set (k := chunk_size pos (len data)) in *.
    specialize (Hc3 ltac:(lia)). pose proof (len_take k data ltac:(lia)) as Htk. pose proof (len_drop k data ltac:(lia)) as Hdk.
    pose proof (Z.div_mod pos 4096 ltac:(lia)) as Hdm.
    assert (Hsm : len c <= m * 4096) by apply Hbf.
    destruct (write_block_file m ht w c (pos / 4096) blk (take (Z.to_nat k) data) (pos mod 4096))
      as (ht1 & w1 & Hw1 & Hbf1 & Hm1 & Hd1 & Hs1); try done.
    { Z.div_mod_to_equations; lia. } { Z.div_mod_to_equations; lia. } { Z.div_mod_to_equations; lia. }
    { rewrite Htk. lia. } { lia. }
    rewrite Hw1. replace (pos / 4096 * 4096 + pos mod 4096) with pos in Hbf1 by lia.
    rewrite (u64_small (pos + k)) by cint. rewrite (u64_small (len data - k)) by cint.
    rewrite (u64_small (pos / 4096 + 1)) by cint.
    rewrite <- Hdk. change (drop (Z.to_nat k) <$> Some data) with (Some (drop (Z.to_nat k) data)).
    assert (Hl1 : len (splice pos (take (Z.to_nat k) data) c) = Z.max (len c) (pos + k)) by (rewrite splice_len by lia; lia).
    destruct (IH _ ht1 w1 _ (pos / 4096 + 1) (pos + k) (drop (Z.to_nat k) data) Hbf1) as
      (ht' & w' & m' & Hw' & Hbf' & Hm' & Hdd & Hs'); rewrite ?Hm1; try lia.
    { intros Hcn. right. apply Hc4. unfold block_count in Hbc, Hcount. destruct (Z.eqb_spec (len data - k) 0); lia. }
    { rewrite Hdk. lia. }
    exists ht', w', m'. split; [rewrite Hw'; do 4 f_equal; lia|]. rewrite splice_splice in Hbf' by lia.
    split; [done|]. split; [congruence|]. split; [|auto]. intros _. apply Hdd. by left.
Qed.

Lemma write_loop_zeros count : forall start pos n ht w,
  0 <= pos -> 0 <= n -> pos + n < 2 ^ 63 ->
  write_loop count start pos n None ht w = write_loop count start pos n (Some (replicate (Z.to_nat n) 0)) ht w.
Proof.
  induction count as [|count IH]; intros start pos n ht w Hp Hn Hb; [done|]. cbn [ReeFs.write_loop].
  destruct (chunk_size_spec pos n Hp Hn) as (Hc & _). set (k := chunk_size pos n) in *. clearbody k.
  assert (2 ^ 63 = 9223372036854775808) as E by reflexivity.
  match goal with |- context [match (if ?b then ?x else ?y) with _ => _ end] =>
    destruct (if b then x else y) as [[[[[ht1|] res] [blk|]]|] w1]; try done end.
  rewrite take_replicate, Nat.min_l by lia. destruct (write_block _ _ _ _) as [[[[[ht2|] res2] [[]|]]|] w2]; try done.
  change (drop (Z.to_nat k) <$> Some (replicate (Z.to_nat n) 0)) with (Some (drop (Z.to_nat k) (replicate (Z.to_nat n) 0))).
  rewrite drop_replicate. rewrite (u64_small (n - k)), (u64_small (pos + k)) by cint.
  change (drop (Z.to_nat k) <$> @None (list Z)) with (@None (list Z)).
  rewrite IH by lia. do 3 f_equal. lia.
Qed.

(** Recording a length changes no block. *)
Notation with_length n ht := (tee_fs_htree_meta_set_dirty (set_meta_length n ht)).

Lemma with_length_view n ht i :
  (fun '(_, ni) => ni) <$> view (ht_root (with_length n ht)) !! i = (fun '(_, ni) => ni) <$> view (ht_root ht) !! i.
Proof.
  cbn [ht_root tee_fs_htree_meta_set_dirty set_meta_length]. destruct (ht_root ht) as [|id d u ni c0 c1]; [done|].
  cbn [set_root_dirty view]. destruct (decide (i = id)) as [->|Hne]; [by rewrite !lookup_insert_eq|].
  by rewrite !lookup_insert_ne.
Qed.

Lemma with_length_shape m n ht : ht_shape m ht -> ht_shape m (with_length n ht).
Proof.
  intros [Hsh Hm]. split; [|done]. destruct Hsh as (H1 & H2 & H3). split; [done|]. split.
  - cbn [ht_root tee_fs_htree_meta_set_dirty set_meta_length]. by destruct (ht_root ht).
  - intros i. rewrite <- H3. pose proof (with_length_view n ht i) as Hv.
    destruct (view (ht_root (with_length n ht)) !! i), (view (ht_root ht) !! i); cbn in Hv; try done; split; eauto.
    all: by intros [? ?].
Qed.

Lemma with_length_holds m n ht w c : ht_shape m ht -> m <= 524288 -> w_ext w = [] -> len c <= m * 4096 -> holds ht w c -> holds (with_length n ht) w c.
Proof.
  intros Hsh Hm He Hlc Hh b Hb Hlt. destruct (Hh b Hb Hlt) as (blk & Hr & Hl & Hby). exists blk. split; [|done].
  eapply (read_block_stable _ b w TEE_SUCCESS); [|eauto using with_length_shape|done|unfold UINT_MAX; lia|done].
  assert (Hr' : code_and_value (read_block (Some ht) b w) = Return (TEE_SUCCESS, Some blk)) by (by rewrite Hr).
  rewrite <- Hr'. rewrite (read_block_ok BLOCK_BYTES m) by (try apply with_length_shape; unfold UINT_MAX; done || lia).
  rewrite (read_block_ok BLOCK_BYTES m) by (unfold UINT_MAX; done || lia).
  pose proof (with_length_view n ht (b + 1)) as Hv. unfold code_and_value. cbn [fst].
  destruct (view (ht_root (with_length n ht)) !! (b + 1)) as [[[d u] ni]|], (view (ht_root ht) !! (b + 1)) as [[[d' u'] ni']|];
    cbn in Hv; try done. injection Hv as ->.
  cbn [ht_fek ht_head tee_fs_htree_meta_set_dirty set_meta_length].
  destruct (st_block (w_store w) !! (b, block_vers ni')) as [x|]; [|done]. destruct (bool_decide (length x = BLOCK_BYTES)); [|done].
  destruct (gcm_dec _ _ _ _ _) as [plain|]; [|done]. by destruct (bool_decide _).
Qed.

(** An open file with contents [c]. *)
Definition open_file (m : Z) (ht : tee_fs_htree) (w : world) (c : list Z) : Prop :=
  block_file m ht w c /\ tee_fs_htree_get_meta ht = len c.

Definition sessions_go_on (w : world) (m : Z) (ht : tee_fs_htree) (w' : world) (m' : Z) (ht' : tee_fs_htree) : Prop :=
  forall st0 m0 ht0, session st0 m0 ht0 (w_store w) m ht -> session st0 m0 ht0 (w_store w') m' ht'.

Lemma out_of_place_write_ok m ht w c pos data buf :
  open_file m ht w c -> 0 <= pos <= len c -> 0 < len data -> pos + len data <= 2147483648 ->
  buf = Some data \/ (buf = None /\ data = replicate (length data) 0) ->
  exists ht' w' m', out_of_place_write (Some ht) pos buf (len data) w = (Return (Some ht', TEE_SUCCESS, Some tt), w') /\
    open_file m' ht' w' (splice pos data c) /\ ht_dirty ht' = true /\ sessions_go_on w m ht w' m' ht'.
Proof.
  intros [Hbf HL] Hpos Hn Hend Hbuf. pose proof Hbf as [Hsh Hm He Hbl _].
  unfold ReeFs.out_of_place_write. destruct (Z.eqb_spec (len data) 0); [lia|]. rewrite ext_nil by done. cbv beta iota.
  rewrite (u64_small (pos + len data - 1)) by cint. rewrite !pos_to_block_num_small by lia.
  rewrite !u64_small by cint.
  assert (Hloop : write_loop (Z.to_nat ((pos + len data - 1) / 4096 - pos / 4096 + 1)) (pos / 4096) pos (len data) buf ht w =
    write_loop (Z.to_nat (block_count pos (len data))) (pos / 4096) pos (len data) (Some data) ht w).
  { unfold block_count. destruct (Z.eqb_spec (len data) 0); [lia|]. destruct Hbuf as [-> |[-> Hz]]; [done|].
    rewrite write_loop_zeros by (assert (2 ^ 63 = 9223372036854775808) by reflexivity; lia). do 2 f_equal.
    rewrite Hz at 2. f_equal. unfold len. lia. }
  rewrite Hloop.
  destruct (write_loop_ok (Z.to_nat (block_count pos (len data))) m ht w c (pos / 4096) pos data Hbf Hpos Hend)
    as (ht' & w' & m' & Hw & Hbf' & Hm' & Hd & Hs); [lia|lia|intros _; left; lia| |done|].
  { unfold block_count. destruct (Z.eqb_spec (len data) 0); [lia|]. Z.div_mod_to_equations; lia. }
  rewrite Hw. assert (Hd' : ht_dirty ht' = true) by (apply Hd; right; intros ->; unfold len in *; simpl in *; lia).
  pose proof (splice_len pos data c Hpos) as Hsl. pose proof Hbf' as [Hsh' Hm1 He' Hbl' Hh'].
  rewrite Z.gtb_ltb. destruct (Z.ltb_spec (tee_fs_htree_get_meta ht') (pos + len data)) as [Hgt|Hle].
  - exists (with_length (pos + len data) ht'), w', m'. split; [done|]. split; [|split; [done|]].
    + split; [|cbn; lia]. constructor; try done; [by apply with_length_shape|by eapply with_length_holds].
    + intros st0 m0 ht0 Hx. apply ses_meta; [by apply Hs|cint].
  - exists ht', w', m'. split; [done|]. split; [split; [done|lia]|]. done.
Qed.

(** Reading back. *)
Lemma read_loop_ok count : forall m ht w c start pos n acc,
  block_file m ht w c -> 0 <= pos -> 0 <= n -> pos + n <= len c -> len c <= 2147483648 ->
  Z.of_nat count = block_count pos n -> (count ≠ 0%nat -> start = pos / 4096) ->
  read_loop count start pos n acc ht w =
  (Return (Some ht, TEE_SUCCESS, Some (acc ++ take (Z.to_nat n) (drop (Z.to_nat pos) c))), w).
Proof.
  induction count as [|count IH]; intros m ht w c start pos n acc Hbf Hp Hn Hend Hbd Hcount Hstart.
  - assert (n = 0) as ->.
    { unfold block_count in Hcount. destruct (Z.eqb_spec n 0); [done|Z.div_mod_to_equations; lia]. }
    simpl. by rewrite app_nil_r.
  - assert (Hn0 : 0 < n) by (unfold block_count in Hcount; destruct (Z.eqb_spec n 0); lia).
    rewrite Hstart by done. destruct (block_count_step pos n Hp Hn0) as [Hbc Hnext].
    destruct (chunk_size_spec pos n Hp Hn) as (Hc1 & Hc2 & Hc3 & Hc4 & _). specialize (Hc3 Hn0).
    cbn [ReeFs.read_loop]. change BLOCK_SIZE with 4096. set (k := chunk_size pos n) in *. clearbody k.
    rewrite (u64_small (pos / 4096)) by cint.
    destruct (bf_holds _ _ _ _ Hbf (pos / 4096)) as (blk & -> & Hbl & Hby);
      [Z.div_mod_to_equations; lia|Z.div_mod_to_equations; lia|].
    rewrite (u64_small (pos + k)), (u64_small (n - k)) by cint.
    assert (Hk : take (Z.to_nat k) (drop (Z.to_nat (pos mod 4096)) blk) = take (Z.to_nat k) (drop (Z.to_nat pos) c)).
    { pose proof (Z.mod_pos_bound pos 4096 ltac:(lia)) as Hmb. apply byte_ext.
      - rewrite !len_take; rewrite ?len_drop; lia.
      - intros i Hi. rewrite len_take in Hi by (rewrite len_drop; lia).
        rewrite !byte_take, !byte_drop by lia. rewrite Hby by (Z.div_mod_to_equations; lia). f_equal.
        pose proof (Z.div_mod pos 4096 ltac:(lia)). lia. }
    rewrite (IH m ht w c _ (pos + k) (n - k)); [|done|lia|lia|lia|lia|lia|lia]. rewrite <- app_assoc, Hk.
    do 5 f_equal. replace (Z.to_nat (pos + k)) with (Z.to_nat pos + Z.to_nat k)%nat by lia.
    rewrite <- drop_drop, take_take_drop. f_equal. lia.
Qed.

Lemma read_file_ok m ht w c pos n :
  open_file m ht w c -> len c <= 2147483648 -> is_u64 pos -> is_u64 n ->
  read_file (Some ht) pos n w =
  (Return (Some ht, TEE_SUCCESS, Some (if pos + n <=? UINT64_MAX then take (Z.to_nat n) (drop (Z.to_nat pos) c) else [])), w).
Proof.
  intros [Hbf HL] Hbd Hp Hn. pose proof Hbf as [_ _ He _ _]. pose proof (len_nonneg c).
  unfold ree_fs_read_primitive. rewrite HL.
  assert (Hclip : clip_len (len c) pos n = if pos + n <=? UINT64_MAX then Z.max 0 (Z.min n (len c - pos)) else 0).
  { unfold clip_len. rewrite !Z.gtb_ltb. destruct (Z.leb_spec (pos + n) UINT64_MAX).
    - rewrite (u64_small (pos + n)) by cint. destruct (Z.ltb_spec (pos + n) n); [cint|].
      destruct (Z.ltb_spec (len c) pos); cbn [orb]; [lia|]. destruct (Z.ltb_spec (len c) (pos + n)); cint.
    - replace (u64 (pos + n) <? n) with true; [done|]. symmetry. apply Z.ltb_lt. cint. }
  rewrite Hclip. set (r := if pos + n <=? UINT64_MAX then Z.max 0 (Z.min n (len c - pos)) else 0).
  assert (Hdata : (if pos + n <=? UINT64_MAX then take (Z.to_nat n) (drop (Z.to_nat pos) c) else []) =
    take (Z.to_nat r) (drop (Z.to_nat pos) c)).
  { unfold r. destruct (Z.leb_spec (pos + n) UINT64_MAX); [|done]. unfold is_u64, len in *.
    destruct (Z.le_gt_cases n (Z.of_nat (length c) - pos)); [f_equal; lia|].
    rewrite !take_ge; [done| |]; rewrite length_drop; lia. }
  rewrite Hdata. destruct (Z.eqb_spec r 0) as [->|Hr]; [done|].
  assert (0 < r /\ pos + r <= len c) as [Hr0 Hrl].
  { unfold r in *. destruct (Z.leb_spec (pos + n) UINT64_MAX); [|lia]. unfold is_u64 in *. lia. }
  clearbody r. rewrite ext_nil by done. cbv beta iota. unfold is_u64 in *.
  rewrite (u64_small (pos + r - 1)) by cint. rewrite !pos_to_block_num_small by lia.
  rewrite (read_loop_ok _ m ht w c); try done; try lia.
  unfold block_count. destruct (Z.eqb_spec r 0); [lia|]. Z.div_mod_to_equations; lia.
Qed.

(** ** Changing the length *)

Definition zeros (n : Z) : list Z := replicate (Z.to_nat n) 0.

Lemma len_zeros n : 0 <= n -> len (zeros n) = n.
Proof. intros Hn. unfold len, zeros. rewrite length_replicate. lia. Qed.

Lemma splice_end data c : splice (len c) data c = c ++ data.
Proof.
  unfold splice, len. rewrite Nat2Z.id. rewrite take_ge, drop_ge by lia. by rewrite app_nil_r.
Qed.

Lemma grow_ok m ht w c n :
  open_file m ht w c -> len c < n <= 2147483648 ->
  exists ht' w' m', ftruncate (Some ht) n w = (Return (Some ht', TEE_SUCCESS, Some tt), w') /\
    open_file m' ht' w' (c ++ zeros (n - len c)) /\ ht_dirty ht' = true /\ sessions_go_on w m ht w' m' ht'.
Proof.
  intros Hof Hn. pose proof Hof as [_ HL]. pose proof (len_nonneg c). unfold ree_fs_ftruncate_internal. rewrite HL.
  rewrite Z.gtb_ltb. destruct (Z.ltb_spec (len c) n); [|lia]. rewrite u64_small by cint.
  pose proof (len_zeros (n - len c) ltac:(lia)) as Hz.
  destruct (out_of_place_write_ok m ht w c (len c) (zeros (n - len c)) None Hof) as (ht' & w' & m' & Hw & Hrest);
    [lia|lia|lia|right; unfold zeros; by rewrite length_replicate|].
  rewrite Hz in Hw. rewrite splice_end in Hrest. by exists ht', w', m'.
Qed.

(** The cut keeps the blocks that are still used. *)
Lemma cut_keeps_blocks n b v st :
  0 <= n < 2 ^ 40 -> 0 <= b -> b * 4096 < n -> v = 0 \/ v = 1 ->
  exists offs sz, get_offs_size TEE_FS_HTREE_TYPE_BLOCK (ROUNDUP n BLOCK_SIZE / BLOCK_SIZE) 1 = Return (offs, sz) /\
    st_block (cut_storage (u64 (offs + sz)) st) !! (b, v) = st_block st !! (b, v).
Proof.
  intros Hn Hb Hlt Hv. assert (2 ^ 40 = 1099511627776) as E by reflexivity.
  rewrite roundup_block by (assert (2 ^ 63 = 9223372036854775808) by reflexivity; lia).
  change BLOCK_SIZE with 4096. rewrite Z.div_mul by lia. set (q := (n + 4095) / 4096).
  assert (Hq : 0 <= q < 2 ^ 30 /\ b < q).
  { assert (2 ^ 30 = 1073741824) by reflexivity. unfold q. Z.div_mod_to_equations; lia. }
  clearbody q. assert (2 ^ 30 = 1073741824) as E30 by reflexivity. assert (2 ^ 48 = 281474976710656) as E48 by reflexivity.
  destruct (slot_offs_place (SBlock q 1)) as (Hs & Hpb & _); [cbn; lia|].
  change (slot_offs_size (SBlock q 1)) with (get_offs_size TEE_FS_HTREE_TYPE_BLOCK q 1) in Hs. rewrite Hs.
  eexists _, _. split; [done|]. rewrite u64_small by (assert (2 ^ 50 = 1125899906842624) by reflexivity; cint).
  cbn [cut_storage st_block]. destruct (st_block st !! (b, v)) as [x|] eqn:Hx.
  - apply map_lookup_filter_Some. split; [done|]. unfold slot_within. cbn [fst snd].
    destruct (slot_offs_place (SBlock b v)) as (-> & _); [cbn; lia|]. apply Z.leb_le. Z.div_mod_to_equations; lia.
  - apply map_lookup_filter_None. by left.
Qed.

Lemma block_vers_cases ni : block_vers ni = 0 \/ block_vers ni = 1.
Proof. unfold block_vers, b2z. destruct (has_flag _ _); auto. Qed.

Lemma shrink_ok m ht w c n :
  open_file m ht w c -> 0 <= n <= len c -> len c <= 2147483648 ->
  exists ht' w' m', ftruncate (Some ht) n w = (Return (Some ht', TEE_SUCCESS, Some tt), w') /\
    open_file m' ht' w' (take (Z.to_nat n) c) /\ ht_dirty ht' = true.
Proof.
  intros [[Hsh Hm He Hbl Hh] HL] Hn Hc. unfold ree_fs_ftruncate_internal. rewrite HL.
  rewrite Z.gtb_ltb. destruct (Z.ltb_spec (len c) n); [lia|]. pose proof Hsh as [Hs1 Hs2].
  destruct (truncate_ok ht m (n / 4096)) as (ht1 & Ht & Hsh1 & Hmx & Hl1 & Hh1 & Hf1 & Hv1);
    [done|done|unfold UINT_MAX; lia|Z.div_mod_to_equations; lia|].
  change (n / BLOCK_SIZE) with (n / 4096). rewrite Ht.
  assert (E40 : 2 ^ 40 = 1099511627776) by reflexivity.
  destruct (get_offs_size TEE_FS_HTREE_TYPE_BLOCK (ROUNDUP n BLOCK_SIZE / BLOCK_SIZE) 1) as [[offs sz]|] eqn:Hos; [|unfold get_offs_size in Hos; discriminate Hos].
  rewrite ext_nil by done. set (w' := mk_world _ _ _).
  assert (Hsh' : ht_shape (Z.min m (n / 4096 + 1)) ht1) by (split; [done|lia]).
  exists (with_length n ht1), w', (Z.min m (n / 4096 + 1)). split; [done|]. split; [|done].
  pose proof (len_take n c Hn) as Hlt. split; [|cbn; lia]. constructor; [by apply with_length_shape|lia|done|Z.div_mod_to_equations; lia|].
  apply (with_length_holds (Z.min m (n / 4096 + 1))); [done|lia|done|Z.div_mod_to_equations; lia|].
  intros b Hb Hbn. rewrite Hlt in Hbn. destruct (Hh b Hb ltac:(lia)) as (blk & Hr & Hlb & Hby). exists blk. split; [|split; [done|]].
  - eapply (read_block_stable ht1 b w' TEE_SUCCESS); [|eauto|done|unfold UINT_MAX; lia|done].
    assert (Hr' : code_and_value (read_block (Some ht) b w) = Return (TEE_SUCCESS, Some blk)) by (by rewrite Hr).
    rewrite <- Hr'. rewrite (read_block_ok BLOCK_BYTES _ ht1) by (unfold UINT_MAX; done || lia).
    rewrite (read_block_ok BLOCK_BYTES m) by (unfold UINT_MAX; done || lia).
    rewrite Hv1, decide_False by (Z.div_mod_to_equations; lia). rewrite Hh1, Hf1. unfold code_and_value. cbn [fst].
    destruct (view (ht_root ht) !! (b + 1)) as [[[d u] ni]|]; [|done].
    destruct (cut_keeps_blocks n b (block_vers ni) (w_store w)) as (o & s & Hos' & Hst);
      [lia|lia|lia|apply block_vers_cases|].
    rewrite Hos in Hos'. injection Hos' as <- <-. cbn [w_store w']. rewrite Hst.
    destruct (st_block (w_store w) !! (b, block_vers ni)) as [x|]; [|done].
    destruct (bool_decide (length x = BLOCK_BYTES)); [|done].
    destruct (gcm_dec _ _ _ _ _) as [plain|]; [|done]. by destruct (bool_decide _).
  - intros i Hi Hil. rewrite byte_take by lia. apply Hby; lia.
Qed.

(** ** Writing at any position *)

Definition overwrite (c : list Z) (pos : Z) (data : list Z) : list Z :=
  if len data =? 0 then c else splice pos data (c ++ zeros (pos - len c)).

Lemma write_file_ok m ht w c pos data :
  open_file m ht w c -> 0 <= pos -> pos + len data <= 2147483648 ->
  exists ht' w' m', write_file (Some ht) pos data w = (Return (Some ht', TEE_SUCCESS, Some tt), w') /\
    open_file m' ht' w' (overwrite c pos data) /\ (0 < len data -> ht_dirty ht' = true) /\ sessions_go_on w m ht w' m' ht'.
Proof.
  intros Hof Hp Hend. pose proof (len_nonneg data). unfold ree_fs_write_primitive, overwrite. fold (len data).
  destruct (Z.eqb_spec (len data) 0).
  { exists ht, w, m. split; [done|]. split; [done|]. split; [lia|by intros ???]. }
  pose proof Hof as [_ HL]. rewrite HL. rewrite u64_small by cint.
  destruct (Z.ltb_spec (pos + len data) (len data)); [lia|]. destruct (Z.ltb_spec (len c) pos) as [Hlt|Hge].
  - destruct (grow_ok m ht w c pos Hof ltac:(lia)) as (ht1 & w1 & m1 & -> & Hof1 & _ & Hs1).
    set (c1 := c ++ zeros (pos - len c)) in *.
    assert (Hl1 : len c1 = pos).
    { unfold c1, len. rewrite length_app. fold (len c). pose proof (len_zeros (pos - len c) ltac:(lia)). unfold len in *. lia. }
    destruct (out_of_place_write_ok m1 ht1 w1 c1 pos data (Some data) Hof1) as (ht' & w' & m' & -> & Hof' & Hd & Hs);
      [lia|lia|lia|by left|].
    exists ht', w', m'. split; [done|]. split; [done|]. split; [done|]. intros st0 m0 ht0 Hx. by apply Hs, Hs1.
  - destruct (out_of_place_write_ok m ht w c pos data (Some data) Hof) as (ht' & w' & m' & -> & Hof' & Hd & Hs);
      [lia|lia|lia|by left|].
    exists ht', w', m'. unfold zeros. replace (Z.to_nat (pos - len c)) with 0%nat by lia. simpl. rewrite app_nil_r. done.
Qed.

(** ** Properties of files *)

(** A sync leaves the contents as they are. *)
Lemma synced_holds sha256 m mo ht ht' w st r c :
  ht_shape m ht -> ht_shape m ht' -> m <= 524288 -> w_ext w = [] -> len c <= m * 4096 ->
  ht_root ht' = synced sha256 mo (ht_root ht) -> ht_fek ht' = ht_fek ht ->
  hd_enc_fek (ht_head ht') = hd_enc_fek (ht_head ht) -> st_block st = st_block (w_store w) ->
  holds ht w c -> holds ht' (fresh_world st r) c.
Proof.
  intros Hsh Hsh' Hm He Hlc Hroot Hfek Hef Hst Hh b Hb Hlt. destruct (Hh b Hb Hlt) as (blk & Hr & Hl & Hby).
  exists blk. split; [|done].
  eapply (read_block_stable ht' b _ TEE_SUCCESS); [|eauto|done|unfold UINT_MAX; lia|done].
  assert (Hr' : code_and_value (read_block (Some ht) b w) = Return (TEE_SUCCESS, Some blk)) by (by rewrite Hr).
  rewrite <- Hr'. rewrite !(read_block_ok BLOCK_BYTES m) by (unfold UINT_MAX; done || lia).
  pose proof (view_synced_block sha256 mo (ht_root ht) (b + 1)) as Hv. rewrite <- Hroot in Hv.
  unfold code_and_value. cbn [fst fresh_world w_store].
  destruct (view (ht_root ht') !! (b + 1)) as [[[d u] ni]|], (view (ht_root ht) !! (b + 1)) as [[[d' u'] ni']|];
    cbn in Hv; try done. injection Hv as Hiv Htag Hvers. rewrite Hiv, Htag, Hvers, Hfek, Hef, Hst.
  destruct (st_block (w_store w) !! (b, block_vers ni')) as [x|]; [|done]. destruct (bool_decide (length x = BLOCK_BYTES)); [|done].
  destruct (gcm_dec _ _ _ _ _) as [plain|]; [|done]. by destruct (bool_decide _).
Qed.

Definition reads_as (ht : tee_fs_htree) (w : world) (c : list Z) : Prop :=
  forall p n, is_u64 p -> is_u64 n -> read_file (Some ht) p n w =
    (Return (Some ht, TEE_SUCCESS, Some (if p + n <=? UINT64_MAX then take (Z.to_nat n) (drop (Z.to_nat p) c) else [])), w).

Lemma open_reads_as m ht w c : open_file m ht w c -> reads_as ht w c.
Proof.
  intros Hof p n Hp Hn. eapply read_file_ok; [exact Hof| |done|done]. destruct Hof as [[_ Hm _ Hbl _] _]. lia.
Qed.

(** C9. Contents: below 2 GiB, writing to an open file at any position (beyond
    the end too, the gap filled with zeros) changes its bytes as it changes an array
    of bytes, and every read, at any position and of any length, returns the
    array's bytes from there, up to the end of the file. *)
Theorem ree_fs_write_contents m ht w c pos data :
  open_file m ht w c -> 0 <= pos -> pos + len data <= 2147483648 ->
  reads_as ht w c /\
  exists ht' w' m', write_file (Some ht) pos data w = (Return (Some ht', TEE_SUCCESS, Some tt), w') /\
    open_file m' ht' w' (overwrite c pos data) /\ reads_as ht' w' (overwrite c pos data).
Proof.
  intros Hof Hp Hend. split; [by eapply open_reads_as|].
  destruct (write_file_ok m ht w c pos data Hof Hp Hend) as (ht' & w' & m' & Hw & Hof' & _).
  exists ht', w', m'. split; [done|]. split; [done|]. by eapply open_reads_as.
Qed.

(** Length: setting the length of an open file cuts its contents or extends
    them with zeros, and the file, with the storage cut to the new size, reads so. *)
Theorem ree_fs_truncate_contents m ht w c n :
  open_file m ht w c -> 0 <= n <= 2147483648 ->
  exists ht' w' m', ftruncate (Some ht) n w = (Return (Some ht', TEE_SUCCESS, Some tt), w') /\
    open_file m' ht' w' (take (Z.to_nat n) (c ++ zeros (n - len c))) /\
    reads_as ht' w' (take (Z.to_nat n) (c ++ zeros (n - len c))).
Proof.
  intros Hof Hn. assert (Hc : len c <= 2147483648) by (destruct Hof as [[_ Hm _ Hbl _] _]; lia).
  assert (Hgoal : exists ht' w' m', ftruncate (Some ht) n w = (Return (Some ht', TEE_SUCCESS, Some tt), w') /\
    open_file m' ht' w' (take (Z.to_nat n) (c ++ zeros (n - len c)))).
  { destruct (Z.lt_ge_cases (len c) n) as [Hlt|Hge].
    - destruct (grow_ok m ht w c n Hof ltac:(lia)) as (ht' & w' & m' & Hw & Hof' & _). exists ht', w', m'.
      split; [done|]. pose proof (len_zeros (n - len c) ltac:(lia)) as Hz.
      rewrite take_ge; [done|]. rewrite length_app. unfold len in *. lia.
    - destruct (shrink_ok m ht w c n Hof ltac:(lia) Hc) as (ht' & w' & m' & Hw & Hof' & _). exists ht', w', m'.
      split; [done|]. rewrite take_app_le by (unfold len in *; lia). done. }
  destruct Hgoal as (ht' & w' & m' & Hw & Hof'). exists ht', w', m'. split; [done|]. split; [done|]. by eapply open_reads_as.
Qed.

(** A flaw: when a call to storage fails with a code [e], the read reports
    [e] and closes the tree, but the handle stays open, and the next read or write
    through it follows the pointer to the closed tree. *)
Theorem failed_read_breaks_handle m ht w c n e data :
  open_file m ht w c -> 0 < n <= len c -> e ≠ TEE_SUCCESS -> 0 < len data ->
  exists w', read_file (Some ht) 0 n (mk_world (w_store w) [TEE_SUCCESS; e] (w_rng w)) = (Return (None, e, None), w') /\
    fst (read_file None 0 n w') = Panic /\ fst (write_file None 0 data w') = Panic.
Proof.
  intros [[Hsh Hm He Hbl _] HL] Hn Hne Hd. eexists. split; [|split; [reflexivity|]].
  2: { unfold ree_fs_write_primitive. fold (len data). destruct (Z.eqb_spec (len data) 0); [lia|done]. }
  assert (Hc : len c <= 2147483648) by lia. unfold ree_fs_read_primitive. rewrite HL.
  replace (clip_len (len c) 0 n) with n.
  2: { unfold clip_len. rewrite !Z.gtb_ltb, (u64_small (0 + n)) by cint.
       destruct (Z.ltb_spec (0 + n) n), (Z.ltb_spec (len c) 0), (Z.ltb_spec (len c) (0 + n)); cbn [orb]; lia. }
  destruct (Z.eqb_spec n 0); [lia|]. unfold ext at 1. cbn [w_ext]. rewrite Z.eqb_refl.
  rewrite (u64_small (0 + n - 1)) by cint. rewrite !pos_to_block_num_small by lia.
  destruct (Z.to_nat ((0 + n - 1) / 4096 - 0 / 4096 + 1)) as [|k] eqn:Hk; [Z.div_mod_to_equations; lia|].
  cbn [ReeFs.read_loop]. change (u64 (0 / 4096)) with 0. pose proof Hsh as [Hs1 Hs2]. pose proof Hs1 as (Hm1 & _).
  unfold tee_fs_htree_read_block, close_on_error, read_block_body. unfold bind at 1, get_block_node.
  unfold BLOCK_NUM_TO_NODE_ID, get_node, bind at 1 2 3, of_outcome. rewrite !find_closest_ok by (unfold UINT_MAX; lia).
  destruct (shape_lookup m _ (0 + 1) Hs1 ltac:(lia)) as (d & u & ni & c0 & c1 & Hv & Hwd). unfold ret. rewrite !Hwd.
  cbn [node_id_of]. rewrite Z.eqb_refl. cbv beta iota. rewrite find_closest_ok by (unfold UINT_MAX; lia). rewrite Hwd. cbv beta iota zeta.
  unfold bind, ext. cbn [w_ext]. destruct (Z.eqb_spec e TEE_SUCCESS); [done|]. reflexivity.
Qed.
Context (sha256 : list Z -> list Z).
Notation sync := (tee_fs_htree_sync_to_storage sha256 gcm_enc rng).
Notation open_tree := (tee_fs_htree_open sha256 gcm_enc gcm_dec fek_encrypt fek_decrypt rng).

(** C37. Durability of contents: on a committed file with contents [c], a write
    of data and the sync that follows commit: opening the file afterwards, in
    whatever state the rest of the system is, gives a file that reads as [c] with
    the data written over it. *)
Theorem ree_fs_write_durable st0 m0 ht0 r c pos data r1 r2 :
  committed sha256 (gcm_dec := gcm_dec) (fek_decrypt := fek_decrypt) st0 m0 ht0 ->
  0 <= counter_of ht0 < UINT32_MAX -> open_file m0 ht0 (fresh_world st0 r) c ->
  0 <= pos -> 0 < len data -> pos + len data <= 2147483648 ->
  exists ht1 w1 ht2 w2,
    write_file (Some ht0) pos data (fresh_world st0 r) = (Return (Some ht1, TEE_SUCCESS, Some tt), w1) /\
    sync (Some ht1) (fresh_world (w_store w1) r1) = (Return (Some ht2, TEE_SUCCESS, Some (hash_of (ht_root ht2))), w2) /\
    open_tree false None (fresh_world (w_store w2) r2) = (Return (Some ht2, TEE_SUCCESS), fresh_world (w_store w2) r2) /\
    reads_as ht2 (fresh_world (w_store w2) r2) (overwrite c pos data).
Proof.
  intros Hcm Hcnt Hof Hp Hn Hend.
  destruct (write_file_ok m0 ht0 (fresh_world st0 r) c pos data Hof Hp Hend) as (ht1 & w1 & m1 & Hw & Hof1 & Hd & Hs).
  assert (Hses : session st0 m0 ht0 (w_store w1) m1 ht1) by (apply Hs, ses_start).
  destruct (session_inv sha256 rng st0 m0 ht0 (w_store w1) m1 ht1 Hcm Hcnt Hses) as (Hwk & _ & Hct & _).
  destruct (sync_commits sha256 rng m1 ht1 (fresh_world (w_store w1) r1) Hwk (Hd Hn) eq_refl) as
    (ht2 & w2 & Hsy & Hcm2 & Him & _ & Hbl & Hroot & Hfek & Hef).
  exists ht1, w1, ht2, w2. split; [done|]. split; [done|]. split; [by apply (open_committed sha256 rng m1)|].
  apply (open_reads_as m1). destruct Hof1 as [[Hsh Hm He Hblk Hh] HL].
  split; [|unfold tee_fs_htree_get_meta in *; congruence]. constructor; try done; [apply Hcm2|].
  eapply (synced_holds sha256 m1 _ ht1 ht2 w1); eauto. apply Hcm2.
Qed.

End contents.

(** ** The created file of [HtreeCreate] *)

Notation demo_write_file := (ree_fs_write_primitive demo_enc demo_dec demo_rng).
Notation demo_read_file := (ree_fs_read_primitive demo_dec).

Lemma demo_open_file r : open_file (gcm_dec := demo_dec) 1 demo_ht (fresh_world (w_store demo_w) r) [].
Proof.
  split; [|reflexivity]. constructor; [apply (cm_shape _ _ _ _ (proj1 demo_committed))|lia|done|by vm_compute|].
  intros b Hb Hlt. change (len []) with 0 in Hlt. lia.
Qed.

Lemma ree_fs_write_contents_witness :
  exists ht' w', demo_write_file (Some demo_ht) 5000 [1; 2; 3] (fresh_world (w_store demo_w) 9) =
      (Return (Some ht', TEE_SUCCESS, Some tt), w') /\
    demo_read_file (Some ht') 4998 100 w' = (Return (Some ht', TEE_SUCCESS, Some [0; 0; 1; 2; 3]), w').
Proof.
  destruct (ree_fs_write_contents demo_rng 1 demo_ht (fresh_world (w_store demo_w) 9) [] 5000 [1; 2; 3]) as
    (_ & ht' & w' & m' & Hw & _ & Hr); [apply demo_open_file|lia|by vm_compute|].
  assert (Hc : (if 4998 + 100 <=? UINT64_MAX then take (Z.to_nat 100) (drop (Z.to_nat 4998) (overwrite [] 5000 [1; 2; 3])) else [])
    = [0; 0; 1; 2; 3]) by (vm_compute; reflexivity).
  exists ht', w'. split; [exact Hw|]. rewrite Hr by (unfold is_u64; lia). rewrite Hc. reflexivity.
Defined.

Lemma ree_fs_truncate_contents_witness :
  exists ht' w' m', ree_fs_ftruncate_internal demo_enc demo_dec demo_rng (Some demo_ht) 3 (fresh_world (w_store demo_w) 9) =
      (Return (Some ht', TEE_SUCCESS, Some tt), w') /\ open_file (gcm_dec := demo_dec) m' ht' w' [0; 0; 0].
Proof.
  destruct (ree_fs_truncate_contents demo_rng 1 demo_ht (fresh_world (w_store demo_w) 9) [] 3) as
    (ht' & w' & m' & Hw & Hof & _); [apply demo_open_file|lia|].
  exists ht', w', m'. split; [exact Hw|exact Hof].
Defined.

Lemma ree_fs_write_durable_witness :
  exists ht1 w1 ht2 w2,
    demo_write_file (Some demo_ht) 0 [4; 5] (fresh_world (w_store demo_w) 9) = (Return (Some ht1, TEE_SUCCESS, Some tt), w1) /\
    demo_sync (Some ht1) (fresh_world (w_store w1) 20) = (Return (Some ht2, TEE_SUCCESS, Some (hash_of (ht_root ht2))), w2) /\
    demo_read_file (Some ht2) 0 10 (fresh_world (w_store w2) 30) =
      (Return (Some ht2, TEE_SUCCESS, Some [4; 5]), fresh_world (w_store w2) 30).
Proof.
  destruct (ree_fs_write_durable demo_rng demo_sha (w_store demo_w) 1 demo_ht 9 [] 0 [4; 5] 20 30) as
    (ht1 & w1 & ht2 & w2 & H1 & H2 & _ & H3);
    [apply demo_committed|vm_compute; done|apply demo_open_file|lia|by vm_compute|by vm_compute|].
  exists ht1, w1, ht2, w2. split; [exact H1|]. split; [exact H2|]. rewrite H3 by (unfold is_u64; lia). reflexivity.
Defined.

Lemma failed_read_breaks_handle_witness :
  exists ht w w', demo_read_file (Some ht) 0 1 w = (Return (None, TEE_ERROR_GENERIC, None), w') /\
    fst (demo_read_file None 0 1 w') = Panic.
Proof.
  destruct (write_file_ok demo_rng 1 demo_ht (fresh_world (w_store demo_w) 9) [] 0 [7] (demo_open_file 9)) as
    (ht & w & m & _ & Hof & _); [lia|by vm_compute|].
  destruct (failed_read_breaks_handle (gcm_enc := demo_enc) (gcm_dec := demo_dec) demo_rng m ht w [7] 1 TEE_ERROR_GENERIC [1]) as (w' & H1 & H2 & _);
    [exact Hof|by vm_compute|done|by vm_compute|]. eexists _, _, w'. split; [exact H1|exact H2].
Defined.
