(* ===== verification/Dirfile.v ===== *)
(** * Directory of secure storage: [core/tee/fs_dirfile.c]

    One file lists the objects: fixed-size entries that give for the UUID of a TA
    and an object identifier the number and the root hash of the file with the
    object. A bitmap in memory says which file numbers are taken.

    The directory reads and writes its file through a table of functions,
    [tee_fs_dirfile_operations]; they are arguments of the operations here, and
    the class [ByteFile] states what they promise. *)

From stdpp Require Import base gmap list.
From Stdlib Require Import ZArith Lia.
From S2P Require Import Prelude Htree HtreeSync ReeFsFile.

Local Open Scope Z_scope.

(** ** Data *)

Definition TEE_OBJECT_ID_MAX_LEN : nat := 64.

Record dirfile_entry := mk_dirent {
  de_uuid : list Z;
  de_oid : list Z;
  de_oidlen : Z;
  de_hash : list Z;
  de_file_number : Z
}.

Definition dirent_size : Z := 120.

(** The structure in memory: no padding. *)
Definition dirent_bytes (d : dirfile_entry) : list Z :=
  de_uuid d ++ de_oid d ++ le_bytes 4 (de_oidlen d) ++ de_hash d ++ le_bytes 4 (de_file_number d).

Definition dirent_of_bytes (l : list Z) : dirfile_entry :=
  mk_dirent (take 16 l) (take 64 (drop 16 l)) (le_val (take 4 (drop 80 l))) (take 32 (drop 84 l)) (le_val (take 4 (drop 116 l))).

Definition zero_dirent : dirfile_entry := mk_dirent (replicate 16 0) (replicate 64 0) 0 (replicate 32 0) 0.

(** [struct tee_fs_dirfile_fileh] *)
Record tee_fs_dirfile_fileh := mk_fileh {
  dfh_file_number : Z;
  dfh_hash : list Z;
  dfh_idx : Z
}.

(** [struct tee_fs_dirfile_dirh]: the bits of [files] ([nbits] is their number)
    and [ndents]. *)
Record tee_fs_dirfile_dirh := mk_dirh {
  dh_files : list bool;
  dh_ndents : Z
}.

(** ** Effects *)

(** [Fuel]: a loop was given too few rounds. *)
Inductive dresult (A : Type) := DOk (a : A) | DErr (code : Z) | DPanic | Fuel.
Arguments DOk {A} a.
Arguments DErr {A} code.
Arguments DPanic {A}.
Arguments Fuel {A}.

(** Functions the directory calls on its file, with a state of their own, and
    [realloc]; each can fail. *)
Record tee_fs_dirfile_operations (F : Type) := mk_fops {
  fop_open : bool -> F -> dresult unit * F;
  fop_read : Z -> Z -> F -> dresult (list Z) * F;
  fop_write : Z -> list Z -> F -> dresult unit * F;
  fop_realloc : F -> bool * F
}.
Arguments fop_open {F}.
Arguments fop_read {F}.
Arguments fop_write {F}.
Arguments fop_realloc {F}.

Section dirfile.
Context {F : Type} (fops : tee_fs_dirfile_operations F).

Definition dstate : Type := tee_fs_dirfile_dirh * F.
Definition DM (A : Type) : Type := dstate -> dresult A * dstate.

Definition dret {A} (a : A) : DM A := fun s => (DOk a, s).
Definition derr {A} (c : Z) : DM A := fun s => (DErr c, s).
Definition dpanic {A} : DM A := fun s => (DPanic, s).
Definition dbind {A B} (m : DM A) (k : A -> DM B) : DM B := fun s =>
  match m s with
  | (DOk a, s) => k a s
  | (DErr c, s) => (DErr c, s)
  | (DPanic, s) => (DPanic, s)
  | (Fuel, s) => (Fuel, s)
  end.
(** [res = m; if (res == ...) ...]: the code is looked at. *)
Definition dcatch {A B} (m : DM A) (k : A -> DM B) (h : Z -> DM B) : DM B := fun s =>
  match m s with
  | (DOk a, s) => k a s
  | (DErr c, s) => h c s
  | (DPanic, s) => (DPanic, s)
  | (Fuel, s) => (Fuel, s)
  end.
Definition the_dirh : DM tee_fs_dirfile_dirh := fun s => (DOk (fst s), s).
Definition set_dirh (d : tee_fs_dirfile_dirh) : DM unit := fun s => (DOk tt, (d, snd s)).
Definition lift {A} (f : F -> dresult A * F) : DM A := fun s => let '(r, x) := f (snd s) in (r, (fst s, x)).
Definition dassert (b : bool) : DM unit := if b then dret tt else dpanic.

Notation "'let*' x ':=' m 'in' k" := (dbind m (fun x => k)) (at level 200, x pattern, m at level 100, k at level 200).
Notation "m ';*' k" := (dbind m (fun _ => k)) (at level 100, right associativity).

(** ** The bitmap *)

Definition nbits (d : tee_fs_dirfile_dirh) : Z := Z.of_nat (length (dh_files d)).
Definition set_files (l : list bool) (d : tee_fs_dirfile_dirh) : tee_fs_dirfile_dirh := mk_dirh l (dh_ndents d).

Definition maybe_grow_files (idx : Z) : DM unit :=
  let* dirh := the_dirh in
  if idx <? nbits dirh then dret tt
  else
    let* ok := lift (fun x => let '(b, x) := fop_realloc fops x in (DOk b, x)) in
    if negb ok then derr TEE_ERROR_OUT_OF_MEMORY
    else set_dirh (set_files (dh_files dirh ++ replicate (Z.to_nat (idx + 1 - nbits dirh)) false) dirh).

(** An index below 0 is outside the bitmap. *)
Definition bit_set (idx : Z) : DM unit :=
  let* dirh := the_dirh in
  if idx <? 0 then dpanic else set_dirh (set_files (<[Z.to_nat idx := true]> (dh_files dirh)) dirh).
Definition bit_clear (idx : Z) : DM unit :=
  let* dirh := the_dirh in
  if idx <? 0 then dpanic else set_dirh (set_files (<[Z.to_nat idx := false]> (dh_files dirh)) dirh).

Definition set_file (idx : Z) : DM unit := maybe_grow_files idx ;* bit_set idx.

Definition clear_file (idx : Z) : DM unit :=
  let* dirh := the_dirh in
  if idx <? nbits dirh then bit_clear idx else dret tt.

Definition test_file (idx : Z) : DM bool :=
  let* dirh := the_dirh in
  if idx <? nbits dirh then
    if idx <? 0 then dpanic else dret (default false (dh_files dirh !! Z.to_nat idx))
  else dret false.

(** First clear bit, or -1. *)
Fixpoint ffc (l : list bool) (i : Z) : Z :=
  match l with
  | [] => -1
  | b :: l => if b then ffc l (i + 1) else i
  end.

(** ** Entries *)

Definition read_dent (idx : Z) : DM dirfile_entry :=
  let* l := lift (fop_read fops (u64 (dirent_size * idx)) dirent_size) in
  if negb (Z.of_nat (length l) =? dirent_size) then derr TEE_ERROR_ITEM_NOT_FOUND
  else dret (dirent_of_bytes l).

Definition write_dent (n : Z) (d : dirfile_entry) : DM unit :=
  lift (fop_write fops (u64 (dirent_size * n)) (dirent_bytes d)) ;*
  let* dirh := the_dirh in
  if n >=? dh_ndents dirh then set_dirh (mk_dirh (dh_files dirh) (n + 1)) else dret tt.

(** ** Operations *)

(** The loop of [tee_fs_dirfile_open], from entry [n] on; the value is the final
    [n]. File numbers are converted to [int]. *)
Fixpoint open_loop (fuel : nat) (n : Z) : DM Z :=
  match fuel with
  | O => fun s => (Fuel, s)
  | S fuel =>
      dcatch (read_dent n)
        (fun dent =>
           if de_oidlen dent =? 0 then open_loop fuel (n + 1)
           else
             let* dup := test_file (s32 (de_file_number dent)) in
             if dup : bool then write_dent n zero_dirent ;* open_loop fuel (n + 1)
             else set_file (s32 (de_file_number dent)) ;* open_loop fuel (n + 1))
        (fun res => if res =? TEE_ERROR_ITEM_NOT_FOUND then dret n else derr res)
  end.

Definition tee_fs_dirfile_open (fuel : nat) (create : bool) (x : F) : dresult tee_fs_dirfile_dirh * F :=
  let '(r, s) :=
    (lift (fop_open fops create) ;*
     let* n := open_loop fuel 0 in
     let* dirh := the_dirh in
     dret (mk_dirh (dh_files dirh) n)) (mk_dirh [] 0, x) in
  (r, snd s).

Definition tee_fs_dirfile_get_tmp : DM Z :=
  let* dirh := the_dirh in
  let i := if nbits dirh =? 0 then 0
           else let i := ffc (dh_files dirh) 0 in if i =? -1 then nbits dirh else i in
  set_file i ;* dret i.

(** The loop of [tee_fs_dirfile_find]; [oid] is the identifier, empty for the
    search of a free entry. *)
Fixpoint find_loop (fuel : nat) (n first_free : Z) (uuid oid : list Z) : DM (Z * dirfile_entry) :=
  let oidlen := Z.of_nat (length oid) in
  match fuel with
  | O => fun s => (Fuel, s)
  | S fuel =>
      dcatch (read_dent n)
        (fun dent =>
           let first_free := if (de_oidlen dent =? 0) && (first_free =? -1) then n else first_free in
           if negb (de_oidlen dent =? oidlen) then find_loop fuel (n + 1) first_free uuid oid
           else
             (if (oidlen =? 0) || (de_oidlen dent =? 0) then dret tt
              else let* b := test_file (s32 (de_file_number dent)) in dassert b) ;*
             if bool_decide (de_uuid dent = uuid) && bool_decide (take (length oid) (de_oid dent) = oid)
             then dret (n, dent)
             else find_loop fuel (n + 1) first_free uuid oid)
        (fun res =>
           if (res =? TEE_ERROR_ITEM_NOT_FOUND) && (oidlen =? 0)
           then dret (if negb (first_free =? -1) then first_free else n, zero_dirent)
           else derr res)
  end.

Definition tee_fs_dirfile_find (fuel : nat) (uuid oid : list Z) : DM tee_fs_dirfile_fileh :=
  let* (n, dent) := find_loop fuel 0 (-1) uuid oid in
  dret (mk_fileh (de_file_number dent) (de_hash dent) n).

(** The value is [dfh] with its index. *)
Definition tee_fs_dirfile_rename (fuel : nat) (uuid : list Z) (dfh : tee_fs_dirfile_fileh) (oid : list Z)
    : DM tee_fs_dirfile_fileh :=
  let oidlen := Z.of_nat (length oid) in
  if (oidlen =? 0) || (oidlen >? Z.of_nat TEE_OBJECT_ID_MAX_LEN) then derr TEE_ERROR_BAD_PARAMETERS
  else
    let dent := mk_dirent uuid (oid ++ replicate (TEE_OBJECT_ID_MAX_LEN - length oid) 0) oidlen
                          (dfh_hash dfh) (dfh_file_number dfh) in
    let* idx :=
      (if dfh_idx dfh <? 0 then
         dcatch (tee_fs_dirfile_find fuel uuid oid)
           (fun dfh2 => dret (dfh_idx dfh2))
           (fun res => if res =? TEE_ERROR_ITEM_NOT_FOUND
                       then let* dfh2 := tee_fs_dirfile_find fuel uuid [] in dret (dfh_idx dfh2)
                       else derr res)
       else dret (dfh_idx dfh)) in
    write_dent idx dent ;*
    dret (mk_fileh (dfh_file_number dfh) (dfh_hash dfh) idx).

Definition tee_fs_dirfile_remove (dfh : tee_fs_dirfile_fileh) : DM unit :=
  let* dent := read_dent (dfh_idx dfh) in
  if de_oidlen dent =? 0 then dret tt
  else
    let file_number := de_file_number dent in
    dassert (dfh_file_number dfh =? file_number) ;*
    let* b := test_file (s32 file_number) in
    dassert b ;*
    write_dent (dfh_idx dfh) zero_dirent ;*
    clear_file (s32 file_number).

Definition tee_fs_dirfile_update_hash (dfh : tee_fs_dirfile_fileh) : DM unit :=
  let* dent := read_dent (dfh_idx dfh) in
  dassert (de_file_number dent =? dfh_file_number dfh) ;*
  let* b := test_file (s32 (de_file_number dent)) in
  dassert b ;*
  write_dent (dfh_idx dfh)
    (mk_dirent (de_uuid dent) (de_oid dent) (de_oidlen dent) (dfh_hash dfh) (de_file_number dent)).

Fixpoint get_next_loop (fuel : nat) (i : Z) (uuid : list Z) : DM (Z * dirfile_entry) :=
  match fuel with
  | O => fun s => (Fuel, s)
  | S fuel =>
      let* dent := read_dent i in
      if bool_decide (de_uuid dent = uuid) && negb (de_oidlen dent =? 0) then dret (i, dent)
      else get_next_loop fuel (i + 1) uuid
  end.

(** The value: the identifier and [*idx]; [oidlen] is the room for it. *)
Definition tee_fs_dirfile_get_next (fuel : nat) (uuid : list Z) (idx oidlen : Z) : DM (list Z * Z) :=
  let i := if idx + 1 <? 0 then 0 else idx + 1 in
  let* (i, dent) := get_next_loop fuel i uuid in
  if oidlen <? de_oidlen dent then derr TEE_ERROR_SHORT_BUFFER
  else dret (take (Z.to_nat (de_oidlen dent)) (de_oid dent), i).
End dirfile.
