(* ===== verification/DirfileSpec.v ===== *)
(** * Directory of secure storage: theorems

    [ByteFile] is the contract between the directory and its file, met by the
    files of [ReeFsFile]. Against it the directory is a map from names to files: what
    a search finds, what registering, removing and reopening do, and that no two
    objects share a file. *)

From stdpp Require Import base gmap list.
From Stdlib Require Import ZArith Lia.
From S2P Require Import Prelude Htree HtreeShape HtreeSync HtreeCommit HtreeCreate ReeFs ReeFsFile Dirfile.

Local Open Scope Z_scope.

(** ** The contract *)

(** Codes of failed file operations; TEE_ERROR_ITEM_NOT_FOUND is the directory's
    own sign for the end of the file. *)
Definition io_error (e : Z) : Prop := e ≠ TEE_SUCCESS /\ e ≠ TEE_ERROR_ITEM_NOT_FOUND.

Definition MAX_FILE : Z := 2147483648.

Class ByteFile {F : Type} (fops : tee_fs_dirfile_operations F) (contents : F -> list Z -> Prop) : Prop := {
  file_read f c pos n :
    contents f c -> 0 <= pos -> 0 <= n -> pos + n <= MAX_FILE ->
    exists f', (fop_read fops pos n f = (DOk (take (Z.to_nat n) (drop (Z.to_nat pos) c)), f') /\ contents f' c) \/
               (exists e, fop_read fops pos n f = (DErr e, f') /\ io_error e);
  file_write f c pos data :
    contents f c -> 0 <= pos -> pos + len data <= MAX_FILE ->
    exists f', (fop_write fops pos data f = (DOk tt, f') /\ contents f' (overwrite c pos data)) \/
               (exists e, fop_write fops pos data f = (DErr e, f') /\ io_error e);
  file_realloc f c : contents f c -> contents (snd (fop_realloc fops f)) c
}.

(** ** Entries as bytes *)

Record entry_ok (d : dirfile_entry) : Prop := {
  eo_uuid : length (de_uuid d) = 16%nat;
  eo_oid : length (de_oid d) = 64%nat;
  eo_hash : length (de_hash d) = 32%nat;
  eo_oidlen : 0 <= de_oidlen d <= 64;
  eo_number : 0 <= de_file_number d < 2147483648;
  eo_free : de_oidlen d = 0 -> d = zero_dirent
}.

Lemma dirent_bytes_length d : entry_ok d -> length (dirent_bytes d) = 120%nat.
Proof. intros [H1 H2 H3 _ _ _]. unfold dirent_bytes. rewrite !length_app, !le_bytes_length. lia. Qed.

Lemma dirent_roundtrip d : entry_ok d -> dirent_of_bytes (dirent_bytes d) = d.
Proof.
  intros [H1 H2 H3 H4 H5 _]. unfold dirent_of_bytes, dirent_bytes. destruct d as [u o ol h n]. cbn [de_uuid de_oid de_oidlen de_hash de_file_number] in *.
  assert (Hd : forall k j (a b : list Z), length a = k -> drop (k + j) (a ++ b) = drop j b) by (intros k j a b <-; apply drop_app_add).
  assert (Ht : forall k (a b : list Z), length a = k -> take k (a ++ b) = a) by (intros k a b <-; apply take_app_length).
  pose proof (le_bytes_length 4 ol) as Hol.
  rewrite (Ht 16%nat u) by done.
  rewrite (Hd 16%nat 0%nat u), (Hd 16%nat 64%nat u), (Hd 16%nat 68%nat u), (Hd 16%nat 100%nat u) by done.
  rewrite drop_0, (Ht 64%nat o) by done. rewrite (Hd 64%nat 0%nat o), (Hd 64%nat 4%nat o), (Hd 64%nat 36%nat o) by done.
  rewrite drop_0, (Ht 4%nat (le_bytes 4 ol)) by done.
  rewrite (Hd 4%nat 0%nat (le_bytes 4 ol)), (Hd 4%nat 32%nat (le_bytes 4 ol)) by done.
  rewrite drop_0, (Ht 32%nat h) by done. rewrite (Hd 32%nat 0%nat h), drop_0 by done.
  rewrite (take_ge (le_bytes 4 n)) by (rewrite le_bytes_length; lia).
  rewrite !le_val_bytes by (change (256 ^ Z.of_nat 4) with 4294967296; lia). done.
Qed.

Lemma zero_dirent_ok : entry_ok zero_dirent.
Proof. constructor; cbn; (done || lia). Qed.

(** The file of a list of entries. *)
Definition dir_bytes (l : list dirfile_entry) : list Z := concat (dirent_bytes <$> l).

Lemma dir_bytes_length l : Forall entry_ok l -> length (dir_bytes l) = (120 * length l)%nat.
Proof.
  induction 1 as [|d l Hd _ IH]; [done|]. unfold dir_bytes in *. rewrite fmap_cons. cbn [concat]. rewrite length_app, IH.
  rewrite dirent_bytes_length by done. simpl length. lia.
Qed.

Lemma dir_bytes_split l i :
  Forall entry_ok l -> take (120 * i) (dir_bytes l) = dir_bytes (take i l) /\ drop (120 * i) (dir_bytes l) = dir_bytes (drop i l).
Proof.
  intros Hl. revert i. induction Hl as [|d l Hd Hl IH]; intros i.
  { unfold dir_bytes. rewrite take_nil, drop_nil. simpl. by rewrite take_nil, drop_nil. }
  destruct i as [|i]; [done|]. specialize (IH i) as [IH1 IH2].
  pose proof (dirent_bytes_length d Hd) as Hlen. unfold dir_bytes in *. rewrite !fmap_cons. cbn [take drop concat].
  rewrite !fmap_cons. cbn [concat].
  replace (120 * S i)%nat with (length (dirent_bytes d) + 120 * i)%nat by lia.
  rewrite take_app_add, drop_app_add. by rewrite IH1, IH2.
Qed.

(** Reading an entry. *)
Lemma dir_bytes_read l i :
  Forall entry_ok l -> take 120 (drop (120 * i) (dir_bytes l)) = from_option dirent_bytes [] (l !! i).
Proof.
  intros Hl. destruct (dir_bytes_split l i Hl) as [_ ->]. rewrite <- (Nat.add_0_r i) at 2. rewrite <- lookup_drop.
  assert (Hd : Forall entry_ok (drop i l)) by (by apply Forall_drop).
  destruct (drop i l) as [|d r]; [done|]. apply Forall_cons in Hd as [Hd _]. cbn [lookup list_lookup from_option].
  unfold dir_bytes. rewrite fmap_cons. cbn [concat]. rewrite take_app_le by (rewrite dirent_bytes_length; [lia|done]).
  apply take_ge. rewrite dirent_bytes_length; [lia|done].
Qed.

(** Entry [i] written; [i] may be the end. *)
Definition put_entry (i : nat) (d : dirfile_entry) (l : list dirfile_entry) : list dirfile_entry :=
  take i l ++ d :: drop (S i) l.

Lemma put_entry_insert i d l : (i < length l)%nat -> put_entry i d l = <[i := d]> l.
Proof. intros Hi. unfold put_entry. by rewrite insert_take_drop. Qed.

Lemma put_entry_end d l : put_entry (length l) d l = l ++ [d].
Proof. unfold put_entry. rewrite take_ge, drop_ge by lia. done. Qed.

Lemma dir_bytes_write l i d :
  Forall entry_ok l -> entry_ok d -> (i <= length l)%nat ->
  overwrite (dir_bytes l) (120 * Z.of_nat i) (dirent_bytes d) = dir_bytes (put_entry i d l).
Proof.
  intros Hl Hd Hi. unfold overwrite, len. rewrite dirent_bytes_length by done. change (Z.of_nat 120 =? 0) with false. cbv iota.
  pose proof (dir_bytes_length l Hl) as Hlen.
  replace (zeros (120 * Z.of_nat i - Z.of_nat (length (dir_bytes l)))) with (@nil Z).
  2: { unfold zeros. replace (Z.to_nat _) with 0%nat by lia. done. }
  rewrite app_nil_r. unfold splice. rewrite dirent_bytes_length by done.
  replace (Z.to_nat (120 * Z.of_nat i)) with (120 * i)%nat by lia.
  replace (120 * i + 120)%nat with (120 * S i)%nat by lia.
  destruct (dir_bytes_split l i Hl) as [-> _]. destruct (dir_bytes_split l (S i) Hl) as [_ ->].
  unfold put_entry, dir_bytes. rewrite fmap_app, fmap_cons, concat_app. done.
Qed.

Lemma put_entry_ok i d l : Forall entry_ok l -> entry_ok d -> Forall entry_ok (put_entry i d l).
Proof.
  intros Hl Hd. unfold put_entry. apply Forall_app. split; [by apply Forall_take|].
  apply Forall_cons. split; [done|]. by apply Forall_drop.
Qed.

Lemma put_entry_lookup i d l j :
  (i <= length l)%nat -> put_entry i d l !! j = if decide (j = i) then Some d else l !! j.
Proof.
  intros Hi. destruct (decide (i = length l)) as [->|Hne].
  - rewrite put_entry_end. case_decide as Hj; [subst; by rewrite list_lookup_middle|].
    destruct (decide (j < length l)%nat); [by rewrite lookup_app_l|].
    rewrite !lookup_ge_None_2; [done|lia|rewrite length_app; simpl; lia].
  - rewrite put_entry_insert by lia. case_decide as Hj; [subst; by rewrite list_lookup_insert_eq by lia|].
    by rewrite list_lookup_insert_ne.
Qed.

Lemma put_entry_length i d l : (i <= length l)%nat -> length (put_entry i d l) = Nat.max (length l) (S i).
Proof. intros Hi. unfold put_entry. rewrite length_app, length_take. simpl. rewrite length_drop. lia. Qed.

Section directory.
Context {F : Type} (fops : tee_fs_dirfile_operations F) (contents : F -> list Z -> Prop).
Context {Hfile : ByteFile fops contents}.

(** An operation stopped by the failure of a file operation. *)
Definition fails_io {A} (r : dresult A * dstate (F := F)) : Prop := exists e s', r = (DErr e, s') /\ io_error e.

Lemma fails_io_bind {A B} (m : DM (F := F) A) (k : A -> DM B) s : fails_io (m s) -> fails_io (dbind m k s).
Proof. intros (e & s' & Hm & He). exists e, s'. unfold dbind. by rewrite Hm. Qed.

Lemma dbind_ok {A B} (m : DM (F := F) A) (k : A -> DM B) s a s' : m s = (DOk a, s') -> dbind m k s = k a s'.
Proof. intros Hm. unfold dbind. by rewrite Hm. Qed.

Definition live (d : dirfile_entry) : Prop := de_oidlen d ≠ 0.
#[global] Instance live_dec d : Decision (live d) := not_dec _.

(** The directory on file holds the entries [l]. *)
Record on_file (x : F) (l : list dirfile_entry) : Prop := {
  of_contents : contents x (dir_bytes l);
  of_entries : Forall entry_ok l;
  of_room : 120 * (Z.of_nat (length l) + 1) <= MAX_FILE
}.

Lemma read_dent_ok s l i :
  on_file (snd s) l -> (i <= length l)%nat ->
  fails_io (read_dent fops (Z.of_nat i) s) \/
  exists x, on_file x l /\ read_dent fops (Z.of_nat i) s =
    (match l !! i with Some d => DOk d | None => DErr TEE_ERROR_ITEM_NOT_FOUND end, (fst s, x)).
Proof.
  intros [Hc Hl Hroom] Hi. unfold read_dent, dbind, lift, dirent_size. unfold MAX_FILE in Hroom.
  rewrite u64_small by cint.
  destruct (file_read (snd s) (dir_bytes l) (120 * Z.of_nat i) 120 Hc) as [x [[Hr Hc']|(e & Hr & He)]];
    [lia|lia|unfold MAX_FILE; lia| |].
  - right. exists x. split; [by constructor|]. rewrite Hr.
    replace (Z.to_nat (120 * Z.of_nat i)) with (120 * i)%nat by lia. change (Z.to_nat 120) with 120%nat.
    rewrite dir_bytes_read by done. destruct (l !! i) as [d|] eqn:Hd; cbn [from_option]; [|done].
    assert (Hok : entry_ok d) by (by eapply Forall_lookup_1). rewrite dirent_bytes_length by done.
    change (Z.of_nat 120 =? 120) with true. cbn [negb]. by rewrite dirent_roundtrip.
  - left. rewrite Hr. by eexists _, _.
Qed.

Lemma write_dent_ok s l i d :
  on_file (snd s) l -> (i <= length l)%nat -> entry_ok d -> 120 * (Z.of_nat i + 2) <= MAX_FILE ->
  fails_io (write_dent fops (Z.of_nat i) d s) \/
  exists x, on_file x (put_entry i d l) /\ write_dent fops (Z.of_nat i) d s =
    (DOk tt, (mk_dirh (dh_files (fst s)) (Z.max (dh_ndents (fst s)) (Z.of_nat i + 1)), x)).
Proof.
  intros [Hc Hl Hroom] Hi Hd Hb. unfold write_dent, dbind, lift, dirent_size. unfold MAX_FILE in *.
  rewrite u64_small by cint.
  destruct (file_write (snd s) (dir_bytes l) (120 * Z.of_nat i) (dirent_bytes d) Hc) as [x [[Hr Hc']|(e & Hr & He)]];
    [lia|unfold len, MAX_FILE; rewrite dirent_bytes_length by done; lia| |].
  - right. exists x. rewrite dir_bytes_write in Hc' by done. split.
    { constructor; [done|by apply put_entry_ok|]. rewrite put_entry_length by done. unfold MAX_FILE. lia. }
    rewrite Hr. cbn [fst snd the_dirh]. rewrite Z.geb_leb. destruct s as [[fl nd] y]. cbn [fst snd dh_files dh_ndents] in *.
    destruct (Z.leb_spec nd (Z.of_nat i)); unfold set_dirh, dret; cbn [snd]; do 3 f_equal; lia.
  - left. rewrite Hr. by eexists _, _.
Qed.

Lemma test_file_ok n s :
  0 <= n < 2147483648 -> test_file (F := F) n s = (DOk (default false (dh_files (fst s) !! Z.to_nat n)), s).
Proof.
  intros Hn. unfold test_file, dbind, the_dirh, nbits. destruct (Z.ltb_spec n (Z.of_nat (length (dh_files (fst s))))).
  - by destruct (Z.ltb_spec n 0); [lia|].
  - by rewrite lookup_ge_None_2 by lia.
Qed.

Lemma s32_number d : entry_ok d -> s32 (de_file_number d) = de_file_number d.
Proof. intros [_ _ _ _ Hn _]. cint. Qed.

(** The directory in memory and on file. *)
Record dir_state (s : dstate) (l : list dirfile_entry) : Prop := {
  ds_file : on_file (snd s) l;
  ds_ndents : dh_ndents (fst s) = Z.of_nat (length l);
  ds_bits i d : l !! i = Some d -> live d -> dh_files (fst s) !! Z.to_nat (de_file_number d) = Some true;
  ds_unique i j d d' : l !! i = Some d -> l !! j = Some d' -> live d -> live d' ->
    de_file_number d = de_file_number d' -> i = j
}.

Lemma dir_state_file s x l : dir_state s l -> on_file x l -> dir_state (fst s, x) l.
Proof. intros [_ H2 H3 H4] Hx. by constructor. Qed.

(** ** Searching *)

(** The loop on the entries that remain. *)
Fixpoint find_pure (l : list dirfile_entry) (n first_free : Z) (uuid oid : list Z) : dresult (Z * dirfile_entry) :=
  match l with
  | [] => if Z.of_nat (length oid) =? 0
          then DOk (if negb (first_free =? -1) then first_free else n, zero_dirent)
          else DErr TEE_ERROR_ITEM_NOT_FOUND
  | dent :: l =>
      let first_free := if (de_oidlen dent =? 0) && (first_free =? -1) then n else first_free in
      if negb (de_oidlen dent =? Z.of_nat (length oid)) then find_pure l (n + 1) first_free uuid oid
      else if bool_decide (de_uuid dent = uuid) && bool_decide (take (length oid) (de_oid dent) = oid)
      then DOk (n, dent) else find_pure l (n + 1) first_free uuid oid
  end.

Lemma find_loop_ok l uuid oid : forall fuel n ff s,
  dir_state s l -> (n <= length l)%nat -> (length l - n < fuel)%nat ->
  fails_io (find_loop fops fuel (Z.of_nat n) ff uuid oid s) \/
  exists x, dir_state (fst s, x) l /\
    find_loop fops fuel (Z.of_nat n) ff uuid oid s = (find_pure (drop n l) (Z.of_nat n) ff uuid oid, (fst s, x)).
Proof.
  induction fuel as [|fuel IH]; intros n ff s Hs Hn Hf; [lia|]. cbn [find_loop]. unfold dcatch.
  destruct (read_dent_ok s l n (ds_file _ _ Hs) Hn) as [(e & s' & -> & He)|(x & Hx & ->)].
  { left. destruct (Z.eqb_spec e TEE_ERROR_ITEM_NOT_FOUND); [by destruct He|]. cbn [andb]. by exists e, s'. }
  pose proof (dir_state_file _ _ _ Hs Hx) as Hs'.
  destruct (l !! n) as [d|] eqn:Hd.
  2: { right. exists x. split; [done|]. rewrite drop_ge by (by apply lookup_ge_None). cbn [find_pure].
       rewrite Z.eqb_refl. cbn [andb]. by destruct (Z.of_nat (length oid) =? 0). }
  pose proof (lookup_lt_Some _ _ _ Hd) as Hlt. rewrite (drop_S l d n) by done. cbn [find_pure].
  assert (Hok : entry_ok d) by (eapply Forall_lookup_1; [apply Hx|done]).
  replace (Z.of_nat n + 1) with (Z.of_nat (S n)) by lia.
  destruct (IH (S n) (if (de_oidlen d =? 0) && (ff =? -1) then Z.of_nat n else ff) (fst s, x) Hs' ltac:(lia) ltac:(lia))
    as [Hfail|(x' & Hs2 & Hgo)].
  - destruct (negb _); [by left|]. unfold dbind.
    destruct ((Z.of_nat (length oid) =? 0) || (de_oidlen d =? 0)) eqn:Hz; cbn [dret].
    + destruct (bool_decide (de_uuid d = uuid) && _); [right; by exists x|by left].
    + apply orb_false_iff in Hz as [_ Hz]. apply Z.eqb_neq in Hz.
      rewrite s32_number, test_file_ok by (done || apply Hok). cbn [fst].
      rewrite (ds_bits _ _ Hs n d Hd Hz). cbn [default dassert dret]. destruct (bool_decide (de_uuid d = uuid) && _); [right; by exists x|by left].
  - cbn [fst] in *. destruct (negb _); [right; by exists x'|]. unfold dbind.
    destruct ((Z.of_nat (length oid) =? 0) || (de_oidlen d =? 0)) eqn:Hz; cbn [dret].
    + right. destruct (bool_decide (de_uuid d = uuid) && _); [by exists x|by exists x'].
    + apply orb_false_iff in Hz as [_ Hz]. apply Z.eqb_neq in Hz.
      rewrite s32_number, test_file_ok by (done || apply Hok). cbn [fst].
      rewrite (ds_bits _ _ Hs n d Hd Hz). cbn [default dassert dret]. right. destruct (bool_decide (de_uuid d = uuid) && _); [by exists x|by exists x'].
Qed.

Definition is_entry (uuid oid : list Z) (d : dirfile_entry) : Prop :=
  de_oidlen d = Z.of_nat (length oid) /\ de_uuid d = uuid /\ take (length oid) (de_oid d) = oid.
#[global] Instance is_entry_dec uuid oid d : Decision (is_entry uuid oid d) := and_dec _ _.

Definition is_free (d : dirfile_entry) : Prop := de_oidlen d = 0.

(** First entry of a name, and the first free place. *)
Definition dir_find (l : list dirfile_entry) (uuid oid : list Z) : option (nat * dirfile_entry) :=
  list_find (is_entry uuid oid) l.
Definition first_free (l : list dirfile_entry) : nat :=
  match list_find is_free l with Some (i, _) => i | None => length l end.

Lemma find_pure_name l uuid oid : oid ≠ [] -> forall n ff,
  find_pure l n ff uuid oid =
  match dir_find l uuid oid with Some (i, d) => DOk (n + Z.of_nat i, d) | None => DErr TEE_ERROR_ITEM_NOT_FOUND end.
Proof.
  intros Ho. unfold dir_find. induction l as [|d l IH]; intros n ff; cbn [find_pure list_find].
  - destruct (Z.eqb_spec (Z.of_nat (length oid)) 0); [destruct oid; [done|simpl in *; lia]|done].
  - assert (Hgo : forall ff', find_pure l (n + 1) ff' uuid oid =
      match prod_map S id <$> list_find (is_entry uuid oid) l with
      | Some (i, d0) => DOk (n + Z.of_nat i, d0) | None => DErr TEE_ERROR_ITEM_NOT_FOUND end).
    { intros ff'. rewrite IH. destruct (list_find _ l) as [[i x]|]; cbn; [|done]. do 2 f_equal. lia. }
    destruct (Z.eqb_spec (de_oidlen d) (Z.of_nat (length oid))) as [Hl|Hl]; cbn [negb].
    + destruct (bool_decide_reflect (de_uuid d = uuid)) as [Hu|Hu],
        (bool_decide_reflect (take (length oid) (de_oid d) = oid)) as [Ht|Ht]; cbn [andb].
      1: { rewrite decide_True by done. f_equal. f_equal. lia. }
      all: rewrite decide_False by (intros (_ & ? & ?); congruence); apply Hgo.
    + rewrite decide_False by (intros (? & _); congruence). apply Hgo.
Qed.

Lemma find_pure_free l uuid : Forall entry_ok l -> forall n ff,
  0 <= n -> (ff = -1 \/ (0 <= ff /\ uuid ≠ replicate 16 0)) ->
  find_pure l n ff uuid [] = DOk (if ff =? -1 then n + Z.of_nat (first_free l) else ff, zero_dirent).
Proof.
  unfold first_free. induction 1 as [|d l Hd Hl IH]; intros n ff Hn Hff; cbn [find_pure list_find length].
  - rewrite Z.eqb_refl. destruct (Z.eqb_spec ff (-1)); cbn [negb]; [|done]. do 2 f_equal. simpl. lia.
  - change (Z.of_nat 0) with 0. destruct (Z.eqb_spec (de_oidlen d) 0) as [Hz|Hz]; cbn [negb andb].
    + rewrite decide_True by done. pose proof (eo_free _ Hd Hz) as ->. change (de_oidlen zero_dirent =? 0) with true.
      change (de_uuid zero_dirent) with (replicate 16 0). cbn [negb andb take length].
      change (take 0 (de_oid zero_dirent)) with (@nil Z). cbn [negb].
      rewrite (bool_decide_true ([] = @nil Z)) by done. rewrite andb_true_r.
      destruct (bool_decide_reflect (replicate 16 0 = uuid)) as [Hu|Hu].
      * destruct Hff as [->|[_ Hff]]; [|congruence]. rewrite Z.eqb_refl. do 2 f_equal. lia.
      * rewrite IH; [|lia|].
        { destruct (Z.eqb_spec ff (-1)) as [->|Hne].
          - destruct (Z.eqb_spec n (-1)); [lia|]. do 2 f_equal. lia.
          - by destruct (Z.eqb_spec ff (-1)). }
        destruct (Z.eqb_spec ff (-1)); right; [split; [lia|congruence]|]. destruct Hff as [|[? ?]]; [done|]. split; [lia|congruence].
    + rewrite decide_False by done. rewrite IH by (done || lia). destruct (Z.eqb_spec ff (-1)); [|done].
      destruct (list_find is_free l) as [[i x]|]; cbn; do 2 f_equal; lia.
Qed.

(** ** Names after a change *)

Lemma dir_find_put_other l i d u o :
  (i <= length l)%nat -> ~ is_entry u o d -> (forall e, l !! i = Some e -> ~ is_entry u o e) ->
  dir_find (put_entry i d l) u o = dir_find l u o.
Proof.
  intros Hi Hd He. unfold dir_find. destruct (list_find (is_entry u o) l) as [[j x]|] eqn:Hf.
  - apply list_find_Some in Hf as (Hj & Hx & Hb). apply list_find_Some. rewrite put_entry_lookup by done.
    rewrite decide_False by (intros ->; by apply (He x)). split; [done|]. split; [done|].
    intros k y. rewrite put_entry_lookup by done. case_decide as Hk; [intros [= <-] _; done|]. apply Hb.
  - apply list_find_None. apply list_find_None in Hf. apply Forall_lookup_2. intros k y.
    rewrite put_entry_lookup by done. case_decide as Hk; [intros [= <-]; done|]. intros Hy. exact (Forall_lookup_1 _ _ _ _ Hf Hy).
Qed.

Lemma dir_find_put_same l i d u o :
  (i <= length l)%nat -> is_entry u o d -> (forall j e, (j < i)%nat -> l !! j = Some e -> ~ is_entry u o e) ->
  dir_find (put_entry i d l) u o = Some (i, d).
Proof.
  intros Hi Hd He. apply list_find_Some. rewrite put_entry_lookup, decide_True by done. split; [done|]. split; [done|].
  intros k y. rewrite put_entry_lookup by done. case_decide as Hk; [lia|]. intros Hy Hlt. by eapply He.
Qed.

(** One entry replaced in a directory. *)
Lemma dir_state_put fl nd x l i d :
  dir_state (mk_dirh fl nd, x) l -> (i <= length l)%nat ->
  forall x', on_file x' (put_entry i d l) ->
  (live d -> fl !! Z.to_nat (de_file_number d) = Some true /\
     forall j e, j ≠ i -> l !! j = Some e -> live e -> de_file_number e ≠ de_file_number d) ->
  dir_state (mk_dirh fl (Z.max nd (Z.of_nat i + 1)), x') (put_entry i d l).
Proof.
  intros [_ Hnd Hbits Huniq] Hi x' Hx' Hd. cbn [fst snd dh_files dh_ndents] in *. constructor; cbn [fst snd dh_files dh_ndents]; [done| | |].
  - rewrite put_entry_length by done. lia.
  - intros j e. rewrite put_entry_lookup by done. case_decide; [intros [= <-] Hl; by apply Hd|apply Hbits].
  - intros j k e e'. rewrite !put_entry_lookup by done. case_decide as Hj; case_decide as Hk; intros He He' Hle Hle' Hn.
    + lia.
    + injection He as <-. destruct (Hd Hle) as [_ Hne]. by destruct (Hne k e').
    + injection He' as <-. destruct (Hd Hle') as [_ Hne]. by destruct (Hne j e).
    + by eapply Huniq.
Qed.

(** ** The bitmap *)

Lemma set_file_ok n s l :
  on_file (snd s) l -> 0 <= n ->
  fails_io (set_file fops n s) \/
  exists fl x, on_file x l /\ set_file fops n s = (DOk tt, (mk_dirh fl (dh_ndents (fst s)), x)) /\
    (forall k, fl !! k = Some true <-> k = Z.to_nat n \/ dh_files (fst s) !! k = Some true).
Proof.
  intros [Hc Hl Hr] Hn. unfold set_file, maybe_grow_files, bit_set, dbind, the_dirh. set (d := fst s).
  assert (Hset : forall fl, (Z.to_nat n < length fl)%nat -> forall k,
    <[Z.to_nat n := true]> fl !! k = Some true <-> k = Z.to_nat n \/ fl !! k = Some true).
  { intros fl Hlt k. destruct (decide (k = Z.to_nat n)) as [->|Hne].
    - rewrite list_lookup_insert_eq by done. tauto.
    - rewrite list_lookup_insert_ne by done. split; [by right|]. intros [?|?]; done. }
  destruct (Z.ltb_spec n (nbits d)) as [Hlt|Hge]; cbn [dret fst].
  - destruct (Z.ltb_spec n 0); [lia|]. right. eexists _, _. split; [by constructor|]. split; [reflexivity|].
    apply Hset. unfold nbits in Hlt. fold d. lia.
  - unfold lift. pose proof (file_realloc (snd s) _ Hc) as Hc'. destruct (fop_realloc fops (snd s)) as [[] x]; cbn [negb snd] in *.
    + unfold set_dirh. cbn [fst snd]. destruct (Z.ltb_spec n 0); [lia|]. right. eexists _, _. split; [by constructor|].
      split; [reflexivity|]. intros k. cbn [set_files dh_files]. unfold nbits in Hge |- *. rewrite Hset.
      2: { rewrite length_app, length_replicate. lia. }
      split; (intros [Hk|Hk]; [by left|right]); [|by apply lookup_app_l_Some].
      apply lookup_app_Some in Hk as [Hk|[_ Hk]]; [done|]. by apply lookup_replicate in Hk as [? _].
    + left. exists TEE_ERROR_OUT_OF_MEMORY, (d, x). split; [done|split; done].
Qed.

Lemma ffc_spec l : forall i, 0 <= i ->
  (ffc l i = -1 /\ forall k b, l !! k = Some b -> b = true) \/
  (i <= ffc l i /\ l !! Z.to_nat (ffc l i - i) = Some false /\
   forall k b, (k < Z.to_nat (ffc l i - i))%nat -> l !! k = Some b -> b = true).
Proof.
  induction l as [|b l IH]; intros i Hi; cbn [ffc]; [by left|]. destruct b.
  - destruct (IH (i + 1) ltac:(lia)) as [[-> Hall]|(Hle & Hf & Hall)]; [left|right].
    + split; [done|]. intros [|k] b Hk; [by injection Hk as <-|]. by eapply Hall.
    + split; [lia|]. replace (Z.to_nat (ffc l (i + 1) - i)) with (S (Z.to_nat (ffc l (i + 1) - (i + 1)))) by lia.
      split; [done|]. intros [|k] b Hk Hb; [by injection Hb as <-|]. eapply Hall; [|exact Hb]. lia.
  - right. split; [lia|]. replace (Z.to_nat (i - i)) with 0%nat by lia. split; [done|]. lia.
Qed.

(** The number handed out: the smallest that is not taken. *)
Definition free_number (fl : list bool) (n : Z) : Prop :=
  0 <= n <= Z.of_nat (length fl) /\ fl !! Z.to_nat n ≠ Some true /\
  forall k, (k < Z.to_nat n)%nat -> fl !! k = Some true.

Lemma tmp_number_free fl :
  let n := if Z.of_nat (length fl) =? 0 then 0 else if ffc fl 0 =? -1 then Z.of_nat (length fl) else ffc fl 0 in
  free_number fl n.
Proof.
  cbv zeta. destruct (Z.eqb_spec (Z.of_nat (length fl)) 0) as [Hz|Hz].
  { destruct fl; [|simpl in Hz; lia]. split; [simpl; lia|]. split; [done|]. simpl. lia. }
  destruct (ffc_spec fl 0 ltac:(lia)) as [[-> Hall]|(Hle & Hf & Hall)].
  - rewrite Z.eqb_refl. split; [lia|]. rewrite Nat2Z.id. split; [by rewrite lookup_ge_None_2|].
    intros k Hk. destruct (lookup_lt_is_Some_2 fl k Hk) as [b Hb]. rewrite Hb. f_equal. by eapply Hall.
  - destruct (Z.eqb_spec (ffc fl 0) (-1)); [lia|]. rewrite Z.sub_0_r in *. pose proof (lookup_lt_Some _ _ _ Hf) as Hlt.
    split; [lia|]. split; [by rewrite Hf|]. intros k Hk.
    destruct (lookup_lt_is_Some_2 fl k ltac:(lia)) as [b Hb]. rewrite Hb. f_equal. by eapply Hall.
Qed.

Lemma get_tmp_ok s l :
  dir_state s l ->
  fails_io (tee_fs_dirfile_get_tmp fops s) \/
  exists n fl x, tee_fs_dirfile_get_tmp fops s = (DOk n, (mk_dirh fl (dh_ndents (fst s)), x)) /\
    dir_state (mk_dirh fl (dh_ndents (fst s)), x) l /\ free_number (dh_files (fst s)) n /\ fl !! Z.to_nat n = Some true /\
    (forall i e, l !! i = Some e -> live e -> de_file_number e ≠ n).
Proof.
  intros Hs. pose proof (tmp_number_free (dh_files (fst s))) as Hn. unfold tee_fs_dirfile_get_tmp, dbind at 1, the_dirh, nbits.
  cbv zeta in *. set (n := if Z.of_nat _ =? 0 then _ else _) in *. pose proof Hn as (Hr & Hnf & _).
  destruct (set_file_ok n s l (ds_file _ _ Hs) ltac:(lia)) as [Hf|(fl & x & Hx & Heq & Hfl)];
    [left; by apply fails_io_bind|]. right. exists n, fl, x. unfold dbind. cbv zeta. fold n. rewrite Heq. split; [done|].
  pose proof Hs as [_ H2 H3 H4]. split; [|split; [done|split; [apply Hfl; by left|]]].
  - constructor; [done|done| |done]. intros i d Hd Hl. apply Hfl. right. by eapply H3.
  - intros i e He Hl Hne. apply Hnf. rewrite <- Hne. by eapply H3.
Qed.

(** ** Registering a file under a name *)

Lemma find_ok fuel s l uuid oid :
  dir_state s l -> (length l < fuel)%nat -> oid ≠ [] ->
  fails_io (tee_fs_dirfile_find fops fuel uuid oid s) \/
  exists x, dir_state (fst s, x) l /\ tee_fs_dirfile_find fops fuel uuid oid s =
    (match dir_find l uuid oid with
     | Some (i, d) => DOk (mk_fileh (de_file_number d) (de_hash d) (Z.of_nat i))
     | None => DErr TEE_ERROR_ITEM_NOT_FOUND
     end, (fst s, x)).
Proof.
  intros Hs Hf Ho. unfold tee_fs_dirfile_find.
  destruct (find_loop_ok l uuid oid fuel 0 (-1) s Hs ltac:(lia) ltac:(lia)) as [Hfail|(x & Hx & Heq)];
    [left; by apply fails_io_bind|]. right. exists x. split; [done|]. unfold dbind. change 0 with (Z.of_nat 0). rewrite Heq.
  rewrite drop_0, find_pure_name by done. by destruct (dir_find l uuid oid) as [[i d]|].
Qed.

Lemma find_free_ok fuel s l uuid :
  dir_state s l -> (length l < fuel)%nat ->
  fails_io (tee_fs_dirfile_find fops fuel uuid [] s) \/
  exists x dfh, dir_state (fst s, x) l /\ tee_fs_dirfile_find fops fuel uuid [] s = (DOk dfh, (fst s, x)) /\
    dfh_idx dfh = Z.of_nat (first_free l).
Proof.
  intros Hs Hf. unfold tee_fs_dirfile_find.
  destruct (find_loop_ok l uuid [] fuel 0 (-1) s Hs ltac:(lia) ltac:(lia)) as [Hfail|(x & Hx & Heq)];
    [left; by apply fails_io_bind|]. right. unfold dbind. change 0 with (Z.of_nat 0). rewrite Heq.
  rewrite drop_0, find_pure_free by (try apply (of_entries _ _ (ds_file _ _ Hs)); auto; lia).
  eexists x, _. split; [done|]. split; [reflexivity|]. cbn. lia.
Qed.

(** Where a name goes. *)
Definition place_of (l : list dirfile_entry) (uuid oid : list Z) : nat :=
  match dir_find l uuid oid with Some (i, _) => i | None => first_free l end.

Lemma place_of_spec l uuid oid :
  Forall entry_ok l -> (place_of l uuid oid <= length l)%nat /\
  (forall e, l !! place_of l uuid oid = Some e -> is_entry uuid oid e \/ is_free e) /\
  (forall j e, (j < place_of l uuid oid)%nat -> l !! j = Some e -> ~ is_entry uuid oid e).
Proof.
  intros Hl. unfold place_of, first_free, dir_find. destruct (list_find (is_entry uuid oid) l) as [[i d]|] eqn:Hf.
  - apply list_find_Some in Hf as (Hi & Hd & Hb). pose proof (lookup_lt_Some _ _ _ Hi). split; [lia|]. split.
    + intros e He. left. congruence.
    + intros j e Hj He. by eapply Hb.
  - apply list_find_None in Hf. split; [|split].
    + destruct (list_find is_free l) as [[i d]|] eqn:Hff; [|done]. apply list_find_Some in Hff as (Hi & _).
      pose proof (lookup_lt_Some _ _ _ Hi). lia.
    + intros e He. right. destruct (list_find is_free l) as [[i d]|] eqn:Hff.
      * apply list_find_Some in Hff as (Hi & Hd & _). congruence.
      * rewrite lookup_ge_None_2 in He by lia. done.
    + intros j e _ He. exact (Forall_lookup_1 _ _ _ _ Hf He).
Qed.

Definition new_entry (uuid oid hash : list Z) (n : Z) : dirfile_entry :=
  mk_dirent uuid (oid ++ replicate (TEE_OBJECT_ID_MAX_LEN - length oid) 0) (Z.of_nat (length oid)) hash n.

(** Arguments of a registration. *)
Record name_ok (uuid oid hash : list Z) (n : Z) : Prop := {
  nm_uuid : length uuid = 16%nat;
  nm_oid : (1 <= length oid <= 64)%nat;
  nm_hash : length hash = 32%nat;
  nm_number : 0 <= n < 2147483648
}.

Lemma new_entry_ok uuid oid hash n : name_ok uuid oid hash n -> entry_ok (new_entry uuid oid hash n).
Proof.
  intros [H1 H2 H3 H4]. constructor; cbn [new_entry de_uuid de_oid de_oidlen de_hash de_file_number]; try done; try lia.
  rewrite length_app, length_replicate. unfold TEE_OBJECT_ID_MAX_LEN. lia.
Qed.

Lemma new_entry_name uuid oid hash n : is_entry uuid oid (new_entry uuid oid hash n).
Proof. split; [done|]. split; [done|]. cbn. apply take_app_length. Qed.

Lemma is_entry_inj u o u' o' d : is_entry u o d -> is_entry u' o' d -> u = u' /\ o = o'.
Proof. intros (H1 & <- & <-) (H2 & <- & <-). split; [done|]. f_equal. rewrite H1 in H2. lia. Qed.

Lemma free_not_entry u o d : o ≠ [] -> is_free d -> ~ is_entry u o d.
Proof. intros Ho Hf (H & _). unfold is_free in Hf. destruct o; [done|]. simpl in H. lia. Qed.

Lemma rename_ok fuel s l uuid oid hash n :
  dir_state s l -> (length l < fuel)%nat -> 120 * (Z.of_nat (length l) + 2) <= MAX_FILE -> name_ok uuid oid hash n ->
  dh_files (fst s) !! Z.to_nat n = Some true ->
  (forall i e, l !! i = Some e -> live e -> de_file_number e ≠ n) ->
  let i := place_of l uuid oid in
  let l' := put_entry i (new_entry uuid oid hash n) l in
  fails_io (tee_fs_dirfile_rename fops fuel uuid (mk_fileh n hash (-1)) oid s) \/
  exists s', tee_fs_dirfile_rename fops fuel uuid (mk_fileh n hash (-1)) oid s = (DOk (mk_fileh n hash (Z.of_nat i)), s') /\
    dir_state s' l' /\ dh_files (fst s') = dh_files (fst s).
Proof.
  intros Hs Hf Hroom Hname Hbit Hun i l'. pose proof Hname as [Hu Ho Hh Hn].
  assert (Hoid : oid ≠ []) by (intros ->; simpl in Ho; lia).
  pose proof (of_entries _ _ (ds_file _ _ Hs)) as Hok. destruct (place_of_spec l uuid oid Hok) as (Hi & _ & _). fold i in Hi.
  unfold tee_fs_dirfile_rename. cbv zeta. rewrite Z.gtb_ltb. change (Z.of_nat TEE_OBJECT_ID_MAX_LEN) with 64.
  destruct (Z.eqb_spec (Z.of_nat (length oid)) 0); [lia|]. destruct (Z.ltb_spec 64 (Z.of_nat (length oid))); [lia|].
  cbn [orb dfh_idx dfh_hash dfh_file_number]. change (-1 <? 0) with true. cbv iota.
  fold (new_entry uuid oid hash n).
  (* the index *)
  assert (Hidx : fails_io (dcatch (tee_fs_dirfile_find fops fuel uuid oid) (fun dfh2 => dret (dfh_idx dfh2))
      (fun res => if res =? TEE_ERROR_ITEM_NOT_FOUND
        then dbind (tee_fs_dirfile_find fops fuel uuid []) (fun dfh2 => dret (dfh_idx dfh2)) else derr res) s) \/
    exists x, dir_state (fst s, x) l /\ dcatch (tee_fs_dirfile_find fops fuel uuid oid) (fun dfh2 => dret (dfh_idx dfh2))
      (fun res => if res =? TEE_ERROR_ITEM_NOT_FOUND
        then dbind (tee_fs_dirfile_find fops fuel uuid []) (fun dfh2 => dret (dfh_idx dfh2)) else derr res) s =
      (DOk (Z.of_nat i), (fst s, x))).
  { unfold dcatch. destruct (find_ok fuel s l uuid oid Hs Hf Hoid) as [(e & s' & -> & He)|(x & Hx & ->)].
    { left. destruct (Z.eqb_spec e TEE_ERROR_ITEM_NOT_FOUND); [by destruct He|]. by exists e, s'. }
    unfold i, place_of. destruct (dir_find l uuid oid) as [[j d]|] eqn:Hd; [right; by exists x|].
    rewrite Z.eqb_refl. destruct (find_free_ok fuel (fst s, x) l uuid Hx Hf) as [Hfail|(x2 & dfh & Hx2 & Heq & Hidx)];
      [left; by apply fails_io_bind|]. right. exists x2. split; [done|]. unfold dbind. rewrite Heq. unfold dret. by rewrite Hidx. }
  destruct Hidx as [Hfail|(x & Hx & Heq)]; [left; by apply fails_io_bind|].
  rewrite (dbind_ok _ _ _ _ _ Heq).
  destruct (write_dent_ok (fst s, x) l i (new_entry uuid oid hash n) (ds_file _ _ Hx) Hi (new_entry_ok _ _ _ _ Hname))
    as [Hfail|(x2 & Hx2 & Hw)]; [unfold MAX_FILE in *; lia|left; by apply fails_io_bind|].
  right. eexists. rewrite (dbind_ok _ _ _ _ _ Hw). split; [reflexivity|]. split; [|done]. cbn [fst snd dh_files] in *.
  destruct s as [[fl nd] y]. cbn [fst snd dh_files dh_ndents] in *. eapply dir_state_put; [exact Hx|done|done|].
  intros _. split; [done|]. intros j e _ He Hl. by eapply Hun.
Qed.

Lemma dir_find_register l uuid oid hash n u o :
  Forall entry_ok l -> o ≠ [] ->
  let l' := put_entry (place_of l uuid oid) (new_entry uuid oid hash n) l in
  dir_find l' u o = if decide (u = uuid /\ o = oid) then Some (place_of l uuid oid, new_entry uuid oid hash n) else dir_find l u o.
Proof.
  intros Hok Ho l'. destruct (place_of_spec l uuid oid Hok) as (Hi & Hp & Hb). case_decide as Hd.
  - destruct Hd as [-> ->]. apply dir_find_put_same; [done|apply new_entry_name|done].
  - apply dir_find_put_other; [done| |].
    + intros He. apply Hd. by eapply is_entry_inj; [|apply new_entry_name].
    + intros e He He'. destruct (Hp e He) as [Hx|Hx]; [apply Hd; by eapply is_entry_inj|]. by eapply free_not_entry.
Qed.

(** ** Removing *)

Lemma remove_ok s l i d h :
  dir_state s l -> l !! i = Some d -> live d ->
  fails_io (tee_fs_dirfile_remove fops (mk_fileh (de_file_number d) h (Z.of_nat i)) s) \/
  exists s', tee_fs_dirfile_remove fops (mk_fileh (de_file_number d) h (Z.of_nat i)) s = (DOk tt, s') /\
    dir_state s' (put_entry i zero_dirent l) /\
    (forall k, dh_files (fst s') !! k = Some true <-> k ≠ Z.to_nat (de_file_number d) /\ dh_files (fst s) !! k = Some true).
Proof.
  intros Hs Hd Hl. pose proof (lookup_lt_Some _ _ _ Hd) as Hlt. unfold tee_fs_dirfile_remove. cbn [dfh_idx dfh_file_number].
  destruct (read_dent_ok s l i (ds_file _ _ Hs) ltac:(lia)) as [Hf|(x & Hx & Heq)]; [left; by apply fails_io_bind|].
  rewrite Hd in Heq. rewrite (dbind_ok _ _ _ _ _ Heq). unfold live in Hl. destruct (Z.eqb_spec (de_oidlen d) 0); [done|]. cbv zeta.
  rewrite Z.eqb_refl. assert (Hok : entry_ok d) by (eapply Forall_lookup_1; [apply Hx|done]).
  pose proof (dir_state_file _ _ _ Hs Hx) as Hs1. pose proof (eo_number _ Hok) as Hn.
  rewrite (dbind_ok (dassert true) _ _ tt (fst s, x) eq_refl). rewrite s32_number by done.
  assert (Htest : test_file (de_file_number d) (fst s, x) = (DOk true, (fst s, x)))
    by (rewrite test_file_ok by done; cbn [fst]; by rewrite (ds_bits _ _ Hs i d Hd Hl)).
  rewrite (dbind_ok _ _ _ _ _ Htest). rewrite (dbind_ok (dassert true) _ _ tt (fst s, x) eq_refl).
  assert (Hroom : 120 * (Z.of_nat i + 2) <= MAX_FILE) by (pose proof (of_room _ _ Hx); unfold MAX_FILE in *; lia).
  destruct (write_dent_ok (fst s, x) l i zero_dirent Hx ltac:(lia) zero_dirent_ok Hroom) as [Hf|(x2 & Hx2 & Hw)];
    [left; by apply fails_io_bind|].
  right. rewrite (dbind_ok _ _ _ _ _ Hw). cbn [fst]. unfold clear_file, dbind, the_dirh, nbits. cbn [fst dh_files].
  pose proof (ds_bits _ _ Hs i d Hd Hl) as Hbit. pose proof (lookup_lt_Some _ _ _ Hbit) as Hbl.
  destruct (Z.ltb_spec (de_file_number d) (Z.of_nat (length (dh_files (fst s))))); [|lia].
  unfold bit_clear, dbind, the_dirh. destruct (Z.ltb_spec (de_file_number d) 0); [lia|]. unfold set_dirh. cbn [fst snd].
  eexists. split; [reflexivity|]. cbn [fst set_files dh_files dh_ndents].
  assert (Hclr : forall k, <[Z.to_nat (de_file_number d) := false]> (dh_files (fst s)) !! k = Some true <->
    k ≠ Z.to_nat (de_file_number d) /\ dh_files (fst s) !! k = Some true).
  { intros k. destruct (decide (k = Z.to_nat (de_file_number d))) as [->|Hne].
    - rewrite list_lookup_insert_eq by done. split; [done|tauto].
    - rewrite list_lookup_insert_ne by done. tauto. }
  split; [|done].
  destruct s as [[fl nd] y]. cbn [fst snd dh_files dh_ndents] in *.
  pose proof (dir_state_put fl nd y l i zero_dirent Hs ltac:(lia) x2 Hx2 ltac:(done)) as [H1 H2 H3 H4].
  constructor; cbn [fst snd dh_files dh_ndents] in *; [done|done| |done].
  intros j e He Hle. apply Hclr. split; [|by eapply H3]. rewrite put_entry_lookup in He by lia.
  case_decide as Hj; [by injection He as <-|]. intros Hk. apply Hj. eapply (ds_unique _ _ Hs j i e d); try done.
  pose proof (eo_number e ltac:(eapply Forall_lookup_1; [apply Hx|exact He])). lia.
Qed.

(** ** Opening *)

(** Entries whose number an earlier one has are cleared. *)
Fixpoint dedup (l : list dirfile_entry) (seen : list Z) : list dirfile_entry :=
  match l with
  | [] => []
  | d :: l =>
      if decide (live d) then
        if decide (de_file_number d ∈ seen) then zero_dirent :: dedup l seen
        else d :: dedup l (de_file_number d :: seen)
      else d :: dedup l seen
  end.

Lemma dedup_length l : forall seen, length (dedup l seen) = length l.
Proof.
  induction l as [|d l IH]; intros seen; [done|]. cbn [dedup].
  repeat case_decide; cbn [length]; by rewrite IH.
Qed.

Lemma dedup_live l : forall seen i d,
  dedup l seen !! i = Some d -> live d ->
  l !! i = Some d /\ de_file_number d ∉ seen /\
  forall j e, (j < i)%nat -> dedup l seen !! j = Some e -> live e -> de_file_number e ≠ de_file_number d.
Proof.
  induction l as [|x l IH]; intros seen i d; [done|]. cbn [dedup]. intros Hd Hl.
  destruct (decide (live x)) as [Hx|Hx].
  - destruct (decide (de_file_number x ∈ seen)) as [Hin|Hin].
    + destruct i as [|i]; [injection Hd as <-; by destruct Hl|]. destruct (IH seen i d Hd Hl) as (H1 & H2 & H3).
      split; [done|]. split; [done|]. intros [|j] e Hj He Hle; [injection He as <-; by destruct Hle|]. apply (H3 j e); [lia|done|done].
    + destruct i as [|i]; [injection Hd as <-; split; [done|split; [done|intros j e Hj; lia]]|].
      destruct (IH (de_file_number x :: seen) i d Hd Hl) as (H1 & H2 & H3). apply not_elem_of_cons in H2 as [Hne H2].
      split; [done|]. split; [done|]. intros [|j] e Hj He Hle; [injection He as <-; congruence|]. apply (H3 j e); [lia|done|done].
  - destruct i as [|i]; [injection Hd as <-; done|]. destruct (IH seen i d Hd Hl) as (H1 & H2 & H3).
    split; [done|]. split; [done|]. intros [|j] e Hj He Hle; [injection He as <-; done|]. apply (H3 j e); [lia|done|done].
Qed.

Lemma dedup_same l : forall seen,
  (forall i j d d', l !! i = Some d -> l !! j = Some d' -> live d -> live d' -> de_file_number d = de_file_number d' -> i = j) ->
  (forall i d, l !! i = Some d -> live d -> de_file_number d ∉ seen) -> dedup l seen = l.
Proof.
  induction l as [|x l IH]; intros seen Hu Hs; [done|]. cbn [dedup].
  assert (Hu' : forall i j d d', l !! i = Some d -> l !! j = Some d' -> live d -> live d' ->
    de_file_number d = de_file_number d' -> i = j).
  { intros i j d d' Hi Hj Hd Hd' He. specialize (Hu (S i) (S j) d d' Hi Hj Hd Hd' He). lia. }
  destruct (decide (live x)) as [Hx|Hx].
  - rewrite decide_False by (apply (Hs 0%nat); done). f_equal. apply IH; [done|]. intros i d Hi Hd.
    apply not_elem_of_cons. split; [|by apply (Hs (S i))]. intros He. by specialize (Hu (S i) 0%nat d x Hi eq_refl Hd Hx He).
  - f_equal. apply IH; [done|]. intros i d Hi Hd. by apply (Hs (S i)).
Qed.

Definition bits_are (fl : list bool) (P : Z -> Prop) : Prop :=
  forall n, 0 <= n -> fl !! Z.to_nat n = Some true <-> P n.

Definition numbers_of (l : list dirfile_entry) (n : Z) : Prop := exists d, d ∈ l /\ live d /\ de_file_number d = n.

Lemma put_entry_around n z l :
  (n < length l)%nat -> take (S n) (put_entry n z l) = take n l ++ [z] /\ drop (S n) (put_entry n z l) = drop (S n) l.
Proof.
  intros Hn. unfold put_entry. assert (Hl : length (take n l) = n) by (rewrite length_take; lia). split.
  - rewrite take_app_ge, Hl by lia. replace (S n - n)%nat with 1%nat by lia. done.
  - rewrite drop_app_ge, Hl by lia. replace (S n - n)%nat with 1%nat by lia. done.
Qed.

Lemma numbers_of_cons d l n : numbers_of (d :: l) n <-> (live d /\ de_file_number d = n) \/ numbers_of l n.
Proof.
  unfold numbers_of. setoid_rewrite elem_of_cons. split.
  - intros (e & [->|He] & Hl & Hk); [by left|]. right. by exists e.
  - intros [[Hl Hk]|(e & He & Hl & Hk)]; [exists d; auto|exists e; auto].
Qed.

Lemma open_loop_ok : forall fuel n s l seen,
  on_file (snd s) l -> (n <= length l)%nat -> (length l - n < fuel)%nat -> bits_are (dh_files (fst s)) (fun k => k ∈ seen) ->
  fails_io (open_loop fops fuel (Z.of_nat n) s) \/
  exists fl nd x, open_loop fops fuel (Z.of_nat n) s = (DOk (Z.of_nat (length l)), (mk_dirh fl nd, x)) /\
    on_file x (take n l ++ dedup (drop n l) seen) /\
    bits_are fl (fun k => k ∈ seen \/ numbers_of (dedup (drop n l) seen) k).
Proof.
  induction fuel as [|fuel IH]; intros n s l seen Hx Hn Hf Hb; [lia|]. cbn [open_loop]. unfold dcatch.
  destruct (read_dent_ok s l n Hx Hn) as [(e & s' & -> & He)|(x & Hx' & ->)].
  { left. destruct (Z.eqb_spec e TEE_ERROR_ITEM_NOT_FOUND); [by destruct He|]. by exists e, s'. }
  destruct (l !! n) as [d|] eqn:Hd.
  2: { apply lookup_ge_None in Hd. rewrite Z.eqb_refl. right. destruct s as [[fl nd] y]. exists fl, nd, x.
       rewrite drop_ge by done. cbn [dedup fst]. split; [unfold dret; do 3 f_equal; lia|]. rewrite app_nil_r, take_ge by done.
       split; [done|]. intros k Hk. rewrite (Hb k Hk). split; [by left|]. intros [?|(e & He & _)]; [done|by apply elem_of_nil in He]. }
  pose proof (lookup_lt_Some _ _ _ Hd) as Hlt. assert (Hok : entry_ok d) by (eapply Forall_lookup_1; [apply Hx|done]).
  rewrite (drop_S l d n) by done. replace (Z.of_nat n + 1) with (Z.of_nat (S n)) by lia. cbn [dedup].
  pose proof (eo_number _ Hok) as Hnum.
  assert (Htk : forall l0, take (S n) l ++ l0 = take n l ++ d :: l0).
  { intros l0. rewrite (take_S_r _ _ d) by done. by rewrite <- app_assoc. }
  destruct (Z.eqb_spec (de_oidlen d) 0) as [Hz|Hz].
  - rewrite decide_False by (unfold live; tauto).
    destruct (IH (S n) (fst s, x) l seen Hx' ltac:(lia) ltac:(lia) Hb) as [Hfail|(fl & nd & x2 & Heq & Hx2 & Hb2)]; [by left|].
    right. exists fl, nd, x2. split; [done|]. rewrite Htk in Hx2. split; [done|]. intros k Hk. rewrite (Hb2 k Hk).
    rewrite numbers_of_cons. unfold live. tauto.
  - rewrite decide_True by done. rewrite s32_number by done.
    assert (Htest : test_file (de_file_number d) (fst s, x) =
      (DOk (bool_decide (de_file_number d ∈ seen)), (fst s, x))).
    { rewrite test_file_ok by done. cbn [fst]. do 2 f_equal.
      pose proof (Hb (de_file_number d) ltac:(lia)) as Hbd. destruct (bool_decide_reflect (de_file_number d ∈ seen)) as [Hin|Hin].
      - apply Hbd in Hin. by rewrite Hin.
      - destruct (dh_files (fst s) !! Z.to_nat (de_file_number d)) as [[]|]; try done. by destruct Hin; apply Hbd. }
    rewrite (dbind_ok _ _ _ _ _ Htest). destruct (decide (de_file_number d ∈ seen)) as [Hin|Hin].
    + rewrite bool_decide_true by done.
      assert (Hroom : 120 * (Z.of_nat n + 2) <= MAX_FILE) by (pose proof (of_room _ _ Hx); lia).
      destruct (write_dent_ok (fst s, x) l n zero_dirent Hx' Hn zero_dirent_ok Hroom) as [Hfail|(x2 & Hx2 & Hw)];
        [left; by apply fails_io_bind|]. rewrite (dbind_ok _ _ _ _ _ Hw). cbn [fst].
      pose proof (put_entry_length n zero_dirent l Hn) as Hpl.
      destruct (put_entry_around n zero_dirent l Hlt) as [Hta Hdr].
      match goal with |- context [open_loop fops fuel _ ?st] =>
        destruct (IH (S n) st (put_entry n zero_dirent l) seen Hx2) as [Hfail|(fl & nd & x3 & Heq & Hx3 & Hb3)] end;
        [lia|lia|done|by left|].
      right. exists fl, nd, x3. rewrite Hpl in Heq. replace (Nat.max (length l) (S n)) with (length l) in Heq by lia.
      split; [done|]. rewrite Hta, Hdr, <- app_assoc in Hx3. split; [done|]. rewrite Hdr in Hb3. intros k Hk. rewrite (Hb3 k Hk).
      rewrite numbers_of_cons. unfold live. cbn [zero_dirent de_oidlen]. tauto.
    + rewrite bool_decide_false by done.
      destruct (set_file_ok (de_file_number d) (fst s, x) l Hx' ltac:(lia)) as [Hfail|(fl & x2 & Hx2 & Hw & Hfl)];
        [left; by apply fails_io_bind|]. rewrite (dbind_ok _ _ _ _ _ Hw). cbn [fst] in *.
      match goal with |- context [open_loop fops fuel _ ?st] =>
        destruct (IH (S n) st l (de_file_number d :: seen) Hx2) as [Hfail|(fl2 & nd & x3 & Heq & Hx3 & Hb3)] end;
        [lia|lia| |by left|].
      { intros k Hk. cbn [fst dh_files]. rewrite Hfl, (Hb k Hk), elem_of_cons. split; (intros [?|?]; [left; lia|by right]). }
      right. exists fl2, nd, x3. split; [done|]. rewrite Htk in Hx3. split; [done|]. intros k Hk. rewrite (Hb3 k Hk).
      rewrite numbers_of_cons, elem_of_cons. split; [intros [[->|?]|?]; auto|]. intros [?|[[_ <-]|?]]; auto.
Qed.

(** ** Properties *)

(** Search: with all entries within its reach, [tee_fs_dirfile_find]
    terminates without a failed assertion and leaves the directory as it is; it
    returns the index, file number and hash of the first entry with the name, or
    TEE_ERROR_ITEM_NOT_FOUND when there is none, unless a file operation fails, whose
    code it returns. *)
Theorem dirfile_find_exact fuel s l uuid oid :
  dir_state s l -> (length l < fuel)%nat -> oid ≠ [] ->
  fails_io (tee_fs_dirfile_find fops fuel uuid oid s) \/
  exists x, dir_state (fst s, x) l /\ tee_fs_dirfile_find fops fuel uuid oid s =
    (match dir_find l uuid oid with
     | Some (i, d) => DOk (mk_fileh (de_file_number d) (de_hash d) (Z.of_nat i))
     | None => DErr TEE_ERROR_ITEM_NOT_FOUND
     end, (fst s, x)).
Proof. apply find_ok. Qed.

(** C32. Creating an object: [tee_fs_dirfile_get_tmp] gives the smallest file
    number not taken, which no object of the directory has; registering it with
    [tee_fs_dirfile_rename] puts exactly that name in the directory, every other name is
    found as before, and still no two objects share a file. *)
Theorem dirfile_create_object fuel s l uuid oid hash :
  dir_state s l -> (length l < fuel)%nat -> 120 * (Z.of_nat (length l) + 2) <= MAX_FILE ->
  length uuid = 16%nat -> (1 <= length oid <= 64)%nat -> length hash = 32%nat ->
  Z.of_nat (length (dh_files (fst s))) < 2147483648 ->
  fails_io (tee_fs_dirfile_get_tmp fops s) \/
  exists n s1, tee_fs_dirfile_get_tmp fops s = (DOk n, s1) /\ dir_state s1 l /\
    free_number (dh_files (fst s)) n /\ (forall i e, l !! i = Some e -> live e -> de_file_number e ≠ n) /\
    (fails_io (tee_fs_dirfile_rename fops fuel uuid (mk_fileh n hash (-1)) oid s1) \/
     exists i s2 l', tee_fs_dirfile_rename fops fuel uuid (mk_fileh n hash (-1)) oid s1 = (DOk (mk_fileh n hash (Z.of_nat i)), s2) /\
       dir_state s2 l' /\ dir_find l' uuid oid = Some (i, new_entry uuid oid hash n) /\
       forall u o, o ≠ [] -> ~ (u = uuid /\ o = oid) -> dir_find l' u o = dir_find l u o).
Proof.
  intros Hs Hf Hroom Hu Ho Hh Hnb. destruct (get_tmp_ok s l Hs) as [Hfail|(n & fl & x & Heq & Hs1 & Hfree & Hbit & Hun)]; [by left|].
  right. exists n, (mk_dirh fl (dh_ndents (fst s)), x). split; [done|]. split; [done|]. split; [done|]. split; [done|].
  assert (Hname : name_ok uuid oid hash n) by (constructor; try done; destruct Hfree; lia).
  destruct (rename_ok fuel _ l uuid oid hash n Hs1 Hf Hroom Hname Hbit Hun) as [Hfail|(s2 & Hr & Hs2 & _)]; [by left|].
  right. exists (place_of l uuid oid), s2, (put_entry (place_of l uuid oid) (new_entry uuid oid hash n) l).
  pose proof (of_entries _ _ (ds_file _ _ Hs)) as Hok.
  split; [done|]. split; [done|]. split; [|intros u o Hne Hn]; rewrite dir_find_register by (done || (intros ->; simpl in Ho; lia)).
  - by rewrite decide_True.
  - by rewrite decide_False.
Qed.

(** Removing an object that the directory has under one name: the name is
    gone, the other names are found as before, its file number can be handed out
    again, and no other number becomes free. *)
Theorem dirfile_remove_object s l uuid oid i d h :
  dir_state s l -> oid ≠ [] -> dir_find l uuid oid = Some (i, d) ->
  (forall j e, l !! j = Some e -> is_entry uuid oid e -> j = i) ->
  fails_io (tee_fs_dirfile_remove fops (mk_fileh (de_file_number d) h (Z.of_nat i)) s) \/
  exists s' l', tee_fs_dirfile_remove fops (mk_fileh (de_file_number d) h (Z.of_nat i)) s = (DOk tt, s') /\
    dir_state s' l' /\ dir_find l' uuid oid = None /\
    (forall u o, o ≠ [] -> ~ (u = uuid /\ o = oid) -> dir_find l' u o = dir_find l u o) /\
    (forall n, dh_files (fst s') !! n = Some true <-> n ≠ Z.to_nat (de_file_number d) /\ dh_files (fst s) !! n = Some true).
Proof.
  intros Hs Ho Hfind Huniq. pose proof Hfind as (Hi & Hd & _)%list_find_Some. pose proof (lookup_lt_Some _ _ _ Hi) as Hlt.
  assert (Hl : live d) by (destruct Hd as (H1 & _); unfold live; destruct oid; [done|]; simpl in H1; lia).
  destruct (remove_ok s l i d h Hs Hi Hl) as [Hfail|(s' & Hr & Hs' & Hbits)]; [by left|]. right.
  exists s', (put_entry i zero_dirent l). split; [done|]. split; [done|]. split; [|split; [|done]].
  - apply list_find_None. apply Forall_lookup_2. intros j e. rewrite put_entry_lookup by lia.
    case_decide as Hj; [intros [= <-]; by apply free_not_entry|]. intros He He'. apply Hj. by eapply Huniq.
  - intros u o Hne Hn. apply dir_find_put_other; [lia|by apply free_not_entry|].
    intros e He He'. rewrite Hi in He. injection He as <-. apply Hn. by eapply is_entry_inj.
Qed.

(** Opening: whatever entries the file has, opening the directory clears
    those whose file number an earlier entry has, and takes exactly the numbers of
    the others; afterwards no two objects share a file, and a directory in which none did is
    unchanged. *)
Theorem dirfile_open_dedups fuel create x0 x l :
  fop_open fops create x0 = (DOk tt, x) -> on_file x l -> (length l < fuel)%nat ->
  (exists e x', tee_fs_dirfile_open fops fuel create x0 = (DErr e, x') /\ io_error e) \/
  exists dirh x', tee_fs_dirfile_open fops fuel create x0 = (DOk dirh, x') /\ dir_state (dirh, x') (dedup l []) /\
    bits_are (dh_files dirh) (numbers_of (dedup l [])) /\
    ((forall i j d d', l !! i = Some d -> l !! j = Some d' -> live d -> live d' ->
        de_file_number d = de_file_number d' -> i = j) -> dedup l [] = l).
Proof.
  intros Ho Hx Hf. unfold tee_fs_dirfile_open.
  assert (Hlift : lift (fop_open fops create) (mk_dirh [] 0, x0) = (DOk tt, (mk_dirh [] 0, x))) by (unfold lift; cbn [fst snd]; by rewrite Ho).
  rewrite (dbind_ok _ _ _ _ _ Hlift).
  destruct (open_loop_ok fuel 0 (mk_dirh [] 0, x) l [] Hx ltac:(lia) ltac:(lia)) as [(e & s' & Heq & He)|(fl & nd & x2 & Heq & Hx2 & Hb)].
  { intros k Hk. split; [done|]. by intros Hn%elem_of_nil. }
  { left. exists e, (snd s'). unfold dbind. change (Z.of_nat 0) with 0 in Heq. by rewrite Heq. }
  right. exists (mk_dirh fl (Z.of_nat (length l))), x2. change (Z.of_nat 0) with 0 in Heq.
  rewrite drop_0, take_0 in Hx2. rewrite drop_0 in Hb. cbn [app] in Hx2. rewrite (dbind_ok _ _ _ _ _ Heq). split; [done|].
  assert (Hb' : bits_are fl (numbers_of (dedup l []))).
  { intros k Hk. rewrite (Hb k Hk). split; [intros [Hn|?]; [by apply elem_of_nil in Hn|done]|by right]. }
  split; [|split; [done|]].
  2: { intros Hu. apply dedup_same; [done|]. intros i d _ _. apply not_elem_of_nil. }
  constructor; cbn [fst snd dh_files dh_ndents]; [done|by rewrite dedup_length| |].
  - intros i d Hd Hl. assert (Hok : entry_ok d) by (eapply Forall_lookup_1; [apply Hx2|done]).
    apply Hb'; [apply Hok|]. exists d. split; [by eapply list_elem_of_lookup_2|done].
  - intros i j d d' Hd Hd' Hl Hl' He. destruct (dedup_live l [] i d Hd Hl) as (_ & _ & H1).
    destruct (dedup_live l [] j d' Hd' Hl') as (_ & _ & H2).
    destruct (Nat.lt_total i j) as [Hlt|[->|Hlt]]; [|done|].
    + by destruct (H2 i d Hlt Hd Hl).
    + by destruct (H1 j d' Hlt Hd' Hl').
Qed.
End directory.

(** ** Files of [ReeFs] meet the contract *)

Section ree_dir.
Context (sha256 : list Z -> list Z).
Context {gcm_enc gcm_dec fek_encrypt fek_decrypt}
  {Hcrypto : HtreeCrypto gcm_enc gcm_dec fek_encrypt fek_decrypt}.
Context (rng : nat -> list Z).

(** The handle of the directory file: its tree, and the world. *)
Definition dir_handle : Type := option tee_fs_htree * world.

Definition of_fd {A} (r : outcome (option tee_fs_htree * Z * option A) * world) : dresult A * dir_handle :=
  match r with
  | (Return (ht, _, Some a), w) => (DOk a, (ht, w))
  | (Return (ht, res, None), w) => (DErr res, (ht, w))
  | (Panic, w) => (DPanic, (None, w))
  end.

(** [ree_dirf_ops], with the open of the directory file, whose hash is not
    checked in this configuration (no RPMB). *)
Definition ree_dirf_ops : tee_fs_dirfile_operations dir_handle := {|
  fop_open create '(_, w) :=
    match ree_fs_open_primitive gcm_enc gcm_dec rng sha256 fek_encrypt fek_decrypt create None w with
    | (Return (Some ht, _), w) => (DOk tt, (Some ht, w))
    | (Return (None, res), w) => (DErr res, (None, w))
    | (Panic, w) => (DPanic, (None, w))
    end;
  fop_read pos n '(ht, w) := of_fd (ree_fs_read_primitive gcm_dec ht pos n w);
  fop_write pos data '(ht, w) := of_fd (ree_fs_write_primitive gcm_enc gcm_dec rng ht pos data w);
  fop_realloc '(ht, w) := match ext w with (Ok _, w) => (true, (ht, w)) | (_, w) => (false, (ht, w)) end
|}.

(** An open file, as long as every call succeeds. *)
Definition ree_contents (f : dir_handle) (c : list Z) : Prop :=
  exists ht m, fst f = Some ht /\ open_file (gcm_dec := gcm_dec) m ht (snd f) c.

#[global] Instance ree_byte_file : ByteFile ree_dirf_ops ree_contents.
Proof.
  constructor.
  - intros [o w] c pos n (ht & m & Ho & Hof) Hp Hn Hend. cbn [fst snd] in *. subst o. unfold MAX_FILE in Hend.
    exists (Some ht, w). left. cbn [fop_read ree_dirf_ops]. rewrite (read_file_ok rng m ht w c pos n Hof); [|destruct Hof as [[_ Hm _ Hb _] _]; lia|cint|cint].
    destruct (Z.leb_spec (pos + n) UINT64_MAX); [|cint]. split; [done|]. by exists ht, m.
  - intros [o w] c pos data (ht & m & Ho & Hof) Hp Hend. cbn [fst snd] in *. subst o. unfold MAX_FILE in Hend.
    destruct (write_file_ok rng m ht w c pos data Hof Hp Hend) as (ht' & w' & m' & Hw & Hof' & _).
    exists (Some ht', w'). left. cbn [fop_write ree_dirf_ops]. rewrite Hw. split; [done|]. by exists ht', m'.
  - intros [o w] c (ht & m & Ho & Hof). cbn [fst snd fop_realloc ree_dirf_ops] in *. subst o.
    rewrite ext_nil by (destruct Hof as [[_ _ He _ _] _]; done). by exists ht, m.
Qed.
End ree_dir.

(** ** A directory in memory *)

Definition memory_ops : tee_fs_dirfile_operations (list Z) := {|
  fop_open _ f := (DOk tt, f);
  fop_read pos n f := (DOk (take (Z.to_nat n) (drop (Z.to_nat pos) f)), f);
  fop_write pos data f := (DOk tt, overwrite f pos data);
  fop_realloc f := (true, f)
|}.

#[global] Instance memory_byte_file : ByteFile memory_ops eq.
Proof. constructor; [intros f c pos n -> _ _ _; exists c; by left|intros f c pos d -> _ _; eexists; by left|done]. Qed.

Definition uuid_a : list Z := replicate 16 1.
Definition hash_a : list Z := replicate 32 9.

(** Two objects and a free place. *)
Definition demo_entries : list dirfile_entry := [new_entry uuid_a [7] hash_a 0; zero_dirent; new_entry uuid_a [8; 9] hash_a 2].
Definition demo_dir : dstate (F := list Z) := (mk_dirh [true; false; true] 3, dir_bytes demo_entries).

Lemma demo_dir_state : dir_state eq demo_dir demo_entries.
Proof.
  constructor.
  - constructor; [done| |vm_compute; congruence]. repeat constructor; vm_compute; congruence.
  - done.
  - intros [|[|[|i]]] d Hd Hl; try done; injection Hd as <-; done.
  - intros [|[|[|i]]] [|[|[|j]]] d d' Hd Hd' Hl Hl' He; try done; injection Hd as <-; injection Hd' as <-; done.
Qed.

Lemma dirfile_find_exact_witness :
  tee_fs_dirfile_find memory_ops 4 uuid_a [8; 9] demo_dir = (DOk (mk_fileh 2 hash_a 2), demo_dir).
Proof.
  destruct (dirfile_find_exact memory_ops eq 4 demo_dir demo_entries uuid_a [8; 9] demo_dir_state) as
    [(e & s' & He & _)|(x & Hst & Hx)]; [simpl; lia|done|exfalso; vm_compute in He; discriminate He|].
  pose proof (of_contents _ _ _ (ds_file _ _ _ Hst)) as Hc. cbn [snd] in Hc. subst x. rewrite Hx. reflexivity.
Defined.

Lemma dirfile_create_object_witness :
  exists s1 i s2 l', tee_fs_dirfile_get_tmp memory_ops demo_dir = (DOk 1, s1) /\
    tee_fs_dirfile_rename memory_ops 4 uuid_a (mk_fileh 1 hash_a (-1)) [5] s1 = (DOk (mk_fileh 1 hash_a (Z.of_nat i)), s2) /\
    dir_find l' uuid_a [5] = Some (i, new_entry uuid_a [5] hash_a 1) /\
    dir_find l' uuid_a [7] = dir_find demo_entries uuid_a [7].
Proof.
  destruct (dirfile_create_object memory_ops eq 4 demo_dir demo_entries uuid_a [5] hash_a demo_dir_state) as
    [(e & s' & He & _)|(n & s1 & Hg & _ & _ & _ & Hr)];
    [simpl; lia|vm_compute; congruence|done|simpl; lia|done|vm_compute; congruence|exfalso; vm_compute in He; discriminate He|].
  assert (Hg1 : tee_fs_dirfile_get_tmp memory_ops demo_dir = (DOk 1, (mk_dirh [true; true; true] 3, dir_bytes demo_entries))) by reflexivity.
  rewrite Hg1 in Hg. injection Hg as <- <-.
  destruct Hr as [(e & s' & He & _)|(i & s2 & l' & Hr & _ & Hf & Ho)]; [exfalso; vm_compute in He; discriminate He|].
  eexists _, i, s2, l'. split; [exact Hg1|]. split; [exact Hr|]. split; [exact Hf|]. apply Ho; [done|]. by intros [_ [=]].
Defined.

Lemma dirfile_remove_object_witness :
  exists s' l', tee_fs_dirfile_remove memory_ops (mk_fileh 0 hash_a 0) demo_dir = (DOk tt, s') /\
    dir_state eq s' l' /\ dir_find l' uuid_a [7] = None.
Proof.
  destruct (dirfile_remove_object memory_ops eq demo_dir demo_entries uuid_a [7] 0 (new_entry uuid_a [7] hash_a 0) hash_a
    demo_dir_state) as [(e & s' & He & _)|(s' & l' & Hr & Hs & Hf & _)]; [done|reflexivity| | |].
  - intros [|[|[|j]]] d Hd (H1 & _); try done; injection Hd as <-; done.
  - exfalso. vm_compute in He. discriminate He.
  - exists s', l'. split; [exact Hr|]. split; [exact Hs|exact Hf].
Defined.

(** The third entry has the number of the first. *)
Definition dup_entries : list dirfile_entry := [new_entry uuid_a [7] hash_a 3; zero_dirent; new_entry uuid_a [8] hash_a 3].

Lemma dirfile_open_dedups_witness :
  exists dirh x', tee_fs_dirfile_open memory_ops 4 false (dir_bytes dup_entries) = (DOk dirh, x') /\
    dir_state eq (dirh, x') [new_entry uuid_a [7] hash_a 3; zero_dirent; zero_dirent].
Proof.
  destruct (dirfile_open_dedups memory_ops eq 4 false (dir_bytes dup_entries) (dir_bytes dup_entries) dup_entries) as
    [(e & x' & He & _)|(dirh & x' & Ho & Hs & _)]; [reflexivity| |simpl; lia| |].
  - constructor; [done| |vm_compute; congruence]. repeat constructor; vm_compute; congruence.
  - exfalso. vm_compute in He. discriminate He.
  - exists dirh, x'. split; [exact Ho|exact Hs].
Defined.
