(* ===== verification/ReeStore.v ===== *)
(** * Secure storage in normal world: the file operations of [core/tee/tee_ree_fs.c]

    [ree_fs_ops]: opening, creating, writing, renaming and removing objects. They
    combine the file of an object ([ReeFs]) with the directory ([Dirfile]), which is
    opened when first needed, shared, counted and closed with the last reference or after
    an error. All run under [ree_fs_mutex], so each is one step.

    Handles are pointers: open files, directory searches and the directory
    itself get fresh numbers, and the use of one that has been freed is [DPanic]. *)

From stdpp Require Import base gmap list.
From Stdlib Require Import ZArith Lia.
From S2P Require Import Prelude Htree ReeFs Dirfile.

Local Open Scope Z_scope.

(** ** State *)

(** Normal world: the directory file, the files by number, the results of the
    calls to come and the random generator. *)
Record fs_world := mk_fw {
  fw_dir : option storage;
  fw_files : gmap Z storage;
  fw_ext : list Z;
  fw_rng : nat
}.

(** [struct tee_fs_fd] *)
Record tee_fs_fd := mk_fd {
  fd_ht : option tee_fs_htree;
  fd_dfh : tee_fs_dirfile_fileh
}.

(** The directory in memory: its address, its bitmap and its file's tree. *)
Record dirh_obj := mk_dirobj {
  do_id : nat;
  do_dirh : tee_fs_dirfile_dirh;
  do_ht : option tee_fs_htree
}.

(** [struct tee_fs_dir]: a search, with the pointer it keeps to the directory. *)
Record tee_fs_dir := mk_fsdir {
  fsd_dirh : nat;
  fsd_idx : Z;
  fsd_uuid : list Z
}.

(** [ree_fs_dirh], [ree_fs_dirh_refcount], and the handles in use. *)
Record ree_fs := mk_ree_fs {
  rf_world : fs_world;
  rf_dirh : option dirh_obj;
  rf_refcount : Z;
  rf_fds : gmap nat tee_fs_fd;
  rf_dirs : gmap nat tee_fs_dir;
  rf_next : nat
}.

(** What of a persistent object names its file. *)
Record object_name := mk_oname {
  on_uuid : list Z;
  on_id : list Z
}.

(** ** Effects *)

Definition RM (A : Type) : Type := ree_fs -> dresult A * ree_fs.
Definition rret {A} (a : A) : RM A := fun s => (DOk a, s).
Definition rerr {A} (c : Z) : RM A := fun s => (DErr c, s).
Definition rpanic {A} : RM A := fun s => (DPanic, s).
Definition rcatch {A B} (m : RM A) (k : A -> RM B) (h : Z -> RM B) : RM B := fun s =>
  match m s with
  | (DOk a, s) => k a s
  | (DErr c, s) => h c s
  | (DPanic, s) => (DPanic, s)
  | (Fuel, s) => (Fuel, s)
  end.
Definition rbind {A B} (m : RM A) (k : A -> RM B) : RM B := rcatch m k rerr.
Definition rget : RM ree_fs := fun s => (DOk s, s).
Definition rput (s : ree_fs) : RM unit := fun _ => (DOk tt, s).
Definition rassert (b : bool) : RM unit := if b then rret tt else rpanic.

Declare Scope ree_scope.
Delimit Scope ree_scope with ree.
Notation "'let*' x ':=' m 'in' k" := (rbind m (fun x => k)) (at level 200, x pattern, m at level 100, k at level 200) : ree_scope.
Notation "m ';*' k" := (rbind m (fun _ => k)) (at level 100, right associativity) : ree_scope.
Local Open Scope ree_scope.

Definition set_world (w : fs_world) (s : ree_fs) : ree_fs :=
  mk_ree_fs w (rf_dirh s) (rf_refcount s) (rf_fds s) (rf_dirs s) (rf_next s).
Definition set_dirobj (d : option dirh_obj) (s : ree_fs) : ree_fs :=
  mk_ree_fs (rf_world s) d (rf_refcount s) (rf_fds s) (rf_dirs s) (rf_next s).
Definition set_refcount (n : Z) (s : ree_fs) : ree_fs :=
  mk_ree_fs (rf_world s) (rf_dirh s) n (rf_fds s) (rf_dirs s) (rf_next s).
Definition set_fds (f : gmap nat tee_fs_fd) (s : ree_fs) : ree_fs :=
  mk_ree_fs (rf_world s) (rf_dirh s) (rf_refcount s) f (rf_dirs s) (rf_next s).
Definition set_dirs (f : gmap nat tee_fs_dir) (s : ree_fs) : ree_fs :=
  mk_ree_fs (rf_world s) (rf_dirh s) (rf_refcount s) (rf_fds s) f (rf_next s).

(** A fresh address. *)
Definition rfresh : RM nat := fun s =>
  (DOk (rf_next s), mk_ree_fs (rf_world s) (rf_dirh s) (rf_refcount s) (rf_fds s) (rf_dirs s) (S (rf_next s))).

(** A call to normal world, or an allocation. *)
Definition fw_call (w : fs_world) : dresult unit * fs_world :=
  match fw_ext w with
  | [] => (DOk tt, w)
  | c :: l => (if c =? TEE_SUCCESS then DOk tt else DErr c, mk_fw (fw_dir w) (fw_files w) l (fw_rng w))
  end.
Definition rcall : RM unit := fun s => let '(r, w) := fw_call (rf_world s) in (r, set_world w s).
(** ... whose result is not looked at. *)
Definition rcall_ignored : RM unit := rcatch rcall rret (fun _ => rret tt).

(** ** One file of normal world *)

Definition empty_store : storage := mk_storage ∅ ∅ ∅.

(** The directory file as the world of [Htree], and back. *)
Definition dir_world (w : fs_world) : world := mk_world (default empty_store (fw_dir w)) (fw_ext w) (fw_rng w).
Definition back_dir (w : fs_world) (x : world) : fs_world := mk_fw (Some (w_store x)) (fw_files w) (w_ext x) (w_rng x).

(** A numbered file. *)
Definition file_world (w : fs_world) (n : Z) : world := mk_world (default empty_store (fw_files w !! n)) (fw_ext w) (fw_rng w).
Definition back_file (w : fs_world) (n : Z) (x : world) : fs_world :=
  mk_fw (fw_dir w) (<[n := w_store x]> (fw_files w)) (w_ext x) (w_rng x).

Section store.
Context (sha256 : list Z -> list Z).
Context (gcm_enc : list Z -> list Z -> list Z -> list Z -> list Z * list Z).
Context (gcm_dec : list Z -> list Z -> list Z -> list Z -> list Z -> option (list Z)).
Context (fek_encrypt fek_decrypt : list Z -> list Z).
Context (rng : nat -> list Z).
(** Rounds for the loops over directory entries. *)
Context (fuel : nat).

Notation open_tree := (tee_fs_htree_open sha256 gcm_enc gcm_dec fek_encrypt fek_decrypt rng).
Notation sync := (tee_fs_htree_sync_to_storage sha256 gcm_enc rng).

(** *** The directory file *)

(** State of the directory's file handle. *)
Definition dirf_state : Type := fs_world * option tee_fs_htree.

(** [tee_fs_rpc_remove_dfh] of the directory file, the result not looked at. *)
Definition drop_dir (w : fs_world) : fs_world :=
  match fw_call w with (DOk _, w) => mk_fw None (fw_files w) (fw_ext w) (fw_rng w) | (_, w) => w end.

(** Opening fails when the file is not there. *)
Definition dirf_open (create : bool) (f : dirf_state) : dresult unit * dirf_state :=
  let '(w, _) := f in
  match fw_call w with (* calloc *)
  | (DOk _, w) =>
      match fw_call w with (* rpc open or create *)
      | (DOk _, w) =>
          if negb create && bool_decide (fw_dir w = None) then (DErr TEE_ERROR_ITEM_NOT_FOUND, (w, None))
          else
            match open_tree create None (if create then mk_world empty_store (fw_ext w) (fw_rng w) else dir_world w) with
            | (Return (Some ht, _), x) => (DOk tt, (back_dir w x, Some ht))
            | (Return (None, res), x) =>
                let w := back_dir w x in
                let w := snd (fw_call w) in (* close *)
                (DErr res, (if create then drop_dir w else w, None))
            | (Panic, x) => (DPanic, (back_dir w x, None))
            end
      | (DErr c, w) => (DErr c, (if create then drop_dir w else w, None))
      | (_, w) => (DPanic, (w, None))
      end
  | (_, w) => (DErr TEE_ERROR_OUT_OF_MEMORY, (w, None))
  end.

Definition of_dir {A} (w : fs_world) (r : outcome (option tee_fs_htree * Z * option A) * world) : dresult A * dirf_state :=
  match r with
  | (Return (ht, _, Some a), x) => (DOk a, (back_dir w x, ht))
  | (Return (ht, res, None), x) => (DErr res, (back_dir w x, ht))
  | (Panic, x) => (DPanic, (back_dir w x, None))
  end.

Definition dirf_ops : tee_fs_dirfile_operations dirf_state := {|
  fop_open := dirf_open;
  fop_read pos n '(w, ht) := of_dir w (ree_fs_read_primitive gcm_dec ht pos n (dir_world w));
  fop_write pos data '(w, ht) := of_dir w (ree_fs_write_primitive gcm_enc gcm_dec rng ht pos data (dir_world w));
  fop_realloc '(w, ht) := match fw_call w with (DOk _, w) => (true, (w, ht)) | (_, w) => (false, (w, ht)) end
|}.

(** An operation of the directory on the open one, which must be at [id]. *)
Definition on_dirh {A} (id : nat) (m : DM (F := dirf_state) A) : RM A := fun s =>
  match rf_dirh s with
  | Some d =>
      if bool_decide (do_id d = id) then
        let '(r, (dirh, (w, ht))) := m (do_dirh d, (rf_world s, do_ht d)) in
        (r, set_dirobj (Some (mk_dirobj id dirh ht)) (set_world w s))
      else (DPanic, s)
  | None => (DPanic, s)
  end.

(** Without RPMB: no root hash to check. *)
Definition open_dirh : RM dirh_obj :=
  let try create : RM tee_fs_dirfile_dirh := fun s =>
    let '(r, (w, ht)) := tee_fs_dirfile_open dirf_ops fuel create (rf_world s, None) in
    match r with
    | DOk dirh => (DOk dirh, set_dirobj (Some (mk_dirobj (rf_next s) dirh ht)) (set_world w s))
    | DErr c => (DErr c, set_world w s)
    | DPanic => (DPanic, set_world w s)
    | Fuel => (Fuel, set_world w s)
    end in
  rcatch (try false) (fun _ => rret tt)
    (fun res => if res =? TEE_ERROR_ITEM_NOT_FOUND then try true ;* rret tt else rerr res) ;*
  rfresh ;*
  let* s := rget in
  match rf_dirh s with Some d => rret d | None => rpanic end.

Definition commit_dirh_writes (id : nat) : RM unit := fun s =>
  match rf_dirh s with
  | Some d =>
      if bool_decide (do_id d = id) then
        match sync (do_ht d) (dir_world (rf_world s)) with
        | (Return (ht, res, _), x) =>
            (if res =? TEE_SUCCESS then DOk tt else DErr res,
             set_dirobj (Some (mk_dirobj id (do_dirh d) ht)) (set_world (back_dir (rf_world s) x) s))
        | (Panic, x) => (DPanic, s)
        end
      else (DPanic, s)
  | None => (DPanic, s)
  end.

(** [close_dirh]: the tree is dropped and the file closed. *)
Definition close_dirh : RM unit :=
  rcall_ignored ;* let* s := rget in rput (set_dirobj None s).

Definition get_dirh : RM nat :=
  let* s := rget in
  let* d := match rf_dirh s with Some d => rret d | None => open_dirh end in
  let* s := rget in
  rput (set_refcount (u64 (rf_refcount s + 1)) s) ;*
  rassert (negb (u64 (rf_refcount s + 1) =? 0)) ;*
  rret (do_id d).

Definition put_dirh_primitive (close : bool) : RM unit :=
  let* s := rget in
  rassert (negb (rf_refcount s =? 0)) ;*
  rput (set_refcount (rf_refcount s - 1) s) ;*
  match rf_dirh s with
  | Some _ => if (rf_refcount s - 1 =? 0) || close then close_dirh else rret tt
  | None => rret tt
  end.

Definition put_dirh (dirh : nat) (close : bool) : RM unit :=
  let* s := rget in
  rassert (bool_decide (do_id <$> rf_dirh s = Some dirh)) ;*
  put_dirh_primitive close.

(** *** Files of objects *)

(** [tee_fs_rpc_remove_dfh], the result not looked at. *)
Definition remove_file (n : Z) : RM unit :=
  rcatch rcall (fun _ =>
    let* s := rget in
    let w := rf_world s in
    rput (set_world (mk_fw (fw_dir w) (delete n (fw_files w)) (fw_ext w) (fw_rng w)) s)) (fun _ => rret tt).

(** [ree_fs_open_primitive] for a numbered file: on success a new handle. A file
    is known by its number: one that is removed while open is not kept apart. *)
Definition open_object (create : bool) (hash : list Z) (dfh : tee_fs_dirfile_fileh) : RM nat :=
  let n := dfh_file_number dfh in
  let removed {A} res : RM A := (if create then remove_file n else rret tt) ;* rerr res in
  rcatch rcall rret (fun _ => rerr TEE_ERROR_OUT_OF_MEMORY) ;* (* calloc *)
  rcatch rcall rret removed ;* (* rpc open or create *)
  let* s := rget in
  let w := rf_world s in
  if negb create && bool_decide (fw_files w !! n = None) then rerr TEE_ERROR_ITEM_NOT_FOUND
  else
    match open_tree create (Some hash) (if create then mk_world empty_store (fw_ext w) (fw_rng w) else file_world w n) with
    | (Return (Some ht, _), x) =>
        let* id := rfresh in
        let* s := rget in
        rput (set_fds (<[id := mk_fd (Some ht) dfh]> (rf_fds s)) (set_world (back_file w n x) s)) ;*
        rret id
    | (Return (None, res), x) =>
        rput (set_world (back_file w n x) s) ;*
        rcall_ignored ;* (* close *)
        removed res
    | (Panic, x) => rpanic
    end.

(** An operation on the tree of an open file. *)
Definition on_fd {A} (fd : nat) (m : option tee_fs_htree -> world -> outcome (option tee_fs_htree * Z * option A) * world)
    : RM (option A) := fun s =>
  match rf_fds s !! fd with
  | None => (DPanic, s)
  | Some f =>
      let n := dfh_file_number (fd_dfh f) in
      let w := rf_world s in
      match m (fd_ht f) (file_world w n) with
      | (Return (ht, res, a), x) =>
          (if res =? TEE_SUCCESS then DOk a else DErr res,
           set_fds (<[fd := mk_fd ht (fd_dfh f)]> (rf_fds s)) (set_world (back_file w n x) s))
      | (Panic, _) => (DPanic, s)
      end
  end.

(** [tee_fs_htree_sync_to_storage(&fdp->ht, fdp->dfh.hash)] *)
Definition sync_fd (fd : nat) : RM unit :=
  let* h := on_fd fd sync in
  let* s := rget in
  match h, rf_fds s !! fd with
  | Some hash, Some f =>
      rput (set_fds (<[fd := mk_fd (fd_ht f) (mk_fileh (dfh_file_number (fd_dfh f)) hash (dfh_idx (fd_dfh f)))]> (rf_fds s)) s)
  | _, _ => rret tt
  end.

(** [ree_fs_close_primitive] *)
Definition close_fd (fd : nat) : RM unit :=
  rcall_ignored ;* let* s := rget in rput (set_fds (delete fd (rf_fds s)) s).

(** A body between [get_dirh] and the label [out]: what is put back on success
    ([None]: the reference is kept) and after an error. *)
Definition dirh_section {A} (on_ok : option bool) (on_err : bool) (body : nat -> RM A) : RM A :=
  let* dirh := get_dirh in
  rcatch (body dirh)
    (fun a => match on_ok with Some close => put_dirh dirh close ;* rret a | None => rret a end)
    (fun res => put_dirh dirh on_err ;* rerr res).

Notation find := (fun dirh po => on_dirh dirh (tee_fs_dirfile_find dirf_ops fuel (on_uuid po) (on_id po))).

(** ** [ree_fs_ops] *)

(** The value: the handle and the size. *)
Definition ree_fs_open (po : object_name) : RM (nat * Z) :=
  dirh_section None false (fun dirh =>
    let* dfh := find dirh po in
    let* fd := rcatch (open_object false (dfh_hash dfh) dfh) rret
      (fun res => rerr (if res =? TEE_ERROR_ITEM_NOT_FOUND then TEE_ERROR_CORRUPT_OBJECT else res)) in
    let* s := rget in
    match rf_fds s !! fd with
    | Some f => match fd_ht f with Some ht => rret (fd, tee_fs_htree_get_meta ht) | None => rpanic end
    | None => rpanic
    end).

Definition set_name (dirh fd : nat) (po : object_name) (overwrite : bool) : RM unit :=
  let* old := rcatch (find dirh po) (fun dfh => rret (Some dfh)) (fun _ => rret None) in
  if negb overwrite && bool_decide (is_Some old) then rerr TEE_ERROR_ACCESS_CONFLICT
  else
    let* s := rget in
    match rf_fds s !! fd with
    | None => rpanic
    | Some f =>
        let dfh := mk_fileh (dfh_file_number (fd_dfh f)) (dfh_hash (fd_dfh f)) (from_option dfh_idx (-1) old) in
        let* dfh := on_dirh dirh (tee_fs_dirfile_rename dirf_ops fuel (on_uuid po) dfh (on_id po)) in
        let* s := rget in
        rput (set_fds (<[fd := mk_fd (fd_ht f) dfh]> (rf_fds s)) s) ;*
        commit_dirh_writes dirh ;*
        match old with Some dfh => remove_file (dfh_file_number dfh) | None => rret tt end
    end.

Definition ree_fs_close (fd : nat) : RM unit := put_dirh_primitive false ;* close_fd fd.

(** [head], [attr] and [data] one after the other; empty ones are skipped. *)
Fixpoint write_parts (fd : nat) (pos : Z) (parts : list (list Z)) : RM unit :=
  match parts with
  | [] => rret tt
  | p :: parts =>
      (if bool_decide (p = []) then rret tt
       else on_fd fd (fun ht => ree_fs_write_primitive gcm_enc gcm_dec rng ht pos p) ;* rret tt) ;*
      write_parts fd (pos + Z.of_nat (length p)) parts
  end.

(** After an error the new file is closed and removed. *)
Definition ree_fs_create (po : object_name) (overwrite : bool) (head attr data : list Z) : RM nat :=
  let* dirh := get_dirh in
  let out fd n res : RM nat :=
    put_dirh dirh true ;*
    match fd with Some fd => close_fd fd ;* remove_file n | None => rret tt end ;*
    rerr res in
  rcatch (on_dirh dirh (tee_fs_dirfile_get_tmp dirf_ops))
    (fun n =>
       let dfh := mk_fileh n (replicate 32 0) (-1) in
       rcatch (open_object true (dfh_hash dfh) dfh)
         (fun fd =>
            rcatch (write_parts fd 0 [head; attr; data] ;* sync_fd fd ;* set_name dirh fd po overwrite)
              (fun _ => rret fd) (out (Some fd) n))
         (out None n))
    (out None 0).

Definition ree_fs_read (fd : nat) (pos len : Z) : RM (list Z) :=
  let* l := on_fd fd (fun ht => ree_fs_read_primitive gcm_dec ht pos len) in rret (default [] l).

(** The hash of a changed file goes to the directory, and the directory is
    committed. *)
Definition commit_file (dirh fd : nat) : RM unit :=
  sync_fd fd ;*
  let* s := rget in
  match rf_fds s !! fd with
  | None => rpanic
  | Some f =>
      on_dirh dirh (tee_fs_dirfile_update_hash dirf_ops (fd_dfh f)) ;*
      commit_dirh_writes dirh
  end.

Definition ree_fs_write (fd : nat) (pos : Z) (buf : list Z) : RM unit :=
  dirh_section (Some false) true (fun dirh =>
    on_fd fd (fun ht => ree_fs_write_primitive gcm_enc gcm_dec rng ht pos buf) ;*
    commit_file dirh fd).

Definition ree_fs_truncate (fd : nat) (len : Z) : RM unit :=
  dirh_section (Some false) true (fun dirh =>
    on_fd fd (fun ht => ree_fs_ftruncate_internal gcm_enc gcm_dec rng ht len) ;*
    commit_file dirh fd).

Definition ree_fs_rename (old new : object_name) (overwrite : bool) : RM unit :=
  dirh_section (Some false) true (fun dirh =>
    let* removed := rcatch (find dirh new) (fun dfh => rret (Some dfh)) (fun _ => rret None) in
    if negb overwrite && bool_decide (is_Some removed) then rerr TEE_ERROR_ACCESS_CONFLICT
    else
      let* dfh := find dirh old in
      on_dirh dirh (tee_fs_dirfile_rename dirf_ops fuel (on_uuid new) dfh (on_id new)) ;*
      match removed with Some r => on_dirh dirh (tee_fs_dirfile_remove dirf_ops r) | None => rret tt end ;*
      commit_dirh_writes dirh ;*
      match removed with Some r => remove_file (dfh_file_number r) | None => rret tt end).

Definition ree_fs_remove (po : object_name) : RM unit :=
  dirh_section (Some false) true (fun dirh =>
    let* dfh := find dirh po in
    on_dirh dirh (tee_fs_dirfile_remove dirf_ops dfh) ;*
    commit_dirh_writes dirh ;*
    remove_file (dfh_file_number dfh) ;*
    rcatch (find dirh po) (fun _ => rpanic) (fun _ => rret tt)).

(** The value: the handle of the search. *)
Definition ree_fs_opendir_rpc (uuid : list Z) : RM nat :=
  rcatch rcall rret (fun _ => rerr TEE_ERROR_OUT_OF_MEMORY) ;* (* calloc *)
  dirh_section None false (fun dirh =>
    on_dirh dirh (tee_fs_dirfile_get_next dirf_ops fuel uuid (-1) 64) ;*
    let* id := rfresh in
    let* s := rget in
    rput (set_dirs (<[id := mk_fsdir dirh (-1) uuid]> (rf_dirs s)) s) ;*
    rret id).

Definition ree_fs_closedir_rpc (d : nat) : RM unit :=
  let* s := rget in
  match rf_dirs s !! d with
  | None => rpanic
  | Some dir => put_dirh (fsd_dirh dir) false ;* let* s := rget in rput (set_dirs (delete d (rf_dirs s)) s)
  end.

(** The value: the identifier of the next object of the TA. *)
Definition ree_fs_readdir_rpc (d : nat) : RM (list Z) :=
  let* s := rget in
  match rf_dirs s !! d with
  | None => rpanic
  | Some dir =>
      let* (oid, idx) := on_dirh (fsd_dirh dir) (tee_fs_dirfile_get_next dirf_ops fuel (fsd_uuid dir) (fsd_idx dir) 64) in
      let* s := rget in
      rput (set_dirs (<[d := mk_fsdir (fsd_dirh dir) idx (fsd_uuid dir)]> (rf_dirs s)) s) ;*
      rret oid
  end.
End store.
