(* ===== verification/ReeStoreRefs.v ===== *)
(** * Secure storage in normal world: references to the directory

    However operations of any clients follow each other, and whatever fails, the
    counter of references to the shared directory is the number of open files and
    searches. A search that is open when another operation fails is left with a pointer to
    a directory that has been freed. *)

From stdpp Require Import base gmap list fin_sets.
From Stdlib Require Import ZArith Lia.
From S2P Require Import Prelude Htree HtreeCreate ReeFs Dirfile ReeStore.

Local Open Scope Z_scope.

(** ** What most steps leave alone *)

Record same_refs (s s' : ree_fs) : Prop := {
  sr_count : rf_refcount s' = rf_refcount s;
  sr_dirh : do_id <$> rf_dirh s' = do_id <$> rf_dirh s;
  sr_fds : dom (rf_fds s') = dom (rf_fds s);
  sr_dirs : dom (rf_dirs s') = dom (rf_dirs s);
  sr_next : rf_next s' = rf_next s
}.

#[global] Instance same_refs_preorder : PreOrder same_refs.
Proof.
  split; [intros s; by constructor|]. intros a b c [H1 H2 H3 H4 H5] [K1 K2 K3 K4 K5]. constructor; congruence.
Qed.

(** Partial correctness: nothing is said of panics and exhausted fuel. *)
Definition hoare {A} (P : ree_fs -> Prop) (m : RM A) (Q : A -> ree_fs -> Prop) (E : ree_fs -> Prop) : Prop :=
  forall s, P s -> match m s with (DOk a, s') => Q a s' | (DErr _, s') => E s' | _ => True end.

Lemma hoare_catch {A B} P (m : RM A) (k : A -> RM B) h Q E R E' :
  hoare P m Q E -> (forall a, hoare (Q a) (k a) R E') -> (forall c, hoare E (h c) R E') -> hoare P (rcatch m k h) R E'.
Proof.
  intros Hm Hk Hh s Hs. unfold rcatch. specialize (Hm s Hs). destruct (m s) as [[a|c| |] s']; [by apply Hk|by apply Hh|done|done].
Qed.

Lemma hoare_bind {A B} P (m : RM A) (k : A -> RM B) Q R E :
  hoare P m Q E -> (forall a, hoare (Q a) (k a) R E) -> hoare P (rbind m k) R E.
Proof. intros Hm Hk. eapply hoare_catch; [exact Hm|exact Hk|]. intros c s Hs. exact Hs. Qed.

Lemma hoare_conseq {A} P P' (m : RM A) Q Q' E E' :
  hoare P m Q E -> (forall s, P' s -> P s) -> (forall a s, Q a s -> Q' a s) -> (forall s, E s -> E' s) -> hoare P' m Q' E'.
Proof. intros Hm HP HQ HE s Hs. specialize (Hm s (HP s Hs)). destruct (m s) as [[] ?]; auto. Qed.

(** [m] changes nothing that has to do with references. *)
Definition framed {A} (m : RM A) : Prop :=
  forall s0, hoare (same_refs s0) m (fun _ => same_refs s0) (same_refs s0).

Lemma framed_by {A} (m : RM A) :
  (forall s, match m s with (DOk _, s') | (DErr _, s') => same_refs s s' | _ => True end) -> framed m.
Proof. intros H s0 s Hs. specialize (H s). destruct (m s) as [[] s']; try done; by etrans. Qed.

Lemma framed_ret {A} (a : A) : framed (rret a).
Proof. by intros s0 s Hs. Qed.
Lemma framed_err {A} c : framed (A := A) (rerr c).
Proof. by intros s0 s Hs. Qed.
Lemma framed_panic {A} : framed (A := A) rpanic.
Proof. by intros s0 s Hs. Qed.
Lemma framed_get : framed rget.
Proof. by intros s0 s Hs. Qed.
Lemma framed_assert b : framed (rassert b).
Proof. destruct b; [apply framed_ret|apply framed_panic]. Qed.
Lemma framed_catch {A B} (m : RM A) (k : A -> RM B) h :
  framed m -> (forall a, framed (k a)) -> (forall c, framed (h c)) -> framed (rcatch m k h).
Proof. intros Hm Hk Hh s0. eapply hoare_catch; [apply Hm|intros a; apply Hk|intros c; apply Hh]. Qed.
Lemma framed_bind {A B} (m : RM A) (k : A -> RM B) : framed m -> (forall a, framed (k a)) -> framed (rbind m k).
Proof. intros Hm Hk. apply framed_catch; [done|done|intros c; apply framed_err]. Qed.
Lemma framed_call : framed rcall.
Proof.
  apply framed_by. intros s. unfold rcall. destruct (fw_call _) as [[] w]; try done; by constructor.
Qed.

Create HintDb framed.
#[export] Hint Resolve framed_ret framed_err framed_panic framed_get framed_assert framed_catch framed_bind framed_call : framed.

Lemma framed_call_ignored : framed rcall_ignored.
Proof. unfold rcall_ignored. auto with framed. Qed.
#[export] Hint Resolve framed_call_ignored : framed.

Lemma framed_remove_file n : framed (remove_file n).
Proof. unfold remove_file. apply framed_catch; [auto with framed| |auto with framed]. intros _. apply framed_by. intros s. by constructor. Qed.

Lemma framed_on_dirh {A} id (m : DM A) : framed (on_dirh id m).
Proof.
  apply framed_by. intros s. unfold on_dirh. destruct (rf_dirh s) as [d|] eqn:Hd; [|done].
  case_bool_decide as Hid; [|done]. destruct (m _) as [r [dirh [w ht]]].
  assert (Hs : same_refs s (set_dirobj (Some (mk_dirobj id dirh ht)) (set_world w s))).
  { constructor; try done. cbn. rewrite Hd. cbn. by rewrite Hid. }
  by destruct r.
Qed.
#[export] Hint Resolve framed_remove_file framed_on_dirh : framed.

Section store_refs.
Context (sha256 : list Z -> list Z).
Context (gcm_enc : list Z -> list Z -> list Z -> list Z -> list Z * list Z).
Context (gcm_dec : list Z -> list Z -> list Z -> list Z -> list Z -> option (list Z)).
Context (fek_encrypt fek_decrypt : list Z -> list Z).
Context (rng : nat -> list Z).
Context (fuel : nat).

Lemma framed_commit id : framed (commit_dirh_writes sha256 gcm_enc rng id).
Proof.
  apply framed_by. intros s. unfold commit_dirh_writes. destruct (rf_dirh s) as [d|] eqn:Hd; [|done].
  case_bool_decide as Hid; [|done]. destruct (tee_fs_htree_sync_to_storage _ _ _ _ _) as [[[[ht res] v]|] x]; [|done].
  assert (Hs : same_refs s (set_dirobj (Some (mk_dirobj id (do_dirh d) ht)) (set_world (back_dir (rf_world s) x) s))).
  { constructor; try done. cbn. rewrite Hd. cbn. by rewrite Hid. }
  by destruct (res =? TEE_SUCCESS).
Qed.

Lemma framed_on_fd {A} fd (m : option tee_fs_htree -> world -> outcome (option tee_fs_htree * Z * option A) * world) :
  framed (on_fd fd m).
Proof.
  apply framed_by. intros s. unfold on_fd. destruct (rf_fds s !! fd) as [f|] eqn:Hf; [|done].
  destruct (m _ _) as [[[[ht res] a]|] x]; [|done].
  assert (Hs : same_refs s (set_fds (<[fd:=mk_fd ht (fd_dfh f)]> (rf_fds s)) (set_world (back_file (rf_world s) (dfh_file_number (fd_dfh f)) x) s))).
  { constructor; try done. cbn. by apply dom_insert_lookup_L. }
  by destruct (res =? TEE_SUCCESS).
Qed.
Hint Resolve framed_commit framed_on_fd : framed.

Lemma framed_sync_fd fd : framed (sync_fd sha256 gcm_enc rng fd).
Proof.
  unfold sync_fd. apply framed_bind; [auto with framed|intros h]. apply framed_by. intros s. unfold rbind, rcatch, rget.
  destruct h as [hash|]; [|done]. destruct (rf_fds s !! fd) as [f|] eqn:Hf; [|done]. cbn. constructor; try done. cbn.
  by apply dom_insert_lookup_L.
Qed.

Lemma framed_write_parts fd parts : forall pos, framed (write_parts gcm_enc gcm_dec rng fd pos parts).
Proof.
  induction parts as [|p parts IH]; intros pos; cbn [write_parts]; [auto with framed|].
  apply framed_bind; [|intros _; apply IH]. destruct (bool_decide _); auto with framed.
Qed.

Lemma framed_set_name dirh fd po overwrite :
  framed (set_name sha256 gcm_enc gcm_dec fek_encrypt fek_decrypt rng fuel dirh fd po overwrite).
Proof.
  unfold set_name. apply framed_bind; [auto with framed|intros old]. destruct (_ && _); [auto with framed|].
  intros s0 s1 Hs1. unfold rbind at 1, rcatch at 1, rget. destruct (rf_fds s1 !! fd) as [f|] eqn:Hf; [|done].
  assert (Hin : fd ∈ dom (rf_fds s0)) by (rewrite <- (sr_fds _ _ Hs1); apply elem_of_dom; eauto).
  refine (hoare_bind (same_refs s0) _ _ (fun _ => same_refs s0) _ _ _ _ s1 Hs1); [apply framed_on_dirh|].
  intros dfh s2 Hs2. unfold rbind at 1, rcatch at 1, rget. unfold rbind at 1, rcatch at 1, rput.
  set (s3 := set_fds _ s2). assert (Hs3 : same_refs s0 s3).
  { etrans; [exact Hs2|]. constructor; try done. cbn. apply dom_insert_lookup_L, elem_of_dom. by rewrite (sr_fds _ _ Hs2). }
  revert s3 Hs3. intros s3 Hs3.
  assert (Hfr : framed (commit_dirh_writes sha256 gcm_enc rng dirh ;*
    match old with Some dfh0 => remove_file (dfh_file_number dfh0) | None => rret tt end)%ree).
  { apply framed_bind; [auto with framed|intros _]. destruct old; auto with framed. }
  exact (Hfr s0 s3 Hs3).
Qed.

Lemma framed_commit_file dirh fd :
  framed (commit_file sha256 gcm_enc gcm_dec fek_encrypt fek_decrypt rng dirh fd).
Proof.
  unfold commit_file. apply framed_bind; [apply framed_sync_fd|intros _]. apply framed_bind; [auto with framed|intros s].
  destruct (rf_fds s !! fd); auto with framed.
Qed.
Hint Resolve framed_sync_fd framed_write_parts framed_set_name framed_commit_file : framed.

(** ** The counter *)

Definition handles (s : ree_fs) : nat := (size (rf_fds s) + size (rf_dirs s))%nat.

(** The counter is the number of handles and of the [k] references of the
    operation under way; addresses in use are below the next one. *)
Record refs (k : Z) (s : ree_fs) : Prop := {
  rc_count : rf_refcount s = Z.of_nat (handles s) + k;
  rc_open : is_Some (rf_dirh s) -> 0 < rf_refcount s;
  rc_fds i : i ∈ dom (rf_fds s) -> (i < rf_next s)%nat;
  rc_dirs i : i ∈ dom (rf_dirs s) -> (i < rf_next s)%nat;
  rc_dirh d : rf_dirh s = Some d -> (do_id d < rf_next s)%nat
}.

Lemma same_refs_refs k s s' : same_refs s s' -> refs k s -> refs k s'.
Proof.
  intros [H1 H2 H3 H4 H5] [C1 C2 C3 C4 C5].
  assert (Hh : handles s' = handles s) by (unfold handles; by rewrite <- !size_dom, H3, H4).
  constructor; rewrite ?Hh, ?H1, ?H3, ?H4, ?H5; try done.
  - intros Hd. apply C2. destruct (rf_dirh s'), (rf_dirh s); try done; eauto.
  - intros d Hd. rewrite Hd in H2. destruct (rf_dirh s) as [d'|] eqn:Hd'; [|done]. injection H2 as ->. by apply C5.
Qed.

(** Steps in the scope of a reference to the directory at [id]. *)
Definition held (k : Z) (id : nat) (s : ree_fs) : Prop := refs k s /\ do_id <$> rf_dirh s = Some id.

Lemma framed_refs {A} (m : RM A) k : framed m -> hoare (refs k) m (fun _ => refs k) (refs k).
Proof.
  intros Hm s Hs. specialize (Hm s s (reflexivity s)). destruct (m s) as [[] s']; try done; by eapply same_refs_refs.
Qed.

Lemma framed_held {A} (m : RM A) k id : framed m -> hoare (held k id) m (fun _ => held k id) (held k id).
Proof.
  intros Hm s [Hs Hid]. specialize (Hm s s (reflexivity s)).
  assert (Hgo : forall s', same_refs s s' -> held k id s').
  { intros s' Hs'. split; [by eapply same_refs_refs|]. by rewrite (sr_dirh _ _ Hs'). }
  destruct (m s) as [[] s']; try done; by apply Hgo.
Qed.

Lemma size_below {V} (m : gmap nat V) n : (forall i, i ∈ dom m -> (i < n)%nat) -> (size m <= n)%nat.
Proof.
  intros H. rewrite <- size_dom. transitivity (size (set_seq (C := gset nat) 0 n)); [|by rewrite size_set_seq].
  apply subseteq_size. intros i Hi. apply elem_of_set_seq. specialize (H i Hi). lia.
Qed.

Lemma handles_bound k s : refs k s -> (handles s <= 2 * rf_next s)%nat.
Proof.
  intros [_ _ C3 C4 _]. unfold handles. pose proof (size_below _ _ C3). pose proof (size_below _ _ C4). lia.
Qed.

(** Fewer than 2^62 handles have been made. *)
Definition few_handles (s : ree_fs) : Prop := Z.of_nat (rf_next s) < 2 ^ 62.

Notation open_dirh := (open_dirh sha256 gcm_enc gcm_dec fek_encrypt fek_decrypt rng fuel).
Notation get_dirh := (get_dirh sha256 gcm_enc gcm_dec fek_encrypt fek_decrypt rng fuel).

Lemma open_dirh_refs s :
  rf_dirh s = None ->
  match open_dirh s with
  | (DOk d, s') => rf_dirh s' = Some d /\ do_id d = rf_next s /\ rf_next s' = S (rf_next s) /\
      rf_refcount s' = rf_refcount s /\ rf_fds s' = rf_fds s /\ rf_dirs s' = rf_dirs s
  | (DErr _, s') => same_refs s s'
  | _ => True
  end.
Proof.
  intros Hd. unfold ReeStore.open_dirh, rbind, rcatch. destruct (tee_fs_dirfile_open _ _ false _) as [[dirh|c| |] [w ht]]; try done.
  destruct (c =? TEE_ERROR_ITEM_NOT_FOUND); [|by constructor].
  destruct (tee_fs_dirfile_open _ _ true _) as [[dirh|c'| |] [w' ht']]; try done.
Qed.

Lemma get_dirh_refs k :
  0 <= k <= 2 ->
  hoare (fun s => refs k s /\ few_handles s) get_dirh
    (fun id s => held (k + 1) id s) (refs k).
Proof.
  intros Hk s [Hr Hf]. pose proof (handles_bound k s Hr) as Hb. unfold few_handles in Hf.
  assert (2 ^ 62 = 4611686018427387904) as E by reflexivity.
  assert (Hend : forall s1 d, rf_dirh s1 = Some d -> (do_id d < rf_next s1)%nat -> (rf_next s <= rf_next s1)%nat ->
    rf_refcount s1 = rf_refcount s -> rf_fds s1 = rf_fds s -> rf_dirs s1 = rf_dirs s ->
    match (let* s0 := rget in
           rput (set_refcount (u64 (rf_refcount s0 + 1)) s0) ;*
           rassert (negb (u64 (rf_refcount s0 + 1) =? 0)) ;* rret (do_id d))%ree s1 with
    | (DOk id, s') => held (k + 1) id s' | (DErr _, s') => refs k s' | _ => True end).
  { intros s1 d Hd Hid Hn Hc Hfd Hdr. unfold rbind, rcatch, rget, rput. cbn [rf_refcount].
    pose proof Hr as [C1 C2 C3 C4 C5]. rewrite Hc, C1.
    rewrite u64_small by cint. destruct (Z.eqb_spec (Z.of_nat (handles s) + k + 1) 0); [lia|]. cbn.
    split; [|cbn; by rewrite Hd]. constructor; cbn; rewrite ?Hfd, ?Hdr.
    - unfold handles. cbn. rewrite Hfd, Hdr. unfold handles. lia.
    - intros _. lia.
    - intros i Hi. specialize (C3 i Hi). lia.
    - intros i Hi. specialize (C4 i Hi). lia.
    - intros d' Hd'. rewrite Hd in Hd'. by injection Hd' as <-. }
  unfold ReeStore.get_dirh. unfold rbind at 1, rcatch at 1, rget. unfold rbind at 1, rcatch at 1.
  destruct (rf_dirh s) as [d|] eqn:Hd.
  - unfold rret at 1. apply (Hend s d); try done. by eapply rc_dirh.
  - pose proof (open_dirh_refs s Hd) as Ho. destruct (open_dirh s) as [[d|c| |] s1]; try done.
    + destruct Ho as (H1 & H2 & H3 & H4 & H5 & H6). apply (Hend s1 d); try done; lia.
    + by eapply same_refs_refs.
Qed.

(** A reference given back; the directory is closed with the last. *)
Lemma put_primitive_refs close k :
  hoare (refs k) (put_dirh_primitive close) (fun _ => refs (k - 1)) (fun _ => False).
Proof.
  intros s Hr. unfold put_dirh_primitive, rbind, rcatch, rget. destruct (Z.eqb_spec (rf_refcount s) 0) as [Hz|Hz]; [done|].
  cbn [negb rassert rret]. unfold rput. pose proof Hr as [C1 C2 C3 C4 C5].
  assert (Hnone : forall s1, rf_fds s1 = rf_fds s -> rf_dirs s1 = rf_dirs s -> rf_next s1 = rf_next s ->
    rf_refcount s1 = rf_refcount s - 1 -> rf_dirh s1 = None -> refs (k - 1) s1).
  { intros s1 H1 H2 H3 H4 H5. constructor; rewrite ?H1, ?H2, ?H3, ?H4, ?H5; try done.
    unfold handles in *. rewrite H1, H2. lia. }
  destruct (rf_dirh s) as [d|] eqn:Hd; [|by apply Hnone].
  destruct ((rf_refcount s - 1 =? 0) || close) eqn:Hc.
  - unfold close_dirh, rcall_ignored, rbind, rcatch, rcall, rget, rput. destruct (fw_call _) as [[] w]; try done; by apply Hnone.
  - apply orb_false_iff in Hc as [Hc _]. apply Z.eqb_neq in Hc. cbn. constructor; cbn; try done.
    + unfold handles in *. cbn. lia.
    + intros _. specialize (C2 ltac:(eauto)). lia.
    + by rewrite Hd.
Qed.

(** [put_dirh] is [put_dirh_primitive] after an assertion. *)
Lemma put_dirh_hoare dirh close P Q :
  hoare P (put_dirh_primitive close) Q (fun _ => False) -> hoare P (put_dirh dirh close) Q (fun _ => False).
Proof.
  intros H s Hs. unfold put_dirh, rbind, rcatch, rget. destruct (bool_decide _); [|done]. cbn [rassert rret]. by apply H.
Qed.

(** ** Handles made and given up *)

Definition with_fd (k : Z) (fd : nat) (s : ree_fs) : Prop := refs k s /\ fd ∈ dom (rf_fds s).
Definition with_dir (k : Z) (d : nat) (s : ree_fs) : Prop := refs k s /\ d ∈ dom (rf_dirs s).

Lemma framed_with_fd {A} (m : RM A) k fd : framed m -> hoare (with_fd k fd) m (fun _ => with_fd k fd) (with_fd k fd).
Proof.
  intros Hm s [Hs Hfd]. specialize (Hm s s (reflexivity s)).
  assert (Hgo : forall s', same_refs s s' -> with_fd k fd s').
  { intros s' Hs'. split; [by eapply same_refs_refs|]. by rewrite (sr_fds _ _ Hs'). }
  destruct (m s) as [[] s']; try done; by apply Hgo.
Qed.

Lemma new_fd_refs k f (w : ree_fs -> fs_world) :
  hoare (refs k) (let* id := rfresh in let* s := rget in
    rput (set_fds (<[id := f]> (rf_fds s)) (set_world (w s) s)) ;* rret id)%ree (with_fd (k - 1)) (refs k).
Proof.
  intros s [C1 C2 C3 C4 C5]. cbn.
  assert (Hnew : rf_fds s !! rf_next s = None).
  { apply not_elem_of_dom. intros Hi. specialize (C3 _ Hi). lia. }
  split; [|cbn; apply dom_insert; set_solver]. constructor; cbn; try done.
  - unfold handles in *. cbn. rewrite map_size_insert_None by done. lia.
  - intros i Hi. rewrite dom_insert in Hi. apply elem_of_union in Hi as [Hi%elem_of_singleton|Hi]; [lia|]. specialize (C3 i Hi). lia.
  - intros i Hi. specialize (C4 i Hi). lia.
  - intros d Hd. specialize (C5 d Hd). lia.
Qed.

Lemma new_dir_refs k (f : tee_fs_dir) :
  hoare (refs k) (let* id := rfresh in let* s := rget in rput (set_dirs (<[id := f]> (rf_dirs s)) s) ;* rret id)%ree
    (fun _ => refs (k - 1)) (refs k).
Proof.
  intros s [C1 C2 C3 C4 C5]. cbn.
  assert (Hnew : rf_dirs s !! rf_next s = None).
  { apply not_elem_of_dom. intros Hi. specialize (C4 _ Hi). lia. }
  constructor; cbn; try done.
  - unfold handles in *. cbn. rewrite map_size_insert_None by done. lia.
  - intros i Hi. specialize (C3 i Hi). lia.
  - intros i Hi. rewrite dom_insert in Hi. apply elem_of_union in Hi as [Hi%elem_of_singleton|Hi]; [lia|]. specialize (C4 i Hi). lia.
  - intros d Hd. specialize (C5 d Hd). lia.
Qed.

Lemma open_object_refs k create hash dfh :
  hoare (refs k) (open_object sha256 gcm_enc gcm_dec fek_encrypt fek_decrypt rng create hash dfh) (with_fd (k - 1)) (refs k).
Proof.
  unfold open_object. cbv zeta.
  assert (Hrm : forall A c, framed (A := A) ((if create then remove_file (dfh_file_number dfh) else rret tt) ;* rerr c)%ree).
  { intros A c. apply framed_bind; [destruct create; auto with framed|auto with framed]. }
  apply (hoare_bind _ _ _ (fun _ => refs k)); [apply framed_refs; auto with framed|]. intros _.
  apply (hoare_bind _ _ _ (fun _ => refs k)); [apply framed_refs; auto with framed|]. intros _.
  intros s Hs. unfold rbind at 1, rcatch at 1, rget. destruct (negb create && _); [exact Hs|].
  destruct (tee_fs_htree_open _ _ _ _ _ _ _ _ _) as [[[[ht|] res]|] x]; [| |exact I].
  - exact (new_fd_refs k (mk_fd (Some ht) dfh) (fun _ => back_file (rf_world s) (dfh_file_number dfh) x) s Hs).
  - unfold rbind at 1, rcatch at 1, rput.
    set (s1 := set_world _ s). assert (Hs1 : refs k s1) by (eapply same_refs_refs; [|exact Hs]; by constructor).
    refine (hoare_bind (refs k) _ _ (fun _ => refs k) _ _ _ _ s1 Hs1); [apply framed_refs; auto with framed|intros _].
    apply (hoare_bind _ _ _ (fun _ => refs k)); [apply framed_refs; destruct create; auto with framed|].
    intros _ s2 Hs2. exact Hs2.
Qed.

Lemma call_ignored_hoare (P : ree_fs -> Prop) :
  (forall s w, P s -> P (set_world w s)) -> hoare P rcall_ignored (fun _ => P) (fun _ => False).
Proof. intros HP s Hs. unfold rcall_ignored, rcatch, rcall. destruct (fw_call _) as [[] w]; try done; by apply HP. Qed.

Lemma remove_file_hoare (P : ree_fs -> Prop) n :
  (forall s w, P s -> P (set_world w s)) -> hoare P (remove_file n) (fun _ => P) (fun _ => False).
Proof.
  intros HP s Hs. unfold remove_file, rbind, rcatch, rcall, rget, rput, rret.
  destruct (fw_call _) as [[] w]; try done; repeat apply HP; done.
Qed.

Lemma refs_world k s w : refs k s -> refs k (set_world w s).
Proof. intros Hr. eapply same_refs_refs; [|exact Hr]. by constructor. Qed.

Lemma close_fd_refs k fd : hoare (with_fd k fd) (close_fd fd) (fun _ => refs (k + 1)) (fun _ => False).
Proof.
  unfold close_fd. eapply hoare_bind; [apply (call_ignored_hoare (with_fd k fd)); intros s w [Hr Hd]; split; [by apply refs_world|done]|].
  intros _ s [[C1 C2 C3 C4 C5] Hfd]. cbn. apply elem_of_dom in Hfd as [f Hf]. constructor; cbn; try done.
  - unfold handles in *. cbn. pose proof (map_size_delete_Some fd (rf_fds s) ltac:(eauto)) as Hsz.
    assert (0 < size (rf_fds s))%nat.
    { assert (rf_fds s ≠ ∅) as Hne by (intros He; rewrite He in Hf; done). apply map_size_non_empty_iff in Hne. lia. }
    lia.
  - intros i Hi. apply C3. rewrite dom_delete in Hi. set_solver.
Qed.

Lemma close_dir_refs k d :
  hoare (with_dir k d) (let* s := rget in rput (set_dirs (delete d (rf_dirs s)) s))%ree (fun _ => refs (k + 1)) (fun _ => False).
Proof.
  intros s [[C1 C2 C3 C4 C5] Hd]. cbn. apply elem_of_dom in Hd as [f Hf]. constructor; cbn; try done.
  - unfold handles in *. cbn. pose proof (map_size_delete_Some d (rf_dirs s) ltac:(eauto)) as Hsz.
    assert (0 < size (rf_dirs s))%nat.
    { assert (rf_dirs s ≠ ∅) as Hne by (intros He; rewrite He in Hf; done). apply map_size_non_empty_iff in Hne. lia. }
    lia.
  - intros i Hi. apply C4. rewrite dom_delete in Hi. set_solver.
Qed.

Lemma hoare_and {A} P P' (m : RM A) Q Q' E E' :
  hoare P m Q E -> hoare P' m Q' E' ->
  hoare (fun s => P s /\ P' s) m (fun a s => Q a s /\ Q' a s) (fun s => E s /\ E' s).
Proof. intros H H' s [Hs Hs']. specialize (H s Hs). specialize (H' s Hs'). destruct (m s) as [[] ?]; auto. Qed.

(** Giving a reference back changes no other handle. *)
Lemma put_keeps close F D :
  hoare (fun s => rf_fds s = F /\ rf_dirs s = D) (put_dirh_primitive close)
    (fun _ s => rf_fds s = F /\ rf_dirs s = D) (fun _ => False).
Proof.
  intros s [HF HD]. unfold put_dirh_primitive, rbind, rcatch, rget. destruct (negb _); [|done]. cbn [rassert rret]. unfold rput.
  destruct (rf_dirh s); [|done]. destruct (_ || _); [|done].
  unfold close_dirh, rcall_ignored, rbind, rcatch, rcall, rget, rput. by destruct (fw_call _) as [[] w].
Qed.

Lemma put_all close k s :
  refs k s ->
  match put_dirh_primitive close s with
  | (DOk _, s') => refs (k - 1) s' /\ rf_fds s' = rf_fds s /\ rf_dirs s' = rf_dirs s
  | (DErr _, _) => False
  | _ => True
  end.
Proof.
  intros Hr. pose proof (hoare_and _ _ _ _ _ _ _ (put_primitive_refs close k) (put_keeps close (rf_fds s) (rf_dirs s)) s) as H.
  cbv beta in H. specialize (H (conj Hr (conj eq_refl eq_refl))). destruct (put_dirh_primitive close s) as [[] s']; tauto.
Qed.

Lemma put_with_fd close k fd : hoare (with_fd k fd) (put_dirh_primitive close) (fun _ => with_fd (k - 1) fd) (fun _ => False).
Proof.
  intros s [Hr Hfd]. pose proof (put_all close k s Hr) as H. unfold with_fd.
  destruct (put_dirh_primitive close s) as [[] s']; try done. destruct H as (H1 & -> & _). done.
Qed.

Lemma put_with_dir close k d : hoare (with_dir k d) (put_dirh_primitive close) (fun _ => with_dir (k - 1) d) (fun _ => False).
Proof.
  intros s [Hr Hd]. pose proof (put_all close k s Hr) as H. unfold with_dir.
  destruct (put_dirh_primitive close s) as [[] s']; try done. destruct H as (H1 & _ & ->). done.
Qed.

Notation few s := (refs 0 s /\ few_handles s).
Notation dirh_section := (dirh_section sha256 gcm_enc gcm_dec fek_encrypt fek_decrypt rng fuel).

(** A section keeps the count when its body does, or hands its reference to a
    new handle. *)
Lemma section_refs {A} on_ok on_err (body : nat -> RM A) :
  (forall id, hoare (refs 1) (body id) (fun _ => refs (if on_ok is Some _ then 1 else 0)) (refs 1)) ->
  hoare (fun s => few s) (dirh_section on_ok on_err body) (fun _ => refs 0) (refs 0).
Proof.
  intros Hbody. unfold ReeStore.dirh_section. eapply hoare_bind.
  - eapply hoare_conseq; [apply (get_dirh_refs 0); lia|done| |done]. intros id s [Hs _]. exact Hs.
  - intros id. assert (Hput : forall close, hoare (refs 1) (put_dirh id close) (fun _ => refs 0) (fun _ => False)).
    { intros close. apply put_dirh_hoare. apply (put_primitive_refs close 1). }
    eapply hoare_catch; [apply Hbody| |].
    + intros a. destruct on_ok as [close|]; [|by intros s Hs].
      eapply hoare_bind; [eapply hoare_conseq; [apply Hput|done|done|done]|by intros _ s Hs].
    + intros c. eapply hoare_bind; [eapply hoare_conseq; [apply Hput|done|done|done]|by intros _ s Hs].
Qed.

(** ** The operations *)

Notation ree_fs_open := (ree_fs_open sha256 gcm_enc gcm_dec fek_encrypt fek_decrypt rng fuel).
Notation ree_fs_create := (ree_fs_create sha256 gcm_enc gcm_dec fek_encrypt fek_decrypt rng fuel).
Notation ree_fs_write := (ree_fs_write sha256 gcm_enc gcm_dec fek_encrypt fek_decrypt rng fuel).
Notation ree_fs_truncate := (ree_fs_truncate sha256 gcm_enc gcm_dec fek_encrypt fek_decrypt rng fuel).
Notation ree_fs_rename := (ree_fs_rename sha256 gcm_enc gcm_dec fek_encrypt fek_decrypt rng fuel).
Notation ree_fs_remove := (ree_fs_remove sha256 gcm_enc gcm_dec fek_encrypt fek_decrypt rng fuel).
Notation ree_fs_opendir_rpc := (ree_fs_opendir_rpc sha256 gcm_enc gcm_dec fek_encrypt fek_decrypt rng fuel).
Notation ree_fs_readdir_rpc := (ree_fs_readdir_rpc sha256 gcm_enc gcm_dec fek_encrypt fek_decrypt rng fuel).
Notation ree_fs_read := (ree_fs_read gcm_dec).

Lemma section_framed {A} on_err (body : nat -> RM A) :
  (forall id, framed (body id)) ->
  hoare (fun s => few s) (dirh_section (Some false) on_err body) (fun _ => refs 0) (refs 0).
Proof. intros Hb. apply section_refs. intros id. by apply framed_refs. Qed.

Lemma ree_fs_open_refs po : hoare (fun s => few s) (ree_fs_open po) (fun _ => refs 0) (refs 0).
Proof.
  apply section_refs. intros id. apply (hoare_bind _ _ _ (fun _ => refs 1)); [apply framed_refs; auto with framed|intros dfh].
  apply (hoare_bind _ _ _ (fun fd => with_fd 0 fd)).
  - eapply hoare_catch; [apply (open_object_refs 1)| |]; [by intros fd s Hs|by intros c s Hs].
  - intros fd s [Hs _]. unfold rbind, rcatch, rget. destruct (rf_fds s !! fd) as [f|]; [|done]. by destruct (fd_ht f).
Qed.

Lemma ree_fs_create_refs po overwrite head attr data :
  hoare (fun s => few s) (ree_fs_create po overwrite head attr data) (fun _ => refs 0) (refs 0).
Proof.
  unfold ReeStore.ree_fs_create. eapply hoare_bind.
  { eapply hoare_conseq; [apply (get_dirh_refs 0); lia|done| |done]. intros id s [Hs _]. exact Hs. }
  intros id.
  assert (Hput : forall k, hoare (refs k) (put_dirh id true) (fun _ => refs (k - 1)) (fun _ => False)).
  { intros k. apply put_dirh_hoare, put_primitive_refs. }
  assert (Hnone : forall c, hoare (refs 1) (put_dirh id true ;* rret tt ;* rerr (A := nat) c)%ree (fun _ => refs 0) (refs 0)).
  { intros c. eapply hoare_bind; [eapply hoare_conseq; [apply (Hput 1)|done|done|done]|]. intros ? s Hs; exact Hs. }
  assert (Hsome : forall fd n c, hoare (with_fd 0 fd) (put_dirh id true ;* (close_fd fd ;* remove_file n) ;* rerr (A := nat) c)%ree
    (fun _ => refs 0) (refs 0)).
  { intros fd n c. eapply hoare_bind; [eapply hoare_conseq; [apply put_dirh_hoare, (put_with_fd true 0 fd)|done|done|done]|intros ?].
    eapply hoare_bind; [|intros ? s Hs; exact Hs].
    eapply hoare_bind; [eapply hoare_conseq; [apply (close_fd_refs (0 - 1) fd)|done|done|done]|intros ?].
    eapply hoare_conseq; [apply (remove_file_hoare (refs (0 - 1 + 1)) n); intros s w; apply refs_world|done|done|done]. }
  eapply hoare_catch; [apply framed_refs; auto with framed| |intros c; apply Hnone]. intros n.
  eapply hoare_catch; [apply (open_object_refs 1)| |intros c; apply Hnone]. intros fd.
  eapply hoare_catch; [apply (framed_with_fd _ 0 fd)| |intros c; apply Hsome].
  - apply framed_bind; [auto with framed|intros _]. apply framed_bind; auto with framed.
  - intros _ s [Hs _]. exact Hs.
Qed.

Lemma ree_fs_opendir_refs uuid : hoare (fun s => few s) (ree_fs_opendir_rpc uuid) (fun _ => refs 0) (refs 0).
Proof.
  unfold ReeStore.ree_fs_opendir_rpc. eapply (hoare_bind _ _ _ (fun _ s => few s)).
  - intros s [Hs Hf]. unfold rcatch, rcall, rret, rerr. destruct (fw_call _) as [[] w]; try done; [split|]; by try apply refs_world.
  - intros _. apply section_refs. intros id. apply (hoare_bind _ _ _ (fun _ => refs 1)); [apply framed_refs; auto with framed|intros _].
    apply (new_dir_refs 1).
Qed.

Lemma framed_readdir d : framed (ree_fs_readdir_rpc d).
Proof.
  intros s0 s1 Hs1. unfold ReeStore.ree_fs_readdir_rpc, rbind at 1, rcatch at 1, rget.
  destruct (rf_dirs s1 !! d) as [dir|] eqn:Hd; [|done].
  assert (Hin : d ∈ dom (rf_dirs s0)) by (rewrite <- (sr_dirs _ _ Hs1); apply elem_of_dom; eauto).
  refine (hoare_bind (same_refs s0) _ _ (fun _ => same_refs s0) _ _ _ _ s1 Hs1); [apply framed_on_dirh|].
  intros [oid idx] s2 Hs2. cbn. etrans; [exact Hs2|]. constructor; try done. cbn. apply dom_insert_lookup_L, elem_of_dom.
  by rewrite (sr_dirs _ _ Hs2).
Qed.

(** One call of [ree_fs_ops]. *)
Inductive ree_op :=
| OpOpen (po : object_name)
| OpCreate (po : object_name) (overwrite : bool) (head attr data : list Z)
| OpClose (fd : nat)
| OpRead (fd : nat) (pos len : Z)
| OpWrite (fd : nat) (pos : Z) (buf : list Z)
| OpTruncate (fd : nat) (len : Z)
| OpRename (old new : object_name) (overwrite : bool)
| OpRemove (po : object_name)
| OpOpendir (uuid : list Z)
| OpReaddir (d : nat)
| OpClosedir (d : nat).

Definition run_op (op : ree_op) : RM unit :=
  (match op with
  | OpOpen po => ree_fs_open po ;* rret tt
  | OpCreate po overwrite head attr data => ree_fs_create po overwrite head attr data ;* rret tt
  | OpClose fd => ree_fs_close fd
  | OpRead fd pos len => ree_fs_read fd pos len ;* rret tt
  | OpWrite fd pos buf => ree_fs_write fd pos buf
  | OpTruncate fd len => ree_fs_truncate fd len
  | OpRename old new overwrite => ree_fs_rename old new overwrite
  | OpRemove po => ree_fs_remove po
  | OpOpendir uuid => ree_fs_opendir_rpc uuid ;* rret tt
  | OpReaddir d => ree_fs_readdir_rpc d ;* rret tt
  | OpClosedir d => ree_fs_closedir_rpc d
  end)%ree.

(** Handles passed in are open. *)
Definition op_ok (op : ree_op) (s : ree_fs) : Prop :=
  match op with
  | OpClose fd | OpRead fd _ _ | OpWrite fd _ _ | OpTruncate fd _ => fd ∈ dom (rf_fds s)
  | OpReaddir d | OpClosedir d => d ∈ dom (rf_dirs s)
  | _ => True
  end.

Lemma run_op_refs op s :
  refs 0 s -> few_handles s -> op_ok op s ->
  match run_op op s with (DOk _, s') | (DErr _, s') => refs 0 s' | _ => True end.
Proof.
  intros Hr Hf Hok.
  assert (Hret : forall A (m : RM A) P, P s -> hoare P m (fun _ => refs 0) (refs 0) ->
    match (m ;* rret tt)%ree s with (DOk _, s') | (DErr _, s') => refs 0 s' | _ => True end).
  { intros A m P HP Hm. unfold rbind, rcatch, rret, rerr. specialize (Hm s HP). by destruct (m s) as [[] s']. }
  assert (Hgo : forall (m : RM unit) P, P s -> hoare P m (fun _ => refs 0) (refs 0) ->
    match m s with (DOk _, s') | (DErr _, s') => refs 0 s' | _ => True end).
  { intros m P HP Hm. specialize (Hm s HP). by destruct (m s) as [[] s']. }
  assert (Hfew : few s) by done. destruct op; cbn [run_op op_ok] in *.
  - eapply (Hret _ _ (fun s => few s)); [done|apply ree_fs_open_refs].
  - eapply (Hret _ _ (fun s => few s)); [done|apply ree_fs_create_refs].
  - eapply (Hgo _ (with_fd 0 fd)); [done|]. eapply hoare_bind; [eapply hoare_conseq; [apply (put_with_fd false 0 fd)|done|done|done]|].
    intros ?. eapply hoare_conseq; [apply (close_fd_refs (0 - 1) fd)|done|done|done].
  - eapply (Hret _ _ (refs 0)); [done|]. apply framed_refs. apply framed_bind; auto with framed.
  - eapply (Hgo _ (fun s => few s)); [done|]. apply section_framed. intros id. apply framed_bind; auto with framed.
  - eapply (Hgo _ (fun s => few s)); [done|]. apply section_framed. intros id. apply framed_bind; auto with framed.
  - eapply (Hgo _ (fun s => few s)); [done|]. apply section_framed. intros id. apply framed_bind; [auto with framed|intros r].
    destruct (_ && _); [auto with framed|]. apply framed_bind; [auto with framed|intros dfh].
    apply framed_bind; [auto with framed|intros _]. apply framed_bind; [destruct r; auto with framed|intros _].
    apply framed_bind; [auto with framed|intros _]. destruct r; auto with framed.
  - eapply (Hgo _ (fun s => few s)); [done|]. apply section_framed. intros id. apply framed_bind; [auto with framed|intros dfh].
    repeat (apply framed_bind; [auto with framed|intros _]). auto with framed.
  - eapply (Hret _ _ (fun s => few s)); [done|apply ree_fs_opendir_refs].
  - eapply (Hret _ _ (refs 0)); [done|]. apply framed_refs, framed_readdir.
  - eapply (Hgo _ (with_dir 0 d)); [done|]. intros s1 Hs1. unfold ree_fs_closedir_rpc, rbind at 1, rcatch at 1, rget.
    destruct (rf_dirs s1 !! d) as [dir|]; [|done].
    refine (hoare_bind (with_dir 0 d) _ _ (fun _ => with_dir (0 - 1) d) _ _ _ _ s1 Hs1).
    + eapply hoare_conseq; [apply put_dirh_hoare, (put_with_dir false 0 d)|done|done|done].
    + intros _. eapply hoare_conseq; [apply (close_dir_refs (0 - 1) d)|done|done|done].
Qed.

(** Operations of any clients, one after the other under the mutex, in any world
    of results; one that panics has no successor. *)
Inductive ree_steps : ree_fs -> ree_fs -> Prop :=
| rs_refl s : ree_steps s s
| rs_step s s1 op r s2 :
    ree_steps s s1 -> few_handles s1 -> op_ok op s1 -> run_op op s1 = (r, s2) ->
    match r with DOk _ | DErr _ => True | _ => False end -> ree_steps s s2
(** Normal world may change its files and what it will answer at any time. *)
| rs_world s s1 w : ree_steps s s1 -> ree_steps s (set_world w s1).

Definition ree_fs_initial (w : fs_world) : ree_fs := mk_ree_fs w None 0 ∅ ∅ 1.

Lemma ree_steps_refs w s : ree_steps (ree_fs_initial w) s -> refs 0 s.
Proof.
  intros Hs. remember (ree_fs_initial w) as s0 eqn:Hs0. induction Hs as [s|s s1 op r s2 Hs IH Hf Hok Hr Hnp|s s1 w' Hs IH]; subst.
  - constructor; cbn; try done.
  - specialize (IH eq_refl). pose proof (run_op_refs op s1 IH Hf Hok) as H. rewrite Hr in H. by destruct r.
  - by apply refs_world, IH.
Qed.

(** C24. The shared directory: after any operations, with handles that are open, of any clients (a panic ends the run), with any
    failures and any interference of normal world, and while fewer than 2^62 handles were given out, the counter of references is the
    number of open files and searches, and the directory is not kept open when there are none. It may be closed while there
    are some: a call that fails closes it ([refused_create_breaks_search]). *)
Theorem ree_fs_refcount_exact w s :
  ree_steps (ree_fs_initial w) s ->
  rf_refcount s = Z.of_nat (size (rf_fds s)) + Z.of_nat (size (rf_dirs s)) /\
  (rf_fds s = ∅ -> rf_dirs s = ∅ -> rf_dirh s = None).
Proof.
  intros Hs. pose proof (ree_steps_refs w s Hs) as [C1 C2 _ _ _]. unfold handles in C1. split; [lia|].
  intros HF HD. rewrite HF, HD in C1. rewrite !map_size_empty in C1. destruct (rf_dirh s); [|done].
  specialize (C2 ltac:(eauto)). cbn in C1. lia.
Qed.
End store_refs.

(** ** A file system at work *)

Notation demo_run := (run_op demo_sha demo_enc demo_dec demo_wrap demo_wrap demo_rng 8).
Notation demo_steps := (ree_steps demo_sha demo_enc demo_dec demo_wrap demo_wrap demo_rng 8).

Definition fs_empty : ree_fs := ree_fs_initial (mk_fw None ∅ [] 0).
Definition object_a : object_name := mk_oname (replicate 16 1) [7].

(** An object is created, a search begun, and the creation repeated without
    leave to overwrite. *)
Definition fs_created : ree_fs := snd (demo_run (OpCreate object_a false [1] [] [2; 3]) fs_empty).
Definition fs_searched : ree_fs := snd (demo_run (OpOpendir (replicate 16 1)) fs_created).
Definition fs_refused : ree_fs := snd (demo_run (OpCreate object_a false [] [] [4]) fs_searched).

(** The created object can be found, and reads as written. *)
Example fs_created_reads :
  fst (ree_fs_open demo_sha demo_enc demo_dec demo_wrap demo_wrap demo_rng 8 object_a fs_created) = DOk (3%nat, 3) /\
  fst ((let* (fd, _) := ree_fs_open demo_sha demo_enc demo_dec demo_wrap demo_wrap demo_rng 8 object_a in
        ree_fs_read demo_dec fd 0 10)%ree fs_created) = DOk [1; 2; 3].
Proof. split; vm_compute; reflexivity. Qed.

Lemma demo_step s s1 op r s2 :
  demo_steps s s1 -> few_handles s1 -> op_ok op s1 -> demo_run op s1 = (r, s2) ->
  match r with DOk _ | DErr _ => True | _ => False end -> demo_steps s s2.
Proof. apply rs_step. Qed.

Lemma fs_refused_reachable : demo_steps fs_empty fs_refused.
Proof.
  eapply demo_step with (s1 := fs_searched) (op := OpCreate object_a false [] [] [4]) (r := DErr TEE_ERROR_ACCESS_CONFLICT);
    [|vm_compute; done|done|vm_compute; reflexivity|done].
  eapply demo_step with (s1 := fs_created) (op := OpOpendir (replicate 16 1)) (r := DOk tt);
    [|vm_compute; done|done|vm_compute; reflexivity|done].
  eapply demo_step with (s1 := fs_empty) (op := OpCreate object_a false [1] [] [2; 3]) (r := DOk tt);
    [apply rs_refl|vm_compute; done|done|vm_compute; reflexivity|done].
Qed.

Lemma op_ok_readdir d s : is_Some (rf_dirs s !! d) -> op_ok (OpReaddir d) s.
Proof. apply elem_of_dom. Qed.

(** A flaw: an operation that fails closes the shared directory, also under
    the searches that are open. With every call to normal world successful, a refused
    creation (the object exists) leaves the search of another client with a pointer to
    freed memory: reading its next entry uses it, closing it fails an assertion. *)
Theorem refused_create_breaks_search :
  demo_steps fs_empty fs_refused /\
  fst (demo_run (OpCreate object_a false [] [] [4]) fs_searched) = DErr TEE_ERROR_ACCESS_CONFLICT /\
  fst (demo_run (OpReaddir 3) fs_searched) = DOk tt /\
  op_ok (OpReaddir 3) fs_refused /\ fst (demo_run (OpReaddir 3) fs_refused) = DPanic /\
  fst (demo_run (OpClosedir 3) fs_refused) = DPanic.
Proof.
  split; [apply fs_refused_reachable|]. split; [vm_compute; reflexivity|]. split; [vm_compute; reflexivity|].
  split; [|split; vm_compute; reflexivity]. apply op_ok_readdir. vm_compute. eauto.
Qed.

Lemma ree_fs_refcount_exact_witness : rf_refcount fs_refused = 2.
Proof.
  destruct (ree_fs_refcount_exact demo_sha demo_enc demo_dec demo_wrap demo_wrap demo_rng 8 (mk_fw None ∅ [] 0) fs_refused
    fs_refused_reachable) as [H _]. rewrite H. vm_compute. reflexivity.
Defined.
