(* ===== verification/Vm.v ===== *)
(** * User address spaces: [core/mm/vm.c]

    The list of mapped regions of a user mode context, and the operations on it:
    choosing an address, mapping, unmapping, changing protection, moving, mapping
    the parameters of a call, checking access rights. Translation tables, caches
    and the pager are reached through calls that change nothing here; whether such
    a call (or an allocation) succeeds is the next number of [vm_ext]. *)

From S2P Require Import Prelude.
From stdpp Require Import base gmap list.
From Stdlib Require Import ZArith Lia.

Local Open Scope Z_scope.

(** ** [tee_mmu_types.h], [core_mmu.h], [tee_api_defines.h] *)

Definition TEE_MATTR_VALID_BLOCK : Z := BIT 0.
Definition TEE_MATTR_PR : Z := BIT 4.
Definition TEE_MATTR_PW : Z := BIT 5.
Definition TEE_MATTR_PX : Z := BIT 6.
Definition TEE_MATTR_UR : Z := BIT 7.
Definition TEE_MATTR_UW : Z := BIT 8.
Definition TEE_MATTR_UX : Z := BIT 9.
Definition TEE_MATTR_PRW : Z := Z.lor TEE_MATTR_PR TEE_MATTR_PW.
Definition TEE_MATTR_PRX : Z := Z.lor TEE_MATTR_PR TEE_MATTR_PX.
Definition TEE_MATTR_URW : Z := Z.lor TEE_MATTR_UR TEE_MATTR_UW.
Definition TEE_MATTR_PROT_MASK : Z :=
  Z.lor (Z.lor TEE_MATTR_PRW TEE_MATTR_PX) (Z.lor TEE_MATTR_URW TEE_MATTR_UX).
Definition TEE_MATTR_SECURE : Z := BIT 11.
Definition TEE_MATTR_CACHE_SHIFT : Z := 12.

Definition VM_FLAG_EPHEMERAL : Z := BIT 0.
Definition VM_FLAG_PERMANENT : Z := BIT 1.
Definition VM_FLAG_SHAREABLE : Z := BIT 2.
Definition VM_FLAG_READONLY : Z := BIT 4.
Definition VM_FLAGS_NONPRIV : Z := Z.lor (Z.lor VM_FLAG_EPHEMERAL VM_FLAG_PERMANENT) VM_FLAG_SHAREABLE.

Definition SMALL_PAGE_SIZE : Z := 4096.
Definition SMALL_PAGE_MASK : Z := SMALL_PAGE_SIZE - 1.
Definition CORE_MMU_PGDIR_SHIFT : Z := 21.
Definition CORE_MMU_PGDIR_SIZE : Z := BIT CORE_MMU_PGDIR_SHIFT.
Definition CORE_MMU_USER_CODE_SIZE : Z := 4096.
Definition CORE_MMU_USER_PARAM_SIZE : Z := 4096.
Definition L1_XLAT_ADDRESS_SHIFT : Z := 30.

Definition TEE_MEMORY_ACCESS_READ : Z := 0x00000001.
Definition TEE_MEMORY_ACCESS_WRITE : Z := 0x00000002.
Definition TEE_MEMORY_ACCESS_ANY_OWNER : Z := 0x00000004.
Definition TEE_MEMORY_ACCESS_NONSECURE : Z := 0x10000000.
Definition TEE_MEMORY_ACCESS_SECURE : Z := 0x20000000.

(** [ADD_OVERFLOW] and [ROUNDUP_OVERFLOW] on [size_t]: the result, or overflow. *)
Definition ADD_OVERFLOW (a b : Z) : option Z := if a + b <=? UINT64_MAX then Some (a + b) else None.
Definition ROUNDUP_OVERFLOW (v size : Z) : option Z :=
  t ← ADD_OVERFLOW v (u64 (size - 1)); Some (Z.land t (u64 (Z.lnot (size - 1)))).
Definition IS_POWER_OF_TWO (x : Z) : bool := negb (x =? 0) && (Z.land x (u64 (u64 (Z.lnot x) + 1)) =? x).

(** ** [tee_misc.c] *)

Definition is_valid_conf_and_notnull_size (b bl a al : Z) : bool :=
  if (u64 (u64 (b - 1) + bl) <? b) || (u64 (u64 (a - 1) + al) <? a) then false
  else if (bl =? 0) || (al =? 0) then false else true.

Definition core_is_buffer_inside (b bl a al : Z) : bool :=
  if negb (is_valid_conf_and_notnull_size b bl a al) then false
  else (a <=? b) && (u64 (u64 (b - 1) + bl) <=? u64 (u64 (a - 1) + al)).

Definition core_is_buffer_outside (b bl a al : Z) : bool :=
  if negb (is_valid_conf_and_notnull_size b bl a al) then false
  else (u64 (u64 (b + bl) - 1) <? a) || (u64 (u64 (a + al) - 1) <? b).

Definition core_is_buffer_intersect (b bl a al : Z) : bool :=
  if negb (is_valid_conf_and_notnull_size b bl a al) then false
  else if (u64 (u64 (b + bl) - 1) <? a) || (u64 (u64 (a + al) - 1) <? b) then false else true.

(** ** Regions *)

(** A memory object is known by its address; 0 is [NULL]. *)
Definition mobj : Type := nat.

(** [r_id] is the address of the structure: what the list operations compare. *)
Record vm_region := mk_region {
  r_id : nat;
  r_mobj : mobj;
  r_offset : Z;   (* size_t *)
  r_va : Z;       (* vaddr_t *)
  r_size : Z;     (* size_t *)
  r_attr : Z;     (* uint16_t *)
  r_flags : Z;    (* uint16_t *)
}.
#[export] Instance vm_region_eq_dec : EqDecision vm_region.
Proof. solve_decision. Defined.

Definition set_va (va : Z) (r : vm_region) : vm_region :=
  mk_region (r_id r) (r_mobj r) (r_offset r) va (r_size r) (r_attr r) (r_flags r).
Definition set_rsize (size : Z) (r : vm_region) : vm_region :=
  mk_region (r_id r) (r_mobj r) (r_offset r) (r_va r) size (r_attr r) (r_flags r).
Definition set_attr (attr : Z) (r : vm_region) : vm_region :=
  mk_region (r_id r) (r_mobj r) (r_offset r) (r_va r) (r_size r) attr (r_flags r).

(** [r->va + r->size] *)
Definition r_end (r : vm_region) : Z := u64 (r_va r + r_size r).

(** [TAILQ] operations. *)
Definition is_region (r x : vm_region) : bool := Nat.eqb (r_id x) (r_id r).

(** The list from [r] on: [r], [TAILQ_NEXT(r)], ... *)
Fixpoint tailq_from (r : vm_region) (l : list vm_region) : list vm_region :=
  match l with
  | [] => []
  | x :: l' => if is_region r x then l else tailq_from r l'
  end.
Definition tailq_next (r : vm_region) (l : list vm_region) : option vm_region := head (tail (tailq_from r l)).
Definition tailq_remove (r : vm_region) (l : list vm_region) : list vm_region :=
  filter (fun x => is_region r x = false) l.
Fixpoint tailq_insert_before (r reg : vm_region) (l : list vm_region) : list vm_region :=
  match l with
  | [] => []
  | x :: l' => if is_region r x then reg :: l else x :: tailq_insert_before r reg l'
  end.
Fixpoint tailq_insert_after (r reg : vm_region) (l : list vm_region) : list vm_region :=
  match l with
  | [] => []
  | x :: l' => if is_region r x then x :: reg :: l' else x :: tailq_insert_after r reg l'
  end.
(** A store into the structure at [r]. *)
Definition region_update (r : vm_region) (f : vm_region -> vm_region) (l : list vm_region) : list vm_region :=
  (fun x => if is_region r x then f x else x) <$> l.

(** What memory objects answer: [struct mobj] and its [mobj_ops]. *)
Class Mobjs := {
  mobj_size : mobj -> Z;
  mobj_phys_granule : mobj -> Z;
  mobj_is_paged : mobj -> bool;
  mobj_is_secure : mobj -> bool;
  mobj_get_cattr : mobj -> Z + Z;              (* the attributes, or an error *)
  mobj_get_phys_offs : mobj -> Z -> Z;
  mobj_get_pa : mobj -> Z -> Z -> Z + Z;       (* the address, or an error *)
  mobj_has_fobj : mobj -> bool;
  mobj_get_cattr_err : forall m e, mobj_get_cattr m = inr e -> e <> TEE_SUCCESS;
}.

(** The state: [struct vm_info], the references taken on memory objects (those
    taken less those given back), the answers to come, the next address the heap hands
    out, and whether the context is the active one. *)
Record vm_info := mk_vm {
  vm_regions : list vm_region;
  vm_asid : Z;
  vm_refs : gmap mobj Z;
  vm_ext : list Z;
  vm_next : nat;
  vm_active : bool;
}.

Definition set_regions (l : list vm_region) (s : vm_info) : vm_info :=
  mk_vm l (vm_asid s) (vm_refs s) (vm_ext s) (vm_next s) (vm_active s).
Definition set_refs (m : gmap mobj Z) (s : vm_info) : vm_info :=
  mk_vm (vm_regions s) (vm_asid s) m (vm_ext s) (vm_next s) (vm_active s).

(** The answer of the next call that may fail (0 is success). *)
Definition ext_call (s : vm_info) : Z * vm_info :=
  match vm_ext s with
  | [] => (0, s)
  | c :: e => (c, mk_vm (vm_regions s) (vm_asid s) (vm_refs s) e (vm_next s) (vm_active s))
  end.

(** [calloc(1, sizeof(struct vm_region))] *)
Definition calloc_region (s : vm_info) : option nat * vm_info :=
  let '(c, s) := ext_call s in
  if c =? 0 then
    (Some (vm_next s), mk_vm (vm_regions s) (vm_asid s) (vm_refs s) (vm_ext s) (S (vm_next s)) (vm_active s))
  else (None, s).

Definition refs_of (m : mobj) (refs : gmap mobj Z) : Z := default 0 (refs !! m).
Definition mobj_get (m : mobj) (refs : gmap mobj Z) : gmap mobj Z :=
  if Nat.eqb m 0 then refs else <[m := refs_of m refs + 1]> refs.
Definition mobj_put (m : mobj) (refs : gmap mobj Z) : gmap mobj Z :=
  if Nat.eqb m 0 then refs else <[m := refs_of m refs - 1]> refs.

Section vm.
Context {MO : Mobjs}.
(** The first-level entry that user mode uses, and the number of page tables. *)
Context (user_va_idx PGT_CACHE_SIZE : Z).

Definition va_range_base : Z := Z.shiftl user_va_idx L1_XLAT_ADDRESS_SHIFT.
Definition va_range_size : Z := BIT L1_XLAT_ADDRESS_SHIFT.

(** ** Choosing an address *)

(** The flags that keep regions apart. *)
Definition sep_flags : Z := Z.lor (Z.lor VM_FLAG_EPHEMERAL VM_FLAG_PERMANENT) VM_FLAG_SHAREABLE.
Definition sep_pad (other reg : vm_region) : Z :=
  if negb (r_flags other =? 0) && negb (Z.land (r_flags other) sep_flags =? Z.land (r_flags reg) sep_flags)
  then SMALL_PAGE_SIZE else 0.

Definition select_va_in_range (prev_reg next_reg reg : vm_region) (pad_begin pad_end granul : Z) : outcome Z :=
  match (b ← ADD_OVERFLOW (r_va prev_reg) (r_size prev_reg);
         b ← ADD_OVERFLOW b pad_begin;
         b ← ADD_OVERFLOW b (sep_pad prev_reg reg);
         ROUNDUP_OVERFLOW b granul) with
  | None => Return 0
  | Some begin_va =>
      if negb (r_va reg =? 0) && (r_va reg <? begin_va) then Return 0
      else
        let begin_va := if negb (r_va reg =? 0) then r_va reg else begin_va in
        match (e ← ADD_OVERFLOW begin_va (r_size reg);
               e ← ADD_OVERFLOW e pad_end;
               e ← ADD_OVERFLOW e (sep_pad next_reg reg);
               ROUNDUP_OVERFLOW e granul) with
        | None => Return 0
        | Some end_va =>
            if end_va <=? r_va next_reg
            then (assert! ((r_va reg =? 0) || (r_va reg =? begin_va)); Return begin_va)%c
            else Return 0
        end
  end.

(** The number of page tables that the regions span. *)
Definition get_num_req_pgts (s : vm_info) : Z :=
  let '(b, e) := match vm_regions s with
    | [] => (va_range_base, va_range_base)
    | f :: _ =>
        (ROUNDDOWN (r_va f) CORE_MMU_PGDIR_SIZE,
         ROUNDUP (r_end (default f (last (vm_regions s)))) CORE_MMU_PGDIR_SIZE)
    end in
  Z.shiftr (u64 (e - b)) CORE_MMU_PGDIR_SHIFT.

Definition pgt_check_avail (num_tbls : Z) : bool := num_tbls <=? PGT_CACHE_SIZE.

Definition alloc_pgt (s : vm_info) : Z :=
  if negb (pgt_check_avail (get_num_req_pgts s)) then TEE_ERROR_OUT_OF_MEMORY else TEE_SUCCESS.

Definition dummy_first_reg : vm_region := mk_region 0%nat 0%nat 0 va_range_base 0 0 0.
Definition dummy_last_reg : vm_region := mk_region 0%nat 0%nat 0 (u64 (va_range_base + va_range_size)) 0 0 0.

(** The search for a gap: the new list with [reg] in it, at its address. *)
Fixpoint add_loop (prev_r reg : vm_region) (pad_begin pad_end granul : Z) (l : list vm_region)
    : outcome (option (list vm_region * vm_region)) :=
  match l with
  | [] =>
      (do! va <- select_va_in_range prev_r dummy_last_reg reg pad_begin pad_end granul;
       if negb (va =? 0) then Return (Some ([set_va va reg], set_va va reg)) else Return None)%c
  | r :: l' =>
      (do! va <- select_va_in_range prev_r r reg pad_begin pad_end granul;
       if negb (va =? 0) then Return (Some (set_va va reg :: l, set_va va reg))
       else
         do! x <- add_loop r reg pad_begin pad_end granul l';
         Return ((fun '(l, reg) => (r :: l, reg)) <$> x))%c
  end.

(** On success the region with its address. *)
Definition umap_add_region (reg : vm_region) (pad_begin pad_end align : Z) (s : vm_info)
    : outcome (Z * vm_region * vm_info) :=
  if negb (Z.land (Z.lor (Z.lor (Z.lor (r_va reg) (r_size reg)) pad_begin) pad_end) SMALL_PAGE_MASK =? 0)
  then Return (TEE_ERROR_ACCESS_CONFLICT, reg, s)
  else
    match ADD_OVERFLOW (r_offset reg) (r_size reg) with
    | None => Return (TEE_ERROR_BAD_PARAMETERS, reg, s)
    | Some offs_plus_size =>
        if ROUNDUP (mobj_size (r_mobj reg)) SMALL_PAGE_SIZE <? offs_plus_size
        then Return (TEE_ERROR_BAD_PARAMETERS, reg, s)
        else
          let granul := Z.max align SMALL_PAGE_SIZE in
          if negb (IS_POWER_OF_TWO granul) then Return (TEE_ERROR_BAD_PARAMETERS, reg, s)
          else
            (do! x <- add_loop dummy_first_reg reg pad_begin pad_end granul (vm_regions s);
             match x with
             | Some (l, reg) => Return (TEE_SUCCESS, reg, set_regions l s)
             | None => Return (TEE_ERROR_ACCESS_CONFLICT, reg, s)
             end)%c
    end.

(** ** Mapping *)

(** [mobj_put(reg->mobj); free(reg)] at the end of [vm_map_pad] *)
Definition free_region (m : mobj) (s : vm_info) : vm_info := set_refs (mobj_put m (vm_refs s)) s.

(** The part of [vm_map_pad] after the region is added: page tables and the pager. *)
Definition map_tables (m : mobj) (s : vm_info) : Z * vm_info :=
  let res := alloc_pgt s in
  if negb (res =? TEE_SUCCESS) then (res, s)
  else if mobj_is_paged m then if negb (mobj_has_fobj m) then (TEE_ERROR_GENERIC, s) else ext_call s
  else (TEE_SUCCESS, s).

Definition vm_map_pad (va len prot flags : Z) (m : mobj) (offs pad_begin pad_end align : Z) (s : vm_info)
    : outcome (Z * Z * vm_info) :=
  if negb (Z.land prot (u32 (Z.lnot TEE_MATTR_PROT_MASK)) =? 0) then Return (TEE_ERROR_BAD_PARAMETERS, va, s)
  else
    match calloc_region s with
    | (None, s) => Return (TEE_ERROR_OUT_OF_MEMORY, va, s)
    | (Some id, s) =>
        match (if mobj_is_paged m then inl 0 else mobj_get_cattr m) with
        | inr res => Return (res, va, s)
        | inl cattr =>
            let attr := u32 (Z.lor (Z.lor (Z.shiftl cattr TEE_MATTR_CACHE_SHIFT) TEE_MATTR_VALID_BLOCK)
                                   (if mobj_is_secure m then TEE_MATTR_SECURE else 0)) in
            let s := set_refs (mobj_get m (vm_refs s)) s in
            let reg := mk_region id m offs va (ROUNDUP len SMALL_PAGE_SIZE) (u16 (Z.lor attr prot)) (u16 flags) in
            (do! (res, reg, s) <- umap_add_region reg pad_begin pad_end align s;
             if negb (res =? TEE_SUCCESS) then Return (res, va, free_region m s)
             else
               let '(res, s) := map_tables m s in
               if negb (res =? TEE_SUCCESS)
               then Return (res, va, free_region m (set_regions (tailq_remove reg (vm_regions s)) s))
               else Return (TEE_SUCCESS, r_va reg, s))%c
        end
    end.

Definition vm_map (va len prot flags : Z) (m : mobj) (offs : Z) (s : vm_info) : outcome (Z * Z * vm_info) :=
  vm_map_pad va len prot flags m offs 0 0 0 s.

(** ** Ranges of regions *)

Definition find_vm_region (l : list vm_region) (va : Z) : option vm_region :=
  find (fun r => (r_va r <=? va) && (va <? r_end r)) l.

(** The loop from [r] over the regions after it. *)
Fixpoint contiguous_loop (cmp_regs : option (vm_region -> vm_region -> vm_region -> bool))
    (r0 : vm_region) (end_va : Z) (r : vm_region) (rest : list vm_region) : bool :=
  if end_va <=? r_end r then true
  else
    match rest with
    | [] => false
    | r_next :: rest' =>
        if negb (r_end r =? r_va r_next) then false
        else if match cmp_regs with Some cmp => negb (cmp r0 r r_next) | None => false end then false
        else contiguous_loop cmp_regs r0 end_va r_next rest'
    end.

Definition va_range_is_contiguous (l : list vm_region) (r0 : vm_region) (va len : Z)
    (cmp_regs : option (vm_region -> vm_region -> vm_region -> bool)) : bool :=
  match ADD_OVERFLOW va len with
  | None => false
  | Some end_va => contiguous_loop cmp_regs r0 end_va r0 (tail (tailq_from r0 l))
  end.

Definition split_vm_region (r : vm_region) (va : Z) (s : vm_info) : outcome (Z * vm_info) :=
  let diff := u64 (va - r_va r) in
  (assert! (negb (diff =? 0) && (diff <? r_size r));
   match calloc_region s with
   | (None, s) => Return (TEE_ERROR_OUT_OF_MEMORY, s)
   | (Some id, s) =>
       let '(res, s) := if mobj_is_paged (r_mobj r) then ext_call s else (TEE_SUCCESS, s) in
       if negb (res =? TEE_SUCCESS) then Return (res, s)
       else
         let s := set_refs (mobj_get (r_mobj r) (vm_refs s)) s in
         let r2 := mk_region id (r_mobj r) (u64 (r_offset r + diff)) va (u64 (r_size r - diff)) (r_attr r) (r_flags r) in
         Return (TEE_SUCCESS,
           set_regions (tailq_insert_after r r2 (region_update r (set_rsize diff) (vm_regions s))) s)
   end)%c.

(** On success the first region of the range. *)
Definition split_vm_range (va len : Z) (cmp_regs : option (vm_region -> vm_region -> vm_region -> bool)) (s : vm_info)
    : outcome (Z * option vm_region * vm_info) :=
  if negb (Z.land (Z.lor va len) SMALL_PAGE_MASK =? 0) then Return (TEE_ERROR_BAD_PARAMETERS, None, s)
  else
    match ADD_OVERFLOW va len with
    | None => Return (TEE_ERROR_BAD_PARAMETERS, None, s)
    | Some end_va =>
        match find_vm_region (vm_regions s) va with
        | None => Return (TEE_ERROR_BAD_PARAMETERS, None, s)
        | Some r =>
            if negb (va_range_is_contiguous (vm_regions s) r va len cmp_regs)
            then Return (TEE_ERROR_BAD_PARAMETERS, None, s)
            else
              (do! (res, r0, s) <-
                 (if negb (va =? r_va r) then
                    do! (res, s) <- split_vm_region r va s;
                    Return (res, tailq_next r (vm_regions s), s)
                  else Return (TEE_SUCCESS, Some r, s));
               if negb (res =? TEE_SUCCESS) then Return (res, None, s)
               else
                 match find_vm_region (vm_regions s) (u64 (u64 (va + len) - 1)) with
                 | None => Return (TEE_ERROR_BAD_PARAMETERS, None, s)
                 | Some r =>
                     if negb (end_va =? r_end r) then
                       do! (res, s) <- split_vm_region r end_va s;
                       Return (res, r0, s)
                     else Return (TEE_SUCCESS, r0, s)
                 end)%c
        end
    end.

(** The loop of [merge_vm_range] from [r] over the regions after it. *)
Fixpoint merge_loop (va end_va : Z) (r : vm_region) (rest : list vm_region) (refs : gmap mobj Z)
    : list vm_region * gmap mobj Z :=
  match rest with
  | [] => ([r], refs)
  | r_next :: rest' =>
      let continue := let '(l, refs) := merge_loop va end_va r_next rest' refs in (r :: l, refs) in
      if r_end r <? va then continue
      else if end_va <? r_va r then (r :: rest, refs)
      else if negb (r_end r =? r_va r_next) then continue
      else if negb (Nat.eqb (r_mobj r) (r_mobj r_next)) || negb (r_flags r =? r_flags r_next)
              || negb (r_attr r =? r_attr r_next) then continue
      else if negb (u64 (r_offset r + r_size r) =? r_offset r_next) then continue
      else merge_loop va end_va (set_rsize (u64 (r_size r + r_size r_next)) r) rest' (mobj_put (r_mobj r_next) refs)
  end.

Definition merge_vm_range (va len : Z) (s : vm_info) : outcome vm_info :=
  match ADD_OVERFLOW va len with
  | None => Return s
  | Some end_va =>
      match vm_regions s with
      | [] => Panic (* TAILQ_NEXT(NULL) *)
      | r :: rest =>
          let '(l, refs) := merge_loop va end_va r rest (vm_refs s) in
          Return (set_refs refs (set_regions l s))
      end
  end.

(** The first regions of [l] that end at [limit] or before, and the others. *)
Fixpoint while_inside (limit : Z) (l : list vm_region) : list vm_region * list vm_region :=
  match l with
  | [] => ([], [])
  | r :: l' => if limit <? r_end r then ([], l) else let '(a, b) := while_inside limit l' in (r :: a, b)
  end.

(** ** Moving a range *)

Definition cmp_region_for_remap (r0 r rn : vm_region) : bool :=
  (r_flags r0 =? r_flags r) && (r_attr r0 =? r_attr r) && Nat.eqb (r_mobj r0) (r_mobj r) &&
  (r_offset rn =? u64 (r_offset r + r_size r)).

(** [alloc_pgt] and the pager for a region put back or moved. *)
Definition remap_add (fobj : bool) (s : vm_info) : Z * vm_info :=
  let res := alloc_pgt s in
  if negb (res =? TEE_SUCCESS) then (res, s) else if fobj then ext_call s else (TEE_SUCCESS, s).

(** [err_restore_map] *)
Fixpoint restore_loop (fobj : bool) (next_va : Z) (regs : list vm_region) (s : vm_info) : outcome vm_info :=
  match regs with
  | [] => Return s
  | r :: regs' =>
      (do! (res, r, s) <- umap_add_region (set_va next_va r) 0 0 0 s;
       if negb (res =? TEE_SUCCESS) then Panic
       else
         let '(res, s) := remap_add fobj s in
         if negb (res =? TEE_SUCCESS) then Panic
         else restore_loop fobj (u64 (next_va + r_size r)) regs' s)%c
  end.

(** The loop that takes the regions added back from the map, from [r_first] to the
    one before [r_last]: what it takes, in order. *)
Fixpoint takeback_loop (r_last : vm_region) (l : list vm_region) : list vm_region :=
  match l with
  | [] => []
  | r :: l' => if is_region r_last r then [] else r :: takeback_loop r_last l'
  end.

(** The loop that adds the regions at their new place: [added] has those added so
    far. The value: the result, and what is left to restore. *)
Fixpoint remap_loop (fobj : bool) (new_va len pad_begin pad_end : Z) (r_first r_last : option vm_region)
    (regs : list vm_region) (s : vm_info) : outcome (Z * list vm_region * option vm_region * vm_info) :=
  match regs with
  | [] => Return (TEE_SUCCESS, [], r_first, s)
  | r :: regs' =>
      (do! (res, r, s) <-
         match r_last with
         | Some r_last => umap_add_region (set_va (r_end r_last) r) 0 0 0 s
         | None => umap_add_region (set_va new_va r) pad_begin (u64 (u64 (pad_end + len) - r_size r)) 0 s
         end;
       let added := res =? TEE_SUCCESS in
       let r_last := if added then Some r else r_last in
       let r_first := match r_first with Some f => Some f | None => Some r end in
       let '(res, s) := if added then remap_add fobj s else (res, s) in
       if negb (res =? TEE_SUCCESS) then
         let regs' := if added then regs' else r :: regs' in
         let back := match r_last, r_first with
           | Some r_last, Some r_first => takeback_loop r_last (tailq_from r_first (vm_regions s))
           | _, _ => []
           end in
         Return (res, back ++ regs', r_first,
                 set_regions (foldr tailq_remove (vm_regions s) back) s)
       else remap_loop fobj new_va len pad_begin pad_end r_first r_last regs' s)%c
  end.

(** The value: the result and [*new_va]. *)
Definition vm_remap (new_va old_va len pad_begin pad_end : Z) (s : vm_info) : outcome (Z * Z * vm_info) :=
  (assert! (vm_active s);
   if (len =? 0) || negb (Z.land (Z.lor len old_va) SMALL_PAGE_MASK =? 0)
   then Return (TEE_ERROR_BAD_PARAMETERS, new_va, s)
   else
     do! (res, r0, s) <- split_vm_range old_va len (Some cmp_region_for_remap) s;
     if negb (res =? TEE_SUCCESS) then Return (res, new_va, s)
     else
       match r0 with
       | None => Panic
       | Some r0 =>
           let fobj := mobj_is_paged (r_mobj r0) in
           if fobj && negb (mobj_has_fobj (r_mobj r0)) then Panic
           else
             let '(regs, _) := while_inside (u64 (old_va + len)) (tailq_from r0 (vm_regions s)) in
             let s := set_regions (foldr tailq_remove (vm_regions s) regs) s in
             do! (res, regs, r_first, s) <- remap_loop fobj new_va len pad_begin pad_end None None regs s;
             if res =? TEE_SUCCESS then
               match r_first with
               | None => Panic
               | Some r_first => Return (TEE_SUCCESS, r_va r_first, s)
               end
             else
               do! s <- restore_loop fobj old_va regs s;
               Return (res, new_va, s)
       end)%c.

(** ** Flags and protection *)

Definition cmp_region_for_get_flags (r0 r rn : vm_region) : bool := r_flags r0 =? r_flags r.

Definition page_range_bad (va len : Z) : bool :=
  (len =? 0) || negb (Z.land (Z.lor len va) SMALL_PAGE_MASK =? 0).

Definition vm_get_flags (va len : Z) (s : vm_info) : Z * option Z :=
  if page_range_bad va len then (TEE_ERROR_BAD_PARAMETERS, None)
  else
    match find_vm_region (vm_regions s) va with
    | None => (TEE_ERROR_BAD_PARAMETERS, None)
    | Some r =>
        if negb (va_range_is_contiguous (vm_regions s) r va len (Some cmp_region_for_get_flags))
        then (TEE_ERROR_BAD_PARAMETERS, None)
        else (TEE_SUCCESS, Some (r_flags r))
    end.

Definition cmp_region_for_get_prot (r0 r rn : vm_region) : bool :=
  Z.land (r_attr r0) TEE_MATTR_PROT_MASK =? Z.land (r_attr r) TEE_MATTR_PROT_MASK.

Definition vm_get_prot (va len : Z) (s : vm_info) : Z * option Z :=
  if page_range_bad va len then (TEE_ERROR_BAD_PARAMETERS, None)
  else
    match find_vm_region (vm_regions s) va with
    | None => (TEE_ERROR_BAD_PARAMETERS, None)
    | Some r =>
        if negb (va_range_is_contiguous (vm_regions s) r va len (Some cmp_region_for_get_prot))
        then (TEE_ERROR_BAD_PARAMETERS, None)
        else (TEE_SUCCESS, Some (Z.land (r_attr r) TEE_MATTR_PROT_MASK))
    end.

(** [r->attr &= ~TEE_MATTR_PROT_MASK; r->attr |= prot;] *)
Definition set_prot_attr (prot attr : Z) : Z :=
  u16 (Z.lor (u16 (Z.land attr (Z.lnot TEE_MATTR_PROT_MASK))) prot).

(** The second loop of [vm_set_prot]: the pager may refuse a paged region. *)
Fixpoint pager_set_attr (l : list vm_region) (s : vm_info) : outcome vm_info :=
  match l with
  | [] => Return s
  | r :: l' =>
      if mobj_is_paged (r_mobj r) then
        let '(c, s) := ext_call s in
        if negb (c =? 0) then Panic else pager_set_attr l' s
      else pager_set_attr l' s
  end.

Definition vm_set_prot (va len prot : Z) (s : vm_info) : outcome (Z * vm_info) :=
  (assert! (vm_active s);
   if negb (Z.land prot (u32 (Z.lnot TEE_MATTR_PROT_MASK)) =? 0) || (len =? 0)
   then Return (TEE_ERROR_BAD_PARAMETERS, s)
   else
     do! (res, r0, s) <- split_vm_range va len None s;
     if negb (res =? TEE_SUCCESS) then Return (res, s)
     else
       let inside := match r0 with
         | Some r0 => fst (while_inside (u64 (va + len)) (tailq_from r0 (vm_regions s)))
         | None => []
         end in
       let upd r := region_update r (fun r => set_attr (set_prot_attr prot (r_attr r)) r) in
       let s := set_regions (foldr upd (vm_regions s) inside) s in
       do! s <- pager_set_attr inside s;
       do! s <- merge_vm_range va len s;
       Return (TEE_SUCCESS, s))%c.

(** ** Unmapping *)

Definition umap_remove_region (reg : vm_region) (s : vm_info) : vm_info :=
  set_refs (mobj_put (r_mobj reg) (vm_refs s)) (set_regions (tailq_remove reg (vm_regions s)) s).

(** The loop from [r] over the regions after it. *)
Fixpoint unmap_loop (end_va : Z) (r : vm_region) (rest : list vm_region) (s : vm_info) : vm_info :=
  let s := umap_remove_region r s in
  match rest with
  | [] => s
  | r_next :: rest' => if r_end r =? end_va then s else unmap_loop end_va r_next rest' s
  end.

Definition vm_unmap (va len : Z) (s : vm_info) : outcome (Z * vm_info) :=
  (assert! (vm_active s);
   match ROUNDUP_OVERFLOW len SMALL_PAGE_SIZE with
   | None => Return (TEE_ERROR_BAD_PARAMETERS, s)
   | Some l =>
       if (l =? 0) || negb (Z.land va SMALL_PAGE_MASK =? 0) then Return (TEE_ERROR_BAD_PARAMETERS, s)
       else
         match ADD_OVERFLOW va l with
         | None => Return (TEE_ERROR_BAD_PARAMETERS, s)
         | Some end_va =>
             do! (res, r, s) <- split_vm_range va l None s;
             if negb (res =? TEE_SUCCESS) then Return (res, s)
             else
               match r with
               | None => Panic
               | Some r =>
                   match tailq_from r (vm_regions s) with
                   | [] => Panic
                   | r :: rest => Return (TEE_SUCCESS, unmap_loop end_va r rest s)
                   end
               end
         end
   end)%c.

(** ** Life of an address space *)

(** [thread_get_user_kcode], [thread_get_user_kdata]: what has to be mapped for the
    kernel while in user mode. *)
Record kinit := mk_kinit { k_mobj : mobj; k_offs : Z; k_va : Z; k_sz : Z }.

Definition map_kinit (kcode kdata : kinit) (s : vm_info) : outcome (Z * vm_info) :=
  (do! (res, s) <-
     (if negb (k_sz kcode =? 0) then
        do! (res, _, s) <- vm_map (k_va kcode) (k_sz kcode) TEE_MATTR_PRX VM_FLAG_PERMANENT (k_mobj kcode) (k_offs kcode) s;
        Return (res, s)
      else Return (TEE_SUCCESS, s));
   if negb (res =? TEE_SUCCESS) then Return (res, s)
   else if negb (k_sz kdata =? 0) then
     do! (res, _, s) <- vm_map (k_va kdata) (k_sz kdata) TEE_MATTR_PRW VM_FLAG_PERMANENT (k_mobj kdata) (k_offs kdata) s;
     Return (res, s)
   else Return (TEE_SUCCESS, s))%c.

Definition vm_info_final (s : vm_info) : vm_info :=
  if vm_asid s =? 0 then s
  else
    let s := foldl (fun s r => umap_remove_region r s) s (vm_regions s) in
    mk_vm [] 0 (vm_refs s) (vm_ext s) (vm_next s) (vm_active s).

(** [asid] is what [asid_alloc] returns. *)
Definition vm_info_init (asid : Z) (kcode kdata : kinit) (s : vm_info) : outcome (Z * vm_info) :=
  if asid =? 0 then Return (TEE_ERROR_GENERIC, s)
  else
    (do! (res, s) <- map_kinit kcode kdata (mk_vm [] asid (vm_refs s) (vm_ext s) (vm_next s) (vm_active s));
     Return (res, if negb (res =? TEE_SUCCESS) then vm_info_final s else s))%c.

(** ** Parameters of a call *)

Definition vm_clean_param (s : vm_info) : vm_info :=
  foldl (fun s r => if has_flag (r_flags r) VM_FLAG_EPHEMERAL then umap_remove_region r s else s) s (vm_regions s).

Definition check_param_map_empty (s : vm_info) : bool :=
  forallb (fun r => negb (has_flag (r_flags r) VM_FLAG_EPHEMERAL)) (vm_regions s).

Record param_mem := mk_pmem { pm_mobj : mobj; pm_size : Z; pm_offs : Z }.

Definition param_mem_to_user_va (mem : param_mem) (l : list vm_region) : option Z :=
  let phys_offs := u64 (mobj_get_phys_offs (pm_mobj mem) CORE_MMU_USER_PARAM_SIZE + pm_offs mem) in
  let r := find (fun region =>
    has_flag (r_flags region) VM_FLAG_EPHEMERAL && Nat.eqb (pm_mobj mem) (r_mobj region) &&
    negb (phys_offs <? r_offset region) && negb (u64 (r_offset region + r_size region) <=? phys_offs)) l in
  (fun region => u64 (r_va region + phys_offs - r_offset region)) <$> r.

Definition CMP_TRILEAN (a b : Z) : Z := if b <? a then 1 else if a <? b then -1 else 0.

Definition cmp_param_mem (m0 m1 : param_mem) : Z :=
  if Nat.eqb (pm_mobj m0) 0 && Nat.eqb (pm_mobj m1) 0 then 0
  else if Nat.eqb (pm_mobj m0) 0 then 1
  else if Nat.eqb (pm_mobj m1) 0 then -1
  else
    let ret := CMP_TRILEAN (b2z (mobj_is_secure (pm_mobj m0))) (b2z (mobj_is_secure (pm_mobj m1))) in
    if negb (ret =? 0) then ret
    else
      let ret := CMP_TRILEAN (Z.of_nat (pm_mobj m0)) (Z.of_nat (pm_mobj m1)) in
      if negb (ret =? 0) then ret
      else
        let ret := CMP_TRILEAN (pm_offs m0) (pm_offs m1) in
        if negb (ret =? 0) then ret else CMP_TRILEAN (pm_size m0) (pm_size m1).

(** [qsort] with [cmp_param_mem]. Entries with an object that compare equal are
    equal, and those without one are not looked at, so that any sort does. *)
Fixpoint insert_param (m : param_mem) (l : list param_mem) : list param_mem :=
  match l with
  | [] => [m]
  | x :: l' => if cmp_param_mem m x <=? 0 then m :: l else x :: insert_param m l'
  end.
Definition sort_params (l : list param_mem) : list param_mem := foldr insert_param [] l.

(** The loop that merges entries, from [mem[m]] on: neighbours and overlaps. *)
Fixpoint merge_params (cur : param_mem) (l : list param_mem) : list param_mem :=
  match l with
  | [] => [cur]
  | n :: l' =>
      if Nat.eqb (pm_mobj n) 0 then [cur]
      else if Nat.eqb (pm_mobj n) (pm_mobj cur) &&
              ((pm_offs n =? u64 (pm_offs cur + pm_size cur)) ||
               core_is_buffer_intersect (pm_offs cur) (pm_size cur) (pm_offs n) (pm_size n))
      then merge_params (mk_pmem (pm_mobj cur) (u64 (u64 (pm_offs n + pm_size n) - pm_offs cur)) (pm_offs cur)) l'
      else cur :: merge_params n l'
  end.

Definition TEE_NUM_PARAMS : nat := 4.
Definition TEE_PARAM_TYPE_GET (types : Z) (n : nat) : Z := Z.land (Z.shiftr types (4 * Z.of_nat n)) 0xF.
Definition TEE_PARAM_TYPE_MEMREF_INPUT : Z := 5.
Definition TEE_PARAM_TYPE_MEMREF_OUTPUT : Z := 6.
Definition TEE_PARAM_TYPE_MEMREF_INOUT : Z := 7.

Definition param_is_memref (types : Z) (n : nat) : bool :=
  let t := TEE_PARAM_TYPE_GET types n in
  (t =? TEE_PARAM_TYPE_MEMREF_INPUT) || (t =? TEE_PARAM_TYPE_MEMREF_OUTPUT) || (t =? TEE_PARAM_TYPE_MEMREF_INOUT).

(** The pages that a parameter needs; no object when it is not memory. *)
Definition param_pages (types : Z) (n : nat) (p : param_mem) : param_mem :=
  if param_is_memref types n then
    let phys_offs := mobj_get_phys_offs (pm_mobj p) CORE_MMU_USER_PARAM_SIZE in
    let offs := ROUNDDOWN (u64 (phys_offs + pm_offs p)) CORE_MMU_USER_PARAM_SIZE in
    let size := ROUNDUP (u64 (phys_offs + pm_offs p - offs + pm_size p)) CORE_MMU_USER_PARAM_SIZE in
    mk_pmem (pm_mobj p) (if size =? 0 then CORE_MMU_USER_PARAM_SIZE else size) offs
  else mk_pmem 0%nat 0 0.

Fixpoint map_params (l : list param_mem) (s : vm_info) : outcome (Z * vm_info) :=
  match l with
  | [] => Return (TEE_SUCCESS, s)
  | m :: l' =>
      (do! (res, _, s) <- vm_map 0 (pm_size m) (Z.lor TEE_MATTR_PRW TEE_MATTR_URW)
                            (Z.lor VM_FLAG_EPHEMERAL VM_FLAG_SHAREABLE) (pm_mobj m) (pm_offs m) s;
       if negb (res =? TEE_SUCCESS) then Return (res, s) else map_params l' s)%c
  end.

(** The address of each parameter that has one. *)
Fixpoint param_vas (types : Z) (n : nat) (params : list param_mem) (l : list vm_region) : Z * list (option Z) :=
  match params with
  | [] => (TEE_SUCCESS, [])
  | p :: params' =>
      if negb (param_is_memref types n) || Nat.eqb (pm_mobj p) 0 then
        let '(res, vas) := param_vas types (S n) params' l in (res, None :: vas)
      else
        match param_mem_to_user_va p l with
        | None => (TEE_ERROR_GENERIC, [])
        | Some va => let '(res, vas) := param_vas types (S n) params' l in (res, Some va :: vas)
        end
  end.

(** The value: the result and [param_va]. *)
Definition vm_map_param (types : Z) (params : list param_mem) (s : vm_info) : outcome (Z * list (option Z) * vm_info) :=
  let mem := sort_params (imap (param_pages types) params) in
  let mem := match mem with
    | m :: l => if Nat.eqb (pm_mobj m) 0 then [] else merge_params m l
    | [] => []
    end in
  (assert! (check_param_map_empty s);
   do! (res, s) <- map_params mem s;
   let '(res, vas) := if negb (res =? TEE_SUCCESS) then (res, []) else param_vas types 0 params (vm_regions s) in
   let res := if negb (res =? TEE_SUCCESS) then res else alloc_pgt s in
   Return (res, vas, if negb (res =? TEE_SUCCESS) then vm_clean_param s else s))%c.

(** ** Memory of the pager's copies *)

Definition vm_add_rwmem (m : mobj) (va : Z) (s : vm_info) : outcome (Z * Z * vm_info) :=
  match calloc_region s with
  | (None, s) => Return (TEE_ERROR_OUT_OF_MEMORY, va, s)
  | (Some id, s) =>
      let reg := mk_region id m 0 0 (ROUNDUP (mobj_size m) SMALL_PAGE_SIZE)
                   (if mobj_is_secure m then TEE_MATTR_SECURE else 0) 0 in
      (do! (res, reg, s) <- umap_add_region reg 0 0 0 s;
       if negb (res =? TEE_SUCCESS) then Return (res, va, s)
       else
         let res := alloc_pgt s in
         if negb (res =? TEE_SUCCESS) then Return (res, va, umap_remove_region reg s)
         else Return (res, r_va reg, s))%c
  end.

Definition vm_rem_rwmem (m : mobj) (va : Z) (s : vm_info) : vm_info :=
  match find (fun r => Nat.eqb (r_mobj r) m && (r_va r =? va)) (vm_regions s) with
  | Some r => umap_remove_region r s
  | None => s
  end.

(** ** Questions about addresses *)

Definition vm_buf_is_inside_um_private (va size : Z) (s : vm_info) : bool :=
  existsb (fun r => negb (has_flag (r_flags r) VM_FLAGS_NONPRIV) && core_is_buffer_inside va size (r_va r) (r_size r))
    (vm_regions s).

Definition vm_buf_intersects_um_private (va size : Z) (s : vm_info) : bool :=
  existsb (fun r => negb (has_flag (r_attr r) VM_FLAGS_NONPRIV) && core_is_buffer_intersect va size (r_va r) (r_size r))
    (vm_regions s).

Definition vm_buf_to_mboj_offs (va size : Z) (s : vm_info) : Z * option (mobj * Z) :=
  match find (fun r => negb (Nat.eqb (r_mobj r) 0) && core_is_buffer_inside va size (r_va r) (r_size r)) (vm_regions s) with
  | Some r =>
      let poffs := mobj_get_phys_offs (r_mobj r) CORE_MMU_USER_PARAM_SIZE in
      (TEE_SUCCESS, Some (r_mobj r, u64 (va - r_va r + r_offset r - poffs)))
  | None => (TEE_ERROR_BAD_PARAMETERS, None)
  end.

(** With [pa] null only the attributes are asked for. *)
Definition user_va2attr (ua : Z) (s : vm_info) : Z * option Z :=
  match find (fun r => core_is_buffer_inside ua 1 (r_va r) (r_size r)) (vm_regions s) with
  | Some r => (TEE_SUCCESS, Some (r_attr r))
  | None => (TEE_ERROR_ACCESS_DENIED, None)
  end.

Definition vm_va2pa (ua : Z) (s : vm_info) : outcome (Z * option Z) :=
  match find (fun r => core_is_buffer_inside ua 1 (r_va r) (r_size r)) (vm_regions s) with
  | Some r =>
      let granule := Z.max (mobj_phys_granule (r_mobj r)) SMALL_PAGE_SIZE in
      (assert! ((granule =? 0) || IS_POWER_OF_TWO granule);
       let offset := u64 (r_offset r + ROUNDDOWN (u64 (ua - r_va r)) granule) in
       match mobj_get_pa (r_mobj r) offset granule with
       | inr res => Return (res, None)
       | inl p => Return (TEE_SUCCESS, Some (Z.lor p (Z.land ua (granule - 1))))
       end)%c
  | None => Return (TEE_ERROR_ACCESS_DENIED, None)
  end.

(** One page of the loop of [vm_check_access_rights]. *)
Definition check_page (flags attr : Z) : Z :=
  if has_flag flags TEE_MEMORY_ACCESS_NONSECURE && has_flag attr TEE_MATTR_SECURE then TEE_ERROR_ACCESS_DENIED
  else if has_flag flags TEE_MEMORY_ACCESS_SECURE && negb (has_flag attr TEE_MATTR_SECURE) then TEE_ERROR_ACCESS_DENIED
  else if has_flag flags TEE_MEMORY_ACCESS_WRITE && negb (has_flag attr TEE_MATTR_UW) then TEE_ERROR_ACCESS_DENIED
  else if has_flag flags TEE_MEMORY_ACCESS_READ && negb (has_flag attr TEE_MATTR_UR) then TEE_ERROR_ACCESS_DENIED
  else TEE_SUCCESS.

(** [None]: out of fuel. *)
Fixpoint check_loop (fuel : nat) (flags a end_addr : Z) (s : vm_info) : option Z :=
  match fuel with
  | O => None
  | S fuel =>
      if negb (a <? end_addr) then Some TEE_SUCCESS
      else
        match user_va2attr a s with
        | (_, Some attr) =>
            let res := check_page flags attr in
            if negb (res =? TEE_SUCCESS) then Some res
            else check_loop fuel flags (u64 (a + Z.min CORE_MMU_USER_CODE_SIZE CORE_MMU_USER_PARAM_SIZE)) end_addr s
        | (res, None) => Some res
        end
  end.

Definition vm_check_access_rights (fuel : nat) (flags uaddr len : Z) (s : vm_info) : option Z :=
  match ADD_OVERFLOW uaddr len with
  | None => Some TEE_ERROR_ACCESS_DENIED
  | Some end_addr =>
      if has_flag flags TEE_MEMORY_ACCESS_NONSECURE && has_flag flags TEE_MEMORY_ACCESS_SECURE
      then Some TEE_ERROR_ACCESS_DENIED
      else if negb (has_flag flags TEE_MEMORY_ACCESS_ANY_OWNER) && negb (vm_buf_is_inside_um_private uaddr len s)
      then Some TEE_ERROR_ACCESS_DENIED
      else check_loop fuel flags (ROUNDDOWN uaddr (Z.min CORE_MMU_USER_CODE_SIZE CORE_MMU_USER_PARAM_SIZE)) end_addr s
  end.

(** ** System calls that use them *)

(** [ldelf_syscall_unmap]; [system_unmap] does the same with its parameters. *)
Definition ldelf_syscall_unmap (va num_bytes : Z) (s : vm_info) : outcome (Z * vm_info) :=
  let sz := ROUNDUP num_bytes SMALL_PAGE_SIZE in
  match ADD_OVERFLOW va sz with
  | None => Return (TEE_ERROR_BAD_PARAMETERS, s)
  | Some _ =>
      match vm_get_flags va sz s with
      | (res, None) => Return (res, s)
      | (_, Some vm_flags) =>
          if has_flag vm_flags VM_FLAG_PERMANENT then Return (TEE_ERROR_ACCESS_DENIED, s)
          else vm_unmap va sz s
      end
  end.

Definition LDELF_MAP_FLAG_WRITEABLE : Z := BIT 1.
Definition LDELF_MAP_FLAG_EXECUTABLE : Z := BIT 2.

Definition ldelf_syscall_set_prot (va num_bytes flags : Z) (s : vm_info) : outcome (Z * vm_info) :=
  let sz := ROUNDUP num_bytes SMALL_PAGE_SIZE in
  let accept_flags := Z.lor LDELF_MAP_FLAG_WRITEABLE LDELF_MAP_FLAG_EXECUTABLE in
  if negb (Z.land flags accept_flags =? flags) then Return (TEE_ERROR_BAD_PARAMETERS, s)
  else
    let prot := Z.lor (Z.lor (Z.lor TEE_MATTR_UR TEE_MATTR_PR)
                  (if has_flag flags LDELF_MAP_FLAG_WRITEABLE then Z.lor TEE_MATTR_UW TEE_MATTR_PW else 0))
                  (if has_flag flags LDELF_MAP_FLAG_EXECUTABLE then TEE_MATTR_UX else 0) in
    match ADD_OVERFLOW va sz with
    | None => Return (TEE_ERROR_BAD_PARAMETERS, s)
    | Some _ =>
        match vm_get_flags va sz s with
        | (res, None) => Return (res, s)
        | (_, Some vm_flags) =>
            if has_flag vm_flags VM_FLAG_PERMANENT then Return (TEE_ERROR_ACCESS_DENIED, s)
            else if has_flag vm_flags VM_FLAG_READONLY && has_flag prot (Z.lor TEE_MATTR_UW TEE_MATTR_PW)
            then Return (TEE_ERROR_ACCESS_DENIED, s)
            else vm_set_prot va sz prot s
        end
    end.

Definition ldelf_syscall_remap (old_va new_va num_bytes pad_begin pad_end : Z) (s : vm_info) : outcome (Z * Z * vm_info) :=
  match vm_get_flags old_va num_bytes s with
  | (res, None) => Return (res, new_va, s)
  | (_, Some vm_flags) =>
      if has_flag vm_flags VM_FLAG_PERMANENT then Return (TEE_ERROR_ACCESS_DENIED, new_va, s)
      else vm_remap new_va old_va num_bytes pad_begin pad_end s
  end.

(** [syscall_cache_operation] up to the operation itself: whether it is let through. *)
Definition syscall_cache_operation (fuel : nat) (cache_maintenance : bool) (va len : Z) (s : vm_info) : option Z :=
  if negb cache_maintenance then Some TEE_ERROR_NOT_SUPPORTED
  else if vm_buf_intersects_um_private va len s then Some TEE_ERROR_ACCESS_DENIED
  else
    match vm_check_access_rights fuel (Z.lor TEE_MEMORY_ACCESS_READ TEE_MEMORY_ACCESS_ANY_OWNER) va len s with
    | None => None
    | Some res => Some (if negb (res =? TEE_SUCCESS) then TEE_ERROR_ACCESS_DENIED else TEE_SUCCESS)
    end.
End vm.
