(* ===== verification/VmMap.v ===== *)
(** * The layout of an address space

    Regions are kept in order, aligned and apart; what an address is mapped to is a
    partial function that the operations change only where they say. *)

From S2P Require Import Prelude Vm.
From stdpp Require Import base gmap list.
From Stdlib Require Import ZArith Lia.

Local Open Scope Z_scope.

(** ** Arithmetic of the macros *)

Lemma ADD_OVERFLOW_Some a b c : ADD_OVERFLOW a b = Some c <-> c = a + b /\ a + b <= UINT64_MAX.
Proof. unfold ADD_OVERFLOW. destruct (Z.leb_spec (a + b) UINT64_MAX); split; intros; simplify_eq; try lia; naive_solver lia. Qed.

Lemma u16_range x : is_u16 (u16 x).
Proof. cint. Qed.

(** A power of two at most 2^63. *)
Definition pow2 (g : Z) : Prop := exists k, 0 <= k < 64 /\ g = 2 ^ k.

Lemma pow2_pos g : pow2 g -> 1 <= g < 18446744073709551616.
Proof. change 18446744073709551616 with (2 ^ 64).
  intros (k & Hk & ->). split; [|apply Z.pow_lt_mono_r; lia].
  change 1 with (2 ^ 0). apply Z.pow_le_mono_r; lia.
Qed.

Lemma IS_POWER_OF_TWO_spec x : 0 <= x < 2 ^ 64 -> IS_POWER_OF_TWO x = true <-> pow2 x.
Proof.
  intros Hx. unfold IS_POWER_OF_TWO. destruct (Z.eqb_spec x 0) as [->|Hne]; cbn [negb andb].
  { split; [done|]. intros (k & Hk & H). pose proof (Z.pow_pos_nonneg 2 k). lia. }
  assert (Hneg : u64 (u64 (Z.lnot x) + 1) = (- x) mod 2 ^ 64).
  { unfold u64. change 18446744073709551616 with (2 ^ 64). rewrite Zplus_mod_idemp_l. f_equal. unfold Z.lnot. lia. }
  assert (Hland : Z.land x ((- x) mod 2 ^ 64) = Z.land x (Z.lnot (x - 1))).
  { rewrite <- Z.land_ones, (Z.land_comm (- x)), Z.land_assoc by lia. f_equal; [|unfold Z.lnot; lia].
    rewrite Z.land_ones, Z.mod_small; lia. }
  rewrite Hneg, Hland, Z.eqb_eq. split.
  - intros H. exists (Z.log2 x). assert (Hlog : Z.log2 x < 64) by (apply Z.log2_lt_pow2; lia).
    split; [split; [apply Z.log2_nonneg|done]|].
    destruct (Z.log2_spec x ltac:(lia)) as [H1 H2]. destruct (Z.eq_dec x (2 ^ Z.log2 x)) as [|Hd]; [done|exfalso].
    assert (Hb : Z.testbit (x - 1) (Z.log2 x) = true).
    { replace (Z.log2 x) with (Z.log2 (x - 1)) at 1; [apply Z.bit_log2; pose proof (Z.pow_pos_nonneg 2 (Z.log2 x) ltac:(lia) (Z.log2_nonneg x)); lia|].
      apply Z.log2_unique; [apply Z.log2_nonneg|]. lia. }
    assert (Z.testbit x (Z.log2 x) = true) as Hb' by (apply Z.bit_log2; lia).
    rewrite <- H in Hb' at 1. rewrite Z.land_spec, Z.lnot_spec, Hb, andb_false_r in Hb' by apply Z.log2_nonneg. done.
  - intros (k & Hk & ->). apply Z.bits_inj'. intros n Hn. rewrite Z.land_spec, Z.lnot_spec by done.
    rewrite Z.pow2_bits_eqb by lia. destruct (Z.eqb_spec k n) as [->|]; [|done]. cbn [andb].
    replace (2 ^ n - 1) with (Z.ones n) by (rewrite Z.ones_equiv; lia). by rewrite Z.ones_spec_high by lia.
Qed.

(** The smallest multiple of [g] that is at least [v]. *)
Lemma ROUNDUP_OVERFLOW_spec v g :
  pow2 g -> 0 <= v ->
  match ROUNDUP_OVERFLOW v g with
  | Some r => v <= r <= UINT64_MAX /\ (g | r) /\ (forall w, (g | w) -> v <= w -> r <= w)
  | None => UINT64_MAX < v + (g - 1)
  end.
Proof.
  intros Hg Hv. pose proof (pow2_pos g Hg) as Hpos. destruct Hg as (k & Hk & ->). unfold ROUNDUP_OVERFLOW.
  rewrite (u64_small (2 ^ k - 1)) by (unfold is_u64; lia). unfold ADD_OVERFLOW.
  destruct (Z.leb_spec (v + (2 ^ k - 1)) UINT64_MAX) as [H|H]; cbn [mbind option_bind]; [|done].
  rewrite land_lnot_ones64 by (unfold is_u64, UINT64_MAX in *; lia).
  set (t := v + (2 ^ k - 1)) in *. pose proof (Z.div_mod t (2 ^ k) ltac:(lia)). pose proof (Z.mod_pos_bound t (2 ^ k) ltac:(lia)).
  split; [lia|]. split; [exists (t / 2 ^ k); lia|].
  intros w [q ->] Hw. assert (t / 2 ^ k <= q); [|nia]. apply Z.lt_succ_r, Z.div_lt_upper_bound; [lia|]. nia.
Qed.

Lemma land_mask_zero x : Z.land x SMALL_PAGE_MASK = x mod 4096.
Proof. change SMALL_PAGE_MASK with (Z.ones 12). by rewrite Z.land_ones. Qed.

Lemma lor_aligned a b : Z.lor a b mod 4096 = 0 <-> a mod 4096 = 0 /\ b mod 4096 = 0.
Proof.
  change 4096 with (2 ^ 12). rewrite <- !Z.land_ones, Z.land_lor_distr_l by lia. apply Z.lor_eq_0_iff.
Qed.

(** ** Ordered lists of regions *)

Record region_wf (r : vm_region) : Prop := mk_region_wf {
  rw_size : 0 <= r_size r;
  rw_va_aligned : r_va r mod 4096 = 0;
  rw_size_aligned : r_size r mod 4096 = 0;
  rw_offset : 0 <= r_offset r;
  rw_offset_end : r_offset r + r_size r <= UINT64_MAX;
  rw_attr : is_u16 (r_attr r);
}.

(** [l] holds well-formed regions in order between [lo] and [hi]. *)
Fixpoint layout (lo : Z) (l : list vm_region) (hi : Z) : Prop :=
  match l with
  | [] => lo <= hi
  | r :: l' => lo <= r_va r /\ region_wf r /\ layout (r_va r + r_size r) l' hi
  end.

Lemma layout_le lo l hi : layout lo l hi -> lo <= hi.
Proof. revert lo. induction l as [|r l IH]; intros lo; cbn; [done|]. intros (? & [] & H). apply IH in H. lia. Qed.

Lemma layout_mono lo lo' l hi hi' : layout lo l hi -> lo' <= lo -> hi <= hi' -> layout lo' l hi'.
Proof.
  revert lo lo'. induction l as [|r l IH]; intros lo lo'; cbn; [lia|]. intros (? & ? & H) ? ?.
  split; [lia|]. split; [done|]. by eapply IH; [exact H|lia|].
Qed.

Lemma layout_app lo l1 l2 hi : layout lo (l1 ++ l2) hi <-> exists mid, layout lo l1 mid /\ layout mid l2 hi.
Proof.
  revert lo. induction l1 as [|r l1 IH]; intros lo; cbn.
  - split; [intros H; exists lo; split; [lia|done]|]. intros (mid & ? & H). eapply layout_mono; [exact H|lia|lia].
  - rewrite IH. naive_solver.
Qed.

Lemma layout_cons_inv lo r l hi :
  layout lo (r :: l) hi -> lo <= r_va r /\ region_wf r /\ r_va r + r_size r <= hi /\ layout (r_va r + r_size r) l hi.
Proof. cbn. intros (? & ? & H). pose proof (layout_le _ _ _ H). done. Qed.

Lemma layout_elem lo l hi r :
  layout lo l hi -> r ∈ l -> region_wf r /\ lo <= r_va r /\ r_va r + r_size r <= hi.
Proof.
  revert lo. induction l as [|x l IH]; intros lo Hl Hr; [by apply elem_of_nil in Hr|].
  apply layout_cons_inv in Hl as (H1 & H2 & H3 & H4). apply elem_of_cons in Hr as [->|Hr]; [done|].
  destruct (IH _ H4 Hr) as (? & ? & ?). destruct H2. split; [done|]. lia.
Qed.

(** In the middle of a layout. *)
Lemma layout_middle lo l1 r l2 hi :
  layout lo (l1 ++ r :: l2) hi <->
  layout lo l1 (r_va r) /\ region_wf r /\ layout (r_va r + r_size r) l2 hi.
Proof.
  rewrite layout_app. split.
  - intros (mid & H1 & H2). cbn in H2. destruct H2 as (? & ? & ?). split; [|done]. by eapply layout_mono; [exact H1|lia|].
  - intros (H1 & H2 & H3). exists (r_va r). cbn. split; [done|]. split; [lia|done].
Qed.

Lemma layout_sub lo l1 m l2 hi : layout lo (l1 ++ m ++ l2) hi -> layout lo (l1 ++ l2) hi.
Proof.
  rewrite !layout_app. intros (a & H1 & H2). apply layout_app in H2 as (b & H2 & H3).
  exists a. split; [done|]. eapply layout_mono; [exact H3|by eapply layout_le|lia].
Qed.

Lemma layout_filter lo l hi (P : vm_region -> Prop) `{!forall r, Decision (P r)} :
  layout lo l hi -> layout lo (filter P l) hi.
Proof.
  revert lo. induction l as [|r l IH]; intros lo; [done|]. intros (H1 & H2 & H3). rewrite filter_cons.
  case_decide; [cbn; naive_solver|]. apply IH. destruct H2. eapply layout_mono; [exact H3|lia|lia].
Qed.

Lemma layout_regions_disjoint lo l hi i j ri rj :
  layout lo l hi -> l !! i = Some ri -> l !! j = Some rj -> (i < j)%nat -> r_va ri + r_size ri <= r_va rj.
Proof.
  intros Hl Hi Hj Hij. rewrite <- (take_drop_middle l i ri Hi) in Hl, Hj. apply layout_middle in Hl as (_ & _ & Hl).
  rewrite lookup_app_r in Hj by (rewrite length_take; lia). rewrite length_take_le in Hj by (apply lookup_lt_Some in Hi; lia).
  destruct (j - i)%nat as [|k] eqn:Hk; [lia|]. cbn in Hj.
  apply list_elem_of_lookup_2 in Hj. by apply (layout_elem _ _ _ _ Hl) in Hj as (_ & ? & _).
Qed.

(** ** What an address is mapped to *)

Record page := mk_page { pg_mobj : mobj; pg_offset : Z; pg_attr : Z; pg_flags : Z }.

Definition covers (a : Z) (r : vm_region) : bool := (r_va r <=? a) && (a <? r_va r + r_size r).
Definition page_of (a : Z) (r : vm_region) : page :=
  mk_page (r_mobj r) (r_offset r + (a - r_va r)) (r_attr r) (r_flags r).
Definition vm_lookup (l : list vm_region) (a : Z) : option page := page_of a <$> find (covers a) l.
Arguments vm_lookup : simpl never.

Lemma vm_lookup_app l1 l2 a :
  vm_lookup (l1 ++ l2) a = match vm_lookup l1 a with Some p => Some p | None => vm_lookup l2 a end.
Proof. unfold vm_lookup. induction l1 as [|r l1 IH]; cbn; [done|]. by destruct (covers a r). Qed.

Lemma vm_lookup_cons r l a : vm_lookup (r :: l) a = if covers a r then Some (page_of a r) else vm_lookup l a.
Proof. unfold vm_lookup. cbn. by destruct (covers a r). Qed.

Lemma covers_true a r : covers a r = true <-> r_va r <= a < r_va r + r_size r.
Proof. unfold covers. rewrite andb_true_iff, Z.leb_le, Z.ltb_lt. lia. Qed.

Lemma covers_false a r : covers a r = false <-> ~ (r_va r <= a < r_va r + r_size r).
Proof. rewrite <- covers_true. by destruct (covers a r). Qed.

Lemma vm_lookup_outside lo l hi a : layout lo l hi -> a < lo \/ hi <= a -> vm_lookup l a = None.
Proof.
  revert lo. induction l as [|r l IH]; intros lo Hl Ha; [done|]. apply layout_cons_inv in Hl as (? & [] & ? & ?).
  rewrite vm_lookup_cons. replace (covers a r) with false by (symmetry; apply covers_false; lia). eapply IH; [done|lia].
Qed.

(** [find] over an ordered list finds the one region that covers an address. *)
Lemma find_covers l a r : find (covers a) l = Some r -> r ∈ l /\ r_va r <= a < r_va r + r_size r.
Proof.
  intros H. apply find_some in H as [H1 H2]. split; [by apply list_elem_of_In|by apply covers_true].
Qed.

Lemma vm_lookup_in lo l hi a r :
  layout lo l hi -> r ∈ l -> r_va r <= a < r_va r + r_size r -> vm_lookup l a = Some (page_of a r).
Proof.
  intros Hl Hr Ha. apply list_elem_of_split in Hr as (l1 & l2 & ->). apply layout_middle in Hl as (H1 & _ & _).
  rewrite vm_lookup_app, (vm_lookup_outside _ _ _ _ H1), vm_lookup_cons by lia. by rewrite (proj2 (covers_true a r)).
Qed.

(** The regions of [l] follow each other without a gap from [lo] to [hi]. *)
Fixpoint tiled (lo : Z) (l : list vm_region) (hi : Z) : Prop :=
  match l with
  | [] => lo = hi
  | r :: l' => r_va r = lo /\ tiled (r_va r + r_size r) l' hi
  end.

Lemma tiled_app lo l1 l2 hi : tiled lo (l1 ++ l2) hi <-> exists mid, tiled lo l1 mid /\ tiled mid l2 hi.
Proof. revert lo. induction l1 as [|r l1 IH]; intros lo; cbn; [naive_solver|]. rewrite IH. naive_solver. Qed.

Lemma tiled_layout lo l hi : tiled lo l hi -> Forall region_wf l -> layout lo l hi.
Proof. revert lo. induction l as [|r l IH]; intros lo; cbn; [lia|]. intros [-> H] [? ?]%Forall_cons. split; [lia|]. auto. Qed.

Lemma layout_forall lo l hi : layout lo l hi -> Forall region_wf l.
Proof. intros H. apply Forall_forall. intros r Hr. by eapply layout_elem. Qed.

Lemma tiled_lookup lo l hi a : tiled lo l hi -> lo <= a < hi -> is_Some (vm_lookup l a).
Proof.
  revert lo. induction l as [|r l IH]; intros lo; cbn; [lia|]. intros [<- H] Ha. rewrite vm_lookup_cons.
  destruct (covers a r) eqn:E; [eauto|]. apply covers_false in E. eapply IH; [exact H|]. lia.
Qed.

(** ** Choosing an address *)

(** Three additions and a rounding, each checked for overflow. *)
Lemma sum_roundup a b c d g :
  pow2 g -> 0 <= a -> 0 <= b -> 0 <= c -> 0 <= d ->
  match (x ← ADD_OVERFLOW a b; x ← ADD_OVERFLOW x c; x ← ADD_OVERFLOW x d; ROUNDUP_OVERFLOW x g) with
  | Some r => a + b + c + d <= r <= UINT64_MAX /\ (g | r) /\ (forall w, (g | w) -> a + b + c + d <= w -> r <= w)
  | None => UINT64_MAX < a + b + c + d + (g - 1)
  end.
Proof.
  intros Hg Ha Hb Hc Hd. pose proof (pow2_pos g Hg).
  destruct (ADD_OVERFLOW a b) as [x|] eqn:E1; cbn [mbind option_bind]; cycle 1.
  { unfold ADD_OVERFLOW in E1. case_match; zbool; [done|lia]. }
  apply ADD_OVERFLOW_Some in E1 as [-> ?]. destruct (ADD_OVERFLOW (a + b) c) as [x|] eqn:E1; cbn [mbind option_bind]; cycle 1.
  { unfold ADD_OVERFLOW in E1. case_match; zbool; [done|lia]. }
  apply ADD_OVERFLOW_Some in E1 as [-> ?]. destruct (ADD_OVERFLOW (a + b + c) d) as [x|] eqn:E1; cbn [mbind option_bind]; cycle 1.
  { unfold ADD_OVERFLOW in E1. case_match; zbool; [done|lia]. }
  apply ADD_OVERFLOW_Some in E1 as [-> ?]. apply ROUNDUP_OVERFLOW_spec; [done|lia].
Qed.

(** There is room for [reg] at [va] between [prev] and [next], with the padding
    asked for, a page more next to regions of another kind, and nothing else in the
    granules touched. *)
Definition room (prev next reg : vm_region) (pad_begin pad_end g va : Z) : Prop :=
  exists b e, (g | b) /\ (g | e) /\
    r_va prev + r_size prev + pad_begin + sep_pad prev reg <= b <= va /\
    va + r_size reg + pad_end + sep_pad next reg <= e <= r_va next /\
    (r_va reg = 0 -> (g | va)) /\ (r_va reg <> 0 -> va = r_va reg).

Lemma sep_pad_nonneg a b : 0 <= sep_pad a b.
Proof. unfold sep_pad, SMALL_PAGE_SIZE. case_match; lia. Qed.

Lemma select_va_exact prev next reg pb pe g :
  pow2 g -> g <= 2 ^ 63 -> 0 < r_va prev -> 0 <= r_size prev -> 0 <= r_va reg -> 0 <= r_size reg -> 0 <= pb -> 0 <= pe ->
  r_va next < 2 ^ 50 ->
  exists v, select_va_in_range prev next reg pb pe g = Return v /\
    (v <> 0 -> room prev next reg pb pe g v) /\ (v = 0 -> forall va, ~ room prev next reg pb pe g va).
Proof.
  intros Hg Hg63 Hprev Hps Hva Hsz Hpb Hpe Hn. unfold select_va_in_range.
  pose proof (sep_pad_nonneg prev reg) as Hsp. pose proof (sep_pad_nonneg next reg) as Hsn.
  change (2 ^ 63) with 9223372036854775808 in *. change (2 ^ 50) with 1125899906842624 in *.
  pose proof (sum_roundup (r_va prev) (r_size prev) pb (sep_pad prev reg) g Hg ltac:(lia) Hps Hpb Hsp) as Hb.
  destruct (x ← ADD_OVERFLOW (r_va prev) (r_size prev); _) as [b|]; cycle 1.
  { exists 0. split; [done|]. split; [done|]. intros _ va (b & e & _ & _ & ? & ? & _). unfold UINT64_MAX in Hb. lia. }
  destruct Hb as (Hb1 & Hb2 & Hb3).
  destruct (negb (r_va reg =? 0) && (r_va reg <? b)) eqn:E; zbool.
  { exists 0. split; [done|]. split; [done|]. intros _ va (b' & e & Hd & _ & ? & ? & _ & Hr).
    apply Hb3 in Hd; [|lia]. rewrite Hr in * by done. lia. }
  set (bv := if negb (r_va reg =? 0) then r_va reg else b).
  assert (Hbv : (r_va reg = 0 -> bv = b) /\ (r_va reg <> 0 -> bv = r_va reg) /\ b <= bv).
  { unfold bv. destruct (Z.eqb_spec (r_va reg) 0); cbn [negb]; [lia|]. cbn [negb andb] in E. zbool.
    split; [done|]. destruct (Z.ltb_spec (r_va reg) b); [done|lia]. }
  destruct Hbv as (Hv0 & Hv1 & Hle). fold bv.
  pose proof (sum_roundup bv (r_size reg) pe (sep_pad next reg) g Hg ltac:(lia) Hsz Hpe Hsn) as He.
  destruct (x ← ADD_OVERFLOW bv (r_size reg); _) as [e|]; cycle 1.
  { exists 0. split; [done|]. split; [done|]. intros _ va (b' & e & Hd & _ & ? & ? & _ & Hr). apply Hb3 in Hd; [|lia].
    assert (bv <= va) by (destruct (Z.eq_dec (r_va reg) 0) as [Hz|Hz]; [rewrite Hv0|rewrite Hv1, Hr]; lia). unfold UINT64_MAX in He. lia. }
  destruct He as (He1 & He2 & He3). destruct (Z.leb_spec e (r_va next)).
  - exists bv. split.
    { replace ((r_va reg =? 0) || (r_va reg =? bv)) with true; [done|]. symmetry. apply orb_true_iff. rewrite !Z.eqb_eq. lia. }
    split; [|lia]. intros _. exists b, e. repeat split; try done; try lia. intros Hz. by rewrite Hv0.
  - exists 0. split; [done|]. split; [done|]. intros _ va (b' & e' & Hd & Hd' & ? & ? & _ & Hr). apply Hb3 in Hd; [|lia].
    assert (bv <= va) by (destruct (Z.eq_dec (r_va reg) 0) as [Hz|Hz]; [rewrite Hv0|rewrite Hv1, Hr]; lia).
    apply He3 in Hd'; lia.
Qed.

Section map.
Context {MO : Mobjs}.
Context (user_va_idx PGT_CACHE_SIZE : Z).
Hypothesis idx_ok : 1 <= user_va_idx < 2 ^ 18.

Notation base := (va_range_base user_va_idx).
Notation top := (base + va_range_size).
Notation dummy_last := (dummy_last_reg user_va_idx).

Lemma user_range : 2 ^ 30 <= base /\ base + 2 ^ 30 = top /\ top <= 2 ^ 49 /\ u64 top = top /\ base mod 4096 = 0.
Proof using idx_ok.
  unfold va_range_base, va_range_size, BIT, L1_XLAT_ADDRESS_SHIFT. rewrite !Z.shiftl_mul_pow2 by lia.
  change (2 ^ 18) with 262144 in idx_ok. change (2 ^ 30) with 1073741824. change (2 ^ 49) with 562949953421312.
  split; [lia|]. split; [lia|]. split; [lia|]. split; [apply u64_small; unfold is_u64; lia|].
  replace (user_va_idx * 1073741824) with (user_va_idx * 262144 * 4096) by lia. apply Z_mod_mult.
Qed.

(** The state of an address space: its regions in order in the user range, each
    structure once, at addresses the heap has handed out. *)
Record vm_ok (s : vm_info) : Prop := mk_vm_ok {
  vo_layout : layout base (vm_regions s) top;
  vo_nodup : NoDup (r_id <$> vm_regions s);
  vo_ids : Forall (fun r => (r_id r < vm_next s)%nat) (vm_regions s);
}.

Lemma dummy_last_va : r_va dummy_last = top.
Proof using idx_ok. apply user_range. Qed.

Lemma add_loop_exact reg pb pe g l : forall prev,
  pow2 g -> g <= 2 ^ 63 -> 0 < r_va prev -> 0 <= r_size prev -> 0 <= r_va reg -> 0 <= r_size reg -> 0 <= pb -> 0 <= pe ->
  layout (r_va prev + r_size prev) l top ->
  exists x, add_loop user_va_idx prev reg pb pe g l = Return x /\
    match x with
    | Some (l', reg') => exists l1 l2 va, l = l1 ++ l2 /\ l' = l1 ++ reg' :: l2 /\ reg' = set_va va reg /\
        room (default prev (last l1)) (default dummy_last (head l2)) reg pb pe g va
    | None => forall l1 l2 va, l = l1 ++ l2 ->
        ~ room (default prev (last l1)) (default dummy_last (head l2)) reg pb pe g va
    end.
Proof using idx_ok.
  destruct user_range as (Hb1 & Hb2 & Hb3 & _). change (2 ^ 30) with 1073741824 in *. change (2 ^ 49) with 562949953421312 in *.
  induction l as [|r l IH]; intros prev Hg Hg63 Hpv Hps Hva Hsz Hpb Hpe Hl; cbn [add_loop].
  - destruct (select_va_exact prev dummy_last reg pb pe g) as (v & -> & Hv1 & Hv2); try done.
    { rewrite dummy_last_va. change (2 ^ 50) with 1125899906842624. lia. }
    cbn [obind]. destruct (Z.eqb_spec v 0); cbn [negb]; eexists; (split; [reflexivity|]).
    + intros l1 l2 va [-> ->]%eq_sym%app_eq_nil. by apply Hv2.
    + exists [], [], v. split; [done|]. split; [done|]. split; [done|]. by apply Hv1.
  - pose proof (layout_cons_inv _ _ _ _ Hl) as (H1 & [] & H3 & H4).
    destruct (select_va_exact prev r reg pb pe g) as (v & -> & Hv1 & Hv2); try done.
    { change (2 ^ 50) with 1125899906842624. lia. }
    cbn [obind]. destruct (Z.eqb_spec v 0) as [Hv|Hv]; cbn [negb]; cycle 1.
    { eexists; (split; [reflexivity|]). exists [], (r :: l), v. split; [done|]. split; [done|]. split; [done|]. by apply Hv1. }
    destruct (IH r) as (x & -> & Hx); try done; [lia|]. cbn [obind]. eexists; (split; [reflexivity|]).
    destruct x as [[l' reg']|]; cbn.
    + destruct Hx as (l1 & l2 & va & -> & -> & -> & Hr). exists (r :: l1), l2, va.
      split; [done|]. split; [done|]. split; [done|]. rewrite last_cons. by destruct (last l1).
    + intros l1 l2 va Heq. destruct l1 as [|r1 l1]; cbn in Heq; [by subst l2; apply Hv2|].
      injection Heq as <- ->. specialize (Hx l1 l2 va eq_refl). rewrite last_cons. by destruct (last l1).
Qed.

Lemma layout_shrink lo l hi x :
  layout lo l hi -> default lo ((fun r => r_va r + r_size r) <$> last l) <= x -> layout lo l x.
Proof.
  revert lo. induction l as [|r l IH]; intros lo; [done|]. intros (H1 & H2 & H3) Hx. split; [done|]. split; [done|].
  apply IH; [done|]. rewrite last_cons in Hx. by destruct (last l).
Qed.

Lemma layout_raise lo l hi x :
  layout lo l hi -> x <= default hi (r_va <$> head l) -> layout x l hi.
Proof. destruct l as [|r l]; [done|]. intros (H1 & H2 & H3) Hx. done. Qed.

(** What [umap_add_region] asks of its arguments. *)
Definition add_args_ok (reg : vm_region) (pb pe align : Z) : Prop :=
  r_va reg mod 4096 = 0 /\ r_size reg mod 4096 = 0 /\ pb mod 4096 = 0 /\ pe mod 4096 = 0 /\
  r_offset reg + r_size reg <= UINT64_MAX /\
  r_offset reg + r_size reg <= ROUNDUP (mobj_size (r_mobj reg)) SMALL_PAGE_SIZE /\
  pow2 (Z.max align SMALL_PAGE_SIZE).

(** [reg] has been placed in the list [l] at [va]. *)
Definition placed (reg : vm_region) (pb pe align : Z) (l l' : list vm_region) (va : Z) : Prop :=
  exists l1 l2, l = l1 ++ l2 /\ l' = l1 ++ set_va va reg :: l2 /\
    room (default (dummy_first_reg user_va_idx) (last l1)) (default dummy_last (head l2)) reg pb pe (Z.max align SMALL_PAGE_SIZE) va.

Definition no_room (reg : vm_region) (pb pe align : Z) (l : list vm_region) : Prop :=
  forall l1 l2 va, l = l1 ++ l2 ->
    ~ room (default (dummy_first_reg user_va_idx) (last l1)) (default dummy_last (head l2)) reg pb pe (Z.max align SMALL_PAGE_SIZE) va.

(** The fields of a region not yet in the list are those of their C types. *)
Definition fresh_ok (reg : vm_region) : Prop :=
  0 <= r_va reg /\ 0 <= r_size reg /\ 0 <= r_offset reg /\ is_u16 (r_attr reg).

Lemma room_between l1 l2 reg pb pe g va :
  0 <= pb -> 0 <= pe -> layout base (l1 ++ l2) top ->
  room (default (dummy_first_reg user_va_idx) (last l1)) (default dummy_last (head l2)) reg pb pe g va ->
  layout base l1 va /\ layout (va + r_size reg) l2 top.
Proof using idx_ok.
  intros Hpb Hpe Hl (b & e & _ & _ & H1 & H2 & _). apply layout_app in Hl as (mid & Hl1 & Hl2).
  pose proof (sep_pad_nonneg (default (dummy_first_reg user_va_idx) (last l1)) reg).
  pose proof (sep_pad_nonneg (default dummy_last (head l2)) reg). split.
  - eapply layout_shrink; [exact Hl1|]. destruct (last l1) eqn:E; cbn in *; lia.
  - eapply layout_raise; [exact Hl2|]. pose proof dummy_last_va. destruct (head l2) eqn:E; cbn in *; lia.
Qed.

Lemma placed_layout reg pb pe align l l' va :
  0 <= pb -> 0 <= pe -> fresh_ok reg -> add_args_ok reg pb pe align ->
  layout base l top -> placed reg pb pe align l l' va -> layout base l' top.
Proof using idx_ok.
  intros Hpb Hpe (Hv & Hs & Ho & Hat) (Ha1 & Ha2 & _ & _ & Ho1 & _ & Hg) Hl (l1 & l2 & -> & -> & Hr).
  pose proof (room_between _ _ _ _ _ _ _ Hpb Hpe Hl Hr) as [H1 H2]. apply layout_middle. split; [done|]. split; [|done].
  constructor; cbn; try done. destruct Hr as (b & e & _ & _ & _ & _ & Hz & Hnz).
  destruct (Z.eq_dec (r_va reg) 0) as [E|E]; [|by rewrite Hnz].
  assert (Hd : (4096 | va)); [|by apply Z.mod_divide]. eapply Z.divide_trans; [|by apply Hz].
  destruct Hg as (k & Hk & Hgk). pose proof (Z.le_max_r align SMALL_PAGE_SIZE) as Hge. rewrite Hgk in Hge |- *.
  change SMALL_PAGE_SIZE with (2 ^ 12) in Hge. apply Z.pow_le_mono_r_iff in Hge; [|lia..].
  exists (2 ^ (k - 12)). change 4096 with (2 ^ 12). rewrite <- Z.pow_add_r; [f_equal|..]; lia.
Qed.

Lemma umap_add_cases reg pb pe align s :
  vm_ok s -> fresh_ok reg -> 0 <= pb -> 0 <= pe -> 0 <= align < 2 ^ 64 ->
  exists res reg' s', umap_add_region user_va_idx reg pb pe align s = Return (res, reg', s') /\
    ((res = TEE_SUCCESS /\ add_args_ok reg pb pe align /\
      exists va l', reg' = set_va va reg /\ s' = set_regions l' s /\ placed reg pb pe align (vm_regions s) l' va) \/
     (res <> TEE_SUCCESS /\ reg' = reg /\ s' = s /\ (add_args_ok reg pb pe align -> no_room reg pb pe align (vm_regions s)))).
Proof using idx_ok.
  intros Hs (Hv & Hsz & Ho & _) Hpb Hpe Hal. unfold umap_add_region. rewrite land_mask_zero.
  destruct (Z.eqb_spec (Z.lor (Z.lor (Z.lor (r_va reg) (r_size reg)) pb) pe mod 4096) 0) as [E|E]; cbn [negb]; cycle 1.
  { do 3 eexists. split; [done|]. right. split; [done|]. split; [done|]. split; [done|]. intros (?&?&?&?&_).
    destruct E. by rewrite !lor_aligned. }
  rewrite !lor_aligned in E. destruct E as [[[E1 E2] E3] E4].
  destruct (ADD_OVERFLOW (r_offset reg) (r_size reg)) as [os|] eqn:EA; cycle 1.
  { do 3 eexists. split; [done|]. right. split; [done|]. split; [done|]. split; [done|]. intros (?&?&?&?&?&_).
    unfold ADD_OVERFLOW in EA. case_match; zbool; [done|lia]. }
  apply ADD_OVERFLOW_Some in EA as [-> Ho2].
  destruct (Z.ltb_spec (ROUNDUP (mobj_size (r_mobj reg)) SMALL_PAGE_SIZE) (r_offset reg + r_size reg)) as [Hm|Hm].
  { do 3 eexists. split; [done|]. right. split; [done|]. split; [done|]. split; [done|]. intros (?&?&?&?&?&?&_). lia. }
  pose proof (IS_POWER_OF_TWO_spec (Z.max align SMALL_PAGE_SIZE) ltac:(unfold SMALL_PAGE_SIZE; lia)) as Hpow.
  destruct (IS_POWER_OF_TWO (Z.max align SMALL_PAGE_SIZE)) eqn:EP; cbn [negb]; cycle 1.
  { do 3 eexists. split; [done|]. right. split; [done|]. split; [done|]. split; [done|]. intros (?&?&?&?&?&?&?%Hpow). done. }
  apply proj1 in Hpow. specialize (Hpow eq_refl). destruct user_range as (Hb1 & _).
  destruct (add_loop_exact reg pb pe (Z.max align SMALL_PAGE_SIZE) (vm_regions s) (dummy_first_reg user_va_idx)) as (x & -> & Hx);
    try done; cbn [r_va r_size dummy_first_reg].
  { destruct Hpow as (k & Hk & ->). apply Z.pow_le_mono_r; lia. }
  { change (2 ^ 30) with 1073741824 in Hb1. lia. }
  { rewrite Z.add_0_r. by destruct Hs. }
  cbn [obind]. destruct x as [[l' reg']|].
  - destruct Hx as (l1 & l2 & va & Hl & -> & -> & Hr). do 3 eexists. split; [done|]. left. split; [done|].
    split; [done|]. exists va. eexists. split; [done|]. split; [done|]. by exists l1, l2.
  - do 3 eexists. split; [done|]. right. split; [done|]. split; [done|]. split; [done|]. intros _. exact Hx.
Qed.

Lemma placed_lookup reg pb pe align l l' va a :
  0 <= pb -> 0 <= pe -> layout base l top -> placed reg pb pe align l l' va ->
  vm_lookup l' a = (if covers a (set_va va reg) then Some (page_of a (set_va va reg)) else vm_lookup l a) /\
  (covers a (set_va va reg) = true -> vm_lookup l a = None).
Proof using idx_ok.
  intros Hpb Hpe Hl (l1 & l2 & -> & -> & Hr). pose proof (room_between _ _ _ _ _ _ _ Hpb Hpe Hl Hr) as [H1 H2].
  rewrite !vm_lookup_app, vm_lookup_cons. destruct (covers a (set_va va reg)) eqn:E; [|done].
  apply covers_true in E. cbn in E.
  rewrite (vm_lookup_outside _ _ _ a H1), (vm_lookup_outside _ _ _ a H2) by lia. done.
Qed.
End map.

(** ** The list operations where each structure is in the list once *)

Lemma is_region_refl r : is_region r r = true.
Proof. apply Nat.eqb_refl. Qed.

Lemma is_region_other r l : r_id r ∉ r_id <$> l -> Forall (fun x => is_region r x = false) l.
Proof.
  intros H. apply Forall_forall. intros x Hx. apply Nat.eqb_neq. intros E. destruct H. rewrite <- E.
  by apply list_elem_of_fmap_2.
Qed.

Section tailq.
Context (l1 l2 : list vm_region) (r : vm_region).
Hypothesis nodup : NoDup (r_id <$> l1 ++ r :: l2).

Lemma nodup_split : r_id r ∉ r_id <$> l1 /\ r_id r ∉ r_id <$> l2 /\ NoDup (r_id <$> l1 ++ l2).
Proof using nodup.
  rewrite fmap_app, fmap_cons in nodup. apply NoDup_app in nodup as (H1 & H2 & H3). apply NoDup_cons in H3 as [H3 H4].
  split; [intros Hr; apply (H2 _ Hr); set_solver|]. split; [done|]. rewrite fmap_app. apply NoDup_app.
  split; [done|]. split; [|done]. intros x Hx Hx2. apply (H2 _ Hx). set_solver.
Qed.

Lemma tailq_from_mid x : r_id x = r_id r -> tailq_from x (l1 ++ r :: l2) = r :: l2.
Proof using nodup.
  intros Hx. destruct nodup_split as (H & _ & _). clear nodup. rewrite <- Hx in H. apply is_region_other in H.
  induction H as [|y l1 Hy H IH]; cbn [app tailq_from].
  - unfold is_region. by rewrite Hx, Nat.eqb_refl.
  - by rewrite Hy.
Qed.

Lemma tailq_remove_mid x : r_id x = r_id r -> tailq_remove x (l1 ++ r :: l2) = l1 ++ l2.
Proof using nodup.
  intros Hx. destruct nodup_split as (H1 & H2 & _). rewrite <- Hx in H1, H2. unfold tailq_remove. rewrite filter_app, filter_cons.
  rewrite decide_False by (unfold is_region; by rewrite Hx, Nat.eqb_refl).
  apply is_region_other in H1, H2. rewrite Forall_forall in H1, H2. by rewrite !filter_all.
Qed.

Lemma region_update_mid x f : r_id x = r_id r -> region_update x f (l1 ++ r :: l2) = l1 ++ f r :: l2.
Proof using nodup.
  intros Hx. destruct nodup_split as (H1 & H2 & _). rewrite <- Hx in H1, H2. unfold region_update. rewrite fmap_app, fmap_cons.
  apply is_region_other in H1, H2. rewrite Forall_forall in H1, H2. f_equal; [|f_equal].
  - rewrite <- (list_fmap_id l1) at 2. apply list_fmap_ext. intros i y Hy%list_elem_of_lookup_2. by rewrite H1.
  - unfold is_region. by rewrite Hx, Nat.eqb_refl.
  - rewrite <- (list_fmap_id l2) at 2. apply list_fmap_ext. intros i y Hy%list_elem_of_lookup_2. by rewrite H2.
Qed.

Lemma tailq_insert_after_mid x n : r_id x = r_id r -> tailq_insert_after x n (l1 ++ r :: l2) = l1 ++ r :: n :: l2.
Proof using nodup.
  intros Hx. destruct nodup_split as (H & _ & _). clear nodup. rewrite <- Hx in H. apply is_region_other in H.
  induction H as [|y l1 Hy H IH]; cbn [app tailq_insert_after].
  - unfold is_region. by rewrite Hx, Nat.eqb_refl.
  - by rewrite Hy, IH.
Qed.
End tailq.

Lemma nodup_insert l1 l2 n : NoDup (r_id <$> l1 ++ l2) -> r_id n ∉ r_id <$> l1 ++ l2 -> NoDup (r_id <$> l1 ++ n :: l2).
Proof. intros H1 H2. rewrite <- Permutation_middle, fmap_cons. by apply NoDup_cons. Qed.

Lemma fresh_id (l : list vm_region) id : Forall (fun r => (r_id r < id)%nat) l -> id ∉ r_id <$> l.
Proof. rewrite Forall_forall. intros H (x & Hx1 & Hx2)%list_elem_of_fmap. apply H in Hx2. lia. Qed.

Lemma nodup_drop_stretch l1 m l2 : NoDup (r_id <$> l1 ++ m ++ l2) -> NoDup (r_id <$> l1 ++ l2).
Proof.
  revert l1. induction m as [|r m IH]; intros l1 Hn; [done|]. apply IH.
  by apply nodup_split in Hn as (_ & _ & Hn).
Qed.

(** A stretch of the list is taken out region by region. *)
Lemma tailq_remove_stretch l1 m l2 :
  NoDup (r_id <$> l1 ++ m ++ l2) -> foldr tailq_remove (l1 ++ m ++ l2) m = l1 ++ l2.
Proof.
  revert l1. induction m as [|r m IH]; intros l1 Hn; [done|]. cbn [foldr app].
  replace (l1 ++ r :: m ++ l2) with ((l1 ++ [r]) ++ m ++ l2) by by rewrite <- app_assoc.
  rewrite IH by by rewrite <- app_assoc. rewrite <- app_assoc. apply tailq_remove_mid; [|done].
  replace (l1 ++ r :: l2) with ((l1 ++ [r]) ++ l2) by by rewrite <- app_assoc.
  apply (nodup_drop_stretch _ m). by rewrite <- app_assoc.
Qed.
