(* ===== verification/VmSplit.v ===== *)
(** * Splitting and merging regions

    Ranges are split so that they cover whole regions, and merged again: neither
    changes what an address is mapped to. *)

From S2P Require Import Prelude Vm VmMap.
From stdpp Require Import base gmap list.
From Stdlib Require Import ZArith Lia.

Local Open Scope Z_scope.

(** References held by the regions of a list. *)
Definition held (m : mobj) (l : list vm_region) : Z := Z.of_nat (length (filter (fun r => r_mobj r = m) l)).

Lemma held_app m l1 l2 : held m (l1 ++ l2) = held m l1 + held m l2.
Proof. unfold held. rewrite filter_app, length_app. lia. Qed.

Lemma held_cons m r l : held m (r :: l) = (if decide (r_mobj r = m) then 1 else 0) + held m l.
Proof. unfold held. rewrite filter_cons. case_decide; cbn [length]; lia. Qed.

Lemma refs_of_get m n refs : m <> 0%nat -> refs_of m (mobj_get n refs) = refs_of m refs + (if decide (n = m) then 1 else 0).
Proof.
  intros Hm. unfold mobj_get, refs_of. destruct (Nat.eqb_spec n 0) as [->|Hn]; [rewrite decide_False by done; lia|].
  case_decide as E; [subst n; by rewrite lookup_insert_eq|]. rewrite lookup_insert_ne by done. lia.
Qed.

Lemma refs_of_put m n refs : m <> 0%nat -> refs_of m (mobj_put n refs) = refs_of m refs - (if decide (n = m) then 1 else 0).
Proof.
  intros Hm. unfold mobj_put, refs_of. destruct (Nat.eqb_spec n 0) as [->|Hn]; [rewrite decide_False by done; lia|].
  case_decide as E; [subst n; by rewrite lookup_insert_eq|]. rewrite lookup_insert_ne by done. lia.
Qed.

(** A mapping that the hardware may use. *)
Definition valid_region (r : vm_region) : Prop := Z.testbit (r_attr r) 0 = true.

Section ops.
Context {MO : Mobjs}.
Context (user_va_idx : Z).
Hypothesis idx_ok : 1 <= user_va_idx < 2 ^ 18.
Notation base := (va_range_base user_va_idx).
Notation top := (base + va_range_size).
Notation vm_ok := (vm_ok user_va_idx).

(** What every operation keeps: the layout, references balanced against regions,
    the context active, and entries valid. *)
Record kept (s s' : vm_info) : Prop := mk_kept {
  k_ok : vm_ok s';
  k_refs : forall m, m <> 0%nat ->
    refs_of m (vm_refs s') - held m (vm_regions s') = refs_of m (vm_refs s) - held m (vm_regions s);
  k_active : vm_active s' = vm_active s;
  k_valid : Forall valid_region (vm_regions s) -> Forall valid_region (vm_regions s');
  (** answers are only used up *)
  k_ext : Exists (fun c => c <> 0) (vm_ext s') -> Exists (fun c => c <> 0) (vm_ext s);
}.

Lemma kept_refl s : vm_ok s -> kept s s.
Proof. by constructor. Qed.

Lemma kept_trans s1 s2 s3 : kept s1 s2 -> kept s2 s3 -> kept s1 s3.
Proof.
  intros [A1 A2 A3 A4 A5] [B1 B2 B3 B4 B5]. constructor; [done| |congruence|auto|auto].
  intros m Hm. rewrite B2, A2; done.
Qed.

(** Calls out change neither regions nor references. *)
Lemma ext_call_frame s c s' :
  ext_call s = (c, s') -> vm_regions s' = vm_regions s /\ vm_refs s' = vm_refs s /\ vm_next s' = vm_next s /\
  vm_active s' = vm_active s /\ vm_asid s' = vm_asid s /\
  (c <> 0 -> Exists (fun c => c <> 0) (vm_ext s)) /\
  (Exists (fun c => c <> 0) (vm_ext s') -> Exists (fun c => c <> 0) (vm_ext s)).
Proof.
  unfold ext_call. destruct (vm_ext s) as [|c' e] eqn:E; intros; simplify_eq/=; split_and!; try done; intros.
  - congruence.
  - by left.
  - by right.
Qed.

Lemma calloc_frame s o s' :
  calloc_region s = (o, s') -> vm_regions s' = vm_regions s /\ vm_refs s' = vm_refs s /\ vm_active s' = vm_active s /\
  (Exists (fun c => c <> 0) (vm_ext s') -> Exists (fun c => c <> 0) (vm_ext s)) /\
  match o with
  | Some id => id = vm_next s /\ vm_next s' = S (vm_next s)
  | None => vm_next s' = vm_next s /\ Exists (fun c => c <> 0) (vm_ext s)
  end.
Proof.
  unfold calloc_region. destruct (ext_call s) as [c s1] eqn:E. apply ext_call_frame in E as (?&?&?&?&?&Hc&?).
  destruct (Z.eqb_spec c 0); intros; simplify_eq/=; split_and!; auto; congruence.
Qed.

Lemma same_regions_kept s s' :
  vm_ok s -> vm_regions s' = vm_regions s -> vm_refs s' = vm_refs s -> (vm_next s <= vm_next s')%nat ->
  vm_active s' = vm_active s ->
  (Exists (fun c => c <> 0) (vm_ext s') -> Exists (fun c => c <> 0) (vm_ext s)) -> kept s s'.
Proof.
  intros [A B C] H1 H2 H3 H4 H5. constructor; try done; [|by rewrite H1, H2|by rewrite H1].
  constructor; rewrite ?H1; try done. eapply Forall_impl; [exact C|]. cbn. lia.
Qed.

Lemma vm_ok_regions s l1 r l2 :
  vm_ok s -> vm_regions s = l1 ++ r :: l2 ->
  layout base l1 (r_va r) /\ region_wf r /\ layout (r_va r + r_size r) l2 top /\ base <= r_va r /\ r_va r + r_size r <= top /\
  NoDup (r_id <$> l1 ++ r :: l2).
Proof.
  intros [A B C] E. rewrite E in A, B. pose proof A as A'. apply layout_middle in A as (H1 & H2 & H3).
  repeat (split; [done|]). split; [by eapply layout_le|]. split; [by eapply layout_le|done].
Qed.

Lemma r_end_small lo hi l r : layout lo l hi -> 0 <= lo -> hi <= UINT64_MAX -> r ∈ l -> r_end r = r_va r + r_size r.
Proof.
  intros Hl Hlo Hhi Hr. destruct (layout_elem _ _ _ _ Hl Hr) as ([] & ? & ?). apply u64_small. unfold is_u64, UINT64_MAX in *. lia.
Qed.

Lemma vm_ok_r_end s r : vm_ok s -> r ∈ vm_regions s -> r_end r = r_va r + r_size r.
Proof using idx_ok.
  intros [A _ _] Hr. destruct (user_range user_va_idx idx_ok) as (H1 & H2 & H3 & _).
  eapply r_end_small; [exact A|lia| |done]. unfold UINT64_MAX. lia.
Qed.

Lemma find_vm_region_covers s a : vm_ok s -> find_vm_region (vm_regions s) a = find (covers a) (vm_regions s).
Proof using idx_ok.
  intros Hs. assert (H : forall r, r ∈ vm_regions s -> r_end r = r_va r + r_size r) by (intros; by eapply vm_ok_r_end).
  unfold find_vm_region. induction (vm_regions s) as [|r l IH]; [done|]. cbn [find].
  unfold covers at 1. rewrite H by set_solver. case_match; [done|]. apply IH. intros. apply H. set_solver.
Qed.

Lemma vm_lookup_find s a p :
  vm_ok s -> vm_lookup (vm_regions s) a = Some p ->
  exists r l1 l2, find_vm_region (vm_regions s) a = Some r /\ vm_regions s = l1 ++ r :: l2 /\ r_va r <= a < r_va r + r_size r.
Proof using idx_ok.
  intros Hs. unfold vm_lookup. rewrite find_vm_region_covers by done.
  destruct (find (covers a) (vm_regions s)) as [r|] eqn:E; [|done]. intros _. apply find_covers in E as [Hr Ha].
  apply list_elem_of_split in Hr as (l1 & l2 & ->). by exists r, l1, l2.
Qed.

(** The parts of a region that is split at [va]. *)
Definition lower (r : vm_region) (va : Z) : vm_region := set_rsize (va - r_va r) r.
Definition upper (r : vm_region) (va : Z) (id : nat) : vm_region :=
  mk_region id (r_mobj r) (r_offset r + (va - r_va r)) va (r_va r + r_size r - va) (r_attr r) (r_flags r).

Lemma split_layout l1 r l2 va id :
  layout base (l1 ++ r :: l2) top -> r_va r < va < r_va r + r_size r -> va mod 4096 = 0 ->
  layout base (l1 ++ lower r va :: upper r va id :: l2) top.
Proof.
  intros Hl Hva Hal. apply layout_middle in Hl as (H1 & [W1 W2 W3 W4 W5 W6] & H3). apply layout_middle. cbn.
  split; [done|]. split; [constructor; cbn; try done; try lia; Z.div_mod_to_equations; lia|].
  split; [lia|]. split; [constructor; cbn; try done; try lia; Z.div_mod_to_equations; lia|].
  by replace (va + (r_va r + r_size r - va)) with (r_va r + r_size r) by lia.
Qed.

Lemma split_lookup l1 r l2 va id a :
  r_va r < va < r_va r + r_size r ->
  vm_lookup (l1 ++ lower r va :: upper r va id :: l2) a = vm_lookup (l1 ++ r :: l2) a.
Proof.
  intros Hva. rewrite !vm_lookup_app. destruct (vm_lookup l1 a); [done|]. rewrite !vm_lookup_cons.
  unfold covers, page_of. cbn.
  destruct (Z.leb_spec (r_va r) a), (Z.ltb_spec a (r_va r + r_size r)), (Z.ltb_spec a (r_va r + (va - r_va r))),
    (Z.leb_spec va a), (Z.ltb_spec a (va + (r_va r + r_size r - va))); cbn [andb]; try lia; try done.
  do 2 f_equal. lia.
Qed.

Lemma split_vm_region_spec s l1 r l2 va :
  vm_ok s -> vm_regions s = l1 ++ r :: l2 -> r_va r < va < r_va r + r_size r -> va mod 4096 = 0 ->
  exists res s', split_vm_region r va s = Return (res, s') /\ kept s s' /\
    (res = TEE_SUCCESS /\ (exists id, vm_regions s' = l1 ++ lower r va :: upper r va id :: l2) /\
     (Exists (fun c => c <> 0) (vm_ext s') -> Exists (fun c => c <> 0) (vm_ext s)) \/
     res <> TEE_SUCCESS /\ vm_regions s' = vm_regions s /\ Exists (fun c => c <> 0) (vm_ext s)).
Proof using idx_ok.
  intros Hs Hl Hva Hal. destruct (vm_ok_regions s l1 r l2 Hs Hl) as (Hl1 & [W1 W2 W3 W4 W5 W6] & Hl2 & Hb & Ht & Hnd).
  destruct (user_range user_va_idx idx_ok) as (Hu1 & Hu2 & Hu3 & _). unfold UINT64_MAX in W5.
  change (2 ^ 30) with 1073741824 in *. change (2 ^ 49) with 562949953421312 in *.
  unfold split_vm_region. rewrite (u64_small (va - r_va r)) by (unfold is_u64; lia).
  replace (negb (va - r_va r =? 0) && (va - r_va r <? r_size r)) with true; cycle 1.
  { symmetry. apply andb_true_iff. rewrite negb_true_iff, Z.eqb_neq, Z.ltb_lt. lia. }
  destruct (calloc_region s) as [[id|] s1] eqn:Ec; apply calloc_frame in Ec as (R1 & R2 & R3 & R4 & R5); cycle 1.
  { do 2 eexists. split; [done|]. destruct R5 as [R5 R6]. split; [|right; split_and!; done].
    apply same_regions_kept; try done. lia. }
  destruct R5 as [-> R5].
  destruct (if mobj_is_paged (r_mobj r) then ext_call s1 else (TEE_SUCCESS, s1)) as [res s2] eqn:Ep.
  assert (Hs2 : vm_regions s2 = vm_regions s /\ vm_refs s2 = vm_refs s /\ vm_next s2 = S (vm_next s) /\ vm_active s2 = vm_active s /\
    (res <> 0 -> Exists (fun c => c <> 0) (vm_ext s)) /\
    (Exists (fun c => c <> 0) (vm_ext s2) -> Exists (fun c => c <> 0) (vm_ext s))).
  { destruct (mobj_is_paged (r_mobj r)); [|simplify_eq; split_and!; auto; done].
    apply ext_call_frame in Ep as (?&?&?&?&?&?&?). split_and!; auto; congruence. }
  clear Ep R1 R2 R3 R4 R5. destruct Hs2 as (R1 & R2 & R3 & R4 & R5 & R6). unfold TEE_SUCCESS.
  destruct (Z.eqb_spec res 0) as [->|Hres]; cbn [negb]; cycle 1.
  { do 2 eexists. split; [done|]. split; [|right; split_and!; auto]. apply same_regions_kept; try done. lia. }
  rewrite !u64_small by (unfold is_u64; lia).
  set (r2 := mk_region (vm_next s) _ _ _ _ _ _).
  assert (Hr2 : r2 = upper r va (vm_next s)) by (unfold r2, upper; f_equal; lia).
  cbn [vm_regions set_refs]. rewrite R1, Hl, (region_update_mid _ _ _ Hnd r (set_rsize (va - r_va r)) eq_refl).
  assert (Hnd' : NoDup (r_id <$> l1 ++ lower r va :: l2)).
  { by rewrite fmap_app, fmap_cons in Hnd |- *. }
  change (set_rsize (va - r_va r) r) with (lower r va).
  rewrite (tailq_insert_after_mid _ _ (lower r va) Hnd' r r2 eq_refl), Hr2.
  do 2 eexists. split; [done|]. split; [|left; split_and!; try done; by eexists].
  destruct Hs as [A B C]. rewrite Hl in A, C. constructor; cbn [vm_regions set_regions set_refs vm_refs vm_active vm_next].
  - constructor; cbn [vm_regions set_regions set_refs vm_next].
    + by apply split_layout.
    + replace (l1 ++ lower r va :: upper r va (vm_next s) :: l2) with ((l1 ++ [lower r va]) ++ upper r va (vm_next s) :: l2) by by rewrite <- app_assoc.
      apply nodup_insert; rewrite <- app_assoc; [done|]. apply fresh_id. rewrite Forall_app, !Forall_cons in *. naive_solver.
    + rewrite R3. rewrite Forall_app, !Forall_cons in *. destruct C as (C1 & C2 & C3).
      split_and!; cbn; try lia; eapply Forall_impl; try done; cbn; lia.
  - intros m Hm. rewrite refs_of_get by done. rewrite Hl, !held_app, !held_cons, R2. cbn. case_decide; lia.
  - done.
  - rewrite Hl, !Forall_app, !Forall_cons. unfold valid_region. cbn. naive_solver.
  - done.
Qed.

(** ** Ranges *)

(** All of [va, e) is mapped. *)
Definition mapped (l : list vm_region) (va e : Z) : Prop := forall a, va <= a < e -> is_Some (vm_lookup l a).

Lemma mapped_cons_next r l e hi :
  layout (r_va r) (r :: l) hi -> mapped (r :: l) (r_va r) e -> r_va r + r_size r < e ->
  exists r' l', l = r' :: l' /\ r_va r' = r_va r + r_size r /\ mapped l (r_va r + r_size r) e.
Proof.
  intros (_ & [W1 _ _ _ _ _] & Hl) Hm He.
  assert (Hml : mapped l (r_va r + r_size r) e).
  { intros a Ha. destruct (Hm a ltac:(lia)) as [p Hp]. rewrite vm_lookup_cons in Hp.
    replace (covers a r) with false in Hp by (symmetry; apply covers_false; lia). by exists p. }
  destruct (Hml (r_va r + r_size r) ltac:(lia)) as [p Hp]. destruct l as [|r' l']; [done|].
  exists r', l'. split; [done|]. split; [|done]. pose proof Hl as (H1 & _ & _).
  destruct (Z.eq_dec (r_va r') (r_va r + r_size r)) as [|Hne]; [done|exfalso].
  revert Hp. rewrite (vm_lookup_outside (r_va r') (r' :: l') hi); [done| |lia]. eapply layout_raise; [exact Hl|cbn; lia].
Qed.

Lemma contiguous_loop_mapped cmp r0 e r rest hi :
  layout (r_va r) (r :: rest) hi -> 0 <= r_va r -> hi <= UINT64_MAX -> contiguous_loop cmp r0 e r rest = true ->
  mapped (r :: rest) (r_va r) e.
Proof.
  revert r. induction rest as [|rn rest IH]; intros r Hl H0 Hhi; cbn [contiguous_loop].
  all: rewrite (r_end_small _ _ _ r Hl H0 Hhi ltac:(set_solver)); destruct (Z.leb_spec e (r_va r + r_size r)) as [He|He];
    [intros _ a Ha; rewrite vm_lookup_cons; rewrite (proj2 (covers_true a r)) by lia; eauto|].
  - done.
  - destruct (Z.eqb_spec (r_va r + r_size r) (r_va rn)) as [Heq|]; cbn [negb]; [|done].
    destruct (match cmp with Some _ => _ | None => _ end); [done|]. intros Hc.
    destruct Hl as (_ & [W1 _ _ _ _ _] & Hl). rewrite Heq in Hl. specialize (IH rn Hl ltac:(lia) Hhi Hc).
    intros a Ha. rewrite vm_lookup_cons. destruct (covers a r) eqn:E; [eauto|]. apply covers_false in E. apply IH. lia.
Qed.

Lemma mapped_contiguous_loop r0 e r rest hi :
  layout (r_va r) (r :: rest) hi -> 0 <= r_va r -> hi <= UINT64_MAX -> mapped (r :: rest) (r_va r) e ->
  contiguous_loop None r0 e r rest = true.
Proof.
  revert r. induction rest as [|rn rest IH]; intros r Hl H0 Hhi Hm; cbn [contiguous_loop].
  all: rewrite (r_end_small _ _ _ r Hl H0 Hhi ltac:(set_solver)); destruct (Z.leb_spec e (r_va r + r_size r)) as [He|He]; [done|].
  all: destruct (mapped_cons_next _ _ _ _ Hl Hm He) as (r' & l' & Heq & Hr' & Hm'); [done..|simplify_eq].
  rewrite <- Hr', Z.eqb_refl. cbn [negb]. destruct Hl as (_ & [W1 _ _ _ _ _] & Hl). rewrite <- Hr' in Hl, Hm'.
  apply IH; try done. lia.
Qed.

(** From inside the first region on. *)
Lemma mapped_from_start l1 r l2 va e :
  layout base (l1 ++ r :: l2) top -> r_va r <= va < r_va r + r_size r ->
  mapped (l1 ++ r :: l2) va e <-> mapped (r :: l2) (r_va r) e.
Proof.
  intros Hl Hva. apply layout_middle in Hl as (H1 & _ & _). split; intros Hm a Ha.
  - destruct (Z.lt_ge_cases a va); [rewrite vm_lookup_cons, (proj2 (covers_true a r)) by lia; eauto|].
    destruct (Hm a ltac:(lia)) as [p Hp]. rewrite vm_lookup_app, (vm_lookup_outside _ _ _ a H1) in Hp by lia. by exists p.
  - rewrite vm_lookup_app, (vm_lookup_outside _ _ _ a H1) by lia. apply Hm. lia.
Qed.

Lemma va_range_contiguous_mapped s l1 r l2 va len cmp :
  vm_ok s -> vm_regions s = l1 ++ r :: l2 -> r_va r <= va < r_va r + r_size r -> va + len <= UINT64_MAX ->
  (va_range_is_contiguous (vm_regions s) r va len cmp = true -> mapped (vm_regions s) va (va + len)) /\
  (cmp = None -> mapped (vm_regions s) va (va + len) -> va_range_is_contiguous (vm_regions s) r va len cmp = true).
Proof using idx_ok.
  intros Hs Hl Hva Hlen. destruct (vm_ok_regions s l1 r l2 Hs Hl) as (Hl1 & W & Hl2 & Hb & Ht & Hnd).
  destruct (user_range user_va_idx idx_ok) as (Hu1 & Hu2 & Hu3 & _).
  assert (HL : layout (r_va r) (r :: l2) top) by (cbn; split_and!; [lia|done|done]).
  unfold va_range_is_contiguous. rewrite (proj2 (ADD_OVERFLOW_Some va len (va + len))) by done.
  rewrite Hl, (tailq_from_mid _ _ _ Hnd r eq_refl). cbn [tail].
  destruct Hs as [A _ _]. rewrite Hl in A. rewrite (mapped_from_start l1 r l2 va (va + len) A Hva). split.
  - apply contiguous_loop_mapped with top; [done|lia|unfold UINT64_MAX; lia].
  - intros ->. apply mapped_contiguous_loop with top; [done|lia|unfold UINT64_MAX; lia].
Qed.

(** A mapped range with a region that ends where it ends is a stretch of regions. *)
Lemma mapped_tiled r l e hi x :
  layout (r_va r) (r :: l) hi -> mapped (r :: l) (r_va r) e -> x ∈ r :: l -> r_va x + r_size x = e ->
  exists m l2, r :: l = r :: m ++ l2 /\ tiled (r_va r) (r :: m) e.
Proof.
  revert r. induction l as [|r' l IH]; intros r Hl Hm Hx He.
  { apply list_elem_of_singleton in Hx as ->. by exists [], []. }
  destruct (Z.eq_dec (r_va r + r_size r) e) as [E|E]; [by exists [], (r' :: l)|].
  apply elem_of_cons in Hx as [->|Hx]; [lia|]. pose proof Hl as (_ & W & Hl').
  destruct (layout_elem _ _ _ _ Hl' Hx) as ([] & Hx1 & _).
  destruct (mapped_cons_next _ _ _ _ Hl Hm ltac:(lia)) as (r1 & l1 & Heq & Hr1 & Hm'). simplify_eq.
  rewrite <- Hr1 in Hl', Hm'. destruct (IH r1 Hl' Hm' Hx eq_refl) as (m & l2 & Hl1 & Ht).
  exists (r1 :: m), l2. split; [by rewrite Hl1|]. split; [done|]. by rewrite <- Hr1.
Qed.

Notation fails s := (Exists (fun c => c <> 0) (vm_ext s)).

(** The first step of [split_vm_range]: a region starts at [va]. *)
Lemma split_first s l1 r l2 va :
  vm_ok s -> vm_regions s = l1 ++ r :: l2 -> r_va r <= va < r_va r + r_size r -> va mod 4096 = 0 ->
  exists res r0 s', (if negb (va =? r_va r) then
      (do! (res, s') <- split_vm_region r va s; Return (res, tailq_next r (vm_regions s'), s'))%c
      else Return (TEE_SUCCESS, Some r, s)) = Return (res, r0, s') /\
    kept s s' /\ (forall a, vm_lookup (vm_regions s') a = vm_lookup (vm_regions s) a) /\
    (res = TEE_SUCCESS /\ (exists r' l1' l2', r0 = Some r' /\ r_va r' = va /\ vm_regions s' = l1' ++ r' :: l2') /\ (fails s' -> fails s) \/
     res <> TEE_SUCCESS /\ fails s).
Proof using idx_ok.
  intros Hs Hl Hva Hal. destruct (Z.eqb_spec va (r_va r)) as [E|E]; cbn [negb].
  { do 3 eexists. split; [done|]. split; [by apply kept_refl|]. split; [done|]. left. split; [done|]. split; [|done].
    by exists r, l1, l2. }
  destruct (split_vm_region_spec s l1 r l2 va Hs Hl ltac:(lia) Hal) as (res & s' & -> & Hk & Hcase). cbn [obind].
  do 3 eexists. split; [done|]. split; [done|]. destruct Hcase as [(-> & (id & Hl') & Hf)|(Hr & Hl' & Hf)].
  - split; [intros a; rewrite Hl', Hl; apply split_lookup; lia|]. left. split; [done|]. split; [|done].
    exists (upper r va id), (l1 ++ [lower r va]), l2. split; [|by rewrite <- app_assoc].
    destruct Hk as [[_ Hnd _] _ _ _ _]. rewrite Hl' in Hnd |- *. unfold tailq_next.
    by rewrite (tailq_from_mid _ _ _ Hnd r eq_refl).
  - split; [by rewrite Hl'|]. by right.
Qed.

(** The second step: a region ends at [e]. *)
Lemma split_last s l1 r0 l2 e :
  vm_ok s -> vm_regions s = l1 ++ r0 :: l2 -> r_va r0 < e -> mapped (vm_regions s) (r_va r0) e -> e mod 4096 = 0 -> e <= UINT64_MAX ->
  exists x res s', find_vm_region (vm_regions s) (e - 1) = Some x /\
    (if negb (e =? r_end x) then (do! (res, s') <- split_vm_region x e s; Return (res, Some r0, s'))%c
     else Return (TEE_SUCCESS, Some r0, s)) = Return (res, Some r0, s') /\
    kept s s' /\ (forall a, vm_lookup (vm_regions s') a = vm_lookup (vm_regions s) a) /\
    (res = TEE_SUCCESS /\ (exists r' l1' m l2', r_id r' = r_id r0 /\ r_mobj r' = r_mobj r0 /\
       vm_regions s' = l1' ++ (r' :: m) ++ l2' /\ tiled (r_va r0) (r' :: m) e) \/
     res <> TEE_SUCCESS /\ fails s).
Proof using idx_ok.
  intros Hs Hl He Hm Hal HeM. destruct (Hm (e - 1) ltac:(lia)) as [p Hp].
  destruct (vm_lookup_find s (e - 1) p Hs Hp) as (x & lx1 & lx2 & Hf & Hlx & Hx). exists x. rewrite Hf.
  assert (Hxin : x ∈ vm_regions s) by (rewrite Hlx; set_solver).
  rewrite (vm_ok_r_end s x Hs Hxin). destruct (vm_ok_regions s l1 r0 l2 Hs Hl) as (Hl1 & W & Hl2 & Hb & Ht & Hnd).
  destruct (Z.eqb_spec e (r_va x + r_size x)) as [E|E]; cbn [negb].
  { do 2 eexists. split; [done|]. split; [done|]. split; [by apply kept_refl|]. split; [done|]. left. split; [done|].
    assert (HL : layout (r_va r0) (r0 :: l2) top) by (cbn; split_and!; [lia|done|done]).
    destruct (mapped_tiled r0 l2 e top x HL) as (m & l2' & Hm' & Ht'); [| |done|].
    { intros a Ha. destruct (Hm a Ha) as [q Hq]. rewrite Hl, vm_lookup_app, (vm_lookup_outside _ _ _ a Hl1) in Hq by lia. by exists q. }
    { rewrite Hl in Hxin. apply elem_of_app in Hxin as [Hxin|]; [|done]. destruct (layout_elem _ _ _ _ Hl1 Hxin) as (_ & _ & ?). lia. }
    exists r0, l1, m, l2'. split; [done|]. split; [done|]. split; [by rewrite Hl; f_equal|done]. }
  destruct (split_vm_region_spec s lx1 x lx2 e Hs Hlx ltac:(lia) Hal) as (res & s' & -> & Hk & Hcase). cbn [obind].
  do 2 eexists. split; [done|]. split; [done|]. split; [done|]. destruct Hcase as [(-> & (id & Hl') & Hfl)|(Hr & Hl' & Hfl)]; cycle 1.
  { split; [by rewrite Hl'|]. by right. }
  assert (Hlk : forall a, vm_lookup (vm_regions s') a = vm_lookup (vm_regions s) a) by (intros a; rewrite Hl', Hlx; apply split_lookup; lia).
  split; [done|]. left. split; [done|].
  assert (Hr' : exists r' l1' l2', r_id r' = r_id r0 /\ r_mobj r' = r_mobj r0 /\ r_va r' = r_va r0 /\ vm_regions s' = l1' ++ r' :: l2' /\ lower x e ∈ r' :: l2').
  { rewrite Hlx in Hl. apply app_eq_app in Hl as (k & [[-> Hk1]|[-> Hk1]]).
    - destruct k as [|y k]; cbn in Hk1; [injection Hk1 as -> ->|injection Hk1 as -> ->].
      + exists (lower x e), l1, (upper x e id :: lx2). rewrite Hl', app_nil_r. split_and!; try done. set_solver.
      + exists y, l1, (k ++ lower x e :: upper x e id :: lx2). rewrite Hl', <- app_assoc. split_and!; try done. set_solver.
    - destruct k as [|y k]; cbn in Hk1; [injection Hk1 as -> ->|injection Hk1 as -> ->].
      + exists (lower r0 e), lx1, (upper r0 e id :: l2). rewrite Hl'. split_and!; try done. set_solver.
      + exfalso. assert (Hy : y ∈ lx1 ++ y :: k) by set_solver. destruct (layout_elem _ _ _ _ Hl1 Hy) as (_ & _ & ?). lia. }
  destruct Hr' as (r' & l1' & l2' & Hid & Hmo & Hva & Hs' & Hlow). rewrite <- Hva.
  destruct (vm_ok_regions s' l1' r' l2' (k_ok _ _ Hk) Hs') as (Hl1' & W' & Hl2' & _).
  assert (HL : layout (r_va r') (r' :: l2') top) by (cbn; split_and!; [lia|done|done]).
  destruct (mapped_tiled r' l2' e top (lower x e) HL) as (m & l3 & Hm' & Ht'); [|done|cbn; lia|].
  { intros a Ha. destruct (Hm a ltac:(lia)) as [q Hq]. rewrite <- Hlk, Hs', vm_lookup_app, (vm_lookup_outside _ _ _ a Hl1') in Hq by lia. by exists q. }
  exists r', l1', m, l3. split; [done|]. split; [done|]. split; [rewrite Hs'; by f_equal|done].
Qed.

(** Why a range may be refused. *)
Definition bad_range (s : vm_info) (va len : Z) : Prop :=
  va mod 4096 <> 0 \/ len mod 4096 <> 0 \/ UINT64_MAX < va + len \/ ~ mapped (vm_regions s) va (va + len).

Lemma split_vm_range_spec s va len cmp :
  vm_ok s -> 0 <= va -> 0 < len ->
  exists res r0 s', split_vm_range va len cmp s = Return (res, r0, s') /\ kept s s' /\
    (forall a, vm_lookup (vm_regions s') a = vm_lookup (vm_regions s) a) /\
    (res = TEE_SUCCESS /\ ~ bad_range s va len /\
       (exists r0' r l1 m l2, r0 = Some r0' /\ r_id r = r_id r0' /\ r_mobj r = r_mobj r0' /\
          vm_regions s' = l1 ++ (r :: m) ++ l2 /\ tiled va (r :: m) (va + len)) \/
     res <> TEE_SUCCESS /\ (cmp = None -> bad_range s va len \/ fails s)).
Proof using idx_ok.
  intros Hs Hva0 Hlen. unfold split_vm_range, bad_range. rewrite land_mask_zero.
  assert (Hbad : forall (P : Prop), P -> exists res r0 s', Return (TEE_ERROR_BAD_PARAMETERS, None, s) = Return (res, r0, s') /\ kept s s' /\
    (forall a, vm_lookup (vm_regions s') a = vm_lookup (vm_regions s) a) /\
    ((res = TEE_SUCCESS /\ ~ bad_range s va len /\ (exists r0' r l1 m l2, r0 = Some r0' /\ r_id r = r_id r0' /\ r_mobj r = r_mobj r0' /\
          vm_regions s' = l1 ++ (r :: m) ++ l2 /\ tiled va (r :: m) (va + len))) \/ res <> TEE_SUCCESS /\ P)).
  { intros P HP. do 3 eexists. split; [done|]. split; [by apply kept_refl|]. split; [done|]. by right. }
  destruct (Z.eqb_spec (Z.lor va len mod 4096) 0) as [E|E]; cbn [negb]; cycle 1.
  { apply Hbad. intros _. left. destruct (decide (va mod 4096 = 0)), (decide (len mod 4096 = 0)); try tauto. destruct E. by apply lor_aligned. }
  apply lor_aligned in E as [Ea El]. destruct (ADD_OVERFLOW va len) as [e|] eqn:EA; cycle 1.
  { apply Hbad. intros _. left. unfold ADD_OVERFLOW in EA. case_match; zbool; [done|tauto]. }
  apply ADD_OVERFLOW_Some in EA as [-> He].
  destruct (find_vm_region (vm_regions s) va) as [r|] eqn:Ef; cycle 1.
  { apply Hbad. intros _. left. do 3 right. intros Hm. destruct (Hm va ltac:(lia)) as [p Hp].
    destruct (vm_lookup_find s va p Hs Hp) as (x & _ & _ & Hx & _). congruence. }
  pose proof Ef as Ef'. rewrite find_vm_region_covers in Ef' by done. apply find_covers in Ef' as [Hr Hva].
  apply list_elem_of_split in Hr as (l1 & l2 & Hl).
  destruct (va_range_contiguous_mapped s l1 r l2 va len cmp Hs Hl Hva He) as [Hc1 Hc2].
  destruct (va_range_is_contiguous (vm_regions s) r va len cmp); cbn [negb]; cycle 1.
  { apply Hbad. intros Hn. left. do 3 right. intros Hm. by specialize (Hc2 Hn Hm). }
  specialize (Hc1 eq_refl). clear Hbad Hc2.
  destruct (split_first s l1 r l2 va Hs Hl Hva Ea) as (res & r0 & s1 & -> & Hk & Hlk & Hcase). cbn [obind].
  destruct Hcase as [(-> & (r' & l1' & l2' & -> & Hr' & Hl') & Hf)|(Hres & Hf)]; cycle 1.
  { unfold TEE_SUCCESS in *. rewrite (proj2 (Z.eqb_neq res 0)) by done. cbn [negb]. do 3 eexists. split; [done|]. split; [done|]. split; [done|].
    right. split; [done|]. by right. }
  change (negb (TEE_SUCCESS =? TEE_SUCCESS)) with false. cbn iota.
  assert (Hue : u64 (u64 (va + len) - 1) = va + len - 1).
  { rewrite (u64_small (va + len)) by (unfold is_u64, UINT64_MAX in *; lia). apply u64_small. unfold is_u64, UINT64_MAX in *. lia. }
  destruct (split_last s1 l1' r' l2' (va + len) (k_ok _ _ Hk) Hl') as (x & res & s2 & Hfx & Hsp & Hk2 & Hlk2 & Hcase).
  { lia. }
  { intros a Ha. rewrite Hlk. apply Hc1. lia. }
  { Z.div_mod_to_equations. lia. }
  { done. }
  rewrite Hue, Hfx, Hsp. do 3 eexists. split; [done|]. split; [by eapply kept_trans|]. split; [intros a; by rewrite Hlk2|].
  destruct Hcase as [(-> & (r2 & l1'' & m & l2'' & Hi & Hmo & Hl2 & Ht))|(Hres & Hf2)]; [left|right; auto].
  split; [done|]. split; [intros [?|[?|[?|?]]]; [done|done|lia|done]|]. exists r', r2, l1'', m, l2''. rewrite Hr' in Ht. split_and!; done.
Qed.

(** ** Merging *)

Definition mergeable (r rn : vm_region) : Prop :=
  r_va r + r_size r = r_va rn /\ r_mobj r = r_mobj rn /\ r_flags r = r_flags rn /\ r_attr r = r_attr rn /\
  r_offset r + r_size r = r_offset rn.

Lemma merge_lookup l1 r rn l2 a :
  0 <= r_size r -> 0 <= r_size rn -> mergeable r rn ->
  vm_lookup (l1 ++ set_rsize (r_size r + r_size rn) r :: l2) a = vm_lookup (l1 ++ r :: rn :: l2) a.
Proof.
  intros H1 H2 (M1 & M2 & M3 & M4 & M5). rewrite !vm_lookup_app. destruct (vm_lookup l1 a); [done|]. rewrite !vm_lookup_cons.
  unfold covers, page_of. cbn. rewrite <- M1, <- M2, <- M3, <- M4, <- M5.
  destruct (Z.leb_spec (r_va r) a), (Z.ltb_spec a (r_va r + r_size r)), (Z.ltb_spec a (r_va r + (r_size r + r_size rn))),
    (Z.leb_spec (r_va r + r_size r) a), (Z.ltb_spec a (r_va r + r_size r + r_size rn)); cbn [andb]; try lia; try done.
  do 2 f_equal. lia.
Qed.

(** The loop, over the regions not yet passed. *)
Lemma merge_loop_spec va e rest : forall r refs hi,
  layout (r_va r) (r :: rest) hi -> 0 <= r_va r -> hi <= UINT64_MAX -> NoDup (r_id <$> r :: rest) ->
  forall l refs', merge_loop va e r rest refs = (l, refs') ->
    layout (r_va r) l hi /\ NoDup (r_id <$> l) /\ (r_id <$> l ⊆ r_id <$> r :: rest) /\ (forall a, vm_lookup l a = vm_lookup (r :: rest) a) /\
    (forall m, m <> 0%nat -> refs_of m refs' - held m l = refs_of m refs - held m (r :: rest)) /\
    (Forall valid_region (r :: rest) -> Forall valid_region l).
Proof.
  induction rest as [|rn rest IH]; intros r refs hi Hl H0 Hhi Hnd l refs'; cbn [merge_loop]; [intros; by simplify_eq|].
  pose proof Hl as (_ & [W1 W2 W3 W4 W5 W6] & Hl'). pose proof Hl' as (Hn & [V1 V2 V3 V4 V5 V6] & Hl'').
  rewrite (r_end_small _ _ _ r Hl H0 Hhi ltac:(set_solver)).
  assert (Hskip : forall l refs', (let '(l, refs) := merge_loop va e rn rest refs in (r :: l, refs)) = (l, refs') ->
    layout (r_va r) l hi /\ NoDup (r_id <$> l) /\ (r_id <$> l ⊆ r_id <$> r :: rn :: rest) /\ (forall a, vm_lookup l a = vm_lookup (r :: rn :: rest) a) /\
    (forall m, m <> 0%nat -> refs_of m refs' - held m l = refs_of m refs - held m (r :: rn :: rest)) /\
    (Forall valid_region (r :: rn :: rest) -> Forall valid_region l)).
  { intros l0 refs0. destruct (merge_loop va e rn rest refs) as [l1 refs1] eqn:Em. intros [= <- <-].
    rewrite fmap_cons, NoDup_cons in Hnd. destruct Hnd as [Hnd1 Hnd2].
    assert (HL : layout (r_va rn) (rn :: rest) hi) by (eapply layout_raise; [exact Hl'|cbn; lia]).
    destruct (IH rn refs hi HL ltac:(lia) Hhi Hnd2 l1 refs1 Em) as (A & B & C & D & E & F).
    split_and!.
    - cbn. split; [lia|]. split; [done|]. eapply layout_mono; [exact A|lia|lia].
    - rewrite fmap_cons, NoDup_cons. split; [|done]. intros Hin. by apply Hnd1, C.
    - intros x. rewrite !(fmap_cons _ r), !elem_of_cons. specialize (C x). tauto.
    - intros a. rewrite !(vm_lookup_cons r). by rewrite D.
    - intros m Hm. rewrite !(held_cons m r). specialize (E m Hm). lia.
    - rewrite !(Forall_cons _ r). naive_solver. }
  destruct (_ <? va); [apply Hskip|]. destruct (e <? _); [intros; by simplify_eq|].
  destruct (Z.eqb_spec (r_va r + r_size r) (r_va rn)) as [M1|]; cbn [negb]; [|apply Hskip].
  destruct (_ || _ || _) eqn:Eo; [apply Hskip|]. zbool. destruct (Z.eqb_spec (u64 (r_offset r + r_size r)) (r_offset rn)) as [M5|]; cbn [negb]; [|apply Hskip].
  clear Hskip. match goal with H : Nat.eqb _ _ = true |- _ => apply Nat.eqb_eq in H as M2 end.
  rewrite u64_small in M5 by (unfold is_u64, UINT64_MAX in *; lia).
  pose proof (layout_le _ _ _ Hl'') as Hle. rewrite (u64_small (r_size r + r_size rn)) by (unfold is_u64, UINT64_MAX in *; lia).
  set (r' := set_rsize (r_size r + r_size rn) r). intros Em.
  assert (HM : mergeable r rn) by (unfold mergeable; done).
  assert (HL : layout (r_va r') (r' :: rest) hi).
  { cbn. split; [lia|]. split; [constructor; cbn; try done; try lia; Z.div_mod_to_equations; lia|].
    by replace (r_va r + (r_size r + r_size rn)) with (r_va rn + r_size rn) by lia. }
  assert (HN : NoDup (r_id <$> r' :: rest)) by exact (nodup_drop_stretch [r] [rn] rest Hnd).
  destruct (IH r' (mobj_put (r_mobj rn) refs) hi HL H0 Hhi HN l refs' Em) as (A & B & C & D & E & F).
  split_and!; try done.
  - intros x Hx. specialize (C x Hx). revert C. rewrite !fmap_cons, !elem_of_cons. cbn. tauto.
  - intros a. rewrite D. apply (merge_lookup [] r rn rest a); done.
  - intros m Hm. rewrite E, refs_of_put, !held_cons by done. unfold r'. cbn. rewrite M2. case_decide; lia.
  - rewrite !Forall_cons. intros (? & ? & ?). apply F. by constructor.
Qed.

Lemma merge_vm_range_spec s va len :
  vm_ok s -> vm_regions s <> [] ->
  exists s', merge_vm_range va len s = Return s' /\ kept s s' /\ (forall a, vm_lookup (vm_regions s') a = vm_lookup (vm_regions s) a).
Proof using idx_ok.
  intros Hs Hne. unfold merge_vm_range. destruct (ADD_OVERFLOW va len) as [e|]; cycle 1.
  { eexists. split; [done|]. split; [by apply kept_refl|done]. }
  destruct (vm_regions s) as [|r rest] eqn:Hl; [done|]. pose proof Hs as [A B C]. rewrite Hl in A, B, C.
  destruct (user_range user_va_idx idx_ok) as (Hu1 & Hu2 & Hu3 & _). pose proof A as (A1 & _ & _).
  destruct (merge_loop va e r rest (vm_refs s)) as [l refs] eqn:Em.
  destruct (merge_loop_spec va e rest r (vm_refs s) top) with l refs as (D1 & D2 & D3 & D4 & D5 & D6); try done.
  { eapply layout_raise; [exact A|cbn; lia]. }
  { lia. }
  { unfold UINT64_MAX. lia. }
  eexists. split; [done|]. split; [|done]. constructor; cbn; rewrite ?Hl; try done. constructor; cbn; try done.
  - eapply layout_mono; [exact D1|lia|lia].
  - rewrite Forall_forall in *. intros x Hx. assert (Hin : r_id x ∈ r_id <$> r :: rest) by (by apply D3, list_elem_of_fmap_2).
    apply list_elem_of_fmap in Hin as (y & -> & Hy). by apply C.
Qed.
End ops.
