(* ===== verification/VmOps.v ===== *)
(** * The operations on an address space

    Mapping, unmapping, protection and moving, each as its effect on the layout and on
    what addresses are mapped to, with the references of memory objects and the error
    paths. *)

From S2P Require Import Prelude Vm VmMap VmSplit.
From stdpp Require Import base gmap list.
From Stdlib Require Import ZArith Lia.

Local Open Scope Z_scope.

(** ** Stretches of regions *)

Lemma tiled_le lo l hi : tiled lo l hi -> Forall region_wf l -> lo <= hi.
Proof. intros H1 H2. by eapply layout_le, tiled_layout. Qed.

(** Taking a stretch out unmaps just its addresses. *)
Lemma lookup_cut lo l1 m l2 hi va e a :
  layout lo (l1 ++ m ++ l2) hi -> tiled va m e ->
  vm_lookup (l1 ++ l2) a = if (va <=? a) && (a <? e) then None else vm_lookup (l1 ++ m ++ l2) a.
Proof.
  intros Hl Ht. apply layout_app in Hl as (x & Hl1 & Hl). destruct m as [|r m].
  { cbn in Ht. subst e. replace ((va <=? a) && (a <? va)) with false; [done|]. symmetry. apply andb_false_iff. rewrite Z.leb_gt, Z.ltb_ge. lia. }
  pose proof Ht as [Hva _]. cbn [app] in Hl. pose proof Hl as (Hx & _ & _).
  assert (Hm : exists y, layout va (r :: m) y /\ layout y l2 hi).
  { assert (Hl' : layout va ((r :: m) ++ l2) hi) by (eapply layout_raise; [exact Hl|cbn; lia]). by apply layout_app in Hl'. }
  destruct Hm as (y & Hm & Hl2). assert (He : layout va (r :: m) e) by (apply tiled_layout; [done|by eapply layout_forall]).
  assert (Hy : e <= y).
  { clear - Ht Hm. revert va Ht Hm. generalize (r :: m). intros l. induction l as [|z l IH]; intros va; cbn; [lia|].
    intros [-> H] (_ & _ & Hl). by eapply IH. }
  rewrite !vm_lookup_app.
  destruct (Z.leb_spec va a), (Z.ltb_spec a e); cbn [andb].
  - by rewrite (vm_lookup_outside _ _ _ a Hl1), (vm_lookup_outside _ _ _ a Hl2) by lia.
  - by rewrite (vm_lookup_outside _ _ _ a He) by lia.
  - by rewrite (vm_lookup_outside _ _ _ a He) by lia.
  - by rewrite (vm_lookup_outside _ _ _ a He) by lia.
Qed.

(** The regions inside a range that starts and ends with regions. *)
Lemma while_inside_tiled m l2 lo e hi :
  layout lo (m ++ l2) hi -> tiled lo m e -> 0 <= lo -> hi <= UINT64_MAX ->
  exists z l3, l2 = z ++ l3 /\ while_inside e (m ++ l2) = (m ++ z, l3) /\ tiled e z e.
Proof.
  revert lo. induction m as [|r m IH]; intros lo Hl Ht H0 Hhi.
  - cbn in Ht. subst lo. cbn [app] in *. induction l2 as [|r l2 IH].
    { exists [], []. done. }
    cbn [while_inside]. pose proof Hl as (Hr1 & [W1 _ _ _ _ _] & Hl'). rewrite (r_end_small _ _ _ r Hl H0 Hhi ltac:(set_solver)).
    destruct (Z.ltb_spec e (r_va r + r_size r)) as [Hlt|Hge]; [by exists [], (r :: l2)|].
    assert (Heq : r_va r = e) by lia.
    destruct IH as (z & l3 & -> & -> & Hz); [eapply layout_mono; [exact Hl'|lia|lia]|].
    exists (r :: z), l3. split; [done|]. split; [done|]. cbn. split; [done|]. by replace (r_va r + r_size r) with e by lia.
  - cbn [app while_inside] in *. destruct Ht as [Hva Ht]. pose proof Hl as (Hr1 & [W1 _ _ _ _ _] & Hl').
    rewrite (r_end_small _ _ _ r Hl H0 Hhi ltac:(set_solver)).
    assert (He : r_va r + r_size r <= e) by (eapply tiled_le; [exact Ht|]; apply layout_forall in Hl'; by apply Forall_app in Hl' as [? _]).
    destruct (Z.ltb_spec e (r_va r + r_size r)) as [|_]; [lia|].
    destruct (IH (r_va r + r_size r) Hl' Ht ltac:(lia) Hhi) as (z & l3 & -> & -> & Hz). by exists z, l3.
Qed.

(** A store into each region of a stretch. *)
Lemma region_update_stretch f l1 m l2 :
  (forall r, r_id (f r) = r_id r) -> NoDup (r_id <$> l1 ++ m ++ l2) ->
  foldr (fun r => region_update r f) (l1 ++ m ++ l2) m = l1 ++ (f <$> m) ++ l2.
Proof.
  intros Hf. revert l1. induction m as [|r m IH]; intros l1 Hn; [done|]. cbn [foldr app].
  replace (l1 ++ r :: m ++ l2) with ((l1 ++ [r]) ++ m ++ l2) by by rewrite <- app_assoc.
  rewrite IH by by rewrite <- app_assoc. rewrite <- app_assoc. cbn [app fmap list_fmap].
  apply region_update_mid; [|done]. cbn [app] in Hn. rewrite !fmap_app, !fmap_cons, !fmap_app in *.
  replace (r_id <$> (f <$> m)) with (r_id <$> m); [done|]. rewrite <- list_fmap_compose. apply list_fmap_ext. intros i x _. symmetry. apply Hf.
Qed.

Lemma layout_fmap (f : vm_region -> vm_region) lo l hi :
  (forall r, r_va (f r) = r_va r /\ r_size (f r) = r_size r /\ r_offset (f r) = r_offset r /\ (is_u16 (r_attr r) -> is_u16 (r_attr (f r)))) ->
  layout lo l hi -> layout lo (f <$> l) hi.
Proof.
  intros Hf. revert lo. induction l as [|r l IH]; intros lo; [done|]. cbn. destruct (Hf r) as (E1 & E2 & E3 & E4).
  rewrite E1, E2. intros (H1 & [W1 W2 W3 W4 W5 W6] & H3). split; [done|]. split; [|auto]. constructor; rewrite ?E1, ?E2, ?E3; auto.
Qed.

Definition page_set_attr (g : Z -> Z) (p : page) : page := mk_page (pg_mobj p) (pg_offset p) (g (pg_attr p)) (pg_flags p).

Lemma lookup_fmap_attr (g : Z -> Z) l a :
  vm_lookup ((fun r => set_attr (g (r_attr r)) r) <$> l) a = page_set_attr g <$> vm_lookup l a.
Proof.
  induction l as [|r l IH]; [done|]. rewrite fmap_cons, !vm_lookup_cons, IH. by destruct (covers a r) eqn:E; unfold covers in *; cbn in *; rewrite E.
Qed.

(** Changing the attributes of a stretch changes just its addresses. *)
Lemma lookup_reattr (g : Z -> Z) lo l1 m l2 hi va e a :
  (forall x, is_u16 x -> is_u16 (g x)) -> layout lo (l1 ++ m ++ l2) hi -> tiled va m e ->
  vm_lookup (l1 ++ ((fun r => set_attr (g (r_attr r)) r) <$> m) ++ l2) a =
  if (va <=? a) && (a <? e) then page_set_attr g <$> vm_lookup (l1 ++ m ++ l2) a else vm_lookup (l1 ++ m ++ l2) a.
Proof.
  intros Hg Hl Ht. set (m' := _ <$> m).
  assert (Ht' : tiled va m' e).
  { unfold m'. clear Hl. revert va Ht. induction m as [|r m IH]; intros va; cbn; [done|]. intros [H1 H2]. split; [done|]. by apply IH. }
  assert (Hl' : layout lo (l1 ++ m' ++ l2) hi).
  { rewrite !layout_app in Hl |- *. destruct Hl as (x & H1 & H2). exists x. split; [done|]. rewrite layout_app in H2 |- *.
    destruct H2 as (y & H2 & H3). exists y. split; [|done]. apply layout_fmap; [|done]. intros r. cbn. auto. }
  pose proof (lookup_cut _ _ _ _ _ va e a Hl Ht) as E1. pose proof (lookup_cut _ _ _ _ _ va e a Hl' Ht') as E2.
  destruct ((va <=? a) && (a <? e)) eqn:Er; [|congruence]. zbool.
  rewrite vm_lookup_app in E1. rewrite (vm_lookup_app l1 (m' ++ l2)), (vm_lookup_app l1 (m ++ l2)). destruct (vm_lookup l1 a); [done|].
  rewrite (vm_lookup_app m'), (vm_lookup_app m). unfold m'. rewrite lookup_fmap_attr. destruct (tiled_lookup va m e a Ht ltac:(lia)) as [p ->]. done.
Qed.

Section ops.
Context {MO : Mobjs}.
Context (user_va_idx PGT_CACHE_SIZE : Z).
Hypothesis idx_ok : 1 <= user_va_idx < 2 ^ 18.
Notation base := (va_range_base user_va_idx).
Notation top := (base + va_range_size).
Notation vm_ok := (vm_ok user_va_idx).
Notation kept := (kept user_va_idx).
Notation fails s := (Exists (fun c => c <> 0) (vm_ext s)).

(** ** Unmapping *)

Lemma umap_remove_kept s l1 r l2 :
  vm_ok s -> vm_regions s = l1 ++ r :: l2 -> kept s (umap_remove_region r s) /\ vm_regions (umap_remove_region r s) = l1 ++ l2.
Proof.
  intros Hs Hl. destruct (vm_ok_regions user_va_idx s l1 r l2 Hs Hl) as (_ & _ & _ & _ & _ & Hnd). unfold umap_remove_region.
  cbn [vm_regions set_refs set_regions]. rewrite Hl, (tailq_remove_mid _ _ _ Hnd r eq_refl). split; [|done].
  destruct Hs as [A B C]. rewrite Hl in A, B, C. constructor; cbn [vm_regions set_regions set_refs vm_refs vm_active]; try done.
  - constructor; cbn [vm_regions set_regions set_refs vm_next].
    + apply (layout_sub _ l1 [r] l2). done.
    + by apply (nodup_drop_stretch l1 [r] l2).
    + rewrite Forall_app, Forall_cons in *. tauto.
  - intros m Hm. rewrite refs_of_put by done. rewrite Hl, !held_app, held_cons. case_decide; lia.
  - rewrite Hl, !Forall_app, Forall_cons. tauto.
Qed.

Lemma unmap_loop_spec e l1 l2 : forall m r s va,
  vm_ok s -> vm_regions s = l1 ++ (r :: m) ++ l2 -> tiled va (r :: m) e ->
  exists m1 m2, r :: m = m1 ++ m2 /\ tiled va m1 e /\ kept s (unmap_loop e r (m ++ l2) s) /\
    vm_regions (unmap_loop e r (m ++ l2) s) = l1 ++ m2 ++ l2.
Proof using idx_ok.
  induction m as [|r1 m IH]; intros r s va Hs Hl [Hva Ht]; cbn [app] in Hl;
    destruct (umap_remove_kept s l1 r _ Hs Hl) as [Hk Hr];
    pose proof (vm_ok_r_end user_va_idx idx_ok s r Hs ltac:(rewrite Hl; set_solver)) as He.
  - cbn in Ht. exists [r], []. cbn [app unmap_loop]. split; [done|]. split; [done|].
    destruct l2 as [|r2 l2]; cbn [unmap_loop]; [done|]. rewrite He, Ht, Z.eqb_refl. done.
  - cbn [app unmap_loop]. rewrite He. destruct (Z.eqb_spec (r_va r + r_size r) e) as [E|E].
    + exists [r], (r1 :: m). split_and!; try done.
    + destruct (IH r1 (umap_remove_region r s) (r_va r + r_size r) (k_ok _ _ _ Hk) Hr Ht) as (m1 & m2 & Hm & Ht1 & Hk1 & Hr1).
      exists (r :: m1), m2. rewrite Hm. split_and!; try done. by eapply kept_trans.
Qed.

(** What [vm_unmap] does, in every case. *)
Lemma vm_unmap_cases s va len :
  vm_ok s -> vm_active s = true -> 0 <= va -> 0 <= len ->
  exists res s', vm_unmap va len s = Return (res, s') /\ kept s s' /\
    let l := len + (- len) mod 4096 in
    ((res = TEE_SUCCESS /\ 0 < l /\ ~ bad_range s va l /\
      forall a, vm_lookup (vm_regions s') a = if (va <=? a) && (a <? va + l) then None else vm_lookup (vm_regions s) a) \/
     (res <> TEE_SUCCESS /\ (forall a, vm_lookup (vm_regions s') a = vm_lookup (vm_regions s) a) /\
      (UINT64_MAX < l + 4095 \/ l = 0 \/ bad_range s va l \/ fails s))).
Proof using idx_ok.
  intros Hs Hact Hva Hlen. unfold vm_unmap. rewrite Hact. cbn [negb].
  assert (Hg : pow2 SMALL_PAGE_SIZE) by (exists 12; done).
  pose proof (ROUNDUP_OVERFLOW_spec len SMALL_PAGE_SIZE Hg Hlen) as Hru.
  assert (Hl0 : (4096 | len + (- len) mod 4096)) by (apply Z.mod_divide; [done|]; Z.div_mod_to_equations; lia).
  pose proof (Z.mod_pos_bound (- len) 4096 ltac:(lia)) as Hmod.
  destruct (ROUNDUP_OVERFLOW len SMALL_PAGE_SIZE) as [l|]; cycle 1.
  { do 2 eexists. split; [done|]. split; [by apply kept_refl|]. right. split; [done|]. split; [done|]. left. unfold SMALL_PAGE_SIZE in Hru. lia. }
  destruct Hru as (Hl1 & Hl2 & Hl3). assert (El : len + (- len) mod 4096 = l).
  { specialize (Hl3 _ Hl0 ltac:(lia)). unfold SMALL_PAGE_SIZE in Hl2. destruct Hl2 as [q ->]. Z.div_mod_to_equations. lia. }
  cbv zeta. rewrite El. clear El Hl3 Hl0 Hmod. destruct (Z.eqb_spec l 0) as [->|Hl0]; cbn [orb].
  { do 2 eexists. split; [done|]. split; [by apply kept_refl|]. right. split; [done|]. split; [done|]. auto. }
  rewrite land_mask_zero. destruct (Z.eqb_spec (va mod 4096) 0) as [Ea|Ea]; cbn [negb]; cycle 1.
  { do 2 eexists. split; [done|]. split; [by apply kept_refl|]. right. split; [done|]. split; [done|]. right; right; left. by left. }
  destruct (ADD_OVERFLOW va l) as [e|] eqn:EA; cycle 1.
  { do 2 eexists. split; [done|]. split; [by apply kept_refl|]. right. split; [done|]. split; [done|]. right; right; left. do 2 right; left.
    unfold ADD_OVERFLOW in EA. case_match; zbool; [done|lia]. }
  apply ADD_OVERFLOW_Some in EA as [-> He].
  destruct (split_vm_range_spec user_va_idx idx_ok s va l None Hs Hva ltac:(lia)) as (res & r0 & s1 & -> & Hk & Hlk & Hcase). cbn [obind].
  destruct Hcase as [(-> & Hnb & r0' & r & l1 & m & l2 & -> & Hid & _ & Hl & Ht)|(Hres & Hbad)]; cycle 1.
  { unfold TEE_SUCCESS in *. rewrite (proj2 (Z.eqb_neq res 0)) by done. cbn [negb]. do 2 eexists. split; [done|]. split; [done|]. right.
    split; [done|]. split; [done|]. destruct (Hbad eq_refl); auto. }
  change (negb (TEE_SUCCESS =? TEE_SUCCESS)) with false. cbn iota.
  destruct (vm_ok_regions user_va_idx s1 l1 r (m ++ l2) (k_ok _ _ _ Hk) Hl) as (_ & _ & _ & _ & _ & Hnd).
  replace (tailq_from r0' (vm_regions s1)) with (r :: m ++ l2) by (rewrite Hl; symmetry; by apply tailq_from_mid).
  destruct (unmap_loop_spec (va + l) l1 l2 m r s1 va (k_ok _ _ _ Hk) Hl Ht) as (m1 & m2 & Hm & Ht1 & Hk2 & Hr2).
  do 2 eexists. split; [done|]. split; [by eapply kept_trans|]. left. split; [done|]. split; [lia|]. split; [done|].
  intros a. rewrite Hr2. rewrite Hm, <- app_assoc in Hl. destruct (k_ok _ _ _ Hk) as [A _ _]. rewrite Hl in A.
  rewrite (lookup_cut _ _ _ _ _ va (va + l) a A Ht1), <- Hl, Hlk. done.
Qed.

(** ** Changing protection *)

Lemma pager_set_attr_frame l s s' :
  pager_set_attr l s = Return s' -> vm_regions s' = vm_regions s /\ vm_refs s' = vm_refs s /\ vm_next s' = vm_next s /\ vm_active s' = vm_active s /\
  (fails s' -> fails s).
Proof.
  revert s. induction l as [|r l IH]; intros s; cbn [pager_set_attr]; [by intros [= ->]|].
  destruct (mobj_is_paged (r_mobj r)); [|apply IH]. destruct (ext_call s) as [c s1] eqn:E. apply ext_call_frame in E as (?&?&?&?&_&_&?).
  destruct (negb (c =? 0)); [done|]. intros (?&?&?&?&?)%IH. split_and!; auto; congruence.
Qed.

Lemma pager_set_attr_Panic l s : pager_set_attr l s = Panic -> fails s.
Proof.
  revert s. induction l as [|r l IH]; intros s; cbn [pager_set_attr]; [done|].
  destruct (mobj_is_paged (r_mobj r)); [|apply IH]. destruct (ext_call s) as [c s1] eqn:E. apply ext_call_frame in E as (?&?&?&?&?&H1&H2).
  destruct (Z.eqb_spec c 0); cbn [negb]; [|auto]. intros. by apply H2, IH.
Qed.

Lemma set_prot_attr_valid prot attr : Z.testbit attr 0 = true -> Z.testbit (set_prot_attr prot attr) 0 = true.
Proof.
  intros Hb. unfold set_prot_attr, u16. change 65536 with (2 ^ 16). rewrite Z.mod_pow2_bits_low, Z.lor_spec, Z.mod_pow2_bits_low by lia.
  rewrite Z.land_spec, Hb, Z.lnot_spec by lia. done.
Qed.

Lemma stretch_reattr_kept s l1 m l2 prot :
  vm_ok s -> vm_regions s = l1 ++ m ++ l2 ->
  kept s (set_regions (l1 ++ ((fun r => set_attr (set_prot_attr prot (r_attr r)) r) <$> m) ++ l2) s).
Proof.
  intros [A B C] Hl. rewrite Hl in A, B, C. set (f := fun r => _).
  assert (Hid : r_id <$> (f <$> m) = r_id <$> m) by (rewrite <- list_fmap_compose; by apply list_fmap_ext).
  constructor; cbn [vm_regions set_regions vm_refs vm_active]; try done.
  - constructor; cbn [vm_regions set_regions vm_next].
    + rewrite !layout_app in A |- *. destruct A as (x & H1 & H2). exists x. split; [done|]. rewrite layout_app in H2 |- *.
      destruct H2 as (y & H2 & H3). exists y. split; [|done]. apply layout_fmap; [|done]. intros r. cbn. split_and!; try done.
      intros _. apply u16_range.
    + rewrite !fmap_app, Hid. by rewrite !fmap_app in B.
    + rewrite !Forall_app, Forall_fmap in *. done.
  - intros k Hk. rewrite Hl, !held_app. assert (Hh : held k (f <$> m) = held k m); [|lia].
    clear. induction m as [|r m IH]; [done|]. by rewrite fmap_cons, !held_cons, IH.
  - rewrite Hl, !Forall_app, Forall_fmap. intros (? & HV & ?). split; [done|]. split; [|done].
    rewrite !Forall_forall in *. intros r Hr. unfold compose, valid_region. cbn. by apply set_prot_attr_valid, HV.
Qed.

(** What [vm_set_prot] does when it returns. *)
Lemma vm_set_prot_cases s va len prot :
  vm_ok s -> vm_active s = true -> 0 <= va -> 0 <= len ->
  match vm_set_prot va len prot s with
  | Return (res, s') => kept s s' /\
      ((res = TEE_SUCCESS /\ 0 < len /\ ~ bad_range s va len /\
        forall a, vm_lookup (vm_regions s') a =
          if (va <=? a) && (a <? va + len) then page_set_attr (set_prot_attr prot) <$> vm_lookup (vm_regions s) a
          else vm_lookup (vm_regions s) a) \/
       (res <> TEE_SUCCESS /\ (forall a, vm_lookup (vm_regions s') a = vm_lookup (vm_regions s) a) /\
        (Z.land prot (u32 (Z.lnot TEE_MATTR_PROT_MASK)) <> 0 \/ len = 0 \/ bad_range s va len \/ fails s)))
  | Panic => fails s
  end.
Proof using idx_ok.
  intros Hs Hact Hva Hlen. unfold vm_set_prot. rewrite Hact.
  destruct (Z.eqb_spec (Z.land prot (u32 (Z.lnot TEE_MATTR_PROT_MASK))) 0) as [Em|Em]; cbn [negb orb]; cycle 1.
  { split; [by apply kept_refl|]. right. auto. }
  destruct (Z.eqb_spec len 0) as [->|Hl0]. { split; [by apply kept_refl|]. right. auto. }
  destruct (split_vm_range_spec user_va_idx idx_ok s va len None Hs Hva ltac:(lia)) as (res & r0 & s1 & -> & Hk & Hlk & Hcase). cbn [obind].
  destruct Hcase as [(-> & Hnb & r0' & r & l1 & m & l2 & -> & Hid & _ & Hl & Ht)|(Hres & Hbad)]; cycle 1.
  { unfold TEE_SUCCESS in *. rewrite (proj2 (Z.eqb_neq res 0)) by done. cbn [negb]. split; [done|]. right.
    split; [done|]. split; [done|]. destruct (Hbad eq_refl); auto. }
  change (negb (TEE_SUCCESS =? TEE_SUCCESS)) with false. cbn iota.
  destruct (vm_ok_regions user_va_idx s1 l1 r (m ++ l2) (k_ok _ _ _ Hk) Hl) as (Hl1 & HW & Hl2' & Hb & Htop & Hnd).
  destruct (user_range user_va_idx idx_ok) as (Hu1 & Hu2 & Hu3 & _).
  replace (tailq_from r0' (vm_regions s1)) with ((r :: m) ++ l2) by (rewrite Hl; symmetry; by apply tailq_from_mid).
  assert (HeU : u64 (va + len) = va + len).
  { apply u64_small. unfold bad_range, is_u64, UINT64_MAX in *. lia. }
  rewrite HeU. pose proof Ht as [Hrva _].
  assert (HL : layout va ((r :: m) ++ l2) top) by (cbn; split_and!; [lia|done|done]).
  destruct (while_inside_tiled (r :: m) l2 va (va + len) top HL Ht Hva ltac:(unfold UINT64_MAX; lia)) as (z & l3 & -> & -> & Htz).
  cbn [fst]. set (m' := (r :: m) ++ z). assert (Ht' : tiled va m' (va + len)) by (apply tiled_app; eauto).
  assert (Hl' : vm_regions s1 = l1 ++ m' ++ l3) by (rewrite Hl; unfold m'; by rewrite <- !app_assoc).
  rewrite Hl', region_update_stretch; [|done|by rewrite <- Hl'; destruct (k_ok _ _ _ Hk)].
  pose proof (stretch_reattr_kept s1 l1 m' l3 prot (k_ok _ _ _ Hk) Hl') as Hk2. set (s2 := set_regions _ s1) in *.
  destruct (pager_set_attr m' s2) as [s3|] eqn:Ep; cbn [obind]; cycle 1.
  { apply pager_set_attr_Panic in Ep. by apply (k_ext _ _ _ Hk), (k_ext _ _ _ Hk2). }
  apply pager_set_attr_frame in Ep as (R1 & R2 & R3 & R4 & R5).
  assert (Hk3 : kept s2 s3) by (apply same_regions_kept; try done; [by destruct Hk2|lia]).
  destruct (merge_vm_range_spec user_va_idx idx_ok s3 va len (k_ok _ _ _ Hk3)) as (s4 & -> & Hk4 & Hlk4).
  { rewrite R1. unfold s2. cbn. by destruct l1. }
  cbn [obind]. split; [eapply kept_trans; [exact Hk|]; eapply kept_trans; [exact Hk2|]; by eapply kept_trans|]. left.
  split; [done|]. split; [lia|]. split; [done|]. intros a. rewrite Hlk4, R1. unfold s2. cbn [vm_regions set_regions].
  destruct (k_ok _ _ _ Hk) as [A _ _]. rewrite Hl' in A.
  rewrite (lookup_reattr (set_prot_attr prot) base _ _ _ top va (va + len) a); [|intros; apply u16_range|exact A|done].
  by rewrite <- Hl', Hlk.
Qed.

(** ** Mapping *)

Lemma placed_vm_ok s reg pb pe align l' va :
  vm_ok s -> 0 <= pb -> 0 <= pe -> fresh_ok reg -> add_args_ok reg pb pe align ->
  (r_id reg < vm_next s)%nat -> r_id reg ∉ r_id <$> vm_regions s ->
  placed user_va_idx reg pb pe align (vm_regions s) l' va ->
  vm_ok (set_regions l' s) /\ (forall m, held m l' = held m (vm_regions s) + (if decide (r_mobj reg = m) then 1 else 0)) /\
  (valid_region reg -> Forall valid_region (vm_regions s) -> Forall valid_region l').
Proof using idx_ok.
  intros [A B C] Hpb Hpe Hf Ha Hid Hni Hp. pose proof (placed_layout _ idx_ok _ _ _ _ _ _ _ Hpb Hpe Hf Ha A Hp) as HL.
  destruct Hp as (l1 & l2 & Hl & -> & _). rewrite Hl in *. split; [|split].
  - constructor; cbn [vm_regions set_regions vm_next]; [done|by apply nodup_insert|]. rewrite Forall_app, Forall_cons in *. naive_solver.
  - intros m. rewrite !held_app, held_cons. cbn. lia.
  - rewrite !Forall_app, Forall_cons. naive_solver.
Qed.

(** What is mapped at [a] by a new region at [va]. *)
Definition new_page (m : mobj) (offs va attr flags a : Z) : page := mk_page m (offs + (a - va)) attr flags.

Definition map_attr (m : mobj) (cattr prot : Z) : Z :=
  u16 (Z.lor (u32 (Z.lor (Z.lor (Z.shiftl cattr TEE_MATTR_CACHE_SHIFT) TEE_MATTR_VALID_BLOCK) (if mobj_is_secure m then TEE_MATTR_SECURE else 0))) prot).

Lemma map_attr_valid m cattr prot : Z.testbit (map_attr m cattr prot) 0 = true.
Proof.
  unfold map_attr, u16, u32. change 65536 with (2 ^ 16). change 4294967296 with (2 ^ 32).
  rewrite Z.mod_pow2_bits_low, Z.lor_spec, Z.mod_pow2_bits_low, !Z.lor_spec by lia.
  unfold TEE_MATTR_VALID_BLOCK, BIT. cbn. by rewrite orb_true_r.
Qed.

Lemma map_tables_frame m s res s' :
  map_tables user_va_idx PGT_CACHE_SIZE m s = (res, s') ->
  vm_regions s' = vm_regions s /\ vm_refs s' = vm_refs s /\ vm_next s' = vm_next s /\ vm_active s' = vm_active s /\ (fails s' -> fails s).
Proof.
  unfold map_tables. destruct (negb _); [by intros [= <- <-]|]. destruct (mobj_is_paged m); [|by intros [= <- <-]].
  destruct (negb _); [by intros [= <- <-]|]. intros (?&?&?&?&_&_&?)%ext_call_frame. done.
Qed.

(** What [vm_map_pad] does, in every case. *)
Lemma vm_map_pad_cases s va len prot flags m offs pb pe align :
  vm_ok s -> 0 <= va -> 0 <= offs -> 0 <= pb -> 0 <= pe -> 0 <= align < 2 ^ 64 ->
  exists res va' s', vm_map_pad user_va_idx PGT_CACHE_SIZE va len prot flags m offs pb pe align s = Return (res, va', s') /\ kept s s' /\
    let size := ROUNDUP len SMALL_PAGE_SIZE in
    ((res = TEE_SUCCESS /\ base <= va' /\ va' + size <= top /\ (va <> 0 -> va' = va) /\ va' mod 4096 = 0 /\ size mod 4096 = 0 /\
      (forall a, va' <= a < va' + size -> vm_lookup (vm_regions s) a = None) /\
      exists attr, (exists cattr, attr = map_attr m cattr prot) /\
        forall a, vm_lookup (vm_regions s') a =
          if (va' <=? a) && (a <? va' + size) then Some (new_page m offs va' attr (u16 flags) a) else vm_lookup (vm_regions s) a) \/
     (res <> TEE_SUCCESS /\ vm_regions s' = vm_regions s /\ va' = va)).
Proof using idx_ok.
  intros Hs Hva Ho Hpb Hpe Hal. unfold vm_map_pad. destruct (negb _).
  { do 3 eexists. split; [done|]. split; [by apply kept_refl|]. by right. }
  destruct (calloc_region s) as [[id|] s1] eqn:Ec; apply calloc_frame in Ec as (R1 & R2 & R3 & R4 & R5); cycle 1.
  { do 3 eexists. split; [done|]. destruct R5. split; [apply same_regions_kept; try done; lia|]. by right. }
  destruct R5 as [-> R5]. assert (Hk1 : kept s s1) by (apply same_regions_kept; try done; lia).
  destruct (if mobj_is_paged m then inl 0 else mobj_get_cattr m) as [cattr|err] eqn:Eca; cycle 1.
  { do 3 eexists. split; [done|]. split; [done|]. right. split; [|done]. destruct (mobj_is_paged m); [done|]. by eapply mobj_get_cattr_err. }
  fold (map_attr m cattr prot). set (s2 := set_refs (mobj_get m (vm_refs s1)) s1).
  set (reg := mk_region _ _ _ _ _ _ _).
  assert (Hs2 : vm_ok s2) by (destruct Hk1 as [[] _ _ _ _]; by constructor).
  assert (Hsz : 0 <= ROUNDUP len SMALL_PAGE_SIZE) by (unfold ROUNDUP; apply Z.land_nonneg; left; apply u64_range).
  assert (Hf : fresh_ok reg) by (unfold fresh_ok, reg; cbn [r_va r_size r_offset r_attr]; split_and!; try done; apply u16_range).
  destruct (umap_add_cases user_va_idx idx_ok reg pb pe align s2 Hs2 Hf Hpb Hpe Hal) as (res & reg' & s3 & -> & Hcase). cbn [obind].
  assert (Hback : forall s', vm_regions s' = vm_regions s -> vm_refs s' = mobj_get m (vm_refs s) -> vm_next s' = S (vm_next s) ->
    vm_active s' = vm_active s -> (fails s' -> fails s) -> kept s (free_region m s')).
  { intros s' E1 E2 E3 E4 E5. destruct Hs as [A B C]. constructor; cbn; rewrite ?E1, ?E2, ?E3; try done.
    - constructor; cbn; rewrite ?E1, ?E3; try done. eapply Forall_impl; [exact C|]. cbn. lia.
    - intros k Hk. rewrite refs_of_put, refs_of_get by done. lia. }
  destruct Hcase as [(-> & Ha & va' & l' & -> & -> & Hp)|(Hres & -> & -> & _)]; cycle 1.
  { unfold TEE_SUCCESS in *. rewrite (proj2 (Z.eqb_neq res 0)) by done. cbn [negb]. do 3 eexists. split; [done|].
    split; [|by right]. apply Hback; unfold s2; cbn; congruence || auto. }
  change (negb (TEE_SUCCESS =? TEE_SUCCESS)) with false. cbn iota.
  assert (Hni : r_id reg ∉ r_id <$> vm_regions s2).
  { unfold s2, reg. cbn. rewrite R1. apply fresh_id. by destruct Hs. }
  destruct (placed_vm_ok s2 reg pb pe align l' va' Hs2 Hpb Hpe Hf Ha ltac:(unfold s2, reg; cbn; lia) Hni Hp) as (Hok3 & Hheld & Hval).
  set (s3 := set_regions l' s2) in *.
  destruct (map_tables user_va_idx PGT_CACHE_SIZE m s3) as [res s4] eqn:Et. apply map_tables_frame in Et as (Q1 & Q2 & Q3 & Q4 & Q5).
  change (vm_regions s3) with l' in Q1.
  destruct (Z.eqb_spec res TEE_SUCCESS) as [->|Hres]; cbn [negb]; cycle 1.
  { do 3 eexists. split; [done|]. destruct Hp as (l1 & l2 & Hl & Hl' & _).
    assert (Hrem : tailq_remove (set_va va' reg) (vm_regions s4) = vm_regions s).
    { rewrite Q1, Hl', (tailq_remove_mid l1 l2 (set_va va' reg)); [by rewrite <- Hl; unfold s2; cbn|by rewrite <- Hl'; destruct Hok3|done]. }
    split; [|right; split; [done|]; split; [|done]; unfold free_region; cbn [set_refs set_regions vm_regions]; exact Hrem].
    apply Hback; cbn [set_refs set_regions vm_regions vm_refs vm_next vm_active]; try done.
    - rewrite Q2. unfold s3, s2. cbn. by rewrite R2.
    - rewrite Q3. unfold s3, s2. cbn. done.
    - rewrite Q4. unfold s3, s2. cbn. done.
    - intros H. apply R4, Q5, H. }
  do 3 eexists. split; [done|]. split.
  - constructor; rewrite ?Q1, ?Q2, ?Q4.
    + destruct Hok3 as [A B C]. constructor; rewrite ?Q1, ?Q3; done.
    + intros k Hk. rewrite Hheld. unfold s3, s2. cbn. rewrite refs_of_get, R1, R2 by done. lia.
    + unfold s3, s2. cbn. done.
    + intros HV. apply Hval; [apply map_attr_valid|]. unfold s2. cbn. by rewrite R1.
    + intros H. apply R4, Q5, H.
  - left. cbn [r_va set_va]. pose proof Hs2 as [A _ _].
    assert (HL' : layout base l' top) by by destruct Hok3.
    assert (Hin : set_va va' reg ∈ l') by (destruct Hp as (l1 & l2 & _ & -> & _); set_solver).
    destruct (layout_elem _ _ _ _ HL' Hin) as ([W1 W2 W3 W4 W5 W6] & Hlo & Hhi). cbn in W2, W3, Hlo, Hhi.
    split_and!; try done.
    + intros Hnz. destruct Hp as (l1 & l2 & _ & _ & b & e & _ & _ & _ & _ & _ & Hr). by apply Hr.
    + intros a Ha2. destruct (placed_lookup user_va_idx idx_ok _ _ _ _ _ _ _ a Hpb Hpe A Hp) as [_ H].
      unfold s2 in H. cbn in H. rewrite <- R1. apply H. apply covers_true. done.
    + exists (map_attr m cattr prot). split; [eauto|]. intros a.
      destruct (placed_lookup user_va_idx idx_ok _ _ _ _ _ _ _ a Hpb Hpe A Hp) as [H _]. rewrite Q1, H. unfold s2. cbn. by rewrite R1.
Qed.

(** ** Moving a range *)

(** [s] with the regions [regs] taken out of [s0], to be put back somewhere. *)
Record detached (s0 s : vm_info) (regs : list vm_region) : Prop := mk_detached {
  d_ok : vm_ok s;
  d_nodup : NoDup (r_id <$> regs ++ vm_regions s);
  d_ids : Forall (fun r => (r_id r < vm_next s)%nat) regs;
  d_wf : Forall (fun r => 0 <= r_size r /\ 0 <= r_offset r /\ is_u16 (r_attr r)) regs;
  d_refs : forall m, m <> 0%nat -> refs_of m (vm_refs s) - held m (vm_regions s) - held m regs = refs_of m (vm_refs s0) - held m (vm_regions s0);
  d_active : vm_active s = vm_active s0;
  d_valid : Forall valid_region (vm_regions s0) -> Forall valid_region (regs ++ vm_regions s);
  d_ext : fails s -> fails s0;
}.

Lemma detached_kept s0 s : detached s0 s [] -> kept s0 s.
Proof. intros [A B C D E F G]. constructor; try done. intros m Hm. specialize (E m Hm). unfold held at 2 in E. cbn in E. lia. Qed.

(** A stretch of regions is taken out. *)
Lemma detach_stretch s0 s l1 m l2 regs :
  detached s0 s regs -> vm_regions s = l1 ++ m ++ l2 -> detached s0 (set_regions (l1 ++ l2) s) (m ++ regs).
Proof.
  intros [[A1 A2 A3] B C D E F G H] Hl. rewrite Hl in A1, A2, A3, B, G.
  assert (Hperm : regs ++ l1 ++ m ++ l2 ≡ₚ (m ++ regs) ++ l1 ++ l2) by solve_Permutation.
  constructor; cbn [vm_regions set_regions vm_refs vm_next vm_active]; try done.
  - constructor; cbn [vm_regions set_regions vm_next]; [by eapply layout_sub|by eapply nodup_drop_stretch|].
    rewrite !Forall_app in *. tauto.
  - by rewrite <- Hperm.
  - rewrite !Forall_app in *. tauto.
  - rewrite Forall_app. split; [|done]. apply layout_app in A1 as (x & _ & A1). apply layout_app in A1 as (y & A1 & _).
    apply layout_forall in A1. eapply Forall_impl; [exact A1|]. intros r []. split; [done|]. split; [done|done].
  - intros k Hk. rewrite held_app. specialize (E k Hk). rewrite Hl, !held_app in E. rewrite held_app. lia.
  - intros HV. specialize (G HV). by rewrite <- Hperm.
Qed.

(** One of them is put back at [va]. *)
Lemma detached_add s0 s r regs va pb pe :
  detached s0 s (r :: regs) -> 0 <= va -> 0 <= pb -> 0 <= pe ->
  exists res r' s', umap_add_region user_va_idx (set_va va r) pb pe 0 s = Return (res, r', s') /\
    ((res = TEE_SUCCESS /\ detached s0 s' regs /\ exists v, r' = set_va v r /\ (va <> 0 -> v = va) /\ base <= v /\ v + r_size r <= top /\
       forall a, vm_lookup (vm_regions s') a = if covers a r' then Some (page_of a r') else vm_lookup (vm_regions s) a) \/
     (res <> TEE_SUCCESS /\ s' = s /\ r' = set_va va r)).
Proof using idx_ok.
  intros Hd Hva Hpb Hpe. pose proof Hd as [A B C D E F G H]. apply Forall_cons in D as [(D1 & D2 & D3) D4]. apply Forall_cons in C as [C1 C2].
  assert (Hf : fresh_ok (set_va va r)) by (unfold fresh_ok; cbn; done).
  destruct (umap_add_cases user_va_idx idx_ok (set_va va r) pb pe 0 s A Hf Hpb Hpe ltac:(lia)) as (res & r' & s' & -> & Hcase).
  do 3 eexists. split; [done|]. destruct Hcase as [(-> & Ha & v & l' & -> & -> & Hp)|(Hres & -> & -> & _)]; [left|by right].
  cbn [app] in B. rewrite fmap_cons, NoDup_cons in B. destruct B as [B1 B2].
  assert (Hni : r_id (set_va va r) ∉ r_id <$> vm_regions s) by (intros Hin; apply B1; rewrite fmap_app; apply elem_of_app; by right).
  destruct (placed_vm_ok s _ pb pe 0 l' v A Hpb Hpe Hf Ha C1 Hni Hp) as (Hok & Hheld & Hval). split; [done|].
  change (set_va v (set_va va r)) with (set_va v r) in *. pose proof Hp as (l1 & l2 & Hl & Hl' & b & e & _ & _ & _ & _ & _ & Hr).
  change (set_va v (set_va va r)) with (set_va v r) in *. split.
  - constructor; cbn [vm_regions set_regions vm_refs vm_next vm_active]; try done.
    + rewrite Hl', app_assoc. apply nodup_insert; rewrite <- app_assoc, <- Hl; done.
    + intros m Hm. specialize (E m Hm). rewrite Hheld. rewrite held_cons in E. cbn. lia.
    + intros HV. specialize (G HV). cbn [app] in G. apply Forall_cons in G as [G1 G2]. rewrite Forall_app in *. destruct G2. split; [done|by apply Hval].
  - exists v. split; [done|]. split; [exact Hr|].
    assert (Hin : set_va v r ∈ l') by (rewrite Hl'; set_solver). destruct Hok as [HL _ _].
    destruct (layout_elem _ _ _ _ HL Hin) as (_ & ? & ?). split; [done|]. split; [done|]. intros a. destruct A as [A _ _]. cbn [vm_regions set_regions].
    destruct (placed_lookup user_va_idx idx_ok _ _ _ _ _ _ _ a Hpb Hpe A Hp) as [-> _]. done.
Qed.

Lemma remap_add_frame fobj s res s' s0 regs :
  remap_add user_va_idx PGT_CACHE_SIZE fobj s = (res, s') -> detached s0 s regs -> detached s0 s' regs /\ vm_regions s' = vm_regions s.
Proof.
  unfold remap_add. destruct (negb _); [by intros [= <- <-]|]. destruct fobj; [|by intros [= <- <-]].
  intros (E1 & E2 & E3 & E4 & _ & _ & E5)%ext_call_frame [[A1 A2 A3] B C D E F G H]. split; [|done].
  constructor; rewrite ?E1, ?E2, ?E3, ?E4; try done; [constructor; by rewrite ?E1, ?E3|auto].
Qed.

Lemma restore_loop_kept s0 fobj : forall regs va s s',
  detached s0 s regs -> 0 <= va -> restore_loop user_va_idx PGT_CACHE_SIZE fobj va regs s = Return s' -> kept s0 s'.
Proof using idx_ok.
  induction regs as [|r regs IH]; intros va s s' Hd Hva; cbn [restore_loop]; [intros [= <-]; by apply detached_kept|].
  destruct (detached_add s0 s r regs va 0 0 Hd Hva ltac:(lia) ltac:(lia)) as (res & r' & s1 & -> & Hc). cbn [obind].
  destruct Hc as [(-> & Hd1 & _)|(Hres & _)]; cycle 1.
  { unfold TEE_SUCCESS in *. by rewrite (proj2 (Z.eqb_neq res 0)). }
  change (negb (TEE_SUCCESS =? TEE_SUCCESS)) with false. cbn iota.
  destruct (remap_add user_va_idx PGT_CACHE_SIZE fobj s1) as [res s2] eqn:Er. apply (remap_add_frame _ _ _ _ s0 regs) in Er as [Hd2 _]; [|done].
  destruct (negb _); [done|]. apply IH; [done|]. apply u64_range.
Qed.

Lemma takeback_prefix r l : exists l2, l = takeback_loop r l ++ l2.
Proof.
  induction l as [|x l [l2 IH]]; cbn; [by exists []|]. destruct (is_region r x); [by exists (x :: l)|]. exists l2. cbn. by f_equal.
Qed.

Lemma tailq_from_suffix r l : exists l1, l = l1 ++ tailq_from r l.
Proof.
  induction l as [|x l [l1 IH]]; cbn; [by exists []|]. destruct (is_region r x); [by exists []|]. exists (x :: l1). cbn. by f_equal.
Qed.

(** The failing exit of [remap_loop]. *)
Lemma takeback_detached s0 s regs rf rl :
  detached s0 s regs ->
  let back := match rl, rf with Some rl, Some rf => takeback_loop rl (tailq_from rf (vm_regions s)) | _, _ => [] end in
  detached s0 (set_regions (foldr tailq_remove (vm_regions s) back) s) (back ++ regs).
Proof.
  intros Hd back. assert (Hl : exists l1 l2, vm_regions s = l1 ++ back ++ l2).
  { unfold back. destruct rl as [rl|]; [|by exists [], (vm_regions s)]. destruct rf as [rf|]; [|by exists [], (vm_regions s)].
    destruct (tailq_from_suffix rf (vm_regions s)) as [l1 Hl1]. destruct (takeback_prefix rl (tailq_from rf (vm_regions s))) as [l2 Hl2].
    exists l1, l2. by rewrite <- Hl2. }
  destruct Hl as (l1 & l2 & Hl). rewrite Hl, tailq_remove_stretch; [by eapply detach_stretch|]. rewrite <- Hl. by destruct Hd as [[]].
Qed.

Lemma detached_set_va s0 s r regs va : detached s0 s (r :: regs) -> detached s0 s (set_va va r :: regs).
Proof.
  intros [A B C D E F G H]. constructor; try done; rewrite ?Forall_cons in *; try done.
  - intros m Hm. specialize (E m Hm). by rewrite held_cons in *.
  - intros HV. specialize (G HV). cbn [app] in *. by rewrite Forall_cons in *.
Qed.

Lemma remap_loop_detached s0 fobj new_va len pb pe : 0 <= new_va -> 0 <= pb ->
  forall regs rf rl s res regs' rf' s',
  detached s0 s regs -> remap_loop user_va_idx PGT_CACHE_SIZE fobj new_va len pb pe rf rl regs s = Return (res, regs', rf', s') ->
  detached s0 s' regs' /\ (res = TEE_SUCCESS -> regs' = []).
Proof using idx_ok.
  intros Hn Hpb. induction regs as [|r regs IH]; intros rf rl s res regs' rf' s' Hd; cbn [remap_loop]; [by intros [= <- <- <- <-]|].
  set (va := match rl with Some rl => r_end rl | None => new_va end).
  set (pb' := match rl with Some _ => 0 | None => pb end).
  set (pe' := match rl with Some _ => 0 | None => u64 (u64 (pe + len) - r_size r) end).
  assert (Hum : match rl with Some rl => umap_add_region user_va_idx (set_va (r_end rl) r) 0 0 0 s
    | None => umap_add_region user_va_idx (set_va new_va r) pb (u64 (u64 (pe + len) - r_size r)) 0 s end
    = umap_add_region user_va_idx (set_va va r) pb' pe' 0 s) by by destruct rl.
  rewrite Hum. destruct (detached_add s0 s r regs va pb' pe' Hd) as (res1 & r' & s1 & -> & Hc).
  { unfold va. destruct rl; [apply u64_range|done]. }
  { unfold pb'. destruct rl; [lia|done]. }
  { unfold pe'. destruct rl; [lia|apply u64_range]. }
  cbn [obind]. destruct Hc as [(-> & Hd1 & _)|(Hres & -> & ->)].
  - change (TEE_SUCCESS =? TEE_SUCCESS) with true. cbn iota.
    destruct (remap_add user_va_idx PGT_CACHE_SIZE fobj s1) as [res2 s2] eqn:Er. apply (remap_add_frame _ _ _ _ s0 regs) in Er as [Hd2 _]; [|done].
    destruct (Z.eqb_spec res2 TEE_SUCCESS) as [->|Hr2]; cbn [negb]; [by apply IH|].
    intros [= <- <- <- <-]. split; [|done]. by apply (takeback_detached s0 s2 regs (Some (default r' rf)) (Some r')) in Hd2; destruct rf.
  - rewrite (proj2 (Z.eqb_neq res1 TEE_SUCCESS)) by done. cbn iota.
    rewrite (proj2 (Z.eqb_neq res1 TEE_SUCCESS)) by done. cbn [negb].
    intros [= <- <- <- <-]. split; [|done].
    assert (Hd' : detached s0 s (set_va va r :: regs)) by by apply detached_set_va.
    apply (takeback_detached s0 s _ (Some (default (set_va va r) rf)) rl) in Hd'. by destruct rf.
Qed.

(** Where the regions go: [L] is what was mapped, [old] and [new] where the range
    starts, [done] how much of it is at its new place. *)
Definition moved (L cut : Z -> option page) (old new done : Z) (a : Z) : option page :=
  if (new <=? a) && (a <? new + done) then L (old + (a - new)) else cut a.

Lemma moved_step L cut old new done r va (l l' : list vm_region) :
  0 <= done -> 0 <= r_size r -> r_va r = old + done -> va = new + done ->
  (forall x, r_va r <= x < r_va r + r_size r -> L x = Some (page_of x r)) ->
  (forall a, vm_lookup l a = moved L cut old new done a) ->
  (forall a, vm_lookup l' a = if covers a (set_va va r) then Some (page_of a (set_va va r)) else vm_lookup l a) ->
  forall a, vm_lookup l' a = moved L cut old new (done + r_size r) a.
Proof.
  intros Hd Hs Hr -> HL Hl Hl' a. rewrite Hl', Hl. unfold moved, covers. cbn.
  destruct (Z.leb_spec (new + done) a), (Z.ltb_spec a (new + done + r_size r)), (Z.leb_spec new a), (Z.ltb_spec a (new + done)),
    (Z.ltb_spec a (new + (done + r_size r))); cbn [andb]; try lia; try done.
  rewrite HL by lia. unfold page_of. cbn. do 2 f_equal. lia.
Qed.

Lemma remap_rest_lookup s0 L cut old new fobj nv len pb pe rf total :
  base <= new -> forall regs rl s done res regs' rf' s',
  0 <= done -> detached s0 s regs -> tiled (old + done) regs (old + total) ->
  Forall (fun r => forall x, r_va r <= x < r_va r + r_size r -> L x = Some (page_of x r)) regs ->
  r_end rl = new + done ->
  (forall a, vm_lookup (vm_regions s) a = moved L cut old new done a) ->
  remap_loop user_va_idx PGT_CACHE_SIZE fobj nv len pb pe (Some rf) (Some rl) regs s = Return (res, regs', rf', s') ->
  res = TEE_SUCCESS -> rf' = Some rf /\ forall a, vm_lookup (vm_regions s') a = moved L cut old new total a.
Proof using idx_ok.
  intros Hnew. destruct (user_range user_va_idx idx_ok) as (Hu1 & Hu2 & Hu3 & _).
  change (2 ^ 30) with 1073741824 in *. change (2 ^ 49) with 562949953421312 in *.
  induction regs as [|r regs IH]; intros rl s done res regs' rf' s' Hd0 Hd Ht HL Hrl Hlk; cbn [remap_loop].
  { intros [= <- <- <- <-] _. split; [done|]. cbn in Ht. by replace total with done by lia. }
  destruct Ht as [Hrva Ht]. apply Forall_cons in HL as [HL1 HL2]. pose proof (d_wf _ _ _ Hd) as [(Hsz & _ & _) _]%Forall_cons.
  destruct (detached_add s0 s r regs (r_end rl) 0 0 Hd) as (res1 & r' & s1 & -> & Hc); [apply u64_range|lia|lia|].
  cbn [obind]. destruct Hc as [(-> & Hd1 & v & -> & Hv & Hv1 & Hv2 & Hlk1)|(Hres & -> & ->)].
  - change (TEE_SUCCESS =? TEE_SUCCESS) with true. cbn iota.
    destruct (remap_add user_va_idx PGT_CACHE_SIZE fobj s1) as [res2 s2] eqn:Er. apply (remap_add_frame _ _ _ _ s0 regs) in Er as [Hd2 Hs2]; [|done].
    destruct (Z.eqb_spec res2 TEE_SUCCESS) as [->|Hr2]; cbn [negb]; [|by intros [= <- <- <- <-] ?].
    rewrite Hrl in Hv. specialize (Hv ltac:(lia)). subst v.
    apply IH with (done + r_size r); [lia|done|by replace (old + (done + r_size r)) with (r_va r + r_size r) by lia|done| |].
    + unfold r_end. cbn. rewrite u64_small; [lia|]. unfold is_u64. lia.
    + rewrite Hs2. intros a. eapply moved_step; [exact Hd0|exact Hsz|exact Hrva|reflexivity|exact HL1|exact Hlk|exact Hlk1].
  - rewrite (proj2 (Z.eqb_neq res1 TEE_SUCCESS)) by done. cbn iota.
    rewrite (proj2 (Z.eqb_neq res1 TEE_SUCCESS)) by done. cbn [negb]. by intros [= <- <- <- <-] ?.
Qed.

(** What [vm_remap] does when it returns. *)
Lemma vm_remap_cases s new_va old_va len pb pe :
  vm_ok s -> 0 <= new_va -> 0 <= old_va -> 0 <= len -> 0 <= pb ->
  match vm_remap user_va_idx PGT_CACHE_SIZE new_va old_va len pb pe s with
  | Return (res, new, s') => kept s s' /\
      (res = TEE_SUCCESS -> 0 < len /\ ~ bad_range s old_va len /\ (new_va <> 0 -> new = new_va) /\
        forall a, vm_lookup (vm_regions s') a =
          moved (vm_lookup (vm_regions s))
            (fun a => if (old_va <=? a) && (a <? old_va + len) then None else vm_lookup (vm_regions s) a) old_va new len a)
  | Panic => True
  end.
Proof using idx_ok.
  intros Hs Hnew Hold Hlen Hpb. unfold vm_remap. destruct (vm_active s); [|done].
  destruct ((len =? 0) || _) eqn:Eb; [split; [by apply kept_refl|done]|]. zbool.
  destruct (split_vm_range_spec user_va_idx idx_ok s old_va len (Some cmp_region_for_remap) Hs Hold ltac:(lia)) as (res & r0 & s1 & -> & Hk & Hlk & Hcase).
  cbn [obind]. destruct Hcase as [(-> & Hnb & r0' & r & l1 & m & l2 & -> & Hid & Hmo & Hl & Ht)|(Hres & _)]; cycle 1.
  { unfold TEE_SUCCESS in *. rewrite (proj2 (Z.eqb_neq res 0)) by done. cbn [negb]. by split. }
  change (negb (TEE_SUCCESS =? TEE_SUCCESS)) with false. cbn iota. destruct (_ && _); [done|].
  destruct (vm_ok_regions user_va_idx s1 l1 r (m ++ l2) (k_ok _ _ _ Hk) Hl) as (Hl1 & HW & Hl2' & Hb & Htop & Hnd).
  destruct (user_range user_va_idx idx_ok) as (Hu1 & Hu2 & Hu3 & _).
  replace (tailq_from r0' (vm_regions s1)) with ((r :: m) ++ l2) by (rewrite Hl; symmetry; by apply tailq_from_mid).
  assert (HeU : u64 (old_va + len) = old_va + len) by (apply u64_small; unfold bad_range, is_u64, UINT64_MAX in *; lia).
  rewrite HeU. pose proof Ht as [Hrva _].
  assert (HL : layout old_va ((r :: m) ++ l2) top) by (cbn; split_and!; [lia|done|done]).
  destruct (while_inside_tiled (r :: m) l2 old_va (old_va + len) top HL Ht Hold ltac:(unfold UINT64_MAX; lia)) as (z & l3 & -> & -> & Htz).
  set (m' := m ++ z). assert (Ht' : tiled old_va (r :: m') (old_va + len)) by (apply (tiled_app _ (r :: m)); eauto).
  assert (Hl' : vm_regions s1 = l1 ++ (r :: m') ++ l3) by (rewrite Hl; unfold m'; cbn; by rewrite <- !app_assoc).
  change ((r :: m) ++ z) with (r :: m'). rewrite Hl', tailq_remove_stretch by (rewrite <- Hl'; by destruct (k_ok _ _ _ Hk)).
  assert (Hd : detached s (set_regions (l1 ++ l3) s1) (r :: m')).
  { rewrite <- (app_nil_r (r :: m')). apply detach_stretch; [|done]. destruct Hk as [A B C D E]. constructor; try done.
    - by destruct A.
    - intros k Hk. specialize (B k Hk). unfold held at 2. cbn. lia. }
  destruct (k_ok _ _ _ Hk) as [A _ _]. rewrite Hl' in A.
  set (s2 := set_regions (l1 ++ l3) s1) in *.
  destruct (remap_loop user_va_idx PGT_CACHE_SIZE _ new_va len pb pe None None (r :: m') s2) as [[[[res regs'] rf'] s3]|] eqn:Er; cbn [obind]; [|done].
  destruct (remap_loop_detached s _ new_va len pb pe Hnew Hpb _ _ _ _ _ _ _ _ Hd Er) as [Hd3 Hemp].
  destruct (Z.eqb_spec res TEE_SUCCESS) as [->|Hres]; cycle 1.
  { destruct (restore_loop _ _ _ _ _ _) as [s4|] eqn:Erl; cbn [obind]; [|done]. split; [|done]. eapply restore_loop_kept; [exact Hd3|exact Hold|exact Erl]. }
  rewrite (Hemp eq_refl) in Hd3. destruct rf' as [rf|]; [|done]. split; [by apply detached_kept|]. intros _. split; [lia|]. split; [done|].
  (* the first region *)
  cbn [remap_loop] in Er. pose proof (d_wf _ _ _ Hd) as [(Hsz & _ & _) _]%Forall_cons.
  destruct (detached_add s s2 r m' new_va pb (u64 (u64 (pe + len) - r_size r)) Hd Hnew Hpb ltac:(apply u64_range)) as (res1 & r' & s4 & Hadd & Hc).
  rewrite Hadd in Er. cbn [obind] in Er. destruct Hc as [(-> & Hd4 & v & -> & Hv & Hv1 & Hv2 & Hlk4)|(Hres1 & -> & ->)]; cycle 1.
  { rewrite (proj2 (Z.eqb_neq res1 TEE_SUCCESS)) in Er by done. cbn iota in Er. rewrite (proj2 (Z.eqb_neq res1 TEE_SUCCESS)) in Er by done. cbn [negb] in Er. by injection Er as -> _ _ _. }
  change (TEE_SUCCESS =? TEE_SUCCESS) with true in Er. cbn iota in Er.
  destruct (remap_add user_va_idx PGT_CACHE_SIZE _ s4) as [res5 s5] eqn:Er5. apply (remap_add_frame _ _ _ _ s m') in Er5 as [Hd5 Hs5]; [|done].
  destruct (Z.eqb_spec res5 TEE_SUCCESS) as [->|Hr5]; cbn [negb] in Er; [|by injection Er as -> _ _ _].
  destruct Ht' as [_ Ht'].
  destruct (remap_rest_lookup s (vm_lookup (vm_regions s1)) (vm_lookup (l1 ++ l3)) old_va v (mobj_is_paged (r_mobj r0')) new_va len pb pe (set_va v r) len Hv1 m' (set_va v r) s5 (r_size r) TEE_SUCCESS regs' (Some rf) s3)
    as [Hrf Hlk3]; try done.
  { by rewrite Hrva in Ht'. }
  { apply Forall_forall. intros x Hx y Hy. rewrite Hl'. eapply vm_lookup_in; [exact A|set_solver|done]. }
  { unfold r_end. cbn. change (2 ^ 49) with 562949953421312 in *. change (2 ^ 30) with 1073741824 in *. apply u64_small. unfold is_u64. lia. }
  { rewrite Hs5. intros a. rewrite <- (Z.add_0_l (r_size r)). eapply moved_step; [lia|done|by rewrite Z.add_0_r|symmetry; apply Z.add_0_r| | |exact Hlk4].
    - intros x Hx. rewrite Hl'. eapply vm_lookup_in; [exact A|set_solver|done].
    - intros b. unfold moved. replace ((v <=? b) && (b <? v + 0)) with false; [done|]. symmetry. apply andb_false_iff. rewrite Z.leb_gt, Z.ltb_ge. lia. }
  injection Hrf as ->. cbn [r_va set_va]. split; [done|]. intros a. rewrite Hlk3. unfold moved.
  destruct ((v <=? a) && (a <? v + len)); [by rewrite Hlk|].
  rewrite (lookup_cut base l1 (r :: m') l3 top old_va (old_va + len) a A); [by rewrite <- Hl', Hlk|by split].
Qed.

(** ** Parameters *)

Definition ephemeral (r : vm_region) : bool := has_flag (r_flags r) VM_FLAG_EPHEMERAL.

Lemma clean_loop_spec todo : forall l1 s,
  vm_ok s -> vm_regions s = l1 ++ todo ->
  let s' := foldl (fun s r => if ephemeral r then umap_remove_region r s else s) s todo in
  kept s s' /\ vm_regions s' = l1 ++ filter (fun r => ephemeral r = false) todo.
Proof.
  induction todo as [|r todo IH]; intros l1 s Hs Hl; cbn [foldl]; [by split; [apply kept_refl|]|].
  rewrite filter_cons. destruct (ephemeral r) eqn:E.
  - destruct (umap_remove_kept s l1 r todo Hs Hl) as [Hk Hr]. destruct (IH l1 _ (k_ok _ _ _ Hk) Hr) as [Hk2 Hr2].
    rewrite decide_False by done. split; [by eapply kept_trans|done].
  - destruct (IH (l1 ++ [r]) s Hs ltac:(by rewrite <- app_assoc)) as [Hk Hr]. rewrite decide_True by done.
    split; [done|]. by rewrite Hr, <- app_assoc.
Qed.

Lemma vm_clean_param_spec s :
  vm_ok s -> kept s (vm_clean_param s) /\ vm_regions (vm_clean_param s) = filter (fun r => ephemeral r = false) (vm_regions s).
Proof. intros Hs. by apply (clean_loop_spec (vm_regions s) []). Qed.

Lemma map_params_kept l : forall s, vm_ok s -> Forall (fun m => 0 <= pm_offs m) l ->
  exists res s', map_params user_va_idx PGT_CACHE_SIZE l s = Return (res, s') /\ kept s s'.
Proof using idx_ok.
  induction l as [|m l IH]; intros s Hs Hl; cbn [map_params].
  { do 2 eexists. split; [done|]. by apply kept_refl. }
  apply Forall_cons in Hl as [Hm Hl]. unfold vm_map.
  edestruct (vm_map_pad_cases s 0) as (res & va & s1 & -> & Hk & _); [done|lia|exact Hm|lia|lia|lia|]. cbn [obind].
  destruct (negb _); [by do 2 eexists|]. destruct (IH s1 (k_ok _ _ _ Hk) Hl) as (res2 & s2 & -> & Hk2).
  do 2 eexists. split; [done|]. by eapply kept_trans.
Qed.

Lemma insert_param_Forall P m l : P m -> Forall P l -> Forall P (insert_param m l).
Proof. intros Hm. induction 1; cbn; [by constructor|]. case_match; by repeat constructor. Qed.

Lemma merge_params_Forall l : forall cur, 0 <= pm_offs cur -> Forall (fun m => 0 <= pm_offs m) l -> Forall (fun m => 0 <= pm_offs m) (merge_params cur l).
Proof.
  induction l as [|n l IH]; intros cur Hc Hl; cbn; [by repeat constructor|]. apply Forall_cons in Hl as [Hn Hl].
  destruct (Nat.eqb _ 0); [by repeat constructor|]. destruct (_ && _); [by apply IH|]. constructor; [done|by apply IH].
Qed.

Lemma vm_map_param_kept s types params :
  vm_ok s ->
  match vm_map_param user_va_idx PGT_CACHE_SIZE types params s with Return (_, _, s') => kept s s' | Panic => True end.
Proof using idx_ok.
  intros Hs. unfold vm_map_param. destruct (check_param_map_empty s); [|done].
  set (mem := sort_params _). set (mem' := match mem with m :: l => _ | [] => [] end).
  assert (Hmem : Forall (fun m => 0 <= pm_offs m) mem).
  { unfold mem, sort_params. assert (Hall : Forall (fun m => 0 <= pm_offs m) (imap (param_pages types) params)).
    { apply Forall_forall. intros m Hm. apply list_elem_of_lookup_1 in Hm as (i & Hi). rewrite list_lookup_imap in Hi.
      destruct (params !! i); [|done]. cbn in Hi. simplify_eq. unfold param_pages. destruct (param_is_memref types i); cbn; [|lia].
      apply Z.land_nonneg. left. apply u64_range. }
    induction Hall; cbn; [done|]. by apply insert_param_Forall. }
  assert (Hmem' : Forall (fun m => 0 <= pm_offs m) mem').
  { unfold mem'. destruct mem as [|m l]; [done|]. apply Forall_cons in Hmem as [? ?]. destruct (Nat.eqb _ 0); [done|]. by apply merge_params_Forall. }
  destruct (map_params_kept mem' s Hs Hmem') as (res & s1 & -> & Hk). cbn [obind].
  destruct (if negb (res =? TEE_SUCCESS) then _ else _) as [res2 vas]. destruct (negb (_ =? TEE_SUCCESS)); [|done].
  eapply kept_trans; [exact Hk|]. apply vm_clean_param_spec. by destruct Hk.
Qed.

(** ** Memory of the pager's copies *)

Lemma vm_add_rwmem_ok s m va :
  vm_ok s -> exists res va' s', vm_add_rwmem user_va_idx PGT_CACHE_SIZE m va s = Return (res, va', s') /\ vm_ok s' /\ vm_active s' = vm_active s.
Proof using idx_ok.
  intros Hs. unfold vm_add_rwmem.
  destruct (calloc_region s) as [[id|] s1] eqn:Ec; apply calloc_frame in Ec as (R1 & R2 & R3 & R4 & R5); cycle 1.
  { destruct R5. do 3 eexists. split; [done|]. split; [|done]. eapply k_ok, same_regions_kept; try done; lia. }
  destruct R5 as [-> R5]. assert (Hk1 : kept s s1) by (apply same_regions_kept; try done; lia). set (reg := mk_region _ _ _ _ _ _ _).
  assert (Hf : fresh_ok reg).
  { unfold fresh_ok, reg. cbn [r_va r_size r_offset r_attr]. split; [lia|]. split; [apply Z.land_nonneg; left; apply u64_range|]. split; [lia|].
    destruct (mobj_is_secure m); vm_compute; done. }
  destruct (umap_add_cases user_va_idx idx_ok reg 0 0 0 s1 (k_ok _ _ _ Hk1) Hf ltac:(lia) ltac:(lia) ltac:(lia)) as (res & reg' & s2 & -> & Hcase). cbn [obind].
  destruct Hcase as [(-> & Ha & va' & l' & -> & -> & Hp)|(Hres & -> & -> & _)]; cycle 1.
  { unfold TEE_SUCCESS in *. rewrite (proj2 (Z.eqb_neq res 0)) by done. cbn [negb]. do 3 eexists. split; [done|]. split; [by destruct Hk1|done]. }
  change (negb (TEE_SUCCESS =? TEE_SUCCESS)) with false. cbn iota.
  assert (Hni : r_id reg ∉ r_id <$> vm_regions s1) by (rewrite R1; apply fresh_id; by destruct Hs).
  destruct (placed_vm_ok s1 reg 0 0 0 l' va' (k_ok _ _ _ Hk1) ltac:(lia) ltac:(lia) Hf Ha ltac:(unfold reg; cbn; lia) Hni Hp) as (Hok & _ & _).
  destruct (negb _); do 3 eexists; (split; [done|]); [|by split].
  destruct Hp as (l1 & l2 & _ & -> & _).
  destruct (umap_remove_kept (set_regions (l1 ++ set_va va' reg :: l2) s1) l1 (set_va va' reg) l2 Hok eq_refl) as [[A _ B _ _] _].
  split; [done|]. rewrite B. done.
Qed.

Lemma vm_rem_rwmem_ok s m va : vm_ok s -> kept s (vm_rem_rwmem m va s).
Proof.
  intros Hs. unfold vm_rem_rwmem. destruct (find _ (vm_regions s)) as [r|] eqn:E; [|by apply kept_refl].
  apply find_some in E as [Hin _]. apply list_elem_of_In, list_elem_of_split in Hin as (l1 & l2 & Hl). by eapply umap_remove_kept.
Qed.

(** ** Any operations of a context *)

Inductive vm_op :=
| OpMap (va len prot flags : Z) (m : mobj) (offs pad_begin pad_end align : Z)
| OpUnmap (va len : Z)
| OpSetProt (va len prot : Z)
| OpRemap (new_va old_va len pad_begin pad_end : Z)
| OpMapParam (types : Z) (params : list param_mem)
| OpCleanParam
| OpAddRwmem (m : mobj)
| OpRemRwmem (m : mobj) (va : Z).

(** Arguments are of their unsigned types. *)
Definition vm_op_args (op : vm_op) : Prop :=
  match op with
  | OpMap va len _ _ _ offs pb pe align => 0 <= va /\ 0 <= offs /\ 0 <= pb /\ 0 <= pe /\ is_u64 align
  | OpUnmap va len | OpSetProt va len _ => 0 <= va /\ 0 <= len
  | OpRemap nv ov len pb _ => 0 <= nv /\ 0 <= ov /\ 0 <= len /\ 0 <= pb
  | _ => True
  end.

(** The pager's copies take over a reference instead of getting one. *)
Definition vm_op_counts (op : vm_op) : bool :=
  match op with OpAddRwmem _ => false | _ => true end.

Definition vm_run (op : vm_op) (s : vm_info) : outcome vm_info :=
  match op with
  | OpMap va len prot flags m offs pb pe align =>
      (do! (_, _, s) <- vm_map_pad user_va_idx PGT_CACHE_SIZE va len prot flags m offs pb pe align s; Return s)%c
  | OpUnmap va len => (do! (_, s) <- vm_unmap va len s; Return s)%c
  | OpSetProt va len prot => (do! (_, s) <- vm_set_prot va len prot s; Return s)%c
  | OpRemap nv ov len pb pe => (do! (_, _, s) <- vm_remap user_va_idx PGT_CACHE_SIZE nv ov len pb pe s; Return s)%c
  | OpMapParam types params => (do! (_, _, s) <- vm_map_param user_va_idx PGT_CACHE_SIZE types params s; Return s)%c
  | OpCleanParam => Return (vm_clean_param s)
  | OpAddRwmem m => (do! (_, _, s) <- vm_add_rwmem user_va_idx PGT_CACHE_SIZE m 0 s; Return s)%c
  | OpRemRwmem m va => Return (vm_rem_rwmem m va s)
  end.

(** [counts]: whether copies of the pager are left out. *)
Inductive vm_steps (counts : bool) : vm_info -> vm_info -> Prop :=
| vs_refl s : vm_steps counts s s
| vs_step s s1 op s2 :
    vm_steps counts s s1 -> vm_op_args op -> (counts = true -> vm_op_counts op = true) -> vm_run op s1 = Return s2 -> vm_steps counts s s2.

Lemma vm_run_kept op s s' :
  vm_ok s -> vm_op_args op -> vm_run op s = Return s' ->
  vm_ok s' /\ vm_active s' = vm_active s /\ (vm_op_counts op = true -> kept s s').
Proof using idx_ok.
  intros Hs Ha. assert (Hk : forall s', kept s s' -> vm_ok s' /\ vm_active s' = vm_active s /\ (vm_op_counts op = true -> kept s s')).
  { intros s1 [A B C D E]. by split; [|split]; [| |constructor]. }
  destruct op; cbn [vm_run vm_op_args] in *.
  - destruct Ha as (? & ? & ? & ? & ?).
    edestruct (vm_map_pad_cases s va len prot flags m offs pad_begin pad_end align) as (? & ? & s1 & -> & Hk1 & _); try done. intros [= <-]. auto.
  - destruct (vm_active s) eqn:Eact; [|unfold vm_unmap; by rewrite Eact].
    destruct (vm_unmap_cases s va len Hs Eact) as (? & s1 & -> & Hk1 & _); try tauto. intros [= <-]. auto.
  - destruct (vm_active s) eqn:Eact; [|unfold vm_set_prot; by rewrite Eact].
    pose proof (vm_set_prot_cases s va len prot Hs Eact) as Hc. destruct (vm_set_prot va len prot s) as [[? s1]|]; [|done].
    intros [= <-]. apply Hk, Hc; tauto.
  - pose proof (vm_remap_cases s new_va old_va len pad_begin pad_end Hs) as Hc. destruct (vm_remap _ _ _ _ _ _ _ s) as [[[? ?] s1]|]; [|done].
    intros [= <-]. apply Hk, Hc; tauto.
  - pose proof (vm_map_param_kept s types params Hs) as Hc. destruct (vm_map_param _ _ _ _ s) as [[[? ?] s1]|]; [|done]. intros [= <-]. auto.
  - intros [= <-]. apply Hk. by apply vm_clean_param_spec.
  - destruct (vm_add_rwmem_ok s m 0 Hs) as (? & ? & s1 & -> & ? & ?). intros [= <-]. done.
  - intros [= <-]. apply Hk. by apply vm_rem_rwmem_ok.
Qed.

Lemma vm_steps_kept counts s s' :
  vm_ok s -> vm_steps counts s s' ->
  vm_ok s' /\ vm_active s' = vm_active s /\ (counts = true -> kept s s').
Proof using idx_ok.
  intros Hs. induction 1 as [|s s1 op s2 _ IH Ha Hc Hr]; [split; [done|]; split; [done|]; intros; by apply kept_refl|].
  destruct (IH Hs) as (H1 & H2 & H3). destruct (vm_run_kept op s1 s2 H1 Ha Hr) as (H4 & H5 & H6).
  split; [done|]. split; [congruence|]. intros E. eapply kept_trans; eauto.
Qed.

Lemma empty_vm_ok s : vm_regions s = [] -> vm_ok s.
Proof using idx_ok.
  intros E. constructor; rewrite E; [|constructor|done]. cbn [layout]. assert (0 <= va_range_size) by done. lia.
Qed.
End ops.
