(* ===== verification/VmSpec.v ===== *)
(** * What an address space guarantees

    The theorems on [core/mm/vm.c], and the places where the code does less than it
    means to. *)

From S2P Require Import Prelude Vm VmMap VmSplit VmOps.
From stdpp Require Import base gmap list.
From Stdlib Require Import ZArith Lia.

Local Open Scope Z_scope.

Section spec.
Context {MO : Mobjs}.
Context (user_va_idx PGT_CACHE_SIZE : Z).
Hypothesis idx_ok : 1 <= user_va_idx < 2 ^ 18.
Notation base := (va_range_base user_va_idx).
Notation top := (base + va_range_size).
Notation vm_ok := (vm_ok user_va_idx).
Notation fails s := (Exists (fun c => c <> 0) (vm_ext s)).
Notation steps := (vm_steps user_va_idx PGT_CACHE_SIZE).

(** C4. Address spaces: after any mapping, unmapping, moving, change of protection,
    call with parameters and copy of the pager, with any failures, regions are
    page-aligned, inside the user range, in order and without overlap; without the
    pager's copies each memory object has exactly one reference per region. *)
Theorem vm_regions_never_overlap counts s s' :
  vm_regions s = [] -> (forall m, m <> 0%nat -> refs_of m (vm_refs s) = 0) -> steps counts s s' ->
  (forall r, r ∈ vm_regions s' -> base <= r_va r /\ r_va r + r_size r <= top /\ r_va r mod 4096 = 0 /\ r_size r mod 4096 = 0) /\
  (forall i j ri rj, vm_regions s' !! i = Some ri -> vm_regions s' !! j = Some rj -> (i < j)%nat -> r_va ri + r_size ri <= r_va rj) /\
  (counts = true -> forall m, m <> 0%nat -> refs_of m (vm_refs s') = held m (vm_regions s')).
Proof using idx_ok.
  intros He Hr Hs. destruct (vm_steps_kept _ _ idx_ok counts s s' (empty_vm_ok _ idx_ok s He) Hs) as ([A _ _] & _ & Hk).
  split; [|split].
  - intros r Hin. destruct (layout_elem _ _ _ _ A Hin) as ([] & ? & ?). done.
  - intros i j ri rj. by apply layout_regions_disjoint with base top.
  - intros E m Hm. specialize (Hk E). pose proof (k_refs _ _ _ Hk m Hm) as H. rewrite He, (Hr m Hm) in H. unfold held at 2 in H. cbn in H. lia.
Qed.

(** Choosing an address: with arguments that pass the checks, [umap_add_region]
    puts the region into a gap that has room for it with the padding asked for, at the
    address asked for or at a multiple of the alignment, and refuses only when no gap has room. *)
Theorem umap_add_region_exact reg pb pe align s :
  vm_ok s -> fresh_ok reg -> 0 <= pb -> 0 <= pe -> 0 <= align < 2 ^ 64 -> add_args_ok reg pb pe align ->
  exists res reg' s', umap_add_region user_va_idx reg pb pe align s = Return (res, reg', s') /\
    ((res = TEE_SUCCESS /\ exists va, reg' = set_va va reg /\ placed user_va_idx reg pb pe align (vm_regions s) (vm_regions s') va) \/
     (res <> TEE_SUCCESS /\ s' = s /\ no_room user_va_idx reg pb pe align (vm_regions s))).
Proof using idx_ok.
  intros Hs Hf Hpb Hpe Hal Ha. destruct (umap_add_cases user_va_idx idx_ok reg pb pe align s Hs Hf Hpb Hpe Hal) as (res & reg' & s' & -> & Hc).
  do 3 eexists. split; [done|]. destruct Hc as [(-> & _ & va & l' & -> & -> & Hp)|(? & -> & -> & Hn)]; [left|right].
  - split; [done|]. by exists va.
  - split; [done|]. split; [done|]. by apply Hn.
Qed.

(** C30. Unmapping: [vm_unmap] never fails an assertion; when it succeeds exactly the
    addresses of the range, rounded up to pages, are unmapped; otherwise nothing an
    address is mapped to changes, and the range was bad or a call out failed. *)
Theorem vm_unmap_exact s va len :
  vm_ok s -> vm_active s = true -> 0 <= va -> 0 <= len ->
  exists res s', vm_unmap va len s = Return (res, s') /\ vm_ok s' /\
    let l := len + (- len) mod 4096 in
    ((res = TEE_SUCCESS /\ forall a, vm_lookup (vm_regions s') a = if (va <=? a) && (a <? va + l) then None else vm_lookup (vm_regions s) a) \/
     (res <> TEE_SUCCESS /\ (forall a, vm_lookup (vm_regions s') a = vm_lookup (vm_regions s) a) /\
      (UINT64_MAX < l + 4095 \/ l = 0 \/ bad_range s va l \/ fails s))).
Proof using idx_ok.
  intros Hs Ha Hva Hlen. destruct (vm_unmap_cases _ idx_ok s va len Hs Ha Hva Hlen) as (res & s' & -> & Hk & Hc).
  do 2 eexists. split; [done|]. split; [by destruct Hk|]. cbn zeta in *. tauto.
Qed.

(** Protection: when [vm_set_prot] succeeds, the protection of exactly the pages
    of the range is the one asked for, with the memory behind them and everything else
    as before, however regions were split and merged; otherwise nothing changes. It
    stops only when the pager refuses. *)
Theorem vm_set_prot_exact s va len prot :
  vm_ok s -> vm_active s = true -> 0 <= va -> 0 <= len ->
  match vm_set_prot va len prot s with
  | Return (res, s') => vm_ok s' /\
      ((res = TEE_SUCCESS /\ forall a, vm_lookup (vm_regions s') a =
          if (va <=? a) && (a <? va + len) then page_set_attr (set_prot_attr prot) <$> vm_lookup (vm_regions s) a
          else vm_lookup (vm_regions s) a) \/
       (res <> TEE_SUCCESS /\ (forall a, vm_lookup (vm_regions s') a = vm_lookup (vm_regions s) a) /\
        (Z.land prot (u32 (Z.lnot TEE_MATTR_PROT_MASK)) <> 0 \/ len = 0 \/ bad_range s va len \/ fails s)))
  | Panic => fails s
  end.
Proof using idx_ok.
  intros Hs Ha Hva Hlen. pose proof (vm_set_prot_cases _ idx_ok s va len prot Hs Ha Hva Hlen) as Hc.
  destruct (vm_set_prot va len prot s) as [[res s']|]; [|done]. destruct Hc as [[Hk _ _ _ _] Hc]. split; [done|]. tauto.
Qed.

(** Moving: when [vm_remap] succeeds, the range is mapped at its new place just as
    it was at the old one, the old place is free where the new one does not cover it,
    and no other address changes. *)
Theorem vm_remap_moves s new_va old_va len pb pe :
  vm_ok s -> 0 <= new_va -> 0 <= old_va -> 0 <= len -> 0 <= pb ->
  match vm_remap user_va_idx PGT_CACHE_SIZE new_va old_va len pb pe s with
  | Return (res, new, s') => vm_ok s' /\
      (res = TEE_SUCCESS -> (new_va <> 0 -> new = new_va) /\
        forall a, vm_lookup (vm_regions s') a =
          if (new <=? a) && (a <? new + len) then vm_lookup (vm_regions s) (old_va + (a - new))
          else if (old_va <=? a) && (a <? old_va + len) then None else vm_lookup (vm_regions s) a)
  | Panic => True
  end.
Proof using idx_ok.
  intros Hs H1 H2 H3 H4. pose proof (vm_remap_cases _ PGT_CACHE_SIZE idx_ok s new_va old_va len pb pe Hs H1 H2 H3 H4) as Hc.
  destruct (vm_remap _ _ _ _ _ _ _ s) as [[[res new] s']|]; [|done]. destruct Hc as [[Hk _ _ _ _] Hc]. split; [done|].
  intros E. destruct (Hc E) as (_ & _ & Hn & Hl). by split.
Qed.

(** ** Access rights *)

Lemma buffer_inside_region b bl r :
  region_wf r -> 0 < r_va r -> r_va r + r_size r <= UINT64_MAX -> 0 <= b -> 0 <= bl -> b + bl <= UINT64_MAX ->
  core_is_buffer_inside b bl (r_va r) (r_size r) = true <-> 0 < bl /\ r_va r <= b /\ b + bl <= r_va r + r_size r.
Proof.
  intros [W _ _ _ _ _] Hv He Hb Hbl Hm. unfold core_is_buffer_inside, is_valid_conf_and_notnull_size. unfold UINT64_MAX in *.
  assert (E1 : u64 (u64 (b - 1) + bl) = if (b =? 0) && (bl =? 0) then 18446744073709551615 else b + bl - 1) by (destruct (Z.eqb_spec b 0), (Z.eqb_spec bl 0); cbn [andb]; cint).
  assert (E2 : u64 (u64 (r_va r - 1) + r_size r) = r_va r + r_size r - 1) by cint.
  rewrite E1, E2. destruct (Z.eqb_spec b 0), (Z.eqb_spec bl 0); cbn [andb orb];
    repeat match goal with |- context [?x <? ?y] => destruct (Z.ltb_spec x y) | |- context [?x =? ?y] => destruct (Z.eqb_spec x y)
      | |- context [?x <=? ?y] => destruct (Z.leb_spec x y) end; cbn [andb orb negb]; split; intros; try done; try lia.
Qed.

Lemma user_va2attr_lookup s a :
  vm_ok s -> 0 <= a < UINT64_MAX ->
  user_va2attr a s = match vm_lookup (vm_regions s) a with Some p => (TEE_SUCCESS, Some (pg_attr p)) | None => (TEE_ERROR_ACCESS_DENIED, None) end.
Proof using idx_ok.
  intros [A _ _] Ha. unfold user_va2attr, vm_lookup. destruct (user_range user_va_idx idx_ok) as (Hu1 & Hu2 & Hu3 & _).
  assert (Hf : find (fun r => core_is_buffer_inside a 1 (r_va r) (r_size r)) (vm_regions s) = find (covers a) (vm_regions s)); [|rewrite Hf; destruct (find (covers a) (vm_regions s)); reflexivity].
  assert (HF : Forall (fun r => core_is_buffer_inside a 1 (r_va r) (r_size r) = covers a r) (vm_regions s)).
  { apply Forall_forall. intros r Hr. destruct (layout_elem _ _ _ _ A Hr) as (W & H1 & H2). unfold UINT64_MAX in *.
    apply Bool.eq_iff_eq_true. rewrite covers_true, buffer_inside_region by (try done; unfold UINT64_MAX; lia). lia. }
  clear A. induction HF as [|r l Hr HF IH]; [done|]. cbn [find]. by rewrite Hr, IH.
Qed.

(** Addresses of one page are in the same region. *)
Lemma lookup_same_page s a d :
  vm_ok s -> a mod 4096 = 0 -> 0 <= d < 4096 ->
  pg_attr <$> vm_lookup (vm_regions s) (a + d) = pg_attr <$> vm_lookup (vm_regions s) a.
Proof.
  intros [A _ _] Ha Hd. apply layout_forall in A. induction A as [|r l W A IH]; [done|]. rewrite !vm_lookup_cons.
  replace (covers (a + d) r) with (covers a r); [by destruct (covers a r)|]. apply Bool.eq_iff_eq_true. rewrite !covers_true.
  destruct W as [W1 W2 W3 _ _ _]. Z.div_mod_to_equations. lia.
Qed.

(** The rights that [flags] asks for, of a page with [attr]. *)
Definition access_ok (flags attr : Z) : Prop :=
  (has_flag flags TEE_MEMORY_ACCESS_NONSECURE = true -> has_flag attr TEE_MATTR_SECURE = false) /\
  (has_flag flags TEE_MEMORY_ACCESS_SECURE = true -> has_flag attr TEE_MATTR_SECURE = true) /\
  (has_flag flags TEE_MEMORY_ACCESS_WRITE = true -> has_flag attr TEE_MATTR_UW = true) /\
  (has_flag flags TEE_MEMORY_ACCESS_READ = true -> has_flag attr TEE_MATTR_UR = true).

Lemma check_page_ok flags attr :
  (check_page flags attr = TEE_SUCCESS <-> access_ok flags attr) /\ (check_page flags attr = TEE_SUCCESS \/ check_page flags attr = TEE_ERROR_ACCESS_DENIED).
Proof.
  unfold check_page, access_ok.
  destruct (has_flag flags TEE_MEMORY_ACCESS_NONSECURE), (has_flag attr TEE_MATTR_SECURE), (has_flag flags TEE_MEMORY_ACCESS_SECURE); cbn [andb negb];
    try (split; [split; intros H; [discriminate H|destruct H as (H1 & H2 & _); first [discriminate (H1 eq_refl)|discriminate (H2 eq_refl)]]|by right]);
    destruct (has_flag flags TEE_MEMORY_ACCESS_WRITE), (has_flag attr TEE_MATTR_UW); cbn [andb negb];
    try (split; [split; intros H; [discriminate H|destruct H as (_ & _ & H & _); discriminate (H eq_refl)]|by right]);
    destruct (has_flag flags TEE_MEMORY_ACCESS_READ), (has_flag attr TEE_MATTR_UR); cbn [andb negb];
    try (split; [split; intros H; [discriminate H|destruct H as (_ & _ & _ & H); discriminate (H eq_refl)]|by right]);
    (split; [split; intros _; [refine (conj _ (conj _ (conj _ _))); by intros|done]|by left]).
Qed.

(** All of [a, e) is mapped with the rights asked for. *)
Definition range_access_ok (s : vm_info) (flags a e : Z) : Prop :=
  forall x, a <= x < e -> exists p, vm_lookup (vm_regions s) x = Some p /\ access_ok flags (pg_attr p).

Lemma check_loop_exact s flags e : vm_ok s -> 0 <= e <= UINT64_MAX -> forall fuel a,
  0 <= a -> a mod 4096 = 0 -> e - a <= 4096 * (Z.of_nat fuel - 1) -> (0 < fuel)%nat ->
  exists r, check_loop fuel flags a e s = Some r /\ (r = TEE_SUCCESS <-> range_access_ok s flags a e) /\ (r = TEE_SUCCESS \/ r = TEE_ERROR_ACCESS_DENIED).
Proof using idx_ok.
  intros Hs He. destruct (user_range user_va_idx idx_ok) as (Hu1 & Hu2 & Hu3 & _).
  induction fuel as [|fuel IH]; intros a Ha Hal Hf Hpos; [lia|]. cbn [check_loop].
  destruct (Z.ltb_spec a e) as [Hlt|Hge]; cbn [negb].
  2: { eexists. split; [done|]. split; [|by left]. split; [|done]. intros _ x Hx. lia. }
  rewrite user_va2attr_lookup by (try done; lia).
  destruct (vm_lookup (vm_regions s) a) as [p|] eqn:El.
  2: { eexists. split; [done|]. split; [|by right]. split; [done|]. intros H. destruct (H a ltac:(lia)) as (p & Hp & _). congruence. }
  destruct (check_page_ok flags (pg_attr p)) as [Hc Hd].
  destruct (Z.eqb_spec (check_page flags (pg_attr p)) TEE_SUCCESS) as [Ec|Ec]; cbn [negb].
  2: { eexists. split; [done|]. split; [|tauto]. split; [done|]. intros H. destruct (H a ltac:(lia)) as (q & Hq & Hacc). rewrite El in Hq. simplify_eq. tauto. }
  assert (Hat : a < top).
  { destruct (Z.lt_ge_cases a top); [done|]. destruct Hs as [A _ _]. rewrite (vm_lookup_outside _ _ _ a A) in El by lia. done. }
  change (Z.min CORE_MMU_USER_CODE_SIZE CORE_MMU_USER_PARAM_SIZE) with 4096. rewrite u64_small by (unfold is_u64; lia).
  destruct (Z.eq_dec (Z.of_nat fuel) 0) as [Hz|Hz]; [lia|].
  destruct (IH (a + 4096)) as (r & Hr & Hiff & Hor); [lia|Z.div_mod_to_equations; lia|lia|lia|].
  exists r. split; [done|]. split; [|done]. rewrite Hiff. split; intros H x Hx; [|apply H; lia].
  destruct (Z.lt_ge_cases x (a + 4096)) as [Hxl|]; [|apply H; lia].
  pose proof (lookup_same_page s a (x - a) Hs Hal ltac:(lia)) as Hp. replace (a + (x - a)) with x in Hp by lia. rewrite El in Hp. cbn in Hp.
  destruct (vm_lookup (vm_regions s) x) as [q|]; [|done]. cbn in Hp. simplify_eq. exists q. split; [done|]. rewrite Hp. by apply Hc.
Qed.

(** [va, va + size) is in one region private to the program. *)
Definition inside_private (s : vm_info) (va size : Z) : Prop :=
  0 < size /\ exists r, r ∈ vm_regions s /\ has_flag (r_flags r) VM_FLAGS_NONPRIV = false /\ r_va r <= va /\ va + size <= r_va r + r_size r.

Lemma inside_private_exact s va size :
  vm_ok s -> 0 <= va -> 0 <= size -> va + size <= UINT64_MAX -> vm_buf_is_inside_um_private va size s = true <-> inside_private s va size.
Proof using idx_ok.
  intros [A _ _] Hv Hs Hm. unfold vm_buf_is_inside_um_private, inside_private. destruct (user_range user_va_idx idx_ok) as (Hu1 & Hu2 & Hu3 & _).
  rewrite existsb_exists. setoid_rewrite <- list_elem_of_In. setoid_rewrite andb_true_iff. setoid_rewrite negb_true_iff.
  assert (Hin : forall r, r ∈ vm_regions s -> core_is_buffer_inside va size (r_va r) (r_size r) = true <-> 0 < size /\ r_va r <= va /\ va + size <= r_va r + r_size r).
  { intros r Hr. destruct (layout_elem _ _ _ _ A Hr) as (W & ? & ?). apply buffer_inside_region; try done; unfold UINT64_MAX; lia. }
  split; [intros (r & Hr & Hf & Hi)|intros (H0 & r & Hr & Hf & H1 & H2)].
  - apply Hin in Hi; [|done]. destruct Hi as (? & ? & ?). split; [done|]. by exists r.
  - exists r. split; [done|]. split; [done|]. by apply Hin.
Qed.

(** C29. Access checks: [vm_check_access_rights] ends after one step per page, and
    answers success exactly when the range does not wrap, the flags do not contradict
    each other, the range is in one private region unless any owner will do, and every
    byte of the pages touched is mapped with the rights asked for. *)
Theorem vm_check_access_rights_exact s fuel flags uaddr len :
  vm_ok s -> is_u64 uaddr -> is_u64 len -> len + 8192 <= 4096 * Z.of_nat fuel ->
  exists r, vm_check_access_rights fuel flags uaddr len s = Some r /\ (r = TEE_SUCCESS \/ r = TEE_ERROR_ACCESS_DENIED) /\
    (r = TEE_SUCCESS <->
       uaddr + len <= UINT64_MAX /\
       ~ (has_flag flags TEE_MEMORY_ACCESS_NONSECURE = true /\ has_flag flags TEE_MEMORY_ACCESS_SECURE = true) /\
       (has_flag flags TEE_MEMORY_ACCESS_ANY_OWNER = true \/ inside_private s uaddr len) /\
       range_access_ok s flags (uaddr - uaddr mod 4096) (uaddr + len)).
Proof using idx_ok.
  intros Hs Hu Hl Hf. unfold vm_check_access_rights. destruct (ADD_OVERFLOW uaddr len) as [e|] eqn:EA.
  2: { eexists. split; [done|]. split; [by right|]. split; [done|]. unfold ADD_OVERFLOW in EA. case_match; zbool; [done|]. lia. }
  apply ADD_OVERFLOW_Some in EA as [-> He].
  destruct (has_flag flags TEE_MEMORY_ACCESS_NONSECURE && has_flag flags TEE_MEMORY_ACCESS_SECURE) eqn:Ens.
  { eexists. split; [done|]. split; [by right|]. apply andb_true_iff in Ens. split; [done|]. naive_solver. }
  apply andb_false_iff in Ens. pose proof (inside_private_exact s uaddr len Hs ltac:(apply Hu) ltac:(apply Hl) He) as Hpriv.
  destruct (has_flag flags TEE_MEMORY_ACCESS_ANY_OWNER) eqn:Ea; cbn [negb andb]; [|destruct (vm_buf_is_inside_um_private uaddr len s); cbn [negb]].
  3: { eexists. split; [done|]. split; [by right|]. split; [done|]. intros (_ & _ & [?|?%Hpriv] & _); done. }
  all: change (Z.min CORE_MMU_USER_CODE_SIZE CORE_MMU_USER_PARAM_SIZE) with (2 ^ 12); rewrite ROUNDDOWN_spec by (try done; lia); change (2 ^ 12) with 4096;
    pose proof (Z.mod_pos_bound uaddr 4096 ltac:(lia)); unfold is_u64 in *;
    (destruct (check_loop_exact s flags (uaddr + len) Hs ltac:(lia) fuel (uaddr - uaddr mod 4096)) as (r & Hr & Hiff & Hor);
      [Z.div_mod_to_equations; lia|Z.div_mod_to_equations; lia|lia|lia|]);
    exists r; split; [done|]; split; [done|]; rewrite Hiff; naive_solver congruence.
Qed.

(** ** Private memory and cache operations *)

Lemma valid_nonpriv_attr r : valid_region r -> has_flag (r_attr r) VM_FLAGS_NONPRIV = true.
Proof.
  intros Hv. unfold has_flag. apply negb_true_iff, Z.eqb_neq. intros E.
  assert (Hb : Z.testbit (Z.land (r_attr r) VM_FLAGS_NONPRIV) 0 = true) by (rewrite Z.land_spec, Hv; done).
  by rewrite E in Hb.
Qed.

(** A flaw: [vm_buf_intersects_um_private] tests the flags of private memory in
    the attributes of the region, where the bit of valid entries stands for one of them:
    no buffer ever intersects private memory, so that cache operations, meant for
    parameters only, are allowed on everything the program can read. *)
Theorem private_memory_never_intersected s s' fuel va len :
  vm_regions s = [] -> steps true s s' ->
  vm_buf_intersects_um_private va len s' = false /\
  syscall_cache_operation fuel true va len s' =
    (fun res => if negb (res =? TEE_SUCCESS) then TEE_ERROR_ACCESS_DENIED else TEE_SUCCESS) <$>
    vm_check_access_rights fuel (Z.lor TEE_MEMORY_ACCESS_READ TEE_MEMORY_ACCESS_ANY_OWNER) va len s'.
Proof using idx_ok.
  intros He Hs. destruct (vm_steps_kept _ _ idx_ok true s s' (empty_vm_ok _ idx_ok s He) Hs) as (_ & _ & Hk).
  assert (Hv : Forall valid_region (vm_regions s')) by (apply (k_valid _ _ _ (Hk eq_refl)); by rewrite He).
  assert (Hf : vm_buf_intersects_um_private va len s' = false).
  { unfold vm_buf_intersects_um_private. induction Hv as [|r l Hr Hv IH]; [done|]. cbn [existsb]. by rewrite valid_nonpriv_attr, IH. }
  split; [done|]. unfold syscall_cache_operation. cbn [negb]. rewrite Hf. by destruct (vm_check_access_rights _ _ _ _ _).
Qed.
End spec.

(** ** An address space at work *)

(** Memory objects of a megabyte, secure, cached, not paged. *)
#[export] Instance demo_mobjs : Mobjs.
Proof.
  refine {| mobj_size _ := 1048576; mobj_phys_granule _ := 4096; mobj_is_paged _ := false; mobj_is_secure _ := true;
    mobj_get_cattr _ := inl 1; mobj_get_phys_offs _ _ := 0; mobj_get_pa _ o _ := inl o; mobj_has_fobj _ := true |}.
  intros m e H. discriminate H.
Defined.

Notation demo_idx := 1.
Notation demo_pgts := 8.
Definition demo_base : Z := 1073741824.
Definition vm_fresh : vm_info := mk_vm [] 1 ∅ [] 1 true.
Notation demo_vm_run := (vm_run demo_idx demo_pgts).
Notation demo_vm_steps := (vm_steps demo_idx demo_pgts).
Definition vm_after (op : vm_op) (s : vm_info) : vm_info := match demo_vm_run op s with Return s => s | Panic => s end.

Definition RW : Z := Z.lor TEE_MATTR_PRW TEE_MATTR_URW.
Definition RO : Z := Z.lor TEE_MATTR_PR TEE_MATTR_UR.

(** Private memory, and a file mapped read-only right after it. *)
Definition vm_private : vm_info := vm_after (OpMap 0 4096 RW 0 1%nat 0 0 0 0) vm_fresh.
Definition vm_file : vm_info := vm_after (OpMap 0 4096 RO VM_FLAG_READONLY 2%nat 0 0 0 0) vm_private.

Lemma demo_vm_step counts s s1 op s2 :
  demo_vm_steps counts s s1 -> vm_op_args op -> (counts = true -> vm_op_counts op = true) -> demo_vm_run op s1 = Return s2 -> demo_vm_steps counts s s2.
Proof. apply vs_step. Qed.

Lemma vm_file_reachable counts : demo_vm_steps counts vm_fresh vm_file.
Proof.
  eapply (demo_vm_step _ _ vm_private (OpMap 0 4096 RO VM_FLAG_READONLY 2%nat 0 0 0 0)); [|by vm_compute|done|vm_compute; reflexivity].
  eapply (demo_vm_step _ _ vm_fresh (OpMap 0 4096 RW 0 1%nat 0 0 0 0)); [apply vs_refl|by vm_compute|done|vm_compute; reflexivity].
Qed.

Lemma demo_idx_ok : 1 <= demo_idx < 2 ^ 18.
Proof. done. Qed.

Lemma vm_file_ok : vm_ok demo_idx vm_file.
Proof.
  exact (proj1 (vm_steps_kept demo_idx demo_pgts demo_idx_ok true vm_fresh vm_file
    (empty_vm_ok demo_idx demo_idx_ok vm_fresh eq_refl) (vm_file_reachable true))).
Qed.

(** A flaw: the loop over the regions of a range compares the first region with
    each one before the last, never with the last. The check that keeps files mapped
    read-only from being made writable looks at such a range: with private memory right
    before it the file becomes writable, on its own it does not. *)
Theorem set_prot_makes_file_writable :
  demo_vm_steps true vm_fresh vm_file /\
  (exists p, vm_lookup (vm_regions vm_file) (demo_base + 4096) = Some p /\ pg_flags p = VM_FLAG_READONLY /\ has_flag (pg_attr p) TEE_MATTR_UW = false) /\
  (exists s, ldelf_syscall_set_prot (demo_base + 4096) 4096 LDELF_MAP_FLAG_WRITEABLE vm_file = Return (TEE_ERROR_ACCESS_DENIED, s)) /\
  vm_get_flags demo_base 8192 vm_file = (TEE_SUCCESS, Some 0) /\
  exists s p, ldelf_syscall_set_prot demo_base 8192 LDELF_MAP_FLAG_WRITEABLE vm_file = Return (TEE_SUCCESS, s) /\
    vm_lookup (vm_regions s) (demo_base + 4096) = Some p /\ pg_flags p = VM_FLAG_READONLY /\ has_flag (pg_attr p) TEE_MATTR_UW = true.
Proof.
  split; [apply vm_file_reachable|]. split; [eexists; split; [vm_compute; reflexivity|by vm_compute]|].
  split; [eexists; vm_compute; reflexivity|]. split; [by vm_compute|].
  do 2 eexists. split; [vm_compute; reflexivity|]. split; [vm_compute; reflexivity|by vm_compute].
Qed.

(** A flaw: two parameters in one memory object, the second inside the first. When
    their pages are merged, the length up to the end of the second is kept: the call
    succeeds, but the end of the first parameter is not mapped. *)
Theorem map_param_drops_tail :
  let params := [mk_pmem 1%nat 12288 0; mk_pmem 1%nat 4096 4096; mk_pmem 0%nat 0 0; mk_pmem 0%nat 0 0] in
  exists s va va1, vm_map_param demo_idx demo_pgts 0x55 params vm_fresh = Return (TEE_SUCCESS, [Some va; Some va1; None; None], s) /\
    vm_lookup (vm_regions s) (va + 8191) <> None /\ vm_lookup (vm_regions s) (va + 8192) = None.
Proof. do 3 eexists. split; [vm_compute; reflexivity|]. split; [by vm_compute|by vm_compute]. Qed.

(** The kernel's region, and a private one. *)
Definition vm_two : vm_info :=
  vm_after (OpMap 0 4096 RW 0 2%nat 0 8192 0 0) (vm_after (OpMap 0 4096 TEE_MATTR_PRW VM_FLAG_PERMANENT 1%nat 0 0 0 0) vm_fresh).
Definition private_va : Z := demo_base + 16384.

(** A flaw: when moving a region fails after it was added at its new place, the
    loop that takes regions back stops before the last one added. The call reports the
    error (here too few page tables), yet the region stays at the new place and the old
    one is left unmapped. *)
Theorem remap_failure_moves_region :
  exists s p, vm_lookup (vm_regions vm_two) private_va = Some p /\
    vm_remap demo_idx demo_pgts (demo_base + 67108864) private_va 4096 0 0 vm_two = Return (TEE_ERROR_OUT_OF_MEMORY, demo_base + 67108864, s) /\
    vm_lookup (vm_regions s) private_va = None /\ vm_lookup (vm_regions s) (demo_base + 67108864) = Some p.
Proof. do 2 eexists. split; [vm_compute; reflexivity|]. split; [vm_compute; reflexivity|]. split; vm_compute; reflexivity. Qed.

(** ** Witnesses *)

Lemma vm_regions_never_overlap_witness : refs_of 2%nat (vm_refs vm_file) = held 2%nat (vm_regions vm_file).
Proof.
  refine (proj2 (proj2 (vm_regions_never_overlap demo_idx demo_pgts demo_idx_ok true vm_fresh vm_file eq_refl _ (vm_file_reachable true))) eq_refl 2%nat _); [|lia].
  intros m Hm. unfold refs_of, vm_fresh. cbn. by rewrite lookup_empty.
Defined.

Definition demo_reg : vm_region := mk_region 9%nat 1%nat 0 0 8192 1 0.

Lemma umap_add_region_exact_witness :
  exists res reg' s', umap_add_region demo_idx demo_reg 0 0 65536 vm_file = Return (res, reg', s') /\
    ((res = TEE_SUCCESS /\ exists va, reg' = set_va va demo_reg /\ placed demo_idx demo_reg 0 0 65536 (vm_regions vm_file) (vm_regions s') va) \/
     (res <> TEE_SUCCESS /\ s' = vm_file /\ no_room demo_idx demo_reg 0 0 65536 (vm_regions vm_file))).
Proof.
  apply (umap_add_region_exact demo_idx demo_idx_ok demo_reg 0 0 65536 vm_file vm_file_ok); try (by vm_compute).
  repeat (split; [by vm_compute|]). exists 16. by vm_compute.
Defined.

Lemma vm_unmap_exact_witness :
  exists res s', vm_unmap demo_base 100 vm_file = Return (res, s') /\ vm_ok demo_idx s' /\
    let l := 100 + (- 100) mod 4096 in
    ((res = TEE_SUCCESS /\ forall a, vm_lookup (vm_regions s') a = if (demo_base <=? a) && (a <? demo_base + l) then None else vm_lookup (vm_regions vm_file) a) \/
     (res <> TEE_SUCCESS /\ (forall a, vm_lookup (vm_regions s') a = vm_lookup (vm_regions vm_file) a) /\
      (UINT64_MAX < l + 4095 \/ l = 0 \/ bad_range vm_file demo_base l \/ Exists (fun c => c <> 0) (vm_ext vm_file)))).
Proof. apply (vm_unmap_exact demo_idx demo_idx_ok vm_file demo_base 100 vm_file_ok); by vm_compute. Defined.

Lemma vm_set_prot_exact_witness :
  match vm_set_prot demo_base 4096 RO vm_file with
  | Return (res, s') => vm_ok demo_idx s' /\
      ((res = TEE_SUCCESS /\ forall a, vm_lookup (vm_regions s') a =
          if (demo_base <=? a) && (a <? demo_base + 4096) then page_set_attr (set_prot_attr RO) <$> vm_lookup (vm_regions vm_file) a
          else vm_lookup (vm_regions vm_file) a) \/
       (res <> TEE_SUCCESS /\ (forall a, vm_lookup (vm_regions s') a = vm_lookup (vm_regions vm_file) a) /\
        (Z.land RO (u32 (Z.lnot TEE_MATTR_PROT_MASK)) <> 0 \/ 4096 = 0 \/ bad_range vm_file demo_base 4096 \/ Exists (fun c => c <> 0) (vm_ext vm_file))))
  | Panic => Exists (fun c => c <> 0) (vm_ext vm_file)
  end.
Proof. apply (vm_set_prot_exact demo_idx demo_idx_ok vm_file demo_base 4096 RO vm_file_ok); by vm_compute. Defined.

Lemma vm_remap_moves_witness :
  match vm_remap demo_idx demo_pgts 0 demo_base 4096 0 0 vm_file with
  | Return (res, new, s') => vm_ok demo_idx s' /\
      (res = TEE_SUCCESS -> (0 <> 0 -> new = 0) /\
        forall a, vm_lookup (vm_regions s') a =
          if (new <=? a) && (a <? new + 4096) then vm_lookup (vm_regions vm_file) (demo_base + (a - new))
          else if (demo_base <=? a) && (a <? demo_base + 4096) then None else vm_lookup (vm_regions vm_file) a)
  | Panic => True
  end.
Proof. apply (vm_remap_moves demo_idx demo_pgts demo_idx_ok vm_file 0 demo_base 4096 0 0 vm_file_ok); by vm_compute. Defined.

Lemma vm_check_access_rights_exact_witness :
  exists r, vm_check_access_rights 4 TEE_MEMORY_ACCESS_READ demo_base 8192 vm_file = Some r /\ (r = TEE_SUCCESS \/ r = TEE_ERROR_ACCESS_DENIED) /\
    (r = TEE_SUCCESS <->
       demo_base + 8192 <= UINT64_MAX /\
       ~ (has_flag TEE_MEMORY_ACCESS_READ TEE_MEMORY_ACCESS_NONSECURE = true /\ has_flag TEE_MEMORY_ACCESS_READ TEE_MEMORY_ACCESS_SECURE = true) /\
       (has_flag TEE_MEMORY_ACCESS_READ TEE_MEMORY_ACCESS_ANY_OWNER = true \/ inside_private vm_file demo_base 8192) /\
       range_access_ok vm_file TEE_MEMORY_ACCESS_READ (demo_base - demo_base mod 4096) (demo_base + 8192)).
Proof. apply (vm_check_access_rights_exact demo_idx demo_idx_ok vm_file 4 TEE_MEMORY_ACCESS_READ demo_base 8192 vm_file_ok); by vm_compute. Defined.

Lemma private_memory_never_intersected_witness :
  syscall_cache_operation 4 true demo_base 4096 vm_private = Some TEE_SUCCESS.
Proof.
  refine (eq_trans (proj2 (private_memory_never_intersected demo_idx demo_pgts demo_idx_ok vm_fresh vm_private 4 demo_base 4096 eq_refl _)) _); [|by vm_compute].
  eapply (demo_vm_step _ _ vm_fresh (OpMap 0 4096 RW 0 1%nat 0 0 0 0)); [apply vs_refl|by vm_compute|done|vm_compute; reflexivity].
Defined.
