(* ===== verification/Cipher.v ===== *)
(** * Ciphers of the kernel

    The path of a cipher operation through the kernel: the system calls
    ([tee_svc_cryp.c]), the length checks ([tee_cryp_utl.c]), ciphertext stealing
    ([aes-cts.c]) and the modes ECB and CBC of the software library, over any block
    cipher. Memory of the caller is accessible; where the block cipher has accelerated
    modes they compute the same. *)

From S2P Require Import Prelude.
From stdpp Require Import base list.
From Stdlib Require Import ZArith Lia.

Local Open Scope Z_scope.

(** ** Algorithms and modes *)

Definition TEE_ALG_AES_ECB_NOPAD : Z := 0x10000010.
Definition TEE_ALG_AES_CBC_NOPAD : Z := 0x10000110.
Definition TEE_ALG_AES_CTR : Z := 0x10000210.
Definition TEE_ALG_AES_CTS : Z := 0x10000310.
Definition TEE_ALG_AES_XTS : Z := 0x10000410.
Definition TEE_ALG_AES_CBC_MAC_NOPAD : Z := 0x30000110.
Definition TEE_ALG_AES_CBC_MAC_PKCS5 : Z := 0x30000510.
Definition TEE_ALG_AES_CMAC : Z := 0x30000610.
Definition TEE_ALG_AES_CCM : Z := 0x40000710.
Definition TEE_ALG_AES_GCM : Z := 0x40000810.
Definition TEE_ALG_DES_ECB_NOPAD : Z := 0x10000011.
Definition TEE_ALG_DES_CBC_NOPAD : Z := 0x10000111.
Definition TEE_ALG_DES_CBC_MAC_NOPAD : Z := 0x30000111.
Definition TEE_ALG_DES_CBC_MAC_PKCS5 : Z := 0x30000511.
Definition TEE_ALG_DES3_ECB_NOPAD : Z := 0x10000013.
Definition TEE_ALG_DES3_CBC_NOPAD : Z := 0x10000113.
Definition TEE_ALG_DES3_CBC_MAC_NOPAD : Z := 0x30000113.
Definition TEE_ALG_DES3_CBC_MAC_PKCS5 : Z := 0x30000513.
Definition TEE_ALG_DES3_CMAC : Z := 0xF0000613.
Definition TEE_ALG_SM4_ECB_NOPAD : Z := 0x10000014.
Definition TEE_ALG_SM4_CBC_NOPAD : Z := 0x10000114.
Definition TEE_ALG_SM4_CTR : Z := 0x10000214.

Definition TEE_ALG_SM2_PKE : Z := 0x80000045.
Definition TEE_ALG_SM2_KEP : Z := 0x60000045.
Definition TEE_ALG_RSASSA_PKCS1_V1_5 : Z := 0xF0000830.

Definition TEE_MODE_ENCRYPT : Z := 0.
Definition TEE_MODE_DECRYPT : Z := 1.

Definition TEE_OPERATION_CIPHER : Z := 1.
Definition TEE_OPERATION_MAC : Z := 3.
Definition TEE_OPERATION_AE : Z := 4.
Definition TEE_OPERATION_DIGEST : Z := 5.
Definition TEE_OPERATION_ASYMMETRIC_CIPHER : Z := 6.
Definition TEE_OPERATION_ASYMMETRIC_SIGNATURE : Z := 7.
Definition TEE_OPERATION_KEY_DERIVATION : Z := 8.

Definition TEE_ALG_GET_CLASS (algo : Z) : Z :=
  if algo =? TEE_ALG_SM2_PKE then TEE_OPERATION_ASYMMETRIC_CIPHER
  else if algo =? TEE_ALG_SM2_KEP then TEE_OPERATION_KEY_DERIVATION
  else if algo =? TEE_ALG_RSASSA_PKCS1_V1_5 then TEE_OPERATION_ASYMMETRIC_SIGNATURE
  else if algo =? TEE_ALG_DES3_CMAC then TEE_OPERATION_MAC
  else Z.land (Z.shiftr algo 28) 0xF. (* bits 31 to 28 *)

Definition one_of (x : Z) (l : list Z) : bool := existsb (Z.eqb x) l.

(** ** Block ciphers *)

Definition bytes : Type := list Z.
Definition is_byte (b : Z) : Prop := 0 <= b < 256.

(** A cipher of the library's table: key set-up and one block in each direction. *)
Class BlockCipher := {
  bc_key : Type;
  bc_len : nat;
  bc_setup : bytes -> option bc_key;
  bc_encrypt : bc_key -> bytes -> bytes;
  bc_decrypt : bc_key -> bytes -> bytes;
}.

Section kernel.
Context {BC : BlockCipher}.

Definition xor_bytes (a b : bytes) : bytes := zip_with Z.lxor a b.

(** *** [modes/ecb], [modes/cbc] *)

Record symmetric_ECB := mk_ecb { ecb_key : bc_key }.
Record symmetric_CBC := mk_cbc { cbc_key : bc_key; cbc_IV : bytes }.

(** The loops over [n] blocks. *)
Fixpoint ecb_loop (f : bytes -> bytes) (n : nat) (data : bytes) : bytes :=
  match n with
  | O => []
  | S n => f (take bc_len data) ++ ecb_loop f n (drop bc_len data)
  end.

Fixpoint cbc_encrypt_loop (k : bc_key) (n : nat) (iv pt : bytes) : bytes * bytes :=
  match n with
  | O => ([], iv)
  | S n =>
      let ct := bc_encrypt k (xor_bytes iv (take bc_len pt)) in
      let '(out, iv) := cbc_encrypt_loop k n ct (drop bc_len pt) in
      (ct ++ out, iv)
  end.

Fixpoint cbc_decrypt_loop (k : bc_key) (n : nat) (iv ct : bytes) : bytes * bytes :=
  match n with
  | O => ([], iv)
  | S n =>
      let pt := xor_bytes (bc_decrypt k (take bc_len ct)) iv in
      let '(out, iv) := cbc_decrypt_loop k n (take bc_len ct) (drop bc_len ct) in
      (pt ++ out, iv)
  end.

(** [None]: an invalid argument. *)
Definition ecb_encrypt (pt : bytes) (ecb : symmetric_ECB) : option bytes :=
  if Nat.eqb (length pt mod bc_len) 0 then Some (ecb_loop (bc_encrypt (ecb_key ecb)) (length pt / bc_len) pt) else None.
Definition ecb_decrypt (ct : bytes) (ecb : symmetric_ECB) : option bytes :=
  if Nat.eqb (length ct mod bc_len) 0 then Some (ecb_loop (bc_decrypt (ecb_key ecb)) (length ct / bc_len) ct) else None.

Definition cbc_encrypt (pt : bytes) (cbc : symmetric_CBC) : option (bytes * symmetric_CBC) :=
  if Nat.eqb (length pt mod bc_len) 0 then
    let '(out, iv) := cbc_encrypt_loop (cbc_key cbc) (length pt / bc_len) (cbc_IV cbc) pt in
    Some (out, mk_cbc (cbc_key cbc) iv)
  else None.
Definition cbc_decrypt (ct : bytes) (cbc : symmetric_CBC) : option (bytes * symmetric_CBC) :=
  if Nat.eqb (length ct mod bc_len) 0 then
    let '(out, iv) := cbc_decrypt_loop (cbc_key cbc) (length ct / bc_len) (cbc_IV cbc) ct in
    Some (out, mk_cbc (cbc_key cbc) iv)
  else None.

(** *** Contexts: [struct ltc_ecb_ctx], [struct ltc_cbc_ctx]. [None] for the state
    before it is set up; the pointer [update] is the direction. *)

Record ltc_ecb_ctx := mk_ltc_ecb { le_decrypt : bool; le_state : option symmetric_ECB }.
Record ltc_cbc_ctx := mk_ltc_cbc { lc_decrypt : bool; lc_state : option symmetric_CBC }.

Definition ltc_ecb_init (mode : Z) (key : bytes) : Z * ltc_ecb_ctx :=
  match bc_setup key with
  | Some k => (TEE_SUCCESS, mk_ltc_ecb (negb (mode =? TEE_MODE_ENCRYPT)) (Some (mk_ecb k)))
  | None => (TEE_ERROR_BAD_STATE, mk_ltc_ecb (negb (mode =? TEE_MODE_ENCRYPT)) None)
  end.

Definition ltc_ecb_update (c : ltc_ecb_ctx) (data : bytes) : Z * bytes :=
  match (s ← le_state c; (if le_decrypt c then ecb_decrypt else ecb_encrypt) data s) with
  | Some out => (TEE_SUCCESS, out)
  | None => (TEE_ERROR_BAD_STATE, [])
  end.

Definition ltc_cbc_init (c : ltc_cbc_ctx) (mode : Z) (key iv : bytes) : Z * ltc_cbc_ctx :=
  if negb (Nat.eqb (length iv) bc_len) then (TEE_ERROR_BAD_PARAMETERS, c)
  else
    match bc_setup key with
    | Some k => (TEE_SUCCESS, mk_ltc_cbc (negb (mode =? TEE_MODE_ENCRYPT)) (Some (mk_cbc k iv)))
    | None => (TEE_ERROR_BAD_STATE, mk_ltc_cbc (negb (mode =? TEE_MODE_ENCRYPT)) None)
    end.

Definition ltc_cbc_update (c : ltc_cbc_ctx) (data : bytes) : Z * ltc_cbc_ctx * bytes :=
  match (s ← lc_state c; (if lc_decrypt c then cbc_decrypt else cbc_encrypt) data s) with
  | Some (out, s) => (TEE_SUCCESS, mk_ltc_cbc (lc_decrypt c) (Some s), out)
  | None => (TEE_ERROR_BAD_STATE, c, [])
  end.

(** [struct cts_ctx] *)
Record cts_ctx := mk_cts { ct_ecb : ltc_ecb_ctx; ct_cbc : ltc_cbc_ctx; ct_mode : Z }.

(** A [crypto_cipher_ctx], by its table of operations. *)
Inductive cipher_ctx :=
| CtxEcb (c : ltc_ecb_ctx)
| CtxCbc (c : ltc_cbc_ctx)
| CtxCts (c : cts_ctx).

(** ** [tee_cryp_utl.c] *)

Definition tee_cipher_get_block_size (algo : Z) : option nat :=
  if one_of algo [TEE_ALG_AES_CBC_MAC_NOPAD; TEE_ALG_AES_CBC_MAC_PKCS5; TEE_ALG_AES_CMAC; TEE_ALG_AES_ECB_NOPAD;
      TEE_ALG_AES_CBC_NOPAD; TEE_ALG_AES_CTR; TEE_ALG_AES_CTS; TEE_ALG_AES_XTS; TEE_ALG_AES_CCM; TEE_ALG_AES_GCM;
      TEE_ALG_SM4_ECB_NOPAD; TEE_ALG_SM4_CBC_NOPAD; TEE_ALG_SM4_CTR] then Some 16%nat
  else if one_of algo [TEE_ALG_DES_CBC_MAC_NOPAD; TEE_ALG_DES_CBC_MAC_PKCS5; TEE_ALG_DES_ECB_NOPAD; TEE_ALG_DES_CBC_NOPAD;
      TEE_ALG_DES3_CBC_MAC_NOPAD; TEE_ALG_DES3_CBC_MAC_PKCS5; TEE_ALG_DES3_ECB_NOPAD; TEE_ALG_DES3_CBC_NOPAD;
      TEE_ALG_DES3_CMAC] then Some 8%nat
  else None.

(** The checks of [tee_do_cipher_update]: an error, or [TEE_SUCCESS]. *)
Definition cipher_len_check (algo mode : Z) (last_block : bool) (len : nat) : Z :=
  if negb (mode =? TEE_MODE_ENCRYPT) && negb (mode =? TEE_MODE_DECRYPT) then TEE_ERROR_BAD_PARAMETERS
  else
    match tee_cipher_get_block_size algo with
    | None => TEE_ERROR_NOT_SUPPORTED
    | Some block_size =>
        if negb (Nat.eqb (len mod block_size) 0) then
          if negb last_block && negb (algo =? TEE_ALG_AES_CTR) then TEE_ERROR_BAD_PARAMETERS
          else if one_of algo [TEE_ALG_AES_ECB_NOPAD; TEE_ALG_DES_ECB_NOPAD; TEE_ALG_DES3_ECB_NOPAD; TEE_ALG_AES_CBC_NOPAD;
              TEE_ALG_DES_CBC_NOPAD; TEE_ALG_DES3_CBC_NOPAD; TEE_ALG_SM4_ECB_NOPAD; TEE_ALG_SM4_CBC_NOPAD]
          then TEE_ERROR_BAD_PARAMETERS
          else if one_of algo [TEE_ALG_AES_CTR; TEE_ALG_AES_XTS; TEE_ALG_AES_CTS] then TEE_SUCCESS
          else TEE_ERROR_NOT_SUPPORTED
        else TEE_SUCCESS
    end.

(** [tee_do_cipher_update] on the contexts inside a [cts_ctx]. *)
Definition do_cbc_update (mode : Z) (c : ltc_cbc_ctx) (data : bytes) : Z * ltc_cbc_ctx * bytes :=
  let res := cipher_len_check TEE_ALG_AES_CBC_NOPAD mode false (length data) in
  if negb (res =? TEE_SUCCESS) then (res, c, []) else ltc_cbc_update c data.
Definition do_ecb_update (mode : Z) (c : ltc_ecb_ctx) (data : bytes) : Z * bytes :=
  let res := cipher_len_check TEE_ALG_AES_ECB_NOPAD mode false (length data) in
  if negb (res =? TEE_SUCCESS) then (res, []) else ltc_ecb_update c data.

(** ** [aes-cts.c] *)

Definition cts_init (c : cts_ctx) (mode : Z) (key iv : bytes) : Z * cts_ctx :=
  let '(res, ecb) := ltc_ecb_init mode key in
  if negb (res =? TEE_SUCCESS) then (res, mk_cts ecb (ct_cbc c) mode)
  else let '(res, cbc) := ltc_cbc_init (ct_cbc c) mode key iv in (res, mk_cts ecb cbc mode).

Definition cbc_cts_update (c : cts_ctx) (last_block : bool) (data : bytes) : Z * cts_ctx * bytes :=
  let mode := ct_mode c in
  let with_cbc cbc := mk_cts (ct_ecb c) cbc mode in
  let block_size := 16%nat in
  if negb last_block then
    let '(res, cbc, dst) := do_cbc_update mode (ct_cbc c) data in (res, with_cbc cbc, dst)
  else
    let nb_blocks := ((length data + block_size - 1) / block_size)%nat in
    if (nb_blocks <? 2)%nat then (TEE_ERROR_BAD_STATE, c, [])
    else
      let len_last_block := let r := (length data mod block_size)%nat in if Nat.eqb r 0 then block_size else r in
      let tail := take len_last_block (drop ((nb_blocks - 1) * block_size) data) in
      let before := ((nb_blocks - 2) * block_size)%nat in
      if mode =? TEE_MODE_ENCRYPT then
        let tmp_block := tail ++ replicate (block_size - len_last_block) 0 in
        let '(res, cbc, dst) := do_cbc_update mode (ct_cbc c) (take ((nb_blocks - 1) * block_size) data) in
        if negb (res =? TEE_SUCCESS) then (res, with_cbc cbc, [])
        else
          let '(res, cbc, last) := do_cbc_update mode cbc tmp_block in
          if negb (res =? TEE_SUCCESS) then (res, with_cbc cbc, [])
          else (TEE_SUCCESS, with_cbc cbc, take before dst ++ last ++ take len_last_block (drop before dst))
      else
        let second := take block_size (drop before data) in
        let '(res, tmp2_block) := do_ecb_update mode (ct_ecb c) second in
        if negb (res =? TEE_SUCCESS) then (res, c, [])
        else
          let tmp_block := tail ++ take (block_size - len_last_block) (drop len_last_block tmp2_block) in
          let '(res, cbc, dst) :=
            if (2 <? nb_blocks)%nat then do_cbc_update mode (ct_cbc c) (take before data) else (TEE_SUCCESS, ct_cbc c, []) in
          if negb (res =? TEE_SUCCESS) then (res, with_cbc cbc, [])
          else
            let '(res, cbc, dst1) := do_cbc_update mode cbc tmp_block in
            if negb (res =? TEE_SUCCESS) then (res, with_cbc cbc, [])
            else
              let '(res, cbc, dst2) := do_cbc_update mode cbc second in
              if negb (res =? TEE_SUCCESS) then (res, with_cbc cbc, [])
              else (TEE_SUCCESS, with_cbc cbc, dst ++ dst1 ++ take len_last_block dst2).

(** ** [crypto.c]: by the table of the context *)

Definition crypto_cipher_init (c : cipher_ctx) (mode : Z) (key iv : bytes) : Z * cipher_ctx :=
  if negb (mode =? TEE_MODE_DECRYPT) && negb (mode =? TEE_MODE_ENCRYPT) then (TEE_ERROR_BAD_PARAMETERS, c)
  else
    match c with
    | CtxEcb _ => let '(res, c) := ltc_ecb_init mode key in (res, CtxEcb c)
    | CtxCbc c => let '(res, c) := ltc_cbc_init c mode key iv in (res, CtxCbc c)
    | CtxCts c => let '(res, c) := cts_init c mode key iv in (res, CtxCts c)
    end.

Definition crypto_cipher_update (c : cipher_ctx) (last_block : bool) (data : bytes) : Z * cipher_ctx * bytes :=
  match c with
  | CtxEcb c => let '(res, out) := ltc_ecb_update c data in (res, CtxEcb c, out)
  | CtxCbc c => let '(res, c, out) := ltc_cbc_update c data in (res, CtxCbc c, out)
  | CtxCts c => let '(res, c, out) := cbc_cts_update c last_block data in (res, CtxCts c, out)
  end.

Definition tee_do_cipher_update (c : cipher_ctx) (algo mode : Z) (last_block : bool) (data : bytes) : Z * cipher_ctx * bytes :=
  let res := cipher_len_check algo mode last_block (length data) in
  if negb (res =? TEE_SUCCESS) then (res, c, []) else crypto_cipher_update c last_block data.

(** ** [tee_svc_cryp.c] *)

(** [struct tee_cryp_state]: what the cipher calls use. A key object: whether it is
    initialised, and the key; [None] when there is none. *)
Record tee_cryp_state := mk_cs {
  cs_algo : Z;
  cs_mode : Z;
  cs_key1 : option (bool * bytes);
  cs_key2 : option (bool * bytes);
  cs_ctx : cipher_ctx;
  cs_ctx_finalize : bool;
  cs_initialized : bool;
}.


Definition syscall_cipher_init (cs : tee_cryp_state) (iv : bytes) : Z * tee_cryp_state :=
  if negb (TEE_ALG_GET_CLASS (cs_algo cs) =? TEE_OPERATION_CIPHER) then (TEE_ERROR_BAD_STATE, cs)
  else
    match cs_key1 cs with
    | None => (TEE_ERROR_BAD_STATE, cs)
    | Some (false, _) => (TEE_ERROR_BAD_PARAMETERS, cs)
    | Some (true, key1) =>
        match cs_key2 cs with
        | Some (false, _) => (TEE_ERROR_BAD_PARAMETERS, cs)
        | _ =>
            (* none of these contexts uses the second key *)
            let '(res, ctx) := crypto_cipher_init (cs_ctx cs) (cs_mode cs) key1 iv in
            let fin := (res =? TEE_SUCCESS) in
            (res, mk_cs (cs_algo cs) (cs_mode cs) (cs_key1 cs) (cs_key2 cs) ctx (fin || cs_ctx_finalize cs) (fin || cs_initialized cs))
        end
    end.

(** [dlen]: room at the destination. The values: result, state, what is written there,
    and the length stored. *)
Definition tee_svc_cipher_update_helper (cs : tee_cryp_state) (last_block : bool) (src : bytes) (dlen : Z)
    : Z * tee_cryp_state * bytes * Z :=
  if negb (cs_initialized cs) then (TEE_ERROR_BAD_STATE, cs, [], dlen)
  else
    let src_len := Z.of_nat (length src) in
    if dlen <? src_len then (TEE_ERROR_SHORT_BUFFER, cs, [], src_len)
    else
      let '(res, ctx, out) :=
        if 0 <? src_len then tee_do_cipher_update (cs_ctx cs) (cs_algo cs) (cs_mode cs) last_block src
        else (TEE_SUCCESS, cs_ctx cs, []) in
      let fin := if last_block && cs_ctx_finalize cs then false else cs_ctx_finalize cs in
      (res, mk_cs (cs_algo cs) (cs_mode cs) (cs_key1 cs) (cs_key2 cs) ctx fin (cs_initialized cs), out,
       if res =? TEE_SUCCESS then src_len else dlen).

Definition syscall_cipher_update (cs : tee_cryp_state) (src : bytes) (dlen : Z) := tee_svc_cipher_update_helper cs false src dlen.
Definition syscall_cipher_final (cs : tee_cryp_state) (src : bytes) (dlen : Z) := tee_svc_cipher_update_helper cs true src dlen.
End kernel.
