(* ===== verification/CipherModes.v ===== *)
(** * Chaining modes

    Facts on the block loops of [Cipher]: their lengths, that they work block by block
    (so data may be given in pieces), that decryption undoes encryption, and the same for
    ciphertext stealing, against a reference definition of CBC-CS3. *)

From S2P Require Import Prelude Cipher.
From stdpp Require Import base list.
From Stdlib Require Import ZArith Lia.

Local Open Scope nat_scope.

(** What is used of a block cipher: blocks of bytes are mapped to blocks of bytes, and
    decryption undoes encryption. *)
Definition is_block `{BlockCipher} (b : bytes) : Prop := length b = bc_len /\ Forall is_byte b.

Class BlockCipherLaws (BC : BlockCipher) : Prop := {
  bc_len_pos : 0 < bc_len;
  bc_encrypt_block : forall k b, is_block b -> is_block (bc_encrypt k b);
  bc_decrypt_block : forall k b, is_block b -> is_block (bc_decrypt k b);
  bc_decrypt_encrypt : forall k b, is_block b -> bc_decrypt k (bc_encrypt k b) = b;
}.

Section xor.
Local Open Scope Z_scope.

Lemma is_byte_xor a b : is_byte a -> is_byte b -> is_byte (Z.lxor a b).
Proof.
  unfold is_byte. intros Ha Hb. split.
  - apply Z.lxor_nonneg. lia.
  - destruct (Z.eq_dec (Z.lxor a b) 0) as [-> | H0]; [lia|].
    assert (0 <= Z.lxor a b) by (apply Z.lxor_nonneg; lia).
    assert (Hsz : forall x, 0 <= x < 256 -> Z.log2 x < 8).
    { intros x Hx. destruct (Z.eq_dec x 0) as [-> | Hn]; [done|]. apply Z.log2_lt_pow2; lia. }
    apply Z.log2_lt_cancel. change (Z.log2 256) with 8.
    pose proof (Z.log2_lxor a b ltac:(lia) ltac:(lia)). pose proof (Hsz a Ha). pose proof (Hsz b Hb). lia.
Qed.

Lemma xor_bytes_length a b : length (xor_bytes a b) = Nat.min (length a) (length b).
Proof. apply length_zip_with. Qed.

Lemma xor_bytes_bytes a b : Forall is_byte a -> Forall is_byte b -> Forall is_byte (xor_bytes a b).
Proof.
  intros Ha. revert b. induction Ha as [|x a Hx Ha IH]; intros b Hb; [constructor|].
  destruct Hb as [|y b Hy Hb]; [constructor|]. constructor; [by apply is_byte_xor|]. by apply IH.
Qed.

Lemma xor_bytes_cancel a b : length a = length b -> xor_bytes (xor_bytes a b) a = b.
Proof.
  revert b. induction a as [|x a IH]; intros [|y b] Hl; try done. cbn in *.
  unfold xor_bytes in *. rewrite IH by lia. f_equal.
  rewrite Z.lxor_comm, <- Z.lxor_assoc, Z.lxor_nilpotent. apply Z.lxor_0_l.
Qed.

Lemma xor_bytes_comm a b : xor_bytes a b = xor_bytes b a.
Proof.
  unfold xor_bytes. revert b. induction a as [|x a IH]; intros [|y b]; try done.
  cbn. by rewrite IH, Z.lxor_comm.
Qed.

Lemma xor_bytes_take n a b : take n (xor_bytes a b) = xor_bytes (take n a) (take n b).
Proof.
  unfold xor_bytes. revert a b. induction n as [|n IH]; intros [|x a] [|y b]; try done; cbn.
  by rewrite IH.
Qed.

Lemma xor_bytes_drop n a b : drop n (xor_bytes a b) = xor_bytes (drop n a) (drop n b).
Proof.
  unfold xor_bytes. revert a b. induction n as [|n IH]; intros [|x a] [|y b]; try done; cbn.
  - by destruct (drop n a).
  - by rewrite IH.
Qed.
End xor.

Section modes.
Context {BC : BlockCipher} {BL : BlockCipherLaws BC}.

Notation bs := bc_len.

Lemma is_block_xor a b : is_block a -> is_block b -> is_block (xor_bytes a b).
Proof.
  intros [Ha1 Ha2] [Hb1 Hb2]. split; [|by apply xor_bytes_bytes].
  rewrite xor_bytes_length. lia.
Qed.

Lemma bytes_take n (a : bytes) : Forall is_byte a -> Forall is_byte (take n a).
Proof. intros H. by apply Forall_take. Qed.
Lemma bytes_drop n (a : bytes) : Forall is_byte a -> Forall is_byte (drop n a).
Proof. intros H. by apply Forall_drop. Qed.

(** ** Block by block *)

Lemma cbc_encrypt_loop_app k n m iv a b :
  length a = n * bs ->
  cbc_encrypt_loop k (n + m) iv (a ++ b) =
  let '(o1, iv1) := cbc_encrypt_loop k n iv a in
  let '(o2, iv2) := cbc_encrypt_loop k m iv1 b in (o1 ++ o2, iv2).
Proof.
  revert iv a. induction n as [|n IH]; intros iv a Ha.
  - destruct a; [|done]. cbn. by destruct (cbc_encrypt_loop k m iv b).
  - cbn. cbn in Ha. rewrite take_app_le, drop_app_le by lia.
    rewrite IH by (rewrite length_drop; lia).
    destruct (cbc_encrypt_loop k n _ (drop bs a)) as [o1 iv1].
    destruct (cbc_encrypt_loop k m iv1 b) as [o2 iv2]. by rewrite app_assoc.
Qed.

Lemma cbc_decrypt_loop_app k n m iv a b :
  length a = n * bs ->
  cbc_decrypt_loop k (n + m) iv (a ++ b) =
  let '(o1, iv1) := cbc_decrypt_loop k n iv a in
  let '(o2, iv2) := cbc_decrypt_loop k m iv1 b in (o1 ++ o2, iv2).
Proof.
  revert iv a. induction n as [|n IH]; intros iv a Ha.
  - destruct a; [|done]. cbn. by destruct (cbc_decrypt_loop k m iv b).
  - cbn. cbn in Ha. rewrite take_app_le, drop_app_le by lia.
    rewrite IH by (rewrite length_drop; lia).
    destruct (cbc_decrypt_loop k n _ (drop bs a)) as [o1 iv1].
    destruct (cbc_decrypt_loop k m iv1 b) as [o2 iv2]. by rewrite app_assoc.
Qed.

Lemma ecb_loop_app f n m a b :
  length a = n * bs -> ecb_loop f (n + m) (a ++ b) = ecb_loop f n a ++ ecb_loop f m b.
Proof.
  revert a. induction n as [|n IH]; intros a Ha; [by destruct a|].
  cbn. cbn in Ha. rewrite take_app_le, drop_app_le by lia.
  rewrite IH by (rewrite length_drop; lia). by rewrite app_assoc.
Qed.

(** ** Lengths and bytes *)

Lemma block_of_data n (a : bytes) : length a = S n * bs -> Forall is_byte a ->
  is_block (take bs a) /\ length (drop bs a) = n * bs /\ Forall is_byte (drop bs a).
Proof.
  intros Ha Hb. cbn in Ha. repeat split; [| by apply bytes_take | | by apply bytes_drop];
    rewrite ?length_take, ?length_drop; lia.
Qed.

Lemma cbc_encrypt_loop_bytes k n iv a :
  is_block iv -> length a = n * bs -> Forall is_byte a ->
  length (cbc_encrypt_loop k n iv a).1 = n * bs /\ Forall is_byte (cbc_encrypt_loop k n iv a).1 /\
  is_block (cbc_encrypt_loop k n iv a).2.
Proof.
  revert iv a. induction n as [|n IH]; intros iv a Hiv Ha Hb; [done|].
  destruct (block_of_data n a Ha Hb) as (H1 & H2 & H3). cbn.
  set (ct := bc_encrypt k _). assert (Hct : is_block ct) by (apply bc_encrypt_block; by apply is_block_xor).
  destruct (IH ct (drop bs a) Hct H2 H3) as (L1 & L2 & L3).
  destruct (cbc_encrypt_loop k n ct (drop bs a)) as [o iv']. cbn in *.
  destruct Hct. rewrite length_app, L1. repeat split; [lia | by apply Forall_app | apply L3 | apply L3].
Qed.

Lemma cbc_decrypt_loop_bytes k n iv a :
  is_block iv -> length a = n * bs -> Forall is_byte a ->
  length (cbc_decrypt_loop k n iv a).1 = n * bs /\ Forall is_byte (cbc_decrypt_loop k n iv a).1 /\
  is_block (cbc_decrypt_loop k n iv a).2.
Proof.
  revert iv a. induction n as [|n IH]; intros iv a Hiv Ha Hb; [done|].
  destruct (block_of_data n a Ha Hb) as (H1 & H2 & H3). cbn.
  set (pt := xor_bytes _ iv). assert (Hpt : is_block pt) by (apply is_block_xor; [by apply bc_decrypt_block | done]).
  destruct (IH (take bs a) (drop bs a) H1 H2 H3) as (L1 & L2 & L3).
  destruct (cbc_decrypt_loop k n (take bs a) (drop bs a)) as [o iv']. cbn in *.
  destruct Hpt. rewrite length_app, L1. repeat split; [lia | by apply Forall_app | apply L3 | apply L3].
Qed.

Lemma ecb_loop_bytes f n a :
  (forall b, is_block b -> is_block (f b)) -> length a = n * bs -> Forall is_byte a ->
  length (ecb_loop f n a) = n * bs /\ Forall is_byte (ecb_loop f n a).
Proof.
  intros Hf. revert a. induction n as [|n IH]; intros a Ha Hb; [done|].
  destruct (block_of_data n a Ha Hb) as (H1 & H2 & H3). cbn.
  destruct (Hf _ H1) as [F1 F2]. destruct (IH _ H2 H3) as [L1 L2].
  rewrite length_app, L1. split; [lia|]. by apply Forall_app.
Qed.

(** ** Decryption undoes encryption *)

Lemma cbc_loop_roundtrip k n iv a :
  is_block iv -> length a = n * bs -> Forall is_byte a ->
  cbc_decrypt_loop k n iv (cbc_encrypt_loop k n iv a).1 = (a, (cbc_encrypt_loop k n iv a).2).
Proof.
  revert iv a. induction n as [|n IH]; intros iv a Hiv Ha Hb; [by destruct a|].
  destruct (block_of_data n a Ha Hb) as (H1 & H2 & H3).
  assert (Hx : is_block (xor_bytes iv (take bs a))) by (by apply is_block_xor).
  assert (Hct := bc_encrypt_block k _ Hx). destruct Hct as [Hct1 Hct2].
  specialize (IH _ _ (conj Hct1 Hct2) H2 H3). cbn.
  destruct (cbc_encrypt_loop k n (bc_encrypt k (xor_bytes iv (take bs a))) (drop bs a)) as [o iv'] eqn:E. cbn in *.
  rewrite !take_app_length', !drop_app_length' by done. rewrite IH.
  rewrite bc_decrypt_encrypt by done. rewrite xor_bytes_cancel by (destruct Hiv, H1; lia).
  f_equal. apply take_drop.
Qed.

Lemma ecb_loop_roundtrip k n a :
  length a = n * bs -> Forall is_byte a ->
  ecb_loop (bc_decrypt k) n (ecb_loop (bc_encrypt k) n a) = a.
Proof.
  revert a. induction n as [|n IH]; intros a Ha Hb; [by destruct a|].
  destruct (block_of_data n a Ha Hb) as (H1 & H2 & H3). cbn.
  destruct (bc_encrypt_block k _ H1) as [E1 E2].
  rewrite take_app_length', drop_app_length', bc_decrypt_encrypt, IH by done. apply take_drop.
Qed.
End modes.

(** ** Ciphertext stealing *)

Definition nblocks `{BlockCipher} (len : nat) : nat := (len + bc_len - 1) / bc_len.

(** CBC-CS3: pad with zeros, encrypt with CBC, swap the last two blocks, truncate. *)
Definition cts_encrypt `{BlockCipher} (k : bc_key) (iv data : bytes) : bytes :=
  let n := nblocks (length data) in
  let o := (cbc_encrypt_loop k n iv (data ++ replicate (n * bc_len - length data) 0%Z)).1 in
  take (length data) (take ((n - 2) * bc_len) o ++ drop ((n - 1) * bc_len) o ++ take bc_len (drop ((n - 2) * bc_len) o)).

(** Decrypt the last full block, complete the partial one with the end of it, swap the
    last two blocks, decrypt with CBC, truncate. *)
Definition cts_decrypt `{BlockCipher} (k : bc_key) (iv data : bytes) : bytes :=
  let n := nblocks (length data) in
  let second := take bc_len (drop ((n - 2) * bc_len) data) in
  let tail := drop ((n - 1) * bc_len) data in
  let whole := tail ++ drop (length tail) (bc_decrypt k second) in
  take (length data) (cbc_decrypt_loop k n iv (take ((n - 2) * bc_len) data ++ whole ++ second)).1.

Section cts.
Context {BC : BlockCipher} {BL : BlockCipherLaws BC}.
Notation bs := bc_len.

(** Data of more than a block: full blocks, the last full one, the partial one. *)
Lemma cts_split (data : bytes) : bs < length data ->
  exists n p x t, data = p ++ x ++ t /\ length p = n * bs /\ length x = bs /\ 0 < length t <= bs.
Proof.
  pose proof bc_len_pos as Hpos. intros Hd.
  set (n := (length data - 1) / bs - 1).
  assert (Hdm := Nat.div_mod (length data - 1) bs ltac:(lia)).
  assert (Hm := Nat.mod_upper_bound (length data - 1) bs ltac:(lia)).
  assert (Hq : 1 <= (length data - 1) / bs) by (apply Nat.div_le_lower_bound; lia).
  assert (Hn : n * bs + bs <= length data - 1) by (unfold n; nia).
  assert (Hn2 : length data - 1 < n * bs + bs + bs) by (unfold n; nia).
  exists n, (take (n * bs) data), (take bs (drop (n * bs) data)), (drop (n * bs + bs) data).
  rewrite !length_take, !length_drop. split; [|lia].
  rewrite <- (take_drop (n * bs) data) at 1. f_equal.
  rewrite <- (take_drop bs (drop (n * bs) data)) at 1. f_equal. by rewrite drop_drop.
Qed.

Lemma nblocks_split n t : 0 < t <= bs -> nblocks (n * bs + (bs + t)) = n + 2.
Proof.
  pose proof bc_len_pos. intros Ht. unfold nblocks. symmetry.
  apply (Nat.div_unique _ _ _ (t - 1)); lia.
Qed.

Definition pad_block `{BlockCipher} (t : bytes) : bytes := t ++ replicate (bc_len - length t) 0%Z.

Lemma pad_block_block t : Forall is_byte t -> length t <= bs -> is_block (pad_block t).
Proof.
  intros Ht Hl. unfold pad_block. split; [rewrite length_app, length_replicate; lia|].
  apply Forall_app. split; [done|]. apply Forall_replicate. unfold is_byte. lia.
Qed.

Lemma data_lengths n (p x t : bytes) : length p = n * bs -> length x = bs ->
  length (p ++ x ++ t) = n * bs + (bs + length t).
Proof. intros. rewrite !length_app. lia. Qed.

Lemma cts_encrypt_split k iv n p x t :
  is_block iv -> length p = n * bs -> length x = bs -> 0 < length t <= bs -> Forall is_byte (p ++ x ++ t) ->
  cts_encrypt k iv (p ++ x ++ t) =
  let '(o, iv1) := cbc_encrypt_loop k n iv p in
  let c1 := bc_encrypt k (xor_bytes iv1 x) in
  let c2 := bc_encrypt k (xor_bytes c1 (pad_block t)) in
  o ++ c2 ++ take (length t) c1.
Proof.
  pose proof bc_len_pos. intros Hiv Hp Hx Ht Hb. apply Forall_app in Hb as [Hbp Hb]. apply Forall_app in Hb as [Hbx Hbt].
  unfold cts_encrypt. rewrite (data_lengths n), nblocks_split by lia.
  replace ((n + 2) * bs - (n * bs + (bs + length t))) with (bs - length t) by lia.
  rewrite <- !app_assoc. rewrite (cbc_encrypt_loop_app k n 2) by done.
  destruct (cbc_encrypt_loop_bytes k n iv p Hiv Hp Hbp) as (L1 & L2 & L3).
  destruct (cbc_encrypt_loop k n iv p) as [o iv1]. cbn [fst snd] in *.
  assert (Hc1 : is_block (bc_encrypt k (xor_bytes iv1 x))) by (apply bc_encrypt_block; by apply is_block_xor).
  cbn [cbc_encrypt_loop].
  rewrite (take_app_length' x), (drop_app_length' x) by done.
  fold (pad_block t). set (c1 := bc_encrypt k (xor_bytes iv1 x)) in *.
  assert (Hc2 : is_block (bc_encrypt k (xor_bytes c1 (pad_block t)))).
  { apply bc_encrypt_block, is_block_xor; [done|]. apply pad_block_block; [done | lia]. }
  rewrite (take_ge (pad_block t)) by (unfold pad_block; rewrite length_app, length_replicate; lia).
  set (c2 := bc_encrypt k (xor_bytes c1 (pad_block t))) in *. cbn [fst]. rewrite app_nil_r.
  destruct Hc1 as [Hc1 _]. destruct Hc2 as [Hc2 _].
  replace (n + 2 - 2) with n by lia. replace (n + 2 - 1) with (n + 1) by lia.
  rewrite (take_app_length' o) by done. rewrite (drop_app_length' o _ (n * bs)) by done.
  rewrite (take_app_length' c1) by done.
  rewrite (app_assoc o c1 c2), drop_app_length' by (rewrite length_app; lia).
  rewrite take_app_ge by lia. f_equal. rewrite L1.
  rewrite take_app_ge by lia. f_equal. f_equal. lia.
Qed.

Lemma cts_decrypt_split k iv n p x t :
  is_block iv -> length p = n * bs -> length x = bs -> 0 < length t <= bs -> Forall is_byte (p ++ x ++ t) ->
  cts_decrypt k iv (p ++ x ++ t) =
  let '(o, iv1) := cbc_decrypt_loop k n iv p in
  let y := t ++ drop (length t) (bc_decrypt k x) in
  o ++ xor_bytes (bc_decrypt k y) iv1 ++ take (length t) (xor_bytes (bc_decrypt k x) y).
Proof.
  pose proof bc_len_pos. intros Hiv Hp Hx Ht Hb. apply Forall_app in Hb as [Hbp Hb]. apply Forall_app in Hb as [Hbx Hbt].
  unfold cts_decrypt. rewrite (data_lengths n), nblocks_split by lia.
  replace (n + 2 - 2) with n by lia. replace (n + 2 - 1) with (n + 1) by lia.
  rewrite (drop_app_length' p _ (n * bs)) by done. rewrite (take_app_length' x) by done.
  rewrite (take_app_length' p) by done. rewrite (app_assoc p x t), drop_app_length' by (rewrite length_app; lia).
  destruct (bc_decrypt_block k x (conj Hx Hbx)) as [Hd1 Hd2].
  set (y := t ++ drop (length t) (bc_decrypt k x)).
  assert (Hy : is_block y).
  { split; [unfold y; rewrite length_app, length_drop; lia|]. apply Forall_app. split; [done | by apply bytes_drop]. }
  rewrite (cbc_decrypt_loop_app k n 2) by done.
  destruct (cbc_decrypt_loop_bytes k n iv p Hiv Hp Hbp) as (L1 & L2 & L3).
  destruct (cbc_decrypt_loop k n iv p) as [o iv1]. cbn [fst snd] in *.
  cbn [cbc_decrypt_loop]. rewrite (take_app_length' y), (drop_app_length' y) by (symmetry; apply Hy).
  rewrite (take_ge x) by lia. cbn [fst]. rewrite app_nil_r.
  destruct (bc_decrypt_block k y Hy) as [Hdy _]. destruct L3 as [L3 _].
  rewrite take_app_ge by lia. f_equal. rewrite take_app_ge by (rewrite xor_bytes_length; lia). f_equal.
  f_equal. rewrite xor_bytes_length. lia.
Qed.

(** Data may be given in pieces as long as more than a block is left for the end. *)
Lemma cts_encrypt_app k iv n a b :
  is_block iv -> length a = n * bs -> bs < length b -> Forall is_byte (a ++ b) ->
  cts_encrypt k iv (a ++ b) =
  (cbc_encrypt_loop k n iv a).1 ++ cts_encrypt k (cbc_encrypt_loop k n iv a).2 b.
Proof.
  intros Hiv Ha Hb Hbytes. destruct (cts_split b Hb) as (m & p & x & t & -> & Hp & Hx & Ht).
  assert (Hba := proj1 (proj1 (Forall_app _ _ _) Hbytes)). assert (Hbb := proj2 (proj1 (Forall_app _ _ _) Hbytes)).
  destruct (cbc_encrypt_loop_bytes k n iv a Hiv Ha Hba) as (L1 & L2 & L3).
  rewrite app_assoc, (cts_encrypt_split k iv (n + m)), (cts_encrypt_split k _ m)
    by (done || (rewrite length_app; lia) || by rewrite <- app_assoc).
  rewrite (cbc_encrypt_loop_app k n m) by done.
  destruct (cbc_encrypt_loop k n iv a) as [o1 iv1]. cbn.
  destruct (cbc_encrypt_loop k m iv1 p) as [o2 iv2]. by rewrite <- app_assoc.
Qed.

Lemma cts_decrypt_app k iv n a b :
  is_block iv -> length a = n * bs -> bs < length b -> Forall is_byte (a ++ b) ->
  cts_decrypt k iv (a ++ b) =
  (cbc_decrypt_loop k n iv a).1 ++ cts_decrypt k (cbc_decrypt_loop k n iv a).2 b.
Proof.
  intros Hiv Ha Hb Hbytes. destruct (cts_split b Hb) as (m & p & x & t & -> & Hp & Hx & Ht).
  assert (Hba := proj1 (proj1 (Forall_app _ _ _) Hbytes)). assert (Hbb := proj2 (proj1 (Forall_app _ _ _) Hbytes)).
  destruct (cbc_decrypt_loop_bytes k n iv a Hiv Ha Hba) as (L1 & L2 & L3).
  rewrite app_assoc, (cts_decrypt_split k iv (n + m)), (cts_decrypt_split k _ m)
    by (done || (rewrite length_app; lia) || by rewrite <- app_assoc).
  rewrite (cbc_decrypt_loop_app k n m) by done.
  destruct (cbc_decrypt_loop k n iv a) as [o1 iv1]. cbn.
  destruct (cbc_decrypt_loop k m iv1 p) as [o2 iv2]. by rewrite <- app_assoc.
Qed.

Lemma xor_zeros (a : bytes) : xor_bytes a (replicate (length a) 0%Z) = a.
Proof. unfold xor_bytes. induction a as [|x a IH]; [done|]. cbn. by rewrite IH, Z.lxor_0_r. Qed.

Lemma cts_encrypt_bytes k iv data : is_block iv -> bs < length data -> Forall is_byte data ->
  length (cts_encrypt k iv data) = length data /\ Forall is_byte (cts_encrypt k iv data).
Proof.
  intros Hiv Hl Hb. destruct (cts_split data Hl) as (n & p & x & t & -> & Hp & Hx & Ht).
  rewrite (cts_encrypt_split k iv n) by done.
  apply Forall_app in Hb as [Hbp Hb]. apply Forall_app in Hb as [Hbx Hbt].
  destruct (cbc_encrypt_loop_bytes k n iv p Hiv Hp Hbp) as (L1 & L2 & L3).
  destruct (cbc_encrypt_loop k n iv p) as [o iv1]. cbn [fst snd] in *. cbv zeta.
  assert (Hc1 : is_block (bc_encrypt k (xor_bytes iv1 x))) by (apply bc_encrypt_block; by apply is_block_xor).
  set (c1 := bc_encrypt k (xor_bytes iv1 x)) in *.
  destruct (bc_encrypt_block k (xor_bytes c1 (pad_block t))) as [E1 E2].
  { apply is_block_xor; [done|]. apply pad_block_block; [done | lia]. }
  destruct Hc1 as [C1 C2]. rewrite !length_app, length_take, E1, C1. split; [lia|].
  repeat apply Forall_app_2; [done | done | by apply bytes_take].
Qed.

Lemma cts_decrypt_length k iv data : is_block iv -> bs < length data -> Forall is_byte data ->
  length (cts_decrypt k iv data) = length data.
Proof.
  intros Hiv Hl Hb. destruct (cts_split data Hl) as (n & p & x & t & -> & Hp & Hx & Ht).
  rewrite (cts_decrypt_split k iv n) by done.
  apply Forall_app in Hb as [Hbp Hb]. apply Forall_app in Hb as [Hbx Hbt].
  destruct (cbc_decrypt_loop_bytes k n iv p Hiv Hp Hbp) as (L1 & L2 & L3 & _).
  destruct (cbc_decrypt_loop k n iv p) as [o iv1]. cbn [fst snd] in *. cbv zeta.
  destruct (bc_decrypt_block k x (conj Hx Hbx)) as [D1 D2].
  destruct (bc_decrypt_block k (t ++ drop (length t) (bc_decrypt k x))) as [E1 _].
  { split; [rewrite length_app, length_drop; lia|]. apply Forall_app. split; [done | by apply bytes_drop]. }
  rewrite !length_app, length_take, !xor_bytes_length, length_app, length_drop. lia.
Qed.

(** Decryption undoes encryption. *)
Lemma cts_decrypt_encrypt k iv data : is_block iv -> bs < length data -> Forall is_byte data ->
  cts_decrypt k iv (cts_encrypt k iv data) = data.
Proof.
  intros Hiv Hl Hb. destruct (cts_split data Hl) as (n & p & x & t & -> & Hp & Hx & Ht).
  destruct (cts_encrypt_bytes k iv _ Hiv Hl Hb) as [_ Heb].
  rewrite (cts_encrypt_split k iv n) in Heb |- * by done.
  apply Forall_app in Hb as [Hbp Hb]. apply Forall_app in Hb as [Hbx Hbt].
  destruct (cbc_encrypt_loop_bytes k n iv p Hiv Hp Hbp) as (L1 & L2 & L3).
  pose proof (cbc_loop_roundtrip k n iv p Hiv Hp Hbp) as Hrt.
  destruct (cbc_encrypt_loop k n iv p) as [o iv1]. cbn [fst snd] in *. cbv zeta in Heb |- *.
  assert (Hxb : is_block (xor_bytes iv1 x)) by (by apply is_block_xor).
  assert (Hc1 := bc_encrypt_block k _ Hxb). set (c1 := bc_encrypt k (xor_bytes iv1 x)) in *.
  assert (Hpb : is_block (pad_block t)) by (apply pad_block_block; [done | lia]).
  assert (Hcb : is_block (xor_bytes c1 (pad_block t))) by (by apply is_block_xor).
  assert (Hc2 := bc_encrypt_block k _ Hcb). set (c2 := bc_encrypt k (xor_bytes c1 (pad_block t))) in *.
  assert (Lt : length (take (length t) c1) = length t) by (destruct Hc1; rewrite length_take; lia).
  rewrite (cts_decrypt_split k iv n) by (done || apply Hc2 || (rewrite Lt; done)).
  rewrite Hrt, Lt. cbv zeta. unfold c2. rewrite bc_decrypt_encrypt by done.
  destruct Hc1 as [C1 C2]. destruct Hpb as [P1 P2].
  assert (Hy : take (length t) c1 ++ drop (length t) (xor_bytes c1 (pad_block t)) = c1).
  { rewrite <- (take_drop (length t) c1) at 3. f_equal. rewrite xor_bytes_drop. unfold pad_block.
    rewrite drop_app_length'  by done. rewrite <- (xor_zeros (drop (length t) c1)) at 2.
    by rewrite length_drop, C1. }
  rewrite Hy. unfold c1. rewrite bc_decrypt_encrypt by done. fold c1.
  rewrite !xor_bytes_cancel by (destruct L3; lia). do 2 f_equal.
  unfold pad_block. by rewrite take_app_length'.
Qed.
End cts.
