(* ===== verification/CipherSvc.v ===== *)
(** * The cipher service

    What the kernel promises to a trusted application that ciphers data in pieces: an
    interface, stated once, and the proof that the system calls of [Cipher] keep it for
    the modes ECB, CBC and CTS. *)

From S2P Require Import Prelude Cipher CipherModes.
From stdpp Require Import base list.
From Stdlib Require Import ZArith Lia.

Local Open Scope Z_scope.

(** ** The interface *)

Class CipherSvc := {
  svc_state : Type;
  svc_init : svc_state -> bytes -> Z * svc_state;
  svc_update : svc_state -> bytes -> Z -> Z * svc_state * bytes * Z;
  svc_final : svc_state -> bytes -> Z -> Z * svc_state * bytes * Z;
}.

(** The lengths that the last call accepts. *)
Definition final_ok (algo : Z) (bs n : nat) : Prop :=
  if algo =? TEE_ALG_AES_CTS then (bs < n)%nat else (n mod bs = 0)%nat.

Lemma final_ok_app algo bs n m : (bs <> 0)%nat -> (n mod bs = 0)%nat -> final_ok algo bs m -> final_ok algo bs (n + m).
Proof.
  unfold final_ok. intros Hbs Hn Hm. destruct (algo =? TEE_ALG_AES_CTS); [lia|].
  apply Nat.Div0.mod_divides in Hn as [q ->]. apply Nat.Div0.mod_divides in Hm as [r ->].
  rewrite <- Nat.mul_add_distr_l, Nat.mul_comm. by apply Nat.Div0.mod_mul.
Qed.

(** [svc_streams st f]: from [st] on the service turns what is given, in whichever
    pieces, into [f] of it. *)
Class StreamSvc (CS : CipherSvc) (algo : Z) (bs : nat) := {
  svc_streams : svc_state -> (bytes -> bytes) -> Prop;
  svc_update_streams : forall st f a dlen,
    svc_streams st f -> Forall is_byte a -> (length a mod bs = 0)%nat -> Z.of_nat (length a) <= dlen ->
    exists st' out f', svc_update st a dlen = (TEE_SUCCESS, st', out, Z.of_nat (length a)) /\
      length out = length a /\ svc_streams st' f' /\
      (forall b, Forall is_byte b -> final_ok algo bs (length b) -> f (a ++ b) = out ++ f' b);
  svc_final_streams : forall st f a dlen,
    svc_streams st f -> Forall is_byte a -> final_ok algo bs (length a) -> Z.of_nat (length a) <= dlen ->
    exists st', svc_final st a dlen = (TEE_SUCCESS, st', f a, Z.of_nat (length a)) /\ length (f a) = length a;
}.

(** ** The kernel *)

Section kernel.
Context {BC : BlockCipher} {BL : BlockCipherLaws BC}.

#[export] Instance kernel_svc : CipherSvc := {|
  svc_state := tee_cryp_state;
  svc_init := syscall_cipher_init;
  svc_update := syscall_cipher_update;
  svc_final := syscall_cipher_final;
|}.

(** The modes as functions of a whole message. *)
Definition ecb_whole (dec : bool) (k : bc_key) (d : bytes) : bytes :=
  ecb_loop (if dec then bc_decrypt k else bc_encrypt k) (length d / bc_len) d.
Definition cbc_whole (dec : bool) (k : bc_key) (iv d : bytes) : bytes :=
  ((if dec then cbc_decrypt_loop else cbc_encrypt_loop) k (length d / bc_len)%nat iv d).1.
Definition cts_whole (dec : bool) (k : bc_key) (iv d : bytes) : bytes :=
  (if dec then cts_decrypt else cts_encrypt) k iv d.

Definition ecb_algos : list Z := [TEE_ALG_AES_ECB_NOPAD; TEE_ALG_DES_ECB_NOPAD; TEE_ALG_DES3_ECB_NOPAD; TEE_ALG_SM4_ECB_NOPAD].
Definition cbc_algos : list Z := [TEE_ALG_AES_CBC_NOPAD; TEE_ALG_DES_CBC_NOPAD; TEE_ALG_DES3_CBC_NOPAD; TEE_ALG_SM4_CBC_NOPAD].

(** The direction of a mode. *)
Definition dir (mode : Z) : bool := negb (mode =? TEE_MODE_ENCRYPT).

(** The state of a context that has been set up, and what it computes. *)
Inductive ctx_streams (algo mode : Z) : cipher_ctx -> (bytes -> bytes) -> Prop :=
| StreamsEcb k : algo ∈ ecb_algos ->
    ctx_streams algo mode (CtxEcb (mk_ltc_ecb (dir mode) (Some (mk_ecb k)))) (ecb_whole (dir mode) k)
| StreamsCbc k iv : algo ∈ cbc_algos -> is_block iv ->
    ctx_streams algo mode (CtxCbc (mk_ltc_cbc (dir mode) (Some (mk_cbc k iv)))) (cbc_whole (dir mode) k iv)
| StreamsCts k iv : algo = TEE_ALG_AES_CTS -> is_block iv ->
    ctx_streams algo mode
      (CtxCts (mk_cts (mk_ltc_ecb (dir mode) (Some (mk_ecb k))) (mk_ltc_cbc (dir mode) (Some (mk_cbc k iv))) mode))
      (cts_whole (dir mode) k iv).

Definition mode_ok (mode : Z) : Prop := mode = TEE_MODE_ENCRYPT \/ mode = TEE_MODE_DECRYPT.

Definition kernel_streams (algo : Z) (cs : tee_cryp_state) (f : bytes -> bytes) : Prop :=
  cs_algo cs = algo /\ cs_initialized cs = true /\ mode_ok (cs_mode cs) /\
  ctx_streams algo (cs_mode cs) (cs_ctx cs) f.

(** *** Length checks *)

Lemma len_check_blocks algo mode last len :
  mode_ok mode -> tee_cipher_get_block_size algo = Some bc_len -> (len mod bc_len = 0)%nat ->
  cipher_len_check algo mode last len = TEE_SUCCESS.
Proof.
  intros Hm Ha Hl. unfold cipher_len_check. rewrite Ha, Hl.
  destruct Hm as [-> | ->]; done.
Qed.

Lemma len_check_cts_last mode len :
  mode_ok mode -> cipher_len_check TEE_ALG_AES_CTS mode true len = TEE_SUCCESS.
Proof.
  intros Hm. unfold cipher_len_check. change (tee_cipher_get_block_size TEE_ALG_AES_CTS) with (Some 16%nat).
  destruct Hm as [-> | ->]; cbn; by destruct (Nat.eqb _ 0).
Qed.

(** *** The contexts *)

Lemma blocks_of_mod len : (len mod bc_len = 0)%nat -> len = (len / bc_len * bc_len)%nat.
Proof. pose proof bc_len_pos. intros H0. pose proof (Nat.div_mod len bc_len ltac:(lia)). lia. Qed.

Lemma div_app_blocks (a b : bytes) : (length a mod bc_len = 0)%nat ->
  (length (a ++ b) / bc_len = length a / bc_len + length b / bc_len)%nat.
Proof.
  pose proof bc_len_pos. intros Ha. rewrite length_app. rewrite (blocks_of_mod (length a) Ha) at 1.
  rewrite Nat.div_add_l by lia. done.
Qed.

Definition cbc_next (dec : bool) (k : bc_key) (iv d : bytes) : bytes :=
  ((if dec then cbc_decrypt_loop else cbc_encrypt_loop) k (length d / bc_len)%nat iv d).2.

Lemma ltc_cbc_update_blocks dec k iv d : (length d mod bc_len = 0)%nat ->
  ltc_cbc_update (mk_ltc_cbc dec (Some (mk_cbc k iv))) d =
  (TEE_SUCCESS, mk_ltc_cbc dec (Some (mk_cbc k (cbc_next dec k iv d))), cbc_whole dec k iv d).
Proof.
  intros Hd. unfold ltc_cbc_update, cbc_next, cbc_whole. destruct dec; cbn [lc_state lc_decrypt mbind option_bind];
    unfold cbc_decrypt, cbc_encrypt; rewrite Hd; cbn [Nat.eqb cbc_key cbc_IV].
  - by destruct (cbc_decrypt_loop _ _ _ _).
  - by destruct (cbc_encrypt_loop _ _ _ _).
Qed.

Lemma ltc_ecb_update_blocks dec k d : (length d mod bc_len = 0)%nat ->
  ltc_ecb_update (mk_ltc_ecb dec (Some (mk_ecb k))) d = (TEE_SUCCESS, ecb_whole dec k d).
Proof.
  intros Hd. unfold ltc_ecb_update, ecb_whole. destruct dec; cbn [le_state le_decrypt mbind option_bind];
    unfold ecb_decrypt, ecb_encrypt; by rewrite Hd.
Qed.

Lemma cbc_whole_bytes dec k iv d : is_block iv -> Forall is_byte d -> (length d mod bc_len = 0)%nat ->
  length (cbc_whole dec k iv d) = length d /\ Forall is_byte (cbc_whole dec k iv d) /\ is_block (cbc_next dec k iv d).
Proof.
  intros Hiv Hb Hd. pose proof (blocks_of_mod _ Hd) as Hl. unfold cbc_whole, cbc_next. destruct dec.
  - destruct (cbc_decrypt_loop_bytes k (length d / bc_len) iv d Hiv Hl Hb) as (? & ? & ?). split; [lia | done].
  - destruct (cbc_encrypt_loop_bytes k (length d / bc_len) iv d Hiv Hl Hb) as (? & ? & ?). split; [lia | done].
Qed.

Lemma cbc_whole_app dec k iv a b : (length a mod bc_len = 0)%nat ->
  cbc_whole dec k iv (a ++ b) = cbc_whole dec k iv a ++ cbc_whole dec k (cbc_next dec k iv a) b.
Proof.
  intros Ha. pose proof (blocks_of_mod _ Ha) as Hl. unfold cbc_whole, cbc_next.
  rewrite div_app_blocks by done. destruct dec.
  - rewrite cbc_decrypt_loop_app by done. destruct (cbc_decrypt_loop k _ iv a) as [o1 iv1]. cbn.
    by destruct (cbc_decrypt_loop k _ iv1 b).
  - rewrite cbc_encrypt_loop_app by done. destruct (cbc_encrypt_loop k _ iv a) as [o1 iv1]. cbn.
    by destruct (cbc_encrypt_loop k _ iv1 b).
Qed.

Lemma ecb_whole_length dec k d : Forall is_byte d -> (length d mod bc_len = 0)%nat -> length (ecb_whole dec k d) = length d.
Proof.
  intros Hb Hd. pose proof (blocks_of_mod _ Hd) as Hl. unfold ecb_whole.
  destruct (ecb_loop_bytes (if dec then bc_decrypt k else bc_encrypt k) (length d / bc_len) d) as [E _]; [|done|done|lia].
  intros b Hblk. destruct dec; [by apply bc_decrypt_block | by apply bc_encrypt_block].
Qed.

Lemma ecb_whole_app dec k a b : (length a mod bc_len = 0)%nat ->
  ecb_whole dec k (a ++ b) = ecb_whole dec k a ++ ecb_whole dec k b.
Proof.
  intros Ha. pose proof (blocks_of_mod _ Ha) as Hl. unfold ecb_whole.
  rewrite div_app_blocks by done. by rewrite ecb_loop_app.
Qed.

(** *** Ciphertext stealing in the kernel is CBC-CS3 *)

Lemma do_cbc_update_blocks mode dec k iv d : mode_ok mode -> bc_len = 16%nat -> (length d mod bc_len = 0)%nat ->
  do_cbc_update mode (mk_ltc_cbc dec (Some (mk_cbc k iv))) d =
  (TEE_SUCCESS, mk_ltc_cbc dec (Some (mk_cbc k (cbc_next dec k iv d))), cbc_whole dec k iv d).
Proof.
  intros Hm Hbs Hd. unfold do_cbc_update. rewrite (len_check_blocks TEE_ALG_AES_CBC_NOPAD) by (done || by rewrite Hbs).
  cbn [negb Z.eqb]. by apply ltc_cbc_update_blocks.
Qed.

Lemma mod_block (d : bytes) n : length d = (n * bc_len)%nat -> (length d mod bc_len = 0)%nat.
Proof. intros ->. by apply Nat.Div0.mod_mul. Qed.

Lemma cbc_whole_loop dec k iv d n : length d = (n * bc_len)%nat ->
  cbc_whole dec k iv d = ((if dec then cbc_decrypt_loop else cbc_encrypt_loop) k n iv d).1 /\
  cbc_next dec k iv d = ((if dec then cbc_decrypt_loop else cbc_encrypt_loop) k n iv d).2.
Proof.
  pose proof bc_len_pos. intros Hd. unfold cbc_whole, cbc_next.
  replace (length d / bc_len)%nat with n; [done|]. rewrite Hd. symmetry. apply Nat.div_mul. lia.
Qed.

(** The numbers of [cbc_cts_update] for data in the form of [cts_split]. *)
Lemma cts_numbers n (p x t : bytes) :
  bc_len = 16%nat -> length p = (n * bc_len)%nat -> length x = bc_len -> (0 < length t <= bc_len)%nat ->
  ((length (p ++ x ++ t) + 16 - 1) / 16 = n + 2)%nat /\
  (let r := (length (p ++ x ++ t) mod 16)%nat in if Nat.eqb r 0 then 16%nat else r) = length t.
Proof.
  intros Hbs Hp Hx Ht. rewrite (data_lengths n) by done. split.
  - rewrite <- (nblocks_split n (length t)) by done. unfold nblocks. by rewrite Hbs.
  - rewrite Hbs in *. cbv zeta. destruct (Nat.eq_dec (length t) 16) as [E | E].
    + rewrite E. replace (n * 16 + (16 + 16))%nat with ((n + 2) * 16)%nat by lia.
      by rewrite Nat.Div0.mod_mul.
    + replace (n * 16 + (16 + length t))%nat with (length t + (n + 1) * 16)%nat by lia.
      rewrite Nat.Div0.mod_add, Nat.mod_small by lia.
      destruct (Nat.eqb_spec (length t) 0); [lia | done].
Qed.

Lemma cts_slices n (p x t : bytes) :
  bc_len = 16%nat -> length p = (n * bc_len)%nat -> length x = bc_len ->
  drop ((n + 2 - 1) * 16) (p ++ x ++ t) = t /\ take ((n + 2 - 1) * 16) (p ++ x ++ t) = p ++ x /\
  take ((n + 2 - 2) * 16) (p ++ x ++ t) = p /\ take 16 (drop ((n + 2 - 2) * 16) (p ++ x ++ t)) = x.
Proof.
  intros Hbs Hp Hx. rewrite Hbs in *. replace (n + 2 - 2)%nat with n by lia.
  rewrite (app_assoc p x t) at 1 2.
  rewrite (drop_app_length' (p ++ x)), (take_app_length' (p ++ x)) by (rewrite length_app; lia).
  rewrite (take_app_length' p), (drop_app_length' p), (take_app_length' x) by done. done.
Qed.

Lemma cts_encrypt_last k iv data :
  bc_len = 16%nat -> is_block iv -> Forall is_byte data -> (bc_len < length data)%nat ->
  exists c', cbc_cts_update (mk_cts (mk_ltc_ecb false (Some (mk_ecb k))) (mk_ltc_cbc false (Some (mk_cbc k iv))) TEE_MODE_ENCRYPT) true data =
    (TEE_SUCCESS, c', cts_encrypt k iv data).
Proof.
  intros Hbs Hiv Hb Hl. destruct (cts_split data Hl) as (n & p & x & t & -> & Hp & Hx & Ht).
  destruct (cts_numbers n p x t Hbs Hp Hx Ht) as [N1 N2]. destruct (cts_slices n p x t Hbs Hp Hx) as (S1 & S2 & _ & _).
  rewrite (cts_encrypt_split k iv n) by done.
  apply Forall_app in Hb as [Hbp Hb]. apply Forall_app in Hb as [Hbx Hbt].
  unfold cbc_cts_update. cbv beta zeta in N2 |- *. rewrite N1, N2, S1, S2. cbn [ct_mode ct_cbc ct_ecb negb].
  destruct (Nat.ltb_spec (n + 2) 2); [lia|]. change (TEE_MODE_ENCRYPT =? TEE_MODE_ENCRYPT) with true. cbv iota.
  assert (Hpx : length (p ++ x) = ((n + 1) * bc_len)%nat) by (rewrite length_app; lia).
  rewrite do_cbc_update_blocks by first [left; done | done | by eapply mod_block].
  destruct (cbc_whole_loop false k iv _ _ Hpx) as [-> ->].
  rewrite (take_ge t) by lia. replace (16 - length t)%nat with (bc_len - length t)%nat by lia. fold (pad_block t).
  rewrite (cbc_encrypt_loop_app k n 1) by done. destruct (cbc_encrypt_loop_bytes k n iv p Hiv Hp Hbp) as (L1 & _ & L3).
  destruct (cbc_encrypt_loop k n iv p) as [o iv1]. cbn [fst snd cbc_encrypt_loop] in *. rewrite (take_ge x) by lia.
  destruct (bc_encrypt_block k (xor_bytes iv1 x)) as [C1 C2]; [by apply is_block_xor|].
  set (c1 := bc_encrypt k (xor_bytes iv1 x)) in *. cbn [negb Z.eqb TEE_SUCCESS].
  assert (Hpad : length (pad_block t) = (1 * bc_len)%nat) by (unfold pad_block; rewrite length_app, length_replicate; lia).
  rewrite do_cbc_update_blocks by first [left; done | done | by eapply mod_block].
  destruct (cbc_whole_loop false k c1 _ _ Hpad) as [-> ->]. cbn [cbc_encrypt_loop fst snd negb Z.eqb].
  rewrite (take_ge (pad_block t)), !app_nil_r by lia. eexists.
  replace ((n + 2 - 2) * 16)%nat with (length o) by lia.
  by rewrite take_app_length, drop_app_length.
Qed.

Lemma cts_decrypt_last k iv data :
  bc_len = 16%nat -> is_block iv -> Forall is_byte data -> (bc_len < length data)%nat ->
  exists c', cbc_cts_update (mk_cts (mk_ltc_ecb true (Some (mk_ecb k))) (mk_ltc_cbc true (Some (mk_cbc k iv))) TEE_MODE_DECRYPT) true data =
    (TEE_SUCCESS, c', cts_decrypt k iv data).
Proof.
  intros Hbs Hiv Hb Hl. destruct (cts_split data Hl) as (n & p & x & t & -> & Hp & Hx & Ht).
  destruct (cts_numbers n p x t Hbs Hp Hx Ht) as [N1 N2]. destruct (cts_slices n p x t Hbs Hp Hx) as (S1 & _ & S3 & S4).
  rewrite (cts_decrypt_split k iv n) by done.
  apply Forall_app in Hb as [Hbp Hb]. apply Forall_app in Hb as [Hbx Hbt].
  unfold cbc_cts_update. cbv beta zeta in N2 |- *. rewrite N1, N2, S1, S3, S4. cbn [ct_mode ct_cbc ct_ecb negb].
  destruct (Nat.ltb_spec (n + 2) 2); [lia|]. change (TEE_MODE_DECRYPT =? TEE_MODE_ENCRYPT) with false. cbv iota.
  assert (Hx1 : length x = (1 * bc_len)%nat) by lia.
  unfold do_ecb_update. rewrite (len_check_blocks TEE_ALG_AES_ECB_NOPAD)
    by first [right; done | by rewrite Hbs | by eapply mod_block].
  cbn [negb Z.eqb TEE_SUCCESS]. rewrite ltc_ecb_update_blocks by (by eapply mod_block).
  unfold ecb_whole. rewrite Hx, Nat.div_same by (pose proof bc_len_pos; lia). cbn [ecb_loop].
  rewrite (take_ge x), app_nil_r by lia. cbn [negb Z.eqb TEE_SUCCESS].
  destruct (bc_decrypt_block k x (conj Hx Hbx)) as [D1 D2].
  rewrite (take_ge t), (take_ge (drop (length t) (bc_decrypt k x))) by (rewrite ?length_drop; lia).
  set (y := t ++ drop (length t) (bc_decrypt k x)).
  assert (Hy : length y = (1 * bc_len)%nat) by (unfold y; rewrite length_app, length_drop; lia).
  assert (Hfirst : (if (2 <? n + 2)%nat
     then do_cbc_update TEE_MODE_DECRYPT (mk_ltc_cbc true (Some (mk_cbc k iv))) p
     else (TEE_SUCCESS, mk_ltc_cbc true (Some (mk_cbc k iv)), [])) =
     (TEE_SUCCESS, mk_ltc_cbc true (Some (mk_cbc k (cbc_decrypt_loop k n iv p).2)), (cbc_decrypt_loop k n iv p).1)).
  { destruct (Nat.ltb_spec 2 (n + 2)).
    - rewrite do_cbc_update_blocks by first [right; done | done | by eapply mod_block].
      by destruct (cbc_whole_loop true k iv _ _ Hp) as [-> ->].
    - replace n with 0%nat in * by lia. by destruct p. }
  rewrite Hfirst. destruct (cbc_decrypt_loop_bytes k n iv p Hiv Hp Hbp) as (L1 & _ & L3).
  destruct (cbc_decrypt_loop k n iv p) as [o iv1]. cbn [fst snd negb Z.eqb] in *.
  rewrite do_cbc_update_blocks by first [right; done | done | by eapply mod_block].
  destruct (cbc_whole_loop true k iv1 _ _ Hy) as [-> ->]. cbn [cbc_decrypt_loop fst snd negb Z.eqb].
  rewrite do_cbc_update_blocks by first [right; done | done | by eapply mod_block].
  destruct (cbc_whole_loop true k (take bc_len y) _ _ Hx1) as [-> ->]. cbn [cbc_decrypt_loop fst snd negb Z.eqb].
  rewrite (take_ge y), (take_ge x), !app_nil_r by lia. by eexists.
Qed.

(** *** The system calls keep the interface *)

Lemma block_algo_not_cts algo : algo ∈ ecb_algos ++ cbc_algos -> (algo =? TEE_ALG_AES_CTS) = false.
Proof.
  intros H. apply Z.eqb_neq. intros ->. cbn in H. apply list_elem_of_In in H. cbn in H.
  repeat destruct H as [H | H]; done.
Qed.

Lemma ctx_update_streams algo mode ctx f a :
  tee_cipher_get_block_size algo = Some bc_len -> mode_ok mode -> ctx_streams algo mode ctx f ->
  Forall is_byte a -> (length a mod bc_len = 0)%nat ->
  exists ctx' out f', tee_do_cipher_update ctx algo mode false a = (TEE_SUCCESS, ctx', out) /\
    length out = length a /\ ctx_streams algo mode ctx' f' /\
    (forall b, Forall is_byte b -> final_ok algo bc_len (length b) -> f (a ++ b) = out ++ f' b).
Proof.
  intros Hbs Hm Hs Hb Ha. unfold tee_do_cipher_update. rewrite len_check_blocks by done. cbn [negb Z.eqb TEE_SUCCESS].
  destruct Hs as [k Hal | k iv Hal Hiv | k iv -> Hiv]; cbn [crypto_cipher_update].
  - rewrite ltc_ecb_update_blocks by done. do 3 eexists. split; [done|]. split; [by apply ecb_whole_length|].
    split; [by constructor|]. intros b Hbb _. by apply ecb_whole_app.
  - rewrite ltc_cbc_update_blocks by done. destruct (cbc_whole_bytes (dir mode) k iv a Hiv Hb Ha) as (L1 & L2 & L3).
    do 3 eexists. split; [done|]. split; [done|]. split; [by constructor|]. intros b Hbb _. by apply cbc_whole_app.
  - injection Hbs as Hbs. symmetry in Hbs. unfold cbc_cts_update. cbn [negb ct_mode ct_cbc ct_ecb].
    rewrite do_cbc_update_blocks by done. destruct (cbc_whole_bytes (dir mode) k iv a Hiv Hb Ha) as (L1 & L2 & L3).
    do 3 eexists. split; [done|]. split; [done|]. split; [by constructor|]. intros b Hbb Hok. cbn in Hok.
    pose proof (blocks_of_mod _ Ha) as Hl. unfold cts_whole, cbc_whole, cbc_next.
    assert (Forall is_byte (a ++ b)) by (by apply Forall_app).
    destruct (dir mode); [by apply cts_decrypt_app | by apply cts_encrypt_app].
Qed.

Lemma ctx_final_streams algo mode ctx f a :
  tee_cipher_get_block_size algo = Some bc_len -> mode_ok mode -> ctx_streams algo mode ctx f ->
  Forall is_byte a -> final_ok algo bc_len (length a) ->
  length (f a) = length a /\ exists ctx', tee_do_cipher_update ctx algo mode true a = (TEE_SUCCESS, ctx', f a).
Proof.
  intros Hbs Hm Hs Hb Ha. unfold tee_do_cipher_update.
  destruct Hs as [k Hal | k iv Hal Hiv | k iv -> Hiv]; cbn [crypto_cipher_update].
  - unfold final_ok in Ha. rewrite block_algo_not_cts in Ha by (by apply elem_of_app; left).
    rewrite len_check_blocks by done. cbn [negb Z.eqb TEE_SUCCESS]. rewrite ltc_ecb_update_blocks by done.
    split; [by apply ecb_whole_length | by eexists].
  - unfold final_ok in Ha. rewrite block_algo_not_cts in Ha by (by apply elem_of_app; right).
    rewrite len_check_blocks by done. cbn [negb Z.eqb TEE_SUCCESS]. rewrite ltc_cbc_update_blocks by done.
    split; [by apply cbc_whole_bytes | by eexists].
  - cbn in Ha. injection Hbs as Hbs. symmetry in Hbs. rewrite len_check_cts_last by done. cbn [negb Z.eqb TEE_SUCCESS].
    destruct Hm as [-> | ->]; unfold cts_whole; cbn [dir TEE_MODE_ENCRYPT TEE_MODE_DECRYPT Z.eqb negb].
    + destruct (cts_encrypt_last k iv a) as [c' ->]; try done. split; [by apply cts_encrypt_bytes | by eexists].
    + destruct (cts_decrypt_last k iv a) as [c' ->]; try done. split; [by apply cts_decrypt_length | by eexists].
Qed.

Lemma final_ok_nil_stream algo mode ctx f : tee_cipher_get_block_size algo = Some bc_len -> mode_ok mode ->
  ctx_streams algo mode ctx f -> final_ok algo bc_len 0 -> f [] = [].
Proof.
  intros Hbs Hm Hs Hok. destruct (ctx_final_streams algo mode ctx f [] Hbs Hm Hs) as [Hl _]; [constructor | done|].
  by destruct (f []).
Qed.

#[export] Program Instance kernel_stream_svc algo (Hbs : tee_cipher_get_block_size algo = Some bc_len) :
  StreamSvc kernel_svc algo bc_len := {| svc_streams := kernel_streams algo |}.
Next Obligation.
  intros algo Hbs cs f a dlen (Hal & Hi & Hm & Hs) Hb Ha Hd.
  cbn [svc_update kernel_svc]. unfold syscall_cipher_update, tee_svc_cipher_update_helper. rewrite Hi. cbn [negb].
  destruct (Z.ltb_spec dlen (Z.of_nat (length a))); [lia|]. subst algo.
  destruct (Z.ltb_spec 0 (Z.of_nat (length a))) as [Hpos | Hz].
  - destruct (ctx_update_streams _ _ _ _ _ Hbs Hm Hs Hb Ha) as (ctx' & out & f' & -> & Hlen & Hs' & Happ).
    do 3 eexists. split; [done|]. done.
  - destruct a; [|cbn in Hz; lia]. do 3 eexists. split; [done|]. done.
Qed.
Next Obligation.
  intros algo Hbs cs f a dlen (Hal & Hi & Hm & Hs) Hb Ha Hd.
  cbn [svc_final kernel_svc]. unfold syscall_cipher_final, tee_svc_cipher_update_helper. rewrite Hi. cbn [negb].
  destruct (Z.ltb_spec dlen (Z.of_nat (length a))); [lia|]. subst algo.
  destruct (ctx_final_streams _ _ _ _ _ Hbs Hm Hs Hb Ha) as [Hlen [ctx' Hctx]].
  destruct (Z.ltb_spec 0 (Z.of_nat (length a))) as [Hpos | Hz].
  - rewrite Hctx. by eexists.
  - destruct a; [|cbn in Hz; lia]. rewrite (final_ok_nil_stream _ _ _ _ Hbs Hm Hs Ha). by eexists.
Qed.

(** Setting up: with a key that the cipher takes and a vector of one block. *)
Definition whole (ctx : cipher_ctx) (mode : Z) (k : bc_key) (iv : bytes) : bytes -> bytes :=
  match ctx with
  | CtxEcb _ => ecb_whole (dir mode) k
  | CtxCbc _ => cbc_whole (dir mode) k iv
  | CtxCts _ => cts_whole (dir mode) k iv
  end.

(** The context allocated for an algorithm. *)
Definition ctx_for (algo : Z) (ctx : cipher_ctx) : Prop :=
  match ctx with
  | CtxEcb _ => algo ∈ ecb_algos
  | CtxCbc _ => algo ∈ cbc_algos
  | CtxCts _ => algo = TEE_ALG_AES_CTS
  end.

Lemma algo_class algo ctx : ctx_for algo ctx -> TEE_ALG_GET_CLASS algo = TEE_OPERATION_CIPHER.
Proof.
  destruct ctx; cbn; [| | by intros ->];
    rewrite list_elem_of_In; cbn; intros H; repeat destruct H as [<- | H]; done.
Qed.

Lemma kernel_init_streams cs key k iv :
  ctx_for (cs_algo cs) (cs_ctx cs) -> mode_ok (cs_mode cs) -> cs_key1 cs = Some (true, key) ->
  (forall b, cs_key2 cs = Some b -> b.1 = true) -> bc_setup key = Some k -> is_block iv ->
  exists cs', syscall_cipher_init cs iv = (TEE_SUCCESS, cs') /\
    kernel_streams (cs_algo cs) cs' (whole (cs_ctx cs) (cs_mode cs) k iv).
Proof.
  intros Hctx Hm Hk1 Hk2 Hset Hiv. unfold syscall_cipher_init. rewrite (algo_class _ _ Hctx), Hk1. cbn [negb Z.eqb TEE_OPERATION_CIPHER Pos.eqb].
  assert (Hinit : exists ctx', crypto_cipher_init (cs_ctx cs) (cs_mode cs) key iv = (TEE_SUCCESS, ctx') /\
    ctx_streams (cs_algo cs) (cs_mode cs) ctx' (whole (cs_ctx cs) (cs_mode cs) k iv)).
  { unfold crypto_cipher_init.
    replace (negb (cs_mode cs =? TEE_MODE_DECRYPT) && negb (cs_mode cs =? TEE_MODE_ENCRYPT)) with false
      by (destruct Hm as [-> | ->]; done).
    destruct (cs_ctx cs) as [c | c | c]; cbn [ctx_for whole] in *.
    - unfold ltc_ecb_init. rewrite Hset. eexists. split; [done|]. by constructor.
    - unfold ltc_cbc_init. rewrite Hset, (proj1 Hiv), Nat.eqb_refl. eexists. split; [done|]. by constructor.
    - unfold cts_init, ltc_ecb_init, ltc_cbc_init. rewrite Hset, (proj1 Hiv), Nat.eqb_refl. eexists. split; [done|]. by constructor. }
  destruct Hinit as (ctx' & Hi & Hs).
  assert (Hres : exists cs', match cs_key2 cs with
      | Some (false, _) => (TEE_ERROR_BAD_PARAMETERS, cs)
      | _ => let '(res, ctx) := crypto_cipher_init (cs_ctx cs) (cs_mode cs) key iv in
          let fin := res =? TEE_SUCCESS in
          (res, mk_cs (cs_algo cs) (cs_mode cs) (Some (true, key)) (cs_key2 cs) ctx (fin || cs_ctx_finalize cs) (fin || cs_initialized cs))
      end = (TEE_SUCCESS, cs') /\ kernel_streams (cs_algo cs) cs' (whole (cs_ctx cs) (cs_mode cs) k iv)).
  { rewrite Hi. destruct (cs_key2 cs) as [[[|] kk] | ] eqn:E2; [| by specialize (Hk2 _ eq_refl) |];
      eexists; (split; [done|]); done. }
  exact Hres.
Qed.
End kernel.
