(* ===== verification/TeeOp.v ===== *)
(** * Cryptographic operations of the trusted applications

    [libutee/tee_api_operations.c]: the objects behind [TEE_OperationHandle], their
    allocation, keys and states, the buffering of data into blocks, and the functions on
    digests, ciphers, message authentication codes and authenticated encryption. The
    system calls are an interface: [CipherSvc] for ciphers, and one for each of keys,
    hashes and authenticated encryption. [Panic] is [TEE_Panic], or an access outside of
    the operation's buffer or of the data. *)

From S2P Require Import Prelude Cipher CipherSvc.
From stdpp Require Import base list.
From Stdlib Require Import ZArith Lia.

Local Open Scope Z_scope.

(** ** Algorithms *)

Definition TEE_ALG_DSA_SHA1 : Z := 0x70002131.
Definition TEE_ALG_DSA_SHA224 : Z := 0x70003131.
Definition TEE_ALG_DSA_SHA256 : Z := 0x70004131.
Definition TEE_ALG_ECDSA_P192 : Z := 0x70001041.
Definition TEE_ALG_ECDH_P192 : Z := 0x80001042.
Definition TEE_ALG_ECDSA_P224 : Z := 0x70002041.
Definition TEE_ALG_ECDH_P224 : Z := 0x80002042.
Definition TEE_ALG_ECDSA_P256 : Z := 0x70003041.
Definition TEE_ALG_ECDH_P256 : Z := 0x80003042.
Definition TEE_ALG_SM2_DSA_SM3 : Z := 0x70006045.
Definition TEE_ALG_ECDSA_P384 : Z := 0x70004041.
Definition TEE_ALG_ECDH_P384 : Z := 0x80004042.
Definition TEE_ALG_ECDSA_P521 : Z := 0x70005041.
Definition TEE_ALG_ECDH_P521 : Z := 0x80005042.
Definition TEE_ALG_RSASSA_PKCS1_V1_5_MD5 : Z := 0x70001830.
Definition TEE_ALG_RSASSA_PKCS1_V1_5_SHA1 : Z := 0x70002830.
Definition TEE_ALG_RSASSA_PKCS1_V1_5_SHA224 : Z := 0x70003830.
Definition TEE_ALG_RSASSA_PKCS1_V1_5_SHA256 : Z := 0x70004830.
Definition TEE_ALG_RSASSA_PKCS1_V1_5_SHA384 : Z := 0x70005830.
Definition TEE_ALG_RSASSA_PKCS1_V1_5_SHA512 : Z := 0x70006830.
Definition TEE_ALG_RSASSA_PKCS1_PSS_MGF1_SHA1 : Z := 0x70212930.
Definition TEE_ALG_RSASSA_PKCS1_PSS_MGF1_SHA224 : Z := 0x70313930.
Definition TEE_ALG_RSASSA_PKCS1_PSS_MGF1_SHA256 : Z := 0x70414930.
Definition TEE_ALG_RSASSA_PKCS1_PSS_MGF1_SHA384 : Z := 0x70515930.
Definition TEE_ALG_RSASSA_PKCS1_PSS_MGF1_SHA512 : Z := 0x70616930.
Definition TEE_ALG_RSAES_PKCS1_V1_5 : Z := 0x60000130.
Definition TEE_ALG_RSAES_PKCS1_OAEP_MGF1_SHA1 : Z := 0x60210230.
Definition TEE_ALG_RSAES_PKCS1_OAEP_MGF1_SHA224 : Z := 0x60310230.
Definition TEE_ALG_RSAES_PKCS1_OAEP_MGF1_SHA256 : Z := 0x60410230.
Definition TEE_ALG_RSAES_PKCS1_OAEP_MGF1_SHA384 : Z := 0x60510230.
Definition TEE_ALG_RSAES_PKCS1_OAEP_MGF1_SHA512 : Z := 0x60610230.
Definition TEE_ALG_RSA_NOPAD : Z := 0x60000030.
Definition TEE_ALG_DH_DERIVE_SHARED_SECRET : Z := 0x80000032.
Definition TEE_ALG_HKDF_MD5_DERIVE_KEY : Z := 0x800010C0.
Definition TEE_ALG_HKDF_SHA1_DERIVE_KEY : Z := 0x800020C0.
Definition TEE_ALG_HKDF_SHA224_DERIVE_KEY : Z := 0x800030C0.
Definition TEE_ALG_HKDF_SHA256_DERIVE_KEY : Z := 0x800040C0.
Definition TEE_ALG_HKDF_SHA384_DERIVE_KEY : Z := 0x800050C0.
Definition TEE_ALG_HKDF_SHA512_DERIVE_KEY : Z := 0x800060C0.
Definition TEE_ALG_CONCAT_KDF_SHA1_DERIVE_KEY : Z := 0x800020C1.
Definition TEE_ALG_CONCAT_KDF_SHA224_DERIVE_KEY : Z := 0x800030C1.
Definition TEE_ALG_CONCAT_KDF_SHA256_DERIVE_KEY : Z := 0x800040C1.
Definition TEE_ALG_CONCAT_KDF_SHA384_DERIVE_KEY : Z := 0x800050C1.
Definition TEE_ALG_CONCAT_KDF_SHA512_DERIVE_KEY : Z := 0x800060C1.
Definition TEE_ALG_PBKDF2_HMAC_SHA1_DERIVE_KEY : Z := 0x800020C2.
Definition TEE_ALG_MD5 : Z := 0x50000001.
Definition TEE_ALG_SHA1 : Z := 0x50000002.
Definition TEE_ALG_SHA224 : Z := 0x50000003.
Definition TEE_ALG_SHA256 : Z := 0x50000004.
Definition TEE_ALG_SHA384 : Z := 0x50000005.
Definition TEE_ALG_SHA512 : Z := 0x50000006.
Definition TEE_ALG_SM3 : Z := 0x50000007.
Definition TEE_ALG_HMAC_MD5 : Z := 0x30000001.
Definition TEE_ALG_HMAC_SHA1 : Z := 0x30000002.
Definition TEE_ALG_HMAC_SHA224 : Z := 0x30000003.
Definition TEE_ALG_HMAC_SHA256 : Z := 0x30000004.
Definition TEE_ALG_HMAC_SHA384 : Z := 0x30000005.
Definition TEE_ALG_HMAC_SHA512 : Z := 0x30000006.
Definition TEE_ALG_HMAC_SM3 : Z := 0x30000007.

Definition TEE_MODE_SIGN : Z := 2.
Definition TEE_MODE_VERIFY : Z := 3.
Definition TEE_MODE_MAC : Z := 4.
Definition TEE_MODE_DIGEST : Z := 5.
Definition TEE_MODE_DERIVE : Z := 6.

Definition TEE_USAGE_ENCRYPT : Z := 0x00000002.
Definition TEE_USAGE_DECRYPT : Z := 0x00000004.
Definition TEE_USAGE_MAC : Z := 0x00000008.
Definition TEE_USAGE_SIGN : Z := 0x00000010.
Definition TEE_USAGE_VERIFY : Z := 0x00000020.
Definition TEE_USAGE_DERIVE : Z := 0x00000040.

Definition TEE_HANDLE_FLAG_INITIALIZED : Z := 0x00020000.
Definition TEE_HANDLE_FLAG_KEY_SET : Z := 0x00040000.
Definition TEE_HANDLE_FLAG_EXPECT_TWO_KEYS : Z := 0x00080000.

Definition TEE_OPERATION_STATE_INITIAL : Z := 0.
Definition TEE_OPERATION_STATE_ACTIVE : Z := 1.

Definition TEE_ERROR_STORAGE_NOT_AVAILABLE : Z := 0xF0100003.
Definition TEE_ERROR_CORRUPT_OBJECT_2 : Z := 0xF0100002.
Definition TEE_ERROR_STORAGE_NOT_AVAILABLE_2 : Z := 0xF0100004.

Definition TEE_AES_BLOCK_SIZE : Z := 16.
Definition TEE_DES_BLOCK_SIZE : Z := 8.
Definition TEE_SM4_BLOCK_SIZE : Z := 16.
Definition TEE_MAIN_ALGO_AES : Z := 0x10.
Definition TEE_MAIN_ALGO_SM4 : Z := 0x14.
Definition TEE_MAX_HASH_SIZE : Z := 64.

Definition TEE_ALG_GET_MAIN_ALG (algo : Z) : Z :=
  if algo =? TEE_ALG_SM2_PKE then 0x47 else if algo =? TEE_ALG_SM2_KEP then 0x46 else Z.land algo 0xff.

Definition TEE_ALG_GET_DIGEST_SIZE (algo : Z) : Z :=
  if one_of algo [TEE_ALG_MD5; TEE_ALG_HMAC_MD5] then 16
  else if one_of algo [TEE_ALG_SHA1; TEE_ALG_HMAC_SHA1; TEE_ALG_DSA_SHA1] then 20
  else if one_of algo [TEE_ALG_SHA224; TEE_ALG_HMAC_SHA224; TEE_ALG_DSA_SHA224] then 28
  else if one_of algo [TEE_ALG_SHA256; TEE_ALG_HMAC_SHA256; TEE_ALG_DSA_SHA256] then 32
  else if one_of algo [TEE_ALG_SHA384; TEE_ALG_HMAC_SHA384] then 48
  else if one_of algo [TEE_ALG_SHA512; TEE_ALG_HMAC_SHA512] then 64
  else if one_of algo [TEE_ALG_SM3; TEE_ALG_HMAC_SM3] then 32
  else if one_of algo [TEE_ALG_AES_CBC_MAC_NOPAD; TEE_ALG_AES_CBC_MAC_PKCS5; TEE_ALG_AES_CMAC] then TEE_AES_BLOCK_SIZE
  else if one_of algo [TEE_ALG_DES_CBC_MAC_NOPAD; TEE_ALG_DES_CBC_MAC_PKCS5; TEE_ALG_DES3_CBC_MAC_NOPAD;
      TEE_ALG_DES3_CBC_MAC_PKCS5; TEE_ALG_DES3_CMAC] then TEE_DES_BLOCK_SIZE
  else 0.

(** The first switch of [TEE_AllocateOperation]: whether the maximal key size is allowed. *)
Definition max_key_size_ok (algorithm maxKeySize : Z) : bool :=
  if algorithm =? TEE_ALG_DSA_SHA1 then (512 <=? maxKeySize) && (maxKeySize <=? 1024) && (maxKeySize mod 64 =? 0)
  else if algorithm =? TEE_ALG_DSA_SHA224 then maxKeySize =? 2048
  else if algorithm =? TEE_ALG_DSA_SHA256 then (maxKeySize =? 2048) || (maxKeySize =? 3072)
  else if one_of algorithm [TEE_ALG_ECDSA_P192; TEE_ALG_ECDH_P192] then maxKeySize =? 192
  else if one_of algorithm [TEE_ALG_ECDSA_P224; TEE_ALG_ECDH_P224] then maxKeySize =? 224
  else if one_of algorithm [TEE_ALG_ECDSA_P256; TEE_ALG_ECDH_P256; TEE_ALG_SM2_PKE; TEE_ALG_SM2_DSA_SM3] then maxKeySize =? 256
  else if algorithm =? TEE_ALG_SM2_KEP then maxKeySize =? 512
  else if one_of algorithm [TEE_ALG_ECDSA_P384; TEE_ALG_ECDH_P384] then maxKeySize =? 384
  else if one_of algorithm [TEE_ALG_ECDSA_P521; TEE_ALG_ECDH_P521] then maxKeySize =? 521
  else true.

(** What the second switch sets; [None] is [TEE_ERROR_NOT_SUPPORTED]. *)
Record alg_params := mk_ap {
  ap_block_size : Z;
  ap_two_blocks : bool;
  ap_req_key_usage : Z;
  ap_with_private_key : bool;
  ap_handle_state : Z;
}.

Definition two_block_algos : list Z := [TEE_ALG_AES_CTS; TEE_ALG_AES_XTS].
Definition block_algos : list Z := two_block_algos ++
  [TEE_ALG_AES_ECB_NOPAD; TEE_ALG_AES_CBC_NOPAD; TEE_ALG_AES_CCM; TEE_ALG_DES_ECB_NOPAD; TEE_ALG_DES_CBC_NOPAD;
   TEE_ALG_DES3_ECB_NOPAD; TEE_ALG_DES3_CBC_NOPAD; TEE_ALG_SM4_ECB_NOPAD; TEE_ALG_SM4_CBC_NOPAD; TEE_ALG_SM4_CTR].

Definition alg_params_of (algorithm mode maxKeySize handle_state : Z) : option alg_params :=
  if one_of algorithm (block_algos ++ [TEE_ALG_AES_CTR; TEE_ALG_AES_GCM]) then
    let block_size :=
      if one_of algorithm block_algos then
        if TEE_ALG_GET_MAIN_ALG algorithm =? TEE_MAIN_ALGO_AES then TEE_AES_BLOCK_SIZE
        else if TEE_ALG_GET_MAIN_ALG algorithm =? TEE_MAIN_ALGO_SM4 then TEE_SM4_BLOCK_SIZE
        else TEE_DES_BLOCK_SIZE
      else 1 in
    let two := one_of algorithm two_block_algos in
    if mode =? TEE_MODE_ENCRYPT then Some (mk_ap block_size two TEE_USAGE_ENCRYPT false handle_state)
    else if mode =? TEE_MODE_DECRYPT then Some (mk_ap block_size two TEE_USAGE_DECRYPT false handle_state)
    else None
  else if one_of algorithm [TEE_ALG_RSASSA_PKCS1_V1_5; TEE_ALG_RSASSA_PKCS1_V1_5_MD5; TEE_ALG_RSASSA_PKCS1_V1_5_SHA1;
      TEE_ALG_RSASSA_PKCS1_V1_5_SHA224; TEE_ALG_RSASSA_PKCS1_V1_5_SHA256; TEE_ALG_RSASSA_PKCS1_V1_5_SHA384;
      TEE_ALG_RSASSA_PKCS1_V1_5_SHA512; TEE_ALG_RSASSA_PKCS1_PSS_MGF1_SHA1; TEE_ALG_RSASSA_PKCS1_PSS_MGF1_SHA224;
      TEE_ALG_RSASSA_PKCS1_PSS_MGF1_SHA256; TEE_ALG_RSASSA_PKCS1_PSS_MGF1_SHA384; TEE_ALG_RSASSA_PKCS1_PSS_MGF1_SHA512;
      TEE_ALG_DSA_SHA1; TEE_ALG_DSA_SHA224; TEE_ALG_DSA_SHA256; TEE_ALG_ECDSA_P192; TEE_ALG_ECDSA_P224; TEE_ALG_ECDSA_P256;
      TEE_ALG_ECDSA_P384; TEE_ALG_ECDSA_P521; TEE_ALG_SM2_DSA_SM3] then
    if mode =? TEE_MODE_SIGN then Some (mk_ap 1 false TEE_USAGE_SIGN true handle_state)
    else if mode =? TEE_MODE_VERIFY then Some (mk_ap 1 false TEE_USAGE_VERIFY false handle_state)
    else None
  else if one_of algorithm [TEE_ALG_RSAES_PKCS1_V1_5; TEE_ALG_RSAES_PKCS1_OAEP_MGF1_SHA1; TEE_ALG_RSAES_PKCS1_OAEP_MGF1_SHA224;
      TEE_ALG_RSAES_PKCS1_OAEP_MGF1_SHA256; TEE_ALG_RSAES_PKCS1_OAEP_MGF1_SHA384; TEE_ALG_RSAES_PKCS1_OAEP_MGF1_SHA512;
      TEE_ALG_SM2_PKE] then
    if mode =? TEE_MODE_ENCRYPT then Some (mk_ap 1 false TEE_USAGE_ENCRYPT false handle_state)
    else if mode =? TEE_MODE_DECRYPT then Some (mk_ap 1 false TEE_USAGE_DECRYPT true handle_state)
    else None
  else if algorithm =? TEE_ALG_RSA_NOPAD then
    if mode =? TEE_MODE_ENCRYPT then Some (mk_ap 1 false (Z.lor TEE_USAGE_ENCRYPT TEE_USAGE_VERIFY) false handle_state)
    else if mode =? TEE_MODE_DECRYPT then Some (mk_ap 1 false (Z.lor TEE_USAGE_DECRYPT TEE_USAGE_SIGN) true handle_state)
    else None
  else if one_of algorithm [TEE_ALG_DH_DERIVE_SHARED_SECRET; TEE_ALG_ECDH_P192; TEE_ALG_ECDH_P224; TEE_ALG_ECDH_P256;
      TEE_ALG_ECDH_P384; TEE_ALG_ECDH_P521; TEE_ALG_HKDF_MD5_DERIVE_KEY; TEE_ALG_HKDF_SHA1_DERIVE_KEY;
      TEE_ALG_HKDF_SHA224_DERIVE_KEY; TEE_ALG_HKDF_SHA256_DERIVE_KEY; TEE_ALG_HKDF_SHA384_DERIVE_KEY;
      TEE_ALG_HKDF_SHA512_DERIVE_KEY; TEE_ALG_CONCAT_KDF_SHA1_DERIVE_KEY; TEE_ALG_CONCAT_KDF_SHA224_DERIVE_KEY;
      TEE_ALG_CONCAT_KDF_SHA256_DERIVE_KEY; TEE_ALG_CONCAT_KDF_SHA384_DERIVE_KEY; TEE_ALG_CONCAT_KDF_SHA512_DERIVE_KEY;
      TEE_ALG_PBKDF2_HMAC_SHA1_DERIVE_KEY; TEE_ALG_SM2_KEP] then
    if negb (mode =? TEE_MODE_DERIVE) then None else Some (mk_ap 1 false TEE_USAGE_DERIVE true handle_state)
  else if one_of algorithm [TEE_ALG_MD5; TEE_ALG_SHA1; TEE_ALG_SHA224; TEE_ALG_SHA256; TEE_ALG_SHA384; TEE_ALG_SHA512; TEE_ALG_SM3] then
    if negb (mode =? TEE_MODE_DIGEST) then None
    else if negb (maxKeySize =? 0) then None
    else Some (mk_ap 1 false 0 false (Z.lor handle_state TEE_HANDLE_FLAG_KEY_SET))
  else if one_of algorithm [TEE_ALG_DES_CBC_MAC_NOPAD; TEE_ALG_AES_CBC_MAC_NOPAD; TEE_ALG_AES_CBC_MAC_PKCS5; TEE_ALG_AES_CMAC;
      TEE_ALG_DES_CBC_MAC_PKCS5; TEE_ALG_DES3_CBC_MAC_NOPAD; TEE_ALG_DES3_CBC_MAC_PKCS5; TEE_ALG_DES3_CMAC; TEE_ALG_HMAC_MD5;
      TEE_ALG_HMAC_SHA1; TEE_ALG_HMAC_SHA224; TEE_ALG_HMAC_SHA256; TEE_ALG_HMAC_SHA384; TEE_ALG_HMAC_SHA512; TEE_ALG_HMAC_SM3] then
    if negb (mode =? TEE_MODE_MAC) then None else Some (mk_ap 1 false TEE_USAGE_MAC false handle_state)
  else None.

(** ** The object behind a handle *)

(** [struct __TEE_OperationHandle]. The keys: whether there is an object. [op_buffer] is
    the array; [None] when none was allocated. *)
Record operation (T : Type) := mk_op {
  op_algorithm : Z;
  op_operationClass : Z;
  op_mode : Z;
  op_digestLength : Z;
  op_maxKeySize : Z;
  op_keySize : Z;
  op_requiredKeyUsage : Z;
  op_handleState : Z;
  op_key1 : bool;
  op_key2 : bool;
  op_operationState : Z;
  op_buffer : option bytes;
  op_two_blocks : bool;
  op_block_size : Z;
  op_buffer_offs : Z;
  op_state : T;
}.
Arguments mk_op {T}.
Arguments op_algorithm {T}.
Arguments op_operationClass {T}.
Arguments op_mode {T}.
Arguments op_digestLength {T}.
Arguments op_maxKeySize {T}.
Arguments op_keySize {T}.
Arguments op_requiredKeyUsage {T}.
Arguments op_handleState {T}.
Arguments op_key1 {T}.
Arguments op_key2 {T}.
Arguments op_operationState {T}.
Arguments op_buffer {T}.
Arguments op_two_blocks {T}.
Arguments op_block_size {T}.
Arguments op_buffer_offs {T}.
Arguments op_state {T}.

Section setters.
Context {T : Type}.
Implicit Types op : operation T.

Definition set_digestLength (x : Z) op : operation T :=
  mk_op (op_algorithm op) (op_operationClass op) (op_mode op) x (op_maxKeySize op) (op_keySize op) (op_requiredKeyUsage op)
    (op_handleState op) (op_key1 op) (op_key2 op) (op_operationState op) (op_buffer op) (op_two_blocks op) (op_block_size op)
    (op_buffer_offs op) (op_state op).
Definition set_keySize (x : Z) op : operation T :=
  mk_op (op_algorithm op) (op_operationClass op) (op_mode op) (op_digestLength op) (op_maxKeySize op) x (op_requiredKeyUsage op)
    (op_handleState op) (op_key1 op) (op_key2 op) (op_operationState op) (op_buffer op) (op_two_blocks op) (op_block_size op)
    (op_buffer_offs op) (op_state op).
Definition set_handleState (x : Z) op : operation T :=
  mk_op (op_algorithm op) (op_operationClass op) (op_mode op) (op_digestLength op) (op_maxKeySize op) (op_keySize op)
    (op_requiredKeyUsage op) x (op_key1 op) (op_key2 op) (op_operationState op) (op_buffer op) (op_two_blocks op)
    (op_block_size op) (op_buffer_offs op) (op_state op).
Definition set_operationState (x : Z) op : operation T :=
  mk_op (op_algorithm op) (op_operationClass op) (op_mode op) (op_digestLength op) (op_maxKeySize op) (op_keySize op)
    (op_requiredKeyUsage op) (op_handleState op) (op_key1 op) (op_key2 op) x (op_buffer op) (op_two_blocks op)
    (op_block_size op) (op_buffer_offs op) (op_state op).
Definition set_buffer (b : option bytes) (offs : Z) op : operation T :=
  mk_op (op_algorithm op) (op_operationClass op) (op_mode op) (op_digestLength op) (op_maxKeySize op) (op_keySize op)
    (op_requiredKeyUsage op) (op_handleState op) (op_key1 op) (op_key2 op) (op_operationState op) b (op_two_blocks op)
    (op_block_size op) offs (op_state op).
Definition set_state (st : T) op : operation T :=
  mk_op (op_algorithm op) (op_operationClass op) (op_mode op) (op_digestLength op) (op_maxKeySize op) (op_keySize op)
    (op_requiredKeyUsage op) (op_handleState op) (op_key1 op) (op_key2 op) (op_operationState op) (op_buffer op) (op_two_blocks op)
    (op_block_size op) (op_buffer_offs op) st.

(** [handleState |= f], [handleState &= ~f] *)
Definition set_flag (f : Z) op : operation T := set_handleState (Z.lor (op_handleState op) f) op.
Definition clear_flag (f : Z) op : operation T := set_handleState (Z.land (op_handleState op) (u32 (Z.lnot f))) op.
Definition op_has (f : Z) op : bool := has_flag (op_handleState op) f.
End setters.

(** ** The system calls on the state in the kernel *)

(** Key objects: [TEE_GetObjectInfo1] (result, usage, size), [TEE_ResetTransientObject] and
    [TEE_CopyObjectAttributes1] on the keys of the operation. *)
Class KeySvc (T : Type) := {
  key_obj : Type;
  key_info : key_obj -> Z * Z * Z;
  key_reset1 : T -> T;
  key_reset2 : T -> T;
  key_copy1 : T -> key_obj -> Z * T;
  key_copy2 : T -> key_obj -> Z * T;
  key_of1 : T -> key_obj;
  key_of2 : T -> key_obj;
}.

Class HashSvc (T : Type) := {
  hash_init : T -> Z * T;
  hash_update : T -> bytes -> Z * T;
  hash_final : T -> bytes -> Z -> Z * T * bytes * Z;
}.

Class AuthencSvc (T : Type) := {
  authenc_init : T -> bytes -> Z -> Z -> Z -> Z * T;
  authenc_update_aad : T -> bytes -> Z * T;
  authenc_update_payload : T -> bytes -> Z -> Z * T * bytes * Z;
  authenc_enc_final : T -> bytes -> Z -> Z -> Z * T * bytes * Z * bytes * Z;
  authenc_dec_final : T -> bytes -> Z -> bytes -> Z * T * bytes * Z;
}.

(** ** Memory *)

(** A pointer to data with its length. *)
Inductive inbuf :=
| Null (len : Z)
| Buf (data : bytes).

Definition in_len (b : inbuf) : Z := match b with Null len => len | Buf d => Z.of_nat (length d) end.
(** [!p && len], [!p && !len] *)
Definition in_bad (b : inbuf) : bool := match b with Null len => negb (len =? 0) | Buf _ => false end.
Definition in_none (b : inbuf) : bool := match b with Null len => len =? 0 | Buf _ => false end.
Definition in_data (b : inbuf) : bytes := match b with Null _ => [] | Buf d => d end.

(** [l] bytes from the start of [b]. *)
Definition mem_read (b : bytes) (l : Z) : outcome bytes :=
  if (0 <=? l) && (l <=? Z.of_nat (length b)) then Return (take (Z.to_nat l) b) else Panic.

(** [memcpy(buf + offs, d, |d|)] *)
Definition mem_write (buf : option bytes) (offs : Z) (d : bytes) : outcome (option bytes) :=
  match d, buf with
  | [], _ => Return buf
  | _, None => Panic
  | _, Some b =>
      if (0 <=? offs) && (offs + Z.of_nat (length d) <=? Z.of_nat (length b))
      then Return (Some (take (Z.to_nat offs) b ++ d ++ drop (Z.to_nat offs + length d) b))
      else Panic
  end.

Section operations.
Context {CS : CipherSvc} {KS : KeySvc svc_state} {HS : HashSvc svc_state} {AS : AuthencSvc svc_state}.
Notation T := svc_state.
Implicit Types op : operation T.

(** ** Life of an operation *)

(** The results of the calls of [TEE_AllocateOperation]. *)
Record alloc_env := mk_env {
  ae_op : bool;
  ae_buffer : option (nat -> Z);   (* the bytes that happen to be there *)
  ae_key1 : Z;
  ae_key2 : Z;
  ae_state : Z * T;
}.

(** At [out]: the operation is freed. *)
Definition alloc_out (res : Z) : outcome (Z * option (operation T)) :=
  if negb (res =? TEE_ERROR_OUT_OF_MEMORY) && negb (res =? TEE_ERROR_NOT_SUPPORTED) then Panic else Return (res, None).

Definition TEE_AllocateOperation (algorithm mode maxKeySize : Z) (env : alloc_env) : outcome (Z * option (operation T)) :=
  let handle_state := if one_of algorithm [TEE_ALG_AES_XTS; TEE_ALG_SM2_KEP] then TEE_HANDLE_FLAG_EXPECT_TWO_KEYS else 0 in
  if negb (max_key_size_ok algorithm maxKeySize) then Return (TEE_ERROR_NOT_SUPPORTED, None)
  else
    match alg_params_of algorithm mode maxKeySize handle_state with
    | None => Return (TEE_ERROR_NOT_SUPPORTED, None)
    | Some ap =>
        if negb (ae_op env) then Return (TEE_ERROR_OUT_OF_MEMORY, None)
        else
          let buffer :=
            if 1 <? ap_block_size ap
            then (fun m => m <$> seq 0 (Z.to_nat (if ap_two_blocks ap then ap_block_size ap * 2 else ap_block_size ap))) <$> ae_buffer env
            else None in
          if (1 <? ap_block_size ap) && negb (bool_decide (is_Some buffer)) then alloc_out TEE_ERROR_OUT_OF_MEMORY
          else
            let keyed := negb (TEE_ALG_GET_CLASS algorithm =? TEE_OPERATION_DIGEST) in
            let two_keys := has_flag (ap_handle_state ap) TEE_HANDLE_FLAG_EXPECT_TWO_KEYS in
            if keyed && negb (ae_key1 env =? TEE_SUCCESS) then alloc_out (ae_key1 env)
            else if keyed && two_keys && negb (ae_key2 env =? TEE_SUCCESS) then alloc_out (ae_key2 env)
            else
              let '(res, st) := ae_state env in
              if negb (res =? TEE_SUCCESS) then alloc_out res
              else
                let op := mk_op algorithm
                  (if algorithm =? TEE_ALG_RSASSA_PKCS1_V1_5 then TEE_OPERATION_ASYMMETRIC_SIGNATURE else TEE_ALG_GET_CLASS algorithm)
                  mode (TEE_ALG_GET_DIGEST_SIZE algorithm) maxKeySize 0 (ap_req_key_usage ap) (ap_handle_state ap)
                  keyed (keyed && two_keys) 0 buffer (ap_two_blocks ap) (ap_block_size ap) 0 st in
                if keyed then Return (TEE_SUCCESS, Some (set_operationState TEE_OPERATION_STATE_INITIAL op))
                else
                  let '(res, st) := hash_init st in
                  if negb (res =? TEE_SUCCESS) then alloc_out res
                  else Return (TEE_SUCCESS, Some (set_operationState TEE_OPERATION_STATE_INITIAL
                                                   (set_flag TEE_HANDLE_FLAG_INITIALIZED (set_state st op))))
    end.

Definition TEE_ResetOperation op : outcome (operation T) :=
  if negb (op_has TEE_HANDLE_FLAG_KEY_SET op) then Panic
  else
    let op := set_operationState TEE_OPERATION_STATE_INITIAL op in
    if op_operationClass op =? TEE_OPERATION_DIGEST then
      let '(res, st) := hash_init (op_state op) in
      if negb (res =? TEE_SUCCESS) then Panic else Return (set_flag TEE_HANDLE_FLAG_INITIALIZED (set_state st op))
    else Return (clear_flag TEE_HANDLE_FLAG_INITIALIZED op).

(** At [out]: any other result panics. *)
Definition finish {A} (allowed : list Z) (res : Z) (a : A) : outcome (Z * A) :=
  if one_of res (TEE_SUCCESS :: allowed) then Return (res, a) else Panic.

Definition has_usage (usage required : Z) : bool := Z.land usage required =? required.

Definition TEE_SetOperationKey op (key : option key_obj) : outcome (Z * operation T) :=
  let out := finish [TEE_ERROR_CORRUPT_OBJECT; TEE_ERROR_STORAGE_NOT_AVAILABLE] in
  if negb (op_operationState op =? TEE_OPERATION_STATE_INITIAL) then out TEE_ERROR_BAD_PARAMETERS op
  else
    match key with
    | None => Return (TEE_SUCCESS, clear_flag TEE_HANDLE_FLAG_KEY_SET (set_state (key_reset1 (op_state op)) op))
    | Some key =>
        if op_operationClass op =? TEE_OPERATION_DIGEST then out TEE_ERROR_BAD_PARAMETERS op
        else if op_has TEE_HANDLE_FLAG_EXPECT_TWO_KEYS op then out TEE_ERROR_BAD_PARAMETERS op
        else
          let '(res, usage, size) := key_info key in
          if negb (res =? TEE_SUCCESS) then out res op
          else if negb (has_usage usage (op_requiredKeyUsage op)) then out TEE_ERROR_BAD_PARAMETERS op
          else if op_maxKeySize op <? size then out TEE_ERROR_BAD_PARAMETERS op
          else
            let op := clear_flag TEE_HANDLE_FLAG_KEY_SET (set_state (key_reset1 (op_state op)) op) in
            let '(res, st) := key_copy1 (op_state op) key in
            let op := set_state st op in
            if negb (res =? TEE_SUCCESS) then out res op
            else Return (TEE_SUCCESS, set_keySize size (set_flag TEE_HANDLE_FLAG_KEY_SET op))
    end.

Definition TEE_SetOperationKey2 op (key1 key2 : option key_obj) : outcome (Z * operation T) :=
  let out := finish [TEE_ERROR_CORRUPT_OBJECT; TEE_ERROR_CORRUPT_OBJECT_2; TEE_ERROR_STORAGE_NOT_AVAILABLE;
                     TEE_ERROR_STORAGE_NOT_AVAILABLE_2] in
  let corrupt2 res := if res =? TEE_ERROR_CORRUPT_OBJECT then TEE_ERROR_CORRUPT_OBJECT_2 else res in
  if negb (op_operationState op =? TEE_OPERATION_STATE_INITIAL) then out TEE_ERROR_BAD_PARAMETERS op
  else
    match key1, key2 with
    | None, None =>
        Return (TEE_SUCCESS, clear_flag TEE_HANDLE_FLAG_KEY_SET (set_state (key_reset2 (key_reset1 (op_state op))) op))
    | Some key1, Some key2 =>
        if op_operationClass op =? TEE_OPERATION_DIGEST then out TEE_ERROR_BAD_PARAMETERS op
        else if negb (op_has TEE_HANDLE_FLAG_EXPECT_TWO_KEYS op) then out TEE_ERROR_BAD_PARAMETERS op
        else
          let '(res, usage1, size1) := key_info key1 in
          if negb (res =? TEE_SUCCESS) then out res op
          else if negb (has_usage usage1 (op_requiredKeyUsage op)) then out TEE_ERROR_BAD_PARAMETERS op
          else
            let '(res, usage2, size2) := key_info key2 in
            if negb (res =? TEE_SUCCESS) then out (corrupt2 res) op
            else if negb (has_usage usage2 (op_requiredKeyUsage op)) then out TEE_ERROR_BAD_PARAMETERS op
            else if negb (size1 =? size2) then out TEE_ERROR_BAD_PARAMETERS op
            else if op_maxKeySize op <? size1 then out TEE_ERROR_BAD_PARAMETERS op
            else
              let op := clear_flag TEE_HANDLE_FLAG_KEY_SET (set_state (key_reset2 (key_reset1 (op_state op))) op) in
              let '(res, st) := key_copy1 (op_state op) key1 in
              let op := set_state st op in
              if negb (res =? TEE_SUCCESS) then out res op
              else
                let '(res, st) := key_copy2 (op_state op) key2 in
                let op := set_state st op in
                if negb (res =? TEE_SUCCESS) then out (corrupt2 res) op
                else Return (TEE_SUCCESS, set_keySize size1 (set_flag TEE_HANDLE_FLAG_KEY_SET op))
    | _, _ => out TEE_ERROR_BAD_PARAMETERS op
    end.

(** [state_copy]: [_utee_cryp_state_copy]. *)
Definition TEE_CopyOperation (state_copy : T -> T -> Z * T) (dst_op src_op : operation T) : outcome (operation T) :=
  if negb (op_algorithm dst_op =? op_algorithm src_op) then Panic
  else if negb (op_mode dst_op =? op_mode src_op) then Panic
  else
    (do! dst_op <-
       (if negb (op_operationClass src_op =? TEE_OPERATION_DIGEST) then
          let keys := op_has TEE_HANDLE_FLAG_KEY_SET src_op in
          let key1 := if keys && op_key1 src_op then Some (key_of1 (op_state src_op)) else None in
          let key2 := if keys && op_key2 src_op then Some (key_of2 (op_state src_op)) else None in
          do! (_, dst_op) <-
            (if negb (op_has TEE_HANDLE_FLAG_EXPECT_TWO_KEYS src_op)
             then TEE_SetOperationKey dst_op key1 else TEE_SetOperationKey2 dst_op key1 key2);
          Return dst_op
        else Return dst_op);
     let dst_op := set_operationState (op_operationState src_op)
                     (set_digestLength (op_digestLength src_op)
                        (set_keySize (op_keySize src_op) (set_handleState (op_handleState src_op) dst_op))) in
     if negb (Bool.eqb (op_two_blocks dst_op) (op_two_blocks src_op)) || negb (op_block_size dst_op =? op_block_size src_op)
     then Panic
     else
       do! dst_op <-
         match op_buffer dst_op, op_buffer src_op with
         | Some _, None => Panic
         | Some _, Some s =>
             do! d <- mem_read s (op_buffer_offs src_op);
             do! b <- mem_write (op_buffer dst_op) 0 d;
             Return (set_buffer b (op_buffer_offs src_op) dst_op)
         | None, Some _ => Panic
         | None, None => Return dst_op
         end;
       let '(res, st) := state_copy (op_state dst_op) (op_state src_op) in
       if negb (res =? TEE_SUCCESS) then Panic else Return (set_state st dst_op))%c.

(** ** Digests *)

Definition init_hash_operation op : outcome (operation T) :=
  let '(res, st) := hash_init (op_state op) in
  if negb (res =? TEE_SUCCESS) then Panic
  else Return (set_flag TEE_HANDLE_FLAG_INITIALIZED (set_buffer (op_buffer op) 0 (set_state st op))).

Definition TEE_DigestUpdate op (chunk : bytes) : outcome (operation T) :=
  if negb (op_operationClass op =? TEE_OPERATION_DIGEST) then Panic
  else
    let op := set_operationState TEE_OPERATION_STATE_ACTIVE op in
    let '(res, st) := hash_update (op_state op) chunk in
    if negb (res =? TEE_SUCCESS) then Panic else Return (set_state st op).

(** The values: result, operation, what is written, and the length stored. *)
Definition TEE_DigestDoFinal op (chunk : inbuf) (hashLen : Z) : outcome (Z * (operation T * bytes * Z)) :=
  let out := finish [TEE_ERROR_SHORT_BUFFER] in
  if in_bad chunk || negb (op_operationClass op =? TEE_OPERATION_DIGEST) then out TEE_ERROR_BAD_PARAMETERS (op, [], hashLen)
  else
    let '(res, st, hash, hl) := hash_final (op_state op) (in_data chunk) hashLen in
    let op := set_state st op in
    if negb (res =? TEE_SUCCESS) then out res (op, hash, u32 hl)
    else
      (do! op <- init_hash_operation op;
       Return (TEE_SUCCESS, (set_operationState TEE_OPERATION_STATE_INITIAL op, hash, u32 hl)))%c.

(** ** Ciphers *)

Definition TEE_CipherInit op (IV : bytes) : outcome (operation T) :=
  if negb (op_operationClass op =? TEE_OPERATION_CIPHER) then Panic
  else if negb (op_has TEE_HANDLE_FLAG_KEY_SET op) || negb (op_key1 op) then Panic
  else
    (do! op <- (if negb (op_operationState op =? TEE_OPERATION_STATE_INITIAL) then TEE_ResetOperation op else Return op);
     let op := set_operationState TEE_OPERATION_STATE_ACTIVE op in
     let '(res, st) := svc_init (op_state op) IV in
     if negb (res =? TEE_SUCCESS) then Panic
     else Return (set_flag TEE_HANDLE_FLAG_INITIALIZED (set_buffer (op_buffer op) 0 (set_state st op))))%c.

(** *** [tee_buffer_update] *)

Definition buffer_size op : Z := if op_two_blocks op then op_block_size op * 2 else op_block_size op.
Definition buffer_left op : Z := if op_two_blocks op then 1 else 0.

(** Fill up a block: what is left of the data, and whether to stop there. *)
Definition fill_block op (src : bytes) : outcome (operation T * bytes * bool) :=
  let offs := op_buffer_offs op in
  if 0 <? offs then
    let slen := Z.of_nat (length src) in
    let l := if offs <? op_block_size op then Z.min slen (op_block_size op - offs) else Z.min slen (u64 (buffer_size op - offs)) in
    (do! d <- mem_read src l;
     do! b <- mem_write (op_buffer op) offs d;
     let op := set_buffer b (u64 (offs + l)) op in
     Return (op, drop (Z.to_nat l) src, negb (op_buffer_offs op mod op_block_size op =? 0)))%c
  else Return (op, src, false).

(** Feed from the buffer: the room left, what was written, and whether to stop. *)
Definition feed_buffer (update_func : T -> bytes -> Z -> Z * T * bytes * Z) op (src : bytes) (dlen : Z)
    : outcome (operation T * Z * bytes * Z * bool) :=
  let offs := op_buffer_offs op in
  let slen := Z.of_nat (length src) in
  if (0 <? offs) && (buffer_size op + buffer_left op <=? u64 (offs + slen)) then
    let l := Z.min offs (ROUNDUP (u64 (offs + slen - buffer_size op)) (op_block_size op)) in
    (do! d <- match op_buffer op with Some b => mem_read b l | None => Panic end;
     let '(res, st, out, tmp_dlen) := update_func (op_state op) d dlen in
     if negb (res =? TEE_SUCCESS) then Panic
     else
       let dlen := u64 (dlen - tmp_dlen) in
       let op := set_buffer (op_buffer op) (u64 (offs - l)) (set_state st op) in
       if 0 <? op_buffer_offs op then
         let rest := match op_buffer op with Some b => take (Z.to_nat (buffer_size op - l)) (drop (Z.to_nat l) b) | None => [] end in
         do! b <- mem_write (op_buffer op) 0 rest;
         do! b <- mem_write b (op_buffer_offs op) src;
         Return (set_buffer b (u64 (op_buffer_offs op + slen)) op, dlen, out, tmp_dlen, true)
       else Return (op, dlen, out, tmp_dlen, false))%c
  else Return (op, dlen, [], 0, false).

(** Feed as much as possible from the data, and keep the rest in the buffer. *)
Definition feed_src (update_func : T -> bytes -> Z -> Z * T * bytes * Z) op (src : bytes) (dlen : Z)
    : outcome (operation T * bytes * Z) :=
  let slen := Z.of_nat (length src) in
  (do! (op, src, out, tmp_dlen) <-
     (if buffer_size op + buffer_left op <=? slen then
        let l := if op_algorithm op =? TEE_ALG_AES_CTS then ROUNDUP (slen - buffer_size op) (op_block_size op)
                 else ROUNDUP (slen - buffer_size op + 1) (op_block_size op) in
        do! d <- mem_read src l;
        let '(res, st, out, tmp_dlen) := update_func (op_state op) d dlen in
        if negb (res =? TEE_SUCCESS) then Panic
        else Return (set_state st op, drop (Z.to_nat l) src, out, tmp_dlen)
      else Return (op, src, [], 0));
   do! b <- mem_write (op_buffer op) (op_buffer_offs op) src;
   Return (set_buffer b (u64 (op_buffer_offs op + Z.of_nat (length src))) op, out, tmp_dlen))%c.

(** The values: operation, what is written, and the length stored. *)
Definition tee_buffer_update (update_func : T -> bytes -> Z -> Z * T * bytes * Z) op (src : inbuf) (dest_len : Z)
    : outcome (operation T * bytes * Z) :=
  match src with
  | Null slen => if negb (slen =? 0) then Panic else Return (op, [], 0)
  | Buf src =>
      (do! (op, src, stop) <- fill_block op src;
       if (stop : bool) then Return (op, [], 0)
       else
         do! (op, dlen, out1, n1, stop) <- feed_buffer update_func op src dest_len;
         if (stop : bool) then Return (op, out1, n1)
         else
           do! (op, out2, n2) <- feed_src update_func op src dlen;
           Return (op, out1 ++ out2, u64 (n1 + n2)))%c
  end.

(** The room that [TEE_CipherUpdate] asks for. *)
Definition cipher_req_dlen op (srcLen : Z) : Z :=
  let req_dlen := if 1 <? op_block_size op then u64 (op_buffer_offs op + srcLen) / op_block_size op * op_block_size op else srcLen in
  if op_two_blocks op then if op_block_size op * 2 <? req_dlen then req_dlen - op_block_size op * 2 else 0 else req_dlen.

Definition op_active op : bool :=
  op_has TEE_HANDLE_FLAG_INITIALIZED op && (op_operationState op =? TEE_OPERATION_STATE_ACTIVE).

Definition TEE_CipherUpdate op (src : inbuf) (destLen : Z) : outcome (Z * (operation T * bytes * Z)) :=
  let out := finish [TEE_ERROR_SHORT_BUFFER] in
  let srcLen := in_len src in
  if in_bad src then out TEE_ERROR_BAD_PARAMETERS (op, [], destLen)
  else if negb (op_operationClass op =? TEE_OPERATION_CIPHER) then out TEE_ERROR_BAD_PARAMETERS (op, [], destLen)
  else if negb (op_active op) then out TEE_ERROR_BAD_PARAMETERS (op, [], destLen)
  else if in_none src then Return (TEE_SUCCESS, (op, [], 0))
  else if destLen <? cipher_req_dlen op srcLen
  then out TEE_ERROR_SHORT_BUFFER (op, [], u32 (cipher_req_dlen op srcLen))
  else if 1 <? op_block_size op then
    (do! (op, d, dl) <- tee_buffer_update svc_update op src destLen; Return (TEE_SUCCESS, (op, d, u32 dl)))%c
  else if 0 <? srcLen then
    let '(res, st, d, dl) := svc_update (op_state op) (in_data src) destLen in
    out res (set_state st op, d, u32 dl)
  else Return (TEE_SUCCESS, (op, [], 0)).

Definition padded_by_client : list Z :=
  [TEE_ALG_AES_ECB_NOPAD; TEE_ALG_AES_CBC_NOPAD; TEE_ALG_DES_ECB_NOPAD; TEE_ALG_DES_CBC_NOPAD; TEE_ALG_DES3_ECB_NOPAD;
   TEE_ALG_DES3_CBC_NOPAD; TEE_ALG_SM4_ECB_NOPAD; TEE_ALG_SM4_CBC_NOPAD].

(** [destLen] may be null. *)
Definition TEE_CipherDoFinal op (src : inbuf) (destLen : option Z) : outcome (Z * (operation T * bytes * option Z)) :=
  let out := finish [TEE_ERROR_SHORT_BUFFER] in
  let srcLen := in_len src in
  if in_bad src then out TEE_ERROR_BAD_PARAMETERS (op, [], destLen)
  else if negb (op_operationClass op =? TEE_OPERATION_CIPHER) then out TEE_ERROR_BAD_PARAMETERS (op, [], destLen)
  else if negb (op_active op) then out TEE_ERROR_BAD_PARAMETERS (op, [], destLen)
  else if one_of (op_algorithm op) padded_by_client && negb (u64 (op_buffer_offs op + srcLen) mod op_block_size op =? 0)
  then out TEE_ERROR_BAD_PARAMETERS (op, [], destLen)
  else
    let req_dlen := if 1 <? op_block_size op then u64 (op_buffer_offs op + srcLen) else srcLen in
    let tmp_dlen := default 0 destLen in
    if tmp_dlen <? req_dlen then out TEE_ERROR_SHORT_BUFFER (op, [], (fun _ => u32 req_dlen) <$> destLen)
    else
      (do! (op, d1, acc, res, st, d2, n) <-
         (if 1 <? op_block_size op then
            do! (op, d1, acc, room) <-
              (if negb (srcLen =? 0) then
                 do! (op, d1, n1) <- tee_buffer_update svc_update op src tmp_dlen;
                 Return (op, d1, n1, u64 (default 0 destLen - n1))
               else Return (op, [], 0, tmp_dlen));
            do! b <- match op_buffer op with Some b => mem_read b (op_buffer_offs op) | None => Panic end;
            let '(res, st, d2, n) := svc_final (op_state op) b room in
            Return (op, d1, acc, res, st, d2, n)
          else
            let '(res, st, d2, n) := svc_final (op_state op) (in_data src) tmp_dlen in
            Return (op, [], 0, res, st, d2, n));
       let op := set_state st op in
       if negb (res =? TEE_SUCCESS) then out res (op, d1, destLen)
       else
         Return (TEE_SUCCESS,
           (set_operationState TEE_OPERATION_STATE_INITIAL (clear_flag TEE_HANDLE_FLAG_INITIALIZED op),
            d1 ++ d2, (fun _ => u32 (acc + n)) <$> destLen)))%c.

(** ** Message authentication codes *)

Definition TEE_MACInit op : outcome (operation T) :=
  if negb (op_operationClass op =? TEE_OPERATION_MAC) then Panic
  else if negb (op_has TEE_HANDLE_FLAG_KEY_SET op) || negb (op_key1 op) then Panic
  else
    (do! op <- (if negb (op_operationState op =? TEE_OPERATION_STATE_INITIAL) then TEE_ResetOperation op else Return op);
     init_hash_operation (set_operationState TEE_OPERATION_STATE_ACTIVE op))%c.

Definition TEE_MACUpdate op (chunk : inbuf) : outcome (operation T) :=
  if in_bad chunk then Panic
  else if negb (op_operationClass op =? TEE_OPERATION_MAC) then Panic
  else if negb (op_active op) then Panic
  else
    let '(res, st) := hash_update (op_state op) (in_data chunk) in
    if negb (res =? TEE_SUCCESS) then Panic else Return (set_state st op).

Definition TEE_MACComputeFinal op (message : inbuf) (macLen : Z) : outcome (Z * (operation T * bytes * Z)) :=
  let out := finish [TEE_ERROR_SHORT_BUFFER] in
  if in_bad message then out TEE_ERROR_BAD_PARAMETERS (op, [], macLen)
  else if negb (op_operationClass op =? TEE_OPERATION_MAC) then out TEE_ERROR_BAD_PARAMETERS (op, [], macLen)
  else if negb (op_active op) then out TEE_ERROR_BAD_PARAMETERS (op, [], macLen)
  else
    let '(res, st, mac, ml) := hash_final (op_state op) (in_data message) macLen in
    let op := set_state st op in
    if negb (res =? TEE_SUCCESS) then out res (op, mac, u32 ml)
    else Return (TEE_SUCCESS,
           (set_operationState TEE_OPERATION_STATE_INITIAL (clear_flag TEE_HANDLE_FLAG_INITIALIZED op), mac, u32 ml)).

Definition TEE_MACCompareFinal op (message : inbuf) (mac : bytes) : outcome (Z * operation T) :=
  let out := finish [TEE_ERROR_MAC_INVALID] in
  if negb (op_operationClass op =? TEE_OPERATION_MAC) then out TEE_ERROR_BAD_PARAMETERS op
  else if negb (op_active op) then out TEE_ERROR_BAD_PARAMETERS op
  else
    (do! (res, (op, computed_mac, computed_mac_size)) <- TEE_MACComputeFinal op message TEE_MAX_HASH_SIZE;
     if negb (res =? TEE_SUCCESS) then out res op
     else if negb (computed_mac_size =? Z.of_nat (length mac)) then out TEE_ERROR_MAC_INVALID op
     else if negb (bool_decide (mac = computed_mac)) then out TEE_ERROR_MAC_INVALID op
     else Return (TEE_SUCCESS, set_operationState TEE_OPERATION_STATE_INITIAL op))%c.

(** ** Authenticated encryption *)

Definition TEE_AEInit op (nonce : option bytes) (tagLen AADLen payloadLen : Z) : outcome (Z * operation T) :=
  let out := finish [TEE_ERROR_NOT_SUPPORTED] in
  match nonce with
  | None => out TEE_ERROR_BAD_PARAMETERS op
  | Some nonce =>
      if negb (op_operationClass op =? TEE_OPERATION_AE) then out TEE_ERROR_BAD_PARAMETERS op
      else if negb (op_operationState op =? TEE_OPERATION_STATE_INITIAL) then out TEE_ERROR_BAD_PARAMETERS op
      else if (op_algorithm op =? TEE_ALG_AES_GCM) && ((tagLen <? 96) || (128 <? tagLen) || negb (tagLen mod 8 =? 0))
      then out TEE_ERROR_NOT_SUPPORTED op
      else
        let '(res, st) := authenc_init (op_state op) nonce (tagLen / 8) AADLen payloadLen in
        let op := set_state st op in
        if negb (res =? TEE_SUCCESS) then out res op
        else Return (TEE_SUCCESS,
               set_flag TEE_HANDLE_FLAG_INITIALIZED (set_buffer (op_buffer op) 0 (set_digestLength (tagLen / 8) op)))
  end.

Definition TEE_AEUpdateAAD op (AADdata : inbuf) : outcome (operation T) :=
  if in_bad AADdata then Panic
  else if negb (op_operationClass op =? TEE_OPERATION_AE) then Panic
  else if negb (op_has TEE_HANDLE_FLAG_INITIALIZED op) then Panic
  else
    let '(res, st) := authenc_update_aad (op_state op) (in_data AADdata) in
    if negb (res =? TEE_SUCCESS) then Panic
    else Return (set_operationState TEE_OPERATION_STATE_ACTIVE (set_state st op)).

Definition TEE_AEUpdate op (src : inbuf) (destLen : Z) : outcome (Z * (operation T * bytes * Z)) :=
  let out := finish [TEE_ERROR_SHORT_BUFFER] in
  let srcLen := in_len src in
  if in_bad src then out TEE_ERROR_BAD_PARAMETERS (op, [], destLen)
  else if negb (op_operationClass op =? TEE_OPERATION_AE) then out TEE_ERROR_BAD_PARAMETERS (op, [], destLen)
  else if negb (op_has TEE_HANDLE_FLAG_INITIALIZED op) then out TEE_ERROR_BAD_PARAMETERS (op, [], destLen)
  else if in_none src then Return (TEE_SUCCESS, (op, [], 0))
  else
    let req_dlen := if 1 <? op_block_size op then ROUNDDOWN (u64 (op_buffer_offs op + srcLen)) (op_block_size op) else srcLen in
    if destLen <? req_dlen then out TEE_ERROR_SHORT_BUFFER (op, [], u32 req_dlen)
    else
      (do! (res, op, d, dl) <-
         (if 1 <? op_block_size op then
            do! (op, d, dl) <- tee_buffer_update authenc_update_payload op src destLen; Return (TEE_SUCCESS, op, d, dl)
          else if 0 <? srcLen then
            let '(res, st, d, dl) := authenc_update_payload (op_state op) (in_data src) destLen in
            Return (res, set_state st op, d, dl)
          else Return (TEE_SUCCESS, op, [], 0));
       if negb (res =? TEE_SUCCESS) then out res (op, d, destLen)
       else Return (TEE_SUCCESS, (set_operationState TEE_OPERATION_STATE_ACTIVE op, d, u32 dl)))%c.

Definition TEE_AEEncryptFinal op (src : inbuf) (destLen tagLen : Z) : outcome (Z * (operation T * bytes * Z * bytes * Z)) :=
  let out := finish [TEE_ERROR_SHORT_BUFFER] in
  let srcLen := in_len src in
  if in_bad src then out TEE_ERROR_BAD_PARAMETERS (op, [], destLen, [], tagLen)
  else if negb (op_operationClass op =? TEE_OPERATION_AE) then out TEE_ERROR_BAD_PARAMETERS (op, [], destLen, [], tagLen)
  else if negb (op_has TEE_HANDLE_FLAG_INITIALIZED op) then out TEE_ERROR_BAD_PARAMETERS (op, [], destLen, [], tagLen)
  else
    let req_dlen := u64 (op_buffer_offs op + srcLen) in
    let short_dest := destLen <? req_dlen in
    let short_tag := tagLen <? op_digestLength op in
    if short_dest || short_tag
    then out TEE_ERROR_SHORT_BUFFER (op, [], if short_dest then u32 req_dlen else destLen, [],
                                     if short_tag then op_digestLength op else tagLen)
    else
      (do! (op, d1, acc, res, st, d2, n, tag, tl) <-
         (if 1 <? op_block_size op then
            do! (op, d1, n1) <- tee_buffer_update authenc_update_payload op src destLen;
            do! b <- match op_buffer op with Some b => mem_read b (op_buffer_offs op) | None => Panic end;
            let '(res, st, d2, n, tag, tl) := authenc_enc_final (op_state op) b (u64 (destLen - n1)) tagLen in
            Return (op, d1, n1, res, st, d2, n, tag, tl)
          else
            let '(res, st, d2, n, tag, tl) := authenc_enc_final (op_state op) (in_data src) destLen tagLen in
            Return (op, [], 0, res, st, d2, n, tag, tl));
       let op := set_state st op in
       if negb (res =? TEE_SUCCESS) then out res (op, d1, destLen, tag, u32 tl)
       else Return (TEE_SUCCESS,
              (set_operationState TEE_OPERATION_STATE_INITIAL (clear_flag TEE_HANDLE_FLAG_INITIALIZED op),
               d1 ++ d2, u32 (acc + n), tag, u32 tl)))%c.

Definition TEE_AEDecryptFinal op (src : inbuf) (destLen : Z) (tag : bytes) : outcome (Z * (operation T * bytes * Z)) :=
  let out := finish [TEE_ERROR_SHORT_BUFFER; TEE_ERROR_MAC_INVALID] in
  let srcLen := in_len src in
  if in_bad src then out TEE_ERROR_BAD_PARAMETERS (op, [], destLen)
  else if negb (op_operationClass op =? TEE_OPERATION_AE) then out TEE_ERROR_BAD_PARAMETERS (op, [], destLen)
  else if negb (op_has TEE_HANDLE_FLAG_INITIALIZED op) then out TEE_ERROR_BAD_PARAMETERS (op, [], destLen)
  else
    let req_dlen := u64 (op_buffer_offs op + srcLen) in
    if destLen <? req_dlen then out TEE_ERROR_SHORT_BUFFER (op, [], u32 req_dlen)
    else
      (do! (op, d1, acc, res, st, d2, n) <-
         (if 1 <? op_block_size op then
            do! (op, d1, n1) <- tee_buffer_update authenc_update_payload op src destLen;
            do! b <- match op_buffer op with Some b => mem_read b (op_buffer_offs op) | None => Panic end;
            let '(res, st, d2, n) := authenc_dec_final (op_state op) b (u64 (destLen - n1)) tag in
            Return (op, d1, n1, res, st, d2, n)
          else
            let '(res, st, d2, n) := authenc_dec_final (op_state op) (in_data src) destLen tag in
            Return (op, [], 0, res, st, d2, n));
       let op := set_state st op in
       if negb (res =? TEE_SUCCESS) then out res (op, d1, destLen)
       else
         let res := if negb (Z.of_nat (length tag) =? op_digestLength op) then TEE_ERROR_MAC_INVALID else TEE_SUCCESS in
         Return (res, (set_operationState TEE_OPERATION_STATE_INITIAL (clear_flag TEE_HANDLE_FLAG_INITIALIZED op),
                       d1 ++ d2, u32 (acc + n))))%c.
End operations.
