(* ===== verification/TeeOpBuffer.v ===== *)
(** * The buffer of an operation

    What [tee_buffer_update] does, for any function that it feeds: every access stays
    inside of the buffer, whole blocks are fed in the order of the data, the rest stays in
    the buffer. *)

From S2P Require Import Prelude Cipher CipherSvc TeeOp.
From stdpp Require Import base list.
From Stdlib Require Import ZArith Lia.

Local Open Scope Z_scope.

(** The length of data as an integer. *)
Notation zlen x := (Z.of_nat (length x)).

Section memory.
Lemma mem_read_ok (b : bytes) l : 0 <= l <= zlen b -> mem_read b l = Return (take (Z.to_nat l) b).
Proof.
  intros Hl. unfold mem_read. destruct (Z.leb_spec 0 l); [|lia]. by destruct (Z.leb_spec l (zlen b)); [|lia].
Qed.

(** After a copy the array starts with what was before the place, and the data. *)
Lemma mem_write_ok (b : bytes) offs d : 0 <= offs -> offs + zlen d <= zlen b ->
  exists b', mem_write (Some b) offs d = Return (Some b') /\ length b' = length b /\
    take (Z.to_nat (offs + zlen d)) b' = take (Z.to_nat offs) b ++ d.
Proof.
  intros Ho Hd. unfold mem_write. destruct d as [|x d].
  - exists b. split; [done|]. split; [done|]. rewrite app_nil_r. f_equal. cbn. lia.
  - destruct (Z.leb_spec 0 offs); [|lia].
    destruct (Z.leb_spec (offs + zlen (x :: d)) (zlen b)); [|lia].
    cbn [andb]. eexists. split; [done|]. set (n := Z.to_nat offs). split.
    + rewrite !length_app, length_take, length_drop. lia.
    + rewrite app_assoc, take_app_length'; [done|]. rewrite length_app, length_take. lia.
Qed.
End memory.

Section buffer.
Context {CS : CipherSvc}.
Notation T := svc_state.
Implicit Types op : operation T.

(** The data kept for later. *)
Definition pending op : bytes := take (Z.to_nat (op_buffer_offs op)) (default [] (op_buffer op)).

(** The buffer of an operation on blocks. *)
Record buf_ok op : Prop := {
  bo_block : op_block_size op = 8 \/ op_block_size op = 16;
  bo_cts : op_algorithm op = TEE_ALG_AES_CTS -> op_two_blocks op = true;
  bo_buffer : exists b, op_buffer op = Some b /\ zlen b = buffer_size op;
  bo_offs : 0 <= op_buffer_offs op <= buffer_size op;
  bo_bytes : Forall is_byte (pending op);
}.

Lemma pending_length op : buf_ok op -> zlen (pending op) = op_buffer_offs op.
Proof.
  intros [_ _ (b & Hb & Hl) Ho _]. unfold pending. rewrite Hb. cbn. rewrite length_take. lia.
Qed.

(** [op'] is [op] with another buffer and kernel state. *)
Definition derived op op' : Prop := exists b o st, op' = set_buffer b o (set_state st op).

Lemma derived_refl op : derived op op.
Proof. exists (op_buffer op), (op_buffer_offs op), (op_state op). by destruct op. Qed.

Lemma derived_trans op1 op2 op3 : derived op1 op2 -> derived op2 op3 -> derived op1 op3.
Proof. intros (b & o & st & ->) (b' & o' & st' & ->). exists b', o', st'. by destruct op1. Qed.

Lemma derived_size op op' : derived op op' ->
  buffer_size op' = buffer_size op /\ buffer_left op' = buffer_left op /\ op_block_size op' = op_block_size op /\
  op_algorithm op' = op_algorithm op /\ op_two_blocks op' = op_two_blocks op.
Proof. intros (b & o & st & ->). done. Qed.

Lemma round_up B v : B = 8 \/ B = 16 -> 0 <= v < 2 ^ 62 -> ROUNDUP v B = (v + (B - 1)) / B * B.
Proof.
  intros [-> | ->] Hv.
  - change 8 with (2 ^ 3) at 1. rewrite ROUNDUP_spec by lia. change (2 ^ 3) with 8. Z.div_mod_to_equations. lia.
  - change 16 with (2 ^ 4) at 1. rewrite ROUNDUP_spec by lia. change (2 ^ 4) with 16. Z.div_mod_to_equations. lia.
Qed.

(** A buffer after a copy behind the pending data. *)
Lemma append_pending op (b : bytes) d o st :
  buf_ok op -> op_buffer op = Some b -> Forall is_byte d -> op_buffer_offs op + zlen d <= buffer_size op ->
  o = op_buffer_offs op + zlen d ->
  exists b', mem_write (Some b) (op_buffer_offs op) d = Return (Some b') /\
    let op' := set_buffer (Some b') o (set_state st op) in
    buf_ok op' /\ pending op' = pending op ++ d.
Proof.
  intros Hok Hb Hd Hl ->. pose proof Hok as [H1 H2 (b0 & Hb0 & Hl0) Ho Hby]. rewrite Hb in Hb0. injection Hb0 as <-.
  destruct (mem_write_ok b (op_buffer_offs op) d) as (b' & -> & Hl' & Ht); [lia | lia|].
  exists b'. split; [done|]. cbv zeta.
  assert (Hp : pending (set_buffer (Some b') (op_buffer_offs op + zlen d) (set_state st op)) = pending op ++ d).
  { unfold pending. rewrite Hb. exact Ht. }
  split; [|done]. split; [exact H1 | exact H2 | | |].
  - exists b'. split; [done|]. rewrite Hl'. exact Hl0.
  - cbn. change (buffer_size (set_buffer _ _ _)) with (buffer_size op). lia.
  - rewrite Hp. by apply Forall_app.
Qed.

(** Filling up: a block is complete, or the data is used up. *)
Lemma fill_block_ok op (src : bytes) :
  buf_ok op -> Forall is_byte src -> zlen src < 2 ^ 32 ->
  exists op' src' stop, fill_block op src = Return (op', src', stop) /\
    derived op op' /\ op_state op' = op_state op /\ buf_ok op' /\
    pending op ++ src = pending op' ++ src' /\ (length src' <= length src)%nat /\
    (stop = true -> src' = []) /\ (stop = false -> op_buffer_offs op' mod op_block_size op = 0).
Proof.
  intros Hok Hs Hlen. pose proof Hok as [HB _ (b & Hb & Hl) Ho _]. unfold fill_block. cbv zeta.
  destruct (Z.ltb_spec 0 (op_buffer_offs op)) as [Hpos | Hz].
  2:{ exists op, src, false. split; [done|]. split; [apply derived_refl|].
      split; [done|]. split; [done|]. split; [done|]. split; [lia|]. split; [done|].
      intros _. replace (op_buffer_offs op) with 0 by lia. apply Zmod_0_l. }
  set (offs := op_buffer_offs op) in *. set (B := op_block_size op) in *. set (S := buffer_size op) in *.
  assert (HS : S = B \/ S = B * 2) by (unfold S, buffer_size; fold B; destruct (op_two_blocks op); auto).
  rewrite (u64_small (S - offs)) by (unfold is_u64; lia).
  set (l := if offs <? B then _ else _).
  assert (Hlr : 0 <= l <= zlen src /\ offs + l <= S /\ (l < zlen src -> (offs + l) mod B = 0)).
  { unfold l. destruct (Z.ltb_spec offs B) as [H1 | H1]; repeat split; try lia; intros Hlt.
    - replace (offs + Z.min (zlen src) (B - offs)) with B by lia. apply Z.mod_same. lia.
    - replace (offs + Z.min (zlen src) (S - offs)) with S by lia. destruct HS as [-> | ->]; [apply Z.mod_same; lia|].
      rewrite Z.mul_comm. apply Z_mod_mult. }
  rewrite mem_read_ok by lia. cbn [obind].
  assert (Hlt : zlen (take (Z.to_nat l) src) = l) by (rewrite length_take; lia).
  rewrite (u64_small (offs + l)) by (unfold is_u64; lia).
  destruct (append_pending op b (take (Z.to_nat l) src) (offs + l) (op_state op)) as (b' & Hw & Hok' & Hp');
    [done | done | by apply Forall_take | fold offs S; lia | by rewrite Hlt|].
  rewrite Hb. fold offs in Hw. rewrite Hw. cbn [obind]. do 3 eexists. split; [done|].
  replace (set_buffer (Some b') (offs + l) op) with (set_buffer (Some b') (offs + l) (set_state (op_state op) op)) by (by destruct op).
  split; [by do 3 eexists|]. split; [done|]. split; [done|].
  split; [rewrite Hp', <- app_assoc; by rewrite take_drop|].
  split; [rewrite length_drop; lia|].
  cbn [op_buffer_offs set_buffer]. fold B. change (op_block_size (set_buffer _ _ _)) with B.
  split; intros Hstop; zbool; [|done].
  apply drop_ge. destruct (Z.eq_dec l (zlen src)); [lia|]. destruct Hlr as (? & ? & Hm). specialize (Hm ltac:(lia)). lia.
Qed.

(** A function that takes whole blocks, given enough room; [R st fed out] relates its
    state to what it was fed and what it wrote. *)
Definition feeds (upd : T -> bytes -> Z -> Z * T * bytes * Z) (R : T -> bytes -> bytes -> Prop) (B : Z) : Prop :=
  forall st fed out a dlen, R st fed out -> Forall is_byte a -> zlen a mod B = 0 -> zlen a <= dlen < 2 ^ 64 ->
  exists st' o, upd st a dlen = (TEE_SUCCESS, st', o, zlen a) /\ length o = length a /\ R st' (fed ++ a) (out ++ o).

Context (upd : T -> bytes -> Z -> Z * T * bytes * Z) (R : T -> bytes -> bytes -> Prop).

(** The invariant between the parts: [fed] went to the function, [out] came from it. *)
Definition fed_step op op' (fed out fed1 out1 : bytes) : Prop :=
  derived op op' /\ buf_ok op' /\ R (op_state op') (fed ++ fed1) (out ++ out1) /\ length out1 = length fed1 /\
  zlen fed1 mod op_block_size op = 0.

Lemma fed_step_refl op fed out : buf_ok op -> R (op_state op) fed out -> fed_step op op fed out [] [].
Proof. intros Hok HR. split; [apply derived_refl|]. rewrite !app_nil_r. split; [done|]. split; [done|]. split; done. Qed.

Lemma fed_step_trans op1 op2 op3 fed out f1 o1 f2 o2 :
  op_block_size op1 <> 0 ->
  fed_step op1 op2 fed out f1 o1 -> fed_step op2 op3 (fed ++ f1) (out ++ o1) f2 o2 ->
  fed_step op1 op3 fed out (f1 ++ f2) (o1 ++ o2).
Proof.
  intros HB (D1 & B1 & R1 & L1 & M1) (D2 & B2 & R2 & L2 & M2).
  destruct (derived_size _ _ D1) as (_ & _ & Hbs & _). rewrite Hbs in M2.
  split; [by eapply derived_trans|]. split; [done|]. rewrite !app_assoc. split; [done|].
  rewrite !length_app, Nat2Z.inj_add. split; [lia|]. rewrite Z.add_mod, M1, M2 by done. apply Zmod_0_l.
Qed.

(** The first [l] bytes of the pending data are fed and the rest moves to the start. *)
Lemma drop_pending op (b : bytes) l st :
  buf_ok op -> op_buffer op = Some b -> 0 <= l <= op_buffer_offs op ->
  exists b', mem_write (Some b) 0 (take (Z.to_nat (buffer_size op - l)) (drop (Z.to_nat l) b)) = Return (Some b') /\
    let op' := set_buffer (Some b') (op_buffer_offs op - l) (set_state st op) in
    buf_ok op' /\ pending op = take (Z.to_nat l) b ++ pending op'.
Proof.
  intros Hok Hb Hl. pose proof Hok as [H1 H2 (b0 & Hb0 & Hl0) Ho Hby]. rewrite Hb in Hb0. injection Hb0 as <-.
  set (rest := take _ _). assert (Hr : zlen rest = buffer_size op - l).
  { unfold rest. rewrite length_take, length_drop. lia. }
  destruct (mem_write_ok b 0 rest) as (b' & -> & Hl' & Ht); [lia | lia|].
  assert (Ht' : rest = take (length rest) b') by (change (take (Z.to_nat 0) b) with (@nil Z) in Ht; cbn [app] in Ht;
    rewrite <- Ht at 1; f_equal; lia).
  exists b'. split; [done|]. cbv zeta.
  assert (Hrest : rest = drop (Z.to_nat l) b) by (unfold rest; apply take_ge; rewrite length_drop; lia).
  assert (Hp : pending op = take (Z.to_nat l) b ++ pending (set_buffer (Some b') (op_buffer_offs op - l) (set_state st op))).
  { unfold pending. rewrite Hb. cbn. replace (Z.to_nat (op_buffer_offs op)) with (Z.to_nat l + Z.to_nat (op_buffer_offs op - l))%nat by lia.
    rewrite <- take_take_drop. f_equal. rewrite <- Hrest, Ht', take_take. f_equal. lia. }
  split; [|done]. split; [exact H1 | exact H2 | | |].
  - exists b'. split; [done|]. rewrite Hl'. exact Hl0.
  - cbn. change (buffer_size (set_buffer _ _ _)) with (buffer_size op). lia.
  - rewrite Hp in Hby. apply Forall_app in Hby as [_ Hby]. exact Hby.
Qed.

Lemma empty_buffer op o st : buf_ok op -> o = 0 ->
  buf_ok (set_buffer (op_buffer op) o (set_state st op)) /\ pending (set_buffer (op_buffer op) o (set_state st op)) = [].
Proof.
  intros [H1 H2 H3 H4 H5] ->. split; [|done]. split; [done | done | done | | constructor].
  cbn. change (buffer_size (set_buffer _ _ _)) with (buffer_size op). lia.
Qed.

(** What is fed from the buffer: everything that is pending, or as much as makes room for
    the data. *)
Lemma feed_buffer_ok op (src : bytes) dlen fed out :
  feeds upd R (op_block_size op) -> buf_ok op -> R (op_state op) fed out -> Forall is_byte src -> zlen src < 2 ^ 32 ->
  op_buffer_offs op mod op_block_size op = 0 ->
  (op_buffer_offs op + zlen src) / op_block_size op * op_block_size op <= dlen < 2 ^ 64 ->
  exists op' dlen' out1 fed1 stop, feed_buffer upd op src dlen = Return (op', dlen', out1, zlen fed1, stop) /\
    fed_step op op' fed out fed1 out1 /\ dlen' = dlen - zlen fed1 /\
    match stop with
    | true => pending op ++ src = fed1 ++ pending op' /\
        (op_two_blocks op = true -> op_block_size op < zlen (pending op'))
    | false => pending op = fed1 ++ pending op' /\
        (op_buffer_offs op' = 0 /\ (fed1 <> [] -> op_two_blocks op = true -> op_block_size op < zlen src) \/
         fed1 = [] /\ op_buffer_offs op' + zlen src < buffer_size op + buffer_left op)
    end.
Proof.
  intros Hupd Hok HR Hs Hlen Hm Hd. pose proof Hok as [HB Hcts (b & Hb & Hl) Ho Hby]. pose proof (pending_length op Hok) as Hpl.
  unfold feed_buffer. cbv zeta.
  set (offs := op_buffer_offs op) in *. set (B := op_block_size op) in *.
  assert (HS : buffer_size op = B /\ buffer_left op = 0 /\ op_two_blocks op = false \/
               buffer_size op = B * 2 /\ buffer_left op = 1 /\ op_two_blocks op = true)
    by (unfold buffer_size, buffer_left; fold B; destruct (op_two_blocks op); auto).
  rewrite (u64_small (offs + zlen src)) by (unfold is_u64; lia).
  destruct ((0 <? offs) && (buffer_size op + buffer_left op <=? offs + zlen src)) eqn:Hc.
  2:{ exists op, dlen, [], [], false. split; [done|]. split; [by apply fed_step_refl|]. split; [cbn; lia|]. split; [done|].
      apply andb_false_iff in Hc as [Hc | Hc]; zbool; [left | right]; fold offs; [split; [lia | done] | split; [done | lia]]. }
  zbool. rewrite (u64_small (offs + zlen src - buffer_size op)) by (unfold is_u64; lia).
  rewrite round_up by (try done; lia). set (l := Z.min offs _).
  assert (Hlr : 0 <= l <= offs /\ l mod B = 0 /\ l <= (offs + zlen src) / B * B /\
    (l < offs -> offs - l + zlen src <= buffer_size op /\ (op_two_blocks op = true -> B < offs - l + zlen src)) /\
    (l = offs -> op_two_blocks op = true -> B < zlen src)).
  { unfold l. destruct HB as [HB | HB]; rewrite HB in *; destruct HS as [(HS & HS2 & HS3) | (HS & HS2 & HS3)]; rewrite HS, HS3 in *;
      repeat split; Z.div_mod_to_equations; lia. }
  destruct Hlr as (L1 & L2 & L3 & L4 & L5). rewrite Hb, mem_read_ok by lia. cbn [obind].
  assert (Htl : zlen (take (Z.to_nat l) b) = l) by (rewrite length_take; lia).
  assert (Htb : Forall is_byte (take (Z.to_nat l) b)).
  { unfold pending in Hby. rewrite Hb in Hby. cbn in Hby. fold offs in Hby.
    replace (Z.to_nat l) with (Nat.min (Z.to_nat l) (Z.to_nat offs)) by lia. rewrite <- take_take. by apply Forall_take. }
  destruct (Hupd (op_state op) fed out (take (Z.to_nat l) b) dlen HR Htb) as (st' & o & -> & Hol & HR'); [by rewrite Htl | lia|].
  cbn [negb Z.eqb TEE_SUCCESS]. rewrite Htl. rewrite (u64_small (offs - l)), (u64_small (dlen - l)) by (unfold is_u64; lia).
  cbn [op_buffer_offs set_buffer set_state op_buffer].
  destruct (Z.ltb_spec 0 (offs - l)) as [Hrest | Hrest].
  - destruct (drop_pending op b l st' Hok Hb) as (b' & Hw & Hok' & Hp'); [fold offs; lia|].
    change (buffer_size (set_buffer (Some b) (offs - l) (set_state st' op))) with (buffer_size op).
    rewrite Hw. cbn [obind]. fold offs in Hok', Hp'. set (op1 := set_buffer (Some b') (offs - l) (set_state st' op)) in *.
    destruct (append_pending op1 b' src (offs - l + zlen src) st' Hok') as (b'' & Hw' & Hok'' & Hp''); [done | done | | done |].
    { change (op_buffer_offs op1) with (offs - l). change (buffer_size op1) with (buffer_size op). apply L4. lia. }
    change (op_buffer_offs op1) with (offs - l) in Hw'. rewrite Hw'. cbn [obind].
    rewrite (u64_small (offs - l + zlen src)) by (unfold is_u64; lia).
    exists (set_buffer (Some b'') (offs - l + zlen src) (set_state st' op1)), (dlen - l), o, (take (Z.to_nat l) b), true.
    rewrite Htl. split; [done|]. split; [split; [by do 3 eexists|]; split; [done|]; split; [done|]; split; [done|]; by rewrite Htl|].
    split; [done|]. rewrite Hp''. split; [rewrite Hp', <- app_assoc; done|].
    intros H2. rewrite length_app, Nat2Z.inj_add, (pending_length op1 Hok'). change (op_buffer_offs op1) with (offs - l). apply L4; [lia | done].
  - destruct (empty_buffer op (offs - l) st' Hok ltac:(lia)) as [Hok' Hp']. rewrite Hb in Hok', Hp'.
    exists (set_buffer (Some b) (offs - l) (set_state st' op)), (dlen - l), o, (take (Z.to_nat l) b), false.
    rewrite Htl. split; [done|]. split; [split; [by do 3 eexists|]; split; [done|]; split; [done|]; split; [done|]; by rewrite Htl|].
    split; [done|]. split.
    + rewrite Hp', app_nil_r. unfold pending. rewrite Hb. cbn. fold offs. f_equal. lia.
    + left. split; [cbn; lia|]. intros _. apply L5. lia.
Qed.

Lemma feed_src_ok op (src : bytes) dlen fed out :
  feeds upd R (op_block_size op) -> buf_ok op -> R (op_state op) fed out -> Forall is_byte src -> zlen src < 2 ^ 32 ->
  op_buffer_offs op = 0 \/ op_buffer_offs op + zlen src < buffer_size op + buffer_left op ->
  (op_buffer_offs op = 0 -> zlen src / op_block_size op * op_block_size op <= dlen) -> dlen < 2 ^ 64 ->
  exists op' out1 fed1, feed_src upd op src dlen = Return (op', out1, zlen fed1) /\
    fed_step op op' fed out fed1 out1 /\ pending op ++ src = fed1 ++ pending op' /\
    (op_algorithm op = TEE_ALG_AES_CTS -> fed1 <> [] -> op_block_size op < zlen (pending op')) /\
    (fed1 = [] -> zlen src <= zlen (pending op')).
Proof.
  intros Hupd Hok HR Hs Hlen Hoffs Hd1 Hd2. pose proof Hok as [HB Hcts (b & Hb & Hl) Ho Hby].
  pose proof (pending_length op Hok) as Hpl. unfold feed_src. cbv zeta.
  set (offs := op_buffer_offs op) in *. set (B := op_block_size op) in *.
  assert (HS : buffer_size op = B /\ buffer_left op = 0 /\ op_two_blocks op = false \/
               buffer_size op = B * 2 /\ buffer_left op = 1 /\ op_two_blocks op = true)
    by (unfold buffer_size, buffer_left; fold B; destruct (op_two_blocks op); auto).
  destruct (Z.leb_spec (buffer_size op + buffer_left op) (zlen src)) as [Hbig | Hsmall].
  - assert (Hz : offs = 0) by (destruct Hoffs; lia). specialize (Hd1 Hz).
    set (l := if op_algorithm op =? TEE_ALG_AES_CTS then _ else _).
    assert (Hlr : 0 < l <= zlen src /\ l mod B = 0 /\ l <= zlen src / B * B /\ zlen src - l <= buffer_size op /\
      (op_algorithm op = TEE_ALG_AES_CTS -> B < zlen src - l)).
    { unfold l. destruct (Z.eqb_spec (op_algorithm op) TEE_ALG_AES_CTS) as [E | E].
      - specialize (Hcts E). rewrite round_up by (try done; lia).
        destruct HB as [HB | HB]; rewrite HB in *; destruct HS as [(HS & HS2 & HS3) | (HS & HS2 & HS3)]; rewrite HS in *;
          try congruence; repeat split; Z.div_mod_to_equations; lia.
      - rewrite round_up by (try done; lia).
        destruct HB as [HB | HB]; rewrite HB in *; destruct HS as [(HS & HS2 & HS3) | (HS & HS2 & HS3)]; rewrite HS in *;
          repeat split; try done; Z.div_mod_to_equations; lia. }
    clearbody l. destruct Hlr as (L1 & L2 & L3 & L4 & L5). rewrite mem_read_ok by lia. cbn [obind].
    assert (Htl : zlen (take (Z.to_nat l) src) = l) by (rewrite length_take; lia).
    destruct (Hupd (op_state op) fed out (take (Z.to_nat l) src) dlen HR) as (st' & o & -> & Hol & HR');
      [by apply Forall_take | by rewrite Htl | lia|].
    cbn [negb Z.eqb TEE_SUCCESS obind]. cbn [op_buffer_offs set_state op_buffer]. fold offs.
    set (rest := drop (Z.to_nat l) src). assert (Hrl : zlen rest = zlen src - l) by (unfold rest; rewrite length_drop; lia).
    destruct (append_pending op b rest (offs + zlen rest) st' Hok Hb) as (b' & Hw & Hok' & Hp');
      [by apply Forall_drop | fold offs; lia | done|].
    rewrite Hb. fold offs in Hw. rewrite Hw. cbn [obind]. rewrite (u64_small (offs + zlen rest)) by (unfold is_u64; lia).
    exists (set_buffer (Some b') (offs + zlen rest) (set_state st' op)), o, (take (Z.to_nat l) src).
    assert (Hp0 : pending op = []) by (destruct (pending op); [done|]; cbn in Hpl; lia).
    split; [done|]. split; [split; [by do 3 eexists|]; split; [done|]; split; [done|]; split; [done|]; by rewrite Htl|].
    cbv zeta in Hp'. rewrite Hp', Hp0. cbn [app]. split; [unfold rest; by rewrite take_drop|]. rewrite Hrl.
    split; [intros Hc _; by apply L5|]. intros Hnil. rewrite Hnil in Htl. cbn in Htl. lia.
  - cbn [obind]. fold offs.
    destruct (append_pending op b src (offs + zlen src) (op_state op) Hok Hb) as (b' & Hw & Hok' & Hp');
      [done | fold offs; lia | done|].
    rewrite Hb. fold offs in Hw. rewrite Hw. cbn [obind]. rewrite (u64_small (offs + zlen src)) by (unfold is_u64; lia).
    replace (set_buffer (Some b') (offs + zlen src) op) with (set_buffer (Some b') (offs + zlen src) (set_state (op_state op) op))
      by (by destruct op).
    exists (set_buffer (Some b') (offs + zlen src) (set_state (op_state op) op)), [], [].
    split; [done|]. split; [split; [by do 3 eexists|]; split; [done|]; by rewrite !app_nil_r|].
    cbv zeta in Hp'. rewrite Hp'. split; [done|]. split; [done|]. intros _. rewrite length_app. lia.
Qed.

(** The whole function: with room for the complete blocks there are, it never panics; it
    feeds whole blocks and keeps the rest, of more than a block for ciphertext stealing. *)
Lemma tee_buffer_update_ok op (src : bytes) dlen fed out :
  feeds upd R (op_block_size op) -> buf_ok op -> R (op_state op) fed out -> Forall is_byte src -> zlen src < 2 ^ 32 ->
  (op_buffer_offs op + zlen src) / op_block_size op * op_block_size op <= dlen < 2 ^ 64 ->
  exists op' out1 fed1, tee_buffer_update upd op (Buf src) dlen = Return (op', out1, zlen fed1) /\
    fed_step op op' fed out fed1 out1 /\ pending op ++ src = fed1 ++ pending op' /\
    (op_algorithm op = TEE_ALG_AES_CTS -> fed1 <> [] -> op_block_size op < zlen (pending op')).
Proof.
  intros Hupd Hok HR Hs Hlen Hd. pose proof (pending_length op Hok) as Hpl.
  assert (HB0 : 0 < op_block_size op) by (destruct (bo_block op Hok); lia).
  unfold tee_buffer_update.
  destruct (fill_block_ok op src Hok Hs Hlen) as (op1 & src1 & stop1 & -> & D1 & S1 & Hok1 & P1 & Hsh & ST1 & ST2). cbn [obind].
  destruct (derived_size _ _ D1) as (E1 & E2 & E3 & E4 & E5).
  assert (F1 : fed_step op op1 fed out [] []).
  { split; [done|]. split; [done|]. rewrite !app_nil_r, S1. split; [done|]. split; done. }
  destruct stop1.
  { specialize (ST1 eq_refl) as ->. exists op1, [], []. split; [done|]. split; [done|]. rewrite app_nil_r in P1. done. }
  specialize (ST2 eq_refl). pose proof (pending_length op1 Hok1) as Hpl1.
  assert (Hs1 : Forall is_byte src1) by (assert (H1 : Forall is_byte (pending op1 ++ src1)) by
    (rewrite <- P1; apply Forall_app; split; [apply Hok | done]); apply Forall_app in H1; tauto).
  assert (Hsum : op_buffer_offs op1 + zlen src1 = op_buffer_offs op + zlen src).
  { apply (f_equal length) in P1. rewrite !length_app in P1. lia. }
  assert (Hl1 : zlen src1 < 2 ^ 32) by lia.
  destruct (feed_buffer_ok op1 src1 dlen fed out) as (op2 & dlen2 & out1 & fed1 & stop2 & -> & F2 & -> & HP);
    rewrite ?E3, ?S1, ?Hsum; try done.
  cbn [obind].
  assert (HB1 : op_block_size op1 <> 0) by (rewrite E3; intros ?; lia). rewrite E3, E5 in HP.
  pose proof F2 as (D2 & Hok2 & R2 & _). destruct (derived_size _ _ D2) as (G1 & G2 & G3 & G4 & G5).
  assert (HBn : op_block_size op <> 0) by lia.
  assert (F12 : fed_step op op2 fed out ([] ++ fed1) ([] ++ out1))
    by (apply (fed_step_trans op op1 op2); [done | done | by rewrite !app_nil_r]). cbn [app] in F12.
  destruct stop2.
  { destruct HP as [HP1 HP2]. exists op2, out1, fed1. split; [done|]. split; [done|]. rewrite P1. split; [done|].
    intros Hc _. apply HP2. by apply (bo_cts op Hok). }
  destruct HP as [HP1 HP2].
  assert (Hsum2 : zlen fed1 + op_buffer_offs op2 = op_buffer_offs op1).
  { apply (f_equal length) in HP1. rewrite length_app in HP1. pose proof (pending_length op2 Hok2). lia. }
  destruct (feed_src_ok op2 src1 (dlen - zlen fed1) (fed ++ fed1) (out ++ out1)) as (op3 & out2 & fed2 & -> & F3 & P3 & C1 & C2);
    rewrite ?G3, ?E3; try done; try lia.
  { intros Hz. destruct F2 as (_ & _ & _ & _ & HM). rewrite E3 in HM.
    apply Z.mod_divide in HM as [q Hq]; [|lia]. rewrite Hz in Hsum2.
    rewrite <- Hsum in Hd. replace (op_buffer_offs op1) with (zlen fed1) in Hd by lia. rewrite Hq in Hd |- *.
    rewrite Z.div_add_l in Hd by lia. lia. }
  cbn [obind]. pose proof (fed_step_trans op op2 op3 _ _ _ _ _ _ HBn F12 F3) as F123.
  exists op3, (out1 ++ out2), (fed1 ++ fed2). split.
  { rewrite length_app, Nat2Z.inj_add. rewrite u64_small; [done|].
    pose proof (bo_offs op1 Hok1) as Ho1. pose proof (bo_offs op3 (proj1 (proj2 F3))) as Ho3.
    apply (f_equal length) in P3. rewrite !length_app in P3. pose proof (pending_length op2 Hok2).
    assert (op_buffer_offs op1 <= 32) by (revert Ho1; unfold buffer_size; rewrite E3, E5; destruct (bo_block op Hok) as [-> | ->], (op_two_blocks op); lia).
    unfold is_u64. lia. }
  split; [done|]. split; [rewrite P1, HP1, <- !app_assoc; by rewrite P3|].
  intros Hc Hne. assert (Htwo : op_two_blocks op = true) by (by apply (bo_cts op Hok)).
  rewrite <- G3, E3 in C1 || rewrite ?G3, ?E3 in C1. destruct fed2 as [|x fed2].
  - specialize (C2 eq_refl). destruct HP2 as [[_ HP2] | [-> _]]; [|done]. rewrite app_nil_r in Hne. specialize (HP2 Hne Htwo). lia.
  - apply C1; [by rewrite G4, E4 | done].
Qed.
End buffer.
