(* ===== verification/TeeOpSpec.v ===== *)
(** * Ciphering in pieces

    The contract of the cipher functions of the API, proved against the interface of the
    kernel: whichever way a message is cut into pieces, the result is that of the whole
    message. *)

From S2P Require Import Prelude Cipher CipherSvc TeeOp TeeOpBuffer.
From stdpp Require Import base list.
From Stdlib Require Import ZArith Lia.

Local Open Scope Z_scope.

Section client.
Context {CS : CipherSvc} {HS : HashSvc svc_state}.
Implicit Types op : operation svc_state.

(** What a client does: updates with pieces of the message, each with the size of its
    output buffer, then the last piece. [None]: a call returned an error. *)
Fixpoint cipher_updates op (l : list (bytes * Z)) : outcome (option (operation svc_state * bytes)) :=
  match l with
  | [] => Return (Some (op, []))
  | (chunk, destLen) :: l =>
      (do! (res, (op, d, n)) <- TEE_CipherUpdate op (Buf chunk) destLen;
       if negb (res =? TEE_SUCCESS) then Return None
       else
         do! r <- cipher_updates op l;
         Return ((fun '(op, o) => (op, take (Z.to_nat n) d ++ o)) <$> r))%c
  end.

Definition cipher_run op (l : list (bytes * Z)) (last : bytes) (destLen : Z) : outcome (option bytes) :=
  (do! r <- cipher_updates op l;
   match r with
   | None => Return None
   | Some (op, o) =>
       do! (res, (_, d, n)) <- TEE_CipherDoFinal op (Buf last) (Some destLen);
       if negb (res =? TEE_SUCCESS) then Return None else Return (Some (o ++ take (Z.to_nat (default 0 n)) d))
   end)%c.

(** Each output buffer has room for its piece and two blocks. *)
Definition roomy (bs : nat) (c : bytes * Z) : Prop :=
  Forall is_byte c.1 /\ zlen c.1 + 2 * Z.of_nat bs <= c.2 < 2 ^ 32.

Context (algo : Z) (bs : nat) {SS : StreamSvc CS algo bs}.

(** An operation in the middle of a message of which [fed] went to the kernel. *)
Record in_message (f : bytes -> bytes) op (fed out : bytes) : Prop := {
  im_class : op_operationClass op = TEE_OPERATION_CIPHER;
  im_active : op_active op = true;
  im_algo : op_algorithm op = algo;
  im_block : op_block_size op = Z.of_nat bs;
  im_buf : buf_ok op;
  im_svc : exists f', svc_streams (op_state op) f' /\
    forall b, Forall is_byte b -> final_ok algo bs (length b) -> f (fed ++ b) = out ++ f' b;
  im_out : length out = length fed;
  im_fed : (length fed mod bs = 0)%nat;
  im_cts : algo = TEE_ALG_AES_CTS -> fed <> [] -> Z.of_nat bs < zlen (pending op);
}.

Definition svc_rel (f : bytes -> bytes) (st : svc_state) (fed out : bytes) : Prop :=
  exists f', svc_streams st f' /\ forall b, Forall is_byte b -> final_ok algo bs (length b) -> f (fed ++ b) = out ++ f' b.

Lemma mod_of_nat n : (n mod bs = 0)%nat <-> Z.of_nat n mod Z.of_nat bs = 0.
Proof. rewrite <- Nat2Z.inj_mod. lia. Qed.

Lemma svc_feeds f : bs <> 0%nat -> feeds svc_update (svc_rel f) (Z.of_nat bs).
Proof.
  intros Hbs st fed out a dlen (f' & Hst & Hf) Ha Hm Hd. apply mod_of_nat in Hm.
  destruct (svc_update_streams st f' a dlen Hst Ha Hm) as (st' & o & f'' & -> & Hl & Hst' & Hf'); [lia|].
  exists st', o. split; [done|]. split; [done|]. exists f''. split; [done|]. intros b Hb Hok.
  rewrite <- !app_assoc. rewrite Hf; [by rewrite Hf' | by apply Forall_app|].
  rewrite length_app. by apply final_ok_app.
Qed.

Lemma in_message_update f op fed out (src : bytes) dlen :
  in_message f op fed out -> Forall is_byte src -> zlen src < 2 ^ 32 ->
  (op_buffer_offs op + zlen src) / Z.of_nat bs * Z.of_nat bs <= dlen < 2 ^ 64 ->
  exists op' out1 fed1, tee_buffer_update svc_update op (Buf src) dlen = Return (op', out1, zlen fed1) /\
    length out1 = length fed1 /\ pending op ++ src = fed1 ++ pending op' /\ in_message f op' (fed ++ fed1) (out ++ out1).
Proof.
  intros [H1 H2 H3 H4 H5 H6 H7 H8 H9] Hs Hl Hd.
  assert (Hbs : bs <> 0%nat) by (destruct (bo_block op H5); lia).
  destruct (tee_buffer_update_ok svc_update (svc_rel f) op src dlen fed out)
    as (op' & out1 & fed1 & Hu & (D & Hok & HR & Hlen & Hm) & Hp & Hc); rewrite ?H4; try done; [by apply svc_feeds|].
  exists op', out1, fed1. split; [done|]. split; [done|]. split; [done|]. rewrite H4, <- mod_of_nat in Hm.
  pose proof (derived_size _ _ D) as (_ & _ & E3 & E4 & _). destruct D as (b & o & st & ->).
  split; [done | exact H2 | by rewrite E4 | by rewrite E3 | done | exact HR | | |].
  - rewrite !length_app. lia.
  - rewrite length_app. apply mod_of_nat. rewrite Nat2Z.inj_add, Z.add_mod by lia.
    apply mod_of_nat in H8, Hm. rewrite H8, Hm. apply Zmod_0_l.
  - intros Ha Hne. destruct fed1 as [|x fed1].
    + rewrite app_nil_r in Hne. specialize (H9 Ha Hne). apply (f_equal length) in Hp. rewrite !length_app in Hp. cbn in Hp. lia.
    + rewrite <- H4. apply Hc; [by rewrite H3 | done].
Qed.

Lemma pending_bound f op fed out : in_message f op fed out ->
  zlen (pending op) = op_buffer_offs op /\ op_buffer_offs op <= 2 * Z.of_nat bs.
Proof.
  intros [_ _ _ H4 H5 _ _ _ _]. split; [by apply pending_length|].
  pose proof (bo_offs op H5) as Ho. unfold buffer_size in Ho. rewrite H4 in Ho. destruct (op_two_blocks op); lia.
Qed.

Lemma block_size_gt1 f op fed out : in_message f op fed out -> (1 <? op_block_size op) = true.
Proof. intros [_ _ _ _ H5 _ _ _ _]. by destruct (bo_block op H5) as [-> | ->]. Qed.

(** An update takes the piece, and stores how much it wrote. *)
Lemma cipher_update_ok f op fed out (chunk : bytes) destLen :
  in_message f op fed out -> roomy bs (chunk, destLen) ->
  exists op' out1 fed1, TEE_CipherUpdate op (Buf chunk) destLen = Return (TEE_SUCCESS, (op', out1, zlen out1)) /\
    length out1 = length fed1 /\ pending op ++ chunk = fed1 ++ pending op' /\ in_message f op' (fed ++ fed1) (out ++ out1).
Proof.
  intros Him [Hb Hr]. cbn [fst snd] in *. pose proof (pending_bound _ _ _ _ Him) as [Hp1 Hp2].
  pose proof (block_size_gt1 _ _ _ _ Him) as Hgt. pose proof Him as [H1 H2 H3 H4 H5 _ _ _ _].
  assert (Hbs : bs = 8%nat \/ bs = 16%nat) by (destruct (bo_block op H5); lia).
  assert (Hreq : (op_buffer_offs op + zlen chunk) / Z.of_nat bs * Z.of_nat bs <= op_buffer_offs op + zlen chunk).
  { rewrite Z.mul_comm. apply Z.mul_div_le. lia. }
  destruct (in_message_update f op fed out chunk destLen Him Hb) as (op' & out1 & fed1 & Hu & Hl & Hp & Him'); [lia | lia|].
  exists op', out1, fed1. split; [|done]. unfold TEE_CipherUpdate. cbn [in_bad in_len in_none in_data].
  rewrite H1, H2. cbn [negb Z.eqb TEE_OPERATION_CIPHER Pos.eqb].
  assert (Hroom : cipher_req_dlen op (zlen chunk) <= destLen).
  { unfold cipher_req_dlen. rewrite Hgt, H4, u64_small by (unfold is_u64; lia).
    destruct (op_two_blocks op); [case_match; zbool|]; lia. }
  destruct (Z.ltb_spec destLen (cipher_req_dlen op (zlen chunk))); [lia|].
  rewrite Hgt, Hu. cbn [obind]. rewrite u32_small; [by rewrite Hl|].
  apply (f_equal length) in Hp. rewrite !length_app in Hp. unfold is_u32. lia.
Qed.

Lemma cipher_updates_ok f l : forall op fed out,
  in_message f op fed out -> Forall (roomy bs) l ->
  exists op' out1 fed1, cipher_updates op l = Return (Some (op', out1)) /\
    pending op ++ concat l.*1 = fed1 ++ pending op' /\ in_message f op' (fed ++ fed1) (out ++ out1).
Proof.
  induction l as [|[chunk dl] l IH]; intros op fed out Him Hr; cbn [cipher_updates].
  - exists op, [], []. cbn. rewrite !app_nil_r. done.
  - apply Forall_cons in Hr as [Hr1 Hr2].
    destruct (cipher_update_ok f op fed out chunk dl Him Hr1) as (op1 & out1 & fed1 & -> & Hl & Hp & Him1).
    cbn [obind negb Z.eqb TEE_SUCCESS].
    destruct (IH op1 _ _ Him1 Hr2) as (op2 & out2 & fed2 & -> & Hp2 & Him2). cbn [obind].
    exists op2, (out1 ++ out2), (fed1 ++ fed2). split; [cbn; by rewrite Nat2Z.id, take_ge by lia|].
    split; [|by rewrite !app_assoc]. assert (Hc : concat ((chunk, dl) :: l).*1 = chunk ++ concat l.*1) by done. rewrite Hc, app_assoc, Hp, <- !app_assoc, Hp2. done.
Qed.

(** What is left for the last call is acceptable to the kernel when the whole message is. *)
Lemma final_rest_ok f op fed out (rest : bytes) :
  in_message f op fed out -> pending op = rest -> final_ok algo bs (length (fed ++ rest)) -> final_ok algo bs (length rest).
Proof.
  intros [_ _ _ H4 H5 _ _ H8 H9] Hp. unfold final_ok. destruct (Z.eqb_spec algo TEE_ALG_AES_CTS) as [E | E].
  - intros Hlt. rewrite Hp in H9. destruct fed as [|x fed]; [done|]. specialize (H9 E ltac:(done)). lia.
  - rewrite length_app. intros Hm. apply mod_of_nat. apply mod_of_nat in H8, Hm.
    assert (Z.of_nat bs <> 0) by (destruct (bo_block op H5); lia).
    rewrite Nat2Z.inj_add, Z.add_mod, H8 in Hm by done. rewrite Z.add_0_l, Z.mod_mod in Hm by done. done.
Qed.

Lemma cipher_final_ok f op fed out (last : bytes) destLen :
  in_message f op fed out -> roomy bs (last, destLen) ->
  final_ok algo bs (length (fed ++ pending op ++ last)) ->
  exists op' d, TEE_CipherDoFinal op (Buf last) (Some destLen) = Return (TEE_SUCCESS, (op', d, Some (zlen d))) /\
    out ++ d = f (fed ++ pending op ++ last).
Proof.
  intros Him [Hb Hr] Hok. cbn [fst snd] in *. pose proof (pending_bound _ _ _ _ Him) as [Hp1 Hp2].
  pose proof (block_size_gt1 _ _ _ _ Him) as Hgt. pose proof Him as [H1 H2 H3 H4 H5 _ _ H8 _].
  assert (Hbs : bs = 8%nat \/ bs = 16%nat) by (destruct (bo_block op H5); lia).
  unfold TEE_CipherDoFinal. cbn [in_bad in_len in_none in_data default].
  rewrite H1, H2, Hgt. cbn [negb Z.eqb TEE_OPERATION_CIPHER Pos.eqb].
  rewrite (u64_small (op_buffer_offs op + zlen last)) by (unfold is_u64; lia).
  assert (Hpad : one_of (op_algorithm op) padded_by_client && negb ((op_buffer_offs op + zlen last) mod op_block_size op =? 0) = false).
  { destruct (one_of (op_algorithm op) padded_by_client) eqn:E; [|done]. cbn [andb]. rewrite H3 in E.
    assert (Hnc : (algo =? TEE_ALG_AES_CTS) = false).
    { apply Z.eqb_neq. intros Ha. rewrite Ha in E. by vm_compute in E. }
    unfold final_ok in Hok. rewrite Hnc in Hok. apply mod_of_nat in Hok, H8.
    rewrite !length_app, !Nat2Z.inj_add, Z.add_mod, H8, Z.add_0_l, Z.mod_mod, Hp1 in Hok by lia. by rewrite H4, Hok. }
  rewrite Hpad. cbn [from_option id]. destruct (Z.ltb_spec destLen (op_buffer_offs op + zlen last)); [lia|].
  assert (Hmid : exists op1 out1 fed1,
    (if negb (zlen last =? 0) then
       (do! (op, d1, n1) <- tee_buffer_update svc_update op (Buf last) destLen; Return (op, d1, n1, u64 (destLen - n1)))%c
     else Return (op, [], 0, destLen)) = Return (op1, out1, zlen fed1, destLen - zlen fed1) /\
    length out1 = length fed1 /\ pending op ++ last = fed1 ++ pending op1 /\ in_message f op1 (fed ++ fed1) (out ++ out1)).
  { destruct (Z.eqb_spec (zlen last) 0) as [E | E]; cbn [negb].
    - destruct last; [|done]. exists op, [], []. cbn [length Z.of_nat app]. rewrite !app_nil_r, Z.sub_0_r. done.
    - assert ((op_buffer_offs op + zlen last) / Z.of_nat bs * Z.of_nat bs <= op_buffer_offs op + zlen last)
        by (rewrite Z.mul_comm; apply Z.mul_div_le; lia).
      destruct (in_message_update f op fed out last destLen Him Hb) as (op1 & out1 & fed1 & -> & Hl & Hp & Him1); [lia | lia|].
      exists op1, out1, fed1. cbn [obind]. rewrite u64_small; [done|].
      apply (f_equal length) in Hp. rewrite !length_app in Hp. unfold is_u64. lia. }
  destruct Hmid as (op1 & out1 & fed1 & -> & Hl1 & Hp & Him1). cbn [obind].
  pose proof (pending_bound _ _ _ _ Him1) as [Hq1 Hq2]. pose proof Him1 as [_ _ _ H4' H5' (f' & Hst & Hf) Ho' _ _].
  destruct (bo_buffer op1 H5') as (b & Hbuf & Hbl). rewrite Hbuf. pose proof (bo_offs op1 H5').
  rewrite mem_read_ok by lia. cbn [obind].
  assert (Hpend : take (Z.to_nat (op_buffer_offs op1)) b = pending op1) by (unfold pending; by rewrite Hbuf). rewrite Hpend.
  rewrite Hp in Hok |- *. rewrite (app_assoc fed) in Hok |- *.
  pose proof (final_rest_ok _ _ _ _ _ Him1 eq_refl Hok) as Hfin.
  assert (Hroom : zlen (pending op1) <= destLen - zlen fed1).
  { apply (f_equal length) in Hp. rewrite !length_app in Hp. lia. }
  destruct (svc_final_streams (op_state op1) f' (pending op1) (destLen - zlen fed1) Hst (bo_bytes op1 H5') Hfin Hroom) as (st' & -> & Hfl).
  cbn [obind negb Z.eqb TEE_SUCCESS fmap option_fmap option_map]. do 2 eexists. split.
  - do 4 f_equal. rewrite u32_small; [rewrite length_app; lia|].
    apply (f_equal length) in Hp. rewrite !length_app in Hp. unfold is_u32. lia.
  - rewrite app_assoc. symmetry. apply Hf; [apply H5' | done].
Qed.

(** From the start of a message. *)
Lemma cipher_run_ok f op l last destLen :
  in_message f op [] [] -> pending op = [] -> Forall (roomy bs) l -> roomy bs (last, destLen) ->
  final_ok algo bs (length (concat l.*1 ++ last)) ->
  cipher_run op l last destLen = Return (Some (f (concat l.*1 ++ last))).
Proof.
  intros Him Hp Hl Hlast Hok. unfold cipher_run.
  destruct (cipher_updates_ok f l op [] [] Him Hl) as (op1 & out1 & fed1 & -> & Hp1 & Him1). cbn [obind].
  rewrite Hp in Hp1. cbn [app] in Hp1, Him1.
  assert (Heq : concat l.*1 ++ last = fed1 ++ pending op1 ++ last) by (rewrite Hp1; symmetry; apply app_assoc).
  rewrite Heq in Hok |- *.
  destruct (cipher_final_ok f op1 fed1 out1 last destLen Him1 Hlast Hok) as (op2 & d & -> & Hd).
  cbn [obind negb Z.eqb TEE_SUCCESS from_option id]. rewrite Nat2Z.id, take_ge by lia. by rewrite Hd.
Qed.

(** With a buffer of one block the room asked for is enough: an update is refused without
    any effect, or done. *)
Lemma cipher_update_one_block f op fed out (chunk : bytes) destLen :
  in_message f op fed out -> op_two_blocks op = false -> Forall is_byte chunk ->
  zlen chunk + 2 * Z.of_nat bs < 2 ^ 32 -> 0 <= destLen < 2 ^ 32 ->
  let req := (zlen (pending op) + zlen chunk) / Z.of_nat bs * Z.of_nat bs in
  if destLen <? req
  then TEE_CipherUpdate op (Buf chunk) destLen = Return (TEE_ERROR_SHORT_BUFFER, (op, [], req))
  else exists op' out1 fed1, TEE_CipherUpdate op (Buf chunk) destLen = Return (TEE_SUCCESS, (op', out1, zlen out1)) /\
    length out1 = length fed1 /\ pending op ++ chunk = fed1 ++ pending op' /\ in_message f op' (fed ++ fed1) (out ++ out1).
Proof.
  intros Him Htwo Hb Hl Hd. pose proof (pending_bound _ _ _ _ Him) as [Hp1 Hp2]. rewrite Hp1.
  pose proof (block_size_gt1 _ _ _ _ Him) as Hgt. pose proof Him as [H1 H2 H3 H4 H5 _ _ _ _].
  assert (Hbs : bs = 8%nat \/ bs = 16%nat) by (destruct (bo_block op H5); lia). pose proof (bo_offs op H5) as Ho. cbv zeta.
  assert (Hreq : cipher_req_dlen op (zlen chunk) = (op_buffer_offs op + zlen chunk) / Z.of_nat bs * Z.of_nat bs).
  { unfold cipher_req_dlen. by rewrite Hgt, Htwo, H4, u64_small by (unfold is_u64; lia). }
  assert (Hle : 0 <= (op_buffer_offs op + zlen chunk) / Z.of_nat bs * Z.of_nat bs <= op_buffer_offs op + zlen chunk).
  { split; [apply Z.mul_nonneg_nonneg; [apply Z.div_pos; lia | lia]|]. rewrite Z.mul_comm. apply Z.mul_div_le. lia. }
  unfold TEE_CipherUpdate. cbn [in_bad in_len in_none in_data].
  rewrite H1, H2, Hreq. cbn [negb Z.eqb TEE_OPERATION_CIPHER Pos.eqb].
  set (req := (op_buffer_offs op + zlen chunk) / Z.of_nat bs * Z.of_nat bs) in *.
  destruct (Z.ltb_spec destLen req).
  - cbn. rewrite u32_small; [done | unfold is_u32; lia].
  - destruct (in_message_update f op fed out chunk destLen Him Hb) as (op' & out1 & fed1 & Hu & Hlen & Hp & Him'); [lia | fold req; lia|].
    exists op', out1, fed1. split; [|done]. rewrite Hgt, Hu. cbn [obind]. rewrite u32_small; [by rewrite Hlen|].
    apply (f_equal length) in Hp. rewrite !length_app in Hp. unfold is_u32. lia.
Qed.
End client.
