(* ===== verification/TeeOpState.v ===== *)
(** * The state of an operation

    The well-formedness that every function of [TeeOp] keeps: block size, buffer and
    offset agree with the algorithm, and the flags with the state, whatever the kernel
    answers. *)

From S2P Require Import Prelude Cipher CipherSvc TeeOp TeeOpBuffer.
From stdpp Require Import base list.
From Stdlib Require Import ZArith Lia.

Local Open Scope Z_scope.

(** ** Flags *)

Lemma has_flag_lor x k j : 0 <= k -> 0 <= j -> has_flag (Z.lor x (2 ^ k)) (2 ^ j) = has_flag x (2 ^ j) || (k =? j).
Proof.
  intros Hk Hj. rewrite !has_flag_testbit, Z.lor_spec by done. by rewrite Z.pow2_bits_eqb.
Qed.

Lemma has_flag_clear x k j : 0 <= k < 32 -> 0 <= j < 32 ->
  has_flag (Z.land x (u32 (Z.lnot (2 ^ k)))) (2 ^ j) = has_flag x (2 ^ j) && negb (k =? j).
Proof.
  intros Hk Hj. rewrite !has_flag_testbit, Z.land_spec by lia. f_equal.
  unfold u32. change 4294967296 with (2 ^ 32). rewrite Z.mod_pow2_bits_low by lia.
  rewrite Z.lnot_spec, Z.pow2_bits_eqb by lia. done.
Qed.

Section flags.
Context {T : Type}.
Implicit Types op : operation T.

Definition op_flag (f : Z) : Prop :=
  f = TEE_HANDLE_FLAG_INITIALIZED \/ f = TEE_HANDLE_FLAG_KEY_SET \/ f = TEE_HANDLE_FLAG_EXPECT_TWO_KEYS.

Lemma op_flag_bit f : op_flag f -> exists k, 17 <= k <= 19 /\ f = 2 ^ k.
Proof. intros [-> | [-> | ->]]; [exists 17 | exists 18 | exists 19]; (split; [lia | done]). Qed.

Lemma pow2_eqb k j : 0 <= k -> 0 <= j -> (2 ^ k =? 2 ^ j) = (k =? j).
Proof.
  intros Hk Hj. destruct (Z.eqb_spec k j) as [-> | E]; [apply Z.eqb_refl|]. apply Z.eqb_neq. intros H2.
  apply E. by apply (Z.pow_inj_r 2).
Qed.

Lemma op_has_set f g op : op_flag f -> op_flag g -> op_has f (set_flag g op) = op_has f op || (g =? f).
Proof.
  intros Hf Hg. destruct (op_flag_bit f Hf) as (k & Hk & ->). destruct (op_flag_bit g Hg) as (j & Hj & ->).
  unfold op_has, set_flag. cbn [op_handleState set_handleState]. rewrite has_flag_lor, pow2_eqb by lia. done.
Qed.

Lemma op_has_clear f g op : op_flag f -> op_flag g -> op_has f (clear_flag g op) = op_has f op && negb (g =? f).
Proof.
  intros Hf Hg. destruct (op_flag_bit f Hf) as (k & Hk & ->). destruct (op_flag_bit g Hg) as (j & Hj & ->).
  unfold op_has, clear_flag. cbn [op_handleState set_handleState]. rewrite has_flag_clear, pow2_eqb by lia. done.
Qed.
End flags.

(** ** The buffer, whatever the function fed answers *)

Section shape.
Context {CS : CipherSvc}.
Notation T := svc_state.
Implicit Types op : operation T.

Definition dummy_upd (st : T) (a : bytes) (dlen : Z) : Z * T * bytes * Z := (TEE_SUCCESS, st, replicate (length a) 0, zlen a).

Lemma feed_buffer_shape upd op src d1 d2 op' x o n stop :
  feed_buffer upd op src d1 = Return (op', x, o, n, stop) ->
  exists op2 x2 o2 n2 st, feed_buffer dummy_upd op src d2 = Return (op2, x2, o2, n2, stop) /\ op' = set_state st op2.
Proof.
  unfold feed_buffer. cbv zeta. destruct (_ && _).
  2:{ intros [= -> -> <- <- <-]. do 4 eexists. exists (op_state op'). split; [done|]. by destruct op'. }
  destruct (op_buffer op) as [b|] eqn:Hb; [|done]. destruct (mem_read b _); [|done]. cbn [obind].
  destruct (upd _ _ d1) as [[[res st] o1] n1]. destruct (negb (res =? TEE_SUCCESS)); [done|].
  cbn [negb Z.eqb TEE_SUCCESS dummy_upd]. cbn [op_buffer_offs set_buffer set_state op_buffer].
  unfold buffer_size. cbn [op_two_blocks op_block_size set_buffer set_state]. destruct (0 <? _).
  - destruct (mem_write (Some b) 0 _) as [b1|]; [|done]. cbn [obind].
    destruct (mem_write b1 _ src) as [b2|]; [|done]. cbn [obind]. intros [= <- <- <- <- <-].
    do 4 eexists. exists st. split; [done|]. done.
  - intros [= <- <- <- <- <-]. do 4 eexists. exists st. split; [done|]. done.
Qed.

Lemma feed_src_shape upd op st0 src d1 d2 op' o n :
  feed_src upd (set_state st0 op) src d1 = Return (op', o, n) ->
  exists op2 o2 n2 st, feed_src dummy_upd op src d2 = Return (op2, o2, n2) /\ op' = set_state st op2.
Proof.
  unfold feed_src. cbv zeta. unfold buffer_size, buffer_left.
  cbn [op_two_blocks op_block_size set_state op_algorithm op_state]. destruct (_ <=? _).
  - destruct (mem_read src _); [|done]. cbn [obind].
    destruct (upd st0 _ d1) as [[[res st] o1] n1]. destruct (negb (res =? TEE_SUCCESS)); [done|].
    cbn [negb Z.eqb TEE_SUCCESS dummy_upd obind]. cbn [op_buffer_offs set_buffer set_state op_buffer].
    destruct (mem_write _ _ _) as [b2|]; [|done]. cbn [obind]. intros [= <- <- <-].
    do 3 eexists. exists st. split; done.
  - cbn [obind op_buffer_offs set_state op_buffer]. destruct (mem_write _ _ _) as [b2|]; [|done]. cbn [obind]. intros [= <- <- <-].
    do 3 eexists. exists st0. split; done.
Qed.

Lemma tee_buffer_update_shape upd op src d1 op' o n :
  buf_ok op -> Forall is_byte src -> zlen src < 2 ^ 32 ->
  tee_buffer_update upd op (Buf src) d1 = Return (op', o, n) -> derived op op' /\ buf_ok op'.
Proof.
  intros Hok Hs Hl Hu.
  assert (Hd : exists op2 o2 n2 st, tee_buffer_update dummy_upd op (Buf src) (2 ^ 63) = Return (op2, o2, n2) /\ op' = set_state st op2).
  { unfold tee_buffer_update in *. destruct (fill_block op src) as [[[op1 src1] stop1]|]; [|done]. cbn [obind] in *.
    destruct stop1; [injection Hu as -> <- <-; do 3 eexists; exists (op_state op'); split; [done|]; by destruct op'|].
    destruct (feed_buffer upd op1 src1 d1) as [[[[[op2 x2] o2] n2] stop2]|] eqn:E2; [|done]. cbn [obind] in *.
    destruct (feed_buffer_shape _ _ _ _ (2 ^ 63) _ _ _ _ _ E2) as (op2' & x2' & o2' & n2' & st2 & -> & ->). cbn [obind].
    destruct stop2; [injection Hu as <- <- <-; do 3 eexists; exists st2; done|].
    destruct (feed_src upd (set_state st2 op2') src1 x2) as [[[op3 o3] n3]|] eqn:E3; [|done]. cbn [obind] in *.
    destruct (feed_src_shape _ _ _ _ _ x2' _ _ _ E3) as (op3' & o3' & n3' & st3 & -> & ->). cbn [obind].
    injection Hu as <- <- <-. do 3 eexists. exists st3. done. }
  destruct Hd as (op2 & o2 & n2 & st & H2 & ->).
  destruct (tee_buffer_update_ok dummy_upd (fun _ _ _ => True) op src (2 ^ 63) [] []) as (op3 & o3 & f3 & H3 & (D & Hok3 & _) & _); try done.
  - intros st1 fed out a dlen _ Ha Hm Hd. do 2 eexists. split; [done|]. rewrite length_replicate. done.
  - pose proof (bo_offs op Hok) as Ho. assert (0 < op_block_size op) by (destruct (bo_block op Hok); lia).
    assert (buffer_size op <= 32) by (unfold buffer_size; destruct (bo_block op Hok) as [-> | ->], (op_two_blocks op); lia).
    split; [|lia]. etransitivity; [rewrite Z.mul_comm; apply Z.mul_div_le; lia | lia].
  - rewrite H3 in H2. injection H2 as -> <- <-. destruct D as (b & oo & st3 & ->). split; [by exists b, oo, st|].
    destruct Hok3 as [K1 K2 K3 K4 K5]. split; done.
Qed.
End shape.

(** ** Well-formed operations *)

Section state.
Context {CS : CipherSvc} {KS : KeySvc svc_state} {HS : HashSvc svc_state} {AS : AuthencSvc svc_state}.
Notation T := svc_state.
Implicit Types op : operation T.

(** The block size that goes with an algorithm. *)
Definition block_of (algorithm : Z) : Z :=
  if one_of algorithm block_algos then
    if TEE_ALG_GET_MAIN_ALG algorithm =? TEE_MAIN_ALGO_AES then TEE_AES_BLOCK_SIZE
    else if TEE_ALG_GET_MAIN_ALG algorithm =? TEE_MAIN_ALGO_SM4 then TEE_SM4_BLOCK_SIZE
    else TEE_DES_BLOCK_SIZE
  else 1.

Definition buffer_wf op : Prop :=
  if 1 <? op_block_size op then buf_ok op else op_buffer op = None /\ op_buffer_offs op = 0.

Record op_wf op : Prop := {
  wf_class : op_operationClass op = TEE_ALG_GET_CLASS (op_algorithm op);
  wf_block : op_block_size op = block_of (op_algorithm op);
  wf_two : op_two_blocks op = one_of (op_algorithm op) two_block_algos;
  wf_buffer : buffer_wf op;
  wf_key1 : op_key1 op = negb (op_operationClass op =? TEE_OPERATION_DIGEST);
  wf_two_keys : op_has TEE_HANDLE_FLAG_EXPECT_TWO_KEYS op = one_of (op_algorithm op) [TEE_ALG_AES_XTS; TEE_ALG_SM2_KEP];
  wf_state : op_operationState op = TEE_OPERATION_STATE_INITIAL \/ op_operationState op = TEE_OPERATION_STATE_ACTIVE;
  wf_digest : op_operationClass op = TEE_OPERATION_DIGEST -> op_has TEE_HANDLE_FLAG_INITIALIZED op = true;
  wf_active : op_operationClass op = TEE_OPERATION_CIPHER \/ op_operationClass op = TEE_OPERATION_MAC ->
    op_has TEE_HANDLE_FLAG_INITIALIZED op = (op_operationState op =? TEE_OPERATION_STATE_ACTIVE) /\
    (op_operationState op = TEE_OPERATION_STATE_ACTIVE -> op_has TEE_HANDLE_FLAG_KEY_SET op = true);
}.

(** What does not concern flags, state and buffer. *)
Definition same_kind op op' : Prop :=
  op_operationClass op' = op_operationClass op /\ op_algorithm op' = op_algorithm op /\ op_block_size op' = op_block_size op /\
  op_two_blocks op' = op_two_blocks op /\ op_key1 op' = op_key1 op.

(** Each call keeps the kind, the buffer, and changes flags and state together. *)
Lemma op_wf_next op op' :
  op_wf op -> same_kind op op' -> buffer_wf op' ->
  op_has TEE_HANDLE_FLAG_EXPECT_TWO_KEYS op' = op_has TEE_HANDLE_FLAG_EXPECT_TWO_KEYS op ->
  (op_operationState op' = TEE_OPERATION_STATE_INITIAL \/ op_operationState op' = TEE_OPERATION_STATE_ACTIVE) ->
  (op_operationClass op = TEE_OPERATION_DIGEST -> op_has TEE_HANDLE_FLAG_INITIALIZED op' = true) ->
  (op_operationClass op = TEE_OPERATION_CIPHER \/ op_operationClass op = TEE_OPERATION_MAC ->
    op_has TEE_HANDLE_FLAG_INITIALIZED op' = (op_operationState op' =? TEE_OPERATION_STATE_ACTIVE) /\
    (op_operationState op' = TEE_OPERATION_STATE_ACTIVE -> op_has TEE_HANDLE_FLAG_KEY_SET op' = true)) ->
  op_wf op'.
Proof.
  intros [H1 H2 H3 _ H5 H6 _ _ _] (K1 & K2 & K3 & K4 & K5) Hb Ht Hs Hd Ha.
  split; rewrite ?K1, ?K2, ?K3, ?K4, ?K5; try done. by rewrite Ht.
Qed.

(** A kernel state, or a buffer, on top of a well-formed operation. *)
Lemma op_wf_set_state op st : op_wf op -> op_wf (set_state st op).
Proof.
  intros H. apply (op_wf_next op); [done | done | | done | apply H | apply H | apply H].
  destruct H as [_ _ _ Hb _ _ _ _ _]. unfold buffer_wf in *.
  change (op_block_size (set_state st op)) with (op_block_size op). destruct (1 <? op_block_size op); [|done].
  destruct Hb as [K1 K2 K3 K4 K5]. by split.
Qed.

Lemma op_wf_derived op op' : op_wf op -> derived op op' -> buffer_wf op' -> op_wf op'.
Proof.
  intros H (b & o & st & ->) Hb. apply (op_wf_next op); [done | done | done | done | apply H | apply H | apply H].
Qed.

Lemma buffer_wf_empty op b : op_wf op -> b = op_buffer op -> buffer_wf (set_buffer b 0 op).
Proof.
  intros [_ _ _ Hb _ _ _ _ _] ->. unfold buffer_wf in *.
  change (op_block_size (set_buffer (op_buffer op) 0 op)) with (op_block_size op). destruct (1 <? op_block_size op).
  - destruct (empty_buffer op 0 (op_state op) Hb eq_refl) as [He _]. by destruct op.
  - by destruct Hb.
Qed.

Lemma buffer_update_wf upd op src d1 op' o n :
  op_wf op -> (1 <? op_block_size op) = true -> Forall is_byte (in_data src) -> in_len src < 2 ^ 32 ->
  tee_buffer_update upd op src d1 = Return (op', o, n) -> op_wf op' /\ (1 <? op_block_size op') = true.
Proof.
  intros H Hgt Hb Hl. destruct src as [len | src].
  - cbn. destruct (len =? 0); [|done]. by intros [= <- <- <-].
  - intros Hu. pose proof (wf_buffer _ H) as Hbuf. unfold buffer_wf in Hbuf. rewrite Hgt in Hbuf.
    destruct (tee_buffer_update_shape upd op src d1 op' o n Hbuf Hb Hl Hu) as [D Hok].
    destruct (derived_size _ _ D) as (_ & _ & E & _ & _). rewrite E. split; [|done].
    apply (op_wf_derived op); [done | done|]. unfold buffer_wf. by rewrite E, Hgt.
Qed.

(** The flags: initialised, key set, two keys. *)
Lemma flag_init : op_flag TEE_HANDLE_FLAG_INITIALIZED.
Proof. by left. Qed.
Lemma flag_key : op_flag TEE_HANDLE_FLAG_KEY_SET.
Proof. by right; left. Qed.
Lemma flag_two : op_flag TEE_HANDLE_FLAG_EXPECT_TWO_KEYS.
Proof. by right; right. Qed.
End state.

#[export] Hint Resolve flag_init flag_key flag_two : teeop.

Lemma finish_inv {A} allowed res (a : A) x : finish allowed res a = Return x -> x = (res, a).
Proof. unfold finish. destruct (one_of _ _); [|done]. by intros [= <-]. Qed.

(** An error path: the operation is as before, but for the kernel state. *)
Ltac op_err :=
  let E := fresh "E" in intros E; apply finish_inv in E; simplify_eq;
  first [assumption | by apply op_wf_set_state].

Section calls.
Context {CS : CipherSvc} {KS : KeySvc svc_state} {HS : HashSvc svc_state} {AS : AuthencSvc svc_state}.
Notation T := svc_state.
Implicit Types op : operation T.

Lemma wf_buffer_of op op' : op_wf op ->
  op_block_size op' = op_block_size op -> op_two_blocks op' = op_two_blocks op -> op_algorithm op' = op_algorithm op ->
  op_buffer op' = op_buffer op -> op_buffer_offs op' = op_buffer_offs op -> buffer_wf op'.
Proof.
  intros [_ _ _ Hb _ _ _ _ _] E1 E2 E3 E4 E5. unfold buffer_wf in *. rewrite E1, E4, E5. destruct (1 <? op_block_size op); [|done].
  destruct Hb as [K1 K2 K3 K4 K5]. split; unfold buffer_size, pending in *; by rewrite ?E1, ?E2, ?E3, ?E4, ?E5.
Qed.

(** The operation is set up for a message. *)
Lemma op_wf_start op st : op_wf op ->
  op_operationClass op = TEE_OPERATION_CIPHER \/ op_operationClass op = TEE_OPERATION_MAC ->
  op_has TEE_HANDLE_FLAG_KEY_SET op = true ->
  op_wf (set_flag TEE_HANDLE_FLAG_INITIALIZED (set_buffer (op_buffer op) 0 (set_state st (set_operationState TEE_OPERATION_STATE_ACTIVE op)))).
Proof.
  intros H Hc Hk. apply (op_wf_next op); [done | done | | | by right | |].
  - pose proof (buffer_wf_empty op (op_buffer op) H eq_refl) as Hb. unfold buffer_wf in *.
    change (op_block_size (set_flag _ _)) with (op_block_size op).
    change (op_block_size (set_buffer _ _ op)) with (op_block_size op) in Hb. destruct (1 <? op_block_size op); [|done].
    destruct Hb as [K1 K2 K3 K4 K5]. by split.
  - rewrite op_has_set by eauto with teeop. apply orb_false_r.
  - rewrite op_has_set by eauto with teeop. intros. apply orb_true_r.
  - intros _. rewrite !op_has_set by eauto with teeop. split; [apply orb_true_r|]. intros _. unfold op_has in *. cbn in *. by rewrite Hk.
Qed.

(** The end of a message. *)
Lemma op_wf_done op : op_wf op -> op_operationClass op <> TEE_OPERATION_DIGEST ->
  op_wf (set_operationState TEE_OPERATION_STATE_INITIAL (clear_flag TEE_HANDLE_FLAG_INITIALIZED op)).
Proof.
  intros H Hc. apply (op_wf_next op); [done | done | by apply (wf_buffer_of op) | | by left | done |].
  - change (op_has ?f (set_operationState ?x ?o)) with (op_has f o). rewrite op_has_clear by eauto with teeop. apply andb_true_r.
  - intros _. change (op_has ?f (set_operationState ?x ?o)) with (op_has f o). rewrite op_has_clear by eauto with teeop.
    cbn. rewrite andb_false_r. done.
Qed.

(** Changes that touch neither flags nor buffer. *)
Lemma op_wf_state_other op x : op_wf op -> x = TEE_OPERATION_STATE_INITIAL \/ x = TEE_OPERATION_STATE_ACTIVE ->
  op_operationClass op <> TEE_OPERATION_CIPHER -> op_operationClass op <> TEE_OPERATION_MAC -> op_wf (set_operationState x op).
Proof.
  intros H Hx Hc Hm. apply (op_wf_next op); [done | done | by apply (wf_buffer_of op) | done | done | apply H |].
  by intros [? | ?].
Qed.

Lemma op_wf_keySize op x : op_wf op -> op_wf (set_keySize x op).
Proof. intros H. apply (op_wf_next op); [done | done | by apply (wf_buffer_of op) | done | apply H | apply H | apply H]. Qed.
Lemma op_wf_digestLength op x : op_wf op -> op_wf (set_digestLength x op).
Proof. intros H. apply (op_wf_next op); [done | done | by apply (wf_buffer_of op) | done | apply H | apply H | apply H]. Qed.

Lemma op_wf_clear_key op : op_wf op -> op_operationState op = TEE_OPERATION_STATE_INITIAL -> op_wf (clear_flag TEE_HANDLE_FLAG_KEY_SET op).
Proof.
  intros H Hs. pose proof H as [_ _ _ _ _ _ _ Hd Ha].
  apply (op_wf_next op); [done | done | by apply (wf_buffer_of op) | | by left | |];
    rewrite ?op_has_clear by eauto with teeop; change (op_operationState (clear_flag _ _)) with (op_operationState op).
  - apply andb_true_r.
  - intros Hc. by rewrite (Hd Hc).
  - intros Hc. destruct (Ha Hc) as [-> _]. rewrite Hs. done.
Qed.

Lemma op_wf_set_key op : op_wf op -> op_wf (set_flag TEE_HANDLE_FLAG_KEY_SET op).
Proof.
  intros H. pose proof H as [_ _ _ _ _ _ Hs Hd Ha].
  apply (op_wf_next op); [done | done | by apply (wf_buffer_of op) | | done | |];
    rewrite ?op_has_set by eauto with teeop; change (op_operationState (set_flag _ _)) with (op_operationState op).
  - apply orb_false_r.
  - intros Hc. by rewrite (Hd Hc).
  - intros Hc. destruct (Ha Hc) as [-> _]. split; [apply orb_false_r|]. intros _. apply orb_true_r.
Qed.

(** [INITIALIZED] for digests and authenticated encryption. *)
Lemma op_wf_set_init op : op_wf op -> op_operationClass op <> TEE_OPERATION_CIPHER -> op_operationClass op <> TEE_OPERATION_MAC ->
  op_wf (set_flag TEE_HANDLE_FLAG_INITIALIZED op).
Proof.
  intros H Hc Hm. pose proof H as [_ _ _ _ _ _ Hs Hd Ha].
  apply (op_wf_next op); [done | done | by apply (wf_buffer_of op) | | done | |]; rewrite ?op_has_set by eauto with teeop.
  - apply orb_false_r.
  - intros _. apply orb_true_r.
  - by intros [? | ?].
Qed.

Lemma op_wf_empty op : op_wf op -> op_wf (set_buffer (op_buffer op) 0 op).
Proof. intros H. apply (op_wf_derived op); [done | exists (op_buffer op), 0, (op_state op); by destruct op | by apply buffer_wf_empty]. Qed.

(** *** The calls *)

Lemma TEE_ResetOperation_wf op op' : op_wf op -> TEE_ResetOperation op = Return op' ->
  op_wf op' /\ op_operationClass op' = op_operationClass op /\ op_has TEE_HANDLE_FLAG_KEY_SET op' = true.
Proof.
  intros H. unfold TEE_ResetOperation. destruct (op_has TEE_HANDLE_FLAG_KEY_SET op) eqn:Hk; [|done]. cbn [negb].
  change (op_operationClass (set_operationState _ op)) with (op_operationClass op).
  destruct (Z.eqb_spec (op_operationClass op) TEE_OPERATION_DIGEST) as [E | E].
  - destruct (hash_init _) as [res st]. destruct (negb _); [done|]. intros [= <-]. split; [|split; [done|]].
    + apply op_wf_set_init; [| change (op_operationClass op <> TEE_OPERATION_CIPHER) | change (op_operationClass op <> TEE_OPERATION_MAC)];
        [| by rewrite E | by rewrite E].
      apply op_wf_set_state, op_wf_state_other; [done | by left | by rewrite E | by rewrite E].
    + rewrite op_has_set by eauto with teeop. unfold op_has in *. cbn. by rewrite Hk.
  - intros [= <-]. split; [|split; [done|]].
    + apply (op_wf_next op); [done | done | by apply (wf_buffer_of op) | | by left | done |].
      * rewrite op_has_clear by eauto with teeop. apply andb_true_r.
      * intros _. rewrite op_has_clear by eauto with teeop. cbn. by rewrite andb_false_r.
    + rewrite op_has_clear by eauto with teeop. unfold op_has in *. cbn. by rewrite Hk.
Qed.

Lemma TEE_SetOperationKey_wf op key res op' : op_wf op -> TEE_SetOperationKey op key = Return (res, op') -> op_wf op'.
Proof.
  intros H. unfold TEE_SetOperationKey. cbv zeta.
  destruct (Z.eqb_spec (op_operationState op) TEE_OPERATION_STATE_INITIAL) as [Hs | Hs]; cbn [negb];
    [|op_err].
  assert (Hc : op_wf (clear_flag TEE_HANDLE_FLAG_KEY_SET (set_state (key_reset1 (op_state op)) op)))
    by (apply op_wf_clear_key; [by apply op_wf_set_state | done]).
  destruct key as [key|]; [|intros [= <- <-]; done].
  destruct (_ =? TEE_OPERATION_DIGEST); [op_err|].
  destruct (op_has _ op); [op_err|].
  destruct (key_info key) as [[r u] sz]. destruct (negb _); [op_err|].
  destruct (negb _); [op_err|].
  destruct (_ <? _); [op_err|].
  destruct (key_copy1 _ _) as [r2 st]. destruct (negb _); [op_err|].
  intros [= <- <-]. by apply op_wf_keySize, op_wf_set_key, op_wf_set_state.
Qed.

Lemma TEE_SetOperationKey2_wf op key1 key2 res op' : op_wf op -> TEE_SetOperationKey2 op key1 key2 = Return (res, op') -> op_wf op'.
Proof.
  intros H. unfold TEE_SetOperationKey2. cbv zeta.
  destruct (Z.eqb_spec (op_operationState op) TEE_OPERATION_STATE_INITIAL) as [Hs | Hs]; cbn [negb]; [|op_err].
  assert (Hc : op_wf (clear_flag TEE_HANDLE_FLAG_KEY_SET (set_state (key_reset2 (key_reset1 (op_state op))) op)))
    by (apply op_wf_clear_key; [by apply op_wf_set_state | done]).
  destruct key1 as [key1|], key2 as [key2|]; [| op_err | op_err | intros [= <- <-]; done].
  destruct (_ =? TEE_OPERATION_DIGEST); [op_err|]. destruct (negb _); [op_err|].
  destruct (key_info key1) as [[r1 u1] s1]. destruct (negb _); [op_err|]. destruct (negb _); [op_err|].
  destruct (key_info key2) as [[r2 u2] s2]. destruct (negb _); [op_err|]. destruct (negb _); [op_err|].
  destruct (negb _); [op_err|]. destruct (_ <? _); [op_err|].
  destruct (key_copy1 _ _) as [r3 st3]. destruct (negb _); [op_err|].
  destruct (key_copy2 _ _) as [r4 st4]. destruct (negb _); [intros E; apply finish_inv in E; simplify_eq; by repeat apply op_wf_set_state|].
  intros [= <- <-]. by apply op_wf_keySize, op_wf_set_key, op_wf_set_state, op_wf_set_state.
Qed.

Lemma TEE_DigestUpdate_wf op chunk op' : op_wf op -> TEE_DigestUpdate op chunk = Return op' -> op_wf op'.
Proof.
  intros H. unfold TEE_DigestUpdate.
  destruct (Z.eqb_spec (op_operationClass op) TEE_OPERATION_DIGEST) as [E | E]; cbn [negb]; [|done].
  destruct (hash_update _ _) as [res st]. destruct (negb _); [done|]. intros [= <-].
  apply op_wf_set_state, op_wf_state_other; [done | by right | by rewrite E | by rewrite E].
Qed.

Lemma TEE_DigestDoFinal_wf op chunk hashLen res op' d n : op_wf op ->
  TEE_DigestDoFinal op chunk hashLen = Return (res, (op', d, n)) -> op_wf op'.
Proof.
  intros H. unfold TEE_DigestDoFinal. cbv zeta. destruct (in_bad chunk); [op_err|].
  destruct (Z.eqb_spec (op_operationClass op) TEE_OPERATION_DIGEST) as [E | E]; cbn [negb orb]; [|op_err].
  destruct (hash_final _ _ _) as [[[r st] h] hl]. destruct (negb _); [op_err|].
  unfold init_hash_operation. destruct (hash_init _) as [r2 st2]. destruct (negb _); [done|]. cbn [obind]. intros [= <- <- <- <-].
  assert (Hne : op_operationClass op <> TEE_OPERATION_CIPHER /\ op_operationClass op <> TEE_OPERATION_MAC) by (by rewrite E).
  apply op_wf_state_other; [| by left | apply Hne | apply Hne]. apply op_wf_set_init; [| apply Hne | apply Hne].
  by apply (op_wf_empty (set_state st2 (set_state st op))), op_wf_set_state, op_wf_set_state.
Qed.

(** The start of a message: an operation that is not in its initial state is reset first. *)
Lemma start_reset op r : op_wf op -> op_operationClass op <> TEE_OPERATION_DIGEST -> op_has TEE_HANDLE_FLAG_KEY_SET op = true ->
  (if negb (op_operationState op =? TEE_OPERATION_STATE_INITIAL) then TEE_ResetOperation op else Return op) = Return r ->
  op_wf r /\ op_operationClass r = op_operationClass op /\ op_has TEE_HANDLE_FLAG_KEY_SET r = true.
Proof.
  intros H Hc Hk. destruct (negb _); [by apply TEE_ResetOperation_wf|]. intros [= <-]. done.
Qed.

Lemma TEE_CipherInit_wf op iv op' : op_wf op -> TEE_CipherInit op iv = Return op' -> op_wf op'.
Proof.
  intros H. unfold TEE_CipherInit.
  destruct (Z.eqb_spec (op_operationClass op) TEE_OPERATION_CIPHER) as [E | E]; cbn [negb]; [|done].
  destruct (op_has TEE_HANDLE_FLAG_KEY_SET op) eqn:Hk; [|done]. cbn [negb orb]. destruct (negb (op_key1 op)); [done|].
  destruct (if negb (op_operationState op =? TEE_OPERATION_STATE_INITIAL) then _ else _) as [op1|] eqn:Hr; [|done]. cbn [obind].
  apply start_reset in Hr as (H1 & E1 & Hk1); [| done | by rewrite E | done].
  destruct (svc_init _ iv) as [res st]. destruct (negb _); [done|]. intros [= <-].
  apply (op_wf_start op1); [done | left; by rewrite E1 | done].
Qed.

Lemma TEE_MACInit_wf op op' : op_wf op -> TEE_MACInit op = Return op' -> op_wf op'.
Proof.
  intros H. unfold TEE_MACInit.
  destruct (Z.eqb_spec (op_operationClass op) TEE_OPERATION_MAC) as [E | E]; cbn [negb]; [|done].
  destruct (op_has TEE_HANDLE_FLAG_KEY_SET op) eqn:Hk; [|done]. cbn [negb orb]. destruct (negb (op_key1 op)); [done|].
  destruct (if negb (op_operationState op =? TEE_OPERATION_STATE_INITIAL) then _ else _) as [op1|] eqn:Hr; [|done]. cbn [obind].
  apply start_reset in Hr as (H1 & E1 & Hk1); [| done | by rewrite E | done].
  unfold init_hash_operation. destruct (hash_init _) as [res st]. destruct (negb _); [done|]. intros [= <-].
  apply (op_wf_start op1); [done | right; by rewrite E1 | done].
Qed.

Lemma TEE_MACUpdate_wf op chunk op' : op_wf op -> TEE_MACUpdate op chunk = Return op' -> op_wf op'.
Proof.
  intros H. unfold TEE_MACUpdate. destruct (in_bad chunk); [done|]. destruct (negb _); [done|]. destruct (negb _); [done|].
  destruct (hash_update _ _) as [res st]. destruct (negb _); [done|]. intros [= <-]. by apply op_wf_set_state.
Qed.

Lemma TEE_MACComputeFinal_wf op message macLen res op' d n : op_wf op ->
  TEE_MACComputeFinal op message macLen = Return (res, (op', d, n)) ->
  op_wf op' /\ op_operationClass op' = op_operationClass op /\
  (res = TEE_SUCCESS -> op_operationState op' = TEE_OPERATION_STATE_INITIAL).
Proof.
  intros H. unfold TEE_MACComputeFinal. cbv zeta. destruct (in_bad message); [intros E; apply finish_inv in E; by simplify_eq|].
  destruct (Z.eqb_spec (op_operationClass op) TEE_OPERATION_MAC) as [E | E]; cbn [negb]; [|intros E'; apply finish_inv in E'; by simplify_eq].
  destruct (op_active op); cbn [negb]; [|intros E'; apply finish_inv in E'; by simplify_eq].
  destruct (hash_final _ _ _) as [[[r st] h] hl]. destruct (Z.eqb_spec r TEE_SUCCESS) as [Er | Er]; cbn [negb].
  - intros [= <- <- <- <-]. split; [|done]. apply op_wf_done; [by apply op_wf_set_state|].
    change (op_operationClass op <> TEE_OPERATION_DIGEST). by rewrite E.
  - intros E'. apply finish_inv in E'. simplify_eq. split; [by apply op_wf_set_state | done].
Qed.

Lemma TEE_MACCompareFinal_wf op message mac res op' : op_wf op ->
  TEE_MACCompareFinal op message mac = Return (res, op') -> op_wf op'.
Proof.
  intros H. unfold TEE_MACCompareFinal. cbv zeta. destruct (negb _); [op_err|]. destruct (negb _); [op_err|].
  destruct (TEE_MACComputeFinal op message TEE_MAX_HASH_SIZE) as [[r [[op1 d] n]]|] eqn:Hc; [|done]. cbn [obind].
  destruct (TEE_MACComputeFinal_wf _ _ _ _ _ _ _ H Hc) as (H1 & E1 & Hs).
  destruct (Z.eqb_spec r TEE_SUCCESS) as [-> | Er]; cbn [negb]; [|op_err]. destruct (negb _); [op_err|]. destruct (negb _); [op_err|].
  intros [= <- <-]. specialize (Hs eq_refl).
  replace (set_operationState TEE_OPERATION_STATE_INITIAL op1) with op1; [done|]. destruct op1. cbn in Hs. by subst.
Qed.

(** Data as C has it: bytes, and a length of 32 bits. *)
Definition in_ok (b : inbuf) : Prop := Forall is_byte (in_data b) /\ 0 <= in_len b < 2 ^ 32.

Lemma buffer_update_keeps upd op src d1 op' o n :
  op_wf op -> (1 <? op_block_size op) = true -> in_ok src -> tee_buffer_update upd op src d1 = Return (op', o, n) ->
  op_wf op' /\ op_operationClass op' = op_operationClass op.
Proof.
  intros H Hgt [Hb Hl] Hu. split; [eapply (buffer_update_wf upd op src); [done | done | done | apply Hl | exact Hu]|].
  destruct src as [len | src]; [cbn in Hu; destruct (negb _); [done|]; by injection Hu as <- _ _|].
  pose proof (wf_buffer _ H) as Hbuf. unfold buffer_wf in Hbuf. rewrite Hgt in Hbuf.
  destruct (tee_buffer_update_shape _ _ _ _ _ _ _ Hbuf Hb ltac:(apply Hl) Hu) as [(b & oo & st & ->) _]. done.
Qed.

Lemma TEE_CipherUpdate_wf op src destLen res op' d n : op_wf op -> in_ok src ->
  TEE_CipherUpdate op src destLen = Return (res, (op', d, n)) -> op_wf op'.
Proof.
  intros H Hi. unfold TEE_CipherUpdate. cbv zeta. destruct (in_bad src); [op_err|]. destruct (negb _); [op_err|].
  destruct (negb _); [op_err|]. destruct (in_none src); [by intros [= <- <- <- <-]|]. destruct (_ <? _); [op_err|].
  destruct (1 <? op_block_size op) eqn:Hgt.
  - destruct (tee_buffer_update svc_update op src destLen) as [[[op1 d1] n1]|] eqn:Hu; [|done]. cbn [obind]. intros [= <- <- <- <-].
    by eapply buffer_update_keeps in Hu as [Hu _].
  - destruct (0 <? in_len src); [|by intros [= <- <- <- <-]]. destruct (svc_update _ _ _) as [[[r st] d1] n1]. op_err.
Qed.

Lemma TEE_CipherDoFinal_wf op src destLen res op' d n : op_wf op -> in_ok src ->
  TEE_CipherDoFinal op src destLen = Return (res, (op', d, n)) -> op_wf op'.
Proof.
  intros H Hi. unfold TEE_CipherDoFinal. cbv zeta. destruct (in_bad src); [op_err|].
  destruct (Z.eqb_spec (op_operationClass op) TEE_OPERATION_CIPHER) as [Ec | Ec]; cbn [negb]; [|op_err].
  destruct (negb _); [op_err|]. destruct (_ && _); [op_err|]. destruct (_ <? _); [op_err|].
  assert (Hdone : forall op1 st, op_wf op1 -> op_operationClass op1 = op_operationClass op ->
    op_wf (set_operationState TEE_OPERATION_STATE_INITIAL (clear_flag TEE_HANDLE_FLAG_INITIALIZED (set_state st op1)))).
  { intros op1 st H1 E1. apply op_wf_done; [by apply op_wf_set_state|].
    change (op_operationClass op1 <> TEE_OPERATION_DIGEST). by rewrite E1, Ec. }
  destruct (1 <? op_block_size op) eqn:Hgt.
  - destruct (if negb (in_len src =? 0) then _ else _) as [[[[op1 d1] acc] room]|] eqn:Hm; [|done]. cbn [obind].
    assert (H1 : op_wf op1 /\ op_operationClass op1 = op_operationClass op).
    { destruct (negb (in_len src =? 0)).
      - destruct (tee_buffer_update svc_update op src _) as [[[op2 d2] n2]|] eqn:Hu; [|done]. cbn [obind] in Hm. injection Hm as <- _ _ _.
        by eapply buffer_update_keeps.
      - by injection Hm as <- _ _ _. }
    destruct H1 as [H1 E1]. destruct (op_buffer op1) as [b|]; [|done]. destruct (mem_read b _); [|done]. cbn [obind].
    destruct (svc_final _ _ _) as [[[r st] d2] n2]. cbn [obind]. destruct (negb (r =? TEE_SUCCESS)); [op_err|]. intros [= <- <- <- <-]. by apply Hdone.
  - destruct (svc_final _ _ _) as [[[r st] d2] n2]. cbn [obind]. destruct (negb (r =? TEE_SUCCESS)); [op_err|]. intros [= <- <- <- <-]. by apply Hdone.
Qed.

Lemma TEE_AEInit_wf op nonce tagLen AADLen payloadLen res op' : op_wf op ->
  TEE_AEInit op nonce tagLen AADLen payloadLen = Return (res, op') -> op_wf op'.
Proof.
  intros H. unfold TEE_AEInit. cbv zeta. destruct nonce as [nonce|]; [|op_err].
  destruct (Z.eqb_spec (op_operationClass op) TEE_OPERATION_AE) as [Ec | Ec]; cbn [negb]; [|op_err].
  destruct (negb _); [op_err|]. destruct (_ && _); [op_err|]. destruct (authenc_init _ _ _ _ _) as [r st]. destruct (negb _); [op_err|].
  intros [= <- <-]. apply op_wf_set_init; [| change (op_operationClass op <> TEE_OPERATION_CIPHER); by rewrite Ec
    | change (op_operationClass op <> TEE_OPERATION_MAC); by rewrite Ec].
  by apply (op_wf_empty (set_digestLength (tagLen / 8) (set_state st op))), op_wf_digestLength, op_wf_set_state.
Qed.

(** Authenticated encryption becomes active, or is done. *)
Lemma op_wf_ae_active op : op_wf op -> op_operationClass op = TEE_OPERATION_AE -> op_wf (set_operationState TEE_OPERATION_STATE_ACTIVE op).
Proof. intros H E. apply op_wf_state_other; [done | by right | by rewrite E | by rewrite E]. Qed.

Lemma op_wf_ae_done op : op_wf op -> op_operationClass op = TEE_OPERATION_AE ->
  op_wf (set_operationState TEE_OPERATION_STATE_INITIAL (clear_flag TEE_HANDLE_FLAG_INITIALIZED op)).
Proof. intros H E. apply op_wf_done; [done | by rewrite E]. Qed.

Lemma TEE_AEUpdateAAD_wf op aad op' : op_wf op -> TEE_AEUpdateAAD op aad = Return op' -> op_wf op'.
Proof.
  intros H. unfold TEE_AEUpdateAAD. destruct (in_bad aad); [done|].
  destruct (Z.eqb_spec (op_operationClass op) TEE_OPERATION_AE) as [Ec | Ec]; cbn [negb]; [|done].
  destruct (negb _); [done|]. destruct (authenc_update_aad _ _) as [r st]. destruct (negb _); [done|]. intros [= <-].
  apply op_wf_ae_active; [by apply op_wf_set_state | done].
Qed.

Lemma TEE_AEUpdate_wf op src destLen res op' d n : op_wf op -> in_ok src ->
  TEE_AEUpdate op src destLen = Return (res, (op', d, n)) -> op_wf op'.
Proof.
  intros H Hi. unfold TEE_AEUpdate. cbv zeta. destruct (in_bad src); [op_err|].
  destruct (Z.eqb_spec (op_operationClass op) TEE_OPERATION_AE) as [Ec | Ec]; cbn [negb]; [|op_err].
  destruct (negb _); [op_err|]. destruct (in_none src); [by intros [= <- <- <- <-]|]. destruct (_ <? _); [op_err|].
  destruct (1 <? op_block_size op) eqn:Hgt.
  - destruct (tee_buffer_update _ op src destLen) as [[[op1 d1] n1]|] eqn:Hu; [|done]. cbn [obind negb Z.eqb TEE_SUCCESS].
    intros [= <- <- <- <-]. destruct (buffer_update_keeps _ _ _ _ _ _ _ H Hgt Hi Hu) as [H1 E1]. apply op_wf_ae_active; [done | by rewrite E1].
  - destruct (0 <? in_len src); [|cbn; intros [= <- <- <- <-]; by apply op_wf_ae_active].
    destruct (authenc_update_payload _ _ _) as [[[r st] d1] n1]. cbn [obind]. destruct (negb (r =? TEE_SUCCESS)); [op_err|]. intros [= <- <- <- <-].
    apply op_wf_ae_active; [by apply op_wf_set_state | done].
Qed.

Lemma TEE_AEEncryptFinal_wf op src destLen tagLen res op' d n t tl : op_wf op -> in_ok src ->
  TEE_AEEncryptFinal op src destLen tagLen = Return (res, (op', d, n, t, tl)) -> op_wf op'.
Proof.
  intros H Hi. unfold TEE_AEEncryptFinal. cbv zeta. destruct (in_bad src); [op_err|].
  destruct (Z.eqb_spec (op_operationClass op) TEE_OPERATION_AE) as [Ec | Ec]; cbn [negb]; [|op_err].
  destruct (negb _); [op_err|]. destruct (_ || _); [op_err|].
  destruct (1 <? op_block_size op) eqn:Hgt.
  - destruct (tee_buffer_update _ op src destLen) as [[[op1 d1] n1]|] eqn:Hu; [|done]. cbn [obind].
    destruct (buffer_update_keeps _ _ _ _ _ _ _ H Hgt Hi Hu) as [H1 E1].
    destruct (op_buffer op1) as [b|]; [|done]. destruct (mem_read b _); [|done]. cbn [obind].
    destruct (authenc_enc_final _ _ _ _) as [[[[[r st] d2] n2] t2] tl2]. cbn [obind]. destruct (negb (r =? TEE_SUCCESS)); [op_err|].
    intros [= <- <- <- <- <- <-]. apply op_wf_ae_done; [by apply op_wf_set_state | exact (eq_trans E1 Ec)].
  - destruct (authenc_enc_final _ _ _ _) as [[[[[r st] d2] n2] t2] tl2]. cbn [obind]. destruct (negb (r =? TEE_SUCCESS)); [op_err|].
    intros [= <- <- <- <- <- <-]. apply op_wf_ae_done; [by apply op_wf_set_state | done].
Qed.

Lemma TEE_AEDecryptFinal_wf op src destLen tag res op' d n : op_wf op -> in_ok src ->
  TEE_AEDecryptFinal op src destLen tag = Return (res, (op', d, n)) -> op_wf op'.
Proof.
  intros H Hi. unfold TEE_AEDecryptFinal. cbv zeta. destruct (in_bad src); [op_err|].
  destruct (Z.eqb_spec (op_operationClass op) TEE_OPERATION_AE) as [Ec | Ec]; cbn [negb]; [|op_err].
  destruct (negb _); [op_err|]. destruct (_ <? _); [op_err|].
  destruct (1 <? op_block_size op) eqn:Hgt.
  - destruct (tee_buffer_update _ op src destLen) as [[[op1 d1] n1]|] eqn:Hu; [|done]. cbn [obind].
    destruct (buffer_update_keeps _ _ _ _ _ _ _ H Hgt Hi Hu) as [H1 E1].
    destruct (op_buffer op1) as [b|]; [|done]. destruct (mem_read b _); [|done]. cbn [obind].
    destruct (authenc_dec_final _ _ _ _) as [[[r st] d2] n2]. cbn [obind]. destruct (negb (r =? TEE_SUCCESS)); [op_err|].
    intros [= _ <- <- <-]. apply op_wf_ae_done; [by apply op_wf_set_state | exact (eq_trans E1 Ec)].
  - destruct (authenc_dec_final _ _ _ _) as [[[r st] d2] n2]. cbn [obind]. destruct (negb (r =? TEE_SUCCESS)); [op_err|].
    intros [= _ <- <- <-]. apply op_wf_ae_done; [by apply op_wf_set_state | done].
Qed.

(** *** Copying and allocating *)

Lemma TEE_SetOperationKey_algo op key res op' : TEE_SetOperationKey op key = Return (res, op') -> op_algorithm op' = op_algorithm op.
Proof.
  unfold TEE_SetOperationKey. cbv zeta. intros H. repeat case_match; simplify_eq; try done; apply finish_inv in H; by simplify_eq.
Qed.

Lemma TEE_SetOperationKey2_algo op k1 k2 res op' : TEE_SetOperationKey2 op k1 k2 = Return (res, op') -> op_algorithm op' = op_algorithm op.
Proof.
  unfold TEE_SetOperationKey2. cbv zeta. intros H. repeat case_match; simplify_eq; try done; apply finish_inv in H; by simplify_eq.
Qed.

(** With the flags and the state of another operation on the same algorithm. *)
Lemma op_wf_as op src : op_wf op -> op_wf src -> op_algorithm op = op_algorithm src ->
  op_wf (set_operationState (op_operationState src) (set_digestLength (op_digestLength src)
    (set_keySize (op_keySize src) (set_handleState (op_handleState src) op)))).
Proof.
  intros H Hs Ea. assert (Ec : op_operationClass op = op_operationClass src) by (rewrite (wf_class _ H), (wf_class _ Hs), Ea; done).
  apply (op_wf_next op); [done | done | by apply (wf_buffer_of op) | | apply Hs | rewrite Ec; apply Hs | rewrite Ec; apply Hs].
  change (op_has TEE_HANDLE_FLAG_EXPECT_TWO_KEYS src = op_has TEE_HANDLE_FLAG_EXPECT_TWO_KEYS op).
  by rewrite (wf_two_keys _ H), (wf_two_keys _ Hs), Ea.
Qed.

Lemma copy_buffer_wf op src b s :
  op_wf op -> op_wf src -> op_block_size op = op_block_size src -> op_two_blocks op = op_two_blocks src ->
  op_buffer src = Some s -> mem_write (op_buffer op) 0 (take (Z.to_nat (op_buffer_offs src)) s) = Return b ->
  op_wf (set_buffer b (op_buffer_offs src) op).
Proof.
  intros H Hs E1 E2 Es Hw. apply (op_wf_derived op); [done | exists b, (op_buffer_offs src), (op_state op); by destruct op|].
  pose proof (wf_buffer _ Hs) as Hbs. pose proof (wf_buffer _ H) as Hb. unfold buffer_wf in *.
  change (op_block_size (set_buffer b _ op)) with (op_block_size op). rewrite E1 in *. destruct (1 <? op_block_size src); [|by destruct Hbs; congruence].
  destruct Hbs as [S1 S2 (s' & Hs1 & Hs2) S4 S5]. destruct Hb as [K1 K2 (b' & Hb1 & Hb2) K4 K5].
  assert (Esz : buffer_size op = buffer_size src) by (unfold buffer_size; by rewrite E1, E2).
  rewrite Es in Hs1. injection Hs1 as <-. rewrite Hb1 in Hw.
  assert (Hl : zlen (take (Z.to_nat (op_buffer_offs src)) s) = op_buffer_offs src) by (rewrite length_take; lia).
  destruct (mem_write_ok b' 0 (take (Z.to_nat (op_buffer_offs src)) s)) as (b2 & Hw2 & L2 & T2); [lia | lia|].
  rewrite Hw2 in Hw. injection Hw as <-. rewrite Hl, Z.add_0_l in T2. split; [exact K1 | exact K2 | | |].
  - exists b2. split; [done|]. rewrite L2. exact Hb2.
  - change (0 <= op_buffer_offs src <= buffer_size op). lia.
  - unfold pending in *. cbn in *. rewrite Es in S5. change (take (Z.to_nat 0) b') with (@nil Z) in T2. by rewrite T2.
Qed.

Lemma TEE_CopyOperation_wf state_copy dst src op' : op_wf dst -> op_wf src -> TEE_CopyOperation state_copy dst src = Return op' -> op_wf op'.
Proof.
  intros H Hs. unfold TEE_CopyOperation.
  destruct (Z.eqb_spec (op_algorithm dst) (op_algorithm src)) as [Ea | Ea]; cbn [negb]; [|done]. destruct (negb _); [done|].
  destruct (if negb (op_operationClass src =? TEE_OPERATION_DIGEST) then _ else _) as [op1|] eqn:Hk; [|done]. cbn [obind].
  assert (H1 : op_wf op1 /\ op_algorithm op1 = op_algorithm src).
  { destruct (negb (op_operationClass src =? TEE_OPERATION_DIGEST)); [|by injection Hk as <-]. cbv zeta in Hk.
    destruct (if negb (op_has TEE_HANDLE_FLAG_EXPECT_TWO_KEYS src) then _ else _) as [[r op2]|] eqn:Hk2; [|done]. cbn [obind] in Hk. injection Hk as <-.
    destruct (negb (op_has TEE_HANDLE_FLAG_EXPECT_TWO_KEYS src)).
    - split; [exact (TEE_SetOperationKey_wf _ _ _ _ H Hk2)|]. rewrite (TEE_SetOperationKey_algo _ _ _ _ Hk2). done.
    - split; [exact (TEE_SetOperationKey2_wf _ _ _ _ _ H Hk2)|]. rewrite (TEE_SetOperationKey2_algo _ _ _ _ _ Hk2). done. }
  destruct H1 as [H1 E1]. pose proof (op_wf_as op1 src H1 Hs E1) as H2. cbv zeta.
  set (op2 := set_operationState (op_operationState src) _) in *.
  destruct (Bool.eqb (op_two_blocks op2) (op_two_blocks src)) eqn:Et; [|done]. apply Bool.eqb_prop in Et. cbn [negb orb].
  destruct (Z.eqb_spec (op_block_size op2) (op_block_size src)) as [Eb | Eb]; cbn [negb]; [|done].
  destruct (match op_buffer op2 with Some _ => _ | None => _ end) as [op3|] eqn:H3; [|done]. cbn [obind].
  assert (Hw : op_wf op3).
  { destruct (op_buffer op2) as [b2|] eqn:E2.
    - destruct (op_buffer src) as [s|] eqn:Es; [|done]. destruct (mem_read s _) as [x|] eqn:Hr; [|done]. cbn [obind] in H3.
      unfold mem_read in Hr. destruct ((0 <=? op_buffer_offs src) && (op_buffer_offs src <=? zlen s)); [|done]. injection Hr as <-.
      destruct (mem_write (Some b2) 0 _) as [b|] eqn:Hw; [|done]. cbn [obind] in H3. injection H3 as <-.
      apply (copy_buffer_wf op2 src b s); try done. by rewrite E2.
    - destruct (op_buffer src); [done|]. by injection H3 as <-. }
  destruct (state_copy _ _) as [r st]. destruct (negb (r =? TEE_SUCCESS)); [done|]. intros [= <-]. by apply op_wf_set_state.
Qed.

Lemma one_of_app x l1 l2 : one_of x (l1 ++ l2) = one_of x l1 || one_of x l2.
Proof. apply existsb_app. Qed.

(** What the switch of [TEE_AllocateOperation] sets agrees with the algorithm. *)
Lemma alg_params_spec a mode mks hs ap : alg_params_of a mode mks hs = Some ap ->
  ap_block_size ap = block_of a /\ ap_two_blocks ap = one_of a two_block_algos /\
  (ap_handle_state ap = hs \/ ap_handle_state ap = Z.lor hs TEE_HANDLE_FLAG_KEY_SET).
Proof.
  unfold alg_params_of. cbv zeta. destruct (one_of a (block_algos ++ _)) eqn:Eb.
  - fold (block_of a). intros H. repeat case_match; simplify_eq; auto.
  - rewrite one_of_app in Eb. apply orb_false_iff in Eb as [Eb _].
    assert (Et : one_of a two_block_algos = false).
    { unfold block_algos in Eb. rewrite one_of_app in Eb. by apply orb_false_iff in Eb as [? _]. }
    assert (E1 : block_of a = 1) by (unfold block_of; by rewrite Eb). rewrite E1, Et.
    intros H. repeat case_match; simplify_eq; auto.
Qed.

Lemma block_of_values a : 1 <? block_of a = true -> block_of a = 8 \/ block_of a = 16.
Proof. unfold block_of. repeat case_match; auto. done. Qed.

Lemma TEE_AllocateOperation_wf algorithm mode mks env res op :
  TEE_AllocateOperation algorithm mode mks env = Return (res, Some op) -> op_wf op.
Proof.
  assert (Hout : forall r, alloc_out r = Return (res, Some op) -> op_wf op).
  { intros r. unfold alloc_out. by destruct (_ && _). }
  unfold TEE_AllocateOperation. cbv zeta. set (hs := if one_of algorithm [TEE_ALG_AES_XTS; TEE_ALG_SM2_KEP] then _ else 0).
  destruct (negb (max_key_size_ok _ _)); [done|]. destruct (alg_params_of _ _ _ _) as [ap|] eqn:Hap; [|done].
  destruct (negb (ae_op env)); [done|].
  destruct (alg_params_spec _ _ _ _ _ Hap) as (E1 & E2 & E3). set (buffer := if 1 <? ap_block_size ap then _ else None).
  destruct ((1 <? ap_block_size ap) && _) eqn:Hbuf; [apply Hout|].
  destruct (negb (TEE_ALG_GET_CLASS algorithm =? TEE_OPERATION_DIGEST) && negb (ae_key1 env =? TEE_SUCCESS)); [apply Hout|].
  destruct (negb (TEE_ALG_GET_CLASS algorithm =? TEE_OPERATION_DIGEST) && _ && _); [apply Hout|].
  destruct (ae_state env) as [r st]. destruct (negb (r =? TEE_SUCCESS)); [apply Hout|].
  set (op0 := mk_op _ _ _ _ _ _ _ _ _ _ _ _ _ _ _ _).
  assert (Hcl : op_operationClass op0 = TEE_ALG_GET_CLASS algorithm).
  { cbn. destruct (Z.eqb_spec algorithm TEE_ALG_RSASSA_PKCS1_V1_5) as [-> | ?]; done. }
  assert (Hb : buffer_wf op0).
  { unfold buffer_wf. cbn [op_block_size op0]. destruct (1 <? ap_block_size ap) eqn:Hgt; [|done]. cbn [andb] in Hbuf.
    apply negb_false_iff, bool_decide_eq_true in Hbuf as [b Hb0]. rewrite E1 in Hgt. pose proof (block_of_values _ Hgt) as Hv.
    split; cbn [op_block_size op_algorithm op_two_blocks op_buffer op_buffer_offs op0].
    - by rewrite E1.
    - intros ->. by rewrite E2.
    - exists b. split; [done|]. unfold buffer in Hb0. rewrite E1 in Hb0.
      destruct (ae_buffer env) as [m|]; [|done]. injection Hb0 as <-. rewrite length_fmap, length_seq. unfold buffer_size.
      cbn [op_two_blocks op_block_size op0]. rewrite E1. destruct (ap_two_blocks ap); lia.
    - unfold buffer_size. cbn [op_two_blocks op_block_size op0]. rewrite E1. destruct (ap_two_blocks ap); lia.
    - constructor. }
  assert (Hhs : has_flag (ap_handle_state ap) TEE_HANDLE_FLAG_EXPECT_TWO_KEYS = one_of algorithm [TEE_ALG_AES_XTS; TEE_ALG_SM2_KEP] /\
                has_flag (ap_handle_state ap) TEE_HANDLE_FLAG_INITIALIZED = false).
  { destruct E3 as [-> | ->]; unfold hs; by destruct (one_of _ _). }
  destruct Hhs as [Hh1 Hh2].
  assert (Hop : forall op1, same_kind op0 op1 -> buffer_wf op1 -> op_has TEE_HANDLE_FLAG_EXPECT_TWO_KEYS op1 = op_has TEE_HANDLE_FLAG_EXPECT_TWO_KEYS op0 ->
    op_operationState op1 = TEE_OPERATION_STATE_INITIAL ->
    (if TEE_ALG_GET_CLASS algorithm =? TEE_OPERATION_DIGEST then op_has TEE_HANDLE_FLAG_INITIALIZED op1 = true
     else op_has TEE_HANDLE_FLAG_INITIALIZED op1 = false) -> op_wf op1).
  { intros op1 (K1 & K2 & K3 & K4 & K5) Hb1 Ht1 Hs1 Hi1. split; rewrite ?K1, ?K2, ?K3, ?K4, ?K5, ?Hcl, ?Ht1, ?Hs1; try done.
    - by left.
    - intros Hc. by rewrite Hc in Hi1.
    - intros [Hc | Hc]; rewrite Hc in Hi1; cbn in Hi1; by rewrite Hi1. }
  destruct (Z.eqb_spec (TEE_ALG_GET_CLASS algorithm) TEE_OPERATION_DIGEST) as [Ec | Ec]; cbn [negb].
  - destruct (hash_init st) as [r2 st2]. destruct (negb (r2 =? TEE_SUCCESS)); [apply Hout|]. intros [= <- <-].
    apply Hop; [done | | | done |].
    + unfold buffer_wf in *. cbn in *. destruct (1 <? ap_block_size ap); [|done]. destruct Hb as [B1 B2 B3 B4 B5]. by split.
    + change (op_has ?f (set_operationState ?x ?o)) with (op_has f o). rewrite op_has_set by eauto with teeop. apply orb_false_r.
    + change (op_has ?f (set_operationState ?x ?o)) with (op_has f o). rewrite op_has_set by eauto with teeop. apply orb_true_r.
  - intros [= <- <-]. apply Hop; [done | | done | done | exact Hh2].
    unfold buffer_wf in *. cbn in *. destruct (1 <? ap_block_size ap); [|done]. destruct Hb as [B1 B2 B3 B4 B5]. by split.
Qed.

(** *** Every operation there can be *)

Inductive reachable_op : operation T -> Prop :=
| ro_alloc algorithm mode mks env res op :
    TEE_AllocateOperation algorithm mode mks env = Return (res, Some op) -> reachable_op op
| ro_reset op op' : reachable_op op -> TEE_ResetOperation op = Return op' -> reachable_op op'
| ro_key op key res op' : reachable_op op -> TEE_SetOperationKey op key = Return (res, op') -> reachable_op op'
| ro_key2 op k1 k2 res op' : reachable_op op -> TEE_SetOperationKey2 op k1 k2 = Return (res, op') -> reachable_op op'
| ro_copy state_copy op src op' : reachable_op op -> reachable_op src -> TEE_CopyOperation state_copy op src = Return op' -> reachable_op op'
| ro_digest_update op chunk op' : reachable_op op -> TEE_DigestUpdate op chunk = Return op' -> reachable_op op'
| ro_digest_final op chunk n res op' d m : reachable_op op -> TEE_DigestDoFinal op chunk n = Return (res, (op', d, m)) -> reachable_op op'
| ro_cipher_init op iv op' : reachable_op op -> TEE_CipherInit op iv = Return op' -> reachable_op op'
| ro_cipher_update op src n res op' d m : reachable_op op -> in_ok src ->
    TEE_CipherUpdate op src n = Return (res, (op', d, m)) -> reachable_op op'
| ro_cipher_final op src n res op' d m : reachable_op op -> in_ok src ->
    TEE_CipherDoFinal op src n = Return (res, (op', d, m)) -> reachable_op op'
| ro_mac_init op op' : reachable_op op -> TEE_MACInit op = Return op' -> reachable_op op'
| ro_mac_update op chunk op' : reachable_op op -> TEE_MACUpdate op chunk = Return op' -> reachable_op op'
| ro_mac_compute op msg n res op' d m : reachable_op op -> TEE_MACComputeFinal op msg n = Return (res, (op', d, m)) -> reachable_op op'
| ro_mac_compare op msg mac res op' : reachable_op op -> TEE_MACCompareFinal op msg mac = Return (res, op') -> reachable_op op'
| ro_ae_init op nonce t a p res op' : reachable_op op -> TEE_AEInit op nonce t a p = Return (res, op') -> reachable_op op'
| ro_ae_aad op aad op' : reachable_op op -> TEE_AEUpdateAAD op aad = Return op' -> reachable_op op'
| ro_ae_update op src n res op' d m : reachable_op op -> in_ok src -> TEE_AEUpdate op src n = Return (res, (op', d, m)) -> reachable_op op'
| ro_ae_encrypt op src n t res op' d m tag tl : reachable_op op -> in_ok src ->
    TEE_AEEncryptFinal op src n t = Return (res, (op', d, m, tag, tl)) -> reachable_op op'
| ro_ae_decrypt op src n tag res op' d m : reachable_op op -> in_ok src ->
    TEE_AEDecryptFinal op src n tag = Return (res, (op', d, m)) -> reachable_op op'.

(** C38. Well-formed operations: whatever the calls and whatever the kernel answers, the block
    size, buffer and offset of an operation agree with its algorithm, the offset never leaves
    the buffer, a cipher or MAC operation is initialised exactly while it is active and then
    has its key, and a digest operation is always initialised. *)
Theorem operation_well_formed op : reachable_op op -> op_wf op.
Proof.
  induction 1.
  - eapply TEE_AllocateOperation_wf; eassumption.
  - eapply TEE_ResetOperation_wf; eassumption.
  - eapply TEE_SetOperationKey_wf; eassumption.
  - eapply TEE_SetOperationKey2_wf; eassumption.
  - eapply TEE_CopyOperation_wf; [| | eassumption]; eassumption.
  - eapply TEE_DigestUpdate_wf; eassumption.
  - eapply TEE_DigestDoFinal_wf; eassumption.
  - eapply TEE_CipherInit_wf; eassumption.
  - eapply TEE_CipherUpdate_wf; eassumption.
  - eapply TEE_CipherDoFinal_wf; eassumption.
  - eapply TEE_MACInit_wf; eassumption.
  - eapply TEE_MACUpdate_wf; eassumption.
  - eapply TEE_MACComputeFinal_wf; eassumption.
  - eapply TEE_MACCompareFinal_wf; eassumption.
  - eapply TEE_AEInit_wf; eassumption.
  - eapply TEE_AEUpdateAAD_wf; eassumption.
  - eapply TEE_AEUpdate_wf; eassumption.
  - eapply TEE_AEEncryptFinal_wf; eassumption.
  - eapply TEE_AEDecryptFinal_wf; eassumption.
Qed.

(** Bounds: on a well-formed operation on blocks, with a function that takes whole blocks
    and room for the complete blocks of the data, [tee_buffer_update] accesses the buffer and
    the data only inside of their bounds: it does not panic, what was pending and the data
    are fed in order, and the rest is what the buffer keeps. *)
Theorem buffer_update_in_bounds upd op (src : bytes) dlen :
  op_wf op -> (1 <? op_block_size op) = true -> Forall is_byte src -> zlen src < 2 ^ 32 ->
  (forall st a d, zlen a mod op_block_size op = 0 -> zlen a <= d -> exists st' o, upd st a d = (TEE_SUCCESS, st', o, zlen a) /\ length o = length a) ->
  (op_buffer_offs op + zlen src) / op_block_size op * op_block_size op <= dlen < 2 ^ 64 ->
  exists op' out fed, tee_buffer_update upd op (Buf src) dlen = Return (op', out, zlen fed) /\
    pending op ++ src = fed ++ pending op' /\ zlen fed mod op_block_size op = 0 /\ length out = length fed /\
    zlen (pending op') = op_buffer_offs op' /\ 0 <= op_buffer_offs op' <= buffer_size op.
Proof.
  intros H Hgt Hb Hl Hu Hd. pose proof (wf_buffer _ H) as Hok. unfold buffer_wf in Hok. rewrite Hgt in Hok.
  destruct (tee_buffer_update_ok upd (fun _ _ _ => True) op src dlen [] []) as (op' & out & fed & Hr & (D & Hok' & _ & L & M) & P & _); try done.
  { intros st fed out a d _ _ Hm Hd'. destruct (Hu st a d Hm) as (st' & o & E1 & E2); [lia|]. by exists st', o. }
  exists op', out, fed. split; [done|]. split; [done|]. split; [done|]. split; [done|]. split; [by apply pending_length|].
  destruct (derived_size _ _ D) as (<- & _). apply Hok'.
Qed.
End calls.
