(* ===== verification/TeeOpKernel.v ===== *)
(** * Ciphering, from the API to the block cipher

    The cipher functions of the API over the system calls of the kernel: what a trusted
    application gets when it ciphers a message in pieces, and that it can decipher it. *)

From S2P Require Import Prelude Cipher CipherModes CipherSvc TeeOp TeeOpBuffer TeeOpSpec.
From stdpp Require Import base list.
From Stdlib Require Import ZArith Lia.

Local Open Scope Z_scope.

Section ta_kernel.
Context {BC : BlockCipher} {BL : BlockCipherLaws BC} {HS : HashSvc tee_cryp_state}.
Notation op_t := (operation (@svc_state kernel_svc)).

(** What a client does for one message. *)
Definition ta_cipher (op : op_t) (iv : bytes) (l : list (bytes * Z)) (last : bytes) (destLen : Z) : outcome (option bytes) :=
  (do! op <- TEE_CipherInit op iv; cipher_run op l last destLen)%c.

(** An operation with its key set. *)
Record keyed (algo mode : Z) (k : bc_key) (op : op_t) : Prop := {
  kd_algo : op_algorithm op = algo;
  kd_block_size : tee_cipher_get_block_size algo = Some bc_len;
  kd_class : op_operationClass op = TEE_OPERATION_CIPHER;
  kd_set : op_has TEE_HANDLE_FLAG_KEY_SET op = true;
  kd_key1 : op_key1 op = true;
  kd_two : op_two_blocks op = (algo =? TEE_ALG_AES_CTS);
  kd_block : op_block_size op = Z.of_nat bc_len;
  kd_buffer : exists b, op_buffer op = Some b /\ zlen b = buffer_size op;
  kd_mode : mode_ok mode /\ cs_mode (op_state op) = mode;
  kd_cs_algo : cs_algo (op_state op) = algo;
  kd_ctx : ctx_for algo (cs_ctx (op_state op));
  kd_cs_key : exists key, cs_key1 (op_state op) = Some (true, key) /\ bc_setup key = Some k;
  kd_cs_key2 : forall b, cs_key2 (op_state op) = Some b -> b.1 = true;
}.

Lemma block_size_8_16 algo : tee_cipher_get_block_size algo = Some bc_len -> bc_len = 8%nat \/ bc_len = 16%nat.
Proof. unfold tee_cipher_get_block_size. repeat case_match; intros [= <-]; auto. Qed.

Lemma set_active (op : op_t) x y z :
  op_active (set_flag TEE_HANDLE_FLAG_INITIALIZED (set_buffer x y (set_state z (set_operationState TEE_OPERATION_STATE_ACTIVE op)))) = true.
Proof.
  unfold op_active, op_has, set_flag. cbn [op_handleState set_handleState set_buffer set_state set_operationState op_operationState].
  rewrite andb_true_r. change TEE_HANDLE_FLAG_INITIALIZED with (2 ^ 17). rewrite has_flag_testbit by lia.
  rewrite Z.lor_spec. rewrite Z.pow2_bits_true by lia. apply orb_true_r.
Qed.

Lemma cipher_init_ok algo mode k op iv (H : keyed algo mode k op) : is_block iv ->
  exists op', TEE_CipherInit op iv = Return op' /\ pending op' = [] /\
    in_message algo bc_len (SS := kernel_stream_svc algo (kd_block_size _ _ _ _ H))
      (whole (cs_ctx (op_state op)) mode k iv) op' [] [].
Proof.
  intros Hiv. pose proof H as [H1 H2 H3 H4 H5 H6 H7 H8 [H9 H9'] H10 H11 (key & H12 & H12') H13].
  unfold TEE_CipherInit. rewrite H3, H4, H5. cbn [negb orb Z.eqb TEE_OPERATION_CIPHER Pos.eqb].
  assert (Hr : exists op1, (if negb (op_operationState op =? TEE_OPERATION_STATE_INITIAL) then TEE_ResetOperation op else Return op) = Return op1 /\
    op_state op1 = op_state op /\ op_buffer op1 = op_buffer op /\ op_two_blocks op1 = op_two_blocks op /\
    op_block_size op1 = op_block_size op /\ op_algorithm op1 = op_algorithm op /\ op_operationClass op1 = op_operationClass op).
  { destruct (op_operationState op =? TEE_OPERATION_STATE_INITIAL); [by exists op|].
    cbn [negb]. unfold TEE_ResetOperation. rewrite H4. cbn [negb].
    change (op_operationClass (set_operationState TEE_OPERATION_STATE_INITIAL op)) with (op_operationClass op).
    rewrite H3. by eexists. }
  destruct Hr as (op1 & -> & E1 & E2 & E3 & E4 & E5 & E6). cbn [obind].
  change (op_state (set_operationState TEE_OPERATION_STATE_ACTIVE op1)) with (op_state op1). rewrite E1.
  destruct (kernel_init_streams (op_state op) key k iv) as (cs' & Hi & Hs); try done;
    [by rewrite H10 | by rewrite H9'|].
  cbn [svc_init kernel_svc]. rewrite Hi. cbn [negb Z.eqb TEE_SUCCESS]. eexists. split; [done|].
  rewrite H9', H10 in Hs. split; [done|]. split; [exact (eq_trans E6 H3) | apply set_active | exact (eq_trans E5 H1) | exact (eq_trans E4 H7) | | | done | | done].
  - destruct (block_size_8_16 algo H2) as [Hb | Hb]; (split;
      [change (op_block_size (set_flag _ _)) with (op_block_size op1); rewrite E4, H7, Hb; auto
      | change (op_algorithm (set_flag _ _)) with (op_algorithm op1); change (op_two_blocks (set_flag _ _)) with (op_two_blocks op1);
        rewrite E5, E3, H6, H1; intros ->; done
      | destruct H8 as (b & Hb1 & Hb2); exists b;
        change (op_buffer (set_flag _ _)) with (op_buffer op1); rewrite E2; split; [done|];
        rewrite Hb2; unfold buffer_size;
        change (op_two_blocks (set_flag _ _)) with (op_two_blocks op1); change (op_block_size (set_flag _ _)) with (op_block_size op1);
        by rewrite E3, E4
      | change (op_buffer_offs (set_flag _ _)) with 0; unfold buffer_size;
        change (op_two_blocks (set_flag _ _)) with (op_two_blocks op1); change (op_block_size (set_flag _ _)) with (op_block_size op1);
        rewrite E3, E4, H7; destruct (op_two_blocks op); lia
      | constructor]).
  - exists (whole (cs_ctx (op_state op)) mode k iv). split; [exact Hs | done].
  - apply Nat.Div0.mod_0_l.
Qed.

(** C10. Pieces of a message: a trusted application that sets up a cipher operation with its
    key set and gives a message in any pieces, in ECB, CBC or CTS mode and in either
    direction, gets exactly what the mode computes for the whole message; no call fails or
    panics. It has to give an output buffer for each piece that is two blocks larger than the piece ([roomy]), and
    a message of a length that the mode can do ([final_ok]): whole blocks for ECB and CBC, more than one
    block for CTS. With a smaller buffer, or another length, it may be panicked
    ([TeeOpDemo.cipher_update_room_short]). *)
Theorem ta_cipher_any_pieces algo mode k op iv l last destLen :
  keyed algo mode k op -> is_block iv -> Forall (roomy bc_len) l -> roomy bc_len (last, destLen) ->
  final_ok algo bc_len (length (concat l.*1 ++ last)) ->
  ta_cipher op iv l last destLen = Return (Some (whole (cs_ctx (op_state op)) mode k iv (concat l.*1 ++ last))).
Proof.
  intros H Hiv Hl Hlast Hok. unfold ta_cipher.
  destruct (cipher_init_ok algo mode k op iv H Hiv) as (op' & -> & Hp & Him). cbn [obind].
  by eapply cipher_run_ok.
Qed.

(** The modes undo themselves. *)
Lemma whole_roundtrip algo ctx ctx' k iv m :
  tee_cipher_get_block_size algo = Some bc_len -> ctx_for algo ctx -> ctx_for algo ctx' -> is_block iv -> Forall is_byte m ->
  final_ok algo bc_len (length m) ->
  length (whole ctx TEE_MODE_ENCRYPT k iv m) = length m /\
  whole ctx' TEE_MODE_DECRYPT k iv (whole ctx TEE_MODE_ENCRYPT k iv m) = m.
Proof.
  intros Hbs Hc Hc' Hiv Hm Hok.
  assert (Hdis : forall x, x ∈ ecb_algos -> x ∈ cbc_algos -> False).
  { intros x. rewrite !list_elem_of_In. cbn. intros H1 H2. repeat destruct H1 as [<- | H1]; repeat destruct H2 as [H2 | H2]; done. }
  assert (Hncts : algo ∈ ecb_algos ++ cbc_algos -> algo <> TEE_ALG_AES_CTS).
  { intros Ha. apply Z.eqb_neq. by apply block_algo_not_cts. }
  assert (Hblocks : algo ∈ ecb_algos ++ cbc_algos -> (length m mod bc_len = 0)%nat).
  { intros Ha. unfold final_ok in Hok. by rewrite block_algo_not_cts in Hok. }
  destruct ctx, ctx'; cbn [ctx_for whole] in *; try (exfalso; by eauto using in_left, in_right);
    try (exfalso; apply Hncts; [by eauto using in_left, in_right | done]).
  - assert (Ha : (length m mod bc_len = 0)%nat) by (apply Hblocks; by apply in_left). pose proof (blocks_of_mod _ Ha) as Hn.
    unfold ecb_whole. cbn [dir TEE_MODE_ENCRYPT TEE_MODE_DECRYPT Z.eqb negb].
    destruct (ecb_loop_bytes (bc_encrypt k) (length m / bc_len) m) as [E1 E2]; [apply bc_encrypt_block | done | done|].
    rewrite E1, <- Hn. split; [done|]. by apply ecb_loop_roundtrip.
  - assert (Ha : (length m mod bc_len = 0)%nat) by (apply Hblocks; by apply in_right). pose proof (blocks_of_mod _ Ha) as Hn.
    unfold cbc_whole. cbn [dir TEE_MODE_ENCRYPT TEE_MODE_DECRYPT Z.eqb negb].
    destruct (cbc_encrypt_loop_bytes k (length m / bc_len) iv m) as (E1 & E2 & _); [done..|].
    rewrite E1, <- Hn. split; [done|]. by rewrite cbc_loop_roundtrip.
  - subst algo. cbn in Hok. unfold cts_whole. cbn [dir TEE_MODE_ENCRYPT TEE_MODE_DECRYPT Z.eqb negb].
    split; [by apply cts_encrypt_bytes | by apply cts_decrypt_encrypt].
Qed.

(** C22. Round trip: what a trusted application enciphers, in any pieces, it deciphers again,
    in any other pieces, with an operation for decryption under the same key and vector. *)
Theorem ta_cipher_roundtrip algo k enc dec iv l last destLen l' last' destLen' :
  keyed algo TEE_MODE_ENCRYPT k enc -> keyed algo TEE_MODE_DECRYPT k dec -> is_block iv ->
  Forall (roomy bc_len) l -> roomy bc_len (last, destLen) -> final_ok algo bc_len (length (concat l.*1 ++ last)) ->
  exists ct, ta_cipher enc iv l last destLen = Return (Some ct) /\
    (concat l'.*1 ++ last' = ct -> Forall (roomy bc_len) l' -> roomy bc_len (last', destLen') ->
     ta_cipher dec iv l' last' destLen' = Return (Some (concat l.*1 ++ last))).
Proof.
  intros He Hd Hiv Hl Hlast Hok. set (m := concat l.*1 ++ last) in *.
  assert (Hm : Forall is_byte m).
  { apply Forall_app. split; [|apply Hlast]. apply Forall_concat, Forall_fmap.
    eapply Forall_impl; [exact Hl|]. intros c [Hc _]. exact Hc. }
  destruct (whole_roundtrip algo (cs_ctx (op_state enc)) (cs_ctx (op_state dec)) k iv m) as [Hlen Hrt];
    [apply He | apply He | apply Hd | done | done | done|].
  exists (whole (cs_ctx (op_state enc)) TEE_MODE_ENCRYPT k iv m). split.
  { unfold ta_cipher. destruct (cipher_init_ok _ _ _ _ iv He Hiv) as (op' & -> & Hp & Him). cbn [obind]. by eapply cipher_run_ok. }
  intros Hct Hl' Hlast'. unfold ta_cipher. destruct (cipher_init_ok _ _ _ _ iv Hd Hiv) as (op' & -> & Hp & Him). cbn [obind].
  assert (Hok' : final_ok algo bc_len (length (concat l'.*1 ++ last'))) by (by rewrite Hct, Hlen).
  rewrite (cipher_run_ok algo bc_len _ op' l' last' destLen' Him Hp Hl' Hlast' Hok').
  do 2 f_equal. etransitivity; [|exact Hrt]. f_equal. exact Hct.
Qed.
End ta_kernel.
