(* ===== verification/TeeOpDemo.v ===== *)
(** * Ciphering: concrete operations

    A small block cipher and key service, with which the theorems on operations are
    applied and the flaws found are shown. *)

From S2P Require Import Prelude Cipher CipherModes CipherSvc TeeOp TeeOpBuffer TeeOpSpec TeeOpState TeeOpKernel.
From stdpp Require Import base list.
From Stdlib Require Import ZArith Lia.

Local Open Scope Z_scope.

(** ** A cipher that reverses a block and adds a byte to it *)

#[local] Instance demo_cipher : BlockCipher := {|
  bc_key := Z;
  bc_len := 16;
  bc_setup := fun key => match key with [k] => if (0 <=? k) && (k <? 256) then Some (k mod 256) else None | _ => None end;
  bc_encrypt := fun k b => reverse (Z.lxor (k mod 256) <$> b);
  bc_decrypt := fun k b => Z.lxor (k mod 256) <$> reverse b;
|}.

Lemma lxor_byte_bytes k b : Forall is_byte b -> Forall is_byte (Z.lxor (k mod 256) <$> b).
Proof.
  intros Hb. apply Forall_fmap. eapply Forall_impl; [exact Hb|]. intros x Hx. apply is_byte_xor; [|done].
  apply (Z.mod_pos_bound k 256). lia.
Qed.

#[local] Instance demo_cipher_laws : BlockCipherLaws demo_cipher.
Proof.
  split; cbn [bc_len bc_encrypt bc_decrypt demo_cipher].
  - lia.
  - intros k b [Hl Hb]. split; [by rewrite length_reverse, length_fmap|]. by apply Forall_reverse, lxor_byte_bytes.
  - intros k b [Hl Hb]. split; [by rewrite length_fmap, length_reverse|]. by apply lxor_byte_bytes, Forall_reverse.
  - intros k b _. rewrite reverse_involutive, <- list_fmap_compose. rewrite <- (list_fmap_id b) at 2.
    apply list_fmap_ext. intros _ x _. cbn. rewrite <- Z.lxor_assoc, Z.lxor_nilpotent. apply Z.lxor_0_l.
Qed.

(** Keys are byte strings, good for every use. *)
#[local] Instance demo_keys : KeySvc (@svc_state kernel_svc) := {|
  key_obj := bytes;
  key_info := fun k => (TEE_SUCCESS, 0x7f, 8 * zlen k);
  key_reset1 := fun cs => mk_cs (cs_algo cs) (cs_mode cs) (Some (false, [])) (cs_key2 cs) (cs_ctx cs) (cs_ctx_finalize cs) (cs_initialized cs);
  key_reset2 := fun cs => mk_cs (cs_algo cs) (cs_mode cs) (cs_key1 cs) (Some (false, [])) (cs_ctx cs) (cs_ctx_finalize cs) (cs_initialized cs);
  key_copy1 := fun cs k => (TEE_SUCCESS, mk_cs (cs_algo cs) (cs_mode cs) (Some (true, k)) (cs_key2 cs) (cs_ctx cs) (cs_ctx_finalize cs) (cs_initialized cs));
  key_copy2 := fun cs k => (TEE_SUCCESS, mk_cs (cs_algo cs) (cs_mode cs) (cs_key1 cs) (Some (true, k)) (cs_ctx cs) (cs_ctx_finalize cs) (cs_initialized cs));
  key_of1 := fun cs => default [] (snd <$> cs_key1 cs);
  key_of2 := fun cs => default [] (snd <$> cs_key2 cs);
|}.
#[local] Instance demo_hash : HashSvc (@svc_state kernel_svc) := {|
  hash_init := fun cs => (TEE_SUCCESS, cs);
  hash_update := fun cs _ => (TEE_SUCCESS, cs);
  hash_final := fun cs _ _ => (TEE_SUCCESS, cs, [], 0);
|}.
#[local] Instance demo_authenc : AuthencSvc (@svc_state kernel_svc) := {|
  authenc_init := fun cs _ _ _ _ => (TEE_SUCCESS, cs);
  authenc_update_aad := fun cs _ => (TEE_SUCCESS, cs);
  authenc_update_payload := fun cs a _ => (TEE_SUCCESS, cs, a, zlen a);
  authenc_enc_final := fun cs a _ _ => (TEE_SUCCESS, cs, a, zlen a, [], 0);
  authenc_dec_final := fun cs a _ _ => (TEE_SUCCESS, cs, a, zlen a);
|}.

(** The state that the kernel allocates for AES with ciphertext stealing. *)
Definition cts_state (mode : Z) : tee_cryp_state :=
  mk_cs TEE_ALG_AES_CTS mode (Some (false, [])) None (CtxCts (mk_cts (mk_ltc_ecb false None) (mk_ltc_cbc false None) 0)) false false.

Definition opt_op {A} (d : A) (x : outcome (Z * option A)) : A := match x with Return (_, Some a) => a | _ => d end.
Definition ret_op {A B} (d : A) (x : outcome (B * A)) : A := match x with Return (_, a) => a | Panic => d end.

Definition blank_op : operation (@svc_state kernel_svc) := mk_op 0 0 0 0 0 0 0 0 false false 0 None false 0 0 (cts_state 0).

(** An operation allocated and its key set through the API. *)
Definition demo_alloc (mode : Z) : operation (@svc_state kernel_svc) :=
  opt_op blank_op (TEE_AllocateOperation TEE_ALG_AES_CTS mode 128 (mk_env true (Some (fun _ => 0)) 0 0 (TEE_SUCCESS, cts_state mode))).
Definition demo_op (mode : Z) : operation (@svc_state kernel_svc) := ret_op blank_op (TEE_SetOperationKey (demo_alloc mode) (Some [7])).

Definition demo_iv : bytes := replicate 16 9.
Definition piece (from n : nat) : bytes := Z.of_nat <$> seq from n.

Lemma is_byte_dec_forall l : forallb (fun x => (0 <=? x) && (x <? 256)) l = true -> Forall is_byte l.
Proof.
  intros H. apply Forall_forall. intros x Hx. apply list_elem_of_In in Hx. rewrite forallb_forall in H. specialize (H x Hx).
  zbool. unfold is_byte. lia.
Qed.

Lemma demo_keyed mode : mode_ok mode -> keyed TEE_ALG_AES_CTS mode 7 (demo_op mode).
Proof.
  intros Hm. assert (Hc : mode = TEE_MODE_ENCRYPT \/ mode = TEE_MODE_DECRYPT) by done.
  destruct Hc as [-> | ->]; (split; try (vm_compute; done); try done).
  - exists (replicate 32 0). split; vm_compute; done.
  - exists [7]. split; vm_compute; done.
  - exists (replicate 32 0). split; vm_compute; done.
  - exists [7]. split; vm_compute; done.
Qed.

Lemma demo_iv_block : is_block demo_iv.
Proof. split; [done|]. by apply is_byte_dec_forall. Qed.

Lemma piece_roomy from n d : forallb (fun x => (0 <=? x) && (x <? 256)) (piece from n) = true ->
  Z.of_nat n + 32 <= d < 2 ^ 32 -> roomy 16 (piece from n, d).
Proof.
  intros Hb Hd. split; cbn [fst snd]; [by apply is_byte_dec_forall|]. unfold piece. rewrite length_fmap, length_seq. lia.
Qed.

(** [ta_cipher_any_pieces] at 37 bytes in three pieces. *)
Lemma ta_cipher_any_pieces_witness :
  ta_cipher (demo_op TEE_MODE_ENCRYPT) demo_iv [(piece 0 5, 64); (piece 5 20, 64)] (piece 25 12) 64 =
  Return (Some (cts_encrypt 7 demo_iv (piece 0 37))).
Proof.
  pose proof (ta_cipher_any_pieces TEE_ALG_AES_CTS TEE_MODE_ENCRYPT 7 (demo_op TEE_MODE_ENCRYPT) demo_iv
    [(piece 0 5, 64); (piece 5 20, 64)] (piece 25 12) 64) as H.
  specialize (H (demo_keyed _ (or_introl eq_refl)) demo_iv_block).
  assert (Hr : Forall (roomy 16) [(piece 0 5, 64); (piece 5 20, 64)] /\ roomy 16 (piece 25 12, 64)).
  { split; [constructor; [|constructor; [|constructor]]|]; (apply piece_roomy; [reflexivity | lia]). }
  destruct Hr as [Hr1 Hr2]. specialize (H Hr1 Hr2 ltac:(cbn; lia)). exact H.
Defined.

(** [ta_cipher_roundtrip]: 20 bytes in two pieces, deciphered in two others. *)
Definition demo_ct : bytes := Eval vm_compute in
  match ta_cipher (demo_op TEE_MODE_ENCRYPT) demo_iv [(piece 0 17, 64)] (piece 17 3) 64 with Return (Some ct) => ct | _ => [] end.

Lemma ta_cipher_roundtrip_witness :
  ta_cipher (demo_op TEE_MODE_DECRYPT) demo_iv [(take 4 demo_ct, 64)] (drop 4 demo_ct) 64 = Return (Some (piece 0 20)).
Proof.
  destruct (ta_cipher_roundtrip (BC := demo_cipher) TEE_ALG_AES_CTS 7 (demo_op TEE_MODE_ENCRYPT) (demo_op TEE_MODE_DECRYPT) demo_iv
    [(piece 0 17, 64)] (piece 17 3) 64 [(take 4 demo_ct, 64)] (drop 4 demo_ct) 64
    (demo_keyed _ (or_introl eq_refl)) (demo_keyed _ (or_intror eq_refl)) demo_iv_block) as (ct & Hct & Hd).
  - constructor; [|constructor]. (apply piece_roomy; [reflexivity | lia]).
  - (apply piece_roomy; [reflexivity | lia]).
  - cbn. lia.
  - assert (Hr : forall x, x ∈ [take 4 demo_ct; drop 4 demo_ct] -> roomy 16 (x, 64)).
    { intros x Hx. apply list_elem_of_In in Hx. destruct Hx as [<- | [<- | []]]; (split; [by apply is_byte_dec_forall | cbn; lia]). }
    apply Hd.
    + assert (Hv : ta_cipher (demo_op TEE_MODE_ENCRYPT) demo_iv [(piece 0 17, 64)] (piece 17 3) 64 = Return (Some demo_ct)) by (vm_compute; reflexivity).
      rewrite Hv in Hct. injection Hct as <-. reflexivity.
    + constructor; [apply Hr, list_elem_of_here | constructor].
    + apply Hr, list_elem_of_further, list_elem_of_here.
Defined.

Definition demo_env (mode : Z) : alloc_env (CS := kernel_svc) := mk_env true (Some (fun _ => 0)) 0 0 (TEE_SUCCESS, cts_state mode).

Lemma demo_alloc_reachable mode : mode_ok mode -> reachable_op (demo_alloc mode).
Proof.
  intros [-> | ->].
  - apply (ro_alloc TEE_ALG_AES_CTS TEE_MODE_ENCRYPT 128 (demo_env TEE_MODE_ENCRYPT) TEE_SUCCESS). vm_cast_no_check (@eq_refl (outcome (Z * option (operation (@svc_state kernel_svc)))) (Return (TEE_SUCCESS, Some (demo_alloc TEE_MODE_ENCRYPT)))).
  - apply (ro_alloc TEE_ALG_AES_CTS TEE_MODE_DECRYPT 128 (demo_env TEE_MODE_DECRYPT) TEE_SUCCESS). vm_cast_no_check (@eq_refl (outcome (Z * option (operation (@svc_state kernel_svc)))) (Return (TEE_SUCCESS, Some (demo_alloc TEE_MODE_DECRYPT)))).
Qed.

(** [operation_well_formed] at the allocated operation. *)
Lemma operation_well_formed_witness : op_block_size (demo_alloc TEE_MODE_ENCRYPT) = 16 /\ op_wf (demo_alloc TEE_MODE_ENCRYPT).
Proof.
  split; [reflexivity|]. apply (operation_well_formed (demo_alloc TEE_MODE_ENCRYPT)). apply demo_alloc_reachable. by left.
Defined.

(** [buffer_update_in_bounds] at 40 bytes. *)
Lemma buffer_update_in_bounds_witness :
  exists op' out (fed : bytes), tee_buffer_update dummy_upd (demo_alloc TEE_MODE_ENCRYPT) (Buf (piece 0 40)) 64 = Return (op', out, zlen fed) /\
    zlen fed mod 16 = 0.
Proof.
  assert (Hwf : op_wf (demo_alloc TEE_MODE_ENCRYPT)).
  { apply (TEE_AllocateOperation_wf TEE_ALG_AES_CTS TEE_MODE_ENCRYPT 128 (demo_env TEE_MODE_ENCRYPT) TEE_SUCCESS). vm_cast_no_check (@eq_refl (outcome (Z * option (operation (@svc_state kernel_svc)))) (Return (TEE_SUCCESS, Some (demo_alloc TEE_MODE_ENCRYPT)))). }
  destruct (buffer_update_in_bounds dummy_upd (demo_alloc TEE_MODE_ENCRYPT) (piece 0 40) 64 Hwf) as (op' & out & fed & H1 & _ & H3 & _).
  - reflexivity.
  - by apply is_byte_dec_forall.
  - reflexivity.
  - intros st a d _ _. do 2 eexists. split; [reflexivity|]. apply length_replicate.
  - vm_compute. split; [discriminate | reflexivity].
  - exists op', out, fed. split; [exact H1 | exact H3].
Defined.

(** ** Flaws *)

Definition demo_started : operation (@svc_state kernel_svc) :=
  match TEE_CipherInit (demo_op TEE_MODE_ENCRYPT) demo_iv with Return op => op | Panic => blank_op end.

(** The room that [TEE_CipherUpdate] asks for with two buffered blocks is a block short: 33
    bytes need 16 bytes of room, 0 are asked for, and an output buffer of 0 bytes panics the
    application instead of being refused with [TEE_ERROR_SHORT_BUFFER]. *)
Lemma cipher_update_room_short :
  cipher_req_dlen demo_started 33 = 0 /\
  TEE_CipherUpdate demo_started (Buf (piece 0 33)) 0 = Panic /\
  exists op' d, TEE_CipherUpdate demo_started (Buf (piece 0 33)) 16 = Return (TEE_SUCCESS, (op', d, 16)).
Proof. split; [reflexivity|]. split; [reflexivity|]. do 2 eexists. vm_compute. reflexivity. Qed.

(** SM4 in counter mode: the last, partial block of a message is refused by the kernel. *)
Lemma sm4_ctr_partial_refused (cs : tee_cryp_state) (src : bytes) dlen :
  cs_algo cs = TEE_ALG_SM4_CTR -> cs_initialized cs = true -> mode_ok (cs_mode cs) ->
  (length src mod 16 <> 0)%nat -> zlen src <= dlen ->
  (syscall_cipher_final cs src dlen).1.1.1 = TEE_ERROR_NOT_SUPPORTED.
Proof.
  intros Ha Hi Hm Hn Hd. unfold syscall_cipher_final, tee_svc_cipher_update_helper. rewrite Hi. cbn [negb].
  destruct (Z.ltb_spec dlen (zlen src)); [lia|].
  destruct (Z.ltb_spec 0 (zlen src)); [|destruct src; [done | cbn in *; lia]].
  unfold tee_do_cipher_update, cipher_len_check. rewrite Ha.
  change (tee_cipher_get_block_size TEE_ALG_SM4_CTR) with (Some 16%nat). cbv beta iota.
  destruct (Nat.eqb_spec (length src mod 16) 0); [done|]. by destruct Hm as [-> | ->].
Qed.
