(* ===== verification/ErrM.v ===== *)
(** * Stateful code that may fail

    A small monad for the C functions of the form [res = f(...); if (res) goto out;]: a
    state, a result that is a value, an error code or a panic, and weakest
    preconditions to reason about all three. *)

From S2P Require Import Prelude.
From stdpp Require Import base list.
From Stdlib Require Import ZArith Lia.

Local Open Scope Z_scope.

Inductive rres (A : Type) : Type :=
| ROk (a : A)
| RErr (e : Z)
| RPanic.
Arguments ROk {A}.
Arguments RErr {A}.
Arguments RPanic {A}.

Definition M (S A : Type) : Type := S -> rres A * S.

Definition m_ret {S A} (a : A) : M S A := fun s => (ROk a, s).
Definition m_bind {S A B} (f : A -> M S B) (m : M S A) : M S B := fun s =>
  match m s with
  | (ROk a, s) => f a s
  | (RErr e, s) => (RErr e, s)
  | (RPanic, s) => (RPanic, s)
  end.

#[export] Instance M_mret {S} : MRet (M S) := fun A => @m_ret S A.
#[export] Instance M_mbind {S} : MBind (M S) := fun A B => @m_bind S A B.

Definition throw {S A} (e : Z) : M S A := fun s => (RErr e, s).
Definition panic {S A} : M S A := fun s => (RPanic, s).
Definition get {S} : M S S := fun s => (ROk s, s).
Definition gets {S A} (f : S -> A) : M S A := fun s => (ROk (f s), s).
Definition modify {S} (f : S -> S) : M S unit := fun s => (ROk tt, f s).

(** An early return with an error unless [b]. *)
Definition guard_ {S} (b : bool) (e : Z) : M S unit := if b then m_ret tt else throw e.
Definition assert_ {S} (b : bool) : M S unit := if b then m_ret tt else panic.

(** The caller looks at the result itself. *)
Definition try_ {S A} (m : M S A) : M S (Z + A) := fun s =>
  match m s with
  | (ROk a, s) => (ROk (inr a), s)
  | (RErr e, s) => (ROk (inl e), s)
  | (RPanic, s) => (RPanic, s)
  end.

(** The clean-up at the label [out]. *)
Definition finally {S A} (m : M S A) (clean : M S unit) : M S A :=
  r ← try_ m; clean ;; match r with inl e => throw e | inr a => mret a end.

(** [m] on a part of the state. *)
Definition zoom {S T A} (get : S -> T) (set : T -> S -> S) (m : M T A) : M S A := fun s =>
  let '(r, t) := m (get s) in (r, set t s).

(** Result codes. *)
Definition of_res {S A} (r : Z * A) : M S A := if r.1 =? TEE_SUCCESS then m_ret r.2 else throw r.1.

(** ** Weakest preconditions *)

Definition wp {S A} (m : M S A) (Q : rres A -> S -> Prop) (s : S) : Prop := Q (m s).1 (m s).2.

(** What holds after [m], for a value, an error and a panic. *)
Definition cont {S A B} (k : A -> M S B) (Q : rres B -> S -> Prop) (r : rres A) (s : S) : Prop :=
  match r with
  | ROk a => wp (k a) Q s
  | RErr e => Q (RErr e) s
  | RPanic => Q RPanic s
  end.

Lemma wp_mono {S A} (m : M S A) (Q Q' : rres A -> S -> Prop) s :
  wp m Q s -> (forall r s', Q r s' -> Q' r s') -> wp m Q' s.
Proof. unfold wp. auto. Qed.

Lemma wp_bind {S A B} (m : M S A) (k : A -> M S B) Q s : wp m (cont k Q) s -> wp (m ≫= k) Q s.
Proof.
  unfold wp, cont, mbind, M_mbind, m_bind. destruct (m s) as [[a|e|] s']; done.
Qed.

Lemma wp_seq {S A B} (m : M S A) (k : A -> M S B) R Q s :
  wp m R s -> (forall r s', R r s' -> cont k Q r s') -> wp (m ≫= k) Q s.
Proof. intros Hm Hk. apply wp_bind. by eapply wp_mono. Qed.

Lemma wp_ret {S A} (a : A) Q (s : S) : Q (ROk a) s -> wp (mret a : M S A) Q s.
Proof. done. Qed.
Lemma wp_throw {S A} e (Q : rres A -> S -> Prop) s : Q (RErr e) s -> wp (throw e) Q s.
Proof. done. Qed.
Lemma wp_gets {S A} (f : S -> A) Q s : Q (ROk (f s)) s -> wp (gets f) Q s.
Proof. done. Qed.
Lemma wp_modify {S} (f : S -> S) Q s : Q (ROk tt) (f s) -> wp (modify f) Q s.
Proof. done. Qed.

Lemma wp_guard {S} b e (Q : rres unit -> S -> Prop) s :
  (b = true -> Q (ROk tt) s) -> (b = false -> Q (RErr e) s) -> wp (guard_ b e) Q s.
Proof. destruct b; unfold wp, guard_; cbn; auto. Qed.

Lemma wp_try {S A} (m : M S A) (Q : rres (Z + A) -> S -> Prop) s :
  wp m (fun r s' => match r with ROk a => Q (ROk (inr a)) s' | RErr e => Q (ROk (inl e)) s' | RPanic => Q RPanic s' end) s ->
  wp (try_ m) Q s.
Proof. unfold wp, try_. destruct (m s) as [[a|e|] s']; done. Qed.

Lemma wp_zoom {S T A} (g : S -> T) (st : T -> S -> S) (m : M T A) Q s :
  wp m (fun r t => Q r (st t s)) (g s) -> wp (zoom g st m) Q s.
Proof. unfold wp, zoom. destruct (m (g s)) as [r t]. done. Qed.

Lemma wp_of_res {S A} (z : Z) (a : A) Q (s : S) :
  (z = TEE_SUCCESS -> Q (ROk a) s) -> (z <> TEE_SUCCESS -> Q (RErr z) s) -> wp (of_res (z, a)) Q s.
Proof. intros H1 H2. unfold wp, of_res; cbn. destruct (Z.eqb_spec z TEE_SUCCESS); cbn; auto. Qed.

(** The clean-up, which does not fail, comes after a value and after an error. *)
Lemma wp_finally {S A} (m : M S A) (clean : M S unit) (Q : rres A -> S -> Prop) s :
  wp m (fun r s' => match r with RPanic => Q RPanic s' | _ => wp clean (fun rc s2 => rc = ROk tt /\ Q r s2) s' end) s ->
  wp (finally m clean) Q s.
Proof.
  intros H. unfold finally. apply wp_bind, wp_try. eapply wp_mono; [exact H|].
  intros [a|e|] s1 H1; cbn [cont]; [| |done]; (apply wp_bind; eapply wp_mono; [exact H1|]); intros rc s2 [-> H2]; cbn [cont]; exact H2.
Qed.

(** Proving about a run that is known. *)
Lemma wp_run {S A} (m : M S A) Q s r s' : wp m Q s -> m s = (r, s') -> Q r s'.
Proof. unfold wp. intros H E. by rewrite E in H. Qed.

Lemma bind_ok {S A B} (m : M S A) (k : A -> M S B) s b s' :
  (m ≫= k) s = (ROk b, s') -> exists a s1, m s = (ROk a, s1) /\ k a s1 = (ROk b, s').
Proof. unfold mbind, M_mbind, m_bind. destruct (m s) as [[a|e|] s1]; [eauto|done|done]. Qed.

(** ** Loops *)

(** [f] on each element in turn. *)
Fixpoint for_each {S A} (f : A -> M S unit) (l : list A) : M S unit :=
  match l with
  | [] => mret tt
  | x :: l => f x ;; for_each f l
  end.

(** One step of a proof on monadic code. *)
Ltac wp_step :=
  lazymatch goal with
  | |- wp (_ ≫= _) _ _ => apply wp_bind
  | |- wp (mret _) _ _ => apply wp_ret
  | |- wp (m_ret _) _ _ => apply wp_ret
  | |- wp (throw _) _ _ => apply wp_throw
  | |- wp (gets _) _ _ => apply wp_gets; cbn [cont]
  | |- wp (modify _) _ _ => apply wp_modify; cbn [cont]
  | |- wp (guard_ _ _) _ _ => apply wp_guard; intros ?; cbn [cont]
  | |- wp (try_ _) _ _ => apply wp_try
  | |- wp (if ?b then _ else _) _ _ => destruct b eqn:?
  | |- wp (let '(_, _) := ?x in _) _ _ => destruct x eqn:?
  | |- wp (of_res (_, _)) _ _ => apply wp_of_res; intros ?; cbn [cont]
  end.
