(* ===== verification/FsKey.v ===== *)
(** * Keys of secure storage: [core/tee/tee_fs_key_manager.c], [core/kernel/huk_subkey.c]

    Keys derived from the hardware unique key, the encryption of the key of a file with
    the storage key of its TA, and the encryption of the blocks of an RPMB file (AES-CBC
    with ESSIV). The block cipher is that of [Cipher]; HMAC and hash are parameters, as is
    the result of every call that can fail. *)

From S2P Require Import Prelude ErrM Cipher CipherModes.
From stdpp Require Import base list.
From Stdlib Require Import ZArith Lia.

Local Open Scope Z_scope.

Definition TEE_FS_KM_FEK_SIZE : nat := 16.
Definition TEE_FS_KM_SSK_SIZE : nat := 32.
Definition TEE_FS_KM_TSK_SIZE : nat := 32.
Definition TEE_FS_KM_CHIP_ID_LENGTH : nat := 32.
Definition TEE_AES_BLOCK_SIZE : nat := 16.
Definition TEE_SHA256_HASH_SIZE : nat := 32.
Definition HUK_SUBKEY_MAX_LEN : nat := TEE_SHA256_HASH_SIZE.

Definition HUK_SUBKEY_RPMB : Z := 0.
Definition HUK_SUBKEY_SSK : Z := 1.

(** ** Calls out

    [env_res]: the result of a call that only succeeds or fails; [env_rng]: of
    [crypto_rng_read], with the bytes it delivers. *)
Class Env (W : Type) := {
  env_res : W -> Z * W;
  env_rng : nat -> W -> (Z * bytes) * W;
}.

(** Memory read as [n] bytes: what a buffer of that size holds. *)
Definition as_bytes (n : nat) (b : bytes) : bytes := map u8 (take n (b ++ replicate n 0)).

Section key_manager.
Context {W : Type} {EV : Env W} {BC : BlockCipher}.
Context (hmac_sha256 : bytes -> bytes -> bytes) (sha256_hash : bytes -> bytes).
Context (hw_unique_key : bytes).

Definition call_out : M W unit := fun w => let '(z, w) := env_res w in (if z =? TEE_SUCCESS then ROk tt else RErr z, w).
(** [malloc] and [calloc] *)
Definition alloc_out : M W unit := fun w =>
  let '(z, w) := env_res w in (if z =? TEE_SUCCESS then ROk tt else RErr TEE_ERROR_OUT_OF_MEMORY, w).
Definition crypto_rng_read (n : nat) : M W bytes := fun w =>
  let '((z, b), w) := env_rng n w in (if z =? TEE_SUCCESS then ROk (as_bytes n b) else RErr z, w).

(** [crypto_mac_alloc_ctx], [_init], one [_update] for each part, [_final] *)
Definition mac_parts (key : bytes) (parts : list bytes) (out_size : nat) : M W bytes :=
  call_out ;; call_out ;; for_each (fun _ => call_out) parts ;; call_out ;;
  mret (take out_size (hmac_sha256 key (concat parts))).

(** ** [huk_subkey.c] *)

Definition get_dummy_die_id (len : nat) : bytes :=
  map (fun i => nth (i mod 4) [66; 69; 69; 70] 0) (seq 0 len).

(** A [uint32_t] in memory. *)
Definition le32 (x : Z) : bytes := [u8 x; u8 (Z.shiftr x 8); u8 (Z.shiftr x 16); u8 (Z.shiftr x 24)].

(** ONLY_FOR_tee_fs_ssk, with the final NUL *)
Definition ssk_str : bytes :=
  [79; 78; 76; 89; 95; 70; 79; 82; 95; 116; 101; 101; 95; 102; 115; 95; 115; 115; 107; 0].

(** What is hashed before the constant data (CFG_CORE_HUK_SUBKEY_COMPAT is the default). *)
Definition huk_compat (usage : Z) : list bytes :=
  if usage =? HUK_SUBKEY_RPMB then []
  else if usage =? HUK_SUBKEY_SSK then [get_dummy_die_id TEE_FS_KM_CHIP_ID_LENGTH; ssk_str]
  else [le32 usage].

Definition huk_subkey_derive (usage : Z) (const_data : option bytes) (subkey_len : nat) : M W bytes :=
  guard_ (subkey_len <=? HUK_SUBKEY_MAX_LEN)%nat TEE_ERROR_BAD_PARAMETERS ;;
  call_out ;; (* crypto_mac_alloc_ctx *)
  call_out ;; (* tee_otp_get_hw_unique_key *)
  call_out ;; (* crypto_mac_init *)
  let parts := huk_compat usage ++ match const_data with Some d => [d] | None => [] end in
  for_each (fun _ => call_out) parts ;;
  call_out ;; (* crypto_mac_final *)
  mret (take subkey_len (hmac_sha256 hw_unique_key (concat parts))).

(** ** [tee_fs_key_manager.c] *)

Record tee_fs_ssk := mk_ssk { ssk_is_init : bool; ssk_key : bytes }.

Definition do_hmac (out_size : nat) (in_key message : bytes) : M W bytes := mac_parts in_key [message] out_size.

Definition tee_fs_init_key_manager : M W (Z * tee_fs_ssk) :=
  r ← try_ (huk_subkey_derive HUK_SUBKEY_SSK None TEE_FS_KM_SSK_SIZE);
  match r with
  | inr key => mret (TEE_SUCCESS, mk_ssk true key)
  | inl res => mret (res, mk_ssk false (replicate TEE_FS_KM_SSK_SIZE 0))
  end.

(** A context that is set up, used once and thrown away. *)
Definition cipher_once (c : cipher_ctx) (mode : Z) (key iv data : bytes) : M W bytes :=
  call_out ;; (* crypto_cipher_alloc_ctx *)
  c ← of_res (crypto_cipher_init c mode key iv);
  let '(res, _, out) := crypto_cipher_update c true data in
  of_res (res, out).

Definition new_ecb : cipher_ctx := CtxEcb (mk_ltc_ecb false None).
Definition new_cbc : cipher_ctx := CtxCbc (mk_ltc_cbc false None).

Definition tee_fs_fek_crypt (ssk : tee_fs_ssk) (uuid : option bytes) (mode : Z) (in_key : bytes) : M W bytes :=
  guard_ (length in_key =? TEE_FS_KM_FEK_SIZE)%nat TEE_ERROR_BAD_PARAMETERS ;;
  guard_ (ssk_is_init ssk) TEE_ERROR_GENERIC ;;
  tsk ← do_hmac TEE_FS_KM_TSK_SIZE (ssk_key ssk) (match uuid with Some u => u | None => [0] end);
  cipher_once new_ecb mode tsk [] in_key.

Definition tee_fs_generate_fek (ssk : tee_fs_ssk) (uuid : bytes) : M W bytes :=
  key ← crypto_rng_read TEE_FS_KM_FEK_SIZE;
  tee_fs_fek_crypt ssk (Some uuid) TEE_MODE_ENCRYPT key.

(** [tee_hash_createdigest] of [tee_cryp_utl.c], for SHA-256 *)
Definition tee_hash_createdigest (data : bytes) (digestlen : nat) : M W bytes :=
  call_out ;; call_out ;; (if (length data =? 0)%nat then mret tt else call_out) ;; call_out ;;
  mret (take digestlen (sha256_hash data)).

Definition sha256 (data : bytes) : M W bytes := tee_hash_createdigest data TEE_SHA256_HASH_SIZE.

Definition aes_ecb (data key : bytes) : M W bytes := cipher_once new_ecb TEE_MODE_ENCRYPT key [] data.

Definition pad_blkid (blk_idx : Z) : bytes :=
  [u8 (Z.land blk_idx 0xFF); u8 (Z.shiftr (Z.land blk_idx 0xFF00) 8)] ++ replicate (TEE_AES_BLOCK_SIZE - 2) 0.

Definition essiv (fek : bytes) (blk_idx : Z) : M W bytes :=
  sha ← sha256 fek;
  aes_ecb (pad_blkid blk_idx) (take 16 sha).

Definition tee_fs_crypt_block (ssk : tee_fs_ssk) (uuid : bytes) (data : bytes) (blk_idx : Z) (encrypted_fek : bytes) (mode : Z) : M W bytes :=
  fek ← tee_fs_fek_crypt ssk (Some uuid) TEE_MODE_DECRYPT encrypted_fek;
  iv ← essiv fek blk_idx;
  cipher_once new_cbc mode fek iv data.
End key_manager.

(** ** What the calls compute

    Without the failures: the same functions as partial functions. *)

Section values.
Context {BC : BlockCipher}.
Context (hmac_sha256 : bytes -> bytes -> bytes) (sha256_hash : bytes -> bytes).

Definition ecb_value (mode : Z) (key data : bytes) : option bytes :=
  k ← bc_setup key; (if mode =? TEE_MODE_ENCRYPT then ecb_encrypt else ecb_decrypt) data (mk_ecb k).
Definition cbc_value (mode : Z) (key iv data : bytes) : option bytes :=
  k ← bc_setup key;
  if negb (Nat.eqb (length iv) bc_len) then None
  else fst <$> (if mode =? TEE_MODE_ENCRYPT then cbc_encrypt else cbc_decrypt) data (mk_cbc k iv).

(** The storage key of a TA. *)
Definition tsk_value (ssk : tee_fs_ssk) (uuid : bytes) : bytes := take TEE_FS_KM_TSK_SIZE (hmac_sha256 (ssk_key ssk) uuid).

Definition fek_value (ssk : tee_fs_ssk) (uuid : bytes) (mode : Z) (key : bytes) : option bytes :=
  if (length key =? TEE_FS_KM_FEK_SIZE)%nat && ssk_is_init ssk then ecb_value mode (tsk_value ssk uuid) key else None.

Definition block_value (ssk : tee_fs_ssk) (uuid efek : bytes) (idx mode : Z) (data : bytes) : option bytes :=
  fek ← fek_value ssk uuid TEE_MODE_DECRYPT efek;
  iv ← ecb_value TEE_MODE_ENCRYPT (take 16 (take TEE_SHA256_HASH_SIZE (sha256_hash fek))) (pad_blkid idx);
  cbc_value mode fek iv data.
End values.

(** A run of [m] fails, or gives the value [v]. *)
Definition gives {S A} (v : option A) (r : rres A) (_ : S) : Prop :=
  match r with ROk a => v = Some a | RErr e => e <> TEE_SUCCESS | RPanic => False end.

Section values_correct.
Context {W : Type} {EV : Env W} {BC : BlockCipher}.
Context (hmac_sha256 : bytes -> bytes -> bytes) (sha256_hash : bytes -> bytes).

Lemma wp_call_out (Q : rres unit -> W -> Prop) w :
  (forall w', Q (ROk tt) w') -> (forall e w', e <> TEE_SUCCESS -> Q (RErr e) w') -> wp call_out Q w.
Proof.
  intros H1 H2. unfold wp, call_out. destruct (env_res w) as [z w'].
  destruct (Z.eqb_spec z TEE_SUCCESS); cbn; auto.
Qed.

Lemma wp_calls_out {A} (l : list A) (Q : rres unit -> W -> Prop) w :
  (forall w', Q (ROk tt) w') -> (forall e w', e <> TEE_SUCCESS -> Q (RErr e) w') -> wp (for_each (fun _ => call_out) l) Q w.
Proof.
  intros H1 H2. revert w. induction l as [|x l IH]; intros w; [by apply wp_ret|].
  cbn. wp_step. apply wp_call_out; cbn; auto.
Qed.

Ltac calls := repeat (wp_step; first [apply wp_call_out | apply wp_calls_out]; [|done]; intros ?; cbn [cont]).

Lemma mac_parts_gives key parts n w :
  wp (mac_parts hmac_sha256 key parts n) (gives (Some (take n (hmac_sha256 key (concat parts))))) w.
Proof. unfold mac_parts. calls. by apply wp_ret. Qed.

Lemma cipher_once_ecb mode key iv data w :
  wp (cipher_once new_ecb mode key iv data) (gives (ecb_value mode key data)) w.
Proof.
  unfold cipher_once. calls. unfold new_ecb, crypto_cipher_init, ltc_ecb_init, ecb_value.
  wp_step. destruct (_ && _); [by apply wp_of_res|]. destruct (bc_setup key) as [k|]; [|by apply wp_of_res].
  apply wp_of_res; [|done]. intros _. cbn. unfold ltc_ecb_update. cbn.
  destruct (mode =? TEE_MODE_ENCRYPT); cbn.
  - destruct (ecb_encrypt data _); apply wp_of_res; cbn; done.
  - destruct (ecb_decrypt data _); apply wp_of_res; cbn; done.
Qed.

Lemma cipher_once_cbc mode key iv data w :
  wp (cipher_once new_cbc mode key iv data) (gives (cbc_value mode key iv data)) w.
Proof.
  unfold cipher_once. calls. unfold new_cbc, crypto_cipher_init, ltc_cbc_init, cbc_value.
  wp_step. destruct (_ && _); [by apply wp_of_res|]. destruct (negb (Nat.eqb (length iv) bc_len)); [by apply wp_of_res|].
  destruct (bc_setup key) as [k|]; [|by apply wp_of_res].
  apply wp_of_res; [|done]. intros _. cbn. unfold ltc_cbc_update. cbn.
  destruct (mode =? TEE_MODE_ENCRYPT); cbn.
  - destruct (cbc_encrypt data _) as [[o c]|]; apply wp_of_res; cbn; done.
  - destruct (cbc_decrypt data _) as [[o c]|]; apply wp_of_res; cbn; done.
Qed.

(** One call after another. *)
Lemma gives_bind {A B} (m : M W A) (k : A -> M W B) v (f : A -> option B) w :
  wp m (gives v) w -> (forall a w', wp (k a) (gives (f a)) w') -> wp (m ≫= k) (gives (v ≫= f)) w.
Proof.
  intros Hm Hk. eapply wp_seq; [exact Hm|]. intros [a|e|] s'; cbn; [intros ->; apply Hk|done|done].
Qed.

Lemma tee_fs_fek_crypt_gives ssk uuid mode key w :
  wp (tee_fs_fek_crypt hmac_sha256 ssk (Some uuid) mode key) (gives (fek_value hmac_sha256 ssk uuid mode key)) w.
Proof.
  unfold tee_fs_fek_crypt, fek_value. wp_step. wp_step; [|done]. wp_step. wp_step; [|done].
  rewrite H, H0. cbn. apply (gives_bind _ _ (Some (tsk_value hmac_sha256 ssk uuid)) (fun tsk => ecb_value mode tsk key)).
  - eapply wp_mono; [apply mac_parts_gives|]. cbn. by rewrite app_nil_r.
  - intros. apply cipher_once_ecb.
Qed.

Lemma tee_fs_crypt_block_gives ssk uuid data idx efek mode w :
  wp (tee_fs_crypt_block hmac_sha256 sha256_hash ssk uuid data idx efek mode)
     (gives (block_value hmac_sha256 sha256_hash ssk uuid efek idx mode data)) w.
Proof.
  unfold tee_fs_crypt_block, block_value. apply gives_bind; [apply tee_fs_fek_crypt_gives|]. intros fek w1.
  apply gives_bind; [|intros; apply cipher_once_cbc].
  unfold essiv, sha256, tee_hash_createdigest.
  apply (gives_bind _ _ (Some (take TEE_SHA256_HASH_SIZE (sha256_hash fek)))
     (fun sha => ecb_value TEE_MODE_ENCRYPT (take 16 sha) (pad_blkid idx))).
  - wp_step. apply wp_call_out; [|done]. intros ?. cbn [cont]. calls. wp_step.
    destruct (length fek =? 0)%nat; [apply wp_ret|apply wp_call_out; [|done]; intros ?]; cbn [cont]; calls; by apply wp_ret.
  - intros. apply cipher_once_ecb.
Qed.
End values_correct.

Section roundtrip.
Context {BC : BlockCipher} {BL : BlockCipherLaws BC}.
Context (hmac_sha256 : bytes -> bytes -> bytes) (sha256_hash : bytes -> bytes).

Lemma whole_blocks (data : bytes) : Nat.eqb (length data mod bc_len) 0 = true -> length data = (length data / bc_len * bc_len)%nat.
Proof.
  intros H%Nat.eqb_eq. pose proof bc_len_pos. pose proof (Nat.div_mod (length data) bc_len). lia.
Qed.

Lemma ecb_value_bytes mode key data out :
  ecb_value mode key data = Some out -> Forall is_byte data -> length out = length data /\ Forall is_byte out.
Proof.
  unfold ecb_value. destruct (bc_setup key) as [k|]; [|done]. cbn. intros He Hd.
  destruct (mode =? TEE_MODE_ENCRYPT); unfold ecb_encrypt, ecb_decrypt in He;
    destruct (Nat.eqb _ _) eqn:E; simplify_eq; pose proof (whole_blocks _ E) as Hl.
  - destruct (ecb_loop_bytes (bc_encrypt k) (length data / bc_len) data) as [H1 H2];
      [apply bc_encrypt_block|done|done|split; [etransitivity; [exact H1|done]|exact H2]].
  - destruct (ecb_loop_bytes (bc_decrypt k) (length data / bc_len) data) as [H1 H2];
      [apply bc_decrypt_block|done|done|split; [etransitivity; [exact H1|done]|exact H2]].
Qed.

Lemma ecb_value_roundtrip key data out :
  ecb_value TEE_MODE_ENCRYPT key data = Some out -> Forall is_byte data -> ecb_value TEE_MODE_DECRYPT key out = Some data.
Proof.
  intros He Hd. destruct (ecb_value_bytes _ _ _ _ He Hd) as [Hlen _]. revert He. unfold ecb_value.
  destruct (bc_setup key) as [k|]; [|done]. cbn. unfold ecb_encrypt, ecb_decrypt. rewrite Hlen.
  destruct (Nat.eqb _ _) eqn:E; [|done]. intros [= <-]. f_equal. apply ecb_loop_roundtrip; [|done]. by apply whole_blocks.
Qed.

Lemma cbc_value_bytes mode key iv data out :
  cbc_value mode key iv data = Some out -> Forall is_byte iv -> Forall is_byte data ->
  length out = length data /\ Forall is_byte out.
Proof.
  unfold cbc_value. destruct (bc_setup key) as [k|]; [|done]. cbn. intros He Hi Hd.
  destruct (Nat.eqb (length iv) bc_len) eqn:Hl; [|done]. apply Nat.eqb_eq in Hl. cbn in He.
  destruct (mode =? TEE_MODE_ENCRYPT); unfold cbc_encrypt, cbc_decrypt in He;
    destruct (Nat.eqb (length data mod bc_len) 0) eqn:E; try done; pose proof (whole_blocks _ E) as Hn; cbn in He.
  - destruct (cbc_encrypt_loop_bytes k (length data / bc_len) iv data) as (H1 & H2 & _); [done|done|done|].
    destruct (cbc_encrypt_loop _ _ _ _) as [o c]; cbn in *; simplify_eq. by rewrite H1.
  - destruct (cbc_decrypt_loop_bytes k (length data / bc_len) iv data) as (H1 & H2 & _); [done|done|done|].
    destruct (cbc_decrypt_loop _ _ _ _) as [o c]; cbn in *; simplify_eq. by rewrite H1.
Qed.

Lemma cbc_value_roundtrip key iv data out :
  cbc_value TEE_MODE_ENCRYPT key iv data = Some out -> Forall is_byte iv -> Forall is_byte data ->
  cbc_value TEE_MODE_DECRYPT key iv out = Some data.
Proof.
  intros He Hi Hd. destruct (cbc_value_bytes _ _ _ _ _ He Hi Hd) as [Hlen _]. revert He. unfold cbc_value.
  destruct (bc_setup key) as [k|]; [|done]. cbn.
  destruct (Nat.eqb (length iv) bc_len) eqn:Hl; [|done]. apply Nat.eqb_eq in Hl. cbn. unfold cbc_encrypt, cbc_decrypt. rewrite Hlen.
  destruct (Nat.eqb (length data mod bc_len) 0) eqn:E; [|done]. pose proof (whole_blocks _ E) as Hn. cbn.
  pose proof (cbc_loop_roundtrip k (length data / bc_len) iv data) as Hr.
  destruct (cbc_encrypt_loop _ _ _ _) as [o c]; cbn in *. intros [= <-]. by rewrite Hr.
Qed.

Lemma pad_blkid_bytes idx : Forall is_byte (pad_blkid idx).
Proof. unfold pad_blkid. cbn -[u8 replicate]. repeat (constructor; [unfold is_byte; cint|]). by vm_compute; repeat constructor. Qed.

(** Different blocks of a file have different initial vectors. *)
Lemma pad_blkid_inj i j : is_u16 i -> is_u16 j -> pad_blkid i = pad_blkid j -> i = j.
Proof.
  intros Hi Hj [= H1 H2]. revert H1 H2. change 0xFF with (Z.ones 8). rewrite !Z.land_ones by lia.
  change 0xFF00 with (Z.shiftl (Z.ones 8) 8). rewrite !Z.shiftr_land, !Z.shiftr_shiftl_l by lia. cbn [Z.sub Z.shiftl].
  change (Z.shiftl (Z.ones 8) (8 - 8)) with (Z.ones 8). rewrite !Z.land_ones, !Z.shiftr_div_pow2 by lia. cint.
Qed.

(** Deciphering a block of a file gives what was ciphered. *)
Lemma block_value_roundtrip ssk uuid efek idx data out :
  block_value hmac_sha256 sha256_hash ssk uuid efek idx TEE_MODE_ENCRYPT data = Some out -> Forall is_byte data ->
  block_value hmac_sha256 sha256_hash ssk uuid efek idx TEE_MODE_DECRYPT out = Some data /\
  length out = length data /\ Forall is_byte out.
Proof.
  unfold block_value. destruct (fek_value _ _ _ _ _) as [fek|]; [|done]. cbn.
  destruct (ecb_value _ _ _) as [iv|] eqn:Hiv; [|done]. cbn. intros He Hd.
  assert (Forall is_byte iv) as Hb by (eapply ecb_value_bytes; [exact Hiv|apply pad_blkid_bytes]).
  split; [by eapply cbc_value_roundtrip|]. by eapply cbc_value_bytes.
Qed.
End roundtrip.
