(* ===== verification/Rpmb.v ===== *)
(** * The RPMB device: lower half of [core/tee/tee_rpmb_fs.c]

    A replay protected memory block is a part of an eMMC chip that is read and written
    with frames authenticated by a shared key, nonces for reads and a counter for writes.
    The frames pass through normal world, so every answer is checked. This file has the
    frames, the requests and their checks, the initialisation, and reading and writing of
    bytes.

    Normal world is the class [RpmbEnv]: it answers a request as it likes, and the memory with
    the answer is shared, so each access to it ([env_shm]) may find other contents. *)

From S2P Require Import Prelude ErrM Cipher FsKey.
From stdpp Require Import base list.
From Stdlib Require Import ZArith Lia.

Local Open Scope Z_scope.

Definition RPMB_CID_PRV_OFFSET : nat := 9.
Definition RPMB_CID_CRC_OFFSET : nat := 15.
Definition RPMB_MAX_RETRIES : nat := 10.

Definition RPMB_MSG_TYPE_REQ_AUTH_KEY_PROGRAM : Z := 0x0001.
Definition RPMB_MSG_TYPE_REQ_WRITE_COUNTER_VAL_READ : Z := 0x0002.
Definition RPMB_MSG_TYPE_REQ_AUTH_DATA_WRITE : Z := 0x0003.
Definition RPMB_MSG_TYPE_REQ_AUTH_DATA_READ : Z := 0x0004.
Definition RPMB_MSG_TYPE_RESP_AUTH_KEY_PROGRAM : Z := 0x0100.
Definition RPMB_MSG_TYPE_RESP_WRITE_COUNTER_VAL_READ : Z := 0x0200.
Definition RPMB_MSG_TYPE_RESP_AUTH_DATA_WRITE : Z := 0x0300.
Definition RPMB_MSG_TYPE_RESP_AUTH_DATA_READ : Z := 0x0400.

Definition RPMB_STUFF_DATA_SIZE : nat := 196.
Definition RPMB_KEY_MAC_SIZE : nat := 32.
Definition RPMB_DATA_SIZE : nat := 256.
Definition RPMB_NONCE_SIZE : nat := 16.
Definition RPMB_DATA_FRAME_SIZE : nat := 512.

Definition RPMB_RESULT_OK : Z := 0x00.
Definition RPMB_RESULT_AUTH_KEY_NOT_PROGRAMMED : Z := 0x07.
Definition RPMB_RESULT_MASK : Z := 0x3F.

Definition RPMB_CMD_DATA_REQ : Z := 0x00.
Definition RPMB_CMD_GET_DEV_INFO : Z := 0x01.
Definition RPMB_SIZE_SINGLE : Z := 128 * 1024.
Definition RPMB_CMD_GET_DEV_INFO_RET_OK : Z := 0x00.
Definition RPMB_EMMC_CID_SIZE : nat := 16.

Definition TEE_ERROR_COMMUNICATION : Z := 0xFFFF000E.

(** ** Frames *)

Record rpmb_data_frame := mk_frm {
  f_stuff_bytes : bytes;
  f_key_mac : bytes;
  f_data : bytes;
  f_nonce : bytes;
  f_write_counter : bytes;
  f_address : bytes;
  f_block_count : bytes;
  f_op_result : bytes;
  f_msg_type : bytes;
}.

Definition zero_frame : rpmb_data_frame :=
  mk_frm (replicate 196 0) (replicate 32 0) (replicate 256 0) (replicate 16 0) (replicate 4 0) (replicate 2 0)
    (replicate 2 0) (replicate 2 0) (replicate 2 0).

Definition slice (off n : nat) (b : bytes) : bytes := take n (drop off b).

Definition frame_of_bytes (b : bytes) : rpmb_data_frame :=
  mk_frm (slice 0 196 b) (slice 196 32 b) (slice 228 256 b) (slice 484 16 b) (slice 500 4 b) (slice 504 2 b)
    (slice 506 2 b) (slice 508 2 b) (slice 510 2 b).

Definition bytes_of_frame (f : rpmb_data_frame) : bytes :=
  f_stuff_bytes f ++ f_key_mac f ++ f_data f ++ f_nonce f ++ f_write_counter f ++ f_address f ++ f_block_count f ++
  f_op_result f ++ f_msg_type f.

(** From [data] to the end: [RPMB_MAC_PROTECT_DATA_SIZE] bytes. *)
Definition mac_protected (f : rpmb_data_frame) : bytes :=
  f_data f ++ f_nonce f ++ f_write_counter f ++ f_address f ++ f_block_count f ++ f_op_result f ++ f_msg_type f.

(** Numbers in frames are big-endian. *)
Definition u32_to_bytes (x : Z) : bytes := [u8 (Z.shiftr x 24); u8 (Z.shiftr x 16); u8 (Z.shiftr x 8); u8 x].
Definition bytes_to_u32 (b : bytes) : Z :=
  u32 (Z.shiftl (nth 0 b 0) 24 + Z.shiftl (nth 1 b 0) 16 + Z.shiftl (nth 2 b 0) 8 + nth 3 b 0).
Definition u16_to_bytes (x : Z) : bytes := [u8 (Z.shiftr x 8); u8 x].
Definition bytes_to_u16 (b : bytes) : Z := u16 (Z.shiftl (nth 0 b 0) 8 + nth 1 b 0).
Definition get_op_result_bits (b : bytes) : Z := Z.land (nth 1 b 0) RPMB_RESULT_MASK.

(** [struct rpmb_req] and the frames behind it; the block count is not always set. *)
Record rpmb_req := mk_req {
  rq_cmd : Z;
  rq_dev_id : Z;
  rq_block_count : option Z;
  rq_frames : list rpmb_data_frame;
}.
Definition rpmb_req_size : nat := 6.

Class RpmbEnv (W : Type) := {
  rpmb_base :: Env W;
  env_invoke : rpmb_req -> nat -> W -> Z * W;
  env_shm : nat -> nat -> W -> bytes * W;
}.

(** [struct rpmb_raw_data]: pointers that may be NULL are options. *)
Record rpmb_raw_data := mk_raw {
  rd_msg_type : Z;
  rd_block_count : option Z;
  rd_blk_idx : option Z;
  rd_write_counter : option Z;
  rd_nonce : option bytes;
  rd_key_mac : option bytes;
  rd_data : option bytes;
  rd_len : Z;
  rd_byte_offset : Z;
}.
Definition raw0 : rpmb_raw_data := mk_raw 0 None None None None None None 0 0.

Record tee_rpmb_ctx := mk_ctx {
  c_key : bytes;
  c_cid : bytes;
  c_wr_cnt : Z;
  c_max_blk_idx : Z;
  c_rel_wr_blkcnt : Z;
  c_dev_id : Z;
  c_wr_cnt_synced : bool;
  c_key_derived : bool;
  c_key_verified : bool;
  c_dev_info_synced : bool;
}.
Definition zero_ctx : tee_rpmb_ctx := mk_ctx (replicate 32 0) (replicate 16 0) 0 0 0 0 false false false false.

Definition set_dev_id (x : Z) (c : tee_rpmb_ctx) : tee_rpmb_ctx :=
  mk_ctx (c_key c) (c_cid c) (c_wr_cnt c) (c_max_blk_idx c) (c_rel_wr_blkcnt c) x (c_wr_cnt_synced c) (c_key_derived c)
    (c_key_verified c) (c_dev_info_synced c).
Definition set_max_blk_idx (x : Z) (c : tee_rpmb_ctx) : tee_rpmb_ctx :=
  mk_ctx (c_key c) (c_cid c) (c_wr_cnt c) x (c_rel_wr_blkcnt c) (c_dev_id c) (c_wr_cnt_synced c) (c_key_derived c)
    (c_key_verified c) (c_dev_info_synced c).
Definition set_dev_info (cid : bytes) (rel : Z) (c : tee_rpmb_ctx) : tee_rpmb_ctx :=
  mk_ctx (c_key c) cid (c_wr_cnt c) (c_max_blk_idx c) rel (c_dev_id c) (c_wr_cnt_synced c) (c_key_derived c)
    (c_key_verified c) true.
Definition set_key (k : bytes) (c : tee_rpmb_ctx) : tee_rpmb_ctx :=
  mk_ctx k (c_cid c) (c_wr_cnt c) (c_max_blk_idx c) (c_rel_wr_blkcnt c) (c_dev_id c) (c_wr_cnt_synced c) true
    (c_key_verified c) (c_dev_info_synced c).
Definition set_wr_cnt (x : Z) (c : tee_rpmb_ctx) : tee_rpmb_ctx :=
  mk_ctx (c_key c) (c_cid c) x (c_max_blk_idx c) (c_rel_wr_blkcnt c) (c_dev_id c) (c_wr_cnt_synced c) (c_key_derived c)
    (c_key_verified c) (c_dev_info_synced c).
Definition set_synced (b : bool) (c : tee_rpmb_ctx) : tee_rpmb_ctx :=
  mk_ctx (c_key c) (c_cid c) (c_wr_cnt c) (c_max_blk_idx c) (c_rel_wr_blkcnt c) (c_dev_id c) b (c_key_derived c)
    (c_key_verified c) (c_dev_info_synced c).
Definition set_verified (c : tee_rpmb_ctx) : tee_rpmb_ctx :=
  mk_ctx (c_key c) (c_cid c) (c_wr_cnt c) (c_max_blk_idx c) (c_rel_wr_blkcnt c) (c_dev_id c) true (c_key_derived c)
    true (c_dev_info_synced c).

(** The static variables of the file, the storage key, and normal world. *)
Record rpmb_state (W : Type) := mk_rs {
  rs_ctx : option tee_rpmb_ctx;
  rs_dead : bool;
  rs_ssk : tee_fs_ssk;
  rs_env : W;
}.
Arguments mk_rs {W}.
Arguments rs_ctx {W}.
Arguments rs_dead {W}.
Arguments rs_ssk {W}.
Arguments rs_env {W}.

Section rpmb.
Context {W : Type} {RE : RpmbEnv W} {BC : BlockCipher}.
Context (hmac_sha256 : bytes -> bytes -> bytes) (sha256_hash : bytes -> bytes).
Context (hw_unique_key : bytes).
(** RPMB_DRIVER_MULTIPLE_WRITE_FIXED, CFG_RPMB_WRITE_KEY, [plat_rpmb_key_is_ready] *)
Context (multiple_write_fixed cfg_write_key plat_rpmb_key_is_ready : bool).

Let St : Type := rpmb_state W.

Definition in_env {A} (m : M W A) : M St A :=
  zoom rs_env (fun w s => mk_rs (rs_ctx s) (rs_dead s) (rs_ssk s) w) m.

(** [rpmb_ctx], which must not be NULL *)
Definition ctx : M St tee_rpmb_ctx := fun s =>
  match rs_ctx s with Some c => (ROk c, s) | None => (RPanic, s) end.
Definition put_ctx (c : tee_rpmb_ctx) : M St unit :=
  modify (fun s => mk_rs (Some c) (rs_dead s) (rs_ssk s) (rs_env s)).
Definition upd_ctx (f : tee_rpmb_ctx -> tee_rpmb_ctx) : M St unit := c ← ctx; put_ctx (f c).

(** The [n] bytes at [off] of the answer in shared memory. *)
Definition shm (off n : nat) : M St bytes :=
  in_env (fun w => let '(b, w) := env_shm off n w in (ROk (as_bytes n b), w)).
Definition shm_frame (i : nat) : M St rpmb_data_frame :=
  b ← shm (i * RPMB_DATA_FRAME_SIZE) RPMB_DATA_FRAME_SIZE; mret (frame_of_bytes b).

Definition tee_rpmb_key_gen : M St bytes :=
  c ← ctx;
  let message := <[RPMB_CID_CRC_OFFSET := 0]> (<[RPMB_CID_PRV_OFFSET := 0]> (c_cid c)) in
  in_env (huk_subkey_derive hmac_sha256 hw_unique_key HUK_SUBKEY_RPMB (Some message) RPMB_KEY_MAC_SIZE).

Definition tee_rpmb_mac_calc (frames : list rpmb_data_frame) : M St bytes :=
  c ← ctx; in_env (mac_parts hmac_sha256 (c_key c) (map mac_protected frames) RPMB_KEY_MAC_SIZE).

Definition tee_rpmb_alloc : M St unit :=
  a ← try_ (in_env call_out); b ← try_ (in_env call_out);
  match a, b with
  | inr _, inr _ =>
      a ← try_ (in_env call_out); b ← try_ (in_env call_out);
      match a, b with inr _, inr _ => mret tt | _, _ => throw TEE_ERROR_GENERIC end
  | _, _ => throw TEE_ERROR_OUT_OF_MEMORY
  end.

Definition tee_rpmb_invoke (rq : rpmb_req) (resp_size : nat) : M St unit :=
  in_env (fun w => let '(z, w) := env_invoke rq resp_size w in (if z =? TEE_SUCCESS then ROk tt else RErr z, w)).

Definition is_zero (b : bytes) : bool := forallb (fun x => x =? 0) b.

(** [key]: the encrypted key of the file and the UUID of its TA, when it is encrypted. *)
Definition crypt_block (mode : Z) (data : bytes) (blk_idx : Z) (key : bytes * bytes) : M St bytes :=
  ssk ← gets rs_ssk; in_env (tee_fs_crypt_block hmac_sha256 sha256_hash ssk key.2 data (u16 blk_idx) key.1 mode).
Definition encrypt_block := crypt_block TEE_MODE_ENCRYPT.
Definition decrypt_block := crypt_block TEE_MODE_DECRYPT.

Definition decrypt (frm : rpmb_data_frame) (size offset : Z) (blk_idx : Z) (key : option (bytes * bytes)) : M St bytes :=
  assert_ (size + offset <=? 256) ;;
  match key with
  | None => mret (slice (Z.to_nat offset) (Z.to_nat size) (f_data frm))
  | Some k =>
      guard_ (negb (is_zero k.1)) TEE_ERROR_SECURITY ;;
      if size <? 256 then
        in_env alloc_out ;;
        tmp ← decrypt_block (f_data frm) blk_idx k;
        mret (slice (Z.to_nat offset) (Z.to_nat size) tmp)
      else decrypt_block (f_data frm) blk_idx k
  end.

Definition or_else {A} (o : option A) (d : A) : A := match o with Some a => a | None => d end.

(** The fields of a frame of a request. *)
Definition fill_frame (rd : rpmb_raw_data) (data : bytes) : rpmb_data_frame :=
  mk_frm (f_stuff_bytes zero_frame) (f_key_mac zero_frame) data
    (or_else (rd_nonce rd) (f_nonce zero_frame))
    (or_else (u32_to_bytes <$> rd_write_counter rd) (f_write_counter zero_frame))
    (or_else (u16_to_bytes <$> rd_blk_idx rd) (f_address zero_frame))
    (or_else (u16_to_bytes <$> rd_block_count rd) (f_block_count zero_frame))
    (f_op_result zero_frame) (u16_to_bytes (rd_msg_type rd)).

(** Frame [i] of a request; [key]: as above. *)
Definition pack_frame (rd : rpmb_raw_data) (nbr_frms : nat) (key : option (bytes * bytes)) (i : nat) : M St rpmb_data_frame :=
  c ← ctx;
  guard_ (match rd_blk_idx rd with Some idx => idx + Z.of_nat nbr_frms - 1 <=? c_max_blk_idx c | None => true end)
    TEE_ERROR_GENERIC ;;
  data ← (match rd_data rd with
          | None => mret (f_data zero_frame)
          | Some d =>
              let blk := slice (i * RPMB_DATA_SIZE) RPMB_DATA_SIZE d in
              match key with
              | Some k => encrypt_block blk (or_else (rd_blk_idx rd) 0 + Z.of_nat i) k
              | None => mret blk
              end
          end);
  mret (fill_frame rd data).

Fixpoint pack_frames (rd : rpmb_raw_data) (nbr_frms : nat) (key : option (bytes * bytes)) (idx : list nat)
    : M St (list rpmb_data_frame) :=
  match idx with
  | [] => mret []
  | i :: idx => f ← pack_frame rd nbr_frms key i; fs ← pack_frames rd nbr_frms key idx; mret (f :: fs)
  end.

Definition with_mac (mac : bytes) (f : rpmb_data_frame) : rpmb_data_frame :=
  mk_frm (f_stuff_bytes f) mac (f_data f) (f_nonce f) (f_write_counter f) (f_address f) (f_block_count f)
    (f_op_result f) (f_msg_type f).

(** [req_size]: size of the buffer of the request. *)
Definition tee_rpmb_req_pack (req_size : nat) (rd : rpmb_raw_data) (nbr_frms : nat) (dev_id : Z)
    (key : option (bytes * bytes)) : M St rpmb_req :=
  guard_ (negb (nbr_frms =? 0)%nat) TEE_ERROR_BAD_PARAMETERS ;;
  c ← ctx;
  let write := rd_msg_type rd =? RPMB_MSG_TYPE_REQ_AUTH_DATA_WRITE in
  guard_ (negb (write && (c_rel_wr_blkcnt c <? Z.of_nat nbr_frms))) TEE_ERROR_GENERIC ;;
  in_env alloc_out ;;
  frames ← pack_frames rd nbr_frms key (seq 0 nbr_frms);
  frames ← (match rd_key_mac rd with
            | None => mret frames
            | Some k =>
                mac ← (if write then tee_rpmb_mac_calc frames else mret k);
                mret (alter (with_mac mac) (nbr_frms - 1)%nat frames)
            end);
  assert_ (rpmb_req_size + nbr_frms * RPMB_DATA_FRAME_SIZE <=? req_size)%nat ;;
  mret (mk_req RPMB_CMD_DATA_REQ dev_id None frames).

(** Results: the MAC, and the data. *)
Definition data_cpy_mac_calc_1b (rd : rpmb_raw_data) (frm : rpmb_data_frame) (key : option (bytes * bytes))
    : M St (bytes * bytes) :=
  guard_ (u32 (rd_len rd + rd_byte_offset rd) <=? 256) TEE_ERROR_BAD_PARAMETERS ;;
  mac ← tee_rpmb_mac_calc [frm];
  data ← decrypt frm (rd_len rd) (rd_byte_offset rd) (bytes_to_u16 (f_address frm)) key;
  mret (mac, data).

(** All but the last frame: what the MAC covers, and the data. *)
Fixpoint cpy_frames (rd : rpmb_raw_data) (start_idx : Z) (key : option (bytes * bytes)) (idx : list nat)
    : M St (bytes * bytes) :=
  match idx with
  | [] => mret ([], [])
  | i :: idx =>
      localfrm ← shm_frame i;
      in_env call_out ;; (* crypto_mac_update *)
      let offset := if (i =? 0)%nat then rd_byte_offset rd else 0 in
      data ← decrypt localfrm (256 - offset) offset (start_idx + Z.of_nat i) key;
      '(m, d) ← cpy_frames rd start_idx key idx;
      mret (mac_protected localfrm ++ m, data ++ d)
  end.

Definition tee_rpmb_data_cpy_mac_calc (rd : rpmb_raw_data) (nbr_frms : nat) (lastfrm : rpmb_data_frame)
    (key : option (bytes * bytes)) : M St (bytes * bytes) :=
  guard_ (negb (nbr_frms =? 0)%nat) TEE_ERROR_BAD_PARAMETERS ;;
  if (nbr_frms =? 1)%nat then data_cpy_mac_calc_1b rd lastfrm key
  else
    in_env call_out ;; (* crypto_mac_alloc_ctx *)
    c ← ctx;
    in_env call_out ;; (* crypto_mac_init *)
    let start_idx := bytes_to_u16 (f_address lastfrm) in
    '(m, d) ← cpy_frames rd start_idx key (seq 0 (nbr_frms - 1));
    let size := u32 (rd_len rd + rd_byte_offset rd) mod 256 in
    let size := if size =? 0 then 256 else size in
    last ← decrypt lastfrm size 0 (start_idx + Z.of_nat nbr_frms - 1) key;
    in_env call_out ;; (* crypto_mac_update *)
    in_env call_out ;; (* crypto_mac_final *)
    mret (take RPMB_KEY_MAC_SIZE (hmac_sha256 (c_key c) (m ++ mac_protected lastfrm)), d ++ last).

(** The result code, the write counter as it is left, and the data. *)
Definition tee_rpmb_resp_unpack_verify (rd : rpmb_raw_data) (nbr_frms : nat) (key : option (bytes * bytes))
    : M St (Z * option Z * bytes) :=
  let wc := rd_write_counter rd in
  if (nbr_frms =? 0)%nat then mret (TEE_ERROR_BAD_PARAMETERS, wc, [])
  else
    lastfrm ← shm_frame (nbr_frms - 1);
    let op_result := get_op_result_bits (f_op_result lastfrm) in
    if op_result =? RPMB_RESULT_AUTH_KEY_NOT_PROGRAMMED then mret (TEE_ERROR_ITEM_NOT_FOUND, wc, [])
    else if negb (op_result =? RPMB_RESULT_OK) then mret (TEE_ERROR_GENERIC, wc, [])
    else
      let msg_type := bytes_to_u16 (f_msg_type lastfrm) in
      if negb (msg_type =? rd_msg_type rd) then mret (TEE_ERROR_GENERIC, wc, [])
      else if match rd_blk_idx rd with Some i => negb (bytes_to_u16 (f_address lastfrm) =? i) | None => false end
      then mret (TEE_ERROR_GENERIC, wc, [])
      else
        let is_write := msg_type =? RPMB_MSG_TYPE_RESP_AUTH_DATA_WRITE in
        let wc' := (fun _ => bytes_to_u32 (f_write_counter lastfrm)) <$> wc in
        if match wc, wc' with Some old, Some new => is_write && negb (new =? u32 (old + 1)) | _, _ => false end
        then mret (TEE_ERROR_SECURITY, wc', [])
        else
          (match wc with Some _ => if is_write then upd_ctx (fun c => set_wr_cnt (u32 (c_wr_cnt c + 1)) c) else mret tt
                       | None => mret tt end) ;;
          if match rd_nonce rd with Some n => negb (bool_decide (n = f_nonce lastfrm)) | None => false end
          then mret (TEE_ERROR_SECURITY, wc', [])
          else
            match rd_key_mac rd with
            | None => mret (TEE_SUCCESS, wc', [])
            | Some _ =>
                r ← try_ (if msg_type =? RPMB_MSG_TYPE_RESP_AUTH_DATA_READ then
                            match rd_data rd with
                            | None => throw TEE_ERROR_GENERIC
                            | Some _ => tee_rpmb_data_cpy_mac_calc rd nbr_frms lastfrm key
                            end
                          else
                            guard_ (nbr_frms =? 1)%nat TEE_ERROR_GENERIC ;;
                            mac ← tee_rpmb_mac_calc [lastfrm]; mret (mac, []));
                match r with
                | inl e => mret (e, wc', [])
                | inr (mac, data) =>
                    m ← shm ((nbr_frms - 1) * RPMB_DATA_FRAME_SIZE + RPMB_STUFF_DATA_SIZE) RPMB_KEY_MAC_SIZE;
                    if bool_decide (mac = m) then mret (TEE_SUCCESS, wc', data) else mret (TEE_ERROR_SECURITY, wc', [])
                end
            end.

(** ** Device information, key and counter *)

Record rpmb_dev_info := mk_di { di_cid : bytes; di_rpmb_size_mult : Z; di_rel_wr_sec_c : Z; di_ret_code : Z }.
Definition rpmb_dev_info_size : nat := 19.

Definition tee_rpmb_get_dev_info (dev_id : Z) : M St rpmb_dev_info :=
  tee_rpmb_alloc ;;
  tee_rpmb_invoke (mk_req RPMB_CMD_GET_DEV_INFO dev_id None []) rpmb_dev_info_size ;;
  ret_code ← shm 18 1;
  guard_ (nth 0 ret_code 0 =? RPMB_CMD_GET_DEV_INFO_RET_OK) TEE_ERROR_GENERIC ;;
  b ← shm 0 rpmb_dev_info_size;
  mret (mk_di (slice 0 16 b) (nth 16 b 0) (nth 17 b 0) (nth 18 b 0)).

Definition one_frame_size : nat := rpmb_req_size + RPMB_DATA_FRAME_SIZE.

(** The counter is stored in [rpmb_ctx->wr_cnt]. *)
Definition tee_rpmb_init_read_wr_cnt (dev_id : Z) : M St unit :=
  tee_rpmb_alloc ;;
  nonce ← in_env (crypto_rng_read RPMB_NONCE_SIZE);
  rq ← tee_rpmb_req_pack one_frame_size
         (mk_raw RPMB_MSG_TYPE_REQ_WRITE_COUNTER_VAL_READ None None None (Some nonce) None None 0 0) 1 dev_id None;
  tee_rpmb_invoke rq RPMB_DATA_FRAME_SIZE ;;
  c ← ctx;
  '(res, wc, _) ← tee_rpmb_resp_unpack_verify
         (mk_raw RPMB_MSG_TYPE_RESP_WRITE_COUNTER_VAL_READ None None (Some (c_wr_cnt c)) (Some nonce) (Some []) None 0 0) 1 None;
  upd_ctx (fun c => set_wr_cnt (or_else wc (c_wr_cnt c)) c) ;;
  of_res (res, tt).

Definition tee_rpmb_verify_key_sync_counter (dev_id : Z) : M St unit :=
  tee_rpmb_init_read_wr_cnt dev_id ;; upd_ctx set_verified.

Definition tee_rpmb_write_key (dev_id : Z) : M St unit :=
  tee_rpmb_alloc ;;
  c ← ctx;
  rq ← tee_rpmb_req_pack one_frame_size
         (mk_raw RPMB_MSG_TYPE_REQ_AUTH_KEY_PROGRAM None None None None (Some (c_key c)) None 0 0) 1 dev_id None;
  tee_rpmb_invoke rq RPMB_DATA_FRAME_SIZE ;;
  '(res, _, _) ← tee_rpmb_resp_unpack_verify (mk_raw RPMB_MSG_TYPE_RESP_AUTH_KEY_PROGRAM None None None None None None 0 0) 1 None;
  of_res (res, tt).

Definition tee_rpmb_write_and_verify_key (dev_id : Z) : M St unit :=
  if cfg_write_key then
    guard_ plat_rpmb_key_is_ready TEE_ERROR_BAD_STATE ;;
    tee_rpmb_write_key dev_id ;;
    tee_rpmb_verify_key_sync_counter dev_id
  else throw TEE_ERROR_BAD_STATE.

Definition init_dev_info (dev_id : Z) : M St unit :=
  info ← tee_rpmb_get_dev_info dev_id;
  guard_ (negb (di_rpmb_size_mult info =? 0)) TEE_ERROR_GENERIC ;;
  let nblocks := di_rpmb_size_mult info * (RPMB_SIZE_SINGLE / 256) in
  upd_ctx (set_max_blk_idx (u16 (nblocks - 1))) ;;
  guard_ (nblocks - 1 <? 65536) TEE_ERROR_BAD_PARAMETERS ;; (* SUB_OVERFLOW *)
  upd_ctx (set_dev_info (di_cid info) (if multiple_write_fixed then di_rel_wr_sec_c info * 2 else 1)).

(** The stages of [tee_rpmb_init]. *)
Definition init_ctx (dev_id : Z) : M St unit :=
  oc ← gets rs_ctx;
  (match oc with
   | None => in_env alloc_out ;; put_ctx zero_ctx
   | Some c => if negb (c_dev_id c =? dev_id) then put_ctx zero_ctx else mret tt
   end) ;;
  upd_ctx (set_dev_id dev_id).

Definition init_key : M St unit := key ← tee_rpmb_key_gen; upd_ctx (set_key key).

Definition init_verify (dev_id : Z) : M St unit :=
  r ← try_ (tee_rpmb_verify_key_sync_counter dev_id);
  match r with
  | inr _ => mret tt
  | inl res =>
      c ← ctx;
      if (res =? TEE_ERROR_ITEM_NOT_FOUND) && negb (c_key_verified c) then tee_rpmb_write_and_verify_key dev_id
      else throw res
  end.

Definition tee_rpmb_init (dev_id : Z) : M St unit :=
  dead ← gets rs_dead;
  guard_ (negb dead) TEE_ERROR_COMMUNICATION ;;
  init_ctx dev_id ;;
  c ← ctx;
  (if c_dev_info_synced c then mret tt else init_dev_info dev_id) ;;
  c ← ctx;
  (if c_key_derived c then mret tt else init_key) ;;
  c ← ctx;
  if negb (c_wr_cnt_synced c) || negb (c_key_verified c) then init_verify dev_id else mret tt.

(** ** Reading *)

(** [ROUNDUP(x, RPMB_DATA_SIZE) / RPMB_DATA_SIZE] at [uint32_t], stored in 16 bits *)
Definition block_count (x : Z) : Z := u16 (Z.land (u32 (x + 255)) (u32 (Z.lnot 255)) / 256).

Definition tee_rpmb_read (dev_id addr len : Z) (key : option (bytes * bytes)) : M St bytes :=
  guard_ (negb (len =? 0)) TEE_ERROR_BAD_PARAMETERS ;;
  let blk_idx := u16 (addr / 256) in
  let byte_offset := addr mod 256 in
  guard_ (256 <=? u32 (len + byte_offset + 256)) TEE_ERROR_BAD_PARAMETERS ;;
  let blkcnt := block_count (u32 (len + byte_offset)) in
  tee_rpmb_init dev_id ;;
  tee_rpmb_alloc ;;
  nonce ← in_env (crypto_rng_read RPMB_NONCE_SIZE);
  rq ← tee_rpmb_req_pack one_frame_size
         (mk_raw RPMB_MSG_TYPE_REQ_AUTH_DATA_READ None (Some blk_idx) None (Some nonce) None None 0 0) 1 dev_id None;
  let rq := mk_req (rq_cmd rq) (rq_dev_id rq) (Some blkcnt) (rq_frames rq) in
  tee_rpmb_invoke rq (Z.to_nat blkcnt * RPMB_DATA_FRAME_SIZE) ;;
  '(res, _, data) ← tee_rpmb_resp_unpack_verify
         (mk_raw RPMB_MSG_TYPE_RESP_AUTH_DATA_READ (Some blkcnt) (Some blk_idx) None (Some nonce) (Some []) (Some []) len byte_offset)
         (Z.to_nat blkcnt) key;
  of_res (res, data).

(** ** Writing *)

Definition die : M St unit := modify (fun s => mk_rs (rs_ctx s) true (rs_ssk s) (rs_env s)) ;; throw TEE_ERROR_COMMUNICATION.

(** The loop of [write_req], with [tries] attempts left: [retry_count] is
    [RPMB_MAX_RETRIES - tries]. After a failure either no attempt is left, or the counter is
    taken as out of step and the loop goes on. *)
Fixpoint write_req_loop (tries : nat) (req_size : nat) (dev_id blk_idx : Z) (data : bytes) (blkcnt : nat)
    (key : option (bytes * bytes)) (wr_cnt : Z) : M St unit :=
  match tries with
  | O => die
  | S tries =>
      let again wr_cnt :=
        if (tries =? 0)%nat then die
        else upd_ctx (set_synced false) ;; write_req_loop tries req_size dev_id blk_idx data blkcnt key wr_cnt in
      p ← try_ (tee_rpmb_req_pack req_size
             (mk_raw RPMB_MSG_TYPE_REQ_AUTH_DATA_WRITE (Some (Z.of_nat blkcnt)) (Some blk_idx) (Some wr_cnt) None (Some []) (Some data) 0 0)
             blkcnt dev_id key);
      match p with
      | inl e =>
          if (S tries =? RPMB_MAX_RETRIES)%nat then throw e
          else if (tries =? 0)%nat then die
          else write_req_loop tries req_size dev_id blk_idx data blkcnt key wr_cnt
      | inr rq =>
          r ← try_ (tee_rpmb_invoke rq RPMB_DATA_FRAME_SIZE);
          match r with
          | inl _ => again wr_cnt
          | inr _ =>
              '(res, wc, _) ← tee_rpmb_resp_unpack_verify
                 (mk_raw RPMB_MSG_TYPE_RESP_AUTH_DATA_WRITE (Some (Z.of_nat blkcnt)) (Some blk_idx) (Some wr_cnt) None (Some []) None 0 0)
                 1 None;
              if negb (res =? TEE_SUCCESS) then again (or_else wc wr_cnt) else mret tt
          end
      end
  end.

Definition write_req (req_size : nat) (dev_id blk_idx : Z) (data_blks : bytes) (blkcnt : nat) (key : option (bytes * bytes)) : M St unit :=
  c ← ctx;
  assert_ (req_size <=? rpmb_req_size + blkcnt * RPMB_DATA_FRAME_SIZE)%nat ;;
  write_req_loop RPMB_MAX_RETRIES req_size dev_id blk_idx data_blks blkcnt key (c_wr_cnt c).

(** [i] runs over the requests; [rel]: [rel_wr_blkcnt], [nw]: [nbr_writes]. *)
Fixpoint write_loop (idx : list nat) (nw rel : nat) (req_size : nat) (dev_id tmp_blk_idx : Z) (data : bytes) (blkcnt : nat)
    (key : option (bytes * bytes)) : M St unit :=
  match idx with
  | [] => mret tt
  | i :: idx =>
      let tmp_blkcnt := if (i =? nw - 1)%nat then (blkcnt - rel * (nw - 1))%nat else rel in
      write_req req_size dev_id tmp_blk_idx (drop (i * rel * RPMB_DATA_SIZE) data) tmp_blkcnt key ;;
      write_loop idx nw rel req_size dev_id (u16 (tmp_blk_idx + Z.of_nat tmp_blkcnt)) data blkcnt key
  end.

Definition tee_rpmb_write_blk (dev_id blk_idx : Z) (data_blks : bytes) (blkcnt : nat) (key : option (bytes * bytes)) : M St unit :=
  guard_ (negb (blkcnt =? 0)%nat) TEE_ERROR_BAD_PARAMETERS ;;
  tee_rpmb_init dev_id ;;
  c ← ctx;
  let rel := Z.to_nat (c_rel_wr_blkcnt c) in
  let req_size := (rpmb_req_size + RPMB_DATA_FRAME_SIZE * Nat.min blkcnt rel)%nat in
  tee_rpmb_alloc ;;
  assert_ (negb (rel =? 0)%nat) ;; (* division *)
  let nbr_writes := (blkcnt / rel + (if (0 <? blkcnt mod rel)%nat then 1 else 0))%nat in
  write_loop (seq 0 nbr_writes) nbr_writes rel req_size dev_id blk_idx data_blks blkcnt key.

Definition tee_rpmb_write_is_atomic (addr len : Z) : M St bool :=
  c ← ctx; mret (block_count (u32 (len + addr mod 256)) <=? c_rel_wr_blkcnt c).

Definition tee_rpmb_write (dev_id addr : Z) (data : bytes) (key : option (bytes * bytes)) : M St unit :=
  let len := Z.of_nat (length data) in
  let blk_idx := u16 (addr / 256) in
  let byte_offset := addr mod 256 in
  let blkcnt := block_count (u32 (len + byte_offset)) in
  if (byte_offset =? 0) && (len mod 256 =? 0) then tee_rpmb_write_blk dev_id blk_idx data (Z.to_nat blkcnt) key
  else
    in_env alloc_out ;;
    data_tmp ← tee_rpmb_read dev_id (blk_idx * 256) (blkcnt * 256) key;
    let data_tmp := take (Z.to_nat byte_offset) data_tmp ++ data ++ drop (Z.to_nat byte_offset + length data) data_tmp in
    tee_rpmb_write_blk dev_id blk_idx data_tmp (Z.to_nat blkcnt) key.

Definition tee_rpmb_get_write_counter (dev_id : Z) : M St Z :=
  dead ← gets rs_dead;
  guard_ (negb dead) TEE_ERROR_COMMUNICATION ;;
  oc ← gets rs_ctx;
  (if match oc with Some c => c_wr_cnt_synced c | None => false end then mret tt else tee_rpmb_init dev_id) ;;
  c ← ctx; mret (c_wr_cnt c).

Definition tee_rpmb_get_max_block (dev_id : Z) : M St Z :=
  dead ← gets rs_dead;
  guard_ (negb dead) TEE_ERROR_COMMUNICATION ;;
  oc ← gets rs_ctx;
  (if match oc with Some c => c_dev_info_synced c | None => false end then mret tt else tee_rpmb_init dev_id) ;;
  c ← ctx; mret (c_max_blk_idx c).
End rpmb.
