(* ===== verification/RpmbSpec.v ===== *)
(** * The RPMB device: what its answers are worth

    Against an arbitrary normal world: data is accepted only with a MAC over exactly these
    frames and the nonce of the request, and an error that leaves the device in use means that
    nothing was sent. *)

From S2P Require Import Prelude ErrM Cipher CipherModes FsKey Rpmb.
From stdpp Require Import base list relations.
From Stdlib Require Import ZArith Lia.

Local Open Scope Z_scope.

(** ** Steps of normal world that are not requests *)

Section quiet.
Context {W : Type} {RE : RpmbEnv W}.

Inductive quiet_step : W -> W -> Prop :=
| quiet_res w : quiet_step w (env_res w).2
| quiet_rng n w : quiet_step w (env_rng n w).2
| quiet_shm off n w : quiet_step w (env_shm off n w).2.

Definition quiet : W -> W -> Prop := rtc quiet_step.

#[global] Instance quiet_preorder : PreOrder quiet.
Proof. unfold quiet. apply _. Qed.

Lemma quiet_once w w' : quiet_step w w' -> quiet w w'.
Proof. apply rtc_once. Qed.

(** [b] is what an access to the answer in shared memory finds, some time after [w]. *)
Definition saw (w : W) (off n : nat) (b : bytes) : Prop :=
  exists w', quiet w w' /\ b = as_bytes n (env_shm off n w').1.

Lemma saw_quiet w w' off n b : quiet w w' -> saw w' off n b -> saw w off n b.
Proof. intros Hq (w2 & Hq2 & ->). exists w2. split; [by etransitivity|done]. Qed.

Local Notation St := (rpmb_state W).

(** Nothing but quiet steps happened, and the variables are as before. *)
Record qs (s s' : St) : Prop := mk_qs {
  qs_ctx : rs_ctx s' = rs_ctx s;
  qs_dead : rs_dead s' = rs_dead s;
  qs_ssk : rs_ssk s' = rs_ssk s;
  qs_env : quiet (rs_env s) (rs_env s');
}.

#[global] Instance qs_preorder : PreOrder qs.
Proof.
  split; [intros s; split; done|]. intros s1 s2 s3 [] []. split; try (etransitivity; eassumption).
Qed.

(** A function that makes quiet steps only, and whose results satisfy [P]. *)
Definition quietly {A} (m : M St A) (P : rres A -> Prop) (s : St) : Prop := wp m (fun r s' => qs s s' /\ P r) s.

Lemma quietly_bind {A B} (m : M St A) (k : A -> M St B) P Q s :
  quietly m P s ->
  (forall a s', qs s s' -> P (ROk a) -> quietly (k a) Q s') ->
  (forall e, P (RErr e) -> Q (RErr e)) -> (P RPanic -> Q RPanic) -> quietly (m ≫= k) Q s.
Proof.
  unfold quietly. intros Hm Hk He Hp. eapply wp_seq; [exact Hm|]. intros [a|e|] s' [Hq Ha]; cbn; [|auto|auto].
  eapply wp_mono; [by apply Hk|]. intros r s2 [Hq2 ?]. split; [by etransitivity|done].
Qed.

Lemma quietly_mono {A} (m : M St A) (P Q : rres A -> Prop) s : quietly m P s -> (forall r, P r -> Q r) -> quietly m Q s.
Proof. unfold quietly. intros Hm HPQ. eapply wp_mono; [exact Hm|]. intros r s' [? ?]. auto. Qed.

Lemma quietly_ret {A} (a : A) (P : rres A -> Prop) s : P (ROk a) -> quietly (mret a) P s.
Proof. intros H. split; [reflexivity|done]. Qed.
Lemma quietly_throw {A} e (P : rres A -> Prop) s : P (RErr e) -> quietly (throw e) P s.
Proof. intros H. split; [reflexivity|done]. Qed.
Lemma quietly_guard b e (P : rres unit -> Prop) s :
  (b = true -> P (ROk tt)) -> (b = false -> P (RErr e)) -> quietly (guard_ b e) P s.
Proof. intros H1 H2. split; [destruct b; reflexivity|]. destruct b; cbn; auto. Qed.
Lemma quietly_try {A} (m : M St A) P s : quietly m P s ->
  quietly (try_ m) (fun r => match r with ROk (inr a) => P (ROk a) | ROk (inl e) => P (RErr e) | RErr _ => False | RPanic => P RPanic end) s.
Proof. unfold quietly. intros H. apply wp_try. eapply wp_mono; [exact H|]. intros [a|e|] s' [? ?]; done. Qed.

(** Not a panic, and an error has an error code. *)
Definition calm {A} (r : rres A) : Prop :=
  match r with ROk _ => True | RErr e => e <> TEE_SUCCESS | RPanic => False end.

Lemma quietly_in_env {A} (m : M W A) P s :
  wp m (fun r w => quiet (rs_env s) w /\ P r) (rs_env s) -> quietly (in_env m) P s.
Proof. intros H. apply wp_zoom. eapply wp_mono; [exact H|]. intros r w [Hq HP]. split; [by split|done]. Qed.

(** A computation of the environment alone. *)
Definition wquiet {A} (m : M W A) (P : rres A -> Prop) (w : W) : Prop := wp m (fun r w' => quiet w w' /\ P r) w.

Lemma wquiet_call_out w : wquiet call_out calm w.
Proof.
  unfold wquiet, wp, call_out. destruct (env_res w) as [z w'] eqn:E. cbn.
  split; [apply quiet_once; replace w' with (env_res w).2 by (by rewrite E); constructor|].
  by destruct (Z.eqb_spec z TEE_SUCCESS).
Qed.
Lemma wquiet_alloc_out w : wquiet alloc_out calm w.
Proof.
  unfold wquiet, wp, alloc_out. destruct (env_res w) as [z w'] eqn:E. cbn.
  split; [apply quiet_once; replace w' with (env_res w).2 by (by rewrite E); constructor|].
  by destruct (Z.eqb_spec z TEE_SUCCESS).
Qed.

Lemma wquiet_bind {A B} (m : M W A) (k : A -> M W B) P Q w :
  wquiet m P w -> (forall a w', P (ROk a) -> wquiet (k a) Q w') ->
  (forall e, P (RErr e) -> Q (RErr e)) -> (P RPanic -> Q RPanic) -> wquiet (m ≫= k) Q w.
Proof.
  unfold wquiet. intros Hm Hk He Hp. eapply wp_seq; [exact Hm|]. intros [a|e|] w' [Hq Ha]; cbn; [|auto|auto].
  eapply wp_mono; [by apply Hk|]. intros r s2 [Hq2 ?]. split; [by etransitivity|done].
Qed.
Lemma wquiet_ret {A} (a : A) (P : rres A -> Prop) w : P (ROk a) -> wquiet (mret a) P w.
Proof. intros H. split; [reflexivity|done]. Qed.

Definition any_result {A} (r : rres A) : Prop := True.

Lemma wquiet_and {A} (m : M W A) P (Q : rres A -> W -> Prop) w :
  wquiet m P w -> wp m Q w -> wp m (fun r w' => quiet w w' /\ P r /\ Q r w') w.
Proof. unfold wquiet, wp. tauto. Qed.

Lemma wquiet_calls {A} (l : list A) w : wquiet (for_each (fun _ => call_out) l) calm w.
Proof.
  revert w. induction l as [|x l IH]; intros w; [by apply wquiet_ret|].
  cbn. eapply wquiet_bind; [apply wquiet_call_out|auto|done|done].
Qed.

Lemma wquiet_of_res {A} (r : Z * A) w : wquiet (of_res r) calm w.
Proof. unfold of_res. destruct (Z.eqb_spec r.1 TEE_SUCCESS); (split; [reflexivity|done]). Qed.

Lemma wquiet_rng n w : wquiet (crypto_rng_read n) calm w.
Proof.
  unfold wquiet, wp, crypto_rng_read. destruct (env_rng n w) as [[z b] w'] eqn:E. cbn.
  split; [apply quiet_once; replace w' with (env_rng n w).2 by (by rewrite E); constructor|].
  by destruct (Z.eqb_spec z TEE_SUCCESS).
Qed.

Ltac quiet_calls :=
  repeat first
    [ apply wquiet_ret; done
    | apply wquiet_of_res
    | apply wquiet_call_out
    | apply wquiet_calls
    | eapply wquiet_bind; [first [apply wquiet_call_out | apply wquiet_calls | apply wquiet_of_res] | intros ? ? _ | done | done] ].

Context {BC : BlockCipher}.
Context (hmac_sha256 : bytes -> bytes -> bytes) (sha256_hash : bytes -> bytes).

Lemma wquiet_mac_parts key parts n w :
  wquiet (mac_parts hmac_sha256 key parts n)
    (fun r => r = ROk (take n (hmac_sha256 key (concat parts))) \/ exists e, r = RErr e /\ e <> TEE_SUCCESS) w.
Proof.
  assert (wquiet (mac_parts hmac_sha256 key parts n) calm w) as Hc by (unfold mac_parts; quiet_calls).
  eapply wp_mono; [apply (wquiet_and _ _ _ _ Hc (mac_parts_gives _ _ _ _ w))|].
  intros [a|e|] w' (? & ? & Hg); (split; [done|]); cbn in *; [|eauto|done]. left. by injection Hg as <-.
Qed.

Lemma wquiet_cipher_once c mode key iv data w : wquiet (cipher_once c mode key iv data) calm w.
Proof.
  unfold cipher_once. quiet_calls. intros; cbn beta. destruct (crypto_cipher_update _ _ _) as [[? ?] ?]. by apply wquiet_of_res.
Qed.

End quiet.

(** ** Bytes *)

Lemma as_bytes_length n b : length (as_bytes n b) = n.
Proof. unfold as_bytes. rewrite length_map, length_take, length_app, length_replicate. lia. Qed.
Lemma as_bytes_bytes n b : Forall is_byte (as_bytes n b).
Proof. unfold as_bytes. apply Forall_map, Forall_true. intros x. unfold is_byte. cint. Qed.

Lemma slice_length off n b : (off + n <= length b)%nat -> length (slice off n b) = n.
Proof. intros. unfold slice. rewrite length_take, length_drop. lia. Qed.
Lemma slice_bytes off n b : Forall is_byte b -> Forall is_byte (slice off n b).
Proof. intros. by apply bytes_take, bytes_drop. Qed.

(** A frame that was read from memory. *)
Record frame_wf (f : rpmb_data_frame) : Prop := {
  fw_data : length (f_data f) = RPMB_DATA_SIZE;
  fw_bytes : Forall is_byte (f_data f);
}.
Lemma frame_of_bytes_wf n b : (512 <= n)%nat -> frame_wf (frame_of_bytes (as_bytes n b)).
Proof.
  intros Hn. split; cbn -[slice as_bytes].
  - apply slice_length. rewrite as_bytes_length. unfold RPMB_DATA_SIZE. lia.
  - apply slice_bytes, as_bytes_bytes.
Qed.

Section plain.
Context {BC : BlockCipher} {BL : BlockCipherLaws BC}.
Context (hmac_sha256 : bytes -> bytes -> bytes) (sha256_hash : bytes -> bytes).

(** What a block holds, for a file with [key]. *)
Definition plain (ssk : tee_fs_ssk) (key : option (bytes * bytes)) (idx : Z) (blk : bytes) : option bytes :=
  match key with
  | None => Some blk
  | Some k => block_value hmac_sha256 sha256_hash ssk k.2 k.1 (u16 idx) TEE_MODE_DECRYPT blk
  end.

Fixpoint plains (ssk : tee_fs_ssk) (key : option (bytes * bytes)) (idx : Z) (blks : list bytes) : option (list bytes) :=
  match blks with
  | [] => Some []
  | b :: blks => p ← plain ssk key idx b; ps ← plains ssk key (idx + 1) blks; Some (p :: ps)
  end.

Lemma block_value_bytes ssk uuid efek idx mode data out :
  block_value hmac_sha256 sha256_hash ssk uuid efek idx mode data = Some out -> Forall is_byte data ->
  length out = length data /\ Forall is_byte out.
Proof.
  unfold block_value. destruct (fek_value _ _ _ _ _) as [fek|]; [|done]. cbn.
  destruct (ecb_value _ _ _) as [iv|] eqn:Hiv; [|done]. cbn. intros He Hd.
  eapply cbc_value_bytes; [exact He| |done]. eapply ecb_value_bytes; [exact Hiv|apply pad_blkid_bytes].
Qed.

Lemma plain_bytes ssk key idx blk p :
  plain ssk key idx blk = Some p -> Forall is_byte blk -> length p = length blk /\ Forall is_byte p.
Proof. destruct key as [k|]; cbn; [apply block_value_bytes|]. by intros [= <-]. Qed.

Definition blocks_wf (l : list bytes) : Prop := Forall (fun b => length b = RPMB_DATA_SIZE /\ Forall is_byte b) l.

Lemma plains_wf ssk key idx blks ps :
  plains ssk key idx blks = Some ps -> blocks_wf blks -> blocks_wf ps /\ length ps = length blks.
Proof.
  revert idx ps. induction blks as [|b blks IH]; intros idx ps; cbn; [by intros [= <-]|].
  destruct (plain ssk key idx b) as [p|] eqn:Hp; [|done]. cbn.
  destruct (plains ssk key (idx + 1) blks) as [ps'|] eqn:Hps; [|done]. intros [= <-] Hwf.
  inversion_clear Hwf as [|? ? [Hl Hb] Hwf']. destruct (plain_bytes _ _ _ _ _ Hp Hb) as [Hpl Hpb].
  destruct (IH _ _ Hps Hwf') as [? Hlen]. split; [constructor; [by rewrite Hpl|done]|]. cbn. by rewrite Hlen.
Qed.

Lemma plains_app ssk key idx b1 b2 :
  plains ssk key idx (b1 ++ b2) =
  ps1 ← plains ssk key idx b1; ps2 ← plains ssk key (idx + Z.of_nat (length b1)) b2; Some (ps1 ++ ps2).
Proof.
  revert idx. induction b1 as [|b b1 IH]; intros idx; cbn.
  - rewrite Z.add_0_r. by destruct (plains ssk key idx b2).
  - rewrite IH. destruct (plain ssk key idx b) as [p|]; [|done]. cbn.
    destruct (plains ssk key (idx + 1) b1) as [ps|]; [|done]. cbn.
    replace (idx + 1 + Z.of_nat (length b1)) with (idx + Z.pos (Pos.of_succ_nat (length b1))) by lia.
    by destruct (plains ssk key _ b2).
Qed.

Lemma blocks_concat_length l : blocks_wf l -> length (concat l) = (length l * RPMB_DATA_SIZE)%nat.
Proof.
  induction 1 as [|b l [Hl _] _ IH]; [done|]. cbn [concat length]. rewrite length_app, IH, Hl. lia.
Qed.
Lemma blocks_concat_bytes l : blocks_wf l -> Forall is_byte (concat l).
Proof. induction 1 as [|b l [_ Hb] _ IH]; [constructor|]. cbn. by apply Forall_app. Qed.

(** The bytes [off] to [off + len] of some blocks, the way they are copied. *)
Lemma copied_bytes (a b : bytes) (off len : nat) :
  (off <= length a)%nat -> (length a - off <= len)%nat ->
  drop off a ++ take (len - (length a - off)) b = take len (drop off (a ++ b)).
Proof.
  intros H1 H2. rewrite drop_app_le by done. rewrite take_app_ge by (rewrite length_drop; lia). by rewrite length_drop.
Qed.
End plain.

(** ** Reading frames *)

Section reads.
Context {W : Type} {RE : RpmbEnv W} {BC : BlockCipher} {BL : BlockCipherLaws BC}.
Context (hmac_sha256 : bytes -> bytes -> bytes) (sha256_hash : bytes -> bytes).

Local Notation St := (rpmb_state W).
Local Notation plain := (plain hmac_sha256 sha256_hash).
Local Notation plains := (plains hmac_sha256 sha256_hash).

Lemma quietly_call s : quietly (in_env call_out) calm s.
Proof. apply quietly_in_env, wquiet_call_out. Qed.
Lemma quietly_alloc_out s : quietly (in_env alloc_out) calm s.
Proof. apply quietly_in_env, wquiet_alloc_out. Qed.
Lemma quietly_rng n s : quietly (in_env (crypto_rng_read n)) calm s.
Proof. apply quietly_in_env, wquiet_rng. Qed.

Lemma quietly_ctx c (s : St) : rs_ctx s = Some c -> quietly ctx (fun r => r = ROk c) s.
Proof. intros E. unfold quietly, wp, ctx. rewrite E. split; [reflexivity|done]. Qed.

Lemma quietly_shm off n (s : St) : quietly (shm off n) (fun r => exists b, r = ROk b /\ saw (rs_env s) off n b) s.
Proof.
  apply quietly_in_env. unfold wp. destruct (env_shm off n (rs_env s)) as [b w] eqn:E. cbn.
  split; [apply quiet_once; replace w with (env_shm off n (rs_env s)).2 by (by rewrite E); constructor|].
  eexists. split; [done|]. exists (rs_env s). split; [reflexivity|]. by rewrite E.
Qed.

(** Frame [i] of the answer. *)
Definition saw_frame (w : W) (i : nat) (f : rpmb_data_frame) : Prop :=
  exists b, saw w (i * RPMB_DATA_FRAME_SIZE) RPMB_DATA_FRAME_SIZE b /\ f = frame_of_bytes b.

Lemma saw_frame_wf w i f : saw_frame w i f -> frame_wf f.
Proof. intros (b & (w' & _ & ->) & ->). by apply frame_of_bytes_wf. Qed.
Lemma saw_frame_quiet w w' i f : quiet w w' -> saw_frame w' i f -> saw_frame w i f.
Proof. intros Hq (b & Hb & ->). exists b. split; [by eapply saw_quiet|done]. Qed.

Lemma quietly_shm_frame i (s : St) : quietly (shm_frame i) (fun r => exists f, r = ROk f /\ saw_frame (rs_env s) i f) s.
Proof.
  unfold shm_frame. eapply quietly_bind; [apply quietly_shm| | |].
  - intros b s' _ (b' & [= <-] & Hb). apply quietly_ret. eexists. split; [done|]. by exists b.
  - by intros e (b & ? & _).
  - by intros (b & ? & _).
Qed.

Lemma wquiet_fek_crypt ssk uuid mode k w : wquiet (tee_fs_fek_crypt hmac_sha256 ssk uuid mode k) calm w.
Proof.
  unfold tee_fs_fek_crypt. eapply (wquiet_bind _ _ calm); [|intros ? ? _|done|done].
  { unfold guard_. destruct (_ =? _)%nat; (split; [reflexivity|done]). }
  eapply (wquiet_bind _ _ calm); [|intros ? ? _|done|done].
  { unfold guard_. destruct (ssk_is_init ssk); (split; [reflexivity|done]). }
  eapply (wquiet_bind _ _ calm); [|intros; apply wquiet_cipher_once|done|done].
  eapply wp_mono; [apply wquiet_mac_parts|]. by intros r w1 [? [->|[e [-> ?]]]].
Qed.

Lemma wquiet_block ssk uuid data idx efek mode w :
  wquiet (tee_fs_crypt_block hmac_sha256 sha256_hash ssk uuid data idx efek mode)
    (fun r => match r with ROk out => block_value hmac_sha256 sha256_hash ssk uuid efek idx mode data = Some out
                         | RErr e => e <> TEE_SUCCESS | RPanic => False end) w.
Proof.
  assert (wquiet (tee_fs_crypt_block hmac_sha256 sha256_hash ssk uuid data idx efek mode) calm w) as Hc.
  {
    unfold tee_fs_crypt_block. eapply wquiet_bind; [apply wquiet_fek_crypt| |done|done].
    intros fek w1 _. eapply (wquiet_bind _ _ calm); [|intros; apply wquiet_cipher_once|done|done].
      unfold essiv, sha256, tee_hash_createdigest. eapply (wquiet_bind _ _ calm); [|intros; apply wquiet_cipher_once|done|done].
      eapply wquiet_bind; [apply wquiet_call_out|intros ? ? _|done|done].
      eapply wquiet_bind; [apply wquiet_call_out|intros ? ? _|done|done].
      eapply (wquiet_bind _ _ calm); [destruct (_ =? _)%nat; [by apply wquiet_ret|apply wquiet_call_out]|intros ? ? _|done|done].
      eapply wquiet_bind; [apply wquiet_call_out|intros ? ? _; by apply wquiet_ret|done|done]. }
  eapply wp_mono; [apply (wquiet_and _ _ _ _ Hc (tee_fs_crypt_block_gives _ _ _ _ _ _ _ _ w))|].
  intros [a|e|] w' (? & ? & ?); done.
Qed.

Lemma quietly_crypt_block mode data idx k (s : St) :
  quietly (crypt_block hmac_sha256 sha256_hash mode data idx k)
    (fun r => match r with ROk out => block_value hmac_sha256 sha256_hash (rs_ssk s) k.2 k.1 (u16 idx) mode data = Some out
                         | RErr e => e <> TEE_SUCCESS | RPanic => False end) s.
Proof.
  unfold crypt_block, quietly. apply wp_bind, wp_gets. cbn. apply quietly_in_env, wquiet_block.
Qed.

(** A part of a block, in the clear. *)
Definition part_of (ssk : tee_fs_ssk) (key : option (bytes * bytes)) (idx : Z) (blk : bytes) (off n : nat) (r : rres bytes) : Prop :=
  match r with
  | ROk d => exists p, plain ssk key idx blk = Some p /\ d = slice off n p
  | RErr e => e <> TEE_SUCCESS
  | RPanic => False
  end.

Lemma decrypt_part frm size offset idx key (s : St) :
  frame_wf frm -> 0 <= size -> 0 <= offset -> size + offset <= 256 ->
  quietly (decrypt hmac_sha256 sha256_hash frm size offset idx key)
    (part_of (rs_ssk s) key idx (f_data frm) (Z.to_nat offset) (Z.to_nat size)) s.
Proof.
  intros [Hl Hb] Hs Ho Hso. unfold decrypt. rewrite (proj2 (Z.leb_le _ _) Hso). cbn [assert_].
  eapply (quietly_bind _ _ (fun r => r = ROk tt)); [by apply quietly_ret| |done|done]. intros _ s1 Hq1 _.
  destruct key as [k|]; [|apply quietly_ret; by exists (f_data frm)].
  eapply (quietly_bind _ _ calm); [by apply quietly_guard| |done|done]. intros _ s2 Hq2 _.
  pose proof (qs_ssk _ _ Hq1) as E1. pose proof (qs_ssk _ _ Hq2) as E2.
  destruct (size <? 256) eqn:Hz; zbool.
  - eapply quietly_bind; [apply quietly_alloc_out| |done|done]. intros _ s3 Hq3 _. pose proof (qs_ssk _ _ Hq3) as E3.
    eapply quietly_bind; [apply quietly_crypt_block| |done|done]. intros tmp s4 _ Ht. cbn in Ht.
    apply quietly_ret. exists tmp. split; [|done]. cbn. congruence.
  - eapply quietly_mono; [apply quietly_crypt_block|]. intros [d|e|]; [|done|done]. intros Hd. exists d.
    rewrite E2, E1 in Hd. split; [exact Hd|]. apply block_value_bytes in Hd as [Hd _]; [|done].
    replace (Z.to_nat offset) with 0%nat by lia. replace (Z.to_nat size) with 256%nat by lia.
    unfold slice. rewrite drop_0, take_ge; [done|]. rewrite Hd, Hl. unfold RPMB_DATA_SIZE. lia.
Qed.

(** Some frames of an answer, from number [i], and what they hold. *)
Definition saw_frames (w : W) (i : nat) (frames : list rpmb_data_frame) : Prop :=
  forall j f, frames !! j = Some f -> saw_frame w (i + j) f.

Lemma saw_frames_cons w w' i f frames :
  quiet w w' -> saw_frame w i f -> saw_frames w' (S i) frames -> saw_frames w i (f :: frames).
Proof.
  intros Hq Hf Hfs [|j] g Hj; cbn in Hj; [simplify_eq; by rewrite Nat.add_0_r|].
  eapply saw_frame_quiet; [exact Hq|]. rewrite Nat.add_succ_r. by apply Hfs.
Qed.

Lemma saw_frames_blocks w i frames : saw_frames w i frames -> blocks_wf (map f_data frames).
Proof.
  revert i. induction frames as [|f frames IH]; intros i Hs; [constructor|]. constructor.
  - destruct (saw_frame_wf w (i + 0) f); [by apply Hs|]. done.
  - apply (IH (S i)). intros j g Hj. replace (S i + j)%nat with (i + S j)%nat by lia. by apply Hs.
Qed.

Lemma quietly_mac_calc frames c (s : St) :
  rs_ctx s = Some c ->
  quietly (tee_rpmb_mac_calc hmac_sha256 frames)
    (fun r => r = ROk (take RPMB_KEY_MAC_SIZE (hmac_sha256 (c_key c) (concat (map mac_protected frames)))) \/ exists e, r = RErr e /\ e <> TEE_SUCCESS) s.
Proof.
  intros Hc. unfold tee_rpmb_mac_calc. eapply quietly_bind; [by apply quietly_ctx| |done|done].
  intros c' s' _ [= ->]. apply quietly_in_env, wquiet_mac_parts.
Qed.

Lemma cpy_frames_spec rd start_idx key n i (s : St) :
  0 <= rd_byte_offset rd < 256 ->
  quietly (cpy_frames hmac_sha256 sha256_hash rd start_idx key (seq i n))
    (fun r => match r with
     | ROk (m, d) => exists frames ps, length frames = n /\ saw_frames (rs_env s) i frames /\
         m = concat (map mac_protected frames) /\
         plains (rs_ssk s) key (start_idx + Z.of_nat i) (map f_data frames) = Some ps /\
         d = drop (if (i =? 0)%nat then Z.to_nat (rd_byte_offset rd) else 0) (concat ps)
     | RErr e => e <> TEE_SUCCESS
     | RPanic => False
     end) s.
Proof.
  intros Ho. revert i s. induction n as [|n IH]; intros i s; cbn [seq cpy_frames].
  - apply quietly_ret. exists [], []. split_and!; try done. cbn. by rewrite drop_nil.
  - eapply quietly_bind; [apply quietly_shm_frame| | |]; [|by intros e (?&?&_)|by intros (?&?&_)].
    intros f s1 Hq1 (f' & [= <-] & Hf).
    eapply quietly_bind; [apply quietly_call| |done|done]. intros _ s2 Hq2 _.
    set (off := if (i =? 0)%nat then rd_byte_offset rd else 0).
    assert (0 <= off < 256) as Hoff by (unfold off; destruct (i =? 0)%nat; lia).
    eapply quietly_bind; [apply (decrypt_part f (256 - off) off); [by eapply saw_frame_wf|lia|lia|lia]| |done|done].
    intros d s3 Hq3 (p & Hp & ->).
    eapply quietly_bind; [apply IH| |done|done]. intros [m d'] s4 _ (frames & ps & Hlen & Hs & -> & Hps & ->).
    pose proof (qs_ssk _ _ Hq1) as E1. pose proof (qs_ssk _ _ Hq2) as E2. pose proof (qs_ssk _ _ Hq3) as E3.
    apply quietly_ret. exists (f :: frames), (p :: ps). split_and!.
    + cbn. by rewrite Hlen.
    + eapply saw_frames_cons; [|exact Hf|exact Hs]. by do 2 (etransitivity; [eapply qs_env; eassumption|]); eapply qs_env.
    + done.
    + cbn. rewrite E2, E1 in Hp. rewrite Hp. cbn. rewrite E3, E2, E1 in Hps.
      replace (start_idx + Z.of_nat i + 1) with (start_idx + Z.of_nat (S i)) by lia. by rewrite Hps.
    + cbn [Nat.eqb]. rewrite drop_0. cbn [concat].
      assert (length p = 256%nat) as Hpl.
      { apply plain_bytes in Hp as [Hp _]; [|by eapply fw_bytes, saw_frame_wf]. rewrite Hp. by eapply fw_data, saw_frame_wf. }
      replace (if (i =? 0)%nat then Z.to_nat (rd_byte_offset rd) else 0%nat) with (Z.to_nat off)
        by (unfold off; by destruct (i =? 0)%nat).
      rewrite drop_app_le by lia. f_equal. unfold slice. apply take_ge. rewrite length_drop. lia.
Qed.

Lemma saw_frames_snoc w w' frames f :
  quiet w w' -> saw_frames w' 0 frames -> saw_frame w (length frames) f -> saw_frames w 0 (frames ++ [f]).
Proof.
  intros Hq Hs Hf j g Hj. cbn. apply lookup_app_Some in Hj as [Hj|[Hge Hj]].
  - eapply saw_frame_quiet; [exact Hq|]. by apply (Hs j).
  - destruct (j - length frames)%nat as [|k] eqn:E; [|done]. cbn in Hj. simplify_eq.
    by replace j with (length frames) by lia.
Qed.

(** The MAC and the data that belong to the frames of an answer: [n] of them, the last
    being [lastfrm]. *)
Definition checked (w : W) (ssk : tee_fs_ssk) (mackey : bytes) (key : option (bytes * bytes)) (idx len off : Z) (n : nat)
    (lastfrm : rpmb_data_frame) (mac data : bytes) : Prop :=
  exists frames ps, length frames = n /\ saw_frames w 0 frames /\ last frames = Some lastfrm /\
    mac = take RPMB_KEY_MAC_SIZE (hmac_sha256 mackey (concat (map mac_protected frames))) /\
    plains ssk key idx (map f_data frames) = Some ps /\ data = slice (Z.to_nat off) (Z.to_nat len) (concat ps).

Lemma plains_one ssk key idx b p : plain ssk key idx b = Some p -> plains ssk key idx [b] = Some [p].
Proof. cbn. intros ->. done. Qed.

Lemma data_cpy_1b_spec rd frm key c w (s : St) :
  rs_ctx s = Some c -> saw_frame w 0 frm -> 0 <= rd_byte_offset rd -> 0 <= rd_len rd -> rd_len rd + rd_byte_offset rd <= 256 ->
  quietly (data_cpy_mac_calc_1b hmac_sha256 sha256_hash rd frm key)
    (fun r => match r with
     | ROk (mac, d) => checked w (rs_ssk s) (c_key c) key (bytes_to_u16 (f_address frm)) (rd_len rd) (rd_byte_offset rd) 1 frm mac d
     | RErr e => e <> TEE_SUCCESS
     | RPanic => False
     end) s.
Proof.
  intros Hc Hlast Ho Hl Hlo. pose proof (saw_frame_wf _ _ _ Hlast) as Hwf. unfold data_cpy_mac_calc_1b.
  eapply (quietly_bind _ _ calm); [by apply quietly_guard| |done|done]. intros _ s2 Hq2 _.
  assert (Hc2 : rs_ctx s2 = Some c) by (rewrite (qs_ctx _ _ Hq2); done). pose proof (qs_ssk _ _ Hq2) as E2.
  eapply quietly_bind; [by apply quietly_mac_calc| |by intros e' [|(? & [= ->] & ?)]|by intros [|(? & ? & ?)]].
  intros mac s3 Hq3 [[= ->]|(e & ? & ?)]; [|done]. pose proof (qs_ssk _ _ Hq3) as E3.
  eapply quietly_bind; [apply decrypt_part; [done|lia|lia|lia]| |done|done]. intros d s4 _ (p & Hp & ->).
  apply quietly_ret. exists [frm], [p]. split_and!; [done| |done|done| |].
  - intros j g Hj. destruct j; [|done]. cbn in Hj. simplify_eq. exact Hlast.
  - apply plains_one. congruence.
  - cbn [concat]. by rewrite app_nil_r.
Qed.

Lemma data_cpy_spec rd n lastfrm key c w (s : St) :
  rs_ctx s = Some c -> quiet w (rs_env s) -> saw_frame w (n - 1) lastfrm ->
  0 <= rd_byte_offset rd < 256 -> 0 < rd_len rd -> rd_len rd + rd_byte_offset rd < 2 ^ 32 ->
  256 * (Z.of_nat n - 1) < rd_len rd + rd_byte_offset rd <= 256 * Z.of_nat n ->
  quietly (tee_rpmb_data_cpy_mac_calc hmac_sha256 sha256_hash rd n lastfrm key)
    (fun r => match r with
     | ROk (mac, d) => checked w (rs_ssk s) (c_key c) key (bytes_to_u16 (f_address lastfrm)) (rd_len rd) (rd_byte_offset rd) n lastfrm mac d
     | RErr e => e <> TEE_SUCCESS
     | RPanic => False
     end) s.
Proof.
  intros Hc Hw Hlast Ho Hl0 Hl32 Hn. pose proof (saw_frame_wf _ _ _ Hlast) as Hwf.
  assert (Hu : u32 (rd_len rd + rd_byte_offset rd) = rd_len rd + rd_byte_offset rd) by (apply u32_small; unfold is_u32; lia).
  unfold tee_rpmb_data_cpy_mac_calc.
  eapply (quietly_bind _ _ calm); [by apply quietly_guard| |done|done]. intros _ s1 Hq1 _.
  assert (Hc1 : rs_ctx s1 = Some c) by (rewrite (qs_ctx _ _ Hq1); done). pose proof (qs_ssk _ _ Hq1) as E1.
  destruct (n =? 1)%nat eqn:En; zbool.
  - apply Nat.eqb_eq in En as ->. eapply quietly_mono; [apply (data_cpy_1b_spec rd lastfrm key c w); try done; lia|].
    intros [[mac d]|e|]; [|done|done]. by rewrite E1.
  - apply Nat.eqb_neq in En.
    eapply quietly_bind; [apply quietly_call| |done|done]. intros _ s2 Hq2 _.
    assert (Hc2 : rs_ctx s2 = Some c) by (rewrite (qs_ctx _ _ Hq2); done). pose proof (qs_ssk _ _ Hq2) as E2.
    eapply quietly_bind; [by apply quietly_ctx| |done|done]. intros c' s3 Hq3 [= ->]. pose proof (qs_ssk _ _ Hq3) as E3.
    eapply quietly_bind; [apply quietly_call| |done|done]. intros _ s4 Hq4 _. pose proof (qs_ssk _ _ Hq4) as E4.
    eapply quietly_bind; [by apply cpy_frames_spec| |done|done].
    intros [m d] s5 Hq5 (frames & ps & Hlen & Hs & -> & Hps & ->). pose proof (qs_ssk _ _ Hq5) as E5.
    set (size := if _ =? 0 then _ else _).
    assert (Hsize : size = rd_len rd + rd_byte_offset rd - 256 * (Z.of_nat n - 1)).
    { unfold size. rewrite Hu. assert (0 < Z.of_nat n - 1) by lia.
      destruct (Z.eqb_spec ((rd_len rd + rd_byte_offset rd) mod 256) 0); Z.div_mod_to_equations; lia. }
    eapply quietly_bind; [apply (decrypt_part lastfrm size 0); [done|lia|lia|lia]| |done|done]. intros last s6 Hq6 (p & Hp & ->).
    eapply quietly_bind; [apply quietly_call| |done|done]. intros _ s7 _ _.
    eapply quietly_bind; [apply quietly_call| |done|done]. intros _ s8 _ _.
    apply quietly_ret. exists (frames ++ [lastfrm]), (ps ++ [p]).
    assert (Hq : quiet w (rs_env s4)).
    { etransitivity; [exact Hw|]. do 3 (etransitivity; [eapply qs_env; eassumption|]). by eapply qs_env. }
    pose proof (saw_frames_blocks _ _ _ Hs) as Hbw.
    destruct (plains_wf _ _ _ _ _ _ _ Hps Hbw) as [Hpw Hpl]. rewrite length_map in Hpl.
    assert (Hcl : length (concat ps) = ((n - 1) * 256)%nat) by (rewrite (blocks_concat_length _ Hpw), Hpl, Hlen; done).
    split_and!.
    + rewrite length_app. cbn. lia.
    + eapply saw_frames_snoc; [exact Hq|exact Hs|]. by rewrite Hlen.
    + by rewrite last_snoc.
    + rewrite map_app, concat_app. cbn [map concat]. by rewrite app_nil_r.
    + rewrite map_app, plains_app, length_map, Hlen. cbn [map].
      rewrite E4, E3, E2, E1, Z.add_0_r in Hps. rewrite Hps. cbn [mbind option_bind].
      replace (bytes_to_u16 (f_address lastfrm) + Z.of_nat n - 1) with (bytes_to_u16 (f_address lastfrm) + Z.of_nat (n - 1)) in Hp by lia.
      rewrite E5, E4, E3, E2, E1 in Hp. rewrite (plains_one _ _ _ _ _ Hp). done.
    + rewrite concat_app. cbn [concat Nat.eqb]. rewrite app_nil_r. unfold slice.
      rewrite <- copied_bytes by lia. f_equal. rewrite drop_0. f_equal. lia.
Qed.

(** An answer to a read request that passes all checks. *)
Definition accepted (w : W) (ssk : tee_fs_ssk) (mackey : bytes) (key : option (bytes * bytes)) (blk_idx : Z) (nonce : bytes)
    (len off : Z) (n : nat) (data : bytes) : Prop :=
  exists lastfrm mac,
    checked w ssk mackey key blk_idx len off n lastfrm mac data /\
    saw w ((n - 1) * RPMB_DATA_FRAME_SIZE + RPMB_STUFF_DATA_SIZE) RPMB_KEY_MAC_SIZE mac /\
    get_op_result_bits (f_op_result lastfrm) = RPMB_RESULT_OK /\
    bytes_to_u16 (f_msg_type lastfrm) = RPMB_MSG_TYPE_RESP_AUTH_DATA_READ /\
    bytes_to_u16 (f_address lastfrm) = blk_idx /\ f_nonce lastfrm = nonce.

(** A branch that returns an error code. *)
Ltac rejected :=
  apply quietly_ret;
  lazymatch goal with |- ?a = ?b -> _ => let H := fresh in intros H; first [contradiction | vm_compute in H; discriminate H] end.

Lemma unpack_read blkcnt blk_idx nonce len off n key c (s : St) :
  rs_ctx s = Some c -> 0 <= off < 256 -> 0 < len -> len + off < 2 ^ 32 ->
  256 * (Z.of_nat n - 1) < len + off <= 256 * Z.of_nat n ->
  quietly (tee_rpmb_resp_unpack_verify hmac_sha256 sha256_hash
             (mk_raw RPMB_MSG_TYPE_RESP_AUTH_DATA_READ blkcnt (Some blk_idx) None (Some nonce) (Some []) (Some []) len off) n key)
    (fun r => match r with
     | ROk (res, _, d) => res = TEE_SUCCESS -> accepted (rs_env s) (rs_ssk s) (c_key c) key blk_idx nonce len off n d
     | _ => False end) s.
Proof.
  intros Hc Ho Hl Hl32 Hn. unfold tee_rpmb_resp_unpack_verify. cbn [rd_write_counter rd_msg_type rd_blk_idx rd_nonce rd_key_mac rd_data].
  destruct (n =? 0)%nat; [rejected|].
  eapply quietly_bind; [apply quietly_shm_frame| | |]; [|by intros e (?&?&_)|by intros (?&?&_)].
  intros lastfrm s1 Hq1 (f' & [= <-] & Hf). destruct Hq1 as [E1 E2 E3 Hw1].
  destruct (get_op_result_bits (f_op_result lastfrm) =? RPMB_RESULT_AUTH_KEY_NOT_PROGRAMMED); [rejected|].
  destruct (Z.eqb_spec (get_op_result_bits (f_op_result lastfrm)) RPMB_RESULT_OK) as [Hop|]; cbn [negb]; [|rejected].
  destruct (Z.eqb_spec (bytes_to_u16 (f_msg_type lastfrm)) RPMB_MSG_TYPE_RESP_AUTH_DATA_READ) as [Hty|]; cbn [negb]; [|rejected].
  destruct (Z.eqb_spec (bytes_to_u16 (f_address lastfrm)) blk_idx) as [Had|]; cbn [negb]; [|rejected].
  cbn [fmap option_fmap option_map].
  eapply (quietly_bind _ _ (fun r => r = ROk tt)); [by apply quietly_ret| |done|done]. intros _ s2 [F1 F2 F3 Hw2] _.
  case_bool_decide as Hno; cbn [negb]; [|rejected].
  assert (Hw : quiet (rs_env s) (rs_env s2)) by (by etransitivity).
  eapply quietly_bind; [apply quietly_try, (data_cpy_spec _ n lastfrm key c (rs_env s)); cbn; try done; congruence| |done|done].
  intros [e|[mac d]] s3 [_ _ _ Hw3] Hr; [rejected|]. cbn [rd_len rd_byte_offset] in Hr.
  eapply quietly_bind; [apply quietly_shm| | |]; [|by intros e (?&?&_)|by intros (?&?&_)].
  intros m s4 _ (b & [= <-] & Hb). case_bool_decide as Hm; [|rejected]. subst m.
  apply quietly_ret. intros _. exists lastfrm, mac. split_and!; try done.
  - rewrite Had, F3, E3 in Hr. exact Hr.
  - eapply saw_quiet; [|exact Hb]. by etransitivity.
Qed.
End reads.

(** ** Requests *)

Section requests.
Context {W : Type} {RE : RpmbEnv W} {BC : BlockCipher} {BL : BlockCipherLaws BC}.
Context (hmac_sha256 : bytes -> bytes -> bytes) (sha256_hash : bytes -> bytes).

Local Notation St := (rpmb_state W).

(** What goes into a frame for the data [d]. *)
Definition enciphered (ssk : tee_fs_ssk) (key : option (bytes * bytes)) (idx : Z) (d out : bytes) : Prop :=
  match key with
  | None => out = d
  | Some k => block_value hmac_sha256 sha256_hash ssk k.2 k.1 (u16 idx) TEE_MODE_ENCRYPT d = Some out
  end.

Definition frame_data (ssk : tee_fs_ssk) (rd : rpmb_raw_data) (key : option (bytes * bytes)) (data : bytes) : Prop :=
  match rd_data rd with
  | None => data = f_data zero_frame
  | Some d => enciphered ssk key (or_else (rd_blk_idx rd) 0) (slice 0 RPMB_DATA_SIZE d) data
  end.

Lemma pack_frame_spec rd key c (s : St) :
  rs_ctx s = Some c ->
  quietly (pack_frame hmac_sha256 sha256_hash rd 1 key 0)
    (fun r => match r with
     | ROk f => (forall i, rd_blk_idx rd = Some i -> i <= c_max_blk_idx c) /\
                exists data, f = fill_frame rd data /\ frame_data (rs_ssk s) rd key data
     | RErr e => e <> TEE_SUCCESS
     | RPanic => False
     end) s.
Proof.
  intros Hc. unfold pack_frame. eapply quietly_bind; [by apply quietly_ctx| |done|done]. intros c' s1 Hq1 [= ->].
  eapply (quietly_bind _ _ (fun r => calm r /\ (r = ROk tt -> forall i, rd_blk_idx rd = Some i -> i <= c_max_blk_idx c))).
  { apply quietly_guard; [|done]. intros Hb. split; [done|]. intros _ i Hi. rewrite Hi in Hb. zbool. lia. }
  2: by intros e [? _]. 2: by intros [? _].
  intros [] s2 Hq2 [_ Hidx]. specialize (Hidx eq_refl).
  pose proof (qs_ssk _ _ Hq1) as E1. pose proof (qs_ssk _ _ Hq2) as E2.
  eapply (quietly_bind _ _ (fun r => match r with ROk d => frame_data (rs_ssk s) rd key d | RErr e => e <> TEE_SUCCESS | RPanic => False end));
    [| |done|done].
  - unfold frame_data. destruct (rd_data rd) as [d|]; [|by apply quietly_ret]. destruct key as [k|]; [|by apply quietly_ret].
    eapply quietly_mono; [apply quietly_crypt_block|]. intros [o|e|]; [|done|done]. cbn. by rewrite Z.add_0_r, E2, E1.
  - intros d s3 _ Hd. apply quietly_ret. split; [exact Hidx|]. by exists d.
Qed.

(** The MAC of a request, in its last frame. *)
Definition request_mac (mackey : bytes) (rd : rpmb_raw_data) (f : rpmb_data_frame) : rpmb_data_frame :=
  match rd_key_mac rd with
  | None => f
  | Some k =>
      with_mac (if rd_msg_type rd =? RPMB_MSG_TYPE_REQ_AUTH_DATA_WRITE
                then take RPMB_KEY_MAC_SIZE (hmac_sha256 mackey (concat (map mac_protected [f]))) else k) f
  end.

Lemma req_pack_spec size rd dev_id key c (s : St) :
  rs_ctx s = Some c -> (one_frame_size <= size)%nat ->
  quietly (tee_rpmb_req_pack hmac_sha256 sha256_hash size rd 1 dev_id key)
    (fun r => match r with
     | ROk rq => (forall i, rd_blk_idx rd = Some i -> i <= c_max_blk_idx c) /\
         exists data, rq = mk_req RPMB_CMD_DATA_REQ dev_id None [request_mac (c_key c) rd (fill_frame rd data)] /\
                      frame_data (rs_ssk s) rd key data
     | RErr e => e <> TEE_SUCCESS
     | RPanic => False
     end) s.
Proof.
  intros Hc Hs. unfold tee_rpmb_req_pack.
  eapply (quietly_bind _ _ calm); [by apply quietly_guard| |done|done]. intros _ s1 Hq1 _. pose proof (qs_ssk _ _ Hq1) as E1.
  assert (Hc1 : rs_ctx s1 = Some c) by (rewrite (qs_ctx _ _ Hq1); done).
  eapply quietly_bind; [by apply quietly_ctx| |done|done]. intros c' s2 Hq2 [= ->]. pose proof (qs_ssk _ _ Hq2) as E2.
  eapply (quietly_bind _ _ calm); [by apply quietly_guard| |done|done]. intros _ s3 Hq3 _. pose proof (qs_ssk _ _ Hq3) as E3.
  eapply quietly_bind; [apply quietly_alloc_out| |done|done]. intros _ s4 Hq4 _. pose proof (qs_ssk _ _ Hq4) as E4.
  assert (Hc4 : rs_ctx s4 = Some c) by (rewrite (qs_ctx _ _ Hq4), (qs_ctx _ _ Hq3), (qs_ctx _ _ Hq2); done).
  cbn [seq pack_frames].
  eapply (quietly_bind _ _ (fun r => match r with
     | ROk fs => (forall i, rd_blk_idx rd = Some i -> i <= c_max_blk_idx c) /\
                 exists data, fs = [fill_frame rd data] /\ frame_data (rs_ssk s) rd key data
     | RErr e => e <> TEE_SUCCESS
     | RPanic => False end)); [| |done|done].
  { eapply quietly_bind; [by apply pack_frame_spec| |done|done]. intros f s5 _ (Hi & d & -> & Hd).
    eapply (quietly_bind _ _ (fun r => r = ROk [])); [by apply quietly_ret| |done|done]. intros fs s6 _ [= ->].
    apply quietly_ret. split; [done|]. exists d. split; [done|]. by rewrite E4, E3, E2, E1 in Hd. }
  intros fs s5 Hq5 (Hi & d & -> & Hd).
  assert (Hc5 : rs_ctx s5 = Some c) by (rewrite (qs_ctx _ _ Hq5); done).
  eapply (quietly_bind _ _ (fun r => r = ROk [request_mac (c_key c) rd (fill_frame rd d)] \/ exists e, r = RErr e /\ e <> TEE_SUCCESS)).
  - unfold request_mac. destruct (rd_key_mac rd) as [k|]; [|apply quietly_ret; by left].
    destruct (rd_msg_type rd =? _).
    + eapply quietly_bind; [by apply quietly_mac_calc| |intros e' [?|(? & [= ->] & ?)]; [done|right; eauto]|by intros [|(? & ? & ?)]].
      intros mac s6 _ [[= ->]|(e & ? & ?)]; [|done]. apply quietly_ret. by left.
    + eapply (quietly_bind _ _ (fun r => r = ROk k)); [by apply quietly_ret| |done|done]. intros mac s6 _ [= ->].
      apply quietly_ret. by left.
  - intros fs s6 _ [[= ->]|(e & ? & ?)]; [|done].
    eapply (quietly_bind _ _ (fun r => r = ROk tt)); [| |done|done].
    + unfold assert_, one_frame_size in *. rewrite (proj2 (Nat.leb_le _ _)) by lia. by apply quietly_ret.
    + intros _ s7 _ _. apply quietly_ret. split; [done|]. by exists d.
  - by intros e [?|(? & [= ->] & ?)].
  - by intros [?|(? & ? & ?)].
Qed.

Lemma quietly_alloc (s : St) : quietly tee_rpmb_alloc calm s.
Proof.
  unfold tee_rpmb_alloc.
  do 2 (eapply quietly_bind; [apply quietly_try, quietly_call| |done|done]; intros ? ? _ _).
  destruct a, a0; try by apply quietly_throw.
  do 2 (eapply quietly_bind; [apply quietly_try, quietly_call| |done|done]; intros ? ? _ _).
  destruct a, a0; (by apply quietly_throw) || by apply quietly_ret.
Qed.
End requests.

Lemma block_count_exact x : 0 < x <= 65535 * 256 -> block_count x = (x + 255) / 256.
Proof.
  intros Hx. unfold block_count. rewrite (u32_small (x + 255)) by (unfold is_u32; lia).
  change 256 with (2 ^ 8) at 1. rewrite <- Z.shiftr_div_pow2, Z.shiftr_land by lia.
  change (Z.shiftr (u32 (Z.lnot 255)) 8) with (Z.ones 24). rewrite Z.land_ones, Z.shiftr_div_pow2 by lia.
  change (2 ^ 8) with 256. change (2 ^ 24) with 16777216. rewrite (Z.mod_small _ 16777216) by (Z.div_mod_to_equations; lia).
  apply u16_small. unfold is_u16. Z.div_mod_to_equations; lia.
Qed.

(** ** Runs

    What happens to the variables and to normal world, where [R] relates the states of
    normal world before and after: any relation kept by quiet steps and by requests that do
    not write. *)

Section runs.
Context {W : Type} {RE : RpmbEnv W} {BC : BlockCipher} {BL : BlockCipherLaws BC}.
Context (hmac_sha256 : bytes -> bytes -> bytes) (sha256_hash : bytes -> bytes) (hw_unique_key : bytes).
Context (multiple_write_fixed cfg_write_key plat_rpmb_key_is_ready : bool) (dev_id : Z).

Local Notation St := (rpmb_state W).

Definition writes (rq : rpmb_req) : Prop :=
  exists f, f ∈ rq_frames rq /\ f_msg_type f = u16_to_bytes RPMB_MSG_TYPE_REQ_AUTH_DATA_WRITE.

Class Kept (R : W -> W -> Prop) : Prop := {
  kept_preorder :: PreOrder R;
  kept_quiet w w' : quiet w w' -> R w w';
  kept_invoke rq n w : ~ writes rq -> R w (env_invoke rq n w).2;
}.

(** What is known of [rpmb_ctx]: the key is derived from the hardware key. *)
Record ctx_ok (c : tee_rpmb_ctx) : Prop := {
  ok_info : c_dev_info_synced c = true ->
    (multiple_write_fixed = false -> c_rel_wr_blkcnt c = 1) /\ 0 <= c_max_blk_idx c < 65536;
  ok_key : c_key_derived c = true -> exists m, c_key c = take RPMB_KEY_MAC_SIZE (hmac_sha256 hw_unique_key m);
}.
Definition ctx_inv (s : St) : Prop := forall c, rs_ctx s = Some c -> ctx_ok c.

(** The device is known. *)
Definition ctx_known (c : tee_rpmb_ctx) : Prop := c_dev_info_synced c = true /\ c_dev_id c = dev_id.
Definition known (s : St) : Prop := exists c, rs_ctx s = Some c /\ ctx_known c.

Record run (R : W -> W -> Prop) (s s' : St) : Prop := mk_run {
  run_ssk : rs_ssk s' = rs_ssk s;
  run_dead : rs_dead s' = rs_dead s;
  run_env : R (rs_env s) (rs_env s');
  run_inv : ctx_inv s -> ctx_inv s';
  run_known : known s -> known s';
}.

#[global] Instance run_preorder R `{!PreOrder R} : PreOrder (run R).
Proof. split; [intros s; by split|]. intros s1 s2 s3 [] []. split; [congruence|congruence|by etransitivity|auto|auto]. Qed.

Lemma qs_run R `{!Kept R} s s' : qs s s' -> run R s s'.
Proof.
  intros [E1 E2 E3 Hq]. split; [done|done|by apply kept_quiet| |].
  - intros H c Hc. apply H. congruence.
  - intros (c & Hc & Hk). exists c. split; [congruence|done].
Qed.

(** [m] runs and ends with [P]. *)
Definition runs R {A} (m : M St A) (P : rres A -> St -> Prop) (s : St) : Prop := wp m (fun r s' => run R s s' /\ P r s') s.

Lemma runs_bind R `{!Kept R} {A B} (m : M St A) (k : A -> M St B) P Q s :
  runs R m P s -> (forall a s', run R s s' -> P (ROk a) s' -> runs R (k a) Q s') ->
  (forall e s', P (RErr e) s' -> Q (RErr e) s') -> (forall s', P RPanic s' -> Q RPanic s') -> runs R (m ≫= k) Q s.
Proof.
  unfold runs. intros Hm Hk He Hp. eapply wp_seq; [exact Hm|]. intros [a|e|] s' [Hr Ha]; cbn; [|auto|auto].
  eapply wp_mono; [by apply Hk|]. intros r s2 [Hr2 ?]. split; [by etransitivity|done].
Qed.

Lemma runs_quiet R `{!Kept R} {A} (m : M St A) P (s : St) :
  quietly m P s -> runs R m (fun r s' => rs_ctx s' = rs_ctx s /\ P r) s.
Proof.
  unfold quietly, runs. intros H. eapply wp_mono; [exact H|]. intros r s' [Hq HP].
  split; [by apply qs_run|]. split; [by apply qs_ctx|done].
Qed.

Lemma runs_qs R `{!Kept R} {A} (m : M St A) P (s : St) : quietly m P s -> runs R m (fun r s' => qs s s' /\ P r) s.
Proof.
  unfold quietly, runs. intros H. eapply wp_mono; [exact H|]. intros r s' [Hq HP]. split; [by apply qs_run|done].
Qed.

Lemma runs_mono R {A} (m : M St A) (P Q : rres A -> St -> Prop) s : runs R m P s -> (forall r s', P r s' -> Q r s') -> runs R m Q s.
Proof. unfold runs. intros Hm HPQ. eapply wp_mono; [exact Hm|]. intros r s' [? ?]. auto. Qed.

Lemma runs_ret R `{!Kept R} {A} (a : A) (P : rres A -> St -> Prop) s : P (ROk a) s -> runs R (mret a) P s.
Proof. intros H. split; [reflexivity|done]. Qed.
Lemma runs_throw R `{!Kept R} {A} e (P : rres A -> St -> Prop) s : P (RErr e) s -> runs R (throw e) P s.
Proof. intros H. split; [reflexivity|done]. Qed.
Lemma runs_guard R `{!Kept R} b e (P : rres unit -> St -> Prop) s :
  (b = true -> P (ROk tt) s) -> (b = false -> P (RErr e) s) -> runs R (guard_ b e) P s.
Proof. intros H1 H2. split; [destruct b; reflexivity|]. destruct b; cbn; auto. Qed.
Lemma runs_try R {A} (m : M St A) P s : runs R m P s ->
  runs R (try_ m) (fun r s' => match r with ROk (inr a) => P (ROk a) s' | ROk (inl e) => P (RErr e) s' | RErr _ => False | RPanic => P RPanic s' end) s.
Proof. unfold runs. intros H. apply wp_try. eapply wp_mono; [exact H|]. intros [a|e|] s' [? ?]; done. Qed.

Lemma runs_ctx R `{!Kept R} c (s : St) : rs_ctx s = Some c -> runs R ctx (fun r s' => r = ROk c /\ rs_ctx s' = Some c) s.
Proof. intros E. unfold runs, wp, ctx. rewrite E. split; [reflexivity|done]. Qed.

Lemma runs_upd_ctx R `{!Kept R} f c (s : St) :
  rs_ctx s = Some c -> (ctx_ok c -> ctx_ok (f c)) -> (ctx_known c -> ctx_known (f c)) -> runs R (upd_ctx f) (fun r s' => r = ROk tt /\ rs_ctx s' = Some (f c)) s.
Proof.
  intros E Hok Hkn. unfold runs, wp, upd_ctx, mbind, M_mbind, m_bind, ctx, put_ctx, modify. rewrite E. cbn. split; [|done].
  split; [done|done|cbn; reflexivity| |].
  - intros Hi c' [= <-]. apply Hok. by apply Hi.
  - intros (c' & Hc' & Hk). rewrite E in Hc'. simplify_eq. exists (f c'). split; [done|auto].
Qed.

Lemma runs_invoke R `{!Kept R} rq n (s : St) :
  ~ writes rq -> runs R (tee_rpmb_invoke rq n) (fun r s' => calm r /\ rs_ctx s' = rs_ctx s) s.
Proof.
  intros Hw. unfold runs, tee_rpmb_invoke. apply wp_zoom. unfold wp. pose proof (kept_invoke rq n (rs_env s) Hw) as Hk.
  destruct (env_invoke rq n (rs_env s)) as [z w]. cbn in *. split.
  - split; [done|done|done| |]; [intros H c Hc; by apply H|intros (c & Hc & Hkn); by exists c].
  - split; [by destruct (Z.eqb_spec z TEE_SUCCESS)|done].
Qed.

Lemma runs_invoke_exact R `{!Kept R} rq n (s : St) :
  ~ writes rq -> runs R (tee_rpmb_invoke rq n) (fun r s' => calm r /\ rs_ctx s' = rs_ctx s /\ rs_ssk s' = rs_ssk s /\ rs_dead s' = rs_dead s /\
    (r = ROk tt -> env_invoke rq n (rs_env s) = (TEE_SUCCESS, rs_env s'))) s.
Proof.
  intros Hw. unfold runs, tee_rpmb_invoke. apply wp_zoom. unfold wp. pose proof (kept_invoke rq n (rs_env s) Hw) as Hk.
  destruct (env_invoke rq n (rs_env s)) as [z w]. cbn in *. split.
  - split; [done|done|done| |]; [intros H c Hc; by apply H|intros (c & Hc & Hkn); by exists c].
  - split_and!; try done; destruct (Z.eqb_spec z TEE_SUCCESS) as [->|]; done.
Qed.

Lemma request_mac_type mackey rd d : f_msg_type (request_mac hmac_sha256 mackey rd (fill_frame rd d)) = u16_to_bytes (rd_msg_type rd).
Proof. unfold request_mac. by destruct (rd_key_mac rd). Qed.

Lemma not_writes dev mackey rd d bc :
  u16_to_bytes (rd_msg_type rd) <> u16_to_bytes RPMB_MSG_TYPE_REQ_AUTH_DATA_WRITE ->
  ~ writes (mk_req RPMB_CMD_DATA_REQ dev bc [request_mac hmac_sha256 mackey rd (fill_frame rd d)]).
Proof. intros Hne (f & Hf & Ht). apply list_elem_of_singleton in Hf as ->. rewrite request_mac_type in Ht. done. Qed.

(** A request of one frame that does not write. *)
Lemma runs_request R `{!Kept R} rd n c (s : St) {B} (k : unit -> M St B) Q :
  rs_ctx s = Some c -> u16_to_bytes (rd_msg_type rd) <> u16_to_bytes RPMB_MSG_TYPE_REQ_AUTH_DATA_WRITE ->
  (forall s', run R s s' -> rs_ctx s' = Some c -> runs R (k tt) Q s') ->
  (forall e s', e <> TEE_SUCCESS -> rs_ctx s' = Some c -> Q (RErr e) s') ->
  runs R (rq ← tee_rpmb_req_pack hmac_sha256 sha256_hash one_frame_size rd 1 dev_id None; tee_rpmb_invoke rq n ≫= k) Q s.
Proof.
  intros Hc Ht Hk He. eapply runs_bind; [done|apply runs_quiet; [done|by apply req_pack_spec]| | |].
  - intros rq s1 Hr1 [Hc1 (_ & d & -> & _)].
    eapply runs_bind; [done|apply runs_invoke; [done|by apply not_writes]| | |by intros s' [? _]].
    + intros [] s2 Hr2 [_ Hc2]. apply Hk; [by etransitivity|congruence].
    + intros e s2 [Hce Hc2]. apply He; [done|congruence].
  - intros e s1 [Hc1 Hce]. apply He; [done|congruence].
  - by intros s1 [_ ?].
Qed.

(** Answers of one frame to other requests than writes. *)
Lemma unpack_quiet rd key c (s : St) :
  rs_ctx s = Some c -> rd_msg_type rd <> RPMB_MSG_TYPE_RESP_AUTH_DATA_WRITE -> rd_data rd = None ->
  quietly (tee_rpmb_resp_unpack_verify hmac_sha256 sha256_hash rd 1 key)
    (fun r => exists res wc d, r = ROk (res, wc, d)) s.
Proof.
  intros Hc Ht Hd. unfold tee_rpmb_resp_unpack_verify. cbn [Nat.eqb].
  eapply quietly_bind; [apply quietly_shm_frame| | |]; [|by intros e (?&?&_)|by intros (?&?&_)].
  intros f s1 Hq1 _. destruct (_ =? RPMB_RESULT_AUTH_KEY_NOT_PROGRAMMED); [apply quietly_ret; eauto|].
  destruct (negb (get_op_result_bits (f_op_result f) =? RPMB_RESULT_OK)); [apply quietly_ret; eauto|].
  destruct (Z.eqb_spec (bytes_to_u16 (f_msg_type f)) (rd_msg_type rd)) as [->|]; cbn [negb]; [|apply quietly_ret; eauto].
  destruct (match rd_blk_idx rd with Some i => _ | None => _ end); [apply quietly_ret; eauto|].
  rewrite (proj2 (Z.eqb_neq _ _) Ht). cbn [andb].
  match goal with |- quietly (if ?b then _ else _) _ _ => replace b with false by (destruct (rd_write_counter rd); done) end.
  eapply (quietly_bind _ _ (fun r => r = ROk tt)); [destruct (rd_write_counter rd); by apply quietly_ret| |done|done].
  intros _ s2 Hq2 _. destruct (match rd_nonce rd with Some n => _ | None => _ end); [apply quietly_ret; eauto|].
  destruct (rd_key_mac rd) as [k|]; [|apply quietly_ret; eauto].
  assert (Hc2 : rs_ctx s2 = Some c) by (rewrite (qs_ctx _ _ Hq2), (qs_ctx _ _ Hq1); done).
  eapply quietly_bind; [apply (quietly_try _ calm)| |done|done].
  - destruct (rd_msg_type rd =? _); [rewrite Hd; by apply quietly_throw|].
    eapply (quietly_bind _ _ calm); [by apply quietly_guard| |done|done]. intros _ s3 Hq3 _.
    eapply quietly_bind; [apply (quietly_mac_calc _ [f] c); by rewrite (qs_ctx _ _ Hq3)| | |];
      [intros; by apply quietly_ret|by intros e [|(? & [= ->] & ?)]|by intros [|(? & ? & ?)]].
  - intros [e|[mac d]] s3 _ _; [apply quietly_ret; eauto|].
    eapply quietly_bind; [apply quietly_shm| | |]; [|by intros e (?&?&_)|by intros (?&?&_)].
    intros m s4 _ _. case_bool_decide; apply quietly_ret; eauto.
Qed.

Lemma get_dev_info_runs R `{!Kept R} (s : St) :
  runs R (tee_rpmb_get_dev_info dev_id) (fun r s' => calm r /\ rs_ctx s' = rs_ctx s /\
    forall i, r = ROk i -> 0 <= di_rpmb_size_mult i < 256) s.
Proof.
  unfold tee_rpmb_get_dev_info.
  eapply runs_bind; [done|apply runs_quiet; [done|apply quietly_alloc]| |by intros e s' [-> ?]|by intros s' [_ ?]].
  intros _ s1 _ [E1 _].
  eapply runs_bind; [done|apply runs_invoke; [done|by intros (f & Hf%elem_of_nil & _)]| |intros e s' [? ->]|by intros s' [? _]]; [|done].
  intros _ s2 _ [_ E2].
  eapply runs_bind; [done|apply runs_quiet; [done|apply quietly_shm]| |by intros e s' [_ (? & ? & _)]|by intros s' [_ (? & ? & _)]].
  intros rc s3 _ [E3 _].
  eapply (runs_bind R _ _ (fun r s' => calm r /\ rs_ctx s' = rs_ctx s)); [by apply runs_guard; [done|intros _; split; [done|congruence]..]| | |by intros ? [? _]].
  2: { intros e s' [? ?]. split_and!; [done|done|done]. }
  intros _ s4 _ [_ E4].
  eapply runs_bind; [done|apply runs_quiet; [done|apply quietly_shm]| |by intros e s' [_ (? & ? & _)]|by intros s' [_ (? & ? & _)]].
  intros b s5 _ [E5 (b' & [= <-] & w & _ & ->)]. apply runs_ret; [done|]. split_and!; [done|congruence|]. intros i [= <-]. cbn [di_rpmb_size_mult].
  pose proof (as_bytes_bytes rpmb_dev_info_size (env_shm 0 rpmb_dev_info_size w).1) as Hb.
  pose proof (as_bytes_length rpmb_dev_info_size (env_shm 0 rpmb_dev_info_size w).1) as Hl.
  rewrite Forall_forall in Hb. apply (Hb (nth 16 _ 0)), list_elem_of_In, nth_In. rewrite Hl. unfold rpmb_dev_info_size. lia.
Qed.

(** The same device and key. *)
Record same_dev (c c' : tee_rpmb_ctx) : Prop := mk_same_dev {
  sd_key : c_key c' = c_key c;
  sd_max : c_max_blk_idx c' = c_max_blk_idx c;
  sd_rel : c_rel_wr_blkcnt c' = c_rel_wr_blkcnt c;
  sd_id : c_dev_id c' = c_dev_id c;
  sd_derived : c_key_derived c' = c_key_derived c;
  sd_info : c_dev_info_synced c' = c_dev_info_synced c;
}.
#[global] Instance same_dev_preorder : PreOrder same_dev.
Proof. split; [intros c; by split|]. intros c1 c2 c3 [] []. split; congruence. Qed.

Lemma ctx_ok_same c c' : same_dev c c' -> ctx_ok c -> ctx_ok c'.
Proof. intros [K M L I D F] [H1 H2]. split; [rewrite F, M, L; exact H1|rewrite D, K; exact H2]. Qed.

(** The context stays that of the same device; [P] says more of it after a success. *)
Definition keeps_dev (c : tee_rpmb_ctx) (P : tee_rpmb_ctx -> Prop) {A} (r : rres A) (s' : St) : Prop :=
  calm r /\ exists c', rs_ctx s' = Some c' /\ same_dev c c' /\ match r with ROk _ => P c' | _ => True end.

Lemma keeps_dev_trans c c1 P {A B} (r : rres A) (r' : rres B) s' :
  same_dev c c1 -> keeps_dev c1 P r s' -> calm r' -> match r' with ROk _ => r <> RPanic /\ exists a, r = ROk a | _ => True end ->
  keeps_dev c P r' s'.
Proof.
  intros Hs (Hc & c' & Hc' & Hs' & HP) Hr Hm. split; [done|]. exists c'. split_and!; [done|by etransitivity|].
  destruct r'; [|done|done]. by destruct Hm as [_ [a' ->]].
Qed.

Lemma runs_of_res R `{!Kept R} z c P (s : St) :
  rs_ctx s = Some c -> (z = TEE_SUCCESS -> P c) -> runs R (of_res (z, tt)) (keeps_dev c P) s.
Proof.
  intros Hc HP. unfold of_res; cbn [fst snd]. destruct (Z.eqb_spec z TEE_SUCCESS) as [Hz|Hz]; (split; [reflexivity|]).
  - split; [done|]. exists c. split_and!; [done|done|by apply HP].
  - split; [done|]. by exists c.
Qed.

Lemma read_wr_cnt_runs R `{!Kept R} c (s : St) :
  rs_ctx s = Some c -> runs R (tee_rpmb_init_read_wr_cnt hmac_sha256 sha256_hash dev_id) (keeps_dev c (fun _ => True)) s.
Proof.
  intros Hc. unfold tee_rpmb_init_read_wr_cnt.
  assert (Herr : forall e (s' : St), e <> TEE_SUCCESS -> rs_ctx s' = Some c -> keeps_dev c (fun _ => True) (@RErr unit e) s').
  { intros e s' He Hc'. split; [done|]. exists c. by split_and!. }
  eapply runs_bind; [done|apply runs_quiet; [done|apply quietly_alloc]| |intros e s' [? ?]; apply Herr; [done|congruence]|by intros s' [_ ?]].
  intros _ s1 _ [E1 _].
  eapply runs_bind; [done|apply runs_quiet; [done|apply quietly_rng]| |intros e s' [? ?]; apply Herr; [done|congruence]|by intros s' [_ ?]].
  intros nonce s2 _ [E2 _].
  apply (runs_request R _ _ c); [congruence|by vm_compute| |exact Herr]. intros s3 _ E3.
  eapply runs_bind; [done|by apply (runs_ctx R c)| |by intros ? ? [? _]|by intros ? [? _]]. intros c' s4 _ [[= ->] E4].
  eapply runs_bind; [done|apply runs_quiet; [done|by apply (unpack_quiet _ _ c)]| | |];
    [|by intros e s' [_ (?&?&?&?)]|by intros s' [_ (?&?&?&?)]].
  intros [[res wc] d] s5 _ [E5 _].
  eapply runs_bind; [done|apply (runs_upd_ctx R _ c); [congruence|apply ctx_ok_same; by split|done]| |by intros ? ? [? _]|by intros ? [? _]].
  intros _ s6 _ [_ E6]. eapply runs_mono; [by apply (runs_of_res R res (set_wr_cnt (or_else wc (c_wr_cnt c)) c) (fun _ => True))|].
  intros r s7 H. eapply keeps_dev_trans; [|exact H|by destruct H|]; [by split|]. destruct r; eauto.
Qed.

Definition in_sync (c : tee_rpmb_ctx) : Prop := c_wr_cnt_synced c = true /\ c_key_verified c = true.

Lemma verify_key_runs R `{!Kept R} c (s : St) :
  rs_ctx s = Some c -> runs R (tee_rpmb_verify_key_sync_counter hmac_sha256 sha256_hash dev_id) (keeps_dev c in_sync) s.
Proof.
  intros Hc. unfold tee_rpmb_verify_key_sync_counter.
  eapply runs_bind; [done|by apply read_wr_cnt_runs| | |by intros s' [? _]].
  - intros _ s1 _ (_ & c1 & E1 & Hs1 & _).
    eapply runs_mono; [apply (runs_upd_ctx R _ c1); [done|apply ctx_ok_same; by split|done]|].
    intros r s2 [-> E2]. split; [done|]. exists (set_verified c1). split_and!; [done| |done]. etransitivity; [exact Hs1|by split].
  - intros e s1 (He & c1 & E1 & Hs1 & _). split; [done|]. by exists c1.
Qed.

Lemma write_key_runs R `{!Kept R} c (s : St) :
  rs_ctx s = Some c ->
  runs R (tee_rpmb_write_and_verify_key hmac_sha256 sha256_hash cfg_write_key plat_rpmb_key_is_ready dev_id) (keeps_dev c in_sync) s.
Proof.
  intros Hc. unfold tee_rpmb_write_and_verify_key.
  assert (Herr : forall e (s' : St), e <> TEE_SUCCESS -> rs_ctx s' = Some c -> keeps_dev c in_sync (@RErr unit e) s').
  { intros e s' He Hc'. split; [done|]. exists c. by split_and!. }
  destruct cfg_write_key; [|apply runs_throw; [done|by apply Herr]].
  eapply (runs_bind R _ _ (fun r s' => calm r /\ rs_ctx s' = Some c)); [by apply runs_guard| |by intros e s' [? ?]; apply Herr|by intros ? [? _]].
  intros _ s1 _ [_ E1].
  eapply (runs_bind R _ _ (keeps_dev c (fun _ => True))); [| | |by intros s' [? _]].
  - unfold tee_rpmb_write_key.
    eapply runs_bind; [done|apply runs_quiet; [done|apply quietly_alloc]| | |by intros s' [_ ?]].
    2: { intros e s' [? ?]. split; [done|]. exists c. split_and!; [congruence|done|done]. }
    intros _ s2 _ [E2 _].
    eapply runs_bind; [done|apply (runs_ctx R c); congruence| |by intros ? ? [? _]|by intros ? [? _]]. intros c' s3 _ [[= ->] E3].
    apply (runs_request R _ _ c); [done|by vm_compute| |].
    2: { intros e s' ? ?. split; [done|]. by exists c. }
    intros s4 _ E4. eapply runs_bind; [done|apply runs_quiet; [done|by apply (unpack_quiet _ _ c)]| | |];
      [|by intros e s' [_ (?&?&?&?)]|by intros s' [_ (?&?&?&?)]].
    intros [[res wc] d] s5 _ [E5 _]. apply runs_of_res; [done|congruence|done].
  - intros _ s2 _ (_ & c2 & E2 & Hs2 & _). eapply runs_mono; [by apply verify_key_runs|].
    intros r s3 H. eapply keeps_dev_trans; [exact Hs2|exact H|by destruct H|]. destruct r; [split; [done|eauto]|done|done].
  - intros e s2 (He & c2 & E2 & Hs2 & _). split; [done|]. by exists c2.
Qed.

Lemma init_dev_info_runs R `{!Kept R} c (s : St) :
  rs_ctx s = Some c ->
  runs R (init_dev_info multiple_write_fixed dev_id)
    (fun r s' => calm r /\ exists c', rs_ctx s' = Some c' /\ c_dev_id c' = c_dev_id c /\ (forall a, r = ROk a -> c_dev_info_synced c' = true)) s.
Proof.
  intros Hc. unfold init_dev_info.
  eapply runs_bind; [done|apply get_dev_info_runs; done| | |by intros s' [? _]].
  2: { intros e s' (? & ? & _). split; [done|]. exists c. split_and!; [congruence|done|done]. }
  intros i s1 _ (_ & E1 & Hi). specialize (Hi i eq_refl).
  eapply (runs_bind R _ _ (fun r s' => calm r /\ rs_ctx s' = Some c)); [by apply runs_guard; [done|intros _; split; [done|congruence]..]| | |by intros ? [? _]].
  2: { intros e s' [? ?]. split; [done|]. by exists c. }
  intros _ s2 _ [_ E2].
  assert (Hrange : forall x, 0 <= u16 x < 65536) by (intros; cint).
  eapply runs_bind; [done|apply (runs_upd_ctx R _ c); [done| |done]| |by intros ? ? [? _]|by intros ? [? _]].
  { intros [H1 H2]. split; [|exact H2]. intros Hd. split; [by apply H1|apply Hrange]. }
  intros _ s3 _ [_ E3].
  eapply (runs_bind R _ _ (fun r s' => calm r /\ rs_ctx s' = rs_ctx s3)); [by apply runs_guard| | |by intros ? [? _]].
  2: { intros e s' [? ?]. split; [done|]. eexists. split_and!; [by rewrite H0|done|done]. }
  intros _ s4 _ [_ E4].
  eapply runs_mono; [apply (runs_upd_ctx R _ (set_max_blk_idx (u16 (di_rpmb_size_mult i * (RPMB_SIZE_SINGLE / 256) - 1)) c)); [congruence| |by intros [? ?]]|].
  - intros [H1 H2]. split; [|exact H2]. intros _. split; [by intros ->|apply Hrange].
  - intros r s5 [-> E5]. split; [done|]. eexists. by split_and!.
Qed.

(** After a successful initialisation. *)
Record ready (s : St) (c : tee_rpmb_ctx) : Prop := {
  rdy_ctx : rs_ctx s = Some c;
  rdy_dead : rs_dead s = false;
  rdy_info : c_dev_info_synced c = true;
  rdy_id : c_dev_id c = dev_id;
  rdy_key : c_key_derived c = true;
  rdy_sync : in_sync c;
}.

Let init := tee_rpmb_init hmac_sha256 sha256_hash hw_unique_key multiple_write_fixed cfg_write_key plat_rpmb_key_is_ready.

(** Ends with a context that satisfies [P], or with an error. *)
Definition to_ctx (P : tee_rpmb_ctx -> Prop) (r : rres unit) (s' : St) : Prop :=
  calm r /\ (r = ROk tt -> exists c, rs_ctx s' = Some c /\ P c).

Lemma runs_ctx_bind R `{!Kept R} {A} (m : M St unit) (k : tee_rpmb_ctx -> M St A) P Q s :
  runs R m (to_ctx P) s ->
  (forall c s', run R s s' -> rs_ctx s' = Some c -> P c -> runs R (k c) Q s') ->
  (forall e s', e <> TEE_SUCCESS -> Q (RErr e) s') -> runs R (m ;; c ← ctx; k c) Q s.
Proof.
  intros Hm Hk He. eapply runs_bind; [done|exact Hm| |by intros e s' [? _]; apply He|by intros s' [? _]].
  intros [] s1 Hr1 [_ Hc]. destruct (Hc eq_refl) as (c & Ec & Pc).
  eapply runs_bind; [done|by apply (runs_ctx R c)| |by intros ? ? [? _]|by intros ? [? _]].
  intros c' s2 Hr2 [[= ->] E2]. apply Hk; [by etransitivity|done|done].
Qed.

Lemma init_ctx_runs R `{!Kept R} (s : St) : runs R (init_ctx dev_id) (to_ctx (fun c => c_dev_id c = dev_id)) s.
Proof.
  assert (Hz : forall s0 : St, ~ known s0 -> runs R (put_ctx zero_ctx) (to_ctx (fun _ => True)) s0).
  { intros s0 Hn. split; [split; [done|done|cbn; reflexivity| |done]|split; [done|eauto]]. intros _ c [= <-]. by split. }
  unfold init_ctx. eapply (runs_bind R _ _ (fun r s' => r = ROk (rs_ctx s) /\ s' = s)); [by split| |by intros ? ? [? _]|by intros ? [? _]].
  intros oc s' _ [[= ->] ->].
  eapply (runs_bind R _ _ (to_ctx (fun _ => True))); [| |by intros e s' [? _]|by intros ? [? _]].
  - destruct (rs_ctx s) as [c|] eqn:E.
    + destruct (Z.eqb_spec (c_dev_id c) dev_id) as [Hid|Hid]; cbn [negb].
      2: { apply Hz. intros (c' & Hc' & _ & Hk). congruence. }
      apply runs_ret; [done|]. split; [done|]. intros _. by exists c.
    + eapply runs_bind; [done|apply runs_quiet; [done|apply quietly_alloc_out]| |by intros e s' [_ ?]|by intros s' [_ ?]].
      intros _ s1 _ [E1 _]. apply Hz. intros (c' & Hc' & _). congruence.
  - intros [] s1 _ [_ Hc]. destruct (Hc eq_refl) as (c & Ec & _).
    eapply runs_mono; [apply (runs_upd_ctx R _ c); [done|by intros [? ?]|by intros [? ?]]|]. intros r s2 [-> E2]. split; [done|]. eauto.
Qed.

Lemma derive_quiet usage d n (s : St) :
  (n <= HUK_SUBKEY_MAX_LEN)%nat ->
  quietly (in_env (huk_subkey_derive hmac_sha256 hw_unique_key usage d n))
    (fun r => calm r /\ forall k, r = ROk k -> exists m, k = take n (hmac_sha256 hw_unique_key m)) s.
Proof.
  intros Hn. apply quietly_in_env. unfold huk_subkey_derive. rewrite (proj2 (Nat.leb_le _ _) Hn). cbn [guard_].
  change (wquiet (m_ret () ≫= fun _ => call_out ≫= fun _ => call_out ≫= fun _ => call_out ≫= fun _ =>
     for_each (fun _ => call_out) (huk_compat usage ++ match d with Some d => [d] | None => [] end) ≫= fun _ => call_out ≫= fun _ =>
     mret (take n (hmac_sha256 hw_unique_key (concat (huk_compat usage ++ match d with Some d => [d] | None => [] end)))))
    (fun r => calm r /\ forall k, r = ROk k -> exists m, k = take n (hmac_sha256 hw_unique_key m)) (rs_env s)).
  eapply (wquiet_bind _ _ calm); [by apply wquiet_ret|intros _ w1 _|done|done].
  do 3 (eapply wquiet_bind; [apply wquiet_call_out|intros _ ? _|by intros e ?|done]).
  eapply wquiet_bind; [apply wquiet_calls|intros _ w2 _|by intros e ?|done].
  eapply wquiet_bind; [apply wquiet_call_out|intros _ w3 _|by intros e ?|done].
  apply wquiet_ret. split; [done|]. intros k [= <-]. eauto.
Qed.

Lemma init_key_runs R `{!Kept R} c (s : St) :
  rs_ctx s = Some c -> ctx_known c ->
  runs R (init_key hmac_sha256 hw_unique_key) (to_ctx (fun c => ctx_known c /\ c_key_derived c = true)) s.
Proof.
  intros Hc Hi. unfold init_key, tee_rpmb_key_gen.
  eapply (runs_bind R _ _ (fun r s' => calm r /\ rs_ctx s' = Some c /\ forall k, r = ROk k -> exists m, k = take RPMB_KEY_MAC_SIZE (hmac_sha256 hw_unique_key m)));
    [| |by intros e s' [? _]|by intros s' [? _]].
  - eapply runs_bind; [done|by apply (runs_ctx R c)| |by intros ? ? [? _]|by intros ? [? _]]. intros c' s1 _ [[= ->] E1].
    eapply runs_mono; [apply runs_quiet; [done|by apply derive_quiet]|]. intros r s2 [E2 [Hr Hk]]. split_and!; [done|congruence|done].
  - intros k s1 _ (_ & E1 & Hk). destruct (Hk k eq_refl) as [m ->].
    eapply runs_mono; [apply (runs_upd_ctx R _ c); [done| |by intros [? ?]]|].
    + intros [H1 H2]. split; [exact H1|]. intros _. by exists m.
    + intros r s2 [-> E2]. split; [done|]. intros _. eexists. by split_and!.
Qed.

Lemma init_verify_runs R `{!Kept R} c (s : St) :
  rs_ctx s = Some c ->
  runs R (init_verify hmac_sha256 sha256_hash cfg_write_key plat_rpmb_key_is_ready dev_id) (keeps_dev c in_sync) s.
Proof.
  intros Hc. unfold init_verify.
  eapply runs_bind; [done|by apply runs_try, verify_key_runs| |done|by intros s' [? _]].
  intros [res|[]] s1 _ (Hr & c1 & E1 & Hs1 & Hy).
  - eapply runs_bind; [done|by apply (runs_ctx R c1)| |by intros ? ? [? _]|by intros ? [? _]]. intros c' s2 _ [[= ->] E2].
    destruct (_ && _).
    + eapply runs_mono; [by apply write_key_runs|]. intros r s3 H.
      eapply keeps_dev_trans; [exact Hs1|exact H|by destruct H|]. destruct r; [split; [done|eauto]|done|done].
    + apply runs_throw; [done|]. split; [done|]. by exists c1.
  - apply runs_ret; [done|]. split; [done|]. by exists c1.
Qed.

Lemma tee_rpmb_init_runs R `{!Kept R} (s : St) :
  runs R (init dev_id) (fun r s' => calm r /\ (r = ROk tt -> exists c, ready s' c)) s.
Proof.
  unfold init, tee_rpmb_init.
  eapply (runs_bind R _ _ (fun r s' => r = ROk (rs_dead s) /\ s' = s)); [by split| |by intros ? ? [? _]|by intros ? [? _]].
  intros dead s' _ [[= ->] ->].
  eapply (runs_bind R _ _ (fun r s' => calm r /\ (r = ROk tt -> rs_dead s = false))); [| |by intros e s' [? _]|by intros ? [? _]].
  { apply runs_guard; [done|intros H; split; [done|]; intros _; by apply negb_true_iff|done]. }
  intros [] s1 Hr1 [_ Hd]. specialize (Hd eq_refl). rewrite <- (run_dead _ _ _ Hr1) in Hd.
  eapply runs_ctx_bind; [done|apply init_ctx_runs; done| |done]. intros c1 s2 Hr2 E2 Hid.
  eapply (runs_ctx_bind R _ _ ctx_known); [| |done].
  { destruct (c_dev_info_synced c1) eqn:Es; [apply runs_ret; [done|]; split; [done|]; intros _; by exists c1|].
    eapply runs_mono; [by apply init_dev_info_runs|]. intros r s' (Hr & c' & Hc' & Hid' & Hi). split; [done|].
    intros ->. exists c'. split; [done|]. split; [by eapply Hi|congruence]. }
  intros c2 s3 Hr3 E3 Hi3.
  eapply (runs_ctx_bind R _ _ (fun c => ctx_known c /\ c_key_derived c = true)); [| |done].
  { destruct (c_key_derived c2) eqn:Ek; [apply runs_ret; [done|]; split; [done|]; intros _; eauto|]. by eapply init_key_runs. }
  intros c3 s4 Hr4 E4 [[Hi4 Hid4] Hk4].
  assert (Hd4 : rs_dead s4 = false) by (rewrite (run_dead _ _ _ Hr4), (run_dead _ _ _ Hr3), (run_dead _ _ _ Hr2); done).
  destruct (negb (c_wr_cnt_synced c3) || negb (c_key_verified c3)) eqn:Es.
  - pose proof (init_verify_runs R c3 s4 E4) as Hv. unfold runs in Hv |- *. eapply wp_mono; [exact Hv|].
    intros r s5 [Hr5 (Hr & c' & E5 & Hs & Hy)]. split; [done|]. split; [done|]. intros ->. exists c'.
    split; [done|by rewrite (run_dead _ _ _ Hr5)|by rewrite (sd_info _ _ Hs)|by rewrite (sd_id _ _ Hs)|by rewrite (sd_derived _ _ Hs)|done].
  - apply orb_false_iff in Es as [?%negb_false_iff ?%negb_false_iff]. apply runs_ret; [done|]. split; [done|]. intros _. by exists c3.
Qed.

(** The request for [n] blocks. *)
Definition read_request (dev_id blk_idx : Z) (nonce : bytes) (n : Z) : rpmb_req :=
  mk_req RPMB_CMD_DATA_REQ dev_id (Some n)
    [fill_frame (mk_raw RPMB_MSG_TYPE_REQ_AUTH_DATA_READ None (Some blk_idx) None (Some nonce) None None 0 0) (f_data zero_frame)].

(** How [data] was read: a nonce was drawn and sent, and the answer to this request passed
    the checks. *)
Definition fetched (addr len : Z) (key : option (bytes * bytes)) (data : bytes) (s : St) : Prop :=
  let blk_idx := u16 (addr / 256) in
  let off := addr mod 256 in
  let n := (len + off + 255) / 256 in
  exists c nonce wn wq wr,
    ready s c /\ (env_rng RPMB_NONCE_SIZE wn).1.1 = TEE_SUCCESS /\ nonce = as_bytes RPMB_NONCE_SIZE (env_rng RPMB_NONCE_SIZE wn).1.2 /\
    quiet (env_rng RPMB_NONCE_SIZE wn).2 wq /\
    env_invoke (read_request dev_id blk_idx nonce n) (Z.to_nat n * RPMB_DATA_FRAME_SIZE) wq = (TEE_SUCCESS, wr) /\
    quiet wr (rs_env s) /\
    accepted hmac_sha256 sha256_hash wr (rs_ssk s) (c_key c) key blk_idx nonce len off (Z.to_nat n) data.

Let read := tee_rpmb_read hmac_sha256 sha256_hash hw_unique_key multiple_write_fixed cfg_write_key plat_rpmb_key_is_ready.

Lemma runs_rng R `{!Kept R} n (s : St) :
  runs R (in_env (crypto_rng_read n)) (fun r s' => calm r /\ rs_ctx s' = rs_ctx s /\
    forall b, r = ROk b -> (env_rng n (rs_env s)).1.1 = TEE_SUCCESS /\ b = as_bytes n (env_rng n (rs_env s)).1.2 /\ rs_env s' = (env_rng n (rs_env s)).2) s.
Proof.
  unfold runs. apply wp_zoom. unfold wp, crypto_rng_read.
  assert (Hq : quiet (rs_env s) (env_rng n (rs_env s)).2) by (apply quiet_once; constructor).
  destruct (env_rng n (rs_env s)) as [[z b] w]. cbn in *. split.
  - split; [done|done|by apply kept_quiet| |]; [intros H c Hc; by apply H|intros (c & Hc & Hkn); by exists c].
  - split_and!; [by destruct (Z.eqb_spec z TEE_SUCCESS)|done|]. destruct (Z.eqb_spec z TEE_SUCCESS); [|done]. by intros b' [= <-].
Qed.

Lemma tee_rpmb_read_runs R `{!Kept R} addr len key (s : St) :
  0 < len -> len + addr mod 256 <= 65535 * 256 ->
  runs R (read dev_id addr len key) (fun r s' => calm r /\ forall d, r = ROk d -> fetched addr len key d s') s.
Proof.
  intros Hl Hlen. unfold read, tee_rpmb_read. assert (0 <= addr mod 256 < 256) as Ho by (apply Z.mod_pos_bound; lia).
  rewrite (u32_small (len + addr mod 256)), block_count_exact by (unfold is_u32; lia).
  rewrite (u32_small (len + addr mod 256 + 256)) by (unfold is_u32; lia).
  rewrite (proj2 (Z.eqb_neq len 0)), (proj2 (Z.leb_le 256 _)) by lia. cbn [negb guard_].
  eapply (runs_bind R _ _ (fun r s' => r = ROk tt)); [by apply runs_ret| |done|done]. intros _ s1 _ _.
  eapply (runs_bind R _ _ (fun r s' => r = ROk tt)); [by apply runs_ret| |done|done]. intros _ s2 _ _.
  eapply runs_bind; [done|apply tee_rpmb_init_runs; done| |by intros e s' [? _]|by intros s' [? _]].
  intros [] s3 Hr3 [_ Hrdy]. destruct (Hrdy eq_refl) as [c Hc]. clear Hrdy.
  eapply runs_bind; [done|apply runs_quiet; [done|apply quietly_alloc]| |by intros e s' [_ ?]|by intros s' [_ ?]].
  intros _ s4 Hr4 [E4 _].
  eapply runs_bind; [done|apply runs_rng; done| |by intros e s' [? _]|by intros s' [? _]].
  intros nonce s5 Hr5 (_ & E5 & Hn). destruct (Hn nonce eq_refl) as (Hz & Hnonce & Hw5). clear Hn.
  set (n := (len + addr mod 256 + 255) / 256).
  assert (Hc5 : rs_ctx s5 = Some c) by (rewrite E5, E4; by apply rdy_ctx).
  assert (Hd5 : rs_dead s5 = false) by (rewrite (run_dead _ _ _ Hr5), (run_dead _ _ _ Hr4); by eapply rdy_dead).
  assert (Hi5 : ctx_known c /\ c_key_derived c = true /\ in_sync c) by (by destruct Hc).
  clear Hr3 Hr4 Hr5 E4 E5 Hc. subst n. set (n := (len + addr mod 256 + 255) / 256).
  eapply runs_bind; [done|apply runs_qs; [done|by apply req_pack_spec]| |by intros e s' [_ ?]|by intros s' [_ ?]].
  intros rq s6 _ [Hq6 (_ & d & -> & ->)]. cbn [rq_cmd rq_dev_id rq_frames request_mac rd_key_mac].
  fold (read_request dev_id (u16 (addr / 256)) nonce n).
  eapply (runs_bind R _ _ (fun r s' => calm r /\ rs_ctx s' = rs_ctx s6 /\ rs_ssk s' = rs_ssk s6 /\ rs_dead s' = rs_dead s6 /\
      (r = ROk tt -> env_invoke (read_request dev_id (u16 (addr / 256)) nonce n) (Z.to_nat n * RPMB_DATA_FRAME_SIZE) (rs_env s6) = (TEE_SUCCESS, rs_env s'))));
    [| |by intros e s' [? _]|by intros s' [? _]].
  { apply runs_invoke_exact; [done|]. intros (f & Hf & Ht). apply list_elem_of_singleton in Hf as ->. vm_compute in Ht. done. }
  intros [] s7 _ (_ & E7 & F7 & D7 & Hinv). specialize (Hinv eq_refl).
  assert (Hc7 : rs_ctx s7 = Some c) by (rewrite E7, (qs_ctx _ _ Hq6); done).
  eapply runs_bind; [done|apply runs_qs; [done|apply (unpack_read _ _ _ _ _ _ _ _ _ c); [done|done|done|lia|]]| |by intros e s' [_ ?]|by intros s' [_ ?]].
  { subst n. Z.div_mod_to_equations; lia. }
  intros [[res wc] data] s8 _ [Hq8 Hacc]. unfold of_res; cbn [fst snd].
  destruct (Z.eqb_spec res TEE_SUCCESS) as [Hres|Hres]; [|by apply runs_throw].
  apply runs_ret; [done|]. split; [done|]. intros d' [= <-].
  exists c, nonce, (rs_env s4), (rs_env s6), (rs_env s7). split_and!; try done.
  - destruct Hi5 as ([? ?] & ? & ?). split; try done; [by rewrite (qs_ctx _ _ Hq8)|].
    by rewrite (qs_dead _ _ Hq8), D7, (qs_dead _ _ Hq6).
  - rewrite <- Hw5. apply (qs_env _ _ Hq6).
  - apply (qs_env _ _ Hq8).
  - rewrite (qs_ssk _ _ Hq8). by apply Hacc.
Qed.
End runs.
