(* ===== verification/RpmbWrite.v ===== *)
(** * The RPMB device: writing a block, whatever normal world answers

    The loop of [write_req]: which requests it sends, what it takes as an
    acknowledgement, and that an error that leaves the device in use means that nothing was
    sent. *)

From S2P Require Import Prelude ErrM Cipher CipherModes FsKey Rpmb RpmbSpec.
From stdpp Require Import base list relations.
From Stdlib Require Import ZArith Lia.

Local Open Scope Z_scope.

Section writes.
Context {W : Type} {RE : RpmbEnv W} {BC : BlockCipher} {BL : BlockCipherLaws BC}.
Context (hmac_sha256 : bytes -> bytes -> bytes) (sha256_hash : bytes -> bytes).

Local Notation St := (rpmb_state W).

(** The request that writes [out] to block [b] at count [wc]. *)
Definition write_raw (b wc : Z) (data : bytes) : rpmb_raw_data :=
  mk_raw RPMB_MSG_TYPE_REQ_AUTH_DATA_WRITE (Some 1) (Some b) (Some wc) None (Some []) (Some data) 0 0.
Definition write_request (mackey : bytes) (dev_id b wc : Z) (out : bytes) : rpmb_req :=
  mk_req RPMB_CMD_DATA_REQ dev_id None
    [request_mac hmac_sha256 mackey (write_raw b wc []) (fill_frame (write_raw b wc []) out)].

(** An answer that acknowledges it. *)
Definition acknowledged (w : W) (mackey : bytes) (b wc : Z) : Prop :=
  exists f mac, saw_frame w 0 f /\ saw w RPMB_STUFF_DATA_SIZE RPMB_KEY_MAC_SIZE mac /\
    mac = take RPMB_KEY_MAC_SIZE (hmac_sha256 mackey (mac_protected f)) /\
    get_op_result_bits (f_op_result f) = RPMB_RESULT_OK /\
    bytes_to_u16 (f_msg_type f) = RPMB_MSG_TYPE_RESP_AUTH_DATA_WRITE /\
    bytes_to_u16 (f_address f) = b /\ bytes_to_u32 (f_write_counter f) = u32 (wc + 1).

(** Only the counters of the context change. *)
Definition same_ctx (s s' : St) : Prop := forall c, rs_ctx s = Some c -> exists c', rs_ctx s' = Some c' /\ same_dev c c'.
#[global] Instance same_ctx_preorder : PreOrder same_ctx.
Proof.
  split; [intros s c Hc; by exists c|]. intros s1 s2 s3 H1 H2 c Hc.
  destruct (H1 c Hc) as (c1 & Hc1 & Hs1). destruct (H2 c1 Hc1) as (c2 & Hc2 & Hs2). exists c2. split; [done|by etransitivity].
Qed.

Record ack_step (s s' : St) : Prop := {
  as_ctx : same_ctx s s';
  as_dead : rs_dead s' = rs_dead s;
  as_ssk : rs_ssk s' = rs_ssk s;
  as_env : quiet (rs_env s) (rs_env s');
}.
#[global] Instance ack_step_preorder : PreOrder ack_step.
Proof. split; [intros s; by split|]. intros s1 s2 s3 [] []. split; [by etransitivity|congruence|congruence|by etransitivity]. Qed.

Lemma qs_ack s s' : qs s s' -> ack_step s s'.
Proof. intros [E D S Q]. split; try done. intros c Hc. exists c. by rewrite E. Qed.

Definition acks {A} (m : M St A) (P : rres A -> Prop) (s : St) : Prop := wp m (fun r s' => ack_step s s' /\ P r) s.

Lemma acks_quiet {A} (m : M St A) P s : quietly m P s -> acks m P s.
Proof. unfold quietly, acks. intros H. eapply wp_mono; [exact H|]. intros r s' [? ?]. split; [by apply qs_ack|done]. Qed.
Lemma acks_bind {A B} (m : M St A) (k : A -> M St B) P Q s :
  acks m P s -> (forall a s', ack_step s s' -> P (ROk a) -> acks (k a) Q s') ->
  (forall e, P (RErr e) -> Q (RErr e)) -> (P RPanic -> Q RPanic) -> acks (m ≫= k) Q s.
Proof.
  unfold acks. intros Hm Hk He Hp. eapply wp_seq; [exact Hm|]. intros [a|e|] s' [Hr Ha]; cbn; [|auto|auto].
  eapply wp_mono; [by apply Hk|]. intros r s2 [Hr2 ?]. split; [by etransitivity|done].
Qed.
Lemma acks_ret {A} (a : A) (P : rres A -> Prop) s : P (ROk a) -> acks (mret a) P s.
Proof. intros H. split; [reflexivity|done]. Qed.

Lemma unpack_ack b wc c (s : St) :
  rs_ctx s = Some c ->
  acks (tee_rpmb_resp_unpack_verify hmac_sha256 sha256_hash
          (mk_raw RPMB_MSG_TYPE_RESP_AUTH_DATA_WRITE (Some 1) (Some b) (Some wc) None (Some []) None 0 0) 1 None)
    (fun r => exists res wc' d, r = ROk (res, wc', d) /\ (res = TEE_SUCCESS -> acknowledged (rs_env s) (c_key c) b wc)) s.
Proof.
  intros Hc. unfold tee_rpmb_resp_unpack_verify. cbn [Nat.eqb rd_write_counter rd_msg_type rd_blk_idx rd_nonce rd_key_mac rd_data].
  assert (Hrej : forall (e : Z) (o : option Z) (s0 : St), e <> TEE_SUCCESS ->
    acks (mret (e, o, [])) (fun r : rres (Z * option Z * bytes) => exists res wc' d, r = ROk (res, wc', d) /\ (res = TEE_SUCCESS -> acknowledged (rs_env s) (c_key c) b wc)) s0).
  { intros e o s0 He. apply acks_ret. exists e, o, []. by split. }
  eapply acks_bind; [apply acks_quiet, quietly_shm_frame| | |]; [|by intros e (?&?&_)|by intros (?&?&_)].
  intros f s1 Ha1 (f' & [= <-] & Hf).
  destruct (get_op_result_bits (f_op_result f) =? RPMB_RESULT_AUTH_KEY_NOT_PROGRAMMED); [by apply Hrej|].
  destruct (Z.eqb_spec (get_op_result_bits (f_op_result f)) RPMB_RESULT_OK) as [Hop|]; cbn [negb]; [|by apply Hrej].
  destruct (Z.eqb_spec (bytes_to_u16 (f_msg_type f)) RPMB_MSG_TYPE_RESP_AUTH_DATA_WRITE) as [Hty|]; cbn [negb]; [|by apply Hrej].
  destruct (Z.eqb_spec (bytes_to_u16 (f_address f)) b) as [Had|]; cbn [negb]; [|by apply Hrej].
  cbn [fmap option_fmap option_map andb].
  destruct (Z.eqb_spec (bytes_to_u32 (f_write_counter f)) (u32 (wc + 1))) as [Hwc|]; cbn [negb]; [|by apply Hrej].
  destruct (as_ctx _ _ Ha1 c Hc) as (c1 & Hc1 & Hs1).
  eapply (acks_bind _ _ (fun r => r = ROk tt)); [| |done|done].
  { unfold acks, wp, upd_ctx, mbind, M_mbind, m_bind, ctx, put_ctx, modify. rewrite Hc1. cbn. split; [|done].
    split; [|done|done|cbn; reflexivity]. intros c' Hc'. eexists. split; [done|]. rewrite Hc1 in Hc'. simplify_eq. by split. }
  intros _ s2 Ha2 _. destruct (as_ctx _ _ Ha2 c1 Hc1) as (c2 & Hc2 & Hs2).
  rewrite Hty. cbn [Z.eqb].
  change (RPMB_MSG_TYPE_RESP_AUTH_DATA_WRITE =? RPMB_MSG_TYPE_RESP_AUTH_DATA_READ) with false. cbn match.
  change (guard_ (1 =? 1)%nat TEE_ERROR_GENERIC) with (mret tt : M St unit).
  eapply acks_bind; [apply acks_quiet, (quietly_try _ (fun r => calm r /\ forall x, r = ROk x -> x.1 = take RPMB_KEY_MAC_SIZE (hmac_sha256 (c_key c2) (mac_protected f))))| |done|by intros [? _]].
  { eapply (quietly_bind _ _ (fun r => r = ROk tt)); [by apply quietly_ret| |done|done]. intros _ s3 Hq3 _.
    eapply quietly_bind; [apply (quietly_mac_calc _ [f] c2); by rewrite (qs_ctx _ _ Hq3)| | |].
    - intros mac s4 _ Hm. apply quietly_ret.
      split; [done|]. intros x [= <-]. destruct Hm as [[= ->]|(e & ? & ?)]; [|done]. cbn. by rewrite app_nil_r.
    - intros e [?|(? & [= ->] & ?)]; done.
    - by intros [|(? & ? & ?)]. }
  intros [e|[mac d]] s3 Ha3 [Hcalm Hmac]; [by apply Hrej|]. specialize (Hmac _ eq_refl). cbn in Hmac. subst mac.
  eapply acks_bind; [apply acks_quiet, quietly_shm| | |]; [|by intros e (?&?&_)|by intros (?&?&_)].
  intros m s4 _ (m' & [= <-] & Hm). case_bool_decide as Hb; [|by apply Hrej]. subst m.
  rewrite (sd_key _ _ Hs2), (sd_key _ _ Hs1) in Hm.
  apply acks_ret. eexists _, _, _. split; [done|]. intros _. exists f. eexists. split_and!; try done.
  eapply saw_quiet; [|exact Hm]. etransitivity; [apply (as_env _ _ Ha1)|]. etransitivity; [apply (as_env _ _ Ha2)|apply (as_env _ _ Ha3)].
Qed.

(** ** The loop *)

Section loop.
Context (mackey : bytes) (dev_id b : Z) (ssk : tee_fs_ssk) (key : option (bytes * bytes)) (d : bytes).

(** Normal world may see write requests for this block with this data, and nothing else. *)
Inductive wstep : W -> W -> Prop :=
| ws_quiet w w' : quiet_step w w' -> wstep w w'
| ws_write w wc out : enciphered hmac_sha256 sha256_hash ssk key b d out ->
    wstep w (env_invoke (write_request mackey dev_id b wc out) RPMB_DATA_FRAME_SIZE w).2.

Lemma quiet_wsteps w w' : quiet w w' -> rtc wstep w w'.
Proof. apply rtc_mono. intros x y. apply ws_quiet. Qed.

(** One of the requests was acknowledged. *)
Definition written (w0 w1 : W) : Prop :=
  exists wq wr wc out, enciphered hmac_sha256 sha256_hash ssk key b d out /\ rtc wstep w0 wq /\
    env_invoke (write_request mackey dev_id b wc out) RPMB_DATA_FRAME_SIZE wq = (TEE_SUCCESS, wr) /\
    quiet wr w1 /\ acknowledged wr mackey b wc.

Lemma written_steps w0 w0' w1 : rtc wstep w0 w0' -> written w0' w1 -> written w0 w1.
Proof. intros Hs (wq & wr & wc & out & He & Hq & Hr). exists wq, wr, wc, out. split_and!; try apply Hr; [done|by etrans]. Qed.

(** How a call ends: acknowledged; given up, with the device marked dead; or, before the
    first request is sent ([fresh]), with an error and nothing changed. *)
Record outcome_of (fresh : bool) (s : St) (r : rres unit) (s' : St) : Prop := {
  oo_ctx : same_ctx s s';
  oo_ssk : rs_ssk s' = rs_ssk s;
  oo_env : rtc wstep (rs_env s) (rs_env s');
  oo_res : match r with
           | ROk _ => rs_dead s' = rs_dead s /\ written (rs_env s) (rs_env s')
           | RErr e => (e = TEE_ERROR_COMMUNICATION /\ rs_dead s' = true) \/ (fresh = true /\ e <> TEE_SUCCESS /\ qs s s')
           | RPanic => False
           end;
}.

Lemma outcome_after fresh s s1 r s' :
  same_ctx s s1 -> rs_ssk s1 = rs_ssk s -> rs_dead s1 = rs_dead s -> rtc wstep (rs_env s) (rs_env s1) ->
  outcome_of false s1 r s' -> outcome_of fresh s r s'.
Proof.
  intros Hc Hs Hd He [Hc' Hs' He' Hr]. split; [by etransitivity|congruence|by etrans|].
  destruct r as [a|e|]; [|destruct Hr as [?|[? _]]; [by left|done]|done].
  destruct Hr as [? Hw]. split; [congruence|]. by eapply written_steps.
Qed.

Lemma die_outcome fresh (s : St) : wp die (outcome_of fresh s) s.
Proof. split; [intros c Hc; by exists c|done|apply rtc_refl|by left]. Qed.

Lemma req_pack_write size wc c data (s : St) :
  rs_ctx s = Some c -> c_key c = mackey -> rs_ssk s = ssk -> (one_frame_size <= size)%nat -> slice 0 RPMB_DATA_SIZE data = d ->
  quietly (tee_rpmb_req_pack hmac_sha256 sha256_hash size (write_raw b wc data) 1 dev_id key)
    (fun r => calm r /\ forall rq, r = ROk rq -> exists out, rq = write_request mackey dev_id b wc out /\
                enciphered hmac_sha256 sha256_hash ssk key b d out) s.
Proof.
  intros Hc Hk Hs Hsz Hd. eapply quietly_mono; [by apply req_pack_spec|]. intros [rq|e|]; [|done|done].
  intros (_ & out & -> & Hf). split; [done|]. intros rq [= <-]. exists out. split; [by rewrite Hk|].
  unfold frame_data in Hf. cbn [rd_data write_raw rd_blk_idx or_else] in Hf. by rewrite Hd, Hs in Hf.
Qed.

Lemma wp_invoke rq n (s : St) Q :
  (forall w, env_invoke rq n (rs_env s) = (TEE_SUCCESS, w) -> Q (ROk tt) (mk_rs (rs_ctx s) (rs_dead s) (rs_ssk s) w)) ->
  (forall e w, env_invoke rq n (rs_env s) = (e, w) -> e <> TEE_SUCCESS -> Q (RErr e) (mk_rs (rs_ctx s) (rs_dead s) (rs_ssk s) w)) ->
  wp (tee_rpmb_invoke rq n) Q s.
Proof.
  intros H1 H2. unfold tee_rpmb_invoke. apply wp_zoom. unfold wp. destruct (env_invoke rq n (rs_env s)) as [z w].
  destruct (Z.eqb_spec z TEE_SUCCESS) as [->|]; cbn; auto.
Qed.

(** Another attempt, or the end. *)
Lemma again_outcome fresh tries size data wc (s s1 : St) :
  (forall wc (s : St) c, rs_ctx s = Some c -> c_key c = mackey -> rs_ssk s = ssk ->
     wp (write_req_loop hmac_sha256 sha256_hash tries size dev_id b data 1 key wc) (outcome_of false s) s) ->
  (exists c, rs_ctx s = Some c /\ c_key c = mackey) -> rs_ssk s = ssk ->
  same_ctx s s1 -> rs_ssk s1 = rs_ssk s -> rs_dead s1 = rs_dead s -> rtc wstep (rs_env s) (rs_env s1) ->
  wp (if (tries =? 0)%nat then die
      else upd_ctx (set_synced false) ;; write_req_loop hmac_sha256 sha256_hash tries size dev_id b data 1 key wc)
     (outcome_of fresh s) s1.
Proof.
  intros IH (c & Hc & Hk) Hs Hc1 Hs1 Hd1 He1. destruct (tries =? 0)%nat.
  { eapply wp_mono; [apply (die_outcome false)|]. intros r s'. by apply outcome_after. }
  destruct (Hc1 c Hc) as (c1 & E1 & Hsd). apply wp_bind.
  unfold wp at 1, upd_ctx, mbind, M_mbind, m_bind, ctx, put_ctx, modify. rewrite E1. cbn [fst snd cont].
  set (s2 := mk_rs _ _ _ _). eapply wp_mono; [apply (IH wc s2 (set_synced false c1)); [done| |by cbn; congruence]|].
  { cbn. by rewrite (sd_key _ _ Hsd). }
  intros r s'. apply outcome_after; [|done|done|done].
  intros c' Hc'. destruct (Hc1 c' Hc') as (c1' & E1' & Hsd'). rewrite E1 in E1'. simplify_eq.
  exists (set_synced false c1'). split; [done|]. etransitivity; [exact Hsd'|by split].
Qed.

Lemma write_req_loop_outcome tries size data wc c (s : St) :
  (tries <= RPMB_MAX_RETRIES)%nat ->
  rs_ctx s = Some c -> c_key c = mackey -> rs_ssk s = ssk -> (one_frame_size <= size)%nat -> slice 0 RPMB_DATA_SIZE data = d ->
  wp (write_req_loop hmac_sha256 sha256_hash tries size dev_id b data 1 key wc)
     (outcome_of (tries =? RPMB_MAX_RETRIES)%nat s) s.
Proof.
  intros Ht Hc Hk Hs Hsz Hd. revert wc c s Hc Hk Hs. induction tries as [|tries IH]; intros wc c s Hc Hk Hs; [apply die_outcome|].
  specialize (IH ltac:(lia)). replace (tries =? RPMB_MAX_RETRIES)%nat with false in IH by (symmetry; apply Nat.eqb_neq; lia).
  assert (Hag : forall wc (s1 : St), same_ctx s s1 -> rs_ssk s1 = rs_ssk s -> rs_dead s1 = rs_dead s -> rtc wstep (rs_env s) (rs_env s1) ->
     wp (if (tries =? 0)%nat then die
      else upd_ctx (set_synced false) ;; write_req_loop hmac_sha256 sha256_hash tries size dev_id b data 1 key wc)
     (outcome_of (S tries =? RPMB_MAX_RETRIES)%nat s) s1).
  { intros wc' s1. apply again_outcome; [|by exists c|done]. intros; by eapply IH. }
  cbn [write_req_loop]. set (fresh := (S tries =? RPMB_MAX_RETRIES)%nat) in *.
  eapply wp_seq; [apply quietly_try, (req_pack_write size wc c data); done|].
  intros [[e|rq]|e|] s1 [Hq1 H1]; cbn [cont]; [| |done|by destruct H1].
  { destruct H1 as [He _]. pose proof (as_ctx _ _ (qs_ack _ _ Hq1)) as Hc1. destruct fresh eqn:Hf.
    { apply wp_throw. split; [done|apply (qs_ssk _ _ Hq1)|apply quiet_wsteps, (qs_env _ _ Hq1)|by right]. }
    destruct Hq1 as [E1 D1 S1 W1]. destruct (tries =? 0)%nat;
      (eapply wp_mono; [first [apply (die_outcome false)|apply (IH wc c); congruence]|]); intros r s';
      (apply outcome_after; [done|done|done|by apply quiet_wsteps]). }
  destruct H1 as [_ H1]. destruct (H1 rq eq_refl) as (out & -> & Henc). clear H1.
  pose proof (as_ctx _ _ (qs_ack _ _ Hq1)) as Hc1. destruct Hq1 as [E1 D1 S1 W1].
  apply wp_bind, wp_try, wp_invoke.
  - intros w Hw. cbn [cont]. set (s2 := mk_rs _ _ _ w).
    assert (He2 : rtc wstep (rs_env s) w).
    { etrans; [by apply quiet_wsteps|]. apply rtc_once. replace w with (env_invoke (write_request mackey dev_id b wc out) RPMB_DATA_FRAME_SIZE (rs_env s1)).2 by (by rewrite Hw).
      by constructor. }
    eapply wp_seq; [apply (unpack_ack b wc c s2); cbn; congruence|].
    intros r s3 [Ha3 (res & wc' & dd & -> & Hack)]. cbn [cont].
    destruct (Z.eqb_spec res TEE_SUCCESS) as [Hres|Hres]; cbn [negb].
    + apply wp_ret. destruct Ha3 as [Hc3 D3 S3 W3]. split; [by etransitivity|by rewrite S3|by etrans; [exact He2|apply quiet_wsteps]|].
      split; [by rewrite D3|]. exists (rs_env s1), w, wc, out. split_and!; [done|by apply quiet_wsteps|done|done|].
      rewrite <- Hk. by apply Hack.
    + destruct Ha3 as [Hc3 D3 S3 W3]. apply Hag; [by etransitivity|by rewrite S3|by rewrite D3|by etrans; [exact He2|apply quiet_wsteps]].
  - intros e w Hw He. cbn [cont]. apply Hag; [done|done|done|]. etrans; [by apply quiet_wsteps|]. apply rtc_once.
    cbn [rs_env]. replace w with (env_invoke (write_request mackey dev_id b wc out) RPMB_DATA_FRAME_SIZE (rs_env s1)).2 by (by rewrite Hw).
    by constructor.
Qed.
End loop.
End writes.
