(* ===== verification/RpmbDev.v ===== *)
(** * The RPMB device as its file system sees it

    The functions of the lower half of [tee_rpmb_fs.c] that the upper half calls, and what
    they promise: the device is a list of blocks of 256 bytes, read and written in the clear for a
    given key; whatever fails, blocks are only changed one at a time and in the range
    that is written. *)

From S2P Require Import Prelude ErrM Cipher CipherModes FsKey Rpmb RpmbSpec.
From stdpp Require Import base list.
From Stdlib Require Import ZArith Lia.

Local Open Scope Z_scope.

(** The encrypted key of a file and the UUID of its TA; none for what is not encrypted. *)
Definition dkey : Type := option (bytes * bytes).

Class RpmbDev (S : Type) := {
  dev_read : Z -> Z -> dkey -> M S bytes;
  dev_write : Z -> bytes -> dkey -> M S unit;
  dev_get_write_counter : M S Z;
  dev_get_max_block : M S Z;
  dev_write_is_atomic : Z -> Z -> M S bool;
  dev_generate_fek : bytes -> M S bytes;
  dev_alloc : M S unit;
}.

(** The blocks that the bytes from [addr], [len] of them, touch. *)
Definition in_blocks (addr len : Z) (i : nat) : Prop := addr / 256 <= Z.of_nat i <= (addr + len - 1) / 256.

(** [d] in place of what is at [off]. *)
Definition splice (off : nat) (d l : bytes) : bytes := take off l ++ d ++ drop (off + length d) l.

Definition latest (h : list (list bytes)) : list bytes := default [] (last h).

(** What one write may leave on the device, where [m] was there before: *)
Record write_images (view : dkey -> list bytes -> list bytes) (addr : Z) (d : bytes) (k : dkey) (m : list bytes) (ms : list (list bytes)) : Prop := {
  (** other blocks are untouched in every image; *)
  wi_outside : forall m' i, m' ∈ ms -> ~ in_blocks addr (Z.of_nat (length d)) i -> m' !! i = m !! i;
  wi_length : forall m', m' ∈ ms -> length m' = length m;
  wi_wf : forall m', m' ∈ ms -> blocks_wf m';
  (** if only one block is concerned, it is written as a whole. *)
  wi_atomic : forall m', m' ∈ ms -> addr mod 256 + Z.of_nat (length d) <= 256 ->
    concat (view k m') = splice (Z.to_nat addr) d (concat (view k m));
}.

(** A call that writes nothing: the images and the state of the device stay as they are. *)
Record dev_same {S : Type} (inv ready : S -> Prop) (hist : S -> list (list bytes)) (dead : S -> bool) (s s' : S) : Prop := mk_dev_same {
  ds_inv : inv s';
  ds_ready : ready s -> ready s';
  ds_hist : hist s' = hist s;
  ds_dead : dead s' = dead s;
}.

(** [dl_hist]: the images the device has had, the last one is the present one. [dl_dead]:
    the device is not used any more, what it holds may not be what was last acknowledged. *)
Class RpmbDevLaws (S : Type) {DV : RpmbDev S} := {
  dl_inv : S -> Prop;
  dl_ready : S -> Prop;
  dl_hist : S -> list (list bytes);
  dl_dead : S -> bool;
  dl_view : dkey -> list bytes -> list bytes;

  dl_view_none m : dl_view None m = m;
  dl_view_length k m : length (dl_view k m) = length m;
  dl_view_block k m m' i : m !! i = m' !! i -> dl_view k m !! i = dl_view k m' !! i;
  dl_view_wf k m : blocks_wf m -> blocks_wf (dl_view k m);

  dl_nonempty s : dl_inv s -> dl_hist s <> [];
  dl_wf s : dl_inv s -> blocks_wf (latest (dl_hist s));

  dl_read addr len k s :
    dl_inv s -> 0 <= addr -> 0 < len -> addr + len <= 65535 * 256 ->
    wp (dev_read addr len k) (fun r s' => dev_same dl_inv dl_ready dl_hist dl_dead s s' /\ calm r /\
      forall d, r = ROk d -> dl_ready s' /\ dl_dead s = false /\ (Z.to_nat (addr + len) <= 256 * length (latest (dl_hist s)))%nat /\
                d = slice (Z.to_nat addr) (Z.to_nat len) (concat (dl_view k (latest (dl_hist s))))) s;
  dl_write addr d k s :
    dl_inv s -> 0 <= addr -> d <> [] -> Forall is_byte d -> addr + Z.of_nat (length d) <= 65535 * 256 ->
    wp (dev_write addr d k) (fun r s' => dl_inv s' /\ (dl_ready s -> dl_ready s') /\ calm r /\
      (dl_dead s = true -> dl_dead s' = true /\ dl_hist s' = dl_hist s) /\
      exists ms, dl_hist s' = dl_hist s ++ ms /\
      write_images dl_view addr d k (latest (dl_hist s)) ms /\
      (r = ROk tt -> dl_ready s' /\ dl_dead s' = false /\ (Z.to_nat addr + length d <= 256 * length (latest (dl_hist s)))%nat /\
                     concat (dl_view k (latest (dl_hist s'))) = splice (Z.to_nat addr) d (concat (dl_view k (latest (dl_hist s))))) /\
      (forall e, r = RErr e -> addr mod 256 + Z.of_nat (length d) <= 256 -> dl_dead s' = true \/ ms = [])) s;
  dl_counter s :
    dl_inv s -> wp dev_get_write_counter (fun r s' => dev_same dl_inv dl_ready dl_hist dl_dead s s' /\ calm r) s;
  dl_max_block s :
    dl_inv s -> wp dev_get_max_block (fun r s' => dev_same dl_inv dl_ready dl_hist dl_dead s s' /\ calm r /\
      forall x, r = ROk x -> is_u16 x) s;
  dl_atomic addr len s :
    dl_inv s -> dl_ready s -> 0 < len -> addr + len <= 65535 * 256 -> 0 <= addr ->
    dev_write_is_atomic addr len s = (ROk (addr mod 256 + len <=? 256), s);
  dl_fek uuid s :
    dl_inv s -> wp (dev_generate_fek uuid) (fun r s' => dev_same dl_inv dl_ready dl_hist dl_dead s s' /\ calm r /\
      forall k, r = ROk k -> length k = TEE_FS_KM_FEK_SIZE /\ Forall is_byte k) s;
  dl_alloc s :
    dl_inv s -> wp dev_alloc (fun r s' => dev_same dl_inv dl_ready dl_hist dl_dead s s' /\ calm r) s;
}.
