(* ===== verification/RpmbBlocks.v ===== *)
(** * Blocks and bytes

    A device is a list of blocks of 256 bytes, the file system sees bytes at addresses: lemmas on
    [concat], on parts of a list of bytes ([slice]) and on their replacement ([splice]). *)

From S2P Require Import Prelude ErrM Cipher CipherModes FsKey Rpmb RpmbSpec RpmbDev.
From stdpp Require Import base list.
From Stdlib Require Import ZArith Lia.

Local Open Scope Z_scope.

Lemma latest_app h m : latest (h ++ [m]) = m.
Proof. unfold latest. by rewrite last_snoc. Qed.

Lemma concat_drop_blocks m i : blocks_wf m -> concat (drop i m) = drop (i * 256) (concat m).
Proof.
  intros Hm. revert i. induction Hm as [|b m [Hb _] Hm IH]; intros i; [cbn; by rewrite !drop_nil|].
  destruct i as [|i]; [done|]. cbn [drop concat]. rewrite IH.
  rewrite drop_app_ge by (rewrite Hb; unfold RPMB_DATA_SIZE; lia). f_equal. rewrite Hb. unfold RPMB_DATA_SIZE. lia.
Qed.

Lemma concat_take_blocks m i : blocks_wf m -> concat (take i m) = take (i * 256) (concat m).
Proof.
  intros Hm. revert i. induction Hm as [|b m [Hb _] Hm IH]; intros i; [cbn; by rewrite !take_nil|].
  destruct i as [|i]; [done|]. cbn [take concat]. rewrite IH.
  rewrite take_app_ge by (rewrite Hb; unfold RPMB_DATA_SIZE; lia). f_equal. f_equal. rewrite Hb. unfold RPMB_DATA_SIZE. lia.
Qed.

Lemma blocks_wf_insert m i b : blocks_wf m -> length b = RPMB_DATA_SIZE -> Forall is_byte b -> blocks_wf (<[i := b]> m).
Proof. intros Hm Hl Hb. by apply Forall_insert. Qed.

(** Replacing a block replaces its bytes. *)
Lemma concat_insert_block m i b :
  blocks_wf m -> (i < length m)%nat -> length b = RPMB_DATA_SIZE -> concat (<[i := b]> m) = splice (i * 256) b (concat m).
Proof.
  intros Hm Hi Hb. rewrite insert_take_drop by done. rewrite concat_app. cbn [concat]. unfold splice.
  rewrite concat_take_blocks, concat_drop_blocks by done. f_equal. f_equal. f_equal. rewrite Hb. unfold RPMB_DATA_SIZE. lia.
Qed.

Lemma splice_length off d l : (off + length d <= length l)%nat -> length (splice off d l) = length l.
Proof. intros. unfold splice. rewrite !length_app, length_take, length_drop. lia. Qed.

(** Adjacent pieces. *)
Lemma splice_at_splice off d1 d2 l :
  (off + length d1 + length d2 <= length l)%nat ->
  splice (off + length d1) d2 (splice off d1 l) = splice off (d1 ++ d2) l.
Proof.
  intros Hl. unfold splice. rewrite !length_app.
  assert (Ht : length (take off l) = off) by (rewrite length_take; lia).
  rewrite (take_app_ge (take off l)) by lia. rewrite Ht, Nat.add_sub_swap, Nat.sub_diag by lia. cbn [Nat.add].
  rewrite take_app_length. rewrite (drop_app_ge (take off l)) by lia. rewrite Ht.
  rewrite (drop_app_ge d1) by lia. rewrite drop_drop, <- !app_assoc. do 4 f_equal. lia.
Qed.

(** A part of a part. *)
Lemma splice_within a n off d l :
  (a + n <= length l)%nat -> (off + length d <= n)%nat -> splice a (splice off d (slice a n l)) l = splice (a + off) d l.
Proof.
  intros Hn Ho. assert (Hs : length (slice a n l) = n) by (by apply slice_length).
  unfold splice at 1. rewrite splice_length by lia. rewrite Hs. unfold splice, slice.
  rewrite take_take, Nat.min_l, <- !app_assoc, app_assoc by lia. rewrite (take_take_drop l a off). f_equal. f_equal.
  rewrite skipn_firstn_comm, drop_drop.
  rewrite <- (take_drop (n - (off + length d)) (drop (a + off + length d) l)), drop_drop.
  f_equal; [|f_equal; lia]. f_equal. f_equal. lia.
Qed.

Lemma slice_slice (l : bytes) a n off len : (off + len <= n)%nat -> slice off len (take n (drop a l)) = slice (a + off) len l.
Proof.
  intros H. unfold slice. rewrite skipn_firstn_comm, take_take, drop_drop. f_equal. lia.
Qed.


(** ** One byte *)

Lemma lookup_slice (off n : nat) (l : list Z) x : (slice off n l : list Z) !! x = if decide (x < n)%nat then l !! (off + x)%nat else None.
Proof.
  unfold slice. case_decide; [by rewrite lookup_take_lt, lookup_drop|]. apply lookup_take_ge. lia.
Qed.

Lemma lookup_splice off (d l : list Z) x :
  (off <= length l)%nat ->
  (splice off d l : list Z) !! x = if decide (off <= x < off + length d)%nat then d !! (x - off)%nat else l !! x.
Proof.
  intros Hl. unfold splice. assert (Ht : length (take off l) = off) by (rewrite length_take; lia).
  destruct (decide (x < off)%nat) as [Hx|Hx].
  - rewrite lookup_app_l by lia. rewrite lookup_take_lt by done. by rewrite decide_False by lia.
  - rewrite lookup_app_r, Ht by lia. case_decide.
    + by rewrite lookup_app_l by lia.
    + rewrite lookup_app_r by lia. rewrite lookup_drop. f_equal. lia.
Qed.

Lemma lookup_concat_blocks (m : list (list Z)) x : blocks_wf m -> (concat m : list Z) !! x = m !! (x / 256)%nat ≫= (.!! (x mod 256)%nat).
Proof.
  intros Hm. revert x. induction Hm as [|b m [Hb _] Hm IH]; intros x; [done|]. cbn [concat]. unfold RPMB_DATA_SIZE in Hb.
  destruct (decide (x < 256)%nat).
  - rewrite lookup_app_l by lia. by rewrite Nat.div_small, Nat.mod_small.
  - rewrite lookup_app_r, Hb by lia. rewrite IH.
    pose proof (Nat.div_mod_eq x 256). pose proof (Nat.mod_upper_bound x 256).
    replace (x / 256)%nat with (S ((x - 256) / 256)) by (apply (Nat.div_unique x 256 _ ((x - 256) mod 256)%nat);
      [apply Nat.mod_upper_bound; lia|pose proof (Nat.div_mod_eq (x - 256) 256); lia]).
    cbn [lookup list_lookup]. replace (x mod 256)%nat with ((x - 256) mod 256)%nat; [done|].
    apply (Nat.mod_unique x 256 (S ((x - 256) / 256))); [apply Nat.mod_upper_bound; lia|pose proof (Nat.div_mod_eq (x - 256) 256); lia].
Qed.

(** ** Parts of a device *)

Lemma blocks_eq a b : blocks_wf a -> blocks_wf b -> concat a = concat b -> a = b.
Proof.
  intros Ha. revert b. induction Ha as [|x a [Hx _] Ha IH]; intros b Hb E.
  - destruct Hb as [|y b [Hy _] _]; [done|]. cbn in E. destruct y; [|done]. done.
  - destruct Hb as [|y b [Hy _] Hb]; [cbn in E; destruct x; done|]. cbn in E. apply app_inj_1 in E as [-> E]; [|congruence].
    f_equal. by apply IH.
Qed.

Lemma slice_block m i b : blocks_wf m -> m !! i = Some b -> slice (i * 256) 256 (concat m) = b.
Proof.
  intros Hm Hi. unfold slice. rewrite <- concat_drop_blocks by done. rewrite (drop_S _ _ _ Hi). cbn [concat].
  destruct (Forall_lookup_1 _ _ _ _ Hm Hi) as [Hb _]. change 256%nat with RPMB_DATA_SIZE. rewrite <- Hb. by rewrite take_app_length.
Qed.

(** The bytes of a range depend on its blocks only. *)
Lemma slice_ext m m' addr len :
  blocks_wf m -> blocks_wf m' -> 0 <= addr ->
  (forall i, in_blocks addr len i -> m !! i = m' !! i) ->
  slice (Z.to_nat addr) (Z.to_nat len) (concat m) = slice (Z.to_nat addr) (Z.to_nat len) (concat m').
Proof.
  intros Hm Hm' Ha He. apply list_eq. intros x. rewrite !lookup_slice. case_decide as Hx; [|done].
  rewrite !lookup_concat_blocks by done. rewrite He; [done|]. unfold in_blocks.
  rewrite Nat2Z.inj_div, Nat2Z.inj_add, Z2Nat.id by lia. split; apply Z.div_le_mono; lia.
Qed.

(** Where two ranges have no block in common. *)
Lemma slice_splice_same off (d l : bytes) : (off + length d <= length l)%nat -> slice off (length d) (splice off d l) = d.
Proof.
  intros Hl. apply list_eq. intros x. rewrite lookup_slice. case_decide as Hx.
  - rewrite lookup_splice, decide_True by lia. f_equal. lia.
  - symmetry. apply lookup_ge_None. lia.
Qed.

Lemma splice_bytes off (d l : bytes) : Forall is_byte d -> Forall is_byte l -> Forall is_byte (splice off d l).
Proof. intros Hd Hl. unfold splice. rewrite !Forall_app. split_and!; [by apply bytes_take|done|by apply bytes_drop]. Qed.
