(* ===== verification/RpmbLog.v ===== *)
(** * Write requests, and what a chip makes of them

    A signed write request names a block, a count and the data. The images a chip goes through when it
    carries out requests one by one. *)

From S2P Require Import Prelude ErrM Cipher CipherModes FsKey Rpmb RpmbSpec RpmbDev RpmbBlocks.
From stdpp Require Import base list sets.
From Stdlib Require Import ZArith Lia.

Local Open Scope Z_scope.

Record wreq := mk_wreq { q_block : Z; q_count : Z; q_data : bytes }.

Definition put_block (m : list bytes) (x : wreq) : list bytes := <[Z.to_nat (q_block x) := q_data x]> m.

(** The images after each of the requests. *)
Fixpoint images (m : list bytes) (l : list wreq) : list (list bytes) :=
  match l with [] => [] | x :: l => put_block m x :: images (put_block m x) l end.

Definition carry (m : list bytes) (l : list wreq) : list bytes := foldl put_block m l.

Lemma images_app m l l' : images m (l ++ l') = images m l ++ images (carry m l) l'.
Proof. revert m. induction l as [|x l IH]; intros m; [done|]. cbn. by rewrite IH. Qed.

Lemma latest_images h l : latest (h ++ images (latest h) l) = carry (latest h) l.
Proof.
  induction l as [|x l _] using rev_ind; [by rewrite app_nil_r|].
  rewrite images_app, app_assoc. cbn [images]. rewrite latest_app. unfold carry. by rewrite foldl_app.
Qed.

(** Each image comes of some of the requests, at least one. *)
Lemma elem_of_images m l m' : m' ∈ images m l -> exists l1 l2, l = l1 ++ l2 /\ l1 <> [] /\ m' = carry m l1.
Proof.
  revert m. induction l as [|x l IH]; intros m; cbn; [by intros ?%elem_of_nil|]. intros [->|H]%elem_of_cons.
  - by exists [x], l.
  - destruct (IH _ H) as (l1 & l2 & -> & _ & ->). by exists (x :: l1), l2.
Qed.

Lemma carry_length m l : length (carry m l) = length m.
Proof. revert m. induction l as [|x l IH]; intros m; [done|]. cbn. unfold carry in IH. rewrite IH. apply length_insert. Qed.

(** ** Requests that write the right data *)

Section right.
Context (right : nat -> bytes -> Prop).

(** The request writes a block with data that is right for it. *)
Definition good_req (x : wreq) : Prop := exists b, q_block x = Z.of_nat b /\ right b (q_data x).

Lemma carry_wf m l : blocks_wf m -> Forall good_req l -> (forall b d, right b d -> length d = RPMB_DATA_SIZE /\ Forall is_byte d) -> blocks_wf (carry m l).
Proof.
  intros Hm Hl Hr. revert m Hm. induction Hl as [|x l (b & Hb & Hx) Hl IH]; intros m Hm; [done|].
  apply IH. destruct (Hr _ _ Hx). by apply blocks_wf_insert.
Qed.

(** A block is as it was, or as one of the requests for it says. *)
Lemma carry_lookup m l b :
  Forall good_req l ->
  ((forall x, x ∈ l -> q_block x <> Z.of_nat b) -> carry m l !! b = m !! b) /\
  (forall x, x ∈ l -> q_block x = Z.of_nat b -> (b < length m)%nat -> exists d, right b d /\ carry m l !! b = Some d).
Proof.
  intros Hl. induction l as [|y l IH] using rev_ind; [split; [done|by intros x ?%elem_of_nil]|].
  apply Forall_app in Hl as [Hl (c & Hc & Hy)%Forall_singleton]. specialize (IH Hl). destruct IH as [IH1 IH2].
  unfold carry. rewrite foldl_app. fold (carry m l). cbn [foldl]. unfold put_block. rewrite Hc, Nat2Z.id. split.
  - intros Hn. assert (c <> b) by (intros ->; apply (Hn y); [apply elem_of_app; right; by apply list_elem_of_singleton|done]).
    rewrite list_lookup_insert_ne by done. apply IH1. intros x Hx. apply Hn, elem_of_app. by left.
  - intros x Hx Hb Hlt. destruct (decide (c = b)) as [->|Hne].
    + exists (q_data y). split; [done|]. apply list_lookup_insert_eq. by rewrite carry_length.
    + rewrite list_lookup_insert_ne by done. apply elem_of_app in Hx as [Hx| ->%list_elem_of_singleton]; [by eapply IH2|].
      rewrite Hc in Hb. lia.
Qed.
End right.

Lemma good_req_mono (R R' : nat -> bytes -> Prop) x : (forall b d, R b d -> R' b d) -> good_req R x -> good_req R' x.
Proof. intros H (b & Hb & Hx). exists b. auto. Qed.

(** ** Counts that were used *)

(** A chip carries out at most one request for a count. *)
Definition used (l : list wreq) : list Z := q_count <$> l.

(** Every request that was signed has a count that was used: none can be carried out any more. *)
Definition settled (sent carried : list wreq) : Prop := forall x, x ∈ sent -> q_count x ∈ used carried.

(** When nothing signed before can be carried out, what is carried out was signed since. *)
Lemma new_done sent carried sn dn :
  settled sent carried -> NoDup (used (carried ++ dn)) -> (forall x, x ∈ dn -> x ∈ sent ++ sn) -> forall x, x ∈ dn -> x ∈ sn.
Proof.
  intros Hs Hn Hd x Hx. destruct (proj1 (elem_of_app _ _ _) (Hd x Hx)) as [Hin|Hin]; [|done].
  exfalso. unfold used in *. rewrite fmap_app, NoDup_app in Hn. destruct Hn as (_ & Hn & _).
  apply (Hn (q_count x) (Hs x Hin)). by apply list_elem_of_fmap_2.
Qed.
