(* ===== verification/RpmbDevice.v ===== *)
(** * The RPMB device behind the frames

    [RpmbDevice]: what is relied on of the chip (documented in JESD84-B51) whatever normal world passes on to it.
    Answers to reads that carry a valid MAC and the nonce of the request come from the chip; it only carries
    out requests that were signed, each as a whole and at most one for each count, and an acknowledgement for
    a block and a count means that some signed request for them was carried out. [PromptWorld]: normal world, besides, holds
    back neither requests nor acknowledgements, which the code cannot enforce; then the code of [Rpmb] keeps the promises
    of [RpmbDev] to the file system. What it promises without that is in [RpmbDevWrite]. *)

From S2P Require Import Prelude ErrM Cipher CipherModes FsKey Rpmb RpmbSpec RpmbWrite RpmbDev RpmbBlocks RpmbLog.
From stdpp Require Import base list sets relations.
From Stdlib Require Import ZArith Lia.

Local Open Scope Z_scope.

(** A key that is derived from the hardware key. *)
Definition rpmb_key (hmac_sha256 : bytes -> bytes -> bytes) (hw_unique_key m : bytes) : bytes :=
  take RPMB_KEY_MAC_SIZE (hmac_sha256 hw_unique_key m).

(** [dv_hist]: the images the chip has had; [dv_sent]: the write requests that were signed; [dv_done]: those it has
    carried out. It may be asked to write at any write request what was signed before. *)
Class RpmbDevice (W : Type) {RE : RpmbEnv W} (hmac_sha256 : bytes -> bytes -> bytes) (hw_unique_key : bytes) := {
  dv_hist : W -> list (list bytes);
  dv_sent : W -> list wreq;
  dv_done : W -> list wreq;
  dv_nonempty w : dv_hist w <> [];
  dv_wf w : blocks_wf (latest (dv_hist w));
  dv_quiet w w' : quiet_step w w' -> dv_hist w' = dv_hist w;
  dv_quiet_log w w' : quiet_step w w' -> dv_sent w' = dv_sent w /\ dv_done w' = dv_done w;
  dv_other rq n w : ~ writes rq -> dv_hist (env_invoke rq n w).2 = dv_hist w;
  dv_other_log rq n w : ~ writes rq -> dv_sent (env_invoke rq n w).2 = dv_sent w /\ dv_done (env_invoke rq n w).2 = dv_done w;
  dv_write mackey dev_id b wc out w w' :
    is_u16 b -> w' = (env_invoke (write_request hmac_sha256 mackey dev_id b wc out) RPMB_DATA_FRAME_SIZE w).2 ->
    dv_sent w' = dv_sent w ++ [mk_wreq b (u32 wc) out] /\
    exists l, dv_done w' = dv_done w ++ l /\ dv_hist w' = dv_hist w ++ images (latest (dv_hist w)) l /\
      forall x, x ∈ l -> x ∈ dv_sent w' /\ (Z.to_nat (q_block x) < length (latest (dv_hist w)))%nat;
  dv_once w : NoDup (used (dv_done w));
  dv_read_auth m dev_id b nonce n size w w' frames lastfrm mac :
    env_invoke (read_request dev_id b nonce (Z.of_nat n)) size w = (TEE_SUCCESS, w') ->
    length frames = n -> saw_frames w' 0 frames -> last frames = Some lastfrm ->
    saw w' ((n - 1) * RPMB_DATA_FRAME_SIZE + RPMB_STUFF_DATA_SIZE) RPMB_KEY_MAC_SIZE mac ->
    mac = take RPMB_KEY_MAC_SIZE (hmac_sha256 (rpmb_key hmac_sha256 hw_unique_key m) (concat (map mac_protected frames))) ->
    get_op_result_bits (f_op_result lastfrm) = RPMB_RESULT_OK ->
    bytes_to_u16 (f_msg_type lastfrm) = RPMB_MSG_TYPE_RESP_AUTH_DATA_READ ->
    bytes_to_u16 (f_address lastfrm) = b -> f_nonce lastfrm = nonce ->
    map f_data frames = take n (drop (Z.to_nat b) (latest (dv_hist w)));
  dv_ack m dev_id b wc out w w' :
    env_invoke (write_request hmac_sha256 (rpmb_key hmac_sha256 hw_unique_key m) dev_id b wc out) RPMB_DATA_FRAME_SIZE w = (TEE_SUCCESS, w') ->
    acknowledged hmac_sha256 w' (rpmb_key hmac_sha256 hw_unique_key m) b wc ->
    exists out', mk_wreq b (u32 wc) out' ∈ dv_done w';
}.

(** A normal world that passes a request on at once or never, and of the acknowledgements the one for the request. *)
Class PromptWorld (W : Type) {RE : RpmbEnv W} (hmac_sha256 : bytes -> bytes -> bytes) (hw_unique_key : bytes)
    {DEV : RpmbDevice W hmac_sha256 hw_unique_key} := {
  pw_commit mackey dev_id b wc out w w' :
    is_u16 b -> w' = (env_invoke (write_request hmac_sha256 mackey dev_id b wc out) RPMB_DATA_FRAME_SIZE w).2 ->
    dv_hist w' = dv_hist w \/
    (Z.to_nat b < length (latest (dv_hist w)))%nat /\ dv_hist w' = dv_hist w ++ [<[Z.to_nat b := out]> (latest (dv_hist w))];
  pw_ack m dev_id b wc out w w' :
    env_invoke (write_request hmac_sha256 (rpmb_key hmac_sha256 hw_unique_key m) dev_id b wc out) RPMB_DATA_FRAME_SIZE w = (TEE_SUCCESS, w') ->
    acknowledged hmac_sha256 w' (rpmb_key hmac_sha256 hw_unique_key m) b wc ->
    (Z.to_nat b < length (latest (dv_hist w)))%nat /\ latest (dv_hist w') = <[Z.to_nat b := out]> (latest (dv_hist w));
}.

(** ** The blocks in the clear *)

Section view.
Context {BC : BlockCipher} {BL : BlockCipherLaws BC}.
Context (hmac_sha256 : bytes -> bytes -> bytes) (sha256_hash : bytes -> bytes) (ssk : tee_fs_ssk).

Local Notation plain := (plain hmac_sha256 sha256_hash ssk).
Local Notation plains := (plains hmac_sha256 sha256_hash ssk).

Definition clear (k : dkey) (i : nat) (b : bytes) : bytes := default b (plain k (Z.of_nat i) b).
Definition view (k : dkey) (m : list bytes) : list bytes := imap (clear k) m.

Lemma view_none m : view None m = m.
Proof. unfold view. apply list_eq. intros i. rewrite list_lookup_imap. by destruct (m !! i). Qed.
Lemma view_length k m : length (view k m) = length m.
Proof. apply length_imap. Qed.
Lemma view_lookup k m i : view k m !! i = clear k i <$> m !! i.
Proof. apply list_lookup_imap. Qed.
Lemma view_wf k m : blocks_wf m -> blocks_wf (view k m).
Proof.
  intros Hm. apply Forall_lookup. intros i b. rewrite view_lookup. destruct (m !! i) as [x|] eqn:Hx; [|done]. cbn. intros [= <-].
  destruct (Forall_lookup_1 _ _ _ _ Hm Hx) as [Hl Hb]. unfold clear.
  destruct (plain k (Z.of_nat i) x) as [p|] eqn:Hp; [|done]. cbn. apply plain_bytes in Hp as [Hp1 Hp2]; [|done]. by rewrite Hp1.
Qed.

Lemma plains_lookup k idx bl ps i b :
  plains k idx bl = Some ps -> bl !! i = Some b -> exists p, ps !! i = Some p /\ plain k (idx + Z.of_nat i) b = Some p.
Proof.
  revert idx ps i. induction bl as [|x bl IH]; intros idx ps i; cbn; [done|].
  destruct (plain k idx x) as [p|] eqn:Hp; [|done]. cbn. destruct (plains k (idx + 1) bl) as [ps'|] eqn:Hps; [|done].
  intros [= <-]. destruct i as [|i]; cbn.
  - intros [= <-]. exists p. by rewrite Z.add_0_r.
  - intros Hi. destruct (IH _ _ _ Hps Hi) as (q & ? & Hq). exists q. split; [done|].
    rewrite <- Hq. f_equal. lia.
Qed.

(** Blocks that were deciphered are those of the view. *)
Lemma plains_view k b n m ps :
  plains k (Z.of_nat b) (take n (drop b m)) = Some ps -> blocks_wf m -> take n (drop b (view k m)) = ps.
Proof.
  intros Hps Hm.
  assert (Hlen : length ps = length (take n (drop b m))).
  { eapply (plains_wf _ _ _ _ _ _ _ Hps). apply Forall_take, Forall_drop, Hm. }
  apply list_eq. intros i. destruct (decide (i < n)%nat) as [Hi|Hi].
  - rewrite lookup_take_lt, lookup_drop, view_lookup by done. destruct (m !! (b + i)%nat) as [x|] eqn:Hx; cbn.
    + destruct (plains_lookup _ _ _ _ i x Hps) as (p & Hp & Hpl); [by rewrite lookup_take_lt, lookup_drop|].
      rewrite Hp. f_equal. unfold clear. replace (Z.of_nat (b + i)) with (Z.of_nat b + Z.of_nat i) by lia. by rewrite Hpl.
    + symmetry. apply lookup_ge_None. rewrite Hlen, length_take, length_drop. apply lookup_ge_None in Hx. lia.
  - rewrite lookup_take_ge by lia. symmetry. apply lookup_ge_None. rewrite Hlen, length_take. lia.
Qed.

Lemma enciphered_plain k b d out :
  enciphered hmac_sha256 sha256_hash ssk k b d out -> length d = RPMB_DATA_SIZE -> Forall is_byte d ->
  plain k b out = Some d /\ length out = RPMB_DATA_SIZE /\ Forall is_byte out.
Proof.
  unfold enciphered. destruct k as [[fek uuid]|]; cbn; [|by intros ->]. intros He Hl Hd.
  destruct (block_value_roundtrip _ _ _ _ _ _ _ _ He Hd) as (H1 & H2 & H3). split_and!; [done|congruence|done].
Qed.

Lemma enciphered_inj k b d o1 o2 :
  enciphered hmac_sha256 sha256_hash ssk k b d o1 -> enciphered hmac_sha256 sha256_hash ssk k b d o2 -> o1 = o2.
Proof. unfold enciphered. destruct k; congruence. Qed.

(** Writing a block of a file changes its view there. *)
Lemma view_insert k b d out m :
  enciphered hmac_sha256 sha256_hash ssk k (Z.of_nat b) d out -> length d = RPMB_DATA_SIZE -> Forall is_byte d ->
  view k (<[b := out]> m) = <[b := d]> (view k m).
Proof.
  intros He Hl Hd. destruct (enciphered_plain _ _ _ _ He Hl Hd) as (Hp & _ & _).
  apply list_eq. intros i. rewrite view_lookup. destruct (decide (i = b)) as [->|Hne].
  - destruct (decide (b < length m)%nat) as [Hb|Hb].
    + rewrite !list_lookup_insert_eq by (rewrite ?view_length; done). cbn. unfold clear. by rewrite Hp.
    + rewrite !lookup_ge_None_2 by (rewrite ?length_insert, ?view_length; lia). done.
  - rewrite !list_lookup_insert_ne by done. by rewrite view_lookup.
Qed.
End view.

(** ** The promises of [RpmbDev] *)

Section laws.
Context {W : Type} {RE : RpmbEnv W} {BC : BlockCipher} {BL : BlockCipherLaws BC}.
Context (hmac_sha256 : bytes -> bytes -> bytes) (sha256_hash : bytes -> bytes) (hw_unique_key : bytes).
Context (cfg_write_key plat_rpmb_key_is_ready : bool) (dev_id : Z) (ssk : tee_fs_ssk).
Context {DEV : RpmbDevice W hmac_sha256 hw_unique_key} {PW : PromptWorld W hmac_sha256 hw_unique_key}.

Local Notation St := (rpmb_state W).
Local Notation view := (view hmac_sha256 sha256_hash ssk).

Definition same_hist (w w' : W) : Prop := dv_hist w' = dv_hist w.

Lemma quiet_hist w w' : quiet w w' -> dv_hist w' = dv_hist w.
Proof. induction 1 as [|x y z Hxy _ IH]; [done|]. rewrite IH. by apply dv_quiet. Qed.

#[global] Instance same_hist_kept : Kept same_hist.
Proof.
  split.
  - split; [done|]. intros x y z Hxy Hyz. unfold same_hist in *. congruence.
  - apply quiet_hist.
  - intros. by apply dv_other.
Qed.

Definition st_inv (s : St) : Prop := ctx_inv hmac_sha256 hw_unique_key false s /\ rs_ssk s = ssk.
Definition st_hist (s : St) : list (list bytes) := dv_hist (rs_env s).

Local Notation same := (dev_same st_inv (known dev_id) st_hist rs_dead).

#[local] Instance same_trans : Transitive same.
Proof. intros s1 s2 s3 [] []. split; [done|auto|congruence|congruence]. Qed.

Lemma run_st s s' : run hmac_sha256 hw_unique_key false dev_id same_hist s s' -> st_inv s ->
  same s s'.
Proof. intros [Hs Hd He Hi Hk] [H1 H2]. split; [split; [auto|congruence]|done|done|done]. Qed.

Definition m_read (addr len : Z) (k : dkey) : M St bytes :=
  tee_rpmb_read hmac_sha256 sha256_hash hw_unique_key false cfg_write_key plat_rpmb_key_is_ready dev_id addr len k.

Lemma fetched_data addr len k d (s : St) :
  fetched hmac_sha256 sha256_hash dev_id addr len k d s -> st_inv s -> 0 <= addr -> 0 < len -> addr + len <= 65535 * 256 ->
  known dev_id s /\ rs_dead s = false /\ (Z.to_nat (addr + len) <= 256 * length (latest (st_hist s)))%nat /\
  d = slice (Z.to_nat addr) (Z.to_nat len) (concat (view k (latest (st_hist s)))).
Proof.
  intros (c & nonce & wn & wq & wr & Hrdy & _ & _ & _ & Hinv & Hq & Hacc) [Hci Hssk] Ha Hl Hal.
  assert (Ho : 0 <= addr mod 256 < 256) by (apply Z.mod_pos_bound; lia).
  assert (Hdm : addr = 256 * (addr / 256) + addr mod 256) by (apply Z.div_mod; lia).
  rewrite (u16_small (addr / 256)) in * by (unfold is_u16; Z.div_mod_to_equations; lia).
  set (n := Z.to_nat ((len + addr mod 256 + 255) / 256)) in *.
  assert (Hn : Z.of_nat n = (len + addr mod 256 + 255) / 256) by (subst n; Z.div_mod_to_equations; lia).
  assert (Hoff : addr mod 256 + len <= 256 * Z.of_nat n) by (rewrite Hn; Z.div_mod_to_equations; lia).
  destruct Hacc as (lastfrm & mac & (frames & ps & Hlen & Hsaw & Hlast & Hmac & Hps & ->) & Hsm & Hop & Hty & Had & Hno).
  destruct (Hci c (rdy_ctx _ _ _ Hrdy)) as [_ Hkey]. destruct (Hkey (rdy_key _ _ _ Hrdy)) as [mk Emk].
  rewrite Emk in Hmac. rewrite <- Hn in Hinv.
  pose proof (dv_read_auth mk _ _ _ _ _ _ _ _ _ _ Hinv Hlen Hsaw Hlast Hsm Hmac Hop Hty Had Hno) as Hd.
  assert (Hh : dv_hist wq = st_hist s).
  { unfold st_hist. rewrite (quiet_hist _ _ Hq). pose proof (dv_other (read_request dev_id (addr / 256) nonce (Z.of_nat n)) (n * RPMB_DATA_FRAME_SIZE) wq) as Ho'.
    rewrite Hinv in Ho'. symmetry. apply Ho'. intros (f & Hf & Ht). apply list_elem_of_singleton in Hf as ->. vm_compute in Ht. done. }
  rewrite Hh in Hd. set (m := latest (st_hist s)) in *. set (b := Z.to_nat (addr / 256)) in *.
  assert (Hm : blocks_wf m) by apply dv_wf.
  assert (Hbn : (b + n <= length m)%nat).
  { assert (Hl2 : length (take n (drop b m)) = n) by (rewrite <- Hd, length_map; done). rewrite length_take, length_drop in Hl2.
    assert (0 < n)%nat by lia. lia. }
  split_and!.
  - exists c. split; [by apply (rdy_ctx _ _ _ Hrdy)|]. split; [by apply (rdy_info _ _ _ Hrdy)|by apply (rdy_id _ _ _ Hrdy)].
  - by apply (rdy_dead _ _ _ Hrdy).
  - assert (addr + len <= 256 * (Z.of_nat b + Z.of_nat n)) by lia. lia.
  - rewrite Hd, Hssk in Hps. replace (addr / 256) with (Z.of_nat b) in Hps by lia. apply plains_view in Hps; [|done].
    rewrite <- Hps. rewrite concat_take_blocks, concat_drop_blocks by (try apply Forall_drop; by apply view_wf).
    rewrite slice_slice by lia. f_equal. lia.
Qed.

Lemma m_read_law addr len k (s : St) :
  st_inv s -> 0 <= addr -> 0 < len -> addr + len <= 65535 * 256 ->
  wp (m_read addr len k) (fun r s' => same s s' /\ calm r /\
    forall d, r = ROk d -> known dev_id s' /\ rs_dead s = false /\ (Z.to_nat (addr + len) <= 256 * length (latest (st_hist s)))%nat /\
              d = slice (Z.to_nat addr) (Z.to_nat len) (concat (view k (latest (st_hist s))))) s.
Proof.
  intros Hi Ha Hl Hal. eapply wp_mono; [apply (tee_rpmb_read_runs hmac_sha256 sha256_hash hw_unique_key false cfg_write_key plat_rpmb_key_is_ready dev_id same_hist); [done|]|].
  { assert (0 <= addr / 256) by (apply Z.div_pos; lia). pose proof (Z.div_mod addr 256). lia. }
  intros r s' [Hr [Hc Hf]]. pose proof (run_st _ _ Hr Hi) as Hs. split_and!; [done|done|]. destruct Hs as [Hi' _ Hh' Hd'].
  intros d ->. rewrite <- Hh', <- Hd'. apply fetched_data; auto.
Qed.

(** *** Writing *)

(** [m] is [m0] with [d] in block [b]. *)
Definition one_write (k : dkey) (b : nat) (d : bytes) (m0 m : list bytes) : Prop :=
  exists out, enciphered hmac_sha256 sha256_hash ssk k (Z.of_nat b) d out /\ (b < length m0)%nat /\ m = <[b := out]> m0.

Lemma one_write_again k b d m0 m m' : one_write k b d m0 m -> one_write k b d m m' -> m' = m.
Proof.
  intros (o & Ho & _ & ->) (o' & Ho' & _ & ->). rewrite (enciphered_inj _ _ _ _ _ _ _ _ Ho Ho'). by rewrite list_insert_insert_eq.
Qed.

Lemma wsteps_hist mackey k b d w w' :
  is_u16 (Z.of_nat b) -> rtc (wstep hmac_sha256 sha256_hash mackey dev_id (Z.of_nat b) ssk k d) w w' ->
  exists ms, dv_hist w' = dv_hist w ++ ms /\ forall m, m ∈ ms -> one_write k b d (latest (dv_hist w)) m.
Proof.
  intros H16. revert w'. apply (rtc_ind_r (fun w' => exists ms, dv_hist w' = dv_hist w ++ ms /\ forall m, m ∈ ms -> one_write k b d (latest (dv_hist w)) m)).
  { exists []. rewrite app_nil_r. split; [done|]. by intros m ?%elem_of_nil. }
  intros w1 w2 Hs Hst IH. destruct IH as (ms & Hh & Hms). destruct Hst as [w1 w2 Hq|w1 wc out He].
  { exists ms. by rewrite (dv_quiet _ _ Hq). }
  destruct (pw_commit mackey dev_id (Z.of_nat b) wc out w1 _ H16 eq_refl) as [Hc|[Hb Hc]]; [exists ms; by rewrite Hc|].
  rewrite Nat2Z.id in Hb, Hc. exists (ms ++ [<[b := out]> (latest (dv_hist w1))]). split; [by rewrite Hc, app_assoc, <- Hh|].
  assert (Hl : one_write k b d (latest (dv_hist w1)) (<[b := out]> (latest (dv_hist w1)))) by (by exists out).
  intros m [?|Hm%list_elem_of_singleton]%elem_of_app; [by apply Hms|]. subst m.
  destruct ms as [|m1 ms _] using rev_ind; [rewrite app_nil_r in Hh; rewrite Hh in Hl |- *; exact Hl|].
  rewrite Hh, app_assoc, latest_app in Hl |- *. assert (Hm1 : one_write k b d (latest (dv_hist w)) m1) by (apply Hms; set_solver).
  by rewrite (one_write_again _ _ _ _ _ _ Hm1 Hl).
Qed.

Lemma written_hist mk k b d w w' :
  is_u16 (Z.of_nat b) -> written hmac_sha256 sha256_hash (rpmb_key hmac_sha256 hw_unique_key mk) dev_id (Z.of_nat b) ssk k d w w' ->
  one_write k b d (latest (dv_hist w)) (latest (dv_hist w')).
Proof.
  intros H16 (wq & wr & wc & out & He & Hs & Hinv & Hq & Hack). destruct (wsteps_hist _ _ _ _ _ _ H16 Hs) as (ms & Hh & Hms).
  destruct (pw_ack mk _ _ _ _ _ _ Hinv Hack) as [Hb Hl]. rewrite Nat2Z.id in Hb, Hl. rewrite (quiet_hist _ _ Hq), Hl.
  assert (Ho : one_write k b d (latest (dv_hist wq)) (<[b := out]> (latest (dv_hist wq)))) by (by exists out).
  destruct ms as [|m1 ms _] using rev_ind; [rewrite app_nil_r in Hh; rewrite Hh in Ho |- *; exact Ho|].
  rewrite Hh, app_assoc, latest_app in Ho |- *. assert (Hm1 : one_write k b d (latest (dv_hist w)) m1) by (apply Hms; set_solver).
  by rewrite (one_write_again _ _ _ _ _ _ Hm1 Ho).
Qed.

(** A state in which the device can be written. *)
Definition writable (s : St) : Prop :=
  exists c, rs_ctx s = Some c /\ ctx_known dev_id c /\ c_key_derived c = true.

Lemma same_ctx_inv s s' : same_ctx s s' -> writable s -> st_inv s -> rs_ssk s' = rs_ssk s -> st_inv s' /\ writable s' /\ known dev_id s'.
Proof.
  intros Hc (c & Ec & [Hi Hd] & Hk) [Hinv Hs] Hss. destruct (Hc c Ec) as (c' & Ec' & Hsd).
  assert (Hk' : ctx_known dev_id c') by (split; [by rewrite (sd_info _ _ Hsd)|by rewrite (sd_id _ _ Hsd)]).
  split_and!.
  - split; [|congruence]. intros c2 Ec2. rewrite Ec' in Ec2. simplify_eq. eapply ctx_ok_same; [exact Hsd|]. by apply Hinv.
  - exists c'. split_and!; [done|done|by rewrite (sd_derived _ _ Hsd)].
  - by exists c'.
Qed.

Lemma write_req_law k b data (s : St) :
  is_u16 (Z.of_nat b) -> st_inv s -> writable s ->
  wp (write_req hmac_sha256 sha256_hash one_frame_size dev_id (Z.of_nat b) data 1 k)
    (fun r s' => st_inv s' /\ writable s' /\ calm r /\ (r = ROk tt -> rs_dead s' = rs_dead s) /\ exists ms, st_hist s' = st_hist s ++ ms /\
      (forall e, r = RErr e -> rs_dead s' = true \/ ms = []) /\
      (forall m, m ∈ ms -> one_write k b (slice 0 RPMB_DATA_SIZE data) (latest (st_hist s)) m) /\
      (r = ROk tt -> one_write k b (slice 0 RPMB_DATA_SIZE data) (latest (st_hist s)) (latest (st_hist s')))) s.
Proof.
  intros H16 Hi Hw. destruct Hw as (c & Ec & Hkn & Hder). unfold write_req. apply wp_bind.
  unfold wp at 1, ctx. rewrite Ec. cbn [fst snd cont].
  change (assert_ (one_frame_size <=? rpmb_req_size + 1 * RPMB_DATA_FRAME_SIZE)%nat) with (mret tt : M St unit).
  apply wp_bind, wp_ret. cbn [cont].
  destruct Hi as [Hinv Hs]. destruct (ok_key _ _ _ _ (Hinv c Ec) Hder) as [mk Emk].
  eapply wp_mono; [apply (write_req_loop_outcome hmac_sha256 sha256_hash (c_key c) dev_id (Z.of_nat b) ssk k (slice 0 RPMB_DATA_SIZE data) _ _ _ _ c); done|].
  intros r s' [Hc Hss He Hr]. destruct (same_ctx_inv _ _ Hc ltac:(by exists c) ltac:(by split) Hss) as (Hi' & Hw' & _).
  destruct (wsteps_hist _ _ _ _ _ _ H16 He) as (ms & Hh & Hms). split_and!; [done|done| | |].
  - destruct r as [a|e|]; [done| |done]. destruct Hr as [[-> _]|(_ & ? & _)]; done.
  - intros ->. by destruct Hr.
  - exists ms. split_and!; [done| |done|].
    { intros e ->. destruct Hr as [[_ ?]|(_ & _ & Hq)]; [by left|right]. pose proof (quiet_hist _ _ (qs_env _ _ Hq)) as Hh2.
      unfold st_hist in Hh. rewrite Hh in Hh2. apply (app_inv_head (dv_hist (rs_env s))). by rewrite Hh2, app_nil_r. }
    intros ->. destruct Hr as [_ Hwr]. rewrite Emk in Hwr. by eapply written_hist.
Qed.

(** Images that differ from [m0] in blocks [lo] to [hi] only. *)
Definition images_in (lo hi : nat) (m0 : list bytes) (ms : list (list bytes)) : Prop :=
  forall m, m ∈ ms -> length m = length m0 /\ blocks_wf m /\ forall i, ~ (lo <= i < hi)%nat -> m !! i = m0 !! i.

Lemma one_write_view k b d m0 m :
  one_write k b d m0 m -> blocks_wf m0 -> length d = RPMB_DATA_SIZE -> Forall is_byte d ->
  length m = length m0 /\ blocks_wf m /\ (forall i, i <> b -> m !! i = m0 !! i) /\ (b < length m0)%nat /\
  concat (view k m) = splice (b * 256) d (concat (view k m0)).
Proof.
  intros (out & He & Hb & ->) Hm Hl Hd. destruct (enciphered_plain _ _ _ _ _ _ _ He Hl Hd) as (_ & Hol & Hob). split_and!.
  - apply length_insert.
  - by apply blocks_wf_insert.
  - intros i Hne. by rewrite list_lookup_insert_ne.
  - done.
  - rewrite (view_insert _ _ _ _ _ _ _ _ He Hl Hd). apply concat_insert_block; [by apply view_wf|by rewrite view_length|done].
Qed.

Record blocks_written (k : dkey) (b cnt : nat) (d : bytes) (s : St) (r : rres unit) (s' : St) : Prop := {
  bw_inv : st_inv s';
  bw_wr : writable s';
  bw_calm : calm r;
  bw_dead : r = ROk tt -> rs_dead s' = rs_dead s;
  bw_hist : exists ms, st_hist s' = st_hist s ++ ms /\ images_in b (b + cnt) (latest (st_hist s)) ms /\
    (cnt = 1%nat -> forall e, r = RErr e -> rs_dead s' = true \/ ms = []) /\
    (cnt = 1%nat -> forall m, m ∈ ms -> (b < length (latest (st_hist s)))%nat /\ concat (view k m) = splice (b * 256) d (concat (view k (latest (st_hist s))))) /\
    (r = ROk tt -> (b + cnt <= length (latest (st_hist s)))%nat /\
       concat (view k (latest (st_hist s'))) = splice (b * 256) d (concat (view k (latest (st_hist s)))));
}.

Lemma images_in_mono lo hi lo' hi' m0 ms : (lo' <= lo)%nat -> (hi <= hi')%nat -> images_in lo hi m0 ms -> images_in lo' hi' m0 ms.
Proof. intros H1 H2 H m Hm. destruct (H m Hm) as (? & ? & Hi). split_and!; [done|done|]. intros i Hni. apply Hi. lia. Qed.

Lemma images_in_step lo hi m0 m1 ms1 ms2 :
  images_in lo hi m0 ms1 -> images_in lo hi m0 [m1] -> images_in lo hi m1 ms2 -> images_in lo hi m0 (ms1 ++ ms2).
Proof.
  intros H1 Hm H2 m [Hin|Hin]%elem_of_app; [by apply H1|]. destruct (H2 m Hin) as (L2 & W2 & I2).
  destruct (Hm m1 ltac:(set_solver)) as (L1 & _ & I1). split_and!; [congruence|done|]. intros i Hi. by rewrite I2, I1.
Qed.

(** One block, then the others. *)
Lemma blocks_written_cons k b cnt d1 d2 s s1 r s' :
  length d1 = 256%nat -> length d2 = (cnt * 256)%nat -> cnt <> 0%nat ->
  blocks_written k b 1 d1 s (ROk tt) s1 -> blocks_written k (S b) cnt d2 s1 r s' -> blocks_written k b (S cnt) (d1 ++ d2) s r s'.
Proof.
  intros Hd1 Hd2 Hcnt [_ _ _ D1 (ms1 & Hh1 & Hi1 & _ & Ha1 & Hr1)] [Hi Hw Hc D2 (ms2 & Hh2 & Hi2 & _ & _ & Hr2)]. destruct (Hr1 eq_refl) as [Hb1 Hv1].
  split; [done|done|done|intros ->; rewrite D2, D1; done|]. exists (ms1 ++ ms2).
  assert (Hm1 : images_in b (b + S cnt) (latest (st_hist s)) [latest (st_hist s1)]).
  { destruct ms1 as [|m1 ms _] using rev_ind.
    - rewrite app_nil_r in Hh1. rewrite Hh1. intros m ->%list_elem_of_singleton. split_and!; [done|apply dv_wf|done].
    - apply (images_in_mono b (b + 1)); [lia|lia|]. rewrite Hh1, app_assoc, latest_app. intros m Hm. apply Hi1. set_solver. }
  split_and!; [by rewrite Hh2, Hh1, app_assoc| |lia| |].
  - eapply images_in_step; [eapply images_in_mono; [| |exact Hi1]; lia|exact Hm1|eapply images_in_mono; [| |exact Hi2]; lia].
  - lia.
  - intros ->. destruct (Hr2 eq_refl) as [Hb2 Hv2]. destruct (Hm1 _ ltac:(by apply list_elem_of_singleton)) as (Hl1 & _).
    split; [lia|]. rewrite Hv2, Hv1. replace (S b * 256)%nat with (b * 256 + length d1)%nat by lia. apply splice_at_splice.
    rewrite (blocks_concat_length (view k _)) by (apply view_wf, dv_wf). rewrite view_length. unfold RPMB_DATA_SIZE. lia.
Qed.

Lemma write_loop_law k data n cnt i b (s : St) :
  (i + cnt = n)%nat -> cnt <> 0%nat -> length data = (n * 256)%nat -> Forall is_byte data -> Z.of_nat b + Z.of_nat cnt <= 65535 ->
  st_inv s -> writable s ->
  wp (write_loop hmac_sha256 sha256_hash (seq i cnt) n 1 one_frame_size dev_id (Z.of_nat b) data n k)
    (blocks_written k b cnt (drop (i * 256) data) s) s.
Proof.
  revert i b s. induction cnt as [|cnt IH]; intros i b s Hn Hcnt Hl Hd Hb Hi Hw; [done|]. cbn [seq write_loop].
  replace (if (i =? n - 1)%nat then (n - 1 * (n - 1))%nat else 1%nat) with 1%nat by (destruct (i =? n - 1)%nat; lia).
  rewrite Nat.mul_1_r. unfold RPMB_DATA_SIZE.
  assert (Hld : length (slice 0 RPMB_DATA_SIZE (drop (i * 256) data)) = 256%nat).
  { unfold slice, RPMB_DATA_SIZE. rewrite drop_0, length_take, length_drop. lia. }
  assert (Hbd : Forall is_byte (slice 0 RPMB_DATA_SIZE (drop (i * 256) data))) by (by apply bytes_take, bytes_drop, bytes_drop).
  eapply wp_seq; [apply (write_req_law k b); [unfold is_u16; lia|done|done]|]. intros r s1 (Hi1 & Hw1 & Hc1 & Hd1 & ms & Hh & Hde & Hms & Hok).
  assert (Hone : forall cnt, images_in b (b + S cnt) (latest (st_hist s)) ms).
  { intros c m Hm. destruct (one_write_view _ _ _ _ _ (Hms m Hm) (dv_wf _) Hld Hbd) as (? & ? & Ho & _).
    split_and!; [done|done|]. intros j Hj. apply Ho. lia. }
  destruct r as [[]|e|]; [|split; [done|done|done|done|]|done].
  2: { exists ms. split_and!; [done|by apply Hone|done| |done]. intros Hc m Hm. injection Hc as ->.
       destruct (one_write_view _ _ _ _ _ (Hms m Hm) (dv_wf _) Hld Hbd) as (_ & _ & _ & Hlt & ->). split; [done|]. f_equal.
       unfold slice. rewrite drop_0. apply take_ge. rewrite length_drop. unfold RPMB_DATA_SIZE. lia. }
  cbn [cont]. specialize (Hok eq_refl).
  assert (B1 : blocks_written k b 1 (slice 0 RPMB_DATA_SIZE (drop (i * 256) data)) s (ROk tt) s1).
  { split; [done|done|done|done|]. exists ms. destruct (one_write_view _ _ _ _ _ Hok (dv_wf _) Hld Hbd) as (_ & _ & _ & Hlt & Hv).
    split_and!; [done|apply (Hone 0%nat)|done| |intros _; split; [lia|done]].
    intros _ m Hm. by destruct (one_write_view _ _ _ _ _ (Hms m Hm) (dv_wf _) Hld Hbd) as (_ & _ & _ & ? & ->). }
  assert (Esplit : drop (i * 256) data = slice 0 RPMB_DATA_SIZE (drop (i * 256) data) ++ drop (S i * 256) data).
  { unfold slice, RPMB_DATA_SIZE. rewrite drop_0. rewrite <- (take_drop 256 (drop (i * 256) data)) at 1. f_equal. rewrite drop_drop. f_equal. lia. }
  destruct cnt as [|cnt].
  { apply wp_ret. replace (drop (i * 256) data) with (slice 0 RPMB_DATA_SIZE (drop (i * 256) data)); [done|].
    rewrite Esplit at 2. rewrite (drop_ge data (S i * 256)) by lia. by rewrite app_nil_r. }
  replace (u16 (Z.of_nat b + Z.of_nat 1)) with (Z.of_nat (S b)) by (rewrite u16_small by (unfold is_u16; lia); lia).
  eapply wp_mono; [apply (IH (S i) (S b)); try done; lia|]. intros r s' B2. rewrite Esplit.
  eapply blocks_written_cons; [exact Hld| |done|exact B1|exact B2]. rewrite length_drop. lia.
Qed.

Let write_blk := tee_rpmb_write_blk hmac_sha256 sha256_hash hw_unique_key false cfg_write_key plat_rpmb_key_is_ready.

(** What a write of whole blocks does; without the device being known before. *)
Definition blk_law (k : dkey) (b cnt : nat) (d : bytes) (s : St) (r : rres unit) (s' : St) : Prop :=
  st_inv s' /\ (known dev_id s -> known dev_id s') /\ calm r /\ (r = ROk tt -> known dev_id s' /\ rs_dead s' = false) /\
  (rs_dead s = true -> rs_dead s' = true /\ st_hist s' = st_hist s) /\
  exists ms, st_hist s' = st_hist s ++ ms /\ images_in b (b + cnt) (latest (st_hist s)) ms /\
    (cnt = 1%nat -> forall e, r = RErr e -> rs_dead s' = true \/ ms = []) /\
    (cnt = 1%nat -> forall m, m ∈ ms -> (b < length (latest (st_hist s)))%nat /\ concat (view k m) = splice (b * 256) d (concat (view k (latest (st_hist s))))) /\
    (r = ROk tt -> (b + cnt <= length (latest (st_hist s)))%nat /\
       concat (view k (latest (st_hist s'))) = splice (b * 256) d (concat (view k (latest (st_hist s))))).

(** Nothing was written. *)
Lemma blk_law_err k b cnt d s e s' : same s s' -> e <> TEE_SUCCESS -> blk_law k b cnt d s (RErr e) s'.
Proof.
  intros [Hi Hk Hh Hd] He. split_and!; try done; [by rewrite Hd|]. exists []. rewrite app_nil_r.
  split_and!; try done; [by intros m ?%elem_of_nil|by right|]. by intros _ m ?%elem_of_nil.
Qed.

Lemma runs_st {A} (m : M St A) P (s : St) : runs hmac_sha256 hw_unique_key false dev_id same_hist m P s -> st_inv s ->
  wp m (fun r s' => same s s' /\ P r s') s.
Proof. unfold runs. intros H Hi. eapply wp_mono; [exact H|]. intros r s' [Hr HP]. split; [by apply run_st|done]. Qed.

Lemma write_blk_law k b cnt data (s : St) :
  cnt <> 0%nat -> length data = (cnt * 256)%nat -> Forall is_byte data -> Z.of_nat b + Z.of_nat cnt <= 65535 -> st_inv s ->
  wp (write_blk dev_id (Z.of_nat b) data cnt k) (blk_law k b cnt data s) s.
Proof.
  intros Hcnt Hl Hd Hb Hi. unfold write_blk, tee_rpmb_write_blk.
  rewrite (proj2 (Nat.eqb_neq cnt 0)) by done. cbn [negb guard_]. apply wp_bind, wp_ret. cbn [cont].
  eapply wp_seq; [apply runs_st; [apply tee_rpmb_init_runs; apply _|done]|].
  intros r s1 [Hs1 [Hc1 Hr1]]. destruct r as [[]|e|]; cbn [cont]; [|by apply blk_law_err|done].
  destruct (Hr1 eq_refl) as [c Hc]. assert (Ec := rdy_ctx _ _ _ Hc). assert (Hi1 := ds_inv _ _ _ _ _ _ Hs1).
  apply wp_bind. unfold wp at 1, ctx. rewrite Ec. cbn [fst snd cont].
  assert (Hrel : c_rel_wr_blkcnt c = 1).
  { destruct Hi1 as [Hci _]. apply (ok_info _ _ _ _ (Hci c Ec)); [by eapply rdy_info|done]. }
  rewrite Hrel. change (Z.to_nat 1) with 1%nat.
  eapply wp_seq; [apply runs_st; [apply runs_quiet; [apply _|apply quietly_alloc]|done]|].
  intros r s2 [Hs2 [Ec2 Hr2]]. assert (Hs := same_trans _ _ _ Hs1 Hs2). destruct r as [[]|e|]; cbn [cont]; [|by apply blk_law_err|done].
  destruct Hs as [Hi2 _ Hh2 Hd2]. assert (Hd0 : rs_dead s = false) by (rewrite <- (ds_dead _ _ _ _ _ _ Hs1); by eapply rdy_dead).
  cbn [Nat.eqb negb assert_]. apply wp_bind, wp_ret. cbn [cont].
  rewrite Nat.div_1_r, Nat.mod_1_r. cbn [Nat.ltb Nat.leb]. rewrite Nat.add_0_r.
  replace (rpmb_req_size + RPMB_DATA_FRAME_SIZE * Nat.min cnt 1)%nat with one_frame_size
    by (unfold one_frame_size; replace (Nat.min cnt 1) with 1%nat by lia; lia).
  assert (Hw2 : writable s2).
  { exists c. split_and!; [congruence|split; [by eapply rdy_info|by eapply rdy_id]|by eapply rdy_key]. }
  eapply wp_mono; [apply (write_loop_law k data cnt cnt 0 b); done|]. intros r s3 [Hi3 Hw3 Hc3 Hd3 Hh3].
  rewrite Nat.mul_0_l, drop_0, Hh2 in Hh3.
  assert (Hk3 : known dev_id s3) by (destruct Hw3 as (c3 & ? & ? & _); by exists c3).
  split_and!; [done|done|done| |by rewrite Hd0|done]. intros Hr. split; [done|]. by rewrite Hd3, Hd2, Hd0.
Qed.

Definition m_write (addr : Z) (d : bytes) (k : dkey) : M St unit :=
  tee_rpmb_write hmac_sha256 sha256_hash hw_unique_key false cfg_write_key plat_rpmb_key_is_ready dev_id addr d k.

(** The law of [RpmbDev]. *)
Definition write_law (addr : Z) (d : bytes) (k : dkey) (s : St) (r : rres unit) (s' : St) : Prop :=
  st_inv s' /\ (known dev_id s -> known dev_id s') /\ calm r /\ (rs_dead s = true -> rs_dead s' = true /\ st_hist s' = st_hist s) /\
  exists ms, st_hist s' = st_hist s ++ ms /\
    write_images view addr d k (latest (st_hist s)) ms /\
    (r = ROk tt -> known dev_id s' /\ rs_dead s' = false /\ (Z.to_nat addr + length d <= 256 * length (latest (st_hist s)))%nat /\
                   concat (view k (latest (st_hist s'))) = splice (Z.to_nat addr) d (concat (view k (latest (st_hist s))))) /\
    (forall e, r = RErr e -> addr mod 256 + Z.of_nat (length d) <= 256 -> rs_dead s' = true \/ ms = []).

(** The blocks of a write that starts inside of block [b]. *)
Lemma write_law_of_blk k b cnt off d blk (s : St) r s' :
  (off < 256)%nat -> d <> [] -> (256 * (cnt - 1) < off + length d <= 256 * cnt)%nat -> cnt <> 0%nat ->
  ((b + cnt <= length (latest (st_hist s)))%nat -> splice (b * 256) blk (concat (view k (latest (st_hist s)))) =
     splice (b * 256 + off) d (concat (view k (latest (st_hist s))))) ->
  blk_law k b cnt blk s r s' -> write_law (256 * Z.of_nat b + Z.of_nat off) d k s r s'.
Proof.
  intros Ho Hd Hcnt Hc0 Heq (Hi & Hk & Hc & Hkn & Hde & ms & Hh & Him & Her & Hat & Hr).
  assert (Hone : (256 * Z.of_nat b + Z.of_nat off) mod 256 + Z.of_nat (length d) <= 256 -> cnt = 1%nat).
  { intros Hle. rewrite (Z.add_comm (256 * _)), (Z.mul_comm 256), Z_mod_plus_full, Z.mod_small in Hle by lia. lia. }
  assert (Hln : (0 < length d)%nat) by (destruct d; [done|cbn; lia]).
  assert (Ea : Z.to_nat (256 * Z.of_nat b + Z.of_nat off) = (b * 256 + off)%nat) by lia.
  split_and!; [done|done|done|done|]. exists ms. split_and!; [done| | |intros e Hr' Hle; by eapply Her; [apply Hone|]].
  - split.
    + intros m' i Hm Hni. destruct (Him m' Hm) as (_ & _ & Hi'). apply Hi'. intros Hin. apply Hni. unfold in_blocks.
      rewrite <- (Z.div_unique (256 * Z.of_nat b + Z.of_nat off) 256 (Z.of_nat b) (Z.of_nat off)) by lia.
      split; [lia|]. apply Z.div_le_lower_bound; lia.
    + intros m' Hm. by destruct (Him m' Hm).
    + intros m' Hm. by destruct (Him m' Hm) as (_ & ? & _).
    + intros m' Hm Hle. rewrite (Hone Hle) in Hat, Heq. destruct (Hat eq_refl m' Hm) as [Hlt ->]. rewrite Ea. apply Heq. lia.
  - intros Hok. destruct (Hr Hok) as [Hb Hv]. split_and!; [by apply Hkn|by apply Hkn|lia|]. rewrite Hv, Ea. by apply Heq.
Qed.

Lemma write_law_err addr d k s e s' :
  same s s' -> e <> TEE_SUCCESS -> write_law addr d k s (RErr e) s'.
Proof.
  intros [Hi Hk Hh Hd] He. split_and!; try done; [by rewrite Hd|]. exists []. rewrite app_nil_r. split_and!; [done| |done|by right].
  split; try by intros m ?%elem_of_nil. by intros m ? ?%elem_of_nil.
Qed.

Lemma m_write_law addr d k (s : St) :
  st_inv s -> 0 <= addr -> d <> [] -> Forall is_byte d -> addr + Z.of_nat (length d) <= 65535 * 256 ->
  wp (m_write addr d k) (write_law addr d k s) s.
Proof.
  intros Hi Ha Hd Hbd Hal. unfold m_write, tee_rpmb_write.
  assert (Hln : (0 < length d)%nat) by (destruct d; [done|cbn; lia]).
  assert (Ho : 0 <= addr mod 256 < 256) by (apply Z.mod_pos_bound; lia).
  assert (Hdm : addr = 256 * (addr / 256) + addr mod 256) by (apply Z.div_mod; lia).
  assert (Hq : 0 <= addr / 256) by (apply Z.div_pos; lia).
  rewrite (u16_small (addr / 256)) by (unfold is_u16; lia).
  rewrite (u32_small (Z.of_nat (length d) + addr mod 256)), block_count_exact by (unfold is_u32; lia).
  set (b := Z.to_nat (addr / 256)). set (off := Z.to_nat (addr mod 256)). set (cnt := Z.to_nat ((Z.of_nat (length d) + addr mod 256 + 255) / 256)).
  assert (Eb : addr / 256 = Z.of_nat b) by lia. assert (Eo : addr mod 256 = Z.of_nat off) by lia.
  assert (Ecnt : (Z.of_nat (length d) + addr mod 256 + 255) / 256 = Z.of_nat cnt) by (subst cnt; rewrite Z2Nat.id; [done|apply Z.div_pos; lia]).
  assert (Hcz : 256 * (Z.of_nat cnt - 1) < Z.of_nat off + Z.of_nat (length d) <= 256 * Z.of_nat cnt)
    by (rewrite <- Ecnt, <- Eo; clear - Ho; Z.div_mod_to_equations; lia).
  assert (Hcnt : (256 * (cnt - 1) < off + length d <= 256 * cnt)%nat /\ cnt <> 0%nat) by lia.
  assert (Hbc : Z.of_nat b + Z.of_nat cnt <= 65535) by lia.
  assert (Eaddr : addr = 256 * Z.of_nat b + Z.of_nat off) by lia. rewrite Ecnt, Eb, Eo, Eaddr. clear Eaddr Hdm Ecnt. clearbody b off cnt.
  destruct ((Z.of_nat off =? 0) && (Z.of_nat (length d) mod 256 =? 0)) eqn:Eal.
  - zbool. assert (off = 0%nat) as -> by lia. assert (length d = (cnt * 256)%nat) by (Z.div_mod_to_equations; lia).
    eapply wp_mono; [apply (write_blk_law k b cnt d); try done; lia|]. intros r s'.
    apply write_law_of_blk; [lia|done|lia|lia|]. intros _. by rewrite Nat.add_0_r.
  - eapply wp_seq; [apply runs_st; [apply runs_quiet; [apply _|apply quietly_alloc_out]|done]|].
    intros r s1 [Hs1 [_ Hr1]]. destruct r as [[]|e|]; cbn [cont]; [|by apply write_law_err|done].
    eapply wp_seq; [apply (m_read_law (Z.of_nat b * 256) (Z.of_nat cnt * 256) k); [by apply Hs1|lia|lia|lia]|].
    intros r s2 (Hs2 & Hc2 & Hr2). assert (Hs := same_trans _ _ _ Hs1 Hs2). destruct r as [tmp|e|]; cbn [cont]; [|by apply write_law_err|done].
    destruct (Hr2 tmp eq_refl) as (_ & _ & Hin & Etmp). destruct Hs1 as [_ _ Hh1 _]. destruct Hs as [Hi2 Hk2 Hh2 Hd2]. rewrite Hh1 in *. set (m := latest (st_hist s)) in *.
    replace (Z.to_nat (Z.of_nat b * 256)) with (b * 256)%nat in Etmp by lia.
    replace (Z.to_nat (Z.of_nat cnt * 256)) with (cnt * 256)%nat in Etmp by lia.
    assert (Hvl : length (concat (view k m)) = (length m * 256)%nat).
    { rewrite blocks_concat_length by apply view_wf, dv_wf. by rewrite view_length. }
    assert (Htl : length tmp = (cnt * 256)%nat) by (rewrite Etmp; apply slice_length; lia).
    change (take off tmp ++ d ++ drop (off + length d) tmp) with (splice off d tmp).
    eapply wp_mono; [apply (write_blk_law k b cnt (splice off d tmp)); [lia| | |lia|done]|].
    + rewrite splice_length by lia. done.
    + unfold splice. rewrite !Forall_app. split_and!; [apply bytes_take|done|apply bytes_drop];
        rewrite Etmp; apply slice_bytes, blocks_concat_bytes, view_wf, dv_wf.
    + intros r s'. unfold blk_law. rewrite Hh2, Hd2. intros (H1 & H2 & H3).
      apply (write_law_of_blk k b cnt off d (splice off d tmp)); [lia|done|lia|lia| |].
      * intros Hle. rewrite Etmp. apply splice_within; [|lia]. etransitivity; [|apply Nat.eq_le_incl; symmetry; exact Hvl]. subst m. lia.
      * split_and!; tauto.
Qed.

(** *** The instance *)

Definition m_get_write_counter : M St Z :=
  tee_rpmb_get_write_counter hmac_sha256 sha256_hash hw_unique_key false cfg_write_key plat_rpmb_key_is_ready dev_id.
Definition m_get_max_block : M St Z :=
  tee_rpmb_get_max_block hmac_sha256 sha256_hash hw_unique_key false cfg_write_key plat_rpmb_key_is_ready dev_id.
Definition m_generate_fek (uuid : bytes) : M St bytes :=
  k ← gets rs_ssk; in_env (tee_fs_generate_fek hmac_sha256 k uuid).
Definition m_alloc : M St unit := in_env alloc_out.

#[global] Instance rpmb_dev : RpmbDev St := {
  dev_read := m_read;
  dev_write := m_write;
  dev_get_write_counter := m_get_write_counter;
  dev_get_max_block := m_get_max_block;
  dev_write_is_atomic := tee_rpmb_write_is_atomic;
  dev_generate_fek := m_generate_fek;
  dev_alloc := m_alloc;
}.

(** The two getters initialise the device if [cond] does not hold of the context. *)
Lemma getter_runs {A} (cond : tee_rpmb_ctx -> bool) (f : tee_rpmb_ctx -> A) (s : St) :
  st_inv s ->
  wp (dead ← gets rs_dead; guard_ (negb dead) TEE_ERROR_COMMUNICATION ;; oc ← gets rs_ctx;
      (if match oc with Some c => cond c | None => false end then mret tt
       else tee_rpmb_init hmac_sha256 sha256_hash hw_unique_key false cfg_write_key plat_rpmb_key_is_ready dev_id) ;;
      c ← ctx; mret (f c))
    (fun r s' => same s s' /\ calm r /\
       forall x, r = ROk x -> exists c, x = f c /\ rs_ctx s' = Some c /\ (cond c = true \/ c_dev_info_synced c = true)) s.
Proof.
  intros Hi. apply wp_bind, wp_gets. cbn [cont]. apply wp_bind, wp_guard; intros _; cbn [cont]; [|by split_and!].
  apply wp_bind, wp_gets. cbn [cont]. destruct (match rs_ctx s with Some c => cond c | None => false end) eqn:Ec.
  - apply wp_bind, wp_ret. cbn [cont]. apply wp_bind. unfold wp at 1, ctx. destruct (rs_ctx s) as [c|] eqn:E; [|done].
    cbn [fst snd cont]. apply wp_ret. split_and!; try done. intros x [= <-]. exists c. by split_and!; [..|left].
  - eapply wp_seq; [apply runs_st; [apply tee_rpmb_init_runs; apply _|done]|].
    intros r s1 [Hs1 [Hc1 Hr1]]. destruct r as [[]|e|]; cbn [cont]; [|by split_and!|done].
    destruct (Hr1 eq_refl) as [c Hc]. assert (Ec1 := rdy_ctx _ _ _ Hc). apply wp_bind. unfold wp at 1, ctx. rewrite Ec1.
    cbn [fst snd cont]. apply wp_ret. split_and!; try done. intros x [= <-]. exists c. split_and!; [done|done|right; by eapply rdy_info].
Qed.

Lemma m_atomic_law addr len (s : St) :
  st_inv s -> known dev_id s -> 0 < len -> addr + len <= 65535 * 256 -> 0 <= addr ->
  tee_rpmb_write_is_atomic addr len s = (ROk (addr mod 256 + len <=? 256), s).
Proof.
  intros [Hi _] (c & Ec & Hk & _) Hl Hal Ha. unfold tee_rpmb_write_is_atomic, mbind, M_mbind, m_bind, ctx. rewrite Ec.
  destruct (ok_info _ _ _ _ (Hi c Ec) Hk) as [Hrel _]. rewrite (Hrel eq_refl).
  assert (Ho : 0 <= addr mod 256 < 256) by (apply Z.mod_pos_bound; lia).
  assert (addr = 256 * (addr / 256) + addr mod 256) by (apply Z.div_mod; lia). assert (0 <= addr / 256) by (apply Z.div_pos; lia).
  rewrite (u32_small (len + addr mod 256)), block_count_exact by (unfold is_u32; lia). unfold mret, M_mret, m_ret. do 2 f_equal.
  apply eq_bool_prop_intro. rewrite !Is_true_true, !Z.leb_le. clear - Ho Hl. Z.div_mod_to_equations; lia.
Qed.

Lemma m_fek_law uuid (s : St) :
  st_inv s -> quietly (m_generate_fek uuid) (fun r => calm r /\ forall k, r = ROk k -> length k = TEE_FS_KM_FEK_SIZE /\ Forall is_byte k) s.
Proof.
  intros Hi. unfold m_generate_fek, quietly. apply wp_bind, wp_gets. cbn [cont]. apply quietly_in_env.
  unfold tee_fs_generate_fek. set (Q := fun r : rres bytes => calm r /\ forall k, r = ROk k -> length k = TEE_FS_KM_FEK_SIZE /\ Forall is_byte k).
  apply (wquiet_bind _ _ (fun r => calm r /\ forall k, r = ROk k -> length k = TEE_FS_KM_FEK_SIZE /\ Forall is_byte k) Q).
  - unfold wquiet, wp, crypto_rng_read. assert (Hq : quiet (rs_env s) (env_rng TEE_FS_KM_FEK_SIZE (rs_env s)).2) by (apply quiet_once; constructor).
    destruct (env_rng TEE_FS_KM_FEK_SIZE (rs_env s)) as [[z b] w]. cbn in *. split; [done|].
    destruct (Z.eqb_spec z TEE_SUCCESS); (split; [done|]); [|done]. intros k [= <-]. split; [apply as_bytes_length|apply as_bytes_bytes].
  - intros k w [_ Hk]. destruct (Hk k eq_refl) as [Hl Hb]. clear Hk.
    pose proof (wquiet_fek_crypt hmac_sha256 (rs_ssk s) (Some uuid) TEE_MODE_ENCRYPT k w) as Hc.
    eapply wp_mono; [apply (wquiet_and _ _ _ _ Hc (tee_fs_fek_crypt_gives _ _ _ _ _ w))|].
    intros [out|e|] w' (? & ? & Hg); (split; [done|]); [|done|done]. split; [done|]. intros k' [= <-]. cbn in Hg. unfold fek_value in Hg.
    destruct (_ && _); [|done]. destruct (ecb_value_bytes _ _ _ _ Hg Hb) as [-> ?]. done.
  - by intros e [? _].
  - by intros [? _].
Qed.

Lemma quiet_law {A} (m : M St A) P (s : St) : quietly m P s -> st_inv s ->
  wp m (fun r s' => same s s' /\ P r) s.
Proof.
  intros Hq Hi. eapply wp_mono; [apply runs_st; [apply runs_quiet; [apply _|exact Hq]|done]|]. by intros r s' [? [_ ?]].
Qed.

#[global] Program Instance rpmb_dev_laws : RpmbDevLaws St := {|
  dl_inv := st_inv;
  dl_ready := known dev_id;
  dl_hist := st_hist;
  dl_dead := rs_dead;
  dl_view := view;
|}.
Next Obligation. apply view_none. Qed.
Next Obligation. apply view_length. Qed.
Next Obligation. intros k m m' i Hi. by rewrite !view_lookup, Hi. Qed.
Next Obligation. intros k m. apply view_wf. Qed.
Next Obligation. intros s _. apply dv_nonempty. Qed.
Next Obligation. intros s _. apply dv_wf. Qed.
Next Obligation. apply m_read_law. Qed.
Next Obligation. apply m_write_law. Qed.
Next Obligation.
  intros s Hi. eapply wp_mono; [apply (getter_runs c_wr_cnt_synced c_wr_cnt s Hi)|]. by intros r s' (? & ? & _).
Qed.
Next Obligation.
  intros s Hi. eapply wp_mono; [apply (getter_runs c_dev_info_synced c_max_blk_idx s Hi)|].
  intros r s' (Hs & ? & Hx). split_and!; try done. intros x Hr. destruct (Hx x Hr) as (c & -> & Ec & Hy).
  destruct Hs as [[Hci _] _ _ _]. apply (ok_info _ _ _ _ (Hci c Ec)). tauto.
Qed.
Next Obligation. apply m_atomic_law. Qed.
Next Obligation.
  intros uuid s Hi. eapply wp_mono; [apply quiet_law; [by apply m_fek_law|done]|]. by intros r s' (? & ? & ?).
Qed.
Next Obligation.
  intros s Hi. eapply wp_mono; [apply quiet_law; [apply quietly_alloc_out|done]|]. by intros r s' (? & ?).
Qed.
End laws.
