(* ===== verification/RpmbDevWrite.v ===== *)
(** * The RPMB device: writing with any normal world

    What the writes of [Rpmb] promise on a chip, where normal world may hold back signed requests and acknowledgements and
    use them later: only [RpmbDevice] is assumed. *)

From S2P Require Import Prelude ErrM Cipher CipherModes FsKey Rpmb RpmbSpec RpmbWrite RpmbDev RpmbBlocks RpmbLog RpmbDevice.
From stdpp Require Import base list sets relations.
From Stdlib Require Import ZArith Lia.

Local Open Scope Z_scope.

Section write.
Context {W : Type} {RE : RpmbEnv W} {BC : BlockCipher} {BL : BlockCipherLaws BC}.
Context (hmac_sha256 : bytes -> bytes -> bytes) (sha256_hash : bytes -> bytes) (hw_unique_key : bytes).
Context (cfg_write_key plat_rpmb_key_is_ready : bool) (dev_id : Z) (ssk : tee_fs_ssk).
Context {DEV : RpmbDevice W hmac_sha256 hw_unique_key}.

Local Notation St := (rpmb_state W).
Local Notation inv := (st_inv hmac_sha256 hw_unique_key ssk).
Local Notation view := (view hmac_sha256 sha256_hash ssk).
Local Notation enc := (enciphered hmac_sha256 sha256_hash ssk).

(** ** Calls that write nothing *)

Definition same_log (w w' : W) : Prop := dv_hist w' = dv_hist w /\ dv_sent w' = dv_sent w /\ dv_done w' = dv_done w.

Lemma quiet_log w w' : quiet w w' -> same_log w w'.
Proof.
  induction 1 as [|x y z Hxy _ (H1 & H2 & H3)]; [done|]. destruct (dv_quiet_log _ _ Hxy) as [E1 E2].
  unfold same_log. rewrite H1, H2, H3, E1, E2. split; [by apply dv_quiet|done].
Qed.

#[global] Instance same_log_kept : Kept same_log.
Proof.
  split.
  - split; [done|]. intros x y z (?&?&?) (?&?&?). unfold same_log. split_and!; congruence.
  - apply quiet_log.
  - intros rq n w H. split; [by apply dv_other|]. destruct (dv_other_log rq n w H). done.
Qed.

Record same_st (s s' : St) : Prop := mk_same_st {
  ss_inv : inv s';
  ss_dead : rs_dead s' = rs_dead s;
  ss_log : same_log (rs_env s) (rs_env s');
}.

Lemma runs_same {A} (m : M St A) P (s : St) :
  runs hmac_sha256 hw_unique_key false dev_id same_log m P s -> inv s -> wp m (fun r s' => same_st s s' /\ P r s') s.
Proof.
  unfold runs. intros H [H1 H2]. eapply wp_mono; [exact H|]. intros r s' [[Hs Hd He Hi Hk] HP]. split; [|done].
  split; [split; [auto|congruence]|done|done].
Qed.

(** ** What was signed and carried out *)

(** From [w] to [w'] the requests [sn] were signed, which write data that is right, and the chip carried out [dn]. *)
Record logged (right : nat -> bytes -> Prop) (w w' : W) (sn dn : list wreq) : Prop := {
  lg_sent : dv_sent w' = dv_sent w ++ sn;
  lg_done : dv_done w' = dv_done w ++ dn;
  lg_hist : dv_hist w' = dv_hist w ++ images (latest (dv_hist w)) dn;
  lg_good : Forall (good_req right) sn;
  lg_from : forall x, x ∈ dn -> x ∈ dv_sent w' /\ (Z.to_nat (q_block x) < length (latest (dv_hist w)))%nat;
}.

Lemma same_logged right w w' : same_log w w' -> logged right w w' [] [].
Proof. intros (H1 & H2 & H3). split; rewrite ?app_nil_r; try done. by intros x ?%elem_of_nil. Qed.

Lemma logged_trans right w w1 w2 s1 d1 s2 d2 :
  logged right w w1 s1 d1 -> logged right w1 w2 s2 d2 -> logged right w w2 (s1 ++ s2) (d1 ++ d2).
Proof.
  intros [A1 A2 A3 A4 A5] [B1 B2 B3 B4 B5].
  assert (El : latest (dv_hist w1) = carry (latest (dv_hist w)) d1) by (rewrite A3; apply latest_images).
  split.
  - by rewrite B1, A1, app_assoc.
  - by rewrite B2, A2, app_assoc.
  - rewrite B3, A3, images_app, app_assoc, <- El, A3. done.
  - by apply Forall_app.
  - intros x [Hx|Hx]%elem_of_app.
    + destruct (A5 x Hx). rewrite B1. split; [apply elem_of_app; by left|done].
    + destruct (B5 x Hx) as [? Hl]. by rewrite El, carry_length in Hl.
Qed.

Lemma logged_mono (R R' : nat -> bytes -> Prop) w w' sn dn :
  (forall b d, R b d -> R' b d) -> logged R w w' sn dn -> logged R' w w' sn dn.
Proof. intros H [A1 A2 A3 A4 A5]. split; try done. eapply Forall_impl; [exact A4|]. intros x. by apply good_req_mono. Qed.

(** Block [b] with the data [d], enciphered. *)
Definition one_right (k : dkey) (b : nat) (d : bytes) (i : nat) (out : bytes) : Prop := i = b /\ enc k (Z.of_nat b) d out.

Lemma wsteps_logged mackey k b d w w' :
  is_u16 (Z.of_nat b) -> rtc (wstep hmac_sha256 sha256_hash mackey dev_id (Z.of_nat b) ssk k d) w w' ->
  exists sn dn, logged (one_right k b d) w w' sn dn.
Proof.
  intros H16. induction 1 as [w|w w1 w2 Hs _ (sn & dn & IH)]; [exists [], []; by apply same_logged|].
  assert (exists sn dn, logged (one_right k b d) w w1 sn dn) as (s1 & d1 & H1).
  { destruct Hs as [w w1 Hq|w wc out He]; [exists [], []; apply same_logged, quiet_log, quiet_once, Hq|].
    destruct (dv_write mackey dev_id (Z.of_nat b) wc out w _ H16 eq_refl) as (E1 & l & E2 & E3 & Hl).
    eexists _, l. split; [exact E1|done|done| |done]. constructor; [|done]. by exists b. }
  eexists _, _. eapply logged_trans; [exact H1|exact IH].
Qed.

(** The requests [ak] were acknowledged, or others for the same blocks and counts. *)
Definition acked (sn : list wreq) (w' : W) (ak : list wreq) : Prop :=
  ak ⊆+ sn /\ forall x, x ∈ ak -> exists d, mk_wreq (q_block x) (q_count x) d ∈ dv_done w'.

(** *** One block *)

Lemma write_req_logged k b data (s : St) :
  is_u16 (Z.of_nat b) -> inv s -> writable dev_id s ->
  wp (write_req hmac_sha256 sha256_hash one_frame_size dev_id (Z.of_nat b) data 1 k)
    (fun r s' => inv s' /\ writable dev_id s' /\ calm r /\ (r = ROk tt -> rs_dead s' = rs_dead s) /\
      exists sn dn, logged (one_right k b (slice 0 RPMB_DATA_SIZE data)) (rs_env s) (rs_env s') sn dn /\
        (forall e, r = RErr e -> rs_dead s' = true \/ sn = [] /\ dn = []) /\
        (r = ROk tt -> exists x, acked sn (rs_env s') [x] /\ q_block x = Z.of_nat b)) s.
Proof.
  intros H16 Hi Hw. destruct Hw as (c & Ec & Hkn & Hder). unfold write_req. apply wp_bind.
  unfold wp at 1, ctx. rewrite Ec. cbn [fst snd cont].
  change (assert_ (one_frame_size <=? rpmb_req_size + 1 * RPMB_DATA_FRAME_SIZE)%nat) with (mret tt : M St unit).
  apply wp_bind, wp_ret. cbn [cont].
  destruct Hi as [Hinv Hs]. destruct (ok_key _ _ _ _ (Hinv c Ec) Hder) as [mk Emk].
  eapply wp_mono; [apply (write_req_loop_outcome hmac_sha256 sha256_hash (c_key c) dev_id (Z.of_nat b) ssk k (slice 0 RPMB_DATA_SIZE data) _ _ _ _ c); done|].
  intros r s' [Hc Hss He Hr]. destruct (same_ctx_inv hmac_sha256 hw_unique_key dev_id ssk _ _ Hc ltac:(by exists c) ltac:(by split) Hss) as (Hi' & Hw' & _).
  destruct (wsteps_logged _ _ _ _ _ _ H16 He) as (sn & dn & Hlog). split_and!; [done|done| | |].
  - destruct r as [a|e|]; [done| |done]. destruct Hr as [[-> _]|(_ & ? & _)]; done.
  - intros ->. by destruct Hr.
  - exists sn, dn. split; [done|]. split.
    + intros e ->. destruct Hr as [[_ ?]|(_ & _ & Hq)]; [by left|right]. destruct (quiet_log _ _ (qs_env _ _ Hq)) as (_ & E1 & E2).
      rewrite (lg_sent _ _ _ _ _ Hlog) in E1. rewrite (lg_done _ _ _ _ _ Hlog) in E2.
      split; [apply (app_inv_head (dv_sent (rs_env s)))|apply (app_inv_head (dv_done (rs_env s)))]; by rewrite app_nil_r.
    + intros ->. destruct Hr as [_ (wq & wr & wc & out & _ & Hst & Hinvk & Hq & Hack)].
      destruct (wsteps_logged _ _ _ _ _ _ H16 Hst) as (sq & dq & Hlq). destruct (quiet_log _ _ Hq) as (_ & E1 & E2).
      assert (Ew : wr = (env_invoke (write_request hmac_sha256 (c_key c) dev_id (Z.of_nat b) wc out) RPMB_DATA_FRAME_SIZE wq).2) by (by rewrite Hinvk).
      destruct (dv_write _ _ _ _ _ _ _ H16 Ew) as (E3 & _). set (x := mk_wreq (Z.of_nat b) (u32 wc) out) in *.
      exists x. split; [|done]. rewrite Emk in Hinvk, Hack. destruct (dv_ack mk _ _ _ _ _ _ Hinvk Hack) as [out' Hd]. split.
      * apply singleton_submseteq_l. assert (sn = sq ++ [x]) as ->; [|apply elem_of_app; right; by apply list_elem_of_singleton].
        apply (app_inv_head (dv_sent (rs_env s))). rewrite <- (lg_sent _ _ _ _ _ Hlog), E1, E3, (lg_sent _ _ _ _ _ Hlq). by rewrite app_assoc.
      * intros y ->%list_elem_of_singleton. exists out'. rewrite E2. exact Hd.
Qed.

(** *** Several blocks *)

(** The blocks from [b], with the data in the clear one after the other. *)
Definition right (k : dkey) (b cnt : nat) (data : bytes) (i : nat) (out : bytes) : Prop :=
  exists j, (j < cnt)%nat /\ i = (b + j)%nat /\ enc k (Z.of_nat i) (slice (j * 256) 256 data) out.

Lemma one_right_first k b cnt data i out :
  one_right k b (slice 0 RPMB_DATA_SIZE data) i out -> right k b (S cnt) data i out.
Proof. intros [-> He]. exists 0%nat. split_and!; [lia|lia|done]. Qed.

Lemma right_rest k b cnt data i out : right k (S b) cnt (drop 256 data) i out -> right k b (S cnt) data i out.
Proof.
  intros (j & Hj & -> & He). exists (S j). split_and!; [lia|lia|]. unfold slice in *. rewrite drop_drop in He.
  by replace (256 + j * 256)%nat with (S j * 256)%nat in He by lia.
Qed.

Lemma acked_more sn1 sn2 right w1 w2 dn x ak :
  acked sn1 w1 [x] -> logged right w1 w2 sn2 dn -> acked sn2 w2 ak -> acked (sn1 ++ sn2) w2 (x :: ak).
Proof.
  intros [A1 A2] L [B1 B2]. split; [by apply (submseteq_app [x] sn1 ak sn2)|].
  intros y [->|Hy]%elem_of_cons; [|by apply B2]. destruct (A2 x) as [d Hd]; [by apply list_elem_of_singleton|].
  exists d. rewrite (lg_done _ _ _ _ _ L). apply elem_of_app. by left.
Qed.

Record blocks_logged (k : dkey) (b cnt : nat) (data : bytes) (s : St) (r : rres unit) (s' : St) : Prop := {
  bl_inv : inv s';
  bl_wr : writable dev_id s';
  bl_calm : calm r;
  bl_dead : r = ROk tt -> rs_dead s' = rs_dead s;
  bl_log : exists sn dn, logged (right k b cnt data) (rs_env s) (rs_env s') sn dn /\
    (cnt = 1%nat -> forall e, r = RErr e -> rs_dead s' = true \/ sn = [] /\ dn = []) /\
    (r = ROk tt -> exists ak, acked sn (rs_env s') ak /\ q_block <$> ak = Z.of_nat <$> seq b cnt);
}.

Lemma write_loop_logged k data n cnt i b (s : St) :
  (i + cnt = n)%nat -> cnt <> 0%nat -> Z.of_nat b + Z.of_nat cnt <= 65535 -> inv s -> writable dev_id s ->
  wp (write_loop hmac_sha256 sha256_hash (seq i cnt) n 1 one_frame_size dev_id (Z.of_nat b) data n k)
    (blocks_logged k b cnt (drop (i * 256) data) s) s.
Proof.
  revert i b s. induction cnt as [|cnt IH]; intros i b s Hn Hcnt Hb Hi Hw; [done|]. cbn [seq write_loop].
  replace (if (i =? n - 1)%nat then (n - 1 * (n - 1))%nat else 1%nat) with 1%nat by (destruct (i =? n - 1)%nat; lia).
  rewrite Nat.mul_1_r. change (i * RPMB_DATA_SIZE)%nat with (i * 256)%nat. set (D := drop (i * 256) data).
  eapply wp_seq; [apply (write_req_logged k b D); [unfold is_u16; lia|done|done]|].
  intros r s1 (Hi1 & Hw1 & Hc1 & Hd1 & sn & dn & Hlog & Her & Hok).
  assert (Hlog1 : forall c, logged (right k b (S c) D) (rs_env s) (rs_env s1) sn dn).
  { intros c. eapply logged_mono; [|exact Hlog]. intros; by apply one_right_first. }
  destruct r as [[]|e|]; [|split; try done; exists sn, dn; by split_and!|done].
  cbn [cont]. destruct (Hok eq_refl) as (x & Hx & Hxb). specialize (Hd1 eq_refl). destruct cnt as [|cnt].
  { apply wp_ret. split; try done. exists sn, dn. split_and!; [done|done|]. intros _. exists [x]. split; [done|]. cbn. by rewrite Hxb. }
  replace (u16 (Z.of_nat b + Z.of_nat 1)) with (Z.of_nat (S b)) by (rewrite u16_small by (unfold is_u16; lia); lia).
  eapply wp_mono; [apply (IH (S i) (S b)); try done; lia|].
  intros r s' [Hi2 Hw2 Hc2 Hd2 (sn2 & dn2 & Hlog2 & _ & Hok2)]. replace (drop (S i * 256) data) with (drop 256 D) in Hlog2 by (unfold D; rewrite drop_drop; f_equal; lia).
  split; [done|done|done|intros ->; rewrite Hd2, Hd1; done|]. exists (sn ++ sn2), (dn ++ dn2). split_and!; [|lia|].
  - eapply logged_trans; [apply Hlog1|]. eapply logged_mono; [|exact Hlog2]. intros; by apply right_rest.
  - intros ->. destruct (Hok2 eq_refl) as (ak & Hak & Hbl). exists (x :: ak). split; [by eapply acked_more|].
    cbn [fmap list_fmap seq]. by rewrite Hxb, Hbl.
Qed.

(** [cnt] blocks from [b]; the device is initialised first. *)
Record blk_logged (k : dkey) (b cnt : nat) (data : bytes) (s : St) (r : rres unit) (s' : St) : Prop := {
  kl_inv : inv s';
  kl_calm : calm r;
  kl_dead : r = ROk tt -> rs_dead s' = false;
  kl_log : exists sn dn, logged (right k b cnt data) (rs_env s) (rs_env s') sn dn /\
    (cnt = 1%nat -> forall e, r = RErr e -> rs_dead s' = true \/ sn = [] /\ dn = []) /\
    (r = ROk tt -> exists ak, acked sn (rs_env s') ak /\ q_block <$> ak = Z.of_nat <$> seq b cnt);
}.

Lemma blk_logged_err k b cnt data s e s' : same_st s s' -> e <> TEE_SUCCESS -> blk_logged k b cnt data s (RErr e) s'.
Proof.
  intros [Hi Hd Hl] He. split; try done. exists [], []. split_and!; [by apply same_logged|by right|done].
Qed.

Lemma same_st_trans s s1 s2 : same_st s s1 -> same_st s1 s2 -> same_st s s2.
Proof. intros [A1 A2 A3] [B1 B2 B3]. split; [done|congruence|]. destruct A3 as (?&?&?), B3 as (?&?&?). unfold same_log. split_and!; congruence. Qed.

(** What was logged after calls that write nothing. *)
Lemma logged_after R s s1 w sn dn : same_st s s1 -> logged R (rs_env s1) w sn dn -> logged R (rs_env s) w sn dn.
Proof. intros [_ _ Hl] H. exact (logged_trans R _ _ _ [] [] sn dn (same_logged R _ _ Hl) H). Qed.

Lemma write_blk_logged k b cnt data (s : St) :
  cnt <> 0%nat -> Z.of_nat b + Z.of_nat cnt <= 65535 -> inv s ->
  wp (tee_rpmb_write_blk hmac_sha256 sha256_hash hw_unique_key false cfg_write_key plat_rpmb_key_is_ready dev_id (Z.of_nat b) data cnt k)
    (blk_logged k b cnt data s) s.
Proof.
  intros Hcnt Hb Hi. unfold tee_rpmb_write_blk.
  rewrite (proj2 (Nat.eqb_neq cnt 0)) by done. cbn [negb guard_]. apply wp_bind, wp_ret. cbn [cont].
  eapply wp_seq; [apply runs_same; [apply tee_rpmb_init_runs; apply _|done]|].
  intros r s1 [Hs1 [Hc1 Hr1]]. destruct r as [[]|e|]; cbn [cont]; [|by apply blk_logged_err|done].
  destruct (Hr1 eq_refl) as [c Hc]. assert (Ec := rdy_ctx _ _ _ Hc). assert (Hi1 := ss_inv _ _ Hs1).
  apply wp_bind. unfold wp at 1, ctx. rewrite Ec. cbn [fst snd cont].
  assert (Hrel : c_rel_wr_blkcnt c = 1).
  { destruct Hi1 as [Hci _]. apply (ok_info _ _ _ _ (Hci c Ec)); [by eapply rdy_info|done]. }
  rewrite Hrel. change (Z.to_nat 1) with 1%nat.
  eapply wp_seq; [apply runs_same; [apply runs_quiet; [apply _|apply quietly_alloc]|done]|].
  intros r s2 [Hs2 [Ec2 Hr2]]. assert (Hs := same_st_trans _ _ _ Hs1 Hs2). destruct r as [[]|e|]; cbn [cont]; [|by apply blk_logged_err|done].
  assert (Hd0 : rs_dead s2 = false) by (rewrite (ss_dead _ _ Hs2); by eapply rdy_dead).
  cbn [Nat.eqb negb assert_]. apply wp_bind, wp_ret. cbn [cont].
  rewrite Nat.div_1_r, Nat.mod_1_r. cbn [Nat.ltb Nat.leb]. rewrite Nat.add_0_r.
  replace (rpmb_req_size + RPMB_DATA_FRAME_SIZE * Nat.min cnt 1)%nat with one_frame_size
    by (unfold one_frame_size; replace (Nat.min cnt 1) with 1%nat by lia; lia).
  assert (Hw2 : writable dev_id s2).
  { exists c. split_and!; [congruence|split; [by eapply rdy_info|by eapply rdy_id]|by eapply rdy_key]. }
  eapply wp_mono; [apply (write_loop_logged k data cnt cnt 0 b); try done; apply Hs2|].
  intros r s3 [Hi3 Hw3 Hc3 Hd3 (sn & dn & Hlog & Her & Hok)]. rewrite Nat.mul_0_l, drop_0 in Hlog.
  split; [done|done|intros Hr; by rewrite Hd3|]. exists sn, dn. split_and!; [by eapply logged_after|done|done].
Qed.

Lemma blk_logged_after k b cnt data s s1 r s' : same_st s s1 -> blk_logged k b cnt data s1 r s' -> blk_logged k b cnt data s r s'.
Proof.
  intros Hs [Hi Hc Hd (sn & dn & Hl & H)]. split; try done. exists sn, dn. split; [by eapply logged_after|done].
Qed.

(** ** What the requests make of the image *)

Definition chunks (cnt : nat) (data : bytes) : list bytes := (fun j => slice (j * 256) 256 data) <$> seq 0 cnt.

Lemma concat_chunks cnt data : length data = (cnt * 256)%nat -> concat (chunks cnt data) = data.
Proof.
  unfold chunks. revert data. induction cnt as [|cnt IH]; intros data Hl; [by destruct data|].
  cbn [seq]. rewrite fmap_cons. cbn [concat]. rewrite <- fmap_S_seq, <- list_fmap_compose.
  rewrite (list_fmap_ext _ (fun j => slice (j * 256) 256 (drop 256 data))).
  - rewrite IH by (rewrite length_drop; lia). unfold slice. rewrite drop_0. apply take_drop.
  - intros _ j _. cbn [compose]. unfold slice. rewrite drop_drop. do 2 f_equal.
Qed.

Section image.
Context (k : dkey) (b cnt : nat) (data : bytes) (Hlen : length data = (cnt * 256)%nat) (Hbytes : Forall is_byte data).
Context (m : list bytes) (Hm : blocks_wf m).

Local Notation R := (right k b cnt data).

Lemma chunk_ok j : (j < cnt)%nat -> length (slice (j * 256) 256 data) = RPMB_DATA_SIZE /\ Forall is_byte (slice (j * 256) 256 data).
Proof. intros Hj. unfold RPMB_DATA_SIZE. split; [apply slice_length; nia|by apply bytes_take, bytes_drop]. Qed.

Lemma right_block i out : R i out -> length out = RPMB_DATA_SIZE /\ Forall is_byte out.
Proof. intros (j & Hj & -> & He). destruct (chunk_ok j Hj) as [H1 H2]. by destruct (enciphered_plain _ _ _ _ _ _ _ He H1 H2) as (_ & ? & ?). Qed.

Lemma good_in x : good_req R x -> exists i, q_block x = Z.of_nat i /\ (b <= i < b + cnt)%nat.
Proof. clear Hlen. intros (i & Hi & j & Hj & -> & _). exists (b + j)%nat. split; [done|lia]. Qed.

Context (l : list wreq) (Hl : Forall (good_req R) l).

Lemma prefix_good l1 l2 : l = l1 ++ l2 -> Forall (good_req R) l1.
Proof. intros ->. by apply Forall_app in Hl as [? _]. Qed.

Lemma images_right : images_in b (b + cnt) m (images m l).
Proof.
  intros m' (l1 & l2 & E & _ & ->)%elem_of_images. pose proof (prefix_good _ _ E) as Hg. split_and!.
  - apply carry_length.
  - eapply carry_wf; [done|exact Hg|]. intros i d. apply right_block.
  - intros i Hi. destruct (carry_lookup R m l1 i Hg) as [H _]. apply H. intros x Hx Hb.
    rewrite Forall_forall in Hg. destruct (good_in x) as (j & Ej & Hj); [by apply Hg|]. lia.
Qed.

(** One block only: each image has it. *)
Lemma images_one m' :
  cnt = 1%nat -> (forall x, x ∈ l -> (Z.to_nat (q_block x) < length m)%nat) -> m' ∈ images m l ->
  (b < length m)%nat /\ concat (view k m') = splice (b * 256) data (concat (view k m)).
Proof.
  intros Hc Hr (l1 & l2 & E & Hne & ->)%elem_of_images. pose proof (prefix_good _ _ E) as Hg.
  destruct l1 as [|x l1]; [done|]. assert (x ∈ l) as Hx by (rewrite E; left).
  rewrite Forall_forall in Hl. destruct (good_in x (Hl x Hx)) as (i & Ei & Hi). assert (i = b) as -> by lia.
  specialize (Hr x Hx). rewrite Ei, Nat2Z.id in Hr.
  destruct (carry_lookup R m (x :: l1) b Hg) as [_ H]. destruct (H x) as (d & (j & Hj & Ej & He) & Ed); [left|done|done|].
  assert (j = 0%nat) as -> by lia. assert (slice (0 * 256) 256 data = data) as Es by (unfold slice; cbn [Nat.mul]; rewrite drop_0; apply take_ge; lia).
  rewrite Es in He.
  destruct (one_write_view hmac_sha256 sha256_hash ssk k b data m (carry m (x :: l1))) as (_ & _ & _ & H1 & H2); try done; [|rewrite Hlen, Hc; done].
  exists d. split_and!; [done|done|]. apply list_eq. intros i. destruct (decide (i = b)) as [->|Hn].
  - by rewrite list_lookup_insert_eq.
  - rewrite list_lookup_insert_ne by done. destruct (carry_lookup R m (x :: l1) i Hg) as [H' _]. apply H'. intros y Hy Ey.
    rewrite Forall_forall in Hg. destruct (good_in y (Hg y Hy)) as (i' & Ei' & Hi'). lia.
Qed.

(** Every block was written: the image has the data. *)
Lemma carry_all :
  (b + cnt <= length m)%nat -> (forall i, (b <= i < b + cnt)%nat -> exists x, x ∈ l /\ q_block x = Z.of_nat i) ->
  concat (view k (carry m l)) = splice (b * 256) data (concat (view k m)).
Proof.
  intros Hb Hall.
  assert (view k (carry m l) = take b (view k m) ++ chunks cnt data ++ drop (b + cnt) (view k m)) as ->.
  { assert (length (take b (view k m)) = b) as Ht by (rewrite length_take, view_length; lia).
    assert (length (chunks cnt data) = cnt) as Hc by (unfold chunks; by rewrite length_fmap, length_seq).
    apply list_eq. intros i. rewrite view_lookup. destruct (carry_lookup R m l i Hl) as [H1 H2].
    destruct (decide (b <= i < b + cnt)%nat) as [Hi|Hi].
    - destruct (Hall i Hi) as (x & Hx & Ex). destruct (H2 x Hx Ex ltac:(lia)) as (d & (j & Hj & -> & He) & ->). cbn.
      rewrite lookup_app_r, lookup_app_l by lia. rewrite Ht. unfold chunks. rewrite list_lookup_fmap, lookup_seq_lt by lia. cbn.
      f_equal. unfold clear. destruct (chunk_ok j Hj) as [Hl1 Hl2]. destruct (enciphered_plain _ _ _ _ _ _ _ He Hl1 Hl2) as (-> & _). cbn.
      by replace (b + j - b)%nat with j by lia.
    - rewrite H1.
      2: { intros x Hx Ex. rewrite Forall_forall in Hl. destruct (good_in x (Hl x Hx)) as (i' & Ei' & Hi'). lia. }
      destruct (decide (i < b)%nat).
      + rewrite lookup_app_l, lookup_take_lt, view_lookup by lia. done.
      + rewrite !lookup_app_r, lookup_drop, Ht, Hc, view_lookup by lia. do 2 f_equal; [f_equal|]; lia. }
  rewrite !concat_app, concat_chunks by done. unfold splice. rewrite concat_take_blocks, concat_drop_blocks by (by apply view_wf).
  do 3 f_equal. lia.
Qed.
End image.

(** ** Bytes *)

(** Nothing that was signed so far can still be carried out. *)
Definition at_rest (s : St) : Prop := settled (dv_sent (rs_env s)) (dv_done (rs_env s)).

Definition image (s : St) : list bytes := latest (dv_hist (rs_env s)).

(** [new]: the requests of the call; [ms]: the images the chip goes through. *)
Definition write_promise (addr : Z) (d : bytes) (k : dkey) (s : St) (r : rres unit) (s' : St) : Prop :=
  inv s' /\
  exists new ms, dv_sent (rs_env s') = dv_sent (rs_env s) ++ new /\
    (forall x, x ∈ new -> exists i, q_block x = Z.of_nat i /\ in_blocks addr (Z.of_nat (length d)) i) /\
    dv_hist (rs_env s') = dv_hist (rs_env s) ++ ms /\ write_images view addr d k (image s) ms /\
    match r with
    | ROk _ => rs_dead s' = false /\
        ((forall x, x ∈ new -> q_count x ∉ used (dv_done (rs_env s))) ->
         (Z.to_nat addr + length d <= 256 * length (image s))%nat /\
         concat (view k (image s')) = splice (Z.to_nat addr) d (concat (view k (image s)))) /\
        (Z.of_nat (length new) = (addr mod 256 + Z.of_nat (length d) + 255) / 256 -> at_rest s')
    | RErr e => e <> TEE_SUCCESS /\ (addr mod 256 + Z.of_nat (length d) <= 256 -> rs_dead s' = true \/ new = [] /\ ms = [])
    | RPanic => False
    end.

Lemma write_promise_err addr d k s e s' : same_st s s' -> e <> TEE_SUCCESS -> write_promise addr d k s (RErr e) s'.
Proof.
  intros [Hi Hd (H1 & H2 & H3)] He. split; [done|]. exists [], []. rewrite !app_nil_r. split_and!; try done; [by intros x ?%elem_of_nil| |by right].
  split; try by intros m ?%elem_of_nil. by intros m ? ?%elem_of_nil.
Qed.

(** After a call without a retry all that was signed has been carried out. *)
Lemma rest_again s s' R sn dn ak :
  at_rest s -> logged R (rs_env s) (rs_env s') sn dn -> acked sn (rs_env s') ak -> length sn = length ak -> at_rest s'.
Proof.
  intros Hs [E1 E2 _ _ _] [A1 A2] Hlen x Hx. unfold used. rewrite E1 in Hx. apply elem_of_app in Hx as [Hx|Hx].
  - specialize (Hs x Hx). unfold used in *. rewrite E2, fmap_app. apply elem_of_app. by left.
  - assert (ak ≡ₚ sn) as HP by (apply submseteq_length_Permutation; [done|lia]). rewrite <- HP in Hx.
    destruct (A2 x Hx) as [d Hd]. apply list_elem_of_fmap. by eexists (mk_wreq _ _ _).
Qed.

Lemma promise_of_blk b cnt off d blk k (s : St) r s' :
  at_rest s -> (off < 256)%nat -> d <> [] -> (256 * (cnt - 1) < off + length d <= 256 * cnt)%nat -> cnt <> 0%nat ->
  length blk = (cnt * 256)%nat -> Forall is_byte blk ->
  ((b + cnt <= length (image s))%nat -> splice (b * 256) blk (concat (view k (image s))) = splice (b * 256 + off) d (concat (view k (image s)))) ->
  blk_logged k b cnt blk s r s' -> write_promise (256 * Z.of_nat b + Z.of_nat off) d k s r s'.
Proof.
  intros Hrest Ho Hd Hcnt Hc0 Hbl Hbb Heq [Hi Hc Hdd (sn & dn & Hlog & Her & Hok)].
  assert (Hln : (0 < length d)%nat) by (destruct d; [done|cbn; lia]).
  assert (Em : (256 * Z.of_nat b + Z.of_nat off) mod 256 = Z.of_nat off) by (rewrite Z.add_comm, Z.mul_comm, Z_mod_plus_full; apply Z.mod_small; lia).
  assert (Hone : (256 * Z.of_nat b + Z.of_nat off) mod 256 + Z.of_nat (length d) <= 256 -> cnt = 1%nat) by (rewrite Em; lia).
  assert (Ea : Z.to_nat (256 * Z.of_nat b + Z.of_nat off) = (b * 256 + off)%nat) by lia.
  assert (Hin : forall i, (b <= i < b + cnt)%nat -> in_blocks (256 * Z.of_nat b + Z.of_nat off) (Z.of_nat (length d)) i).
  { intros i Hi'. unfold in_blocks. rewrite <- (Z.div_unique (256 * Z.of_nat b + Z.of_nat off) 256 (Z.of_nat b) (Z.of_nat off)) by lia.
    split; [lia|]. apply Z.div_le_lower_bound; lia. }
  pose proof Hlog as [E1 E2 E3 Hgood Hfrom].
  assert (Hdn : forall x, x ∈ dn -> x ∈ sn).
  { eapply new_done; [exact Hrest|rewrite <- E2; apply dv_once|]. intros x Hx. rewrite <- E1. by apply Hfrom. }
  assert (Hgd : Forall (good_req (right k b cnt blk)) dn).
  { rewrite Forall_forall in Hgood |- *. intros x Hx. by apply Hgood, Hdn. }
  assert (Him := images_right k b cnt blk Hbl Hbb (image s) (dv_wf _) dn Hgd).
  assert (Hrange : forall x, x ∈ dn -> (Z.to_nat (q_block x) < length (image s))%nat) by (intros x Hx; by apply Hfrom).
  split; [done|]. exists sn, (images (image s) dn). split_and!; [done| |done| |].
  - intros x Hx. rewrite Forall_forall in Hgood. destruct (good_in k b cnt blk x (Hgood x Hx)) as (i & Ei & Hi'). exists i. split; [done|by apply Hin].
  - split.
    + intros m' i Hm' Hni. destruct (Him m' Hm') as (_ & _ & H). apply H. intros Hi'. by apply Hni, Hin.
    + intros m' Hm'. by destruct (Him m' Hm').
    + intros m' Hm'. by destruct (Him m' Hm') as (_ & ? & _).
    + intros m' Hm' Hle. destruct (images_one k b cnt blk Hbl Hbb (image s) (dv_wf _) dn Hgd m' (Hone Hle) Hrange Hm') as [Hlt ->].
      rewrite Ea. apply Heq. rewrite (Hone Hle). lia.
  - destruct r as [[]|e|]; [|split; [done|]|done].
    + destruct (Hok eq_refl) as (ak & Hak & Hakb). split; [by apply Hdd|]. split.
      * intros Hfresh.
        assert (Hall : forall i, (b <= i < b + cnt)%nat -> exists x, x ∈ dn /\ q_block x = Z.of_nat i).
        { intros i Hi'. assert (Z.of_nat i ∈ q_block <$> ak) as Hib by (rewrite Hakb; apply list_elem_of_fmap_2, elem_of_seq; lia).
          apply list_elem_of_fmap in Hib as (x & Ex & Hx). destruct Hak as [Hsub Hack]. destruct (Hack x Hx) as [dd Hdone].
          exists (mk_wreq (q_block x) (q_count x) dd). split; [|done]. rewrite E2 in Hdone. apply elem_of_app in Hdone as [Hold|]; [|done].
          exfalso. apply (Hfresh x); [by eapply elem_of_submseteq|]. apply list_elem_of_fmap. by exists (mk_wreq (q_block x) (q_count x) dd). }
        assert (Hle : (b + cnt <= length (image s))%nat).
        { destruct (Hall (b + cnt - 1)%nat ltac:(lia)) as (x & Hx & Ex). specialize (Hrange x Hx). lia. }
        split; [lia|]. unfold image at 1. rewrite E3, latest_images, Ea. rewrite <- Heq by done. by apply (carry_all k b cnt blk Hbl Hbb _ (dv_wf _) dn Hgd).
      * intros Hn. eapply rest_again; [exact Hrest|exact Hlog|exact Hak|].
        assert (length ak = cnt) as Hlk by (rewrite <- (length_fmap q_block), Hakb, length_fmap, length_seq; done).
        rewrite Em in Hn. rewrite Hlk. clear - Hn Hcnt Hc0. Z.div_mod_to_equations; lia.
    + intros Hle. destruct (Her (Hone Hle) e eq_refl) as [?|[-> ->]]; [by left|by right].
Qed.

Lemma wp_both {A} (m : M St A) P Q (s : St) : wp m P s -> wp m Q s -> wp m (fun r s' => P r s' /\ Q r s') s.
Proof. unfold wp. by split. Qed.

Lemma read_same addr len k (s : St) :
  inv s -> 0 <= addr -> 0 < len -> addr + len <= 65535 * 256 ->
  wp (tee_rpmb_read hmac_sha256 sha256_hash hw_unique_key false cfg_write_key plat_rpmb_key_is_ready dev_id addr len k)
    (fun r s' => same_st s s' /\ calm r /\ forall d, r = ROk d -> (Z.to_nat (addr + len) <= 256 * length (image s))%nat /\
       d = slice (Z.to_nat addr) (Z.to_nat len) (concat (view k (image s)))) s.
Proof.
  intros Hi Ha Hl Hal. eapply wp_mono; [apply wp_both|].
  - apply runs_same; [|exact Hi]. apply (tee_rpmb_read_runs hmac_sha256 sha256_hash hw_unique_key false cfg_write_key plat_rpmb_key_is_ready dev_id same_log); [done|].
    assert (0 <= addr / 256) by (apply Z.div_pos; lia). pose proof (Z.div_mod addr 256). lia.
  - by apply (m_read_law hmac_sha256 sha256_hash hw_unique_key cfg_write_key plat_rpmb_key_is_ready dev_id ssk).
  - intros r s' ((Hs & _) & _ & Hc & Hr). split_and!; [done|done|]. intros d Hd. by destruct (Hr d Hd) as (_ & _ & ? & ?).
Qed.

(** The whole blocks that a write comes down to. *)
Lemma blocks_of_write addr len :
  0 <= addr -> 0 < len -> addr + len <= 65535 * 256 ->
  exists b cnt off : nat, addr = 256 * Z.of_nat b + Z.of_nat off /\ addr / 256 = Z.of_nat b /\ addr mod 256 = Z.of_nat off /\
    (off < 256)%nat /\ block_count (u32 (len + addr mod 256)) = Z.of_nat cnt /\
    256 * (Z.of_nat cnt - 1) < Z.of_nat off + len <= 256 * Z.of_nat cnt /\ cnt <> 0%nat /\ Z.of_nat b + Z.of_nat cnt <= 65535.
Proof.
  intros Ha Hl Hal. assert (Ho : 0 <= addr mod 256 < 256) by (apply Z.mod_pos_bound; lia).
  assert (Hdm : addr = 256 * (addr / 256) + addr mod 256) by (apply Z.div_mod; lia).
  assert (Hq : 0 <= addr / 256) by (apply Z.div_pos; lia).
  exists (Z.to_nat (addr / 256)), (Z.to_nat ((len + addr mod 256 + 255) / 256)), (Z.to_nat (addr mod 256)).
  rewrite (u32_small (len + addr mod 256)), block_count_exact by (unfold is_u32; lia).
  assert (Hc : 256 * ((len + addr mod 256 + 255) / 256 - 1) < addr mod 256 + len <= 256 * ((len + addr mod 256 + 255) / 256))
    by (clear - Ho; Z.div_mod_to_equations; lia).
  rewrite !Z2Nat.id by lia. split_and!; lia.
Qed.

Lemma tee_rpmb_write_promise addr d k (s : St) :
  inv s -> at_rest s -> 0 <= addr -> d <> [] -> Forall is_byte d -> addr + Z.of_nat (length d) <= 65535 * 256 ->
  wp (tee_rpmb_write hmac_sha256 sha256_hash hw_unique_key false cfg_write_key plat_rpmb_key_is_ready dev_id addr d k)
    (write_promise addr d k s) s.
Proof.
  intros Hi Hrest Ha Hd Hbd Hal. unfold tee_rpmb_write.
  assert (Hln : (0 < length d)%nat) by (destruct d; [done|cbn; lia]).
  destruct (blocks_of_write addr (Z.of_nat (length d))) as (b & cnt & off & Eaddr & Eb & Eo & Ho & Ec & Hcz & Hc0 & Hbc); [lia..|].
  rewrite (u16_small (addr / 256)) by (unfold is_u16; lia). rewrite Ec, Eb, Eo, Eaddr, Nat2Z.id.
  destruct ((Z.of_nat off =? 0) && (Z.of_nat (length d) mod 256 =? 0)) eqn:Eal.
  - zbool. assert (off = 0%nat) as -> by lia. assert (length d = (cnt * 256)%nat) by (Z.div_mod_to_equations; lia).
    eapply wp_mono; [by apply (write_blk_logged k b cnt d)|]. intros r s'.
    apply (promise_of_blk b cnt 0 d d); try done; [lia|]. intros _. by rewrite Nat.add_0_r.
  - eapply wp_seq; [apply runs_same; [apply runs_quiet; [apply _|apply quietly_alloc_out]|done]|].
    intros r s1 [Hs1 [_ Hr1]]. destruct r as [[]|e|]; cbn [cont]; [|by apply write_promise_err|done].
    eapply wp_seq; [apply (read_same (Z.of_nat b * 256) (Z.of_nat cnt * 256) k); [by apply Hs1|lia|lia|lia]|].
    intros r s2 (Hs2 & Hc2 & Hr2). assert (Hs := same_st_trans _ _ _ Hs1 Hs2). destruct r as [tmp|e|]; cbn [cont]; [|by apply write_promise_err|done].
    destruct (Hr2 tmp eq_refl) as [Hin Etmp]. assert (image s1 = image s) as Ei by (unfold image; by destruct (ss_log _ _ Hs1) as (-> & _)).
    rewrite Ei in Hin, Etmp. set (m := image s) in *.
    replace (Z.to_nat (Z.of_nat b * 256)) with (b * 256)%nat in Etmp by lia.
    replace (Z.to_nat (Z.of_nat cnt * 256)) with (cnt * 256)%nat in Etmp by lia. rewrite Nat2Z.id.
    assert (Hvl : length (concat (view k m)) = (length m * 256)%nat).
    { rewrite blocks_concat_length by apply view_wf, dv_wf. by rewrite view_length. }
    assert (Htl : length tmp = (cnt * 256)%nat) by (rewrite Etmp; apply slice_length; lia).
    change (take off tmp ++ d ++ drop (off + length d) tmp) with (splice off d tmp).
    eapply wp_mono; [apply (write_blk_logged k b cnt (splice off d tmp)); [done|done|apply Hs2]|].
    intros r s' Hblk. apply (promise_of_blk b cnt off d (splice off d tmp)); try done; [lia| | | |].
    + rewrite splice_length by lia. done.
    + unfold splice. rewrite !Forall_app. split_and!; [apply bytes_take|done|apply bytes_drop];
        rewrite Etmp; apply slice_bytes, blocks_concat_bytes, view_wf, dv_wf.
    + intros Hle. rewrite Etmp. apply splice_within; [|lia]. etransitivity; [|apply Nat.eq_le_incl; symmetry; exact Hvl]. subst m. lia.
    + by eapply blk_logged_after.
Qed.
End write.
