(* ===== verification/RpmbChip.v ===== *)
(** * A chip, and a normal world that passes everything on

    An eMMC chip as JESD84-B51 describes its replay protected memory block: it answers reads with its blocks and
    the nonce of the request, and carries out a write if its MAC and its counter are right and the counter has not expired.
    It keeps the promises of [RpmbDevice] and [PromptWorld], for every MAC function. *)

From S2P Require Import Prelude ErrM Cipher CipherModes FsKey Rpmb RpmbSpec RpmbWrite RpmbDev RpmbBlocks RpmbLog RpmbDevice.
From stdpp Require Import base list sets.
From Stdlib Require Import ZArith Lia.

Local Open Scope Z_scope.

(** The first image of the chip and the writes since then (block and data), the value its counter had at first, the
    requests it was shown, and the answer in shared memory. *)
Record chip := mk_chip {
  ch_first : list bytes;
  ch_log : list (Z * bytes);
  ch_base : Z;
  ch_sent : list wreq;
  ch_random : Z;
  ch_answer : bytes;
}.

Definition norm (m : list bytes) : list bytes := map (as_bytes 256) m.
(** The requests carried out: the counter goes up by one for each. *)
Definition ch_done (w : chip) : list wreq := imap (fun i x => mk_wreq x.1 (ch_base w + Z.of_nat i) (as_bytes 256 x.2)) (ch_log w).
Definition ch_counter (w : chip) : Z := ch_base w + Z.of_nat (length (ch_log w)).
Definition ch_hist (w : chip) : list (list bytes) := norm (ch_first w) :: images (norm (ch_first w)) (ch_done w).
Definition ch_img (w : chip) : list bytes := latest (ch_hist w).

Section chip.
Context (hmac_sha256 : bytes -> bytes -> bytes) (chip_key : bytes).

Definition mac_of (key : bytes) (frames : list rpmb_data_frame) : bytes :=
  take RPMB_KEY_MAC_SIZE (hmac_sha256 key (concat (map mac_protected frames))).

Definition resp (msg_type result addr counter : Z) (nonce data : bytes) : rpmb_data_frame :=
  mk_frm (replicate 196 0) (replicate 32 0) (as_bytes 256 data) (as_bytes 16 nonce) (u32_to_bytes counter) (u16_to_bytes addr)
    (replicate 2 0) (u16_to_bytes result) (u16_to_bytes msg_type).

(** The last frame carries the MAC of all. *)
Definition signed (frames : list rpmb_data_frame) : list rpmb_data_frame :=
  alter (with_mac (as_bytes 32 (mac_of chip_key frames))) (length frames - 1)%nat frames.

Definition put_answer (b : bytes) (w : chip) : chip := mk_chip (ch_first w) (ch_log w) (ch_base w) (ch_sent w) (ch_random w) b.
Definition answer (frames : list rpmb_data_frame) (w : chip) : chip := put_answer (concat (map bytes_of_frame frames)) w.

Definition good_block (d : bytes) : bool := (length d =? 256)%nat && forallb (fun x => (0 <=? x) && (x <? 256)) d.

Definition chip_read (f : rpmb_data_frame) (n : nat) (w : chip) : chip :=
  let b := Z.to_nat (bytes_to_u16 (f_address f)) in
  let frame := resp RPMB_MSG_TYPE_RESP_AUTH_DATA_READ 0 (bytes_to_u16 (f_address f)) 0 (f_nonce f) in
  answer (if (b + n <=? length (ch_img w))%nat then signed (map frame (take n (drop b (ch_img w))))
          else replicate n (resp RPMB_MSG_TYPE_RESP_AUTH_DATA_READ 4 0 0 [] [])) w.

Definition see_request (x : wreq) (w : chip) : chip :=
  mk_chip (ch_first w) (ch_log w) (ch_base w) (ch_sent w ++ [x]) (ch_random w) (ch_answer w).

Definition chip_write (f : rpmb_data_frame) (w : chip) : chip :=
  let b := bytes_to_u16 (f_address f) in
  let count := bytes_to_u32 (f_write_counter f) in
  let w := see_request (mk_wreq b count (f_data f)) w in
  if (Z.to_nat b <? length (ch_img w))%nat && good_block (f_data f) && bool_decide (f_key_mac f = mac_of chip_key [f]) &&
     (count =? ch_counter w) && (ch_counter w <? UINT32_MAX) then
    let w := mk_chip (ch_first w) (ch_log w ++ [(b, f_data f)]) (ch_base w) (ch_sent w) (ch_random w) [] in
    answer (signed [resp RPMB_MSG_TYPE_RESP_AUTH_DATA_WRITE 0 b (ch_counter w) [] []]) w
  else answer (signed [resp RPMB_MSG_TYPE_RESP_AUTH_DATA_WRITE 5 b (ch_counter w) [] []]) w.

(** The chip is small, and writes one block at a time. *)
Definition chip_info : bytes := replicate 16 7 ++ [1; 1; 0].

Definition chip_invoke (rq : rpmb_req) (size : nat) (w : chip) : Z * chip :=
  (TEE_SUCCESS,
   if rq_cmd rq =? RPMB_CMD_GET_DEV_INFO then put_answer chip_info w
   else match rq_frames rq with
        | [f] =>
            if bool_decide (f_msg_type f = u16_to_bytes RPMB_MSG_TYPE_REQ_AUTH_DATA_WRITE) then chip_write f w
            else if bool_decide (f_msg_type f = u16_to_bytes RPMB_MSG_TYPE_REQ_AUTH_DATA_READ) then
              chip_read f (Z.to_nat (or_else (rq_block_count rq) 1)) w
            else if bool_decide (f_msg_type f = u16_to_bytes RPMB_MSG_TYPE_REQ_WRITE_COUNTER_VAL_READ) then
              answer (signed [resp RPMB_MSG_TYPE_RESP_WRITE_COUNTER_VAL_READ 0 0 (ch_counter w) (f_nonce f) []]) w
            else answer [resp RPMB_MSG_TYPE_RESP_AUTH_KEY_PROGRAM 0 0 0 [] []] w
        | _ => put_answer [] w
        end).

#[local] Instance chip_base : Env chip := {|
  env_res := fun w => (TEE_SUCCESS, w);
  env_rng := fun n w => ((TEE_SUCCESS, replicate n (ch_random w)), mk_chip (ch_first w) (ch_log w) (ch_base w) (ch_sent w) (ch_random w + 1) (ch_answer w));
|}.
#[local] Instance chip_env : RpmbEnv chip := {|
  env_invoke := chip_invoke;
  env_shm := fun off n w => (slice off n (ch_answer w), w);
|}.

(** ** Its answers *)

(** All fields have their size. *)
Record frame_ok (f : rpmb_data_frame) : Prop := {
  fo_lens : length (f_stuff_bytes f) = 196%nat /\ length (f_key_mac f) = 32%nat /\ length (f_data f) = 256%nat /\ length (f_nonce f) = 16%nat /\
    length (f_write_counter f) = 4%nat /\ length (f_address f) = 2%nat /\ length (f_block_count f) = 2%nat /\ length (f_op_result f) = 2%nat /\
    length (f_msg_type f) = 2%nat;
  fo_bytes : Forall is_byte (bytes_of_frame f);
}.

Lemma frame_ok_length f : frame_ok f -> length (bytes_of_frame f) = 512%nat.
Proof. intros [(H1 & H2 & H3 & H4 & H5 & H6 & H7 & H8 & H9) _]. unfold bytes_of_frame. rewrite !length_app. lia. Qed.

Lemma slice_at (pre x post : bytes) off n : length pre = off -> length x = n -> slice off n (pre ++ x ++ post) = x.
Proof. intros <- <-. unfold slice. rewrite drop_app_length. apply take_app_length. Qed.

Lemma frame_roundtrip f : frame_ok f -> frame_of_bytes (bytes_of_frame f) = f.
Proof.
  intros [(H1 & H2 & H3 & H4 & H5 & H6 & H7 & H8 & H9) _]. destruct f as [a b c d e g h i j]. cbn [f_stuff_bytes f_key_mac f_data f_nonce f_write_counter f_address f_block_count f_op_result f_msg_type] in *.
  unfold frame_of_bytes, bytes_of_frame. cbn [f_stuff_bytes f_key_mac f_data f_nonce f_write_counter f_address f_block_count f_op_result f_msg_type].
  f_equal.
  - by apply (slice_at []).
  - by apply (slice_at a).
  - rewrite (app_assoc a b). apply slice_at; [rewrite length_app; lia|done].
  - rewrite (app_assoc a b), (app_assoc _ c). apply slice_at; [rewrite !length_app; lia|done].
  - rewrite (app_assoc a b), (app_assoc _ c), (app_assoc _ d). apply slice_at; [rewrite !length_app; lia|done].
  - rewrite (app_assoc a b), (app_assoc _ c), (app_assoc _ d), (app_assoc _ e). apply slice_at; [rewrite !length_app; lia|done].
  - rewrite (app_assoc a b), (app_assoc _ c), (app_assoc _ d), (app_assoc _ e), (app_assoc _ g). apply slice_at; [rewrite !length_app; lia|done].
  - rewrite (app_assoc a b), (app_assoc _ c), (app_assoc _ d), (app_assoc _ e), (app_assoc _ g), (app_assoc _ h). apply slice_at; [rewrite !length_app; lia|done].
  - rewrite (app_assoc a b), (app_assoc _ c), (app_assoc _ d), (app_assoc _ e), (app_assoc _ g), (app_assoc _ h), (app_assoc _ i).
    rewrite <- (app_nil_r j) at 1. apply slice_at; [rewrite !length_app; lia|done].
Qed.

Lemma as_bytes_id n b : length b = n -> Forall is_byte b -> as_bytes n b = b.
Proof.
  intros <- Hb. unfold as_bytes. rewrite take_app_length. rewrite <- (map_id b) at 2. apply map_ext_Forall. eapply Forall_impl; [exact Hb|].
  intros x Hx. unfold is_byte in Hx. unfold u8. apply Z.mod_small. lia.
Qed.

Lemma slice_frame frames j f :
  Forall frame_ok frames -> frames !! j = Some f -> slice (j * 512) 512 (concat (map bytes_of_frame frames)) = bytes_of_frame f.
Proof.
  intros Hf. revert j. induction Hf as [|g frames Hg Hf IH]; intros [|j]; cbn [lookup list_lookup map concat]; [done|done| |].
  - intros [= ->]. apply (slice_at []); [done|by apply frame_ok_length].
  - intros Hj. rewrite <- (IH j Hj). unfold slice. f_equal. rewrite drop_app_ge by (rewrite frame_ok_length by done; lia). f_equal. rewrite frame_ok_length by done. lia.
Qed.

Definition same_chip (w w' : chip) : Prop := ch_first w' = ch_first w /\ ch_log w' = ch_log w /\ ch_base w' = ch_base w /\ ch_sent w' = ch_sent w.

Lemma same_chip_log w w' : same_chip w w' -> ch_hist w' = ch_hist w /\ ch_sent w' = ch_sent w /\ ch_done w' = ch_done w.
Proof. intros (H1 & H2 & H3 & H4). unfold ch_hist, ch_done. rewrite H1, H2, H3, H4. done. Qed.

Lemma quiet_answer w w' : quiet w w' -> ch_answer w' = ch_answer w /\ same_chip w w'.
Proof.
  induction 1 as [|x y z Hxy _ IH]; [done|]. destruct IH as [-> (H1 & H2 & H3 & H4)]. unfold same_chip. rewrite H1, H2, H3, H4. by destruct Hxy.
Qed.

(** What is seen of an answer is the answer. *)
Lemma saw_answer w frames j f g : Forall frame_ok frames -> frames !! j = Some f -> saw_frame (answer frames w) j g -> g = f.
Proof.
  intros Hf Hj (b & (w' & Hq & ->) & ->). destruct (quiet_answer _ _ Hq) as [Ha _]. cbn [env_shm chip_env fst]. rewrite Ha. cbn [ch_answer answer put_answer].
  unfold RPMB_DATA_FRAME_SIZE. rewrite (slice_frame frames j f) by done. assert (Hof : frame_ok f) by (by eapply Forall_lookup_1).
  rewrite as_bytes_id by first [by apply frame_ok_length|apply Hof]. by apply frame_roundtrip.
Qed.

Lemma u16_bytes x : length (u16_to_bytes x) = 2%nat /\ Forall is_byte (u16_to_bytes x).
Proof. split; [done|]. repeat constructor; unfold is_byte, u8; apply Z.mod_pos_bound; lia. Qed.
Lemma u32_bytes x : length (u32_to_bytes x) = 4%nat /\ Forall is_byte (u32_to_bytes x).
Proof. split; [done|]. repeat constructor; unfold is_byte, u8; apply Z.mod_pos_bound; lia. Qed.
Lemma u16_roundtrip x : is_u16 x -> bytes_to_u16 (u16_to_bytes x) = x.
Proof.
  unfold is_u16. intros Hx. unfold bytes_to_u16, u16_to_bytes, u8. cbn [nth]. rewrite Z.shiftr_div_pow2, Z.shiftl_mul_pow2 by lia.
  rewrite u16_small; [|unfold is_u16]; Z.div_mod_to_equations; lia.
Qed.

Lemma u32_roundtrip x : bytes_to_u32 (u32_to_bytes x) = u32 x.
Proof.
  unfold bytes_to_u32, u32_to_bytes, u8, u32. cbn [nth]. rewrite !Z.shiftr_div_pow2, !Z.shiftl_mul_pow2 by lia.
  change (2 ^ 24) with 16777216. change (2 ^ 16) with 65536. change (2 ^ 8) with 256.
  Z.div_mod_to_equations; lia.
Qed.

Lemma bytes_u16_range b : is_u16 (bytes_to_u16 b).
Proof. unfold is_u16, bytes_to_u16, u16. apply Z.mod_pos_bound. lia. Qed.

Lemma zero_bytes n : Forall is_byte (replicate n 0).
Proof. apply Forall_replicate. done. Qed.

Lemma resp_ok t r a c n d : frame_ok (resp t r a c n d).
Proof.
  destruct (u16_bytes t), (u16_bytes r), (u16_bytes a), (u32_bytes c). split; cbn [resp f_stuff_bytes f_key_mac f_data f_nonce f_write_counter f_address f_block_count f_op_result f_msg_type].
  - rewrite !length_replicate, !as_bytes_length. by split_and!.
  - unfold bytes_of_frame. cbn [resp f_stuff_bytes f_key_mac f_data f_nonce f_write_counter f_address f_block_count f_op_result f_msg_type].
    repeat (apply Forall_app; split); first [assumption|apply as_bytes_bytes|apply zero_bytes].
Qed.

Lemma with_mac_ok mac f : length mac = 32%nat -> Forall is_byte mac -> frame_ok f -> frame_ok (with_mac mac f).
Proof.
  intros Hl Hb [(H1 & H2 & H3 & H4 & H5 & H6 & H7 & H8 & H9) Hf]. split; [by cbn; split_and!|]. unfold bytes_of_frame in *.
  cbn [with_mac f_stuff_bytes f_key_mac f_data f_nonce f_write_counter f_address f_block_count f_op_result f_msg_type]. rewrite !Forall_app in *. tauto.
Qed.

Lemma signed_ok frames : Forall frame_ok frames -> Forall frame_ok (signed frames).
Proof.
  intros Hf. unfold signed. apply Forall_lookup. intros j f Hj. destruct (decide (j = length frames - 1)%nat) as [->|Hne].
  - rewrite list_lookup_alter_eq in Hj. destruct (frames !! (length frames - 1)%nat) as [g|] eqn:Hg; [|done]. injection Hj as <-.
    apply with_mac_ok; [apply as_bytes_length|apply as_bytes_bytes|by eapply Forall_lookup_1].
  - rewrite list_lookup_alter_ne in Hj by done. by eapply Forall_lookup_1.
Qed.

(** The MAC aside, signed frames are as before. *)
Lemma signed_lookup frames j f : signed frames !! j = Some f ->
  exists g, frames !! j = Some g /\ f_data f = f_data g /\ f_op_result f = f_op_result g /\ f_address f = f_address g.
Proof.
  unfold signed. intros Hj. destruct (decide (j = length frames - 1)%nat) as [->|Hne].
  - rewrite list_lookup_alter_eq in Hj. destruct (frames !! (length frames - 1)%nat) as [g|]; [|done]. injection Hj as <-. by exists g.
  - rewrite list_lookup_alter_ne in Hj by done. by exists f.
Qed.

Lemma norm_wf m : blocks_wf (norm m).
Proof. apply Forall_map, Forall_true. intros b. split; [apply as_bytes_length|apply as_bytes_bytes]. Qed.
Lemma norm_id m : blocks_wf m -> norm m = m.
Proof. intros Hm. unfold norm. rewrite <- (map_id m) at 2. apply map_ext_Forall. eapply Forall_impl; [exact Hm|]. intros b [Hl Hb]. by apply as_bytes_id. Qed.

Lemma done_blocks w : Forall (fun x => length (q_data x) = 256%nat /\ Forall is_byte (q_data x)) (ch_done w).
Proof. apply Forall_lookup. intros i x. unfold ch_done. rewrite list_lookup_imap. destruct (ch_log w !! i); [|done]. cbn. intros [= <-]. split; [apply as_bytes_length|apply as_bytes_bytes]. Qed.

Lemma ch_img_carry w : ch_img w = carry (norm (ch_first w)) (ch_done w).
Proof. exact (latest_images [norm (ch_first w)] (ch_done w)). Qed.

Lemma ch_img_wf w : blocks_wf (ch_img w).
Proof.
  rewrite ch_img_carry. pose proof (done_blocks w) as Hd. pose proof (norm_wf (ch_first w)) as Hm. revert Hm.
  generalize (norm (ch_first w)). induction Hd as [|x l [Hl Hb] Hd IH]; intros m Hm; [done|]. apply IH. by apply blocks_wf_insert.
Qed.

Lemma ch_once w : NoDup (used (ch_done w)).
Proof.
  assert (used (ch_done w) = (fun i => ch_base w + Z.of_nat i) <$> seq 0 (length (ch_log w))) as ->.
  { apply list_eq. intros i. unfold used, ch_done. rewrite !list_lookup_fmap, list_lookup_imap. destruct (decide (i < length (ch_log w))%nat) as [Hi|Hi].
    - rewrite lookup_seq_lt by done. destruct (lookup_lt_is_Some_2 _ _ Hi) as [x ->]. done.
    - rewrite lookup_seq_ge, lookup_ge_None_2 by lia. done. }
  apply NoDup_fmap_2_strong; [intros x y _ _ H; lia|apply NoDup_seq].
Qed.

(** ** The promises of [RpmbDevice] *)

(** What a write request does: it is refused, or carried out. *)
Lemma chip_write_log f w :
  let x := mk_wreq (bytes_to_u16 (f_address f)) (bytes_to_u32 (f_write_counter f)) (f_data f) in
  ch_sent (chip_write f w) = ch_sent w ++ [x] /\
  (ch_done (chip_write f w) = ch_done w /\ ch_hist (chip_write f w) = ch_hist w /\
     (forall g, saw_frame (chip_write f w) 0 g -> get_op_result_bits (f_op_result g) <> RPMB_RESULT_OK) \/
   (Z.to_nat (q_block x) < length (ch_img w))%nat /\ ch_done (chip_write f w) = ch_done w ++ [x] /\
     ch_hist (chip_write f w) = ch_hist w ++ images (latest (ch_hist w)) [x]).
Proof.
  intros x. unfold chip_write. set (w1 := see_request _ w). change (ch_img w1) with (ch_img w). change (ch_counter w1) with (ch_counter w).
  destruct (_ && _) eqn:E; (split; [done|]).
  - right. apply andb_true_iff in E as [[[[E1%Nat.ltb_lt E2]%andb_true_iff _]%andb_true_iff Ec%Z.eqb_eq]%andb_true_iff _]. split; [done|].
    assert (as_bytes 256 (f_data f) = f_data f) as Ed.
    { unfold good_block in E2. apply andb_true_iff in E2 as [E2%Nat.eqb_eq E3]. apply as_bytes_id; [done|].
      rewrite forallb_forall in E3. apply Forall_forall. intros y Hy%list_elem_of_In. apply E3, andb_true_iff in Hy as [?%Z.leb_le ?%Z.ltb_lt]. done. }
    set (w2 := answer _ _). assert (ch_done w2 = ch_done w ++ [x]) as Hd.
    { change (ch_done w2) with (imap (fun i x => mk_wreq x.1 (ch_base w + Z.of_nat i) (as_bytes 256 x.2)) (ch_log w ++ [(bytes_to_u16 (f_address f), f_data f)])).
      rewrite imap_app. unfold ch_done. f_equal. cbn [imap fst snd compose]. rewrite Nat.add_0_r, Ed. unfold x. by rewrite Ec. }
    split; [done|]. unfold ch_hist at 1. rewrite Hd, images_app. change (ch_first w2) with (ch_first w). rewrite <- ch_img_carry. done.
  - left. split; [done|]. split; [done|]. intros g Hg. set (r := resp _ 5 _ _ _ _) in Hg.
    assert (Hr : exists r', signed [r] !! 0%nat = Some r' /\ f_op_result r' = f_op_result r) by (exists (with_mac (as_bytes 32 (mac_of chip_key [r])) r); split; reflexivity).
    destruct Hr as (r' & Hr' & Er). assert (Hok : Forall frame_ok (signed [r])) by (apply signed_ok, Forall_singleton, resp_ok).
    rewrite (saw_answer w1 _ 0 r' g Hok Hr' Hg), Er. by vm_compute.
Qed.

Lemma other_requests f n w : ~ f_msg_type f = u16_to_bytes RPMB_MSG_TYPE_REQ_AUTH_DATA_WRITE -> forall cmd dev bc,
  same_chip w (chip_invoke (mk_req cmd dev bc [f]) n w).2.
Proof.
  intros Hf cmd dev bc. unfold chip_invoke. cbn [rq_cmd rq_frames rq_block_count snd]. destruct (_ =? _); [done|].
  rewrite bool_decide_eq_false_2 by done. unfold chip_read. by repeat case_bool_decide.
Qed.

Lemma other_same rq n w : ~ writes rq -> same_chip w (chip_invoke rq n w).2.
Proof.
  intros Hnw. destruct rq as [cmd dev bc [|f [|g fr]]]; try (unfold chip_invoke; by destruct (_ =? _)).
  apply other_requests. intros E. apply Hnw. exists f. split; [set_solver|done].
Qed.

Lemma map_norm_data t a c nonce (bl : list bytes) : blocks_wf bl -> map f_data (map (resp t 0 a c nonce) bl) = bl.
Proof.
  intros Hb. rewrite map_map. rewrite <- (map_id bl) at 2. apply map_ext_Forall. eapply Forall_impl; [exact Hb|]. intros d [Hl Hd]. by apply as_bytes_id.
Qed.

Lemma chip_read_auth dev b nonce n w frames lastfrm :
  length frames = n -> saw_frames (chip_invoke (read_request dev b nonce (Z.of_nat n)) 0 w).2 0 frames -> last frames = Some lastfrm ->
  get_op_result_bits (f_op_result lastfrm) = RPMB_RESULT_OK -> bytes_to_u16 (f_address lastfrm) = b ->
  map f_data frames = take n (drop (Z.to_nat b) (ch_img w)).
Proof.
  intros Hn Hs Hl Hop Ha. assert (H16 : is_u16 b) by (subst b; apply bytes_u16_range).
  change (chip_invoke (read_request dev b nonce (Z.of_nat n)) 0 w).2 with
    (chip_read (fill_frame (mk_raw RPMB_MSG_TYPE_REQ_AUTH_DATA_READ None (Some b) None (Some nonce) None None 0 0) (f_data zero_frame)) (Z.to_nat (Z.of_nat n)) w) in Hs.
  rewrite Nat2Z.id in Hs. unfold chip_read in Hs. cbn [fill_frame f_address f_nonce rd_blk_idx rd_nonce or_else fmap option_fmap option_map] in Hs.
  change (f_address (fill_frame _ _)) with (u16_to_bytes b) in Hs. rewrite u16_roundtrip in Hs by done.
  assert (Hlast : frames !! (n - 1)%nat = Some lastfrm) by (rewrite last_lookup, Hn in Hl; by rewrite Nat.sub_1_r).
  assert (Hnz : (0 < n)%nat) by (apply lookup_lt_Some in Hlast; lia).
  destruct (Nat.leb_spec (Z.to_nat b + n) (length (ch_img w))) as [Hle|Hgt].
  - set (bl := take n (drop (Z.to_nat b) (ch_img w))) in *. assert (Hblw : blocks_wf bl) by (apply Forall_take, Forall_drop, ch_img_wf).
    set (fr := map _ bl) in Hs. assert (Hfr : Forall frame_ok fr) by (apply Forall_map, Forall_true; intros; apply resp_ok).
    assert (Hbll : length bl = n) by (unfold bl; rewrite length_take, length_drop; lia).
    rewrite <- (map_norm_data RPMB_MSG_TYPE_RESP_AUTH_DATA_READ b 0 nonce bl Hblw). fold fr. apply list_eq. intros j. rewrite !list_lookup_fmap.
    assert (Hfl : length fr = n) by (unfold fr; by rewrite length_map). assert (Hsl : length (signed fr) = n) by (unfold signed; by rewrite length_alter).
    destruct (decide (j < n)%nat) as [Hj|Hj].
    + destruct (lookup_lt_is_Some_2 frames j ltac:(lia)) as [f Hf], (lookup_lt_is_Some_2 (signed fr) j ltac:(lia)) as [g Hg]. rewrite Hf.
      rewrite (saw_answer w (signed fr) j g f (signed_ok _ Hfr) Hg (Hs j f Hf)). destruct (signed_lookup _ _ _ Hg) as (g' & -> & E & _). cbn. by rewrite E.
    + by rewrite !lookup_ge_None_2 by lia.
  - exfalso. set (e := resp _ 4 _ _ _ _) in Hs. assert (Hr : replicate n e !! (n - 1)%nat = Some e) by (apply lookup_replicate_2; lia).
    assert (Hok : Forall frame_ok (replicate n e)) by (apply Forall_replicate, resp_ok).
    rewrite (saw_answer w _ (n - 1) e lastfrm Hok Hr (Hs (n - 1)%nat lastfrm Hlast)) in Hop. by vm_compute in Hop.
Qed.

(** The frame of a request to write. *)
Lemma write_frame mackey dev b wc out w n :
  let f := request_mac hmac_sha256 mackey (write_raw b wc []) (fill_frame (write_raw b wc []) out) in
  (chip_invoke (write_request hmac_sha256 mackey dev b wc out) n w).2 = chip_write f w /\
  (is_u16 b -> mk_wreq (bytes_to_u16 (f_address f)) (bytes_to_u32 (f_write_counter f)) (f_data f) = mk_wreq b (u32 wc) out).
Proof.
  intros f. split; [done|]. intros H16. change (f_address f) with (u16_to_bytes b). change (f_write_counter f) with (u32_to_bytes wc).
  change (f_data f) with out. by rewrite u16_roundtrip, u32_roundtrip.
Qed.

#[local] Program Instance chip_device (hw : bytes) : RpmbDevice chip hmac_sha256 hw := {| dv_hist := ch_hist; dv_sent := ch_sent; dv_done := ch_done |}.
Next Obligation. done. Qed.
Next Obligation. intros hw w. apply ch_img_wf. Qed.
Next Obligation. intros hw w w' H. apply (same_chip_log w w'), (quiet_answer w w' (quiet_once _ _ H)). Qed.
Next Obligation. intros hw w w' H. apply (same_chip_log w w'), (quiet_answer w w' (quiet_once _ _ H)). Qed.
Next Obligation. intros hw rq n w Hnw. by apply (same_chip_log _ _ (other_same rq n w Hnw)). Qed.
Next Obligation. intros hw rq n w Hnw. by apply (same_chip_log _ _ (other_same rq n w Hnw)). Qed.
Next Obligation.
  intros hw mackey dev b wc out w w' H16 ->. cbn [env_invoke chip_env].
  destruct (write_frame mackey dev b wc out w RPMB_DATA_FRAME_SIZE) as [-> Ex]. specialize (Ex H16).
  destruct (chip_write_log (request_mac hmac_sha256 mackey (write_raw b wc []) (fill_frame (write_raw b wc []) out)) w) as [Hs Hd].
  cbv zeta in Hs, Hd. rewrite Ex in Hs, Hd. split; [exact Hs|]. rewrite Hs. destruct Hd as [(Hd & Hh & _)|(Hb & Hd & Hh)].
  - exists []. rewrite Hd, Hh, !app_nil_r. split_and!; [done|done|]. by intros x ?%elem_of_nil.
  - exists [mk_wreq b (u32 wc) out]. rewrite Hd, Hh. split_and!; [done|done|]. intros x ->%list_elem_of_singleton.
    split; [apply elem_of_app; right; by apply list_elem_of_singleton|done].
Qed.
Next Obligation. intros hw w. apply ch_once. Qed.
Next Obligation.
  intros hw m dev b nonce n size w w' frames lastfrm mac Hinv Hn Hs Hl _ _ Hop _ Ha _. cbn [env_invoke chip_env] in Hinv. injection Hinv as <-.
  eapply (chip_read_auth dev b nonce); done.
Qed.
Next Obligation.
  intros hw m dev b wc out w w' Hinv (f & mac & Hf & _ & _ & Hop & _ & Ha & _). cbn [env_invoke chip_env] in Hinv. injection Hinv as <-.
  assert (H16 : is_u16 b) by (subst b; apply bytes_u16_range).
  destruct (write_frame (rpmb_key hmac_sha256 hw m) dev b wc out w RPMB_DATA_FRAME_SIZE) as [_ Ex]. specialize (Ex H16).
  set (rf := request_mac hmac_sha256 (rpmb_key hmac_sha256 hw m) (write_raw b wc []) (fill_frame (write_raw b wc []) out)) in *.
  change (saw_frame (chip_write rf w) 0 f) in Hf. destruct (chip_write_log rf w) as [_ [(_ & _ & Hno)|(_ & Hd & _)]]; [by destruct (Hno f Hf)|].
  exists out. change (mk_wreq b (u32 wc) out ∈ ch_done (chip_write rf w)). rewrite Hd, <- Ex. apply elem_of_app. right. by apply list_elem_of_singleton.
Qed.

#[local] Program Instance chip_prompt (hw : bytes) : PromptWorld chip hmac_sha256 hw.
Next Obligation.
  intros hw mackey dev b wc out w w' H16 ->. cbn [env_invoke chip_env].
  destruct (write_frame mackey dev b wc out w RPMB_DATA_FRAME_SIZE) as [-> Ex]. specialize (Ex H16).
  destruct (chip_write_log (request_mac hmac_sha256 mackey (write_raw b wc []) (fill_frame (write_raw b wc []) out)) w) as [_ Hd].
  cbv zeta in Hd. rewrite Ex in Hd. destruct Hd as [(_ & Hh & _)|(Hb & _ & Hh)]; [by left|right]. split; [exact Hb|exact Hh].
Qed.
Next Obligation.
  intros hw m dev b wc out w w' Hinv (f & mac & Hf & _ & _ & Hop & _ & Ha & _). cbn [env_invoke chip_env] in Hinv. injection Hinv as <-.
  assert (H16 : is_u16 b) by (subst b; apply bytes_u16_range).
  destruct (write_frame (rpmb_key hmac_sha256 hw m) dev b wc out w RPMB_DATA_FRAME_SIZE) as [_ Ex]. specialize (Ex H16).
  set (rf := request_mac hmac_sha256 (rpmb_key hmac_sha256 hw m) (write_raw b wc []) (fill_frame (write_raw b wc []) out)) in *.
  change (saw_frame (chip_write rf w) 0 f) in Hf. destruct (chip_write_log rf w) as [_ [(_ & _ & Hno)|(Hb & _ & Hh)]]; [by destruct (Hno f Hf)|].
  rewrite Ex in Hb, Hh. split; [exact Hb|]. change (latest (ch_hist (chip_write rf w)) = <[Z.to_nat b := out]> (latest (ch_hist w))). by rewrite Hh, latest_images.
Qed.
End chip.
