(* ===== verification/RpmbDevProps.v ===== *)
(** * The RPMB device: what reading and writing it guarantee

    Reading and writing bytes through frames, on a chip that keeps the promises of [RpmbDevice] and with a
    normal world that may drop, delay or change what it passes on; one write request with any normal world at all; and how
    normal world makes a write succeed that the chip never carries out. *)

From S2P Require Import Prelude ErrM Cipher CipherModes FsKey Rpmb RpmbSpec RpmbWrite RpmbDev RpmbBlocks RpmbLog RpmbDevice RpmbDevWrite RpmbChip.
From stdpp Require Import base list relations.
From Stdlib Require Import ZArith Lia.

Local Open Scope Z_scope.

Section refines.
Context {W : Type} {RE : RpmbEnv W} {BC : BlockCipher} {BL : BlockCipherLaws BC}.
Context (hmac_sha256 : bytes -> bytes -> bytes) (sha256_hash : bytes -> bytes) (hw_unique_key : bytes).
Context (cfg_write_key plat_rpmb_key_is_ready : bool) (dev_id : Z) (ssk : tee_fs_ssk).
Context {DEV : RpmbDevice W hmac_sha256 hw_unique_key}.

Local Notation St := (rpmb_state W).

(** The blocks of the chip in the clear, for a key. *)
Definition device_bytes (k : dkey) (s : St) : bytes := concat (view hmac_sha256 sha256_hash ssk k (latest (st_hist hmac_sha256 hw_unique_key s))).
Definition device_size (s : St) : nat := (256 * length (latest (st_hist hmac_sha256 hw_unique_key s)))%nat.

(** C13. [tee_rpmb_read] reads: what it returns are the bytes the chip holds at the address, deciphered; the request
    does not change the chip, and whatever normal world answers instead gives an error. *)
Theorem rpmb_read_refines addr len k (s : St) :
  st_inv hmac_sha256 hw_unique_key ssk s -> 0 <= addr -> 0 < len -> addr + len <= 65535 * 256 ->
  wp (tee_rpmb_read hmac_sha256 sha256_hash hw_unique_key false cfg_write_key plat_rpmb_key_is_ready dev_id addr len k)
    (fun r s' => st_inv hmac_sha256 hw_unique_key ssk s' /\ dv_hist (rs_env s') = dv_hist (rs_env s) /\ rs_dead s' = rs_dead s /\
      match r with
      | ROk d => rs_dead s = false /\ (Z.to_nat (addr + len) <= device_size s)%nat /\ d = slice (Z.to_nat addr) (Z.to_nat len) (device_bytes k s)
      | RErr e => e <> TEE_SUCCESS
      | RPanic => False
      end) s.
Proof.
  intros Hi Ha Hl Hal. eapply wp_mono; [by apply (m_read_law hmac_sha256 sha256_hash hw_unique_key cfg_write_key plat_rpmb_key_is_ready dev_id ssk)|].
  intros r s' ([Hi' _ Hh Hd] & Hc & Hr). split_and!; [done|done|done|]. destruct r as [d|e|]; [|done|done]. by destruct (Hr d eq_refl) as (_ & ? & ? & ?).
Qed.

(** C8. [tee_rpmb_write] writes, where nothing that was signed before can still be carried out ([at_rest]); normal world may
    hold back, repeat and forge what it likes. The call signs requests for the blocks concerned only, and the chip goes
    through images that differ in these blocks only; a write inside of one block is done as a whole or not at all, and if it fails
    it was not done unless the device is given up. Success means that the chip holds the bytes at the address,
    provided that no request was signed for a count the chip had used before: an acknowledgement only says that some request for
    this block and count was carried out, and the count of a retry is not authenticated ([rpmb_write_replayed]). If there was
    no retry (one request for each block), nothing is left to be carried out later. *)
Theorem rpmb_write_refines addr d k (s : St) :
  st_inv hmac_sha256 hw_unique_key ssk s -> at_rest hmac_sha256 hw_unique_key s ->
  0 <= addr -> d <> [] -> Forall is_byte d -> addr + Z.of_nat (length d) <= 65535 * 256 ->
  wp (tee_rpmb_write hmac_sha256 sha256_hash hw_unique_key false cfg_write_key plat_rpmb_key_is_ready dev_id addr d k)
    (fun r s' => st_inv hmac_sha256 hw_unique_key ssk s' /\
      exists new ms, dv_sent (rs_env s') = dv_sent (rs_env s) ++ new /\
        (forall x, x ∈ new -> exists i, q_block x = Z.of_nat i /\ in_blocks addr (Z.of_nat (length d)) i) /\
        dv_hist (rs_env s') = dv_hist (rs_env s) ++ ms /\
        write_images (view hmac_sha256 sha256_hash ssk) addr d k (latest (dv_hist (rs_env s))) ms /\
        match r with
        | ROk _ => rs_dead s' = false /\
            ((forall x, x ∈ new -> q_count x ∉ used (dv_done (rs_env s))) ->
             (Z.to_nat addr + length d <= device_size s)%nat /\ device_bytes k s' = splice (Z.to_nat addr) d (device_bytes k s)) /\
            (Z.of_nat (length new) = (addr mod 256 + Z.of_nat (length d) + 255) / 256 -> at_rest hmac_sha256 hw_unique_key s')
        | RErr e => e <> TEE_SUCCESS /\ (addr mod 256 + Z.of_nat (length d) <= 256 -> rs_dead s' = true \/ new = [] /\ ms = [])
        | RPanic => False
        end) s.
Proof.
  intros Hi Hrest Ha Hd Hb Hal.
  exact (tee_rpmb_write_promise hmac_sha256 sha256_hash hw_unique_key cfg_write_key plat_rpmb_key_is_ready dev_id ssk addr d k s Hi Hrest Ha Hd Hb Hal).
Qed.
End refines.

(** ** One write request *)

Section request.
Context {W : Type} {RE : RpmbEnv W} {BC : BlockCipher} {BL : BlockCipherLaws BC}.
Context (hmac_sha256 : bytes -> bytes -> bytes) (sha256_hash : bytes -> bytes).

Local Notation St := (rpmb_state W).

(** C14. Whatever normal world does, [write_req] for one block sends nothing but requests to write this data, enciphered, to
    this block, signed with the device's key. It succeeds only if one of them was acknowledged: by an answer with a
    valid MAC, this address and the next value of the counter. If it fails after a request has been sent, the device is
    given up; otherwise nothing was sent. *)
Theorem rpmb_write_req_acknowledged dev_id b data key c (s : St) :
  rs_ctx s = Some c -> (RPMB_DATA_SIZE <= length data)%nat ->
  let d := take RPMB_DATA_SIZE data in
  wp (write_req hmac_sha256 sha256_hash one_frame_size dev_id b data 1 key)
    (fun r s' => rtc (wstep hmac_sha256 sha256_hash (c_key c) dev_id b (rs_ssk s) key d) (rs_env s) (rs_env s') /\
      match r with
      | ROk _ => rs_dead s' = rs_dead s /\ written hmac_sha256 sha256_hash (c_key c) dev_id b (rs_ssk s) key d (rs_env s) (rs_env s')
      | RErr e => e = TEE_ERROR_COMMUNICATION /\ rs_dead s' = true \/ e <> TEE_SUCCESS /\ rs_dead s' = rs_dead s /\ quiet (rs_env s) (rs_env s')
      | RPanic => False
      end) s.
Proof.
  intros Hc Hl d. unfold write_req. apply wp_bind. unfold wp at 1, ctx. rewrite Hc. cbn [fst snd cont]. apply wp_bind.
  change (assert_ (one_frame_size <=? rpmb_req_size + 1 * RPMB_DATA_FRAME_SIZE)%nat) with (mret tt : M St unit). apply wp_ret. cbn [cont].
  eapply wp_mono; [apply (write_req_loop_outcome hmac_sha256 sha256_hash (c_key c) dev_id b (rs_ssk s) key d RPMB_MAX_RETRIES _ data (c_wr_cnt c) c s); done|].
  intros r s' [_ _ He Hr]. split; [done|]. destruct r as [[]|e|]; [done| |done].
  destruct Hr as [?|(_ & ? & [_ ? _ ?])]; [by left|by right].
Qed.
End request.

(** ** On a chip *)

(** A cipher with keys of 16 and 32 bytes, and a MAC, for examples. *)
#[local] Instance toy_cipher : BlockCipher := {|
  bc_key := Z;
  bc_len := 16;
  bc_setup := fun key => if (length key =? 16)%nat || (length key =? 32)%nat then Some (nth 0 key 0 mod 256) else None;
  bc_encrypt := fun k b => reverse (Z.lxor (k mod 256) <$> b);
  bc_decrypt := fun k b => Z.lxor (k mod 256) <$> reverse b;
|}.

Lemma xor_key_bytes k b : Forall is_byte b -> Forall is_byte (Z.lxor (k mod 256) <$> b).
Proof.
  intros Hb. apply Forall_fmap. eapply Forall_impl; [exact Hb|]. intros x Hx. apply is_byte_xor; [|done]. apply (Z.mod_pos_bound k 256). lia.
Qed.

#[local] Instance toy_cipher_laws : BlockCipherLaws toy_cipher.
Proof.
  split; cbn [bc_len bc_encrypt bc_decrypt toy_cipher].
  - lia.
  - intros k b [Hl Hb]. split; [by rewrite length_reverse, length_fmap|]. by apply Forall_reverse, xor_key_bytes.
  - intros k b [Hl Hb]. split; [by rewrite length_fmap, length_reverse|]. by apply xor_key_bytes, Forall_reverse.
  - intros k b _. rewrite reverse_involutive, <- list_fmap_compose. rewrite <- (list_fmap_id b) at 2.
    apply list_fmap_ext. intros _ x _. cbn. rewrite <- Z.lxor_assoc, Z.lxor_nilpotent. apply Z.lxor_0_l.
Qed.

Definition toy_hmac (key m : bytes) : bytes := let x := foldl (fun a b => (31 * a + b) mod 65521) 7 (key ++ m) in replicate 31 (x / 256) ++ [x mod 256].
Definition toy_hash (m : bytes) : bytes := replicate 32 (foldl (fun a b => (17 * a + b) mod 251) 3 m).
Definition toy_hw : bytes := replicate 16 3.
Definition toy_ssk : tee_fs_ssk := mk_ssk true (replicate 32 9).

(** The key that the code derives for the chip, which was programmed into it. *)
Definition toy_key : bytes := replicate 31 145 ++ [132].
Definition toy_chip : chip := mk_chip (map (fun x => replicate 256 (Z.of_nat x)) (seq 1 4)) [] 40 [] 0 [].
Definition toy_start : rpmb_state chip := mk_rs None false toy_ssk toy_chip.
Definition toy_file : dkey := Some (replicate 16 5, replicate 16 6).

#[local] Instance toy_env : RpmbEnv chip := chip_env toy_hmac toy_key.
#[local] Instance toy_device : RpmbDevice chip toy_hmac toy_hw := chip_device toy_hmac toy_key toy_hw.

Local Notation toy_read := (tee_rpmb_read toy_hmac toy_hash toy_hw false false true 0).
Local Notation toy_write := (tee_rpmb_write toy_hmac toy_hash toy_hw false false true 0).

Lemma toy_start_inv : st_inv toy_hmac toy_hw toy_ssk toy_start.
Proof. by split. Qed.

(** What a specification says of a run whose result is known. *)
Lemma wp_result {S A} (m : M S A) (Q : rres A -> S -> Prop) s r : wp m Q s -> (m s).1 = r -> Q r (m s).2.
Proof. unfold wp. by intros H <-. Qed.

(** Ten bytes across two blocks, and what they are on the chip. *)
Lemma toy_read_runs : (toy_read 250 10 None toy_start).1 = ROk (replicate 6 1 ++ replicate 4 2).
Proof. vm_compute. reflexivity. Qed.

Lemma rpmb_read_refines_witness :
  (toy_read 250 10 None toy_start).1 = ROk (replicate 6 1 ++ replicate 4 2) /\
  replicate 6 1 ++ replicate 4 2 = slice 250 10 (device_bytes toy_hmac toy_hash toy_hw toy_ssk None toy_start).
Proof.
  split; [exact toy_read_runs|].
  pose proof (wp_result _ _ _ _ (rpmb_read_refines toy_hmac toy_hash toy_hw false true 0 toy_ssk 250 10 None toy_start toy_start_inv ltac:(lia) ltac:(lia) ltac:(lia)) toy_read_runs) as H.
  apply H.
Defined.

(** A block of a file, enciphered on the chip. *)
Lemma toy_write_runs : (toy_write 512 (replicate 256 77) toy_file toy_start).1 = ROk tt /\
  latest (dv_hist (rs_env (toy_write 512 (replicate 256 77) toy_file toy_start).2)) !! 2%nat <> Some (replicate 256 77).
Proof. split; vm_compute; [reflexivity|discriminate]. Qed.

Lemma toy_at_rest : at_rest toy_hmac toy_hw toy_start.
Proof. intros x H. by apply elem_of_nil in H. Qed.

Lemma toy_requests :
  used (drop 0 (dv_sent (rs_env (toy_write 512 (replicate 256 77) toy_file toy_start).2))) = [40].
Proof. vm_compute. reflexivity. Qed.

Lemma rpmb_write_refines_witness :
  latest (dv_hist (rs_env (toy_write 512 (replicate 256 77) toy_file toy_start).2)) !! 2%nat <> Some (replicate 256 77) /\
  device_bytes toy_hmac toy_hash toy_hw toy_ssk toy_file (toy_write 512 (replicate 256 77) toy_file toy_start).2 =
    splice 512 (replicate 256 77) (device_bytes toy_hmac toy_hash toy_hw toy_ssk toy_file toy_start) /\
  at_rest toy_hmac toy_hw (toy_write 512 (replicate 256 77) toy_file toy_start).2.
Proof.
  split; [apply toy_write_runs|].
  pose proof (wp_result _ _ _ _ (rpmb_write_refines toy_hmac toy_hash toy_hw false true 0 toy_ssk 512 (replicate 256 77) toy_file toy_start toy_start_inv toy_at_rest
    ltac:(lia) ltac:(done) (Forall_replicate is_byte 256 77 ltac:(done)) ltac:(done)) (proj1 toy_write_runs)) as H.
  destruct H as (_ & new & ms & Hnew & _ & _ & _ & _ & H & H').
  assert (used new = [40]) as E by (rewrite <- toy_requests, Hnew; reflexivity).
  split; [apply H|apply H'].
  - intros x Hx Hu. by apply elem_of_nil in Hu.
  - apply (f_equal length) in E. unfold used in E. rewrite length_fmap in E. rewrite E. reflexivity.
Defined.

(** The request is acknowledged when the context knows the key and the counter. *)
Definition toy_ctx : tee_rpmb_ctx := mk_ctx toy_key (replicate 16 7) 40 511 1 0 true true true true.
Definition toy_known : rpmb_state chip := mk_rs (Some toy_ctx) false toy_ssk toy_chip.
Local Notation toy_request := (write_req toy_hmac toy_hash one_frame_size 0 3 (replicate 256 77) 1 None).

Lemma toy_request_runs : (toy_request toy_known).1 = ROk tt.
Proof. vm_compute. reflexivity. Qed.

Lemma rpmb_write_req_acknowledged_witness :
  written toy_hmac toy_hash toy_key 0 3 toy_ssk None (replicate 256 77) toy_chip (rs_env (toy_request toy_known).2).
Proof.
  pose proof (rpmb_write_req_acknowledged toy_hmac toy_hash 0 3 (replicate 256 77) None toy_ctx toy_known eq_refl ltac:(done)) as H.
  cbv zeta in H. apply (wp_result _ _ _ _ H toy_request_runs).
Defined.

(** ** A normal world that replays an acknowledgement *)

(** What it does with a write request: pass it on to the chip; answer that a count is right, without any MAC; or answer
    with the acknowledgement it has kept of the first one. *)
Inductive trick := Pass | Claim (addr count : Z) | Replay.

Record spy := mk_spy { sp_chip : chip; sp_tricks : list trick; sp_kept : bytes }.

Definition is_write (rq : rpmb_req) : bool :=
  existsb (fun f => bool_decide (f_msg_type f = u16_to_bytes RPMB_MSG_TYPE_REQ_AUTH_DATA_WRITE)) (rq_frames rq).

Definition spy_invoke (rq : rpmb_req) (n : nat) (w : spy) : Z * spy :=
  if is_write rq then
    match sp_tricks w with
    | Claim a c :: l => (TEE_SUCCESS, mk_spy (put_answer (bytes_of_frame (resp RPMB_MSG_TYPE_RESP_AUTH_DATA_WRITE 0 a c [] [])) (sp_chip w)) l (sp_kept w))
    | Replay :: l => (TEE_SUCCESS, mk_spy (put_answer (sp_kept w) (sp_chip w)) l (sp_kept w))
    | l => let '(z, c) := env_invoke rq n (sp_chip w) in (z, mk_spy c (tail l) (if (length (sp_kept w) =? 0)%nat then ch_answer c else sp_kept w))
    end
  else let '(z, c) := env_invoke rq n (sp_chip w) in (z, mk_spy c (sp_tricks w) (sp_kept w)).

#[local] Instance spy_base : Env spy := {|
  env_res := fun w => let '(z, c) := env_res (sp_chip w) in (z, mk_spy c (sp_tricks w) (sp_kept w));
  env_rng := fun n w => let '(x, c) := env_rng n (sp_chip w) in (x, mk_spy c (sp_tricks w) (sp_kept w));
|}.
#[local] Instance spy_env : RpmbEnv spy := {|
  env_invoke := spy_invoke;
  env_shm := fun off n w => let '(b, c) := env_shm off n (sp_chip w) in (b, mk_spy c (sp_tricks w) (sp_kept w));
|}.

Definition spy_start : rpmb_state spy := mk_rs None false toy_ssk (mk_spy toy_chip [Pass; Claim 3 40; Replay] []).
Definition spy_write (x : Z) : M (rpmb_state spy) unit :=
  tee_rpmb_write toy_hmac toy_hash toy_hw false false true 0 768 (replicate 256 x) None.

(** Two writes of block 3. The first one is carried out (count 40). For the second, signed with count 41, normal world answers
    that the count is 40: the code signs it with count 40, takes the acknowledgement of the first write for an
    acknowledgement of the second and reports success, and the chip still has what was written first. *)
Example rpmb_write_replayed :
  let '(r1, s1) := spy_write 77 spy_start in
  let '(r2, s2) := spy_write 88 s1 in
  r1 = ROk tt /\ r2 = ROk tt /\ rs_dead s2 = false /\ ch_img (sp_chip (rs_env s2)) !! 3%nat = Some (replicate 256 77).
Proof. vm_compute. repeat split. Qed.
