(* ===== verification/RpmbFat.v ===== *)
(** * The file allocation table of the RPMB file system

    [core/tee/tee_rpmb_fs.c], from [fat_entry_dir_free] to [read_fat]: the entries of the table, the
    buffer through which they are read (with and without a cache), the setup of the
    partition and the search of an entry. Written against [RpmbDev], the lower half of the file.
    The configuration is that of a build without flow traces ([dump_fat] does nothing). *)

From S2P Require Import Prelude TeeMm Pobj ErrM Cipher CipherModes FsKey Rpmb RpmbSpec RpmbDev.
From stdpp Require Import base list.
From Stdlib Require Import ZArith Lia.

Local Open Scope Z_scope.

Definition RPMB_STORAGE_START_ADDRESS : Z := 0.
Definition RPMB_FS_FAT_START_ADDRESS : Z := 512.
Definition RPMB_BLOCK_SIZE_SHIFT : Z := 8.
Definition RPMB_FS_MAGIC : Z := 0x52504D42.
Definition FS_VERSION : Z := 2.
Definition FILE_IS_ACTIVE : Z := BIT 0.
Definition FILE_IS_LAST_ENTRY : Z := BIT 1.
Definition TEE_RPMB_FS_FILENAME_LENGTH : nat := 224.
Definition TEE_ERROR_NO_DATA : Z := 0xFFFF000B.

(** ** Entries *)

Record rpmb_fat_entry := mk_fe {
  fe_start_address : Z;
  fe_data_size : Z;
  fe_flags : Z;
  fe_write_counter : Z;
  fe_fek : bytes;
  fe_filename : bytes;
}.
Definition zero_fe : rpmb_fat_entry :=
  mk_fe 0 0 0 0 (replicate TEE_FS_KM_FEK_SIZE 0) (replicate TEE_RPMB_FS_FILENAME_LENGTH 0).
#[export] Instance rpmb_fat_entry_inhabited : Inhabited rpmb_fat_entry := populate zero_fe.

Definition of_le32 (b : bytes) : Z := nth 0 b 0 + Z.shiftl (nth 1 b 0) 8 + Z.shiftl (nth 2 b 0) 16 + Z.shiftl (nth 3 b 0) 24.

(** The structure in memory, as it is copied to and from the device. *)
Definition fe_bytes (e : rpmb_fat_entry) : bytes :=
  le32 (fe_start_address e) ++ le32 (fe_data_size e) ++ le32 (fe_flags e) ++ le32 (fe_write_counter e) ++ fe_fek e ++ fe_filename e.
Definition fe_of_bytes (b : bytes) : rpmb_fat_entry :=
  mk_fe (of_le32 (slice 0 4 b)) (of_le32 (slice 4 4 b)) (of_le32 (slice 8 4 b)) (of_le32 (slice 12 4 b))
    (slice 16 TEE_FS_KM_FEK_SIZE b) (slice 32 TEE_RPMB_FS_FILENAME_LENGTH b).
Fixpoint fes_of_bytes (n : nat) (b : bytes) : list rpmb_fat_entry :=
  match n with O => [] | S n => fe_of_bytes (take 256 b) :: fes_of_bytes n (drop 256 b) end.

Definition is_active (e : rpmb_fat_entry) : bool := has_flag (fe_flags e) FILE_IS_ACTIVE.
Definition is_last (e : rpmb_fat_entry) : bool := has_flag (fe_flags e) FILE_IS_LAST_ENTRY.

(** The string in a buffer. *)
Fixpoint c_str (b : bytes) : bytes :=
  match b with
  | [] => []
  | x :: b => if x =? 0 then [] else x :: c_str b
  end.
Definition strcmp_eq (a b : bytes) : bool := bool_decide (c_str a = c_str b).

(** ** State *)

(** [rpmb_fat_entry_dir]; the buffer may be longer than what is known to be filled. *)
Record rpmb_fat_entry_dir := mk_fdir {
  fd_buf : list rpmb_fat_entry;
  fd_idx_curr : nat;
  fd_num_buffered : nat;
  fd_num_total_read : nat;
  fd_last_reached : bool;
}.

Record rpmb_fs_parameters := mk_par { par_fat_start_address : Z; par_max_rpmb_address : Z }.

(** [fs_par], [fat_entry_dir] and the device. *)
Record fs_state (S : Type) := mk_fs {
  fs_par : option rpmb_fs_parameters;
  fs_dir : option rpmb_fat_entry_dir;
  fs_dev : S;
}.
Arguments mk_fs {S}.
Arguments fs_par {S}.
Arguments fs_dir {S}.
Arguments fs_dev {S}.

Record rpmb_file_handle := mk_fh {
  fh_fat_entry : rpmb_fat_entry;
  fh_uuid : bytes;
  fh_filename : bytes;
  fh_rpmb_fat_address : Z;
}.
Definition zero_fh : rpmb_file_handle := mk_fh zero_fe [] (replicate TEE_RPMB_FS_FILENAME_LENGTH 0) 0.
Definition set_fat_entry (e : rpmb_fat_entry) (fh : rpmb_file_handle) : rpmb_file_handle :=
  mk_fh e (fh_uuid fh) (fh_filename fh) (fh_rpmb_fat_address fh).
Definition set_entry_at (e : rpmb_fat_entry) (a : Z) (fh : rpmb_file_handle) : rpmb_file_handle :=
  mk_fh e (fh_uuid fh) (fh_filename fh) a.
Definition set_fe_write_counter (c : Z) (e : rpmb_fat_entry) : rpmb_fat_entry :=
  mk_fe (fe_start_address e) (fe_data_size e) (fe_flags e) c (fe_fek e) (fe_filename e).

(** The state of an operation: the handle it works on and its local memory pool. *)
Record op_state (S : Type) := mk_op {
  op_fs : fs_state S;
  op_fh : rpmb_file_handle;
  op_pool : tee_mm_pool;
}.
Arguments mk_op {S}.
Arguments op_fs {S}.
Arguments op_fh {S}.
Arguments op_pool {S}.

(** More than there are blocks on a device, whose addresses have 16 bits. *)
Definition fat_fuel : nat := N.to_nat 65536.

Section fat.
Context {S : Type} {DV : RpmbDev S}.
Context (CFG_RPMB_FS_CACHE_ENTRIES CFG_RPMB_FS_RD_ENTRIES : nat) (CFG_RPMB_RESET_FAT : bool).

Notation FS := (fs_state S).
Notation OP := (op_state S).

Definition on_dev {A} (m : M S A) : M FS A := zoom fs_dev (fun d s => mk_fs (fs_par s) (fs_dir s) d) m.
Definition on_fs {A} (m : M FS A) : M OP A := zoom op_fs (fun f s => mk_op f (op_fh s) (op_pool s)) m.
Definition put_dir (d : option rpmb_fat_entry_dir) : M FS unit := modify (fun s => mk_fs (fs_par s) d (fs_dev s)).
Definition put_par (p : rpmb_fs_parameters) : M FS unit := modify (fun s => mk_fs (Some p) (fs_dir s) (fs_dev s)).
Definition upd_fh (f : rpmb_file_handle -> rpmb_file_handle) : M OP unit := modify (fun s => mk_op (op_fs s) (f (op_fh s)) (op_pool s)).
Definition put_pool (p : tee_mm_pool) : M OP unit := modify (fun s => mk_op (op_fs s) (op_fh s) p).

(** A function on a handle of its own. *)
Definition empty_pool : tee_mm_pool := mk_pool None 0 0 0 0 0.
Definition with_fh {A} (fh : rpmb_file_handle) (m : M OP A) : M FS A := fun s =>
  let '(r, o) := m (mk_op s fh empty_pool) in (r, op_fs o).

Definition RPMB_BUF_MAX_ENTRIES : nat := CFG_RPMB_FS_CACHE_ENTRIES + CFG_RPMB_FS_RD_ENTRIES.

(** ** Writing an entry *)

Definition fat_entry_dir_free : M FS unit := put_dir None.

Definition fat_entry_dir_update (e : rpmb_fat_entry) (fat_address : Z) : M FS unit :=
  assert_ (u32 (fat_address - RPMB_FS_FAT_START_ADDRESS) mod 256 =? 0) ;;
  od ← gets fs_dir;
  match od with
  | None => mret tt
  | Some d =>
      let i := Z.to_nat (u32 (fat_address - RPMB_FS_FAT_START_ADDRESS) / 256) in
      if (i <? fd_num_buffered d)%nat && (i <? CFG_RPMB_FS_CACHE_ENTRIES)%nat then
        put_dir (Some (mk_fdir (<[i := e]> (fd_buf d)) (fd_idx_curr d) (fd_num_buffered d) (fd_num_total_read d) (fd_last_reached d)))
      else mret tt
  end.

Definition write_fat_entry (update_write_counter : bool) : M OP unit :=
  fh ← gets op_fh;
  guard_ (128 <=? fh_rpmb_fat_address fh) TEE_ERROR_ACCESS_CONFLICT ;;
  guard_ (fh_rpmb_fat_address fh mod 256 =? 0) TEE_ERROR_BAD_PARAMETERS ;;
  (if update_write_counter then
     c ← on_fs (on_dev dev_get_write_counter);
     upd_fh (fun fh => set_fat_entry (set_fe_write_counter (u32 c) (fh_fat_entry fh)) fh)
   else mret tt) ;;
  fh ← gets op_fh;
  on_fs (on_dev (dev_write (fh_rpmb_fat_address fh) (fe_bytes (fh_fat_entry fh)) None)) ;;
  if negb (CFG_RPMB_FS_CACHE_ENTRIES =? 0)%nat then on_fs (fat_entry_dir_update (fh_fat_entry fh) (fh_rpmb_fat_address fh))
  else mret tt.

(** ** Setup *)

(** [struct rpmb_fs_partition] in its first 16 bytes. *)
Definition partition_size : nat := 128.
Definition pd_magic (b : bytes) : Z := of_le32 (slice 0 4 b).
Definition pd_version (b : bytes) : Z := of_le32 (slice 4 4 b).
Definition pd_fat_start (b : bytes) : Z := of_le32 (slice 12 4 b).
Definition new_partition (write_counter : Z) (b : bytes) : bytes :=
  le32 RPMB_FS_MAGIC ++ le32 FS_VERSION ++ le32 write_counter ++ le32 RPMB_FS_FAT_START_ADDRESS ++ drop 16 b.

Definition store_fs_par (fat_start max_rpmb_block : Z) : M FS unit :=
  on_dev dev_alloc ;; put_par (mk_par fat_start (u32 (Z.shiftl max_rpmb_block RPMB_BLOCK_SIZE_SHIFT))).

Definition rpmb_fs_setup : M FS unit :=
  par ← gets fs_par;
  match par with
  | Some _ => mret tt
  | None =>
      max_rpmb_block ← on_dev dev_get_max_block;
      on_dev dev_alloc ;;
      pd ← on_dev (dev_read RPMB_STORAGE_START_ADDRESS 256 None);
      on_dev (dev_write RPMB_STORAGE_START_ADDRESS pd None) ;;
      pd ← on_dev (dev_read RPMB_STORAGE_START_ADDRESS (Z.of_nat partition_size) None);
      if negb CFG_RPMB_RESET_FAT && (pd_magic pd =? RPMB_FS_MAGIC) then
        guard_ (pd_version pd =? FS_VERSION) TEE_ERROR_ACCESS_DENIED ;;
        store_fs_par (pd_fat_start pd) max_rpmb_block
      else
        on_dev dev_alloc ;;
        with_fh (mk_fh (mk_fe 0 0 FILE_IS_LAST_ENTRY 0 (fe_fek zero_fe) (fe_filename zero_fe)) [] (fh_filename zero_fh) RPMB_FS_FAT_START_ADDRESS)
          (write_fat_entry true) ;;
        c ← on_dev dev_get_write_counter;
        r ← try_ (on_dev (dev_write RPMB_STORAGE_START_ADDRESS (new_partition c pd) None));
        store_fs_par RPMB_FS_FAT_START_ADDRESS max_rpmb_block ;;
        match r with inl e => throw e | inr _ => mret tt end
  end.

Definition get_fat_start_address : M FS Z :=
  par ← gets fs_par;
  match par with None => throw TEE_ERROR_NO_DATA | Some p => mret (par_fat_start_address p) end.

(** ** Going through the table *)

Definition read_entries (addr : Z) (n : nat) : M FS (list rpmb_fat_entry) :=
  b ← on_dev (dev_read addr (256 * Z.of_nat n) None); mret (fes_of_bytes n b).

Definition fat_entry_dir_init : M FS unit :=
  od ← gets fs_dir;
  match od with
  | Some _ => mret tt
  | None =>
      rpmb_fs_setup ;;
      fat_address ← get_fat_start_address;
      on_dev dev_alloc ;;
      let num_elems_read := if (CFG_RPMB_FS_CACHE_ENTRIES =? 0)%nat then CFG_RPMB_FS_RD_ENTRIES
                            else Nat.min CFG_RPMB_FS_CACHE_ENTRIES CFG_RPMB_FS_RD_ENTRIES in
      on_dev dev_alloc ;;
      fe ← read_entries fat_address num_elems_read;
      put_dir (Some (mk_fdir fe 0 num_elems_read 0 false))
  end.

Definition fat_entry_dir_deinit : M FS unit :=
  od ← gets fs_dir;
  match od with
  | None => mret tt
  | Some d =>
      if (CFG_RPMB_FS_CACHE_ENTRIES =? 0)%nat then fat_entry_dir_free
      else if (CFG_RPMB_FS_CACHE_ENTRIES <? fd_num_buffered d)%nat then
        r ← try_ (on_dev dev_alloc); (* realloc *)
        match r with
        | inl _ => fat_entry_dir_free
        | inr _ => put_dir (Some (mk_fdir (take CFG_RPMB_FS_CACHE_ENTRIES (fd_buf d)) 0 CFG_RPMB_FS_CACHE_ENTRIES 0 false))
        end
      else put_dir (Some (mk_fdir (fd_buf d) 0 (fd_num_buffered d) 0 false))
  end.

(** [fe] put into the buffer at [at_]. *)
Definition buf_put (at_ : nat) (fe buf : list rpmb_fat_entry) : list rpmb_fat_entry :=
  take at_ buf ++ fe ++ drop (at_ + length fe) buf.

(** Reading more entries, [fat_address] being that of the next one. *)
Definition read_more (d : rpmb_fat_entry_dir) (fat_address : Z) : M FS rpmb_fat_entry_dir :=
  if (CFG_RPMB_FS_CACHE_ENTRIES =? 0)%nat then
    put_dir (Some (mk_fdir (fd_buf d) 0 (fd_num_buffered d) (fd_num_total_read d) (fd_last_reached d))) ;;
    fe ← read_entries fat_address CFG_RPMB_FS_RD_ENTRIES;
    mret (mk_fdir (buf_put 0 fe (fd_buf d)) 0 (fd_num_buffered d) (fd_num_total_read d) (fd_last_reached d))
  else if (fd_num_total_read d <? RPMB_BUF_MAX_ENTRIES)%nat then
    let num_elems_read := Nat.min (RPMB_BUF_MAX_ENTRIES - fd_num_total_read d) CFG_RPMB_FS_RD_ENTRIES in
    on_dev dev_alloc ;; (* realloc *)
    fe ← read_entries fat_address num_elems_read;
    mret (mk_fdir (buf_put (fd_num_total_read d) fe (fd_buf d)) (fd_idx_curr d) (fd_num_buffered d + num_elems_read)
            (fd_num_total_read d) (fd_last_reached d))
  else
    put_dir (Some (mk_fdir (fd_buf d) CFG_RPMB_FS_CACHE_ENTRIES (fd_num_buffered d) (fd_num_total_read d) (fd_last_reached d))) ;;
    fe ← read_entries fat_address CFG_RPMB_FS_RD_ENTRIES;
    mret (mk_fdir (buf_put CFG_RPMB_FS_CACHE_ENTRIES fe (fd_buf d)) CFG_RPMB_FS_CACHE_ENTRIES (fd_num_buffered d)
            (fd_num_total_read d) (fd_last_reached d)).

(** None after the last entry, else the entry and its address. *)
Definition fat_entry_dir_get_next : M FS (option (rpmb_fat_entry * Z)) :=
  od ← gets fs_dir;
  match od with
  | None => panic
  | Some d =>
      if fd_last_reached d then mret None
      else
        let fat_address := u32 (RPMB_FS_FAT_START_ADDRESS + Z.of_nat (fd_num_total_read d) * 256) in
        d ← (if (fd_num_buffered d <=? fd_idx_curr d)%nat then read_more d fat_address else mret d);
        match fd_buf d !! fd_idx_curr d with
        | None => panic (* past the end of the buffer *)
        | Some fe =>
            put_dir (Some (mk_fdir (fd_buf d) (fd_idx_curr d + 1) (fd_num_buffered d) (fd_num_total_read d + 1)
                       (fd_last_reached d || is_last fe))) ;;
            mret (Some (fe, fat_address))
        end
  end.

(** ** Finding a file *)

(** Allocation of a cell of the pool: an address that is not in use, unless memory is short. *)
Definition new_cell : M OP (option Z) :=
  r ← try_ (on_fs (on_dev dev_alloc));
  p ← gets op_pool;
  mret (match r with inl _ => None | inr _ => Some (Z.of_nat (length (pool_cells p)) + 1) end).

Definition pool_alloc2 (base size : Z) : M OP unit :=
  mem ← new_cell;
  p ← gets op_pool;
  match tee_mm_alloc2 (Some p) base size mem with
  | (Some p, Some _) => put_pool p
  | _ => throw TEE_ERROR_OUT_OF_MEMORY
  end.

(** What [read_fat] does with one entry: whether it is the one that is searched. *)
Definition matches (fh : rpmb_file_handle) (fe : rpmb_fat_entry) : bool :=
  strcmp_eq (fh_filename fh) (fe_filename fe) && is_active fe.

(** The entry in the pool, and the choice of a free entry; whether the table has to grow. *)
Definition enter_pool (fe : rpmb_fat_entry) (fat_address : Z) : M OP bool :=
  (if is_active fe && (0 <? fe_data_size fe) then pool_alloc2 (fe_start_address fe) (fe_data_size fe) else mret tt) ;;
  fh ← gets op_fh;
  (if negb (is_active fe) && (fh_rpmb_fat_address fh =? 0) then upd_fh (set_entry_at fe fat_address) else mret tt) ;;
  fh ← gets op_fh;
  mret (is_last fe && (fh_rpmb_fat_address fh =? fat_address)).

(** The loop: [pool] is whether the pool is filled, [fat_address] that of the last entry read. *)
Fixpoint read_fat_loop (fuel : nat) (pool entry_found expand_fat : bool) (fat_address : Z) : M OP (bool * Z) :=
  match fuel with
  | O => panic
  | Datatypes.S fuel =>
      n ← on_fs fat_entry_dir_get_next;
      match n with
      | None => mret (expand_fat, fat_address)
      | Some (fe, fat_address) =>
          fh ← gets op_fh;
          let hit := matches fh fe && negb entry_found in
          (if hit then upd_fh (set_entry_at fe fat_address) else mret tt) ;;
          if negb pool then if hit then mret (expand_fat, fat_address) else read_fat_loop fuel pool entry_found expand_fat fat_address
          else
            grow ← enter_pool fe fat_address;
            read_fat_loop fuel pool (entry_found || hit) (expand_fat || grow) fat_address
      end
  end.

(** The table in the pool, and its new last entry. *)
Definition enter_fat (expand_fat : bool) (fat_address : Z) : M OP unit :=
  let fat_end := u32 (fat_address + 256) in
  let fat_end := if expand_fat then u32 (fat_end + 256) else fat_end in
  pool_alloc2 RPMB_STORAGE_START_ADDRESS fat_end ;;
  if expand_fat then
    on_fs (with_fh (mk_fh (mk_fe 0 0 FILE_IS_LAST_ENTRY 0 (fe_fek zero_fe) (fe_filename zero_fe)) [] (fh_filename zero_fh) (u32 (fat_end - 256)))
             (write_fat_entry true))
  else mret tt.

Definition read_fat (pool : bool) : M OP unit :=
  finally
    (on_fs fat_entry_dir_init ;;
     '(expand_fat, fat_address) ← read_fat_loop fat_fuel pool false false 0;
     (if pool then enter_fat expand_fat fat_address else mret tt) ;;
     fh ← gets op_fh;
     guard_ (negb (fh_rpmb_fat_address fh =? 0)) TEE_ERROR_ITEM_NOT_FOUND)
    (on_fs fat_entry_dir_deinit).
End fat.
