(* ===== verification/RpmbFatSpec.v ===== *)
(** * Reading the table of the RPMB file system

    The table that an image of the device holds, the buffer and cache of its entries, and what
    [fat_entry_dir_get_next] returns: the entries of the image in their order, whatever the
    configuration of the cache. *)

From S2P Require Import Prelude TeeMm Pobj ErrM Cipher CipherModes FsKey Rpmb RpmbSpec RpmbDev RpmbBlocks RpmbFat.
From stdpp Require Import base list.
From Stdlib Require Import ZArith Lia.

Local Open Scope Z_scope.

(** ** Entries in memory *)

Record fe_wf (e : rpmb_fat_entry) : Prop := {
  fw_start : is_u32 (fe_start_address e);
  fw_size : is_u32 (fe_data_size e);
  fw_flags : is_u32 (fe_flags e);
  fw_counter : is_u32 (fe_write_counter e);
  fw_fek : length (fe_fek e) = TEE_FS_KM_FEK_SIZE /\ Forall is_byte (fe_fek e);
  fw_name : length (fe_filename e) = TEE_RPMB_FS_FILENAME_LENGTH /\ Forall is_byte (fe_filename e);
}.

Lemma is_byte_u8 x : is_byte (u8 x).
Proof. unfold is_byte, u8. pose proof (Z.mod_pos_bound x 256). lia. Qed.

Lemma le32_bytes x : Forall is_byte (le32 x).
Proof. repeat constructor; apply is_byte_u8. Qed.

Lemma le32_roundtrip x : is_u32 x -> of_le32 (le32 x) = x.
Proof.
  unfold is_u32. intros Hx. unfold of_le32, le32, u8. cbn [nth].
  rewrite !Z.shiftr_div_pow2, !Z.shiftl_mul_pow2 by lia. Z.div_mod_to_equations. lia.
Qed.

Lemma of_le32_range b : Forall is_byte b -> is_u32 (of_le32 b).
Proof.
  intros Hb. assert (Hn : forall i, is_byte (nth i b 0)).
  { intros i. destruct (nth_in_or_default i b 0) as [Hi| ->]; [|done]. rewrite Forall_forall in Hb. apply Hb. by apply list_elem_of_In. }
  pose proof (Hn 0%nat). pose proof (Hn 1%nat). pose proof (Hn 2%nat). pose proof (Hn 3%nat).
  unfold of_le32, is_u32, is_byte in *. rewrite !Z.shiftl_mul_pow2 by lia. lia.
Qed.

Lemma fe_bytes_length e : fe_wf e -> length (fe_bytes e) = 256%nat.
Proof. intros [_ _ _ _ [Hk _] [Hn _]]. unfold fe_bytes. rewrite !length_app, Hk, Hn. done. Qed.

Lemma fe_bytes_bytes e : fe_wf e -> Forall is_byte (fe_bytes e).
Proof. intros [_ _ _ _ [_ Hk] [_ Hn]]. unfold fe_bytes. rewrite !Forall_app. split_and!; try done; apply le32_bytes. Qed.

Lemma fe_of_bytes_wf b : length b = 256%nat -> Forall is_byte b -> fe_wf (fe_of_bytes b).
Proof.
  intros Hl Hb. split; cbn [fe_of_bytes fe_start_address fe_data_size fe_flags fe_write_counter fe_fek fe_filename];
    try (by apply of_le32_range, slice_bytes); (split; [apply slice_length; rewrite Hl; by apply Nat.leb_le|by apply slice_bytes]).
Qed.

Lemma fe_roundtrip e : fe_wf e -> fe_of_bytes (fe_bytes e) = e.
Proof.
  intros [Hs Hz Hf Hc [Hk _] [Hn _]]. destruct e as [st sz fl wc fek name]. cbn in Hs, Hz, Hf, Hc, Hk, Hn.
  unfold fe_of_bytes, fe_bytes, slice. cbn [fe_start_address fe_data_size fe_flags fe_write_counter fe_fek fe_filename].
  set (b := le32 st ++ _).
  change (take 4 (drop 0 b)) with (le32 st). change (take 4 (drop 4 b)) with (le32 sz).
  change (take 4 (drop 8 b)) with (le32 fl). change (take 4 (drop 12 b)) with (le32 wc).
  change (drop 16 b) with (fek ++ name). change (drop 32 b) with (drop 16 (fek ++ name)).
  rewrite !le32_roundtrip by done. change (drop 16) with (drop (A := Z) TEE_FS_KM_FEK_SIZE). rewrite <- Hk, take_app_length, drop_app_length, <- Hn.
  by rewrite firstn_all.
Qed.

(** ** The table in an image *)

Notation image := (list bytes).

Definition entry (m : image) (i : nat) : rpmb_fat_entry := fe_of_bytes (default ([] : bytes) (m !! (2 + i)%nat)).

(** The table has [n] entries, the last one and no other is marked as such. *)
Record fat_len (m : image) (n : nat) : Prop := {
  fl_pos : (0 < n)%nat;
  fl_dev : (2 + n <= length m)%nat;
  fl_last : is_last (entry m (n - 1)) = true;
  fl_inner : forall i, (S i < n)%nat -> is_last (entry m i) = false;
}.

Lemma entry_wf m i : blocks_wf m -> (2 + i < length m)%nat -> fe_wf (entry m i).
Proof.
  intros Hm Hi. unfold entry. destruct (lookup_lt_is_Some_2 m (2 + i)%nat Hi) as [b Hb]. rewrite Hb. cbn [default].
  destruct (Forall_lookup_1 _ _ _ _ Hm Hb) as [? ?]. by apply fe_of_bytes_wf.
Qed.

Lemma entry_ext m m' i : m !! (2 + i)%nat = m' !! (2 + i)%nat -> entry m i = entry m' i.
Proof. unfold entry. by intros ->. Qed.

Lemma entry_insert m i j e :
  fe_wf e -> (2 + i < length m)%nat -> entry (<[(2 + i)%nat := fe_bytes e]> m) j = if decide (i = j) then e else entry m j.
Proof.
  intros He Hi. case_decide as Hij.
  - subst j. unfold entry. rewrite list_lookup_insert_eq by done. by apply fe_roundtrip.
  - apply entry_ext. rewrite list_lookup_insert_ne by lia. done.
Qed.

Lemma is_last_at m n i : fat_len m n -> (i < n)%nat -> is_last (entry m i) = (S i =? n)%nat.
Proof.
  intros [Hp _ Hl Hi] Hn. destruct (Nat.eqb_spec (S i) n) as [<-|Hne]; [|apply Hi; lia]. by rewrite Nat.sub_1_r in Hl.
Qed.

Lemma fes_lookup n b t : fes_of_bytes n b !! t = if decide (t < n)%nat then Some (fe_of_bytes (slice (t * 256) 256 b)) else None.
Proof.
  revert b t. induction n as [|n IH]; intros b t; [done|]. cbn [fes_of_bytes]. destruct t as [|t].
  - rewrite decide_True by lia. cbn. unfold slice. by rewrite drop_0.
  - cbn [lookup list_lookup]. rewrite IH. case_decide; [|by rewrite decide_False by lia].
    rewrite decide_True by lia. unfold slice. by rewrite drop_drop.
Qed.
Lemma fes_length n b : length (fes_of_bytes n b) = n.
Proof. revert b. induction n; intros b; cbn; auto. Qed.

(** The entries that are read from an image. *)
Lemma fes_of_image m j n t :
  blocks_wf m -> (2 + j + n <= length m)%nat -> (t < n)%nat ->
  fes_of_bytes n (slice ((2 + j) * 256) (n * 256) (concat m)) !! t = Some (entry m (j + t)).
Proof.
  intros Hm Hl Ht. rewrite fes_lookup, decide_True by done. f_equal. unfold entry.
  destruct (lookup_lt_is_Some_2 m (2 + (j + t))%nat ltac:(lia)) as [b Hb]. rewrite Hb. cbn [default]. f_equal.
  unfold slice at 2. rewrite slice_slice by lia. replace ((2 + j) * 256 + t * 256)%nat with ((2 + (j + t)) * 256)%nat by lia. by apply slice_block.
Qed.

(** ** The buffer *)

Lemma lookup_buf_put k fe buf x :
  (k <= length buf)%nat -> buf_put k fe buf !! x = if decide (k <= x < k + length fe)%nat then fe !! (x - k)%nat else buf !! x.
Proof.
  intros Hk. unfold buf_put. assert (Ht : length (take k buf) = k) by (rewrite length_take; lia).
  destruct (decide (x < k)%nat) as [Hx|Hx].
  - rewrite lookup_app_l by lia. rewrite lookup_take_lt by done. by rewrite decide_False by lia.
  - rewrite lookup_app_r, Ht by lia. case_decide; [by rewrite lookup_app_l by lia|].
    rewrite lookup_app_r by lia. rewrite lookup_drop. f_equal. lia.
Qed.
Lemma length_buf_put k fe buf : (k <= length buf)%nat -> (k + length fe <= length (buf_put k fe buf) /\ length buf <= length (buf_put k fe buf))%nat.
Proof. intros Hk. unfold buf_put. rewrite !length_app, length_take, length_drop. lia. Qed.

Section traverse.
Context {S : Type} {DV : RpmbDev S} {DL : RpmbDevLaws S}.
Context (CACHE RD : nat) (reset : bool).
Hypothesis RD_pos : (0 < RD)%nat.

Local Notation FS := (fs_state S).
Local Notation BUF_MAX := (CACHE + RD)%nat.

Definition img (s : FS) : image := latest (dl_hist (fs_dev s)).

(** The part of the buffer that outlives a traversal holds the first [b] entries of the image. *)
Record cached (m : image) (b : nat) (d : rpmb_fat_entry_dir) : Prop := {
  ca_pos : (0 < fd_num_buffered d)%nat;
  ca_len : (fd_num_buffered d <= length (fd_buf d))%nat;
  ca_max : (fd_num_buffered d <= BUF_MAX)%nat;
  ca_rd : CACHE = 0%nat -> fd_num_buffered d = RD;
  ca_ent : forall i, (i < fd_num_buffered d)%nat -> (i < CACHE)%nat -> (i < b)%nat -> fd_buf d !! i = Some (entry m i);
}.

(** Between two traversals. *)
Definition dir_ok (m : image) (b : nat) (od : option rpmb_fat_entry_dir) : Prop :=
  match od with
  | None => True
  | Some d => cached m b d /\ CACHE <> 0%nat /\ (fd_num_buffered d <= CACHE)%nat /\
      fd_idx_curr d = 0%nat /\ fd_num_total_read d = 0%nat /\ fd_last_reached d = false
  end.

(** [j] of the [n] entries have been returned. *)
Record at_entry (m : image) (n b j : nat) (d : rpmb_fat_entry_dir) : Prop := {
  ae_cached : cached m b d;
  ae_total : fd_num_total_read d = j;
  ae_le : (j <= n)%nat;
  ae_last : fd_last_reached d = (j =? n)%nat;
  ae_idx : (fd_idx_curr d <= fd_num_buffered d)%nat;
  ae_win : forall t, (fd_idx_curr d + t < fd_num_buffered d)%nat -> (j + t < n)%nat -> fd_buf d !! (fd_idx_curr d + t)%nat = Some (entry m (j + t));
  ae_lo : (j < BUF_MAX)%nat -> fd_idx_curr d = j;
  ae_hi : (BUF_MAX <= j)%nat -> fd_num_buffered d = BUF_MAX;
}.

(** The device is the same, with the same contents. *)
Record fs_same (s s' : FS) : Prop := {
  fss_dev : dev_same dl_inv dl_ready dl_hist dl_dead (fs_dev s) (fs_dev s');
  fss_par : fs_par s' = fs_par s;
}.

Lemma fs_same_refl s : dl_inv (fs_dev s) -> fs_same s s.
Proof. intros Hi. split; [|done]. by split. Qed.
#[global] Instance fs_same_trans : Transitive fs_same.
Proof. intros s1 s2 s3 [[] ?] [[] ?]. split; [|congruence]. split; [done|auto|congruence|congruence]. Qed.
Lemma fs_same_inv s s' : fs_same s s' -> dl_inv (fs_dev s').
Proof. by intros [[] _]. Qed.
Lemma fs_same_img s s' : fs_same s s' -> img s' = img s.
Proof. intros [[] _]. unfold img. congruence. Qed.
Lemma fs_same_dir s s' d : fs_same s s' -> fs_same s (mk_fs (fs_par s') d (fs_dev s')).
Proof. intros [[] ?]. split; [|done]. by split. Qed.

(** A call of the device that writes nothing. *)
Lemma on_dev_same {A} (m : M S A) (P : rres A -> S -> Prop) (s : FS) :
  wp m (fun r d' => dev_same dl_inv dl_ready dl_hist dl_dead (fs_dev s) d' /\ P r d') (fs_dev s) ->
  wp (on_dev m) (fun r s' => fs_same s s' /\ fs_dir s' = fs_dir s /\ P r (fs_dev s')) s.
Proof. intros H. apply wp_zoom. eapply wp_mono; [exact H|]. intros r d [Hs HP]. split_and!; [by split|done|done]. Qed.

Lemma alloc_same (s : FS) : dl_inv (fs_dev s) -> wp (on_dev dev_alloc) (fun r s' => fs_same s s' /\ fs_dir s' = fs_dir s /\ calm r) s.
Proof. intros Hi. apply (on_dev_same _ (fun r _ => calm r)). by apply dl_alloc. Qed.

Lemma read_entries_spec (j n : nat) (s : FS) :
  dl_inv (fs_dev s) -> (0 < n)%nat -> Z.of_nat (2 + j + n) <= 65535 ->
  wp (read_entries (512 + Z.of_nat j * 256) n)
    (fun r s' => fs_same s s' /\ fs_dir s' = fs_dir s /\ calm r /\ forall fe, r = ROk fe -> dl_dead (fs_dev s) = false /\ length fe = n /\
       (2 + j + n <= length (img s))%nat /\ forall t, (t < n)%nat -> fe !! t = Some (entry (img s) (j + t))) s.
Proof.
  intros Hi Hn Hj. unfold read_entries. eapply wp_seq.
  { apply on_dev_same, (dl_read (512 + Z.of_nat j * 256) (256 * Z.of_nat n) None); [done|lia|lia|lia]. }
  intros r s' (Hs & Hd & Hc & HP). destruct r as [b|e|]; cbn [cont]; [|by split_and!|done].
  apply wp_ret. split_and!; [done|done|done|]. intros fe [= <-]. destruct (HP b eq_refl) as (_ & Hde & Hle & Hb).
  rewrite dl_view_none in Hb. fold (img s) in Hb, Hle. split_and!; [done|apply fes_length|lia|]. intros t Ht. rewrite Hb.
  replace (Z.to_nat (512 + Z.of_nat j * 256)) with ((2 + j) * 256)%nat by lia.
  replace (Z.to_nat (256 * Z.of_nat n)) with (n * 256)%nat by lia.
  apply fes_of_image; [by apply dl_wf|lia|done].
Qed.

(** The next window: [k] entries put at [at_] in the buffer. *)
Lemma window m n b j d fe at_ k nb :
  at_entry m n b j d -> (j < n)%nat -> (0 < k)%nat -> length fe = k ->
  (forall t, (t < k)%nat -> fe !! t = Some (entry m (j + t))) ->
  nb = (at_ + k)%nat -> (fd_num_buffered d <= nb <= BUF_MAX)%nat -> (CACHE = 0%nat -> nb = RD) ->
  (at_ <= fd_num_buffered d)%nat -> ((at_ < CACHE)%nat -> at_ = j) -> ((j < BUF_MAX)%nat -> at_ = j) -> ((BUF_MAX <= j)%nat -> nb = BUF_MAX) ->
  at_entry m n b j (mk_fdir (buf_put at_ fe (fd_buf d)) at_ nb j (fd_last_reached d)) /\ (at_ < nb)%nat.
Proof.
  intros [Hca Ht Hle Hl Hi Hw Hlo Hhi] Hj Hk Hfl Hfe -> Hnb Hrd Hat HC Hlo' Hhi'. destruct Hca as [C1 C2 C3 C4 C5].
  split; [|lia]. destruct (length_buf_put at_ fe (fd_buf d)) as [L1 L2]; [lia|]. split; cbn; try done; try lia.
  - split; cbn; try done; try lia. intros i Hi1 Hi2 Hi3. rewrite lookup_buf_put by lia. case_decide as Hd.
    + assert (at_ = j) as -> by (apply HC; lia). rewrite Hfe by lia. do 2 f_equal. lia.
    + apply C5; lia.
  - intros t Ht1 Ht2. rewrite lookup_buf_put by lia. rewrite decide_True by lia. rewrite Hfe by lia. do 2 f_equal. lia.
Qed.

Lemma read_more_spec m n b j d (s : FS) :
  dl_inv (fs_dev s) -> img s = m -> fat_len m n -> Z.of_nat (length m + RD) <= 65535 ->
  fs_dir s = Some d -> at_entry m n b j d -> (j < n)%nat -> (fd_num_buffered d <= fd_idx_curr d)%nat ->
  wp (read_more CACHE RD d (512 + Z.of_nat j * 256))
    (fun r s' => fs_same s s' /\ calm r /\ (exists d', fs_dir s' = Some d' /\ cached m b d') /\
       forall d', r = ROk d' -> at_entry m n b j d' /\ (fd_idx_curr d' < fd_num_buffered d')%nat) s.
Proof.
  intros Hi Hm Hf Hsz Hd Hat Hj Hfull. assert (Hca := ae_cached _ _ _ _ _ Hat). assert (Hn := fl_dev _ _ Hf).
  assert (Hst := ae_idx _ _ _ _ _ Hat). assert (Hlo := ae_lo _ _ _ _ _ Hat). assert (Hhi := ae_hi _ _ _ _ _ Hat).
  assert (Htot := ae_total _ _ _ _ _ Hat). assert (Hmax := ca_max _ _ _ Hca). assert (Hrd := ca_rd _ _ _ Hca).
  unfold read_more, RPMB_BUF_MAX_ENTRIES. rewrite Htot.
  assert (Hidx : forall i, cached m b (mk_fdir (fd_buf d) i (fd_num_buffered d) j (fd_last_reached d))) by (by destruct Hca).
  destruct (Nat.eqb_spec CACHE 0) as [HC|HC]; [|destruct (Nat.ltb_spec j BUF_MAX) as [Hlt|Hge]].
  - apply wp_bind, wp_modify. cbn [cont]. set (s1 := mk_fs _ _ _). assert (Hs1 : fs_same s s1) by (apply fs_same_dir, fs_same_refl; done).
    eapply wp_seq; [by apply (read_entries_spec j RD s1); [|done|lia]|]. intros r s2 (Hs2 & Ed2 & Hc2 & Hr2).
    destruct r as [fe|e|]; cbn [cont]; [apply wp_ret| |done]; (split_and!; [by etransitivity|done|eexists; split; [exact Ed2|apply Hidx]|]); [|done].
    intros d' [= <-]. destruct (Hr2 fe eq_refl) as (_ & Hfl & _ & Hfe). change (img s1) with (img s) in Hfe. rewrite Hm in Hfe.
    apply (window m n b j d fe 0 RD); try done; cbn; try lia; auto.
  - assert (fd_idx_curr d = j) by (apply Hlo; lia).
    set (k := Nat.min (BUF_MAX - j) RD). eapply wp_seq; [by apply alloc_same|]. intros r s1 (Hs1 & Ed1 & Hc1).
    destruct r as [[]|e|]; cbn [cont]; [|by split_and!; [done|done|exists d; split; [congruence|done]|]|done].
    eapply wp_seq; [apply (read_entries_spec j k s1); [by eapply fs_same_inv|lia|lia]|]. intros r s2 (Hs2 & Ed2 & Hc2 & Hr2).
    destruct r as [fe|e|]; cbn [cont]; [apply wp_ret| |done]; (split_and!; [by etransitivity|done|exists d; split; [congruence|done]|]); [|done].
    intros d' [= <-]. destruct (Hr2 fe eq_refl) as (_ & Hfl & _ & Hfe). rewrite (fs_same_img _ _ Hs1), Hm in Hfe.
    replace (fd_idx_curr d) with j by lia. apply (window m n b j d fe j k); try done; cbn; lia.
  - assert (Hnb : fd_num_buffered d = BUF_MAX) by auto.
    apply wp_bind, wp_modify. cbn [cont]. set (s1 := mk_fs _ _ _). assert (Hs1 : fs_same s s1) by (apply fs_same_dir, fs_same_refl; done).
    eapply wp_seq; [by apply (read_entries_spec j RD s1); [|done|lia]|]. intros r s2 (Hs2 & Ed2 & Hc2 & Hr2).
    destruct r as [fe|e|]; cbn [cont]; [apply wp_ret| |done]; (split_and!; [by etransitivity|done|eexists; split; [exact Ed2|apply Hidx]|]); [|done].
    intros d' [= <-]. destruct (Hr2 fe eq_refl) as (_ & Hfl & _ & Hfe). change (img s1) with (img s) in Hfe. rewrite Hm in Hfe.
    apply (window m n b j d fe CACHE RD); try done; cbn; lia.
Qed.

(** What the image holds is what is returned, and in this order. *)
Lemma get_next_at m n b j d (s : FS) :
  dl_inv (fs_dev s) -> img s = m -> fat_len m n -> Z.of_nat (length m + RD) <= 65535 -> (n <= b)%nat ->
  fs_dir s = Some d -> at_entry m n b j d ->
  wp (fat_entry_dir_get_next CACHE RD)
    (fun r s' => fs_same s s' /\ calm r /\ exists d', fs_dir s' = Some d' /\ cached m b d' /\
       match r with
       | ROk None => j = n
       | ROk (Some (fe, a)) => (j < n)%nat /\ fe = entry m j /\ a = 512 + Z.of_nat j * 256 /\ at_entry m n b (j + 1) d'
       | _ => True
       end) s.
Proof.
  intros Hi Hm Hf Hsz Hb Hd Hat. assert (Hca := ae_cached _ _ _ _ _ Hat). assert (Hn := fl_dev _ _ Hf).
  unfold fat_entry_dir_get_next. apply wp_bind, wp_gets. cbn [cont]. rewrite Hd, (ae_last _ _ _ _ _ Hat).
  destruct (Nat.eqb_spec j n) as [->|Hne].
  { apply wp_ret. split_and!; [by apply fs_same_refl|done|]. by exists d. }
  assert (Hj : (j < n)%nat) by (pose proof (ae_le _ _ _ _ _ Hat); lia).
  rewrite (ae_total _ _ _ _ _ Hat). unfold RPMB_FS_FAT_START_ADDRESS. rewrite u32_small by (unfold is_u32; lia).
  eapply (wp_seq _ _ (fun r s' => fs_same s s' /\ calm r /\ (exists d', fs_dir s' = Some d' /\ cached m b d') /\
       forall d', r = ROk d' -> at_entry m n b j d' /\ (fd_idx_curr d' < fd_num_buffered d')%nat)).
  { destruct (Nat.leb_spec (fd_num_buffered d) (fd_idx_curr d)) as [Hle|Hlt].
    - by apply (read_more_spec m n b j d).
    - apply wp_ret. split_and!; [by apply fs_same_refl|done|by exists d|]. by intros d' [= <-]. }
  intros r s1 (Hs1 & Hc1 & (d1 & Ed1 & Hca1) & Hr1). destruct r as [d2|e|]; cbn [cont]; [|split_and!; [done|done|by exists d1]|done].
  destruct (Hr1 d2 eq_refl) as [Hat2 Hlt2]. clear Hr1. assert (Hw := ae_win _ _ _ _ _ Hat2 0). rewrite !Nat.add_0_r in Hw.
  rewrite Hw by lia. apply wp_bind, wp_modify. cbn [cont]. apply wp_ret. split_and!; [by apply fs_same_dir|done|].
  eexists. split; [done|]. destruct Hat2 as [Hca2 Ht2 Hle2 Hl2 Hi2 Hw2 Hlo2 Hhi2]. destruct Hca2 as [C1 C2 C3 C4 C5].
  split; [by split|]. split_and!; try done. split; cbn; try done; try lia.
  - rewrite Hl2, (is_last_at m n j) by done. replace (j =? n)%nat with false by (symmetry; apply Nat.eqb_neq; lia). cbn.
    by rewrite Nat.add_1_r.
  - intros t Ht1 Ht2'. replace (fd_idx_curr d2 + 1 + t)%nat with (fd_idx_curr d2 + Datatypes.S t)%nat by lia.
    rewrite Hw2 by lia. do 2 f_equal. lia.
Qed.

(** ** Beginning and end *)

Lemma deinit_ok m b (s : FS) :
  dl_inv (fs_dev s) -> match fs_dir s with None => True | Some d => cached m b d end ->
  wp (fat_entry_dir_deinit CACHE) (fun r s' => r = ROk tt /\ fs_same s s' /\ dir_ok m b (fs_dir s')) s.
Proof.
  intros Hi Hd. unfold fat_entry_dir_deinit. apply wp_bind, wp_gets. cbn [cont]. destruct (fs_dir s) as [d|] eqn:Ed.
  2: { apply wp_ret. split_and!; [done|by apply fs_same_refl|]. by rewrite Ed. }
  assert (Hsame : forall d (s' : FS), fs_same s s' -> fs_same s (mk_fs (fs_par s') d (fs_dev s'))) by (intros; by apply fs_same_dir).
  destruct Hd as [C1 C2 C3 C4 C5]. destruct (Nat.eqb_spec CACHE 0) as [HC|HC].
  { apply wp_modify. split_and!; [done|by apply fs_same_dir, fs_same_refl|done]. }
  destruct (Nat.ltb_spec CACHE (fd_num_buffered d)) as [Hlt|Hge].
  - apply wp_bind, wp_try. eapply wp_mono; [by apply alloc_same|]. intros r s1 (Hs1 & _ & Hc1).
    destruct r as [[]|e|]; cbn [cont]; [| |done]; apply wp_modify; (split_and!; [done|by apply fs_same_dir|]); [|done].
    split_and!; cbn; try done. split; cbn; try lia; [rewrite length_take; lia|]. intros i Hi1 _ Hi3. rewrite lookup_take_lt by lia. apply C5; lia.
  - apply wp_modify. split_and!; [done|by apply fs_same_dir, fs_same_refl|]. split_and!; cbn; done.
Qed.

(** The file system is set up; its device can be used. *)
Record mounted (s : FS) : Prop := {
  mo_inv : dl_inv (fs_dev s);
  mo_alive : dl_dead (fs_dev s) = false;
  mo_ready : dl_ready (fs_dev s);
  mo_size : Z.of_nat (length (img s) + RD) <= 65535;
  mo_par : exists mx, 0 < mx < 65536 /\ fs_par s = Some (mk_par RPMB_FS_FAT_START_ADDRESS (mx * 256));
}.

Lemma mounted_same s s' : fs_same s s' -> mounted s -> mounted s'.
Proof.
  intros Hs [H1 H2 H3 H4 H5]. pose proof (fs_same_img _ _ Hs) as Him. destruct Hs as [[] Hp].
  split; [done|congruence|auto|by rewrite Him|by rewrite Hp].
Qed.

Lemma start_at m n b d : (n <= b)%nat -> (0 < n)%nat -> cached m b d -> CACHE <> 0%nat -> (fd_num_buffered d <= CACHE)%nat ->
  fd_idx_curr d = 0%nat -> fd_num_total_read d = 0%nat -> fd_last_reached d = false -> at_entry m n b 0 d.
Proof.
  intros Hb Hn [C1 C2 C3 C4 C5] HC Hle Hi Ht Hl. split; try done; try lia.
  - rewrite Hl. symmetry. apply Nat.eqb_neq. lia.
  - intros t H1 H2. rewrite Hi in *. cbn [Nat.add]. apply C5; lia.
Qed.

Lemma init_at m n b (s : FS) :
  mounted s -> img s = m -> fat_len m n -> (n <= b)%nat -> dir_ok m b (fs_dir s) ->
  wp (fat_entry_dir_init CACHE RD reset)
    (fun r s' => fs_same s s' /\ calm r /\ match r with
       | ROk _ => exists d', fs_dir s' = Some d' /\ at_entry m n b 0 d'
       | _ => fs_dir s' = fs_dir s
       end) s.
Proof.
  intros Hmo Hm Hf Hb Hd. assert (Hp := fl_pos _ _ Hf). unfold fat_entry_dir_init. apply wp_bind, wp_gets. cbn [cont].
  destruct (fs_dir s) as [d|] eqn:Ed.
  { apply wp_ret. split_and!; [by apply fs_same_refl, mo_inv|done|]. exists d. split; [done|]. destruct Hd as (? & ? & ? & ? & ? & ?). by apply start_at. }
  destruct (mo_par _ Hmo) as (mx & Hmx & Epar). assert (Hsz := mo_size _ Hmo). rewrite Hm in Hsz.
  apply wp_bind. unfold rpmb_fs_setup. apply wp_bind, wp_gets. cbn [cont]. rewrite Epar. apply wp_ret. cbn [cont].
  apply wp_bind. unfold get_fat_start_address. apply wp_bind, wp_gets. cbn [cont]. rewrite Epar. apply wp_ret. cbn [cont par_fat_start_address].
  eapply wp_seq; [by apply alloc_same, mo_inv|]. intros r s1 (Hs1 & Ed1 & Hc1). destruct r as [[]|e|]; cbn [cont]; [|by split_and!; [..|congruence]|done].
  eapply wp_seq; [by eapply alloc_same, fs_same_inv|]. intros r s2 (Hs2 & Ed2 & Hc2).
  assert (Hs : fs_same s s2) by (by etransitivity). destruct r as [[]|e|]; cbn [cont]; [|by split_and!; [..|congruence]|done].
  set (k := if (CACHE =? 0)%nat then RD else Nat.min CACHE RD).
  assert (Hk : (0 < k <= RD)%nat /\ (CACHE = 0%nat -> k = RD)) by (subst k; destruct (Nat.eqb_spec CACHE 0); lia).
  eapply wp_seq; [apply (read_entries_spec 0 k s2); [by eapply fs_same_inv|lia|pose proof (fl_dev _ _ Hf); lia]|].
  intros r s3 (Hs3 & Ed3 & Hc3 & Hr3). assert (Hs' : fs_same s s3) by (by etransitivity).
  destruct r as [fe|e|]; cbn [cont]; [|by split_and!; [..|congruence]|done]. destruct (Hr3 fe eq_refl) as (_ & Hfl & _ & Hfe).
  rewrite (fs_same_img _ _ Hs), Hm in Hfe. apply wp_modify. split_and!; [by apply fs_same_dir|done|]. eexists. split; [done|].
  split; cbn; try done; try lia.
  - split; cbn; try lia. intros i Hi1 _ _. by rewrite Hfe.
  - destruct n; [lia|done].
  - intros t Ht _. by rewrite Hfe.
Qed.
End traverse.
