(* ===== verification/RpmbFs.v ===== *)
(** * The files of the RPMB file system

    [core/tee/tee_rpmb_fs.c], from [generate_fek] to [tee_rpmb_fs_raw_open], the file operations of
    the secure storage; the names of the files ([tee_svc_storage.c], [tee_misc.c]). An operation on a
    handle runs on [op_state], where the handle is found afterwards, also after an
    error. The mutex makes each operation one step. *)

From S2P Require Import Prelude TeeMm Pobj ErrM Cipher CipherModes FsKey Rpmb RpmbSpec RpmbDev RpmbFat.
From stdpp Require Import base list.
From Stdlib Require Import ZArith Lia.

Local Open Scope Z_scope.

Definition TMP_BLOCK_SIZE : Z := 4096.
Definition INT32_MAX : Z := 2147483647.
Definition TEE_ERROR_STORAGE_NO_SPACE : Z := 0xFFFF3041.
Definition TEE_OBJECT_ID_MAX_LEN : Z := 64.

(** ** Names *)

Definition tee_b2hs_add_base (x : Z) : Z := if x >? 9 then x + 55 else x + 48.
Definition tee_hs2b_rem_base (x : Z) : option Z :=
  if (x <? 48) || (x >? 70) || ((x >? 57) && (x <? 65)) then None
  else if x <? 58 then Some (x - 48) else Some (x - 55).

(** What is returned, and what is written. *)
Definition tee_b2hs (b : bytes) (hslen : Z) : Z * bytes :=
  if Z.of_nat (length b) * 2 + 1 >? hslen then (0, [])
  else (Z.of_nat (length b) * 2,
        concat (map (fun x => [tee_b2hs_add_base (Z.shiftr x 4); tee_b2hs_add_base (Z.land x 15)]) b) ++ [0]).

(** [hs]: the characters up to the end of the buffer. *)
Fixpoint hs2b_loop (n : nat) (hs : bytes) : option bytes :=
  match n with
  | O => Some []
  | S n =>
      match tee_hs2b_rem_base (nth 0 hs 0), tee_hs2b_rem_base (nth 1 hs 0), hs2b_loop n (drop 2 hs) with
      | Some hi, Some lo, Some b => Some (u8 (Z.shiftl hi 4 + lo) :: b)
      | _, _, _ => None
      end
  end.
Definition tee_hs2b (hs : bytes) (hslen blen : Z) : bytes :=
  let len := Z.shiftr (hslen + 1) 1 in
  if len >? blen then [] else match hs2b_loop (Z.to_nat len) hs with Some b => b | None => [] end.

Definition put_str (pos : Z) (s buf : bytes) : bytes := splice (Z.to_nat pos) s buf.

(** The buffer after the call, unless it is too short. *)
Definition tee_svc_storage_create_filename (buf : bytes) (po : tee_pobj) (transient : bool) : option bytes :=
  let hslen := 1 + ((16 + Z.of_nat (length (po_obj_id po))) * 2 + 1) + 1 in
  let hslen := if transient then hslen + 1 else hslen in
  if Z.of_nat (length buf) <? hslen then None
  else
    let file := put_str 0 [47] buf in
    let '(n, s) := tee_b2hs (po_uuid po) hslen in
    let file := put_str 1 s file in
    let pos := 1 + n in
    let file := put_str pos [47] file in
    let pos := pos + 1 in
    let '(file, pos) := if transient then (put_str pos [46] file, pos + 1) else (file, pos) in
    let '(_, s) := tee_b2hs (po_obj_id po) (hslen - pos) in
    Some (put_str pos s file).

Definition tee_svc_storage_create_dirname (buf : bytes) (blen : Z) (uuid : bytes) : option bytes :=
  let hslen := 16 * 2 + 1 + 1 in
  if blen <? hslen then None
  else let '(_, s) := tee_b2hs uuid hslen in Some (put_str 1 s (put_str 0 [47] buf)).

Definition empty_name : bytes := replicate TEE_RPMB_FS_FILENAME_LENGTH 0.
Definition file_name (buf : bytes) (po : tee_pobj) (transient : bool) : bytes :=
  match tee_svc_storage_create_filename buf po transient with Some b => b | None => buf end.

Definition set_name (name : bytes) (e : rpmb_fat_entry) : rpmb_fat_entry :=
  mk_fe (fe_start_address e) (fe_data_size e) (fe_flags e) (fe_write_counter e) (fe_fek e) name.
(** [memcpy] of a string into a cleared buffer. *)
Definition name_field (name : bytes) : bytes := splice 0 (c_str name) empty_name.

Section fs.
Context {S : Type} {DV : RpmbDev S}.
Context (CFG_RPMB_FS_CACHE_ENTRIES CFG_RPMB_FS_RD_ENTRIES : nat) (CFG_RPMB_RESET_FAT : bool).

Notation FS := (fs_state S).
Notation OP := (op_state S).
Notation read_fat := (read_fat CFG_RPMB_FS_CACHE_ENTRIES CFG_RPMB_FS_RD_ENTRIES CFG_RPMB_RESET_FAT).
Notation write_fat_entry := (write_fat_entry CFG_RPMB_FS_CACHE_ENTRIES).
Notation rpmb_fs_setup := (rpmb_fs_setup CFG_RPMB_FS_CACHE_ENTRIES CFG_RPMB_RESET_FAT).
Notation fat_entry_dir_init := (fat_entry_dir_init CFG_RPMB_FS_CACHE_ENTRIES CFG_RPMB_FS_RD_ENTRIES CFG_RPMB_RESET_FAT).
Notation fat_entry_dir_get_next := (fat_entry_dir_get_next CFG_RPMB_FS_CACHE_ENTRIES CFG_RPMB_FS_RD_ENTRIES).
Notation fat_entry_dir_deinit := (fat_entry_dir_deinit CFG_RPMB_FS_CACHE_ENTRIES).

(** ** The pool of an operation *)

Definition init_pool : M OP unit :=
  par ← gets (fun s : OP => fs_par (op_fs s));
  match par with
  | None => panic
  | Some par =>
      mem ← try_ (on_fs (on_dev dev_alloc));
      match tee_mm_init (Some empty_pool) RPMB_STORAGE_START_ADDRESS (par_max_rpmb_address par) RPMB_BLOCK_SIZE_SHIFT TEE_MM_POOL_HI_ALLOC
              (match mem with inl _ => None | inr _ => Some 0 end) with
      | Return (Some p, true) => put_pool p
      | Return _ => throw TEE_ERROR_OUT_OF_MEMORY
      | Panic => panic
      end
  end.

Definition final_pool : M OP unit :=
  p ← gets op_pool;
  match tee_mm_final (Some p) with Return (Some p) => put_pool p | Return None => mret tt | Panic => panic end.

(** [tee_mm_alloc] and [tee_mm_get_smem]. *)
Definition pool_alloc (size : Z) : M OP (option Z) :=
  mem ← new_cell;
  p ← gets op_pool;
  match tee_mm_alloc (Some p) size mem with
  | Return (Some p, Some mm) => put_pool p ;; mret (Some (tee_mm_get_smem p mm))
  | Return _ => mret None
  | Panic => panic
  end.

(** ** Opening and reading *)

(** Again until the key is not zero; [fuel] draws at most. *)
Fixpoint generate_fek (fuel : nat) (uuid : bytes) : M OP bytes :=
  match fuel with
  | O => panic
  | Datatypes.S fuel =>
      k ← on_fs (on_dev (dev_generate_fek uuid));
      if is_zero k then generate_fek fuel uuid else mret k
  end.

Definition new_file_entry (name fek : bytes) : rpmb_fat_entry := mk_fe 0 0 FILE_IS_ACTIVE 0 fek (name_field name).

Definition rpmb_fs_open_internal (fuel : nat) (uuid : bytes) (create : bool) : M OP unit :=
  on_fs rpmb_fs_setup ;;
  upd_fh (fun fh => mk_fh (fh_fat_entry fh) uuid (fh_filename fh) (fh_rpmb_fat_address fh)) ;;
  if create then
    init_pool ;;
    finally (read_fat true) final_pool ;;
    fh ← gets op_fh;
    if negb (is_active (fh_fat_entry fh)) then
      upd_fh (fun fh => set_fat_entry (new_file_entry (fh_filename fh) (fe_fek zero_fe)) fh) ;;
      fek ← generate_fek fuel uuid;
      upd_fh (fun fh => set_fat_entry (new_file_entry (fh_filename fh) fek) fh) ;;
      write_fat_entry true
    else mret tt
  else read_fat false.

Definition rpmb_fs_read (pos len : Z) : M OP bytes :=
  if len =? 0 then mret []
  else
    read_fat false ;;
    fh ← gets op_fh;
    let e := fh_fat_entry fh in
    if fe_data_size e <=? pos then mret []
    else
      let size := Z.min len (fe_data_size e - pos) in
      if size =? 0 then mret []
      else on_fs (on_dev (dev_read (u32 (fe_start_address e + pos)) (u32 size) (Some (fe_fek e, fh_uuid fh)))).

(** ** Writing *)

(** The loop of [update_write_helper]: [off] is [blk_offset], [rem] the data still to be copied. *)
Fixpoint update_write_loop (fuel : nat) (fh : rpmb_file_handle) (pos size new_fat new_size off : Z) (rem : bytes) : M OP unit :=
  match fuel with
  | O => panic
  | Datatypes.S fuel =>
      if negb (off <? new_size) then mret tt
      else
        let e := fh_fat_entry fh in
        let k := Some (fe_fek e, fh_uuid fh) in
        let blk_size := Z.min TMP_BLOCK_SIZE (new_size - off) in
        let blk := replicate (Z.to_nat TMP_BLOCK_SIZE) 0 in
        blk ← (if (off <? pos) && (off <? fe_data_size e) then
                 let rd_size := Z.min blk_size (fe_data_size e - off) in
                 d ← on_fs (on_dev (dev_read (u32 (fe_start_address e + off)) (u32 rd_size) k));
                 mret (splice 0 d blk)
               else mret blk);
        let '(blk, rem) :=
          if (pos <? off + TMP_BLOCK_SIZE) && (off <? pos + size) then
            let offset := if off <? pos then pos - off else 0 in
            let copy_size := Z.min (TMP_BLOCK_SIZE - offset) (Z.of_nat (length rem)) in
            (splice (Z.to_nat offset) (take (Z.to_nat copy_size) rem) blk, drop (Z.to_nat copy_size) rem)
          else (blk, rem) in
        on_fs (on_dev (dev_write (u32 (new_fat + off)) (take (Z.to_nat blk_size) blk) k)) ;;
        update_write_loop fuel fh pos size new_fat new_size (off + blk_size) rem
  end.

Definition update_write_helper (pos : Z) (buf : bytes) (new_fat new_size : Z) : M OP unit :=
  on_fs (on_dev dev_alloc) ;;
  fh ← gets op_fh;
  update_write_loop (Z.to_nat (new_size / TMP_BLOCK_SIZE) + 2) fh pos (Z.of_nat (length buf)) new_fat new_size 0 buf.

Definition set_extent (start size : Z) (e : rpmb_fat_entry) : rpmb_fat_entry :=
  mk_fe start size (fe_flags e) (fe_write_counter e) (fe_fek e) (fe_filename e).

Definition rpmb_fs_write_primitive (pos : Z) (buf : bytes) : M OP unit :=
  let size := Z.of_nat (length buf) in
  if size =? 0 then mret tt
  else
    par ← gets (fun s : OP => fs_par (op_fs s));
    guard_ (match par with Some _ => true | None => false end) TEE_ERROR_GENERIC ;;
    init_pool ;;
    finally
      (read_fat true ;;
       fh ← gets op_fh;
       let e := fh_fat_entry fh in
       assert_ (negb (is_last e)) ;;
       guard_ (pos + size <? 2 ^ 64) TEE_ERROR_BAD_PARAMETERS ;;
       guard_ (fe_start_address e + pos <? 2 ^ 32) TEE_ERROR_BAD_PARAMETERS ;;
       let end_ := pos + size in
       let start_addr := fe_start_address e + pos in
       in_place ← (if end_ <=? fe_data_size e then on_fs (on_dev (dev_write_is_atomic start_addr (u32 size))) else mret false);
       if (in_place : bool) then on_fs (on_dev (dev_write start_addr buf (Some (fe_fek e, fh_uuid fh))))
       else
         let new_size := Z.max end_ (fe_data_size e) in
         mm ← pool_alloc new_size;
         match mm with
         | None => throw TEE_ERROR_STORAGE_NO_SPACE
         | Some new_fat_entry =>
             update_write_helper pos buf new_fat_entry new_size ;;
             upd_fh (fun fh => set_fat_entry (set_extent (u32 new_fat_entry) (u32 new_size) (fh_fat_entry fh)) fh) ;;
             write_fat_entry true
         end)
      final_pool.

Definition rpmb_fs_truncate (length_ : Z) : M OP unit :=
  guard_ (length_ <=? INT32_MAX) TEE_ERROR_BAD_PARAMETERS ;;
  read_fat false ;;
  fh ← gets op_fh;
  let newsize := length_ in
  if fe_data_size (fh_fat_entry fh) <? newsize then
    init_pool ;;
    finally
      (read_fat true ;;
       mm ← pool_alloc newsize;
       nb ← try_ (on_fs (on_dev dev_alloc));
       match mm, nb with
       | Some newaddr, inr _ =>
           fh ← gets op_fh;
           let e := fh_fat_entry fh in
           let k := Some (fe_fek e, fh_uuid fh) in
           let newbuf := replicate (Z.to_nat newsize) 0 in
           newbuf ← (if negb (fe_data_size e =? 0) then
                       d ← on_fs (on_dev (dev_read (fe_start_address e) (fe_data_size e) k)); mret (splice 0 d newbuf)
                     else mret newbuf);
           on_fs (on_dev (dev_write (u32 newaddr) newbuf k)) ;;
           upd_fh (fun fh => set_fat_entry (set_extent (u32 newaddr) newsize (fh_fat_entry fh)) fh) ;;
           write_fat_entry true
       | _, _ => throw TEE_ERROR_OUT_OF_MEMORY
       end)
      final_pool
  else
    upd_fh (fun fh => set_fat_entry (set_extent (fe_start_address (fh_fat_entry fh)) newsize (fh_fat_entry fh)) fh) ;;
    write_fat_entry true.

(** ** Removing and renaming *)

Definition rpmb_fs_remove_internal : M OP unit :=
  read_fat false ;;
  upd_fh (set_fat_entry zero_fe) ;;
  write_fat_entry false.

Definition alloc_file_handle (po : tee_pobj) (temporary : bool) : M FS rpmb_file_handle :=
  on_dev dev_alloc ;; mret (mk_fh zero_fe [] (file_name empty_name po temporary) 0).

Definition rpmb_fs_remove (po : tee_pobj) : M FS unit :=
  fh ← alloc_file_handle po (po_temporary po); with_fh fh rpmb_fs_remove_internal.

Definition rpmb_fs_rename_internal (old : tee_pobj) (new : option tee_pobj) (overwrite : bool) : M FS unit :=
  fh_old ← (match new with Some _ => alloc_file_handle old (po_temporary old) | None => alloc_file_handle old true end);
  fh_new ← (match new with Some new => alloc_file_handle new (po_temporary new) | None => alloc_file_handle old false end);
  fh_old ← with_fh fh_old (read_fat false ;; gets op_fh);
  r ← try_ (with_fh fh_new (read_fat false ;; gets op_fh));
  (match r with
   | inl _ => mret tt
   | inr fh_new =>
       guard_ overwrite TEE_ERROR_ACCESS_CONFLICT ;;
       with_fh (set_fat_entry zero_fe fh_new) (write_fat_entry false)
   end) ;;
  with_fh (set_fat_entry (set_name (name_field (fh_filename fh_new)) (fh_fat_entry fh_old)) fh_old) (write_fat_entry false).

Definition rpmb_fs_rename (old new : tee_pobj) (overwrite : bool) : M FS unit := rpmb_fs_rename_internal old (Some new) overwrite.

(** ** Directories *)

(** [SIMPLEQ] of object identifiers, and the one that was returned last. *)
Record tee_fs_dir := mk_dir { dir_current : option bytes; dir_next : list bytes }.

(** The identifier in the name of a file below [path]. *)
Definition dir_entry (path : bytes) (fe : rpmb_fat_entry) : option bytes :=
  let name := c_str (fe_filename fe) in
  if is_active fe && (length path <? length name)%nat && bool_decide (take (length path) name = path) then
    Some (tee_hs2b (drop (length path) (fe_filename fe)) (Z.of_nat (length name - length path)) TEE_OBJECT_ID_MAX_LEN)
  else None.

Fixpoint dir_populate_loop (fuel : nat) (path : bytes) (next : list bytes) : M FS (list bytes) :=
  match fuel with
  | O => panic
  | Datatypes.S fuel =>
      n ← fat_entry_dir_get_next;
      match n with
      | None => mret next
      | Some (fe, _) =>
          match dir_entry path fe with
          | None => dir_populate_loop fuel path next
          | Some oid =>
              on_dev dev_alloc ;;
              dir_populate_loop fuel path (if (length oid =? 0)%nat then next else next ++ [oid])
          end
      end
  end.

Definition rpmb_fs_dir_populate (path : bytes) : M FS tee_fs_dir :=
  finally
    (fat_entry_dir_init ;;
     next ← dir_populate_loop fat_fuel path [];
     guard_ (negb (length next =? 0)%nat) TEE_ERROR_ITEM_NOT_FOUND ;;
     mret (mk_dir None next))
    fat_entry_dir_deinit.

Definition rpmb_fs_opendir (uuid : bytes) : M FS tee_fs_dir :=
  match tee_svc_storage_create_dirname empty_name (Z.of_nat TEE_RPMB_FS_FILENAME_LENGTH - 1) uuid with
  | None => throw TEE_ERROR_BAD_PARAMETERS
  | Some path =>
      let path := c_str path in
      let path := if bool_decide (last path = Some 47) then path else path ++ [47] in
      on_dev dev_alloc ;; rpmb_fs_dir_populate path
  end.

Definition rpmb_fs_readdir (dir : tee_fs_dir) : Z * option bytes * tee_fs_dir :=
  match dir_next dir with
  | [] => (TEE_ERROR_ITEM_NOT_FOUND, None, mk_dir None [])
  | oid :: next => (TEE_SUCCESS, Some oid, mk_dir (Some oid) next)
  end.

(** ** Opening and creating *)

Definition rpmb_fs_open (po : tee_pobj) : M FS (Z * rpmb_file_handle) :=
  fh ← alloc_file_handle po (po_temporary po);
  with_fh fh (rpmb_fs_open_internal 0 (po_uuid po) false ;; fh ← gets op_fh; mret (fe_data_size (fh_fat_entry fh), fh)).

Definition set_temporary (b : bool) (po : tee_pobj) : tee_pobj :=
  mk_pobj (po_ptr po) (po_refcnt po) (po_uuid po) (po_obj_id po) (po_flags po) b (po_creating po) (po_fops po).

(** [p && n]: a part that is there. *)
Definition write_part (pos : Z) (part : option bytes) : M OP Z :=
  match part with
  | Some d => if (length d =? 0)%nat then mret pos else rpmb_fs_write_primitive pos d ;; mret (pos + Z.of_nat (length d))
  | None => mret pos
  end.

(** The new handle, and the object with its flag [temporary]. *)
Definition rpmb_fs_create (fuel : nat) (po : tee_pobj) (overwrite : bool) (head attr data : option bytes)
    : M FS (rpmb_file_handle * tee_pobj) :=
  fh ← alloc_file_handle po (po_temporary po);
  with_fh fh (
    r ← try_ (
      rpmb_fs_open_internal fuel (po_uuid po) true ;;
      pos ← write_part 0 head;
      pos ← write_part pos attr;
      write_part pos data ;;
      if po_temporary po then
        on_fs (rpmb_fs_rename_internal (set_temporary false po) None overwrite) ;;
        upd_fh (fun fh => mk_fh (fh_fat_entry fh) (fh_uuid fh) (file_name (fh_filename fh) po false) (fh_rpmb_fat_address fh)) ;;
        mret (set_temporary false po)
      else mret po);
    match r with
    | inl e => try_ rpmb_fs_remove_internal ;; throw e
    | inr po => fh ← gets op_fh; mret (fh, po)
    end).

Definition tee_rpmb_fs_raw_open (fuel : nat) (fname : bytes) (create : bool) : M FS rpmb_file_handle :=
  on_dev dev_alloc ;;
  let fh := mk_fh zero_fe [] (splice 0 (take 223 (47 :: c_str fname)) empty_name) 0 in
  with_fh fh (
    r ← try_ (rpmb_fs_open_internal fuel (replicate 16 0) create);
    match r with
    | inl e => (if create then try_ rpmb_fs_remove_internal ;; mret tt else mret tt) ;; throw e
    | inr _ => gets op_fh
    end).
End fs.
