(* ===== verification/RpmbFatFind.v ===== *)
(** * Searching the table of the RPMB file system

    [read_fat] finds the first active entry with the name of the handle; when it fills a memory
    pool as well, it only succeeds if no two files and no file and the table
    overlap, and it chooses a free entry for a file that does not exist. [rpmb_fs_dir_populate] lists the files
    below a path in the order of the table. *)

From S2P Require Import Prelude TeeMm Pobj ErrM Cipher CipherModes FsKey Rpmb RpmbSpec RpmbDev RpmbBlocks RpmbFat RpmbFatSpec RpmbFs.
From stdpp Require Import base list sets.
From Stdlib Require Import ZArith Lia.

Local Open Scope Z_scope.

(** ** Regions of the device and the pool that describes it *)

(** No block belongs to both. *)
Definition apart (a1 l1 a2 l2 : Z) : Prop := forall i, ~ (in_blocks a1 l1 i /\ in_blocks a2 l2 i).

Record pool_ok (mx : Z) (p : tee_mm_pool) : Prop := {
  po_wf : wf_pool p;
  po_lo : p_lo p = 0;
  po_hi : p_hi p = mx * 256;
  po_shift : p_shift p = 8;
}.

Definition holds (p : tee_mm_pool) (a l : Z) : Prop := exists c, c ∈ pool_cells p /\ covers p c a l.

Lemma covers_blocks mx p c a l i :
  pool_ok mx p -> covers p c a l -> 0 < l -> in_blocks a l i -> e_offset c <= Z.of_nat i < e_offset c + e_size c.
Proof.
  intros [_ Hlo _ Hsh] [H1 H2] Hl [H3 H4]. rewrite Hlo, Hsh in *. change (2 ^ 8) with 256 in *.
  assert (e_offset c <= a / 256) by (apply Z.div_le_lower_bound; lia).
  assert ((a + l - 1) / 256 < e_offset c + e_size c) by (apply Z.div_lt_upper_bound; lia). lia.
Qed.

Lemma inserted_apart p q e c :
  inserted p q e -> c ∈ pool_cells p -> blocks_disjoint c e.
Proof.
  intros (Hwf & _ & pre & post & Hp & Hq) Hc. destruct Hwf as (Hg & s & cells & He & Hs & Hok & Hch).
  unfold pool_cells in Hq. rewrite He in Hq. subst cells. rewrite Hp in Hc.
  apply list_elem_of_lookup in Hc as [i Hi]. destruct (decide (i < length pre)%nat) as [Hl|Hl].
  - rewrite lookup_app_l in Hi by done. eapply (chain_pairwise q s _ i (length pre)); [done|done|lia|by rewrite lookup_app_l|].
    by rewrite lookup_app_r, Nat.sub_diag by lia.
  - rewrite lookup_app_r in Hi by lia. eapply (chain_pairwise q s _ (Datatypes.S i) (length pre)); [done|done|lia| |].
    + rewrite lookup_app_r by lia. by replace (Datatypes.S i - length pre)%nat with (Datatypes.S (i - length pre)) by lia.
    + by rewrite lookup_app_r, Nat.sub_diag by lia.
Qed.

Lemma inserted_ok mx p q e : inserted p q e -> pool_ok mx p -> pool_ok mx q.
Proof. intros (Hwf & Hg & _) [_ H1 H2 H3]. destruct Hg as (? & ? & ? & ?). split; [done|congruence..]. Qed.

Lemma inserted_holds p q e a l : inserted p q e -> holds p a l -> holds q a l.
Proof.
  intros (_ & Hg & pre & post & Hp & Hq) (c & Hc & H1 & H2). destruct Hg as (Glo & Ghi & Gf & Gs). exists c. split.
  - rewrite Hq. rewrite Hp in Hc. set_solver.
  - unfold covers. by rewrite Glo, Gs.
Qed.

Lemma inserted_new p q e a l : inserted p q e -> covers p e a l -> holds q a l.
Proof.
  intros (_ & Hg & pre & post & Hp & Hq) [H1 H2]. destruct Hg as (Glo & Ghi & Gf & Gs). exists e. split; [rewrite Hq; set_solver|].
  unfold covers. by rewrite Glo, Gs.
Qed.

(** What is new in the pool is apart from what was in it, and inside of the device. *)
Lemma new_region_apart mx p q e a l a' l' :
  pool_ok mx p -> inserted p q e -> covers p e a l -> 0 < l -> holds p a' l' -> 0 < l' -> apart a l a' l'.
Proof.
  intros Hp Hins Hcov Hl (c & Hc & Hcov') Hl' i [Hi Hi'].
  pose proof (covers_blocks _ _ _ _ _ _ Hp Hcov Hl Hi). pose proof (covers_blocks _ _ _ _ _ _ Hp Hcov' Hl' Hi').
  destruct (inserted_apart _ _ _ _ Hins Hc); lia.
Qed.

Lemma holds_inside mx p a l : pool_ok mx p -> holds p a l -> 0 <= a /\ a + l <= mx * 256.
Proof.
  intros [Hwf Hlo Hhi Hsh] (c & Hc & H1 & H2). destruct (wf_cell p c Hwf Hc) as (Hg & ? & ? & ?).
  destruct (region_exact p c Hg) as (_ & _ & Hin); [done..|]. rewrite Hlo, Hhi, Hsh in *. lia.
Qed.

Lemma zeros_bytes n : Forall is_byte (replicate n 0).
Proof. apply Forall_replicate. unfold is_byte. lia. Qed.

(** ** The files of an image *)

Definition entry_addr (i : nat) : Z := RPMB_FS_FAT_START_ADDRESS + Z.of_nat i * 256.

Definition is_file (name : bytes) (e : rpmb_fat_entry) : bool := strcmp_eq name (fe_filename e) && is_active e.
(** An entry that owns blocks. *)
Definition used (e : rpmb_fat_entry) : bool := is_active e && (0 <? fe_data_size e).

Record first_match (name : bytes) (m : image) (n i : nat) : Prop := {
  fm_lt : (i < n)%nat;
  fm_hit : is_file name (entry m i) = true;
  fm_first : forall j, (j < i)%nat -> is_file name (entry m j) = false;
}.
Definition no_match (name : bytes) (m : image) (n : nat) : Prop := forall j, (j < n)%nat -> is_file name (entry m j) = false.

Record first_free (m : image) (n i : nat) : Prop := {
  ff_lt : (i < n)%nat;
  ff_hit : is_active (entry m i) = false;
  ff_first : forall j, (j < i)%nat -> is_active (entry m j) = true;
}.

Lemma first_match_unique name m n i j : first_match name m n i -> first_match name m n j -> i = j.
Proof.
  intros [H1 H2 H3] [H4 H5 H6]. destruct (Nat.lt_trichotomy i j) as [H|[H|H]]; [|done|].
  - rewrite H6 in H2 by done. done.
  - rewrite H3 in H5 by done. done.
Qed.

Lemma match_or_not name m n : (exists i, first_match name m n i) \/ no_match name m n.
Proof.
  induction n as [|n [(i & Hi)|IH]]; [by right; intros j ?; lia|left; exists i; destruct Hi; split; [lia|done|done]|].
  destruct (is_file name (entry m n)) eqn:E; [left; exists n; by split; [lia| |]|right].
  intros j Hj. destruct (decide (j = n)) as [->|]; [done|apply IH; lia].
Qed.

Lemma first_free_exists m n i : (i < n)%nat -> is_active (entry m i) = false -> exists f, first_free m n f /\ (f <= i)%nat.
Proof.
  revert n. induction i as [i IH] using lt_wf_ind. intros n Hi Hf.
  destruct (decide (Forall (fun j => is_active (entry m j) = true) (seq 0 i))) as [Ha|Ha].
  - exists i. split; [|lia]. split; [done|done|]. intros j Hj. rewrite Forall_forall in Ha. apply Ha. apply elem_of_seq. lia.
  - apply not_Forall_Exists in Ha; [|apply _]. apply Exists_exists in Ha as (j & Hj%elem_of_seq & Hnj). apply not_true_is_false in Hnj.
    destruct (IH j ltac:(lia) n ltac:(lia) Hnj) as (f & Hff & Hle). exists f. split; [done|lia].
Qed.

(** The handle after the first [j] entries: whether the name was found, and the handle. *)
Fixpoint pick (m : image) (fh : rpmb_file_handle) (j : nat) : bool * rpmb_file_handle :=
  match j with
  | O => (false, fh)
  | Datatypes.S j =>
      let '(found, h) := pick m fh j in
      let e := entry m j in
      let hit := matches h e && negb found in
      let h := if hit then set_entry_at e (entry_addr j) h else h in
      let h := if negb (is_active e) && (fh_rpmb_fat_address h =? 0) then set_entry_at e (entry_addr j) h else h in
      (found || hit, h)
  end.

Lemma pick_name m fh j : fh_filename (pick m fh j).2 = fh_filename fh /\ fh_uuid (pick m fh j).2 = fh_uuid fh.
Proof.
  induction j as [|j IH]; [done|]. cbn [pick]. destruct (pick m fh j) as [found h]. cbn in *.
  destruct (matches h (entry m j) && negb found); cbn; destruct (_ && _); done.
Qed.

Lemma set_entry_at_twice e a e' a' fh : set_entry_at e a (set_entry_at e' a' fh) = set_entry_at e a fh.
Proof. done. Qed.

(** The result: the file, or else what the handle was, or a free entry for it. *)
Lemma pick_result m fh j :
  (forall i, first_match (fh_filename fh) m j i -> pick m fh j = (true, set_entry_at (entry m i) (entry_addr i) fh)) /\
  (no_match (fh_filename fh) m j ->
     (fh_rpmb_fat_address fh <> 0 -> pick m fh j = (false, fh)) /\
     (fh_rpmb_fat_address fh = 0 -> (forall i, first_free m j i -> pick m fh j = (false, set_entry_at (entry m i) (entry_addr i) fh)) /\
        ((forall i, (i < j)%nat -> is_active (entry m i) = true) -> pick m fh j = (false, fh)))).
Proof.
  induction j as [|j [IH1 IH2]].
  { split; [by intros i [? _ _]; lia|]. intros _. split; [done|]. intros _. split; [by intros i [? _ _]; lia|done]. }
  pose proof (pick_name m fh j) as [Hn _]. cbn [pick].
  assert (Hm : forall found h, pick m fh j = (found, h) -> matches h (entry m j) = is_file (fh_filename fh) (entry m j)).
  { intros found h E. rewrite E in Hn. unfold matches, is_file. cbn in Hn. by rewrite Hn. }
  split.
  - intros i Hi. destruct (decide (i = j)) as [->|Hne].
    + destruct Hi as [_ Hhit Hfst]. assert (Hno : no_match (fh_filename fh) m j) by done.
      destruct (pick m fh j) as [found h] eqn:E. rewrite (Hm found h eq_refl), Hhit.
      assert (found = false /\ set_entry_at (entry m j) (entry_addr j) h = set_entry_at (entry m j) (entry_addr j) fh) as [-> ->].
      { destruct (IH2 Hno) as [Ha Hb]. destruct (decide (fh_rpmb_fat_address fh = 0)) as [Hz|Hz].
        - destruct (Hb Hz) as [Hc Hd]. destruct (decide (Forall (fun i => is_active (entry m i) = true) (seq 0 j))) as [Hall|Hex].
          + assert (E' : pick m fh j = (false, fh)).
            { rewrite E. apply Hd. intros i Hi. rewrite Forall_forall in Hall. apply Hall, elem_of_seq. lia. }
            rewrite E in E'. by injection E' as -> ->.
          + apply not_Forall_Exists in Hex; [|apply _]. apply Exists_exists in Hex as (i & Hi%elem_of_seq & Hni). apply not_true_is_false in Hni.
            destruct (first_free_exists m j i ltac:(lia) Hni) as (f & Hf & _). assert (E' := Hc f Hf). rewrite ?E in E'. by injection E' as -> ->.
        - assert (E' := Ha Hz). rewrite ?E in E'. by injection E' as -> ->. }
      cbn [negb andb orb]. unfold is_file in Hhit. apply andb_true_iff in Hhit as [_ ->]. done.
    + assert (Hi' : first_match (fh_filename fh) m j i) by (destruct Hi; split; [lia|done|done]).
      rewrite (IH1 i Hi'). rewrite andb_false_r. cbn [set_entry_at fh_rpmb_fat_address].
      replace (entry_addr i =? 0) with false by (symmetry; apply Z.eqb_neq; unfold entry_addr, RPMB_FS_FAT_START_ADDRESS; lia).
      by rewrite andb_false_r.
  - intros Hno. assert (Hno' : no_match (fh_filename fh) m j) by (intros i ?; apply Hno; lia). destruct (IH2 Hno') as [Ha Hb].
    assert (Hj := Hno j ltac:(lia)). split.
    + intros Hz. rewrite (Ha Hz) in *. rewrite (Hm false fh eq_refl), Hj. cbn [andb negb orb].
      rewrite (proj2 (Z.eqb_neq _ _) Hz), andb_false_r. done.
    + intros Hz. destruct (Hb Hz) as [Hc Hd]. split.
      * intros i Hi. destruct (decide (i = j)) as [->|Hne].
        -- destruct Hi as [_ Hidle Hfst]. rewrite Hd in * by done. rewrite (Hm false fh eq_refl), Hj. cbn [andb negb orb].
           by rewrite Hidle, Hz.
        -- assert (Hi' : first_free m j i) by (destruct Hi; split; [lia|done|done]). rewrite (Hc i Hi') in *.
           rewrite (Hm _ _ eq_refl), Hj. cbn [andb negb orb set_entry_at fh_rpmb_fat_address].
           replace (entry_addr i =? 0) with false by (symmetry; apply Z.eqb_neq; unfold entry_addr, RPMB_FS_FAT_START_ADDRESS; lia).
           by rewrite andb_false_r.
      * intros Hall. rewrite Hd in * by (intros; apply Hall; lia). rewrite (Hm false fh eq_refl), Hj, Hall by lia. done.
Qed.

(** ** [read_fat] *)

Lemma fat_fuel_enough n : Z.of_nat n < 65536 -> (n < fat_fuel)%nat.
Proof. intros Hn. unfold fat_fuel. apply Nat2Z.inj_lt. by rewrite N_nat_Z. Qed.
#[global] Opaque fat_fuel.

Section find.
Context {S : Type} {DV : RpmbDev S} {DL : RpmbDevLaws S}.
Context (CACHE RD : nat) (reset : bool).
Hypothesis RD_pos : (0 < RD)%nat.

Local Notation FS := (fs_state S).
Local Notation OP := (op_state S).
Local Notation cached := (cached CACHE RD).
Local Notation at_entry := (at_entry CACHE RD).
Local Notation dir_ok := (dir_ok CACHE RD).
Local Notation mounted := (mounted RD).
Local Notation get_next := (fat_entry_dir_get_next CACHE RD).

(** A table that ends with a free entry. *)
Record fat_ok (m : image) (n : nat) : Prop := {
  fo_len : fat_len m n;
  fo_idle : is_active (entry m (n - 1)) = false;
}.

(** [b] entries of the cache are right. *)
Record fs_ok (s : FS) (n b : nat) : Prop := {
  fk_mounted : mounted s;
  fk_fat : fat_ok (img s) n;
  fk_le : (n <= b)%nat;
  fk_dir : dir_ok (img s) b (fs_dir s);
}.

Lemma fs_ok_same s s' n b : fs_same s s' -> dir_ok (img s) b (fs_dir s') -> fs_ok s n b -> fs_ok s' n b.
Proof.
  intros Hs Hd [H1 H2 H3 H4]. pose proof (fs_same_img _ _ Hs) as Hi. split; [by eapply mounted_same|by rewrite Hi|done|by rewrite Hi].
Qed.

Lemma wp_on_fs {A} (m : M FS A) Q (o : OP) :
  wp m (fun r f => Q r (mk_op f (op_fh o) (op_pool o))) (op_fs o) -> wp (on_fs m) Q o.
Proof. intros H. unfold on_fs. by apply wp_zoom. Qed.

(** One entry, as a step of a loop: the traversal goes on, or the table has ended, or the device failed. *)
Lemma wp_next {A} m n b j d (k : option (rpmb_fat_entry * Z) -> M OP A) (Q : rres A -> OP -> Prop) (o : OP) :
  dl_inv (fs_dev (op_fs o)) -> img (op_fs o) = m -> fat_len m n -> Z.of_nat (length m + RD) <= 65535 -> (n <= b)%nat ->
  fs_dir (op_fs o) = Some d -> at_entry m n b j d ->
  (forall f d', fs_same (op_fs o) f -> fs_dir f = Some d' -> (j < n)%nat -> at_entry m n b (j + 1) d' ->
     wp (k (Some (entry m j, entry_addr j))) Q (mk_op f (op_fh o) (op_pool o))) ->
  (forall f d', fs_same (op_fs o) f -> fs_dir f = Some d' -> cached m b d' -> j = n -> wp (k None) Q (mk_op f (op_fh o) (op_pool o))) ->
  (forall f d' e, fs_same (op_fs o) f -> fs_dir f = Some d' -> cached m b d' -> e <> TEE_SUCCESS -> Q (RErr e) (mk_op f (op_fh o) (op_pool o))) ->
  wp (on_fs get_next ≫= k) Q o.
Proof.
  intros Hi Hm Hf Hsz Hb Hd Hat Hsome Hnone Herr. apply wp_bind, wp_on_fs.
  eapply wp_mono; [by apply (get_next_at CACHE RD RD_pos m n b j d)|]. intros r f (Hs & Hc & d' & Ed & Hca & Hr).
  destruct r as [[[fe a]|]|e|]; cbn [cont]; [|by eapply Hnone|by eapply Herr|done].
  destruct Hr as (Hj & -> & -> & Hat'). by eapply Hsome.
Qed.

Lemma plain_loop m n b fuel j d ex a (o : OP) :
  dl_inv (fs_dev (op_fs o)) -> img (op_fs o) = m -> fat_len m n -> Z.of_nat (length m + RD) <= 65535 -> (n <= b)%nat ->
  fs_dir (op_fs o) = Some d -> at_entry m n b j d -> (n - j < fuel)%nat -> no_match (fh_filename (op_fh o)) m j ->
  wp (read_fat_loop CACHE RD fuel false false ex a)
    (fun r o' => fs_same (op_fs o) (op_fs o') /\ calm r /\ op_pool o' = op_pool o /\ (exists d', fs_dir (op_fs o') = Some d' /\ cached m b d') /\
       match r with
       | ROk _ => (exists i, first_match (fh_filename (op_fh o)) m n i /\ op_fh o' = set_entry_at (entry m i) (entry_addr i) (op_fh o)) \/
                  (no_match (fh_filename (op_fh o)) m n /\ op_fh o' = op_fh o)
       | _ => op_fh o' = op_fh o
       end) o.
Proof.
  revert j d ex a o. induction fuel as [|fuel IH]; intros j d ex a o Hi Hm Hf Hsz Hb Hd Hat Hfu Hno; [lia|]. cbn [read_fat_loop].
  eapply (wp_next m n b j d); [done..| | |].
  - intros f d' Hs Ed Hj Hat'. apply wp_bind, wp_gets. cbn [cont op_fh]. rewrite andb_true_r.
    change (matches (op_fh o) (entry m j)) with (is_file (fh_filename (op_fh o)) (entry m j)).
    destruct (is_file (fh_filename (op_fh o)) (entry m j)) eqn:Eh; cbn [negb].
    + apply wp_bind, wp_modify. cbn [cont]. apply wp_ret. split_and!; [done|done|done|exists d'; split; [done|by eapply ae_cached]|].
      left. exists j. split; [|done]. by split.
    + apply wp_bind, wp_ret. cbn [cont].
      eapply wp_mono; [apply (IH (j + 1)%nat d'); try done; cbn|].
      * by eapply fs_same_inv.
      * by rewrite (fs_same_img _ _ Hs).
      * lia.
      * intros i Hi'. destruct (decide (i = j)) as [->|]; [done|]. apply Hno. lia.
      * intros r o' (Hs' & ? & ? & ? & ?). split_and!; try done. by etransitivity.
  - intros f d' Hs Ed Hca ->. apply wp_ret. split_and!; [done|done|done|by exists d'|]. by right.
  - intros f d' e Hs Ed Hca He. split_and!; [done|done|done|by exists d'|done].
Qed.

(** Around the traversal: the buffer is got ready and put away; [P] says what the body does after the
    first entries have been read. *)
Lemma wp_traversal {A} n b (body : M OP A) (P : rres A -> OP -> Prop) (o : OP) :
  fs_ok (op_fs o) n b ->
  (forall f d, fs_same (op_fs o) f -> fs_dir f = Some d -> at_entry (img (op_fs o)) n b 0 d ->
     wp body (fun r o' => dl_inv (fs_dev (op_fs o')) /\ r <> RPanic /\ exists d' m' b', fs_dir (op_fs o') = Some d' /\ cached m' b' d' /\
        forall f, fs_same (op_fs o') f -> dir_ok m' b' (fs_dir f) -> P r (mk_op f (op_fh o') (op_pool o')))
       (mk_op f (op_fh o) (op_pool o))) ->
  (forall f e, fs_same (op_fs o) f -> dir_ok (img (op_fs o)) b (fs_dir f) -> e <> TEE_SUCCESS -> P (RErr e) (mk_op f (op_fh o) (op_pool o))) ->
  wp (finally (on_fs (fat_entry_dir_init CACHE RD reset) ;; body) (on_fs (fat_entry_dir_deinit CACHE))) P o.
Proof.
  intros Hok Hbody Herr. assert (Hmo := fk_mounted _ _ _ Hok). apply wp_finally, wp_bind, wp_on_fs.
  eapply wp_mono; [apply (init_at CACHE RD reset RD_pos (img (op_fs o)) n b); try done; apply Hok|].
  intros r f (Hs & Hc & Hr). destruct r as [[]|e|]; cbn [cont]; [| |done].
  - destruct Hr as (d & Ed & Hat). eapply wp_mono; [by eapply Hbody|]. intros r o' (Hi' & Hnp & d' & m' & b' & Ed' & Hca & HP).
    assert (Hde : wp (on_fs (fat_entry_dir_deinit CACHE)) (fun rc s2 => rc = ROk tt /\ P r s2) o').
    { apply wp_on_fs. eapply wp_mono; [apply (deinit_ok CACHE RD RD_pos m' b'); [done|by rewrite Ed']|]. intros rc f' (-> & Hs' & Hd'). split; [done|by apply HP]. }
    by destruct r.
  - apply wp_on_fs. cbn. eapply wp_mono; [apply (deinit_ok CACHE RD RD_pos (img (op_fs o)) b); [by eapply fs_same_inv|]|].
    { rewrite Hr. pose proof (fk_dir _ _ _ Hok) as Hd. destruct (fs_dir (op_fs o)); [by destruct Hd|done]. }
    intros rc f' (-> & Hs' & Hd'). split; [done|]. apply Herr; [by etransitivity|done|done].
Qed.

(** Searching a file. *)
Lemma read_fat_plain n b (o : OP) :
  fs_ok (op_fs o) n b ->
  wp (read_fat CACHE RD reset false)
    (fun r o' => fs_same (op_fs o) (op_fs o') /\ calm r /\ op_pool o' = op_pool o /\ fs_ok (op_fs o') n b /\
       match r with
       | ROk _ => (exists i, first_match (fh_filename (op_fh o)) (img (op_fs o)) n i /\
                     op_fh o' = set_entry_at (entry (img (op_fs o)) i) (entry_addr i) (op_fh o)) \/
                  (no_match (fh_filename (op_fh o)) (img (op_fs o)) n /\ op_fh o' = op_fh o /\ fh_rpmb_fat_address (op_fh o) <> 0)
       | _ => op_fh o' = op_fh o
       end) o.
Proof.
  intros Hok. assert (Hmo := fk_mounted _ _ _ Hok). assert (Hf := fo_len _ _ (fk_fat _ _ _ Hok)). assert (Hsz := mo_size _ _ Hmo).
  assert (Hb := fk_le _ _ _ Hok). unfold read_fat. set (m := img (op_fs o)) in *.
  apply (wp_traversal n b); [done| |].
  2: { intros f e Hs Hd He. split_and!; [done|done|done|by eapply fs_ok_same|done]. }
  intros f d Hs Ed Hat. eapply wp_seq.
  { apply (plain_loop m n b _ 0 d); cbn; try done; [by eapply fs_same_inv|by rewrite (fs_same_img _ _ Hs)| |by intros j ?; lia].
    apply fat_fuel_enough. pose proof (fl_dev _ _ Hf). lia. }
  cbn. intros r o1 (Hs1 & Hc1 & Hp1 & (d1 & Ed1 & Hca1) & Hr1). assert (Hs' : fs_same (op_fs o) (op_fs o1)) by (by etransitivity).
  assert (Hi1 : dl_inv (fs_dev (op_fs o1))) by (by eapply fs_same_inv).
  destruct r as [[ex a]|e|]; cbn [cont]; [| |done].
  2: { split_and!; [done|done|]. exists d1, m, b. split_and!; [done|done|]. intros f' Hs2 Hd2. assert (fs_same (op_fs o) f') by (by etransitivity).
       split_and!; [done|done|done|by eapply fs_ok_same|done]. }
  apply wp_bind, wp_ret. cbn [cont]. apply wp_bind, wp_gets. cbn [cont]. apply wp_guard; intros Hg; (split_and!; [done|done|]);
    exists d1, m, b; (split_and!; [done|done|]); intros f' Hs2 Hd2; (assert (fs_same (op_fs o) f') by (by etransitivity));
    (split_and!; [done|done|done|by eapply fs_ok_same|]).
  - destruct Hr1 as [?|[Hno Eh]]; [by left|right]. split_and!; [done|done|]. apply negb_true_iff, Z.eqb_neq in Hg. cbn in Eh. by rewrite <- Eh.
  - apply negb_false_iff, Z.eqb_eq in Hg. destruct Hr1 as [(i & _ & Eh)|[_ Eh]]; [|done]. rewrite Eh in Hg.
    unfold entry_addr, RPMB_FS_FAT_START_ADDRESS in Hg. cbn in Hg. lia.
Qed.
(** ** Writing an entry *)

Definition upd_dir (i : nat) (e : rpmb_fat_entry) (d : rpmb_fat_entry_dir) : rpmb_fat_entry_dir :=
  if (i <? fd_num_buffered d)%nat && (i <? CACHE)%nat then
    mk_fdir (<[i := e]> (fd_buf d)) (fd_idx_curr d) (fd_num_buffered d) (fd_num_total_read d) (fd_last_reached d)
  else d.

Lemma upd_dir_cached m b i e d :
  fe_wf e -> (2 + i < length m)%nat -> (i <= b)%nat -> cached m b d ->
  cached (<[(2 + i)%nat := fe_bytes e]> m) (Nat.max b (i + 1)) (upd_dir i e d).
Proof.
  intros He Hi Hb [C1 C2 C3 C4 C5]. unfold upd_dir. destruct ((i <? fd_num_buffered d)%nat && (i <? CACHE)%nat) eqn:Ei; split; cbn [fd_buf fd_num_buffered]; try done;
    [by rewrite length_insert| |]; intros j H1 H2 H3; rewrite entry_insert by done; case_decide as Hij.
  - subst j. apply list_lookup_insert_eq. lia.
  - rewrite list_lookup_insert_ne by done. apply C5; lia.
  - subst j. apply andb_false_iff in Ei as [?%Nat.ltb_ge|?%Nat.ltb_ge]; lia.
  - apply C5; lia.
Qed.

Lemma upd_dir_ok m b i e od :
  fe_wf e -> (2 + i < length m)%nat -> (i <= b)%nat -> dir_ok m b od ->
  dir_ok (<[(2 + i)%nat := fe_bytes e]> m) (Nat.max b (i + 1)) (upd_dir i e <$> od).
Proof.
  intros He Hi Hb Hd. destruct od as [d|]; [|done]. destruct Hd as (Hca & HC & Hle & H1 & H2 & H3). cbn. split; [by apply upd_dir_cached|].
  unfold upd_dir. destruct (_ && _); cbn; done.
Qed.

(** The entry [i] of the image becomes [e], in one piece. *)
Record wrote (i : nat) (e : rpmb_fat_entry) (s : FS) (r : rres unit) (s' : FS) : Prop := {
  wr_calm : calm r;
  wr_inv : dl_inv (fs_dev s');
  wr_ready : dl_ready (fs_dev s) -> dl_ready (fs_dev s');
  wr_par : fs_par s' = fs_par s;
  wr_hist : exists ms, dl_hist (fs_dev s') = dl_hist (fs_dev s) ++ ms /\
    (forall m', m' ∈ ms -> m' = <[(2 + i)%nat := fe_bytes e]> (img s)) /\
    match r with
    | ROk _ => dl_dead (fs_dev s') = false /\ (2 + i < length (img s))%nat /\ img s' = <[(2 + i)%nat := fe_bytes e]> (img s) /\
               fs_dir s' = upd_dir i e <$> fs_dir s
    | _ => fs_dir s' = fs_dir s /\ (dl_dead (fs_dev s') = true \/ ms = [])
    end;
}.

(** One block in one piece. *)
Lemma block_replaced m m' i (d : bytes) :
  blocks_wf m -> blocks_wf m' -> length m' = length m -> length d = 256%nat -> concat m' = splice (i * 256) d (concat m) ->
  m' = <[i := d]> m /\ (i < length m)%nat.
Proof.
  intros Hm Hm' Hl Hd E. assert (Hi : (i < length m)%nat).
  { apply (f_equal length) in E. rewrite !blocks_concat_length, Hl in E by done. unfold splice in E.
    rewrite !length_app, length_take, length_drop, blocks_concat_length, Hd in E by done. unfold RPMB_DATA_SIZE in E. lia. }
  split; [|done]. assert (Hb : Forall is_byte d).
  { assert (HF : Forall is_byte (concat m')) by (by apply blocks_concat_bytes). rewrite E in HF. unfold splice in HF.
    rewrite !Forall_app in HF. apply HF. }
  apply blocks_eq; [done|by apply blocks_wf_insert|]. rewrite E. by rewrite concat_insert_block.
Qed.

Lemma write_block i (d : bytes) (s : FS) :
  dl_inv (fs_dev s) -> length d = 256%nat -> Forall is_byte d -> Z.of_nat i < 65535 ->
  wp (on_dev (dev_write (Z.of_nat i * 256) d None)) (fun r s' => calm r /\ dl_inv (fs_dev s') /\ (dl_ready (fs_dev s) -> dl_ready (fs_dev s')) /\
    fs_par s' = fs_par s /\ fs_dir s' = fs_dir s /\
    exists ms, dl_hist (fs_dev s') = dl_hist (fs_dev s) ++ ms /\ (forall m', m' ∈ ms -> m' = <[i := d]> (img s)) /\
      match r with
      | ROk _ => dl_dead (fs_dev s') = false /\ (i < length (img s))%nat /\ img s' = <[i := d]> (img s)
      | _ => dl_dead (fs_dev s') = true \/ ms = []
      end) s.
Proof.
  intros Hi Hl Hd Hx. apply wp_zoom. assert (Hne : d <> []) by (by destruct d).
  assert (Hone : Z.of_nat i * 256 mod 256 + Z.of_nat (length d) <= 256) by (rewrite Z.mod_mul by lia; lia).
  eapply wp_mono; [apply (dl_write (Z.of_nat i * 256) d None); [done|lia|done|done|lia]|].
  intros r s' (Hi' & Hrd & Hc & _ & ms & Hh & [W1 W2 W3 W4] & Hok & Her). cbn [fs_dev fs_par fs_dir]. rewrite !dl_view_none in Hok.
  fold (img s) in *. split_and!; try done. exists ms. assert (Hm : blocks_wf (img s)) by (by apply dl_wf).
  replace (Z.to_nat (Z.of_nat i * 256)) with (i * 256)%nat in * by lia. split_and!; [done| |].
  - intros m' Hm'. assert (E := W4 m' Hm' Hone). rewrite !dl_view_none in E. eapply block_replaced; [done|by apply W3|by apply W2|done|exact E].
  - destruct r as [[]|e|]; [|by eapply Her|done]. destruct (Hok eq_refl) as (_ & Hde & Hle & E). split; [done|].
    assert (Hb' : blocks_wf (latest (dl_hist s'))) by (by apply dl_wf).
    assert (Hlen : length (latest (dl_hist s')) = length (img s)).
    { rewrite Hh. destruct ms as [|x l _] using rev_ind; [by rewrite app_nil_r|]. rewrite app_assoc, latest_app. apply W2. set_solver. }
    destruct (block_replaced (img s) (latest (dl_hist s')) i d Hm Hb' Hlen Hl E) as [? ?]. done.
Qed.

(** The cache follows. *)
Lemma cache_update i e (o : OP) :
  Z.of_nat (2 + i) < 65535 ->
  wp (if negb (CACHE =? 0)%nat then on_fs (fat_entry_dir_update CACHE e (Z.of_nat (2 + i) * 256)) else mret tt)
    (fun r o' => r = ROk tt /\ o' = mk_op (mk_fs (fs_par (op_fs o)) (upd_dir i e <$> fs_dir (op_fs o)) (fs_dev (op_fs o))) (op_fh o) (op_pool o)) o.
Proof.
  intros Hx. destruct o as [[par dir dev] fh pool]. cbn [op_fs op_fh op_pool fs_par fs_dir fs_dev].
  destruct (Nat.eqb_spec CACHE 0) as [HC|HC]; cbn [negb].
  { apply wp_ret. split; [done|]. do 2 f_equal. destruct dir as [d|]; [|done]. cbn. unfold upd_dir. by rewrite HC, andb_false_r. }
  apply wp_on_fs. unfold fat_entry_dir_update. cbn [op_fs op_fh op_pool].
  replace (u32 (Z.of_nat (2 + i) * 256 - RPMB_FS_FAT_START_ADDRESS)) with (Z.of_nat i * 256)
    by (unfold RPMB_FS_FAT_START_ADDRESS; rewrite u32_small by (unfold is_u32; lia); lia).
  rewrite Z.mod_mul by done. apply wp_bind, wp_ret. cbn [cont]. apply wp_bind, wp_gets. cbn [cont fs_dir].
  destruct dir as [d|]; [|by apply wp_ret]. rewrite Z.div_mul, Nat2Z.id by done. cbn [fmap option_fmap option_map]. unfold upd_dir.
  destruct (_ && _); [by apply wp_modify|by apply wp_ret].
Qed.

Lemma write_fat_entry_wrote i upd (o : OP) :
  dl_inv (fs_dev (op_fs o)) -> fh_rpmb_fat_address (op_fh o) = entry_addr i -> fe_wf (fh_fat_entry (op_fh o)) -> Z.of_nat (2 + i) < 65535 ->
  wp (write_fat_entry CACHE upd) (fun r o' => op_pool o' = op_pool o /\ exists c,
    let e := if upd then set_fe_write_counter (u32 c) (fh_fat_entry (op_fh o)) else fh_fat_entry (op_fh o) in
    fe_wf e /\ (op_fh o' = set_fat_entry e (op_fh o) \/ op_fh o' = op_fh o) /\ (r = ROk tt -> op_fh o' = set_fat_entry e (op_fh o)) /\
    wrote i e (op_fs o) r (op_fs o')) o.
Proof.
  intros Hi Ha He Hx. unfold write_fat_entry. apply wp_bind, wp_gets. cbn [cont]. rewrite Ha.
  assert (Hlow : 128 <=? entry_addr i = true) by (apply Z.leb_le; unfold entry_addr, RPMB_FS_FAT_START_ADDRESS; lia).
  assert (Hal : entry_addr i mod 256 = 0) by (unfold entry_addr, RPMB_FS_FAT_START_ADDRESS; rewrite Z.mod_add by lia; done).
  rewrite Hlow, Hal. apply wp_bind, wp_ret. cbn [cont]. apply wp_bind, wp_ret. cbn [cont].
  eapply (wp_seq _ _ (fun r o1 => op_pool o1 = op_pool o /\ fs_same (op_fs o) (op_fs o1) /\ fs_dir (op_fs o1) = fs_dir (op_fs o) /\ calm r /\
    match r with
    | ROk _ => exists c, op_fh o1 = set_fat_entry (if upd then set_fe_write_counter (u32 c) (fh_fat_entry (op_fh o)) else fh_fat_entry (op_fh o)) (op_fh o)
    | _ => op_fh o1 = op_fh o end)).
  { destruct upd.
    - apply wp_bind, wp_on_fs. eapply wp_mono; [apply (on_dev_same _ (fun r _ => calm r)); by apply dl_counter|]. intros r f (Hs & Ed & Hc).
      destruct r as [c|e|]; cbn [cont]; [|by split_and!|done]. apply wp_modify. split_and!; try done. by exists c.
    - apply wp_ret. split_and!; try done. exists 0. by destruct o as [? [] ?]. }
  intros r o1 (Hp1 & Hs1 & Ed1 & Hc1 & Hr1). assert (Him := fs_same_img _ _ Hs1).
  assert (Hwc : forall c, fe_wf (if upd then set_fe_write_counter (u32 c) (fh_fat_entry (op_fh o)) else fh_fat_entry (op_fh o))).
  { intros c. destruct upd; [|done]. destruct He. split; cbn; try done. apply u32_range. }
  destruct r as [[]|er|]; cbn [cont]; [| |done].
  2: { split; [done|]. exists 0. cbn zeta. split_and!; [done|by right|done|]. destruct Hs1 as [[D1 D2 D3 D4] D5]. split; try done.
       exists []. rewrite app_nil_r, D3. split_and!; [done|by intros m' ?%elem_of_nil|done|by right]. }
  destruct Hr1 as [c Eh1]. specialize (Hwc c). set (e := if upd then _ else _) in *.
  apply wp_bind, wp_gets. cbn [cont]. rewrite Eh1. cbn [set_fat_entry fh_fat_entry fh_rpmb_fat_address]. rewrite Ha.
  replace (entry_addr i) with (Z.of_nat (2 + i) * 256) by (unfold entry_addr, RPMB_FS_FAT_START_ADDRESS; lia).
  apply wp_bind, wp_on_fs.
  eapply wp_mono; [apply (write_block (2 + i) (fe_bytes e)); [by eapply fs_same_inv|by apply fe_bytes_length|by apply fe_bytes_bytes|done]|].
  intros r f (Hc2 & Hi2 & Hrd2 & Hp2 & Ed2 & ms & Hh2 & Him2 & Hr2). rewrite Him in Him2, Hr2. destruct Hs1 as [[D1 D2 D3 D4] D5].
  rewrite D3 in Hh2. rewrite D5 in Hp2. rewrite Ed1 in Ed2.
  assert (Hrdy : dl_ready (fs_dev (op_fs o)) -> dl_ready (fs_dev f)) by auto. clear D1 D2 D3 D4 D5 Hrd2.
  destruct r as [[]|er|]; cbn [cont]; [| |done].
  2: { split; [done|]. exists c. cbn zeta. fold e. split_and!; [done|by left|done|]. split; try done. by exists ms. }
  destruct Hr2 as (Hal2 & Hlt & Him').
  eapply (wp_mono _ (fun r o3 => r = ROk tt /\ o3 = mk_op (mk_fs (fs_par f) (upd_dir i e <$> fs_dir f) (fs_dev f)) (op_fh o1) (op_pool o1))).
  - by apply (cache_update i e (mk_op f (op_fh o1) (op_pool o1))).
  - intros r o3 [-> ->]. split; [done|]. exists c. cbn zeta. fold e. split_and!; [done|by left|by intros _|]. split; try done.
    exists ms. cbn [fs_dev fs_dir]. split_and!; try done. by rewrite Ed2.
Qed.

(** ** Filling the pool *)

Definition fstart (m : image) (i : nat) : Z := fe_start_address (entry m i).
Definition fsize (m : image) (i : nat) : Z := fe_data_size (entry m i).

(** The pool knows the files of the first [j] entries, which have no block in common. *)
Record laid (mx : Z) (p : tee_mm_pool) (m : image) (j : nat) : Prop := {
  la_ok : pool_ok mx p;
  la_holds : forall i, (i < j)%nat -> used (entry m i) = true -> holds p (fstart m i) (fsize m i);
  la_apart : forall i i', (i < j)%nat -> (i' < j)%nat -> i <> i' -> used (entry m i) = true -> used (entry m i') = true ->
    apart (fstart m i) (fsize m i) (fstart m i') (fsize m i');
}.

Lemma apart_sym a l a' l' : apart a l a' l' -> apart a' l' a l.
Proof. intros H i [H1 H2]. by apply (H i). Qed.

Lemma used_size e : used e = true -> 0 < fe_data_size e /\ is_active e = true.
Proof. unfold used. intros [? ?%Z.ltb_lt]%andb_true_iff. done. Qed.

Lemma laid_inserted mx p q e m j : inserted p q e -> laid mx p m j -> laid mx q m j.
Proof.
  intros Hi [H1 H2 H3]. split; [by eapply inserted_ok| |done]. intros i Hlt Hu. eapply inserted_holds; eauto.
Qed.

Lemma laid_step mx p q e m j :
  laid mx p m j -> inserted p q e -> used (entry m j) = true -> covers p e (fstart m j) (fsize m j) -> laid mx q m (j + 1).
Proof.
  intros [H1 H2 H3] Hi Hu Hc. destruct (used_size _ Hu) as [Hpos _]. split; [by eapply inserted_ok| |].
  - intros i Hlt Hu'. destruct (decide (i = j)) as [->|]; [by eapply inserted_new|]. eapply inserted_holds; [done|]. apply H2; [lia|done].
  - assert (Hnew : forall i, (i < j)%nat -> used (entry m i) = true -> apart (fstart m j) (fsize m j) (fstart m i) (fsize m i)).
    { intros i Hlt Hu'. eapply new_region_apart; [done|done|done|done|by apply H2|by apply used_size]. }
    intros i i' Hlt Hlt' Hne Hu1 Hu2. destruct (decide (i = j)) as [->|]; [apply Hnew; [lia|done]|].
    destruct (decide (i' = j)) as [->|]; [apply apart_sym, Hnew; [lia|done]|]. apply H3; [lia|lia|done|done|done].
Qed.

Lemma laid_skip mx p m j : laid mx p m j -> used (entry m j) = false -> laid mx p m (j + 1).
Proof.
  intros [H1 H2 H3] Hu. assert (Hlt : forall i, (i < j + 1)%nat -> used (entry m i) = true -> (i < j)%nat).
  { intros i Hi Hu'. destruct (decide (i = j)) as [->|]; [congruence|lia]. }
  split; [done| |]; intros; [apply H2|apply H3]; auto.
Qed.

Lemma new_cell_spec (o : OP) :
  dl_inv (fs_dev (op_fs o)) ->
  wp new_cell (fun r o' => fs_same (op_fs o) (op_fs o') /\ fs_dir (op_fs o') = fs_dir (op_fs o) /\ op_fh o' = op_fh o /\ op_pool o' = op_pool o /\
    exists mem, r = ROk mem) o.
Proof.
  intros Hi. unfold new_cell. apply wp_bind, wp_try, wp_on_fs. eapply wp_mono; [by apply alloc_same|]. intros r f (Hs & Ed & Hc).
  destruct r as [[]|e|]; cbn [cont]; [| |done]; (apply wp_bind, wp_gets; cbn [cont]; apply wp_ret; split_and!; try done; by eexists).
Qed.

Lemma pool_alloc2_spec mx a l (o : OP) :
  dl_inv (fs_dev (op_fs o)) -> pool_ok mx (op_pool o) -> is_u32 a -> 0 < l -> is_u32 l ->
  wp (pool_alloc2 a l) (fun r o' => fs_same (op_fs o) (op_fs o') /\ fs_dir (op_fs o') = fs_dir (op_fs o) /\ op_fh o' = op_fh o /\ calm r /\
    match r with
    | ROk _ => exists e, inserted (op_pool o) (op_pool o') e /\ covers (op_pool o) e a l
    | _ => op_pool o' = op_pool o
    end) o.
Proof.
  unfold is_u32. intros Hi [Hwf Hlo Hhi Hsh] Ha Hl Hl2. unfold pool_alloc2. eapply wp_seq; [by apply new_cell_spec|].
  intros r o1 (Hs & Ed & Eh & Ep & mem & ->). cbn [cont]. apply wp_bind, wp_gets. cbn [cont]. rewrite Ep.
  pose proof (tee_mm_alloc2_spec (op_pool o) a l mem Hwf ltac:(lia) ltac:(lia)) as Hspec. rewrite Hlo, Hsh in Hspec.
  specialize (Hspec ltac:(lia)). destruct (tee_mm_alloc2 (Some (op_pool o)) a l mem) as [[q|] [e|]]; [|by apply wp_throw|done|done].
  destruct Hspec as (Hins & _ & Hcov). apply wp_modify. split_and!; try done. by exists e.
Qed.

(** One entry. *)
Lemma enter_pool_spec mx m j h (o : OP) :
  dl_inv (fs_dev (op_fs o)) -> fe_wf (entry m j) -> laid mx (op_pool o) m j ->
  h = (let e := entry m j in if negb (is_active e) && (fh_rpmb_fat_address (op_fh o) =? 0) then set_entry_at e (entry_addr j) (op_fh o) else op_fh o) ->
  wp (enter_pool (entry m j) (entry_addr j)) (fun r o' => fs_same (op_fs o) (op_fs o') /\ fs_dir (op_fs o') = fs_dir (op_fs o) /\ calm r /\
    match r with
    | ROk grow => op_fh o' = h /\ grow = is_last (entry m j) && (fh_rpmb_fat_address h =? entry_addr j) /\ laid mx (op_pool o') m (j + 1)
    | _ => op_fh o' = op_fh o
    end) o.
Proof.
  intros Hi Hwf Hla ->. unfold enter_pool.
  eapply (wp_seq _ _ (fun r o1 => fs_same (op_fs o) (op_fs o1) /\ fs_dir (op_fs o1) = fs_dir (op_fs o) /\ op_fh o1 = op_fh o /\ calm r /\
    (r = ROk tt -> laid mx (op_pool o1) m (j + 1)))).
  { change (is_active (entry m j) && (0 <? fe_data_size (entry m j))) with (used (entry m j)). destruct (used (entry m j)) eqn:Eu.
    - eapply wp_mono; [apply (pool_alloc2_spec mx); [done|by apply la_ok in Hla|apply Hwf|by apply used_size|apply Hwf]|].
      intros r o1 (Hs & Ed & Eh & Hc & Hr). split_and!; try done. intros ->. destruct Hr as (e & Hins & Hcov). by eapply laid_step.
    - apply wp_ret. split_and!; try done. intros _. by apply laid_skip. }
  intros r o1 (Hs & Ed & Eh & Hc & Hr). destruct r as [[]|e|]; cbn [cont]; [|by split_and!|done]. specialize (Hr eq_refl).
  apply wp_bind, wp_gets. cbn [cont]. rewrite Eh. cbv zeta.
  destruct (negb (is_active (entry m j)) && (fh_rpmb_fat_address (op_fh o) =? 0)).
  - apply wp_bind, wp_modify. cbn [cont]. apply wp_bind, wp_gets. cbn [cont]. apply wp_ret. cbn [op_fh op_fs op_pool]. rewrite Eh. by split_and!.
  - apply wp_bind, wp_ret. cbn [cont]. apply wp_bind, wp_gets. cbn [cont]. apply wp_ret. rewrite Eh. by split_and!.
Qed.

(** [expand_fat] is only set by the last entry. *)
Lemma pool_loop mx m n b fh0 fuel j d ex a (o : OP) :
  blocks_wf m -> dl_inv (fs_dev (op_fs o)) -> img (op_fs o) = m -> fat_len m n -> Z.of_nat (length m + RD) <= 65535 -> (n <= b)%nat ->
  fs_dir (op_fs o) = Some d -> at_entry m n b j d -> (n - j < fuel)%nat ->
  op_fh o = (pick m fh0 j).2 -> laid mx (op_pool o) m j ->
  ex = (j =? n)%nat && (fh_rpmb_fat_address (pick m fh0 n).2 =? entry_addr (n - 1)) -> (j = n -> a = entry_addr (n - 1)) ->
  wp (read_fat_loop CACHE RD fuel true (pick m fh0 j).1 ex a)
    (fun r o' => fs_same (op_fs o) (op_fs o') /\ calm r /\ (exists d', fs_dir (op_fs o') = Some d' /\ cached m b d') /\
       match r with
       | ROk x => op_fh o' = (pick m fh0 n).2 /\ laid mx (op_pool o') m n /\
                  x = (fh_rpmb_fat_address (pick m fh0 n).2 =? entry_addr (n - 1), entry_addr (n - 1))
       | _ => exists j', (j' <= n)%nat /\ op_fh o' = (pick m fh0 j').2
       end) o.
Proof.
  intros Hmw. revert j d ex a o. induction fuel as [|fuel IH]; intros j d ex a o Hi Hm Hf Hsz Hb Hd Hat Hfu Hfh Hla Hex Ha; [lia|].
  cbn [read_fat_loop]. eapply (wp_next m n b j d); [done..| | |].
  2: { intros f d' Hs Ed Hca ->. apply wp_ret. rewrite Nat.eqb_refl in Hex. cbn [andb] in Hex. rewrite Hex, Ha by done.
       split_and!; [done|done|by exists d'|done|done|done]. }
  2: { intros f d' e Hs Ed Hca He. split_and!; [done|done|by exists d'|]. exists j. split; [by eapply ae_le|done]. }
  intros f d' Hs Ed Hj Hat'. apply wp_bind, wp_gets. cbn [cont op_fh].
  rewrite (proj2 (Nat.eqb_neq j n)) in Hex by lia. cbn [andb] in Hex. subst ex.
  assert (Hpk : pick m fh0 (Datatypes.S j) = (let hit := matches (op_fh o) (entry m j) && negb (pick m fh0 j).1 in
      let h := if hit then set_entry_at (entry m j) (entry_addr j) (op_fh o) else op_fh o in
      ((pick m fh0 j).1 || hit, if negb (is_active (entry m j)) && (fh_rpmb_fat_address h =? 0) then set_entry_at (entry m j) (entry_addr j) h else h))).
  { cbn [pick]. rewrite Hfh. by destruct (pick m fh0 j) as [found h]. }
  cbv zeta in Hpk. set (hit := matches (op_fh o) (entry m j) && negb (pick m fh0 j).1) in *.
  set (h := if hit then set_entry_at (entry m j) (entry_addr j) (op_fh o) else op_fh o) in *.
  eapply (wp_seq _ _ (fun r o1 => r = ROk tt /\ o1 = mk_op f h (op_pool o))).
  { subst h. destruct hit; [by apply wp_modify|by apply wp_ret]. }
  intros r o1 [-> ->]. cbn [cont]. assert (Hif : dl_inv (fs_dev f)) by (by eapply fs_same_inv).
  assert (Hact : hit = true -> is_active (entry m j) = true).
  { unfold hit, matches. intros [[_ ?]%andb_true_iff _]%andb_true_iff. done. }
  eapply wp_seq; [apply (enter_pool_spec mx m j (pick m fh0 (Datatypes.S j)).2 (mk_op f h (op_pool o))); [done| |done|by rewrite Hpk]|].
  { apply entry_wf; [done|]. pose proof (fl_dev _ _ Hf). lia. }
  cbn [op_fs op_fh op_pool]. intros r o2 (Hs2 & Ed2 & Hc2 & Hr2). assert (Hs' : fs_same (op_fs o) (op_fs o2)) by (by etransitivity).
  destruct r as [grow|e|]; cbn [cont]; [| |done].
  2: { split_and!; [done|done|exists d'; split; [congruence|by eapply ae_cached]|]. destruct hit eqn:Eh.
       - exists (Datatypes.S j). split; [lia|]. rewrite Hr2, Hpk. cbn [snd]. rewrite Hact by done. done.
       - exists j. split; [lia|]. by rewrite Hr2. }
  destruct Hr2 as (Eh2 & Egrow & Hla2).
  assert (Hpk1 : (pick m fh0 (j + 1)).1 = (pick m fh0 j).1 || hit /\ (pick m fh0 (j + 1)).2 = op_fh o2).
  { rewrite Nat.add_1_r, Eh2. split; [by rewrite Hpk|done]. }
  destruct Hpk1 as [Hpk1 Hpk2]. rewrite <- Hpk1. eapply wp_mono; [apply (IH (j + 1)%nat d'); try done; cbn|].
  - by eapply fs_same_inv.
  - by rewrite (fs_same_img _ _ Hs').
  - congruence.
  - lia.
  - rewrite Egrow, (is_last_at m n j), (Nat.add_1_r j) by done. destruct (Nat.eqb_spec (Datatypes.S j) n) as [<-|]; [|done].
    by rewrite Nat.sub_1_r.
  - intros <-. f_equal. lia.
  - intros r o' (Hs3 & ? & ? & ?). split_and!; try done. by etransitivity.
Qed.

(** ** The table itself in the pool *)

Definition last_fe (c : Z) : rpmb_fat_entry := mk_fe 0 0 FILE_IS_LAST_ENTRY c (fe_fek zero_fe) (fe_filename zero_fe).

Lemma last_fe_wf c : is_u32 c -> fe_wf (last_fe c).
Proof.
  clear RD_pos. intros Hc. unfold last_fe. change FILE_IS_LAST_ENTRY with 2.
  split; cbn [fe_start_address fe_data_size fe_flags fe_write_counter fe_fek fe_filename zero_fe];
    [unfold is_u32; lia..|exact Hc| |]; (split; [apply length_replicate|apply zeros_bytes]).
Qed.

Lemma wp_with_fh {A} fh (m : M OP A) Q (s : FS) : wp m (fun r o => Q r (op_fs o)) (mk_op s fh empty_pool) -> wp (with_fh fh m) Q s.
Proof. unfold wp, with_fh. by destruct (m (mk_op s fh empty_pool)). Qed.

(** The end of the table, with a new entry if it grows. *)
Definition fat_end (n : nat) (grow : bool) : Z := 512 + Z.of_nat (if grow then n + 1 else n) * 256.

Record fat_entered (mx : Z) (m : image) (n b : nat) (grow : bool) (o : OP) (r : rres unit) (o' : OP) : Prop := {
  fe_calm : calm r;
  fe_fh : op_fh o' = op_fh o;
  fe_inv : dl_inv (fs_dev (op_fs o'));
  fe_ready : dl_ready (fs_dev (op_fs o)) -> dl_ready (fs_dev (op_fs o'));
  fe_par : fs_par (op_fs o') = fs_par (op_fs o);
  fe_hist : exists ms c, is_u32 c /\ dl_hist (fs_dev (op_fs o')) = dl_hist (fs_dev (op_fs o)) ++ ms /\
    (forall m', m' ∈ ms -> grow = true /\ m' = <[(2 + n)%nat := fe_bytes (last_fe c)]> m) /\
    (ms <> [] -> forall i, (i < n)%nat -> used (entry m i) = true -> apart (fstart m i) (fsize m i) 0 (fat_end n grow)) /\
    match r with
    | ROk _ =>
        laid mx (op_pool o') m n /\ holds (op_pool o') 0 (fat_end n grow) /\
        (forall i, (i < n)%nat -> used (entry m i) = true -> apart (fstart m i) (fsize m i) 0 (fat_end n grow)) /\
        dl_dead (fs_dev (op_fs o')) = false /\
        (if grow then (2 + n < length m)%nat /\ img (op_fs o') = <[(2 + n)%nat := fe_bytes (last_fe c)]> m /\
                      fs_dir (op_fs o') = upd_dir n (last_fe c) <$> fs_dir (op_fs o)
         else img (op_fs o') = m /\ fs_dir (op_fs o') = fs_dir (op_fs o))
    | _ => fs_dir (op_fs o') = fs_dir (op_fs o) /\ (dl_dead (fs_dev (op_fs o')) = true \/ ms = [])
    end;
}.

Lemma enter_fat_spec mx m n b grow (o : OP) :
  dl_inv (fs_dev (op_fs o)) -> dl_dead (fs_dev (op_fs o)) = false -> img (op_fs o) = m -> (0 < n)%nat -> Z.of_nat (2 + n) < 65535 ->
  laid mx (op_pool o) m n ->
  wp (enter_fat CACHE grow (entry_addr (n - 1))) (fat_entered mx m n b grow o) o.
Proof.
  intros Hi Hal Hm Hn Hx Hla. unfold enter_fat.
  assert (E1 : u32 (entry_addr (n - 1) + 256) = 512 + Z.of_nat n * 256)
    by (unfold entry_addr, RPMB_FS_FAT_START_ADDRESS; rewrite u32_small by (unfold is_u32; lia); lia).
  rewrite E1. replace (if grow then u32 (512 + Z.of_nat n * 256 + 256) else 512 + Z.of_nat n * 256) with (fat_end n grow)
    by (unfold fat_end; destruct grow; [rewrite u32_small by (unfold is_u32; lia)|]; lia).
  assert (Hend : 512 <= fat_end n grow /\ is_u32 (fat_end n grow)) by (unfold fat_end, is_u32; destruct grow; lia).
  eapply wp_seq; [apply (pool_alloc2_spec mx); [done|by apply la_ok in Hla|done|lia|tauto]|].
  intros r o1 (Hs1 & Ed1 & Eh1 & Hc1 & Hr1). destruct Hs1 as [[D1 D2 D3 D4] D5]. assert (Him : img (op_fs o1) = m) by (unfold img in *; congruence).
  assert (Hnil : forall P : image -> Prop, forall m', m' ∈ [] -> P m') by (by intros P m' ?%elem_of_nil).
  destruct r as [[]|e|]; cbn [cont]; [| |done].
  2: { split; try done. exists [], 0. rewrite app_nil_r. split_and!; [done|done|by intros ? ?%elem_of_nil|done|done|by right]. }
  destruct Hr1 as (c & Hins & Hcov).
  assert (Hap : forall i, (i < n)%nat -> used (entry m i) = true -> apart (fstart m i) (fsize m i) 0 (fat_end n grow)).
  { intros i Hlt Hu. apply apart_sym. eapply new_region_apart; [apply Hla|done|done|lia|by apply Hla|by apply used_size]. }
  assert (Hla' : laid mx (op_pool o1) m n) by (by eapply laid_inserted).
  assert (Hho : holds (op_pool o1) 0 (fat_end n grow)) by (by eapply inserted_new).
  destruct grow.
  2: { apply wp_ret. split; try done. exists [], 0. rewrite app_nil_r. split_and!; try done; [by intros ? ?%elem_of_nil|congruence]. }
  apply wp_on_fs, wp_with_fh. set (h := mk_fh _ _ _ _).
  eapply wp_mono; [apply (write_fat_entry_wrote n true (mk_op (op_fs o1) h empty_pool)); [done| | |lia]|].
  { cbn [op_fh fh_rpmb_fat_address h]. unfold fat_end, entry_addr, RPMB_FS_FAT_START_ADDRESS. rewrite u32_small by (unfold is_u32; lia). lia. }
  { apply (last_fe_wf 0). done. }
  cbn [op_fs op_fh op_pool fh_fat_entry h]. intros r o2 (_ & x & Hwf & _ & _ & Hw). destruct Hw as [W1 W2 W3 W4 (ms & W5 & W6 & W7)].
  change (set_fe_write_counter (u32 x) _) with (last_fe (u32 x)) in *. rewrite Him in *. split; cbn [op_fs op_fh op_pool]; try done; auto; [congruence|].
  exists ms, (u32 x). split_and!; [apply u32_range|congruence|by auto|done|].
  destruct r as [[]|e|]; [|by rewrite <- Ed1|done]. destruct W7 as (? & ? & ? & Hdir). split_and!; try done. congruence.
Qed.

(** ** [read_fat] with a pool *)

(** Whether the entry chosen for the file is the last one, so that the table grows. *)
Definition grows (m : image) (n : nat) (fh : rpmb_file_handle) : bool := fh_rpmb_fat_address (pick m fh n).2 =? entry_addr (n - 1).

(** The image after the table has grown, and how many entries of the cache are right. *)
Definition grown (m : image) (n : nat) (g : bool) (c : Z) : image := if g then <[(2 + n)%nat := fe_bytes (last_fe c)]> m else m.
Definition grown_to (n b : nat) (g : bool) : nat := if g then Nat.max b (n + 1) else b.

Record fat_searched (mx : Z) (n b : nat) (o : OP) (r : rres unit) (o' : OP) : Prop := {
  fs_calm : calm r;
  fs_inv : dl_inv (fs_dev (op_fs o'));
  fs_ready : dl_ready (fs_dev (op_fs o')) ;
  fs_par_same : fs_par (op_fs o') = fs_par (op_fs o);
  fs_hist : exists ms c, let m := img (op_fs o) in let g := grows m n (op_fh o) in
    is_u32 c /\ dl_hist (fs_dev (op_fs o')) = dl_hist (fs_dev (op_fs o)) ++ ms /\
    (forall m', m' ∈ ms -> g = true /\ m' = grown m n g c) /\
    (ms <> [] -> forall i, (i < n)%nat -> used (entry m i) = true -> apart (fstart m i) (fsize m i) 0 (fat_end n g)) /\
    match r with
    | ROk _ =>
        op_fh o' = (pick m (op_fh o) n).2 /\ fh_rpmb_fat_address (op_fh o') <> 0 /\
        laid mx (op_pool o') m n /\ holds (op_pool o') 0 (fat_end n g) /\
        (forall i, (i < n)%nat -> used (entry m i) = true -> apart (fstart m i) (fsize m i) 0 (fat_end n g)) /\
        dl_dead (fs_dev (op_fs o')) = false /\ (g = true -> (2 + n < length m)%nat) /\
        img (op_fs o') = grown m n g c /\ dir_ok (img (op_fs o')) (grown_to n b g) (fs_dir (op_fs o'))
    | _ => (exists j, (j <= n)%nat /\ op_fh o' = (pick m (op_fh o) j).2) /\
           (dl_dead (fs_dev (op_fs o')) = true \/ ms = [] /\ img (op_fs o') = m /\ dir_ok m b (fs_dir (op_fs o')))
    end;
}.

Lemma read_fat_pool mx n b (o : OP) :
  fs_ok (op_fs o) n b -> pool_ok mx (op_pool o) ->
  wp (read_fat CACHE RD reset true) (fat_searched mx n b o) o.
Proof.
  intros Hok Hpo. assert (Hmo := fk_mounted _ _ _ Hok). assert (Hf := fo_len _ _ (fk_fat _ _ _ Hok)). assert (Hsz := mo_size _ _ Hmo).
  assert (Hb := fk_le _ _ _ Hok). assert (Hn := fl_dev _ _ Hf). assert (Hp := fl_pos _ _ Hf). assert (Hi := mo_inv _ _ Hmo). unfold read_fat.
  assert (Hmw : blocks_wf (img (op_fs o))) by (by apply dl_wf). apply (wp_traversal n b); [done| |].
  2: { intros f e Hs Hd He. pose proof (fs_same_img _ _ Hs) as Him. destruct Hs as [[D1 D2 D3 D4] D5]. split; cbn [op_fs]; try done; [by apply D2, Hmo|].
       exists [], 0. cbv zeta. rewrite app_nil_r. split_and!; try done; [by intros m' ?%elem_of_nil|by exists 0%nat; split; [lia|]|by right]. }
  intros f d Hs Ed Hat. assert (Him := fs_same_img _ _ Hs). set (m := img (op_fs o)) in *.
  eapply wp_seq.
  { apply (pool_loop mx m n b (op_fh o) _ 0 d); cbn [op_fs op_fh op_pool]; try done; [by eapply fs_same_inv| | |by destruct n; [lia|]|lia].
    - rewrite Nat.sub_0_r. apply fat_fuel_enough. lia.
    - split; [done|by intros i ?; lia|by intros i i' ?; lia]. }
  cbn [op_fs op_fh op_pool]. intros r o1 (Hs1 & Hc1 & (d1 & Ed1 & Hca1) & Hr1). assert (Hs' : fs_same (op_fs o) (op_fs o1)) by (by etransitivity).
  destruct r as [[ex a]|e|]; cbn [cont]; [| |done].
  2: { split_and!; [by eapply fs_same_inv|done|]. exists d1, m, b. split_and!; [done|done|]. intros f' Hs2 Hd2.
       assert (Hs3 : fs_same (op_fs o) f') by (by etransitivity). pose proof (fs_same_img _ _ Hs3) as Him3. destruct Hs3 as [[D1 D2 D3 D4] D5].
       split; cbn [op_fs]; try done; [by apply D2, Hmo|]. exists [], 0. cbv zeta. rewrite app_nil_r.
       split_and!; try done; [by intros m' ?%elem_of_nil|by right]. }
  destruct Hr1 as (Eh1 & Hla1 & [= -> ->]). fold m. change (fh_rpmb_fat_address (pick m (op_fh o) n).2 =? entry_addr (n - 1)) with (grows m n (op_fh o)).
  set (g := grows m n (op_fh o)) in *. pose proof (fs_same_img _ _ Hs') as Him1. destruct Hs' as [[D1 D2 D3 D4] D5].
  eapply wp_seq; [apply (enter_fat_spec mx m n b g o1); [done|rewrite D4; apply Hmo|done|done|lia|done]|].
  intros r o2 [E1 E2 E3 E4 E5 (ms & c & Hc & E6 & E7 & E8 & E9)].
  assert (Hrdy : dl_ready (fs_dev (op_fs o2))) by (apply E4, D2, Hmo). rewrite D3 in E6. rewrite D5 in E5.
  assert (Hms : forall m', m' ∈ ms -> g = true /\ m' = grown m n g c).
  { intros m' Hm'. destruct (E7 m' Hm') as [-> ->]. done. }
  assert (Hst : forall f', fs_same (op_fs o2) f' -> dl_inv (fs_dev f') /\ dl_ready (fs_dev f') /\ fs_par f' = fs_par (op_fs o) /\
     dl_hist (fs_dev f') = dl_hist (fs_dev (op_fs o)) ++ ms /\ dl_dead (fs_dev f') = dl_dead (fs_dev (op_fs o2)) /\ img f' = img (op_fs o2)).
  { intros f' Hf'. pose proof (fs_same_img _ _ Hf'). destruct Hf' as [[F1 F2 F3 F4] F5]. split_and!; try done; [by apply F2|congruence|congruence]. }
  destruct r as [[]|e|]; cbn [cont]; [| |done].
  2: { split_and!; [done|done|]. destruct E9 as [Ed2 Hde]. exists d1, m, b. split_and!; [by rewrite Ed2|done|]. intros f' Hf' Hd'.
       destruct (Hst f' Hf') as (? & ? & ? & ? & F4 & ?). split; cbn [op_fs op_fh op_pool]; try done. exists ms, c. cbv zeta. fold m g.
       split_and!; try done; [exists n; split; [lia|congruence]|]. destruct Hde as [?|Hnil]; [left; congruence|right]. split_and!; [done| |done].
       unfold m, img. by rewrite H2, Hnil, app_nil_r. }
  destruct E9 as (Hla2 & Hho2 & Hap2 & Hal2 & Himg). apply wp_bind, wp_gets. cbn [cont]. rewrite E2, Eh1.
  assert (Hdir : exists d2, fs_dir (op_fs o2) = Some d2 /\ cached (grown m n g c) (grown_to n b g) d2 /\ img (op_fs o2) = grown m n g c /\
      (g = true -> (2 + n < length m)%nat)).
  { destruct g; [|by exists d1; destruct Himg as [-> ->]]. destruct Himg as (Hlt & -> & ->). exists (upd_dir n (last_fe c) d1).
    split_and!; [by rewrite Ed1| |done|done]. apply upd_dir_cached; [by apply last_fe_wf|done|done|done]. }
  destruct Hdir as (d2 & Ed2 & Hca2 & Him2 & Hlt2).
  apply wp_guard; intros Hg; (split_and!; [done|done|]); exists d2, (grown m n g c), (grown_to n b g); (split_and!; [done|done|]); intros f' Hf' Hd';
    destruct (Hst f' Hf') as (? & ? & ? & Hhist & F4 & F6); (split; cbn [op_fs op_fh op_pool]; try done); exists ms, c; cbv zeta; fold m g; split_and!; try done.
  - by rewrite E2.
  - rewrite E2, Eh1. by apply negb_true_iff, Z.eqb_neq in Hg.
  - by rewrite F4.
  - by rewrite F6.
  - by rewrite F6, Him2.
  - exists n. split; [lia|congruence].
  - right. assert (Hgf : g = false).
    { apply negb_false_iff, Z.eqb_eq in Hg. unfold g, grows. rewrite Hg. apply Z.eqb_neq. unfold entry_addr, RPMB_FS_FAT_START_ADDRESS. lia. }
    rewrite Hgf in *. split_and!; [|by rewrite F6, Him2|done]. destruct ms as [|x ms]; [done|]. by destruct (Hms x ltac:(set_solver)).
Qed.
End find.
