(* ===== verification/RpmbFatFound.v ===== *)
(** * Searching the table on a device that answers

    An error of a search is an error of the device or of an allocation, or else the file is not there: when the
    device answers and memory does not run out, [read_fat] succeeds if there is a file of the name and
    fails with TEE_ERROR_ITEM_NOT_FOUND otherwise. *)

From S2P Require Import Prelude TeeMm Pobj ErrM Cipher CipherModes FsKey Rpmb RpmbSpec RpmbDev RpmbBlocks RpmbFat RpmbFatSpec RpmbFs RpmbFatFind.
From stdpp Require Import base list sets.
From Stdlib Require Import ZArith Lia.

Local Open Scope Z_scope.

(** The states in [P] answer: reads inside of the device and allocations succeed, and lead to such states. *)
Record answers {S : Type} {DV : RpmbDev S} {DL : RpmbDevLaws S} (P : S -> Prop) : Prop := {
  an_read : forall s addr len k, P s -> dl_inv s -> 0 <= addr -> 0 < len -> (Z.to_nat (addr + len) <= 256 * length (latest (dl_hist s)))%nat ->
    wp (dev_read addr len k) (fun r s' => P s' /\ forall e, r <> RErr e) s;
  an_alloc : forall s, P s -> dl_inv s -> wp dev_alloc (fun r s' => P s' /\ forall e, r <> RErr e) s;
}.

Section found.
Context {S : Type} {DV : RpmbDev S} {DL : RpmbDevLaws S}.
Context (CACHE RD : nat) (reset : bool).
Hypothesis RD_pos : (0 < RD)%nat.
Context (P : S -> Prop) (HP : answers P).

Local Notation FS := (fs_state S).
Local Notation OP := (op_state S).
Local Notation cached := (cached CACHE RD).
Local Notation at_entry := (at_entry CACHE RD).

Lemma wp_and {T A} (m : M T A) Q1 Q2 (s : T) : wp m Q1 s -> wp m Q2 s -> wp m (fun r s' => Q1 r s' /\ Q2 r s') s.
Proof. unfold wp. by split. Qed.

Definition fine {A} (r : rres A) (s : FS) : Prop := P (fs_dev s) /\ forall e, r <> RErr e.

Lemma alloc_fine (s : FS) : P (fs_dev s) -> dl_inv (fs_dev s) -> wp (on_dev dev_alloc) fine s.
Proof. intros Hs Hi. apply wp_zoom. by apply an_alloc. Qed.

Lemma read_entries_fine (j n : nat) (s : FS) :
  P (fs_dev s) -> dl_inv (fs_dev s) -> (0 < n)%nat -> (2 + j + n <= length (img s))%nat ->
  wp (read_entries (512 + Z.of_nat j * 256) n) fine s.
Proof.
  intros Hs Hi Hn Hl. unfold read_entries. eapply (wp_seq _ _ fine); [apply wp_zoom, an_read; try done; [lia|lia|fold (img s); lia]|].
  intros r s' [H1 H2]. destruct r as [b|e|]; cbn [cont]; [by apply wp_ret|by destruct (H2 e)|done].
Qed.

(** The two together: what a step does, and that it does not fail. *)
Lemma alloc_sure (s : FS) : P (fs_dev s) -> dl_inv (fs_dev s) ->
  wp (on_dev dev_alloc) (fun r s' => (fs_same s s' /\ fs_dir s' = fs_dir s /\ calm r) /\ fine r s') s.
Proof. intros. apply wp_and; [by apply alloc_same|by apply alloc_fine]. Qed.

Lemma read_more_fine m n b j d (s : FS) :
  P (fs_dev s) -> dl_inv (fs_dev s) -> img s = m -> (2 + n + RD <= length m)%nat -> at_entry m n b j d -> (j < n)%nat ->
  wp (read_more CACHE RD d (512 + Z.of_nat j * 256)) fine s.
Proof.
  intros Hs Hi Hm Hroom Hat Hj. assert (Htot := ae_total _ _ _ _ _ _ _ Hat). unfold read_more, RPMB_BUF_MAX_ENTRIES. rewrite Htot.
  assert (Hread : forall s' (k : list rpmb_fat_entry -> rpmb_fat_entry_dir) q, P (fs_dev s') -> dl_inv (fs_dev s') -> img s' = m -> (0 < q <= RD)%nat ->
    wp (fe ← read_entries (512 + Z.of_nat j * 256) q; mret (k fe)) fine s').
  { intros s' k q Hs' Hi' Hm' Hq. eapply (wp_seq _ _ fine); [apply read_entries_fine; try done; [lia|rewrite Hm'; lia]|].
    intros r s2 [H1 H2]. destruct r as [fe|e|]; cbn [cont]; [by apply wp_ret|by destruct (H2 e)|done]. }
  destruct (CACHE =? 0)%nat; [|destruct (Nat.ltb_spec j (CACHE + RD)) as [Hlt|Hge]].
  - apply wp_bind, wp_modify. cbn [cont]. by apply Hread.
  - eapply wp_seq; [by apply alloc_sure|]. intros r s1 [(Hs1 & _ & Hc1) [H1 H2]]. destruct r as [[]|e|]; cbn [cont]; [|by destruct (H2 e)|done].
    apply Hread; [done|by eapply fs_same_inv|by rewrite (fs_same_img _ _ Hs1)|lia].
  - apply wp_bind, wp_modify. cbn [cont]. by apply Hread.
Qed.

Lemma get_next_fine m n b j d (s : FS) :
  P (fs_dev s) -> dl_inv (fs_dev s) -> img s = m -> (2 + n + RD <= length m)%nat -> Z.of_nat (length m) <= 65535 -> fs_dir s = Some d -> at_entry m n b j d ->
  wp (fat_entry_dir_get_next CACHE RD) fine s.
Proof.
  intros Hs Hi Hm Hroom Hsz Hd Hat. unfold fat_entry_dir_get_next. apply wp_bind, wp_gets. cbn [cont]. rewrite Hd, (ae_last _ _ _ _ _ _ _ Hat).
  destruct (Nat.eqb_spec j n) as [->|Hne]; [by apply wp_ret|].
  assert (Hj : (j < n)%nat) by (pose proof (ae_le _ _ _ _ _ _ _ Hat); lia).
  rewrite (ae_total _ _ _ _ _ _ _ Hat). unfold RPMB_FS_FAT_START_ADDRESS. rewrite u32_small by (unfold is_u32; lia).
  eapply (wp_seq _ _ fine).
  { destruct (_ <=? _)%nat; [by eapply read_more_fine|by apply wp_ret]. }
  intros r s1 [H1 H2]. destruct r as [d2|e|]; cbn [cont]; [|by destruct (H2 e)|done].
  destruct (fd_buf d2 !! fd_idx_curr d2); [|done]. apply wp_bind, wp_modify. cbn [cont]. by apply wp_ret.
Qed.

Lemma init_fine (s : FS) :
  P (fs_dev s) -> mounted RD s -> (2 + RD <= length (img s))%nat -> wp (fat_entry_dir_init CACHE RD reset) fine s.
Proof.
  intros Hs Hmo Hroom. unfold fat_entry_dir_init. apply wp_bind, wp_gets. cbn [cont]. destruct (fs_dir s) as [d|]; [by apply wp_ret|].
  destruct (mo_par _ _ Hmo) as (mx & Hmx & Epar).
  apply wp_bind. unfold rpmb_fs_setup. apply wp_bind, wp_gets. cbn [cont]. rewrite Epar. apply wp_ret. cbn [cont].
  apply wp_bind. unfold get_fat_start_address. apply wp_bind, wp_gets. cbn [cont]. rewrite Epar. apply wp_ret. cbn [cont par_fat_start_address].
  eapply wp_seq; [apply alloc_sure; [done|apply Hmo]|]. intros r s1 [(Hs1 & _ & _) [H1 H1']]. destruct r as [[]|e|]; cbn [cont]; [|by destruct (H1' e)|done].
  eapply wp_seq; [apply alloc_sure; [done|by eapply fs_same_inv]|]. intros r s2 [(Hs2 & _ & _) [H2 H2']]. destruct r as [[]|e|]; cbn [cont]; [|by destruct (H2' e)|done].
  assert (Hs' : fs_same s s2) by (by etransitivity).
  eapply (wp_seq _ _ fine).
  { apply (read_entries_fine 0); [done|by eapply fs_same_inv|destruct (CACHE =? 0)%nat eqn:E; [lia|apply Nat.eqb_neq in E; lia]|].
    rewrite (fs_same_img _ _ Hs'). destruct (CACHE =? 0)%nat; lia. }
  intros r s3 [H3 H3']. destruct r as [fe|e|]; cbn [cont]; [by apply wp_modify|by destruct (H3' e)|done].
Qed.

Lemma plain_loop_fine m n b fuel j d ex a (o : OP) :
  P (fs_dev (op_fs o)) -> (2 + n + RD <= length m)%nat ->
  dl_inv (fs_dev (op_fs o)) -> img (op_fs o) = m -> fat_len m n -> Z.of_nat (length m + RD) <= 65535 -> (n <= b)%nat ->
  fs_dir (op_fs o) = Some d -> at_entry m n b j d ->
  wp (read_fat_loop CACHE RD fuel false false ex a) (fun r _ => forall e, r <> RErr e) o.
Proof.
  revert j d ex a o. induction fuel as [|fuel IH]; intros j d ex a o Hs Hroom Hi Hm Hf Hsz Hb Hd Hat; [done|]. cbn [read_fat_loop].
  apply wp_bind, wp_on_fs. eapply wp_mono.
  { apply wp_and; [by apply (get_next_at CACHE RD RD_pos m n b j d)|]. apply (get_next_fine m n b j d); try done. lia. }
  intros r f [(Hs1 & Hc & d' & Ed & Hca & Hr) [H1 H2]]. destruct r as [[[fe x]|]|e|]; cbn [cont]; [|by apply wp_ret|by destruct (H2 e)|done].
  destruct Hr as (Hj & -> & -> & Hat'). apply wp_bind, wp_gets. cbn [cont]. destruct (_ && _).
  - apply wp_bind, wp_modify. cbn [cont]. by apply wp_ret.
  - apply wp_bind, wp_ret. cbn [cont]. apply (IH (j + 1)%nat d'); cbn; try done; [by eapply fs_same_inv|by rewrite (fs_same_img _ _ Hs1)].
Qed.

(** The only error. *)
Lemma read_fat_fine n b (o : OP) :
  P (fs_dev (op_fs o)) -> (2 + n + RD <= length (img (op_fs o)))%nat -> fs_ok CACHE RD (op_fs o) n b -> fh_rpmb_fat_address (op_fh o) = 0 ->
  wp (read_fat CACHE RD reset false) (fun r _ => forall e, r = RErr e -> e = TEE_ERROR_ITEM_NOT_FOUND /\ no_match (fh_filename (op_fh o)) (img (op_fs o)) n) o.
Proof.
  intros Hs Hroom Hok Ha. assert (Hmo := fk_mounted _ _ _ _ _ Hok). assert (Hf := fo_len _ _ (fk_fat _ _ _ _ _ Hok)). assert (Hsz := mo_size _ _ Hmo).
  assert (Hb := fk_le _ _ _ _ _ Hok). unfold read_fat. set (m := img (op_fs o)) in *.
  apply wp_finally, wp_bind, wp_on_fs. eapply wp_mono.
  { apply wp_and; [apply (init_at CACHE RD reset RD_pos m n b); try done; apply Hok|]. apply init_fine; [done|done|fold m; lia]. }
  intros r f [(Hs1 & _ & Hr1) [H1 H1']]. destruct r as [[]|e|]; cbn [cont]; [|by destruct (H1' e)|done]. destruct Hr1 as (d & Ed & Hat).
  assert (Hi1 : dl_inv (fs_dev f)) by (by eapply fs_same_inv). assert (Him1 : img f = m) by (by rewrite (fs_same_img _ _ Hs1)).
  apply wp_bind. eapply wp_mono.
  { apply wp_and; [apply (plain_loop CACHE RD RD_pos m n b _ 0 d); cbn; try done; [|by intros j ?; lia]|by apply (plain_loop_fine m n b _ 0 d)].
    apply fat_fuel_enough. pose proof (fl_dev _ _ Hf). lia. }
  cbn [op_fs op_fh op_pool]. intros r o1 [(Hs2 & _ & _ & (d1 & Ed1 & Hca1) & Hr2) H2]. destruct r as [[ex a]|e|]; cbn [cont]; [|by destruct (H2 e)|done].
  assert (Hde : forall r : rres unit, (forall e, r = RErr e -> e = TEE_ERROR_ITEM_NOT_FOUND /\ no_match (fh_filename (op_fh o)) m n) ->
    wp (on_fs (fat_entry_dir_deinit CACHE)) (fun rc _ => rc = ROk tt /\ forall e, r = RErr e -> e = TEE_ERROR_ITEM_NOT_FOUND /\ no_match (fh_filename (op_fh o)) m n) o1).
  { intros r Hr. apply wp_on_fs. eapply wp_mono; [apply (deinit_ok CACHE RD RD_pos m b); [by eapply fs_same_inv|by rewrite Ed1]|]. by intros rc f' (-> & _). }
  apply wp_bind, wp_ret. cbn [cont]. apply wp_bind, wp_gets. cbn [cont]. apply wp_guard; intros Hg; apply Hde; [done|]. intros e [= <-]. split; [done|].
  apply negb_false_iff, Z.eqb_eq in Hg. destruct Hr2 as [(i & _ & Eh)|[Hno _]]; [|done]. rewrite Eh in Hg.
  unfold entry_addr, RPMB_FS_FAT_START_ADDRESS in Hg. cbn in Hg. lia.
Qed.
End found.
