(* ===== verification/RpmbFsData.v ===== *)
(** * The contents of the files of the RPMB file system

    What a file holds in an image of the device, when two images agree on it, and the copy
    that [update_write_helper] makes: the new contents in blocks of their own, nothing else touched. *)

From S2P Require Import Prelude TeeMm Pobj ErrM Cipher CipherModes FsKey Rpmb RpmbSpec RpmbDev RpmbBlocks RpmbFat RpmbFs RpmbFatSpec RpmbFatFind.
From stdpp Require Import base list sets.
From Stdlib Require Import ZArith Lia.

Local Open Scope Z_scope.

(** ** What a write makes of the contents *)

(** The bytes a write of [buf] at [pos] leaves, for a file that is written anew: [update_write_helper] only copies
    the old bytes of the pieces of 4096 bytes that begin before [pos]. *)
Definition kept_upto (pos : Z) : Z := (pos + TMP_BLOCK_SIZE - 1) / TMP_BLOCK_SIZE * TMP_BLOCK_SIZE.

Definition rewritten (old : bytes) (pos : Z) (buf : bytes) : bytes :=
  let new_size := Nat.max (Z.to_nat pos + length buf) (length old) in
  let base := take (Z.to_nat (kept_upto pos)) old in
  splice (Z.to_nat pos) buf (take new_size (base ++ replicate new_size 0)).

(** What a write should leave: the old contents, zeroes in a gap, the new bytes. *)
Definition posix_write (old : bytes) (pos : Z) (buf : bytes) : bytes :=
  splice (Z.to_nat pos) buf (take (Nat.max (Z.to_nat pos + length buf) (length old)) (old ++ replicate (Z.to_nat pos + length buf) 0)).

Lemma kept_upto_bounds pos : 0 <= pos -> pos <= kept_upto pos < pos + TMP_BLOCK_SIZE.
Proof. intros Hp. unfold kept_upto, TMP_BLOCK_SIZE. Z.div_mod_to_equations. lia. Qed.

Lemma lookup_padded (l : list Z) n k x : (n <= length l + k)%nat ->
  (take n (l ++ replicate k 0)) !! x = if decide (x < n)%nat then if decide (x < length l)%nat then l !! x else Some 0 else None.
Proof.
  intros Hn. case_decide as Hx; [|by apply lookup_take_ge; lia]. rewrite lookup_take_lt by done. case_decide.
  - by rewrite lookup_app_l.
  - rewrite lookup_app_r by lia. apply lookup_replicate_2. lia.
Qed.

Lemma lookup_rewritten old pos buf x :
  0 <= pos ->
  (rewritten old pos buf : list Z) !! x =
    if decide (x < Nat.max (Z.to_nat pos + length buf) (length old))%nat then
      if decide (Z.to_nat pos <= x < Z.to_nat pos + length buf)%nat then buf !! (x - Z.to_nat pos)%nat
      else if decide (x < length old)%nat then if decide (Z.of_nat x < kept_upto pos) then old !! x else Some 0 else Some 0
    else None.
Proof.
  intros Hp. pose proof (kept_upto_bounds pos Hp). unfold rewritten. set (n := Nat.max _ _).
  rewrite lookup_splice by (rewrite length_take, length_app, length_replicate; lia).
  rewrite (lookup_padded _ n n) by lia. rewrite length_take. destruct (decide (x < n)%nat) as [Hx|Hx].
  - destruct (decide (Z.to_nat pos <= x < _)%nat); [done|].
    destruct (decide (x < length old)%nat); [|by rewrite decide_False by lia].
    destruct (decide (Z.of_nat x < kept_upto pos)); [rewrite decide_True by lia; apply lookup_take_lt; lia|by rewrite decide_False by lia].
  - rewrite decide_False by lia. done.
Qed.

Lemma rewritten_length old pos buf : 0 <= pos -> length (rewritten old pos buf) = Nat.max (Z.to_nat pos + length buf) (length old).
Proof.
  intros Hp. unfold rewritten. rewrite splice_length; rewrite ?length_take, ?length_app, ?length_replicate; lia.
Qed.

Lemma rewritten_bytes old pos buf : Forall is_byte old -> Forall is_byte buf -> Forall is_byte (rewritten old pos buf).
Proof.
  intros Ho Hb. unfold rewritten. apply splice_bytes; [done|]. apply bytes_take, Forall_app. split; [by apply bytes_take|apply zeros_bytes].
Qed.

(** They are the same when no old byte follows the new ones, except in the last piece before them. *)
Lemma rewritten_posix old pos buf :
  0 <= pos -> Z.of_nat (length old) <= Z.max (pos + Z.of_nat (length buf)) (kept_upto pos) -> rewritten old pos buf = posix_write old pos buf.
Proof.
  intros Hp Hl. pose proof (kept_upto_bounds pos Hp). apply list_eq. intros x. rewrite lookup_rewritten by done. unfold posix_write.
  rewrite lookup_splice by (rewrite length_take, length_app, length_replicate; lia).
  rewrite lookup_padded by lia. destruct (decide (x < Nat.max (Z.to_nat pos + length buf) (length old))%nat) as [Hx|Hx].
  - case_decide; [done|]. destruct (decide (x < length old)%nat); [|done]. rewrite decide_True by lia. done.
  - by rewrite decide_False by lia.
Qed.

(** One piece of the copy. *)
Lemma piece_of_rewritten old pos buf off n rd :
  0 <= pos -> 0 <= off -> (TMP_BLOCK_SIZE | off) -> off < n -> n = Z.max (pos + Z.of_nat (length buf)) (Z.of_nat (length old)) ->
  let bs := Z.min TMP_BLOCK_SIZE (n - off) in
  let rem := drop (Z.to_nat (off - pos)) buf in
  rd = (if (off <? pos) && (off <? Z.of_nat (length old)) then slice (Z.to_nat off) (Z.to_nat (Z.min bs (Z.of_nat (length old) - off))) old else []) ->
  let blk := splice 0 rd (replicate (Z.to_nat TMP_BLOCK_SIZE) 0) in
  let copy := (pos <? off + TMP_BLOCK_SIZE) && (off <? pos + Z.of_nat (length buf)) in
  let offset := if off <? pos then pos - off else 0 in
  let cs := Z.min (TMP_BLOCK_SIZE - offset) (Z.of_nat (length rem)) in
  let blk' := if copy then splice (Z.to_nat offset) (take (Z.to_nat cs) rem) blk else blk in
  let rem' := if copy then drop (Z.to_nat cs) rem else rem in
  take (Z.to_nat bs) blk' = slice (Z.to_nat off) (Z.to_nat bs) (rewritten old pos buf) /\ rem' = drop (Z.to_nat (off + bs - pos)) buf.
Proof.
  intros Hp Ho [q Hq] Hn En bs rem Erd blk copy offset cs blk' rem'. unfold TMP_BLOCK_SIZE in *. split.
  - assert (Hrd : (length rd <= Z.to_nat bs)%nat).
    { subst rd. destruct (_ && _); [|cbn; lia]. unfold slice. rewrite length_take. lia. }
    assert (Hblk : forall x, (x < Z.to_nat bs)%nat -> (blk : list Z) !! x = if decide (x < length rd)%nat then rd !! x else Some 0).
    { intros x Hx. unfold blk. rewrite lookup_splice by lia. rewrite Nat.sub_0_r. case_decide as Hc; case_decide; try lia; [done|].
      apply lookup_replicate_2. lia. }
    assert (Hl : length blk = 4096%nat) by (unfold blk; rewrite splice_length; rewrite ?length_replicate; lia).
    assert (Hcs : (length (take (Z.to_nat cs) rem) = Z.to_nat cs)%nat) by (rewrite length_take; lia).
    apply list_eq. intros x. rewrite lookup_slice. destruct (decide (x < Z.to_nat bs)%nat) as [Hx|Hx]; [|by apply lookup_take_ge; lia].
    rewrite lookup_take_lt by done. rewrite lookup_rewritten by done. rewrite decide_True by lia.
    assert (Hk : Z.of_nat (Z.to_nat off + x) < kept_upto pos <-> off < pos).
    { unfold kept_upto, TMP_BLOCK_SIZE. subst off. split; intros; Z.div_mod_to_equations; lia. }
    assert (Hold : (blk : list Z) !! x = if decide (Z.to_nat off + x < length old)%nat then if decide (Z.of_nat (Z.to_nat off + x) < kept_upto pos) then old !! (Z.to_nat off + x)%nat else Some 0 else Some 0).
    { rewrite Hblk by done. subst rd. destruct ((off <? pos) && (off <? Z.of_nat (length old))) eqn:Ec.
      - apply andb_true_iff in Ec as [?%Z.ltb_lt ?%Z.ltb_lt]. rewrite slice_length by lia. rewrite (decide_True (P := Z.of_nat _ < _)) by tauto.
        case_decide as H1; case_decide as H2; try lia; [|done]. rewrite lookup_slice. by rewrite decide_True by lia.
      - rewrite decide_False by (cbn; lia). case_decide; [|done]. rewrite decide_False; [done|]. rewrite Hk. intros ?.
        rewrite (proj2 (Z.ltb_lt off pos)), (proj2 (Z.ltb_lt off _)) in Ec by lia. done. }
    subst blk'. unfold copy. destruct ((pos <? off + 4096) && (off <? pos + Z.of_nat (length buf))) eqn:Ec.
    + apply andb_true_iff in Ec as [?%Z.ltb_lt ?%Z.ltb_lt]. unfold offset, cs, offset in *.
      rewrite lookup_splice by (destruct (off <? pos); lia). rewrite Hcs, Hold.
      assert (Hrl : length rem = (length buf - Z.to_nat (off - pos))%nat) by (unfold rem; apply length_drop).
      destruct (Z.ltb_spec off pos).
      * destruct (decide (_ <= Z.to_nat off + x < _)%nat) as [Hin|Hin]; [|by rewrite decide_False by lia].
        rewrite decide_True by lia. rewrite lookup_take_lt by lia. unfold rem. rewrite lookup_drop. f_equal. lia.
      * destruct (decide (_ <= Z.to_nat off + x < _)%nat) as [Hin|Hin]; [|by rewrite decide_False by lia].
        rewrite decide_True by lia. rewrite lookup_take_lt by lia. unfold rem. rewrite lookup_drop. f_equal. lia.
    + rewrite Hold. destruct (decide (_ <= Z.to_nat off + x < _)%nat) as [Hin|Hin]; [exfalso|done].
      rewrite (proj2 (Z.ltb_lt pos _)), (proj2 (Z.ltb_lt off _)) in Ec by lia. done.
  - assert (Hrl : length rem = (length buf - Z.to_nat (off - pos))%nat) by (unfold rem; apply length_drop).
    subst rem'. unfold copy. destruct ((pos <? off + 4096) && (off <? pos + Z.of_nat (length buf))) eqn:Ec.
    + apply andb_true_iff in Ec as [?%Z.ltb_lt ?%Z.ltb_lt]. unfold cs, offset, rem. rewrite drop_drop.
      destruct (decide (Z.to_nat (off + bs - pos) < length buf)%nat) as [Hin|Hin].
      * f_equal. unfold rem in Hrl. destruct (Z.ltb_spec off pos); lia.
      * rewrite !drop_ge; [done|lia|]. unfold rem in Hrl. destruct (Z.ltb_spec off pos); lia.
    + unfold rem. destruct (decide (off < pos)).
      * apply andb_false_iff in Ec as [?%Z.ltb_ge|?%Z.ltb_ge]; [|lia]. f_equal. lia.
      * apply andb_false_iff in Ec as [?%Z.ltb_ge|?%Z.ltb_ge]; [lia|]. rewrite !drop_ge by lia. done.
Qed.

(** ** Images that agree *)

(** [m'] differs from [m] in the blocks of the range at most. *)
Record only_in (a l : Z) (m m' : image) : Prop := {
  oi_wf : blocks_wf m';
  oi_len : length m' = length m;
  oi_out : forall x, ~ in_blocks a l x -> m' !! x = m !! x;
}.

Lemma only_in_refl a l m : blocks_wf m -> only_in a l m m.
Proof. by split. Qed.
Lemma only_in_trans a l m m1 m2 : only_in a l m m1 -> only_in a l m1 m2 -> only_in a l m m2.
Proof. intros [_ L1 O1] [W2 L2 O2]. split; [done|congruence|]. intros x Hx. by rewrite O2, O1. Qed.
Lemma in_blocks_sub a l a' l' x : a <= a' -> a' + l' <= a + l -> in_blocks a' l' x -> in_blocks a l x.
Proof.
  intros H1 H2 [H3 H4]. split; [etransitivity; [|exact H3]; apply Z.div_le_mono; lia|etransitivity; [exact H4|]; apply Z.div_le_mono; lia].
Qed.
Lemma only_in_mono a l a' l' m m' : a <= a' -> a' + l' <= a + l -> only_in a' l' m m' -> only_in a l m m'.
Proof. intros H1 H2 [W L O]. split; [done|done|]. intros x Hx. apply O. intros Hx'. apply Hx. by eapply in_blocks_sub. Qed.
Lemma apart_sub a l b n b' n' : b <= b' -> b' + n' <= b + n -> apart a l b n -> apart a l b' n'.
Proof. intros H1 H2 H x [Hx Hx']. apply (H x). split; [done|]. by eapply in_blocks_sub. Qed.

Section data.
Context {S : Type} {DV : RpmbDev S} {DL : RpmbDevLaws S}.

Local Notation FS := (fs_state S).
Local Notation OP := (op_state S).

Lemma view_ext k a l a' l' m m' :
  blocks_wf m -> only_in a l m m' -> apart a l a' l' -> 0 <= a' ->
  slice (Z.to_nat a') (Z.to_nat l') (concat (dl_view k m')) = slice (Z.to_nat a') (Z.to_nat l') (concat (dl_view k m)).
Proof.
  intros Hm [W L O] Hap Ha. apply slice_ext; [by apply dl_view_wf|by apply dl_view_wf|done|]. intros x Hx. apply dl_view_block, O.
  intros Hx'. by apply (Hap x).
Qed.

Definition fdata (u : bytes) (m : image) (e : rpmb_fat_entry) : bytes :=
  slice (Z.to_nat (fe_start_address e)) (Z.to_nat (fe_data_size e)) (concat (dl_view (Some (fe_fek e, u)) m)).

Lemma fdata_empty u m e : fe_data_size e = 0 -> fdata u m e = [].
Proof. unfold fdata. by intros ->. Qed.

(** The file is on the device. *)
Definition on_device (m : image) (e : rpmb_fat_entry) : Prop := fe_start_address e + fe_data_size e <= 256 * Z.of_nat (length m).

Lemma fdata_length u m e : blocks_wf m -> fe_wf e -> (0 < fe_data_size e -> on_device m e) -> Z.of_nat (length (fdata u m e)) = fe_data_size e.
Proof.
  intros Hm [[Hs _] [Hz _] _ _ _ _] Hd. destruct (decide (0 < fe_data_size e)) as [Hp|Hp]; [|rewrite fdata_empty by lia; cbn; lia].
  specialize (Hd Hp). unfold fdata, on_device in *. rewrite slice_length; [lia|].
  rewrite blocks_concat_length by (by apply dl_view_wf). rewrite dl_view_length. unfold RPMB_DATA_SIZE. lia.
Qed.
Lemma fdata_bytes u m e : blocks_wf m -> Forall is_byte (fdata u m e).
Proof. intros Hm. by apply slice_bytes, blocks_concat_bytes, dl_view_wf. Qed.

Lemma fdata_ext u a l m m' e :
  blocks_wf m -> only_in a l m m' -> 0 <= fe_start_address e ->
  (0 < fe_data_size e -> apart a l (fe_start_address e) (fe_data_size e)) -> fdata u m' e = fdata u m e.
Proof.
  intros Hm Ho Hs Hap. destruct (decide (0 < fe_data_size e)) as [Hp|Hp].
  - unfold fdata. eapply view_ext; eauto.
  - unfold fdata. by replace (Z.to_nat (fe_data_size e)) with 0%nat by lia.
Qed.

(** ** One write *)

(** A write in the range, as the file system sees it. *)
Lemma data_write a l addr d k (s : FS) :
  dl_inv (fs_dev s) -> 0 <= a -> a <= addr -> addr + Z.of_nat (length d) <= a + l -> a + l <= 65535 * 256 -> d <> [] -> Forall is_byte d ->
  wp (on_dev (dev_write addr d k)) (fun r s' => calm r /\ dl_inv (fs_dev s') /\ (dl_ready (fs_dev s) -> dl_ready (fs_dev s')) /\
    fs_par s' = fs_par s /\ fs_dir s' = fs_dir s /\
    exists ms, dl_hist (fs_dev s') = dl_hist (fs_dev s) ++ ms /\ (forall m', m' ∈ ms -> only_in a l (img s) m') /\
      only_in a l (img s) (img s') /\
      (addr mod 256 + Z.of_nat (length d) <= 256 -> forall m', m' ∈ ms -> concat (dl_view k m') = splice (Z.to_nat addr) d (concat (dl_view k (img s)))) /\
      (r = ROk tt -> dl_dead (fs_dev s') = false /\ addr + Z.of_nat (length d) <= 256 * Z.of_nat (length (img s)) /\
         concat (dl_view k (img s')) = splice (Z.to_nat addr) d (concat (dl_view k (img s)))) /\
      (forall e, r = RErr e -> addr mod 256 + Z.of_nat (length d) <= 256 -> dl_dead (fs_dev s') = true \/ ms = [])) s.
Proof.
  intros Hi Ha H1 H2 H3 Hd Hb. apply wp_zoom. eapply wp_mono; [apply (dl_write addr d k); [done|lia|done|done|lia]|].
  intros r s' (Hi' & Hrd & Hc & _ & ms & Hh & [W1 W2 W3 W4] & Hok & Her). cbn [fs_dev fs_par fs_dir]. fold (img s) in *.
  split_and!; try done. exists ms. assert (Hms : forall m', m' ∈ ms -> only_in a l (img s) m').
  { intros m' Hm'. split; [by apply W3|by apply W2|]. intros x Hx. apply W1; [done|]. intros Hx'. apply Hx. by eapply in_blocks_sub. }
  split_and!; try done.
  - unfold img at 2. cbn [fs_dev]. rewrite Hh. destruct ms as [|x ms _] using rev_ind; [rewrite app_nil_r; by apply only_in_refl, dl_wf|].
    rewrite app_assoc, latest_app. apply Hms. set_solver.
  - intros Hone m' Hm'. by apply W4.
  - intros Hr. destruct (Hok Hr) as (_ & ? & ? & ?). split_and!; [done|lia|done].
Qed.

(** ** The copy *)

(** Nothing but the device and its range has changed. *)
Record in_range (a l : Z) (m0 : image) (o : OP) {A} (r : rres A) (o' : OP) : Prop := {
  ir_calm : calm r;
  ir_inv : dl_inv (fs_dev (op_fs o'));
  ir_ready : dl_ready (fs_dev (op_fs o)) -> dl_ready (fs_dev (op_fs o'));
  ir_par : fs_par (op_fs o') = fs_par (op_fs o);
  ir_dir : fs_dir (op_fs o') = fs_dir (op_fs o);
  ir_fh : op_fh o' = op_fh o;
  ir_pool : op_pool o' = op_pool o;
  ir_img : only_in a l m0 (img (op_fs o'));
  ir_hist : exists ms, dl_hist (fs_dev (op_fs o')) = dl_hist (fs_dev (op_fs o)) ++ ms /\ forall m', m' ∈ ms -> only_in a l m0 m';
}.

Lemma in_range_trans a l m0 o {A B} (r : rres A) o1 (r' : rres B) o' :
  in_range a l m0 o r o1 -> in_range a l m0 o1 r' o' -> in_range a l m0 o r' o'.
Proof.
  intros [A1 A2 A3 A4 A5 A6 A7 A8 (ms1 & H1 & O1)] [B1 B2 B3 B4 B5 B6 B7 B8 (ms2 & H2 & O2)]. split; try done; try congruence; auto.
  exists (ms1 ++ ms2). split; [by rewrite H2, H1, app_assoc|]. intros m' [?|?]%elem_of_app; auto.
Qed.

Lemma in_range_same a l m0 o {A} (r : rres A) f :
  fs_same (op_fs o) f -> fs_dir f = fs_dir (op_fs o) -> calm r -> only_in a l m0 (img (op_fs o)) -> in_range a l m0 o r (mk_op f (op_fh o) (op_pool o)).
Proof.
  intros Hs Hd Hc Ho. pose proof (fs_same_img _ _ Hs) as Him. destruct Hs as [[D1 D2 D3 D4] D5]. split; cbn [op_fs op_fh op_pool]; try done; [by rewrite Him|].
  exists []. rewrite app_nil_r. split; [done|]. by intros m' ?%elem_of_nil.
Qed.

Lemma in_range_ret a l m0 o {A} (r : rres A) : dl_inv (fs_dev (op_fs o)) -> calm r -> only_in a l m0 (img (op_fs o)) -> in_range a l m0 o r o.
Proof. intros Hi Hc Ho. destruct o as [f fh p]. apply (in_range_same a l m0 (mk_op f fh p) r f); [by apply fs_same_refl|done|done|done]. Qed.

Lemma slice_of_splice off n a (d l : bytes) :
  (a + off + length d <= length l)%nat -> length d = n ->
  slice a (off + n) (splice (a + off) d l) = slice a off l ++ d.
Proof.
  intros Hl Hd. apply list_eq. intros x. rewrite lookup_slice. destruct (decide (x < off + n)%nat) as [Hx|Hx].
  - rewrite lookup_splice by lia. destruct (decide (x < off)%nat).
    + rewrite decide_False by lia. rewrite lookup_app_l by (rewrite slice_length; lia). rewrite lookup_slice. by rewrite decide_True.
    + rewrite decide_True by lia. rewrite lookup_app_r by (rewrite slice_length; lia). rewrite slice_length by lia. f_equal. lia.
  - symmetry. apply lookup_ge_None. rewrite length_app, slice_length by lia. lia.
Qed.

Lemma take_slice (l : bytes) off n : take off l ++ slice off n l = take (off + n) l.
Proof. unfold slice. apply take_take_drop. Qed.

Section copy.
Context (m0 : image) (fh : rpmb_file_handle) (pos : Z) (buf : bytes) (new_fat new_size : Z).
Let e := fh_fat_entry fh.
Let k : dkey := Some (fe_fek e, fh_uuid fh).
Let old := fdata (fh_uuid fh) m0 e.
Let new := rewritten old pos buf.

Hypothesis m0_wf : blocks_wf m0.
Hypothesis e_wf : fe_wf e.
Hypothesis pos_nonneg : 0 <= pos.
Hypothesis buf_bytes : Forall is_byte buf.
Hypothesis e_dev : 0 < fe_data_size e -> on_device m0 e.
Hypothesis size_new : new_size = Z.max (pos + Z.of_nat (length buf)) (fe_data_size e).
Hypothesis size_pos : 0 < new_size.
Hypothesis range : 0 <= new_fat /\ new_fat + new_size <= 65535 * 256.
Hypothesis dev_size : 256 * Z.of_nat (length m0) <= 65535 * 256.
Hypothesis fresh : 0 < fe_data_size e -> apart new_fat new_size (fe_start_address e) (fe_data_size e).

(** The first [off] bytes have been copied. *)
Definition copied (off : Z) (m : image) : Prop :=
  off = 0 \/ new_fat + off <= 256 * Z.of_nat (length m) /\
  slice (Z.to_nat new_fat) (Z.to_nat off) (concat (dl_view k m)) = take (Z.to_nat off) new.

Lemma old_length : Z.of_nat (length old) = fe_data_size e.
Proof. by apply fdata_length. Qed.
Lemma new_length : Z.of_nat (length new) = new_size.
Proof. unfold new. rewrite rewritten_length by done. pose proof old_length. lia. Qed.

(** The old bytes are still there. *)
Lemma read_old off n (o : OP) :
  dl_inv (fs_dev (op_fs o)) -> only_in new_fat new_size m0 (img (op_fs o)) -> 0 <= off -> 0 < n -> off + n <= fe_data_size e ->
  wp (on_fs (on_dev (dev_read (u32 (fe_start_address e + off)) (u32 n) k)))
    (fun r o' => in_range new_fat new_size m0 o r o' /\ (r <> RPanic) /\ dl_hist (fs_dev (op_fs o')) = dl_hist (fs_dev (op_fs o)) /\
       dl_dead (fs_dev (op_fs o')) = dl_dead (fs_dev (op_fs o)) /\
       forall d, r = ROk d -> d = slice (Z.to_nat off) (Z.to_nat n) old) o.
Proof.
  intros Hi Ho Hoff Hn Hle. destruct e_wf as [[Hs1 Hs2] [Hz1 Hz2] _ _ _ _]. assert (Hd := e_dev ltac:(lia)). unfold on_device in Hd.
  rewrite !u32_small by (unfold is_u32; lia). apply wp_on_fs.
  eapply wp_mono; [apply on_dev_same, (dl_read (fe_start_address e + off) n k); [done|lia|lia|lia]|].
  intros r f (Hs & Ed & Hc & Hr). pose proof Hs as Hs'. destruct Hs' as [[D1 D2 D3 D4] D5]. split_and!; [by apply in_range_same|by destruct r|done|done|].
  intros d ->. destruct (Hr d eq_refl) as (_ & _ & _ & ->). fold (img (op_fs o)).
  rewrite (view_ext k new_fat new_size (fe_start_address e + off) n m0 (img (op_fs o))) by
    first [done|lia|eapply apart_sub; [| |apply fresh; lia]; lia].
  unfold old, fdata. fold k. unfold slice at 3. rewrite slice_slice by lia. f_equal. lia.
Qed.

Lemma update_write_loop_spec fuel off rem (o : OP) :
  dl_inv (fs_dev (op_fs o)) -> dl_dead (fs_dev (op_fs o)) = false -> only_in new_fat new_size m0 (img (op_fs o)) ->
  0 <= off <= new_size -> (off < new_size -> (TMP_BLOCK_SIZE | off)) -> rem = drop (Z.to_nat (off - pos)) buf -> copied off (img (op_fs o)) ->
  new_size - off <= TMP_BLOCK_SIZE * (Z.of_nat fuel - 1) ->
  wp (update_write_loop fuel fh pos (Z.of_nat (length buf)) new_fat new_size off rem)
    (fun r o' => in_range new_fat new_size m0 o r o' /\
       (r = ROk tt -> dl_dead (fs_dev (op_fs o')) = false /\ copied new_size (img (op_fs o')))) o.
Proof.
  revert off rem o. induction fuel as [|fuel IH]; intros off rem o Hi Hal Ho Hoff Hdiv Hrem Hcp Hfu; [unfold TMP_BLOCK_SIZE in *; lia|].
  cbn [update_write_loop]. destruct (Z.ltb_spec off new_size) as [Hlt|Hge]; cbn [negb].
  2: { assert (off = new_size) as -> by lia. apply wp_ret. split; [by apply in_range_ret|]. intros _. split; [done|exact Hcp]. }
  fold e k. set (bs := Z.min TMP_BLOCK_SIZE (new_size - off)). assert (Hbs : 0 < bs <= TMP_BLOCK_SIZE /\ off + bs <= new_size) by (subst bs; unfold TMP_BLOCK_SIZE; lia).
  pose proof old_length as Hol. pose proof new_length as Hnl.
  assert (Hrd : exists rd, rd = (if (off <? pos) && (off <? Z.of_nat (length old)) then slice (Z.to_nat off) (Z.to_nat (Z.min bs (Z.of_nat (length old) - off))) old else []))
    by eauto. destruct Hrd as [rd Erd].
  eapply (wp_seq _ _ (fun r o1 => in_range new_fat new_size m0 o r o1 /\ dl_hist (fs_dev (op_fs o1)) = dl_hist (fs_dev (op_fs o)) /\
     dl_dead (fs_dev (op_fs o1)) = false /\ forall b, r = ROk b -> b = splice 0 rd (replicate (Z.to_nat TMP_BLOCK_SIZE) 0))).
  { rewrite Hol in Erd. subst rd. destruct ((off <? pos) && (off <? fe_data_size e)) eqn:Ec.
    - apply andb_true_iff in Ec as [?%Z.ltb_lt ?%Z.ltb_lt]. eapply wp_seq; [apply (read_old off (Z.min bs (fe_data_size e - off))); [done|done|lia|lia|lia]|].
      intros r o1 (H1 & H2 & H3 & H4 & H5). destruct r as [d|er|]; cbn [cont]; [|by split_and!; [..|congruence|]|done].
      apply wp_ret. split_and!; [by destruct H1|done|congruence|]. intros b [= <-]. by rewrite (H5 d eq_refl).
    - apply wp_ret. split_and!; [by apply in_range_ret|done|done|]. intros b [= <-]. unfold splice. cbn [length app take]. by rewrite drop_0. }
  intros r o1 (Hr1 & Hh1 & Hal1 & Hb1). destruct r as [blk|er|]; cbn [cont]; [|split; [destruct Hr1; by split|done]|by destruct Hr1]. specialize (Hb1 blk eq_refl). subst blk. cbv zeta.
  destruct (piece_of_rewritten old pos buf off new_size rd) as [Hpiece Hrem']; [done|lia|by apply Hdiv|done|lia|done|].
  cbv zeta in Hpiece, Hrem'. fold bs new in Hpiece, Hrem'. rewrite <- Hrem in Hpiece, Hrem'.
  set (copy := (pos <? off + TMP_BLOCK_SIZE) && (off <? pos + Z.of_nat (length buf))) in *.
  set (offset := if off <? pos then pos - off else 0) in *.
  set (cs := Z.min (TMP_BLOCK_SIZE - offset) (Z.of_nat (length rem))) in *.
  set (blk := if copy then _ else _) in Hpiece. set (rem' := if copy then _ else _) in Hrem'.
  match goal with |- wp (let '(_, _) := ?X in _) _ _ => replace X with (blk, rem') by (subst blk rem'; by destruct copy) end.
  rewrite Hpiece. clearbody blk rem' cs offset copy. clear Hpiece Hrem Erd.
  assert (Hd : Z.of_nat (length (slice (Z.to_nat off) (Z.to_nat bs) new)) = bs) by (rewrite slice_length; lia).
  assert (Hnf : u32 (new_fat + off) = new_fat + off) by (rewrite u32_small by (unfold is_u32; lia); done). rewrite Hnf.
  assert (Him1 : img (op_fs o1) = img (op_fs o)) by (unfold img; by rewrite Hh1). assert (Hinv1 := ir_inv _ _ _ _ _ _ Hr1).
  apply wp_bind, wp_on_fs. eapply wp_mono; [apply (data_write new_fat new_size (new_fat + off) (slice (Z.to_nat off) (Z.to_nat bs) new) k);
    [done|lia|lia|lia|lia|intros E; rewrite E in Hd; cbn in Hd; lia|]|].
  { apply slice_bytes, rewritten_bytes; [by apply fdata_bytes|done]. }
  intros r f (W1 & W2 & W3 & W4 & W5 & ms & W6 & W7 & W8 & _ & W9 & _). rewrite Him1 in W7, W8, W9.
  assert (Hir : forall A (r : rres A), calm r -> in_range new_fat new_size m0 o r (mk_op f (op_fh o1) (op_pool o1))).
  { intros A r' Hc'. eapply in_range_trans; [exact Hr1|]. split; cbn [op_fs op_fh op_pool]; try done; [by eapply only_in_trans|].
    exists ms. split; [done|]. intros m' Hm'. eapply only_in_trans; [exact Ho|by apply W7]. }
  destruct r as [[]|er|]; cbn [cont]; [|by split; [apply Hir|]|done]. destruct (W9 eq_refl) as (Hal2 & Hle2 & Hv2). clear W9.
  rewrite Hd in Hle2. set (o2 := mk_op f (op_fh o1) (op_pool o1)) in *.
  assert (Hlen : length (img f) = length (img (op_fs o))) by apply W8.
  eapply wp_mono; [apply (IH (off + bs) rem' o2); [done|done|by apply (ir_img _ _ _ _ _ _ (Hir unit (ROk tt) I))|lia| |done| |]|].
  - intros Hlt'. assert (bs = TMP_BLOCK_SIZE) as -> by (subst bs; lia). apply Z.divide_add_r; [by apply Hdiv|apply Z.divide_refl].
  - right. cbn [op_fs o2]. split; [lia|]. rewrite Hv2.
    replace (Z.to_nat (new_fat + off)) with (Z.to_nat new_fat + Z.to_nat off)%nat by lia.
    replace (Z.to_nat (off + bs)) with (Z.to_nat off + Z.to_nat bs)%nat by lia. rewrite slice_of_splice.
    + rewrite <- take_slice. f_equal. destruct Hcp as [->|[_ Hcp]]; [done|exact Hcp].
    + rewrite blocks_concat_length by (apply dl_view_wf, Ho). rewrite dl_view_length. unfold RPMB_DATA_SIZE. lia.
    + lia.
  - subst bs. unfold TMP_BLOCK_SIZE in *. lia.
  - intros r o' [H1 H2]. split; [|done]. eapply in_range_trans; [|exact H1]. by apply (Hir unit (ROk tt)).
Qed.
End copy.
End data.
