(* ===== verification/RpmbFsWrite.v ===== *)
(** * Writing to a file of the RPMB file system

    The layout of an image (no two files and no file and the table share a block), and
    [rpmb_fs_write_primitive]: in every image that the device goes through the written file has its old or
    its new contents, all other files have theirs, and the layout holds. *)

From S2P Require Import Prelude TeeMm Pobj ErrM Cipher CipherModes FsKey Rpmb RpmbSpec RpmbDev RpmbBlocks RpmbFat RpmbFs RpmbFatSpec RpmbFatFind RpmbFsData.
From stdpp Require Import base list sets.
From Stdlib Require Import ZArith Lia.

Local Open Scope Z_scope.

(** ** The layout of an image *)

Record layout (m : image) (n : nat) : Prop := {
  ly_apart : forall i j, (i < n)%nat -> (j < n)%nat -> i <> j -> used (entry m i) = true -> used (entry m j) = true ->
    apart (fstart m i) (fsize m i) (fstart m j) (fsize m j);
  ly_fat : forall i, (i < n)%nat -> used (entry m i) = true -> apart (fstart m i) (fsize m i) 0 (fat_end n false);
  ly_dev : forall i, (i < n)%nat -> used (entry m i) = true -> on_device m (entry m i);
}.

Lemma in_fat n j : (j < n)%nat -> in_blocks 0 (fat_end n false) (2 + j).
Proof. intros Hj. unfold in_blocks, fat_end. split; [change (0 / 256) with 0; lia|]. apply Z.div_le_lower_bound; lia. Qed.

Lemma entries_kept a l m m' n : only_in a l m m' -> apart a l 0 (fat_end n false) -> forall j, (j < n)%nat -> entry m' j = entry m j.
Proof. intros Ho Hap j Hj. apply entry_ext, (oi_out _ _ _ _ Ho). intros Hx. apply (Hap (2 + j)%nat). split; [done|]. by apply in_fat. Qed.

Lemma fat_ok_entries m m' n : length m' = length m -> (forall j, (j < n)%nat -> entry m' j = entry m j) -> fat_ok m n -> fat_ok m' n.
Proof.
  intros Hl He [[H1 H2 H3 H4] H5]. split; [split; [done|lia| |]|].
  - rewrite He by lia. done.
  - intros i Hi. rewrite He by lia. by apply H4.
  - rewrite He by lia. done.
Qed.

Lemma layout_entries m m' n : length m' = length m -> (forall j, (j < n)%nat -> entry m' j = entry m j) -> layout m n -> layout m' n.
Proof.
  intros Hl He [H1 H2 H3]. unfold fstart, fsize in *. split; unfold fstart, fsize.
  - intros i j Hi Hj Hne. rewrite !He by done. by apply H1.
  - intros i Hi. rewrite !He by done. by apply H2.
  - intros i Hi. rewrite !He by done. unfold on_device. rewrite Hl. by apply H3.
Qed.

Lemma inner_not_last m n i : fat_ok m n -> (i < n - 1)%nat -> is_last (entry m i) = false.
Proof. intros [[_ _ _ Hin] _] Hi. apply Hin. lia. Qed.

Lemma active_not_last m n i : fat_ok m n -> (i < n)%nat -> is_active (entry m i) = true -> (i < n - 1)%nat.
Proof. intros [[Hp _ _ _] Hid] Hi Ha. destruct (decide (i = n - 1)%nat) as [->|]; [congruence|lia]. Qed.

Lemma match_active name m n i : first_match name m n i -> is_active (entry m i) = true.
Proof. intros [_ Hh _]. unfold is_file in Hh. by apply andb_true_iff in Hh as [_ ?]. Qed.

(** An entry is replaced by one with the same marks. *)
Record new_entry_ok (m : image) (n i : nat) (e : rpmb_fat_entry) : Prop := {
  ne_wf : fe_wf e;
  ne_last : is_last e = false;
  ne_apart : used e = true -> forall j, (j < n)%nat -> j <> i -> used (entry m j) = true ->
    apart (fe_start_address e) (fe_data_size e) (fstart m j) (fsize m j);
  ne_fat : used e = true -> apart (fe_start_address e) (fe_data_size e) 0 (fat_end n false);
  ne_dev : used e = true -> on_device m e;
}.

Lemma new_entry_ok_counter m n i e c : new_entry_ok m n i e -> new_entry_ok m n i (set_fe_write_counter (u32 c) e).
Proof. intros [[] N2 N3 N4 N5]. split; try done. split; try done. apply u32_range. Qed.

Lemma set_extent_ok m n i e a l :
  fe_wf e -> is_last e = false -> is_u32 a -> is_u32 l ->
  (0 < l -> (forall j, (j < n)%nat -> j <> i -> used (entry m j) = true -> apart a l (fstart m j) (fsize m j)) /\
            apart a l 0 (fat_end n false) /\ a + l <= 256 * Z.of_nat (length m)) ->
  new_entry_ok m n i (set_extent a l e).
Proof.
  intros [W1 W2 W3 W4 W5 W6] Hl Ha Hz H. assert (Hu : used (set_extent a l e) = true -> 0 < l) by (by intros [? _]%used_size).
  split; [by split|done| | |]; intros Hx%Hu; by apply H.
Qed.

Definition put_entry (m : image) (i : nat) (e : rpmb_fat_entry) : image := <[(2 + i)%nat := fe_bytes e]> m.

Lemma put_entry_only m i e n : blocks_wf m -> fe_wf e -> (i < n)%nat -> only_in 0 (fat_end n false) m (put_entry m i e).
Proof.
  intros Hm He Hi. split; [apply blocks_wf_insert; [done|by apply fe_bytes_length|by apply fe_bytes_bytes]|apply length_insert|].
  intros x Hx. apply list_lookup_insert_ne. intros <-. apply Hx. by apply in_fat.
Qed.

Lemma fat_put_ok m n i e :
  fat_ok m n -> layout m n -> (i < n - 1)%nat -> new_entry_ok m n i e ->
  fat_ok (put_entry m i e) n /\ layout (put_entry m i e) n.
Proof.
  intros Hf [L1 L2 L3] Hi [N1 N2 N3 N4 N5]. assert (Hdev := fl_dev _ _ (fo_len _ _ Hf)).
  assert (He : forall j, entry (put_entry m i e) j = if decide (i = j) then e else entry m j) by (intros j; by apply entry_insert; [|lia]).
  assert (Hl : length (put_entry m i e) = length m) by apply length_insert. split.
  - destruct Hf as [[H1 H2 H3 H4] H5]. split; [split; [done|lia| |]|].
    + rewrite He, decide_False by lia. done.
    + intros j Hj. rewrite He. case_decide; [done|]. by apply H4.
    + rewrite He, decide_False by lia. done.
  - unfold fstart, fsize in *. split; unfold fstart, fsize.
    + intros j j' Hj Hj' Hne. rewrite !He. repeat case_decide; subst; try done; intros Hu Hu'; [by apply N3|by apply apart_sym, N3|by apply L1].
    + intros j Hj. rewrite He. case_decide; subst; intros Hu; [by apply N4|by apply L2].
    + intros j Hj. rewrite He. unfold on_device. rewrite Hl. case_decide; subst; intros Hu; [by apply N5|by apply L3].
Qed.

Lemma used_of e : is_active e = true -> 0 < fe_data_size e -> used e = true.
Proof. intros Ha Hs. unfold used. rewrite Ha. by apply Z.ltb_lt. Qed.

(** ** The pool of an operation *)

Lemma init_pool_value mx a :
  0 < mx < 65536 ->
  exists p, tee_mm_init (Some empty_pool) 0 (mx * 256) 8 TEE_MM_POOL_HI_ALLOC (Some a) = Return (Some p, true) /\ pool_ok mx p /\ pool_cells p = [].
Proof.
  intros Hmx. assert (Hd : ROUNDDOWN (mx * 256) (2 ^ 8) = mx * 256).
  { rewrite (ROUNDDOWN_spec (mx * 256) 8) by (unfold is_u64; lia). change (2 ^ 8) with 256. rewrite Z.mod_mul by done. lia. }
  assert (Hu : ROUNDUP 0 (2 ^ 8) = 0) by done.
  destruct (tee_mm_init (Some empty_pool) 0 (mx * 256) 8 TEE_MM_POOL_HI_ALLOC (Some a)) as [[[p|] ok]|] eqn:E; unfold tee_mm_init in E.
  - destruct ok; [|by destruct (_ <? _)]. exists p. split; [done|].
    destruct (tee_mm_init_wf empty_pool 0 (mx * 256) 8 TEE_MM_POOL_HI_ALLOC a p) as [Hw Hc]; [lia|lia|lia|lia|change (2 ^ 8) with 256 in *; rewrite Hd, Hu; lia|exact E|].
    split; [|done]. change (Z.shiftl 1 8) with (2 ^ 8) in E. rewrite Hd, Hu in E. destruct (_ <? _); [|done]. injection E as <-. by split.
  - by destruct (_ <? _).
  - change (Z.shiftl 1 8) with (2 ^ 8) in E. rewrite Hd, Hu in E. rewrite u64_small in E by (unfold is_u64; lia).
    rewrite Z.sub_0_r, Z.shiftr_div_pow2, Z.div_mul in E by done. unfold UINT32_MAX in E.
    rewrite (proj2 (Z.ltb_lt mx 4294967295)) in E by lia. done.
Qed.

Lemma tee_mm_final_total p : exists q, tee_mm_final (Some p) = Return (Some q).
Proof.
  destruct (p_entry p) as [[s cells]|] eqn:E; [by eexists; eapply tee_mm_final_spec|]. exists p. unfold tee_mm_final. by rewrite E.
Qed.

Section write.
Context {S : Type} {DV : RpmbDev S} {DL : RpmbDevLaws S}.
Context (CACHE RD : nat) (reset : bool).
Hypothesis RD_pos : (0 < RD)%nat.

Local Notation FS := (fs_state S).
Local Notation OP := (op_state S).
Local Notation fs_ok := (fs_ok CACHE RD).
Local Notation mounted := (mounted RD).

Lemma final_pool_ok (o : OP) : wp final_pool (fun r o' => r = ROk tt /\ op_fs o' = op_fs o /\ op_fh o' = op_fh o) o.
Proof.
  unfold final_pool. apply wp_bind, wp_gets. cbn [cont]. destruct (tee_mm_final_total (op_pool o)) as [q ->]. by apply wp_modify.
Qed.

Definition max_block (s : FS) (mx : Z) : Prop := 0 < mx < 65536 /\ fs_par s = Some (mk_par RPMB_FS_FAT_START_ADDRESS (mx * 256)).

Lemma init_pool_spec mx (o : OP) :
  dl_inv (fs_dev (op_fs o)) -> max_block (op_fs o) mx ->
  wp init_pool (fun r o' => fs_same (op_fs o) (op_fs o') /\ fs_dir (op_fs o') = fs_dir (op_fs o) /\ op_fh o' = op_fh o /\ calm r /\
    (r = ROk tt -> pool_ok mx (op_pool o'))) o.
Proof.
  intros Hi [Hmx Ep]. unfold init_pool. apply wp_bind, wp_gets. cbn [cont]. rewrite Ep. apply wp_bind, wp_try, wp_on_fs.
  eapply wp_mono; [by apply alloc_same|]. intros r f (Hs & Ed & Hc). destruct r as [[]|e|]; cbn [cont par_max_rpmb_address]; [| |done].
  - destruct (init_pool_value mx 0 Hmx) as (p & Ev & Hp & _). unfold RPMB_STORAGE_START_ADDRESS, RPMB_BLOCK_SIZE_SHIFT. rewrite Ev. by apply wp_modify.
  - unfold RPMB_STORAGE_START_ADDRESS, RPMB_BLOCK_SIZE_SHIFT. destruct (init_pool_value mx 0 Hmx) as (p & Ev & _). unfold tee_mm_init in *.
    destruct (_ <? _); [|done]. by apply wp_throw.
Qed.

(** Blocks for [size] bytes that belong to nothing else. *)
Lemma pool_alloc_spec mx size (o : OP) :
  dl_inv (fs_dev (op_fs o)) -> pool_ok mx (op_pool o) -> 0 < size < 2 ^ 64 ->
  wp (pool_alloc size) (fun r o' => fs_same (op_fs o) (op_fs o') /\ fs_dir (op_fs o') = fs_dir (op_fs o) /\ op_fh o' = op_fh o /\
    match r with
    | ROk (Some a) => 0 <= a /\ a + size <= mx * 256 /\ forall a' l', holds (op_pool o) a' l' -> 0 < l' -> apart a size a' l'
    | ROk None => True
    | _ => False
    end) o.
Proof.
  clear RD_pos. intros Hi Hp Hsz. unfold pool_alloc. eapply wp_seq; [by apply new_cell_spec|].
  intros r o1 (Hs & Ed & Eh & Ep & mem & ->). cbn [cont]. apply wp_bind, wp_gets. cbn [cont]. rewrite Ep.
  assert (Hg : geometry (op_pool o)) by apply Hp. destruct mem as [a|].
  2: { destruct Hp as [(_ & s & cells & He & _) _ _ _]. unfold tee_mm_alloc. rewrite He. by apply wp_ret. }
  destruct (tee_mm_alloc_spec (op_pool o) size a (po_wf _ _ Hp) ltac:(lia)) as (res & -> & Hres). destruct res as [[q|] [c|]]; [|by apply wp_ret|done|done].
  destruct Hres as (Hins & _ & Hcs). apply wp_bind, wp_modify. cbn [cont]. apply wp_ret. do 3 (split; [done|]).
  pose proof (inserted_ok _ _ _ _ Hins Hp) as Hq. assert (Hc : c ∈ pool_cells q).
  { destruct Hins as (_ & _ & pre & post & _ & ->). set_solver. }
  destruct (wf_cell q c (po_wf _ _ Hq) Hc) as (Hgq & C1 & C2 & C3). destruct (region_exact q c Hgq C1 C2 C3) as (-> & _ & C4).
  destruct (psize_spec (op_pool o) size Hg Hsz) as [_ Hps]. rewrite (po_lo _ _ Hq), (po_hi _ _ Hq), (po_shift _ _ Hq) in *. rewrite <- Hcs in Hps.
  rewrite (po_shift _ _ Hp) in Hps. change (2 ^ 8) with 256 in *. split_and!; [lia|lia|]. intros a' l' Hh Hl'.
  eapply new_region_apart; [exact Hp|exact Hins| |lia|exact Hh|done]. unfold covers. rewrite (po_lo _ _ Hp), (po_shift _ _ Hp). change (2 ^ 8) with 256. lia.
Qed.

Lemma dir_ok_entries m m' b od : (forall j, (j < b)%nat -> entry m' j = entry m j) -> dir_ok CACHE RD m b od -> dir_ok CACHE RD m' b od.
Proof.
  intros He Hd. destruct od as [d|]; [|done]. destruct Hd as ([C1 C2 C3 C4 C5] & H). split; [|done]. split; try done.
  intros i H1 H2 H3. rewrite He by done. by apply C5.
Qed.

(** ** Changes of one file *)

Definition same_meta (e e' : rpmb_fat_entry) : Prop := fe_flags e' = fe_flags e /\ fe_fek e' = fe_fek e /\ fe_filename e' = fe_filename e.

(** From [m] to [m'], the file of entry [i], which belongs to [u], has contents that satisfy [D]; all other
    files, and the layout, are as before. *)
Record file_changed (u : bytes) (i : nat) (D : bytes -> Prop) (n : nat) (m m' : image) : Prop := {
  fc_len : length m' = length m;
  fc_wf : blocks_wf m';
  fc_fat : fat_ok m' n;
  fc_layout : layout m' n;
  fc_meta : same_meta (entry m i) (entry m' i);
  fc_others : forall j, (j < n)%nat -> j <> i -> entry m' j = entry m j /\
    (is_active (entry m j) = true -> forall u', fdata u' m' (entry m j) = fdata u' m (entry m j));
  fc_data : D (fdata u m' (entry m' i));
}.

Lemma file_changed_mono u i D D' n m m' : file_changed u i D n m m' -> (forall d, D d -> D' d) -> file_changed u i D' n m m'.
Proof. intros [] H. split; auto. Qed.

(** A file that is active keeps its contents if its blocks do. *)
Lemma fdata_kept u a l m m' n j :
  blocks_wf m -> only_in a l m m' -> (j < n)%nat -> (2 + n <= length m)%nat -> is_active (entry m j) = true ->
  (used (entry m j) = true -> apart a l (fstart m j) (fsize m j)) -> fdata u m' (entry m j) = fdata u m (entry m j).
Proof.
  clear RD_pos. intros Hm Ho Hj Hl Ha Hap. eapply fdata_ext; [done|exact Ho| |].
  - apply (entry_wf m j); [done|lia].
  - intros Hp. apply Hap. by apply used_of.
Qed.

Lemma changed_region u i a l n m m' :
  blocks_wf m -> fat_ok m n -> layout m n -> (i < n)%nat -> is_active (entry m i) = true ->
  only_in a l m m' -> apart a l 0 (fat_end n false) -> (forall j, (j < n)%nat -> used (entry m j) = true -> apart a l (fstart m j) (fsize m j)) ->
  file_changed u i (eq (fdata u m (entry m i))) n m m'.
Proof.
  clear RD_pos. intros Hm Hf Hly Hi Hact Ho Hfat Hap. assert (Hl := fl_dev _ _ (fo_len _ _ Hf)). pose proof (entries_kept _ _ _ _ _ Ho Hfat) as He.
  split; [apply Ho|apply Ho|eapply fat_ok_entries; [apply Ho|done|done]|eapply layout_entries; [apply Ho|done|done]|by rewrite He| |].
  - intros j Hj Hne. split; [by apply He|]. intros Ha u'. eapply fdata_kept; eauto.
  - rewrite He by done. symmetry. eapply fdata_kept; eauto.
Qed.

Lemma changed_entry u i n m m1 e D :
  (i < n - 1)%nat -> file_changed u i D n m m1 -> is_active (entry m i) = true -> new_entry_ok m1 n i e -> same_meta (entry m1 i) e ->
  file_changed u i (eq (fdata u m1 e)) n m (put_entry m1 i e).
Proof.
  clear RD_pos. intros Hi [F1 F2 F3 F4 F5 F6 F7] Hact Hne Hme. assert (Hl := fl_dev _ _ (fo_len _ _ F3)).
  destruct (fat_put_ok _ _ _ _ F3 F4 Hi Hne) as [Hf Hly]. pose proof (put_entry_only m1 i e n F2 (ne_wf _ _ _ _ Hne) ltac:(lia)) as Ho.
  assert (He : forall j, entry (put_entry m1 i e) j = if decide (i = j) then e else entry m1 j) by (intros j; apply entry_insert; [apply Hne|lia]).
  split; [rewrite (oi_len _ _ _ _ Ho); done|apply Ho|done|done| | |].
  - rewrite He, decide_True by done. destruct F5 as (? & ? & ?), Hme as (? & ? & ?). split_and!; congruence.
  - intros j Hj Hji. rewrite He, decide_False by done. destruct (F6 j Hj Hji) as [E Hd]. split; [done|]. intros Ha u'. rewrite <- Hd by done.
    rewrite <- E in Ha |- *. eapply fdata_kept; [done|exact Ho|exact Hj|lia|done|]. intros Hu. apply apart_sym. by apply F4.
  - rewrite He, decide_True by done. assert (Hs := fw_start _ (ne_wf _ _ _ _ Hne)). symmetry.
    eapply fdata_ext; [done|exact Ho|apply Hs|]. intros Hp. apply apart_sym, (ne_fat _ _ _ _ Hne). apply used_of; [|done].
    unfold is_active in *. destruct Hme as (-> & _ & _). destruct F5 as (-> & _ & _). done.
Qed.

(** In place: the blocks of the file itself. *)
Lemma changed_in_place u i a n m m' buf :
  blocks_wf m -> fat_ok m n -> layout m n -> (i < n)%nat -> is_active (entry m i) = true ->
  0 <= a -> a + Z.of_nat (length buf) <= fsize m i -> buf <> [] ->
  only_in (fstart m i + a) (Z.of_nat (length buf)) m m' ->
  concat (dl_view (Some (fe_fek (entry m i), u)) m') = splice (Z.to_nat (fstart m i + a)) buf (concat (dl_view (Some (fe_fek (entry m i), u)) m)) ->
  file_changed u i (eq (splice (Z.to_nat a) buf (fdata u m (entry m i)))) n m m'.
Proof.
  clear RD_pos. intros Hm Hf Hly Hi Hact Ha Hle Hb Ho Hv. assert (Hl := fl_dev _ _ (fo_len _ _ Hf)).
  assert (Hwf : fe_wf (entry m i)) by (apply entry_wf; [done|lia]). destruct (fw_start _ Hwf) as [Hs _].
  assert (Hbl : (0 < length buf)%nat) by (destruct buf; [done|cbn; lia]).
  assert (Hu : used (entry m i) = true) by (apply used_of; [done|]; unfold fsize in Hle; lia).
  assert (Hsub : only_in (fstart m i) (fsize m i) m m') by (eapply only_in_mono; [| |exact Ho]; lia).
  pose proof (entries_kept _ _ _ _ _ Hsub (ly_fat _ _ Hly i Hi Hu)) as He.
  split; [apply Ho|apply Ho|eapply fat_ok_entries; [apply Ho|done|done]|eapply layout_entries; [apply Ho|done|done]|by rewrite He| |].
  - intros j Hj Hne. split; [by apply He|]. intros Ha' u'. eapply fdata_kept; [done|exact Hsub|exact Hj|lia|done|]. intros Hu'. by apply Hly.
  - rewrite He by done. pose proof (fdata_length u m (entry m i) Hm Hwf (fun _ => ly_dev _ _ Hly i Hi Hu)) as Hfl.
    unfold fstart, fsize in *. assert (Hlen : (Z.to_nat (fe_start_address (entry m i)) + Z.to_nat (fe_data_size (entry m i)) <= length (concat (dl_view (Some (fe_fek (entry m i), u)) m)))%nat).
    { rewrite blocks_concat_length by (by apply dl_view_wf). rewrite dl_view_length. unfold RPMB_DATA_SIZE.
      pose proof (ly_dev _ _ Hly i Hi Hu) as Hd. unfold on_device in Hd. lia. }
    unfold fdata. rewrite Hv. set (l := concat _) in *. apply list_eq. intros x.
    rewrite lookup_slice, lookup_splice by (rewrite slice_length; lia). rewrite lookup_slice. rewrite lookup_splice by lia.
    destruct (decide (x < Z.to_nat (fe_data_size (entry m i)))%nat) as [Hx|Hx].
    + case_decide as H1; case_decide as H2; try lia; [|done]. f_equal. lia.
    + case_decide; [lia|done].
Qed.

(** ** The search of a file that exists *)

Lemma fs_ok_intro s s' n n' b b' :
  fs_ok s n b -> dl_inv (fs_dev s') -> dl_ready (fs_dev s') -> dl_dead (fs_dev s') = false -> fs_par s' = fs_par s -> length (img s') = length (img s) ->
  fat_ok (img s') n' -> (n' <= b')%nat -> dir_ok CACHE RD (img s') b' (fs_dir s') -> fs_ok s' n' b'.
Proof.
  intros [[M1 M2 M3 M4 M5] _ _ _] Hi Hr Hd Hp Hl Hf Hb Hdir. split; [split; [done|done|done|by rewrite Hl|by rewrite Hp]|done|done|done].
Qed.

Definition named_like (fh fh' : rpmb_file_handle) : Prop := fh_filename fh' = fh_filename fh /\ fh_uuid fh' = fh_uuid fh.

Lemma read_fat_found mx n b i (o : OP) :
  fs_ok (op_fs o) n b -> pool_ok mx (op_pool o) -> first_match (fh_filename (op_fh o)) (img (op_fs o)) n i ->
  wp (read_fat CACHE RD reset true) (fun r o' => calm r /\ dl_inv (fs_dev (op_fs o')) /\ dl_hist (fs_dev (op_fs o')) = dl_hist (fs_dev (op_fs o)) /\
    fs_par (op_fs o') = fs_par (op_fs o) /\
    match r with
    | ROk _ => fs_ok (op_fs o') n b /\ op_fh o' = set_entry_at (entry (img (op_fs o)) i) (entry_addr i) (op_fh o) /\
               laid mx (op_pool o') (img (op_fs o)) n /\ holds (op_pool o') 0 (fat_end n false)
    | _ => named_like (op_fh o) (op_fh o') /\ (dl_dead (fs_dev (op_fs o')) = true \/ fs_ok (op_fs o') n b)
    end) o.
Proof.
  intros Hok Hp Hfm. assert (Hf := fk_fat _ _ _ _ _ Hok). assert (Hb := fk_le _ _ _ _ _ Hok).
  eapply wp_mono; [by apply (read_fat_pool CACHE RD reset RD_pos mx n b)|]. intros r o' [S1 S2 S3 S4 (ms & c & S5 & S6 & S7 & _ & S8)].
  set (m := img (op_fs o)) in *. assert (Hpk : pick m (op_fh o) n = (true, set_entry_at (entry m i) (entry_addr i) (op_fh o))) by (by apply pick_result).
  assert (Hg : grows m n (op_fh o) = false).
  { unfold grows. rewrite Hpk. cbn [snd set_entry_at fh_rpmb_fat_address]. apply Z.eqb_neq.
    pose proof (active_not_last m n i Hf (fm_lt _ _ _ _ Hfm) (match_active _ _ _ _ Hfm)). unfold entry_addr. lia. }
  rewrite Hg in *. assert (ms = []) as ->.
  { destruct ms as [|x ms]; [done|]. by destruct (S7 x ltac:(set_solver)). }
  rewrite app_nil_r in S6. assert (Him : img (op_fs o') = m) by (unfold m, img; by rewrite S6). split_and!; try done.
  destruct r as [[]|e|]; [| |done].
  - destruct S8 as (T1 & _ & T3 & T4 & _ & T6 & _ & T8 & T9). rewrite Hpk in T1. split_and!; try done.
    eapply fs_ok_intro; try done; [by rewrite Him|by rewrite Him].
  - destruct S8 as [(j & Hj & T1) T2]. split.
    { rewrite T1. unfold named_like. apply pick_name. }
    destruct T2 as [?|(_ & _ & T3)]; [by left|]. destruct (dl_dead (fs_dev (op_fs o'))) eqn:Ed; [by left|right].
    eapply fs_ok_intro; try done; [by rewrite Him|by rewrite Him|by rewrite Him].
Qed.

(** ** The end of an operation on one file *)

Record op_done (n b : nat) (u : bytes) (i : nat) (old new : bytes) (o : OP) (r : rres unit) (o' : OP) : Prop := {
  od_calm : calm r;
  od_inv : dl_inv (fs_dev (op_fs o'));
  od_fh : named_like (op_fh o) (op_fh o');
  od_par : fs_par (op_fs o') = fs_par (op_fs o);
  od_hist : exists ms, dl_hist (fs_dev (op_fs o')) = dl_hist (fs_dev (op_fs o)) ++ ms /\
    forall m', m' ∈ ms -> file_changed u i (fun d => d = old \/ d = new) n (img (op_fs o)) m';
  od_res : match r with
    | ROk _ => fs_ok (op_fs o') n b /\ file_changed u i (eq new) n (img (op_fs o)) (img (op_fs o'))
    | _ => dl_dead (fs_dev (op_fs o')) = true \/ fs_ok (op_fs o') n b /\ file_changed u i (eq old) n (img (op_fs o)) (img (op_fs o'))
    end;
}.

Lemma file_unchanged u i n m : blocks_wf m -> fat_ok m n -> layout m n -> file_changed u i (eq (fdata u m (entry m i))) n m m.
Proof. intros Hm Hf Hl. by split. Qed.

(** The operation failed before anything was written. *)
Lemma op_done_fail n b u i new (o : OP) e o' :
  fs_ok (op_fs o) n b -> layout (img (op_fs o)) n -> e <> TEE_SUCCESS -> dl_inv (fs_dev (op_fs o')) -> named_like (op_fh o) (op_fh o') ->
  fs_par (op_fs o') = fs_par (op_fs o) -> dl_hist (fs_dev (op_fs o')) = dl_hist (fs_dev (op_fs o)) ->
  (dl_dead (fs_dev (op_fs o')) = true \/ fs_ok (op_fs o') n b) ->
  op_done n b u i (fdata u (img (op_fs o)) (entry (img (op_fs o)) i)) new o (RErr e) o'.
Proof.
  intros Hok Hly He Hi Hn Hp Hh Hr. assert (Him : img (op_fs o') = img (op_fs o)) by (unfold img; by rewrite Hh). split; try done.
  - exists []. rewrite app_nil_r. split; [done|]. by intros m' ?%elem_of_nil.
  - destruct Hr as [?|?]; [by left|right]. split; [done|]. rewrite Him. apply file_unchanged; [|by apply Hok|done]. apply dl_wf, Hok.
Qed.

(** The last step: the entry of the file is written, after images in which the file was as before. *)
Lemma op_done_entry n b u i e new (o o1 : OP) ms :
  fs_ok (op_fs o) n b -> (i < n - 1)%nat -> is_active (entry (img (op_fs o)) i) = true ->
  let old := fdata u (img (op_fs o)) (entry (img (op_fs o)) i) in
  dl_inv (fs_dev (op_fs o1)) -> dl_ready (fs_dev (op_fs o1)) -> dl_dead (fs_dev (op_fs o1)) = false ->
  fs_par (op_fs o1) = fs_par (op_fs o) -> fs_ok (op_fs o1) n b -> named_like (op_fh o) (op_fh o1) ->
  dl_hist (fs_dev (op_fs o1)) = dl_hist (fs_dev (op_fs o)) ++ ms ->
  (forall m', m' ∈ ms -> file_changed u i (eq old) n (img (op_fs o)) m') ->
  file_changed u i (eq old) n (img (op_fs o)) (img (op_fs o1)) ->
  fh_rpmb_fat_address (op_fh o1) = entry_addr i -> fh_fat_entry (op_fh o1) = e ->
  new_entry_ok (img (op_fs o1)) n i e -> same_meta (entry (img (op_fs o)) i) e ->
  fdata u (img (op_fs o1)) e = new ->
  wp (write_fat_entry CACHE true) (op_done n b u i old new o) o1.
Proof.
  intros Hok Hi Hact old Hinv Hrd Hal Hpar Hok1 Hnm Hh Hms Himg Haddr Hfe Hne Hme Hnew.
  assert (Hb := fk_le _ _ _ _ _ Hok). assert (Hsz := mo_size _ _ (fk_mounted _ _ _ _ _ Hok)).
  assert (Hl := fl_dev _ _ (fo_len _ _ (fk_fat _ _ _ _ _ Hok))).
  eapply wp_mono; [apply (write_fat_entry_wrote CACHE RD RD_pos i true o1); [done|done|rewrite Hfe; apply Hne|lia]|].
  rewrite Hfe. intros r o' (_ & c & Hwf & Hfh & _ & [W1 W2 W3 W4 (ms' & W5 & W6 & W7)]). cbv zeta in *.
  set (e' := set_fe_write_counter (u32 c) e) in *.
  assert (Hme1 : same_meta (entry (img (op_fs o1)) i) e').
  { destruct (fc_meta _ _ _ _ _ _ Himg) as (? & ? & ?), Hme as (? & ? & ?). subst e'. split_and!; cbn [set_fe_write_counter fe_flags fe_fek fe_filename]; congruence. }
  assert (Hch : file_changed u i (eq new) n (img (op_fs o)) (put_entry (img (op_fs o1)) i e')).
  { rewrite <- Hnew. change (fdata u (img (op_fs o1)) e) with (fdata u (img (op_fs o1)) e').
    eapply changed_entry; [done|exact Himg|done|by apply new_entry_ok_counter|done]. }
  split; try done; [|congruence| |].
  - by destruct Hfh as [-> | ->].
  - exists (ms ++ ms'). split; [by rewrite W5, Hh, app_assoc|]. intros m' [Hm'|Hm']%elem_of_app.
    + eapply file_changed_mono; [by apply Hms|]. intros d <-. by left.
    + rewrite (W6 m' Hm'). eapply file_changed_mono; [exact Hch|]. intros d <-. by right.
  - destruct r as [[]|er|]; [| |done].
    + destruct W7 as (T1 & T2 & T3 & T4). assert (Him : img (op_fs o') = put_entry (img (op_fs o1)) i e') by done. rewrite Him. split; [|exact Hch].
      eapply (fs_ok_intro (op_fs o)); try done; [by apply W3|congruence|rewrite Him; apply Hch|rewrite Him; apply Hch|].
      rewrite Him, T4. replace b with (Nat.max b (i + 1)) by lia. apply upd_dir_ok; [done|done|done|lia|apply Hok1].
    + destruct W7 as (T1 & T2). destruct T2 as [?|Hnil]; [by left|]. destruct (dl_dead (fs_dev (op_fs o'))) eqn:Ed; [by left|right].
      rewrite Hnil, app_nil_r in W5. assert (Him : img (op_fs o') = img (op_fs o1)) by (unfold img; by rewrite W5). rewrite Him. split; [|exact Himg].
      eapply (fs_ok_intro (op_fs o1)); try done; [by apply W3|by rewrite Him|rewrite Him; apply Hok1|rewrite Him, T1; apply Hok1].
Qed.

(** ** [rpmb_fs_write_primitive] *)

(** The state in which the body of an operation runs, after the search of file [i]. *)
Record searched (mx : Z) (n b i : nat) (o o1 : OP) : Prop := {
  se_ok0 : fs_ok (op_fs o) n b;
  se_layout : layout (img (op_fs o)) n;
  se_lt : (i < n - 1)%nat;
  se_active : is_active (entry (img (op_fs o)) i) = true;
  se_mx : 0 < mx < 65536;
  se_ok : fs_ok (op_fs o1) n b;
  se_hist : dl_hist (fs_dev (op_fs o1)) = dl_hist (fs_dev (op_fs o));
  se_par : fs_par (op_fs o1) = fs_par (op_fs o);
  se_fh : op_fh o1 = set_entry_at (entry (img (op_fs o)) i) (entry_addr i) (op_fh o);
  se_laid : laid mx (op_pool o1) (img (op_fs o)) n;
  se_fat : holds (op_pool o1) 0 (fat_end n false);
}.

Lemma searched_same mx n b i o o1 f :
  searched mx n b i o o1 -> fs_same (op_fs o1) f -> fs_dir f = fs_dir (op_fs o1) ->
  fs_ok f n b /\ dl_hist (fs_dev f) = dl_hist (fs_dev (op_fs o)) /\ fs_par f = fs_par (op_fs o).
Proof.
  intros Hse Hs Hd. assert (Hok := se_ok _ _ _ _ _ _ Hse). split; [|destruct Hse, Hs as [[] ?]; split; congruence].
  eapply fs_ok_same; [exact Hs| |done]. rewrite Hd. by apply Hok.
Qed.

(** Failing without having written. *)
Lemma searched_fail mx n b i u new o o1 e f p :
  searched mx n b i o o1 -> fs_same (op_fs o1) f -> fs_dir f = fs_dir (op_fs o1) -> e <> TEE_SUCCESS ->
  op_done n b u i (fdata u (img (op_fs o)) (entry (img (op_fs o)) i)) new o (RErr e) (mk_op f (op_fh o1) p).
Proof.
  intros Hse Hs Hd He. destruct (searched_same _ _ _ _ _ _ _ Hse Hs Hd) as (H1 & H2 & H3). destruct Hse.
  apply op_done_fail; cbn [op_fs op_fh]; try done; [apply H1|by rewrite se_fh0|by right].
Qed.

Definition new_contents (e : rpmb_fat_entry) (old : bytes) (pos : Z) (buf : bytes) : bytes :=
  if (pos + Z.of_nat (length buf) <=? fe_data_size e) && ((fe_start_address e + pos) mod 256 + Z.of_nat (length buf) <=? 256)
  then splice (Z.to_nat pos) buf old else rewritten old pos buf.

(** The blocks from [a] are free ones, and hold new contents, or a part of them; nothing else has changed. *)
Record moved (mx : Z) (n i : nat) (a l : Z) (o o1 : OP) (ms : list image) (o4 : OP) : Prop := {
  mv_searched : searched mx n n i o o1;
  mv_pos : 0 <= a /\ 0 < l /\ a + l <= mx * 256;
  mv_free : forall a' l', holds (op_pool o1) a' l' -> 0 < l' -> apart a l a' l';
  mv_inv : dl_inv (fs_dev (op_fs o4));
  mv_ready : dl_ready (fs_dev (op_fs o4));
  mv_par : fs_par (op_fs o4) = fs_par (op_fs o);
  mv_dir : fs_dir (op_fs o4) = fs_dir (op_fs o1);
  mv_fh : op_fh o4 = op_fh o1;
  mv_hist : dl_hist (fs_dev (op_fs o4)) = dl_hist (fs_dev (op_fs o)) ++ ms;
  mv_only : forall m', m' ∈ ms -> only_in a l (img (op_fs o)) m';
  mv_img : only_in a l (img (op_fs o)) (img (op_fs o4));
}.

Lemma moved_free mx n i a l o o1 ms o4 :
  moved mx n i a l o o1 ms o4 -> let m := img (op_fs o) in
  apart a l 0 (fat_end n false) /\ forall j, (j < n)%nat -> used (entry m j) = true -> apart a l (fstart m j) (fsize m j).
Proof.
  intros H m. destruct (mv_searched _ _ _ _ _ _ _ _ _ H). split.
  - apply (mv_free _ _ _ _ _ _ _ _ _ H); [done|unfold fat_end; lia].
  - intros j Hj Hu. apply (mv_free _ _ _ _ _ _ _ _ _ H); [by apply se_laid0|by apply used_size].
Qed.

Lemma moved_changed mx n i a l u o o1 ms o4 m' :
  moved mx n i a l o o1 ms o4 -> only_in a l (img (op_fs o)) m' ->
  file_changed u i (eq (fdata u (img (op_fs o)) (entry (img (op_fs o)) i))) n (img (op_fs o)) m'.
Proof.
  intros H Ho. destruct (moved_free _ _ _ _ _ _ _ _ _ H) as [H1 H2]. destruct (mv_searched _ _ _ _ _ _ _ _ _ H).
  eapply changed_region; [apply dl_wf, se_ok1|apply se_ok1|done|lia|done|exact Ho|done|done].
Qed.

Lemma moved_ok mx n i a l o o1 ms o4 : moved mx n i a l o o1 ms o4 -> dl_dead (fs_dev (op_fs o4)) = false -> fs_ok (op_fs o4) n n.
Proof.
  intros H Hal. destruct (moved_free _ _ _ _ _ _ _ _ _ H) as [Hfat _]. pose proof (moved_changed _ _ _ _ _ [] _ _ _ _ _ H (mv_img _ _ _ _ _ _ _ _ _ H)) as Hch.
  destruct H as [Hse _ _ ? ? ? Hd _ _ _ Him]. destruct Hse.
  eapply (fs_ok_intro (op_fs o)); try done; [apply Hch|apply Hch|]. rewrite Hd. eapply dir_ok_entries; [|apply se_ok2].
  assert (Him1 : img (op_fs o1) = img (op_fs o)) by (unfold img; by rewrite se_hist0). rewrite Him1. by apply (entries_kept _ _ _ _ n Him Hfat).
Qed.

(** An error at this point leaves the old contents. *)
Lemma moved_fail mx n i a l u new o o1 ms o4 e :
  moved mx n i a l o o1 ms o4 -> e <> TEE_SUCCESS -> op_done n n u i (fdata u (img (op_fs o)) (entry (img (op_fs o)) i)) new o (RErr e) o4.
Proof.
  intros H He. pose proof (moved_ok _ _ _ _ _ _ _ _ _ H) as Hok. pose proof H as H'. destruct H' as [Hse _ _ ? ? ? Hd Hfh Hh Hms Him]. split; try done.
  - rewrite Hfh. destruct Hse. by rewrite se_fh0.
  - exists ms. split; [done|]. intros m' Hm'. eapply file_changed_mono; [by eapply moved_changed, Hms|]. intros d <-. by left.
  - destruct (dl_dead (fs_dev (op_fs o4))) eqn:Ed; [by left|right]. split; [by apply Hok|by eapply moved_changed].
Qed.

(** When the entry is written, the file has the new contents. *)
Lemma moved_entry mx n i a l a1 l1 new o o1 ms o4 :
  moved mx n i a l o o1 ms o4 -> a1 = a -> l1 = l -> dl_dead (fs_dev (op_fs o4)) = false -> a + l <= 256 * Z.of_nat (length (img (op_fs o4))) -> is_u32 a -> is_u32 l ->
  let m := img (op_fs o) in let u := fh_uuid (op_fh o) in
  slice (Z.to_nat a) (Z.to_nat l) (concat (dl_view (Some (fe_fek (entry m i), u)) (img (op_fs o4)))) = new ->
  wp (upd_fh (fun fh => set_fat_entry (set_extent a1 l1 (fh_fat_entry fh)) fh) ;; write_fat_entry CACHE true)
    (op_done n n u i (fdata u m (entry m i)) new o) o4.
Proof.
  intros H -> -> Hal Hdev Hua Hul m u Hnew. pose proof (moved_ok _ _ _ _ _ _ _ _ _ H Hal) as Hok4. destruct (moved_free _ _ _ _ _ _ _ _ _ H) as [Hfat Hfile].
  pose proof H as H'. destruct H' as [Hse Hpos _ ? ? ? Hd Hfh Hh Hms Him]. pose proof Hse as Hse'. destruct Hse' as [Hok0 Hly Hi Hact _ _ _ _ Hfh1 _ _].
  apply wp_bind, wp_modify. cbn [cont]. rewrite Hfh, Hfh1. cbn [set_entry_at fh_fat_entry]. fold m.
  assert (Hl := fl_dev _ _ (fo_len _ _ (fk_fat _ _ _ _ _ Hok0))).
  assert (Hwfe : fe_wf (entry m i)) by (apply entry_wf; [apply dl_wf, Hok0|unfold m; lia]).
  apply (op_done_entry n n u i (set_extent a l (entry m i)) new o _ ms); try done.
  - intros m' Hm'. by eapply moved_changed, Hms.
  - by eapply moved_changed.
  - apply set_extent_ok; [done|eapply inner_not_last; [apply Hok0|done]|done|done|]. intros _. split_and!; [|done|exact Hdev].
    intros j Hj _. unfold fstart, fsize. cbn [op_fs]. rewrite (entries_kept _ _ _ _ _ Him Hfat) by done. by apply Hfile.
Qed.

Lemma write_copy mx n i pos buf (o o1 : OP) :
  searched mx n n i o o1 -> 0 <= pos -> buf <> [] -> Forall is_byte buf -> pos + Z.of_nat (length buf) < 2 ^ 64 ->
  let m := img (op_fs o) in let u := fh_uuid (op_fh o) in let old := fdata u m (entry m i) in
  let new_size := Z.max (pos + Z.of_nat (length buf)) (fe_data_size (entry m i)) in
  wp (mm ← pool_alloc new_size;
      match mm with
      | None => throw TEE_ERROR_STORAGE_NO_SPACE
      | Some new_fat_entry =>
          update_write_helper pos buf new_fat_entry new_size ;;
          upd_fh (fun fh => set_fat_entry (set_extent (u32 new_fat_entry) (u32 new_size) (fh_fat_entry fh)) fh) ;;
          write_fat_entry CACHE true
      end) (op_done n n u i old (rewritten old pos buf) o) o1.
Proof.
  intros Hse Hpos Hne Hb H64 m u old new_size. pose proof Hse as Hse0. destruct Hse0 as [Hok0 Hly Hi Hact Hmx Hok Hh Hp Hfh Hla Hfat].
  fold m in Hly, Hact, Hfh, Hla. assert (Hinv := mo_inv _ _ (fk_mounted _ _ _ _ _ Hok)). assert (Him : img (op_fs o1) = m) by (unfold m, img; by rewrite Hh).
  assert (Hmw : blocks_wf m) by (apply dl_wf, Hok0). assert (Hf : fat_ok m n) by apply Hok0. assert (Hl := fl_dev _ _ (fo_len _ _ Hf)).
  assert (Hwfe : fe_wf (entry m i)) by (apply entry_wf; [done|lia]). destruct (fw_size _ Hwfe) as [Hz1 Hz2].
  assert (Hbl : 0 < Z.of_nat (length buf)) by (destruct buf; [done|cbn; lia]).
  assert (Hsz := mo_size _ _ (fk_mounted _ _ _ _ _ Hok0)). fold m in Hsz.
  assert (Hdev : 0 < fe_data_size (entry m i) -> on_device m (entry m i)) by (intros Hp'; apply (ly_dev _ _ Hly); [lia|by apply used_of]).
  eapply wp_seq; [apply (pool_alloc_spec mx); [done|apply Hla|subst new_size; lia]|].
  intros r [f fh p2] (Hs2 & Ed2 & Eh2 & Hr2). cbn [op_fs op_fh] in *. subst fh.
  destruct r as [[a|]|er|]; cbn [cont]; [|by eapply wp_throw, searched_fail|done|done]. destruct Hr2 as (Ha & Hin & Hap).
  destruct (searched_same _ _ _ _ _ _ _ Hse Hs2 Ed2) as (Hok2 & Hh2 & Hp2).
  unfold update_write_helper. apply wp_bind, wp_bind, wp_on_fs. cbn [op_fs op_fh op_pool].
  eapply wp_mono; [apply alloc_same, Hok2|]. intros r f3 (Hs3 & Ed3 & Hc3).
  assert (Hs3' : fs_same (op_fs o1) f3) by (by etransitivity). assert (Ed3' : fs_dir f3 = fs_dir (op_fs o1)) by congruence.
  destruct r as [[]|er|]; cbn [cont]; [|by eapply searched_fail|done].
  destruct (searched_same _ _ _ _ _ _ _ Hse Hs3' Ed3') as (Hok3 & Hh3 & Hp3). assert (Him3 : img f3 = m) by (unfold m, img; by rewrite Hh3).
  apply wp_bind, wp_gets. cbn [cont op_fh]. assert (Efe : fh_fat_entry (op_fh o1) = entry m i /\ fh_uuid (op_fh o1) = u) by (by rewrite Hfh).
  destruct Efe as [Efe Eu].
  eapply wp_mono; [apply (update_write_loop_spec m (op_fh o1) pos buf a new_size); rewrite ?Efe; cbn [op_fs]; try done|].
  { subst new_size. lia. }
  { lia. }
  { lia. }
  { intros Hp'. apply Hap; [|done]. apply Hla; [lia|by apply used_of]. }
  { apply Hok3. }
  { apply Hok3. }
  { rewrite Him3. by apply only_in_refl. }
  { subst new_size. lia. }
  { intros _. apply Z.divide_0_r. }
  { by replace (Z.to_nat (0 - pos)) with 0%nat by lia. }
  { by left. }
  { subst new_size. unfold TMP_BLOCK_SIZE. Z.div_mod_to_equations. lia. }
  intros r [f4 h4 p4] [[I1 I2 I3 I4 I5 I6 I7 I8 (ms & I9 & I10)] Hcp]. cbn [op_fs op_fh op_pool] in *. subst h4.
  assert (Hmv : moved mx n i a new_size o o1 ms (mk_op f4 (op_fh o1) p4)).
  { split; cbn [op_fs op_fh]; try done; [split_and!; [done|subst new_size; lia|done]|apply I3, Hok3|congruence|congruence|by rewrite I9, Hh3]. }
  destruct r as [[]|er|]; cbn [cont]; [|by eapply moved_fail|done].
  destruct (Hcp eq_refl) as [Hal4 Hcp4]. destruct Hcp4 as [?|[Hcd Hcs]]; [subst new_size; lia|]. rewrite Efe, Eu in Hcs.
  assert (is_u32 a /\ is_u32 new_size) as [Hua Hul] by (unfold is_u32; subst new_size; lia).
  eapply moved_entry; try done; [by apply u32_small|by apply u32_small|]. cbn [op_fs]. fold m u. rewrite Hcs. apply take_ge.
  assert (Hnl := new_length m (op_fh o1) pos buf new_size Hmw). rewrite Efe, Eu in Hnl. fold old in Hnl. specialize (Hnl Hwfe Hpos Hdev eq_refl). lia.
Qed.

Lemma write_in_place mx n i pos buf (o o1 : OP) :
  searched mx n n i o o1 -> 0 <= pos -> buf <> [] -> Forall is_byte buf ->
  let m := img (op_fs o) in let u := fh_uuid (op_fh o) in let e := entry m i in let old := fdata u m e in
  pos + Z.of_nat (length buf) <= fe_data_size e -> (fe_start_address e + pos) mod 256 + Z.of_nat (length buf) <= 256 ->
  wp (on_fs (on_dev (dev_write (fe_start_address e + pos) buf (Some (fe_fek e, u)))))
    (op_done n n u i old (splice (Z.to_nat pos) buf old) o) o1.
Proof.
  intros Hse Hpos Hne Hb m u e old Hle Hone. pose proof Hse as Hse0. destruct Hse0 as [Hok0 Hly Hi Hact Hmx Hok Hh Hp Hfh Hla Hfat].
  fold m in Hly, Hact, Hfh, Hla. assert (Him : img (op_fs o1) = m) by (unfold m, img; by rewrite Hh).
  assert (Hmw : blocks_wf m) by (apply dl_wf, Hok0). assert (Hf : fat_ok m n) by apply Hok0. assert (Hl := fl_dev _ _ (fo_len _ _ Hf)).
  assert (Hwfe : fe_wf e) by (apply entry_wf; [done|lia]). destruct (fw_start _ Hwfe) as [Hs1 Hs2].
  assert (Hbl : 0 < Z.of_nat (length buf)) by (destruct buf; [done|cbn; lia]).
  assert (Hsz := mo_size _ _ (fk_mounted _ _ _ _ _ Hok0)). fold m in Hsz.
  assert (Hu : used e = true) by (apply used_of; [done|lia]). assert (Hdev := ly_dev _ _ Hly i ltac:(lia) Hu). unfold on_device in Hdev. fold e in Hdev.
  apply wp_on_fs. eapply wp_mono; [apply (data_write (fe_start_address e + pos) (Z.of_nat (length buf)) (fe_start_address e + pos) buf (Some (fe_fek e, u)));
    [apply Hok|lia|lia|lia|lia|done|done]|].
  intros r f (W1 & W2 & W3 & W4 & W5 & ms & W6 & W7 & W8 & W9 & W10 & W11). rewrite Him in *.
  assert (Hch : forall m', only_in (fe_start_address e + pos) (Z.of_nat (length buf)) m m' ->
     concat (dl_view (Some (fe_fek e, u)) m') = splice (Z.to_nat (fe_start_address e + pos)) buf (concat (dl_view (Some (fe_fek e, u)) m)) ->
     file_changed u i (eq (splice (Z.to_nat pos) buf old)) n m m').
  { intros m' Ho Hv. apply (changed_in_place u i pos n m m' buf); try done. lia. }
  assert (Hsub : only_in (fstart m i) (fsize m i) m (img f)) by (eapply only_in_mono; [| |exact W8]; unfold fstart, fsize; fold e; lia).
  pose proof (entries_kept _ _ _ _ _ Hsub (ly_fat _ _ Hly i ltac:(lia) Hu)) as He.
  assert (Hok4 : dl_dead (fs_dev f) = false -> fs_ok f n n).
  { intros Hal. eapply (fs_ok_intro (op_fs o1)); try done; [apply W3, Hok|by rewrite Him, (oi_len _ _ _ _ W8)|eapply fat_ok_entries; [apply W8|done|done]|].
    rewrite W5. eapply dir_ok_entries; [|apply Hok]. by rewrite Him. }
  split; cbn [op_fs op_fh]; try done; [by rewrite Hfh|congruence| |].
  - exists ms. split; [by rewrite W6, Hh|]. intros m' Hm'. eapply file_changed_mono; [apply Hch; [by apply W7|by apply W9]|]. intros d <-. by right.
  - destruct r as [[]|er|]; [| |done].
    + destruct (W10 eq_refl) as (T1 & _ & T3). split; [by apply Hok4|by apply Hch].
    + destruct (W11 er eq_refl Hone) as [?|Hnil]; [by left|]. destruct (dl_dead (fs_dev f)) eqn:Ed; [by left|right]. split; [by apply Hok4|].
      rewrite Hnil, app_nil_r in W6. assert (Him2 : img f = m) by (unfold img; by rewrite W6). rewrite Him2. by apply file_unchanged.
Qed.

Lemma op_done_final n b u i old new o r (o' : OP) :
  op_done n b u i old new o r o' -> wp final_pool (fun rc s2 => rc = ROk tt /\ op_done n b u i old new o r s2) o'.
Proof.
  intros H. eapply wp_mono; [apply final_pool_ok|]. intros rc o'' (-> & E1 & E2). split; [done|]. destruct H. rewrite <- E1, <- E2 in *. by split.
Qed.

(** The frame of an operation that allocates blocks for a file: a pool is filled by the search, and emptied
    at the end. [o'] is the state it begins in, where nothing has been written since [o]. *)
Lemma wp_pool_op mx n i new body (o o' : OP) :
  fs_ok (op_fs o) n n -> layout (img (op_fs o)) n -> max_block (op_fs o) mx -> first_match (fh_filename (op_fh o)) (img (op_fs o)) n i ->
  fs_same (op_fs o) (op_fs o') -> fs_ok (op_fs o') n n -> named_like (op_fh o) (op_fh o') ->
  let m := img (op_fs o) in let u := fh_uuid (op_fh o) in let old := fdata u m (entry m i) in
  (forall o1, searched mx n n i o o1 -> wp body (op_done n n u i old new o) o1) ->
  wp (init_pool ;; finally (read_fat CACHE RD reset true ;; body) final_pool) (op_done n n u i old new o) o'.
Proof.
  intros Hok Hly Hmb Hfm Hs' Hok' Hn' m u old Hbody. pose proof Hs' as Hs0. destruct Hs0 as [[D1 D2 D3 D4] D5].
  assert (Hfail : forall e o1, e <> TEE_SUCCESS -> dl_inv (fs_dev (op_fs o1)) -> named_like (op_fh o') (op_fh o1) -> fs_par (op_fs o1) = fs_par (op_fs o') ->
     dl_hist (fs_dev (op_fs o1)) = dl_hist (fs_dev (op_fs o')) -> (dl_dead (fs_dev (op_fs o1)) = true \/ fs_ok (op_fs o1) n n) ->
     op_done n n u i old new o (RErr e) o1).
  { intros e o1 He Hi1 [N1 N2] Hp1 Hh1 Hr1. destruct Hn' as [N3 N4]. apply op_done_fail; try done; [split; congruence|congruence|congruence]. }
  eapply wp_seq; [apply (init_pool_spec mx); [done|]|].
  { destruct Hmb as [? Ep]. split; [done|congruence]. }
  intros r o1 (Hs1 & Ed1 & Eh1 & Hc1 & Hr1).
  assert (Hok1 : fs_ok (op_fs o1) n n) by (eapply fs_ok_same; [exact Hs1|rewrite Ed1; apply Hok'|done]).
  pose proof Hs1 as Hs0. destruct Hs0 as [[E1 E2 E3 E4] E5]. destruct r as [[]|er|]; cbn [cont]; [|apply Hfail; try done; [by rewrite Eh1|by right]|done].
  apply wp_finally. assert (Hf1 : first_match (fh_filename (op_fh o1)) (img (op_fs o1)) n i).
  { rewrite (fs_same_img _ _ Hs1), (fs_same_img _ _ Hs'), Eh1. by destruct Hn' as [-> _]. }
  eapply (wp_mono _ (op_done n n u i old new o)).
  2: { intros r o2 Hr. assert (Hd := op_done_final _ _ _ _ _ _ _ _ _ Hr). by destruct r as [[]| |]. }
  eapply wp_seq; [apply (read_fat_found mx n n i); [done|by apply Hr1|done]|]. intros r o2 (Hc2 & Hi2 & Hh2 & Hp2 & Hr2).
  destruct r as [[]|er|]; cbn [cont]; [| |done].
  2: { destruct Hr2 as [Hnm Hr2]. rewrite Eh1 in Hnm. apply Hfail; try done; congruence. }
  destruct Hr2 as (Hok2 & Hfh2 & Hla2 & Hho2). rewrite (fs_same_img _ _ Hs1), (fs_same_img _ _ Hs') in *. apply Hbody.
  assert (Hact := match_active _ _ _ _ Hfm). destruct Hmb as [Hmx _]. split; try done; [|congruence|congruence|].
  - eapply active_not_last; [apply Hok|apply Hfm|done].
  - rewrite Hfh2, Eh1. unfold set_entry_at. destruct Hn' as [-> ->]. done.
Qed.

(** A write: the new contents, or nothing. *)
Lemma write_primitive_done mx n i pos buf (o : OP) :
  fs_ok (op_fs o) n n -> layout (img (op_fs o)) n -> max_block (op_fs o) mx ->
  first_match (fh_filename (op_fh o)) (img (op_fs o)) n i -> 0 <= pos -> buf <> [] -> Forall is_byte buf ->
  let m := img (op_fs o) in let u := fh_uuid (op_fh o) in let old := fdata u m (entry m i) in
  wp (rpmb_fs_write_primitive CACHE RD reset pos buf) (op_done n n u i old (new_contents (entry m i) old pos buf) o) o.
Proof.
  intros Hok Hly Hmb Hfm Hpos Hne Hb m u old. assert (Hbl : 0 < Z.of_nat (length buf)) by (destruct buf; [done|cbn; lia]).
  unfold rpmb_fs_write_primitive. rewrite (proj2 (Z.eqb_neq (Z.of_nat (length buf)) 0)) by lia.
  apply wp_bind, wp_gets. cbn [cont]. pose proof Hmb as [Hmx Epar]. rewrite Epar. apply wp_bind, wp_ret. cbn [cont].
  apply (wp_pool_op mx); try done; [by apply fs_same_refl, Hok|]. fold m u old. intros o2 Hse. assert (Hfh2 := se_fh _ _ _ _ _ _ Hse). assert (Hok2 := se_ok _ _ _ _ _ _ Hse).
  apply wp_bind, wp_gets. cbn [cont]. rewrite Hfh2. cbn [set_entry_at fh_fat_entry fh_uuid]. fold m u.
  assert (Hl := fl_dev _ _ (fo_len _ _ (fk_fat _ _ _ _ _ Hok))). fold m in Hl.
  assert (Hwfe : fe_wf (entry m i)) by (apply entry_wf; [apply dl_wf, Hok|destruct Hfm; lia]).
  rewrite (inner_not_last m n i) by first [apply Hok|apply Hse]. apply wp_bind, wp_ret. cbn [cont].
  assert (Hfail : forall e, e <> TEE_SUCCESS -> op_done n n u i old (new_contents (entry m i) old pos buf) o (RErr e) o2).
  { intros e He. destruct o2 as [f2 h2 p2]. eapply (searched_fail mx n n i u _ o (mk_op f2 h2 p2)); [done|by apply fs_same_refl, Hok2|done|done]. }
  apply wp_bind, wp_guard; intros G1; cbn [cont]; [|by apply Hfail]. apply wp_bind, wp_guard; intros G2; cbn [cont]; [|by apply Hfail].
  apply Z.ltb_lt in G1, G2. destruct (fw_start _ Hwfe) as [Hs1' _].
  unfold new_contents. destruct (Z.leb_spec (pos + Z.of_nat (length buf)) (fe_data_size (entry m i))) as [Hle|Hgt]; cbn [andb].
  - assert (Hu : used (entry m i) = true) by (apply used_of; [apply Hse|lia]). assert (Hdev := ly_dev _ _ Hly i ltac:(destruct Hfm; lia) Hu).
    unfold on_device in Hdev. fold m in Hdev. assert (Hsz := mo_size _ _ (fk_mounted _ _ _ _ _ Hok)). fold m in Hsz. destruct (fw_size _ Hwfe).
    rewrite (u32_small (Z.of_nat (length buf))) by (unfold is_u32; lia).
    apply wp_bind, wp_on_fs, wp_zoom. unfold wp at 1.
    rewrite (dl_atomic (fe_start_address (entry m i) + pos) (Z.of_nat (length buf)) (fs_dev (op_fs o2))) by first [apply Hok2|lia]. cbn [fst snd cont].
    replace (mk_op (mk_fs (fs_par (op_fs o2)) (fs_dir (op_fs o2)) (fs_dev (op_fs o2))) (op_fh o2) (op_pool o2)) with o2 by (by destruct o2 as [[] ? ?]).
    destruct (Z.leb_spec ((fe_start_address (entry m i) + pos) mod 256 + Z.of_nat (length buf)) 256).
    + by eapply write_in_place.
    + by eapply write_copy.
  - apply wp_bind, wp_ret. cbn [cont]. by eapply write_copy.
Qed.
End write.
