(* ===== verification/RpmbFsOps.v ===== *)
(** * Reading, truncating and removing files of the RPMB file system

    The abstract file system of an image, a partial map from names to contents, and what
    [rpmb_fs_read], [rpmb_fs_truncate] and [rpmb_fs_remove_internal] do to it. *)

From S2P Require Import Prelude TeeMm Pobj ErrM Cipher CipherModes FsKey Rpmb RpmbSpec RpmbDev RpmbBlocks RpmbFat RpmbFs RpmbFatSpec RpmbFatFind RpmbFsData RpmbFsWrite.
From stdpp Require Import base list sets.
From Stdlib Require Import ZArith Lia.

Local Open Scope Z_scope.

(** ** The files of an image *)

Fixpoint find_from (name : bytes) (m : image) (i k : nat) : option nat :=
  match k with
  | O => None
  | Datatypes.S k => if is_file name (entry m i) then Some i else find_from name m (i + 1) k
  end.
(** The entry of a name in a table of [n] entries. *)
Definition find_file (name : bytes) (m : image) (n : nat) : option nat := find_from name m 0 n.

Lemma find_from_spec name m i k :
  match find_from name m i k with
  | Some j => (i <= j < i + k)%nat /\ is_file name (entry m j) = true /\ forall x, (i <= x < j)%nat -> is_file name (entry m x) = false
  | None => forall x, (i <= x < i + k)%nat -> is_file name (entry m x) = false
  end.
Proof.
  revert i. induction k as [|k IH]; intros i; cbn [find_from]; [intros x ?; lia|]. destruct (is_file name (entry m i)) eqn:E.
  - split_and!; [lia|lia|done|]. intros x ?. lia.
  - specialize (IH (i + 1)%nat). destruct (find_from name m (i + 1) k) as [j|].
    + destruct IH as (H1 & H2 & H3). split_and!; [lia|lia|done|]. intros x Hx. destruct (decide (x = i)) as [->|]; [done|]. apply H3. lia.
    + intros x Hx. destruct (decide (x = i)) as [->|]; [done|]. apply IH. lia.
Qed.

Lemma find_file_Some name m n i : find_file name m n = Some i <-> first_match name m n i.
Proof.
  unfold find_file. pose proof (find_from_spec name m 0 n) as H. split.
  - intros E. rewrite E in H. destruct H as (H1 & H2 & H3). split; [lia|done|]. intros j Hj. apply H3. lia.
  - intros [H1 H2 H3]. destruct (find_from name m 0 n) as [j|].
    + destruct H as (H4 & H5 & H6). f_equal. eapply (first_match_unique name m n); split; [lia|done| |done|done|done]. intros x Hx. apply H6. lia.
    + rewrite H in H2 by lia. done.
Qed.
Lemma find_file_None name m n : find_file name m n = None <-> no_match name m n.
Proof.
  unfold find_file, no_match. pose proof (find_from_spec name m 0 n) as H. destruct (find_from name m 0 n) as [j|].
  - split; [done|]. intros Hno. destruct H as (H1 & H2 & _). rewrite Hno in H2 by lia. done.
  - split; [|done]. intros _ x Hx. apply H. lia.
Qed.

Lemma is_file_name name name' e : c_str name = c_str name' -> is_file name e = is_file name' e.
Proof. unfold is_file, strcmp_eq. by intros ->. Qed.
Lemma is_file_same name e e' : fe_flags e' = fe_flags e -> fe_filename e' = fe_filename e -> is_file name e' = is_file name e.
Proof. unfold is_file, strcmp_eq, is_active. by intros -> ->. Qed.
Lemma find_file_ext name m m' n : (forall i, (i < n)%nat -> is_file name (entry m' i) = is_file name (entry m i)) -> find_file name m' n = find_file name m n.
Proof.
  intros H. destruct (find_file name m n) as [i|] eqn:E.
  - apply find_file_Some in E as [H1 H2 H3]. apply find_file_Some. split; [done|by rewrite H|]. intros j Hj. rewrite H by lia. by apply H3.
  - apply find_file_None in E. apply find_file_None. intros j Hj. rewrite H by done. by apply E.
Qed.

(** No two files have the same name. *)
Definition unique_names (m : image) (n : nat) : Prop :=
  forall name i j, (i < n)%nat -> (j < n)%nat -> is_file name (entry m i) = true -> is_file name (entry m j) = true -> i = j.

Section ops.
Context {S : Type} {DV : RpmbDev S} {DL : RpmbDevLaws S}.

(** The contents of the file [name] of TA [u]. *)
Definition file (u name : bytes) (m : image) (n : nat) : option bytes := (fun i => fdata u m (entry m i)) <$> find_file name m n.

(** A change of one file, as it is seen from outside. *)
Lemma file_changed_file u i D n m m' name :
  file_changed u i D n m m' -> first_match name m n i ->
  (forall name' u', c_str name' <> c_str name -> file u' name' m' n = file u' name' m n) /\
  (exists d, file u name m' n = Some d /\ D d).
Proof.
  intros [F1 F2 F3 F4 (M1 & M2 & M3) F6 F7] Hfm. assert (Hi := fm_lt _ _ _ _ Hfm).
  assert (He : forall name j, (j < n)%nat -> is_file name (entry m' j) = is_file name (entry m j)).
  { intros nm j Hj. destruct (decide (j = i)) as [->|Hne]; [by apply is_file_same|]. by rewrite (proj1 (F6 j Hj Hne)). }
  split.
  - intros name' u' Hne. unfold file. rewrite (find_file_ext name' m m' n) by auto. destruct (find_file name' m n) as [j|] eqn:Ej; [|done]. cbn. f_equal.
    apply find_file_Some in Ej. assert (Hji : j <> i).
    { intros ->. apply Hne. destruct Ej as [_ E1 _], Hfm as [_ E2 _]. unfold is_file, strcmp_eq in *.
      apply andb_true_iff in E1 as [E1%bool_decide_eq_true _]. apply andb_true_iff in E2 as [E2%bool_decide_eq_true _]. congruence. }
    destruct (F6 j (fm_lt _ _ _ _ Ej) Hji) as [-> Hd]. apply Hd. by eapply match_active.
  - exists (fdata u m' (entry m' i)). split; [|done]. unfold file. rewrite (find_file_ext name m m' n) by auto.
    by rewrite (proj2 (find_file_Some name m n i) Hfm).
Qed.

Lemma file_changed_unique u i D n m m' : file_changed u i D n m m' -> (i < n)%nat -> unique_names m n -> unique_names m' n.
Proof.
  intros [F1 F2 F3 F4 (M1 & M2 & M3) F6 F7] Hi Hu name j k Hj Hk.
  assert (He : forall j, (j < n)%nat -> is_file name (entry m' j) = is_file name (entry m j)).
  { intros x Hx. destruct (decide (x = i)) as [->|Hne]; [by apply is_file_same|]. by rewrite (proj1 (F6 x Hx Hne)). }
  rewrite !He by done. by apply Hu.
Qed.

(** ** Entries that are replaced *)

Lemma zero_fe_wf : fe_wf zero_fe.
Proof. split; cbn [zero_fe fe_start_address fe_data_size fe_flags fe_write_counter fe_fek fe_filename]; [done..| |]; (split; [apply length_replicate|apply zeros_bytes]). Qed.

Lemma zero_entry_ok m n i : new_entry_ok m n i zero_fe.
Proof. split; [apply zero_fe_wf|done|done|done|done]. Qed.

Lemma put_entry_entry m n i e j : fat_ok m n -> (i < n)%nat -> fe_wf e -> entry (put_entry m i e) j = if decide (i = j) then e else entry m j.
Proof. intros Hf Hi He. apply entry_insert; [done|]. pose proof (fl_dev _ _ (fo_len _ _ Hf)). lia. Qed.

(** The files that are not in the entry that is replaced. *)
Lemma put_entry_fdata m n i e j u :
  blocks_wf m -> fat_ok m n -> layout m n -> (i < n)%nat -> fe_wf e -> (j < n)%nat -> is_active (entry m j) = true ->
  fdata u (put_entry m i e) (entry m j) = fdata u m (entry m j).
Proof.
  intros Hm Hf Hly Hi He Hj Ha. eapply fdata_kept; [done|by apply (put_entry_only m i e n)|exact Hj|apply Hf|done|].
  intros Hu. by apply apart_sym, Hly.
Qed.

Lemma is_file_same_name name name' e : is_file name e = true -> is_file name' e = true -> c_str name' = c_str name.
Proof.
  unfold is_file, strcmp_eq. intros [E1%bool_decide_eq_true _]%andb_true_iff [E2%bool_decide_eq_true _]%andb_true_iff. congruence.
Qed.

(** A file of another name, where the entry of the name is free afterwards or is renamed. *)
Lemma put_entry_other m n i e name u :
  blocks_wf m -> fat_ok m n -> layout m n -> (i < n)%nat -> fe_wf e -> is_file name (entry m i) = false -> is_file name e = false ->
  file u name (put_entry m i e) n = file u name m n.
Proof.
  intros Hm Hf Hly Hi He Hne Hne'. unfold file. pose proof (fun j => put_entry_entry m n i e j Hf Hi He) as Hent.
  rewrite (find_file_ext name m (put_entry m i e) n).
  2: { intros j Hj. rewrite Hent. case_decide; [by subst; rewrite Hne, Hne'|done]. }
  destruct (find_file name m n) as [j|] eqn:Ej; [|done]. cbn. f_equal. apply find_file_Some in Ej.
  rewrite Hent. case_decide as Hij; [subst j; destruct Ej; congruence|]. eapply put_entry_fdata; try done; [apply Ej|by eapply match_active].
Qed.

Record removed (name : bytes) (n : nat) (m m' : image) : Prop := {
  rm_fat : fat_ok m' n;
  rm_layout : layout m' n;
  rm_unique : unique_names m' n;
  rm_gone : forall u, file u name m' n = None;
  rm_others : forall name' u, c_str name' <> c_str name -> file u name' m' n = file u name' m n;
}.

Lemma zeroed_removed name m n i :
  blocks_wf m -> fat_ok m n -> layout m n -> unique_names m n -> first_match name m n i -> removed name n m (put_entry m i zero_fe).
Proof.
  intros Hm Hf Hly Hu Hfm. assert (Hact := match_active _ _ _ _ Hfm). assert (Hi := active_not_last _ _ _ Hf (fm_lt _ _ _ _ Hfm) Hact).
  destruct (fat_put_ok _ _ _ _ Hf Hly Hi (zero_entry_ok m n i)) as [Hf' Hly'].
  assert (Hent : forall j, entry (put_entry m i zero_fe) j = if decide (i = j) then zero_fe else entry m j).
  { intros j. eapply put_entry_entry; [exact Hf|lia|apply zero_fe_wf]. }
  assert (Hz : forall name, is_file name zero_fe = false) by (intros x; unfold is_file; apply andb_false_r).
  split; [done|done| | |].
  - intros x j k Hj Hk. rewrite !Hent. case_decide; [by rewrite Hz|]. case_decide; [by rewrite Hz|]. by apply Hu.
  - intros u. unfold file. rewrite (proj2 (find_file_None _ _ _)); [done|]. intros j Hj. rewrite Hent. case_decide as Hij; [done|].
    destruct (is_file name (entry m j)) eqn:E; [|done]. exfalso. apply Hij. eapply Hu; [by destruct Hfm|done|by apply Hfm|done].
  - intros name' u Hne. apply put_entry_other; try done; [lia|apply zero_fe_wf|].
    destruct (is_file name' (entry m i)) eqn:E; [|done]. exfalso. apply Hne. eapply is_file_same_name; [apply Hfm|done].
Qed.

Context (CACHE RD : nat) (reset : bool).
Hypothesis RD_pos : (0 < RD)%nat.

Local Notation FS := (fs_state S).
Local Notation OP := (op_state S).
Local Notation fs_ok := (fs_ok CACHE RD).
Local Notation searched := (searched CACHE RD).
Local Notation moved := (moved CACHE RD).
Local Notation op_done := (op_done CACHE RD).

(** The search of a file that exists. *)
Lemma read_fat_hit n b i (o : OP) :
  fs_ok (op_fs o) n b -> first_match (fh_filename (op_fh o)) (img (op_fs o)) n i ->
  wp (read_fat CACHE RD reset false) (fun r o' => fs_same (op_fs o) (op_fs o') /\ calm r /\ fs_ok (op_fs o') n b /\ named_like (op_fh o) (op_fh o') /\
    (r = ROk tt -> op_fh o' = set_entry_at (entry (img (op_fs o)) i) (entry_addr i) (op_fh o))) o.
Proof.
  intros Hok Hfm. eapply wp_mono; [by apply (read_fat_plain CACHE RD reset RD_pos n b)|]. intros r o' (Hs & Hc & _ & Hok' & Hr).
  destruct r as [[]|e|]; [|by rewrite Hr|done]. destruct Hr as [(i' & Hfm' & ->)|(Hno & _)].
  - by rewrite (first_match_unique _ _ _ _ _ Hfm' Hfm).
  - destruct Hfm as [H1 H2 _]. rewrite Hno in H2 by done. done.
Qed.

(** ** Reading *)

Lemma fs_read_spec n b i pos len (o : OP) :
  fs_ok (op_fs o) n b -> layout (img (op_fs o)) n -> first_match (fh_filename (op_fh o)) (img (op_fs o)) n i -> 0 <= pos -> 0 <= len ->
  let m := img (op_fs o) in let u := fh_uuid (op_fh o) in
  wp (rpmb_fs_read CACHE RD reset pos len) (fun r o' => fs_same (op_fs o) (op_fs o') /\ calm r /\ fs_ok (op_fs o') n b /\ named_like (op_fh o) (op_fh o') /\
    forall d, r = ROk d -> d = slice (Z.to_nat pos) (Z.to_nat len) (fdata u m (entry m i))) o.
Proof.
  intros Hok Hly Hfm Hpos Hlen m u. assert (Hl := fl_dev _ _ (fo_len _ _ (fk_fat _ _ _ _ _ Hok))). fold m in Hl.
  assert (Hmw : blocks_wf m) by (apply dl_wf, Hok). assert (Hi := fm_lt _ _ _ _ Hfm).
  assert (Hwfe : fe_wf (entry m i)) by (apply entry_wf; [done|lia]).
  assert (Hdev : 0 < fe_data_size (entry m i) -> on_device m (entry m i)) by (intros Hp; apply (ly_dev _ _ Hly); [done|by apply used_of; [eapply match_active|]]).
  pose proof (fdata_length u m (entry m i) Hmw Hwfe Hdev) as Hdl.
  assert (Hsz := mo_size _ _ (fk_mounted _ _ _ _ _ Hok)). fold m in Hsz. destruct (fw_start _ Hwfe), (fw_size _ Hwfe).
  assert (Hnil : forall p l (d : bytes), (length d <= p)%nat \/ l = 0%nat -> slice p l d = []).
  { intros p l d [?| ->]; [|done]. unfold slice. rewrite drop_ge by done. apply take_nil. }
  unfold rpmb_fs_read. destruct (Z.eqb_spec len 0) as [->|Hne].
  { apply wp_ret. split_and!; [by apply fs_same_refl, Hok|done|done|done|]. by intros d [= <-]. }
  eapply wp_seq; [by apply (read_fat_hit n b i)|]. intros r o1 (Hs1 & Hc1 & Hok1 & Hn1 & Hr1).
  destruct r as [[]|e|]; cbn [cont]; [|by split_and!; destruct Hn1|done]. specialize (Hr1 eq_refl).
  apply wp_bind, wp_gets. cbn [cont]. rewrite Hr1. cbn [set_entry_at fh_fat_entry fh_uuid]. fold m u.
  destruct (Z.leb_spec (fe_data_size (entry m i)) pos) as [Hle|Hlt].
  { apply wp_ret. destruct Hn1. split_and!; try done. intros d [= <-]. symmetry. apply Hnil. left. lia. }
  specialize (Hdev ltac:(lia)). unfold on_device in Hdev. set (size := Z.min len (fe_data_size (entry m i) - pos)).
  destruct (Z.eqb_spec size 0); [subst size; lia|]. rewrite !u32_small by (unfold is_u32; subst size; lia).
  apply wp_on_fs. eapply wp_mono; [apply on_dev_same, (dl_read (fe_start_address (entry m i) + pos) size (Some (fe_fek (entry m i), u)));
    [apply Hok1|lia|subst size; lia|subst size; lia]|].
  intros r f (Hs2 & Ed2 & Hc2 & Hr2). assert (Hs : fs_same (op_fs o) f) by (by etransitivity).
  cbn [op_fs op_fh]. split_and!; [done|done|eapply fs_ok_same; [exact Hs2|rewrite Ed2; apply Hok1|done]|apply Hn1|].
  intros d ->. destruct (Hr2 d eq_refl) as (_ & _ & _ & ->). fold (img (op_fs o1)). rewrite (fs_same_img _ _ Hs1). fold m.
  unfold fdata. unfold slice at 3. assert (Hsl : Z.to_nat size = Nat.min (Z.to_nat len) (Z.to_nat (fe_data_size (entry m i)) - Z.to_nat pos)%nat) by (subst size; lia).
  rewrite Hsl, Z2Nat.inj_add by lia. unfold slice. rewrite skipn_firstn_comm, take_take, drop_drop. done.
Qed.

(** ** Truncating *)

Lemma extent_shrink_ok m n i l :
  fat_ok m n -> layout m n -> (i < n - 1)%nat -> fe_wf (entry m i) -> is_active (entry m i) = true -> 0 <= l <= fsize m i ->
  new_entry_ok m n i (set_extent (fstart m i) l (entry m i)).
Proof.
  intros Hf [L1 L2 L3] Hi Hwf Ha Hl. assert (Hu : 0 < l -> used (entry m i) = true) by (intros ?; apply used_of; [done|unfold fsize in Hl; lia]).
  destruct (fw_start _ Hwf), (fw_size _ Hwf). unfold fsize in Hl.
  apply set_extent_ok; [done|by eapply inner_not_last|done|unfold is_u32; lia|]. intros Hp. specialize (Hu Hp). split_and!.
  - intros j Hj Hne Huj. apply apart_sym. eapply apart_sub; [| |apply L1; [exact Hj|exact (Nat.lt_le_trans _ _ _ Hi (Nat.le_sub_l n 1))|done|done|done]]; unfold fstart, fsize; lia.
  - apply apart_sym. eapply apart_sub; [| |apply apart_sym, (L2 i); [lia|done]]; unfold fsize; lia.
  - specialize (L3 i ltac:(lia) Hu). unfold on_device in L3. unfold fstart. lia.
Qed.

Lemma fdata_shrink u m e l : 0 <= l <= fe_data_size e -> fdata u m (set_extent (fe_start_address e) l e) = take (Z.to_nat l) (fdata u m e).
Proof. intros Hl. unfold fdata, slice. cbn [set_extent fe_start_address fe_data_size fe_fek]. rewrite take_take. f_equal. lia. Qed.

(** The file becomes larger: a copy, and zeros after it. *)
Lemma truncate_copy mx n i newsize (o o1 : OP) :
  searched mx n n i o o1 -> let m := img (op_fs o) in let u := fh_uuid (op_fh o) in let old := fdata u m (entry m i) in
  fe_data_size (entry m i) < newsize -> newsize <= INT32_MAX ->
  wp (mm ← pool_alloc newsize;
      nb ← try_ (on_fs (on_dev dev_alloc));
      match mm, nb with
      | Some newaddr, inr _ =>
          fh ← gets op_fh;
          let e := fh_fat_entry fh in
          let k := Some (fe_fek e, fh_uuid fh) in
          let newbuf := replicate (Z.to_nat newsize) 0 in
          newbuf ← (if negb (fe_data_size e =? 0) then
                      d ← on_fs (on_dev (dev_read (fe_start_address e) (fe_data_size e) k)); mret (splice 0 d newbuf)
                    else mret newbuf);
          on_fs (on_dev (dev_write (u32 newaddr) newbuf k)) ;;
          upd_fh (fun fh => set_fat_entry (set_extent (u32 newaddr) newsize (fh_fat_entry fh)) fh) ;;
          write_fat_entry CACHE true
      | _, _ => throw TEE_ERROR_OUT_OF_MEMORY
      end) (op_done n n u i old (resize (Z.to_nat newsize) 0 old) o) o1.
Proof.
  intros Hse m u old Hlt Hmax. pose proof Hse as Hse0. destruct Hse0 as [Hok0 Hly Hi Hact Hmx Hok Hh Hp Hfh Hla Hfat].
  fold m in Hly, Hact, Hfh, Hla. assert (Him : img (op_fs o1) = m) by (unfold m, img; by rewrite Hh).
  assert (Hmw : blocks_wf m) by (apply dl_wf, Hok0). assert (Hl := fl_dev _ _ (fo_len _ _ (fk_fat _ _ _ _ _ Hok0))). fold m in Hl.
  assert (Hwfe : fe_wf (entry m i)) by (apply entry_wf; [done|lia]). destruct (fw_start _ Hwfe), (fw_size _ Hwfe). unfold INT32_MAX in Hmax.
  assert (Hdev : 0 < fe_data_size (entry m i) -> on_device m (entry m i)) by (intros Hp'; apply (ly_dev _ _ Hly); [lia|by apply used_of]).
  pose proof (fdata_length u m (entry m i) Hmw Hwfe Hdev) as Hol. fold old in Hol.
  assert (Hsz := mo_size _ _ (fk_mounted _ _ _ _ _ Hok0)). fold m in Hsz.
  eapply wp_seq; [apply (pool_alloc_spec mx); [apply Hok|apply Hla|lia]|].
  intros r [f fh p2] (Hs2 & Ed2 & Eh2 & Hr2). cbn [op_fs op_fh] in *. subst fh. destruct r as [mm|er|]; cbn [cont]; [|done|done].
  apply wp_bind, wp_try, wp_on_fs. cbn [op_fs op_fh op_pool]. eapply wp_mono; [by eapply alloc_same, fs_same_inv|]. intros r f3 (Hs3 & Ed3 & Hc3).
  assert (Hs3' : fs_same (op_fs o1) f3) by (by etransitivity). assert (Ed3' : fs_dir f3 = fs_dir (op_fs o1)) by congruence.
  assert (Hfail : forall p e, e <> TEE_SUCCESS -> op_done n n u i old (resize (Z.to_nat newsize) 0 old) o (RErr e) (mk_op f3 (op_fh o1) p)) by (intros; by eapply searched_fail).
  destruct mm as [a|]; [|by destruct r as [[]| |]; cbn [cont]; [apply Hfail|apply Hfail|]].
  destruct r as [[]|er|]; cbn [cont]; [|by apply Hfail|done]. destruct Hr2 as (Ha & Hin & Hap).
  destruct (searched_same CACHE RD _ _ _ _ _ _ _ Hse Hs3' Ed3') as (Hok3 & Hh3 & Hp3). assert (Him3 : img f3 = m) by (unfold m, img; by rewrite Hh3).
  apply wp_bind, wp_gets. cbn [cont op_fh]. rewrite Hfh. cbn [set_entry_at fh_fat_entry fh_uuid]. fold u. set (k := Some (fe_fek (entry m i), u)).
  assert (Hres : resize (Z.to_nat newsize) 0 old = splice 0 old (replicate (Z.to_nat newsize) 0)).
  { rewrite resize_spec, take_ge by lia. unfold splice. cbn [take app]. by rewrite drop_replicate, Nat.add_0_l. }
  eapply (wp_seq _ _ (fun r o4 => calm r /\ fs_same f3 (op_fs o4) /\ fs_dir (op_fs o4) = fs_dir f3 /\ op_fh o4 = op_fh o1 /\ forall b, r = ROk b -> b = resize (Z.to_nat newsize) 0 old)).
  { destruct (Z.eqb_spec (fe_data_size (entry m i)) 0) as [Hz|Hz]; cbn [negb].
    - apply wp_ret. split_and!; [done|by apply fs_same_refl, Hok3|done|done|]. intros b [= <-]. rewrite Hres, (nil_length_inv old) by lia. done.
    - specialize (Hdev ltac:(lia)). unfold on_device in Hdev. apply wp_bind, wp_on_fs. cbn [op_fs].
      eapply wp_mono; [apply on_dev_same, (dl_read (fe_start_address (entry m i)) (fe_data_size (entry m i)) k); [apply Hok3|lia|lia|lia]|].
      intros r f4 (Hs4 & Ed4 & Hc4 & Hr4). destruct r as [d|er|]; cbn [cont]; [|by split_and!|done]. apply wp_ret. split_and!; try done.
      intros b [= <-]. rewrite Hres. f_equal. destruct (Hr4 d eq_refl) as (_ & _ & _ & ->). fold (img f3). by rewrite Him3. }
  intros r [f4 h4 p4] (Hc4 & Hs4 & Ed4 & Eh4 & Hb4). cbn [op_fs op_fh] in *. subst h4.
  assert (Hs4' : fs_same (op_fs o1) f4) by (by etransitivity). assert (Ed4' : fs_dir f4 = fs_dir (op_fs o1)) by congruence.
  destruct r as [b|er|]; cbn [cont]; [|by eapply searched_fail|done]. specialize (Hb4 b eq_refl). subst b.
  destruct (searched_same CACHE RD _ _ _ _ _ _ _ Hse Hs4' Ed4') as (Hok4 & Hh4 & Hp4). assert (Him4 : img f4 = m) by (unfold m, img; by rewrite Hh4).
  set (new := resize (Z.to_nat newsize) 0 old) in *. assert (Hnl : length new = Z.to_nat newsize) by apply length_resize.
  rewrite (u32_small a) by (unfold is_u32; lia). apply wp_bind, wp_on_fs. cbn [op_fs].
  eapply wp_mono; [apply (data_write a newsize a new k f4); [apply Hok4|lia|lia|lia|lia|by destruct new; [cbn in Hnl; lia|]|]|].
  { subst new. rewrite Hres. apply splice_bytes; [by apply fdata_bytes|apply zeros_bytes]. }
  intros r f5 (W1 & W2 & W3 & W4 & W5 & ms & W6 & W7 & W8 & _ & W9 & _). rewrite Him4 in *.
  assert (Hmv : moved mx n i a newsize o o1 ms (mk_op f5 (op_fh o1) p4)).
  { split; cbn [op_fs op_fh]; try done; [lia|apply W3, Hok4|congruence|congruence|by rewrite W6, Hh4]. }
  destruct r as [[]|er|]; cbn [cont op_fh op_pool]; [|by eapply moved_fail|done]. destruct (W9 eq_refl) as (Hal & Hle & Hv).
  assert (is_u32 a /\ is_u32 newsize) as [Hua Hul] by (unfold is_u32; lia). assert (Hlen : length (img f5) = length m) by apply W8.
  eapply (moved_entry CACHE RD RD_pos); try done; cbn [op_fs]; [lia|]. fold m u. fold k. rewrite Hv, <- Hnl.
  apply slice_splice_same. rewrite blocks_concat_length by (by apply dl_view_wf). rewrite dl_view_length. unfold RPMB_DATA_SIZE. lia.
Qed.

Lemma truncate_done mx n i len (o : OP) :
  fs_ok (op_fs o) n n -> layout (img (op_fs o)) n -> max_block (op_fs o) mx -> first_match (fh_filename (op_fh o)) (img (op_fs o)) n i -> 0 <= len ->
  let m := img (op_fs o) in let u := fh_uuid (op_fh o) in let old := fdata u m (entry m i) in
  wp (rpmb_fs_truncate CACHE RD reset len) (op_done n n u i old (resize (Z.to_nat len) 0 old) o) o.
Proof.
  intros Hok Hly Hmb Hfm Hlen m u old. assert (Hact := match_active _ _ _ _ Hfm). assert (Hi := active_not_last _ _ _ (fk_fat _ _ _ _ _ Hok) (fm_lt _ _ _ _ Hfm) Hact).
  assert (Hmw : blocks_wf m) by (apply dl_wf, Hok). assert (Hl := fl_dev _ _ (fo_len _ _ (fk_fat _ _ _ _ _ Hok))). fold m in Hl.
  assert (Hwfe : fe_wf (entry m i)) by (apply entry_wf; [done|lia]).
  unfold rpmb_fs_truncate. apply wp_bind, wp_guard; intros G; cbn [cont].
  2: { apply op_done_fail; try done; [apply Hok|by right]. }
  apply Z.leb_le in G. eapply wp_seq; [by apply (read_fat_hit n n i)|]. intros r o1 (Hs1 & Hc1 & Hok1 & Hn1 & Hr1).
  pose proof Hs1 as Hs0. destruct Hs0 as [[D1 D2 D3 D4] D5]. destruct r as [[]|e|]; cbn [cont]; [|by apply op_done_fail; try done; right|done].
  specialize (Hr1 eq_refl). apply wp_bind, wp_gets. cbn [cont]. rewrite Hr1. cbn [set_entry_at fh_fat_entry]. fold m.
  destruct (Z.ltb_spec (fe_data_size (entry m i)) len) as [Hlt|Hge].
  - apply (wp_pool_op CACHE RD reset RD_pos mx); try done. intros o2 Hse. by apply (truncate_copy mx).
  - apply wp_bind, wp_modify. cbn [cont]. rewrite Hr1. cbn [set_entry_at set_fat_entry fh_fat_entry]. fold m.
    pose proof (fs_same_img _ _ Hs1) as Him. fold m in Him.
    apply (op_done_entry CACHE RD RD_pos n n u i (set_extent (fe_start_address (entry m i)) len (entry m i)) _ o _ []); cbn [op_fs op_fh]; try done; rewrite ?app_nil_r, ?Him; try done.
    + apply D2, Hok.
    + rewrite D4. apply Hok.
    + by intros m' ?%elem_of_nil.
    + by apply file_unchanged; [|apply Hok|].
    + apply extent_shrink_ok; [apply Hok|done|done|done|done|]. unfold fsize. lia.
    + rewrite fdata_shrink by lia. fold old. assert (Hol : Z.of_nat (length old) = fe_data_size (entry m i)).
      { apply fdata_length; [done|done|]. intros Hp. apply (ly_dev _ _ Hly); [lia|by apply used_of]. }
      symmetry. apply resize_le. lia.
Qed.

(** ** Writing one entry, removing *)

(** One entry is written; [m] is the image before, [h] the images up to it. *)
Record entry_done (n b i : nat) (e : rpmb_fat_entry) (m : image) (h : list image) (r : rres unit) (s s' : FS) : Prop := {
  ed_calm : calm r;
  ed_inv : dl_inv (fs_dev s');
  ed_par : fs_par s' = fs_par s;
  ed_hist : exists ms, dl_hist (fs_dev s') = h ++ ms /\ (forall m', m' ∈ ms -> m' = put_entry m i e) /\
    match r with
    | ROk _ => fs_ok s' n b /\ img s' = put_entry m i e
    | _ => dl_dead (fs_dev s') = true \/ ms = [] /\ fs_ok s' n b
    end;
}.

Lemma write_entry_done n b i (o : OP) :
  fs_ok (op_fs o) n b -> layout (img (op_fs o)) n -> (i < n - 1)%nat -> fh_rpmb_fat_address (op_fh o) = entry_addr i ->
  new_entry_ok (img (op_fs o)) n i (fh_fat_entry (op_fh o)) ->
  wp (write_fat_entry CACHE false) (fun r o' => op_fh o' = op_fh o /\
    entry_done n b i (fh_fat_entry (op_fh o)) (img (op_fs o)) (dl_hist (fs_dev (op_fs o))) r (op_fs o) (op_fs o')) o.
Proof.
  intros Hok Hly Hi Ha Hne. assert (Hb := fk_le _ _ _ _ _ Hok). assert (Hsz := mo_size _ _ (fk_mounted _ _ _ _ _ Hok)).
  assert (Hl := fl_dev _ _ (fo_len _ _ (fk_fat _ _ _ _ _ Hok))).
  eapply wp_mono; [apply (write_fat_entry_wrote CACHE RD RD_pos i false o); [apply Hok|done|apply Hne|lia]|].
  intros r o' (_ & c & Hwf & Hfh & _ & [W1 W2 W3 W4 (ms & W5 & W6 & W7)]). cbv zeta in *. split.
  { by destruct Hfh as [-> | ->]; destruct (op_fh o). }
  destruct (fat_put_ok _ _ _ _ (fk_fat _ _ _ _ _ Hok) Hly Hi Hne) as [Hf' Hly']. split; try done. exists ms. split_and!; [done|done|].
  destruct r as [[]|er|]; [| |done].
  - destruct W7 as (T1 & T2 & T3 & T4). assert (Him : img (op_fs o') = put_entry (img (op_fs o)) i (fh_fat_entry (op_fh o))) by done. split; [|done].
    eapply (fs_ok_intro CACHE RD (op_fs o)); try done; [apply W3, Hok|rewrite Him; apply length_insert|by rewrite Him|].
    rewrite Him, T4. replace b with (Nat.max b (i + 1)) by lia. apply upd_dir_ok; [done|done|done|lia|apply Hok].
  - destruct W7 as (T1 & [?| ->]); [by left|]. destruct (dl_dead (fs_dev (op_fs o'))) eqn:Ed; [by left|right]. split; [done|].
    rewrite app_nil_r in W5. assert (Him : img (op_fs o') = img (op_fs o)) by (unfold img; by rewrite W5).
    eapply (fs_ok_intro CACHE RD (op_fs o)); try done; [apply W3, Hok|by rewrite Him|rewrite Him; apply Hok|rewrite Him, T1; apply Hok].
Qed.

Lemma remove_internal_done n b i (o : OP) :
  fs_ok (op_fs o) n b -> layout (img (op_fs o)) n -> first_match (fh_filename (op_fh o)) (img (op_fs o)) n i ->
  wp (rpmb_fs_remove_internal CACHE RD reset) (fun r o' => named_like (op_fh o) (op_fh o') /\
    entry_done n b i zero_fe (img (op_fs o)) (dl_hist (fs_dev (op_fs o))) r (op_fs o) (op_fs o')) o.
Proof.
  intros Hok Hly Hfm. assert (Hi := active_not_last _ _ _ (fk_fat _ _ _ _ _ Hok) (fm_lt _ _ _ _ Hfm) (match_active _ _ _ _ Hfm)).
  unfold rpmb_fs_remove_internal. eapply wp_seq; [by apply (read_fat_hit n b i)|]. intros r o1 (Hs1 & Hc1 & Hok1 & Hn1 & Hr1).
  pose proof (fs_same_img _ _ Hs1) as Him. destruct Hs1 as [[D1 D2 D3 D4] D5]. destruct r as [[]|e|]; cbn [cont]; [| |done].
  2: { split; [done|]. split; try done. exists []. rewrite app_nil_r. split_and!; [done|by intros m' ?%elem_of_nil|by right]. }
  apply wp_bind, wp_modify. cbn [cont]. specialize (Hr1 eq_refl). rewrite Hr1. eapply wp_mono; [apply (write_entry_done n b i); cbn [op_fs op_fh]; try done|].
  - by rewrite Him.
  - cbn [set_fat_entry fh_fat_entry]. apply zero_entry_ok.
  - intros r o2 [E1 [F1 F2 F3 F4]]. cbn [op_fs op_fh set_fat_entry fh_fat_entry] in *. rewrite Him, D3 in F4. rewrite E1. split; [done|]. split; try done. congruence.
Qed.
End ops.
