(* ===== verification/RpmbFsNames.v ===== *)
(** * Names of objects and of their files

    The file of an object is [/<UUID of the TA>/<identifier>], both in hexadecimal, with a dot before the
    identifier of an object that is being created. Different objects have different files, and
    from the names of the files below the directory of a TA the identifiers are got back. *)

From S2P Require Import Prelude TeeMm Pobj ErrM Cipher CipherModes FsKey Rpmb RpmbSpec RpmbDev RpmbBlocks RpmbFat RpmbFs RpmbFatSpec RpmbFatFind RpmbFsData RpmbFsWrite RpmbFsOps.
From stdpp Require Import base list sets.
From Stdlib Require Import ZArith Lia.

Local Open Scope Z_scope.

(** ** Hexadecimal digits *)

Definition hex (b : bytes) : bytes := concat (map (fun x => [tee_b2hs_add_base (Z.shiftr x 4); tee_b2hs_add_base (Z.land x 15)]) b).

Lemma nibbles x : is_byte x -> 0 <= Z.shiftr x 4 < 16 /\ 0 <= Z.land x 15 < 16 /\ x = Z.shiftl (Z.shiftr x 4) 4 + Z.land x 15.
Proof.
  unfold is_byte. intros Hx. change 15 with (Z.ones 4). rewrite Z.land_ones, Z.shiftr_div_pow2, Z.shiftl_mul_pow2 by lia. change (2 ^ 4) with 16.
  Z.div_mod_to_equations. lia.
Qed.

(** A digit is one of [0-9A-F], and its value is got back. *)
Lemma digit_roundtrip d : 0 <= d < 16 -> tee_hs2b_rem_base (tee_b2hs_add_base d) = Some d /\ tee_b2hs_add_base d <> 0 /\ tee_b2hs_add_base d <> 46 /\ tee_b2hs_add_base d <> 47.
Proof.
  intros Hd. unfold tee_b2hs_add_base, tee_hs2b_rem_base. destruct (Z.gtb_spec d 9).
  - replace (d + 55 <? 48) with false by lia. replace (d + 55 >? 70) with false by lia. replace (d + 55 <? 65) with false by lia.
    rewrite andb_false_r. replace (d + 55 <? 58) with false by lia. split_and!; [|lia|lia|lia]. cbn. f_equal. lia.
  - replace (d + 48 <? 48) with false by lia. replace (d + 48 >? 70) with false by lia. replace (d + 48 >? 57) with false by lia.
    replace (d + 48 <? 58) with true by lia. split_and!; [|lia|lia|lia]. cbn. f_equal. lia.
Qed.

Lemma hex_cons x b : hex (x :: b) = tee_b2hs_add_base (Z.shiftr x 4) :: tee_b2hs_add_base (Z.land x 15) :: hex b.
Proof. done. Qed.
Lemma hex_length b : length (hex b) = (2 * length b)%nat.
Proof. induction b as [|x b IH]; [done|]. rewrite hex_cons. cbn [length]. lia. Qed.
Lemma hex_digits b : Forall is_byte b -> Forall (fun x => x <> 0 /\ x <> 46 /\ x <> 47) (hex b).
Proof.
  induction 1 as [|x b Hx Hb IH]; [constructor|]. rewrite hex_cons. destruct (nibbles x Hx) as (H1 & H2 & _).
  repeat constructor; try apply (digit_roundtrip _ H1); try apply (digit_roundtrip _ H2). done.
Qed.
Lemma hex_bytes b : Forall is_byte b -> Forall is_byte (hex b).
Proof.
  induction 1 as [|x b Hx Hb IH]; [constructor|]. rewrite hex_cons. destruct (nibbles x Hx) as (H1 & H2 & _).
  unfold tee_b2hs_add_base. repeat constructor; [| | | |done]; repeat case_match; lia.
Qed.

Lemma b2hs_hex b hslen : Z.of_nat (length b) * 2 + 1 <= hslen -> tee_b2hs b hslen = (Z.of_nat (length b) * 2, hex b ++ [0]).
Proof. intros H. unfold tee_b2hs. destruct (Z.gtb_spec (Z.of_nat (length b) * 2 + 1) hslen); [lia|done]. Qed.

Lemma hs2b_loop_hex b r : Forall is_byte b -> hs2b_loop (length b) (hex b ++ r) = Some b.
Proof.
  induction 1 as [|x b Hx Hb IH]; [done|]. rewrite hex_cons. cbn [length hs2b_loop app nth drop]. destruct (nibbles x Hx) as (H1 & H2 & H3).
  rewrite (proj1 (digit_roundtrip _ H1)), (proj1 (digit_roundtrip _ H2)). rewrite drop_0, IH. do 2 f_equal.
  unfold u8. rewrite <- H3. unfold is_byte in Hx. rewrite Z.mod_small by lia. done.
Qed.

Lemma hs2b_hex b r : Forall is_byte b -> Z.of_nat (length b) <= TEE_OBJECT_ID_MAX_LEN ->
  tee_hs2b (hex b ++ r) (Z.of_nat (length (hex b))) TEE_OBJECT_ID_MAX_LEN = b.
Proof.
  intros Hb Hl. unfold tee_hs2b. rewrite hex_length, Z.shiftr_div_pow2 by lia. change (2 ^ 1) with 2.
  replace ((Z.of_nat (2 * length b) + 1) / 2) with (Z.of_nat (length b)) by (Z.div_mod_to_equations; lia).
  destruct (Z.gtb_spec (Z.of_nat (length b)) TEE_OBJECT_ID_MAX_LEN); [lia|]. by rewrite Nat2Z.id, hs2b_loop_hex.
Qed.

Lemma hex_inj b b' : Forall is_byte b -> Forall is_byte b' -> hex b = hex b' -> b = b'.
Proof.
  intros Hb Hb' E. assert (Hl : length b = length b') by (apply (f_equal length) in E; rewrite !hex_length in E; lia).
  pose proof (hs2b_loop_hex b [] Hb) as H. rewrite E, Hl, hs2b_loop_hex in H by done. by injection H.
Qed.

(** ** Strings *)

Lemma c_str_app s r : Forall (fun x => x <> 0) s -> c_str (s ++ 0 :: r) = s.
Proof. induction 1 as [|x s Hx Hs IH]; [done|]. cbn. apply Z.eqb_neq in Hx. by rewrite Hx, IH. Qed.
Lemma c_str_nonzero b : Forall (fun x => x <> 0) (c_str b).
Proof. induction b as [|x b IH]; cbn; [constructor|]. destruct (Z.eqb_spec x 0); by constructor. Qed.
Lemma c_str_bytes b : Forall is_byte b -> Forall is_byte (c_str b).
Proof. induction 1; cbn; [constructor|]. case_match; by constructor. Qed.
Lemma c_str_full s : Forall (fun x => x <> 0) s -> c_str s = s.
Proof. induction 1 as [|x s Hx Hs IH]; [done|]. cbn. apply Z.eqb_neq in Hx. by rewrite Hx, IH. Qed.

Lemma put_app pre s rest p : p = Z.of_nat (length pre) -> put_str p s (pre ++ rest) = pre ++ s ++ drop (length s) rest.
Proof. intros ->. unfold put_str, splice. rewrite Nat2Z.id, take_app_length. f_equal. f_equal. rewrite drop_app_ge by lia. f_equal. lia. Qed.

(** The string survives the copy into the entry. *)
Lemma name_field_ok name :
  Forall is_byte name -> (length (c_str name) <= TEE_RPMB_FS_FILENAME_LENGTH)%nat ->
  length (name_field name) = TEE_RPMB_FS_FILENAME_LENGTH /\ Forall is_byte (name_field name) /\ c_str (name_field name) = c_str name.
Proof.
  intros Hb Hl. unfold name_field, splice, empty_name. rewrite take_0, app_nil_l, Nat.add_0_l, drop_replicate. split_and!.
  - rewrite length_app, length_replicate. lia.
  - apply Forall_app. split; [by apply c_str_bytes|apply zeros_bytes].
  - destruct (TEE_RPMB_FS_FILENAME_LENGTH - length (c_str name))%nat as [|k]; cbn [replicate].
    + rewrite app_nil_r. apply c_str_full, c_str_nonzero.
    + apply c_str_app, c_str_nonzero.
Qed.

(** ** The names of objects *)

Record po_wf (po : tee_pobj) : Prop := {
  pw_uuid : length (po_uuid po) = 16%nat /\ Forall is_byte (po_uuid po);
  pw_id : Z.of_nat (length (po_obj_id po)) <= TEE_OBJECT_ID_MAX_LEN /\ Forall is_byte (po_obj_id po);
}.

Definition dir_path (uuid : bytes) : bytes := 47 :: hex uuid ++ [47].
Definition obj_path (po : tee_pobj) (transient : bool) : bytes := dir_path (po_uuid po) ++ (if transient then [46] else []) ++ hex (po_obj_id po).

Lemma create_filename_path po t buf :
  po_wf po -> (length (obj_path po t) < length buf)%nat ->
  tee_svc_storage_create_filename buf po t = Some (obj_path po t ++ 0 :: drop (Datatypes.S (length (obj_path po t))) buf).
Proof.
  intros [[Hul _] _] Hlen. unfold obj_path, dir_path in *. cbn [app] in *. rewrite <- app_assoc in *. cbn [app] in *.
  assert (Hn : Z.of_nat (length ((if t then [46] else []) : bytes)) = if t then 1 else 0) by (by destruct t).
  cbn [length] in Hlen. rewrite !length_app in Hlen. cbn [length] in Hlen. rewrite length_app, !hex_length, Hul in Hlen.
  unfold tee_svc_storage_create_filename. set (k := length (po_obj_id po)) in *.
  set (hslen := if t then _ else _). assert (Hh : hslen = 36 + 2 * Z.of_nat k + (if t then 1 else 0) - 1) by (subst hslen; destruct t; lia).
  rewrite (proj2 (Z.ltb_ge (Z.of_nat (length buf)) hslen)) by (destruct t; cbn [length] in *; lia).
  rewrite (b2hs_hex (po_uuid po)) by (rewrite Hul; destruct t; lia). cbv zeta. rewrite Hul.
  rewrite (put_app ([] : bytes) [47] buf) by done. cbn [app length]. change (47 :: drop 1 buf) with ([47] ++ drop 1 buf).
  rewrite (put_app [47] (hex (po_uuid po) ++ [0])) by done. rewrite length_app, hex_length, Hul. cbn [length]. rewrite drop_drop.
  rewrite <- app_assoc. rewrite (app_assoc [47]). rewrite (put_app ([47] ++ hex (po_uuid po)) [47]) by (rewrite length_app, hex_length, Hul; done).
  cbn [length app drop]. change (1 + Z.of_nat 16 * 2 + 1) with 34. rewrite drop_0.
  set (pre := 47 :: hex (po_uuid po) ++ [47]). assert (Hpre : length pre = 34%nat) by (subst pre; cbn [length]; rewrite length_app, hex_length, Hul; done).
  replace (47 :: hex (po_uuid po) ++ 47 :: drop (1 + (2 * 16 + 1)) buf) with (pre ++ drop 34 buf) by (subst pre; cbn; by rewrite <- app_assoc).
  destruct t; cbn [app].
  - rewrite (put_app pre [46]) by (rewrite Hpre; done). cbn [length]. rewrite drop_drop. rewrite (b2hs_hex (po_obj_id po)) by (fold k; lia).
    change (pre ++ [46] ++ drop (34 + 1) buf) with (pre ++ [46] ++ drop 35 buf). rewrite (app_assoc pre [46]).
    rewrite (put_app (pre ++ [46])) by (rewrite length_app, Hpre; done). rewrite drop_drop, length_app, hex_length. subst pre. f_equal. (match goal with |- context [drop (Datatypes.S ?x) buf] => match goal with |- context [drop (?y + ?z) buf] =>
      replace (Datatypes.S x) with (y + z)%nat by (repeat (rewrite length_app || cbn [length]); rewrite !hex_length, Hul; fold k; lia) end end);
      repeat (cbn [app]; rewrite <- app_assoc); done.
  - rewrite (b2hs_hex (po_obj_id po)) by (fold k; lia). rewrite (put_app pre) by (rewrite Hpre; done). rewrite drop_drop, length_app, hex_length. subst pre. f_equal. (match goal with |- context [drop (Datatypes.S ?x) buf] => match goal with |- context [drop (?y + ?z) buf] =>
      replace (Datatypes.S x) with (y + z)%nat by (repeat (rewrite length_app || cbn [length]); rewrite !hex_length, Hul; fold k; lia) end end);
      repeat (cbn [app]; rewrite <- app_assoc); done.
Qed.

Lemma obj_path_length po t : po_wf po -> (length (obj_path po t) = 34 + (if t then 1 else 0) + 2 * length (po_obj_id po))%nat.
Proof.
  intros [[Hu _] _]. unfold obj_path, dir_path. rewrite length_app. cbn [length]. rewrite !length_app, !hex_length, Hu. cbn [length]. destruct t; cbn [length]; lia.
Qed.
Lemma obj_path_nonzero po t : po_wf po -> Forall (fun x => x <> 0) (obj_path po t).
Proof.
  intros [[_ Hu] [_ Hi]]. unfold obj_path, dir_path. pose proof (hex_digits _ Hu) as H1. pose proof (hex_digits _ Hi) as H2.
  apply Forall_app. split; [constructor; [done|]; apply Forall_app; split; [|by repeat constructor]|apply Forall_app; split; [by destruct t; repeat constructor|]];
    (eapply Forall_impl; [eassumption|]); by intros x [? _].
Qed.

(** The name in a handle. *)
Lemma file_name_ok po t :
  po_wf po -> let name := file_name empty_name po t in
  c_str name = obj_path po t /\ length name = TEE_RPMB_FS_FILENAME_LENGTH /\ Forall is_byte name /\ (length (c_str name) < TEE_RPMB_FS_FILENAME_LENGTH)%nat.
Proof.
  intros Hpo name. pose proof (obj_path_length po t Hpo) as Hl. assert (Hlt : (length (obj_path po t) < TEE_RPMB_FS_FILENAME_LENGTH)%nat).
  { destruct Hpo as [_ [Hi _]]. unfold TEE_OBJECT_ID_MAX_LEN in Hi. unfold TEE_RPMB_FS_FILENAME_LENGTH. destruct t; lia. }
  assert (E : name = obj_path po t ++ 0 :: drop (Datatypes.S (length (obj_path po t))) empty_name).
  { unfold name, file_name. rewrite create_filename_path; [done|done|]. unfold empty_name. by rewrite length_replicate. }
  assert (Hc : c_str name = obj_path po t) by (rewrite E; by apply c_str_app, obj_path_nonzero). split_and!; [done| | |by rewrite Hc].
  - rewrite E, length_app. cbn [length]. rewrite length_drop. unfold empty_name. rewrite length_replicate. lia.
  - rewrite E. destruct Hpo as [[_ Hu] [_ Hi]]. apply Forall_app. split; [|constructor; [done|]].
    + unfold obj_path, dir_path. apply hex_bytes in Hu, Hi. assert (Ht : Forall is_byte ((if t then [46] else []) : bytes)) by (destruct t; by repeat constructor).
      apply Forall_app. split; [constructor; [done|]|]; (apply Forall_app; split; [done|]); [by repeat constructor|done].
    + unfold empty_name. rewrite drop_replicate. apply zeros_bytes.
Qed.

Lemma app_cut {A} (a b a' b' : list A) : a ++ b = a' ++ b' -> length a = length a' -> a = a' /\ b = b'.
Proof. intros E Hl. by apply app_inj_1 in E. Qed.

(** Different objects, and an object and one that is being created, have different files. *)
Lemma obj_path_inj po po' t t' :
  po_wf po -> po_wf po' -> obj_path po t = obj_path po' t' -> po_uuid po = po_uuid po' /\ po_obj_id po = po_obj_id po' /\ t = t'.
Proof.
  intros [[Hu1 Hu2] [Hi1 Hi2]] [[Hu1' Hu2'] [Hi1' Hi2']] E. unfold obj_path in E.
  apply app_cut in E as [E1 E2]; [|unfold dir_path; cbn [length]; rewrite !length_app, !hex_length, Hu1, Hu1'; done].
  unfold dir_path in E1. injection E1 as E1. apply app_cut in E1 as [E1 _]; [|by rewrite !hex_length, Hu1, Hu1'].
  split; [by apply hex_inj|]. pose proof (hex_digits _ Hi2) as D. pose proof (hex_digits _ Hi2') as D'. destruct t, t'; cbn [app] in E2.
  - injection E2 as E2. split; [by apply hex_inj|done].
  - rewrite <- E2 in D'. inversion D' as [|? ? (_ & ? & _)]; subst. done.
  - rewrite E2 in D. inversion D as [|? ? (_ & ? & _)]; subst. done.
  - split; [by apply hex_inj|done].
Qed.

(** ** Directories *)

(** What the entry of an object's file is in the directory of TA [uuid]. *)
Lemma dir_entry_object po t uuid e :
  po_wf po -> length uuid = 16%nat -> Forall is_byte uuid -> is_active e = true -> c_str (fe_filename e) = obj_path po t ->
  dir_entry (dir_path uuid) e = (if decide (po_uuid po = uuid) then
    if t then Some [] else if decide (po_obj_id po = []) then None else Some (po_obj_id po) else None).
Proof.
  intros Hpo Hul Hub Ha Hn. unfold dir_entry. rewrite Ha, Hn. pose proof (obj_path_length po t Hpo) as Hl. destruct Hpo as [[Hu1 Hu2] [Hi1 Hi2]].
  assert (Hdl : length (dir_path uuid) = 34%nat) by (unfold dir_path; cbn [length]; rewrite length_app, hex_length, Hul; done).
  assert (Hdl' : length (dir_path (po_uuid po)) = 34%nat) by (unfold dir_path; cbn [length]; rewrite length_app, hex_length, Hu1; done).
  assert (Htake : take (length (dir_path uuid)) (obj_path po t) = dir_path (po_uuid po)).
  { unfold obj_path. rewrite Hdl, <- Hdl'. apply take_app_length. }
  rewrite Htake. destruct (decide (po_uuid po = uuid)) as [->|Hne].
  2: { rewrite (bool_decide_eq_false_2 _), andb_false_r; [done|]. intros E. apply Hne. unfold dir_path in E. injection E as E.
       apply app_cut in E as [E _]; [by apply hex_inj|by rewrite !hex_length, Hul, Hu1]. }
  rewrite bool_decide_eq_true_2, andb_true_r by done. cbn [andb]. rewrite Hl, Hdl.
  assert (Hex : exists r, fe_filename e = obj_path po t ++ r).
  { rewrite <- Hn. clear. exists (drop (length (c_str (fe_filename e))) (fe_filename e)). induction (fe_filename e) as [|x b IH]; [done|].
    cbn. destruct (Z.eqb x 0); [done|]. cbn. by f_equal. }
  destruct Hex as [r ->]. assert (Hdrop : drop 34 (obj_path po t ++ r) = (if t then [46] else []) ++ hex (po_obj_id po) ++ r).
  { unfold obj_path. rewrite <- !app_assoc, <- Hdl'. apply drop_app_length. }
  rewrite Hdrop. destruct t; cbn [app].
  - replace (34 <? 34 + 1 + 2 * length (po_obj_id po))%nat with true by (symmetry; apply Nat.ltb_lt; lia). f_equal. unfold tee_hs2b.
    destruct (_ >? _); [done|]. destruct (Z.to_nat _) as [|k] eqn:Ek; [done|]. done.
  - case_decide as Hz.
    + rewrite Hz. done.
    + destruct (po_obj_id po) as [|x b] eqn:Eid; [done|]. replace (34 <? 34 + 0 + 2 * length (x :: b))%nat with true by (symmetry; apply Nat.ltb_lt; cbn; lia). f_equal.
      replace (34 + 0 + 2 * length (x :: b) - 34)%nat with (length (hex (x :: b))) by (rewrite hex_length; lia). by apply hs2b_hex.
Qed.

(** [rpmb_fs_opendir] searches below the directory of the TA. *)
Lemma opendir_path uuid :
  length uuid = 16%nat -> Forall is_byte uuid ->
  exists buf, tee_svc_storage_create_dirname empty_name (Z.of_nat TEE_RPMB_FS_FILENAME_LENGTH - 1) uuid = Some buf /\
    (let path := c_str buf in if bool_decide (last path = Some 47) then path else path ++ [47]) = dir_path uuid.
Proof.
  intros Hl Hb. unfold tee_svc_storage_create_dirname. replace (_ <? _) with false by done. rewrite b2hs_hex by (rewrite Hl; lia). eexists. split; [done|].
  unfold empty_name. rewrite (put_app ([] : bytes) [47] (replicate TEE_RPMB_FS_FILENAME_LENGTH 0)) by done. rewrite drop_replicate. cbn [app length]. set (z := replicate _ 0).
  change (47 :: z) with ([47] ++ z). rewrite (put_app [47]) by done. rewrite <- !app_assoc. cbn [app]. pose proof (hex_digits _ Hb) as Hd.
  assert (Hc : c_str (47 :: hex uuid ++ 0 :: drop (length (hex uuid ++ [0])) z) = 47 :: hex uuid).
  { apply (c_str_app (47 :: hex uuid)). constructor; [done|]. eapply Forall_impl; [exact Hd|]. by intros x [? _]. }
  rewrite Hc. cbv zeta. rewrite bool_decide_eq_false_2; [done|]. intros E. destruct (hex uuid) as [|x h] eqn:Eh.
  - apply (f_equal length) in Eh. rewrite hex_length, Hl in Eh. done.
  - rewrite last_cons_cons in E. apply last_Some in E as (l & E). rewrite E in Hd. apply Forall_app in Hd as [_ Hd]. inversion Hd as [|? ? (_ & _ & ?)]; subst. done.
Qed.
