(* ===== verification/RpmbFsDir.v ===== *)
(** * Renaming files and listing directories of the RPMB file system

    [rpmb_fs_rename_internal] to a name that is not in use writes one entry: there is no image in which the
    file has both names or none. [rpmb_fs_opendir] returns the identifiers of the objects of a TA in the order of
    the table. *)

From S2P Require Import Prelude TeeMm Pobj ErrM Cipher CipherModes FsKey Rpmb RpmbSpec RpmbDev RpmbBlocks RpmbFat RpmbFs RpmbFatSpec RpmbFatFind RpmbFsData RpmbFsWrite RpmbFsOps RpmbFsNames.
From stdpp Require Import base list sets.
From Stdlib Require Import ZArith Lia.

Local Open Scope Z_scope.

(** The identifiers below a path. *)
Definition dir_list (path : bytes) (m : image) (n : nat) : list bytes :=
  filter (fun oid => oid <> []) (omap (dir_entry path) (map (entry m) (seq 0 n))).

Lemma dir_list_step path m j :
  dir_list path m (j + 1) = dir_list path m j ++ match dir_entry path (entry m j) with Some oid => if (length oid =? 0)%nat then [] else [oid] | None => [] end.
Proof.
  unfold dir_list. rewrite seq_app, map_app, omap_app, filter_app. f_equal. cbn [Nat.add seq map omap list_omap].
  destruct (dir_entry path (entry m j)) as [oid|]; [|done]. by destruct oid.
Qed.

Section dir.
Context {S : Type} {DV : RpmbDev S} {DL : RpmbDevLaws S}.
Context (CACHE RD : nat) (reset : bool).
Hypothesis RD_pos : (0 < RD)%nat.

Local Notation FS := (fs_state S).
Local Notation OP := (op_state S).
Local Notation fs_ok := (fs_ok CACHE RD).
Local Notation cached := (cached CACHE RD).
Local Notation at_entry := (at_entry CACHE RD).
Local Notation entry_done := (entry_done CACHE RD).

(** ** Listing *)

Lemma dir_populate_loop_spec path m n b fuel j d (s : FS) :
  dl_inv (fs_dev s) -> img s = m -> fat_len m n -> Z.of_nat (length m + RD) <= 65535 -> (n <= b)%nat ->
  fs_dir s = Some d -> at_entry m n b j d -> (n - j < fuel)%nat ->
  wp (dir_populate_loop CACHE RD fuel path (dir_list path m j))
    (fun r s' => fs_same s s' /\ calm r /\ (exists d', fs_dir s' = Some d' /\ cached m b d') /\ forall l, r = ROk l -> l = dir_list path m n) s.
Proof.
  revert j d s. induction fuel as [|fuel IH]; intros j d s Hi Hm Hf Hsz Hb Hd Hat Hfu; [lia|]. cbn [dir_populate_loop].
  eapply wp_seq; [by apply (get_next_at CACHE RD RD_pos m n b j d)|]. intros r s1 (Hs1 & Hc1 & d1 & Ed1 & Hca1 & Hr1).
  assert (Hi1 := fs_same_inv _ _ Hs1). destruct r as [[[fe a]|]|e|]; cbn [cont]; [| |by split_and!; [..|exists d1|]|done].
  2: { apply wp_ret. subst j. split_and!; [done|done|by exists d1|]. by intros l [= <-]. }
  destruct Hr1 as (Hj & -> & _ & Hat1). pose proof (dir_list_step path m j) as Hst.
  assert (Hgo : forall s2, fs_same s s2 -> fs_dir s2 = Some d1 -> wp (dir_populate_loop CACHE RD fuel path (dir_list path m (j + 1)))
    (fun r s' => fs_same s s' /\ calm r /\ (exists d', fs_dir s' = Some d' /\ cached m b d') /\ forall l, r = ROk l -> l = dir_list path m n) s2).
  { intros s2 Hs2 Ed2. eapply wp_mono; [apply (IH (j + 1)%nat d1 s2); try done; [by eapply fs_same_inv|by rewrite (fs_same_img _ _ Hs2)|lia]|].
    intros r s' (? & ? & ? & ?). split_and!; try done. by etransitivity. }
  destruct (dir_entry path (entry m j)) as [oid|].
  - eapply wp_seq; [by apply alloc_same|]. intros r s2 (Hs2 & Ed2 & Hc2). assert (Hs : fs_same s s2) by (by etransitivity).
    destruct r as [[]|e|]; cbn [cont]; [|by split_and!; [..|exists d1; split; [congruence|]|]|done].
    replace (if (length oid =? 0)%nat then dir_list path m j else dir_list path m j ++ [oid]) with (dir_list path m (j + 1)).
    { apply Hgo; [done|congruence]. }
    rewrite Hst. destruct (length oid =? 0)%nat; [by rewrite app_nil_r|done].
  - rewrite app_nil_r in Hst. rewrite <- Hst. by apply Hgo.
Qed.

Lemma dir_populate_spec path n b (s : FS) :
  fs_ok s n b ->
  wp (rpmb_fs_dir_populate CACHE RD reset path) (fun r s' => fs_same s s' /\ calm r /\ fs_ok s' n b /\
    forall d, r = ROk d -> d = mk_dir None (dir_list path (img s) n) /\ dir_list path (img s) n <> []) s.
Proof.
  intros Hok. assert (Hmo := fk_mounted _ _ _ _ _ Hok). assert (Hf := fo_len _ _ (fk_fat _ _ _ _ _ Hok)). assert (Hsz := mo_size _ _ Hmo).
  assert (Hb := fk_le _ _ _ _ _ Hok). set (m := img s) in *. unfold rpmb_fs_dir_populate.
  assert (Hend : forall (r : rres tee_fs_dir) s1, r <> RPanic -> fs_same s s1 -> match fs_dir s1 with None => True | Some d => cached m b d end ->
     (forall d, r = ROk d -> d = mk_dir None (dir_list path m n) /\ dir_list path m n <> []) -> calm r ->
     wp (fat_entry_dir_deinit CACHE) (fun rc s2 => rc = ROk tt /\ (fs_same s s2 /\ calm r /\ fs_ok s2 n b /\
       forall d, r = ROk d -> d = mk_dir None (dir_list path m n) /\ dir_list path m n <> [])) s1).
  { intros r s1 Hnp Hs1 Hca Hr Hc. eapply wp_mono; [apply (deinit_ok CACHE RD RD_pos m b); [by eapply fs_same_inv|done]|].
    intros rc s2 (-> & Hs2 & Hd2). assert (Hs : fs_same s s2) by (by etransitivity). split_and!; try done. by eapply fs_ok_same. }
  apply wp_finally. eapply wp_seq; [apply (init_at CACHE RD reset RD_pos m n b); try done; apply Hok|]. intros r s1 (Hs1 & Hc1 & Hr1).
  destruct r as [[]|e|]; cbn [cont]; [| |done].
  2: { apply (Hend (RErr e)); try done. rewrite Hr1. pose proof (fk_dir _ _ _ _ _ Hok) as Hd. destruct (fs_dir s); [by destruct Hd|done]. }
  destruct Hr1 as (d & Ed & Hat). eapply wp_seq.
  { apply (dir_populate_loop_spec path m n b fat_fuel 0 d); try done; [by eapply fs_same_inv|by rewrite (fs_same_img _ _ Hs1)|].
    rewrite Nat.sub_0_r. apply fat_fuel_enough. pose proof (fl_dev _ _ Hf). lia. }
  intros r s2 (Hs2 & Hc2 & (d2 & Ed2 & Hca2) & Hr2). assert (Hs : fs_same s s2) by (by etransitivity).
  destruct r as [l|e|]; cbn [cont]; [| |done]; [|by apply (Hend (RErr e)); try done; rewrite Ed2]. specialize (Hr2 l eq_refl). subst l.
  apply wp_bind, wp_guard; intros G; cbn [cont]; [apply wp_ret|].
  - apply (Hend (ROk _)); try done; [by rewrite Ed2|]. intros x [= <-]. split; [done|]. intros E. by rewrite E in G.
  - apply (Hend (RErr _)); try done. by rewrite Ed2.
Qed.

(** ** Renaming *)

Definition renamed_entry (name : bytes) (m : image) (i : nat) : rpmb_fat_entry := set_name (name_field name) (entry m i).

Record renamed (old new : bytes) (n : nat) (m m' : image) : Prop := {
  rn_fat : fat_ok m' n;
  rn_layout : layout m' n;
  rn_unique : unique_names m' n;
  rn_gone : forall u, file u old m' n = None;
  rn_new : forall u, file u new m' n = file u old m n;
  rn_others : forall name u, c_str name <> c_str old -> c_str name <> c_str new -> file u name m' n = file u name m n;
}.

Lemma renamed_entry_ok m n i name :
  blocks_wf m -> fat_ok m n -> layout m n -> (i < n - 1)%nat -> Forall is_byte name -> (length (c_str name) <= TEE_RPMB_FS_FILENAME_LENGTH)%nat ->
  new_entry_ok m n i (renamed_entry name m i).
Proof.
  clear RD_pos. intros Hm Hf Hly Hi Hb Hl. assert (Hd := fl_dev _ _ (fo_len _ _ Hf)). destruct (entry_wf m i Hm ltac:(lia)). destruct (name_field_ok name Hb Hl) as (N1 & N2 & _).
  split; [by split|exact (inner_not_last m n i Hf Hi)| | |].
  - intros Hu j Hj Hne Huj. apply (ly_apart _ _ Hly); [lia|done|done|exact Hu|done].
  - intros Hu. apply (ly_fat _ _ Hly); [lia|exact Hu].
  - intros Hu. apply (ly_dev _ _ Hly); [lia|exact Hu].
Qed.

Lemma put_renamed old new n m i :
  blocks_wf m -> fat_ok m n -> layout m n -> unique_names m n -> first_match old m n i -> no_match new m n -> Forall is_byte new ->
  (length (c_str new) <= TEE_RPMB_FS_FILENAME_LENGTH)%nat -> c_str old <> c_str new ->
  renamed old new n m (put_entry m i (renamed_entry new m i)).
Proof.
  clear RD_pos. intros Hm Hf Hly Hu Hfm Hno Hb Hl Hne. assert (Hact := match_active _ _ _ _ Hfm). assert (Hi := active_not_last _ _ _ Hf (fm_lt _ _ _ _ Hfm) Hact).
  pose proof (renamed_entry_ok m n i new Hm Hf Hly Hi Hb Hl) as Hok. destruct (fat_put_ok _ _ _ _ Hf Hly Hi Hok) as [Hf' Hly'].
  destruct (name_field_ok new Hb Hl) as (N1 & N2 & N3). set (e := renamed_entry new m i) in *. assert (Hwf := ne_wf _ _ _ _ Hok).
  assert (Hent : forall j, entry (put_entry m i e) j = if decide (i = j) then e else entry m j) by (intros j; eapply put_entry_entry; [exact Hf|lia|done]).
  assert (He : forall name, is_file name e = bool_decide (c_str name = c_str new)).
  { intros name. unfold is_file, strcmp_eq, e, renamed_entry. cbn [set_name fe_filename]. rewrite N3. change (is_active (set_name _ _)) with (is_active (entry m i)).
    by rewrite Hact, andb_true_r. }
  assert (Hold : forall name j, (j < n)%nat -> c_str name = c_str old -> is_file name (entry m j) = true -> j = i).
  { intros name j Hj E Hx. eapply (Hu old); [done|lia| |by apply Hfm]. by rewrite <- (is_file_name name old). }
  split; [done|done| | | |].
  - intros name j k Hj Hk. rewrite !Hent. case_decide as D1; case_decide as D2; subst; try done; try rewrite He.
    + intros E%bool_decide_eq_true Hx. rewrite (is_file_name name new) in Hx by done. by rewrite Hno in Hx.
    + intros Hx E%bool_decide_eq_true. rewrite (is_file_name name new) in Hx by done. by rewrite Hno in Hx.
    + by apply Hu.
  - intros u. unfold file. rewrite (proj2 (find_file_None _ _ _)); [done|]. intros j Hj. rewrite Hent. case_decide as Hij.
    + rewrite He. by apply bool_decide_eq_false.
    + destruct (is_file old (entry m j)) eqn:E; [|done]. exfalso. by apply Hij; symmetry; eapply Hold.
  - intros u. unfold file. rewrite (proj2 (find_file_Some _ _ _ _) Hfm).
    assert (Hfm' : first_match new (put_entry m i e) n i).
    { split; [lia| |].
      - rewrite Hent, decide_True, He by done. by apply bool_decide_eq_true.
      - intros j Hj. rewrite Hent, decide_False by lia. apply Hno. lia. }
    rewrite (proj2 (find_file_Some _ _ _ _) Hfm'). cbn [fmap option_fmap option_map]. f_equal. rewrite Hent, decide_True by done.
    change (fdata u (put_entry m i e) e) with (fdata u (put_entry m i e) (entry m i)). apply (put_entry_fdata m n); try done; lia.
  - intros name u H1 H2. apply put_entry_other; try done; [lia| |rewrite He; by apply bool_decide_eq_false].
    destruct (is_file name (entry m i)) eqn:E; [|done]. exfalso. apply H1. eapply is_file_same_name; [apply Hfm|done].
Qed.

(** The search of a name by a new handle. *)
Lemma read_fat_new n b name (s : FS) :
  fs_ok s n b ->
  wp (with_fh (mk_fh zero_fe [] name 0) (read_fat CACHE RD reset false ;; gets op_fh)) (fun r s' => fs_same s s' /\ calm r /\ fs_ok s' n b /\
    forall fh, r = ROk fh -> exists i, first_match name (img s) n i /\ fh = mk_fh (entry (img s) i) [] name (entry_addr i)) s.
Proof.
  intros Hok. apply wp_with_fh. eapply wp_seq; [by apply (read_fat_plain CACHE RD reset RD_pos n b)|]. cbn [op_fs op_fh fh_filename].
  intros r o' (Hs & Hc & _ & Hok' & Hr). destruct r as [[]|e|]; cbn [cont]; [|by split_and!|done]. apply wp_gets. split_and!; try done. intros fh [= <-].
  destruct Hr as [(i & Hfm & ->)|(_ & _ & ?)]; [|done]. by exists i.
Qed.

Definition rename_from (old : tee_pobj) (new : option tee_pobj) : bytes := file_name empty_name old (match new with Some _ => po_temporary old | None => true end).
Definition rename_to (old : tee_pobj) (new : option tee_pobj) : bytes := match new with Some new => file_name empty_name new (po_temporary new) | None => file_name empty_name old false end.

Lemma alloc_file_handle_spec po t (s : FS) :
  dl_inv (fs_dev s) -> wp (alloc_file_handle po t) (fun r s' => fs_same s s' /\ fs_dir s' = fs_dir s /\ calm r /\
    forall fh, r = ROk fh -> fh = mk_fh zero_fe [] (file_name empty_name po t) 0) s.
Proof.
  intros Hi. unfold alloc_file_handle. eapply wp_seq; [by apply alloc_same|]. intros r s1 (Hs & Ed & Hc).
  destruct r as [[]|e|]; cbn [cont]; [apply wp_ret|by split_and!|done]. split_and!; try done. by intros fh [= <-].
Qed.

Lemma rename_free_done n i old new ov (s : FS) :
  fs_ok s n n -> layout (img s) n -> first_match (rename_from old new) (img s) n i -> no_match (rename_to old new) (img s) n ->
  Forall is_byte (rename_to old new) -> (length (c_str (rename_to old new)) <= TEE_RPMB_FS_FILENAME_LENGTH)%nat ->
  wp (rpmb_fs_rename_internal CACHE RD reset old new ov)
    (fun r s' => entry_done n n i (renamed_entry (rename_to old new) (img s) i) (img s) (dl_hist (fs_dev s)) r s s') s.
Proof.
  intros Hok Hly Hfm Hno Hb Hl. set (m := img s) in *. set (e := renamed_entry (rename_to old new) m i).
  assert (Hi := active_not_last _ _ _ (fk_fat _ _ _ _ _ Hok) (fm_lt _ _ _ _ Hfm) (match_active _ _ _ _ Hfm)).
  assert (Hfail : forall (s1 : FS) er, fs_same s s1 -> fs_dir s1 = fs_dir s \/ fs_ok s1 n n -> er <> TEE_SUCCESS -> entry_done n n i e m (dl_hist (fs_dev s)) (RErr er) s s1).
  { intros s1 er Hs Hor He. assert (Hok1 : fs_ok s1 n n) by (destruct Hor as [Ed|?]; [eapply fs_ok_same; [exact Hs|rewrite Ed; apply Hok|done]|done]).
    destruct Hs as [[D1 D2 D3 D4] D5]. split; try done. exists []. rewrite app_nil_r. split_and!; [done|by intros m' ?%elem_of_nil|by right]. }
  unfold rpmb_fs_rename_internal.
  eapply (wp_seq _ _ (fun r s' => fs_same s s' /\ fs_dir s' = fs_dir s /\ calm r /\ forall fh, r = ROk fh -> fh = mk_fh zero_fe [] (rename_from old new) 0)).
  { destruct new; apply alloc_file_handle_spec, Hok. }
  intros r s1 (Hs1 & Ed1 & Hc1 & Hr1). destruct r as [fh1|er|]; cbn [cont]; [|by apply Hfail; [|left|]|done]. rewrite (Hr1 fh1 eq_refl). clear Hr1.
  eapply (wp_seq _ _ (fun r s' => fs_same s1 s' /\ fs_dir s' = fs_dir s1 /\ calm r /\ forall fh, r = ROk fh -> fh = mk_fh zero_fe [] (rename_to old new) 0)).
  { destruct new; by eapply alloc_file_handle_spec, fs_same_inv. }
  intros r s2 (Hs2' & Ed2 & Hc2 & Hr2). assert (Hs2 : fs_same s s2) by (by etransitivity).
  assert (Ed2' : fs_dir s2 = fs_dir s) by congruence. destruct r as [fh2|er|]; cbn [cont]; [|by apply Hfail; [|left|]|done]. rewrite (Hr2 fh2 eq_refl). clear Hr2 Hc1 Hc2 fh1 fh2.
  assert (Hok2 : fs_ok s2 n n) by (eapply fs_ok_same; [exact Hs2|rewrite Ed2'; apply Hok|done]).
  eapply wp_seq; [by apply (read_fat_new n n)|]. intros r s3 (Hs3' & Hc3 & Hok3 & Hr3). assert (Hs3 : fs_same s s3) by (by etransitivity).
  destruct r as [fh3|er|]; cbn [cont]; [|by apply Hfail; [|right|]|done]. destruct (Hr3 fh3 eq_refl) as (i' & Hfm' & ->). clear Hr3.
  rewrite (fs_same_img _ _ Hs2) in *. fold m in Hfm'. fold m. rewrite <- (first_match_unique _ _ _ _ _ Hfm Hfm') in *.
  apply wp_bind, wp_try. eapply wp_mono; [by apply (read_fat_new n n)|]. intros r s4 (Hs4' & Hc4 & Hok4 & Hr4). assert (Hs4 : fs_same s s4) by (by etransitivity).
  rewrite (fs_same_img _ _ Hs3) in Hr4. destruct r as [fh4|er|]; cbn [cont]; [| |done].
  { destruct (Hr4 fh4 eq_refl) as (j & [J1 J2 _] & _). fold m in J2. rewrite Hno in J2 by done. done. }
  apply wp_bind, wp_ret. cbn [cont]. apply wp_with_fh. pose proof (fs_same_img _ _ Hs4) as Him4. fold m in Him4. cbn [fh_filename fh_fat_entry set_fat_entry fh_uuid fh_rpmb_fat_address].
  fold (renamed_entry (rename_to old new) m i). fold e.
  eapply wp_mono; [apply (write_entry_done CACHE RD RD_pos n n i); cbn [op_fs op_fh fh_fat_entry fh_rpmb_fat_address]; try done|].
  - by rewrite Him4.
  - rewrite Him4. apply renamed_entry_ok; try done; [apply dl_wf, Hok|apply Hok].
  - cbn [op_fs op_fh fh_fat_entry]. intros r o' [_ [F1 F2 F3 F4]]. rewrite Him4 in F4. destruct Hs4 as [[D1 D2 D3 D4] D5]. rewrite D3 in F4. split; try done. congruence.
Qed.
End dir.
