(* ===== verification/RpmbFsCreate.v ===== *)
(** * Creating files of the RPMB file system

    [rpmb_fs_open_internal] for a file that does not exist takes the first free entry of the table and, if this is
    the last one, puts a new end after it first. [rpmb_fs_create] writes the parts of an object to
    a temporary file and renames it: in no image is there a part of the object under its name. *)

From S2P Require Import Prelude TeeMm Pobj ErrM Cipher CipherModes FsKey Rpmb RpmbSpec RpmbDev RpmbBlocks RpmbFat RpmbFs RpmbFatSpec RpmbFatFind RpmbFsData RpmbFsWrite RpmbFsOps RpmbFsNames RpmbFsDir.
From stdpp Require Import base list sets.
From Stdlib Require Import ZArith Lia.

Local Open Scope Z_scope.

(** An image in which the file system is in order. *)
Record consistent (m : image) (n : nat) : Prop := {
  cs_wf : blocks_wf m;
  cs_fat : fat_ok m n;
  cs_layout : layout m n;
  cs_unique : unique_names m n;
}.

(** ** The table grows *)

Definition grown_len (n : nat) (g : bool) : nat := if g then (n + 1)%nat else n.

(** What the search has made sure of, when entry [i] is the first free one. *)
Record room (m : image) (n i : nat) (g : bool) (c : Z) : Prop := {
  ro_free : first_free m n i;
  ro_grow : g = (i =? n - 1)%nat;
  ro_counter : is_u32 c;
  ro_dev : g = true -> (2 + n < length m)%nat;
  ro_apart : g = true -> forall j, (j < n)%nat -> used (entry m j) = true -> apart (fstart m j) (fsize m j) 0 (fat_end n true);
}.

Section grow.
Context {S : Type} {DV : RpmbDev S} {DL : RpmbDevLaws S}.

Lemma grown_only m n g c : blocks_wf m -> is_u32 c -> only_in 0 (fat_end n true) m (grown m n g c).
Proof.
  intros Hm Hc. destruct g; cbn [grown]; [|by apply only_in_refl].
  assert (Hwf := last_fe_wf c Hc). split; [apply blocks_wf_insert; [done|by apply fe_bytes_length|by apply fe_bytes_bytes]|apply length_insert|].
  intros x Hx. apply list_lookup_insert_ne. intros <-. apply Hx. unfold in_blocks, fat_end. split; [change (0 / 256) with 0; lia|]. apply Z.div_le_lower_bound; lia.
Qed.

Lemma grown_entry m n i g c j :
  room m n i g c -> entry (grown m n g c) j = if g then if decide (n = j) then last_fe c else entry m j else entry m j.
Proof. intros [_ _ Hc Hd _]. destruct g; cbn [grown]; [|done]. apply entry_insert; [by apply last_fe_wf|by apply Hd]. Qed.

Lemma grown_length m n g c : length (grown m n g c) = length m.
Proof. destruct g; [apply length_insert|done]. Qed.

(** The files do not see it. *)
Lemma grown_fdata m n i g c j u :
  blocks_wf m -> fat_ok m n -> room m n i g c -> (j < n)%nat -> is_active (entry m j) = true -> fdata u (grown m n g c) (entry m j) = fdata u m (entry m j).
Proof.
  intros Hm Hf Hr Hj Ha. assert (Hl := fl_dev _ _ (fo_len _ _ Hf)). destruct g eqn:Eg; [|done]. destruct Hr as [_ _ Hc _ Hap].
  eapply fdata_kept; [done|by apply grown_only|exact Hj|lia|done|]. intros Hu. apply apart_sym. by apply Hap.
Qed.

Lemma grown_same m n i g c name u : blocks_wf m -> fat_ok m n -> room m n i g c -> file u name (grown m n g c) n = file u name m n.
Proof.
  intros Hm Hf Hr. assert (He : forall j, (j < n)%nat -> entry (grown m n g c) j = entry m j).
  { intros j Hj. rewrite (grown_entry m n i g c j Hr). destruct g; [|done]. by rewrite decide_False by lia. }
  unfold file. rewrite (find_file_ext name m (grown m n g c) n) by (intros j Hj; by rewrite He).
  destruct (find_file name m n) as [j|] eqn:Ej; [|done]. cbn [fmap option_fmap option_map]. f_equal. apply find_file_Some in Ej.
  rewrite He by apply Ej. eapply grown_fdata; try done; [apply Ej|by eapply match_active].
Qed.

Lemma grown_consistent m n i g c : consistent m n -> room m n i g c -> consistent (grown m n g c) n.
Proof.
  intros [Hm Hf Hly Hu] Hr. assert (He : forall j, (j < n)%nat -> entry (grown m n g c) j = entry m j).
  { intros j Hj. rewrite (grown_entry m n i g c j Hr). destruct g; [|done]. by rewrite decide_False by lia. }
  split; [by eapply grown_only, Hr|by eapply fat_ok_entries; [apply grown_length| |]|by eapply layout_entries; [apply grown_length| |]|].
  intros name j k Hj Hk. rewrite !He by done. by apply Hu.
Qed.

(** ** A new, empty file *)

Record new_file (name : bytes) (e : rpmb_fat_entry) : Prop := {
  nf_wf : fe_wf e;
  nf_flags : fe_flags e = FILE_IS_ACTIVE;
  nf_size : fe_data_size e = 0;
  nf_name : c_str (fe_filename e) = c_str name;
}.

Lemma new_file_is name e name' : new_file name e -> is_file name' e = bool_decide (c_str name' = c_str name).
Proof. intros [_ Hf _ Hn]. unfold is_file, strcmp_eq, is_active. rewrite Hf, Hn. by rewrite andb_true_r. Qed.
Lemma new_file_marks name e : new_file name e -> is_active e = true /\ is_last e = false /\ used e = false.
Proof. intros [_ Hf Hs _]. unfold used, is_active, is_last. by rewrite Hf, Hs. Qed.

Record created (name : bytes) (n n' : nat) (m m' : image) : Prop := {
  cr_ok : consistent m' n';
  cr_file : forall u, file u name m' n' = Some [];
  cr_others : forall name' u, c_str name' <> c_str name -> file u name' m' n' = file u name' m n;
}.

Lemma room_len m n i g c : room m n i g c ->
  (i < n /\ n <= grown_len n g)%nat /\ (g = true -> grown_len n g = n + 1 /\ i = n - 1)%nat /\ (g = false -> grown_len n g = n /\ i < n - 1)%nat.
Proof. intros [[Hi _ _] Hg _ _ _]. destruct (Nat.eqb_spec i (n - 1)); subst g; cbn [grown_len]; split_and!; intros; try done; lia. Qed.

Section put_new.
Context (name : bytes) (e : rpmb_fat_entry) (m : image) (n i : nat) (g : bool) (c : Z).
Hypothesis m_ok : consistent m n.
Hypothesis m_room : room m n i g c.
Hypothesis m_no : no_match name m n.
Hypothesis e_new : new_file name e.

Let m1 := grown m n g c.
Let m2 := put_entry m1 i e.
Let n' := grown_len n g.

Lemma pn_len : (i < n /\ n <= n')%nat /\ (g = true -> n' = n + 1 /\ i = n - 1)%nat /\ (g = false -> n' = n /\ i < n - 1)%nat.
Proof. exact (room_len m n i g c m_room). Qed.

Lemma pn_entry j : entry m2 j = if decide (i = j) then e else if g then if decide (n = j) then last_fe c else entry m j else entry m j.
Proof.
  assert (Hl := fl_dev _ _ (fo_len _ _ (cs_fat _ _ m_ok))). destruct m_room as [[Hi _ _] _ _ _ _]. unfold m2, put_entry, m1.
  rewrite entry_insert by first [apply e_new|rewrite grown_length; lia]. by rewrite (grown_entry m n i g c j m_room).
Qed.

Lemma pn_active j : (j < n')%nat -> j <> i -> is_active (entry m2 j) = true -> (j < n)%nat /\ entry m2 j = entry m j.
Proof.
  destruct pn_len as (_ & Hn2 & Hn3). intros Hj Hne Hac. rewrite pn_entry, decide_False in Hac |- * by done. destruct g; [|destruct (Hn3 eq_refl); split; [lia|done]].
  destruct (Hn2 eq_refl). case_decide as Hnj; [done|]. split; [lia|done].
Qed.

Lemma pn_used j : (j < n')%nat -> used (entry m2 j) = true -> (j < n)%nat /\ entry m2 j = entry m j /\ used (entry m j) = true.
Proof.
  intros Hj Hu. destruct (new_file_marks _ _ e_new) as (_ & _ & Hus). assert (j <> i) by (intros ->; rewrite pn_entry, decide_True in Hu by done; congruence).
  destruct (pn_active j Hj) as [? E]; [done|by destruct (used_size _ Hu)|]. split_and!; try done. by rewrite <- E.
Qed.

Lemma pn_file name' j : (j < n')%nat -> is_file name' (entry m2 j) = true -> c_str name' <> c_str name -> (j < n)%nat /\ entry m2 j = entry m j.
Proof.
  intros Hj Fj Hne. destruct (decide (j = i)) as [->|Hji].
  - rewrite pn_entry, decide_True, (new_file_is name) in Fj by done. by apply bool_decide_eq_true in Fj.
  - apply pn_active; [done|done|]. unfold is_file in Fj. by apply andb_true_iff in Fj as [_ ?].
Qed.

(** The files are apart from the new table. *)
Lemma pn_apart j : (j < n)%nat -> used (entry m j) = true -> apart (fstart m j) (fsize m j) 0 (fat_end n' false).
Proof.
  destruct pn_len as (_ & Hn2 & Hn3). intros Hj Huj. destruct g eqn:Eg; [|destruct (Hn3 eq_refl) as [-> _]; by apply m_ok].
  destruct (Hn2 eq_refl) as [-> _]. by apply m_room.
Qed.

Lemma pn_fat : fat_ok m2 n'.
Proof.
  destruct pn_len as (Hn1 & Hn2 & Hn3). destruct (cs_fat _ _ m_ok) as [[F1 F2 F3 F4] F5]. destruct (new_file_marks _ _ e_new) as (_ & Hla & _).
  assert (Hend : entry m2 (n' - 1) = if g then last_fe c else entry m (n - 1)).
  { rewrite pn_entry. destruct g; [destruct (Hn2 eq_refl) as [-> ?]; rewrite decide_False by lia; by rewrite decide_True by lia|].
    destruct (Hn3 eq_refl) as [-> ?]. by rewrite decide_False by lia. }
  split; [split; [lia| | |]|].
  - unfold m2, put_entry, m1. rewrite length_insert, grown_length. destruct m_room as [_ _ _ Hd _]. destruct g; [specialize (Hd eq_refl); destruct (Hn2 eq_refl)|destruct (Hn3 eq_refl)]; lia.
  - rewrite Hend. by destruct g.
  - intros j Hj. rewrite pn_entry. case_decide; [done|]. destruct g; [destruct (Hn2 eq_refl); rewrite decide_False by lia|destruct (Hn3 eq_refl)]; apply F4; lia.
  - rewrite Hend. by destruct g.
Qed.

Lemma pn_layout : layout m2 n'.
Proof.
  split; unfold fstart, fsize.
  - intros j k Hj Hk Hne Huj Huk. destruct (pn_used j Hj Huj) as (? & -> & ?), (pn_used k Hk Huk) as (? & -> & ?). by apply m_ok.
  - intros j Hj Huj. destruct (pn_used j Hj Huj) as (? & -> & ?). by apply pn_apart.
  - intros j Hj Huj. destruct (pn_used j Hj Huj) as (? & -> & ?). unfold on_device, m2, put_entry, m1. rewrite length_insert, grown_length. by apply m_ok.
Qed.

Lemma pn_unique : unique_names m2 n'.
Proof.
  assert (Hx : forall x k, (k < n')%nat -> is_file x (entry m2 i) = true -> is_file x (entry m2 k) = true -> k = i).
  { intros x k Hk Fj Fk. destruct (decide (k = i)) as [|Hki]; [done|exfalso]. rewrite pn_entry, decide_True, (new_file_is name) in Fj by done.
    apply bool_decide_eq_true in Fj. assert (Hak : is_active (entry m2 k) = true) by (unfold is_file in Fk; by apply andb_true_iff in Fk as [_ ?]).
    destruct (pn_active k Hk Hki Hak) as [Hkn E]. rewrite E, (is_file_name x name), m_no in Fk by done. done. }
  intros x j k Hj Hk Fj Fk. destruct (decide (j = i)) as [->|Hji]; [symmetry; by eapply (Hx x k)|].
  destruct (decide (k = i)) as [->|Hki]; [by eapply (Hx x j)|].
  assert (Hact : forall y, is_file x (entry m2 y) = true -> is_active (entry m2 y) = true) by (intros y; unfold is_file; by intros [_ ?]%andb_true_iff).
  destruct (pn_active j Hj Hji (Hact _ Fj)) as [? E1], (pn_active k Hk Hki (Hact _ Fk)) as [? E2]. rewrite E1 in Fj. rewrite E2 in Fk. by eapply (cs_unique _ _ m_ok).
Qed.

Lemma pn_wf : blocks_wf m2.
Proof. apply blocks_wf_insert; [apply (grown_only m n g c); [apply m_ok|apply m_room]|apply fe_bytes_length, e_new|apply fe_bytes_bytes, e_new]. Qed.

Lemma pn_match : first_match name m2 n' i.
Proof.
  destruct pn_len as (Hn1 & Hn2 & Hn3). split; [lia|rewrite pn_entry, decide_True, (new_file_is name) by done; by apply bool_decide_eq_true|].
  intros j Hj. rewrite pn_entry, decide_False by lia. destruct g; [rewrite decide_False by lia|]; apply m_no; lia.
Qed.

Lemma pn_others name' u : c_str name' <> c_str name -> file u name' m2 n' = file u name' m n.
Proof.
  destruct pn_len as (Hn1 & Hn2 & Hn3). intros Hne. destruct m_ok as [Hm Hf _ _]. destruct m_room as [[_ Hidle _] _ Hc _ _]. unfold file.
  destruct (find_file name' m n) as [j|] eqn:Ej.
  - apply find_file_Some in Ej. assert (Haj := match_active _ _ _ _ Ej). assert (Hjn := fm_lt _ _ _ _ Ej). assert (Hji : j <> i) by (intros ->; congruence).
    assert (Ej' : entry m2 j = entry m j) by (rewrite pn_entry, decide_False by done; destruct g; [by rewrite decide_False by lia|done]).
    rewrite (proj2 (find_file_Some name' m2 n' j)).
    + cbn [fmap option_fmap option_map]. f_equal. rewrite Ej'. transitivity (fdata u m1 (entry m j)); [|by eapply grown_fdata].
      assert (Hw1 : blocks_wf m1) by (by apply (grown_only m n g c)). assert (Hl := fl_dev _ _ (fo_len _ _ Hf)).
      apply (fdata_ext u 0 (fat_end n false)); [done|apply put_entry_only; [done|apply e_new|lia]|apply (entry_wf m j); [done|lia]|].
      intros Hpos. apply apart_sym. eapply apart_sub; [| |apply pn_apart; [exact Hjn|by apply used_of]]; unfold fat_end; lia.
    + destruct Ej as [J1 J2 J3]. split; [lia|by rewrite Ej'|]. intros k Hk. destruct (is_file name' (entry m2 k)) eqn:Ek; [|done].
      destruct (pn_file name' k ltac:(lia) Ek Hne) as [? Ek']. rewrite Ek', J3 in Ek by done. done.
  - apply find_file_None in Ej. rewrite (proj2 (find_file_None name' m2 n')); [done|]. intros k Hk. destruct (is_file name' (entry m2 k)) eqn:Ek; [|done].
    destruct (pn_file name' k Hk Ek Hne) as [Hkn Ek']. rewrite Ek', Ej in Ek by done. done.
Qed.

Lemma put_created : created name n n' m m2.
Proof.
  split; [split; [apply pn_wf|apply pn_fat|apply pn_layout|apply pn_unique]| |apply pn_others].
  intros u. unfold file. rewrite (proj2 (find_file_Some _ _ _ _) pn_match). cbn [fmap option_fmap option_map]. f_equal. rewrite pn_entry, decide_True by done.
  apply fdata_empty, e_new.
Qed.
End put_new.

(** ** Images, as they are seen by name *)

Definition others_kept (name : bytes) (m : image) (n : nat) (m' : image) (n' : nat) : Prop :=
  forall name' u, c_str name' <> c_str name -> file u name' m' n' = file u name' m n.

(** The file system is in order, the file [name] of [u] satisfies [D], and other files are as in [m]. *)
Definition image_of (name u : bytes) (m : image) (n : nat) (D : option bytes -> Prop) (m' : image) : Prop :=
  exists n', consistent m' n' /\ others_kept name m n m' n' /\ D (file u name m' n').

Lemma image_of_mono name u m n (D D' : option bytes -> Prop) m' : image_of name u m n D m' -> (forall x, D x -> D' x) -> image_of name u m n D' m'.
Proof. intros (n' & H1 & H2 & H3) H. exists n'. auto. Qed.

Lemma image_of_from name u m n m1 n1 D m' : others_kept name m n m1 n1 -> image_of name u m1 n1 D m' -> image_of name u m n D m'.
Proof. intros H (n' & H1 & H2 & H3). exists n'. split_and!; [done| |done]. intros name' u' Hne. rewrite H2 by done. by apply H. Qed.

Lemma file_changed_image name u i D n m m' :
  unique_names m n -> first_match name m n i -> file_changed u i D n m m' ->
  consistent m' n /\ others_kept name m n m' n /\ first_match name m' n i /\ exists d, file u name m' n = Some d /\ D d.
Proof.
  intros Hu Hfm Hch. assert (Hi := fm_lt _ _ _ _ Hfm). destruct (file_changed_file u i D n m m' name Hch Hfm) as [H1 H2].
  pose proof (file_changed_unique _ _ _ _ _ _ Hch Hi Hu) as Hu'. destruct Hch as [F1 F2 F3 F4 (M1 & M2 & M3) F6 F7]. split_and!; try done. destruct Hfm as [_ X2 X3].
  split; [done|by rewrite (is_file_same name (entry m i))|]. intros j Hj. rewrite (proj1 (F6 j ltac:(lia) ltac:(lia))). by apply X3.
Qed.
End grow.

(** ** [rpmb_fs_open_internal] *)

Section create.
Context {S : Type} {DV : RpmbDev S} {DL : RpmbDevLaws S}.
Context (CACHE RD : nat) (reset : bool).
Hypothesis RD_pos : (0 < RD)%nat.

Local Notation FS := (fs_state S).
Local Notation OP := (op_state S).
Local Notation fs_ok := (fs_ok CACHE RD).

Lemma pick_free m n fh : fat_ok m n -> no_match (fh_filename fh) m n -> fh_rpmb_fat_address fh = 0 ->
  exists i, first_free m n i /\ pick m fh n = (false, set_entry_at (entry m i) (entry_addr i) fh) /\ grows m n fh = (i =? n - 1)%nat.
Proof.
  intros [[Hp _ _ _] Hidle] Hno Ha. destruct (first_free_exists m n (n - 1) ltac:(lia) Hidle) as (i & Hi & _). exists i.
  destruct (pick_result m fh n) as [_ H]. destruct (H Hno) as [_ H2]. destruct (H2 Ha) as [H3 _]. rewrite (H3 i Hi). split_and!; [done|done|].
  unfold grows. rewrite (H3 i Hi). cbn [snd set_entry_at fh_rpmb_fat_address]. unfold entry_addr.
  destruct (Nat.eqb_spec i (n - 1)) as [->|]; [by apply Z.eqb_refl|]. apply Z.eqb_neq. lia.
Qed.

Lemma generate_fek_spec fuel uuid (o : OP) :
  dl_inv (fs_dev (op_fs o)) ->
  wp (generate_fek fuel uuid) (fun r o' => fs_same (op_fs o) (op_fs o') /\ fs_dir (op_fs o') = fs_dir (op_fs o) /\ op_fh o' = op_fh o /\
    forall k, r = ROk k -> length k = TEE_FS_KM_FEK_SIZE /\ Forall is_byte k) o.
Proof.
  revert o. induction fuel as [|fuel IH]; intros o Hi; cbn [generate_fek].
  { unfold wp, panic. cbn [fst snd]. split_and!; done. }
  apply wp_bind, wp_on_fs. eapply wp_mono; [by apply on_dev_same, (dl_fek uuid)|]. intros r f (Hs & Ed & Hc & Hk). destruct r as [k|e|]; cbn [cont]; [|by split_and!|done].
  destruct (is_zero k).
  - eapply wp_mono; [apply IH; cbn [op_fs]; by eapply fs_same_inv|]. cbn [op_fs op_fh]. intros r o' (Hs' & Ed' & Eh' & Hk'). split_and!; [by etransitivity|congruence|done|done].
  - apply wp_ret. split_and!; [done..|]. intros x [= <-]. by apply Hk.
Qed.

(** What a search for a new name leaves, also when it fails. *)
Record search_new (name : bytes) (n : nat) (o : OP) (r : rres unit) (o' : OP) : Prop := {
  sn_calm : calm r;
  sn_inv : dl_inv (fs_dev (op_fs o'));
  sn_par : fs_par (op_fs o') = fs_par (op_fs o);
  sn_hist : exists ms i c, let m := img (op_fs o) in let g := (i =? n - 1)%nat in
    dl_hist (fs_dev (op_fs o')) = dl_hist (fs_dev (op_fs o)) ++ ms /\
    (forall m', m' ∈ ms -> m' = m \/ room m n i g c /\ m' = grown m n g c) /\
    (r = ROk tt -> room m n i g c /\ img (op_fs o') = grown m n g c /\ op_fh o' = set_entry_at (entry m i) (entry_addr i) (op_fh o) /\
       dl_ready (fs_dev (op_fs o')) /\ dl_dead (fs_dev (op_fs o')) = false /\ dir_ok CACHE RD (img (op_fs o')) (grown_len n g) (fs_dir (op_fs o')));
}.

Lemma search_new_spec mx n (o : OP) :
  fs_ok (op_fs o) n n -> pool_ok mx (op_pool o) -> no_match (fh_filename (op_fh o)) (img (op_fs o)) n -> fh_rpmb_fat_address (op_fh o) = 0 ->
  wp (read_fat CACHE RD reset true) (search_new (fh_filename (op_fh o)) n o) o.
Proof.
  intros Hok Hp Hno Ha. eapply wp_mono; [by apply (read_fat_pool CACHE RD reset RD_pos mx n n)|]. intros r o' [S1 S2 S3 S4 (ms & c & Hc & S5 & S6 & S7 & S8)].
  destruct (pick_free _ _ _ (fk_fat _ _ _ _ _ Hok) Hno Ha) as (i & Hfree & Hpick & Hg). cbv zeta in *. rewrite Hg in *. set (m := img (op_fs o)) in *. set (g := (i =? n - 1)%nat) in *.
  assert (Hsz := mo_size _ _ (fk_mounted _ _ _ _ _ Hok)).
  split; try done. exists ms, i, c. split; [done|]. split.
  - intros m' Hm'. destruct (S6 m' Hm') as [Eg Em]. destruct (decide (2 + n < length m)%nat) as [Hlt|Hge]; [right|left].
    + split; [|done]. split; try done. intros _. rewrite <- Eg in *. apply S7. intros ->. by apply elem_of_nil in Hm'.
    + rewrite Em, Eg. apply list_insert_ge. apply Nat.nlt_ge. exact Hge.
  - intros ->. destruct S8 as (T1 & T2 & T3 & T4 & T5 & T6 & T7 & T8 & T9). rewrite Hpick in T1. fold g. split_and!; try done.
    + split; try done. intros Hgt. by rewrite Hgt in T5.
    + unfold grown_to in T9. unfold grown_len. destruct g; [|done]. by replace (Nat.max n (n + 1)) with (n + 1)%nat in T9 by lia.
Qed.

Lemma setup_mounted (s : FS) par Q : fs_par s = Some par -> Q (ROk tt) s -> wp (rpmb_fs_setup CACHE reset) Q s.
Proof. intros E H. unfold rpmb_fs_setup. apply wp_bind, wp_gets. cbn [cont]. rewrite E. by apply wp_ret. Qed.

Record opened (name u : bytes) (n : nat) (o : OP) (r : rres unit) (o' : OP) : Prop := {
  on_par : fs_par (op_fs o') = fs_par (op_fs o);
  on_hist : exists ms, dl_hist (fs_dev (op_fs o')) = dl_hist (fs_dev (op_fs o)) ++ ms /\
    forall m', m' ∈ ms -> image_of name u (img (op_fs o)) n (fun x => x = None \/ x = Some []) m';
  on_ok : r = ROk tt -> exists n' i, fs_ok (op_fs o') n' n' /\ created name n n' (img (op_fs o)) (img (op_fs o')) /\
    first_match name (img (op_fs o')) n' i /\ fh_filename (op_fh o') = name /\ fh_uuid (op_fh o') = u;
}.

(** The search has succeeded: the entry of the new file is written. *)
Lemma write_new_entry u name n (o o1 : OP) ms i c g :
  fs_ok (op_fs o) n n -> consistent (img (op_fs o)) n -> no_match name (img (op_fs o)) n -> Forall is_byte name ->
  (length (c_str name) <= TEE_RPMB_FS_FILENAME_LENGTH)%nat ->
  let m := img (op_fs o) in
  room m n i g c -> img (op_fs o1) = grown m n g c -> dl_hist (fs_dev (op_fs o1)) = dl_hist (fs_dev (op_fs o)) ++ ms ->
  (forall m', m' ∈ ms -> image_of name u m n (fun x => x = None \/ x = Some []) m') ->
  fs_par (op_fs o1) = fs_par (op_fs o) -> dl_inv (fs_dev (op_fs o1)) -> dl_ready (fs_dev (op_fs o1)) -> dl_dead (fs_dev (op_fs o1)) = false ->
  dir_ok CACHE RD (img (op_fs o1)) (grown_len n g) (fs_dir (op_fs o1)) ->
  (exists k, op_fh o1 = mk_fh (new_file_entry name k) u name (entry_addr i) /\ length k = TEE_FS_KM_FEK_SIZE /\ Forall is_byte k) ->
  wp (write_fat_entry CACHE true) (opened name u n o) o1.
Proof.
  intros Hok Hcs Hno Hb Hl m Hr Him Hh Hms Hp Hi Hrd Hal Hd (k & Hfh & Hk1 & Hk2). destruct (name_field_ok name Hb Hl) as (N1 & N2 & N3).
  pose proof (room_len m n i g c Hr) as (L1 & L2 & L3). assert (Hsz := mo_size _ _ (fk_mounted _ _ _ _ _ Hok)). fold m in Hsz. assert (Hln := fl_dev _ _ (fo_len _ _ (cs_fat _ _ Hcs))). fold m in Hln.
  eapply wp_mono; [apply (write_fat_entry_wrote CACHE RD RD_pos i true o1); [done|by rewrite Hfh| |lia]|].
  { rewrite Hfh. cbn [fh_fat_entry new_file_entry]. split; cbn [fe_start_address fe_data_size fe_flags fe_write_counter fe_fek fe_filename]; try done. }
  rewrite Hfh. cbn [fh_fat_entry]. intros r o' (_ & x & Hwf & Hfh' & Hok' & [W1 W2 W3 W4 (ms' & W5 & W6 & W7)]). cbv zeta in *.
  set (e := set_fe_write_counter (u32 x) (new_file_entry name k)) in *. rewrite Him in W6, W7.
  assert (He : new_file name e) by (by split).
  pose proof (put_created name e m n i g c Hcs Hr Hno He) as Hcr. fold (put_entry (grown m n g c) i e) in W6, W7.
  split; [congruence| |].
  - exists (ms ++ ms'). split; [by rewrite W5, Hh, app_assoc|]. intros m' [?|Hm']%elem_of_app; [by apply Hms|]. rewrite (W6 m' Hm').
    exists (grown_len n g). split_and!; [apply Hcr|intros name' u'; apply Hcr|right; apply Hcr].
  - intros ->. destruct W7 as (T1 & T2 & T3 & T4). exists (grown_len n g), i. rewrite T3. rewrite (Hok' eq_refl). split_and!; try done.
    + eapply (fs_ok_intro CACHE RD (op_fs o)); try done; [by apply W3|congruence| | |].
      * rewrite T3. unfold put_entry. by rewrite length_insert, grown_length.
      * rewrite T3. apply Hcr.
      * rewrite T3, T4. rewrite Him in Hd. replace (grown_len n g) with (Nat.max (grown_len n g) (i + 1)) by lia. apply (upd_dir_ok CACHE RD RD_pos); [done|rewrite grown_length; lia|lia|done].
    + by apply pn_match.
Qed.

Lemma open_create_done fuel u mx n (o : OP) :
  fs_ok (op_fs o) n n -> consistent (img (op_fs o)) n -> max_block (op_fs o) mx -> no_match (fh_filename (op_fh o)) (img (op_fs o)) n ->
  fh_rpmb_fat_address (op_fh o) = 0 -> Forall is_byte (fh_filename (op_fh o)) -> (length (c_str (fh_filename (op_fh o))) <= TEE_RPMB_FS_FILENAME_LENGTH)%nat ->
  wp (rpmb_fs_open_internal CACHE RD reset fuel u true) (opened (fh_filename (op_fh o)) u n o) o.
Proof.
  intros Hok Hcs Hmb Hno Ha Hb Hl. set (m := img (op_fs o)) in *. set (name := fh_filename (op_fh o)) in *. destruct Hmb as [Hmx Epar].
  assert (Hsame : image_of name u m n (fun x => x = None \/ x = Some []) m).
  { exists n. split_and!; [done|by intros ? ?|]. left. unfold file. by rewrite (proj2 (find_file_None _ _ _) Hno). }
  assert (Hquiet : forall (r : rres unit) o1, r <> ROk tt -> dl_hist (fs_dev (op_fs o1)) = dl_hist (fs_dev (op_fs o)) -> fs_par (op_fs o1) = fs_par (op_fs o) -> opened name u n o r o1).
  { intros r o1 Hr Hh Hp. split; [done| |done]. exists []. rewrite app_nil_r. split; [done|]. by intros m' ?%elem_of_nil. }
  unfold rpmb_fs_open_internal. apply wp_bind, wp_on_fs. eapply setup_mounted; [exact Epar|]. cbn [cont]. apply wp_bind, wp_modify. cbn [cont op_fs op_fh op_pool].
  set (fh0 := mk_fh _ u _ _).
  eapply wp_seq; [apply (init_pool_spec mx); cbn [op_fs]; [apply Hok|done]|]. intros r o1 (Hs1 & Ed1 & Eh1 & Hc1 & Hr1). cbn [op_fs op_fh] in *.
  assert (Hok1 : fs_ok (op_fs o1) n n) by (eapply fs_ok_same; [exact Hs1|rewrite Ed1; apply Hok|done]). pose proof (fs_same_img _ _ Hs1) as Him1. fold m in Him1.
  pose proof Hs1 as Hs1'. destruct Hs1' as [[D1 D2 D3 D4] D5]. destruct r as [[]|er|]; cbn [cont]; [|by apply Hquiet|done].
  assert (Hno1 : no_match (fh_filename (op_fh o1)) (img (op_fs o1)) n) by (rewrite Him1, Eh1; exact Hno).
  eapply (wp_seq _ _ (search_new name n o1)).
  { apply wp_finally. eapply wp_mono; [by apply (search_new_spec mx n o1); [|apply Hr1| |rewrite Eh1]|]. rewrite Eh1. cbn [fh_filename fh0]. fold name.
    intros r o2 H. assert (Hf : wp final_pool (fun rc s2 => rc = ROk tt /\ search_new name n o1 r s2) o2).
    { eapply wp_mono; [apply final_pool_ok|]. intros rc o3 (-> & E1 & E2). split; [done|]. destruct H. split; rewrite ?E1, ?E2; done. }
    by destruct r as [[]| |]. }
  intros r o2 [N1 N2 N3 (ms & i & c & N4 & N5 & N6)]. rewrite Him1 in N5, N6. rewrite Eh1 in N6. rewrite D3 in N4. rewrite D5 in N3. cbv zeta in *. set (g := (i =? n - 1)%nat) in *.
  assert (Hms : forall m', m' ∈ ms -> image_of name u m n (fun x => x = None \/ x = Some []) m').
  { intros m' Hm'. destruct (N5 m' Hm') as [->|[Hro ->]]; [done|]. exists n. split_and!; [by eapply grown_consistent|intros ? ? _; by apply (grown_same m n i); try apply Hcs|].
    left. rewrite (grown_same m n i) by first [done|apply Hcs]. unfold file. by rewrite (proj2 (find_file_None _ _ _) Hno). }
  destruct r as [[]|er|]; cbn [cont]; [| |done]; [|by split; [done|exists ms|done]]. destruct (N6 eq_refl) as (Hro & Him2 & Hfh2 & Hrd2 & Hal2 & Hd2).
  apply wp_bind, wp_gets. cbn [cont]. rewrite Hfh2. cbn [set_entry_at fh_fat_entry]. rewrite (ff_hit _ _ _ (ro_free _ _ _ _ _ Hro)). cbn [negb].
  apply wp_bind, wp_modify. cbn [cont]. rewrite Hfh2. cbn [set_entry_at set_fat_entry fh_filename fh_uuid fh_rpmb_fat_address fh0]. fold name.
  eapply wp_seq; [by apply generate_fek_spec|]. cbn [op_fs op_fh]. intros r o3 (Hs3 & Ed3 & Eh3 & Hk3). pose proof (fs_same_img _ _ Hs3) as Him3. destruct Hs3 as [[E1 E2 E3 E4] E5].
  assert (Hstop : forall r : rres unit, r <> ROk tt -> opened name u n o r o3).
  { intros r' Hr'. split; [congruence|exists ms; split; [congruence|done]|done]. }
  destruct r as [k|er|]; cbn [cont]; [|by apply Hstop|by apply Hstop]. destruct (Hk3 k eq_refl) as [K1 K2].
  apply wp_bind, wp_modify. cbn [cont]. rewrite Eh3. cbn [set_fat_entry fh_filename fh_uuid fh_rpmb_fat_address].
  eapply (write_new_entry u name n o _ ms i c g); cbn [op_fs op_fh]; try done; [by rewrite Him3|by rewrite E3|by rewrite E5|by apply E2|by rewrite E4|by rewrite Him3, Ed3|by exists k].
Qed.

(** ** [rpmb_fs_create] *)

Lemma rewritten_append (old buf : bytes) : rewritten old (Z.of_nat (length old)) buf = old ++ buf.
Proof.
  rewrite rewritten_posix by lia. unfold posix_write, splice. rewrite Nat2Z.id, Nat.max_l by lia. rewrite take_take, Nat.min_l by lia.
  rewrite take_app_length. f_equal. rewrite (drop_ge (A := Z)); [apply app_nil_r|]. rewrite length_take. lia.
Qed.

(** The object has been written up to [d], to its temporary file. *)
Record stage (t u : bytes) (m : image) (n : nat) (h : list image) (par : option rpmb_fs_parameters) (d : bytes) (o : OP) : Prop := {
  st_fh : fh_filename (op_fh o) = t /\ fh_uuid (op_fh o) = u;
  st_par : fs_par (op_fs o) = par;
  st_ok : exists n' i, fs_ok (op_fs o) n' n' /\ consistent (img (op_fs o)) n' /\ first_match t (img (op_fs o)) n' i /\
    others_kept t m n (img (op_fs o)) n' /\ file u t (img (op_fs o)) n' = Some d;
  st_hist : exists ms, dl_hist (fs_dev (op_fs o)) = h ++ ms /\ forall m', m' ∈ ms -> image_of t u m n (fun _ => True) m';
}.

Lemma stage_write t u m n h mx d buf (o : OP) :
  0 < mx < 65536 -> stage t u m n h (Some (mk_par RPMB_FS_FAT_START_ADDRESS (mx * 256))) d o -> buf <> [] -> Forall is_byte buf ->
  wp (rpmb_fs_write_primitive CACHE RD reset (Z.of_nat (length d)) buf)
    (fun r o' => r = ROk tt -> stage t u m n h (Some (mk_par RPMB_FS_FAT_START_ADDRESS (mx * 256))) (d ++ buf) o') o.
Proof.
  intros Hmx [[T1 T2] P (n' & i & Hok & Hcs & Hfm & Hoth & Hd) (ms & Hh & Hms)] Hne Hb. set (m1 := img (op_fs o)) in *.
  assert (Hbl : 0 < Z.of_nat (length buf)) by (destruct buf; [done|cbn; lia]).
  eapply wp_mono; [apply (write_primitive_done CACHE RD reset RD_pos mx n' i (Z.of_nat (length d)) buf o); try done; [apply Hcs|by rewrite T1|lia]|].
  rewrite T2. fold m1. intros r o' [O1 O2 O3 O4 (ms' & O5 & O6) O7] ->. destruct O7 as [Hok' Hch]. rewrite <- T1 in Hfm.
  assert (Hold : fdata u m1 (entry m1 i) = d).
  { unfold file in Hd. rewrite T1 in Hfm. rewrite (proj2 (find_file_Some _ _ _ _) Hfm) in Hd. by injection Hd. }
  assert (Hsize : fe_data_size (entry m1 i) = Z.of_nat (length d)).
  { rewrite <- Hold. symmetry. assert (Hl := fl_dev _ _ (fo_len _ _ (cs_fat _ _ Hcs))). assert (Hi := fm_lt _ _ _ _ Hfm).
    apply fdata_length; [apply Hcs|apply entry_wf; [apply Hcs|lia]|]. intros Hp. apply (ly_dev _ _ (cs_layout _ _ Hcs)); [done|]. apply used_of; [by eapply match_active|done]. }
  unfold new_contents in Hch. rewrite Hsize in Hch. replace (_ <=? Z.of_nat (length d)) with false in Hch by (symmetry; apply Z.leb_gt; lia). cbn [andb] in Hch.
  rewrite Hold, rewritten_append in Hch. rewrite T1 in Hfm.
  destruct (file_changed_image t u i _ n' m1 _ (cs_unique _ _ Hcs) Hfm Hch) as (C1 & C2 & C3 & x & C4 & <-). destruct O3 as [N1 N2].
  split; [split; congruence|congruence| |].
  - exists n', i. split_and!; try done. intros name' u' Hx. rewrite C2 by done. by apply Hoth.
  - exists (ms ++ ms'). split; [by rewrite O5, Hh, app_assoc|]. intros m' [?|Hm']%elem_of_app; [by apply Hms|].
    destruct (file_changed_image t u i _ n' m1 _ (cs_unique _ _ Hcs) Hfm (O6 m' Hm')) as (B1 & B2 & _). eapply image_of_from; [exact Hoth|]. by exists n'.
Qed.

Definition part_data (part : option bytes) : bytes := default [] part.

Lemma stage_part t u m n h mx d part (o : OP) :
  0 < mx < 65536 -> stage t u m n h (Some (mk_par RPMB_FS_FAT_START_ADDRESS (mx * 256))) d o -> Forall is_byte (part_data part) ->
  wp (write_part CACHE RD reset (Z.of_nat (length d)) part) (fun r o' => forall p, r = ROk p ->
    p = Z.of_nat (length (d ++ part_data part)) /\ stage t u m n h (Some (mk_par RPMB_FS_FAT_START_ADDRESS (mx * 256))) (d ++ part_data part) o') o.
Proof.
  intros Hmx Hst Hb. assert (Hskip : part_data part = [] -> wp (mret (Z.of_nat (length d)) : M OP Z) (fun r o' => forall p, r = ROk p ->
    p = Z.of_nat (length (d ++ part_data part)) /\ stage t u m n h (Some (mk_par RPMB_FS_FAT_START_ADDRESS (mx * 256))) (d ++ part_data part) o') o).
  { intros ->. rewrite app_nil_r. apply wp_ret. by intros p [= <-]. }
  unfold write_part. destruct part as [buf|]; [|by apply Hskip]. destruct (Nat.eqb_spec (length buf) 0) as [Hz|Hz].
  { apply Hskip. by apply nil_length_inv. }
  eapply wp_seq; [apply (stage_write t u m n h mx d buf); try done; by intros ->|]. cbn [part_data default] in *. intros r o' Hr.
  destruct r as [[]|e|]; cbn [cont]; [|done|done]. apply wp_ret. intros p [= <-]. rewrite length_app, Nat2Z.inj_add. split; [done|by apply Hr].
Qed.

(** The object is there as a whole, or not at all; all else is as it was. *)
Definition object_image (t f u : bytes) (m : image) (n : nat) (d : bytes) (m' : image) : Prop :=
  exists n', consistent m' n' /\ (forall name u', c_str name <> c_str t -> c_str name <> c_str f -> file u' name m' n' = file u' name m n) /\
    (file u f m' n' = None \/ file u f m' n' = Some d /\ file u t m' n' = None).

Lemma throw_after {S' A B} (m : M S' A) e (Q : rres B -> S' -> Prop) s : (forall r s', (forall b, r <> ROk b) -> Q r s') -> wp (m ;; throw e) Q s.
Proof. intros H. unfold wp, mbind, M_mbind, m_bind. destruct (m s) as [[a|x|] s']; by apply H. Qed.

Lemma others_none t f m n m1 n1 u : others_kept t m n m1 n1 -> c_str f <> c_str t -> no_match f m n -> file u f m1 n1 = None /\ no_match f m1 n1.
Proof.
  intros Hoth Hne Hno. assert (E : file u f m1 n1 = None).
  { rewrite Hoth by done. unfold file. by rewrite (proj2 (find_file_None _ _ _) Hno). }
  split; [done|]. apply find_file_None. unfold file in E. by destruct (find_file f m1 n1).
Qed.

(** The renaming at the end. *)
Lemma stage_rename po ov u m n h par d (o : OP) :
  po_wf po -> let t := file_name empty_name po true in let f := file_name empty_name po false in
  no_match f m n -> stage t u m n h par d o ->
  wp (on_fs (rpmb_fs_rename_internal CACHE RD reset (set_temporary false po) None ov)) (fun r o' => r = ROk tt ->
    op_fh o' = op_fh o /\ fs_par (op_fs o') = par /\
    (exists ms, dl_hist (fs_dev (op_fs o')) = h ++ ms /\ forall m', m' ∈ ms -> object_image t f u m n d m') /\
    exists n', fs_ok (op_fs o') n' n' /\ consistent (img (op_fs o')) n' /\ file u f (img (op_fs o')) n' = Some d /\ file u t (img (op_fs o')) n' = None /\
      forall name u', c_str name <> c_str t -> c_str name <> c_str f -> file u' name (img (op_fs o')) n' = file u' name m n) o.
Proof.
  intros Hpo t f Hno [_ P (n' & i & Hok & Hcs & Hfm & Hoth & Hd) (ms & Hh & Hms)]. set (m1 := img (op_fs o)) in *.
  destruct (file_name_ok po true Hpo) as (T1 & T2 & T3 & T4), (file_name_ok po false Hpo) as (F1 & F2 & F3 & F4). fold t in T1, T2, T3, T4. fold f in F1, F2, F3, F4.
  assert (Hne : c_str f <> c_str t) by (rewrite T1, F1; intros E; by apply obj_path_inj in E as (_ & _ & ?)).
  assert (Hm1w : blocks_wf m1) by apply Hcs.
  destruct (others_none t f m n m1 n' u Hoth Hne Hno) as [_ Hno1].
  apply wp_on_fs. eapply wp_mono; [apply (rename_free_done CACHE RD reset RD_pos n' i (set_temporary false po) None ov (op_fs o)); try done; [apply Hcs|]|].
  { change (rename_to (set_temporary false po) None) with f. lia. }
  change (rename_to (set_temporary false po) None) with f. fold m1. intros r s' [R1 R2 R3 (ms' & R4 & R5 & R6)] ->. cbn [op_fs op_fh]. destruct R6 as [Hok' Him].
  pose proof (put_renamed t f n' m1 i Hm1w (cs_fat _ _ Hcs) (cs_layout _ _ Hcs) (cs_unique _ _ Hcs) Hfm Hno1 F3 ltac:(lia) (not_eq_sym Hne)) as [Q1 Q2 Q3 Q4 Q5 Q6].
  set (m2 := put_entry m1 i (renamed_entry f m1 i)) in *.
  assert (Hcs2 : consistent m2 n').
  { split; try done. rewrite <- Him. apply dl_wf. exact R2. }
  assert (Hrest : forall name u', c_str name <> c_str t -> c_str name <> c_str f -> file u' name m2 n' = file u' name m n).
  { intros name u' X1 X2. rewrite Q6 by done. by apply Hoth. }
  split_and!; [done|congruence| |].
  - exists (ms ++ ms'). split; [by rewrite R4, Hh, app_assoc|]. intros m' [Hm'|Hm']%elem_of_app.
    + destruct (Hms m' Hm') as (k & K1 & K2 & _). exists k. split_and!; [done|intros name u' X1 _; by apply K2|]. left. by apply (others_none t f m n m' k u K2 Hne Hno).
    + rewrite (R5 m' Hm'). exists n'. split_and!; [done|done|right]. by rewrite Q5, Hd.
  - exists n'. rewrite Him. split_and!; try done. by rewrite Q5, Hd.
Qed.

Lemma create_done fuel po ov head attr data mx n (s : FS) :
  fs_ok s n n -> consistent (img s) n -> max_block s mx -> po_wf po -> po_temporary po = true ->
  let t := file_name empty_name po true in let f := file_name empty_name po false in let m := img s in let u := po_uuid po in
  let d := part_data head ++ part_data attr ++ part_data data in
  no_match t m n -> no_match f m n -> Forall is_byte d ->
  wp (rpmb_fs_create CACHE RD reset fuel po ov head attr data) (fun r s' => forall fh po', r = ROk (fh, po') ->
    fh_uuid fh = u /\ c_str (fh_filename fh) = c_str f /\ po' = set_temporary false po /\
    (exists ms, dl_hist (fs_dev s') = dl_hist (fs_dev s) ++ ms /\ forall m', m' ∈ ms -> object_image t f u m n d m') /\
    exists n', fs_ok s' n' n' /\ consistent (img s') n' /\ file u f (img s') n' = Some d /\ file u t (img s') n' = None /\
      forall name u', c_str name <> c_str t -> c_str name <> c_str f -> file u' name (img s') n' = file u' name m n) s.
Proof.
  intros Hok Hcs Hmb Hpo Htmp t f m u d Hnt Hnf Hb. subst d. rewrite !Forall_app in Hb. destruct Hb as (B1 & B2 & B3).
  destruct (file_name_ok po true Hpo) as (T1 & T2 & T3 & T4), (file_name_ok po false Hpo) as (F1 & F2 & F3 & F4). fold t in T1, T2, T3, T4. fold f in F1, F2, F3, F4.
  unfold rpmb_fs_create. rewrite Htmp. eapply wp_seq; [apply (alloc_file_handle_spec po true), Hok|]. intros r s1 (Hs1 & Ed1 & Hc1 & Hr1).
  destruct r as [fh|er|]; cbn [cont]; [|done|done]. rewrite (Hr1 fh eq_refl). fold t. clear Hr1 Hc1 fh.
  assert (Hok1 : fs_ok s1 n n) by (eapply fs_ok_same; [exact Hs1|rewrite Ed1; apply Hok|done]). pose proof (fs_same_img _ _ Hs1) as Him1. fold m in Him1.
  destruct Hs1 as [[D1 D2 D3 D4] D5]. destruct Hmb as [Hmx Epar]. set (par := Some (mk_par RPMB_FS_FAT_START_ADDRESS (mx * 256))).
  apply wp_with_fh. apply wp_bind, wp_try.
  eapply wp_seq; [apply (open_create_done fuel u mx n); cbn [op_fs op_fh fh_filename fh_rpmb_fat_address]; rewrite ?Him1; try done; [split; [done|by rewrite D5]|lia]|].
  cbn [op_fs op_fh fh_filename]. intros r o1 [O1 (ms1 & O2 & O3) O4]. cbn [op_fs] in *. rewrite Him1 in *. destruct r as [[]|er|]; cbn [cont]; [|by apply throw_after; intros r s' Hr fh po' ->; destruct (Hr (fh, po'))|done].
  destruct (O4 eq_refl) as (n1 & i1 & Q1 & Q2 & Q3 & Q4 & Q5). clear O4.
  assert (Hst : stage t u m n (dl_hist (fs_dev s)) par [] o1).
  { split; [done|by rewrite O1, D5|exists n1, i1; split_and!; try done; [apply Q2|intros ? ? ?; by apply Q2|apply Q2]|].
    exists ms1. split; [by rewrite O2, D3|]. intros m' Hm'. eapply image_of_mono; [by apply O3|done]. }
  eapply wp_seq; [apply (stage_part t u m n (dl_hist (fs_dev s)) mx [] head); done|]. cbn [length app]. change (Z.of_nat 0) with 0. intros r o2 Hr2.
  destruct r as [p2|er|]; cbn [cont]; [|by apply throw_after; intros r s' Hr fh po' ->; destruct (Hr (fh, po'))|done]. destruct (Hr2 p2 eq_refl) as [-> Hst2]. clear Hr2.
  eapply wp_seq; [apply (stage_part t u m n (dl_hist (fs_dev s)) mx _ attr); done|]. intros r o3 Hr3.
  destruct r as [p3|er|]; cbn [cont]; [|by apply throw_after; intros r s' Hr fh po' ->; destruct (Hr (fh, po'))|done]. destruct (Hr3 p3 eq_refl) as [-> Hst3]. clear Hr3.
  eapply wp_seq; [apply (stage_part t u m n (dl_hist (fs_dev s)) mx _ data); done|]. intros r o4 Hr4.
  destruct r as [p4|er|]; cbn [cont]; [|by apply throw_after; intros r s' Hr fh po' ->; destruct (Hr (fh, po'))|done]. destruct (Hr4 p4 eq_refl) as [-> Hst4]. clear Hr4.
  rewrite <- app_assoc in Hst4. assert (Hst4' := st_fh _ _ _ _ _ _ _ _ Hst4).
  eapply wp_seq; [by apply (stage_rename po ov u m n (dl_hist (fs_dev s)) par (part_data head ++ part_data attr ++ part_data data) o4)|]. intros r o5 Hr5.
  destruct r as [[]|er|]; cbn [cont]; [|by apply throw_after; intros r s' Hr fh po' ->; destruct (Hr (fh, po'))|done]. destruct (Hr5 eq_refl) as (E1 & _ & E2 & E3). clear Hr5.
  apply wp_bind, wp_modify. cbn [cont]. apply wp_ret. apply wp_bind, wp_gets. cbn [cont]. apply wp_ret. cbn [op_fs op_fh]. intros fh po' [= <- <-].
  cbn [fh_uuid fh_filename]. rewrite E1. destruct Hst4' as [-> ->]. split_and!; try done.
  unfold file_name. rewrite create_filename_path by first [done|rewrite T2, <- F1; lia]. rewrite F1. by apply c_str_app, obj_path_nonzero.
Qed.
End create.
