(* ===== verification/RpmbRam.v ===== *)
(** * A device in memory

    The simplest device that keeps the promises of [RpmbDevLaws]: its blocks in a list, nothing is
    encrypted, writes of several blocks go one block at a time. Memory runs out, and the device dies in the
    middle of a write, when the script of the run says so. *)

From S2P Require Import Prelude ErrM Cipher CipherModes FsKey Rpmb RpmbSpec RpmbDev RpmbBlocks.
From stdpp Require Import base list sets.
From Stdlib Require Import ZArith Lia.

Local Open Scope Z_scope.

Record ram := mk_ram {
  ram_hist : list (list bytes);
  ram_dead : bool;
  ram_ready : bool;
  (** whether the next allocations succeed (after the end of the list they do) *)
  ram_allocs : list bool;
  (** the number of blocks that can still be written, if there is a limit *)
  ram_power : option nat;
}.

Definition ram_img (s : ram) : list bytes := latest (ram_hist s).

Definition ram_read (addr len : Z) (k : dkey) : M ram bytes := fun s =>
  if ram_dead s then (RErr TEE_ERROR_COMMUNICATION, s)
  else if (Z.to_nat (addr + len) <=? 256 * length (ram_img s))%nat then
    (ROk (slice (Z.to_nat addr) (Z.to_nat len) (concat (ram_img s))), mk_ram (ram_hist s) (ram_dead s) true (ram_allocs s) (ram_power s))
  else (RErr TEE_ERROR_GENERIC, s).

(** The block [b] becomes [d]. *)
Definition ram_put (b : nat) (d : bytes) : M ram unit := fun s =>
  match ram_power s with
  | Some O => (RErr TEE_ERROR_COMMUNICATION, mk_ram (ram_hist s) true (ram_ready s) (ram_allocs s) None)
  | p => (ROk tt, mk_ram (ram_hist s ++ [<[b := d]> (ram_img s)]) (ram_dead s) true (ram_allocs s) (Nat.pred <$> p))
  end.

Fixpoint ram_puts (n b : nat) (d : bytes) : M ram unit :=
  match n with
  | O => mret tt
  | Datatypes.S n => ram_put b (take 256 d) ;; ram_puts n (b + 1) (drop 256 d)
  end.

Definition ram_alloc : M ram unit := fun s =>
  match ram_allocs s with
  | [] => (ROk tt, s)
  | ok :: l => (if (ok : bool) then ROk tt else RErr TEE_ERROR_OUT_OF_MEMORY, mk_ram (ram_hist s) (ram_dead s) (ram_ready s) l (ram_power s))
  end.

Definition ram_write_blocks (addr : Z) (d : bytes) : M ram unit := fun s =>
  let b := Z.to_nat (addr / 256) in
  let n := Z.to_nat ((addr mod 256 + Z.of_nat (length d) + 255) / 256) in
  if ram_dead s then (RErr TEE_ERROR_COMMUNICATION, s)
  else if (b + n <=? length (ram_img s))%nat then
    ram_puts n b (splice (Z.to_nat (addr mod 256)) d (slice (b * 256) (n * 256) (concat (ram_img s)))) s
  else (RErr TEE_ERROR_GENERIC, s).

(** A part of a block needs a buffer. *)
Definition ram_write (addr : Z) (d : bytes) (k : dkey) : M ram unit :=
  (if (addr mod 256 =? 0) && (Z.of_nat (length d) mod 256 =? 0) then mret tt else ram_alloc) ;; ram_write_blocks addr d.

#[global] Instance ram_dev : RpmbDev ram := {
  dev_read := ram_read;
  dev_write := ram_write;
  dev_get_write_counter := fun s => if ram_dead s then (RErr TEE_ERROR_COMMUNICATION, s) else (ROk (Z.of_nat (length (ram_hist s)) - 1), s);
  dev_get_max_block := fun s => if ram_dead s then (RErr TEE_ERROR_COMMUNICATION, s)
                                else (ROk (u16 (Z.of_nat (length (ram_img s)) - 1)), s);
  dev_write_is_atomic := fun addr len s => (ROk (addr mod 256 + len <=? 256), s);
  dev_generate_fek := fun uuid s => (ROk (replicate TEE_FS_KM_FEK_SIZE (Z.of_nat (length (ram_hist s)) mod 255 + 1)), s);
  dev_alloc := ram_alloc;
}.

(** ** The promises *)

Definition ram_inv (s : ram) : Prop := ram_hist s <> [] /\ blocks_wf (ram_img s).

Lemma ram_put_img s b d al p : ram_img (mk_ram (ram_hist s ++ [<[b := d]> (ram_img s)]) (ram_dead s) true al p) = <[b := d]> (ram_img s).
Proof. unfold ram_img at 1. apply latest_app. Qed.

Lemma ram_puts_law n b (d : bytes) (s : ram) :
  ram_inv s -> length d = (n * 256)%nat -> Forall is_byte d -> (b + n <= length (ram_img s))%nat ->
  wp (ram_puts n b d) (fun r s' => ram_inv s' /\ (ram_ready s = true -> ram_ready s' = true) /\
    exists ms, ram_hist s' = ram_hist s ++ ms /\ (n = 0%nat -> ms = []) /\
      (forall m' i, m' ∈ ms -> ~ (b <= i < b + n)%nat -> m' !! i = ram_img s !! i) /\
      (forall m', m' ∈ ms -> length m' = length (ram_img s) /\ blocks_wf m') /\
      (n = 1%nat -> forall m', m' ∈ ms -> concat m' = splice (b * 256) d (concat (ram_img s))) /\
      match r with
      | ROk _ => ram_dead s' = ram_dead s /\ (0 < n -> ram_ready s' = true)%nat /\ concat (ram_img s') = splice (b * 256) d (concat (ram_img s))
      | RErr e => e <> TEE_SUCCESS /\ ram_dead s' = true
      | RPanic => False
      end) s.
Proof.
  revert b d s. induction n as [|n IH]; intros b d s [Hne Hwf] Hl Hd Hb.
  { apply wp_ret. split; [done|]. split; [done|]. exists []. rewrite app_nil_r. destruct d; [|done]. split; [done|]. split; [done|].
    split; [by intros ? ? ?%elem_of_nil|]. split; [by intros ? ?%elem_of_nil|]. split; [done|]. split_and!; [done|lia|].
    unfold splice. cbn [length app]. by rewrite Nat.add_0_r, take_drop. }
  cbn [ram_puts]. apply wp_bind.
  assert (Hl1 : length (take 256 d) = 256%nat) by (rewrite length_take; lia). assert (Hd1 : Forall is_byte (take 256 d)) by (by apply bytes_take).
  assert (Hst : ram_put b (take 256 d) s = (RErr TEE_ERROR_COMMUNICATION, mk_ram (ram_hist s) true (ram_ready s) (ram_allocs s) None) \/
     ram_put b (take 256 d) s = (ROk tt, mk_ram (ram_hist s ++ [<[b := take 256 d]> (ram_img s)]) (ram_dead s) true (ram_allocs s) (Nat.pred <$> ram_power s))).
  { unfold ram_put. destruct (ram_power s) as [[|p]|]; [by left|by right|by right]. }
  unfold wp at 1. destruct Hst as [-> | ->]; cbn [fst snd cont].
  { split; [done|]. split; [done|]. exists []. rewrite app_nil_r. split; [done|]. split; [done|].
    split; [by intros ? ? ?%elem_of_nil|]. split; [by intros ? ?%elem_of_nil|]. split; [by intros _ ? ?%elem_of_nil|done]. }
  set (s1 := mk_ram _ _ _ _ _). assert (Him1 : ram_img s1 = <[b := take 256 d]> (ram_img s)) by (unfold s1; apply ram_put_img).
  assert (Hwf1 : blocks_wf (ram_img s1)) by (rewrite Him1; by apply blocks_wf_insert).
  assert (Hc1 : concat (ram_img s1) = splice (b * 256) (take 256 d) (concat (ram_img s))) by (rewrite Him1; apply concat_insert_block; [done|lia|done]).
  assert (Hlen1 : length (ram_img s1) = length (ram_img s)) by (rewrite Him1; apply length_insert).
  assert (Hlc : length (concat (ram_img s)) = (length (ram_img s) * 256)%nat) by (by apply blocks_concat_length).
  eapply wp_mono; [apply (IH (b + 1)%nat (drop 256 d) s1); [split; [by destruct (ram_hist s)|done]|rewrite length_drop; lia|by apply bytes_drop|lia]|].
  intros r s' (Hi' & Hrd & ms & Hh & Hz & Hout & Hms & _ & Hr). split; [done|]. split; [auto|].
  exists (<[b := take 256 d]> (ram_img s) :: ms). split; [rewrite Hh; cbn; by rewrite <- app_assoc|]. rewrite <- Him1. split; [done|].
  split; [|split; [|split]].
  - intros m' i [->|Hm']%elem_of_cons Hi; [rewrite Him1; apply list_lookup_insert_ne; lia|]. rewrite (Hout m' i Hm') by lia. rewrite Him1. apply list_lookup_insert_ne. lia.
  - intros m' [->|Hm']%elem_of_cons; [done|]. destruct (Hms m' Hm'). split; [congruence|done].
  - intros [= ->] m' [->|Hm']%elem_of_cons; [rewrite Hc1; f_equal; apply take_ge; lia|]. rewrite (Hz eq_refl) in Hm'. by apply elem_of_nil in Hm'.
  - destruct r as [[]|e|]; [|done|done]. destruct Hr as (Hd' & Hr' & Hcc). split; [done|]. split; [intros _; by apply Hrd|].
    rewrite Hcc, Hc1. replace ((b + 1) * 256)%nat with (b * 256 + length (take 256 d))%nat by lia.
    rewrite splice_at_splice; [by rewrite take_drop|]. rewrite Hl1, length_drop, Hlc. lia.
Qed.

Lemma ram_write_blocks_law addr (d : bytes) (s : ram) :
  ram_inv s -> 0 <= addr -> d <> [] -> Forall is_byte d ->
  wp (ram_write_blocks addr d) (fun r s' => ram_inv s' /\ (ram_ready s = true -> ram_ready s' = true) /\ calm r /\
    (ram_dead s = true -> ram_dead s' = true /\ ram_hist s' = ram_hist s) /\
    exists ms, ram_hist s' = ram_hist s ++ ms /\ write_images (fun _ m => m) addr d None (ram_img s) ms /\
      (r = ROk tt -> ram_ready s' = true /\ ram_dead s' = false /\ (Z.to_nat addr + length d <= 256 * length (ram_img s))%nat /\
         concat (ram_img s') = splice (Z.to_nat addr) d (concat (ram_img s))) /\
      (forall e, r = RErr e -> addr mod 256 + Z.of_nat (length d) <= 256 -> ram_dead s' = true \/ ms = [])) s.
Proof.
  intros Hi Ha Hd Hb. assert (Hfail : forall e, e <> TEE_SUCCESS -> exists ms : list (list bytes), ram_hist s = ram_hist s ++ ms /\ write_images (fun _ m => m) addr d None (ram_img s) ms /\
      (RErr (A := unit) e = ROk tt -> ram_ready s = true /\ ram_dead s = false /\ (Z.to_nat addr + length d <= 256 * length (ram_img s))%nat /\
         concat (ram_img s) = splice (Z.to_nat addr) d (concat (ram_img s))) /\
      (forall e', RErr (A := unit) e = RErr e' -> addr mod 256 + Z.of_nat (length d) <= 256 -> ram_dead s = true \/ ms = [])).
  { intros e He. exists []. rewrite app_nil_r. split_and!; [done| |done|by right]. split; try by intros ? ?%elem_of_nil. by intros ? ? ?%elem_of_nil. }
  unfold wp, ram_write_blocks. destruct (ram_dead s) eqn:Ed; [cbn; rewrite ?Ed; split_and!; try done; by apply Hfail|].
  set (b := Z.to_nat (addr / 256)). set (n := Z.to_nat ((addr mod 256 + Z.of_nat (length d) + 255) / 256)).
  destruct (Nat.leb_spec (b + n) (length (ram_img s))) as [Hle|Hgt]; [|cbn; rewrite ?Ed; split_and!; try done; by apply Hfail].
  assert (Hln : (0 < length d)%nat) by (destruct d; [done|cbn; lia]). destruct Hi as [Hne Hwf].
  assert (Hm : 0 <= addr mod 256 < 256) by (apply Z.mod_pos_bound; lia).
  set (off := Z.to_nat (addr mod 256)). assert (Hoff : (off < 256)%nat) by (pose proof (Z.mod_pos_bound addr 256); lia).
  assert (Ea : Z.to_nat addr = (b * 256 + off)%nat) 
    by (pose proof (Z.div_mod addr 256 ltac:(lia)); pose proof (Z.div_pos addr 256 Ha ltac:(lia)); pose proof (Z.mod_pos_bound addr 256 ltac:(lia)); unfold b, off; lia).
  assert (Hn : (256 * (n - 1) < off + length d <= 256 * n)%nat /\ (0 < n)%nat).
  { assert (Hn0 : Z.of_nat n = (addr mod 256 + Z.of_nat (length d) + 255) / 256) by (subst n; apply Z2Nat.id, Z.div_pos; lia).
    assert (Ho : Z.of_nat off = addr mod 256) by (subst off; apply Z2Nat.id, Z.mod_pos_bound; lia). clearbody n off.
    rewrite <- Ho in Hn0. clear - Hn0 Hln. Z.div_mod_to_equations. lia. }
  assert (Hlc : length (concat (ram_img s)) = (length (ram_img s) * 256)%nat) by (by apply blocks_concat_length).
  assert (Hsl : length (slice (b * 256) (n * 256) (concat (ram_img s))) = (n * 256)%nat) by (apply slice_length; lia).
  set (data := splice off d (slice (b * 256) (n * 256) (concat (ram_img s)))).
  assert (Hdl : length data = (n * 256)%nat) by (unfold data; rewrite splice_length; lia).
  assert (Hdb : Forall is_byte data) by (apply splice_bytes; [done|]; by apply slice_bytes, blocks_concat_bytes).
  assert (Hsp : splice (b * 256) data (concat (ram_img s)) = splice (Z.to_nat addr) d (concat (ram_img s))) by (rewrite Ea; apply splice_within; lia).
  pose proof (ram_puts_law n b data s ltac:(by split) Hdl Hdb Hle) as Hlaw. unfold wp in Hlaw. destruct (ram_puts n b data s) as [r s']. cbn [fst snd] in *.
  destruct Hlaw as (Hi' & Hrd & ms & Hh & _ & Hout & Hms & Hone & Hr). rewrite Hsp in Hone. split_and!; [done|done|by destruct r; [|destruct Hr|]|done|].
  exists ms. split_and!; [done| | |].
  - split.
    + intros m' i Hm' Hni. apply Hout; [done|]. intros Hin. apply Hni. unfold in_blocks.
      assert (Hdm : addr = 256 * Z.of_nat b + Z.of_nat off) by lia. rewrite Hdm. split; [rewrite Z.mul_comm, Z.div_add_l by lia; pose proof (Z.div_small (Z.of_nat off) 256); lia|].
      apply Z.div_le_lower_bound; lia.
    + intros m' Hm'. by apply Hms.
    + intros m' Hm'. by apply Hms.
    + intros m' Hm' Hle1. apply Hone; [|done]. lia.
  - intros ->. destruct Hr as (E1 & E2 & E3). split_and!; [apply E2; lia|congruence|lia|by rewrite E3].
  - intros e -> _. left. by destruct Hr.
Qed.

Lemma ram_alloc_law (s : ram) :
  ram_inv s -> wp ram_alloc (fun r s' => dev_same ram_inv (fun s => ram_ready s = true) ram_hist ram_dead s s' /\ calm r) s.
Proof. intros Hi. unfold wp, ram_alloc. destruct (ram_allocs s) as [|[] l]; cbn; (split; [by split|done]). Qed.

#[global] Program Instance ram_dev_laws : RpmbDevLaws ram := {|
  dl_inv := ram_inv;
  dl_ready s := ram_ready s = true;
  dl_hist := ram_hist;
  dl_dead := ram_dead;
  dl_view _ m := m;
|}.
Next Obligation. done. Qed.
Next Obligation. done. Qed.
Next Obligation. done. Qed.
Next Obligation. done. Qed.
Next Obligation. by intros s [? _]. Qed.
Next Obligation. by intros s [_ ?]. Qed.
Next Obligation.
  intros addr len k s Hi Ha Hl _. unfold wp. cbn. unfold ram_read. destruct (ram_dead s) eqn:Ed; [by cbn|].
  destruct (Nat.leb_spec (Z.to_nat (addr + len)) (256 * length (ram_img s))) as [Hle|Hgt]; cbn; (split; [by split|split; [done|]]); [|done].
  intros d [= <-]. by split_and!.
Qed.
Next Obligation.
  intros addr d k s Hi Ha Hd Hb _. unfold dev_write, ram_dev, ram_write.
  eapply (wp_seq _ _ (fun r s' => dev_same ram_inv (fun s => ram_ready s = true) ram_hist ram_dead s s' /\ calm r)).
  { destruct (_ && _); [apply wp_ret; split; [by split|done]|by apply ram_alloc_law]. }
  intros r s1 [[D1 D2 D3 D4] Hc]. destruct r as [[]|e|]; cbn [cont]; [| |done].
  - eapply wp_mono; [by apply ram_write_blocks_law|]. intros r s' (W1 & W2 & W3 & W4 & ms & W5 & [I1 I2 I3 I4] & W7). unfold ram_img in *. rewrite D3, D4 in *.
    split_and!; [done|auto|done|done|]. exists ms. split_and!; [done|by split|apply W7|apply W7].
  - split_and!; [done|done|done|by rewrite D4|]. exists []. rewrite app_nil_r. split_and!; [done| |done|by right].
    split; try by intros ? ?%elem_of_nil. by intros ? ? ?%elem_of_nil.
Qed.
Next Obligation. intros s Hi. unfold wp. cbn. destruct (ram_dead s); cbn; (split; [by split|done]). Qed.
Next Obligation.
  intros s Hi. unfold wp. cbn. destruct (ram_dead s); cbn; (split; [by split|split; [done|]]); [done|]. intros x [= <-].
  unfold is_u16, u16. pose proof (Z.mod_pos_bound (Z.of_nat (length (ram_img s)) - 1) 65536). lia.
Qed.
Next Obligation. done. Qed.
Next Obligation.
  intros uuid s Hi. unfold wp. cbn. split; [by split|split; [done|]]. intros k [= <-]. split; [done|].
  repeat constructor; unfold is_byte; pose proof (Z.mod_pos_bound (Z.of_nat (length (ram_hist s))) 255); lia.
Qed.
Next Obligation. apply ram_alloc_law. Qed.
