(* ===== verification/RpmbFsProps.v ===== *)
(** * The RPMB file system: what its operations guarantee

    Each operation on a file, on any device that keeps the promises of [RpmbDev] and with any size of the
    cache: in whatever image the device is left, the file is as before or as after the
    operation, all other files are untouched and the file system is in order. *)

From S2P Require Import Prelude TeeMm Pobj ErrM Cipher CipherModes FsKey Rpmb RpmbSpec RpmbDev RpmbBlocks RpmbFat RpmbFs RpmbFatSpec RpmbFatFind RpmbFatFound RpmbFsData RpmbFsWrite RpmbFsOps RpmbFsNames RpmbFsDir RpmbFsCreate RpmbRam.
From stdpp Require Import base list sets.
From Stdlib Require Import ZArith Lia.

Local Open Scope Z_scope.

(** ** The guarantee *)

Section guarantee.
Context {S : Type} {DV : RpmbDev S} {DL : RpmbDevLaws S}.
Context (CACHE RD : nat) (reset : bool).
Hypothesis RD_pos : (0 < RD)%nat.

Local Notation FS := (fs_state S).
Local Notation OP := (op_state S).

(** The file system is mounted, in order, and its table has [n] entries. *)
Record in_order (s : FS) (n : nat) : Prop := {
  io_ok : fs_ok CACHE RD s n n;
  io_image : consistent (img s) n;
}.

(** From [s], the file [name] of [u] goes from [x] to [y], where [None] is no file. *)
Record atomic_op (name u : bytes) (n : nat) (x y : option bytes) (s : FS) (r : rres unit) (s' : FS) : Prop := {
  ao_images : exists ms, dl_hist (fs_dev s') = dl_hist (fs_dev s) ++ ms /\
    forall m', m' ∈ ms -> image_of name u (img s) n (fun d => d = x \/ d = y) m';
  ao_result : match r with
    | ROk _ => exists n', in_order s' n' /\ others_kept name (img s) n (img s') n' /\ file u name (img s') n' = y
    | RErr _ => dl_dead (fs_dev s') = true \/ exists n', in_order s' n' /\ others_kept name (img s) n (img s') n' /\ file u name (img s') n' = x
    | RPanic => False
    end;
}.

Lemma file_match u name m n d : file u name m n = Some d -> exists i, first_match name m n i /\ fdata u m (entry m i) = d.
Proof.
  unfold file. destruct (find_file name m n) as [i|] eqn:E; [|done]. intros [= <-]. exists i. split; [by apply find_file_Some|done].
Qed.

Lemma op_done_atomic name u n i old new (o o' : OP) r :
  in_order (op_fs o) n -> first_match name (img (op_fs o)) n i -> op_done CACHE RD n n u i old new o r o' ->
  atomic_op name u n (Some old) (Some new) (op_fs o) r (op_fs o').
Proof.
  intros [Hok Hcs] Hfm [O1 O2 O3 O4 (ms & O5 & O6) O7]. assert (Hu := cs_unique _ _ Hcs).
  assert (Hst : forall D m', file_changed u i (eq D) n (img (op_fs o)) m' -> consistent m' n /\ others_kept name (img (op_fs o)) n m' n /\ file u name m' n = Some D).
  { intros D m' Hch. destruct (file_changed_image name u i _ n _ _ Hu Hfm Hch) as (C1 & C2 & _ & d & C4 & <-). done. }
  split.
  - exists ms. split; [done|]. intros m' Hm'. destruct (file_changed_image name u i _ n _ _ Hu Hfm (O6 m' Hm')) as (C1 & C2 & _ & d & C4 & C5).
    exists n. split_and!; [done|done|]. destruct C5 as [-> | ->]; auto.
  - destruct r as [[]|e|]; [| |done].
    + destruct O7 as [H1 H2]. destruct (Hst _ _ H2) as (? & ? & ?). exists n. by split_and!.
    + destruct O7 as [?|[H1 H2]]; [by left|right]. destruct (Hst _ _ H2) as (? & ? & ?). exists n. by split_and!.
Qed.


(** ** Writing *)








(** ** Truncating *)

(** [rpmb_fs_truncate] makes a file shorter or longer, with zeroes at the end, and is atomic in the same sense. *)
Theorem rpmb_fs_truncate_atomic mx n len old (o : OP) :
  in_order (op_fs o) n -> max_block (op_fs o) mx -> let name := fh_filename (op_fh o) in let u := fh_uuid (op_fh o) in
  file u name (img (op_fs o)) n = Some old -> 0 <= len ->
  wp (rpmb_fs_truncate CACHE RD reset len)
    (fun r o' => atomic_op name u n (Some old) (Some (resize (Z.to_nat len) 0 old)) (op_fs o) r (op_fs o') /\ named_like (op_fh o) (op_fh o')) o.
Proof.
  intros Hio Hmb name u Hf Hlen. destruct (file_match _ _ _ _ _ Hf) as (i & Hfm & Hold). pose proof Hio as [Hok Hcs].
  eapply wp_mono; [apply (truncate_done CACHE RD reset RD_pos mx n i len o); try done; apply Hcs|].
  fold u. rewrite Hold. intros r o' Hd. split; [by eapply op_done_atomic|apply Hd].
Qed.

(** ** Reading *)

(** C28. [rpmb_fs_read] returns the bytes of the file from the position, as many as there are and are asked for, and
    changes nothing. *)
Theorem rpmb_fs_read_contents n pos len old (o : OP) :
  in_order (op_fs o) n -> file (fh_uuid (op_fh o)) (fh_filename (op_fh o)) (img (op_fs o)) n = Some old -> 0 <= pos -> 0 <= len ->
  wp (rpmb_fs_read CACHE RD reset pos len) (fun r o' => in_order (op_fs o') n /\ dl_hist (fs_dev (op_fs o')) = dl_hist (fs_dev (op_fs o)) /\
    match r with ROk d => d = take (Z.to_nat len) (drop (Z.to_nat pos) old) | RErr _ => True | RPanic => False end) o.
Proof.
  intros [Hok Hcs] Hf Hpos Hlen. destruct (file_match _ _ _ _ _ Hf) as (i & Hfm & Hold).
  eapply wp_mono; [apply (fs_read_spec CACHE RD reset RD_pos n n i pos len o); try done; apply Hcs|]. cbv zeta. rewrite Hold.
  intros r o' (Hs & Hc & Hok' & _ & Hr). pose proof (fs_same_img _ _ Hs) as Him. split; [split; [done|by rewrite Him]|]. split; [by destruct Hs as [[] _]|].
  destruct r as [d|e|]; [by apply Hr|done|done].
Qed.

(** ** Removing *)

(** [rpmb_fs_remove] is atomic: in every image the file is there with its contents or is gone, and nothing else
    is changed. *)
Theorem rpmb_fs_remove_atomic n po u old (s : FS) :
  in_order s n -> let name := file_name empty_name po (po_temporary po) in
  file u name (img s) n = Some old ->
  wp (rpmb_fs_remove CACHE RD reset po) (atomic_op name u n (Some old) None s) s.
Proof.
  intros [Hok Hcs] name Hf. destruct (file_match _ _ _ _ _ Hf) as (i & Hfm & Hold). unfold rpmb_fs_remove.
  assert (Hfail : forall e (s' : FS), fs_same s s' -> fs_ok CACHE RD s' n n -> atomic_op name u n (Some old) None s (RErr e) s').
  { intros e s' Hs Hok'. pose proof (fs_same_img _ _ Hs) as Him. destruct Hs as [[_ _ Hh _] _]. split.
    - exists []. rewrite app_nil_r. split; [done|]. by intros m' ?%elem_of_nil.
    - right. exists n. rewrite Him. split_and!; [split; [done|by rewrite Him]|by intros ? ?|done]. }
  eapply wp_seq; [apply (alloc_file_handle_spec po (po_temporary po)), Hok|]. intros r s1 (Hs1 & Ed1 & Hc1 & Hr1).
  assert (Hok1 : fs_ok CACHE RD s1 n n) by (eapply fs_ok_same; [exact Hs1|rewrite Ed1; apply Hok|done]).
  destruct r as [fh|e|]; cbn [cont]; [|by apply Hfail|done]. rewrite (Hr1 fh eq_refl). apply wp_with_fh. pose proof (fs_same_img _ _ Hs1) as Him1.
  eapply wp_mono; [apply (remove_internal_done CACHE RD reset RD_pos n n i); cbn [op_fs op_fh fh_filename]; rewrite ?Him1; try done; apply Hcs|].
  cbn [op_fs op_fh]. intros r o' [_ [E1 E2 E3 (ms & E4 & E5 & E6)]]. rewrite Him1 in E5, E6. destruct Hs1 as [[_ _ D3 _] _]. rewrite D3 in E4.
  destruct (zeroed_removed name (img s) n i (cs_wf _ _ Hcs) (cs_fat _ _ Hcs) (cs_layout _ _ Hcs) (cs_unique _ _ Hcs) Hfm) as [R1 R2 R3 R4 R5].
  set (m2 := put_entry (img s) i zero_fe) in *.
  assert (Hcs2 : consistent m2 n) by (split; try done; apply blocks_wf_insert; [apply Hcs|apply fe_bytes_length, zero_fe_wf|apply fe_bytes_bytes, zero_fe_wf]).
  split.
  - exists ms. split; [done|]. intros m' Hm'. rewrite (E5 m' Hm'). exists n. split_and!; [done|done|right; apply R4].
  - destruct r as [[]|e|]; [| |done].
    + destruct E6 as [Hok' Him']. exists n. rewrite Him'. split_and!; [split; [done|by rewrite Him']|done|apply R4].
    + destruct E6 as [?|[-> Hok']]; [by left|right]. rewrite app_nil_r in E4. assert (Him' : img (op_fs o') = img s) by (unfold img; by rewrite E4).
      exists n. rewrite Him'. split_and!; [split; [done|by rewrite Him']|by intros ? ?|done].
Qed.

(** ** Renaming *)

(** From [s], a file goes from one name to another. *)
Definition renamed_image (from to : bytes) (m : image) (n : nat) (m' : image) : Prop :=
  consistent m' n /\ (forall u, file u from m' n = None) /\ (forall u, file u to m' n = file u from m n) /\
  forall name u, c_str name <> c_str from -> c_str name <> c_str to -> file u name m' n = file u name m n.

(** Renaming an object to a name that is not in use is atomic: the device only goes through the image in which the
    file has its new name and no longer its old one, with the same contents for every key; success
    means that it has been reached, an error that nothing has changed unless the device is given up. *)
Theorem rpmb_fs_rename_atomic n old new ov (s : FS) :
  in_order s n -> po_wf old -> po_wf new -> let from := file_name empty_name old (po_temporary old) in let to := file_name empty_name new (po_temporary new) in
  (exists u d, file u from (img s) n = Some d) -> (forall u, file u to (img s) n = None) ->
  wp (rpmb_fs_rename CACHE RD reset old new ov) (fun r s' =>
    (exists ms, dl_hist (fs_dev s') = dl_hist (fs_dev s) ++ ms /\ forall m', m' ∈ ms -> renamed_image from to (img s) n m') /\
    match r with
    | ROk _ => in_order s' n /\ renamed_image from to (img s) n (img s')
    | RErr _ => dl_dead (fs_dev s') = true \/ in_order s' n /\ dl_hist (fs_dev s') = dl_hist (fs_dev s)
    | RPanic => False
    end) s.
Proof.
  intros [Hok Hcs] Ho Hn from to (u & d & Hf) Hto. destruct (file_match _ _ _ _ _ Hf) as (i & Hfm & _).
  destruct (file_name_ok new (po_temporary new) Hn) as (T1 & T2 & T3 & T4). fold to in T1, T2, T3, T4.
  assert (Hno : no_match to (img s) n). { apply find_file_None. specialize (Hto u). unfold file in Hto. by destruct (find_file to (img s) n). }
  assert (Hne : c_str from <> c_str to). { intros E. destruct Hfm as [H1 H2 _]. rewrite (is_file_name from to), Hno in H2 by done. done. }
  eapply wp_mono; [apply (rename_free_done CACHE RD reset RD_pos n i old (Some new) ov s); try done; [apply Hcs|exact (Nat.lt_le_incl _ _ T4)]|].
  change (rename_to old (Some new)) with to. intros r s' [R1 R2 R3 (ms & R4 & R5 & R6)].
  destruct (put_renamed from to n (img s) i (cs_wf _ _ Hcs) (cs_fat _ _ Hcs) (cs_layout _ _ Hcs) (cs_unique _ _ Hcs) Hfm Hno T3 (Nat.lt_le_incl _ _ T4) Hne) as [Q1 Q2 Q3 Q4 Q5 Q6].
  assert (Hcs2 : consistent (put_entry (img s) i (renamed_entry to (img s) i)) n).
  { assert (Hi := active_not_last _ _ _ (cs_fat _ _ Hcs) (fm_lt _ _ _ _ Hfm) (match_active _ _ _ _ Hfm)).
    destruct (renamed_entry_ok (img s) n i to (cs_wf _ _ Hcs) (cs_fat _ _ Hcs) (cs_layout _ _ Hcs) Hi T3 (Nat.lt_le_incl _ _ T4)) as [Hw _ _ _ _].
    split; try done. apply blocks_wf_insert; [apply Hcs|by apply fe_bytes_length|by apply fe_bytes_bytes]. }
  split.
  - exists ms. split; [done|]. intros m' Hm'. by rewrite (R5 m' Hm').
  - destruct r as [[]|e|]; [| |done].
    + destruct R6 as [Hok' Him']. rewrite Him'. split; [split; [done|by rewrite Him']|done].
    + destruct R6 as [?|[-> Hok']]; [by left|right]. rewrite app_nil_r in R4. split; [|done]. split; [done|]. unfold img. by rewrite R4.
Qed.

(** ** Creating *)

(** C3. Creating a new object with [rpmb_fs_create], where neither a file of its name nor a temporary file of
    that name exists, is all or nothing: when it succeeds, the object is there under its name with its header,
    attributes and data, its temporary file is gone and no other file has changed; and in every image that
    the device went through, with the table growing if it was full, the file system was in order and the object
    was there as a whole or not at all. Nothing is said of a creation that fails, nor of one that replaces an object or finds a
    temporary file of an interrupted one, which go wrong ([RpmbDemo.rename_overwrite_not_atomic],
    [RpmbDemo.leftover_temporary_file]). *)
Theorem rpmb_fs_create_atomic fuel po ov head attr data mx n (s : FS) :
  in_order s n -> max_block s mx -> po_wf po -> po_temporary po = true ->
  let t := file_name empty_name po true in let f := file_name empty_name po false in let u := po_uuid po in
  let d := part_data head ++ part_data attr ++ part_data data in
  (forall u, file u t (img s) n = None) -> (forall u, file u f (img s) n = None) -> Forall is_byte d ->
  wp (rpmb_fs_create CACHE RD reset fuel po ov head attr data) (fun r s' => forall fh po', r = ROk (fh, po') ->
    (exists ms, dl_hist (fs_dev s') = dl_hist (fs_dev s) ++ ms /\ forall m', m' ∈ ms -> object_image t f u (img s) n d m') /\
    fh_uuid fh = u /\ c_str (fh_filename fh) = c_str f /\ po' = set_temporary false po /\
    exists n', in_order s' n' /\ file u f (img s') n' = Some d /\ file u t (img s') n' = None /\
      forall name u', c_str name <> c_str t -> c_str name <> c_str f -> file u' name (img s') n' = file u' name (img s) n) s.
Proof.
  intros [Hok Hcs] Hmb Hpo Htmp t f u d Ht Hf Hb.
  assert (Hno : forall name, (forall u, file u name (img s) n = None) -> no_match name (img s) n).
  { intros name H. apply find_file_None. specialize (H u). unfold file in H. by destruct (find_file name (img s) n). }
  eapply wp_mono; [apply (create_done CACHE RD reset RD_pos fuel po ov head attr data mx n s); try done; by apply Hno|].
  intros r s' Hr fh po' Er. destruct (Hr fh po' Er) as (H1 & H2 & H3 & H4 & n' & H5 & H6 & H7 & H8 & H9). split_and!; try done. exists n'. by split_and!.
Qed.

(** ** Searching and listing *)

(** C27. Whatever the size of the cache and of its reads, [read_fat] finds what a search of the table on the
    device entry by entry would find: for a new handle, success means that there is a file of the name, and the handle gets the entry and
    the address of the first one; on an error the handle is as before. And on a device that answers (reads inside of it and
    allocations succeed) and is longer than the table by the entries that are read at once, it
    succeeds exactly when there is a file of the name and fails with TEE_ERROR_ITEM_NOT_FOUND exactly when there is none. Nothing is written. *)
Theorem fat_search_cache_independent n fh (o : OP) :
  in_order (op_fs o) n -> op_fh o = fh -> fh_rpmb_fat_address fh = 0 ->
  wp (read_fat CACHE RD reset false) (fun r o' => in_order (op_fs o') n /\ dl_hist (fs_dev (op_fs o')) = dl_hist (fs_dev (op_fs o)) /\
    let answering := exists P, answers P /\ P (fs_dev (op_fs o)) /\ (2 + n + RD <= length (img (op_fs o)))%nat in
    match r, find_file (fh_filename fh) (img (op_fs o)) n with
    | ROk _, Some i => op_fh o' = set_entry_at (entry (img (op_fs o)) i) (entry_addr i) fh
    | ROk _, None => False
    | RErr e, Some _ => op_fh o' = fh /\ ~ answering
    | RErr e, None => op_fh o' = fh /\ (answering -> e = TEE_ERROR_ITEM_NOT_FOUND)
    | RPanic, _ => False
    end) o.
Proof.
  intros [Hok Hcs] <- Ha. pose proof (read_fat_fine CACHE RD reset RD_pos) as Hfine. unfold wp in *.
  pose proof (read_fat_plain CACHE RD reset RD_pos n n o Hok) as Hp. unfold wp in Hp. destruct (read_fat CACHE RD reset false o) as [r o'] eqn:Er. cbn [fst snd] in *.
  destruct Hp as (Hs & Hc & _ & Hok' & Hr). cbv zeta.
  pose proof (fs_same_img _ _ Hs) as Him. split; [split; [done|by rewrite Him]|]. split; [by destruct Hs as [[] _]|]. destruct r as [[]|e|]; [| |done].
  { destruct Hr as [(i & Hfm & E)|(_ & _ & ?)]; [|done]. by rewrite (proj2 (find_file_Some _ _ _ _) Hfm). }
  assert (He : (exists P, answers P /\ P (fs_dev (op_fs o)) /\ (2 + n + RD <= length (img (op_fs o)))%nat) ->
    e = TEE_ERROR_ITEM_NOT_FOUND /\ no_match (fh_filename (op_fh o)) (img (op_fs o)) n).
  { intros (P & HP & Hs0 & Hroom). specialize (Hfine P HP n n o Hs0 Hroom Hok Ha). rewrite Er in Hfine. by apply Hfine. }
  destruct (find_file _ _ n) as [i|] eqn:Ef; (split; [done|]).
  - intros Han. destruct (He Han) as [_ Hno]. apply find_file_None in Hno. congruence.
  - intros Han. by apply He.
Qed.

(** The active entries are files of objects. *)
Definition objects_only (m : image) (n : nat) : Prop :=
  forall i, (i < n)%nat -> is_active (entry m i) = true -> exists po t, po_wf po /\ c_str (fe_filename (entry m i)) = obj_path po t.

Definition object (uuid id : bytes) : tee_pobj := mk_pobj 0 0 uuid id 0 false false 0.

Lemma is_object_file uuid id e :
  po_wf (object uuid id) -> is_file (file_name empty_name (object uuid id) false) e = is_active e && bool_decide (c_str (fe_filename e) = obj_path (object uuid id) false).
Proof.
  intros Hpo. destruct (file_name_ok _ false Hpo) as (E & _). unfold is_file, strcmp_eq. rewrite E, andb_comm. f_equal. apply bool_decide_ext. by split.
Qed.

Lemma dir_entry_elem uuid m n i id :
  length uuid = 16%nat -> Forall is_byte uuid -> objects_only m n -> (i < n)%nat -> id <> [] ->
  dir_entry (dir_path uuid) (entry m i) = Some id <-> po_wf (object uuid id) /\ is_file (file_name empty_name (object uuid id) false) (entry m i) = true.
Proof.
  intros Hl Hb Hobj Hi Hne. split.
  - intros E. assert (Ha : is_active (entry m i) = true) by (unfold dir_entry in E; by destruct (is_active (entry m i))).
    destruct (Hobj i Hi Ha) as (po & t & Hpo & Hn). rewrite (dir_entry_object po t uuid) in E by done. case_decide as Hu; [|done]. destruct t; [by injection E as <-|].
    case_decide; [done|]. injection E as <-. subst uuid. assert (Hpo' : po_wf (object (po_uuid po) (po_obj_id po))) by (destruct Hpo; by split).
    split; [done|]. rewrite is_object_file by done. rewrite Ha. by apply bool_decide_eq_true.
  - intros [Hpo E]. rewrite is_object_file in E by done. apply andb_true_iff in E as [Ha En%bool_decide_eq_true].
    rewrite (dir_entry_object _ false uuid _ Hpo Hl Hb Ha En). rewrite decide_True by done. by rewrite decide_False.
Qed.

Lemma dir_list_elem uuid m n id :
  length uuid = 16%nat -> Forall is_byte uuid -> objects_only m n ->
  id ∈ dir_list (dir_path uuid) m n <-> id <> [] /\ po_wf (object uuid id) /\ exists d, file uuid (file_name empty_name (object uuid id) false) m n = Some d.
Proof.
  intros Hl Hb Hobj. unfold dir_list. rewrite list_elem_of_filter, list_elem_of_omap. split.
  - intros [Hne (e & He & E)]. apply list_elem_of_fmap in He as (i & -> & Hi%elem_of_seq). destruct Hi as [_ Hi].
    apply (dir_entry_elem uuid m n i id Hl Hb Hobj Hi Hne) in E as [Hpo E]. split_and!; try done. unfold file.
    destruct (find_file _ m n) as [k|] eqn:Ek; [by eexists|]. apply find_file_None in Ek. by rewrite Ek in E.
  - intros (Hne & Hpo & d & Hf). split; [done|]. destruct (file_match _ _ _ _ _ Hf) as (i & Hfm & _). exists (entry m i). split.
    + apply list_elem_of_fmap. exists i. split; [done|]. apply elem_of_seq. destruct Hfm. lia.
    + apply (dir_entry_elem uuid m n i id Hl Hb Hobj (fm_lt _ _ _ _ Hfm) Hne). split; [done|apply Hfm].
Qed.

Lemma dir_list_nodup uuid m n k :
  length uuid = 16%nat -> Forall is_byte uuid -> objects_only m n -> unique_names m n -> (k <= n)%nat -> NoDup (dir_list (dir_path uuid) m k).
Proof.
  intros Hl Hb Hobj Hu. induction k as [|k IH]; intros Hk; [constructor|]. rewrite <- Nat.add_1_r, dir_list_step.
  destruct (dir_entry (dir_path uuid) (entry m k)) as [id|] eqn:E; [|rewrite app_nil_r; apply IH; lia]. destruct id as [|x id]; cbn [length Nat.eqb]; [rewrite app_nil_r; apply IH; lia|].
  apply NoDup_app. split_and!; [apply IH; lia| |apply NoDup_singleton]. intros y Hy ->%list_elem_of_singleton.
  assert (Hobj' : objects_only m k) by (intros j Hj; apply Hobj; lia).
  apply (dir_list_elem uuid m k _ Hl Hb Hobj') in Hy as (Hne & Hpo & d & Hf). destruct (file_match _ _ _ _ _ Hf) as (j & Hfm & _).
  apply (dir_entry_elem uuid m n k _ Hl Hb Hobj ltac:(lia) Hne) in E as [_ E]. assert (Hjk := fm_lt _ _ _ _ Hfm).
  assert (j = k) by (eapply Hu; [lia|lia|apply Hfm|exact E]). lia.
Qed.

(** [rpmb_fs_opendir] lists the objects of a TA: each identifier for which there is a file, once, and nothing else,
    so neither objects of other TAs nor temporary files. *)
Theorem rpmb_fs_opendir_lists n uuid (s : FS) :
  in_order s n -> length uuid = 16%nat -> Forall is_byte uuid -> objects_only (img s) n ->
  wp (rpmb_fs_opendir CACHE RD reset uuid) (fun r s' => in_order s' n /\ dl_hist (fs_dev s') = dl_hist (fs_dev s) /\ r <> RPanic /\
    forall dir, r = ROk dir -> NoDup (dir_next dir) /\
      forall id, id ∈ dir_next dir <-> id <> [] /\ po_wf (object uuid id) /\ exists d, file uuid (file_name empty_name (object uuid id) false) (img s) n = Some d) s.
Proof.
  intros [Hok Hcs] Hl Hb Hobj. unfold rpmb_fs_opendir. destruct (opendir_path uuid Hl Hb) as (buf & Ebuf & Epath). cbv zeta in Epath. rewrite Ebuf, Epath.
  eapply wp_seq; [apply alloc_same, Hok|]. intros r s1 (Hs1 & Ed1 & Hc1). pose proof (fs_same_img _ _ Hs1) as Him1.
  assert (Hok1 : fs_ok CACHE RD s1 n n) by (eapply fs_ok_same; [exact Hs1|rewrite Ed1; apply Hok|done]).
  destruct r as [[]|e|]; cbn [cont]; [| |done].
  2: { split; [split; [done|by rewrite Him1]|]. split; [by destruct Hs1 as [[] _]|done]. }
  eapply wp_mono; [by apply (dir_populate_spec CACHE RD reset RD_pos (dir_path uuid) n n)|]. intros r s2 (Hs2 & Hc2 & Hok2 & Hr2).
  assert (Hs : fs_same s s2) by (by etransitivity). pose proof (fs_same_img _ _ Hs) as Him. split; [split; [done|by rewrite Him]|]. split; [by destruct Hs as [[] _]|].
  split; [by destruct r|]. intros dir ->. destruct (Hr2 dir eq_refl) as [-> _]. cbn [dir_next]. rewrite Him1.
  split; [by apply (dir_list_nodup uuid (img s) n n Hl Hb Hobj (cs_unique _ _ Hcs))|]. intros id. by apply dir_list_elem.
Qed.
End guarantee.

(** Two objects never share a file: the name of a file tells the TA, the identifier and whether the object is being
    created. *)
Theorem object_files_differ po po' t t' :
  po_wf po -> po_wf po' -> strcmp_eq (file_name empty_name po t) (file_name empty_name po' t') = true ->
  po_uuid po = po_uuid po' /\ po_obj_id po = po_obj_id po' /\ t = t'.
Proof.
  intros Hpo Hpo' E%bool_decide_eq_true. destruct (file_name_ok po t Hpo) as (E1 & _), (file_name_ok po' t' Hpo') as (E2 & _). rewrite E1, E2 in E. by apply obj_path_inj.
Qed.
