(* ===== verification/RpmbDemo.v ===== *)
(** * Concrete runs of the RPMB file system

    A check of an image that decides whether a file system is in order, small devices in memory, and the theorems
    applied to them; runs that show where the code does not do what it should. *)

From S2P Require Import Prelude TeeMm Pobj ErrM Cipher CipherModes FsKey Rpmb RpmbSpec RpmbDev RpmbBlocks RpmbFat RpmbFs RpmbFatSpec RpmbFatFind RpmbFatFound RpmbFsData RpmbFsWrite RpmbFsOps RpmbFsNames RpmbFsDir RpmbFsCreate RpmbRam RpmbFsProps.
From stdpp Require Import base list sets.
From Stdlib Require Import ZArith Lia.

Local Open Scope Z_scope.

(** ** Checking an image *)

Definition block_b (b : bytes) : bool := (length b =? 256)%nat && forallb (fun x => (0 <=? x) && (x <? 256)) b.
Definition apart_b (a l a' l' : Z) : bool := ((a + l - 1) / 256 <? a' / 256) || ((a' + l' - 1) / 256 <? a / 256).
Definition file_b (m : image) (n i : nat) : bool :=
  negb (used (entry m i)) ||
  apart_b (fstart m i) (fsize m i) 0 (fat_end n false) && (fstart m i + fsize m i <=? 256 * Z.of_nat (length m)).
Definition pair_b (m : image) (i j : nat) : bool :=
  (i =? j)%nat ||
  (negb (used (entry m i) && used (entry m j)) || apart_b (fstart m i) (fsize m i) (fstart m j) (fsize m j)) &&
  negb (is_active (entry m i) && is_active (entry m j) && strcmp_eq (fe_filename (entry m i)) (fe_filename (entry m j))).

Definition consistent_b (m : image) (n : nat) : bool :=
  forallb block_b m && (0 <? n)%nat && (2 + n <=? length m)%nat && is_last (entry m (n - 1)) && negb (is_active (entry m (n - 1))) &&
  forallb (fun i => negb (is_last (entry m i))) (seq 0 (n - 1)) && forallb (file_b m n) (seq 0 n) &&
  forallb (fun i => forallb (pair_b m i) (seq 0 n)) (seq 0 n).

Lemma apart_b_sound a l a' l' : apart_b a l a' l' = true -> apart a l a' l'.
Proof. unfold apart_b, apart, in_blocks. intros [H%Z.ltb_lt|H%Z.ltb_lt]%orb_true_iff i [[H1 H2] [H3 H4]]; lia. Qed.

Lemma forallb_seq f n i : forallb f (seq 0 n) = true -> (i < n)%nat -> f i = true.
Proof. intros H Hi. rewrite forallb_forall in H. apply H, list_elem_of_In, elem_of_seq. lia. Qed.

Lemma block_b_sound m : forallb block_b m = true -> blocks_wf m.
Proof.
  intros H. apply Forall_forall. intros b Hb%list_elem_of_In. rewrite forallb_forall in H. apply H in Hb. unfold block_b in Hb.
  apply andb_true_iff in Hb as [H1%Nat.eqb_eq H2]. split; [done|]. rewrite forallb_forall in H2. apply Forall_forall. intros x Hx%list_elem_of_In.
  apply H2, andb_true_iff in Hx as [?%Z.leb_le ?%Z.ltb_lt]. done.
Qed.

Lemma consistent_sound m n : consistent_b m n = true -> consistent m n.
Proof.
  unfold consistent_b. rewrite !andb_true_iff. intros [[[[[[[H1 H2] H3] H4] H5] H6] H7] H8].
  apply Nat.ltb_lt in H2. apply Nat.leb_le in H3. apply negb_true_iff in H5.
  assert (Hp : forall i j, (i < n)%nat -> (j < n)%nat -> i <> j -> (used (entry m i) = true -> used (entry m j) = true -> apart (fstart m i) (fsize m i) (fstart m j) (fsize m j)) /\
     (is_active (entry m i) = true -> is_active (entry m j) = true -> strcmp_eq (fe_filename (entry m i)) (fe_filename (entry m j)) = false)).
  { intros i j Hi Hj Hne. pose proof (forallb_seq _ n j (forallb_seq _ n i H8 Hi) Hj) as E. unfold pair_b in E. apply orb_true_iff in E as [E%Nat.eqb_eq|E]; [done|].
    apply andb_true_iff in E as [E1 E2]. split.
    - intros Hu Hu'. rewrite Hu, Hu' in E1. by apply apart_b_sound.
    - intros Ha Ha'. rewrite Ha, Ha' in E2. by apply negb_true_iff in E2. }
  assert (Hf : forall i, (i < n)%nat -> used (entry m i) = true -> apart (fstart m i) (fsize m i) 0 (fat_end n false) /\ on_device m (entry m i)).
  { intros i Hi Hu. pose proof (forallb_seq _ n i H7 Hi) as E. unfold file_b in E. rewrite Hu in E. cbn [negb orb] in E. apply andb_true_iff in E as [E1 E2%Z.leb_le].
    split; [by apply apart_b_sound|done]. }
  split; [by apply block_b_sound|split; [split; [done|done|done|]|done]|split|].
  - intros i Hi. apply negb_true_iff. apply (forallb_seq _ (n - 1) i H6). lia.
  - intros i j Hi Hj Hne. by apply Hp.
  - intros i Hi Hu. by apply Hf.
  - intros i Hi Hu. by apply Hf.
  - intros name i j Hi Hj Fi Fj. destruct (decide (i = j)) as [|Hne]; [done|exfalso]. destruct (Hp i j Hi Hj Hne) as [_ Hs].
    unfold is_file in Fi, Fj. apply andb_true_iff in Fi as [Fi Ai], Fj as [Fj Aj]. specialize (Hs Ai Aj). unfold strcmp_eq in *.
    apply bool_decide_eq_true in Fi, Fj. apply bool_decide_eq_false in Hs. congruence.
Qed.

(** A mounted device in memory, whose cache is empty. *)
Definition mounted_ram (m : image) : fs_state ram := mk_fs (Some (mk_par RPMB_FS_FAT_START_ADDRESS ((Z.of_nat (length m) - 1) * 256))) None (mk_ram [m] false true [] None).

Lemma mounted_ram_ok CACHE RD m n : consistent_b m n = true -> Z.of_nat (length m + RD) <= 65535 -> in_order CACHE RD (mounted_ram m) n.
Proof.
  intros H%consistent_sound Hsz. assert (Hl := fl_dev _ _ (fo_len _ _ (cs_fat _ _ H))). split; [|done]. split; [|apply H|done|done].
  split; [split; [done|apply H]|done|done|done|]. exists (Z.of_nat (length m) - 1). split; [|done]. pose proof (fl_pos _ _ (fo_len _ _ (cs_fat _ _ H))). lia.
Qed.

(** ** Small devices *)

Definition no_blocks (n : nat) : image := replicate n (replicate 256 0).
Definition new_ram (m : image) : fs_state ram := mk_fs None None (mk_ram [m] false false [] None).
Definition ta : bytes := replicate 16 17.
Definition obj (id : bytes) : tee_pobj := mk_pobj 1 1 ta id 0 true true 0.
Definition named (id : bytes) : tee_pobj := object ta id.

(** The image after [m], from the image [i]. *)
Definition image_after {A} (m : M (fs_state ram) A) (i : image) : image := ram_img (fs_dev (m (new_ram i)).2).
Definition result_of {A} (m : M (fs_state ram) A) (s : fs_state ram) : rres A := (m s).1.

(** A device of sixteen blocks with an object of five bytes. *)
Definition demo_image : image := Eval vm_compute in image_after (rpmb_fs_create 4 4 false 1 (obj [1]) false (Some [1; 2]) None (Some [3; 4; 5])) (no_blocks 16).
Definition demo_fs : fs_state ram := mounted_ram demo_image.
Definition demo_fh : rpmb_file_handle := mk_fh zero_fe ta (file_name empty_name (named [1]) false) 0.
Definition demo_op : op_state ram := mk_op demo_fs demo_fh empty_pool.

Lemma demo_in_order : in_order 4 4 demo_fs 2.
Proof. apply mounted_ram_ok; [vm_compute; reflexivity|done]. Qed.
Lemma demo_max : max_block demo_fs 15.
Proof. split; [done|vm_compute; reflexivity]. Qed.
Lemma demo_file : file ta (file_name empty_name (named [1]) false) (img demo_fs) 2 = Some [1; 2; 3; 4; 5].
Proof. vm_compute. reflexivity. Qed.
Lemma demo_no_other u : file u (file_name empty_name (named [2]) false) (img demo_fs) 2 = None /\ file u (file_name empty_name (named [2]) true) (img demo_fs) 2 = None.
Proof. split; vm_compute; reflexivity. Qed.

(** ** The theorems on this device *)


Lemma rpmb_fs_truncate_atomic_witness :
  wp (rpmb_fs_truncate 4 4 false 7)
    (fun r o' => atomic_op 4 4 (fh_filename demo_fh) ta 2 (Some [1; 2; 3; 4; 5]) (Some [1; 2; 3; 4; 5; 0; 0]) demo_fs r (op_fs o') /\ named_like demo_fh (op_fh o')) demo_op.
Proof. apply (rpmb_fs_truncate_atomic 4 4 false ltac:(lia) 15 2 7 [1; 2; 3; 4; 5] demo_op demo_in_order demo_max demo_file). done. Defined.

Lemma rpmb_fs_read_contents_witness :
  wp (rpmb_fs_read 4 4 false 1 3) (fun r o' => in_order 4 4 (op_fs o') 2 /\ dl_hist (fs_dev (op_fs o')) = dl_hist (fs_dev demo_fs) /\
    match r with ROk d => d = [2; 3; 4] | RErr _ => True | RPanic => False end) demo_op.
Proof. apply (rpmb_fs_read_contents 4 4 false ltac:(lia) 2 1 3 [1; 2; 3; 4; 5] demo_op demo_in_order demo_file); done. Defined.

Lemma rpmb_fs_remove_atomic_witness :
  wp (rpmb_fs_remove 4 4 false (named [1])) (atomic_op 4 4 (file_name empty_name (named [1]) false) ta 2 (Some [1; 2; 3; 4; 5]) None demo_fs) demo_fs.
Proof. apply (rpmb_fs_remove_atomic 4 4 false ltac:(lia) 2 (named [1]) ta [1; 2; 3; 4; 5] demo_fs demo_in_order). exact demo_file. Defined.

Lemma named_wf id : Z.of_nat (length id) <= 64 -> Forall is_byte id -> po_wf (named id).
Proof. intros H1 H2. split; [split; [done|by repeat constructor]|done]. Qed.

Lemma rpmb_fs_rename_atomic_witness :
  let from := file_name empty_name (named [1]) false in let to := file_name empty_name (named [2]) false in
  wp (rpmb_fs_rename 4 4 false (named [1]) (named [2]) false) (fun r s' =>
    (exists ms, dl_hist (fs_dev s') = dl_hist (fs_dev demo_fs) ++ ms /\ forall m', m' ∈ ms -> renamed_image from to (img demo_fs) 2 m') /\
    match r with
    | ROk _ => in_order 4 4 s' 2 /\ renamed_image from to (img demo_fs) 2 (img s')
    | RErr _ => dl_dead (fs_dev s') = true \/ in_order 4 4 s' 2 /\ dl_hist (fs_dev s') = dl_hist (fs_dev demo_fs)
    | RPanic => False
    end) demo_fs.
Proof.
  apply (rpmb_fs_rename_atomic 4 4 false ltac:(lia) 2 (named [1]) (named [2]) false demo_fs demo_in_order); [by apply named_wf; [|repeat constructor]..| |].
  - exists ta, [1; 2; 3; 4; 5]. exact demo_file.
  - intros u. apply demo_no_other.
Defined.

Lemma rpmb_fs_create_atomic_witness :
  let t := file_name empty_name (obj [2]) true in let f := file_name empty_name (obj [2]) false in
  wp (rpmb_fs_create 4 4 false 1 (obj [2]) false (Some [7]) None (Some [8; 9])) (fun r s' => forall fh po', r = ROk (fh, po') ->
    (exists ms, dl_hist (fs_dev s') = dl_hist (fs_dev demo_fs) ++ ms /\ forall m', m' ∈ ms -> object_image t f ta (img demo_fs) 2 [7; 8; 9] m') /\
    fh_uuid fh = ta /\ c_str (fh_filename fh) = c_str f /\ po' = set_temporary false (obj [2]) /\
    exists n', in_order 4 4 s' n' /\ file ta f (img s') n' = Some [7; 8; 9] /\ file ta t (img s') n' = None /\
      forall name u', c_str name <> c_str t -> c_str name <> c_str f -> file u' name (img s') n' = file u' name (img demo_fs) 2) demo_fs.
Proof.
  apply (rpmb_fs_create_atomic 4 4 false ltac:(lia) 1 (obj [2]) false (Some [7]) None (Some [8; 9]) 15 2 demo_fs demo_in_order demo_max); [|done|intros u; apply demo_no_other..|by repeat constructor].
  split; [split; [done|by repeat constructor]|split; [done|by repeat constructor]].
Defined.

(** A device in memory answers while it is alive and no allocation is bound to fail. *)
Lemma ram_answers : answers (fun s : ram => ram_dead s = false /\ ram_allocs s = []).
Proof.
  split.
  - intros s addr len k [Hd Ha] _ _ _ Hl. unfold wp. cbn. unfold ram_read. rewrite Hd. fold (ram_img s) in Hl.
    change (latest (dl_hist s)) with (ram_img s) in Hl. rewrite (proj2 (Nat.leb_le _ _) Hl). done.
  - intros s [Hd Ha] _. unfold wp. cbn. unfold ram_alloc. by rewrite Ha.
Qed.

Lemma fat_search_cache_independent_witness :
  wp (read_fat 4 4 false false) (fun r o' => r = ROk tt /\ op_fh o' = set_entry_at (entry (img demo_fs) 0) 512 demo_fh) demo_op.
Proof.
  eapply wp_mono; [apply (fat_search_cache_independent 4 4 false ltac:(lia) 2 demo_fh demo_op demo_in_order); done|].
  assert (E : find_file (fh_filename demo_fh) (img (op_fs demo_op)) 2 = Some 0%nat) by (vm_compute; reflexivity). rewrite E.
  intros [[]|e|] o' (_ & _ & H); [by split| |done]. exfalso. destruct H as [_ H]. apply H.
  exists (fun s : ram => ram_dead s = false /\ ram_allocs s = []). split_and!; [exact ram_answers|done|done|vm_compute; lia].
Defined.

(** ** Runs that go wrong *)

(** A write of 300 bytes at the beginning of a file of 600 bytes: what follows is lost. *)
Example write_loses_tail :
  result_of (x ← rpmb_fs_create 4 4 false 1 (obj [1]) false None None (Some (replicate 600 7));
             with_fh x.1 (rpmb_fs_write_primitive 4 4 false 0 (replicate 300 9) ;; rpmb_fs_read 4 4 false 0 600)) (new_ram (no_blocks 16))
  = ROk (replicate 300 9 ++ replicate 300 0).
Proof. vm_compute. reflexivity. Qed.

(** An object is created when the table cannot grow any more: the error path clears the last entry, and the
    table has no end. *)
Example failed_create_loses_end :
  let m := rpmb_fs_create 4 4 false 1 (obj [1]) false (Some [1]) None None ;; rpmb_fs_create 4 4 false 1 (obj [2]) false (Some [2]) None None in
  result_of m (new_ram (no_blocks 6)) = RErr TEE_ERROR_OUT_OF_MEMORY /\
  map (fun i => is_last (entry (image_after (rpmb_fs_create 4 4 false 1 (obj [1]) false (Some [1]) None None) (no_blocks 6)) i)) (seq 0 4) = [false; true; false; false] /\
  map (fun i => is_last (entry (image_after m (no_blocks 6)) i)) (seq 0 4) = [false; false; false; false].
Proof. vm_compute. repeat split. Qed.

Definition two_images : image := Eval vm_compute in
  image_after (rpmb_fs_create 4 4 false 1 (obj [1]) false (Some [1]) None None ;; rpmb_fs_create 4 4 false 1 (obj [2]) false (Some [2]) None None) (no_blocks 16).
(** Memory runs out in the fifth allocation, or power after [p] blocks. *)
Definition short_of_memory (m : image) : fs_state ram := mk_fs (fs_par (mounted_ram m)) None (mk_ram [m] false true [true; true; true; true; false] None).
Definition short_of_power (p : nat) (m : image) : fs_state ram := mk_fs (fs_par (mounted_ram m)) None (mk_ram [m] false true [] (Some p)).

(** Renaming to a name that is in use, when the search of this name fails for want of memory: two files have the name. *)
Example rename_duplicates_name :
  let '(r, s) := rpmb_fs_rename 0 1 false (named [1]) (named [2]) false (short_of_memory two_images) in
  r = ROk tt /\ map (fun i => is_file (file_name empty_name (named [2]) false) (entry (ram_img (fs_dev s)) i)) (seq 0 3) = [true; true; false].
Proof. vm_compute. repeat split. Qed.

(** Replacing an object: there is an image in which the name has no file. *)
Example rename_overwrite_not_atomic :
  let s := (rpmb_fs_rename 4 4 false (named [1]) (named [2]) true (mounted_ram two_images)).2 in
  map (fun m => file ta (file_name empty_name (named [2]) false) m 3) (ram_hist (fs_dev s)) = [Some [2]; None; Some [1]].
Proof. vm_compute. reflexivity. Qed.

(** A handle whose file has been removed still reads it. *)
Example removed_file_still_read :
  result_of (x ← rpmb_fs_open 4 4 false (named [1]); rpmb_fs_remove 4 4 false (named [1]) ;; with_fh x.2 (rpmb_fs_read 4 4 false 0 10)) (mounted_ram two_images)
  = ROk [1].
Proof. vm_compute. reflexivity. Qed.

(** Power fails in the creation of an object of five bytes; it is created again with one byte, and has five. *)
Example leftover_temporary_file :
  let cut := ram_img (fs_dev (rpmb_fs_create 4 4 false 1 (obj [3]) false None None (Some [1; 2; 3; 4; 5]) (short_of_power 4 demo_image)).2) in
  result_of (x ← rpmb_fs_create 4 4 false 1 (obj [3]) false None None (Some [7]); with_fh x.1 (rpmb_fs_read 4 4 false 0 10)) (new_ram cut)
  = ROk [7; 2; 3; 4; 5].
Proof. vm_compute. reflexivity. Qed.

Lemma rpmb_fs_opendir_lists_witness :
  wp (rpmb_fs_opendir 4 4 false ta) (fun r s' => in_order 4 4 s' 2 /\ dl_hist (fs_dev s') = dl_hist (fs_dev demo_fs) /\ r <> RPanic /\
    forall dir, r = ROk dir -> NoDup (dir_next dir) /\
      forall id, id ∈ dir_next dir <-> id <> [] /\ po_wf (object ta id) /\ exists d, file ta (file_name empty_name (object ta id) false) (img demo_fs) 2 = Some d) demo_fs.
Proof.
  apply (rpmb_fs_opendir_lists 4 4 false ltac:(lia) 2 ta demo_fs demo_in_order); [done|by repeat constructor|].
  intros [|[|i]] Hi Ha; [|by vm_compute in Ha|lia]. exists (named [1]), false. split; [by apply named_wf; [|repeat constructor]|vm_compute; reflexivity].
Defined.

Lemma object_files_differ_witness : po_uuid (named [1]) = po_uuid (obj [1]) /\ po_obj_id (named [1]) = po_obj_id (obj [1]) /\ true = true.
Proof.
  apply (object_files_differ (named [1]) (obj [1]) true true); [by apply named_wf; [|repeat constructor]| |by vm_compute].
  split; [split; [done|by repeat constructor]|split; [done|by repeat constructor]].
Defined.
