(* ===== verification/Session.v ===== *)
(** * Sessions of trusted applications

    [core/kernel/tee_ta_manager.c] with the operations of user and pseudo TA
    contexts it calls ([core/kernel/user_ta.c], [pseudo_ta.c]), the requests of
    normal world ([core/tee/entry_std.c]) and the system calls on sessions
    ([core/tee/tee_svc.c]).

    Several threads run this code at once. What one thread does while it holds
    [tee_ta_mutex], and each access made without it, is one atomic action on the
    shared state, in the monad of [ErrM]; a thread that waits on a condition variable
    goes on when its condition holds. A function is a program ([prog]) of actions, waits,
    questions to code that is not modelled, entries of user TAs (which may make
    system calls) and calls of the mutually recursive functions. The state holds the
    objects that are allocated: an access to one that is not is [RPanic], as a failed
    assertion. *)

From S2P Require Import Prelude ErrM.
From stdpp Require Import base gmap list.
From Stdlib Require Import ZArith Lia.

Local Open Scope Z_scope.

(** ** Data *)

Definition TA_FLAG_SINGLE_INSTANCE : Z := 4.
Definition TA_FLAG_MULTI_SESSION : Z := 8.
Definition TA_FLAG_INSTANCE_KEEP_ALIVE : Z := 16.
Definition TA_FLAG_SECURE_DATA_PATH : Z := 32.
Definition TA_FLAG_CONCURRENT : Z := 256.
Definition TA_FLAG_DEVICE_ENUM : Z := 512.
Definition TA_FLAGS_MASK : Z := 2047.

Definition PTA_MANDATORY_FLAGS : Z :=
  Z.lor TA_FLAG_SINGLE_INSTANCE (Z.lor TA_FLAG_MULTI_SESSION TA_FLAG_INSTANCE_KEEP_ALIVE).
Definition PTA_ALLOWED_FLAGS : Z :=
  Z.lor PTA_MANDATORY_FLAGS (Z.lor TA_FLAG_SECURE_DATA_PATH (Z.lor TA_FLAG_CONCURRENT TA_FLAG_DEVICE_ENUM)).

Definition TEE_ERROR_OVERFLOW : Z := 0xFFFF300F.
Definition TEE_TIMEOUT_INFINITE : Z := 0xFFFFFFFF.
Definition TEE_LOGIN_TRUSTED_APP : Z := 0xF0000000.
Definition TEE_ORIGIN_TEE : Z := 3.
Definition TEE_ORIGIN_TRUSTED_APP : Z := 4.
Definition TEE_PARAM_TYPE_MEMREF_INPUT : Z := 5.
Definition TEE_PARAM_TYPE_MEMREF_OUTPUT : Z := 6.
Definition TEE_PARAM_TYPE_MEMREF_INOUT : Z := 7.

(** [CFG_CORE_MAX_SYSCALL_RECURSION] *)
Definition MAX_SYSCALL_RECURSION : Z := 4.

(** What ends a run other than a failed assertion: [panic()] in [tee_ta_set_busy], and a
    client that breaks the discipline described at [client_names]. *)
Definition KERNEL_PANIC : Z := 1.
Definition RUDE_CLIENT : Z := 2.

(** [struct tee_ta_session_head]: the list of normal world or that of a user TA context. *)
Inductive session_head : Set :=
| LNsec
| LCtx (c : Z).

#[export] Instance session_head_eq_dec : EqDecision session_head.
Proof. solve_decision. Defined.

(** [TEE_Identity], and a pointer to one with its two magic values. *)
Record TEE_Identity : Set := mkId { login : Z; id_uuid : Z }.

#[export] Instance TEE_Identity_eq_dec : EqDecision TEE_Identity.
Proof. solve_decision. Defined.

Inductive client : Set :=
| KERN_IDENTITY
| NSAPP_IDENTITY
| Client (i : TEE_Identity).

Record TEE_Time : Set := mkTime { seconds : Z; millis : Z }.

(** [struct tee_ta_param]: types, and of each memory reference its size and whether
    it is memory of the secure data path. *)
Record tee_ta_param : Set := mkParam { types : Z; mems : list (Z * bool) }.

(** [struct pseudo_ta_head]: which entry points there are. *)
Record pseudo_ta_head : Set := mkPta {
  pta_uuid : Z; pta_flags : Z; pta_named : bool;
  has_create : bool; has_destroy : bool; has_open : bool; has_close : bool; has_invoke : bool }.

(** [ts_ctx->ops] *)
Inductive ctx_ops : Set :=
| user_ta_ops
| pseudo_ta_ops (p : pseudo_ta_head).

Definition is_user_ta (o : ctx_ops) : bool := match o with user_ta_ops => true | _ => false end.

(** [struct tee_ta_ctx], with [is_initializing] and [open_sessions] of [struct user_ta_ctx]. *)
Record tee_ta_ctx : Set := mkCtx {
  c_flags : Z; c_uuid : Z; c_ops : ctx_ops; c_panicked : bool; c_ref_count : Z;
  c_busy : bool; c_is_initializing : bool; c_open_sessions : list Z }.

(** [struct tee_ta_session]; [s_home] is the list it was put in (not in the source). *)
Record tee_ta_session : Set := mkSess {
  s_id : Z; s_clnt_id : TEE_Identity; s_ctx : option Z; s_param : option tee_ta_param;
  s_err_origin : Z; s_cancel : bool; s_cancel_mask : bool; s_cancel_time : TEE_Time;
  s_ref_count : Z; s_lock_thread : option Z; s_unlink : bool; s_home : session_head }.

(** The objects allocated, the lists of [tee_ta_manager.c] and [entry_std.c], the lock of
    single-instance TAs, [tsd->syscall_recursion] of each thread, and the sessions whose
    opening has not returned (not in the source). *)
Record st : Set := mkSt {
  ctxs : gmap Z tee_ta_ctx; sesss : gmap Z tee_ta_session;
  tee_ctxes : list Z; tee_open_sessions : list Z;
  single_thread : option Z; single_count : Z;
  syscall_recursion : gmap Z Z; opening : gset Z }.

Definition st0 : st := mkSt ∅ ∅ [] [] None 0 ∅ ∅.

Definition c_set_flags (f : Z) (c : tee_ta_ctx) :=
  mkCtx f (c_uuid c) (c_ops c) (c_panicked c) (c_ref_count c) (c_busy c) (c_is_initializing c) (c_open_sessions c).
Definition c_set_panicked (b : bool) (c : tee_ta_ctx) :=
  mkCtx (c_flags c) (c_uuid c) (c_ops c) b (c_ref_count c) (c_busy c) (c_is_initializing c) (c_open_sessions c).
Definition c_set_ref_count (n : Z) (c : tee_ta_ctx) :=
  mkCtx (c_flags c) (c_uuid c) (c_ops c) (c_panicked c) n (c_busy c) (c_is_initializing c) (c_open_sessions c).
Definition c_set_busy (b : bool) (c : tee_ta_ctx) :=
  mkCtx (c_flags c) (c_uuid c) (c_ops c) (c_panicked c) (c_ref_count c) b (c_is_initializing c) (c_open_sessions c).
Definition c_set_initializing (b : bool) (c : tee_ta_ctx) :=
  mkCtx (c_flags c) (c_uuid c) (c_ops c) (c_panicked c) (c_ref_count c) (c_busy c) b (c_open_sessions c).
Definition c_set_open_sessions (l : list Z) (c : tee_ta_ctx) :=
  mkCtx (c_flags c) (c_uuid c) (c_ops c) (c_panicked c) (c_ref_count c) (c_busy c) (c_is_initializing c) l.

Definition s_set_clnt_id (i : TEE_Identity) (s : tee_ta_session) :=
  mkSess (s_id s) i (s_ctx s) (s_param s) (s_err_origin s) (s_cancel s) (s_cancel_mask s)
    (s_cancel_time s) (s_ref_count s) (s_lock_thread s) (s_unlink s) (s_home s).
Definition s_set_ctx (c : option Z) (s : tee_ta_session) :=
  mkSess (s_id s) (s_clnt_id s) c (s_param s) (s_err_origin s) (s_cancel s) (s_cancel_mask s)
    (s_cancel_time s) (s_ref_count s) (s_lock_thread s) (s_unlink s) (s_home s).
Definition s_set_param (p : option tee_ta_param) (s : tee_ta_session) :=
  mkSess (s_id s) (s_clnt_id s) (s_ctx s) p (s_err_origin s) (s_cancel s) (s_cancel_mask s)
    (s_cancel_time s) (s_ref_count s) (s_lock_thread s) (s_unlink s) (s_home s).
Definition s_set_err_origin (e : Z) (s : tee_ta_session) :=
  mkSess (s_id s) (s_clnt_id s) (s_ctx s) (s_param s) e (s_cancel s) (s_cancel_mask s)
    (s_cancel_time s) (s_ref_count s) (s_lock_thread s) (s_unlink s) (s_home s).
Definition s_set_cancel (b : bool) (s : tee_ta_session) :=
  mkSess (s_id s) (s_clnt_id s) (s_ctx s) (s_param s) (s_err_origin s) b (s_cancel_mask s)
    (s_cancel_time s) (s_ref_count s) (s_lock_thread s) (s_unlink s) (s_home s).
Definition s_set_cancel_mask (b : bool) (s : tee_ta_session) :=
  mkSess (s_id s) (s_clnt_id s) (s_ctx s) (s_param s) (s_err_origin s) (s_cancel s) b
    (s_cancel_time s) (s_ref_count s) (s_lock_thread s) (s_unlink s) (s_home s).
Definition s_set_cancel_time (t : TEE_Time) (s : tee_ta_session) :=
  mkSess (s_id s) (s_clnt_id s) (s_ctx s) (s_param s) (s_err_origin s) (s_cancel s) (s_cancel_mask s)
    t (s_ref_count s) (s_lock_thread s) (s_unlink s) (s_home s).
Definition s_set_ref_count (n : Z) (s : tee_ta_session) :=
  mkSess (s_id s) (s_clnt_id s) (s_ctx s) (s_param s) (s_err_origin s) (s_cancel s) (s_cancel_mask s)
    (s_cancel_time s) n (s_lock_thread s) (s_unlink s) (s_home s).
Definition s_set_lock_thread (t : option Z) (s : tee_ta_session) :=
  mkSess (s_id s) (s_clnt_id s) (s_ctx s) (s_param s) (s_err_origin s) (s_cancel s) (s_cancel_mask s)
    (s_cancel_time s) (s_ref_count s) t (s_unlink s) (s_home s).
Definition s_set_unlink (b : bool) (s : tee_ta_session) :=
  mkSess (s_id s) (s_clnt_id s) (s_ctx s) (s_param s) (s_err_origin s) (s_cancel s) (s_cancel_mask s)
    (s_cancel_time s) (s_ref_count s) (s_lock_thread s) b (s_home s).

Definition set_ctxs (m : gmap Z tee_ta_ctx) (σ : st) : st :=
  mkSt m (sesss σ) (tee_ctxes σ) (tee_open_sessions σ) (single_thread σ) (single_count σ) (syscall_recursion σ) (opening σ).
Definition set_sesss (m : gmap Z tee_ta_session) (σ : st) : st :=
  mkSt (ctxs σ) m (tee_ctxes σ) (tee_open_sessions σ) (single_thread σ) (single_count σ) (syscall_recursion σ) (opening σ).
Definition set_tee_ctxes (l : list Z) (σ : st) : st :=
  mkSt (ctxs σ) (sesss σ) l (tee_open_sessions σ) (single_thread σ) (single_count σ) (syscall_recursion σ) (opening σ).
Definition set_tee_open_sessions (l : list Z) (σ : st) : st :=
  mkSt (ctxs σ) (sesss σ) (tee_ctxes σ) l (single_thread σ) (single_count σ) (syscall_recursion σ) (opening σ).
Definition set_single (t : option Z) (n : Z) (σ : st) : st :=
  mkSt (ctxs σ) (sesss σ) (tee_ctxes σ) (tee_open_sessions σ) t n (syscall_recursion σ) (opening σ).
Definition set_recursion (m : gmap Z Z) (σ : st) : st :=
  mkSt (ctxs σ) (sesss σ) (tee_ctxes σ) (tee_open_sessions σ) (single_thread σ) (single_count σ) m (opening σ).
Definition set_opening (o : gset Z) (σ : st) : st :=
  mkSt (ctxs σ) (sesss σ) (tee_ctxes σ) (tee_open_sessions σ) (single_thread σ) (single_count σ) (syscall_recursion σ) o.

(** ** Access to memory: what is freed is not read or written *)

Definition rd_sess {A} (s : Z) (f : tee_ta_session -> A) : M st A := fun σ =>
  match sesss σ !! s with Some se => (ROk (f se), σ) | None => (RPanic, σ) end.
Definition wr_sess (s : Z) (f : tee_ta_session -> tee_ta_session) : M st unit := fun σ =>
  match sesss σ !! s with Some se => (ROk tt, set_sesss (<[s := f se]> (sesss σ)) σ) | None => (RPanic, σ) end.
Definition rd_ctx {A} (c : Z) (f : tee_ta_ctx -> A) : M st A := fun σ =>
  match ctxs σ !! c with Some cx => (ROk (f cx), σ) | None => (RPanic, σ) end.
Definition wr_ctx (c : Z) (f : tee_ta_ctx -> tee_ta_ctx) : M st unit := fun σ =>
  match ctxs σ !! c with Some cx => (ROk tt, set_ctxs (<[c := f cx]> (ctxs σ)) σ) | None => (RPanic, σ) end.

(** The list behind a [struct tee_ta_session_head *], and writing it. *)
Definition sessions_of (l : session_head) (σ : st) : list Z :=
  match l with
  | LNsec => tee_open_sessions σ
  | LCtx c => match ctxs σ !! c with Some cx => c_open_sessions cx | None => [] end
  end.
Definition set_sessions_of (l : session_head) (v : list Z) : M st unit :=
  match l with
  | LNsec => modify (set_tee_open_sessions v)
  | LCtx c => wr_ctx c (c_set_open_sessions v)
  end.
Definition rd_head (l : session_head) : M st (list Z) :=
  match l with
  | LNsec => gets tee_open_sessions
  | LCtx c => rd_ctx c c_open_sessions
  end.

(** ** Programs *)

(** Answers of code that is not modelled: the allocator, the clock, the loader, mapping of
    parameters, pseudo TAs. [QFreed] reads a session that was freed, after an opening that ended with [res]:
    a failure ([strict_step]), or, where one looks at what follows ([step]), whatever that memory contains. *)
Inductive question : Set :=
| QAlloc
| QTimeResult | QTimeSeconds | QTimeMillis
| QVmInfoInit | QLoadTa | QTaFlags
| QMapParam | QCopyParams | QUpdateParams
| QPtaCreate (u : Z) | QPtaOpen (u : Z) | QPtaInvoke (u cmd : Z) | QPtaClose (u : Z) | QPtaDestroy (u : Z)
| QFreed (res : Z).

(** [enum utee_entry_func] *)
Inductive entry_func : Set :=
| UTEE_ENTRY_FUNC_OPEN_SESSION
| UTEE_ENTRY_FUNC_CLOSE_SESSION
| UTEE_ENTRY_FUNC_INVOKE_COMMAND (cmd : Z).

(** The functions that call each other: [tee_ta_close_session] and [free_utc]. *)
Inductive proc : Set :=
| PClose (csess : option Z) (l : session_head) (id : client)
| PFreeUtc (c : Z).

(** Result, session id and origin of the error, as in [struct optee_msg_arg]. *)
Record reply : Set := mkReply { r_ret : Z; r_session : Z; r_origin : Z }.
Definition result (r : Z) : reply := mkReply r 0 TEE_ORIGIN_TEE.

Inductive prog (A : Type) : Type :=
| Ret (a : A)
| Act {X : Set} (m : M st X) (k : X -> prog A)
| Await {X : Set} (ready : st -> bool) (m : M st X) (k : X -> prog A)
| Ask (q : question) (k : Z -> prog A)
| Enter (s c : Z) (f : entry_func) (k : Z -> bool -> prog A)
| Call (p : proc) (k : reply -> prog A).
Arguments Ret {A}.
Arguments Act {A X}.
Arguments Await {A X}.
Arguments Ask {A}.
Arguments Enter {A}.
Arguments Call {A}.

Fixpoint p_bind {A B} (f : A -> prog B) (p : prog A) : prog B :=
  match p with
  | Ret a => f a
  | Act m k => Act m (fun x => p_bind f (k x))
  | Await b m k => Await b m (fun x => p_bind f (k x))
  | Ask q k => Ask q (fun a => p_bind f (k a))
  | Enter s c e k => Enter s c e (fun r pk => p_bind f (k r pk))
  | Call p k => Call p (fun r => p_bind f (k r))
  end.

#[export] Instance prog_mret : MRet prog := fun A => @Ret A.
#[export] Instance prog_mbind : MBind prog := fun A B => @p_bind A B.

Definition act {X : Set} (m : M st X) : prog X := Act m Ret.
Definition ask (q : question) : prog Z := Ask q Ret.

(** [while (!ready) condvar_wait(...)] in the middle of a critical section: [m1] up to it, which
    leaves what [m2] goes on with, or the result. *)
Definition locked_wait {X Y : Set} (m1 : M st (X + Y)) (ready : X -> st -> bool) (m2 : X -> M st Y) : prog Y :=
  Act (r ← m1;
       match r with
       | inr y => mret (inr y)
       | inl x => b ← gets (ready x);
                  if (b : bool) then y ← m2 x; mret (inr y) else mret (inl x)
       end)
      (fun r => match r with inr y => Ret y | inl x => Await (ready x) (m2 x) Ret end).

(** ** [tee_ta_manager.c] *)

Section manager.
(** [polite]: clients name a session only after its opening returned, and do not close it
    from two threads at once; [cfg_sdp]: [CFG_SECURE_DATA_PATH]; [pseudo_tas]: the pseudo TAs. *)
Context (polite : bool) (cfg_sdp : bool) (pseudo_tas : list pseudo_ta_head).
(** [thread_get_id()] *)
Context (t : Z).

(** *** The lock of single-instance TAs *)

Definition single_free (σ : st) : bool :=
  match single_thread σ with None => true | Some u => u =? t end.

(** After the wait of [lock_single_instance]. *)
Definition lock_single_instance : M st unit :=
  h ← gets single_thread;
  (if decide (h = Some t) then mret tt
   else n ← gets single_count; modify (set_single (Some t) n) ;; assert_ (n =? 0)) ;;
  n ← gets single_count; modify (set_single (Some t) (n + 1)).

Definition unlock_single_instance : M st unit :=
  h ← gets single_thread; n ← gets single_count;
  assert_ (bool_decide (h = Some t)) ;;
  assert_ (0 <? n) ;;
  modify (set_single h (n - 1)) ;;
  if n - 1 =? 0 then modify (set_single None (n - 1)) else mret tt.

Definition has_single_instance_lock (σ : st) : bool := bool_decide (single_thread σ = Some t).

(** *** Entering an instance *)

(** One of the two waits of [tee_ta_try_set_busy]: for the single-instance lock, or, without it,
    for the TA. *)
Definition busy_ready (c : Z) (σ : st) : bool :=
  match ctxs σ !! c with
  | None => true
  | Some cx => if has_flag (c_flags cx) TA_FLAG_SINGLE_INSTANCE then single_free σ
               else has_single_instance_lock σ || negb (c_busy cx)
  end.

Definition try_set_busy_locked (c : Z) : M st bool :=
  fl ← rd_ctx c c_flags;
  (if has_flag fl TA_FLAG_SINGLE_INSTANCE then lock_single_instance else mret tt) ;;
  own ← gets has_single_instance_lock;
  busy ← rd_ctx c c_busy;
  rc ← (if ((own : bool) && (busy : bool))%bool then
          (if has_flag fl TA_FLAG_SINGLE_INSTANCE then unlock_single_instance else mret tt) ;; mret false
        else mret true);
  wr_ctx c (c_set_busy true) ;;
  mret rc.

Definition tee_ta_try_set_busy (c : Z) : prog bool :=
  fl ← act (rd_ctx c c_flags);
  if has_flag fl TA_FLAG_CONCURRENT then mret true
  else Await (busy_ready c) (try_set_busy_locked c) Ret.

Definition tee_ta_set_busy (c : Z) : prog unit :=
  b ← tee_ta_try_set_busy c;
  if (b : bool) then mret tt else act (throw KERNEL_PANIC).

Definition tee_ta_clear_busy (c : Z) : prog unit :=
  fl ← act (rd_ctx c c_flags);
  if has_flag fl TA_FLAG_CONCURRENT then mret tt
  else act (
    b ← rd_ctx c c_busy;
    assert_ b ;;
    wr_ctx c (c_set_busy false) ;;
    fl ← rd_ctx c c_flags;
    if has_flag fl TA_FLAG_SINGLE_INSTANCE then unlock_single_instance else mret tt).

(** *** References to sessions *)

Definition dec_session_ref_count (s : Z) : M st unit :=
  n ← rd_sess s s_ref_count;
  assert_ (0 <? n) ;;
  wr_sess s (s_set_ref_count (n - 1)).

Definition tee_ta_put_session (s : Z) : prog unit :=
  act (
    h ← rd_sess s s_lock_thread;
    (if decide (h = Some t) then wr_sess s (s_set_lock_thread None) else mret tt) ;;
    dec_session_ref_count s).

Fixpoint find_id (m : gmap Z tee_ta_session) (id : Z) (l : list Z) : option Z :=
  match l with
  | [] => None
  | s :: l => match m !! s with
              | Some se => if s_id se =? id then Some s else find_id m id l
              | None => find_id m id l
              end
  end.

Definition tee_ta_find_session_nolock (id : Z) (l : session_head) : M st (option Z) :=
  v ← rd_head l;
  m ← gets sesss;
  mret (find_id m id v).

Definition tee_ta_find_session (id : Z) (l : session_head) : prog (option Z) := act (tee_ta_find_session_nolock id l).

Definition is_kernel (cl : client) : bool := match cl with KERN_IDENTITY => true | _ => false end.

(** The discipline of clients, when it is assumed: a client does not come across a session whose
    opening has not returned. The kernel itself closes such a session, which ends its opening. *)
Definition client_names (cl : client) (s : Z) : M st unit :=
  if is_kernel cl then modify (fun σ => set_opening (opening σ ∖ {[s]}) σ)
  else o ← gets opening; guard_ (negb (polite && bool_decide (s ∈ o))) RUDE_CLIENT.

Definition lock_ready (s : Z) (σ : st) : bool :=
  match sesss σ !! s with
  | Some se => bool_decide (s_lock_thread se = None) || s_unlink se
  | None => true
  end.

(** After the wait of [tee_ta_get_session]. *)
Definition get_session_locked (s : Z) : M st (option Z) :=
  u ← rd_sess s s_unlink;
  if (u : bool) then dec_session_ref_count s ;; mret None
  else wr_sess s (s_set_lock_thread (Some t)) ;; mret (Some s).

Definition tee_ta_get_session (id : Z) (exclusive : bool) (l : session_head) (cl : client) : prog (option Z) :=
  locked_wait
    (os ← tee_ta_find_session_nolock id l;
     match os with
     | None => mret (inr None)
     | Some s =>
         u ← rd_sess s s_unlink;
         if (u : bool) then mret (inr None)
         else
           client_names cl s ;;
           n ← rd_sess s s_ref_count; wr_sess s (s_set_ref_count (n + 1)) ;;
           if exclusive then
             h ← rd_sess s s_lock_thread;
             assert_ (bool_decide (h <> Some t)) ;;
             mret (inl s)
           else mret (inr (Some s))
     end)
    lock_ready get_session_locked.

(** [TAILQ_REMOVE] *)
Definition list_remove_elem (s : Z) (l : list Z) : list Z := filter (fun x => x <> s) l.

(** A session leaves its list and is freed: nobody else can reach it between the two. *)
Definition remove_session (s : Z) (l : session_head) : M st unit :=
  v ← rd_head l;
  _ ← rd_sess s s_id;
  set_sessions_of l (list_remove_elem s v) ;;
  modify (fun σ => set_opening (opening σ ∖ {[s]}) (set_sesss (delete s (sesss σ)) σ)).

Definition last_reference (s : Z) (σ : st) : bool :=
  match sesss σ !! s with Some se => s_ref_count se =? 1 | None => true end.

(** [destroy_session]: [tee_ta_unlink_session] and [free]. *)
Definition destroy_session (s : Z) (l : session_head) : prog unit :=
  locked_wait
    (n ← rd_sess s s_ref_count; assert_ (1 <=? n) ;;
     h ← rd_sess s s_lock_thread; assert_ (bool_decide (h = Some t)) ;;
     u ← rd_sess s s_unlink; assert_ (negb u) ;;
     wr_sess s (s_set_unlink true) ;;
     mret (inl s))
    last_reference (fun s => remove_session s l).

(** *** Contexts *)

(** [destroy_context]: [ops->destroy] is [user_ta_ctx_destroy] or [pseudo_ta_destroy]. *)
Definition destroy_context (c : Z) : prog unit :=
  o ← act (rd_ctx c c_ops);
  match o with
  | user_ta_ops => Call (PFreeUtc c) (fun _ => Ret tt)
  | pseudo_ta_ops _ => act (modify (fun σ => set_ctxs (delete c (ctxs σ)) σ))
  end.

(** Takes the context away from the sessions of [l] other than [s], and counts them. *)
Fixpoint drop_ctx (c s : Z) (l : list Z) : M st Z :=
  match l with
  | [] => mret 0
  | x :: l =>
      o ← rd_sess x s_ctx;
      if bool_decide (o = Some c) && negb (x =? s) then
        wr_sess x (s_set_ctx None) ;; n ← drop_ctx c s l; mret (n + 1)
      else drop_ctx c s l
  end.

Fixpoint drop_ctx_all (c s : Z) (cs : list Z) : M st Z :=
  match cs with
  | [] => mret 0
  | x :: cs =>
      cx ← rd_ctx x id;
      n ← (if is_user_ta (c_ops cx) then drop_ctx c s (c_open_sessions cx) else mret 0);
      n' ← drop_ctx_all c s cs;
      mret (n + n')
  end.

Definition destroy_ta_ctx_from_session (s : Z) : prog unit :=
  oc ← act (rd_sess s s_ctx);
  c ← act (
    l ← gets tee_open_sessions;
    match oc with
    | None => panic
    | Some c =>
        n ← drop_ctx c s l;
        cs ← gets tee_ctxes;
        n' ← drop_ctx_all c s cs;
        r ← rd_ctx c c_ref_count;
        assert_ (1 + n + n' =? r) ;;
        modify (fun σ => set_tee_ctxes (list_remove_elem c (tee_ctxes σ)) σ) ;;
        mret c
    end);
  destroy_context c ;;
  act (wr_sess s (s_set_ctx None)).

Fixpoint tee_ta_context_find (m : gmap Z tee_ta_ctx) (uuid : Z) (l : list Z) : option Z :=
  match l with
  | [] => None
  | c :: l => match m !! c with
              | Some cx => if c_uuid cx =? uuid then Some c else tee_ta_context_find m uuid l
              | None => tee_ta_context_find m uuid l
              end
  end.

Definition check_client (owner : TEE_Identity) (cl : client) : Z :=
  match cl with
  | KERN_IDENTITY => TEE_SUCCESS
  | NSAPP_IDENTITY => if login owner =? TEE_LOGIN_TRUSTED_APP then TEE_ERROR_ACCESS_DENIED else TEE_SUCCESS
  | Client i => if decide (owner = i) then TEE_SUCCESS else TEE_ERROR_ACCESS_DENIED
  end.

(** [TEE_PARAM_TYPE_GET] *)
Definition TEE_PARAM_TYPE_GET (ty : Z) (n : nat) : Z := Z.land (Z.shiftr ty (4 * Z.of_nat n)) 15.

Definition is_memref (ty : Z) : bool :=
  (ty =? TEE_PARAM_TYPE_MEMREF_INPUT) || (ty =? TEE_PARAM_TYPE_MEMREF_OUTPUT) || (ty =? TEE_PARAM_TYPE_MEMREF_INOUT).

Fixpoint no_sdp_mem (ty : Z) (n : nat) (l : list (Z * bool)) : bool :=
  match l with
  | [] => true
  | (size, sdp) :: l =>
      if is_memref (TEE_PARAM_TYPE_GET ty n) && negb (size =? 0) && sdp then false
      else no_sdp_mem ty (S n) l
  end.

Definition check_params (s : Z) (param : tee_ta_param) : prog bool :=
  if cfg_sdp then
    oc ← act (rd_sess s s_ctx);
    match oc with
    | Some c =>
        fl ← act (rd_ctx c c_flags);
        if has_flag fl TA_FLAG_SECURE_DATA_PATH then mret true
        else mret (no_sdp_mem (types param) 0 (mems param))
    | None => mret (no_sdp_mem (types param) 0 (mems param))
    end
  else mret true.

(** [ADD_OVERFLOW] at 32 bits: the result, and whether it did not fit. *)
Definition add_overflow32 (a b : Z) : Z * bool := (u32 (a + b), negb (a + b <=? UINT32_MAX)).

Definition infinite_time : TEE_Time := mkTime UINT32_MAX UINT32_MAX.

(** [set_invoke_timeout], with the result and the value of [tee_time_get_sys_time]. *)
Definition invoke_deadline (cancel_req_to res : Z) (now : TEE_Time) : TEE_Time :=
  if cancel_req_to =? TEE_TIMEOUT_INFINITE then infinite_time
  else if negb (res =? TEE_SUCCESS) then infinite_time
  else
    let '(sec, o) := add_overflow32 (seconds now) (cancel_req_to / 1000) in
    if o then infinite_time
    else
      let ms := u32 (millis now + cancel_req_to mod 1000) in
      if ms >? 1000 then
        let '(sec, o) := add_overflow32 (seconds now) 1 in
        if o then infinite_time else mkTime (u32 (sec + 1)) (ms - 1000)
      else mkTime sec ms.

Definition tee_time_get_sys_time : prog (Z * TEE_Time) :=
  r ← ask QTimeResult; a ← ask QTimeSeconds; b ← ask QTimeMillis;
  mret (r, mkTime (u32 a) (u32 b)).

Definition set_invoke_timeout (s cancel_req_to : Z) : prog unit :=
  if cancel_req_to =? TEE_TIMEOUT_INFINITE then act (wr_sess s (s_set_cancel_time infinite_time))
  else
    now ← tee_time_get_sys_time;
    act (wr_sess s (s_set_cancel_time (invoke_deadline cancel_req_to now.1 now.2))).

(** *** Entering TAs: [user_ta.c] and [pseudo_ta.c] *)

Definition recursion_of (σ : st) : Z := default 0 (syscall_recursion σ !! t).

Definition inc_recursion : M st bool :=
  n ← gets recursion_of;
  if n >=? MAX_SYSCALL_RECURSION then mret false
  else modify (fun σ => set_recursion (<[t := n + 1]> (syscall_recursion σ)) σ) ;; mret true.

Definition dec_recursion : M st unit :=
  n ← gets recursion_of;
  assert_ (negb (n =? 0)) ;;
  modify (fun σ => set_recursion (<[t := n - 1]> (syscall_recursion σ)) σ).

(** [to_user_ta_ctx(session->ctx)] and [to_pseudo_ta_ctx]: the pointer is not null, and of the
    kind that was looked up. *)
Definition ctx_of_session (s : Z) : M st Z :=
  oc ← rd_sess s s_ctx;
  match oc with
  | None => panic
  | Some c => mret c
  end.

Definition user_ta_enter (s : Z) (func : entry_func) : prog Z :=
  c ← act (ctx_of_session s);
  b ← act inc_recursion;
  if (b : bool) then
    p ← act (rd_sess s s_param);
    res ← match p with Some _ => ask QMapParam | None => mret TEE_SUCCESS end;
    if res =? TEE_SUCCESS then
      Enter s c func (fun res panicked =>
        (if panicked then act (wr_ctx c (c_set_panicked true)) else mret tt) ;;
        pk ← act (rd_ctx c c_panicked);
        res ← (if (pk : bool) then mret TEE_ERROR_TARGET_DEAD
               else act (wr_sess s (s_set_err_origin TEE_ORIGIN_TRUSTED_APP)) ;; mret res);
        act dec_recursion ;;
        act (wr_sess s (s_set_cancel false)) ;;
        mret res)
    else
      act dec_recursion ;;
      act (wr_sess s (s_set_cancel false)) ;;
      mret res
  else
    act (wr_sess s (s_set_cancel false)) ;;
    mret TEE_ERROR_OUT_OF_MEMORY.

(** The part of the pseudo TA's entry points in which it is called with parameters. *)
Definition pta_params (s : Z) : prog Z :=
  p ← act (rd_sess s s_param);
  match p with Some _ => ask QCopyParams | None => mret TEE_SUCCESS end.

Definition pseudo_ta_enter_open_session (pta : pseudo_ta_head) (s : Z) : prog Z :=
  c ← act (ctx_of_session s);
  act (wr_sess s (s_set_err_origin TEE_ORIGIN_TRUSTED_APP)) ;;
  n ← act (rd_ctx c c_ref_count);
  res ← (if (n =? 1) && has_create pta then ask (QPtaCreate (pta_uuid pta)) else mret TEE_SUCCESS);
  if negb (res =? TEE_SUCCESS) then mret res
  else if has_open pta then
    res ← pta_params s;
    if negb (res =? TEE_SUCCESS) then
      act (wr_sess s (s_set_err_origin TEE_ORIGIN_TEE)) ;; mret res
    else ask (QPtaOpen (pta_uuid pta))
  else mret TEE_SUCCESS.

Definition pseudo_ta_enter_invoke_cmd (pta : pseudo_ta_head) (s cmd : Z) : prog Z :=
  _ ← act (ctx_of_session s);
  res ← pta_params s;
  if negb (res =? TEE_SUCCESS) then
    act (wr_sess s (s_set_err_origin TEE_ORIGIN_TEE)) ;; mret res
  else
    act (wr_sess s (s_set_err_origin TEE_ORIGIN_TRUSTED_APP)) ;;
    ask (QPtaInvoke (pta_uuid pta) cmd).

Definition pseudo_ta_enter_close_session (pta : pseudo_ta_head) (s : Z) : prog unit :=
  c ← act (ctx_of_session s);
  (if has_close pta then _ ← ask (QPtaClose (pta_uuid pta)); mret tt else mret tt) ;;
  n ← act (rd_ctx c c_ref_count);
  if (n =? 1) && has_destroy pta then _ ← ask (QPtaDestroy (pta_uuid pta)); mret tt else mret tt.

(** [ts_ctx->ops->enter_...] *)
Definition enter_open_session (s c : Z) : prog Z :=
  o ← act (rd_ctx c c_ops);
  match o with
  | user_ta_ops => user_ta_enter s UTEE_ENTRY_FUNC_OPEN_SESSION
  | pseudo_ta_ops p => pseudo_ta_enter_open_session p s
  end.

Definition enter_invoke_cmd (s c cmd : Z) : prog Z :=
  o ← act (rd_ctx c c_ops);
  match o with
  | user_ta_ops => user_ta_enter s (UTEE_ENTRY_FUNC_INVOKE_COMMAND cmd)
  | pseudo_ta_ops p => pseudo_ta_enter_invoke_cmd p s cmd
  end.

Definition enter_close_session (s c : Z) : prog unit :=
  o ← act (rd_ctx c c_ops);
  match o with
  | user_ta_ops =>
      c ← act (ctx_of_session s);
      i ← act (rd_ctx c c_is_initializing);
      if (i : bool) then mret tt
      else _ ← user_ta_enter s UTEE_ENTRY_FUNC_CLOSE_SESSION; mret tt
  | pseudo_ta_ops p => pseudo_ta_enter_close_session p s
  end.

(** *** Closing *)

(** [csess->id]: a client may name a session that another request has closed meanwhile. *)
Definition csess_id (csess : Z) (cl : client) : M st Z := fun σ =>
  match sesss σ !! csess with
  | Some se => (ROk (s_id se), σ)
  | None => if polite && negb (is_kernel cl) then (RErr RUDE_CLIENT, σ) else (RPanic, σ)
  end.

(** The end of [tee_ta_close_session]: whether the context is to be destroyed. *)
Definition put_ctx (c : Z) : M st bool :=
  n ← rd_ctx c c_ref_count;
  assert_ (0 <? n) ;;
  wr_ctx c (c_set_ref_count (n - 1)) ;;
  fl ← rd_ctx c c_flags;
  let keep_alive := has_flag fl TA_FLAG_INSTANCE_KEEP_ALIVE && has_flag fl TA_FLAG_SINGLE_INSTANCE in
  if (n - 1 =? 0) && negb keep_alive then
    modify (fun σ => set_tee_ctxes (list_remove_elem c (tee_ctxes σ)) σ) ;; mret true
  else mret false.

Definition tee_ta_close_session (csess : option Z) (l : session_head) (clnt_id : client) : prog Z :=
  match csess with
  | None => mret TEE_ERROR_ITEM_NOT_FOUND
  | Some cs =>
      id ← act (csess_id cs clnt_id);
      os ← tee_ta_get_session id true l clnt_id;
      match os with
      | None => mret TEE_ERROR_ITEM_NOT_FOUND
      | Some s =>
          owner ← act (rd_sess s s_clnt_id);
          if negb (check_client owner clnt_id =? TEE_SUCCESS) then
            tee_ta_put_session s ;; mret TEE_ERROR_BAD_PARAMETERS
          else
            oc ← act (rd_sess s s_ctx);
            match oc with
            | None => destroy_session s l ;; mret TEE_SUCCESS
            | Some c =>
                pk ← act (rd_ctx c c_panicked);
                (if (pk : bool) then destroy_session s l
                 else
                   tee_ta_set_busy c ;;
                   set_invoke_timeout s TEE_TIMEOUT_INFINITE ;;
                   enter_close_session s c ;;
                   destroy_session s l ;;
                   tee_ta_clear_busy c) ;;
                dead ← act (put_ctx c);
                (if (dead : bool) then destroy_context c else mret tt) ;;
                mret TEE_SUCCESS
            end
      end
  end.

(** *** Opening *)

(** The test that [tee_ta_init_session_with_context] waits for: the context is not there or ready. *)
Definition context_ready (uuid : Z) (σ : st) : bool :=
  match tee_ta_context_find (ctxs σ) uuid (tee_ctxes σ) with
  | None => true
  | Some c => match ctxs σ !! c with
              | Some cx => negb (is_user_ta (c_ops cx)) || negb (c_is_initializing cx)
              | None => true
              end
  end.

Definition tee_ta_init_session_with_context (s uuid : Z) : M st Z :=
  m ← gets ctxs; l ← gets tee_ctxes;
  match tee_ta_context_find m uuid l with
  | None => mret TEE_ERROR_ITEM_NOT_FOUND
  | Some c =>
      fl ← rd_ctx c c_flags;
      if negb (has_flag fl TA_FLAG_SINGLE_INSTANCE) then mret TEE_ERROR_ITEM_NOT_FOUND
      else
        n ← rd_ctx c c_ref_count;
        if negb (has_flag fl TA_FLAG_MULTI_SESSION) && negb (n =? 0) then mret TEE_ERROR_BUSY
        else wr_ctx c (c_set_ref_count (n + 1)) ;; wr_sess s (s_set_ctx (Some c)) ;; mret TEE_SUCCESS
  end.

(** [id++; if (!id) id++;] *)
Definition next_id (id : Z) : Z := let i := u32 (id + 1) in if i =? 0 then u32 (i + 1) else i.

(** The [do ... while (id != saved)] of [new_session_id], with fuel. *)
Fixpoint new_id_loop (fuel : nat) (m : gmap Z tee_ta_session) (l : list Z) (saved id : Z) : Z :=
  match fuel with
  | O => 0
  | S fuel =>
      match find_id m id l with
      | None => id
      | Some _ => let id := next_id id in if id =? saved then 0 else new_id_loop fuel m l saved id
      end
  end.

Definition new_session_id (m : gmap Z tee_ta_session) (l : list Z) : Z :=
  let id := match last l with
            | Some s => match m !! s with Some se => next_id (s_id se) | None => 1 end
            | None => 1
            end in
  new_id_loop (S (length l)) m l id id.

(** The session [calloc] gives, initialised. *)
Definition fresh_session (id : Z) (l : session_head) : tee_ta_session :=
  mkSess id (mkId 0 0) None None 0 false true (mkTime 0 0) 1 None false l.

(** The allocator gives a null pointer, here also any address in use, or a new object. *)
Definition alloc_session (p : Z) (l : session_head) : M st (option Z) :=
  m ← gets sesss;
  if (p =? 0) || bool_decide (is_Some (m !! p)) then mret None
  else
    v ← rd_head l;
    let id := new_session_id m v in
    if id =? 0 then mret (Some TEE_ERROR_OVERFLOW)
    else
      modify (fun σ => set_opening ({[p]} ∪ opening σ) (set_sesss (<[p := fresh_session id l]> (sesss σ)) σ)) ;;
      set_sessions_of l (v ++ [p]) ;;
      mret (Some TEE_SUCCESS).

(** [tee_ta_init_session] up to the first [mutex_unlock]. *)
Definition init_session_locked (p : Z) (l : session_head) (uuid : Z) : prog (Z * bool) :=
  locked_wait
    (r ← alloc_session p l;
     match r with
     | None => mret (inr (TEE_ERROR_OUT_OF_MEMORY, false))
     | Some e => if e =? TEE_SUCCESS then mret (inl p) else mret (inr (e, false))
     end)
    (fun _ => context_ready uuid)
    (fun s => r ← tee_ta_init_session_with_context s uuid; mret (r, true)).

Definition find_pta (uuid : Z) : option pseudo_ta_head := List.find (fun p => pta_uuid p =? uuid) pseudo_tas.

Definition add_ctx (c : Z) (cx : tee_ta_ctx) (s : Z) : M st bool :=
  m ← gets ctxs;
  if (c =? 0) || bool_decide (is_Some (m !! c)) then mret false
  else
    modify (fun σ => set_tee_ctxes (tee_ctxes σ ++ [c]) (set_ctxs (<[c := cx]> (ctxs σ)) σ)) ;;
    wr_sess s (s_set_ctx (Some c)) ;;
    mret true.

Definition tee_ta_init_pseudo_ta_session (uuid s : Z) : prog Z :=
  match find_pta uuid with
  | None => mret TEE_ERROR_ITEM_NOT_FOUND
  | Some p =>
      c ← ask QAlloc;
      b ← act (add_ctx c (mkCtx (pta_flags p) (pta_uuid p) (pseudo_ta_ops p) false 1 false false []) s);
      mret (if (b : bool) then TEE_SUCCESS else TEE_ERROR_OUT_OF_MEMORY)
  end.

(** [ldelf_load_ldelf] and [ldelf_init_with_ldelf], which takes the flags from the TA. *)
Definition load_ta (c : Z) : prog Z :=
  res ← ask QLoadTa;
  if negb (res =? TEE_SUCCESS) then mret res
  else
    fl ← ask QTaFlags;
    if negb (Z.land fl (u32 (Z.lnot TA_FLAGS_MASK)) =? 0) then mret TEE_ERROR_BAD_FORMAT
    else act (wr_ctx c (c_set_flags fl)) ;; mret TEE_SUCCESS.

Definition tee_ta_init_user_ta_session (uuid s : Z) : prog Z :=
  c ← ask QAlloc;
  if c =? 0 then mret TEE_ERROR_OUT_OF_MEMORY
  else
    res ← ask QVmInfoInit;
    if negb (res =? TEE_SUCCESS) then mret res
    else
      b ← act (add_ctx c (mkCtx 0 uuid user_ta_ops false 1 false true []) s);
      if (b : bool) then
        res ← load_ta c;
        (if res =? TEE_SUCCESS then act (wr_ctx c (c_set_initializing false))
         else act (wr_sess s (s_set_ctx None) ;;
                   modify (fun σ => set_tee_ctxes (list_remove_elem c (tee_ctxes σ)) σ))) ;;
        if res =? TEE_SUCCESS then mret res else Call (PFreeUtc c) (fun _ => Ret res)
      else mret TEE_ERROR_OUT_OF_MEMORY.

(** [tee_ta_init_session]; without a secure partition [stmm_init_session] finds nothing. *)
Definition tee_ta_init_session (l : session_head) (uuid : Z) : prog (Z * Z) :=
  s ← ask QAlloc;
  r ← init_session_locked s l uuid;
  if negb r.2 then mret (r.1, s)
  else
    res ← (if negb (r.1 =? TEE_ERROR_ITEM_NOT_FOUND) then mret r.1
           else
             res ← tee_ta_init_pseudo_ta_session uuid s;
             if negb (res =? TEE_ERROR_ITEM_NOT_FOUND) then mret res
             else tee_ta_init_user_ta_session uuid s);
    if res =? TEE_SUCCESS then mret (TEE_SUCCESS, s)
    else act (remove_session s l) ;; mret (res, s).

(** What [tee_ta_open_session] returns: result, origin, session. *)
Record opened : Set := mkOpened { o_res : Z; o_err : Z; o_sess : Z }.

(** [*err = s->err_origin], after [res]: where that is an error, [tee_ta_close_session] has freed [s]. *)
Definition err_origin_of (s res : Z) : prog Z :=
  o ← act (gets (fun σ => sesss σ !! s));
  match o with Some se => mret (s_err_origin se) | None => ask (QFreed res) end.

Definition tee_ta_open_session (l : session_head) (uuid : Z) (clnt_id : TEE_Identity) (cancel_req_to : Z)
    (param : tee_ta_param) : prog opened :=
  r ← tee_ta_init_session l uuid;
  let s := r.2 in
  if negb (r.1 =? TEE_SUCCESS) then mret (mkOpened r.1 TEE_ORIGIN_TEE s)
  else
    ok ← check_params s param;
    if negb ok then mret (mkOpened TEE_ERROR_BAD_PARAMETERS TEE_ORIGIN_TEE s)
    else
      oc ← act (rd_sess s s_ctx);
      dead ← match oc with None => mret true | Some c => act (rd_ctx c c_panicked) end;
      match oc, dead with
      | Some c, false =>
          act (wr_sess s (s_set_clnt_id clnt_id)) ;;
          b ← tee_ta_try_set_busy c;
          res ← (if (b : bool) then
                   act (wr_sess s (s_set_param (Some param))) ;;
                   set_invoke_timeout s cancel_req_to ;;
                   res ← enter_open_session s c;
                   tee_ta_clear_busy c ;;
                   mret res
                 else mret TEE_ERROR_BUSY);
          panicked ← act (rd_ctx c c_panicked);
          act (wr_sess s (s_set_param None)) ;;
          tee_ta_put_session s ;;
          (if panicked || negb (res =? TEE_SUCCESS) then Call (PClose (Some s) l KERN_IDENTITY) (fun _ => Ret tt)
           else mret tt) ;;
          err ← (if panicked || negb b then mret TEE_ORIGIN_TEE else err_origin_of s res);
          mret (mkOpened res err s)
      | _, _ =>
          Call (PClose (Some s) l KERN_IDENTITY) (fun _ => Ret tt) ;;
          mret (mkOpened TEE_ERROR_TARGET_DEAD TEE_ORIGIN_TEE s)
      end.

(** *** Invoking and cancelling *)

(** Result and origin. *)
Definition tee_ta_invoke_command (err s : Z) (clnt_id : client) (cancel_req_to cmd : Z) (param : tee_ta_param) :
    prog (Z * Z) :=
  owner ← act (rd_sess s s_clnt_id);
  if negb (check_client owner clnt_id =? TEE_SUCCESS) then mret (TEE_ERROR_BAD_PARAMETERS, err)
  else
    ok ← check_params s param;
    if negb ok then mret (TEE_ERROR_BAD_PARAMETERS, err)
    else
      oc ← act (rd_sess s s_ctx);
      match oc with
      | None => mret (TEE_ERROR_TARGET_DEAD, TEE_ORIGIN_TEE)
      | Some c =>
          pk ← act (rd_ctx c c_panicked);
          if (pk : bool) then
            destroy_ta_ctx_from_session s ;; mret (TEE_ERROR_TARGET_DEAD, TEE_ORIGIN_TEE)
          else
            tee_ta_set_busy c ;;
            act (wr_sess s (s_set_param (Some param))) ;;
            set_invoke_timeout s cancel_req_to ;;
            res ← enter_invoke_cmd s c cmd;
            act (wr_sess s (s_set_param None)) ;;
            tee_ta_clear_busy c ;;
            pk ← act (rd_ctx c c_panicked);
            if (pk : bool) then
              destroy_ta_ctx_from_session s ;; mret (TEE_ERROR_TARGET_DEAD, TEE_ORIGIN_TEE)
            else
              e ← act (rd_sess s s_err_origin);
              mret (res, e)
      end.

Definition tee_ta_cancel_command (s : Z) (clnt_id : client) : prog Z :=
  owner ← act (rd_sess s s_clnt_id);
  if negb (check_client owner clnt_id =? TEE_SUCCESS) then mret TEE_ERROR_BAD_PARAMETERS
  else act (wr_sess s (s_set_cancel true)) ;; mret TEE_SUCCESS.

(** [tee_ta_session_is_cancelled], with the result and the value of [tee_time_get_sys_time]. *)
Definition session_is_cancelled (se : tee_ta_session) (now : Z * TEE_Time) : bool :=
  if s_cancel_mask se then false
  else if s_cancel se then true
  else if seconds (s_cancel_time se) =? UINT32_MAX then false
  else if negb (now.1 =? TEE_SUCCESS) then false
  else (seconds now.2 >? seconds (s_cancel_time se)) ||
       ((seconds now.2 =? seconds (s_cancel_time se)) && (millis now.2 >=? millis (s_cancel_time se))).

(** ** Requests of normal world: [entry_std.c] *)

(** The opening returns and tells the client the id. *)
Definition publish (s : Z) : M st Z :=
  id ← rd_sess s s_id;
  modify (fun σ => set_opening (opening σ ∖ {[s]}) σ) ;;
  mret id.

Definition entry_open_session (uuid : Z) (clnt_id : TEE_Identity) (param : tee_ta_param) : prog reply :=
  res ← ask QCopyParams;
  if negb (res =? TEE_SUCCESS) then mret (result res)
  else
    r ← tee_ta_open_session LNsec uuid clnt_id TEE_TIMEOUT_INFINITE param;
    if o_res r =? TEE_SUCCESS then
      id ← act (publish (o_sess r)); mret (mkReply (o_res r) id (o_err r))
    else mret (mkReply (o_res r) 0 (o_err r)).

Definition entry_close_session (id : Z) : prog reply :=
  s ← tee_ta_find_session id LNsec;
  Call (PClose s LNsec NSAPP_IDENTITY) Ret.

Definition entry_invoke_command (id cmd : Z) (param : tee_ta_param) : prog reply :=
  res ← ask QCopyParams;
  if negb (res =? TEE_SUCCESS) then mret (result res)
  else
    os ← tee_ta_get_session id true LNsec NSAPP_IDENTITY;
    match os with
    | None => mret (result TEE_ERROR_BAD_PARAMETERS)
    | Some s =>
        r ← tee_ta_invoke_command TEE_ORIGIN_TEE s NSAPP_IDENTITY TEE_TIMEOUT_INFINITE cmd param;
        tee_ta_put_session s ;;
        mret (mkReply r.1 0 r.2)
    end.

Definition entry_cancel (id : Z) : prog reply :=
  os ← tee_ta_get_session id false LNsec NSAPP_IDENTITY;
  match os with
  | None => mret (result TEE_ERROR_BAD_PARAMETERS)
  | Some s =>
      r ← tee_ta_cancel_command s NSAPP_IDENTITY;
      tee_ta_put_session s ;;
      mret (result r)
  end.

(** ** System calls of a user TA that runs in the session [cur]: [tee_svc.c] *)

(** [to_user_ta_ctx(sess->ctx)] of the current session, and the identity it gives the TA. *)
Definition current_ta (cur : Z) : prog (Z * TEE_Identity) :=
  c ← act (ctx_of_session cur);
  u ← act (rd_ctx c c_uuid);
  mret (c, mkId TEE_LOGIN_TRUSTED_APP u).

Definition syscall_open_ta_session (cur uuid cancel_req_to : Z) (param : tee_ta_param) : prog reply :=
  ta ← current_ta cur;
  res ← ask QCopyParams;
  if negb (res =? TEE_SUCCESS) then mret (result res)
  else
    r ← tee_ta_open_session (LCtx ta.1) uuid ta.2 cancel_req_to param;
    if negb (o_res r =? TEE_SUCCESS) then mret (mkReply (o_res r) 0 (o_err r))
    else
      res ← ask QUpdateParams;
      id ← act (publish (o_sess r));
      if res =? TEE_SUCCESS then mret (mkReply res id (o_err r)) else mret (mkReply res 0 (o_err r)).

Definition syscall_close_ta_session (cur id : Z) : prog reply :=
  ta ← current_ta cur;
  s ← tee_ta_find_session id (LCtx ta.1);
  Call (PClose s (LCtx ta.1) (Client ta.2)) Ret.

(** [tee_svc_copy_param] for the session that is called: access to the parameters, then
    [is_pseudo_ta_ctx(called_sess->ctx)], then the copies a user TA needs. *)
Definition tee_svc_copy_param (s : Z) : prog Z :=
  res ← ask QMapParam;
  if negb (res =? TEE_SUCCESS) then mret res
  else
    c ← act (ctx_of_session s);
    o ← act (rd_ctx c c_ops);
    if negb (is_user_ta o) then mret TEE_SUCCESS else ask QCopyParams.

Definition syscall_invoke_ta_command (cur id cancel_req_to cmd : Z) (param : tee_ta_param) : prog reply :=
  ta ← current_ta cur;
  os ← tee_ta_get_session id true (LCtx ta.1) (Client ta.2);
  match os with
  | None => mret (result TEE_ERROR_BAD_PARAMETERS)
  | Some s =>
      res ← tee_svc_copy_param s;
      r ← (if negb (res =? TEE_SUCCESS) then mret (res, TEE_ORIGIN_TEE)
           else
             r ← tee_ta_invoke_command TEE_ORIGIN_TEE s (Client ta.2) cancel_req_to cmd param;
             if r.1 =? TEE_ERROR_TARGET_DEAD then mret r
             else
               res2 ← ask QUpdateParams;
               if negb (res2 =? TEE_SUCCESS) then mret (res2, TEE_ORIGIN_TEE) else mret r);
      tee_ta_put_session s ;;
      mret (mkReply r.1 0 r.2)
  end.

Definition syscall_get_cancellation_flag (cur : Z) : prog reply :=
  now ← tee_time_get_sys_time;
  b ← act (rd_sess cur (fun se => session_is_cancelled se now));
  mret (mkReply TEE_SUCCESS (b2z b) TEE_ORIGIN_TEE).

(** [syscall_mask_cancellation] and [syscall_unmask_cancellation]. *)
Definition syscall_set_cancellation_mask (cur : Z) (mask : bool) : prog reply :=
  m ← act (rd_sess cur s_cancel_mask);
  act (wr_sess cur (s_set_cancel_mask mask)) ;;
  mret (mkReply TEE_SUCCESS (b2z m) TEE_ORIGIN_TEE).

(** ** The mutually recursive functions *)

(** [free_utc]: closes the sessions of the TA one by one; what else it frees is in other parts
    of the kernel. *)
Definition free_utc (c : Z) : prog reply :=
  l ← act (rd_ctx c c_open_sessions);
  match l with
  | s :: _ => Call (PClose (Some s) (LCtx c) KERN_IDENTITY) (fun _ => Call (PFreeUtc c) Ret)
  | [] => act (_ ← rd_ctx c c_flags; modify (fun σ => set_ctxs (delete c (ctxs σ)) σ)) ;; mret (result TEE_SUCCESS)
  end.

Definition proc_body (p : proc) : prog reply :=
  match p with
  | PClose csess l cl => r ← tee_ta_close_session csess l cl; mret (result r)
  | PFreeUtc c => free_utc c
  end.

Inductive request : Set :=
| ReqOpen (uuid : Z) (clnt_id : TEE_Identity) (param : tee_ta_param)
| ReqClose (id : Z)
| ReqInvoke (id cmd : Z) (param : tee_ta_param)
| ReqCancel (id : Z).

(** [__tee_entry_std] *)
Definition entry_std (r : request) : prog reply :=
  match r with
  | ReqOpen u i p => entry_open_session u i p
  | ReqClose id => entry_close_session id
  | ReqInvoke id cmd p => entry_invoke_command id cmd p
  | ReqCancel id => entry_cancel id
  end.

Inductive syscall : Set :=
| SysOpen (uuid cancel_req_to : Z) (param : tee_ta_param)
| SysClose (id : Z)
| SysInvoke (id cancel_req_to cmd : Z) (param : tee_ta_param)
| SysCancelled
| SysMask (mask : bool).

Definition syscall_prog (cur : Z) (sc : syscall) : prog reply :=
  match sc with
  | SysOpen u to p => syscall_open_ta_session cur u to p
  | SysClose id => syscall_close_ta_session cur id
  | SysInvoke id to cmd p => syscall_invoke_ta_command cur id to cmd p
  | SysCancelled => syscall_get_cancellation_flag cur
  | SysMask m => syscall_set_cancellation_mask cur m
  end.

End manager.

(** [verify_pseudo_tas_conformance]: at boot, [false] is [panic]. *)
Fixpoint verify_pseudo_tas_conformance (l : list pseudo_ta_head) : bool :=
  match l with
  | [] => true
  | p :: l =>
      negb (existsb (fun p2 => pta_uuid p =? pta_uuid p2) l) &&
      negb (negb (pta_named p) || negb (Z.land (pta_flags p) PTA_MANDATORY_FLAGS =? PTA_MANDATORY_FLAGS) ||
            negb (Z.land (pta_flags p) (u32 (Z.lnot PTA_ALLOWED_FLAGS)) =? 0) || negb (has_invoke p)) &&
      verify_pseudo_tas_conformance l
  end.

(** ** The machine

    A thread of the kernel is idle or serves a request: what it runs, and what waits below
    it: callers, and user TAs that made a system call. *)

Inductive frame : Type :=
| FCall (k : reply -> prog reply)
| FEnter (s c : Z) (f : entry_func) (k : Z -> bool -> prog reply).

Inductive thread : Type :=
| Idle (last : option reply)
| Run (p : prog reply) (ks : list frame).

Record config : Type := mkConfig { threads : list thread; mem : st }.

(** What happens next: a request comes in, a thread makes a step of its own, it gets the answer to a
    question, the user TA it runs returns (or panics) or makes a system call. *)
Inductive event : Type :=
| EvStart (i : nat) (r : request)
| EvRun (i : nat)
| EvAnswer (i : nat) (a : Z)
| EvReturn (i : nat) (res : Z) (panicked : bool)
| EvSyscall (i : nat) (sc : syscall).

Inductive outcome_of (A : Type) : Type :=
| Next (a : A)
| Disabled
| Halt (e : Z)
| Bad.
Arguments Next {A}.
Arguments Disabled {A}.
Arguments Halt {A}.
Arguments Bad {A}.

Section machine.
(** [steady]: user TAs do not panic and do not claim to be concurrent. *)
Context (polite steady cfg_sdp : bool) (pseudo_tas : list pseudo_ta_head).

Definition set_thread (i : nat) (th : thread) (σ : st) (g : config) : outcome_of config :=
  Next (mkConfig (<[i := th]> (threads g)) σ).

Definition run_act {X : Set} (i : nat) (m : M st X) (k : X -> prog reply) (ks : list frame) (g : config) : outcome_of config :=
  match m (mem g) with
  | (ROk x, σ) => set_thread i (Run (k x) ks) σ g
  | (RErr e, _) => Halt e
  | (RPanic, _) => Bad
  end.

Definition answer_ok (q : question) (a : Z) : bool :=
  match q with
  | QTaFlags => negb (steady && has_flag a TA_FLAG_CONCURRENT)
  | _ => true
  end.

Definition step_run (i : nat) (g : config) : outcome_of config :=
  match threads g !! i with
  | Some (Run (Act m k) ks) => run_act i m k ks g
  | Some (Run (Await ready m k) ks) => if ready (mem g) then run_act i m k ks g else Disabled
  | Some (Run (Call p k) ks) =>
      set_thread i (Run (proc_body polite (Z.of_nat i) p) (FCall k :: ks)) (mem g) g
  | Some (Run (Ret r) []) => set_thread i (Idle (Some r)) (mem g) g
  | Some (Run (Ret r) (FCall k :: ks)) => set_thread i (Run (k r) ks) (mem g) g
  | Some (Run (Ret _) (FEnter s c f k :: ks)) => set_thread i (Run (Enter s c f k) ks) (mem g) g
  | _ => Disabled
  end.

Definition step (g : config) (e : event) : outcome_of config :=
  match e with
  | EvStart i r =>
      match threads g !! i with
      | Some (Idle _) => set_thread i (Run (entry_std polite cfg_sdp pseudo_tas (Z.of_nat i) r) []) (mem g) g
      | _ => Disabled
      end
  | EvRun i => step_run i g
  | EvAnswer i a =>
      match threads g !! i with
      | Some (Run (Ask q k) ks) => if answer_ok q a then set_thread i (Run (k a) ks) (mem g) g else Disabled
      | _ => Disabled
      end
  | EvReturn i res pk =>
      match threads g !! i with
      | Some (Run (Enter s c f k) ks) =>
          if steady && pk then Disabled else set_thread i (Run (k res pk) ks) (mem g) g
      | _ => Disabled
      end
  | EvSyscall i sc =>
      match threads g !! i with
      | Some (Run (Enter s c f k) ks) =>
          set_thread i (Run (syscall_prog polite cfg_sdp pseudo_tas (Z.of_nat i) s sc) (FEnter s c f k :: ks)) (mem g) g
      | _ => Disabled
      end
  end.

Fixpoint steps (g : config) (es : list event) : outcome_of config :=
  match es with
  | [] => Next g
  | e :: es => match step g e with Next g => steps g es | o => o end
  end.

(** The machine in which reading a freed session is a failure, as using freed memory is everywhere else. *)
Definition freed_read (i : nat) (g : config) : option Z :=
  match threads g !! i with Some (Run (Ask (QFreed res) _) _) => Some res | _ => None end.

Definition strict_step (g : config) (e : event) : outcome_of config :=
  match e with
  | EvAnswer i _ => if freed_read i g then Bad else step g e
  | _ => step g e
  end.

Fixpoint strict_steps (g : config) (es : list event) : outcome_of config :=
  match es with
  | [] => Next g
  | e :: es => match strict_step g e with Next g => strict_steps g es | o => o end
  end.

(** [n] threads ([CFG_NUM_THREADS]), no session. *)
Definition boot (n : nat) : config := mkConfig (replicate n (Idle None)) st0.
End machine.
