(* ===== verification/SessionLogic.v ===== *)
(** * A logic of tokens for the session manager

    Each frame of each thread owns tokens that say what it holds: references to sessions,
    locks, instances it has entered, the right to work on a list of sessions. The invariant
    [Inv] ties the counters and flags of the shared state to the tokens of all frames together;
    [safe] is the weakest precondition of a program for the tokens it starts
    with, stable under what other frames do. [adequacy] turns it into a statement on runs of the machine. *)

From S2P Require Import Prelude ErrM Session.
From stdpp Require Import base gmap list.
From Stdlib Require Import ZArith Lia.

Local Open Scope Z_scope.

(** ** Tokens *)

(** The right to work on a list: of a thread on the list of normal world, of the thread that runs
    the TA [c] in the session [s], of the thread that destroys [c]. *)
Inductive use : Set :=
| UNsec (t : Z)
| UCtx (c t s : Z)
| UDying (c t : Z).

Definition use_head (u : use) : session_head := match u with UNsec _ => LNsec | UCtx c _ _ | UDying c _ => LCtx c end.
Definition use_thread (u : use) : Z := match u with UNsec t | UCtx _ t _ | UDying _ t => t end.

(** How an instance was entered: it is concurrent, or it was set busy, with the single-instance lock if [sg]. *)
Inductive entry : Set :=
| EConc
| EBusy (t : Z) (sg : bool).

(** What the holder knows of a session: nothing (or, while it is opened, that it has no context),
    the list it is in, that its context is being loaded, is ready (and
    the session's id, or that it is not concurrent), was entered. *)
Inductive know : Set :=
| KNone
| KHome (l : session_head)
| KInit (c : Z)
| KCtx (c : Z)
| KId (c i : Z)
| KSeq (c : Z)
| KIn (c : Z) (e : entry).

Inductive token : Set :=
| TRef (s : Z) (k : know)                     (* a reference to [s] *)
| TOpn (s : Z) (u : use) (k : know) (r : bool) (* [s] is being opened, [r]: the reference of that is held *)
| TLock (s : Z) (u : use) (d : bool)          (* [s] is locked, and if [d] to be removed *)
| TUse (u : use)
| TCtx (c : Z) (e : option entry)             (* the reference to [c] of a session that was freed *)
| TDying (c : Z)                              (* [c] left the list and is being destroyed *)
| TPeek (c t : Z) (os : option Z)             (* the use of the list of [c], which is being destroyed, and its first session *)
| TRec (t : Z).                               (* a level of [syscall_recursion] *)

#[export] Instance use_eq_dec : EqDecision use.
Proof. solve_decision. Defined.

(** *** What is counted *)

Definition know_entry (k : know) : option (Z * entry) := match k with KIn c e => Some (c, e) | _ => None end.

(** The instance a frame is in. *)
Definition tk_entry (tk : token) : option (Z * entry) :=
  match tk with
  | TRef _ k | TOpn _ _ k _ => know_entry k
  | TCtx c (Some e) => Some (c, e)
  | _ => None
  end.

Definition f_plain (s : Z) (tk : token) : bool := match tk with TRef x _ => x =? s | _ => false end.
Definition f_ref (s : Z) (tk : token) : bool :=
  match tk with TRef x _ => x =? s | TOpn x _ _ r => (x =? s) && r | _ => false end.
Definition f_opn (s : Z) (tk : token) : bool := match tk with TOpn x _ _ _ => x =? s | _ => false end.
Definition f_lock (s : Z) (tk : token) : bool := match tk with TLock x _ _ => x =? s | _ => false end.
Definition f_ctx (c : Z) (tk : token) : bool := match tk with TCtx x _ => x =? c | _ => false end.
Definition f_dying (c : Z) (tk : token) : bool := match tk with TDying x => x =? c | _ => false end.
Definition e_busy (e : entry) : bool := match e with EBusy _ _ => true | EConc => false end.
Definition e_single (e : entry) : bool := match e with EBusy _ sg => sg | EConc => false end.
Definition k_busy (c : Z) (k : know) : bool := match k with KIn x e => (x =? c) && e_busy e | _ => false end.
Definition k_single (k : know) : bool := match k with KIn _ e => e_single e | _ => false end.
Definition u_nsec (t : Z) (u : use) : bool := match u with UNsec x => x =? t | _ => false end.
Definition u_ctx (c : Z) (u : use) : bool := match u with UCtx x _ _ | UDying x _ => x =? c | UNsec _ => false end.

Definition f_busy (c : Z) (tk : token) : bool :=
  match tk with
  | TRef _ k | TOpn _ _ k _ => k_busy c k
  | TCtx x (Some e) => (x =? c) && e_busy e
  | _ => false
  end.
Definition f_single (tk : token) : bool :=
  match tk with TRef _ k | TOpn _ _ k _ => k_single k | TCtx _ (Some e) => e_single e | _ => false end.
Definition f_nsec (t : Z) (tk : token) : bool :=
  match tk with TOpn _ u _ _ | TLock _ u _ | TUse u => u_nsec t u | _ => false end.
Definition f_uses (c : Z) (tk : token) : bool :=
  match tk with TOpn _ u _ _ | TLock _ u _ | TUse u => u_ctx c u | TPeek x _ _ => x =? c | _ => false end.
Definition f_rec (t : Z) (tk : token) : bool := match tk with TRec x => x =? t | _ => false end.

(** ** The invariant *)

(** How many sessions have the context [c]. *)
Definition nsess (c : Z) (m : gmap Z tee_ta_session) : Z :=
  Z.of_nat (size (filter (fun p => s_ctx p.2 = Some c) m)).

Definition is_concurrent (cx : tee_ta_ctx) : bool := has_flag (c_flags cx) TA_FLAG_CONCURRENT.
Definition is_single (cx : tee_ta_ctx) : bool := has_flag (c_flags cx) TA_FLAG_SINGLE_INSTANCE.

Definition entry_ok (e : entry) (cx : tee_ta_ctx) : Prop :=
  match e with
  | EConc => is_concurrent cx = true
  | EBusy _ sg => is_concurrent cx = false /\ sg = is_single cx
  end.

Definition know_ok (σ : st) (k : know) (oc : option Z) : Prop :=
  match k with
  | KNone | KHome _ => True
  | KInit c => oc = Some c /\ exists cx, ctxs σ !! c = Some cx /\ c_is_initializing cx = true
  | KCtx c | KId c _ => oc = Some c /\ exists cx, ctxs σ !! c = Some cx /\ c_is_initializing cx = false
  | KSeq c => oc = Some c /\ exists cx, ctxs σ !! c = Some cx /\ c_is_initializing cx = false /\ is_concurrent cx = false
  | KIn c e => oc = Some c /\ exists cx, ctxs σ !! c = Some cx /\ c_is_initializing cx = false /\ entry_ok e cx
  end.

(** The token of a frame that runs a TA in a session. *)
Definition is_inside (c t s : Z) (tk : token) : Prop :=
  exists sg, tk = TRef s (KIn c (EBusy t sg)) \/ exists u r, tk = TOpn s u (KIn c (EBusy t sg)) r.

Definition use_ok (T : list token) (u : use) : Prop :=
  match u with
  | UNsec _ => True
  | UCtx c t s => exists tk, tk ∈ T /\ is_inside c t s tk
  | UDying c _ => TDying c ∈ T
  end.

Definition tok_ok (σ : st) (T : list token) (tk : token) : Prop :=
  match tk with
  | TRef s k => exists se, sesss σ !! s = Some se /\ know_ok σ k (s_ctx se) /\ (forall l, k = KHome l -> s_home se = l)
  | TOpn s u k _ => s ∈ opening σ /\ use_ok T u /\
      exists se, sesss σ !! s = Some se /\ s_home se = use_head u /\ know_ok σ k (s_ctx se) /\
                 (k = KNone -> s_ctx se = None) /\ (forall c i, k = KId c i -> s_id se = i)
  | TLock s u d => use_ok T u /\
      exists se, sesss σ !! s = Some se /\ s_home se = use_head u /\ s_lock_thread se = Some (use_thread u) /\ s_unlink se = d
  | TUse u => use_ok T u
  | TCtx c e => cnt (f_dying c) T = 0 /\
      exists cx, ctxs σ !! c = Some cx /\ c_is_initializing cx = false /\
                 match e with Some e => entry_ok e cx | None => True end
  | TDying c => is_Some (ctxs σ !! c)
  | TPeek c _ os => TDying c ∈ T /\
      match os with
      | Some s => exists se, sesss σ !! s = Some se /\ s_home se = LCtx c
      | None => forall s se, sesss σ !! s = Some se -> s_home se <> LCtx c
      end
  | TRec _ => True
  end.

Record sess_ok (σ : st) (T : list token) (s : Z) (se : tee_ta_session) : Prop := {
  sk_ref : s_ref_count se = cnt (f_ref s) T;
  sk_opening : s ∈ opening σ -> cnt (f_plain s) T = 0 /\ s_lock_thread se = None /\ s_unlink se = false;
  sk_opn : cnt (f_opn s) T = b2z (bool_decide (s ∈ opening σ));
  sk_lock : cnt (f_lock s) T = match s_lock_thread se with None => 0 | Some _ => 1 end;
  sk_unlink : s_unlink se = true -> s_lock_thread se <> None;
  sk_some : s ∉ opening σ -> s_ctx se <> None;
  sk_ctx : forall c, s_ctx se = Some c ->
    cnt (f_dying c) T = 0 /\ exists cx, ctxs σ !! c = Some cx /\ (c_is_initializing cx = true -> s ∈ opening σ) }.

Record ctx_ok (σ : st) (T : list token) (c : Z) (cx : tee_ta_ctx) : Prop := {
  ck_dying : cnt (f_dying c) T <= 1;
  ck_ref : cnt (f_dying c) T = 0 -> c_ref_count cx = nsess c (sesss σ) + cnt (f_ctx c) T;
  ck_dead : cnt (f_dying c) T = 1 -> nsess c (sesss σ) = 0 /\ cnt (f_ctx c) T = 0 /\ cnt (f_busy c) T = 0;
  ck_busy : cnt (f_busy c) T = b2z (c_busy cx);
  ck_init : c_is_initializing cx = true -> cnt (f_dying c) T = 0 -> nsess c (sesss σ) = 1 /\ cnt (f_ctx c) T = 0 /\ cnt (f_busy c) T = 0;
  ck_panicked : c_panicked cx = false;
  ck_user : is_user_ta (c_ops cx) = true -> is_concurrent cx = false;
  ck_keep : is_user_ta (c_ops cx) = false ->
    has_flag (c_flags cx) TA_FLAG_INSTANCE_KEEP_ALIVE = true /\ has_flag (c_flags cx) TA_FLAG_SINGLE_INSTANCE = true /\
    c_is_initializing cx = false;
  ck_gone : cnt (f_dying c) T = 1 -> is_user_ta (c_ops cx) = true;
  ck_uses : cnt (f_uses c) T <= cnt (f_busy c) T + cnt (f_dying c) T }.

Record single_ok (σ : st) (T : list token) : Prop := {
  so_count : single_count σ = cnt f_single T;
  so_none : single_thread σ = None -> cnt f_single T = 0;
  so_some : forall t, single_thread σ = Some t -> 0 < cnt f_single T;
  so_thread : forall tk c t, tk ∈ T -> tk_entry tk = Some (c, EBusy t true) -> single_thread σ = Some t }.

Record Inv (σ : st) (T : list token) : Prop := {
  inv_sess : forall s se, sesss σ !! s = Some se -> sess_ok σ T s se;
  inv_ctx : forall c cx, ctxs σ !! c = Some cx -> ctx_ok σ T c cx;
  inv_tok : forall tk, tk ∈ T -> tok_ok σ T tk;
  inv_lists : forall l s, s ∈ sessions_of l σ <-> exists se, sesss σ !! s = Some se /\ s_home se = l;
  inv_ids : forall s1 s2 se1 se2, sesss σ !! s1 = Some se1 -> sesss σ !! s2 = Some se2 ->
    s_home se1 = s_home se2 -> s_id se1 = s_id se2 -> s1 = s2;
  inv_ctxes : forall c, c ∈ tee_ctxes σ <-> is_Some (ctxs σ !! c) /\ cnt (f_dying c) T = 0;
  inv_single : single_ok σ T;
  inv_nsec : forall t, cnt (f_nsec t) T <= 1;
  inv_rec : forall t, recursion_of t σ = cnt (f_rec t) T }.

Lemma use_ok_mono T T' u : (forall tk, tk ∈ T -> tk ∈ T') -> use_ok T u -> use_ok T' u.
Proof. intros H. destruct u; cbn; [done| |by auto]. intros (tk & Htk & Hi). eauto. Qed.

#[export] Instance Inv_perm σ : Proper ((≡ₚ) ==> iff) (Inv σ).
Proof.
  assert (forall T T', T ≡ₚ T' -> Inv σ T -> Inv σ T') as G.
  { intros T T' HT [H1 H2 H3 H4 H5 H6 H7 H8 H9].
    assert (forall f, cnt f T' = cnt f T) as Hc by (intros; by rewrite HT).
    assert (forall tk, tk ∈ T' <-> tk ∈ T) as Hin by (intros; by rewrite HT).
    assert (forall u, use_ok T u -> use_ok T' u) as Hu by (intros u; apply use_ok_mono; intros; by apply Hin).
    split; try done.
    - intros s se Hs. destruct (H1 s se Hs). split; intros; rewrite ?Hc in *; auto.
    - intros c cx Hx. destruct (H2 c cx Hx). split; intros; rewrite ?Hc in *; auto.
    - intros tk Htk. apply Hin in Htk. specialize (H3 tk Htk). destruct tk as [| | | | | |c t []|]; cbn in *; rewrite ?Hc; naive_solver.
    - intros c. rewrite Hc. apply H6.
    - destruct H7. split; intros; rewrite ?Hc; eauto. eapply so_thread0; [|done]. by apply Hin.
    - intros t. rewrite Hc. apply H8.
    - intros t. rewrite Hc. apply H9. }
  intros T T' HT. split; apply G; [done|by symmetry].
Qed.

(** ** Safe programs *)

(** What the recursive functions need and give back. *)
Inductive proc_spec (t : Z) : proc -> list token -> list token -> Prop :=
| SpClient csess cl u :
    is_kernel cl = false -> use_thread u = t ->
    proc_spec t (PClose csess (use_head u) cl) [TUse u] [TUse u]
| SpPeek c s :
    proc_spec t (PClose (Some s) (LCtx c) KERN_IDENTITY) [TPeek c t (Some s)] [TUse (UDying c t)]
| SpOpening s u c :
    use_thread u = t ->
    proc_spec t (PClose (Some s) (use_head u) KERN_IDENTITY) [TOpn s u (KCtx c) false] [TUse u]
| SpFree c : proc_spec t (PFreeUtc c) [TDying c; TUse (UDying c t)] [].

Definition post (A : Type) : Type := A -> list token -> Prop.

(** An action takes the tokens [R] to others, whatever the tokens [F] of all other frames. *)
Definition act_safe {X : Set} (R : list token) (m : M st X) (Φ : post X) : Prop :=
  forall σ F, Inv σ (R ++ F) ->
  match m σ with
  | (ROk x, σ') => exists R', Inv σ' (R' ++ F) /\ Φ x R'
  | (RErr _, _) => True
  | (RPanic, _) => False
  end.

Definition await_safe {X : Set} (R : list token) (ready : st -> bool) (m : M st X) (Φ : post X) : Prop :=
  forall σ F, Inv σ (R ++ F) -> ready σ = true ->
  match m σ with
  | (ROk x, σ') => exists R', Inv σ' (R' ++ F) /\ Φ x R'
  | (RErr _, _) => True
  | (RPanic, _) => False
  end.

(** A session that was freed is only read after an opening that failed. *)
Definition ask_ok (q : question) : bool := match q with QFreed res => negb (res =? TEE_SUCCESS) | _ => true end.

Fixpoint safe {A} (t : Z) (R : list token) (p : prog A) (Q : post A) : Prop :=
  match p with
  | Ret a => exists R', R ≡ₚ R' /\ Q a R'
  | Act m k => act_safe R m (fun x R' => safe t R' (k x) Q)
  | Await ready m k => await_safe R ready m (fun x R' => safe t R' (k x) Q)
  | Ask q k => ask_ok q = true /\ forall a, answer_ok true q a = true -> safe t R (k a) Q
  | Enter s c f k =>
      (exists tk R1, R ≡ₚ TUse (UCtx c t s) :: tk :: R1 /\ is_inside c t s tk) /\
      forall res, safe t R (k res false) Q
  | Call p k => exists R1 R1' R2, R ≡ₚ R1 ++ R2 /\ proc_spec t p R1 R1' /\ forall r, safe t (R1' ++ R2) (k r) Q
  end.

(** *** Structural rules *)

Lemma act_safe_perm {X : Set} R R' (m : M st X) Φ : R ≡ₚ R' -> act_safe R m Φ -> act_safe R' m Φ.
Proof. intros HR H σ F HI. apply H. by rewrite HR. Qed.

Lemma act_safe_mono {X : Set} R (m : M st X) (Φ Ψ : post X) :
  (forall x R', Φ x R' -> Ψ x R') -> act_safe R m Φ -> act_safe R m Ψ.
Proof.
  intros HΦ H σ F HI. specialize (H σ F HI). destruct (m σ) as [[x|e|] σ']; [|done|done].
  destruct H as (R' & HI' & Hx). eauto.
Qed.

Lemma safe_perm {A} t R R' (p : prog A) Q : R ≡ₚ R' -> safe t R p Q -> safe t R' p Q.
Proof.
  intros HR. revert R R' HR. induction p as [a|X m k IH|X b m k IH|q k IH|s c f k IH|p k IH]; cbn [safe]; intros R R' HR H.
  - destruct H as (R1 & H1 & H2). exists R1. by rewrite <- HR.
  - intros σ F HI. apply H. by rewrite HR.
  - intros σ F HI. apply H. by rewrite HR.
  - destruct H as [Hq H]. split; [done|]. intros a Ha. eapply IH; eauto.
  - destruct H as [(tk & R1 & H1 & H2) H]. split.
    + exists tk, R1. by rewrite <- HR.
    + intros res. eapply IH; eauto.
  - destruct H as (R1 & R1' & R2 & H1 & H2 & H3). exists R1, R1', R2. by rewrite <- HR.
Qed.

#[export] Instance safe_proper {A} t : Proper ((≡ₚ) ==> eq ==> eq ==> iff) (@safe A t).
Proof. intros R R' HR p ? <- Q ? <-. split; apply safe_perm; [done|by symmetry]. Qed.

(** Tokens that the program does not touch. *)
Lemma safe_frame {A} t R R1 (p : prog A) (Q : post A) :
  safe t R p Q -> safe t (R ++ R1) p (fun a R' => exists R0, R' ≡ₚ R0 ++ R1 /\ Q a R0).
Proof.
  revert R. induction p as [a|X m k IH|X b m k IH|q k IH|s c f k IH|p k IH]; cbn [safe]; intros R H.
  - destruct H as (R' & H1 & H2). exists (R' ++ R1). split; [by rewrite H1|eauto].
  - intros σ F HI. rewrite <- app_assoc in HI. specialize (H σ (R1 ++ F) HI). destruct (m σ) as [[x|e|] σ']; [|done|done].
    destruct H as (R' & HI' & Hx). exists (R' ++ R1). rewrite <- app_assoc. split; [done|]. by apply IH.
  - intros σ F HI Hb. rewrite <- app_assoc in HI. specialize (H σ (R1 ++ F) HI Hb). destruct (m σ) as [[x|e|] σ']; [|done|done].
    destruct H as (R' & HI' & Hx). exists (R' ++ R1). rewrite <- app_assoc. split; [done|]. by apply IH.
  - destruct H as [Hq H]. split; [done|]. intros a Ha. apply IH; auto.
  - destruct H as [(tk & R2 & H1 & H2) H]. split; [|intros res; by apply IH].
    exists tk, (R2 ++ R1). by rewrite H1.
  - destruct H as (Ra & Ra' & R2 & H1 & H2 & H3). exists Ra, Ra', (R2 ++ R1). split_and!; [by rewrite H1, app_assoc|done|].
    intros r. rewrite app_assoc. by apply IH.
Qed.

Lemma safe_bind {A B} t R (p : prog A) (k : A -> prog B) (Q : post B) :
  safe t R p (fun a R' => safe t R' (k a) Q) -> safe t R (p ≫= k) Q.
Proof.
  unfold mbind, prog_mbind.
  revert R. induction p as [a|X m k' IH|X b m k' IH|q k' IH|s c f k' IH|p k' IH]; cbn [safe p_bind]; intros R H.
  - destruct H as (R' & H1 & H2). by rewrite H1.
  - eapply act_safe_mono; [|exact H]. cbn. intros x R' Hx. by apply IH.
  - intros σ F HI Hb. specialize (H σ F HI Hb). destruct (m σ) as [[x|e|] σ']; [|done|done].
    destruct H as (R' & HI' & Hx). exists R'. split; [done|]. by apply IH.
  - destruct H as [Hq H]. split; [done|]. intros a Ha. apply IH; auto.
  - destruct H as [H1 H]. split; [done|]. intros res. by apply IH.
  - destruct H as (Ra & Ra' & R2 & H1 & H2 & H3). exists Ra, Ra', R2. split_and!; [done|done|]. intros r. apply IH, H3.
Qed.

Lemma safe_mono {A} t R (p : prog A) (Q Q' : post A) :
  safe t R p Q -> (forall a R', Q a R' -> Q' a R') -> safe t R p Q'.
Proof.
  intros H HQ. revert R H. induction p as [a|X m k IH|X b m k IH|q k IH|s c f k IH|p k IH]; cbn [safe]; intros R H.
  - destruct H as (R' & H1 & H2). eauto.
  - eapply act_safe_mono; [|exact H]. cbn. intros x R' Hx. by apply IH.
  - intros σ F HI Hb. specialize (H σ F HI Hb). destruct (m σ) as [[x|e|] σ']; [|done|done].
    destruct H as (R' & HI' & Hx). exists R'. split; [done|]. by apply IH.
  - destruct H as [Hq H]. split; [done|]. intros a Ha. apply IH; auto.
  - destruct H as [H1 H]. split; [done|]. intros res. by apply IH.
  - destruct H as (Ra & Ra' & R2 & H1 & H2 & H3). exists Ra, Ra', R2. split_and!; [done|done|]. intros r. apply IH, H3.
Qed.

Lemma safe_ret {A} t R (a : A) (Q : post A) : Q a R -> safe t R (mret a) Q.
Proof. intros H. by exists R. Qed.

Lemma safe_act {X : Set} t R (m : M st X) (Q : post X) : act_safe R m Q -> safe t R (act m) Q.
Proof.
  intros H. unfold act. cbn [safe]. eapply act_safe_mono; [|exact H]. cbn. intros x R' Hx. by apply safe_ret.
Qed.

(** A part of the program that needs only the tokens [R]. *)
Lemma safe_use {A B} t R R1 (p : prog A) (k : A -> prog B) (P : post A) (Q : post B) :
  safe t R p P -> (forall a R', P a R' -> safe t (R' ++ R1) (k a) Q) -> safe t (R ++ R1) (p ≫= k) Q.
Proof.
  intros Hp Hk. apply safe_bind. eapply safe_mono; [by apply safe_frame|].
  cbn. intros a R' (R0 & HR & HP). rewrite HR. by apply Hk.
Qed.

Lemma safe_call {A} t R1 R1' R2 p (k : reply -> prog A) Q :
  proc_spec t p R1 R1' -> (forall r, safe t (R1' ++ R2) (k r) Q) -> safe t (R1 ++ R2) (Call p k) Q.
Proof. intros H1 H2. cbn [safe]. exists R1, R1', R2. eauto. Qed.

(** ** Adequacy *)

(** What waits below the running program, given what that one ends with. *)
Fixpoint conts_ok (t : Z) (Q : post reply) (R : list token) (ks : list frame) : Prop :=
  match ks with
  | [] => R = [] /\ forall r R', Q r R' -> R' ≡ₚ [TUse (UNsec t)]
  | FCall k :: ks => exists R1 R2 Q', R ≡ₚ R1 ++ R2 /\
      (forall r R', Q r R' -> safe t (R' ++ R1) (k r) Q') /\ conts_ok t Q' R2 ks
  | FEnter s c f k :: ks => exists tk R1 R2 Q', R ≡ₚ (tk :: R1) ++ R2 /\ is_inside c t s tk /\
      (forall r R', Q r R' -> safe t (R' ++ tk :: R1) (Enter s c f k) Q') /\ conts_ok t Q' R2 ks
  end.

Definition thread_ok (t : Z) (th : thread) (R : list token) : Prop :=
  match th with
  | Idle _ => R ≡ₚ [TUse (UNsec t)]
  | Run p ks => exists Q R1 R2, R ≡ₚ R1 ++ R2 /\ safe t R1 p Q /\ conts_ok t Q R2 ks
  end.

Definition config_ok (g : config) : Prop :=
  exists Rs, length Rs = length (threads g) /\
    (forall i th R, threads g !! i = Some th -> Rs !! i = Some R -> thread_ok (Z.of_nat i) th R) /\
    Inv (mem g) (concat Rs).

Lemma concat_delete {A} (Rs : list (list A)) i R :
  Rs !! i = Some R -> concat Rs ≡ₚ R ++ concat (delete i Rs).
Proof.
  revert i. induction Rs as [|R0 Rs IH]; intros [|i] H; [done|done| |]; cbn in *.
  - by simplify_eq.
  - rewrite (IH i H). apply Permutation_app_swap_app.
Qed.

Lemma concat_insert {A} (Rs : list (list A)) i R R' :
  Rs !! i = Some R -> concat (<[i := R']> Rs) ≡ₚ R' ++ concat (delete i Rs).
Proof.
  revert i. induction Rs as [|R0 Rs IH]; intros [|i] H; [done|done|done|]; cbn in *.
  rewrite (IH i H). apply Permutation_app_swap_app.
Qed.

(** One thread goes from [R] to [R']. *)
Lemma config_ok_update g Rs i th th' R R' σ' :
  length Rs = length (threads g) ->
  (forall i th R, threads g !! i = Some th -> Rs !! i = Some R -> thread_ok (Z.of_nat i) th R) ->
  threads g !! i = Some th -> Rs !! i = Some R ->
  thread_ok (Z.of_nat i) th' R' -> Inv σ' (R' ++ concat (delete i Rs)) ->
  config_ok (mkConfig (<[i := th']> (threads g)) σ').
Proof.
  intros Hlen Hok Hth HR Hth' HI. exists (<[i := R']> Rs).
  assert (i < length Rs)%nat by (by eapply lookup_lt_Some).
  split_and!; cbn [threads mem].
  - by rewrite !length_insert.
  - intros j thj Rj Hj HRj. destruct (decide (i = j)) as [<-|Hne].
    + rewrite list_lookup_insert_eq in Hj by lia. rewrite list_lookup_insert_eq in HRj by lia. by simplify_eq.
    + rewrite list_lookup_insert_ne in Hj by done. rewrite list_lookup_insert_ne in HRj by done. eauto.
  - by rewrite (concat_insert Rs i R R' HR).
Qed.

Section adequacy.
Context (polite : bool) (pseudo_tas : list pseudo_ta_head).
Hypothesis body_safe : forall t p R R',
  proc_spec t p R R' -> safe t R (proc_body polite t p) (fun _ R2 => R2 ≡ₚ R').
Hypothesis syscall_safe : forall t c s sc,
  safe t [TUse (UCtx c t s)] (syscall_prog polite false pseudo_tas t s sc) (fun _ R => R ≡ₚ [TUse (UCtx c t s)]).
Hypothesis entry_safe : forall t r,
  safe t [TUse (UNsec t)] (entry_std polite false pseudo_tas t r) (fun _ R => R ≡ₚ [TUse (UNsec t)]).

Let next (g : config) (o : outcome_of config) : Prop :=
  match o with Next g' => config_ok g' | Bad => False | _ => True end.

(** A thread whose new program is safe with the same tokens and the same memory. *)
Lemma config_ok_same g Rs i th th' R :
  length Rs = length (threads g) ->
  (forall i th R, threads g !! i = Some th -> Rs !! i = Some R -> thread_ok (Z.of_nat i) th R) ->
  threads g !! i = Some th -> Rs !! i = Some R ->
  Inv (mem g) (concat Rs) -> thread_ok (Z.of_nat i) th' R -> next g (set_thread i th' (mem g) g).
Proof.
  intros Hlen Hok Hth HR HI Hth'. eapply config_ok_update; [done|done|done|done|done|].
  by rewrite <- (concat_delete Rs i R HR).
Qed.

Lemma run_act_ok {X : Set} g Rs i th R R1 R2 Q (m : M st X) k ks :
  length Rs = length (threads g) ->
  (forall i th R, threads g !! i = Some th -> Rs !! i = Some R -> thread_ok (Z.of_nat i) th R) ->
  threads g !! i = Some th -> Rs !! i = Some R -> Inv (mem g) (concat Rs) ->
  R ≡ₚ R1 ++ R2 -> conts_ok (Z.of_nat i) Q R2 ks ->
  (forall F, Inv (mem g) (R1 ++ F) ->
     match m (mem g) with
     | (ROk x, σ') => exists R', Inv σ' (R' ++ F) /\ safe (Z.of_nat i) R' (k x) Q
     | (RErr _, _) => True | (RPanic, _) => False end) ->
  next g (run_act i m k ks g).
Proof.
  intros Hlen Hok Hth HR HI HR12 Hks H. unfold run_act.
  rewrite (concat_delete Rs i R HR), HR12, <- !app_assoc in HI. specialize (H _ HI).
  destruct (m (mem g)) as [[x|e|] σ']; [|done|done]. destruct H as (R' & HI' & Hx).
  eapply (config_ok_update g Rs i th _ R (R' ++ R2)); [done|done|done|done| |].
  - exists Q, R', R2. split_and!; done.
  - by rewrite <- app_assoc.
Qed.

(** A thread that returns. *)
Lemma step_ret_ok g Rs i R r ks :
  length Rs = length (threads g) ->
  (forall i th R, threads g !! i = Some th -> Rs !! i = Some R -> thread_ok (Z.of_nat i) th R) ->
  threads g !! i = Some (Run (Ret r) ks) -> Rs !! i = Some R -> Inv (mem g) (concat Rs) ->
  next g (step_run polite i g).
Proof.
  intros Hlen Hok Hth HR HI. destruct (Hok _ _ _ Hth HR) as (Q & R1 & R2 & HR12 & HS & Hks).
  cbn [safe] in HS. destruct HS as (R' & HR1 & HQ). unfold step_run. rewrite Hth.
  assert (forall th', thread_ok (Z.of_nat i) th' (R' ++ R2) -> next g (set_thread i th' (mem g) g)) as G.
  { intros th' Hth'. eapply (config_ok_update g Rs i _ th' R (R' ++ R2)); try done.
    by rewrite (concat_delete Rs i R HR), HR12, HR1 in HI. }
  destruct ks as [|[k|s c f k] ks]; apply G; cbn [conts_ok] in Hks; cbn [thread_ok].
  - destruct Hks as [-> Hend]. rewrite app_nil_r. eauto.
  - destruct Hks as (Ra & Rb & Q' & HRab & Hk & Hks). exists Q', (R' ++ Ra), Rb. split_and!; [by rewrite HRab, app_assoc|eauto|done].
  - destruct Hks as (tk & Ra & Rb & Q' & HRab & Hin & Hk & Hks). exists Q', (R' ++ tk :: Ra), Rb.
    split_and!; [by rewrite HRab, app_assoc|eauto|done].
Qed.

Lemma step_run_ok g i : config_ok g -> next g (step_run polite i g).
Proof.
  intros (Rs & Hlen & Hok & HI).
  destruct (threads g !! i) as [th|] eqn:Hth; [|unfold step_run; by rewrite Hth].
  destruct (lookup_lt_is_Some_2 Rs i) as [R HR]; [rewrite Hlen; by eapply lookup_lt_Some|].
  pose proof (Hok _ _ _ Hth HR) as HT. destruct th as [o|p ks]; [unfold step_run; by rewrite Hth|].
  destruct p as [r|X m k|X b m k|q k|s c f k|p k]; [by eapply step_ret_ok| | |unfold step_run; by rewrite Hth|unfold step_run; by rewrite Hth|].
  - unfold step_run. rewrite Hth. destruct HT as (Q & R1 & R2 & HR12 & HS & Hks).
    eapply run_act_ok; [done|done|done|done|done|done|done|]. intros F HF. by apply HS.
  - unfold step_run. rewrite Hth. destruct HT as (Q & R1 & R2 & HR12 & HS & Hks).
    destruct (b (mem g)) eqn:Hb; [|done].
    eapply run_act_ok; [done|done|done|done|done|done|done|]. intros F HF. by apply HS.
  - unfold step_run. rewrite Hth. destruct HT as (Q & R1 & R2 & HR12 & HS & Hks).
    destruct HS as (Ra & Ra' & Rb & HRab & Hsp & Hk).
    eapply config_ok_same; try done. cbn [thread_ok conts_ok].
    exists (fun _ R' => R' ≡ₚ Ra'), Ra, (Rb ++ R2). split_and!; [by rewrite HR12, HRab, app_assoc|by apply body_safe|].
    exists Rb, R2, Q. split_and!; [done| |done]. intros r R' ->. apply Hk.
Qed.

Lemma step_ok g e : config_ok g -> next g (step polite true false pseudo_tas g e).
Proof.
  intros HG. destruct e as [i r|i|i a|i res pk|i sc]; cbn [step]; [| by apply step_run_ok| | |];
    destruct HG as (Rs & Hlen & Hok & HI);
    (destruct (threads g !! i) as [th|] eqn:Hth; [|done]);
    (destruct (lookup_lt_is_Some_2 Rs i) as [R HR]; [rewrite Hlen; by eapply lookup_lt_Some|]);
    pose proof (Hok _ _ _ Hth HR) as HT; destruct th as [o|p ks]; try done.
  - eapply config_ok_same; try done. cbn [thread_ok conts_ok] in *.
    exists (fun _ R' => R' ≡ₚ [TUse (UNsec (Z.of_nat i))]), R, []. rewrite app_nil_r. split_and!; [done| |done|done].
    rewrite HT. apply entry_safe.
  - destruct p as [|? ? ?|? ? ? ?|q k| |]; try done. destruct (answer_ok true q a) eqn:Ha; [|done].
    destruct HT as (Q & R1 & R2 & HR12 & HS & Hks). eapply config_ok_same; try done.
    exists Q, R1, R2. split_and!; [done|by apply HS|done].
  - destruct p as [|? ? ?|? ? ? ?| |s c f k|]; try done. destruct pk; [done|]. cbn [andb].
    destruct HT as (Q & R1 & R2 & HR12 & [_ HS] & Hks). eapply config_ok_same; try done.
    exists Q, R1, R2. split_and!; [done|by apply HS|done].
  - destruct p as [|? ? ?|? ? ? ?| |s c f k|]; try done.
    destruct HT as (Q & R1 & R2 & HR12 & HS & Hks). eapply config_ok_same; try done.
    pose proof HS as [(tk & Ra & HRa & Hin) _].
    exists (fun _ R' => R' ≡ₚ [TUse (UCtx c (Z.of_nat i) s)]), [TUse (UCtx c (Z.of_nat i) s)], ((tk :: Ra) ++ R2).
    split_and!; [by rewrite HR12, HRa|apply syscall_safe|].
    cbn [conts_ok]. exists tk, Ra, R2, Q. split_and!; [done|done| |done].
    intros r R' ->. cbn [app]. by rewrite <- HRa.
Qed.

Lemma steps_ok g es : config_ok g -> next g (steps polite true false pseudo_tas g es).
Proof.
  revert g. induction es as [|e es IH]; intros g HG; cbn [steps]; [done|].
  pose proof (step_ok g e HG) as H. destruct (step _ _ _ _ g e); try done. by apply IH.
Qed.

(** The kernel boots with each thread idle. *)
Lemma cnt_boot f n : (forall t, f (TUse (UNsec t)) = false) ->
  cnt f (concat ((fun i => [TUse (UNsec (Z.of_nat i))]) <$> seq 0 n)) = 0.
Proof.
  intros Hf. generalize 0%nat. induction n as [|n IH]; intros k; [done|]. cbn [seq fmap list_fmap concat app].
  rewrite cnt_cons, Hf. apply IH.
Qed.

Lemma cnt_boot_nsec t n k :
  cnt (f_nsec t) (concat ((fun i => [TUse (UNsec (Z.of_nat i))]) <$> seq k n)) <= b2z (Z.of_nat k <=? t).
Proof.
  revert k. induction n as [|n IH]; intros k; [apply b2z_range|]. cbn [seq].
  rewrite fmap_cons. cbn [concat app]. rewrite cnt_cons. cbn [f_nsec u_nsec]. specialize (IH (S k)).
  destruct (Z.eqb_spec (Z.of_nat k) t), (Z.leb_spec (Z.of_nat (S k)) t), (Z.leb_spec (Z.of_nat k) t); cbn [b2z] in *; lia.
Qed.

Lemma boot_ok n : config_ok (boot n).
Proof.
  exists ((fun i => [TUse (UNsec (Z.of_nat i))]) <$> seq 0 n). cbn [threads mem boot].
  assert (forall tk, tk ∈ concat ((fun i => [TUse (UNsec (Z.of_nat i))]) <$> seq 0 n) -> exists t, tk = TUse (UNsec t)) as Htk.
  { generalize 0%nat. induction n as [|n IH]; intros k tk; [by rewrite elem_of_nil|].
    cbn [seq fmap list_fmap concat app]. rewrite elem_of_cons. intros [->|H]; eauto. }
  split_and!.
  - by rewrite length_fmap, length_seq, length_replicate.
  - intros i th R Hth HR. apply lookup_replicate in Hth as [-> Hi].
    rewrite list_lookup_fmap, lookup_seq_lt in HR by done. cbn in HR. simplify_eq. cbn [thread_ok]. reflexivity.
  - split; try done.
    + intros tk H. by destruct (Htk tk H) as [t ->].
    + intros l s. split; [|by intros (se & H & _)]. destruct l; cbn; [by intros ?%elem_of_nil|]. rewrite lookup_empty. by intros ?%elem_of_nil.
    + intros c. split; [by intros ?%elem_of_nil|]. by intros [[cx H] _].
    + split; cbn; try done; try (by rewrite cnt_boot). intros tk c t H E. by destruct (Htk tk H) as [t' ->].
    + intros t. pose proof (cnt_boot_nsec t n 0). pose proof (b2z_range (Z.of_nat 0 <=? t)). lia.
    + intros t. by rewrite cnt_boot.
Qed.

End adequacy.
