(* ===== verification/SessionActs.v ===== *)
(** * The atomic actions of the session manager

    What each action of [Session] does to the tokens of the frame that makes it, whatever the
    other frames hold: the invariant of [SessionLogic] is kept, and no assertion fails. *)

From S2P Require Import Prelude ErrM Session SessionLogic.
From stdpp Require Import base gmap list.
From Stdlib Require Import ZArith Lia.

Local Open Scope Z_scope.

Create HintDb session.

(** ** Counting in lists of tokens that are known in part *)

Ltac cnts :=
  rewrite ?cnt_app, ?cnt_cons, ?cnt_nil, ?cnt_app in *;
  cbn [f_plain f_ref f_opn f_lock f_ctx f_dying f_busy f_single f_nsec f_uses f_rec e_busy e_single k_busy k_single u_nsec u_ctx andb app] in *.

(** Comparisons of the names of objects. *)
Ltac eqbs :=
  repeat match goal with
  | H : context [?x =? ?x] |- _ => rewrite Z.eqb_refl in H
  | |- context [?x =? ?x] => rewrite Z.eqb_refl
  | |- context [?x =? ?y] => destruct (Z.eqb_spec x y)
  | H : context [?x =? ?y] |- _ => destruct (Z.eqb_spec x y)
  end.

Ltac cnt_lia := cnts; eqbs; cbn [b2z andb] in *; subst; try congruence; try lia.

(** The counts of one object, whose name is the same everywhere. *)
Ltac cz := cnts; rewrite ?Z.eqb_refl in *; cbn [b2z andb] in *; rewrite ?Z.eqb_refl in *; cbn [b2z andb] in *; lia.

(** The two lists hold the same tokens as far as contexts, entries, lists and recursion go. *)
Record same_ctx (R R' : list token) : Prop := {
  sc_ctx : forall c, cnt (f_ctx c) R' = cnt (f_ctx c) R;
  sc_dying : forall c, cnt (f_dying c) R' = cnt (f_dying c) R;
  sc_busy : forall c, cnt (f_busy c) R' = cnt (f_busy c) R;
  sc_uses : forall c, cnt (f_uses c) R' = cnt (f_uses c) R;
  sc_single : cnt f_single R' = cnt f_single R;
  sc_nsec : forall t, cnt (f_nsec t) R' = cnt (f_nsec t) R;
  sc_rec : forall t, cnt (f_rec t) R' = cnt (f_rec t) R;
  sc_entry : forall tk c t, tk ∈ R' -> tk_entry tk = Some (c, EBusy t true) ->
    exists tk', tk' ∈ R /\ tk_entry tk' = Some (c, EBusy t true);
  sc_inside : forall tk c t s, tk ∈ R -> is_inside c t s tk -> exists tk', tk' ∈ R' /\ is_inside c t s tk';
  sc_die : forall c, TDying c ∈ R <-> TDying c ∈ R' }.

Lemma same_ctx_app R R' F : same_ctx R R' -> same_ctx (R ++ F) (R' ++ F).
Proof.
  intros [H1 H2 H3 H4 H5 H6 H7 H8 H9 H10]. split; intros; rewrite ?cnt_app; rewrite ?H1, ?H2, ?H3, ?H4, ?H5, ?H6, ?H7; try done.
  - apply elem_of_app in H as [H|H]; [|exists tk; split; [by apply in_right|done]].
    destruct (H8 _ _ _ H H0) as (tk' & ? & ?). exists tk'. split; [by apply in_left|done].
  - apply elem_of_app in H as [H|H]; [|exists tk; split; [by apply in_right|done]].
    destruct (H9 _ _ _ _ H H0) as (tk' & ? & ?). exists tk'. split; [by apply in_left|done].
  - rewrite !elem_of_app, H10. done.
Qed.

Lemma same_ctx_use R R' u : same_ctx R R' -> use_ok R u -> use_ok R' u.
Proof.
  intros H. destruct u as [t|c t s|c t]; cbn; [done| |by apply (sc_die _ _ H)].
  intros (tk & Htk & Hin). by eapply (sc_inside _ _ H).
Qed.

Lemma same_ctx_use_app R R' F u : same_ctx R R' -> use_ok (R ++ F) u -> use_ok (R' ++ F) u.
Proof. intros H. by apply same_ctx_use, same_ctx_app. Qed.

(** Knowledge of contexts survives where they keep flags and state of loading. *)
Definition ctx_like (σ σ' : st) : Prop := forall c cx, ctxs σ !! c = Some cx ->
  exists cx', ctxs σ' !! c = Some cx' /\ c_flags cx' = c_flags cx /\ c_is_initializing cx' = c_is_initializing cx.

Lemma ctx_like_same σ σ' : ctxs σ' = ctxs σ -> ctx_like σ σ'.
Proof. intros E c cx H. exists cx. by rewrite E. Qed.

Lemma entry_ok_flags e cx cx' : c_flags cx' = c_flags cx -> entry_ok e cx -> entry_ok e cx'.
Proof. intros E. destruct e; cbn; unfold is_concurrent, is_single; by rewrite E. Qed.

Lemma know_ok_like σ σ' k oc : ctx_like σ σ' -> know_ok σ k oc -> know_ok σ' k oc.
Proof.
  intros H. destruct k; cbn; try done;
    [intros (-> & cx & Hc & Hi) ..|intros (-> & cx & Hc & Hi & He)|intros (-> & cx & Hc & Hi & He)];
    destruct (H _ _ Hc) as (cx' & Hc' & Ef & Ei);
    (split; [done|]); exists cx'; unfold is_concurrent in *; rewrite ?Ei, ?Ef; eauto using entry_ok_flags.
Qed.

(** The session a token is about. *)
Definition tk_sess (tk : token) : option Z :=
  match tk with TRef s _ | TOpn s _ _ _ | TLock s _ _ => Some s | TPeek _ _ os => os | _ => None end.

(** No session appears in a list. *)
Definition homes_like (σ σ' : st) : Prop := forall s se', sesss σ' !! s = Some se' ->
  exists se, sesss σ !! s = Some se /\ s_home se = s_home se'.

Lemma homes_like_insert σ σ' s se se' :
  sesss σ !! s = Some se -> s_home se' = s_home se -> sesss σ' = <[s := se']> (sesss σ) -> homes_like σ σ'.
Proof. intros Hs Hh E x sx. rewrite E, lookup_insert_Some. intros [[<- <-]|[_ H]]; eauto. Qed.

(** A token of another frame, when its session keeps what it says. *)
Lemma tok_ok_keep σ σ' T T' tk :
  tok_ok σ T tk -> ctx_like σ σ' -> same_ctx T T' -> homes_like σ σ' ->
  (forall s se, tk_sess tk = Some s -> sesss σ !! s = Some se ->
     exists se', sesss σ' !! s = Some se' /\ s_home se' = s_home se /\ s_ctx se' = s_ctx se /\ s_id se' = s_id se /\
       (f_lock s tk = true -> s_lock_thread se' = s_lock_thread se /\ s_unlink se' = s_unlink se) /\
       (f_opn s tk = true -> s ∈ opening σ -> s ∈ opening σ')) ->
  tok_ok σ' T' tk.
Proof.
  intros H HC HS HH HK. pose proof (fun u => same_ctx_use T T' u HS) as HU.
  destruct tk as [s k|s u k r|s u d|u|c e|c|c t' s|t]; cbn in H |- *.
  - destruct H as (se & Hs & Hk & Hn). destruct (HK s se eq_refl Hs) as (se' & Hs' & Hh & Hc & _).
    exists se'. rewrite Hc, Hh. split_and!; [done|by eapply know_ok_like|done].
  - destruct H as (Ho & Hu & se & Hs & Hh & Hk & Hn & Hi).
    destruct (HK s se eq_refl Hs) as (se' & Hs' & Hh' & Hc & Hi' & _ & Hop). cbn in Hop. rewrite Z.eqb_refl in Hop.
    split_and!; [by apply Hop|by apply HU|]. exists se'. rewrite Hh', Hc, Hi'. split_and!; [done|done|by eapply know_ok_like|done|done].
  - destruct H as (Hu & se & Hs & Hh & Hl & Hd).
    destruct (HK s se eq_refl Hs) as (se' & Hs' & Hh' & Hc & _ & Hlk & _). cbn in Hlk. rewrite Z.eqb_refl in Hlk.
    destruct Hlk as [Hl' Hd']; [done|]. split; [by apply HU|]. exists se'. by rewrite Hh', Hl', Hd'.
  - by apply HU.
  - rewrite (sc_dying _ _ HS). destruct H as (Hd & cx & Hc & Hi & He). destruct (HC _ _ Hc) as (cx' & Hc' & Ef & Ei).
    split; [done|]. exists cx'. rewrite Ei. split_and!; [done|done|]. destruct e; [by eapply entry_ok_flags|done].
  - destruct H as [cx Hc]. destruct (HC _ _ Hc) as (cx' & Hc' & _). eauto.
  - destruct H as (Hd & Hs0). split; [by apply (sc_die _ _ HS)|]. destruct s as [s|].
    + destruct Hs0 as (se & Hs & Hh). destruct (HK s se eq_refl Hs) as (se' & Hs' & Hh' & _). exists se'. by rewrite Hh'.
    + intros x sx Hx. destruct (HH x sx Hx) as (s0 & Hs & <-). by eapply Hs0.
  - done.
Qed.

(** Everything but sessions stays. *)
Definition rest_same (σ σ' : st) : Prop :=
  ctxs σ' = ctxs σ /\ tee_ctxes σ' = tee_ctxes σ /\ tee_open_sessions σ' = tee_open_sessions σ /\
  single_thread σ' = single_thread σ /\ single_count σ' = single_count σ /\ syscall_recursion σ' = syscall_recursion σ.

Definition same_sess (x : Z) (R R' : list token) : Prop :=
  cnt (f_ref x) R' = cnt (f_ref x) R /\ cnt (f_plain x) R' = cnt (f_plain x) R /\
  cnt (f_opn x) R' = cnt (f_opn x) R /\ cnt (f_lock x) R' = cnt (f_lock x) R.

Lemma nsess_insert c s se se' m :
  m !! s = Some se -> s_ctx se' = s_ctx se -> nsess c (<[s := se']> m) = nsess c m.
Proof.
  intros Hs Hc. unfold nsess. f_equal. destruct (decide (s_ctx se = Some c)) as [E|E].
  - rewrite (map_filter_insert_True _ m s se') by (cbn; congruence).
    rewrite map_size_insert_Some; [done|]. exists se. by apply map_lookup_filter_Some.
  - rewrite (map_filter_insert_False _ m s se') by (cbn; congruence).
    rewrite (map_filter_delete_not _ m s); [done|]. intros y Hy. cbn. by simplify_eq.
Qed.

(** One session changes, but for what other frames and the lists know of it. *)
Lemma Inv_sess_step σ σ' R R' F s se se' :
  Inv σ (R ++ F) -> sesss σ !! s = Some se -> sesss σ' = <[s := se']> (sesss σ) -> rest_same σ σ' ->
  (forall x, x <> s -> x ∈ opening σ' <-> x ∈ opening σ) ->
  s_id se' = s_id se -> s_home se' = s_home se -> s_ctx se' = s_ctx se ->
  same_ctx R R' -> (forall x, x <> s -> same_sess x R R') ->
  sess_ok σ' (R' ++ F) s se' ->
  (forall tk, tk ∈ R' -> tok_ok σ' (R' ++ F) tk) ->
  (s_lock_thread se' = s_lock_thread se /\ s_unlink se' = s_unlink se \/ cnt (f_lock s) F = 0) ->
  ((s ∈ opening σ -> s ∈ opening σ') \/ cnt (f_opn s) F = 0) ->
  Inv σ' (R' ++ F).
Proof.
  intros [H1 H2 H3 H4 H5 H6 H7 H8 H9] Hs Hs' (E1 & E2 & E3 & E4 & E5 & E6) Hop Hid Hh Hc HSR Hx Hok Htk Hlk Ho.
  pose proof (same_ctx_app R R' F HSR) as HS.
  split.
  - intros x sx Hxx. rewrite Hs' in Hxx. destruct (decide (x = s)) as [->|Hne].
    + rewrite lookup_insert_eq in Hxx. by simplify_eq.
    + rewrite lookup_insert_ne in Hxx by done. destruct (H1 x sx Hxx). destruct (Hx x Hne) as (X1 & X2 & X3 & X4).
      rewrite !cnt_app in *.
      split; rewrite ?cnt_app, ?X1, ?X2, ?X3, ?X4; try done.
      * by rewrite Hop.
      * rewrite sk_opn. by rewrite (bool_decide_ext _ _ (Hop x Hne)).
      * intros Hn. apply sk_some. intros Hx'. by apply Hn, Hop.
      * intros c Hcx. rewrite (sc_dying _ _ HS), E1. destruct (sk_ctx c Hcx) as (D & cx & Hcx' & Hi).
        split; [done|]. exists cx. split; [done|]. intros Ei. by apply Hop, Hi.
  - intros c cx Hcx. rewrite E1 in Hcx. destruct (H2 c cx Hcx).
    split; rewrite ?(sc_dying _ _ HS), ?(sc_busy _ _ HS), ?(sc_ctx _ _ HS), ?(sc_uses _ _ HS), ?Hs', ?(nsess_insert c s se se' _ Hs Hc); done.
  - intros tk Hin. apply elem_of_app in Hin as [Hin|Hin]; [by apply Htk|].
    eapply tok_ok_keep; [apply H3; by apply in_right|by apply ctx_like_same|done|by eapply homes_like_insert|].
    intros x sx Hts Hxx. destruct (decide (x = s)) as [->|Hne].
    + exists se'. rewrite Hs', lookup_insert_eq. simplify_eq. split_and!; [done|done|done|done| |].
      * intros Hf. destruct Hlk as [?|Hlk]; [done|]. pose proof (cnt_pos _ _ _ Hin Hf). lia.
      * intros Hf. destruct Ho as [?|Ho]; [done|]. pose proof (cnt_pos _ _ _ Hin Hf). lia.
    + exists sx. rewrite Hs', lookup_insert_ne by done. split_and!; try done. intros _. by apply Hop.
  - intros l x. assert (sessions_of l σ' = sessions_of l σ) as -> by (destruct l; cbn; by rewrite ?E3, ?E1).
    rewrite H4, Hs'. destruct (decide (x = s)) as [->|Hne].
    + rewrite lookup_insert_eq. split; intros (sx & Ex & El); [exists se'|exists se]; split; congruence.
    + by rewrite lookup_insert_ne.
  - assert (forall x sx, sesss σ' !! x = Some sx ->
      exists s0, sesss σ !! x = Some s0 /\ s_home s0 = s_home sx /\ s_id s0 = s_id sx) as G.
    { intros x sx. rewrite Hs', lookup_insert_Some. intros [[<- <-]|[_ ?]]; eauto. }
    intros x y sx sy (x0 & ? & Hx1 & Hx2)%G (y0 & ? & Hy1 & Hy2)%G ? ?. apply (H5 x y x0 y0); congruence.
  - intros c. rewrite E2, E1, (sc_dying _ _ HS). apply H6.
  - destruct H7. split; rewrite ?E4, ?E5, ?(sc_single _ _ HS); try done.
    intros tk c t Hin He. destruct (sc_entry _ _ HS _ _ _ Hin He) as (tk' & Hin' & He'). eauto.
  - intros t. rewrite (sc_nsec _ _ HS). apply H8.
  - intros t. unfold recursion_of in *. rewrite E6, (sc_rec _ _ HS). apply H9.
Qed.

(** ** Running an action *)

(** What an action must come to. *)
Definition act_post {X} (F : list token) (Φ : post X) (r : rres X) (σ : st) : Prop :=
  match r with
  | ROk x => exists R', Inv σ (R' ++ F) /\ Φ x R'
  | RErr _ => True
  | RPanic => False
  end.

Lemma act_safe_wp {X : Set} R (m : M st X) (Φ : post X) :
  (forall σ F, Inv σ (R ++ F) -> wp m (act_post F Φ) σ) -> act_safe R m Φ.
Proof. intros H σ F HI. specialize (H σ F HI). unfold wp in H. destruct (m σ) as [[x|e|] σ']; exact H. Qed.

Lemma await_safe_wp {X : Set} R ready (m : M st X) (Φ : post X) :
  (forall σ F, Inv σ (R ++ F) -> ready σ = true -> wp m (act_post F Φ) σ) -> await_safe R ready m Φ.
Proof. intros H σ F HI Hr. specialize (H σ F HI Hr). unfold wp in H. destruct (m σ) as [[x|e|] σ']; exact H. Qed.

Lemma wp_rd_sess {A} s (f : tee_ta_session -> A) Q σ se :
  sesss σ !! s = Some se -> Q (ROk (f se)) σ -> wp (rd_sess s f) Q σ.
Proof. intros H HQ. unfold wp, rd_sess. by rewrite H. Qed.
Lemma wp_wr_sess s f Q σ se :
  sesss σ !! s = Some se -> Q (ROk tt) (set_sesss (<[s := f se]> (sesss σ)) σ) -> wp (wr_sess s f) Q σ.
Proof. intros H HQ. unfold wp, wr_sess. by rewrite H. Qed.
Lemma wp_rd_ctx {A} c (f : tee_ta_ctx -> A) Q σ cx :
  ctxs σ !! c = Some cx -> Q (ROk (f cx)) σ -> wp (rd_ctx c f) Q σ.
Proof. intros H HQ. unfold wp, rd_ctx. by rewrite H. Qed.
Lemma wp_wr_ctx c f Q σ cx :
  ctxs σ !! c = Some cx -> Q (ROk tt) (set_ctxs (<[c := f cx]> (ctxs σ)) σ) -> wp (wr_ctx c f) Q σ.
Proof. intros H HQ. unfold wp, wr_ctx. by rewrite H. Qed.
Lemma wp_assert b (Q : rres unit -> st -> Prop) σ : b = true -> Q (ROk tt) σ -> wp (assert_ b) Q σ.
Proof. by intros ->. Qed.

(** One step; accesses need the object's lookup, which [lk] proves. *)
Ltac act_step lk :=
  lazymatch goal with
  | |- wp (rd_sess _ _) _ _ => eapply wp_rd_sess; [lk|cbn [cont]]
  | |- wp (wr_sess _ _) _ _ => eapply wp_wr_sess; [lk|cbn [cont]]
  | |- wp (rd_ctx _ _) _ _ => eapply wp_rd_ctx; [lk|cbn [cont]]
  | |- wp (wr_ctx _ _) _ _ => eapply wp_wr_ctx; [lk|cbn [cont]]
  | |- wp (assert_ _) _ _ => apply wp_assert; [|cbn [cont]]
  | |- wp _ _ _ => wp_step; cbn [cont]
  end.
Ltac lk := first [eassumption | cbn; apply lookup_insert_eq].

(** ** Reading *)

Definition know_ctx (k : know) : option Z :=
  match k with KNone | KHome _ => None | KInit c | KCtx c | KId c _ | KSeq c | KIn c _ => Some c end.

(** The context whose existence a token vouches for. *)
Definition tk_ctx (tk : token) : option Z :=
  match tk with
  | TRef _ k | TOpn _ _ k _ => know_ctx k
  | TCtx c _ | TDying c | TPeek c _ _ => Some c
  | TUse (UCtx c _ _) | TUse (UDying c _) | TLock _ (UCtx c _ _) _ | TLock _ (UDying c _) _ => Some c
  | _ => None
  end.

Lemma tok_sess_alive σ T tk s : tok_ok σ T tk -> tk_sess tk = Some s -> exists se, sesss σ !! s = Some se.
Proof. intros H E. destruct tk as [| | | | | |c t []|]; cbn in *; simplify_eq; naive_solver. Qed.

Lemma know_alive σ k oc c : know_ok σ k oc -> know_ctx k = Some c -> exists cx, ctxs σ !! c = Some cx.
Proof. intros H E. destruct k; cbn in *; simplify_eq; naive_solver. Qed.

Lemma use_alive σ T u c : Inv σ T -> use_ok T u -> use_head u = LCtx c -> exists cx, ctxs σ !! c = Some cx.
Proof.
  intros HI Hu E. destruct u as [t|c' t s|c' t]; cbn in *; simplify_eq.
  - destruct Hu as (tk & Hin & sg & Htk). pose proof (inv_tok _ _ HI tk Hin) as Hok.
    destruct Htk as [->|(u & r & ->)]; cbn in Hok; naive_solver.
  - apply (inv_tok _ _ HI _ Hu).
Qed.

Lemma tok_ctx_alive σ T tk c : Inv σ T -> tk ∈ T -> tk_ctx tk = Some c -> exists cx, ctxs σ !! c = Some cx.
Proof.
  intros HI Hin E. pose proof (inv_tok _ _ HI tk Hin) as H.
  destruct tk as [s k|s u k r|s u d|u|c' e|c'|c' t' s|t]; cbn in E, H; simplify_eq.
  - destruct H as (se & _ & Hk & _). by eapply know_alive.
  - destruct H as (_ & _ & se & _ & _ & Hk & _). by eapply know_alive.
  - destruct H as (Hu & _). eapply use_alive; [done|done|]. by destruct u; simplify_eq.
  - eapply use_alive; [done|done|]. by destruct u; simplify_eq.
  - naive_solver.
  - done.
  - destruct H as [H _]. apply (inv_tok _ _ HI _ H).
Qed.

Lemma act_rd_sess_fact {A : Set} R s (f : tee_ta_session -> A) (Φ : post A) tk :
  tk ∈ R -> tk_sess tk = Some s ->
  (forall σ F se, Inv σ (R ++ F) -> sesss σ !! s = Some se -> exists R', Inv σ (R' ++ F) /\ Φ (f se) R') ->
  act_safe R (rd_sess s f) Φ.
Proof.
  intros Hin Hs HΦ σ F HI. destruct (tok_sess_alive σ (R ++ F) tk s) as [se Hse]; [apply HI; by apply in_left|done|].
  unfold rd_sess. rewrite Hse. by apply HΦ.
Qed.

Lemma act_rd_sess {A : Set} R s (f : tee_ta_session -> A) (Φ : post A) tk :
  tk ∈ R -> tk_sess tk = Some s -> (forall x, Φ x R) -> act_safe R (rd_sess s f) Φ.
Proof. intros Hin Hs HΦ. eapply act_rd_sess_fact; eauto. Qed.

Lemma act_rd_ctx_fact {A : Set} R c (f : tee_ta_ctx -> A) (Φ : post A) tk :
  tk ∈ R -> tk_ctx tk = Some c ->
  (forall σ F cx, Inv σ (R ++ F) -> ctxs σ !! c = Some cx -> exists R', Inv σ (R' ++ F) /\ Φ (f cx) R') ->
  act_safe R (rd_ctx c f) Φ.
Proof.
  intros Hin Hc HΦ σ F HI. destruct (tok_ctx_alive σ (R ++ F) tk c) as [cx Hcx]; [done|by apply in_left|done|].
  unfold rd_ctx. rewrite Hcx. by apply HΦ.
Qed.

Lemma act_rd_ctx {A : Set} R c (f : tee_ta_ctx -> A) (Φ : post A) tk :
  tk ∈ R -> tk_ctx tk = Some c -> (forall x, Φ x R) -> act_safe R (rd_ctx c f) Φ.
Proof. intros Hin Hs HΦ. eapply act_rd_ctx_fact; eauto. Qed.

(** TAs that behave have not panicked. *)
Lemma act_rd_panicked R c (Φ : post bool) tk :
  tk ∈ R -> tk_ctx tk = Some c -> Φ false R -> act_safe R (rd_ctx c c_panicked) Φ.
Proof.
  intros Hin Hc HΦ. eapply act_rd_ctx_fact; [done|done|]. intros σ F cx HI Hcx.
  exists R. split; [done|]. by rewrite (ck_panicked _ _ _ _ (inv_ctx _ _ HI _ _ Hcx)).
Qed.

(** ** Fields that only their session's user looks at *)

Definition quiet (f : tee_ta_session -> tee_ta_session) : Prop := forall se,
  s_id (f se) = s_id se /\ s_home (f se) = s_home se /\ s_ctx (f se) = s_ctx se /\
  s_ref_count (f se) = s_ref_count se /\ s_lock_thread (f se) = s_lock_thread se /\ s_unlink (f se) = s_unlink se.

Lemma same_ctx_refl R : same_ctx R R.
Proof. split; intros; eauto. Qed.

Lemma same_sess_refl x R : same_sess x R R.
Proof. done. Qed.

#[export] Hint Resolve same_ctx_refl same_sess_refl : session.

Lemma sess_ok_quiet σ σ' T s se se' :
  sess_ok σ T s se -> ctxs σ' = ctxs σ -> opening σ' = opening σ -> s_ctx se' = s_ctx se ->
  s_ref_count se' = s_ref_count se -> s_lock_thread se' = s_lock_thread se -> s_unlink se' = s_unlink se ->
  sess_ok σ' T s se'.
Proof. intros [] E1 E2 E3 E4 E5 E6. split; rewrite ?E1, ?E2, ?E3, ?E4, ?E5, ?E6; done. Qed.

Lemma act_wr_sess R s f (Φ : post unit) tk :
  quiet f -> tk ∈ R -> tk_sess tk = Some s -> Φ tt R -> act_safe R (wr_sess s f) Φ.
Proof.
  intros Hq Hin Hs HΦ σ F HI. destruct (tok_sess_alive σ (R ++ F) tk s) as [se Hse]; [apply HI; by apply in_left|done|].
  destruct (Hq se) as (Q1 & Q2 & Q3 & Q4 & Q5 & Q6). unfold wr_sess. rewrite Hse. exists R. split; [|done].
  eapply (Inv_sess_step σ _ R R F s se (f se)); try done; auto with session.
  - by eapply sess_ok_quiet; [by apply HI|..].
  - intros tk' Htk'. eapply tok_ok_keep; [apply HI; by apply in_left|by apply ctx_like_same|auto with session|by eapply homes_like_insert|].
    intros x sx Hts Hx. cbn. destruct (decide (x = s)) as [->|Hne].
    + exists (f se). rewrite lookup_insert_eq. simplify_eq. done.
    + exists sx. rewrite lookup_insert_ne by done. done.
Qed.

(** ** References and locks of sessions *)

(** A frame that ends its use of a session: its tokens on it, and what is left. *)
Lemma no_entry_busy c k : know_entry k = None -> k_busy c k = false.
Proof. by destruct k. Qed.
Lemma no_entry_single k : know_entry k = None -> k_single k = false.
Proof. by destruct k. Qed.

(** Finite lists of tokens. *)
Ltac in_list H :=
  repeat (apply elem_of_cons in H as [H|H]; [subst|]); [..|by apply elem_of_nil in H].
Ltac no_inside H := destruct H as (? & [?|(? & ? & ?)]); simplify_eq.

Ltac find_in := cbn [app]; rewrite ?elem_of_cons; tauto.
Ltac pick l tac :=
  lazymatch l with ?x :: ?l' => first [exists x; split; [find_in|solve [tac]] | pick l' tac] end.
Ltac same_ctx_tac :=
  split; intros; cnts; rewrite ?no_entry_busy, ?no_entry_single by done; cbn [b2z]; try lia;
  try (match goal with H : ?tk ∈ _, H0 : tk_entry ?tk = _ |- _ =>
         in_list H; cbn [tk_entry] in H0; try congruence; try done;
         match goal with |- exists _, _ ∈ ?l /\ _ => pick l ltac:(exact H0) end end);
  try (match goal with H : ?tk ∈ _, H0 : is_inside _ _ _ ?tk |- _ =>
         in_list H; destruct H0 as (sg & [E|(u' & r' & E)]); simplify_eq; try done;
         match goal with |- exists _, _ ∈ ?l /\ _ => pick l ltac:(exists sg; eauto) end end);
  try (rewrite ?elem_of_cons, ?elem_of_nil; naive_solver).

Lemma same_ctx_put s k u d : know_entry k = None -> same_ctx [TRef s k; TLock s u d] [TUse u].
Proof. intros Hk. same_ctx_tac. Qed.
Lemma same_ctx_put_open s u k : same_ctx [TOpn s u k true] [TOpn s u k false].
Proof. same_ctx_tac. Qed.
Lemma same_ctx_get s k u d : know_entry k = None -> same_ctx [TUse u] [TRef s k; TLock s u d].
Proof. intros Hk. same_ctx_tac. Qed.
Lemma same_ctx_wait s k u : know_entry k = None -> same_ctx [TUse u] [TRef s k; TUse u].
Proof. intros Hk. same_ctx_tac. Qed.
Lemma same_ctx_lock s k u d : same_ctx [TRef s k; TUse u] [TRef s k; TLock s u d].
Proof. same_ctx_tac. Qed.
Lemma same_ctx_unwait s k u : know_entry k = None -> same_ctx [TRef s k; TUse u] [TUse u].
Proof. intros Hk. same_ctx_tac. Qed.
Lemma same_ctx_get_open s u k : same_ctx [TOpn s u k false] [TRef s k; TLock s u false].
Proof. same_ctx_tac. Qed.
Lemma same_ctx_publish s u k : know_entry k = None -> same_ctx [TOpn s u k false] [TUse u].
Proof. intros Hk. same_ctx_tac. Qed.

(** Sessions other than [s] do not notice. *)
Ltac same_sess_tac := intros ? ?; unfold same_sess; cnts; eqbs; cbn [b2z andb]; try congruence; auto.

Lemma safe_put_locked t s k u (Q : post unit) :
  know_entry k = None -> use_thread u = t -> Q tt [TUse u] ->
  safe t [TRef s k; TLock s u false] (tee_ta_put_session t s) Q.
Proof.
  intros Hk Hu HQ. apply safe_act, act_safe_wp. intros σ F HI.
  destruct (inv_tok _ _ HI (TLock s u false)) as (Hok & se & Hse & Hh & Hl & Hd); [find_in|].
  destruct (inv_sess _ _ HI s se Hse) as [K1 K2 K3 K4 K5 K0 K6]. rewrite Hl in *.
  do 2 act_step lk. rewrite Hl, decide_True by congruence. unfold dec_session_ref_count. repeat act_step lk.
  { apply Z.ltb_lt. cbn. rewrite K1. pose proof (cnt_nonneg (f_ref s) F). cz. }
  cbn [s_set_lock_thread s_ref_count act_post]. exists [TUse u]. split; [|done].
  eapply (Inv_sess_step σ _ [TRef s k; TLock s u false] [TUse u] F s se);
    [done|done|cbn; by rewrite insert_insert_eq|done|done|done|done|done|by apply same_ctx_put|same_sess_tac| | |right; cz|by left].
  - cbn [sesss set_sesss s_set_ref_count s_set_lock_thread].
    split; cbn; try cz; try done; [|congruence].
    intros Ho. destruct (K2 Ho). pose proof (cnt_nonneg (f_plain s) F). cz.
  - intros tk Htk. in_list Htk. cbn [tok_ok]. eapply same_ctx_use_app; [by apply same_ctx_put|done].
Qed.

Lemma uses_le_1 σ T c cx : Inv σ T -> ctxs σ !! c = Some cx -> cnt (f_uses c) T <= 1.
Proof.
  intros HI Hc. destruct (inv_ctx _ _ HI c cx Hc). pose proof (b2z_range (c_busy cx)).
  pose proof (cnt_nonneg (f_dying c) T). destruct (Z.eq_dec (cnt (f_dying c) T) 1); [destruct ck_dead; lia|lia].
Qed.

(** Whoever may work on a list for a thread has not locked a session of it for that thread. *)
Lemma use_not_locked σ T u s se :
  Inv σ (TUse u :: T) -> sesss σ !! s = Some se -> s_home se = use_head u ->
  s_lock_thread se <> Some (use_thread u).
Proof.
  intros HI Hse Hh E. pose proof (sk_lock _ _ _ _ (inv_sess _ _ HI s se Hse)) as K4. rewrite E in K4.
  destruct (cnt_in (f_lock s) (TUse u :: T)) as (tk & Hin & Hf); [lia|].
  destruct tk as [| |s' u' d| | | | |]; try done. cbn in Hf. apply Z.eqb_eq in Hf as ->.
  destruct (inv_tok _ _ HI _ Hin) as (Hu & se' & Hse' & Hh' & Hl & _). rewrite Hse in Hse'. injection Hse' as <-.
  rewrite E in Hl. injection Hl as Hl. rewrite Hh in Hh'.
  apply elem_of_cons in Hin as [Hin|Hin]; [done|].
  assert (forall c, use_head u = LCtx c -> False) as Hctx.
  { intros c Hc. destruct (use_alive σ _ u' c HI Hu) as [cx Hcx]; [congruence|].
    pose proof (uses_le_1 _ _ _ _ HI Hcx) as Hle. pose proof (cnt_pos (f_uses c) T _ Hin) as Hp.
    destruct u, u'; cbn in *; simplify_eq; cz. }
  destruct u as [t|c t x|c t]; [|by eapply Hctx|by eapply Hctx].
  destruct u' as [t'|c' t' x'|c' t']; cbn in Hh', Hl; simplify_eq.
  pose proof (inv_nsec _ _ HI t') as Hn. pose proof (cnt_pos (f_nsec t') T _ Hin) as Hp. cz.
Qed.

Lemma safe_put_shared t s (Q : post unit) :
  Q tt [TUse (UNsec t)] -> safe t [TRef s (KHome LNsec); TUse (UNsec t)] (tee_ta_put_session t s) Q.
Proof.
  intros HQ. apply safe_act, act_safe_wp. intros σ F HI.
  destruct (inv_tok _ _ HI (TRef s (KHome LNsec))) as (se & Hse & _ & Hh); [find_in|].
  destruct (inv_sess _ _ HI s se Hse) as [K1 K2 K3 K4 K5 K0 K6].
  assert (s_lock_thread se <> Some t) as Hl.
  { apply (use_not_locked σ (TRef s (KHome LNsec) :: F) (UNsec t) s se); [|done|by apply (Hh LNsec)].
    eapply Inv_perm; [|exact HI]. apply Permutation_swap. }
  do 2 act_step lk. rewrite decide_False by congruence. unfold dec_session_ref_count. repeat act_step lk.
  { apply Z.ltb_lt. rewrite K1. pose proof (cnt_nonneg (f_ref s) F). cz. }
  exists [TUse (UNsec t)]. split; [|done].
  eapply (Inv_sess_step σ _ [TRef s (KHome LNsec); TUse (UNsec t)] [TUse (UNsec t)] F s se);
    [done|done|done|done|done|done|done|done|by apply same_ctx_unwait|same_sess_tac| | |by left|by left].
  - split; cbn; try cz; try done. intros Ho. destruct (K2 Ho). pose proof (cnt_nonneg (f_plain s) F). cz.
  - intros tk Htk. by in_list Htk.
Qed.

Lemma safe_put_opening t s u k (Q : post unit) :
  Q tt [TOpn s u k false] -> safe t [TOpn s u k true] (tee_ta_put_session t s) Q.
Proof.
  intros HQ. apply safe_act, act_safe_wp. intros σ F HI.
  destruct (inv_tok _ _ HI (TOpn s u k true)) as (Ho & Hu & se & Hse & Hh & Hk); [find_in|].
  destruct (inv_sess _ _ HI s se Hse) as [K1 K2 K3 K4 K5 K0 K6]. destruct (K2 Ho) as (K7 & K8 & K9).
  do 2 act_step lk. rewrite decide_False by congruence. unfold dec_session_ref_count. repeat act_step lk.
  { apply Z.ltb_lt. rewrite K1. pose proof (cnt_nonneg (f_ref s) F). cz. }
  exists [TOpn s u k false]. split; [|done].
  eapply (Inv_sess_step σ _ [TOpn s u k true] [TOpn s u k false] F s se);
    [done|done|done|done|done|done|done|done|by apply same_ctx_put_open|same_sess_tac| | |by left|by left].
  - split; cbn; try cz; try done.
  - intros tk Htk. in_list Htk. cbn [tok_ok sesss set_sesss]. split_and!; [done|eapply same_ctx_use_app; [apply same_ctx_put_open|done]|].
    eexists. split; [apply lookup_insert_eq|]. done.
Qed.

Lemma safe_locked_wait {X Y : Set} t R (m1 : M st (X + Y)) ready (m2 : X -> M st Y) (Q : post Y) :
  (forall σ F, Inv σ (R ++ F) ->
     wp (r ← m1; match r with
                 | inr y => mret (inr y)
                 | inl x => b ← gets (ready x); if (b : bool) then y ← m2 x; mret (inr y) else mret (inl x)
                 end)
        (act_post F (fun r R' => match r with
                                 | inr y => Q y R'
                                 | inl x => await_safe R' (ready x) (m2 x) Q
                                 end)) σ) ->
  safe t R (locked_wait m1 ready m2) Q.
Proof.
  intros H. unfold locked_wait. cbn [safe]. apply act_safe_wp. intros σ F HI.
  eapply wp_mono; [by apply H|]. intros [[x|y]|e|] σ' Hr; try done; cbn [act_post] in *.
  - destruct Hr as (R' & HI' & Hr). exists R'. split; [done|]. intros σ1 F1 HI1 Hb.
    specialize (Hr σ1 F1 HI1 Hb). destruct (m2 x σ1) as [[y|e|] σ2]; [|done|done].
    destruct Hr as (R2 & HI2 & HQ). exists R2. split; [done|]. by apply safe_ret.
  - destruct Hr as (R' & HI' & Hr). exists R'. split; [done|]. by apply safe_ret.
Qed.

Lemma find_id_Some m id l s : find_id m id l = Some s -> s ∈ l /\ exists se, m !! s = Some se /\ s_id se = id.
Proof.
  induction l as [|x l IH]; cbn; [done|]. destruct (m !! x) as [sx|] eqn:Ex.
  - destruct (Z.eqb_spec (s_id sx) id).
    + intros [= <-]. split; [left|eauto].
    + intros H. destruct (IH H). split; [by right|done].
  - intros H. destruct (IH H). split; [by right|done].
Qed.

Lemma find_id_None m id l : find_id m id l = None -> forall s se, s ∈ l -> m !! s = Some se -> s_id se <> id.
Proof.
  induction l as [|x l IH]; cbn; intros H s se Hin Hs; [by apply elem_of_nil in Hin|].
  apply elem_of_cons in Hin as [->|Hin].
  - rewrite Hs in H. destruct (Z.eqb_spec (s_id se) id); done.
  - destruct (m !! x) as [sx|]; [destruct (s_id sx =? id)|]; naive_solver.
Qed.

(** Looking for an id in a list that one may work on. *)
Lemma wp_find σ T tk id l Q :
  Inv σ T -> tk ∈ T -> (forall c, l = LCtx c -> tk_ctx tk = Some c) ->
  (forall os, match os with
              | Some s => exists se, sesss σ !! s = Some se /\ s_home se = l /\ s_id se = id
              | None => forall s se, sesss σ !! s = Some se -> s_home se = l -> s_id se <> id
              end -> Q (ROk os) σ) ->
  wp (tee_ta_find_session_nolock id l) Q σ.
Proof.
  intros HI Hin Hl HQ.
  assert (rd_head l σ = (ROk (sessions_of l σ), σ)) as Er.
  { destruct l as [|c]; [done|]. destruct (tok_ctx_alive σ T tk c HI Hin (Hl c eq_refl)) as [cx Hcx].
    cbn. unfold rd_ctx. by rewrite Hcx. }
  unfold tee_ta_find_session_nolock. apply wp_bind. unfold wp at 1. rewrite Er. cbn [cont fst snd]. repeat act_step lk.
  apply HQ. pose proof (inv_lists _ _ HI l) as HL. destruct (find_id _ _ _) as [s|] eqn:Ef.
  - apply find_id_Some in Ef as (Hs & se & Hse & Hid). apply HL in Hs as (se' & Hse' & Hh). simplify_eq. eauto.
  - intros s se Hse Hh. eapply find_id_None; [done| |done]. apply HL. eauto.
Qed.

(** *** [tee_ta_get_session] *)

(** The session [s] with one field changed. *)
Definition upd_sess (s : Z) (se : tee_ta_session) (σ : st) : st := set_sesss (<[s := se]> (sesss σ)) σ.

(** A session that others may find is not being opened. *)
Lemma Inv_ref σ u s se F :
  Inv σ ([TUse u] ++ F) -> sesss σ !! s = Some se -> s_home se = use_head u -> s ∉ opening σ ->
  Inv (upd_sess s (s_set_ref_count (s_ref_count se + 1) se) σ) ([TRef s (KHome (use_head u)); TUse u] ++ F).
Proof.
  intros HI Hse Hh Ho. destruct (inv_sess _ _ HI s se Hse) as [K1 K2 K3 K4 K5 K0 K6].
  eapply (Inv_sess_step σ _ [TUse u] _ F s se);
    [done|done|done|done|done|done|done|done|by apply same_ctx_wait|same_sess_tac| | |by left|by left].
  - split; cbn; try cz; try done.
  - intros tk Htk. in_list Htk; cbn [tok_ok].
    + eexists. cbn. rewrite lookup_insert_eq. split_and!; [done|done|]. intros l [= <-]. done.
    + eapply same_ctx_use_app; [by apply (same_ctx_wait s (KHome (use_head u)) u)|]. apply (inv_tok _ _ HI (TUse u)). find_in.
Qed.

Lemma Inv_lock σ u s se F :
  Inv σ ([TRef s (KHome (use_head u)); TUse u] ++ F) -> sesss σ !! s = Some se ->
  s_lock_thread se = None -> s_unlink se = false ->
  Inv (upd_sess s (s_set_lock_thread (Some (use_thread u)) se) σ) ([TRef s (KHome (use_head u)); TLock s u false] ++ F).
Proof.
  intros HI Hse Hl Hd. destruct (inv_sess _ _ HI s se Hse) as [K1 K2 K3 K4 K5 K0 K6]. rewrite Hl in K4.
  destruct (inv_tok _ _ HI (TRef s (KHome (use_head u)))) as (se' & Hse' & _ & Hh); [find_in|]. simplify_eq.
  eapply (Inv_sess_step σ _ [TRef s (KHome (use_head u)); TUse u] _ F s se);
    [done|done|done|done|done|done|done|done|by apply same_ctx_lock|same_sess_tac| | |right; cz|by left].
  - split; cbn; try cz; try done. intros Ho. destruct (K2 Ho) as (K7 & _). pose proof (cnt_nonneg (f_plain s) F). cz.
  - intros tk Htk. in_list Htk; cbn [tok_ok].
    + eexists. cbn. rewrite lookup_insert_eq. split_and!; [done|done|]. intros l [= <-]. by apply Hh.
    + split; [eapply same_ctx_use_app; [apply (same_ctx_lock s (KHome (use_head u)) u false)|]; apply (inv_tok _ _ HI (TUse u)); find_in|].
      eexists. cbn. rewrite lookup_insert_eq. split_and!; try done. by apply Hh.
Qed.

Lemma Inv_unref σ u s k se F :
  know_entry k = None -> Inv σ ([TRef s k; TUse u] ++ F) -> sesss σ !! s = Some se ->
  0 < s_ref_count se /\ Inv (upd_sess s (s_set_ref_count (s_ref_count se - 1) se) σ) ([TUse u] ++ F).
Proof.
  intros Hk HI Hse. destruct (inv_sess _ _ HI s se Hse) as [K1 K2 K3 K4 K5 K0 K6]. pose proof (cnt_nonneg (f_ref s) F).
  split; [rewrite K1; cz|].
  eapply (Inv_sess_step σ _ [TRef s k; TUse u] _ F s se);
    [done|done|done|done|done|done|done|done|by apply same_ctx_unwait|same_sess_tac| | |by left|by left].
  - split; cbn; try cz; try done. intros Ho. destruct (K2 Ho). pose proof (cnt_nonneg (f_plain s) F). cz.
  - intros tk Htk. in_list Htk. cbn [tok_ok]. eapply same_ctx_use_app; [by apply (same_ctx_unwait s k u)|].
    apply (inv_tok _ _ HI (TUse u)). find_in.
Qed.

(** What [tee_ta_get_session] gives: the session referenced and locked. *)
Definition got (u : use) (os : option Z) (R : list token) : Prop :=
  match os with
  | Some s => R = [TRef s (KHome (use_head u)); TLock s u false]
  | None => R = [TUse u]
  end.

Lemma wp_get_locked t u s σ F :
  use_thread u = t -> Inv σ ([TRef s (KHome (use_head u)); TUse u] ++ F) -> lock_ready s σ = true ->
  wp (get_session_locked t s) (act_post F (got u)) σ.
Proof.
  intros Hu HI Hr. destruct (inv_tok _ _ HI (TRef s (KHome (use_head u)))) as (se & Hse & _); [find_in|].
  unfold lock_ready in Hr. rewrite Hse in Hr. unfold get_session_locked. act_step lk. act_step lk. destruct (s_unlink se) eqn:Hd.
  - destruct (Inv_unref σ u s (KHome (use_head u)) se F eq_refl HI Hse) as [Hpos HI']. unfold dec_session_ref_count. repeat act_step lk; [by apply Z.ltb_lt|].
    exists [TUse u]. done.
  - rewrite orb_false_r in Hr. apply bool_decide_eq_true in Hr. repeat act_step lk.
    eexists. split; [|done]. subst t. by apply Inv_lock.
Qed.

(** The context a token of use vouches for. *)
Lemma tk_ctx_use u c : use_head u = LCtx c -> tk_ctx (TUse u) = Some c.
Proof. destruct u; cbn; congruence. Qed.

(** A list of a context that is being destroyed has no session that is being opened. *)
Lemma dying_not_opening σ c t s se F :
  Inv σ ([TUse (UDying c t)] ++ F) -> sesss σ !! s = Some se -> s_home se = LCtx c -> s ∉ opening σ.
Proof.
  intros HI Hse Hh Ho. destruct (inv_sess _ _ HI s se Hse) as [K1 K2 K3 K4 K5 K0 K6].
  rewrite bool_decide_eq_true_2 in K3 by done. cbn in K3.
  destruct (cnt_in (f_opn s) ([TUse (UDying c t)] ++ F)) as (tk & Hin & Hf); [cbn; lia|].
  destruct tk as [|s' u' k r| | | | | |]; try done. cbn in Hf. apply Z.eqb_eq in Hf as ->.
  destruct (inv_tok _ _ HI _ Hin) as (_ & Hu & se' & Hse' & Hh' & _). simplify_eq.
  destruct (use_alive σ _ u' c HI Hu) as [cx Hcx]; [congruence|].
  pose proof (uses_le_1 _ _ _ _ HI Hcx) as Hle. cbn [app] in Hin. apply elem_of_cons in Hin as [Hin|Hin]; [done|].
  pose proof (cnt_pos (f_uses c) F _ Hin) as Hp. rewrite Hh in Hh'. destruct u'; cbn in *; simplify_eq; cz.
Qed.

Section get.
Context (polite : bool) (t : Z).

(** Who may look up sessions: clients that keep the discipline, or who destroys the context. *)
Definition may_get (u : use) (cl : client) : Prop :=
  use_thread u = t /\ (polite = true /\ is_kernel cl = false \/ exists c, u = UDying c t).

Lemma wp_client_names u cl s se Q σ F :
  may_get u cl -> Inv σ ([TUse u] ++ F) -> sesss σ !! s = Some se -> s_home se = use_head u ->
  (s ∉ opening σ -> Q (ROk tt) σ) -> Q (RErr RUDE_CLIENT) σ -> wp (client_names polite cl s) Q σ.
Proof.
  intros [_ Hm] HI Hse Hh H1 H2. unfold client_names. destruct (is_kernel cl) eqn:Hk.
  - destruct Hm as [[_ ?]|[c ->]]; [done|]. pose proof (dying_not_opening _ _ _ _ _ _ HI Hse Hh) as Ho.
    repeat act_step lk. replace (set_opening (opening σ ∖ {[s]}) σ) with σ; [by apply H1|].
    rewrite difference_disjoint_L by set_solver. by destruct σ.
  - repeat act_step lk; [|done]. destruct Hm as [[-> _]|[c ->]].
    + apply H1. apply negb_true_iff, bool_decide_eq_false in H. done.
    + apply H1. by eapply dying_not_opening.
Qed.

Lemma safe_get u id cl (Q : post (option Z)) :
  may_get u cl -> (forall os R, got u os R -> Q os R) ->
  safe t [TUse u] (tee_ta_get_session polite t id true (use_head u) cl) Q.
Proof.
  intros Hm HQ. apply (safe_mono t _ _ (got u)); [|done]. unfold tee_ta_get_session. apply safe_locked_wait. intros σ F HI.
  do 2 apply wp_bind.
  eapply (wp_find σ _ (TUse u)); [done|find_in|by apply tk_ctx_use|]. intros [s|] Hs; cbn [cont].
  2: { repeat act_step lk. exists [TUse u]. done. }
  destruct Hs as (se & Hse & Hh & Hid). act_step lk. act_step lk. destruct (s_unlink se) eqn:Hd.
  { repeat act_step lk. exists [TUse u]. done. }
  apply wp_bind. eapply wp_client_names; [done|done|done|done| |done]. intros Ho. cbn [cont].
  pose proof (Inv_ref σ u s se F HI Hse Hh Ho) as HI1. unfold upd_sess in HI1.
  repeat act_step lk.
  { apply bool_decide_eq_true. cbn. destruct Hm as [<- _]. by apply (use_not_locked σ F u s se). }
  - eapply wp_mono; [apply wp_get_locked; [by destruct Hm|exact HI1|done]|].
    intros [os|e|] σ' Hos; cbn in Hos |- *; done.
  - eexists. split; [exact HI1|]. apply await_safe_wp. intros σ2 F2 HI2 Hr2. apply wp_get_locked; [by destruct Hm|done|done].
Qed.

(** A reference without the lock. *)
Lemma safe_get_shared id cl (Q : post (option Z)) :
  polite = true -> is_kernel cl = false -> Q None [TUse (UNsec t)] ->
  (forall s, Q (Some s) [TRef s (KHome LNsec); TUse (UNsec t)]) ->
  safe t [TUse (UNsec t)] (tee_ta_get_session polite t id false LNsec cl) Q.
Proof.
  intros Hp Hk HQ1 HQ2. assert (may_get (UNsec t) cl) as Hm by (split; auto).
  unfold tee_ta_get_session. apply safe_locked_wait. intros σ F HI. do 2 apply wp_bind.
  eapply (wp_find σ _ (TUse (UNsec t))); [done|find_in|done|]. intros [s|] Hs; cbn [cont].
  2: { repeat act_step lk. exists [TUse (UNsec t)]. done. }
  destruct Hs as (se & Hse & Hh & Hid). act_step lk. act_step lk. destruct (s_unlink se) eqn:Hd.
  { repeat act_step lk. exists [TUse (UNsec t)]. done. }
  apply wp_bind. eapply (wp_client_names (UNsec t)); [done|done|done|done| |done]. intros Ho. cbn [cont].
  repeat act_step lk. eexists. split; [|apply HQ2]. exact (Inv_ref σ (UNsec t) s se F HI Hse Hh Ho).
Qed.
End get.

(** ** Tokens that change while the state does not *)

Lemma Inv_tok_step σ R R' F :
  Inv σ (R ++ F) -> same_ctx R R' -> (forall x, same_sess x R R') ->
  (forall tk, tk ∈ R' -> tok_ok σ (R' ++ F) tk) -> Inv σ (R' ++ F).
Proof.
  intros [H1 H2 H3 H4 H5 H6 H7 H8 H9] HSR Hx Htk. pose proof (same_ctx_app R R' F HSR) as HS. split; try done.
  - intros s se Hs. destruct (H1 s se Hs). destruct (Hx s) as (X1 & X2 & X3 & X4). rewrite !cnt_app in *.
    split; rewrite ?cnt_app, ?X1, ?X2, ?X3, ?X4; try done. intros c Hc. rewrite (sc_dying _ _ HS). by apply sk_ctx.
  - intros c cx Hcx. destruct (H2 c cx Hcx).
    split; rewrite ?(sc_dying _ _ HS), ?(sc_busy _ _ HS), ?(sc_ctx _ _ HS), ?(sc_uses _ _ HS); done.
  - intros tk Hin. apply elem_of_app in Hin as [Hin|Hin]; [by apply Htk|].
    eapply tok_ok_keep; [apply H3; by apply in_right|by apply ctx_like_same|done|intros s se; eauto|]. intros s se _ Hs. eauto 10.
  - intros c. rewrite (sc_dying _ _ HS). apply H6.
  - destruct H7. split; rewrite ?(sc_single _ _ HS); try done.
    intros tk c t Hin He. destruct (sc_entry _ _ HS _ _ _ Hin He) as (tk' & Hin' & He'). eauto.
  - intros t. rewrite (sc_nsec _ _ HS). apply H8.
  - intros t. rewrite (sc_rec _ _ HS). apply H9.
Qed.

(** The session of a reference has a context, which is ready. *)
Lemma Inv_know σ s k R F se c :
  Inv σ (TRef s k :: R ++ F) -> know_entry k = None -> sesss σ !! s = Some se -> s_ctx se = Some c ->
  Inv σ (TRef s (KCtx c) :: R ++ F).
Proof.
  intros HI Hk Hse Hc. eapply (Inv_tok_step σ [TRef s k] [TRef s (KCtx c)] (R ++ F)); [done| | |].
  - same_ctx_tac.
  - intros x. unfold same_sess; cnts; auto.
  - intros tk Htk. in_list Htk. cbn [tok_ok]. exists se. split_and!; [done| |done]. cbn.
    destruct (inv_sess _ _ HI s se Hse) as [K1 K2 K3 K4 K5 K0 K6]. destruct (K6 c Hc) as (_ & cx & Hcx & Hi).
    split; [done|]. exists cx. split; [done|]. destruct (c_is_initializing cx); [|done].
    destruct (K2 (Hi eq_refl)) as (K7 & _). pose proof (cnt_nonneg (f_plain s) (R ++ F)).
    rewrite cnt_cons in K7. cbn in K7. rewrite Z.eqb_refl in K7. cbn in K7. lia.
Qed.

(** Reading the context of a session one has a reference to. *)
Lemma act_rd_session_ctx R s k (Φ : post (option Z)) :
  know_entry k = None -> (forall c, Φ (Some c) (TRef s (KCtx c) :: R)) ->
  act_safe (TRef s k :: R) (rd_sess s s_ctx) Φ.
Proof.
  intros Hk H1. eapply (act_rd_sess_fact _ _ _ _ (TRef s k)); [find_in|done|]. intros σ F se HI Hse.
  destruct (s_ctx se) as [c|] eqn:Hc; [exists (TRef s (KCtx c) :: R); split; [by eapply Inv_know|done]|].
  exfalso. destruct (inv_sess _ _ HI s se Hse) as [K1 K2 K3 K4 K5 K0 K6]. apply K0; [|done].
  intros Ho. destruct (K2 Ho) as (K7 & _). pose proof (cnt_nonneg (f_plain s) (R ++ F)). cz.
Qed.

(** *** [csess->id] *)

Lemma act_csess_client R cs cl (Φ : post Z) :
  is_kernel cl = false -> (forall x, Φ x R) -> act_safe R (csess_id true cs cl) Φ.
Proof.
  intros Hk HΦ σ F HI. unfold csess_id. destruct (sesss σ !! cs) as [se|]; [eauto|]. by rewrite Hk.
Qed.

Lemma act_csess_peek polite c t s (Φ : post Z) :
  (forall x, Φ x [TUse (UDying c t)]) ->
  act_safe [TPeek c t (Some s)] (csess_id polite s KERN_IDENTITY) Φ.
Proof.
  intros HΦ σ F HI. destruct (inv_tok _ _ HI (TPeek c t (Some s))) as (Hd & se & Hse & Hh); [find_in|].
  unfold csess_id. rewrite Hse. exists [TUse (UDying c t)]. split; [|done].
  assert (same_ctx [TPeek c t (Some s)] [TUse (UDying c t)]) as HS by same_ctx_tac.
  eapply (Inv_tok_step σ _ _ F HI HS).
  - intros x. unfold same_sess; cnts; auto.
  - intros tk Htk. in_list Htk. cbn. by apply (sc_die _ _ (same_ctx_app _ _ F HS)).
Qed.

Lemma act_csess_opening polite s u c (Φ : post Z) :
  (forall i, Φ i [TOpn s u (KId c i) false]) ->
  act_safe [TOpn s u (KCtx c) false] (csess_id polite s KERN_IDENTITY) Φ.
Proof.
  intros HΦ σ F HI. destruct (inv_tok _ _ HI (TOpn s u (KCtx c) false)) as (Ho & Hu & se & Hse & Hh & Hk & _); [find_in|].
  unfold csess_id. rewrite Hse. exists [TOpn s u (KId c (s_id se)) false]. split; [|done].
  assert (same_ctx [TOpn s u (KCtx c) false] [TOpn s u (KId c (s_id se)) false]) as HS by same_ctx_tac.
  eapply (Inv_tok_step σ _ _ F HI HS).
  - intros x. unfold same_sess; cnts; auto.
  - intros tk Htk. in_list Htk. cbn [tok_ok]. split_and!; [done|by eapply same_ctx_use_app|].
    exists se. split_and!; try done. by intros c' i [= <- <-].
Qed.

(** The kernel's own lookup of a session that is being opened finds it. *)
Lemma Inv_get_opening σ s u c i se F :
  Inv σ ([TOpn s u (KId c i) false] ++ F) -> sesss σ !! s = Some se ->
  Inv (set_opening (opening σ ∖ {[s]}) (upd_sess s (s_set_lock_thread (Some (use_thread u)) (s_set_ref_count (s_ref_count se + 1) se)) σ))
    ([TRef s (KCtx c); TLock s u false] ++ F).
Proof.
  intros HI Hse. destruct (inv_tok _ _ HI (TOpn s u (KId c i) false)) as (Ho & Hu & se' & Hse' & Hh & Hk & _); [find_in|].
  simplify_eq. destruct (inv_sess _ _ HI s se Hse) as [K1 K2 K3 K4 K5 K0 K6]. destruct (K2 Ho) as (K7 & K8 & K9).
  rewrite bool_decide_eq_true_2 in K3 by done. rewrite K8 in K4.
  assert (same_ctx [TOpn s u (KId c i) false] [TRef s (KCtx c); TLock s u false]) as HS by same_ctx_tac.
  eapply (Inv_sess_step σ _ [TOpn s u (KId c i) false] _ F s se);
    [done|done|done|done|cbn; set_solver|done|done|done|done|same_sess_tac| | |right; cz|right; cz].
  - split; cbn; try done; try cz.
    + intros Ho'. set_solver.
    + rewrite bool_decide_eq_false_2 by set_solver. cz.
    + intros _. destruct Hk as [-> _]. done.
    + intros c' Hc'. destruct (K6 c' Hc') as (D & cx & Hcx & Hi). split; [cz|]. exists cx. split; [done|].
      intros Ei. destruct Hk as [Hk (cx' & Hcx' & Hi')]. congruence.
  - intros tk Htk. in_list Htk; cbn [tok_ok].
    + destruct Hk as [Hk1 Hk2]. eexists. cbn. rewrite lookup_insert_eq. split_and!; done.
    + split; [by eapply same_ctx_use_app|]. eexists. cbn. rewrite lookup_insert_eq. split_and!; done.
Qed.

Lemma safe_get_opening polite s u c i (Q : post (option Z)) :
  Q (Some s) [TRef s (KCtx c); TLock s u false] ->
  safe (use_thread u) [TOpn s u (KId c i) false]
    (tee_ta_get_session polite (use_thread u) i true (use_head u) KERN_IDENTITY) Q.
Proof.
  intros HQ. unfold tee_ta_get_session. apply safe_locked_wait. intros σ F HI. do 2 apply wp_bind.
  destruct (inv_tok _ _ HI (TOpn s u (KId c i) false)) as (Ho & Hu & se & Hse & Hh & Hk & _ & Hid); [find_in|].
  destruct (inv_sess _ _ HI s se Hse) as [K1 K2 K3 K4 K5 K0 K6]. destruct (K2 Ho) as (K7 & K8 & K9).
  assert (rd_head (use_head u) σ = (ROk (sessions_of (use_head u) σ), σ)) as Er.
  { destruct (use_head u) as [|c'] eqn:El; [done|]. destruct (use_alive _ _ _ _ HI Hu El) as [cx Hcx].
    cbn. unfold rd_ctx. by rewrite Hcx. }
  unfold tee_ta_find_session_nolock. apply wp_bind. unfold wp at 1. rewrite Er. cbn [cont fst snd]. repeat act_step lk.
  assert (find_id (sesss σ) i (sessions_of (use_head u) σ) = Some s) as ->.
  { destruct (find_id _ _ _) as [s'|] eqn:Ef.
    - apply find_id_Some in Ef as (Hs' & se' & Hse' & Hid'). apply (inv_lists _ _ HI) in Hs' as (se2 & Hse2 & Hh2). simplify_eq.
      f_equal. eapply (inv_ids _ _ HI); [done|done|congruence|]. by rewrite (Hid c (s_id se2)).
    - exfalso. eapply find_id_None; [done| |exact Hse|by eapply Hid]. apply (inv_lists _ _ HI). eauto. }
  act_step lk. act_step lk. rewrite K9. cbn [client_names is_kernel]. repeat act_step lk.
  - apply bool_decide_eq_true. cbn. congruence.
  - unfold get_session_locked. repeat act_step lk; cbn in Heqb0; [congruence|].
    eexists. split; [|exact HQ].
    pose proof (Inv_get_opening σ s u c i se F HI Hse) as HI'. unfold upd_sess in HI'. cbn in HI' |- *.
    by rewrite insert_insert_eq.
  - exfalso. unfold lock_ready in Heqb. cbn in Heqb. rewrite lookup_insert_eq in Heqb. cbn in Heqb. rewrite K8 in Heqb. done.
Qed.
