(* ===== verification/SessionCtx.v ===== *)
(** * Actions on contexts, and the life of sessions

    The actions of [Session] that create and remove sessions and contexts, and that enter and
    leave instances, as rules of [SessionLogic]. *)

From S2P Require Import Prelude ErrM Session SessionLogic SessionActs.
From stdpp Require Import base gmap list.
From Stdlib Require Import ZArith Lia.

Local Open Scope Z_scope.

(** ** Frames *)

Definition tk_use (tk : token) : option use :=
  match tk with TOpn _ u _ _ | TLock _ u _ | TUse u => Some u | TPeek c t _ => Some (UDying c t) | _ => None end.

(** A token of another frame: what it says of its session, its context and its use is still so. *)
Lemma tok_ok_frame σ σ' T T' tk :
  tok_ok σ T tk ->
  (forall c, cnt (f_dying c) T = 0 -> tk_ctx tk = Some c -> cnt (f_dying c) T' = 0) ->
  (forall c cx, tk_ctx tk = Some c -> ctxs σ !! c = Some cx ->
     exists cx', ctxs σ' !! c = Some cx' /\ c_flags cx' = c_flags cx /\ c_is_initializing cx' = c_is_initializing cx) ->
  (forall u, tk_use tk = Some u -> use_ok T u -> use_ok T' u) ->
  (forall s se, tk_sess tk = Some s -> sesss σ !! s = Some se ->
     exists se', sesss σ' !! s = Some se' /\ s_home se' = s_home se /\ s_ctx se' = s_ctx se /\ s_id se' = s_id se /\
       s_lock_thread se' = s_lock_thread se /\ s_unlink se' = s_unlink se /\ (s ∈ opening σ -> s ∈ opening σ')) ->
  (forall c t s se', tk = TPeek c t None -> sesss σ' !! s = Some se' -> s_home se' = LCtx c ->
     exists se, sesss σ !! s = Some se /\ s_home se = LCtx c) ->
  tok_ok σ' T' tk.
Proof.
  intros H HD HC HU HK HH.
  assert (forall k oc, (forall c, know_ctx k = Some c -> tk_ctx tk = Some c) -> know_ok σ k oc -> know_ok σ' k oc) as HW.
  { intros k oc Hkc. destruct k as [|l|c|c|c i|c|c e]; cbn; try done;
      [intros (-> & cx & Hc & Hi)..|intros (-> & cx & Hc & Hi & He)|intros (-> & cx & Hc & Hi & He)];
      destruct (HC c cx (Hkc c eq_refl) Hc) as (cx' & Hc' & Ef & Ei);
      (split; [done|]); exists cx'; unfold is_concurrent in *; rewrite ?Ei, ?Ef; eauto using entry_ok_flags. }
  destruct tk as [s k|s u k r|s u d|u|c e|c|c t' s|t]; cbn in H |- *.
  - destruct H as (se & Hs & Hk & Hn). destruct (HK s se eq_refl Hs) as (se' & Hs' & Hh & Hc & _).
    exists se'. rewrite Hc, Hh. split_and!; [done|by apply HW|done].
  - destruct H as (Ho & Hu & se & Hs & Hh & Hk & Hn & Hi). destruct (HK s se eq_refl Hs) as (se' & Hs' & Hh' & Hc & Hi' & _ & _ & Hop).
    split_and!; [by apply Hop|by apply HU|]. exists se'. rewrite Hh', Hc, Hi'. split_and!; [done|done|by apply HW|done|done].
  - destruct H as (Hu & se & Hs & Hh & Hl & Hd). destruct (HK s se eq_refl Hs) as (se' & Hs' & Hh' & _ & _ & Hl' & Hd' & _).
    split; [by apply HU|]. exists se'. by rewrite Hh', Hl', Hd'.
  - by apply HU.
  - destruct H as (Hd & cx & Hc & Hi & He). destruct (HC _ _ eq_refl Hc) as (cx' & Hc' & Ef & Ei).
    split; [by apply HD|]. exists cx'. rewrite Ei. split_and!; [done|done|]. destruct e; [by eapply entry_ok_flags|done].
  - destruct H as [cx Hc]. destruct (HC _ _ eq_refl Hc) as (cx' & Hc' & _). eauto.
  - destruct H as (Hd & Hs0). split; [by apply (HU (UDying c t'))|]. destruct s as [s|].
    + destruct Hs0 as (se & Hs & Hh). destruct (HK s se eq_refl Hs) as (se' & Hs' & Hh' & _). exists se'. by rewrite Hh'.
    + intros x sx Hx E. destruct (HH c t' x sx eq_refl Hx E) as (s0 & Hs & Hh). by eapply Hs0.
  - done.
Qed.

(** ** Removing sessions *)

Lemma nsess_delete c s se m :
  m !! s = Some se -> nsess c m = nsess c (delete s m) + b2z (bool_decide (s_ctx se = Some c)).
Proof.
  intros Hs. unfold nsess. rewrite map_filter_delete. destruct (bool_decide_reflect (s_ctx se = Some c)) as [E|E]; cbn [b2z].
  - assert (filter (fun p => s_ctx p.2 = Some c) m !! s = Some se) as Hf by (by apply map_lookup_filter_Some).
    rewrite map_size_delete_Some by eauto. assert (size (filter (fun p => s_ctx p.2 = Some c) m) <> 0%nat).
    { apply map_size_ne_0_lookup. eauto. }
    lia.
  - rewrite delete_id; [lia|]. apply map_lookup_filter_None. right. intros y Hy. cbn. by simplify_eq.
Qed.

Lemma sessions_of_remove l s σ σ' r :
  set_sessions_of l (list_remove_elem s (sessions_of l σ)) σ = (ROk r, σ') ->
  (forall l', sessions_of l' σ' = if decide (l' = l) then list_remove_elem s (sessions_of l σ) else sessions_of l' σ) /\
  sesss σ' = sesss σ /\ tee_ctxes σ' = tee_ctxes σ /\ opening σ' = opening σ /\
  single_thread σ' = single_thread σ /\ single_count σ' = single_count σ /\ syscall_recursion σ' = syscall_recursion σ /\
  (forall c, c_set_open_sessions [] <$> ctxs σ' !! c = c_set_open_sessions [] <$> ctxs σ !! c).
Proof.
  destruct l as [|c]; cbn.
  - intros [= _ <-]. split_and!; try done. intros [|c']; cbn; [done|]. by rewrite decide_False.
  - unfold wr_ctx. destruct (ctxs σ !! c) as [cx|] eqn:Hc; [|done]. intros [= _ <-]. split_and!; try done.
    + intros [|c']; cbn; [by rewrite decide_False|]. destruct (decide (c' = c)) as [->|Hne].
      * by rewrite lookup_insert_eq, decide_True.
      * rewrite lookup_insert_ne by done. rewrite decide_False by congruence. done.
    + intros c'. cbn. destruct (decide (c' = c)) as [->|Hne]; [|by rewrite lookup_insert_ne].
      by rewrite lookup_insert_eq, Hc.
Qed.

(** The parts of the state that removing and adding sessions leave alone. *)
Definition but_sessions (σ σ' : st) : Prop :=
  tee_ctxes σ' = tee_ctxes σ /\ single_thread σ' = single_thread σ /\ single_count σ' = single_count σ /\
  syscall_recursion σ' = syscall_recursion σ /\
  (forall c, c_set_open_sessions [] <$> ctxs σ' !! c = c_set_open_sessions [] <$> ctxs σ !! c).

Lemma fmap_list_eq σ σ' c cx' :
  (forall c, c_set_open_sessions [] <$> ctxs σ' !! c = c_set_open_sessions [] <$> ctxs σ !! c) ->
  ctxs σ' !! c = Some cx' ->
  exists cx, ctxs σ !! c = Some cx /\ c_flags cx' = c_flags cx /\ c_is_initializing cx' = c_is_initializing cx /\
    c_ref_count cx' = c_ref_count cx /\ c_busy cx' = c_busy cx /\ c_panicked cx' = c_panicked cx /\ c_ops cx' = c_ops cx.
Proof.
  intros H Hc. specialize (H c). rewrite Hc in H. destruct (ctxs σ !! c) as [cx|]; [|done]. exists cx.
  cbn in H. injection H as H1 H2 H3 H4 H5 H6 H7. done.
Qed.

Lemma fmap_list_like σ σ' :
  (forall c, c_set_open_sessions [] <$> ctxs σ' !! c = c_set_open_sessions [] <$> ctxs σ !! c) -> ctx_like σ σ'.
Proof.
  intros H c cx Hc. destruct (fmap_list_eq σ' σ c cx) as (cx' & Hc' & E1 & E2 & _); [by intros; rewrite H|done|]. eauto.
Qed.

Lemma fmap_list_some σ σ' c :
  (forall c, c_set_open_sessions [] <$> ctxs σ' !! c = c_set_open_sessions [] <$> ctxs σ !! c) ->
  is_Some (ctxs σ' !! c) <-> is_Some (ctxs σ !! c).
Proof. intros H. specialize (H c). destruct (ctxs σ' !! c), (ctxs σ !! c); cbn in H; naive_solver. Qed.

(** How the tokens of a frame may change when its session [se] goes: the reference the session had to
    its context becomes the frame's. *)
Record gone_tokens (se : tee_ta_session) (R R' : list token) : Prop := {
  gt_ctx : forall c, cnt (f_ctx c) R' = cnt (f_ctx c) R + b2z (bool_decide (s_ctx se = Some c));
  gt_dying : forall c, cnt (f_dying c) R' = cnt (f_dying c) R;
  gt_busy : forall c, cnt (f_busy c) R' = cnt (f_busy c) R;
  gt_uses : forall c, cnt (f_uses c) R' <= cnt (f_uses c) R;
  gt_single : cnt f_single R' = cnt f_single R;
  gt_nsec : forall t, cnt (f_nsec t) R' <= cnt (f_nsec t) R;
  gt_rec : forall t, cnt (f_rec t) R' = cnt (f_rec t) R;
  gt_entry : forall tk ce, tk ∈ R' -> tk_entry tk = Some ce -> exists tk', tk' ∈ R /\ tk_entry tk' = Some ce }.

Lemma Inv_remove_sess σ σ' R R' F s se :
  Inv σ (R ++ F) -> sesss σ !! s = Some se ->
  sesss σ' = delete s (sesss σ) -> opening σ' = opening σ ∖ {[s]} -> but_sessions σ σ' ->
  (forall l, sessions_of l σ' = if decide (l = s_home se) then list_remove_elem s (sessions_of l σ) else sessions_of l σ) ->
  (forall c cx, s_ctx se = Some c -> ctxs σ !! c = Some cx -> c_is_initializing cx = false) ->
  (forall x, x <> s -> same_sess x R R') -> gone_tokens se R R' ->
  (forall tk, tk ∈ R' -> tok_ok σ' (R' ++ F) tk) ->
  (forall tk, tk ∈ F -> tk_sess tk <> Some s) ->
  (forall tk u, tk ∈ F -> tk_use tk = Some u -> use_ok (R ++ F) u -> use_ok (R' ++ F) u) ->
  Inv σ' (R' ++ F).
Proof.
  intros [H1 H2 H3 H4 H5 H6 H7 H8 H9] Hs Hs' Ho (E1 & E2 & E3 & E4 & E5) HL Hni Hx [G1 G2 G3 G4 G5 G6 G7 G8] Htk HF HU.
  assert (forall c, cnt (f_dying c) (R' ++ F) = cnt (f_dying c) (R ++ F)) as HD by (intros; by rewrite !cnt_app, G2).
  assert (forall c, cnt (f_busy c) (R' ++ F) = cnt (f_busy c) (R ++ F)) as HB by (intros; by rewrite !cnt_app, G3).
  assert (forall x sx, sesss σ' !! x = Some sx -> x <> s /\ sesss σ !! x = Some sx) as HG.
  { intros x sx. rewrite Hs', lookup_delete_Some. naive_solver. }
  split.
  - intros x sx [Hne Hxx]%HG. destruct (H1 x sx Hxx). destruct (Hx x Hne) as (X1 & X2 & X3 & X4). rewrite !cnt_app in *.
    assert (x ∈ opening σ' <-> x ∈ opening σ) as Hox by (rewrite Ho; set_solver).
    split; rewrite ?cnt_app, ?X1, ?X2, ?X3, ?X4, ?Hox; try done.
    + rewrite sk_opn. by rewrite (bool_decide_ext _ _ Hox).
    + intros c Hc. rewrite HD. destruct (sk_ctx c Hc) as (D & cx & Hcx & Hi). split; [done|].
      destruct (fmap_list_like _ _ E5 _ _ Hcx) as (cx' & Hcx' & _ & Ei). exists cx'. rewrite Ei, Hox. done.
  - intros c cx' Hc'. destruct (fmap_list_eq _ _ _ _ E5 Hc') as (cx & Hc & F1 & F2 & F3 & F4 & F5 & F6). destruct (H2 c cx Hc).
    pose proof (nsess_delete c s se _ Hs) as Hn. rewrite <- Hs' in Hn. specialize (G1 c). specialize (G4 c).
    unfold is_concurrent in *.
    split; unfold is_concurrent; rewrite ?HD, ?HB, ?F1, ?F2, ?F3, ?F4, ?F5, ?F6; rewrite ?cnt_app in *; try done; try lia.
    + intros D. destruct (ck_dead D) as (N & C & B). pose proof (cnt_nonneg (f_ctx c) F). pose proof (cnt_nonneg (f_ctx c) R).
      pose proof (b2z_range (bool_decide (s_ctx se = Some c))). unfold nsess in *. lia.
    + intros Ei D. destruct (ck_init Ei D) as (N & C & B).
      rewrite bool_decide_eq_false_2 in Hn, G1 by (intros Es; rewrite (Hni _ _ Es Hc) in Ei; done). cbn in *. lia.
  - intros tk Hin. apply elem_of_app in Hin as [Hin|Hin]; [by apply Htk|].
    eapply tok_ok_frame; [apply H3; by apply in_right| | | | |].
    + intros c D _. by rewrite HD.
    + intros c cx _. apply fmap_list_like, E5.
    + intros u Hu. by eapply HU.
    + intros x sx Hts Hxx. exists sx. rewrite Hs', lookup_delete_ne, Ho by (intros ->; by apply (HF _ Hin)).
      split_and!; try done. intros Hox. apply elem_of_difference. split; [done|]. intros ->%elem_of_singleton. by apply (HF _ Hin).
    + intros c t x sx _ [_ Hx']%HG Hh. eauto.
  - intros l x. rewrite HL, Hs'. destruct (decide (l = s_home se)) as [->|Hl].
    + unfold list_remove_elem. rewrite list_elem_of_filter, H4. setoid_rewrite lookup_delete_Some. naive_solver.
    + rewrite H4. setoid_rewrite lookup_delete_Some. split; [|naive_solver]. intros (sx & Hxx & Hh).
      exists sx. split_and!; [|done|done]. intros ->. simplify_eq.
  - intros x y sx sy [_ ?]%HG [_ ?]%HG. eauto.
  - intros c. rewrite E1, HD, (fmap_list_some _ _ _ E5). apply H6.
  - destruct H7. split; rewrite ?E2, ?E3, ?cnt_app, ?G5, <- ?cnt_app; try done.
    intros tk c t Hin He. apply elem_of_app in Hin as [Hin|Hin].
    + destruct (G8 _ _ Hin He) as (tk' & Hin' & He'). eapply so_thread; [|done]. by apply in_left.
    + eapply so_thread; [|done]. by apply in_right.
  - intros t. specialize (H8 t). specialize (G6 t). rewrite cnt_app in *. lia.
  - intros t. unfold recursion_of in *. rewrite E4, cnt_app, G7, <- cnt_app. apply H9.
Qed.

(** *** [destroy_session] *)

(** The right to work on the list of the TA, which comes with entering it. *)
Definition ta_use (c t s : Z) (e : entry) : list token :=
  match e with EBusy _ _ => [TUse (UCtx c t s)] | EConc => [] end.

(** An entry made by the thread [t]. *)
Definition entry_by (t : Z) (e : entry) : Prop := match e with EBusy t' _ => t' = t | EConc => True end.

Lemma Inv_unlink σ s k u se R F :
  Inv σ ([TRef s k; TLock s u false] ++ R ++ F) -> sesss σ !! s = Some se ->
  Inv (upd_sess s (s_set_unlink true se) σ) ([TRef s k; TLock s u true] ++ R ++ F).
Proof.
  intros HI Hse. destruct (inv_sess _ _ HI s se Hse) as [K1 K2 K3 K4 K5 K0 K6].
  destruct (inv_tok _ _ HI (TLock s u false)) as (Hu & se' & Hse' & Hh & Hl & Hd); [find_in|]. simplify_eq.
  assert (same_ctx [TRef s k; TLock s u false] [TRef s k; TLock s u true]) as HS by same_ctx_tac.
  eapply (Inv_sess_step σ _ [TRef s k; TLock s u false] _ (R ++ F) s se);
    [done|done|done|done|done|done|done|done|done|same_sess_tac| | |right; rewrite Hl in K4; cz|by left].
  - rewrite Hl in *. split; cbn; rewrite ?Hl; try cz; try done.
    intros Ho. destruct (K2 Ho) as (K7 & _). pose proof (cnt_nonneg (f_plain s) (R ++ F)). cz.
  - intros tk Htk. in_list Htk; cbn [tok_ok].
    + destruct (inv_tok _ _ HI (TRef s k)) as (se' & Hse' & Hk & Hn); [find_in|]. simplify_eq.
      eexists. cbn. rewrite lookup_insert_eq. split_and!; [done|by eapply know_ok_like; [by apply ctx_like_same|]|done].
    + split; [by eapply same_ctx_use_app|]. eexists. cbn. rewrite lookup_insert_eq. done.
Qed.

(** Only the closing frame is left with a session whose last reference it has. *)
Lemma last_ref_alone σ s k u d se R F :
  Inv σ ([TRef s k; TLock s u d] ++ R ++ F) -> sesss σ !! s = Some se -> s_ref_count se = 1 ->
  forall tk, tk ∈ F -> tk_sess tk <> Some s.
Proof.
  intros HI Hse Hr tk Hin Htk. destruct (inv_sess _ _ HI s se Hse) as [K1 K2 K3 K4 K5 K0 K6].
  destruct (inv_tok _ _ HI (TLock s u d)) as (Hu & se' & Hse' & Hh & Hl & Hd); [find_in|]. simplify_eq.
  rewrite Hl in K4. assert (s ∉ opening σ) as Ho.
  { intros Ho. destruct (K2 Ho) as (K7 & _). pose proof (cnt_nonneg (f_plain s) (R ++ F)). cz. }
  rewrite bool_decide_eq_false_2 in K3 by done. rewrite Hr in K1.
  assert (tk ∈ R ++ F) as Hin' by (by apply in_right).
  assert (forall f, f tk = true -> 1 <= cnt f (R ++ F)) as Hp by (intros f Hf; by eapply cnt_pos).
  destruct tk as [s' k'|s' u' k' r|s' u' d'|u'|c' e|c'|c' t' s'|t']; cbn in Htk; simplify_eq.
  - specialize (Hp (f_ref s)). cz.
  - specialize (Hp (f_opn s)). cz.
  - specialize (Hp (f_lock s)). cz.
  - destruct (inv_tok _ _ HI (TPeek c' t' (Some s))) as (Hdy & se' & Hse' & Hh'); [by apply in_right|]. simplify_eq.
    destruct (use_alive _ _ _ c' HI Hu) as [cx Hcx]; [congruence|].
    pose proof (uses_le_1 _ _ _ _ HI Hcx) as Hle. specialize (Hp (f_uses c')). rewrite Hh' in Hh.
    destruct u; cbn in Hh; simplify_eq; cz.
Qed.

Lemma gone_in s c e u t se :
  s_ctx se = Some c ->
  gone_tokens se ([TRef s (KIn c e); TLock s u true] ++ ta_use c t s e) [TUse u; TCtx c (Some e)].
Proof.
  intros Hc. rewrite <- (app_nil_r (_ ++ _)).
  split; intros; rewrite ?app_nil_r; destruct e as [|t' sg]; cbn [ta_use]; cnts; eqbs; cbn [b2z andb]; rewrite ?Hc; try lia.
  all: try (case_bool_decide; simplify_eq; cbn; lia).
  all: in_list H; cbn in H0; simplify_eq; (eexists; split; [left|done]).
Qed.

Lemma Inv_destroyed σ σ' s u t c e se F :
  entry_by t e -> Inv σ ([TRef s (KIn c e); TLock s u true] ++ ta_use c t s e ++ F) ->
  sesss σ !! s = Some se -> s_ref_count se = 1 ->
  sesss σ' = delete s (sesss σ) -> opening σ' = opening σ ∖ {[s]} -> but_sessions σ σ' ->
  (forall l, sessions_of l σ' = if decide (l = s_home se) then list_remove_elem s (sessions_of l σ) else sessions_of l σ) ->
  Inv σ' ([TUse u; TCtx c (Some e)] ++ F).
Proof.
  intros Het HI Hse Hr Es Eo Eb El. pose proof (last_ref_alone _ _ _ _ _ _ _ _ HI Hse Hr) as HF.
  destruct (inv_tok _ _ HI (TRef s (KIn c e))) as (se' & Hse' & (Hc & cx & Hcx & Hi & He) & _); [find_in|]. simplify_eq.
  destruct (inv_tok _ _ HI (TLock s u true)) as (Hu & _); [find_in|].
  destruct (inv_sess _ _ HI s se Hse) as [K1 K2 K3 K4 K5 K0 K6]. destruct (K6 c Hc) as (Hdy & _).
  pose proof (uses_le_1 _ _ _ _ HI Hcx) as Hle.
  (* a use that rests on this session would be a second one of the TA's list *)
  assert (forall v tk, tk ∈ TUse u :: F -> tk_use tk = Some v ->
    use_ok ([TRef s (KIn c e); TLock s u true] ++ ta_use c t s e ++ F) v -> use_ok ([TUse u; TCtx c (Some e)] ++ F) v) as HU.
  { intros [t'|c' t' s'|c' t'] tk Hin Htu; [done| |].
    - cbn [use_ok]. intros (tk' & Hin' & Hins). exists tk'. split; [|done].
      rewrite app_assoc, elem_of_app in Hin'. destruct Hin' as [Hin'|Hin']; [|by apply in_right]. exfalso.
      assert (tk' = TRef s (KIn c e)) as ->.
      { destruct e; cbn in Hin'; in_list Hin'; destruct Hins as (sg' & [E|(u' & r' & E)]); simplify_eq; done. }
      destruct Hins as (sg' & [E|(u' & r' & E)]); simplify_eq. cbn in Het. subst t'.
      cbn [ta_use] in Hle. pose proof (cnt_nonneg (f_uses c') F) as Hnn.
      apply elem_of_cons in Hin as [->|Hin]; [cbn in Htu; simplify_eq; cz|].
      assert (1 <= cnt (f_uses c') F) by (eapply cnt_pos; [done|]; destruct tk; cbn in *; simplify_eq; cbn; by rewrite ?Z.eqb_refl).
      pose proof (b2z_range (u_ctx c' u)). cz.
    - cbn [use_ok]. rewrite !elem_of_app. destruct e; cbn [ta_use]; rewrite !elem_of_cons, !elem_of_nil; naive_solver. }
  rewrite app_assoc in HI.
  eapply (Inv_remove_sess σ σ' _ [TUse u; TCtx c (Some e)] F s se); try done.
  - intros c' cx' Hc' Hcx'. congruence.
  - intros x Hx. destruct e; cbn [ta_use]; unfold same_sess; cnts; eqbs; cbn; try congruence; auto.
  - by apply gone_in.
  - intros tk Htk. in_list Htk; cbn [tok_ok].
    + apply (HU u (TUse u)); [left|done|done].
    + destruct Eb as (_ & _ & _ & _ & Eb). destruct (fmap_list_like _ _ Eb _ _ Hcx) as (cx' & Hcx' & Ef & Ei).
      split; [destruct e; cbn [ta_use] in *; cz|]. exists cx'. rewrite Ei. split_and!; [done|done|by eapply entry_ok_flags].
  - intros tk v Hin Htu Hok. eapply HU; [by right|done|]. by rewrite app_assoc.
Qed.

Lemma wp_remove_session σ s l se Q :
  sesss σ !! s = Some se -> (forall c, l = LCtx c -> is_Some (ctxs σ !! c)) ->
  (forall σ', sesss σ' = delete s (sesss σ) -> opening σ' = opening σ ∖ {[s]} -> but_sessions σ σ' ->
     (forall l', sessions_of l' σ' = if decide (l' = l) then list_remove_elem s (sessions_of l' σ) else sessions_of l' σ) ->
     Q (ROk tt) σ') ->
  wp (remove_session s l) Q σ.
Proof.
  intros Hs Hl HQ. unfold remove_session.
  assert (rd_head l σ = (ROk (sessions_of l σ), σ)) as Er.
  { destruct l as [|c]; [done|]. destruct (Hl c eq_refl) as [cx Hcx]. cbn. unfold rd_ctx. by rewrite Hcx. }
  assert (exists σ1, set_sessions_of l (list_remove_elem s (sessions_of l σ)) σ = (ROk tt, σ1)) as [σ1 E1].
  { destruct l as [|c]; [cbn; eauto|]. destruct (Hl c eq_refl) as [cx Hcx]. cbn. unfold wr_ctx. rewrite Hcx. eauto. }
  apply wp_bind. unfold wp at 1. rewrite Er. cbn [cont fst snd]. apply wp_bind, (wp_rd_sess _ _ _ _ se Hs). cbn [cont].
  apply wp_bind. unfold wp at 1. rewrite E1. cbn [cont fst snd]. apply wp_modify.
  destruct (sessions_of_remove l s σ σ1 tt E1) as (S1 & S2 & S3 & S4 & S5 & S6 & S7 & S8).
  apply HQ; cbn; [by rewrite S2|by rewrite S4|done|].
  intros l'. transitivity (sessions_of l' σ1); [by destruct l'|]. rewrite S1. by destruct (decide (l' = l)) as [->|].
Qed.

Lemma safe_destroy_session t s u c e (Q : post unit) :
  entry_by t e -> use_thread u = t -> Q tt [TUse u; TCtx c (Some e)] ->
  safe t ([TRef s (KIn c e); TLock s u false] ++ ta_use c t s e) (destroy_session t s (use_head u)) Q.
Proof.
  intros He Hu HQ.
  assert (forall σ F, Inv σ (([TRef s (KIn c e); TLock s u true] ++ ta_use c t s e) ++ F) -> last_reference s σ = true ->
    wp (remove_session s (use_head u)) (act_post F Q) σ) as Hrem.
  { intros σ F HI Hr. rewrite <- app_assoc in HI.
    destruct (inv_tok _ _ HI (TLock s u true)) as (Hok & se & Hse & Hh & _); [find_in|].
    unfold last_reference in Hr. rewrite Hse in Hr. apply Z.eqb_eq in Hr.
    eapply wp_remove_session; [done|intros c' Hc'; by eapply use_alive|].
    intros σ' E1 E2 E3 E4. exists [TUse u; TCtx c (Some e)]. split; [|done].
    eapply Inv_destroyed; try done. by rewrite Hh. }
  unfold destroy_session. apply safe_locked_wait. intros σ F HI. pose proof HI as HI0. rewrite <- app_assoc in HI.
  destruct (inv_tok _ _ HI (TLock s u false)) as (Hok & se & Hse & Hh & Hl & Hd); [find_in|].
  destruct (inv_sess _ _ HI s se Hse) as [K1 K2 K3 K4 K5 K0 K6].
  assert (1 <= s_ref_count se) as Hpos by (rewrite K1; pose proof (cnt_nonneg (f_ref s) (ta_use c t s e ++ F)); cz).
  pose proof (Inv_unlink _ _ _ _ _ _ _ HI Hse) as HI1. rewrite app_assoc in HI1. unfold upd_sess in HI1.
  repeat act_step lk; try done.
  - by apply Z.leb_le.
  - apply bool_decide_eq_true. congruence.
  - by rewrite Hd.
  - eapply wp_mono; [by apply Hrem|]. intros [[]|x|] σ' H; done.
  - eexists. split; [exact HI1|]. apply await_safe_wp. auto.
Qed.

(** ** Entering and leaving instances *)

(** Who enters: the user of a session, or whoever opens it. *)
Inductive holder : Set :=
| HRef
| HOpn (u : use).

Definition hold (h : holder) (s : Z) (k : know) : token :=
  match h with HRef => TRef s k | HOpn u => TOpn s u k true end.

Lemma Inv_busy_step σ σ' R R' F c cx b :
  Inv σ (R ++ F) -> ctxs σ !! c = Some cx -> cnt (f_dying c) (R ++ F) = 0 -> c_is_initializing cx = false ->
  ctxs σ' = <[c := c_set_busy b cx]> (ctxs σ) -> sesss σ' = sesss σ -> tee_ctxes σ' = tee_ctxes σ ->
  tee_open_sessions σ' = tee_open_sessions σ -> syscall_recursion σ' = syscall_recursion σ -> opening σ' = opening σ ->
  (forall x, same_sess x R R') ->
  (forall c, cnt (f_ctx c) R' = cnt (f_ctx c) R /\ cnt (f_dying c) R' = cnt (f_dying c) R) ->
  (forall t, cnt (f_nsec t) R' = cnt (f_nsec t) R /\ cnt (f_rec t) R' = cnt (f_rec t) R) ->
  (forall x, x <> c -> cnt (f_busy x) R' = cnt (f_busy x) R /\ cnt (f_uses x) R' = cnt (f_uses x) R) ->
  cnt (f_busy c) (R' ++ F) = b2z b -> cnt (f_uses c) (R' ++ F) <= b2z b ->
  single_ok σ' (R' ++ F) ->
  (forall tk, tk ∈ R' -> tok_ok σ' (R' ++ F) tk) ->
  (forall tk u, tk ∈ F -> tk_use tk = Some u -> use_ok (R ++ F) u -> use_ok (R' ++ F) u) ->
  Inv σ' (R' ++ F).
Proof.
  intros [H1 H2 H3 H4 H5 H6 H7 H8 H9] Hc Hdy Hni E1 E2 E3 E4 E5 E6 Hx HCD HNR HBU HB HU Hso Htk HF.
  assert (forall c, cnt (f_dying c) (R' ++ F) = cnt (f_dying c) (R ++ F)) as HD by (intros x; rewrite !cnt_app; by destruct (HCD x) as [_ ->]).
  assert (forall c, cnt (f_ctx c) (R' ++ F) = cnt (f_ctx c) (R ++ F)) as HC by (intros x; rewrite !cnt_app; by destruct (HCD x) as [-> _]).
  assert (forall x y, ctxs σ !! x = Some y -> exists y', ctxs σ' !! x = Some y' /\ c_flags y' = c_flags y /\ c_is_initializing y' = c_is_initializing y) as HL.
  { intros x y Hxy. rewrite E1. destruct (decide (x = c)) as [->|Hne]; [|exists y; by rewrite lookup_insert_ne].
    exists (c_set_busy b cx). rewrite lookup_insert_eq. simplify_eq. done. }
  split.
  - intros s se Hs. rewrite E2 in Hs. destruct (H1 s se Hs). destruct (Hx s) as (X1 & X2 & X3 & X4). rewrite !cnt_app in *.
    split; rewrite ?cnt_app, ?X1, ?X2, ?X3, ?X4, ?E6; try done.
    intros x Hsx. rewrite HD. destruct (sk_ctx x Hsx) as (D & y & Hy & Hi). split; [done|].
    destruct (HL x y Hy) as (y' & Hy' & _ & Ei). exists y'. by rewrite Ei.
  - intros x y. rewrite E1. destruct (decide (x = c)) as [->|Hne].
    + rewrite lookup_insert_eq. intros [= <-]. destruct (H2 c cx Hc). rewrite <- E2 in *.
      split; cbn; rewrite ?HD, ?HC; try done; try lia. intros Ei. congruence.
    + rewrite lookup_insert_ne by done. intros Hy. destruct (H2 x y Hy). destruct (HBU x Hne) as [B U]. rewrite <- E2 in *.
      split; rewrite ?HD, ?HC; try done; rewrite ?cnt_app, ?B, ?U, <- ?cnt_app; done.
  - intros tk Hin. apply elem_of_app in Hin as [Hin|Hin]; [by apply Htk|].
    eapply tok_ok_frame; [apply H3; by apply in_right| | | | |].
    + intros x D _. by rewrite HD.
    + intros x y _. apply HL.
    + intros u Hu. by eapply HF.
    + intros s se _ Hs. exists se. by rewrite E2, E6.
    + intros x t s se _ Hs Hh. rewrite E2 in Hs. eauto.
  - intros l s. rewrite E2, <- H4. destruct l as [|x]; cbn; [by rewrite E4|]. rewrite E1.
    destruct (decide (x = c)) as [->|Hne]; [by rewrite lookup_insert_eq, Hc|by rewrite lookup_insert_ne].
  - rewrite E2. done.
  - intros x. rewrite E3, HD, H6, E1. destruct (decide (x = c)) as [->|Hne]; [|by rewrite lookup_insert_ne].
    rewrite lookup_insert_eq, Hc. split; intros [? ?]; eauto.
  - done.
  - intros t. rewrite cnt_app. destruct (HNR t) as [-> _]. rewrite <- cnt_app. apply H8.
  - intros t. rewrite cnt_app. destruct (HNR t) as [_ ->]. rewrite <- cnt_app. unfold recursion_of in *. rewrite E5. apply H9.
Qed.

Lemma hold_sess h s k : tk_sess (hold h s k) = Some s.
Proof. by destruct h. Qed.
Lemma hold_ctx h s k c : know_ctx k = Some c -> tk_ctx (hold h s k) = Some c.
Proof. by destruct h. Qed.

(** What the token of the user of a session whose context is known says. *)
Lemma hold_facts σ T h s k c :
  Inv σ T -> hold h s k ∈ T -> know_ctx k = Some c ->
  exists se cx, sesss σ !! s = Some se /\ s_ctx se = Some c /\ ctxs σ !! c = Some cx /\ cnt (f_dying c) T = 0 /\
    know_ok σ k (Some c).
Proof.
  intros HI Hin Hk.
  assert (exists se, sesss σ !! s = Some se /\ know_ok σ k (s_ctx se)) as (se & Hs & Hok).
  { pose proof (inv_tok _ _ HI _ Hin) as H. destruct h; cbn in H; naive_solver. }
  assert (s_ctx se = Some c) as Hc by (destruct k; cbn in *; naive_solver).
  destruct (sk_ctx _ _ _ _ (inv_sess _ _ HI s se Hs) c Hc) as (D & cx & Hcx & _). rewrite Hc in Hok. eauto 10.
Qed.

(** The holder learns more, or forgets. *)
Lemma Inv_hold_know σ h s k k' c F :
  Inv σ (hold h s k :: F) -> know_ctx k = Some c -> know_ctx k' = Some c ->
  (forall t sg, know_entry k <> Some (c, EBusy t sg)) -> (forall t sg, know_entry k' <> Some (c, EBusy t sg)) ->
  (forall c i, k' <> KId c i) -> know_ok σ k' (Some c) -> Inv σ (hold h s k' :: F).
Proof.
  intros HI Hk Hk' He He' Hid Hok. destruct (hold_facts _ _ _ _ _ _ HI ltac:(left) Hk) as (se & cx & Hs & Hc & _).
  assert (forall x, k_busy x k = false /\ k_busy x k' = false) as Hb.
  { intros x. split; [destruct k as [| | | | | |x' []]|destruct k' as [| | | | | |x' []]]; cbn in *; try done;
      try apply andb_false_r; simplify_eq; [by destruct (He t sg)|by destruct (He' t sg)]. }
  assert (k_single k = false /\ k_single k' = false) as [Hsg Hsg'].
  { split; [destruct k as [| | | | | |x' []]|destruct k' as [| | | | | |x' []]]; cbn in *; try done;
      simplify_eq; [by destruct (He t sg)|by destruct (He' t sg)]. }
  assert (forall x t y, ~ is_inside x t y (hold h s k)) as Hni.
  { intros x t y (sg & [E|(u & r & E)]); destruct h; cbn in E; simplify_eq; cbn in Hk; simplify_eq; by destruct (He t sg). }
  assert (same_ctx [hold h s k] [hold h s k']) as HS.
  { destruct h; cbn [hold] in *; split; intros; cnts; try destruct (Hb c0) as [-> ->]; rewrite ?Hsg, ?Hsg'; try done; try lia.
    all: try (in_list H; exfalso; by eapply (Hni _ _ _ H0)).
    all: try (in_list H; cbn in H0; destruct k' as [| | | | | |x' [|t0 sg]]; cbn in *; simplify_eq; by destruct (He' t true)).
    all: rewrite !elem_of_cons, !elem_of_nil; naive_solver. }
  eapply (Inv_tok_step σ [hold h s k] [hold h s k'] F); [done|done| |].
  - intros x. destruct h; unfold same_sess; cnts; auto.
  - intros tk Htk. in_list Htk. pose proof (inv_tok _ _ HI (hold h s k) ltac:(left)) as H. destruct h; cbn in H |- *.
    + exists se. rewrite Hc. split_and!; [done|done|]. intros l ->. done.
    + destruct H as (Ho & Hu & se' & Hs' & Hh & _ & _). simplify_eq. split_and!; [done|by eapply (same_ctx_use_app _ _ F u HS)|].
      exists se. rewrite Hc. split_and!; try done; [by intros ->|]. intros c' i ->. by destruct (Hid c' i).
Qed.

Lemma hold_inside h s c t sg : is_inside c t s (hold h s (KIn c (EBusy t sg))).
Proof. exists sg. destruct h; [by left|]. right. eauto. Qed.

Lemma Inv_set_busy σ σ' h s c cx t F :
  Inv σ ([hold h s (KSeq c)] ++ F) -> ctxs σ !! c = Some cx -> c_busy cx = false ->
  ctxs σ' = <[c := c_set_busy true cx]> (ctxs σ) -> sesss σ' = sesss σ -> tee_ctxes σ' = tee_ctxes σ ->
  tee_open_sessions σ' = tee_open_sessions σ -> syscall_recursion σ' = syscall_recursion σ -> opening σ' = opening σ ->
  (is_single cx = true -> single_free t σ = true) ->
  single_thread σ' = (if is_single cx then Some t else single_thread σ) ->
  single_count σ' = single_count σ + b2z (is_single cx) ->
  Inv σ' ([hold h s (KIn c (EBusy t (is_single cx))); TUse (UCtx c t s)] ++ F).
Proof.
  intros HI Hc Hb E1 E2 E3 E4 E5 E6 Hfree Et En. set (sg := is_single cx) in *.
  destruct (hold_facts σ _ h s (KSeq c) c HI ltac:(left) eq_refl) as (se & cx' & Hs & Hsc & Hcx' & Hdy & (_ & cx2 & Hcx2 & Hni & Hconc)).
  assert (cx2 = cx) as -> by congruence. clear cx' Hcx'. destruct (inv_ctx _ _ HI c cx Hc) as [C1 C2 C3 C4 C5 C6 C7 C9 C10 C8]. rewrite Hb in C4.
  assert (cnt (f_busy c) F = 0 /\ cnt (f_uses c) F = 0 /\ cnt (f_uses c) [hold h s (KSeq c)] = 0) as (B0 & U0 & U1).
  { pose proof (cnt_nonneg (f_uses c) F). destruct h as [|u]; cbn [hold] in *; cnts; cbn [b2z] in *; try lia.
    pose proof (b2z_range (u_ctx c u)). lia. }
  eapply (Inv_busy_step σ σ' _ _ F c cx true HI Hc Hdy Hni E1 E2 E3 E4 E5 E6).
  - intros x. destruct h; unfold same_sess; cbn [hold]; cnts; split_and!; cbn [b2z]; lia.
  - intros x. destruct h; cbn [hold]; cnts; cbn [b2z]; lia.
  - intros x. destruct h; cbn [hold]; cnts; cbn [b2z]; lia.
  - intros x Hx. destruct h; cbn [hold]; cnts; eqbs; cbn [b2z andb]; try congruence; lia.
  - destruct h; cbn [hold]; cz.
  - destruct h as [|u]; cbn [hold] in *; cz.
  - destruct (inv_single _ _ HI) as [S1 S2 S3 S4].
    assert (cnt f_single ([hold h s (KIn c (EBusy t sg)); TUse (UCtx c t s)] ++ F) = b2z sg + cnt f_single F) as Hcs.
    { destruct h; cbn [hold]; cz. }
    assert (cnt f_single ([hold h s (KSeq c)] ++ F) = cnt f_single F) as Hcs' by (destruct h; cbn [hold]; cz).
    rewrite Hcs' in *. pose proof (cnt_nonneg f_single F).
    split; rewrite ?Hcs, ?Et, ?En.
    + lia.
    + destruct sg; [done|]. intros E. cbn. by apply S2.
    + intros t' E. destruct sg; [cbn; lia|]. cbn. by eapply S3.
    + intros tk c' t' Hin Hen. cbn [app] in Hin. apply elem_of_cons in Hin as [->|Hin].
      * assert (sg = true /\ t' = t) as [-> ->] by (destruct h; cbn in Hen; by simplify_eq). done.
      * apply elem_of_cons in Hin as [->|Hin]; [done|].
        pose proof (S4 tk c' t' ltac:(by right) Hen) as Hst. destruct sg; [|done].
        specialize (Hfree eq_refl). unfold single_free in Hfree. rewrite Hst in Hfree. apply Z.eqb_eq in Hfree. by subst.
  - intros tk Htk. cbn [app] in *. in_list Htk.
    + pose proof (inv_tok _ _ HI _ ltac:(left)) as H. destruct h as [|u]; cbn in H |- *.
      * rewrite E2. exists se. rewrite Hsc. split_and!; [done|done| |done]. exists (c_set_busy true cx). rewrite E1, lookup_insert_eq. done.
      * destruct H as (Ho & Hu & se' & Hs' & Hh & _). simplify_eq. rewrite E6, E2. split_and!; [done| |].
        { destruct u as [|c' t' s'|]; cbn in Hu |- *; [done| |].
          - destruct Hu as (tk' & Hin' & Hi'). exists tk'. split; [|done]. apply elem_of_cons in Hin' as [->|?]; [|by do 2 right].
            by destruct Hi' as (? & [?|(? & ? & ?)]).
          - apply elem_of_cons in Hu as [?|?]; [done|by do 2 right]. }
        exists se. rewrite Hsc. split_and!; try done. exists (c_set_busy true cx). rewrite E1, lookup_insert_eq. done.
    + cbn. exists (hold h s (KIn c (EBusy t sg))). split; [left|apply hold_inside].
  - intros tk u Hin _ Hu. destruct u as [|c' t' s'|c' t']; cbn [use_ok] in Hu |- *; [done| |].
    + destruct Hu as (tk' & Hin' & Hi'). exists tk'. split; [|done]. cbn [app] in Hin'. apply elem_of_cons in Hin' as [->|?]; [|by do 2 right].
      destruct h; by destruct Hi' as (? & [?|(? & ? & ?)]).
    + cbn [app] in Hu. apply elem_of_cons in Hu as [?|?]; [destruct h; done|by do 2 right].
Qed.

(** *** [tee_ta_try_set_busy] *)

(** What it gives the user of a session: entered, or as before. *)
Definition entered (h : holder) (s c t : Z) (b : bool) (R : list token) : Prop :=
  if b then exists e, entry_by t e /\ R = [hold h s (KIn c e)] ++ ta_use c t s e
  else R = [hold h s (KCtx c)].

Lemma c_set_busy_id cx : c_busy cx = true -> c_set_busy true cx = cx.
Proof. destruct cx; cbn. by intros ->. Qed.
Lemma set_single_id σ : set_single (single_thread σ) (single_count σ) σ = σ.
Proof. by destruct σ. Qed.
Lemma set_ctxs_id σ c cx : ctxs σ !! c = Some cx -> set_ctxs (<[c := cx]> (ctxs σ)) σ = σ.
Proof. intros H. rewrite insert_id by done. by destruct σ. Qed.

(** The single-instance lock is taken and given back: nothing changed. *)
Lemma wp_lock_unlock t σ Q T :
  single_ok σ T -> single_free t σ = true ->
  (forall σ1, ctxs σ1 = ctxs σ -> has_single_instance_lock t σ1 = true -> single_thread σ1 = Some t ->
     single_count σ1 = single_count σ + 1 -> σ1 = set_single (Some t) (single_count σ + 1) σ ->
     unlock_single_instance t σ1 = (ROk tt, σ) -> Q (ROk tt) σ1) ->
  wp (lock_single_instance t) Q σ.
Proof.
  intros [S1 S2 S3 S4] Hf HQ. unfold lock_single_instance. act_step lk. act_step lk. unfold single_free in Hf.
  assert (unlock_single_instance t (set_single (Some t) (single_count σ + 1) σ) = (ROk tt, σ)) as HU.
  { unfold unlock_single_instance, mbind, M_mbind, m_bind, gets, modify, assert_, mret, M_mret, m_ret. cbn.
    rewrite bool_decide_eq_true_2 by done. pose proof (cnt_nonneg f_single T).
    destruct (Z.ltb_spec 0 (single_count σ + 1)); [|lia]. cbn. replace (single_count σ + 1 - 1) with (single_count σ) by lia.
    destruct (single_thread σ) as [t'|] eqn:Et.
    - apply Z.eqb_eq in Hf as ->. specialize (S3 t eq_refl). destruct (Z.eqb_spec (single_count σ) 0); [lia|].
      cbn. f_equal. destruct σ; cbn in *. by subst.
    - rewrite S1, S2 by done. cbn. f_equal. destruct σ; cbn in *. subst. by rewrite S2. }
  destruct (decide (single_thread σ = Some t)) as [E|E].
  - repeat act_step lk. apply HQ; try done. unfold has_single_instance_lock. by rewrite bool_decide_eq_true_2.
  - destruct (single_thread σ) as [t'|] eqn:Et; [apply Z.eqb_eq in Hf; congruence|].
    repeat act_step lk; [by rewrite S1, S2|]. apply HQ; try done. unfold has_single_instance_lock. by rewrite bool_decide_eq_true_2.
Qed.

Lemma wp_try_set_busy t h s c σ F :
  Inv σ ([hold h s (KSeq c)] ++ F) -> busy_ready t c σ = true ->
  wp (try_set_busy_locked t c) (act_post F (entered h s c t)) σ.
Proof.
  intros HI Hr. destruct (hold_facts σ _ h s (KSeq c) c HI ltac:(left) eq_refl) as (se & cx & Hs & Hsc & Hc & Hdy & Hk).
  unfold busy_ready in Hr. rewrite Hc in Hr. unfold try_set_busy_locked. act_step lk. act_step lk.
  assert (act_post F (entered h s c t) (ROk false) σ) as Hfalse.
  { exists [hold h s (KCtx c)]. split; [|done]. eapply Inv_hold_know; [exact HI|done|done|done|done|done|].
    destruct Hk as (_ & cx' & Hcx' & Hi & _). cbn. eauto. }
  destruct (has_flag (c_flags cx) TA_FLAG_SINGLE_INSTANCE) eqn:Hsg.
  - apply wp_bind, (wp_lock_unlock t σ _ _ (inv_single _ _ HI) Hr). intros σ1 E1 E2 E3 E4 E5 HU. cbn [cont].
    assert (ctxs σ1 !! c = Some cx) as Hc1 by (by rewrite E1).
    do 4 act_step lk. rewrite E2. cbn [andb]. destruct (c_busy cx) eqn:Hb.
    + apply wp_bind, wp_bind. unfold wp at 1. rewrite HU. cbn [cont fst snd]. repeat act_step lk.
      rewrite (c_set_busy_id cx Hb), (set_ctxs_id σ c cx Hc). done.
    + repeat act_step lk. eexists. split; [|exists (EBusy t true); split; [done|reflexivity]].
      pose proof (Inv_set_busy σ (set_ctxs (<[c:=c_set_busy true cx]> (ctxs σ1)) σ1) h s c cx t F HI Hc Hb) as HS.
      unfold is_single in HS. rewrite Hsg in HS. apply HS; subst σ1; done.
  - act_step lk. act_step lk. do 4 act_step lk. destruct (has_single_instance_lock t σ) eqn:Hown, (c_busy cx) eqn:Hb; cbn [andb orb negb] in *; try done;
      repeat act_step lk; [by rewrite (c_set_busy_id cx Hb), (set_ctxs_id σ c cx Hc)| |];
      (eexists; split; [|exists (EBusy t false); split; [done|reflexivity]];
       pose proof (Inv_set_busy σ (set_ctxs (<[c:=c_set_busy true cx]> (ctxs σ)) σ) h s c cx t F HI Hc Hb) as HS;
       unfold is_single in HS; rewrite Hsg in HS; apply HS; try done; cbn; lia).
Qed.

Lemma safe_try_set_busy t h s c (Q : post bool) :
  (forall b R, entered h s c t b R -> Q b R) ->
  safe t [hold h s (KCtx c)] (tee_ta_try_set_busy t c) Q.
Proof.
  intros HQ. apply (safe_mono t _ _ (entered h s c t)); [|done]. unfold tee_ta_try_set_busy. apply safe_bind, safe_act.
  eapply (act_rd_ctx_fact _ _ _ _ (hold h s (KCtx c))); [left|by apply hold_ctx|]. intros σ F cx HI Hc.
  destruct (hold_facts σ _ h s (KCtx c) c HI ltac:(left) eq_refl) as (se & cx' & Hs & Hsc & Hc' & Hdy & (_ & cx2 & Hc2 & Hi)).
  assert (cx' = cx /\ cx2 = cx) as [-> ->] by (split; congruence).
  destruct (has_flag (c_flags cx) TA_FLAG_CONCURRENT) eqn:Hcc.
  - exists [hold h s (KIn c EConc)]. split; [eapply Inv_hold_know; [exact HI|done|done|done|done|done|cbn; eauto 10]|].
    apply safe_ret. exists EConc. done.
  - exists [hold h s (KSeq c)]. split; [eapply Inv_hold_know; [exact HI|done|done|done|done|done|cbn; eauto 10]|].
    cbn [safe]. apply await_safe_wp. intros σ2 F2 HI2 Hr2. eapply wp_mono; [by apply wp_try_set_busy|].
    intros [b|e|] σ3 H; try done. destruct H as (R' & HI3 & He). exists R'. split; [done|]. by apply safe_ret.
Qed.

(** *** [tee_ta_clear_busy] *)

Lemma unlock_single_ok t σ :
  single_thread σ = Some t -> 0 < single_count σ ->
  exists h, unlock_single_instance t σ = (ROk tt, set_single h (single_count σ - 1) σ) /\
    h = (if single_count σ - 1 =? 0 then None else Some t).
Proof.
  intros Et Hp. unfold unlock_single_instance, mbind, M_mbind, m_bind, gets, modify, assert_, mret, M_mret, m_ret. cbn.
  rewrite Et, bool_decide_eq_true_2 by done. destruct (Z.ltb_spec 0 (single_count σ)); [|lia]. cbn.
  destruct (single_count σ - 1 =? 0); eexists; split; reflexivity.
Qed.

(** What is left to a frame that leaves an instance. *)
Inductive leaving (t c : Z) : entry -> list token -> list token -> Prop :=
| LvHold h s e : leaving t c e ([hold h s (KIn c e)] ++ ta_use c t s e) [hold h s (KCtx c)]
| LvCtx e : leaving t c e [TCtx c (Some e)] [TCtx c None].

Lemma leaving_in t c e R R' : leaving t c e R R' -> exists tk, tk ∈ R /\ tk_ctx tk = Some c /\ tk_entry tk = Some (c, e).
Proof.
  intros [h s e'|e']; [exists (hold h s (KIn c e'))|exists (TCtx c (Some e'))]; (split; [left|]); [destruct h; done|done].
Qed.

Lemma leaving_facts t c e R R' σ F :
  leaving t c e R R' -> Inv σ (R ++ F) ->
  exists cx, ctxs σ !! c = Some cx /\ cnt (f_dying c) (R ++ F) = 0 /\ c_is_initializing cx = false /\ entry_ok e cx.
Proof.
  intros [h s e'|e'] HI.
  - destruct (hold_facts σ _ h s (KIn c e') c HI ltac:(left) eq_refl) as (se & cx & Hs & Hsc & Hc & Hdy & (_ & cx' & Hc' & Hi & He)).
    simplify_eq. eauto 10.
  - destruct (inv_tok _ _ HI (TCtx c (Some e')) ltac:(left)) as (Hdy & cx & Hc & Hi & He). eauto 10.
Qed.

Lemma leaving_counts t c e R R' :
  leaving t c e R R' ->
  (forall x, same_sess x R R') /\
  (forall x, cnt (f_ctx x) R' = cnt (f_ctx x) R /\ cnt (f_dying x) R' = cnt (f_dying x) R) /\
  (forall x, cnt (f_nsec x) R' = cnt (f_nsec x) R /\ cnt (f_rec x) R' = cnt (f_rec x) R) /\
  (forall x, cnt (f_busy x) R = cnt (f_busy x) R' + b2z ((c =? x) && e_busy e)) /\
  (forall x, x <> c -> cnt (f_uses x) R' = cnt (f_uses x) R) /\
  cnt (f_uses c) R' <= cnt (f_uses c) R /\
  cnt f_single R = cnt f_single R' + b2z (e_single e) /\ cnt f_single R' = 0 /\
  (forall tk, tk ∈ R' -> tk_entry tk = None).
Proof.
  intros [h s e'|e']; [destruct h as [|u], e' as [|t' sg]|destruct e' as [|t' sg]]; cbn [hold ta_use app];
    split_and!; intros; unfold same_sess; cnts; eqbs; cbn [b2z andb]; try congruence; try lia; auto.
  all: try (in_list H; done).
Qed.

(** Nobody else works on the list of a TA that is left. *)
Lemma leaving_uses t c sg R R' σ F :
  leaving t c (EBusy t sg) R R' -> Inv σ (R ++ F) ->
  forall v, (exists tk, tk ∈ F /\ tk_use tk = Some v) \/ (exists s k r, TOpn s v k r ∈ R) -> use_ok (R ++ F) v -> use_ok (R' ++ F) v.
Proof.
  intros HL HI v Hv Hok. destruct (leaving_facts _ _ _ _ _ _ _ HL HI) as (cx & Hc & _).
  pose proof (uses_le_1 _ _ _ _ HI Hc) as Hle. inversion HL as [h s e' E1 E2 E3|e' E1 E2 E3]; subst; clear HL.
  - destruct v as [|c' t' s'|c' t']; cbn [use_ok ta_use app] in *; [done| |].
    + destruct Hok as (tk' & Hin' & Hi'). exists tk'. split; [|done].
      apply elem_of_cons in Hin' as [->|Hin']; [|by apply elem_of_cons in Hin' as [->|Hin']; [destruct Hi' as (? & [?|(? & ? & ?)])|right]].
      assert (c' = c /\ t' = t /\ s' = s) as (-> & -> & ->).
      { destruct Hi' as (sg' & [E|(u' & r' & E)]); destruct h; cbn in E; by simplify_eq. }
      exfalso. destruct Hv as [(tk & Hin & Htu)|(s0 & k0 & r0 & Hin)].
      * assert (1 <= cnt (f_uses c) F) by (eapply cnt_pos; [done|]; destruct tk; cbn in *; simplify_eq; cbn; by rewrite ?Z.eqb_refl).
        destruct h as [|u]; cbn [hold] in Hle; [cz|]. pose proof (b2z_range (u_ctx c u)). cz.
      * apply elem_of_cons in Hin as [Hin|Hin]; [|by apply elem_of_cons in Hin as [?|?%elem_of_nil]].
        destruct h as [|u]; cbn in Hin; simplify_eq. cbn [hold] in Hle. pose proof (cnt_nonneg (f_uses c) F). cz.
    + apply elem_of_cons in Hok as [?|Hok]; [destruct h; done|]. apply elem_of_cons in Hok as [?|Hok]; [done|]. by right.
  - destruct v as [|c' t' s'|c' t']; cbn [use_ok app] in *; [done| |].
    + destruct Hok as (tk' & Hin' & Hi'). exists tk'. split; [|done].
      apply elem_of_cons in Hin' as [->|Hin']; [by destruct Hi' as (? & [?|(? & ? & ?)])|by right].
    + apply elem_of_cons in Hok as [?|Hok]; [done|]. by right.
Qed.

Lemma use_of tk c : f_uses c tk = true -> exists v, tk_use tk = Some v /\ use_head v = LCtx c.
Proof.
  destruct tk as [| |s' u' d| | | |c' t' s'|]; cbn; try done; try (destruct u as [|c' t' s'|c' t']; cbn; try done; intros ->%Z.eqb_eq; eauto).
  - destruct u' as [|c' t' s''|c' t']; cbn; try done; intros ->%Z.eqb_eq; eauto.
  - intros ->%Z.eqb_eq. eauto.
Qed.

Lemma tok_use_ok σ T tk v : tok_ok σ T tk -> tk_use tk = Some v -> use_ok T v.
Proof. destruct tk; cbn; naive_solver. Qed.

(** The frame that has left the session it entered through is the only one in the instance. *)
Lemma ctx_entry_unused σ c t sg F : Inv σ ([TCtx c (Some (EBusy t sg))] ++ F) -> cnt (f_uses c) F = 0.
Proof.
  intros HI. destruct (inv_tok _ _ HI (TCtx c (Some (EBusy t sg))) ltac:(left)) as (Hdy & cx & Hc & _).
  destruct (inv_ctx _ _ HI c cx Hc) as [C1 C2 C3 C4 C5 C6 C7 C9 C10 C8]. pose proof (b2z_range (c_busy cx)).
  pose proof (cnt_nonneg (f_uses c) F). destruct (Z.eq_dec (cnt (f_uses c) F) 0) as [|Hne]; [done|exfalso].
  destruct (cnt_in (f_uses c) F) as (tk & Hin & Hf); [lia|]. destruct (use_of tk c Hf) as (v & Hv & Hh).
  assert (use_ok ([TCtx c (Some (EBusy t sg))] ++ F) v) as Hok by (eapply tok_use_ok; [apply HI; by apply in_right|done]).
  destruct v as [|c' t' s'|c' t']; cbn in Hh; simplify_eq; cbn [use_ok app] in Hok.
  - destruct Hok as (tk' & Hin' & Hi'). apply elem_of_cons in Hin' as [->|Hin']; [by destruct Hi' as (? & [?|(? & ? & ?)])|].
    assert (1 <= cnt (f_busy c) F).
    { eapply cnt_pos; [done|]. destruct Hi' as (? & [->|(? & ? & ->)]); cbn; by rewrite Z.eqb_refl. }
    cz.
  - pose proof (cnt_pos (f_dying c) _ _ Hok) as Hp. cbn [f_dying] in Hp. cz.
Qed.

Lemma Inv_clear_busy σ σ' t c sg cx R R' F :
  leaving t c (EBusy t sg) R R' -> Inv σ (R ++ F) -> ctxs σ !! c = Some cx ->
  ctxs σ' = <[c := c_set_busy false cx]> (ctxs σ) -> sesss σ' = sesss σ -> tee_ctxes σ' = tee_ctxes σ ->
  tee_open_sessions σ' = tee_open_sessions σ -> syscall_recursion σ' = syscall_recursion σ -> opening σ' = opening σ ->
  single_count σ' = single_count σ - b2z sg ->
  single_thread σ' = (if sg then if single_count σ - 1 =? 0 then None else Some t else single_thread σ) ->
  Inv σ' (R' ++ F).
Proof.
  intros HL HI Hc E1 E2 E3 E4 E5 E6 En Et.
  destruct (leaving_facts _ _ _ _ _ _ _ HL HI) as (cx' & Hc' & Hdy & Hni & He). assert (cx' = cx) as -> by congruence. clear Hc'.
  destruct (leaving_counts _ _ _ _ _ HL) as (L1 & L2 & L3 & L4 & L5 & L6 & L7 & L8 & L9).
  destruct (inv_ctx _ _ HI c cx Hc) as [C1 C2 C3 C4 C5 C6 C7 C9 C10 C8]. pose proof (b2z_range (c_busy cx)).
  pose proof (L4 c) as Lc. rewrite Z.eqb_refl in Lc. cbn in Lc. rewrite !cnt_app in *.
  pose proof (cnt_nonneg (f_busy c) F). pose proof (cnt_nonneg (f_busy c) R').
  eapply (Inv_busy_step σ σ' R R' F c cx false HI Hc); try done.
  - by rewrite cnt_app.
  - intros x Hx. split; [|by apply L5]. specialize (L4 x). destruct (Z.eqb_spec c x); [congruence|]. cbn in L4. lia.
  - rewrite cnt_app. cbn. lia.
  - rewrite cnt_app. cbn. specialize (uses_le_1 _ _ _ _ HI Hc). intros Hle. rewrite cnt_app in Hle.
    inversion HL as [h s e' X1 X2 X3|e' X1 X2 X3]; subst; cbn [ta_use app] in *;
      [|pose proof (ctx_entry_unused _ _ _ _ _ HI); cz].
    pose proof (cnt_nonneg (f_uses c) F). destruct h as [|u]; cbn [hold] in *; [cz|]. pose proof (b2z_range (u_ctx c u)). cz.
  - destruct (inv_single _ _ HI) as [S1 S2 S3 S4]. rewrite cnt_app in *. rewrite L7, L8 in *. cbn [e_single] in *.
    pose proof (cnt_nonneg f_single F).
    split; rewrite ?cnt_app, ?L8, ?En, ?Et.
    + lia.
    + destruct sg; [|intros E; specialize (S2 E); cbn in *; lia]. cbn in *.
      destruct (Z.eqb_spec (single_count σ - 1) 0); [lia|done].
    + intros t' E. destruct sg; [|specialize (S3 t' E); cbn in *; lia]. cbn in *.
      destruct (Z.eqb_spec (single_count σ - 1) 0); [done|lia].
    + intros tk c' t' Hin Hen. apply elem_of_app in Hin as [Hin|Hin]; [by rewrite (L9 _ Hin) in Hen|].
      pose proof (S4 tk c' t' ltac:(by apply in_right) Hen) as Hst. destruct sg; [|done].
      destruct (leaving_in _ _ _ _ _ HL) as (tk0 & Hin0 & _ & Hen0).
      pose proof (S4 tk0 c t ltac:(by apply in_left) Hen0) as Hst0. rewrite Hst0 in Hst. injection Hst as <-.
      assert (1 <= cnt f_single F).
      { eapply cnt_pos; [done|]. destruct tk as [? k|? ? k ?| | |? []| | |]; cbn in Hen; try done; cbn; [destruct k..|]; cbn in *; by simplify_eq. }
      cbn in *. destruct (Z.eqb_spec (single_count σ - 1) 0); [lia|done].
  - intros tk Htk. pose proof (leaving_uses _ _ _ _ _ _ _ HL HI) as HU.
    inversion HL as [h s e' X1 X2 X3|e' X1 X2 X3]; subst; in_list Htk.
    + destruct (hold_facts σ _ h s _ c HI ltac:(left) eq_refl) as (se & cx' & Hs & Hsc & Hc' & _ & _).
      pose proof (inv_tok _ _ HI _ ltac:(left)) as Htk. destruct h as [|u]; cbn in Htk |- *.
      * rewrite E2. exists se. rewrite Hsc. split_and!; [done|done| |done]. exists (c_set_busy false cx). rewrite E1, lookup_insert_eq. done.
      * destruct Htk as (Ho & Hu & se' & Hs' & Hh & _). simplify_eq. rewrite E6, E2. split_and!; [done| |].
        { apply (HU u); [|done]. right. do 3 eexists. left. }
        exists se. rewrite Hsc. split_and!; try done. exists (c_set_busy false cx). rewrite E1, lookup_insert_eq. done.
    + cbn. split; [cz|]. exists (c_set_busy false cx). rewrite E1, lookup_insert_eq. done.
  - intros tk u Hin Htu Hok. eapply leaving_uses; [done|done| |done]. left. eauto.
Qed.

Lemma Inv_leave_concurrent σ t c R R' F :
  leaving t c EConc R R' -> Inv σ (R ++ F) -> Inv σ (R' ++ F).
Proof.
  intros HL HI. destruct (leaving_facts _ _ _ _ _ _ _ HL HI) as (cx & Hc & Hdy & Hi & He).
  inversion HL as [h s e' E1 E2 E3|e' E1 E2 E3]; subst; cbn [ta_use app] in *.
  - eapply Inv_hold_know; [exact HI|done|done|done|done|done|]. cbn. eauto.
  - eapply (Inv_tok_step σ [TCtx c (Some EConc)] [TCtx c None] F); [done|same_ctx_tac; by rewrite andb_false_r| |].
    + intros x. unfold same_sess; cnts; auto.
    + intros tk Htk. in_list Htk. cbn. split; [cz|]. eauto.
Qed.

Lemma safe_clear_busy t c e R R' (Q : post unit) :
  leaving t c e R R' -> entry_by t e -> Q tt R' -> safe t R (tee_ta_clear_busy t c) Q.
Proof.
  intros HL He HQ. unfold tee_ta_clear_busy. apply safe_bind, safe_act.
  destruct (leaving_in _ _ _ _ _ HL) as (tk & Hin & Htc & _).
  eapply (act_rd_ctx_fact _ _ _ _ tk); [done|done|]. intros σ F cx HI Hc.
  destruct (leaving_facts _ _ _ _ _ _ _ HL HI) as (cx' & Hc' & _ & _ & Hen). assert (cx' = cx) as -> by congruence.
  destruct e as [|t' sg]; cbn in He, Hen.
  - unfold is_concurrent in Hen. rewrite Hen. exists R'. split; [by eapply Inv_leave_concurrent|by apply safe_ret].
  - subst t'. destruct Hen as [Hcc _]. unfold is_concurrent in Hcc. rewrite Hcc. exists R. split; [done|].
    apply safe_act, act_safe_wp. clear σ F cx HI Hc Hc' Hcc. intros σ F HI.
    destruct (leaving_facts _ _ _ _ _ _ _ HL HI) as (cx & Hc & Hdy & Hni & [_ Hsg]).
    pose proof (leaving_counts _ _ _ _ _ HL) as (_ & _ & _ & L4 & _ & _ & L7 & L8 & _). cbn [e_single] in L7.
    assert (c_busy cx = true) as Hb.
    { pose proof (ck_busy _ _ _ _ (inv_ctx _ _ HI c cx Hc)) as Hb. destruct (c_busy cx); [done|]. specialize (L4 c).
      rewrite Z.eqb_refl in L4. cbn in L4, Hb. rewrite cnt_app in Hb.
      pose proof (cnt_nonneg (f_busy c) F). pose proof (cnt_nonneg (f_busy c) R'). lia. }
    do 3 act_step lk. act_step lk; [done|]. do 3 act_step lk. act_step ltac:(cbn; apply lookup_insert_eq).
    cbn [c_flags c_set_busy]. unfold is_single in Hsg. rewrite <- Hsg. destruct sg.
    + destruct (inv_single _ _ HI) as [S1 S2 S3 S4].
      assert (single_thread σ = Some t) as Hst.
      { destruct (leaving_in _ _ _ _ _ HL) as (tk0 & Hin0 & _ & Hen0). eapply S4; [by apply in_left|exact Hen0]. }
      rewrite cnt_app in S1. pose proof (cnt_nonneg f_single F). cbn [b2z] in L7.
      set (σ1 := set_ctxs _ σ). destruct (unlock_single_ok t σ1) as (h & HU & Hh); [done|cbn; lia|].
      unfold wp. rewrite HU. exists R'. split; [|done].
      by eapply (Inv_clear_busy σ _ t c true cx).
    + repeat act_step lk. exists R'. split; [|done]. eapply (Inv_clear_busy σ _ t c false cx); try done. cbn. lia.
Qed.
