(* ===== verification/SessionLife.v ===== *)
(** * Creation and destruction of contexts and sessions

    The rules of [SessionLogic] for the actions of [Session] by which sessions come into being and
    contexts are loaded, shared, given up and freed. *)

From S2P Require Import Prelude ErrM Session SessionLogic SessionActs SessionCtx.
From stdpp Require Import base gmap list.
From Stdlib Require Import ZArith Lia.

Local Open Scope Z_scope.

(** A session that is being opened is known to the opening frame only. *)
Lemma opening_alone σ s u k r R F :
  Inv σ (TOpn s u k r :: R ++ F) -> forall tk, tk ∈ F -> tk_sess tk <> Some s.
Proof.
  intros HI tk Hin Htk.
  destruct (inv_tok _ _ HI (TOpn s u k r) ltac:(left)) as (Ho & Hu & se & Hse & Hh & _).
  destruct (inv_sess _ _ HI s se Hse) as [K1 K2 K3 K4 K5 K0 K6]. destruct (K2 Ho) as (K7 & K8 & _).
  rewrite bool_decide_eq_true_2 in K3 by done. rewrite K8 in K4.
  assert (tk ∈ R ++ F) as Hin' by (by apply in_right).
  assert (forall f, f tk = true -> 1 <= cnt f (R ++ F)) as Hp by (intros f Hf; by eapply cnt_pos).
  pose proof (cnt_nonneg (f_plain s) (R ++ F)). pose proof (cnt_nonneg (f_lock s) (R ++ F)).
  destruct tk as [s' k'|s' u' k' r'|s' u' d'|u'|c' e|c'|c' t' s'|t']; cbn in Htk; simplify_eq.
  - specialize (Hp (f_plain s)). cz.
  - specialize (Hp (f_opn s)). cz.
  - specialize (Hp (f_lock s)). cz.
  - destruct (inv_tok _ _ HI (TPeek c' t' (Some s))) as (Hdy & se' & Hse' & Hh'); [by right; apply in_right|]. simplify_eq.
    destruct (use_alive _ _ _ c' HI Hu) as [cx Hcx]; [congruence|].
    pose proof (uses_le_1 _ _ _ _ HI Hcx) as Hle. specialize (Hp (f_uses c')). rewrite Hh' in Hh.
    destruct u; cbn in Hh; simplify_eq; cz.
Qed.

(** The sessions and tokens of a state where, of sessions, only the context of [s] may change. *)
Definition ctx_of_changed (σ σ' : st) (os : option (Z * option Z)) : Prop :=
  match os with
  | None => sesss σ' = sesss σ
  | Some (s, oc) => exists se, sesss σ !! s = Some se /\ s ∈ opening σ /\ sesss σ' = <[s := s_set_ctx oc se]> (sesss σ)
  end.

Lemma ctx_of_changed_lookup σ σ' os x sx :
  ctx_of_changed σ σ' os -> sesss σ' !! x = Some sx ->
  exists s0, sesss σ !! x = Some s0 /\ s_id sx = s_id s0 /\ s_home sx = s_home s0 /\ s_ref_count sx = s_ref_count s0 /\
    s_lock_thread sx = s_lock_thread s0 /\ s_unlink sx = s_unlink s0 /\
    (s_ctx sx = s_ctx s0 \/ x ∈ opening σ).
Proof.
  destruct os as [[s oc]|]; cbn.
  - intros (se & Hs & Ho & ->). rewrite lookup_insert_Some. intros [[<- <-]|[_ H]]; eauto 10.
  - intros ->. eauto 10.
Qed.

Lemma ctx_of_changed_back σ σ' os x s0 :
  ctx_of_changed σ σ' os -> sesss σ !! x = Some s0 ->
  exists sx, sesss σ' !! x = Some sx /\ s_id sx = s_id s0 /\ s_home sx = s_home s0 /\
    s_lock_thread sx = s_lock_thread s0 /\ s_unlink sx = s_unlink s0 /\
    (fst <$> os = Some x \/ s_ctx sx = s_ctx s0).
Proof.
  destruct os as [[s oc]|]; cbn.
  - intros (se & Hs & Ho & ->) Hx. destruct (decide (x = s)) as [->|Hne].
    + eexists. rewrite lookup_insert_eq. simplify_eq. eauto 10.
    + exists s0. rewrite lookup_insert_ne by done. eauto 10.
  - intros -> Hx. eauto 10.
Qed.

Record ctx_change (σ σ' : st) (c : Z) (cx' : tee_ta_ctx) (os : option (Z * option Z)) : Prop := {
  cc_ctxs : ctxs σ' = <[c := cx']> (ctxs σ);
  cc_list : c_open_sessions cx' = sessions_of (LCtx c) σ;
  cc_sesss : ctx_of_changed σ σ' os;
  cc_opens : tee_open_sessions σ' = tee_open_sessions σ;
  cc_single : single_thread σ' = single_thread σ /\ single_count σ' = single_count σ;
  cc_rec : syscall_recursion σ' = syscall_recursion σ;
  cc_opening : opening σ' = opening σ;
  cc_ctxes : forall x, x <> c -> x ∈ tee_ctxes σ' <-> x ∈ tee_ctxes σ;
  cc_nsess : forall x, x <> c -> nsess x (sesss σ') = nsess x (sesss σ) }.

(** Tokens that change only in what they say of [c]. *)
Record ctx_tokens (c : Z) (R R' : list token) : Prop := {
  ct_sess : forall x, same_sess x R R';
  ct_other : forall x, x <> c -> cnt (f_ctx x) R' = cnt (f_ctx x) R /\ cnt (f_dying x) R' = cnt (f_dying x) R /\
    cnt (f_busy x) R' = cnt (f_busy x) R /\ cnt (f_uses x) R' = cnt (f_uses x) R;
  ct_single : cnt f_single R' = cnt f_single R;
  ct_nsec : forall t, cnt (f_nsec t) R' = cnt (f_nsec t) R;
  ct_rec : forall t, cnt (f_rec t) R' = cnt (f_rec t) R;
  ct_entry : forall tk x t, tk ∈ R' -> tk_entry tk = Some (x, EBusy t true) ->
    exists tk', tk' ∈ R /\ tk_entry tk' = Some (x, EBusy t true) }.

Lemma Inv_ctx_change σ σ' R R' F c cx' os :
  Inv σ (R ++ F) -> ctx_change σ σ' c cx' os -> ctx_tokens c R R' ->
  (c ∈ tee_ctxes σ' <-> cnt (f_dying c) (R' ++ F) = 0) ->
  ctx_ok σ' (R' ++ F) c cx' ->
  (forall x sx, sesss σ' !! x = Some sx -> s_ctx sx = Some c ->
     cnt (f_dying c) (R' ++ F) = 0 /\ (c_is_initializing cx' = true -> x ∈ opening σ)) ->
  (forall s oc x, os = Some (s, oc) -> oc = Some x -> x = c) ->
  (forall tk, tk ∈ R' -> tok_ok σ' (R' ++ F) tk) ->
  (forall tk, tk ∈ F -> fst <$> os <> tk_sess tk \/ os = None) ->
  (forall tk, tk ∈ F -> tk_ctx tk = Some c -> exists cx, ctxs σ !! c = Some cx /\ c_flags cx' = c_flags cx /\
     c_is_initializing cx' = c_is_initializing cx /\ (cnt (f_dying c) (R ++ F) = 0 -> cnt (f_dying c) (R' ++ F) = 0)) ->
  (forall tk u, tk ∈ F -> tk_use tk = Some u -> use_ok (R ++ F) u -> use_ok (R' ++ F) u) ->
  Inv σ' (R' ++ F).
Proof.
  intros [H1 H2 H3 H4 H5 H6 H7 H8 H9] [E1 E2 E3 E4 [E5 E6] E7 E8 E9 E10] [T1 T2 T3 T4 T5 T6] Hin Hok Hsc Hoc Htk HFs HFc HFu.
  assert (forall x, x <> c -> cnt (f_dying x) (R' ++ F) = cnt (f_dying x) (R ++ F)) as HD.
  { intros x Hx. rewrite !cnt_app. by destruct (T2 x Hx) as (_ & -> & _). }
  assert (forall x y, x <> c -> ctxs σ' !! x = Some y <-> ctxs σ !! x = Some y) as HX.
  { intros x y Hx. by rewrite E1, lookup_insert_ne. }
  split.
  - intros x sx Hx. destruct (ctx_of_changed_lookup _ _ _ _ _ E3 Hx) as (s0 & Hs0 & F1 & F2 & F3 & F4 & F5 & F6).
    destruct (H1 x s0 Hs0) as [K1 K2 K3 K4 K5 K0 K6]. destruct (T1 x) as (X1 & X2 & X3 & X4). rewrite cnt_app in K1, K3, K4.
    split; rewrite ?cnt_app, ?X1, ?X2, ?X3, ?X4, ?E8, ?F3, ?F4, ?F5; try done.
    + intros Ho. rewrite <- cnt_app. by apply K2.
    + intros Hn. destruct F6 as [->|?]; [by apply K0|done].
    + intros y Hy. destruct (decide (y = c)) as [->|Hne].
      * destruct (Hsc x sx Hx Hy) as [D I]. split; [done|]. exists cx'. by rewrite E1, lookup_insert_eq.
      * rewrite HD by done. destruct F6 as [Heq|Ho].
        -- rewrite Heq in Hy. destruct (K6 y Hy) as (D & cy & Hcy & I). split; [done|]. exists cy. by rewrite HX.
        -- destruct os as [[s oc]|]; cbn in E3.
           ++ destruct E3 as (se & Hse & _ & Es). rewrite Es in Hx. apply lookup_insert_Some in Hx as [[<- <-]|[_ Hx]].
              ** cbn in Hy. subst oc. by specialize (Hoc s (Some y) y eq_refl eq_refl).
              ** simplify_eq. destruct (K6 y Hy) as (D & cy & Hcy & I). split; [done|]. exists cy. by rewrite HX.
           ++ rewrite E3 in Hx. simplify_eq. destruct (K6 y Hy) as (D & cy & Hcy & I). split; [done|]. exists cy. by rewrite HX.
  - intros x y Hy. destruct (decide (x = c)) as [->|Hne].
    + rewrite E1, lookup_insert_eq in Hy. by simplify_eq.
    + apply HX in Hy; [|done]. destruct (H2 x y Hy). destruct (T2 x Hne) as (X1 & X2 & X3 & X4).
      split; rewrite ?E10, ?HD by done; rewrite ?cnt_app, ?X1, ?X2, ?X3, ?X4, <- ?cnt_app; done.
  - intros tk Hi. apply elem_of_app in Hi as [Hi|Hi]; [by apply Htk|].
    eapply tok_ok_frame; [apply H3; by apply in_right| | | | |].
    + intros x D Htc. destruct (decide (x = c)) as [->|Hne]; [|by rewrite HD].
      destruct (HFc tk Hi Htc) as (cx & _ & _ & _ & G). auto.
    + intros x y Htc Hy. destruct (decide (x = c)) as [->|Hne].
      * destruct (HFc tk Hi Htc) as (cx & Hcx & G1 & G2 & _). exists cx'. rewrite E1, lookup_insert_eq. simplify_eq. done.
      * exists y. by rewrite HX.
    + intros u Hu. by eapply HFu.
    + intros x sx Hts Hx. destruct (ctx_of_changed_back _ _ _ _ _ E3 Hx) as (sx' & Hx' & F1 & F2 & F3 & F4 & F5).
      exists sx'. rewrite E8. split_and!; try done. destruct F5 as [F5|F5]; [|done].
      destruct (HFs tk Hi) as [Hno|Hno]; [congruence|]. by rewrite Hno in F5.
    + intros x t s se _ Hs Hh. destruct (ctx_of_changed_lookup _ _ _ _ _ E3 Hs) as (s0 & Hs0 & _ & F2 & _). exists s0. by rewrite <- F2.
  - intros l x. assert (sessions_of l σ' = sessions_of l σ) as ->.
    { destruct l as [|y]; cbn [sessions_of]; [done|]. rewrite E1. destruct (decide (y = c)) as [->|Hne]; [by rewrite lookup_insert_eq|by rewrite lookup_insert_ne]. }
    rewrite H4. split.
    + intros (s0 & Hs0 & Hh). destruct (ctx_of_changed_back _ _ _ _ _ E3 Hs0) as (sx' & Hx' & F1 & F2 & _). exists sx'. by rewrite F2.
    + intros (sx & Hsx & Hh). destruct (ctx_of_changed_lookup _ _ _ _ _ E3 Hsx) as (s0 & Hs0 & F1 & F2 & _). exists s0. by rewrite <- F2.
  - intros x y sx sy Hx Hy. destruct (ctx_of_changed_lookup _ _ _ _ _ E3 Hx) as (x0 & Hx0 & F1 & F2 & _).
    destruct (ctx_of_changed_lookup _ _ _ _ _ E3 Hy) as (y0 & Hy0 & G1 & G2 & _). rewrite F1, F2, G1, G2. eauto.
  - intros x. destruct (decide (x = c)) as [->|Hne].
    + rewrite Hin, E1, lookup_insert_eq. naive_solver.
    + rewrite E9, HD, H6, E1, lookup_insert_ne by done. done.
  - destruct H7 as [S1 S2 S3 S4]. rewrite cnt_app in *. split; rewrite ?cnt_app, ?E5, ?E6, ?T3; try done.
    intros tk x t Hi He. apply elem_of_app in Hi as [Hi|Hi].
    + destruct (T6 _ _ _ Hi He) as (tk' & Hi' & He'). eapply S4; [by apply in_left|done].
    + eapply S4; [by apply in_right|done].
  - intros t. rewrite cnt_app, T4, <- cnt_app. apply H8.
  - intros t. unfold recursion_of in *. rewrite E7, cnt_app, T5, <- cnt_app. apply H9.
Qed.

(** ** Giving a context up *)

Lemma nsess_pos c m s se : m !! s = Some se -> s_ctx se = Some c -> 1 <= nsess c m.
Proof.
  intros Hs Hc. unfold nsess. assert (size (filter (fun p => s_ctx p.2 = Some c) m) <> 0%nat); [|lia].
  apply map_size_ne_0_lookup. exists s, se. by apply map_lookup_filter_Some.
Qed.

Lemma nsess_nonneg c m : 0 <= nsess c m.
Proof. unfold nsess. lia. Qed.

(** A token that speaks of a context of which no session and no frame has a reference. *)
Lemma unreferenced_busy σ T c F :
  Inv σ T -> (forall tk, tk ∈ F -> tk ∈ T) -> nsess c (sesss σ) = 0 -> cnt (f_ctx c) F = 0 -> cnt (f_busy c) F = 0.
Proof.
  intros HI HF Hn Hx. pose proof (cnt_nonneg (f_busy c) F). destruct (Z.eq_dec (cnt (f_busy c) F) 0) as [|Hne]; [done|exfalso].
  destruct (cnt_in (f_busy c) F) as (tk & Hin & Hf); [lia|]. pose proof (inv_tok _ _ HI tk (HF _ Hin)) as Hok.
  assert (forall s k, k_busy c k = true -> (exists se, sesss σ !! s = Some se /\ know_ok σ k (s_ctx se)) -> False) as Hk.
  { intros s k Hb (se & Hse & Hkn). destruct k as [| | | | | |x e]; cbn in Hb; try done. apply andb_true_iff in Hb as [->%Z.eqb_eq _].
    destruct Hkn as [Hc _]. pose proof (nsess_pos _ _ _ _ Hse Hc). lia. }
  destruct tk as [s k|s u k r| | |c' [e|]| | |]; cbn in Hf, Hok; try done.
  - eapply (Hk s); [done|]. naive_solver.
  - eapply (Hk s); [done|]. naive_solver.
  - apply andb_true_iff in Hf as [->%Z.eqb_eq _]. pose proof (cnt_pos (f_ctx c) F _ Hin) as Hp. cbn in Hp. rewrite Z.eqb_refl in Hp. specialize (Hp eq_refl). lia.
Qed.

(** ... is of nobody who works on its list. *)
Lemma unused_uses σ T c cx : Inv σ T -> ctxs σ !! c = Some cx -> cnt (f_busy c) T = 0 -> cnt (f_dying c) T = 0 -> cnt (f_uses c) T = 0.
Proof. intros HI Hc HB HD. pose proof (ck_uses _ _ _ _ (inv_ctx _ _ HI c cx Hc)). pose proof (cnt_nonneg (f_uses c) T). lia. Qed.

(** Tokens of other frames on a context that nobody refers to. *)
Lemma unreferenced_tok σ T c tk F :
  Inv σ T -> (forall tk, tk ∈ F -> tk ∈ T) -> tk ∈ F -> tk_ctx tk = Some c ->
  nsess c (sesss σ) = 0 -> cnt (f_ctx c) F = 0 -> cnt (f_uses c) F = 0 -> cnt (f_dying c) F = 0 -> False.
Proof.
  intros HI HF Hin Htc Hn Hx Hu Hd. pose proof (inv_tok _ _ HI tk (HF _ Hin)) as Hok.
  assert (forall f, f tk = true -> 1 <= cnt f F) as Hp by (intros f Hf; by eapply cnt_pos).
  assert (forall s k, know_ctx k = Some c -> (exists se, sesss σ !! s = Some se /\ know_ok σ k (s_ctx se)) -> False) as Hk.
  { intros s k Hkc (se & Hse & Hkn). assert (s_ctx se = Some c) as Hc by (destruct k; cbn in *; naive_solver).
    pose proof (nsess_pos c _ _ _ Hse Hc). lia. }
  destruct tk as [s k|s u k r|s u d|u|c' e|c'|c' t' s|t']; cbn in Htc, Hok; simplify_eq.
  - eapply (Hk s k); [done|]. naive_solver.
  - eapply (Hk s k); [done|]. naive_solver.
  - specialize (Hp (f_uses c)). destruct u; cbn in *; simplify_eq; rewrite Z.eqb_refl in Hp; specialize (Hp eq_refl); lia.
  - specialize (Hp (f_uses c)). destruct u; cbn in *; simplify_eq; rewrite Z.eqb_refl in Hp; specialize (Hp eq_refl); lia.
  - specialize (Hp (f_ctx c)). cz.
  - specialize (Hp (f_dying c)). cz.
  - specialize (Hp (f_uses c)). cz.
Qed.

(** Uses that do not rest on tokens of the frame. *)
Lemma use_ok_other R R' F v :
  (forall tk c t s, tk ∈ R -> ~ is_inside c t s tk) -> (forall c, TDying c ∈ R -> TDying c ∈ R') ->
  use_ok (R ++ F) v -> use_ok (R' ++ F) v.
Proof.
  intros H1 H2. destruct v as [|c t s|c t]; cbn [use_ok]; [done| |].
  - intros (tk & Hin & Hi). exists tk. split; [|done]. apply elem_of_app in Hin as [Hin|Hin]; [by destruct (H1 _ _ _ _ Hin Hi)|by apply in_right].
  - rewrite !elem_of_app. intros [H|H]; eauto.
Qed.

Ltac no_insides := let H := fresh "Hi" in intros ? ? ? ? H; in_list H; intros (? & [?|(? & ? & ?)]); done.
Ltac no_dyings := let H := fresh "Hd" in intros ? H; in_list H; done.

Ltac ctx_tokens_tac :=
  split; intros; unfold same_sess; cnts; eqbs; cbn [b2z andb]; try congruence; try lia; auto;
  match goal with H : ?tk ∈ _, H' : tk_entry ?tk = _ |- _ => first [by apply elem_of_nil in H | in_list H; done] end.

Lemma act_put_ctx t c (Φ : post bool) :
  Φ false [] -> Φ true [TDying c; TUse (UDying c t)] -> act_safe [TCtx c None] (put_ctx c) Φ.
Proof.
  intros HF HT. apply act_safe_wp. intros σ F HI.
  destruct (inv_tok _ _ HI (TCtx c None) ltac:(left)) as (Hdy & cx & Hc & Hni & _).
  destruct (inv_ctx _ _ HI c cx Hc) as [C1 C2 C3 C4 C5 C6 C7 C9 C10 C8]. specialize (C2 Hdy).
  pose proof (nsess_nonneg c (sesss σ)). pose proof (cnt_nonneg (f_ctx c) F).
  assert (0 < c_ref_count cx) as Hpos by (rewrite C2; cz).
  unfold put_ctx. do 3 act_step lk. act_step lk; [by apply Z.ltb_lt|]. do 4 act_step lk. cbn [c_flags c_set_ref_count].
  set (cx' := c_set_ref_count (c_ref_count cx - 1) cx).
  assert (forall tk, tk ∈ F -> tk ∈ [TCtx c None] ++ F) as HinF by (intros; by apply in_right).
  destruct ((c_ref_count cx - 1 =? 0) && _)%bool eqn:Hdead.
  - apply andb_true_iff in Hdead as [Hz%Z.eqb_eq Hka].
    assert (is_user_ta (c_ops cx) = true) as Husr.
    { destruct (is_user_ta (c_ops cx)); [done|]. destruct (C9 eq_refl) as (Hk1 & Hk2 & _). by rewrite Hk1, Hk2 in Hka. }
    assert (nsess c (sesss σ) = 0 /\ cnt (f_ctx c) F = 0) as [N0 X0] by (split; cz).
    pose proof (unreferenced_busy _ _ c F HI HinF N0 X0) as B0.
    assert (cnt (f_uses c) F = 0) as U0 by (pose proof (unused_uses _ _ _ _ HI Hc ltac:(cz) Hdy); cz).
    assert (cnt (f_dying c) F = 0) as D0 by cz.
    repeat act_step lk. exists [TDying c; TUse (UDying c t)]. split; [|done].
    eapply (Inv_ctx_change σ _ [TCtx c None] _ F c cx' None).
    + done.
    + split; try done; [by cbn; rewrite Hc|]. intros x Hx. cbn. unfold list_remove_elem. rewrite list_elem_of_filter. tauto.
    + ctx_tokens_tac.
    + cbn. unfold list_remove_elem. rewrite list_elem_of_filter. split; [by intros []|]. cz.
    + split; cbn; try done; try cz.
    + intros x sx Hx Hcx. pose proof (nsess_pos c (sesss σ) _ _ Hx Hcx). lia.
    + done.
    + intros tk Hin. in_list Hin; cbn; [by rewrite lookup_insert_eq|left].
    + auto.
    + intros tk Hin Htc. exfalso. by eapply (unreferenced_tok _ _ c tk F HI HinF).
    + intros tk u Hin _. apply use_ok_other; [no_insides|no_dyings].
  - repeat act_step lk. exists []. split; [|done].
    eapply (Inv_ctx_change σ _ [TCtx c None] [] F c cx' None).
    + done.
    + split; try done. by cbn; rewrite Hc.
    + ctx_tokens_tac.
    + cbn. rewrite (inv_ctxes _ _ HI c). split; [intros _; cz|]. intros D. split; [eauto|done].
    + split; cbn; try done; try cz. intros Ei; congruence.
    + intros x sx Hx Hcx. split; [cz|]. cbn. congruence.
    + done.
    + intros tk Hin. by apply elem_of_nil in Hin.
    + auto.
    + intros tk Hin Htc. exists cx. split_and!; [done|done|done|]. cz.
    + intros tk u Hin _. apply use_ok_other; [no_insides|no_dyings].
Qed.

(** ** Destroying a context *)

Lemma act_peek t c (Φ : post (list Z)) :
  Φ [] [TDying c; TPeek c t None] -> (forall s l, Φ (s :: l) [TDying c; TPeek c t (Some s)]) ->
  act_safe [TDying c; TUse (UDying c t)] (rd_ctx c c_open_sessions) Φ.
Proof.
  intros H1 H2. eapply (act_rd_ctx_fact _ _ _ _ (TDying c)); [left|done|]. intros σ F cx HI Hc.
  assert (forall os, same_ctx [TDying c; TUse (UDying c t)] [TDying c; TPeek c t os]) as HS by (intros os; same_ctx_tac).
  pose proof (inv_lists _ _ HI (LCtx c)) as HL. cbn in HL. rewrite Hc in HL.
  destruct (c_open_sessions cx) as [|s l] eqn:El; eexists; (split; [|done || apply H2]).
  - eapply (Inv_tok_step σ _ _ F HI (HS None)); [intros x; unfold same_sess; cnts; auto|].
    intros tk Hin. in_list Hin; cbn [tok_ok]; [by eauto|]. split; [left|]. intros s se Hs Hh.
    assert (s ∈ @nil Z) as Hs0 by (apply HL; eauto). by apply elem_of_nil in Hs0.
  - eapply (Inv_tok_step σ _ _ F HI (HS (Some s))); [intros x; unfold same_sess; cnts; auto|].
    intros tk Hin. in_list Hin; cbn [tok_ok]; [by eauto|]. split; [left|]. apply HL. left.
Qed.

Lemma act_free_ctx t c (Φ : post unit) :
  Φ tt [] ->
  act_safe [TDying c; TPeek c t None] (_ ← rd_ctx c c_flags; modify (fun σ => set_ctxs (delete c (ctxs σ)) σ)) Φ.
Proof.
  intros HΦ. apply act_safe_wp. intros σ F HI. destruct (inv_tok _ _ HI (TDying c) ltac:(left)) as [cx Hc].
  destruct (inv_tok _ _ HI (TPeek c t None) ltac:(find_in)) as (_ & Hempty).
  destruct (inv_ctx _ _ HI c cx Hc) as [C1 C2 C3 C4 C5 C6 C7 C9 C10 C8]. pose proof (cnt_nonneg (f_dying c) F).
  destruct C3 as (N0 & X0 & B0); [cz|]. pose proof (cnt_nonneg (f_uses c) F).
  assert (cnt (f_ctx c) F = 0 /\ cnt (f_uses c) F = 0 /\ cnt (f_dying c) F = 0) as (X1 & U1 & D1).
  { pose proof (cnt_nonneg (f_busy c) F). cz. }
  repeat act_step lk. exists []. split; [|done]. cbn [app].
  assert (forall tk, tk ∈ F -> tk ∈ [TDying c; TPeek c t None] ++ F) as HF by (intros; by apply in_right).
  assert (forall tk, tk ∈ F -> tk_ctx tk <> Some c) as Hno by (intros tk Hin Htc; by eapply (unreferenced_tok _ _ c tk F HI HF)).
  destruct HI as [H1 H2 H3 H4 H5 H6 H7 H8 H9].
  assert (forall f, f (TDying c) = false -> f (TPeek c t None) = false -> cnt f F = cnt f ([TDying c; TPeek c t None] ++ F)) as Hcnt.
  { intros f E1 E2. cbn [app]. rewrite !cnt_cons, E1, E2. cbn. lia. }
  assert (forall x, x <> c -> cnt (f_dying x) F = cnt (f_dying x) ([TDying c; TPeek c t None] ++ F)) as HD.
  { intros x Hx. apply Hcnt; [|done]. cbn. destruct (Z.eqb_spec c x); congruence. }
  assert (forall x y, ctxs (set_ctxs (delete c (ctxs σ)) σ) !! x = Some y <-> x <> c /\ ctxs σ !! x = Some y) as HX.
  { intros x y. cbn. rewrite lookup_delete_Some. naive_solver. }
  split.
  - intros s se Hs. destruct (H1 s se Hs) as [K1 K2 K3 K4 K5 K0 K6]. split; rewrite ?(Hcnt (f_ref s)), ?(Hcnt (f_plain s)), ?(Hcnt (f_opn s)), ?(Hcnt (f_lock s)) by done; try done.
    intros x Hx. destruct (K6 x Hx) as (D & y & Hy & I).
    assert (x <> c) as Hne by (intros ->; pose proof (nsess_pos c (sesss σ) _ _ Hs Hx); lia).
    rewrite HD by done. split; [done|]. exists y. rewrite HX. done.
  - intros x y [Hne Hy]%HX. destruct (H2 x y Hy).
    assert (cnt (f_uses x) F = cnt (f_uses x) ([TDying c; TPeek c t None] ++ F)) as HU.
    { apply Hcnt; [done|]. cbn. destruct (Z.eqb_spec c x); congruence. }
    split; rewrite ?HD, ?HU, ?(Hcnt (f_ctx x)), ?(Hcnt (f_busy x)) by done; done.
  - intros tk Hin. eapply tok_ok_frame; [apply H3; by apply HF| | | | |].
    + intros x D Htc. rewrite HD; [done|]. intros ->. by apply (Hno tk Hin).
    + intros x y Htc Hy. exists y. rewrite HX. split_and!; try done. intros ->. by apply (Hno tk Hin).
    + intros [|x t' s|x t'] Htu; cbn [use_ok]; [done| |].
      * intros (tk' & Hin' & Hi'). exists tk'. split; [|done]. cbn [app] in Hin'.
        apply elem_of_cons in Hin' as [->|Hin']; [by destruct Hi' as (? & [?|(? & ? & ?)])|].
        apply elem_of_cons in Hin' as [->|Hin']; [by destruct Hi' as (? & [?|(? & ? & ?)])|done].
      * cbn [app]. intros Hin'. apply elem_of_cons in Hin' as [[= ->]|Hin'].
        -- pose proof (cnt_pos (f_uses c) F tk Hin) as Hp. destruct tk; cbn in *; simplify_eq; cbn in Hp; rewrite ?Z.eqb_refl in Hp; specialize (Hp eq_refl); lia.
        -- apply elem_of_cons in Hin' as [?|?]; done.
    + intros s se _ Hs. eauto 10.
    + intros x t' s se _ Hs Hh. eauto.
  - intros l s. destruct l as [|x]; [apply (H4 LNsec)|]. destruct (decide (x = c)) as [->|Hne].
    + cbn. rewrite lookup_delete_eq. split; [by intros ?%elem_of_nil|]. intros (se & Hs & Hh). by destruct (Hempty s se Hs).
    + cbn. rewrite lookup_delete_ne by done. apply (H4 (LCtx x)).
  - done.
  - intros x. destruct (decide (x = c)) as [->|Hne].
    + cbn. rewrite lookup_delete_eq, H6. split; [intros [_ D]; exfalso; cz|intros [[? ?] _]; done].
    + cbn. rewrite lookup_delete_ne, HD by done. apply H6.
  - destruct H7 as [S1 S2 S3 S4]. rewrite <- (Hcnt f_single) in * by done. split; try done. intros tk x t' Hin. eapply S4. by apply HF.
  - intros t'. rewrite (Hcnt (f_nsec t')) by done. apply H8.
  - intros t'. rewrite (Hcnt (f_rec t')) by done. apply H9.
Qed.

(** ** A new session *)

Lemma new_id_loop_fresh fuel m l saved id :
  new_id_loop fuel m l saved id <> 0 -> find_id m (new_id_loop fuel m l saved id) l = None.
Proof.
  revert id. induction fuel as [|fuel IH]; intros id; cbn [new_id_loop]; [done|].
  destruct (find_id m id l) eqn:E; [|by intros]. destruct (next_id id =? saved); [done|]. apply IH.
Qed.

(** No token speaks of a session that does not exist. *)
Lemma no_sess_cnt σ T s f :
  Inv σ T -> sesss σ !! s = None -> (forall tk, f tk = true -> tk_sess tk = Some s) -> cnt f T = 0.
Proof.
  intros HI Hs Hf. pose proof (cnt_nonneg f T). destruct (Z.eq_dec (cnt f T) 0) as [|Hne]; [done|exfalso].
  destruct (cnt_in f T) as (tk & Hin & Htk); [lia|].
  destruct (tok_sess_alive σ T tk s) as [se Hse]; [by apply HI|by apply Hf|]. congruence.
Qed.

Lemma nsess_add c m s se : m !! s = None -> s_ctx se = None -> nsess c (<[s := se]> m) = nsess c m.
Proof.
  intros Hs Hc. unfold nsess. rewrite (map_filter_insert_False _ m s se) by (cbn; congruence).
  by rewrite delete_id.
Qed.

Lemma Inv_add_sess σ σ' u s id F :
  Inv σ ([TUse u] ++ F) -> sesss σ !! s = None -> find_id (sesss σ) id (sessions_of (use_head u) σ) = None ->
  sesss σ' = <[s := fresh_session id (use_head u)]> (sesss σ) -> opening σ' = {[s]} ∪ opening σ -> but_sessions σ σ' ->
  (forall l, sessions_of l σ' = if decide (l = use_head u) then sessions_of l σ ++ [s] else sessions_of l σ) ->
  Inv σ' ([TOpn s u KNone true] ++ F).
Proof.
  intros HI Hs Hid E1 E2 (E3 & E4 & E5 & E6 & E7) El.
  assert (cnt (f_ref s) ([TUse u] ++ F) = 0 /\ cnt (f_plain s) ([TUse u] ++ F) = 0 /\ cnt (f_opn s) ([TUse u] ++ F) = 0 /\
    cnt (f_lock s) ([TUse u] ++ F) = 0) as (Z1 & Z2 & Z3 & Z4).
  { split_and!; apply (no_sess_cnt _ _ s _ HI Hs); intros [] Hf; cbn in *; try done;
      rewrite ?andb_true_iff, ?Z.eqb_eq in Hf; naive_solver. }
  assert (forall tk, tk ∈ F -> tk_sess tk <> Some s) as HF.
  { intros tk Hin Hts. destruct (tok_sess_alive σ ([TUse u] ++ F) tk s) as [se Hse]; [apply HI; by apply in_right|done|]. congruence. }
  assert (use_ok ([TUse u] ++ F) u) as Hu by (apply (inv_tok _ _ HI (TUse u)); left).
  assert (same_ctx [TUse u] [TOpn s u KNone true]) as HS by same_ctx_tac.
  pose proof (same_ctx_app _ _ F HS) as HS'.
  assert (forall x, x <> s -> same_sess x ([TUse u] ++ F) ([TOpn s u KNone true] ++ F)) as HX.
  { intros x Hx. unfold same_sess. cnts. eqbs; cbn [b2z andb]; try congruence; auto. }
  destruct HI as [H1 H2 H3 H4 H5 H6 H7 H8 H9]. split.
  - intros x sx Hx. rewrite E1 in Hx. apply lookup_insert_Some in Hx as [[<- <-]|[Hne Hx]].
    + split; cbn; try done; try cz.
      * rewrite bool_decide_eq_true_2 by (rewrite E2; set_solver). cz.
      * rewrite E2. set_solver.
    + destruct (H1 x sx Hx) as [K1 K2 K3 K4 K5 K0 K6]. destruct (HX x) as (X1 & X2 & X3 & X4); [done|].
      assert (x ∈ opening σ' <-> x ∈ opening σ) as Hox by (rewrite E2; set_solver).
      split; rewrite ?X1, ?X2, ?X3, ?X4, ?Hox; try done.
      * rewrite K3. by rewrite (bool_decide_ext _ _ Hox).
      * intros c Hc. rewrite (sc_dying _ _ HS'). destruct (K6 c Hc) as (D & cx & Hcx & I). split; [done|].
        destruct (fmap_list_like _ _ E7 _ _ Hcx) as (cx' & Hcx' & _ & Ei). exists cx'. rewrite Ei, Hox. done.
  - intros c cx' Hc'. destruct (fmap_list_eq _ _ _ _ E7 Hc') as (cx & Hc & F1 & F2 & F3 & F4 & F5 & F6). destruct (H2 c cx Hc).
    pose proof (nsess_add c _ s (fresh_session id (use_head u)) Hs eq_refl) as Hn. rewrite <- E1 in Hn.
    unfold is_concurrent in *.
    split; unfold is_concurrent; rewrite ?(sc_dying _ _ HS'), ?(sc_busy _ _ HS'), ?(sc_ctx _ _ HS'), ?(sc_uses _ _ HS'), ?F1, ?F2, ?F3, ?F4, ?F5, ?F6, ?Hn; done.
  - intros tk Hin. cbn [app] in Hin. apply elem_of_cons in Hin as [->|Hin].
    + cbn [tok_ok]. rewrite E2, E1. split_and!; [set_solver|by eapply same_ctx_use|]. exists (fresh_session id (use_head u)).
      rewrite lookup_insert_eq. done.
    + eapply tok_ok_frame; [apply H3; by right| | | | |].
      * intros c D _. by rewrite (sc_dying _ _ HS').
      * intros c cx _. apply (fmap_list_like _ _ E7).
      * intros v _. by apply same_ctx_use.
      * intros x sx Hts Hx. exists sx. rewrite E1, lookup_insert_ne, E2 by (intros ->; by apply (HF _ Hin)). split_and!; try done. set_solver.
      * intros c t x sx -> Hx Hh. rewrite E1 in Hx. apply lookup_insert_Some in Hx as [[<- <-]|[_ Hx]]; [|eauto]. cbn in Hh.
        exfalso. destruct (H3 (TPeek c t None)) as (Hd & _); [by right|].
        assert (exists cx, ctxs σ !! c = Some cx) as [cx Hcx] by (apply (H3 (TDying c)); done).
        destruct (H2 c cx Hcx). pose proof (cnt_pos (f_dying c) _ _ Hd) as Hp. cbn [f_dying] in Hp. rewrite Z.eqb_refl in Hp. specialize (Hp eq_refl).
        destruct ck_dead as (_ & _ & B0); [lia|]. pose proof (cnt_pos (f_uses c) F _ Hin) as Hq.
        destruct u; cbn in Hh; simplify_eq; cz.
  - intros l x. rewrite El, E1. destruct (decide (l = use_head u)) as [->|Hl].
    + rewrite elem_of_app, H4, list_elem_of_singleton. split.
      * intros [(sx & Hx & Hh)| ->]; [exists sx; rewrite lookup_insert_ne by congruence; done|].
        exists (fresh_session id (use_head u)). by rewrite lookup_insert_eq.
      * intros (sx & Hx & Hh). apply lookup_insert_Some in Hx as [[<- <-]|[_ Hx]]; eauto.
    + rewrite H4. split.
      * intros (sx & Hx & Hh). exists sx. by rewrite lookup_insert_ne by congruence.
      * intros (sx & Hx & Hh). apply lookup_insert_Some in Hx as [[<- <-]|[_ Hx]]; [by cbn in Hh|eauto].
  - assert (forall x sx, sesss σ !! x = Some sx -> s_home sx = use_head u -> s_id sx <> id) as Hfr.
    { intros x sx Hx Hh. eapply find_id_None; [done| |done]. apply H4. eauto. }
    intros x y sx sy. rewrite E1. intros Hx Hy Eh Ei.
    apply lookup_insert_Some in Hx as [[<- <-]|[_ Hx]]; apply lookup_insert_Some in Hy as [[<- <-]|[_ Hy]]; try done.
    + cbn in Eh, Ei. by destruct (Hfr y sy).
    + cbn in Eh, Ei. by destruct (Hfr x sx).
    + eauto.
  - intros c. rewrite E3, (sc_dying _ _ HS'), (fmap_list_some _ _ _ E7). apply H6.
  - destruct H7 as [S1 S2 S3 S4]. split; rewrite ?E4, ?E5, ?(sc_single _ _ HS'); try done.
    intros tk c t Hin He. destruct (sc_entry _ _ HS' _ _ _ Hin He) as (tk' & Hin' & He'). eauto.
  - intros t. rewrite (sc_nsec _ _ HS'). apply H8.
  - intros t. unfold recursion_of in *. rewrite E6, (sc_rec _ _ HS'). apply H9.
Qed.

Lemma wp_alloc_session σ u p F Q :
  Inv σ ([TUse u] ++ F) -> Q (ROk None) σ -> (forall e, e <> TEE_SUCCESS -> Q (ROk (Some e)) σ) ->
  (forall σ', Inv σ' ([TOpn p u KNone true] ++ F) -> Q (ROk (Some TEE_SUCCESS)) σ') ->
  wp (alloc_session p (use_head u)) Q σ.
Proof.
  intros HI Q1 Q2 Q3. unfold alloc_session. act_step lk. act_step lk.
  destruct ((p =? 0) || _)%bool eqn:Hp; [by act_step lk|]. apply orb_false_iff in Hp as [_ Hp%bool_decide_eq_false].
  apply eq_None_not_Some in Hp.
  assert (use_ok ([TUse u] ++ F) u) as Hu by (apply (inv_tok _ _ HI (TUse u)); left).
  assert (forall c, use_head u = LCtx c -> is_Some (ctxs σ !! c)) as Hal by (intros c Hc; by eapply use_alive).
  assert (rd_head (use_head u) σ = (ROk (sessions_of (use_head u) σ), σ)) as Er.
  { destruct (use_head u) as [|c]; [done|]. destruct (Hal c eq_refl) as [cx Hcx]. cbn. unfold rd_ctx. by rewrite Hcx. }
  apply wp_bind. unfold wp at 1. rewrite Er. cbn [cont fst snd].
  set (id := new_session_id _ _). destruct (Z.eqb_spec id 0) as [|Hid]; [by act_step lk; apply Q2|].
  assert (find_id (sesss σ) id (sessions_of (use_head u) σ) = None) as Hfr by (apply new_id_loop_fresh, Hid). clearbody id.
  act_step lk. act_step lk. set (σ1 := set_opening _ _).
  assert (exists σ2, set_sessions_of (use_head u) (sessions_of (use_head u) σ ++ [p]) σ1 = (ROk tt, σ2) /\
    sesss σ2 = sesss σ1 /\ opening σ2 = opening σ1 /\ but_sessions σ σ2 /\
    (forall l, sessions_of l σ2 = if decide (l = use_head u) then sessions_of l σ ++ [p] else sessions_of l σ)) as (σ2 & E2 & S1 & S2 & S3 & S4).
  { destruct (use_head u) as [|c].
    - eexists. split; [reflexivity|]. split_and!; try done. intros [|c']; cbn; [done|by rewrite decide_False].
    - destruct (Hal c eq_refl) as [cx Hcx]. cbn. unfold wr_ctx. cbn. rewrite Hcx. eexists. split; [reflexivity|]. split_and!; try done.
      + unfold but_sessions. split_and!; try done. intros x. cbn.
        destruct (decide (x = c)) as [->|Hne]; [by rewrite lookup_insert_eq, Hcx|by rewrite lookup_insert_ne].
      + intros [|c']; cbn; [by rewrite decide_False|]. destruct (decide (c' = c)) as [->|Hne].
        * by rewrite lookup_insert_eq, decide_True, Hcx.
        * rewrite lookup_insert_ne by done. by rewrite decide_False by congruence. }
  apply wp_bind. unfold wp at 1. rewrite E2. cbn [cont fst snd]. act_step lk. apply Q3.
  eapply (Inv_add_sess σ σ2 u p id F); try done.
Qed.

(** ** Contexts for a new session *)

Lemma nsess_set x c s se m :
  m !! s = Some se -> s_ctx se = None -> nsess x (<[s := s_set_ctx (Some c) se]> m) = nsess x m + b2z (bool_decide (x = c)).
Proof.
  intros Hs Hc. pose proof (nsess_delete x s (s_set_ctx (Some c) se) (<[s := s_set_ctx (Some c) se]> m) (lookup_insert_eq _ _ _)) as H1.
  pose proof (nsess_delete x s se m Hs) as H2. rewrite delete_insert_eq in H1. rewrite Hc in H2. cbn [s_set_ctx s_ctx] in H1.
  rewrite H1, H2. rewrite (bool_decide_eq_false_2 (None = Some x)) by done.
  replace (bool_decide (Some c = Some x)) with (bool_decide (x = c)) by (apply bool_decide_ext; naive_solver). cbn. lia.
Qed.

Lemma nsess_unset x c s se m :
  m !! s = Some se -> s_ctx se = Some c -> nsess x (<[s := s_set_ctx None se]> m) = nsess x m - b2z (bool_decide (x = c)).
Proof.
  intros Hs Hc. pose proof (nsess_delete x s (s_set_ctx None se) (<[s := s_set_ctx None se]> m) (lookup_insert_eq _ _ _)) as H1.
  pose proof (nsess_delete x s se m Hs) as H2. rewrite delete_insert_eq in H1. rewrite Hc in H2. cbn [s_set_ctx s_ctx] in H1.
  rewrite H1, H2. rewrite (bool_decide_eq_false_2 (None = Some x)) by done.
  replace (bool_decide (Some c = Some x)) with (bool_decide (x = c)) by (apply bool_decide_ext; naive_solver). cbn. lia.
Qed.

Lemma nsess_unique c m s se s' se' :
  nsess c m = 1 -> m !! s = Some se -> s_ctx se = Some c -> m !! s' = Some se' -> s_ctx se' = Some c -> s = s'.
Proof.
  intros Hn Hs Hc Hs' Hc'. destruct (decide (s = s')) as [|Hne]; [done|exfalso].
  pose proof (nsess_delete c s se m Hs) as H. rewrite bool_decide_eq_true_2 in H by done. cbn in H.
  pose proof (nsess_pos c (delete s m) s' se') as Hp. rewrite lookup_delete_ne in Hp by done. specialize (Hp Hs' Hc'). lia.
Qed.

Lemma context_find_Some m uuid l c : tee_ta_context_find m uuid l = Some c -> c ∈ l.
Proof.
  induction l as [|x l IH]; cbn; [done|]. destruct (m !! x) as [cx|]; [destruct (c_uuid cx =? uuid)|]; intros H; simplify_eq;
    [left|right; auto|right; auto].
Qed.

(** The opening frame's token, when only what it knows of the context changes. *)
Lemma ctx_tokens_opn c s u k k' r :
  know_entry k = None -> know_entry k' = None -> ctx_tokens c [TOpn s u k r] [TOpn s u k' r].
Proof.
  intros Hk Hk'. split; intros; unfold same_sess; cnts; rewrite ?no_entry_busy, ?no_entry_single by done; auto.
  in_list H. cbn in H0. congruence.
Qed.

(** A session that is opened gets the context [c], which exists. *)
Lemma Inv_share_ctx σ u s se c cx F :
  Inv σ ([TOpn s u KNone true] ++ F) -> sesss σ !! s = Some se -> ctxs σ !! c = Some cx -> c ∈ tee_ctxes σ ->
  c_is_initializing cx = false ->
  Inv (upd_sess s (s_set_ctx (Some c) se) (set_ctxs (<[c := c_set_ref_count (c_ref_count cx + 1) cx]> (ctxs σ)) σ))
    ([TOpn s u (KCtx c) true] ++ F).
Proof.
  intros HI Hs Hc Hin Hni.
  destruct (inv_tok _ _ HI (TOpn s u KNone true) ltac:(left)) as (Ho & Hu & se' & Hs' & Hh & _ & Hn & _).
  assert (se' = se) as -> by congruence. specialize (Hn eq_refl). pose proof (opening_alone σ s u KNone true [] F HI) as Halone.
  apply (inv_ctxes _ _ HI) in Hin as Hd. destruct Hd as [_ Hdy].
  destruct (inv_ctx _ _ HI c cx Hc) as [C1 C2 C3 C4 C5 C6 C7 C9 C10 C8]. specialize (C2 Hdy).
  assert (use_ok ([TOpn s u (KCtx c) true] ++ F) u) as Hu' by (eapply use_ok_other; [| |exact Hu]; [no_insides|no_dyings]).
  eapply (Inv_ctx_change σ _ [TOpn s u KNone true] _ F c (c_set_ref_count (c_ref_count cx + 1) cx) (Some (s, Some c))).
  - done.
  - split; try done; cbn; [by rewrite Hc|eauto|]. intros x Hx. rewrite nsess_set by done. rewrite bool_decide_eq_false_2 by done. cbn. lia.
  - by apply ctx_tokens_opn.
  - cbn. split; [intros _; cz|done].
  - pose proof (nsess_set c c s se (sesss σ) Hs Hn) as Hns. rewrite bool_decide_eq_true_2 in Hns by done.
    split; cbn [upd_sess set_sesss sesss c_set_ref_count c_ref_count c_busy c_is_initializing c_panicked c_ops c_flags]; try done; try cz; try congruence.
    intros _. cbn [set_ctxs sesss]. cz.
  - intros x sx Hx Hcx. split; [cz|]. cbn. congruence.
  - naive_solver.
  - intros tk Htk. in_list Htk. cbn [tok_ok]. split_and!; [done|done|]. eexists. cbn. rewrite lookup_insert_eq. split_and!; try done.
    eexists. rewrite lookup_insert_eq. done.
  - intros tk Htk. left. cbn. intros E. by apply (Halone tk Htk).
  - intros tk Htk Htc. exists cx. split_and!; try done.
  - intros tk v Htk _. apply use_ok_other; [no_insides|no_dyings].
Qed.

(** What is counted of a context that does not exist. *)
Lemma no_ctx_cnt σ T c f :
  Inv σ T -> ctxs σ !! c = None -> (forall tk, f tk = true -> tk_ctx tk = Some c \/ exists v, tk_use tk = Some v /\ use_head v = LCtx c) ->
  cnt f T = 0.
Proof.
  intros HI Hc Hf. pose proof (cnt_nonneg f T). destruct (Z.eq_dec (cnt f T) 0) as [|Hne]; [done|exfalso].
  destruct (cnt_in f T) as (tk & Hin & Htk); [lia|]. destruct (Hf tk Htk) as [Htc|(v & Hv & Hh)].
  - destruct (tok_ctx_alive σ T tk c HI Hin Htc) as [cx Hcx]. congruence.
  - destruct (use_alive σ T v c HI) as [cx Hcx]; [eapply tok_use_ok; [by apply HI|done]|done|]. congruence.
Qed.

Lemma no_ctx_counts σ T c :
  Inv σ T -> ctxs σ !! c = None ->
  cnt (f_ctx c) T = 0 /\ cnt (f_dying c) T = 0 /\ cnt (f_busy c) T = 0 /\ cnt (f_uses c) T = 0.
Proof.
  intros HI Hc. split_and!; apply (no_ctx_cnt σ T c _ HI Hc); intros tk Hf.
  - left. destruct tk; cbn in *; try done. apply Z.eqb_eq in Hf. by subst.
  - left. destruct tk; cbn in *; try done. apply Z.eqb_eq in Hf. by subst.
  - left. destruct tk as [? k|? ? k ?| | |? []| | |]; cbn in *; try done; [destruct k; cbn in *; try done..|];
      apply andb_true_iff in Hf as [->%Z.eqb_eq _]; done.
  - right. by apply use_of.
Qed.

(** A new context, for a session that is opened. *)
Lemma Inv_new_ctx σ u s se c cx F :
  Inv σ ([TOpn s u KNone true] ++ F) -> sesss σ !! s = Some se -> ctxs σ !! c = None ->
  c_ref_count cx = 1 -> c_busy cx = false -> c_panicked cx = false -> c_open_sessions cx = [] ->
  (is_user_ta (c_ops cx) = true -> is_concurrent cx = false) ->
  (is_user_ta (c_ops cx) = false -> has_flag (c_flags cx) TA_FLAG_INSTANCE_KEEP_ALIVE = true /\
    has_flag (c_flags cx) TA_FLAG_SINGLE_INSTANCE = true /\ c_is_initializing cx = false) ->
  Inv (upd_sess s (s_set_ctx (Some c) se) (set_tee_ctxes (tee_ctxes σ ++ [c]) (set_ctxs (<[c := cx]> (ctxs σ)) σ)))
    ([TOpn s u (if c_is_initializing cx then KInit c else KCtx c) true] ++ F).
Proof.
  intros HI Hs Hc Er Eb Ep El Hus Hps. set (k' := if c_is_initializing cx then KInit c else KCtx c).
  assert (know_entry k' = None) as Hk' by (unfold k'; by destruct (c_is_initializing cx)).
  destruct (inv_tok _ _ HI (TOpn s u KNone true) ltac:(left)) as (Ho & Hu & se' & Hs' & Hh & _ & Hn & _).
  assert (se' = se) as -> by congruence. specialize (Hn eq_refl). pose proof (opening_alone σ s u KNone true [] F HI) as Halone.
  destruct (no_ctx_counts _ _ _ HI Hc) as (X0 & D0 & B0 & U0).
  assert (nsess c (sesss σ) = 0) as N0.
  { pose proof (nsess_nonneg c (sesss σ)). destruct (Z.eq_dec (nsess c (sesss σ)) 0) as [|Hne]; [done|exfalso]. unfold nsess in *.
    assert (size (filter (fun p => s_ctx p.2 = Some c) (sesss σ)) <> 0%nat) as Hsz by lia.
    apply map_size_ne_0_lookup in Hsz as (x & sx & Hx). apply map_lookup_filter_Some in Hx as [Hx Hcx].
    destruct (sk_ctx _ _ _ _ (inv_sess _ _ HI x sx Hx) c Hcx) as (_ & cy & Hcy & _). congruence. }
  pose proof (nsess_set c c s se (sesss σ) Hs Hn) as Hns. rewrite bool_decide_eq_true_2, N0 in Hns by done. cbn in Hns.
  assert (cnt (f_ctx c) ([TOpn s u k' true] ++ F) = 0 /\ cnt (f_dying c) ([TOpn s u k' true] ++ F) = 0 /\
    cnt (f_busy c) ([TOpn s u k' true] ++ F) = 0 /\ cnt (f_uses c) ([TOpn s u k' true] ++ F) = 0) as (X1 & D1 & B1 & U1).
  { split_and!; cnts; rewrite ?no_entry_busy by done; cbn [b2z] in *; lia. }
  assert (use_ok ([TOpn s u k' true] ++ F) u) as Hu' by (eapply use_ok_other; [| |exact Hu]; [no_insides|no_dyings]).
  eapply (Inv_ctx_change σ _ [TOpn s u KNone true] _ F c cx (Some (s, Some c))).
  - done.
  - split; try done; cbn; [by rewrite Hc|eauto| |].
    + intros x Hx. rewrite elem_of_app, list_elem_of_singleton. naive_solver.
    + intros x Hx. rewrite nsess_set by done. rewrite bool_decide_eq_false_2 by done. cbn. lia.
  - by apply ctx_tokens_opn.
  - cbn. rewrite elem_of_app, list_elem_of_singleton. split; auto.
  - split; rewrite ?X1, ?D1, ?B1, ?U1; cbn [upd_sess set_sesss set_tee_ctxes set_ctxs sesss]; rewrite ?Hns, ?Er, ?Eb; try done; try lia.
  - intros x sx Hx Hcx. split; [done|]. intros _. cbn in Hx. apply lookup_insert_Some in Hx as [[<- <-]|[_ Hx]]; [done|].
    destruct (sk_ctx _ _ _ _ (inv_sess _ _ HI x sx Hx) c Hcx) as (_ & cy & Hcy & _). congruence.
  - naive_solver.
  - intros tk Htk. in_list Htk. cbn [tok_ok]. split_and!; [done|done|]. eexists. cbn. rewrite lookup_insert_eq. split_and!; try done.
    + unfold k'. destruct (c_is_initializing cx) eqn:Ei; (split; [done|]); exists cx; cbn; by rewrite lookup_insert_eq.
    + unfold k'. by destruct (c_is_initializing cx).
    + unfold k'. by destruct (c_is_initializing cx).
  - intros tk Htk. left. cbn. intros E. by apply (Halone tk Htk).
  - intros tk Htk Htc. destruct (tok_ctx_alive σ _ tk c HI ltac:(by apply in_right) Htc) as [cy Hcy]. congruence.
  - intros tk v Htk _. apply use_ok_other; [no_insides|no_dyings].
Qed.

(** ** Loading *)

(** A context that is being loaded is known to the frame that loads it only. *)
Lemma loading_facts σ s u c F :
  Inv σ ([TOpn s u (KInit c) true] ++ F) ->
  exists se cx, sesss σ !! s = Some se /\ s_ctx se = Some c /\ ctxs σ !! c = Some cx /\ c_is_initializing cx = true /\
    is_user_ta (c_ops cx) = true /\
    nsess c (sesss σ) = 1 /\ cnt (f_ctx c) F = 0 /\ cnt (f_dying c) F = 0 /\ cnt (f_busy c) F = 0 /\
    cnt (f_uses c) F = 0 /\ u_ctx c u = false /\ c ∈ tee_ctxes σ /\
    (forall tk, tk ∈ F -> tk_ctx tk <> Some c) /\ (forall tk, tk ∈ F -> tk_sess tk <> Some s).
Proof.
  intros HI. destruct (inv_tok _ _ HI (TOpn s u (KInit c) true) ltac:(left)) as (Ho & Hu & se & Hs & Hh & (Hc & cx & Hcx & Hi) & _).
  destruct (sk_ctx _ _ _ _ (inv_sess _ _ HI s se Hs) c Hc) as (D & _).
  destruct (inv_ctx _ _ HI c cx Hcx) as [C1 C2 C3 C4 C5 C6 C7 C9 C10 C8]. destruct (C5 Hi D) as (N1 & X0 & B0).
  pose proof (cnt_nonneg (f_uses c) F). pose proof (b2z_range (u_ctx c u)) as Hbu.
  assert (cnt (f_ctx c) F = 0 /\ cnt (f_dying c) F = 0 /\ cnt (f_busy c) F = 0 /\ cnt (f_uses c) F = 0 /\ b2z (u_ctx c u) = 0) as (X1 & D1 & B1 & U1 & U2).
  { cnts. cbn [b2z] in *. lia. }
  pose proof (opening_alone σ s u (KInit c) true [] F HI) as Halone.
  exists se, cx. split_and!; try done.
  - destruct (is_user_ta (c_ops cx)); [done|]. destruct (C9 eq_refl) as (_ & _ & ?). congruence.
  - by destruct (u_ctx c u).
  - apply (inv_ctxes _ _ HI). split; [eauto|done].
  - intros tk Hin Htc. pose proof (inv_tok _ _ HI tk ltac:(by apply in_right)) as Hok.
    assert (forall f, f tk = true -> 1 <= cnt f F) as Hp by (intros f Hf; by eapply cnt_pos).
    assert (forall s' k, tk_sess tk = Some s' -> know_ctx k = Some c -> (exists se, sesss σ !! s' = Some se /\ know_ok σ k (s_ctx se)) -> False) as Hk.
    { intros s' k Hts Hkc (se' & Hse' & Hkn). assert (s_ctx se' = Some c) as Hc' by (destruct k; cbn in *; naive_solver).
      assert (s = s') as <- by (by eapply (nsess_unique c (sesss σ))). by apply (Halone tk Hin). }
    destruct tk as [s' k|s' u' k r|s' u' d|u'|c' e|c'|c' t' s'|t']; cbn in Htc, Hok; simplify_eq.
    + eapply (Hk s' k); [done|done|]. naive_solver.
    + eapply (Hk s' k); [done|done|]. naive_solver.
    + specialize (Hp (f_uses c)). destruct u'; cbn in *; simplify_eq; cz.
    + specialize (Hp (f_uses c)). destruct u'; cbn in *; simplify_eq; cz.
    + specialize (Hp (f_ctx c)). cz.
    + specialize (Hp (f_dying c)). cz.
    + specialize (Hp (f_uses c)). cz.
Qed.

Lemma act_set_flags s u c fl (Φ : post unit) :
  has_flag fl TA_FLAG_CONCURRENT = false -> Φ tt [TOpn s u (KInit c) true] ->
  act_safe [TOpn s u (KInit c) true] (wr_ctx c (c_set_flags fl)) Φ.
Proof.
  intros Hfl HΦ. apply act_safe_wp. intros σ F HI.
  destruct (loading_facts _ _ _ _ _ HI) as (se & cx & Hs & Hc & Hcx & Hi & Hus & N1 & X1 & D1 & B1 & U1 & U2 & Hin & Hno & Hal).
  destruct (inv_tok _ _ HI (TOpn s u (KInit c) true) ltac:(left)) as (Ho & Hu & _).
  destruct (inv_ctx _ _ HI c cx Hcx) as [C1 C2 C3 C4 C5 C6 C7 C9 C10 C8].
  act_step lk. eexists. split; [|exact HΦ].
  eapply (Inv_ctx_change σ _ _ _ F c (c_set_flags fl cx) None).
  - exact HI.
  - split; try done. cbn. by rewrite Hcx.
  - by apply ctx_tokens_opn.
  - cbn. split; [intros _; cz|done].
  - split; cbn; try done; [congruence]. 
  - intros x sx Hx Hxc. split; [cz|]. intros _. assert (s = x) as <- by (by eapply (nsess_unique c (sesss σ))). done.
  - done.
  - intros tk Htk. in_list Htk. cbn [tok_ok]. split_and!; [done|done|]. exists se. rewrite Hc. cbn. split_and!; try done.
    + destruct (inv_tok _ _ HI (TOpn s u (KInit c) true) ltac:(left)) as (_ & _ & se' & Hs' & Hh & _). congruence.
    + exists (c_set_flags fl cx). by rewrite lookup_insert_eq.
  - auto.
  - intros tk Htk Htc. by destruct (Hno tk Htk).
  - intros tk v Htk _. done.
Qed.

Lemma act_init_done s u c (Φ : post unit) :
  Φ tt [TOpn s u (KCtx c) true] ->
  act_safe [TOpn s u (KInit c) true] (wr_ctx c (c_set_initializing false)) Φ.
Proof.
  intros HΦ. apply act_safe_wp. intros σ F HI.
  destruct (loading_facts _ _ _ _ _ HI) as (se & cx & Hs & Hc & Hcx & Hi & Hus & N1 & X1 & D1 & B1 & U1 & U2 & Hin & Hno & Hal).
  destruct (inv_tok _ _ HI (TOpn s u (KInit c) true) ltac:(left)) as (Ho & Hu & se' & Hs' & Hh & _).
  destruct (inv_ctx _ _ HI c cx Hcx) as [C1 C2 C3 C4 C5 C6 C7 C9 C10 C8].
  assert (use_ok ([TOpn s u (KCtx c) true] ++ F) u) as Hu' by (eapply use_ok_other; [| |exact Hu]; [no_insides|no_dyings]).
  act_step lk. eexists. split; [|exact HΦ].
  eapply (Inv_ctx_change σ _ [TOpn s u (KInit c) true] _ F c (c_set_initializing false cx) None).
  - exact HI.
  - split; try done. cbn. by rewrite Hcx.
  - by apply ctx_tokens_opn.
  - cbn. split; [intros _; cz|done].
  - split; cbn; try done; try cz. intros Hps. congruence.
  - intros x sx Hx Hxc. split; [cz|]. done.
  - done.
  - intros tk Htk. in_list Htk. cbn [tok_ok]. split_and!; [done|done|]. exists se. rewrite Hc. cbn. split_and!; try done; [congruence|].
    exists (c_set_initializing false cx). by rewrite lookup_insert_eq.
  - auto.
  - intros tk Htk Htc. by destruct (Hno tk Htk).
  - intros tk v Htk _. apply use_ok_other; [no_insides|no_dyings].
Qed.

Lemma act_init_failed s u c t (Φ : post unit) :
  Φ tt [TOpn s u KNone true; TDying c; TUse (UDying c t)] ->
  act_safe [TOpn s u (KInit c) true]
    (wr_sess s (s_set_ctx None) ;; modify (fun σ => set_tee_ctxes (list_remove_elem c (tee_ctxes σ)) σ)) Φ.
Proof.
  intros HΦ. apply act_safe_wp. intros σ F HI.
  destruct (loading_facts _ _ _ _ _ HI) as (se & cx & Hs & Hc & Hcx & Hi & Hus & N1 & X1 & D1 & B1 & U1 & U2 & Hin & Hno & Hal).
  destruct (inv_tok _ _ HI (TOpn s u (KInit c) true) ltac:(left)) as (Ho & Hu & se' & Hs' & Hh & _).
  destruct (inv_ctx _ _ HI c cx Hcx) as [C1 C2 C3 C4 C5 C6 C7 C9 C10 C8].
  assert (se' = se) as -> by congruence. clear Hs'.
  pose proof (nsess_unset c c s se (sesss σ) Hs Hc) as Hns. rewrite bool_decide_eq_true_2, N1 in Hns by done. cbn in Hns.
  assert (use_ok ([TOpn s u KNone true; TDying c; TUse (UDying c t)] ++ F) u) as Hu' by (eapply use_ok_other; [| |exact Hu]; [no_insides|no_dyings]).
  repeat act_step lk. eexists. split; [|exact HΦ].
  eapply (Inv_ctx_change σ _ [TOpn s u (KInit c) true] _ F c cx (Some (s, None))).
  - exact HI.
  - split; try done; cbn.
    + by rewrite insert_id.
    + by rewrite Hcx.
    + eauto.
    + intros x Hx. unfold list_remove_elem. rewrite list_elem_of_filter. tauto.
    + intros x Hx. change (nsess x (<[s := s_set_ctx None se]> (sesss σ)) = nsess x (sesss σ)). rewrite (nsess_unset x c s se (sesss σ) Hs Hc). rewrite bool_decide_eq_false_2 by done. cbn. lia.
  - split; intros; unfold same_sess; cnts; eqbs; cbn [b2z]; try congruence; try lia; auto.
    in_list H; done.
  - cbn. unfold list_remove_elem. rewrite list_elem_of_filter. split; [by intros []|]. cz.
  - split; cbn [set_tee_ctxes set_sesss sesss]; rewrite ?Hns; try done; rewrite ?U2 in *; try cz; try (intros; congruence).
  - intros x sx Hx Hxc. exfalso. cbn in Hx. pose proof (nsess_pos c _ _ _ Hx Hxc). lia.
  - naive_solver.
  - intros tk Htk. in_list Htk; cbn [tok_ok].
    + split_and!; [done|done|]. eexists. cbn. rewrite lookup_insert_eq. split_and!; try done.
    + cbn. by rewrite Hcx.
    + right. left.
  - intros tk Htk. left. cbn. intros E. by apply (Hal tk Htk).
  - intros tk Htk Htc. by destruct (Hno tk Htk).
  - intros tk v Htk _. apply use_ok_other; [no_insides|no_dyings].
Qed.

(** ** The steps of [tee_ta_init_session] *)

(** What a step that is to give the session a context leaves. *)
Definition inited (s : Z) (u : use) (res : Z) (R : list token) : Prop :=
  if res =? TEE_SUCCESS then exists c, R = [TOpn s u (KCtx c) true] else R = [TOpn s u KNone true].

Lemma wp_init_with_context σ s u uuid F :
  Inv σ ([TOpn s u KNone true] ++ F) -> context_ready uuid σ = true ->
  wp (tee_ta_init_session_with_context s uuid) (act_post F (inited s u)) σ.
Proof.
  intros HI Hr. unfold tee_ta_init_session_with_context, context_ready in *. do 4 act_step lk.
  destruct (tee_ta_context_find _ _ _) as [c|] eqn:Ef; [|wp_step; eexists; split; [exact HI|done]].
  apply context_find_Some in Ef. apply (inv_ctxes _ _ HI) in Ef as Hc. destruct Hc as [[cx Hcx] HD]. rewrite Hcx in Hr.
  destruct (inv_tok _ _ HI (TOpn s u KNone true) ltac:(left)) as (Ho & Hu & se & Hs & _).
  assert (c_is_initializing cx = false) as Hi.
  { destruct (is_user_ta (c_ops cx)) eqn:Eo; [by destruct (c_is_initializing cx)|]. by apply (inv_ctx _ _ HI c cx Hcx). }
  do 2 act_step lk. destruct (negb (has_flag _ _)); [wp_step; eexists; split; [exact HI|done]|].
  do 2 act_step lk. destruct (negb (has_flag _ _) && _); [wp_step; eexists; split; [exact HI|done]|].
  repeat act_step lk. eexists. split; [|exists c; reflexivity].
  by apply (Inv_share_ctx σ u s se c cx F).
Qed.

Lemma safe_init_session_locked t p u uuid (Q : post (Z * bool)) :
  (forall res, res <> TEE_SUCCESS -> Q (res, false) [TUse u]) ->
  (forall res R, inited p u res R -> Q (res, true) R) ->
  safe t [TUse u] (init_session_locked p (use_head u) uuid) Q.
Proof.
  intros HQ1 HQ2. apply safe_locked_wait. intros σ F HI. do 2 apply wp_bind.
  assert (forall σ' F, Inv σ' ([TOpn p u KNone true] ++ F) -> context_ready uuid σ' = true ->
    wp (r ← tee_ta_init_session_with_context p uuid; mret (r, true)) (act_post F (Q : post (Z * bool))) σ') as Hw.
  { intros σ' F' HI' Hr. apply wp_bind. eapply wp_mono; [by apply wp_init_with_context|].
    intros [res|e|] σ2; cbn [act_post cont]; [|done|done]. intros (R & HR & Hin). wp_step. exists R. auto. }
  eapply (wp_alloc_session σ u p F); [done|..]; cbn [cont].
  - wp_step. eexists. split; [exact HI|]. by apply HQ1.
  - intros e He. rewrite (proj2 (Z.eqb_neq _ _) He). wp_step. eexists. split; [exact HI|]. by apply HQ1.
  - intros σ' HI'. cbn. wp_step. cbn [cont]. do 2 wp_step. wp_step.
    + eapply wp_mono; [by apply Hw|]. intros [r|e|] σ2; cbn [act_post cont]; [|done|done].
      intros (R & HR & Hin). wp_step. exists R. auto.
    + wp_step. eexists. split; [exact HI'|]. apply await_safe_wp. auto.
Qed.

(** What [add_ctx] leaves a session that has no context. *)
Definition added (s : Z) (u : use) (c : Z) (cx : tee_ta_ctx) (b : bool) (R : list token) : Prop :=
  R = [TOpn s u (if b then if c_is_initializing cx then KInit c else KCtx c else KNone) true].

Lemma act_add_ctx s u c cx (Φ : post bool) :
  c_ref_count cx = 1 -> c_busy cx = false -> c_panicked cx = false -> c_open_sessions cx = [] ->
  (is_user_ta (c_ops cx) = true -> is_concurrent cx = false) ->
  (is_user_ta (c_ops cx) = false -> has_flag (c_flags cx) TA_FLAG_INSTANCE_KEEP_ALIVE = true /\
    has_flag (c_flags cx) TA_FLAG_SINGLE_INSTANCE = true /\ c_is_initializing cx = false) ->
  (forall b R, added s u c cx b R -> Φ b R) ->
  act_safe [TOpn s u KNone true] (add_ctx c cx s) Φ.
Proof.
  intros H1 H2 H3 H4 H5 H6 HΦ. apply act_safe_wp. intros σ F HI. unfold add_ctx. do 2 act_step lk.
  destruct (inv_tok _ _ HI (TOpn s u KNone true) ltac:(left)) as (Ho & Hu & se & Hs & _).
  destruct (c =? 0); cbn [orb]; [wp_step; eexists; split; [exact HI|by apply HΦ]|].
  destruct (bool_decide _) eqn:E; [wp_step; eexists; split; [exact HI|by apply HΦ]|].
  apply bool_decide_eq_false in E. rewrite <- eq_None_not_Some in E. repeat act_step lk.
  eexists. split; [|by apply HΦ]. by apply (Inv_new_ctx σ u s se c cx F).
Qed.

(** The opening frame removes the session again. *)
Lemma act_remove_opening s u (Φ : post unit) :
  Φ tt [TUse u] -> act_safe [TOpn s u KNone true] (remove_session s (use_head u)) Φ.
Proof.
  intros HΦ. apply act_safe_wp. intros σ F HI.
  destruct (inv_tok _ _ HI (TOpn s u KNone true) ltac:(left)) as (Ho & Hu & se & Hs & Hh & _ & Hn & _).
  specialize (Hn eq_refl).
  eapply wp_remove_session; [done|intros c Hc; by eapply use_alive|].
  intros σ' E1 E2 E3 E4. exists [TUse u]. split; [|done].
  assert (forall v, use_ok ([TOpn s u KNone true] ++ F) v -> use_ok ([TUse u] ++ F) v) as HU.
  { intros v. apply use_ok_other; [no_insides|no_dyings]. }
  eapply (Inv_remove_sess σ σ' _ [TUse u] F s se); try done.
  - by rewrite Hh.
  - congruence.
  - intros x Hx. unfold same_sess; cnts; eqbs; cbn; try congruence; auto.
  - split; intros; cnts; rewrite ?Hn; cbn [b2z]; try lia; [by rewrite bool_decide_eq_false_2|]. in_list H; done.
  - intros tk Htk. in_list Htk. by apply HU.
  - by eapply opening_alone.
  - intros tk v _ _. apply HU.
Qed.

(** The opening is over. *)
Lemma act_publish s u c (Φ : post Z) :
  (forall i, Φ i [TUse u]) -> act_safe [TOpn s u (KCtx c) false] (publish s) Φ.
Proof.
  intros HΦ. apply act_safe_wp. intros σ F HI. unfold publish.
  destruct (inv_tok _ _ HI (TOpn s u (KCtx c) false) ltac:(left)) as (Ho & Hu & se & Hs & Hh & Hk & _).
  destruct (inv_sess _ _ HI s se Hs) as [K1 K2 K3 K4 K5 K0 K6]. destruct (K2 Ho) as (K7 & K8 & K9).
  destruct Hk as (Hc & cx & Hcx & Hi).
  repeat act_step lk. eexists. split; [|apply HΦ].
  assert (cnt (f_opn s) F = 0) as HF by (rewrite bool_decide_eq_true_2 in K3 by done; cz).
  assert (forall v, use_ok ([TOpn s u (KCtx c) false] ++ F) v -> use_ok ([TUse u] ++ F) v) as HU.
  { intros v. apply use_ok_other; [no_insides|no_dyings]. }
  eapply (Inv_sess_step σ _ _ [TUse u] F s se se); try done.
  - cbn. by rewrite insert_id.
  - cbn. set_solver.
  - by apply same_ctx_publish.
  - intros x Hx. unfold same_sess; cnts; eqbs; cbn; try congruence; auto.
  - split; cbn; try cz.
    + set_solver.
    + rewrite bool_decide_eq_false_2 by set_solver. cz.
    + by rewrite K9.
    + congruence.
    + intros c' Hc'. assert (c' = c) as -> by congruence. destruct (K6 c Hc) as (D & cx' & Hcx' & _). split; [cz|]. exists cx. split; [done|]. congruence.
  - intros tk Htk. in_list Htk. by apply HU.
  - by left.
  - by right.
Qed.

(** ** Recursion of system calls *)


(** ** Recursion of system calls *)

(** One level more or less: nothing else is counted in [TRec]. *)
Lemma Inv_rec σ R R' F t n :
  Inv σ (R ++ F) -> R = [] /\ R' = [TRec t] /\ n = recursion_of t σ + 1 \/ R = [TRec t] /\ R' = [] /\ n = recursion_of t σ - 1 ->
  Inv (set_recursion (<[t := n]> (syscall_recursion σ)) σ) (R' ++ F).
Proof.
  intros HI HR.
  assert (forall f, (forall x, f (TRec x) = false) -> cnt f (R' ++ F) = cnt f (R ++ F)) as HC.
  { intros f Hf. destruct HR as [(-> & -> & _)|(-> & -> & _)]; cbn [app]; by rewrite cnt_cons, Hf. }
  assert (forall v, use_ok (R ++ F) v -> use_ok (R' ++ F) v) as HU.
  { intros v. destruct HR as [(-> & -> & _)|(-> & -> & _)]; apply use_ok_other; [no_insides|no_dyings|no_insides|no_dyings]. }
  destruct HI as [H1 H2 H3 H4 H5 H6 H7 H8 H9].
  split; cbn; try done.
  - intros s se Hs. destruct (H1 s se Hs). split; cbn; intros; rewrite ?HC in * by done; auto.
  - intros c cx Hc. destruct (H2 c cx Hc). split; cbn; intros; rewrite ?HC in * by done; auto.
  - intros tk Hin. assert (tk = TRec t \/ tk ∈ R ++ F) as [->|Hin'].
    { rewrite elem_of_app in *. destruct HR as [(-> & -> & _)|(-> & -> & _)]; cbn in *; rewrite ?elem_of_cons, ?elem_of_nil in *; tauto. }
    + done.
    + eapply tok_ok_frame; [by apply H3|..]; cbn; try by eauto 10.
      intros c. by rewrite HC.
  - intros c. rewrite H6, HC by done. done.
  - destruct H7. split; cbn; rewrite ?HC by done; try done. intros tk c x Hin He. eapply so_thread; [|done].
    rewrite elem_of_app in *. destruct HR as [(-> & -> & _)|(-> & -> & _)]; cbn in *; rewrite ?elem_of_cons, ?elem_of_nil in *; [|tauto].
    destruct Hin as [[->|[]]|Hin]; [done|tauto].
  - intros x. rewrite HC by done. apply H8.
  - intros x. specialize (H9 x). unfold recursion_of in *. cbn. destruct (decide (x = t)) as [->|Hne].
    + rewrite lookup_insert_eq. cbn. destruct HR as [(-> & -> & ->)|(-> & -> & ->)]; cz.
    + rewrite lookup_insert_ne, H9 by done. destruct HR as [(-> & -> & _)|(-> & -> & _)]; cnt_lia.
Qed.

Lemma act_inc_recursion t (Φ : post bool) :
  Φ false [] -> Φ true [TRec t] -> act_safe [] (inc_recursion t) Φ.
Proof.
  intros H1 H2. apply act_safe_wp. intros σ F HI. unfold inc_recursion. repeat act_step lk.
  - exists []. auto.
  - eexists. split; [|exact H2]. apply (Inv_rec σ [] [TRec t] F); auto.
Qed.

Lemma act_dec_recursion t (Φ : post unit) : Φ tt [] -> act_safe [TRec t] (dec_recursion t) Φ.
Proof.
  intros H1. apply act_safe_wp. intros σ F HI. unfold dec_recursion. pose proof (inv_rec _ _ HI t) as Hr.
  repeat act_step lk.
  - pose proof (cnt_nonneg (f_rec t) F). assert (recursion_of t σ <> 0) by cz. by rewrite (proj2 (Z.eqb_neq _ _)).
  - exists []. split; [|done]. apply (Inv_rec σ [TRec t] [] F); auto.
Qed.
