(* ===== verification/SessionSafe.v ===== *)
(** * The session manager is safe

    The programs of [Session] are safe programs of [SessionLogic]: with the tokens that go with
    the locks, references and instances a thread holds, no assertion fails and nothing freed is
    used, whatever the other threads do. *)

From S2P Require Import Prelude ErrM Session SessionLogic SessionActs SessionCtx SessionLife.
From stdpp Require Import base gmap list.
From Stdlib Require Import ZArith Lia.

Local Open Scope Z_scope.

(** ** Rules for the steps of a program *)

Lemma safe_ask {A} t R q (k : Z -> prog A) (Q : post A) :
  ask_ok q = true -> (forall a, answer_ok true q a = true -> safe t R (k a) Q) -> safe t R (a ← ask q; k a) Q.
Proof. intros Hq H. apply safe_bind. cbn. split; [done|]. intros a Ha. exists R. auto. Qed.

Lemma safe_ask_last t R q (Q : post Z) :
  ask_ok q = true -> (forall a, answer_ok true q a = true -> Q a R) -> safe t R (ask q) Q.
Proof. intros Hq H. cbn. split; [done|]. intros a Ha. exists R. auto. Qed.

Lemma safe_act_bind {X : Set} {A} t R (m : M st X) (k : X -> prog A) (Q : post A) :
  act_safe R m (fun x R' => safe t R' (k x) Q) -> safe t R (x ← act m; k x) Q.
Proof. intros H. by apply safe_bind, safe_act. Qed.

(** The step concerns the tokens [R0] of the frame. *)
Lemma act_safe_frame {X : Set} R0 R1 (m : M st X) (Φ : post X) :
  act_safe R0 m (fun x R' => Φ x (R' ++ R1)) -> act_safe (R0 ++ R1) m Φ.
Proof.
  intros H σ F HI. rewrite <- app_assoc in HI. specialize (H σ _ HI). destruct (m σ) as [[x|e|] σ']; [|done|done].
  destruct H as (R' & HI' & HΦ). exists (R' ++ R1). by rewrite <- app_assoc.
Qed.

Lemma safe_step {A B} t R R1 R0 (p : prog A) (k : A -> prog B) (Q : post B) :
  R ≡ₚ R0 ++ R1 -> safe t R0 p (fun a R' => safe t (R' ++ R1) (k a) Q) -> safe t R (p ≫= k) Q.
Proof. intros HR H. rewrite HR. eapply safe_use; [exact H|]. auto. Qed.

Lemma safe_step_nil {A B} t R (p : prog A) (k : A -> prog B) (Q : post B) :
  safe t [] p (fun a R' => safe t (R' ++ R) (k a) Q) -> safe t R (p ≫= k) Q.
Proof. by apply (safe_step _ R R []). Qed.

Lemma safe_step_one {A B} t tk R (p : prog A) (k : A -> prog B) (Q : post B) :
  safe t [tk] p (fun a R' => safe t (R' ++ R) (k a) Q) -> safe t (tk :: R) (p ≫= k) Q.
Proof. by apply (safe_step _ _ R [tk]). Qed.

Lemma safe_step_two {A B} t tk tk' R (p : prog A) (k : A -> prog B) (Q : post B) :
  safe t [tk; tk'] p (fun a R' => safe t (R' ++ R) (k a) Q) -> safe t (tk :: tk' :: R) (p ≫= k) Q.
Proof. by apply (safe_step _ _ R [tk; tk']). Qed.

(** Tries the tokens of the list. *)
Ltac each_tok R tac :=
  lazymatch R with ?x :: ?l => first [tac x | each_tok l tac] | ?x ++ ?l => first [each_tok x tac | each_tok l tac] end.
Ltac in_tac := cbn [app]; rewrite ?elem_of_app, ?elem_of_cons; tauto.
Ltac sess_tac := first [reflexivity | apply hold_sess].
Ltac ctx_tac := first [reflexivity | by apply hold_ctx].

Ltac rd_tac :=
  lazymatch goal with
  | |- act_safe ?R (rd_sess _ _) _ => each_tok R ltac:(fun x => refine (act_rd_sess _ _ _ _ x _ _ _); [in_tac|sess_tac|intros ?])
  | |- act_safe ?R (rd_ctx _ c_panicked) _ => each_tok R ltac:(fun x => refine (act_rd_panicked _ _ _ x _ _ _); [in_tac|ctx_tac|])
  | |- act_safe ?R (rd_ctx _ _) _ => each_tok R ltac:(fun x => refine (act_rd_ctx _ _ _ _ x _ _ _); [in_tac|ctx_tac|intros ?])
  | |- act_safe ?R (wr_sess _ _) _ => each_tok R ltac:(fun x => refine (act_wr_sess _ _ _ _ x _ _ _ _); [done|in_tac|sess_tac|])
  end.

(** One step that leaves the tokens alone. *)
Ltac sstep :=
  lazymatch goal with
  | |- safe _ _ (mret _) _ => apply safe_ret
  | |- safe _ _ (Ret _) _ => apply safe_ret
  | |- safe _ _ (ask _ ≫= _) _ => apply safe_ask; [done|intros ? ?]
  | |- safe _ _ (ask _) _ => apply safe_ask_last; [done|intros ? ?]
  | |- safe _ _ (act _ ≫= _) _ => apply safe_act_bind; rd_tac
  | |- safe _ _ (act _) _ => apply safe_act; rd_tac
  | |- safe _ _ (mret _ ≫= _) _ => apply safe_bind, safe_ret
  | |- safe _ _ (if ?b then _ else _) _ => destruct b eqn:?
  end.
Ltac ssteps := repeat sstep.

Section programs.
Context (pseudo_tas : list pseudo_ta_head) (t : Z).

Notation safe := (safe t).

(** *** Time *)

Lemma safe_set_invoke_timeout R s to tk (Q : post unit) :
  tk ∈ R -> tk_sess tk = Some s -> Q tt R -> safe R (set_invoke_timeout s to) Q.
Proof.
  intros H1 H2 HQ. assert (forall d, safe R (act (wr_sess s (s_set_cancel_time d))) Q) as W.
  { intros d. apply safe_act. by eapply act_wr_sess. }
  unfold set_invoke_timeout. sstep; [apply W|]. apply safe_bind. unfold tee_time_get_sys_time. ssteps. apply W.
Qed.

(** Reading the context of a session whose context is known. *)
Lemma act_rd_known_ctx h s k c R (Φ : post (option Z)) :
  know_ctx k = Some c -> Φ (Some c) (hold h s k :: R) -> act_safe (hold h s k :: R) (rd_sess s s_ctx) Φ.
Proof.
  intros Hk HΦ. eapply act_rd_sess_fact; [left|apply hold_sess|]. intros σ F se HI Hs.
  destruct (hold_facts _ _ h s k c HI ltac:(left) Hk) as (se' & cx & Hs' & Hc & _). simplify_eq.
  eexists. split; [exact HI|]. by rewrite Hc.
Qed.

Lemma act_ctx_of_session h s k c R (Φ : post Z) :
  know_ctx k = Some c -> Φ c (hold h s k :: R) -> act_safe (hold h s k :: R) (ctx_of_session s) Φ.
Proof.
  intros Hk HΦ. apply act_safe_wp. intros σ F HI. unfold ctx_of_session.
  destruct (hold_facts _ _ h s k c HI ltac:(left) Hk) as (se' & cx & Hs' & Hc & _). repeat act_step lk.
  rewrite Hc. wp_step. eexists. eauto.
Qed.

(** *** Entering TAs *)

(** The tokens of a frame in an instance: the entry, and the right to work on the TA's list. *)
Definition within (h : holder) (s c : Z) (e : entry) : list token := hold h s (KIn c e) :: ta_use c t s e.

Lemma safe_user_ta_enter h s c sg f (Q : post Z) :
  (forall r, Q r (within h s c (EBusy t sg))) -> safe (within h s c (EBusy t sg)) (user_ta_enter t s f) Q.
Proof.
  intros HQ. unfold user_ta_enter, within. cbn [ta_use].
  apply safe_act_bind. eapply act_ctx_of_session; [done|].
  apply safe_step_nil. apply safe_act, act_inc_recursion; cbn [app].
  { ssteps. apply HQ. }
  sstep. apply safe_bind.
  assert (forall r, Q r [hold h s (KIn c (EBusy t sg)); TUse (UCtx c t s)]) as HQ' by exact HQ. clear HQ.
  assert (forall r (R := [TRec t; hold h s (KIn c (EBusy t sg)); TUse (UCtx c t s)]),
    safe R (act (dec_recursion t) ;; act (wr_sess s (s_set_cancel false)) ;; mret r) Q) as HD.
  { intros r. cbn zeta. apply safe_step_one. apply safe_act, act_dec_recursion. cbn [app]. ssteps. apply HQ'. }
  assert (forall r (R := [TRec t; hold h s (KIn c (EBusy t sg)); TUse (UCtx c t s)]),
    safe R (if r =? TEE_SUCCESS then
      Enter s c f (fun res panicked =>
        (if panicked then act (wr_ctx c (c_set_panicked true)) else mret tt) ;;
        pk ← act (rd_ctx c c_panicked);
        res ← (if (pk : bool) then mret TEE_ERROR_TARGET_DEAD
               else act (wr_sess s (s_set_err_origin TEE_ORIGIN_TRUSTED_APP)) ;; mret res);
        act (dec_recursion t) ;;
        act (wr_sess s (s_set_cancel false)) ;;
        mret res)
    else act (dec_recursion t) ;; act (wr_sess s (s_set_cancel false)) ;; mret r) Q) as HE.
  { intros r. cbn zeta. destruct (r =? TEE_SUCCESS); [|apply HD]. split.
    - exists (hold h s (KIn c (EBusy t sg))), [TRec t]. split; [|apply hold_inside].
      rewrite (Permutation_cons_append [hold h s (KIn c (EBusy t sg)); TUse (UCtx c t s)] (TRec t)). cbn [app].
      apply perm_swap.
    - intros res. cbn iota beta. sstep. sstep. apply safe_bind. ssteps. apply HD. }
  destruct x as [p|]; [sstep|apply safe_ret]; apply HE.
Qed.

Lemma safe_pta_params h s c e (Q : post Z) :
  (forall r, Q r (within h s c e)) -> safe (within h s c e) (pta_params s) Q.
Proof. intros HQ. unfold pta_params, within. sstep. destruct x; ssteps; apply HQ. Qed.

Lemma safe_pseudo_open h s c e p (Q : post Z) :
  (forall r, Q r (within h s c e)) -> safe (within h s c e) (pseudo_ta_enter_open_session p s) Q.
Proof.
  intros HQ. unfold pseudo_ta_enter_open_session. unfold within at 1.
  apply safe_act_bind. eapply act_ctx_of_session; [done|]. do 2 sstep. apply safe_bind.
  assert (forall r, safe (within h s c e)
    (if negb (r =? TEE_SUCCESS) then mret r
     else if has_open p then
       res ← pta_params s;
       if negb (res =? TEE_SUCCESS) then act (wr_sess s (s_set_err_origin TEE_ORIGIN_TEE)) ;; mret res
       else ask (QPtaOpen (pta_uuid p))
     else mret TEE_SUCCESS) Q) as H.
  { intros r. sstep; [sstep; apply HQ|]. sstep; [|sstep; apply HQ]. apply safe_bind, safe_pta_params. intros r'.
    unfold within. ssteps; apply HQ. }
  sstep; [sstep|sstep]; apply H.
Qed.

Lemma safe_pseudo_invoke h s c e p cmd (Q : post Z) :
  (forall r, Q r (within h s c e)) -> safe (within h s c e) (pseudo_ta_enter_invoke_cmd p s cmd) Q.
Proof.
  intros HQ. unfold pseudo_ta_enter_invoke_cmd. unfold within at 1.
  apply safe_act_bind. eapply act_ctx_of_session; [done|]. apply safe_bind, safe_pta_params. intros r.
  unfold within. ssteps; apply HQ.
Qed.

Lemma safe_pseudo_close h s c e p (Q : post unit) :
  Q tt (within h s c e) -> safe (within h s c e) (pseudo_ta_enter_close_session p s) Q.
Proof.
  intros HQ. unfold pseudo_ta_enter_close_session. unfold within at 1.
  apply safe_act_bind. eapply act_ctx_of_session; [done|]. apply safe_bind.
  assert (safe (within h s c e) (n ← act (rd_ctx c c_ref_count);
    if (n =? 1) && has_destroy p then _ ← ask (QPtaDestroy (pta_uuid p)); mret tt else mret tt) Q) as H.
  { unfold within. ssteps; apply HQ. }
  sstep; [do 2 sstep|sstep]; apply H.
Qed.

(** User TAs are not concurrent: their instances are entered one frame at a time. *)
Lemma act_rd_ops h s c e (Φ : post ctx_ops) :
  entry_by t e -> (forall sg, e = EBusy t sg -> Φ user_ta_ops (within h s c e)) ->
  (forall p, Φ (pseudo_ta_ops p) (within h s c e)) -> act_safe (within h s c e) (rd_ctx c c_ops) Φ.
Proof.
  intros He H1 H2. eapply (act_rd_ctx_fact _ _ _ _ (hold h s (KIn c e))); [left|by apply hold_ctx|].
  intros σ F cx HI Hcx. eexists. split; [exact HI|].
  destruct (hold_facts _ _ h s _ c HI ltac:(left) eq_refl) as (se & cx' & _ & _ & Hcx' & _ & Hk). simplify_eq.
  destruct Hk as (_ & cx' & Hcx' & _ & Hok). simplify_eq. pose proof (ck_user _ _ _ _ (inv_ctx _ _ HI c cx Hcx)) as Hu.
  destruct (c_ops cx) as [|p]; [|apply H2]. destruct e as [|t' sg]; cbn in *; [rewrite Hu in Hok; done|]. subst. by eapply H1.
Qed.

Lemma safe_enter_open h s c e (Q : post Z) :
  entry_by t e -> (forall r, Q r (within h s c e)) -> safe (within h s c e) (enter_open_session t s c) Q.
Proof.
  intros He HQ. apply safe_act_bind, act_rd_ops; [done|intros sg ->; by apply safe_user_ta_enter|].
  intros p. by apply safe_pseudo_open.
Qed.

Lemma safe_enter_invoke h s c e cmd (Q : post Z) :
  entry_by t e -> (forall r, Q r (within h s c e)) -> safe (within h s c e) (enter_invoke_cmd t s c cmd) Q.
Proof.
  intros He HQ. apply safe_act_bind, act_rd_ops; [done|intros sg ->; by apply safe_user_ta_enter|].
  intros p. by apply safe_pseudo_invoke.
Qed.

Lemma safe_enter_close h s c e (Q : post unit) :
  entry_by t e -> Q tt (within h s c e) -> safe (within h s c e) (enter_close_session t s c) Q.
Proof.
  intros He HQ. apply safe_act_bind, act_rd_ops; [done| |intros p; by apply safe_pseudo_close].
  intros sg ->. unfold within at 1. apply safe_act_bind. eapply act_ctx_of_session; [done|]. sstep.
  sstep; [by sstep|]. apply safe_bind, safe_user_ta_enter. intros r. by sstep.
Qed.

(** *** Closing *)

Lemma safe_set_busy h s c (Q : post unit) :
  (forall e, entry_by t e -> Q tt (within h s c e)) -> safe [hold h s (KCtx c)] (tee_ta_set_busy t c) Q.
Proof.
  intros HQ. unfold tee_ta_set_busy. apply safe_bind, safe_try_set_busy. intros [] R; cbn [entered].
  - intros (e & He & ->). apply safe_ret. by apply HQ.
  - intros _. apply safe_act. intros σ F _. exact I.
Qed.

Lemma safe_destroy_context c (Q : post unit) :
  Q tt [] -> safe [TDying c; TUse (UDying c t)] (destroy_context c) Q.
Proof.
  intros HQ. apply safe_act_bind. eapply (act_rd_ctx_fact _ _ _ _ (TDying c)); [left|done|].
  intros σ F cx HI Hcx. eexists. split; [exact HI|].
  assert (is_user_ta (c_ops cx) = true) as Hu.
  { pose proof (inv_ctx _ _ HI c cx Hcx) as K. apply (ck_gone _ _ _ _ K). pose proof (ck_dying _ _ _ _ K).
    pose proof (cnt_nonneg (f_dying c) F). cz. }
  destruct (c_ops cx); [|done]. apply (safe_call _ [TDying c; TUse (UDying c t)] [] []); [by constructor|].
  intros _. by apply safe_ret.
Qed.

(** The end of closing: the context's reference goes, and perhaps the context. *)
Lemma safe_release c u (Q : post Z) :
  (forall r, Q r [TUse u]) ->
  safe [TCtx c None; TUse u]
    (dead ← act (put_ctx c); (if (dead : bool) then destroy_context c else mret tt) ;; mret TEE_SUCCESS) Q.
Proof.
  intros HQ. apply safe_step_one, safe_act, (act_put_ctx t); cbn [app].
  - sstep. sstep. apply HQ.
  - apply safe_step_two, safe_destroy_context. sstep. apply HQ.
Qed.

(** Closing a session that was found and locked. *)
Lemma safe_close_locked s u c (Q : post Z) :
  use_thread u = t -> (forall r, Q r [TUse u]) ->
  safe [TRef s (KCtx c); TLock s u false]
    (pk ← act (rd_ctx c c_panicked);
     (if (pk : bool) then destroy_session t s (use_head u)
      else
        tee_ta_set_busy t c ;;
        set_invoke_timeout s TEE_TIMEOUT_INFINITE ;;
        enter_close_session t s c ;;
        destroy_session t s (use_head u) ;;
        tee_ta_clear_busy t c) ;;
     dead ← act (put_ctx c);
     (if (dead : bool) then destroy_context c else mret tt) ;;
     mret TEE_SUCCESS) Q.
Proof.
  intros Hu HQ. sstep. apply safe_bind. apply safe_step_one, (safe_set_busy HRef). intros e He.
  apply safe_bind. eapply (safe_set_invoke_timeout _ s _ (hold HRef s (KIn c e))); [by left|done|].
  eapply safe_step; [reflexivity|]. apply safe_enter_close; [done|].
  eapply (safe_step _ _ []); [|eapply (safe_destroy_session _ s u c e); [done|done|]].
  { unfold within. cbn [app hold]. rewrite app_nil_r, (Permutation_app_comm (ta_use c t s e)). reflexivity. }
  cbn [app]. rewrite (perm_swap (TCtx c (Some e)) (TUse u)).
  pose proof (safe_clear_busy t c e [TCtx c (Some e)] [TCtx c None] (fun _ R => R = [TCtx c None])) as HC.
  eapply safe_mono; [eapply (safe_frame _ [TCtx c (Some e)] [TUse u]), HC; [constructor|done|done]|].
  cbv beta. intros _ R (R0 & HR & ->). rewrite HR. by apply safe_release.
Qed.

(** What [tee_ta_close_session] does with the session it found. *)
Definition close_found (l : session_head) (clnt_id : client) (os : option Z) : prog Z :=
  match os with
  | None => mret TEE_ERROR_ITEM_NOT_FOUND
  | Some s =>
      owner ← act (rd_sess s s_clnt_id);
      if negb (check_client owner clnt_id =? TEE_SUCCESS) then
        tee_ta_put_session t s ;; mret TEE_ERROR_BAD_PARAMETERS
      else
        oc ← act (rd_sess s s_ctx);
        match oc with
        | None => destroy_session t s l ;; mret TEE_SUCCESS
        | Some c =>
            pk ← act (rd_ctx c c_panicked);
            (if (pk : bool) then destroy_session t s l
             else
               tee_ta_set_busy t c ;;
               set_invoke_timeout s TEE_TIMEOUT_INFINITE ;;
               enter_close_session t s c ;;
               destroy_session t s l ;;
               tee_ta_clear_busy t c) ;;
            dead ← act (put_ctx c);
            (if (dead : bool) then destroy_context c else mret tt) ;;
            mret TEE_SUCCESS
        end
  end.

Lemma safe_close_found u cl os R (Q : post Z) :
  use_thread u = t -> got u os R -> (forall r, Q r [TUse u]) -> safe R (close_found (use_head u) cl os) Q.
Proof.
  intros Hu HR HQ. destruct os as [s|]; cbn [got] in HR; subst R; [|by apply safe_ret].
  unfold close_found. do 2 sstep.
  - apply safe_bind, safe_put_locked; [done|done|]. by apply safe_ret.
  - apply safe_act_bind, act_rd_session_ctx; [done|]. intros c. by apply safe_close_locked.
Qed.

Lemma safe_close_client csess u cl (Q : post Z) :
  is_kernel cl = false -> use_thread u = t -> (forall r, Q r [TUse u]) ->
  safe [TUse u] (tee_ta_close_session true t csess (use_head u) cl) Q.
Proof.
  intros Hcl Hu HQ. destruct csess as [cs|]; [|by apply safe_ret]. cbn [tee_ta_close_session].
  apply safe_act_bind, act_csess_client; [done|]. intros id. apply safe_bind, safe_get; [split; auto|].
  intros os R HR. by apply (safe_close_found u cl os).
Qed.

Lemma safe_close_peek c s (Q : post Z) :
  (forall r, Q r [TUse (UDying c t)]) ->
  safe [TPeek c t (Some s)] (tee_ta_close_session true t (Some s) (LCtx c) KERN_IDENTITY) Q.
Proof.
  intros HQ. cbn [tee_ta_close_session]. apply safe_act_bind, act_csess_peek. intros id.
  apply safe_bind, (safe_get _ _ (UDying c t)); [split; eauto|].
  intros os R HR. by apply (safe_close_found (UDying c t) KERN_IDENTITY os).
Qed.

Lemma safe_close_opening s u c (Q : post Z) :
  use_thread u = t -> (forall r, Q r [TUse u]) ->
  safe [TOpn s u (KCtx c) false] (tee_ta_close_session true t (Some s) (use_head u) KERN_IDENTITY) Q.
Proof.
  intros Hu HQ. cbn [tee_ta_close_session]. apply safe_act_bind, act_csess_opening. intros id.
  apply safe_bind. rewrite <- Hu. apply safe_get_opening. rewrite Hu. sstep. cbn [check_client negb Z.eqb].
  apply safe_act_bind, act_rd_session_ctx; [done|]. intros c'. by apply safe_close_locked.
Qed.

Lemma safe_free_utc c (Q : post reply) :
  (forall r, Q r []) -> safe [TDying c; TUse (UDying c t)] (free_utc c) Q.
Proof.
  intros HQ. unfold free_utc. apply safe_act_bind, (act_peek t c).
  - apply safe_act_bind, (act_free_ctx t). sstep. apply HQ.
  - intros s l. rewrite (perm_swap (TPeek c t (Some s)) (TDying c)).
    apply (safe_call _ [TPeek c t (Some s)] [TUse (UDying c t)] [TDying c]); [constructor|]. intros _. cbn [app].
    rewrite (perm_swap (TDying c) (TUse (UDying c t))).
    apply (safe_call _ [TDying c; TUse (UDying c t)] [] []); [constructor|]. intros r. cbn [app]. by apply safe_ret.
Qed.

Lemma body_safe p R R' : proc_spec t p R R' -> safe R (proc_body true t p) (fun _ R2 => R2 ≡ₚ R').
Proof.
  intros H. destruct H as [csess cl u Hcl Hu|c s|s u c Hu|c]; cbn [proc_body].
  - apply safe_bind, safe_close_client; [done|done|]. intros r. by sstep.
  - apply safe_bind, safe_close_peek. intros r. by sstep.
  - apply safe_bind, safe_close_opening; [done|]. intros r. by sstep.
  - by apply safe_free_utc.
Qed.

(** *** Opening *)

(** The mandatory flags of a pseudo TA that passed the check at boot. *)
Lemma conforming_flags p l :
  verify_pseudo_tas_conformance l = true -> p ∈ l ->
  has_flag (pta_flags p) TA_FLAG_INSTANCE_KEEP_ALIVE = true /\ has_flag (pta_flags p) TA_FLAG_SINGLE_INSTANCE = true.
Proof.
  induction l as [|q l IH]; [by intros _ ?%elem_of_nil|]. cbn [verify_pseudo_tas_conformance].
  rewrite !andb_true_iff, !negb_true_iff, !orb_false_iff. intros [[_ [[[_ Hf] _] _]] Hl]. intros [->|Hp]%elem_of_cons; [|auto].
  apply negb_false_iff, Z.eqb_eq in Hf.
  change TA_FLAG_INSTANCE_KEEP_ALIVE with (2 ^ 4). change TA_FLAG_SINGLE_INSTANCE with (2 ^ 2).
  rewrite !has_flag_testbit by lia.
  split; [apply (f_equal (fun x => Z.testbit x 4)) in Hf|apply (f_equal (fun x => Z.testbit x 2)) in Hf];
    rewrite Z.land_spec in Hf; cbn in Hf; by apply andb_true_iff in Hf as [? _].
Qed.

Context (Hptas : verify_pseudo_tas_conformance pseudo_tas = true).

Lemma inited_failed s u res : res <> TEE_SUCCESS -> inited s u res [TOpn s u KNone true].
Proof. intros H. unfold inited. by rewrite (proj2 (Z.eqb_neq _ _) H). Qed.

Lemma safe_init_pseudo uuid s u (Q : post Z) :
  (forall r R, inited s u r R -> Q r R) ->
  safe [TOpn s u KNone true] (tee_ta_init_pseudo_ta_session pseudo_tas uuid s) Q.
Proof.
  intros HQ. unfold tee_ta_init_pseudo_ta_session, find_pta.
  destruct (List.find _ _) as [p|] eqn:Ef; [|apply safe_ret, HQ; by apply inited_failed].
  apply List.find_some in Ef as [Hp _]. apply list_elem_of_In in Hp. destruct (conforming_flags p _ Hptas Hp) as [F1 F2].
  sstep. apply safe_act_bind, (act_add_ctx s u); try done.
  intros [] R ->; cbn [c_is_initializing]; apply safe_ret, HQ; [by eexists|by apply inited_failed].
Qed.

Lemma safe_init_user uuid s u (Q : post Z) :
  (forall r R, inited s u r R -> Q r R) ->
  safe [TOpn s u KNone true] (tee_ta_init_user_ta_session uuid s) Q.
Proof.
  intros HQ. unfold tee_ta_init_user_ta_session. sstep. sstep; [apply safe_ret, HQ; by apply inited_failed|].
  sstep. sstep; [apply safe_ret, HQ, inited_failed; intros ->; done|].
  apply safe_act_bind, (act_add_ctx s u); try done. intros [] R ->; cbn [c_is_initializing];
    [|apply safe_ret, HQ; by apply inited_failed].
  assert (forall res, safe [TOpn s u (KInit a) true] (
    (if res =? TEE_SUCCESS then act (wr_ctx a (c_set_initializing false))
     else act (wr_sess s (s_set_ctx None) ;;
               modify (fun σ => set_tee_ctxes (list_remove_elem a (tee_ctxes σ)) σ))) ;;
    if res =? TEE_SUCCESS then mret res else Call (PFreeUtc a) (fun _ => Ret res)) Q) as H1.
  { intros res. apply safe_bind. destruct (res =? TEE_SUCCESS) eqn:Er; apply safe_act.
    - apply act_init_done, safe_ret, HQ. unfold inited. rewrite Er. eauto.
    - apply (act_init_failed s u a t). rewrite Permutation_cons_append. cbn [app].
      apply (safe_call _ [TDying a; TUse (UDying a t)] [] [TOpn s u KNone true]); [constructor|]. intros _. cbn [app].
      apply safe_ret, HQ, inited_failed. by apply Z.eqb_neq. }
  apply safe_bind. unfold load_ta. sstep. sstep; [sstep; apply H1|]. sstep. sstep; [sstep; apply H1|].
  apply safe_act_bind, act_set_flags; [|sstep; apply H1]. cbn [answer_ok andb] in *. by apply negb_true_iff.
Qed.

(** What opening gives the frame: the session referenced, or nothing. *)
Definition init_result (u : use) (r : Z * Z) (R : list token) : Prop :=
  if r.1 =? TEE_SUCCESS then exists c, R = [TOpn r.2 u (KCtx c) true] else R = [TUse u].

Lemma safe_init_session u uuid (Q : post (Z * Z)) :
  (forall r R, init_result u r R -> Q r R) ->
  safe [TUse u] (tee_ta_init_session pseudo_tas (use_head u) uuid) Q.
Proof.
  intros HQ. unfold tee_ta_init_session. sstep. rename a into s.
  assert (forall res R, inited s u res R ->
    safe R (if res =? TEE_SUCCESS then mret (TEE_SUCCESS, s)
            else act (remove_session s (use_head u)) ;; mret (res, s)) Q) as H1.
  { intros res R. unfold inited. destruct (res =? TEE_SUCCESS) eqn:Er.
    - intros (c & ->). apply safe_ret, HQ. by exists c.
    - intros ->. apply safe_act_bind, act_remove_opening, safe_ret, HQ. unfold init_result. cbn [fst]. by rewrite Er. }
  apply safe_bind, (safe_init_session_locked _ s u).
  - intros res Hres. cbn [snd negb]. apply safe_ret, HQ. unfold init_result. cbn [fst]. by rewrite (proj2 (Z.eqb_neq _ _) Hres).
  - intros res R Hi. cbn [fst snd negb]. apply safe_bind. destruct (Z.eqb_spec res TEE_ERROR_ITEM_NOT_FOUND) as [->|Hne]; cbn [negb].
    + cbn in Hi. subst R. apply safe_bind, (safe_init_pseudo _ _ u). intros res R Hi.
      destruct (Z.eqb_spec res TEE_ERROR_ITEM_NOT_FOUND) as [->|Hne]; cbn [negb].
      * cbn in Hi. subst R. apply (safe_init_user _ _ u). auto.
      * apply safe_ret. auto.
    + apply safe_ret. auto.
Qed.

Lemma act_get_sess R s (Φ : post (option tee_ta_session)) :
  Φ None R -> (forall se, Φ (Some se) R) -> act_safe R (gets (fun σ => sesss σ !! s)) Φ.
Proof. intros H1 H2 σ F HI. exists R. split; [done|]. cbn. by destruct (sesss σ !! s). Qed.

(** A session that a token names is there. *)
Lemma act_get_sess_alive R s (Φ : post (option tee_ta_session)) tk :
  tk ∈ R -> tk_sess tk = Some s -> (forall se, Φ (Some se) R) -> act_safe R (gets (fun σ => sesss σ !! s)) Φ.
Proof.
  intros Hin Hs HΦ σ F HI. destruct (tok_sess_alive σ (R ++ F) tk s) as [se Hse]; [apply HI; by apply in_left|done|].
  exists R. split; [done|]. cbn. rewrite Hse. apply HΦ.
Qed.

(** What opening leaves: the session, of which the client does not know yet, or nothing. *)
Definition open_result (u : use) (r : opened) (R : list token) : Prop :=
  if o_res r =? TEE_SUCCESS then exists c, R = [TOpn (o_sess r) u (KCtx c) false] else R = [TUse u].

Lemma safe_err_origin_of s u res R (Q : post Z) :
  open_result u (mkOpened res 0 s) R -> (forall r, Q r R) -> safe R (err_origin_of s res) Q.
Proof.
  unfold open_result, err_origin_of. cbn [o_res o_sess]. intros HR HQ. apply safe_act_bind. destruct (res =? TEE_SUCCESS) eqn:Er.
  - destruct HR as [c ->]. eapply act_get_sess_alive; [left|done|]. intros se. apply safe_ret, HQ.
  - apply act_get_sess; [|intros se; apply safe_ret, HQ]. apply safe_ask_last; [cbn; by rewrite Er|]. intros a _. apply HQ.
Qed.

(** Entering a session that is being opened, and leaving it. *)
Lemma safe_open_enter s u c param to (Q : post Z) :
  (forall r, Q r [TOpn s u (KCtx c) true]) ->
  forall e, entry_by t e -> safe (within (HOpn u) s c e)
    (act (wr_sess s (s_set_param (Some param))) ;;
     set_invoke_timeout s to ;;
     res ← enter_open_session t s c;
     tee_ta_clear_busy t c ;;
     mret res) Q.
Proof.
  intros HQ e He. unfold within. sstep.
  apply safe_bind. eapply (safe_set_invoke_timeout _ s _ (hold (HOpn u) s (KIn c e))); [by left|done|].
  apply safe_bind, safe_enter_open; [done|]. intros r.
  apply safe_bind, (safe_clear_busy t c e _ [hold (HOpn u) s (KCtx c)]); [constructor|done|]. apply safe_ret, HQ.
Qed.

Lemma safe_open_session u uuid id to param (Q : post opened) :
  use_thread u = t -> (forall r R, open_result u r R -> Q r R) ->
  safe [TUse u] (tee_ta_open_session false pseudo_tas t (use_head u) uuid id to param) Q.
Proof.
  intros Hu HQ. apply safe_bind, safe_init_session. intros [res s] R Hi. unfold init_result in Hi. cbn [fst snd] in *.
  destruct (res =? TEE_SUCCESS) eqn:Er; cbn [negb].
  2:{ subst R. apply safe_ret, HQ. unfold open_result. cbn [o_res]. by rewrite Er. }
  destruct Hi as [c ->]. apply safe_bind, safe_ret. cbn [negb].
  apply safe_act_bind. eapply (act_rd_known_ctx (HOpn u)); [done|]. cbn [hold]. sstep. sstep.
  apply safe_bind, (safe_try_set_busy t (HOpn u) s c). intros b R HR. apply safe_bind.
  assert (forall r, safe [TOpn s u (KCtx c) true] (
    panicked ← act (rd_ctx c c_panicked);
    act (wr_sess s (s_set_param None)) ;;
    tee_ta_put_session t s ;;
    (if (panicked || negb (r =? TEE_SUCCESS))%bool then Call (PClose (Some s) (use_head u) KERN_IDENTITY) (fun _ => Ret tt)
     else mret tt) ;;
    err ← (if (panicked || negb b)%bool then mret TEE_ORIGIN_TEE else err_origin_of s r);
    mret (mkOpened r err s)) Q) as H.
  { intros r. sstep. sstep. apply safe_bind, safe_put_opening. cbn [orb].
    assert (forall R, open_result u (mkOpened r 0 s) R ->
      safe R (err ← (if negb b then mret TEE_ORIGIN_TEE else err_origin_of s r); mret (mkOpened r err s)) Q) as H.
    { intros R' HR'. apply safe_bind. sstep; [apply safe_ret|apply (safe_err_origin_of s u); [done|intros e]]; apply safe_ret, HQ; exact HR'. }
    apply safe_bind. destruct (r =? TEE_SUCCESS) eqn:Er'; cbn [negb].
    - apply safe_ret, H. unfold open_result. cbn [o_res o_sess]. rewrite Er'. eauto.
    - apply (safe_call _ [TOpn s u (KCtx c) false] [TUse u] []); [by constructor|]. intros _. cbn [app].
      apply safe_ret, H. unfold open_result. cbn [o_res]. by rewrite Er'. }
  destruct b; cbn [entered] in HR.
  - destruct HR as (e & He & ->). by apply safe_open_enter.
  - subst R. apply safe_ret, H.
Qed.

(** *** Invoking and cancelling *)

(** A session that its user has not entered. *)
Definition user_of (s : Z) (R : list token) : Prop := exists k, know_entry k = None /\ R = [TRef s k].

Lemma user_of_ref s k : know_entry k = None -> user_of s [TRef s k].
Proof. intros H. by exists k. Qed.

Lemma safe_invoke err s cl to cmd param R (Q : post (Z * Z)) :
  user_of s R -> (forall r R', user_of s R' -> Q r R') ->
  safe R (tee_ta_invoke_command false t err s cl to cmd param) Q.
Proof.
  intros (k & Hk & ->) HQ. unfold tee_ta_invoke_command. sstep. sstep; [apply safe_ret, HQ; by eapply user_of_ref|].
  apply safe_bind, safe_ret. cbn [negb]. apply safe_act_bind, act_rd_session_ctx; [done|]. intros c. sstep.
  apply safe_bind, (safe_set_busy HRef). intros e He. unfold within at 1. sstep.
  apply safe_bind. eapply (safe_set_invoke_timeout _ s _ (hold HRef s (KIn c e))); [by left|done|].
  apply safe_bind, safe_enter_invoke; [done|]. intros r. unfold within. sstep.
  apply safe_bind, (safe_clear_busy t c e _ [hold HRef s (KCtx c)]); [constructor|done|]. cbn [hold].
  do 2 sstep. apply safe_ret, HQ. by apply user_of_ref.
Qed.

Lemma safe_cancel s cl R (Q : post Z) :
  (exists k R1, R = TRef s k :: R1) -> (forall r, Q r R) -> safe R (tee_ta_cancel_command s cl) Q.
Proof. intros (k & R1 & ->) HQ. unfold tee_ta_cancel_command. ssteps; apply HQ. Qed.

(** ** Requests of normal world *)

Lemma act_find u id (Φ : post (option Z)) :
  (forall os, Φ os [TUse u]) -> act_safe [TUse u] (tee_ta_find_session_nolock id (use_head u)) Φ.
Proof.
  intros HΦ. apply act_safe_wp. intros σ F HI. eapply (wp_find σ _ (TUse u)); [exact HI|left|intros c; apply tk_ctx_use|].
  intros os _. eexists. eauto.
Qed.

Lemma safe_find_close u id cl (Q : post reply) :
  use_thread u = t -> is_kernel cl = false -> (forall r, Q r [TUse u]) ->
  safe [TUse u] (s ← tee_ta_find_session id (use_head u); Call (PClose s (use_head u) cl) Ret) Q.
Proof.
  intros Hu Hcl HQ. apply safe_act_bind, act_find. intros os.
  apply (safe_call _ [TUse u] [TUse u] []); [by constructor|]. intros r. by apply safe_ret.
Qed.

Lemma safe_entry_open uuid id param (Q : post reply) :
  (forall r, Q r [TUse (UNsec t)]) -> safe [TUse (UNsec t)] (entry_open_session false pseudo_tas t uuid id param) Q.
Proof.
  intros HQ. unfold entry_open_session. do 2 sstep; [apply safe_ret, HQ|].
  apply safe_bind, (safe_open_session (UNsec t)); [done|]. intros r R. unfold open_result.
  destruct (o_res r =? TEE_SUCCESS); [|intros ->; apply safe_ret, HQ]. intros [c ->].
  apply safe_act_bind, act_publish. intros i. apply safe_ret, HQ.
Qed.

Lemma safe_entry_invoke id cmd param (Q : post reply) :
  (forall r, Q r [TUse (UNsec t)]) -> safe [TUse (UNsec t)] (entry_invoke_command true false t id cmd param) Q.
Proof.
  intros HQ. unfold entry_invoke_command. do 2 sstep; [apply safe_ret, HQ|].
  apply safe_bind, (safe_get true t (UNsec t)); [split; auto|]. intros [s|] R HR; cbn [got] in HR; subst R; [|apply safe_ret, HQ].
  apply safe_step_one. eapply safe_invoke; [by apply user_of_ref|]. intros r R' (k & Hk & ->). cbn [app].
  apply safe_bind, safe_put_locked; [done|done|]. apply safe_ret, HQ.
Qed.

Lemma safe_entry_cancel id (Q : post reply) :
  (forall r, Q r [TUse (UNsec t)]) -> safe [TUse (UNsec t)] (entry_cancel true t id) Q.
Proof.
  intros HQ. unfold entry_cancel. apply safe_bind, safe_get_shared; [done|done|apply safe_ret, HQ|].
  intros s. apply safe_bind, safe_cancel; [eauto|]. intros r. apply safe_bind, safe_put_shared, safe_ret, HQ.
Qed.

Lemma entry_safe r : safe [TUse (UNsec t)] (entry_std true false pseudo_tas t r) (fun _ R => R ≡ₚ [TUse (UNsec t)]).
Proof.
  destruct r; cbn [entry_std].
  - by apply safe_entry_open.
  - by apply (safe_find_close (UNsec t)).
  - by apply safe_entry_invoke.
  - by apply safe_entry_cancel.
Qed.

(** ** System calls *)

(** The TA that makes a system call runs in its session: another frame of the thread says so. *)
Lemma inside_session σ F c s :
  Inv σ ([TUse (UCtx c t s)] ++ F) ->
  exists tk F' se cx, F ≡ₚ tk :: F' /\ tk_sess tk = Some s /\ sesss σ !! s = Some se /\ s_ctx se = Some c /\ ctxs σ !! c = Some cx.
Proof.
  intros HI. destruct (inv_tok _ _ HI (TUse (UCtx c t s)) ltac:(left)) as (tk & Htk & Hin).
  apply elem_of_cons in Htk as [->|Htk]; [by no_inside Hin|].
  pose proof Htk as Hp. apply elem_of_Permutation in Hp as [F' HF].
  pose proof (inv_tok _ _ HI tk ltac:(by right)) as Ht.
  destruct Hin as (sg & [->|(v & r & ->)]).
  - destruct Ht as (se & Hs & (Hc & cx & Hcx & _) & _). eauto 10.
  - destruct Ht as (_ & _ & se & Hs & _ & (Hc & cx & Hcx & _) & _). eauto 10.
Qed.

Lemma act_ctx_of_current c s (Φ : post Z) :
  Φ c [TUse (UCtx c t s)] -> act_safe [TUse (UCtx c t s)] (ctx_of_session s) Φ.
Proof.
  intros HΦ. apply act_safe_wp. intros σ F HI. destruct (inside_session _ _ _ _ HI) as (tk & F' & se & cx & _ & _ & Hs & Hc & _).
  unfold ctx_of_session. repeat act_step lk. rewrite Hc. wp_step. eexists. eauto.
Qed.

Lemma act_rd_current {X : Set} c s (f : tee_ta_session -> X) (Φ : post X) :
  (forall x, Φ x [TUse (UCtx c t s)]) -> act_safe [TUse (UCtx c t s)] (rd_sess s f) Φ.
Proof.
  intros HΦ. apply act_safe_wp. intros σ F HI. destruct (inside_session _ _ _ _ HI) as (tk & F' & se & cx & _ & _ & Hs & _).
  act_step lk. eexists. eauto.
Qed.

Lemma act_wr_current c s f (Φ : post unit) :
  quiet f -> Φ tt [TUse (UCtx c t s)] -> act_safe [TUse (UCtx c t s)] (wr_sess s f) Φ.
Proof.
  intros Hf HΦ σ F HI. destruct (inside_session _ _ _ _ HI) as (tk & F' & se & cx & HF & Hts & _).
  assert (act_safe [TUse (UCtx c t s); tk] (wr_sess s f) (fun _ R => R = [TUse (UCtx c t s); tk])) as H.
  { eapply act_wr_sess; [done|right; left|done|done]. }
  specialize (H σ F'). rewrite HF in HI. specialize (H HI). destruct (wr_sess s f σ) as [[[]|e|] σ']; [|done|done].
  destruct H as (R' & HI' & ->). exists [TUse (UCtx c t s)]. by rewrite HF.
Qed.

Lemma safe_current_ta c s (Q : post (Z * TEE_Identity)) :
  (forall i, Q (c, i) [TUse (UCtx c t s)]) -> safe [TUse (UCtx c t s)] (current_ta s) Q.
Proof.
  intros HQ. apply safe_act_bind, act_ctx_of_current. sstep. apply safe_ret, HQ.
Qed.

Lemma safe_copy_param s R (Q : post Z) :
  user_of s R -> (forall r R', user_of s R' -> Q r R') -> safe R (tee_svc_copy_param s) Q.
Proof.
  intros (k & Hk & ->) HQ. unfold tee_svc_copy_param. do 2 sstep; [apply safe_ret, HQ; by apply user_of_ref|].
  unfold ctx_of_session. apply safe_act_bind.
  assert (forall (Φ : post Z), (forall c, Φ c [TRef s (KCtx c)]) -> act_safe [TRef s k] (oc ← rd_sess s s_ctx;
    match oc with Some c => mret c | None => panic end) Φ) as Hctx.
  { intros Φ HΦ. apply act_safe_wp. intros σ F HI. apply wp_bind.
    pose proof (act_rd_session_ctx [] s k (fun oc R => exists c, oc = Some c /\ R = [TRef s (KCtx c)]) Hk) as G.
    specialize (G (fun c => ex_intro _ c (conj eq_refl eq_refl)) σ F HI). unfold wp. destruct (rd_sess s s_ctx σ) as [[oc|e|] σ']; [|done|done].
    destruct G as (R' & HI' & c & -> & ->). cbn. eauto. }
  apply Hctx. intros c. ssteps; apply HQ; by apply user_of_ref.
Qed.

Lemma safe_syscall_open c s uuid to param (Q : post reply) :
  (forall r, Q r [TUse (UCtx c t s)]) ->
  safe [TUse (UCtx c t s)] (syscall_open_ta_session false pseudo_tas t s uuid to param) Q.
Proof.
  intros HQ. apply safe_bind, safe_current_ta. intros i. cbn [fst snd]. do 2 sstep; [apply safe_ret, HQ|].
  apply safe_bind, (safe_open_session (UCtx c t s)); [done|]. intros r R. unfold open_result.
  destruct (o_res r =? TEE_SUCCESS); cbn [negb]; [|intros ->; apply safe_ret, HQ]. intros [c' ->].
  sstep. apply safe_act_bind, act_publish. intros j. ssteps; apply HQ.
Qed.

Lemma safe_syscall_invoke c s id to cmd param (Q : post reply) :
  (forall r, Q r [TUse (UCtx c t s)]) ->
  safe [TUse (UCtx c t s)] (syscall_invoke_ta_command true false t s id to cmd param) Q.
Proof.
  intros HQ. apply safe_bind, safe_current_ta. intros i. cbn [fst snd].
  apply safe_bind, (safe_get true t (UCtx c t s)); [split; auto|]. intros [x|] R HR; cbn [got] in HR; subst R; [|apply safe_ret, HQ].
  apply safe_step_one. eapply safe_copy_param; [by apply user_of_ref|]. intros res R' HR'.
  assert (forall (r : Z * Z) R', user_of x R' -> safe (R' ++ [TLock x (UCtx c t s) false])
    (tee_ta_put_session t x ;; mret (mkReply r.1 0 r.2)) Q) as H.
  { intros r R2 (k & Hk & ->). apply safe_bind, safe_put_locked; [done|done|]. apply safe_ret, HQ. }
  eapply safe_step; [reflexivity|]. sstep; [apply safe_ret; by apply (H (res, TEE_ORIGIN_TEE))|].
  apply safe_bind. eapply safe_invoke; [done|]. intros r R2 HR2. sstep; [apply safe_ret; by apply H|].
  ssteps; by apply H.
Qed.

Lemma syscall_safe c s sc :
  safe [TUse (UCtx c t s)] (syscall_prog true false pseudo_tas t s sc) (fun _ R => R ≡ₚ [TUse (UCtx c t s)]).
Proof.
  destruct sc; cbn [syscall_prog].
  - by apply safe_syscall_open.
  - unfold syscall_close_ta_session. apply safe_bind, safe_current_ta. intros i.
    by apply (safe_find_close (UCtx c t s)).
  - by apply safe_syscall_invoke.
  - unfold syscall_get_cancellation_flag. apply safe_bind. unfold tee_time_get_sys_time. ssteps.
    apply safe_act_bind, act_rd_current. intros b. by sstep.
  - unfold syscall_set_cancellation_mask. apply safe_act_bind, act_rd_current. intros b.
    apply safe_act_bind, act_wr_current; [done|]. by sstep.
Qed.
End programs.
