(* ===== verification/SessionProps.v ===== *)
(** * What holds of sessions in every run

    The theorems on the session manager: no assertion fails and nothing freed is used,
    instances are entered one thread at a time, ids name one session, an idle kernel holds no
    references; and what the ids and deadlines given to sessions are. *)

From S2P Require Import Prelude ErrM Session SessionLogic SessionActs SessionCtx SessionLife SessionSafe.
From stdpp Require Import base gmap list.
From Stdlib Require Import ZArith Lia.

Local Open Scope Z_scope.

(** ** Runs *)

Section runs.
Context (pseudo_tas : list pseudo_ta_head).

(** The configurations the kernel may be in after booting with [n] threads, when clients keep to the
    sessions they have (a run ends where one does not), user TAs neither panic nor claim to be concurrent, and there is
    no secure data path. *)
Definition reachable (n : nat) (g : config) : Prop := exists es, steps true true false pseudo_tas (boot n) es = Next g.

Context (Hptas : verify_pseudo_tas_conformance pseudo_tas = true).

Lemma run_ok n es :
  match steps true true false pseudo_tas (boot n) es with Next g => config_ok g | Bad => False | _ => True end.
Proof.
  apply (steps_ok true pseudo_tas).
  - intros t p R R'. apply body_safe.
  - intros t c s sc. by apply syscall_safe.
  - intros t r. by apply entry_safe.
  - apply boot_ok.
Qed.

Lemma reachable_ok n g : reachable n g -> config_ok g.
Proof. intros [es H]. pose proof (run_ok n es) as K. by rewrite H in K. Qed.
End runs.

(** ** The instances that threads are in *)

Fixpoint stack_enters (ks : list frame) : list Z :=
  match ks with
  | [] => []
  | FCall _ :: ks => stack_enters ks
  | FEnter _ c _ _ :: ks => c :: stack_enters ks
  end.

(** The user TAs a thread has entered and not left, the innermost first. *)
Definition enters (th : thread) : list Z :=
  match th with
  | Idle _ => []
  | Run (Enter _ c _ _) ks => c :: stack_enters ks
  | Run _ ks => stack_enters ks
  end.

(** A token for each of them. *)
Definition busy_in (c t : Z) (tk : token) : bool :=
  match tk_entry tk with Some (x, EBusy t' _) => (x =? c) && (t' =? t) | _ => false end.

Lemma inside_busy c t s tk : is_inside c t s tk -> forall x, busy_in x t tk = (c =? x).
Proof.
  intros (sg & [->|(u & r & ->)]) x; unfold busy_in; cbn; by rewrite Z.eqb_refl, andb_true_r.
Qed.

Definition times (c : Z) (l : list Z) : Z := Z.of_nat (List.count_occ Z.eq_dec l c).

Lemma times_cons c x l : times c (x :: l) = b2z (x =? c) + times c l.
Proof. unfold times. cbn. destruct (Z.eq_dec x c), (Z.eqb_spec x c); cbn [b2z]; try congruence; lia. Qed.

Lemma times_app c l1 l2 : times c (l1 ++ l2) = times c l1 + times c l2.
Proof. unfold times. rewrite List.count_occ_app. lia. Qed.

Lemma stack_tokens t ks Q R c : conts_ok t Q R ks -> times c (stack_enters ks) <= cnt (busy_in c t) R.
Proof.
  revert Q R. induction ks as [|[k|s x f k] ks IH]; cbn [conts_ok stack_enters]; intros Q R H.
  - destruct H as [-> _]. done.
  - destruct H as (R1 & R2 & Q' & HR & _ & H). apply IH in H. rewrite HR, cnt_app. pose proof (cnt_nonneg (busy_in c t) R1). lia.
  - destruct H as (tk & R1 & R2 & Q' & HR & Hin & _ & H). apply IH in H.
    rewrite HR, times_cons, cnt_app, cnt_cons, (inside_busy _ _ _ _ Hin). pose proof (cnt_nonneg (busy_in c t) R1). lia.
Qed.

Lemma thread_tokens t th R c : thread_ok t th R -> times c (enters th) <= cnt (busy_in c t) R.
Proof.
  destruct th as [o|p ks]; cbn [thread_ok]; [intros _; apply cnt_nonneg|].
  intros (Q & R1 & R2 & HR & HS & HK). apply (stack_tokens t ks _ _ c) in HK. pose proof (cnt_nonneg (busy_in c t) R1).
  destruct p; cbn [enters]; try (rewrite HR, cnt_app; lia).
  destruct HS as [(tk & R3 & HR1 & Hin) _].
  rewrite HR, HR1, times_cons, cnt_app, !cnt_cons, (inside_busy _ _ _ _ Hin).
  pose proof (cnt_nonneg (busy_in c t) R3). pose proof (b2z_range (busy_in c t (TUse (UCtx c0 t s)))). lia.
Qed.

Lemma busy_in_busy c t tk : busy_in c t tk = true -> f_busy c tk = true.
Proof.
  unfold busy_in. destruct tk as [s k|s u k r| | |x [e|]| | |]; cbn; try done;
    repeat (destruct k as [| | | | | |x e]; cbn; try done); destruct e; cbn; rewrite ?andb_true_iff; naive_solver.
Qed.

(** All threads together: no more entries of [c] than tokens that say it is busy. *)
Lemma threads_tokens ths Rs k c :
  length Rs = length ths ->
  (forall i th R, ths !! i = Some th -> Rs !! i = Some R -> thread_ok (Z.of_nat (k + i)) th R) ->
  times c (concat (enters <$> ths)) <= cnt (f_busy c) (concat Rs).
Proof.
  revert Rs k. induction ths as [|th ths IH]; intros [|R Rs] k Hlen H; try done.
  cbn [fmap list_fmap concat app]. rewrite times_app, cnt_app.
  assert (times c (enters th) <= cnt (f_busy c) R).
  { etransitivity; [by eapply thread_tokens, (H 0%nat)|]. apply cnt_mono. apply busy_in_busy. }
  assert (times c (concat (enters <$> ths)) <= cnt (f_busy c) (concat Rs)); [|lia].
  apply (IH Rs (S k)); [by inversion Hlen|]. intros i th' R' Hi HR. replace (S k + i)%nat with (k + S i)%nat by lia. by apply (H (S i)).
Qed.

Lemma busy_le_1 σ T c : Inv σ T -> cnt (f_busy c) T <= 1.
Proof.
  intros HI. destruct (ctxs σ !! c) as [cx|] eqn:E.
  - rewrite (ck_busy _ _ _ _ (inv_ctx _ _ HI c cx E)). destruct (c_busy cx); cbn; lia.
  - destruct (no_ctx_counts σ T c HI E) as (_ & _ & -> & _). lia.
Qed.

Lemma times_NoDup l : (forall c, times c l <= 1) -> NoDup l.
Proof.
  intros H. apply NoDup_ListNoDup, (List.NoDup_count_occ Z.eq_dec). intros c. specialize (H c). unfold times in H. lia.
Qed.

Lemma enters_token t th R c : c ∈ enters th -> thread_ok t th R -> exists tk, tk ∈ R /\ busy_in c t tk = true.
Proof.
  intros Hc HT. apply cnt_in. pose proof (thread_tokens t th R c HT).
  apply list_elem_of_In, (List.count_occ_In Z.eq_dec) in Hc. unfold times in *. lia.
Qed.

Lemma token_of_thread (Rs : list (list token)) i R tk : Rs !! i = Some R -> tk ∈ R -> tk ∈ concat Rs.
Proof.
  intros HR Htk. apply list_elem_of_In, List.in_concat. exists R. split; apply list_elem_of_In; [|done].
  by eapply list_elem_of_lookup_2.
Qed.

(** A thread in a single-instance TA has the lock. *)
Lemma single_owner σ T c t tk cx :
  Inv σ T -> tk ∈ T -> busy_in c t tk = true -> ctxs σ !! c = Some cx -> is_single cx = true -> single_thread σ = Some t.
Proof.
  intros HI Htk Hb Hcx Hs. unfold busy_in in Hb. destruct (tk_entry tk) as [[x [|t' sg]]|] eqn:He; try done.
  apply andb_true_iff in Hb as [->%Z.eqb_eq ->%Z.eqb_eq].
  assert (sg = true) as ->; [|by eapply so_thread; [apply (inv_single _ _ HI)|..]].
  assert (exists cx, ctxs σ !! c = Some cx /\ entry_ok (EBusy t sg) cx) as (cx' & Hcx' & _ & ->).
  { pose proof (inv_tok _ _ HI tk Htk) as H. destruct tk as [s k|s u k r| | |x' [e|]| | |]; cbn in He; try done.
    - destruct k; cbn in He; simplify_eq. destruct H as (se & _ & (_ & cx' & ? & _ & ?) & _). eauto.
    - destruct k; cbn in He; simplify_eq. destruct H as (_ & _ & se & _ & _ & (_ & cx' & ? & _ & ?) & _). eauto.
    - simplify_eq. destruct H as (_ & cx' & ? & _ & ?). eauto. }
  congruence.
Qed.

(** The one access to a session that was freed follows an opening that failed. *)
Lemma freed_read_failed g i res : config_ok g -> freed_read i g = Some res -> res <> TEE_SUCCESS.
Proof.
  intros (Rs & Hlen & Hok & _) H. unfold freed_read in H. destruct (threads g !! i) as [th|] eqn:Hth; [|done].
  destruct (lookup_lt_is_Some_2 Rs i) as [R HR]; [rewrite Hlen; by eapply lookup_lt_Some|].
  specialize (Hok i th R Hth HR). destruct th as [|[| | |q k| |] ks]; try done. destruct q; try done. injection H as ->.
  destruct Hok as (Q & R1 & R2 & _ & [Hq _] & _). cbn in Hq. by apply negb_true_iff, Z.eqb_neq in Hq.
Qed.

(** A strict run is a run, until it reads freed memory. *)
Lemma strict_steps_cases polite steady sdp ptas g es :
  match strict_steps polite steady sdp ptas g es with
  | Bad => steps polite steady sdp ptas g es = Bad \/
      exists es1 i a es2 g1 res, es = es1 ++ EvAnswer i a :: es2 /\ strict_steps polite steady sdp ptas g es1 = Next g1 /\
        steps polite steady sdp ptas g es1 = Next g1 /\ freed_read i g1 = Some res
  | o => steps polite steady sdp ptas g es = o
  end.
Proof.
  revert g. induction es as [|e es IH]; intros g; cbn [strict_steps steps]; [done|].
  assert (strict_step polite steady sdp ptas g e = step polite steady sdp ptas g e \/
    exists i a res, e = EvAnswer i a /\ freed_read i g = Some res /\ strict_step polite steady sdp ptas g e = Bad) as [E|(i & a & res & -> & Hf & E)].
  { destruct e as [| |i a| |]; try by left. cbn [strict_step]. destruct (freed_read i g) as [res|] eqn:Hf; [right; eauto 10|by left]. }
  - rewrite E. destruct (step polite steady sdp ptas g e) as [g'| | |] eqn:E'; [|done..|by left].
    specialize (IH g'). destruct (strict_steps _ _ _ _ g' es); [done..|]. destruct IH as [IH|(es1 & i & a & es2 & g1 & res & -> & H1 & H2 & H3)]; [by left|].
    right. exists (e :: es1), i, a, es2, g1, res. cbn [app strict_steps steps]. by rewrite E, E'.
  - rewrite E. right. exists [], i, a, es, g, res. done.
Qed.

(** C5. In every run of the kernel - any requests of normal world on any number of threads in
    any interleaving, system calls of user TAs that open, use and close sessions of each other to any depth,
    any answers of the allocator, the loader and the pseudo TAs - no assertion of the session manager fails and no null
    context is followed. And no session or context is used after it was freed, but for one access that does happen: after
    an opening that failed, [tee_ta_open_session] reads the origin of the error from the session it has just closed. The first
    part goes on after that access with whatever the memory contains; the second counts it as a failure
    ([strict_steps]), and it is the only one. Assumed: clients keep to the sessions they have, user TAs do not panic and do not
    have [TA_FLAG_CONCURRENT], no secure data path. What remains is the deliberate panic of [tee_ta_set_busy]. *)
Theorem sessions_never_fail pseudo_tas n es :
  verify_pseudo_tas_conformance pseudo_tas = true ->
  steps true true false pseudo_tas (boot n) es <> Bad /\
  (strict_steps true true false pseudo_tas (boot n) es = Bad ->
   exists es1 i a es2 g res, es = es1 ++ EvAnswer i a :: es2 /\ strict_steps true true false pseudo_tas (boot n) es1 = Next g /\
     freed_read i g = Some res /\ res <> TEE_SUCCESS).
Proof.
  intros H. assert (steps true true false pseudo_tas (boot n) es <> Bad) as Hn.
  { intros E. pose proof (run_ok pseudo_tas H n es) as K. by rewrite E in K. }
  split; [done|]. intros E. pose proof (strict_steps_cases true true false pseudo_tas (boot n) es) as K. rewrite E in K.
  destruct K as [K|(es1 & i & a & es2 & g & res & -> & H1 & H2 & H3)]; [done|].
  exists es1, i, a, es2, g, res. split; [done|]. split; [done|]. split; [done|].
  eapply freed_read_failed; [|done]. apply (reachable_ok _ H n). by exists es1.
Qed.

(** C6. In the runs of C5 - user TAs neither panic nor have [TA_FLAG_CONCURRENT], which the kernel would let them enter at
    once, clients keep to the sessions they have, no secure data path - no user TA instance is entered twice, by
    whatever threads, and all threads that are inside of single-instance TAs are one thread. *)
Theorem ta_instances_exclusive pseudo_tas n g :
  verify_pseudo_tas_conformance pseudo_tas = true -> reachable pseudo_tas n g ->
  NoDup (concat (enters <$> threads g)) /\
  (forall i j th th' c c' cx cx',
     threads g !! i = Some th -> threads g !! j = Some th' -> c ∈ enters th -> c' ∈ enters th' ->
     ctxs (mem g) !! c = Some cx -> ctxs (mem g) !! c' = Some cx' -> is_single cx = true -> is_single cx' = true -> i = j).
Proof.
  intros Hp Hg. destruct (reachable_ok _ Hp _ _ Hg) as (Rs & Hlen & Hok & HI). split.
  - apply times_NoDup. intros c. etransitivity; [by apply (threads_tokens _ Rs 0)|by eapply busy_le_1].
  - assert (forall i th c cx, threads g !! i = Some th -> c ∈ enters th -> ctxs (mem g) !! c = Some cx -> is_single cx = true ->
      single_thread (mem g) = Some (Z.of_nat i)) as H.
    { intros i th c cx Hi Hc Hcx Hs. destruct (lookup_lt_is_Some_2 Rs i) as [R HR]; [rewrite Hlen; by eapply lookup_lt_Some|].
      destruct (enters_token _ _ R c Hc (Hok _ _ _ Hi HR)) as (tk & Htk & Hb).
      eapply single_owner; [exact HI|by eapply token_of_thread|done|done|done]. }
    intros i j th th' c c' cx cx' Hi Hj Hc Hc' Hx Hx' Hs Hs'.
    pose proof (H i th c cx Hi Hc Hx Hs). pose proof (H j th' c' cx' Hj Hc' Hx' Hs'). apply Nat2Z.inj. congruence.
Qed.

(** ** An idle kernel *)

(** The tokens of threads that are idle. *)
Lemma idle_tokens ths Rs k :
  length Rs = length ths ->
  (forall i th R, ths !! i = Some th -> Rs !! i = Some R -> thread_ok (Z.of_nat (k + i)) th R) ->
  (forall i th, ths !! i = Some th -> exists o, th = Idle o) ->
  forall tk, tk ∈ concat Rs -> exists t, tk = TUse (UNsec t).
Proof.
  revert Rs k. induction ths as [|th ths IH]; intros [|R Rs] k Hlen H Hid; try done.
  - intros tk Htk. by apply elem_of_nil in Htk.
  - intros tk. cbn [concat]. rewrite elem_of_app. intros [Htk|Htk].
    + destruct (Hid 0%nat th eq_refl) as [o ->]. specialize (H 0%nat _ _ eq_refl eq_refl). cbn in H.
      rewrite H in Htk. apply list_elem_of_singleton in Htk as ->. eauto.
    + eapply (IH Rs (S k)); [by inversion Hlen| |intros i th' Hi; by apply (Hid (S i))|done].
      intros i th' R' Hi HR. replace (S k + i)%nat with (k + S i)%nat by lia. by apply (H (S i)).
Qed.

Lemma nsess_some c m : nsess c m = 1 -> exists s se, m !! s = Some se /\ s_ctx se = Some c.
Proof.
  unfold nsess. intros H. assert (filter (fun p => s_ctx p.2 = Some c) m <> (∅ : gmap Z tee_ta_session)) as Hne.
  { intros E. rewrite E in H. done. }
  apply map_choose in Hne as (s & se & Hs). apply map_lookup_filter_Some in Hs as [Hs Hc]. eauto.
Qed.

(** C23. When no request is being served nothing is held: every session is
    unlocked with no references, published, and belongs to a context that is listed and ready; every context
    that exists is one of those listed, not busy, and its counter is the number of its sessions;
    the single-instance lock is free. *)
Theorem idle_sessions_exact pseudo_tas n g :
  verify_pseudo_tas_conformance pseudo_tas = true -> reachable pseudo_tas n g ->
  (forall i th, threads g !! i = Some th -> exists o, th = Idle o) ->
  (forall s se, sesss (mem g) !! s = Some se ->
     s_ref_count se = 0 /\ s_lock_thread se = None /\ s_unlink se = false /\ s ∉ opening (mem g) /\
     s ∈ sessions_of (s_home se) (mem g) /\
     exists c, s_ctx se = Some c /\ c ∈ tee_ctxes (mem g)) /\
  (forall c cx, ctxs (mem g) !! c = Some cx ->
     c ∈ tee_ctxes (mem g) /\ c_busy cx = false /\ c_is_initializing cx = false /\
     c_ref_count cx = nsess c (sesss (mem g))) /\
  single_thread (mem g) = None /\ single_count (mem g) = 0 /\ (forall t, recursion_of t (mem g) = 0).
Proof.
  intros Hp Hg Hid. destruct (reachable_ok _ Hp _ _ Hg) as (Rs & Hlen & Hok & HI).
  pose proof (idle_tokens _ Rs 0 Hlen Hok Hid) as HT.
  assert (forall f, (forall t, f (TUse (UNsec t)) = false) -> cnt f (concat Rs) = 0) as HC.
  { intros f Hf. apply cnt_none. intros tk Htk. destruct (HT tk Htk) as [t ->]. apply Hf. }
  assert (forall s se, sesss (mem g) !! s = Some se -> s ∉ opening (mem g)) as Hop.
  { intros s se Hs Ho. pose proof (sk_opn _ _ _ _ (inv_sess _ _ HI s se Hs)) as H.
    rewrite HC, bool_decide_eq_true_2 in H by done. done. }
  destruct HI as [H1 H2 H3 H4 H5 H6 H7 H8 H9]. split_and!.
  - intros s se Hs. pose proof (Hop s se Hs) as Ho. destruct (H1 s se Hs). rewrite ?HC in * by done.
    assert (s_lock_thread se = None) as Hl by (destruct (s_lock_thread se); [lia|done]).
    split_and!; try done.
    + destruct (s_unlink se); [by destruct sk_unlink|done].
    + apply H4. eauto.
    + destruct (s_ctx se) as [c|]; [|by destruct sk_some]. exists c. split; [done|].
      destruct (sk_ctx c eq_refl) as (D & cx & Hc & _). apply H6. rewrite Hc. eauto.
  - intros c cx Hc. destruct (H2 c cx Hc). rewrite ?HC in * by done.
    assert (c_busy cx = false) as Hb by (destruct (c_busy cx); [done|done]).
    split_and!; [apply H6; rewrite Hc, HC; eauto|done| |rewrite ck_ref by done; lia].
    destruct (c_is_initializing cx) eqn:Ei; [|done]. destruct (ck_init eq_refl eq_refl) as (N & _).
    destruct (nsess_some c _ N) as (s & se & Hs & Hsc). destruct (sk_ctx _ _ _ _ (H1 s se Hs) c Hsc) as (_ & cx' & Hc' & Ho).
    exfalso. apply (Hop s se Hs), Ho. congruence.
  - destruct H7. destruct (single_thread (mem g)) as [t|]; [|done]. specialize (so_some t eq_refl). rewrite HC in so_some by done. lia.
  - destruct H7. by rewrite so_count, HC.
  - intros t. by rewrite H9, HC.
Qed.

(** At any time the sessions in the list of a client exist, and an id names at most one of them:
    a lookup finds the session with that id whenever there is one. *)
Theorem session_ids_unique pseudo_tas n g l :
  verify_pseudo_tas_conformance pseudo_tas = true -> reachable pseudo_tas n g ->
  (forall s, s ∈ sessions_of l (mem g) -> is_Some (sesss (mem g) !! s)) /\
  (forall s se, s ∈ sessions_of l (mem g) -> sesss (mem g) !! s = Some se ->
     find_id (sesss (mem g)) (s_id se) (sessions_of l (mem g)) = Some s).
Proof.
  intros Hp Hg. destruct (reachable_ok _ Hp _ _ Hg) as (Rs & _ & _ & [H1 H2 H3 H4 H5 H6 H7 H8 H9]). split.
  - intros s (se & Hs & _)%H4. eauto.
  - intros s se Hin Hs. destruct (find_id _ _ _) as [s'|] eqn:E.
    + apply find_id_Some in E as (Hin' & se' & Hs' & Hid). apply H4 in Hin as (? & ? & <-). apply H4 in Hin' as (? & ? & ?).
      simplify_eq. f_equal. by eapply H5.
    + exfalso. by eapply find_id_None.
Qed.

(** ** Ids *)

(** The id after [n] steps. *)
Definition nth_id (id : Z) (n : nat) : Z := (id - 1 + Z.of_nat n) mod UINT32_MAX + 1.

Lemma nth_id_range id n : 1 <= nth_id id n <= UINT32_MAX.
Proof. unfold nth_id. pose proof (Z.mod_pos_bound (id - 1 + Z.of_nat n) UINT32_MAX ltac:(done)). lia. Qed.

Lemma nth_id_0 id : 1 <= id <= UINT32_MAX -> nth_id id 0 = id.
Proof. intros H. unfold nth_id. rewrite Z.mod_small by lia. lia. Qed.

Lemma next_id_nth id n : next_id (nth_id id n) = nth_id id (S n).
Proof.
  unfold nth_id, next_id. set (a := id - 1 + Z.of_nat n). replace (id - 1 + Z.of_nat (S n)) with (a + 1) by lia.
  pose proof (Z.mod_pos_bound a UINT32_MAX ltac:(done)) as Hr. set (r := a mod UINT32_MAX) in *.
  assert ((a + 1) mod UINT32_MAX = if r =? UINT32_MAX - 1 then 0 else r + 1) as ->.
  { rewrite (Z.div_mod a UINT32_MAX) by done. fold r. destruct (Z.eqb_spec r (UINT32_MAX - 1)) as [E|E].
    - rewrite E. replace (UINT32_MAX * (a / UINT32_MAX) + (UINT32_MAX - 1) + 1) with ((a / UINT32_MAX + 1) * UINT32_MAX) by lia.
      by rewrite Z_mod_mult.
    - replace (UINT32_MAX * (a / UINT32_MAX) + r + 1) with (r + 1 + (a / UINT32_MAX) * UINT32_MAX) by lia.
      rewrite Z_mod_plus_full, Z.mod_small; lia. }
  destruct (Z.eqb_spec r (UINT32_MAX - 1)) as [->|E]; [done|].
  unfold u32, UINT32_MAX in *. rewrite Z.mod_small by lia. rewrite (proj2 (Z.eqb_neq _ _)) by lia. lia.
Qed.

(** How the search ends: with an id that is free, or after a full turn or the fuel. *)
Lemma new_id_loop_cases fuel m l id0 n :
  1 <= id0 <= UINT32_MAX ->
  (exists k, new_id_loop fuel m l id0 (nth_id id0 n) = nth_id id0 k /\ find_id m (nth_id id0 k) l = None) \/
  (exists j, (j = n + fuel \/ (n < j <= n + fuel /\ nth_id id0 j = id0))%nat /\
     forall i, (n <= i < j)%nat -> exists s, find_id m (nth_id id0 i) l = Some s).
Proof.
  intros Hid. revert n. induction fuel as [|fuel IH]; intros n; cbn [new_id_loop].
  - right. exists n. split; [lia|]. intros i Hi. lia.
  - destruct (find_id m (nth_id id0 n) l) as [s|] eqn:E; [|left; eauto].
    rewrite next_id_nth. destruct (Z.eqb_spec (nth_id id0 (S n)) id0) as [Hs|Hs].
    + right. exists (S n). split; [right; split; [lia|done]|]. intros i Hi. assert (i = n) as -> by lia. eauto.
    + destruct (IH (S n)) as [H|(j & Hj & H)]; [by left|]. right. exists j. split; [lia|].
      intros i Hi. destruct (decide (i = n)) as [->|]; [eauto|apply H; lia].
Qed.

Lemma nth_id_inj id i j : (i < j)%nat -> Z.of_nat j - Z.of_nat i < UINT32_MAX -> nth_id id i <> nth_id id j.
Proof.
  intros H1 H2 E. unfold nth_id in E.
  assert ((id - 1 + Z.of_nat i) mod UINT32_MAX = (id - 1 + Z.of_nat j) mod UINT32_MAX) as E' by lia.
  pose proof (Z.div_mod (id - 1 + Z.of_nat i) UINT32_MAX ltac:(done)).
  pose proof (Z.div_mod (id - 1 + Z.of_nat j) UINT32_MAX ltac:(done)).
  rewrite E' in *. set (a := (id - 1 + Z.of_nat i) / UINT32_MAX) in *. set (b := (id - 1 + Z.of_nat j) / UINT32_MAX) in *.
  assert (Z.of_nat j - Z.of_nat i = UINT32_MAX * (b - a)) by lia. assert (b - a = 0 \/ 1 <= b - a \/ b - a <= -1) by lia. nia.
Qed.

(** As many ids in use as steps: there are at most [length l]. *)
Lemma ids_in_use m l id0 n :
  Z.of_nat n <= UINT32_MAX -> (forall i, (i < n)%nat -> exists s, find_id m (nth_id id0 i) l = Some s) -> (n <= length l)%nat.
Proof.
  intros Hn H. set (id_of := fun s => match m !! s with Some se => s_id se | None => 0 end).
  assert (length (nth_id id0 <$> seq 0 n) <= length (id_of <$> l))%nat as HL; [|by rewrite !length_fmap, length_seq in HL].
  apply List.NoDup_incl_length.
  - apply NoDup_ListNoDup, NoDup_fmap_2_strong; [|apply NoDup_seq].
    intros i j Hi%elem_of_seq Hj%elem_of_seq E. destruct (Nat.lt_trichotomy i j) as [Hl|[->|Hl]]; [|done|].
    + exfalso. eapply nth_id_inj; [exact Hl| |exact E]. lia.
    + exfalso. eapply nth_id_inj; [exact Hl| |symmetry; exact E]. lia.
  - intros x Hx. apply list_elem_of_In in Hx. apply list_elem_of_In.
    apply list_elem_of_fmap in Hx as (i & -> & Hi%elem_of_seq). destruct (H i) as [s Hs]; [lia|].
    apply find_id_Some in Hs as (Hin & se & Hse & Hid). apply list_elem_of_fmap. exists s. split; [|done].
    unfold id_of. by rewrite Hse.
Qed.

(** C33. A client with fewer than 2^32 - 1 open sessions always gets an id for a new one (the search ends
    within as many steps as there are sessions), which is not 0 and not in use in its list. *)
Theorem new_session_id_fresh m l :
  (forall s se, s ∈ l -> m !! s = Some se -> 1 <= s_id se <= UINT32_MAX) -> Z.of_nat (length l) < UINT32_MAX ->
  1 <= new_session_id m l <= UINT32_MAX /\
  (forall s se, s ∈ l -> m !! s = Some se -> s_id se <> new_session_id m l).
Proof.
  intros Hr Hl. unfold new_session_id.
  set (id0 := match last l with Some s => _ | None => 1 end).
  assert (1 <= id0 <= UINT32_MAX) as Hid.
  { subst id0. destruct (last l) as [s|] eqn:E; [|done]. apply last_Some_elem_of in E.
    destruct (m !! s) as [se|] eqn:Es; [|done]. rewrite <- (nth_id_0 (s_id se)), next_id_nth by eauto. apply nth_id_range. }
  pose proof (new_id_loop_cases (S (length l)) m l id0 0 Hid) as HC. rewrite nth_id_0 in HC by done.
  destruct HC as [(k & -> & Hf)|(j & Hj & Hf)].
  - split; [apply nth_id_range|]. intros s se Hs Hse E. by eapply find_id_None.
  - exfalso. assert (S (length l) <= j)%nat as Hlen.
    { destruct Hj as [->|[Hj1 E]]; [lia|]. destruct (decide (Z.of_nat j < UINT32_MAX)); [|unfold UINT32_MAX in *; lia].
      exfalso. apply (nth_id_inj id0 0 j); [lia|lia|]. by rewrite nth_id_0, E. }
    assert (S (length l) <= length l)%nat; [|lia]. apply (ids_in_use m l id0); [lia|]. intros i Hi. apply Hf. lia.
Qed.

(** ** Deadlines *)

(** The deadline of an invocation with a time-out is infinite when none is asked for, when there is no
    clock or when the seconds overflow; else, with [millis] of the clock below 1000, it is the time given by the clock
    plus the time-out, unless the milliseconds carry: then the seconds of the time-out are lost
    and one second more is added than the carry. *)
Theorem invoke_deadline_exact cancel_req_to res now :
  0 <= cancel_req_to <= UINT32_MAX -> 0 <= seconds now -> 0 <= millis now < 1000 ->
  let d := invoke_deadline cancel_req_to res now in
  let ms := seconds now * 1000 + millis now in
  (cancel_req_to = TEE_TIMEOUT_INFINITE \/ res <> TEE_SUCCESS \/ UINT32_MAX < seconds now + cancel_req_to / 1000 ->
     d = infinite_time) /\
  (cancel_req_to <> TEE_TIMEOUT_INFINITE -> res = TEE_SUCCESS -> seconds now + cancel_req_to / 1000 + 2 <= UINT32_MAX ->
     seconds d * 1000 + millis d =
       if 1000 <? millis now + cancel_req_to mod 1000 then ms + cancel_req_to mod 1000 + 1000 else ms + cancel_req_to).
Proof.
  intros Hto Hs Hm d ms. subst d ms. unfold invoke_deadline, add_overflow32.
  pose proof (Z.mod_pos_bound cancel_req_to 1000 ltac:(lia)). pose proof (Z.div_mod cancel_req_to 1000 ltac:(lia)).
  assert (0 <= cancel_req_to / 1000) by (apply Z.div_pos; lia).
  set (q := cancel_req_to / 1000) in *. set (r := cancel_req_to mod 1000) in *. split.
  - intros HC. destruct (Z.eqb_spec cancel_req_to TEE_TIMEOUT_INFINITE); [done|].
    destruct (Z.eqb_spec res TEE_SUCCESS); cbn [negb]; [|done]. destruct HC as [?|[?|?]]; [done|done|].
    rewrite (proj2 (Z.leb_gt _ _)) by lia. done.
  - intros Hne -> Hov. rewrite (proj2 (Z.eqb_neq _ _) Hne). cbn [negb Z.eqb TEE_SUCCESS].
    rewrite (proj2 (Z.leb_le _ _)) by lia. cbn [negb].
    unfold u32, UINT32_MAX in *. rewrite (Z.mod_small (millis now + r)) by lia.
    rewrite Z.gtb_ltb. destruct (Z.ltb_spec 1000 (millis now + r)).
    + rewrite (proj2 (Z.leb_le _ _)) by lia. cbn [negb seconds millis].
      rewrite (Z.mod_small (seconds now + 1)) by lia. rewrite Z.mod_small by lia. lia.
    + cbn [seconds millis]. rewrite Z.mod_small by lia. lia.
Qed.
