(* ===== verification/SessionDemo.v ===== *)
(** * Runs of the session manager

    Concrete runs: witnesses of the theorems of [SessionProps], and runs that fail where their
    assumptions on clients and TAs do not hold. *)

From S2P Require Import Prelude ErrM Session SessionLogic SessionProps.
From stdpp Require Import base gmap list.
From Stdlib Require Import ZArith Lia.

Local Open Scope Z_scope.

(** ** Scripts *)

(** What code that is not modelled does next: an answer, or what the user TA that runs does. *)
Inductive cue : Set :=
| Ans (a : Z)
| RetTA (res : Z) (panicked : bool)
| Sys (sc : syscall).

Section play.
Context (polite steady : bool) (pseudo_tas : list pseudo_ta_head).

(** The events of thread [i] until it is idle, waits, or is without a cue. *)
Fixpoint play (fuel : nat) (i : nat) (cues : list cue) (g : config) : list event :=
  match fuel with
  | O => []
  | S fuel =>
      let go e cues := match step polite steady false pseudo_tas g e with
                       | Next g => e :: play fuel i cues g
                       | _ => [e]
                       end in
      match threads g !! i, cues with
      | Some (Run (Ask _ _) _), Ans a :: cues => go (EvAnswer i a) cues
      | Some (Run (Enter _ _ _ _) _), RetTA r p :: cues => go (EvReturn i r p) cues
      | Some (Run (Enter _ _ _ _) _), Sys sc :: cues => go (EvSyscall i sc) cues
      | Some (Run (Ask _ _) _), _ | Some (Run (Enter _ _ _ _) _), _ | Some (Idle _), _ | None, _ => []
      | Some (Run _ _), _ => go (EvRun i) cues
      end
  end.

Definition after (g : config) (es : list event) : config :=
  match steps polite steady false pseudo_tas g es with Next g => g | _ => g end.

(** Requests with their cues, one after the other; without a request the thread goes on. *)
Fixpoint scene (l : list (nat * option request * list cue)) (g : config) : list event :=
  match l with
  | [] => []
  | (i, r, cues) :: l =>
      let es := match r with Some r => [EvStart i r] | None => [] end in
      let es := es ++ play 300 i cues (after g es) in
      es ++ scene l (after g es)
  end.
End play.

Definition no_params : tee_ta_param := mkParam 0 [].
Definition app : TEE_Identity := mkId 0 0.
Definition device_pta : pseudo_ta_head := mkPta 7 PTA_MANDATORY_FLAGS true false false true true true.

(** Loading a user TA at [c] for the session [s], and entering it to open the session. *)
Definition load (s c flags : Z) : list cue := [Ans 0; Ans s; Ans c; Ans 0; Ans 0; Ans flags; Ans 0; RetTA 0 false].

Definition MULTI_SESSION_INSTANCE : Z := Z.lor TA_FLAG_SINGLE_INSTANCE TA_FLAG_MULTI_SESSION.

(** The application opens sessions with TA 5, which is a single instance, TA 6 and the pseudo TA 7. *)
Definition opens : list (nat * option request * list cue) :=
  [ (0%nat, Some (ReqOpen 5 app no_params), load 100 200 MULTI_SESSION_INSTANCE);
    (1%nat, Some (ReqOpen 6 app no_params), load 101 201 0);
    (0%nat, Some (ReqOpen 7 app no_params), [Ans 0; Ans 102; Ans 202; Ans 0; Ans 0]) ].

(** Then it invokes TA 6, which opens a session with TA 5 and invokes it; it runs. *)
Definition nested : list (nat * option request * list cue) :=
  opens ++
  [ (0%nat, Some (ReqInvoke 2 1 no_params),
     [Ans 0; Ans 0; Sys (SysOpen 5 5000 no_params); Ans 0; Ans 103; Ans 0; Ans 10; Ans 0; Ans 0; RetTA 0 false; Ans 0;
      Sys (SysInvoke 1 TEE_TIMEOUT_INFINITE 2 no_params); Ans 0; Ans 0; Ans 0]) ].

(** The TA refuses the session: the kernel closes it and then reads its origin of the error. *)
Definition refused : list (nat * option request * list cue) :=
  [ (0%nat, Some (ReqOpen 5 app no_params),
     [Ans 0; Ans 100; Ans 200; Ans 0; Ans 0; Ans MULTI_SESSION_INSTANCE; Ans 0; RetTA TEE_ERROR_ACCESS_DENIED false; RetTA 0 false; Ans 77]) ].

Definition events_of (l : list (nat * option request * list cue)) : list event := scene true true [device_pta] l (boot 2).

Definition last_of (g : config) (i : nat) : option reply :=
  match threads g !! i with Some (Idle o) => o | _ => None end.

(** ** Witnesses *)

Definition is_next {A} (o : outcome_of A) : bool := match o with Next _ => true | _ => false end.
Definition final (l : list (nat * option request * list cue)) : config := after true true [device_pta] (boot 2) (events_of l).

Lemma final_reachable l :
  is_next (steps true true false [device_pta] (boot 2) (events_of l)) = true -> reachable [device_pta] 2 (final l).
Proof. intros H. exists (events_of l). unfold final, after. by destruct (steps _ _ _ _ _ _). Qed.

Lemma sessions_never_fail_witness :
  verify_pseudo_tas_conformance [device_pta] = true /\
  is_next (strict_steps true true false [device_pta] (boot 2) (events_of nested)) = true /\
  steps true true false [device_pta] (boot 2) (events_of nested) <> Bad /\
  strict_steps true true false [device_pta] (boot 2) (events_of refused) = Bad /\
  exists es1 i a es2 g res, events_of refused = es1 ++ EvAnswer i a :: es2 /\
    strict_steps true true false [device_pta] (boot 2) es1 = Next g /\ freed_read i g = Some res /\ res <> TEE_SUCCESS.
Proof.
  split; [reflexivity|]. split; [vm_compute; reflexivity|].
  split; [apply (sessions_never_fail [device_pta] 2 (events_of nested)); reflexivity|].
  split; [vm_compute; reflexivity|].
  apply (sessions_never_fail [device_pta] 2 (events_of refused)); [reflexivity|vm_compute; reflexivity].
Defined.

(** One thread is in TA 6 and, from there, in TA 5. *)
Lemma ta_instances_exclusive_witness :
  enters <$> threads (final nested) = [[200; 201]; []] /\ NoDup (concat (enters <$> threads (final nested))).
Proof.
  split; [vm_compute; reflexivity|].
  apply (ta_instances_exclusive [device_pta] 2 (final nested)); [reflexivity|].
  apply final_reachable. vm_compute. reflexivity.
Defined.

Lemma idle_sessions_exact_witness :
  tee_open_sessions (mem (final opens)) = [100; 101; 102] /\ tee_ctxes (mem (final opens)) = [200; 201; 202] /\
  single_thread (mem (final opens)) = None.
Proof.
  split; [vm_compute; reflexivity|split; [vm_compute; reflexivity|]].
  apply (idle_sessions_exact [device_pta] 2 (final opens)).
  - reflexivity.
  - apply final_reachable. vm_compute. reflexivity.
  - intros i th H.
    assert (threads (final opens) = [Idle (Some (mkReply 0 3 4)); Idle (Some (mkReply 0 2 4))]) as E by (vm_compute; reflexivity).
    rewrite E in H. clear E. destruct i as [|[|i]]; [injection H as <-; eexists; reflexivity|injection H as <-; eexists; reflexivity|discriminate H].
Defined.

Lemma session_ids_unique_witness :
  tee_open_sessions (mem (final nested)) = [100; 101; 102] /\ sessions_of (LCtx 201) (mem (final nested)) = [103] /\
  (forall s, s ∈ sessions_of (LCtx 201) (mem (final nested)) -> is_Some (sesss (mem (final nested)) !! s)).
Proof.
  split; [vm_compute; reflexivity|split; [vm_compute; reflexivity|]].
  apply (session_ids_unique [device_pta] 2 (final nested) (LCtx 201)); [reflexivity|].
  apply final_reachable. vm_compute. reflexivity.
Defined.

(** The last session has the greatest id: the search starts again from 1 and skips it. *)
Definition two_sessions : gmap Z tee_ta_session :=
  <[100 := fresh_session 1 LNsec]> (<[101 := fresh_session UINT32_MAX LNsec]> ∅).

Lemma new_session_id_fresh_witness :
  new_session_id two_sessions [100; 101] = 2 /\ 1 <= new_session_id two_sessions [100; 101] <= UINT32_MAX.
Proof.
  split; [vm_compute; reflexivity|].
  apply (new_session_id_fresh two_sessions [100; 101]).
  - intros s se Hs H. rewrite !elem_of_cons in Hs. destruct Hs as [->|[->|Hs]].
    + vm_compute in H. injection H as <-. cbn. unfold UINT32_MAX. lia.
    + vm_compute in H. injection H as <-. cbn. unfold UINT32_MAX. lia.
    + by apply elem_of_nil in Hs.
  - vm_compute. reflexivity.
Defined.

(** A time-out of 5.6 s at 10.5 s is at 12.1 s, not at 16.1 s. *)
Lemma invoke_deadline_exact_witness :
  invoke_deadline 5600 TEE_SUCCESS (mkTime 10 500) = mkTime 12 100 /\
  seconds (invoke_deadline 5600 TEE_SUCCESS (mkTime 10 500)) * 1000 + millis (invoke_deadline 5600 TEE_SUCCESS (mkTime 10 500)) = 12100.
Proof.
  split; [reflexivity|].
  apply (invoke_deadline_exact 5600 TEE_SUCCESS (mkTime 10 500)); unfold UINT32_MAX; cbn; try lia; try done.
Defined.

(** ** Where the assumptions fail *)

(** The client closes session 1 from two threads; the second request runs between the lookup and the use of
    the session by the first. *)
Definition two_closes : list event :=
  let open := scene false true [] [(0%nat, Some (ReqOpen 5 app no_params), load 100 200 0)] (boot 2) in
  let first := [EvStart 0 (ReqClose 1); EvRun 0; EvRun 0] in
  let g := after false true [] (after false true [] (boot 2) open) first in
  open ++ first ++ scene false true [] [(1%nat, Some (ReqClose 1), [RetTA 0 false])] g ++ [EvRun 0].

(** TA 6 has a session with TA 5, which panics when the application invokes it; then TA 6 invokes it. *)
Definition panic_of_callee : list event :=
  scene true false []
    [ (0%nat, Some (ReqOpen 5 app no_params), load 100 200 MULTI_SESSION_INSTANCE);
      (0%nat, Some (ReqOpen 6 app no_params), load 101 201 0);
      (0%nat, Some (ReqInvoke 2 1 no_params),
        [Ans 0; Ans 0; Sys (SysOpen 5 TEE_TIMEOUT_INFINITE no_params); Ans 0; Ans 103; Ans 0; RetTA 0 false; Ans 0; RetTA 0 false]);
      (0%nat, Some (ReqInvoke 1 1 no_params), [Ans 0; Ans 0; RetTA 0 true]);
      (0%nat, Some (ReqInvoke 2 1 no_params),
        [Ans 0; Ans 0; Sys (SysInvoke 1 TEE_TIMEOUT_INFINITE 2 no_params); Ans 0]) ] (boot 1).

(** What the theorems on runs assume of clients and of panics is needed: a client that closes a session from
    two threads makes the kernel use a session that was freed, and after a TA has panicked a call of another TA that has
    a session with it follows a null pointer. *)
Example sessions_assumptions_needed :
  steps false true false [] (boot 2) two_closes = Bad /\ steps true false false [] (boot 1) panic_of_callee = Bad.
Proof. split; vm_compute; reflexivity. Qed.
