(* ===== verification/Shm.v ===== *)
(** * Shared memory registered by normal world: [core/arch/arm/mm/mobj_dyn_shm.c]

    Memory objects over pages of normal world, found by a cookie, with the reference counter of
    [core/include/mm/mobj.h]. What a thread does under a spin lock, or by one atomic
    operation, is one action of the monad of [ErrM]; an object that was freed is not read or
    written ([RPanic]). Allocation, the pool of addresses and the translation tables answer through
    arguments. *)

From S2P Require Import Prelude ErrM WaitQueue Mutex RecMutex.
From stdpp Require Import base gmap list.
From Stdlib Require Import ZArith Lia.

Local Open Scope Z_scope.

(** ** Data *)

Definition SMALL_PAGE_SIZE : Z := 4096.
Definition SMALL_PAGE_MASK : Z := 4095.
(** [sizeof(struct mobj_reg_shm)] and [sizeof(paddr_t)] on AArch64. *)
Definition SIZEOF_MOBJ_REG_SHM : Z := 72.
Definition SIZEOF_PADDR : Z := 8.

(** [struct mobj_reg_shm]; [mm]: where it is mapped. *)
Record mobj_reg_shm : Set := mkShm {
  size : Z; refc : Z; cookie : Z; mm : option Z; page_offset : Z; mapcount : Z;
  guarded : bool; releasing : bool; release_frees : bool; pages : list Z }.

(** The objects allocated, [reg_shm_list] and [shm_release_waiters]. *)
Record shm_st : Set := mkShmSt { shms : gmap Z mobj_reg_shm; reg_shm_list : list Z; shm_release_waiters : Z }.

Definition set_refc (n : Z) (r : mobj_reg_shm) :=
  mkShm (size r) n (cookie r) (mm r) (page_offset r) (mapcount r) (guarded r) (releasing r) (release_frees r) (pages r).
Definition set_mm (a : option Z) (r : mobj_reg_shm) :=
  mkShm (size r) (refc r) (cookie r) a (page_offset r) (mapcount r) (guarded r) (releasing r) (release_frees r) (pages r).
Definition set_mapcount (n : Z) (r : mobj_reg_shm) :=
  mkShm (size r) (refc r) (cookie r) (mm r) (page_offset r) n (guarded r) (releasing r) (release_frees r) (pages r).
Definition set_guarded (b : bool) (r : mobj_reg_shm) :=
  mkShm (size r) (refc r) (cookie r) (mm r) (page_offset r) (mapcount r) b (releasing r) (release_frees r) (pages r).
Definition set_releasing (b : bool) (r : mobj_reg_shm) :=
  mkShm (size r) (refc r) (cookie r) (mm r) (page_offset r) (mapcount r) (guarded r) b (release_frees r) (pages r).
Definition set_release_frees (b : bool) (r : mobj_reg_shm) :=
  mkShm (size r) (refc r) (cookie r) (mm r) (page_offset r) (mapcount r) (guarded r) (releasing r) b (pages r).

Definition set_shms (m : gmap Z mobj_reg_shm) (σ : shm_st) : shm_st := mkShmSt m (reg_shm_list σ) (shm_release_waiters σ).
Definition set_list (l : list Z) (σ : shm_st) : shm_st := mkShmSt (shms σ) l (shm_release_waiters σ).
Definition set_waiters (n : Z) (σ : shm_st) : shm_st := mkShmSt (shms σ) (reg_shm_list σ) n.

Definition rd {A} (m : Z) (f : mobj_reg_shm -> A) : M shm_st A := fun σ =>
  match shms σ !! m with Some r => (ROk (f r), σ) | None => (RPanic, σ) end.
Definition wr (m : Z) (f : mobj_reg_shm -> mobj_reg_shm) : M shm_st unit := fun σ =>
  match shms σ !! m with Some r => (ROk tt, set_shms (<[m := f r]> (shms σ)) σ) | None => (RPanic, σ) end.

(** ** References: [mobj_get], [mobj_put] *)

(** [mobj_get]: no reference can be taken to an object without one. *)
Definition mobj_get (m : Z) : M shm_st unit :=
  n ← rd m refc;
  match refcount_inc n [] with
  | (Some n', _) => wr m (set_refc n')
  | (None, _) => panic
  end.

(** [refcount_dec] of [mobj_put]: whether it was the last one. *)
Definition mobj_put_dec (m : Z) : M shm_st bool :=
  n ← rd m refc;
  match refcount_dec n [] with
  | Return (n', last) => wr m (set_refc n') ;; mret last
  | Panic => panic
  end.

(** [SLIST_REMOVE] and [free], after [reg_shm_unmap_helper] where it is mapped. *)
Definition reg_shm_free_helper (m : Z) : M shm_st unit :=
  _ ← rd m mm;
  modify (fun σ => set_list (filter (fun x => x <> m) (reg_shm_list σ)) (set_shms (delete m (shms σ)) σ)).

Definition mobj_reg_shm_free (m : Z) : M shm_st unit :=
  g ← rd m guarded; b ← rd m releasing;
  if g && negb b then reg_shm_free_helper m else wr m (set_release_frees true).

Definition mobj_put (m : Z) : M shm_st unit :=
  last ← mobj_put_dec m;
  if (last : bool) then mobj_reg_shm_free m else mret tt.

(** ** Mapping *)

(** The first test of [mobj_reg_shm_inc_map]: whether it was mapped already. *)
Definition inc_map_fast (m : Z) : M shm_st bool :=
  n ← rd m mapcount;
  match refcount_inc n [] with
  | (Some n', _) => wr m (set_mapcount n') ;; mret true
  | (None, _) => mret false
  end.

(** The rest, under [reg_shm_map_lock]: [va] is what [tee_mm_alloc] finds, [res] the result of
    [core_mmu_map_pages]. *)
Definition inc_map_slow (m : Z) (va : option Z) (res : Z) : M shm_st Z :=
  n ← rd m mapcount;
  if negb (n =? 0) then mret TEE_SUCCESS
  else
    a ← rd m mm;
    assert_ (bool_decide (a = None)) ;;
    match va with
    | None => mret TEE_ERROR_OUT_OF_MEMORY
    | Some v =>
        wr m (set_mm (Some v)) ;;
        if negb (res =? TEE_SUCCESS) then wr m (set_mm None) ;; mret res
        else wr m (set_mapcount (refcount_set n 1)) ;; mret TEE_SUCCESS
    end.

Definition dec_map_fast (m : Z) : M shm_st bool :=
  n ← rd m mapcount;
  match refcount_dec n [] with
  | Return (n', last) => wr m (set_mapcount n') ;; mret last
  | Panic => panic
  end.

(** [reg_shm_unmap_helper] dereferences [r->mm]. *)
Definition dec_map_slow (m : Z) : M shm_st unit :=
  n ← rd m mapcount;
  if negb (n =? 0) then mret tt
  else a ← rd m mm; assert_ (bool_decide (a <> None)) ;; wr m (set_mm None).

Definition mobj_inc_map (m : Z) (va : option Z) (res : Z) : M shm_st Z :=
  b ← inc_map_fast m;
  if (b : bool) then mret TEE_SUCCESS else inc_map_slow m va res.

Definition mobj_dec_map (m : Z) : M shm_st unit :=
  b ← dec_map_fast m;
  if (b : bool) then dec_map_slow m else mret tt.

(** ** Addresses *)

(** [mobj_reg_shm_get_pa]: granule 0 (an address) or a page; [pages] is not read out of bounds. *)
Definition mobj_reg_shm_get_pa (r : mobj_reg_shm) (offst granule : Z) : outcome (option Z) :=
  if offst >=? size r then Return None
  else
    let full_offset := u64 (offst + page_offset r) in
    match pages r !! Z.to_nat (full_offset / SMALL_PAGE_SIZE) with
    | None => Panic
    | Some p => Return (if granule =? 0 then Some (u64 (p + Z.land full_offset SMALL_PAGE_MASK))
                        else if granule =? SMALL_PAGE_SIZE then Some p else None)
    end.

Definition mobj_reg_shm_get_va (r : mobj_reg_shm) (offst : Z) : option Z :=
  match mm r with
  | None => None
  | Some v => if offst >=? size r then None else Some (u64 (v + offst + page_offset r))
  end.

(** ** Registration *)

Section registration.
(** [core_pbuf_is(CORE_MEM_NON_SEC, page, SMALL_PAGE_SIZE)] *)
Context (nonsec : Z -> bool).

Definition mobj_reg_shm_size (nr_pages : Z) : Z :=
  if SIZEOF_PADDR * nr_pages >? UINT64_MAX then 0
  else if SIZEOF_MOBJ_REG_SHM + SIZEOF_PADDR * nr_pages >? UINT64_MAX then 0
  else SIZEOF_MOBJ_REG_SHM + SIZEOF_PADDR * nr_pages.

Definition page_ok (p : Z) : bool := (Z.land p SMALL_PAGE_MASK =? 0) && nonsec p.

Definition new_reg_shm (ps : list Z) (offs cookie : Z) : mobj_reg_shm :=
  mkShm (u64 (u64 (Z.of_nat (length ps) * SMALL_PAGE_SIZE) - offs)) 1 cookie None offs 0 true false false ps.

(** [calloc] takes the size and gives an address, 0 when there is no memory; an address in use counts as none. *)
Definition mobj_reg_shm_alloc (calloc : Z -> Z) (ps : list Z) (offs cookie : Z) : M shm_st (option Z) :=
  let s := mobj_reg_shm_size (Z.of_nat (length ps)) in
  if (Z.of_nat (length ps) =? 0) || (offs >=? SMALL_PAGE_SIZE) || (s =? 0) then mret None
  else
    σ ← get;
    let m := calloc s in
    if (m =? 0) || bool_decide (is_Some (shms σ !! m)) then mret None
    else if negb (forallb page_ok ps) then mret None
    else
      modify (fun σ => set_list (m :: reg_shm_list σ) (set_shms (<[m := new_reg_shm ps offs cookie]> (shms σ)) σ)) ;;
      mret (Some m).

(** The result of mapping a new object: [None] after a failure, which puts it back. *)
Definition mobj_mapped_shm_alloc (calloc : Z -> Z) (va : option Z) (res : Z) (ps : list Z) (offs cookie : Z) :
    M shm_st (option Z) :=
  om ← mobj_reg_shm_alloc calloc ps offs cookie;
  match om with
  | None => mret None
  | Some m =>
      res ← mobj_inc_map m va res;
      if negb (res =? TEE_SUCCESS) then mobj_put m ;; mret None else mret (Some m)
  end.

Definition mobj_reg_shm_unguard (m : Z) : M shm_st unit := wr m (set_guarded false).

Fixpoint find_cookie (s : gmap Z mobj_reg_shm) (c : Z) (l : list Z) : option Z :=
  match l with
  | [] => None
  | m :: l => match s !! m with
              | Some r => if cookie r =? c then Some m else find_cookie s c l
              | None => find_cookie s c l
              end
  end.

Definition reg_shm_find_unlocked (c : Z) : M shm_st (option Z) := gets (fun σ => find_cookie (shms σ) c (reg_shm_list σ)).

(** The reference is taken after the lock was given back. *)
Definition mobj_reg_shm_get_by_cookie (c : Z) : M shm_st (option Z) :=
  om ← reg_shm_find_unlocked c;
  match om with
  | None => mret None
  | Some m => mobj_get m ;; mret (Some m)
  end.

(** [mobj_reg_shm_release_by_cookie], in the sections between which other threads run: finding the object; its put; *)
Definition release_find (c : Z) : M shm_st (option Z) :=
  om ← reg_shm_find_unlocked c;
  match om with
  | None => mret None
  | Some m =>
      g ← rd m guarded; b ← rd m releasing;
      if (g : bool) || (b : bool) then mret None else wr m (set_releasing true) ;; mret (Some m)
  end.

(** ... waiting for it; *)
Definition release_wait : M shm_st unit :=
  n ← gets shm_release_waiters;
  modify (set_waiters (u64 (n + 1))) ;;
  assert_ (negb (u64 (n + 1) =? 0)).

(** ... one look whether it may be freed, and the end. *)
Definition release_try (m : Z) : M shm_st bool :=
  b ← rd m release_frees;
  if (b : bool) then
    reg_shm_free_helper m ;;
    n ← gets shm_release_waiters;
    assert_ (negb (n =? 0)) ;;
    modify (set_waiters (u64 (n - 1))) ;;
    mret true
  else mret false.
End registration.

(** The state without an object. *)
Definition freed (m : Z) (σ : shm_st) : shm_st := set_list (filter (fun x => x <> m) (reg_shm_list σ)) (set_shms (delete m (shms σ)) σ).

(** ** Running the code on an object that exists *)

Lemma rd_at {A B} m r (f : mobj_reg_shm -> A) (k : A -> M shm_st B) σ : shms σ !! m = Some r -> (rd m f ≫= k) σ = k (f r) σ.
Proof. intros H. unfold mbind, M_mbind, m_bind, rd. by rewrite H. Qed.

Lemma wr_at {B} m r f (k : M shm_st B) σ : shms σ !! m = Some r -> (wr m f ;; k) σ = k (set_shms (<[m := f r]> (shms σ)) σ).
Proof. intros H. unfold mbind, M_mbind, m_bind, wr. by rewrite H. Qed.

Lemma wr_end m r f σ : shms σ !! m = Some r -> wr m f σ = (ROk tt, set_shms (<[m := f r]> (shms σ)) σ).
Proof. intros H. unfold wr. by rewrite H. Qed.

Lemma refcount_inc_at n : n <> 0 -> 0 <= n < UINT32_MAX -> refcount_inc n [] = (Some (n + 1), true).
Proof.
  intros H Hn. cbn. rewrite (proj2 (Z.eqb_neq _ _) H), u32_small; [done|]. unfold is_u32, UINT32_MAX in *. lia.
Qed.

Lemma refcount_dec_at n : 0 < n <= UINT32_MAX -> refcount_dec n [] = Return (n - 1, n - 1 =? 0).
Proof.
  intros Hn. cbn. rewrite (proj2 (Z.eqb_neq _ _)) by lia. cbn. rewrite u32_small; [done|]. unfold is_u32, UINT32_MAX in *. lia.
Qed.

Lemma set_shms_id σ m r : shms σ !! m = Some r -> set_shms (<[m := r]> (shms σ)) σ = σ.
Proof. intros H. destruct σ. unfold set_shms. cbn in *. by rewrite insert_id. Qed.

(** An object found by its cookie is in the list. *)
Lemma find_cookie_Some s c l m : find_cookie s c l = Some m -> m ∈ l /\ exists r, s !! m = Some r /\ cookie r = c.
Proof.
  induction l as [|x l IH]; cbn; [done|]. destruct (s !! x) as [r|] eqn:E.
  - destruct (Z.eqb_spec (cookie r) c) as [Hc|].
    + intros [= <-]. split; [left|eauto].
    + intros H. destruct (IH H). split; [by right|done].
  - intros H. destruct (IH H). split; [by right|done].
Qed.

Lemma find_at {B} c (k : option Z -> M shm_st B) σ :
  (reg_shm_find_unlocked c ≫= k) σ = k (find_cookie (shms σ) c (reg_shm_list σ)) σ.
Proof. done. Qed.

Lemma release_try_at m r σ :
  shms σ !! m = Some r -> release_frees r = true -> 0 < shm_release_waiters σ <= UINT64_MAX ->
  release_try m σ = (ROk true, set_waiters (shm_release_waiters σ - 1) (freed m σ)).
Proof.
  intros Hr Hf Hw. unfold release_try. rewrite (rd_at _ _ _ _ _ Hr), Hf.
  unfold reg_shm_free_helper, mbind, M_mbind, m_bind, rd. rewrite Hr. unfold modify, gets, assert_.
  cbn -[u64]. rewrite (proj2 (Z.eqb_neq _ _)) by lia. cbn -[u64]. rewrite u64_small; [done|].
  unfold is_u64, UINT64_MAX in *. lia.
Qed.
