(* ===== verification/ShmRefs.v ===== *)
(** * References to registered shared memory under interleaving

    Threads use the operations of [Shm] in any interleaving of their atomic sections; a token for each
    reference, mapping and wait in progress says what a thread may do. The invariant ties the counters to
    the tokens. *)

From S2P Require Import Prelude ErrM WaitQueue Mutex RecMutex Shm.
From stdpp Require Import base gmap list.
From Stdlib Require Import ZArith Lia.

Local Open Scope Z_scope.

(** ** Threads *)

Inductive tok : Set :=
| TRef (m : Z) (fresh mapped : bool)  (* a reference, from [mobj_reg_shm_alloc] if [fresh], with a count of mapping *)
| TMapping (m : Z) (fresh : bool)     (* a reference, in [mobj_reg_shm_inc_map] after its first test *)
| TUnmapping (m : Z) (fresh : bool)   (* a reference, in [mobj_reg_shm_dec_map] after the last decrement *)
| TFound (m : Z)                      (* in [mobj_reg_shm_get_by_cookie] before [mobj_get] *)
| TDying (m : Z)                      (* in [mobj_put] before [mobj_reg_shm_free] *)
| TRelease (m : Z)                    (* in [mobj_reg_shm_release_by_cookie] before it waits *)
| TWait (m : Z).                      (* waiting there *)

#[export] Instance tok_eq_dec : EqDecision tok.
Proof. solve_decision. Defined.

Definition obj (tk : tok) : Z :=
  match tk with TRef m _ _ | TMapping m _ | TUnmapping m _ | TFound m | TDying m | TRelease m | TWait m => m end.

Record cfg : Type := mkCfg { shm : shm_st; toks : list tok }.

Inductive event : Type :=
| EvAlloc (a : Z) (ps : list Z) (offs c : Z)
| EvUnguard (m : Z)
| EvFind (c : Z)
| EvGet (m : Z)
| EvPut (m : Z) (fresh mapped : bool)
| EvFree (m : Z)
| EvRelease (c : Z)
| EvWait (m : Z)
| EvTry (m : Z)
| EvMap (m : Z) (fresh : bool)
| EvMapSlow (m : Z) (fresh : bool) (va : option Z) (res : Z)
| EvUnmap (m : Z) (fresh : bool)
| EvUnmapSlow (m : Z) (fresh : bool).

Inductive outcome_of (A : Type) : Type :=
| Next (a : A)
| Disabled
| Rude
| Bad.
Arguments Next {A}.
Arguments Disabled {A}.
Arguments Rude {A}.
Arguments Bad {A}.

Definition is_mapping (tk : tok) : bool := match tk with TMapping _ _ => true | _ => false end.
Definition is_unmapping (tk : tok) : bool := match tk with TUnmapping _ _ => true | _ => false end.
Definition at_obj (m : Z) (k : tok -> bool) (tk : tok) : bool := (obj tk =? m) && k tk.

(** A thread uses up a token. *)
Fixpoint take_tok (tk : tok) (l : list tok) : option (list tok) :=
  match l with
  | [] => None
  | x :: l => if decide (x = tk) then Some l else (cons x) <$> take_tok tk l
  end.

Section machine.
(** [polite]: a cookie is not used while the last reference to its object is given back, and two threads do not map or unmap
    an object at once. *)
Context (nonsec : Z -> bool) (polite : bool).

Definition run {X} (m : M shm_st X) (k : X -> list tok) (g : cfg) : outcome_of cfg :=
  match m (shm g) with
  | (ROk x, σ) => Next (mkCfg σ (k x))
  | (RErr _, _) => Disabled
  | (RPanic, _) => Bad
  end.

Definition with_tok (tk : tok) (g : cfg) (f : list tok -> outcome_of cfg) : outcome_of cfg :=
  match take_tok tk (toks g) with Some l => f l | None => Disabled end.

Definition counter (f : mobj_reg_shm -> Z) (m : Z) (g : cfg) : Z := default 0 (f <$> shms (shm g) !! m).

(** Another thread maps or unmaps [m]. *)
Definition busy_map (m : Z) (l : list tok) : bool := existsb (at_obj m (fun tk => is_mapping tk || is_unmapping tk)) l.

(** Counters of 32 and 64 bits do not overflow: fewer threads and references than that fit in memory. *)
Definition step (g : cfg) (e : event) : outcome_of cfg :=
  match e with
  | EvAlloc a ps offs c =>
      run (mobj_reg_shm_alloc nonsec (fun _ => a) ps offs c)
        (fun om => match om with Some m => TRef m true false :: toks g | None => toks g end) g
  | EvUnguard m => with_tok (TRef m true false) g (fun l => run (mobj_reg_shm_unguard m) (fun _ => l) g)
  | EvFind c =>
      match find_cookie (shms (shm g)) c (reg_shm_list (shm g)) with
      | Some m => if polite && (counter refc m g =? 0) then Rude
                  else run (reg_shm_find_unlocked c) (fun _ => TFound m :: toks g) g
      | None => Next g
      end
  | EvGet m => with_tok (TFound m) g (fun l =>
      if counter refc m g >=? UINT32_MAX then Disabled else run (mobj_get m) (fun _ => TRef m false false :: l) g)
  | EvPut m fr mp => with_tok (TRef m fr mp) g (fun l =>
      if polite && (counter refc m g =? 1) && bool_decide (TFound m ∈ l) then Rude
      else run (mobj_put_dec m) (fun last => if (last : bool) then TDying m :: l else l) g)
  | EvFree m => with_tok (TDying m) g (fun l => run (mobj_reg_shm_free m) (fun _ => l) g)
  | EvRelease c =>
      run (release_find c)
        (fun om => match om with Some m => TRef m false false :: TRelease m :: toks g | None => toks g end) g
  | EvWait m => with_tok (TRelease m) g (fun l =>
      if shm_release_waiters (shm g) >=? UINT64_MAX then Disabled else run release_wait (fun _ => TWait m :: l) g)
  | EvTry m => with_tok (TWait m) g (fun l => run (release_try m) (fun b => if (b : bool) then l else TWait m :: l) g)
  | EvMap m fr => with_tok (TRef m fr false) g (fun l =>
      if polite && busy_map m l then Rude
      else if counter mapcount m g >=? UINT32_MAX then Disabled
      else run (inc_map_fast m) (fun b => if (b : bool) then TRef m fr true :: l else TMapping m fr :: l) g)
  | EvMapSlow m fr va res => with_tok (TMapping m fr) g (fun l =>
      run (inc_map_slow m va res) (fun r => TRef m fr (r =? TEE_SUCCESS) :: l) g)
  | EvUnmap m fr => with_tok (TRef m fr true) g (fun l =>
      if polite && busy_map m l then Rude
      else run (dec_map_fast m) (fun b => if (b : bool) then TUnmapping m fr :: l else TRef m fr false :: l) g)
  | EvUnmapSlow m fr => with_tok (TUnmapping m fr) g (fun l =>
      run (dec_map_slow m) (fun _ => TRef m fr false :: l) g)
  end.

Fixpoint steps (g : cfg) (es : list event) : outcome_of cfg :=
  match es with
  | [] => Next g
  | e :: es => match step g e with Next g => steps g es | o => o end
  end.

Definition init : cfg := mkCfg (mkShmSt ∅ [] 0) [].
End machine.

(** ** The invariant *)

Definition is_ref (tk : tok) : bool := match tk with TRef _ _ _ | TMapping _ _ | TUnmapping _ _ => true | _ => false end.
Definition is_fresh (tk : tok) : bool := match tk with TRef _ f _ | TMapping _ f | TUnmapping _ f => f | _ => false end.
Definition is_mapped (tk : tok) : bool := match tk with TRef _ _ b => b | _ => false end.
Definition is_found (tk : tok) : bool := match tk with TFound _ => true | _ => false end.
Definition is_dying (tk : tok) : bool := match tk with TDying _ => true | _ => false end.
Definition is_rel (tk : tok) : bool := match tk with TRelease _ | TWait _ => true | _ => false end.
Definition is_wait (tk : tok) : bool := match tk with TWait _ => true | _ => false end.

Record shm_ok (T : list tok) (m : Z) (r : mobj_reg_shm) : Prop := {
  k_refc : refc r = cnt (at_obj m is_ref) T + b2z (negb (guarded r) && negb (releasing r));
  k_range : refc r <= UINT32_MAX;
  k_fresh : cnt (at_obj m is_fresh) T <= b2z (guarded r);
  k_guarded : guarded r = true -> releasing r = false /\ release_frees r = false /\ cnt (at_obj m is_rel) T = 0 /\
    cnt (at_obj m is_dying) T = b2z (refc r =? 0);
  k_registered : guarded r = false -> releasing r = false ->
    release_frees r = false /\ cnt (at_obj m is_rel) T = 0 /\ cnt (at_obj m is_dying) T = 0;
  k_releasing : releasing r = true ->
    cnt (at_obj m is_rel) T = 1 /\ cnt (at_obj m is_dying) T + b2z (release_frees r) = b2z (refc r =? 0);
  k_found : 0 < cnt (at_obj m is_found) T -> 0 < refc r;
  k_map : cnt (at_obj m is_mapped) T <= mapcount r <= UINT32_MAX;
  k_busy : cnt (at_obj m is_mapping) T + cnt (at_obj m is_unmapping) T <= b2z (mapcount r =? 0);
  k_mm : mm r = None <-> mapcount r = 0 /\ cnt (at_obj m is_unmapping) T = 0 }.

Record Inv (σ : shm_st) (T : list tok) : Prop := {
  i_obj : forall m r, shms σ !! m = Some r -> shm_ok T m r;
  i_tok : forall tk, tk ∈ T -> is_Some (shms σ !! obj tk);
  i_list : forall m, m ∈ reg_shm_list σ <-> is_Some (shms σ !! m);
  i_wait : shm_release_waiters σ = cnt is_wait T;
  i_max : shm_release_waiters σ <= UINT64_MAX }.

Lemma take_tok_perm tk T l : take_tok tk T = Some l -> T ≡ₚ tk :: l.
Proof.
  revert l. induction T as [|x T IH]; cbn; [done|]. intros l. case_decide as E; [by intros [= <-]; rewrite E|].
  destruct (take_tok tk T) as [l'|]; [|done]. intros [= <-]. rewrite (IH l') by done. constructor.
Qed.

Lemma take_tok_None tk T : take_tok tk T = None -> tk ∉ T.
Proof.
  induction T as [|x T IH]; cbn; [intros _; apply not_elem_of_nil|]. case_decide as E; [done|].
  destruct (take_tok tk T); [done|]. intros _ [Ex|Hx]%elem_of_cons; [by subst|by apply IH].
Qed.

#[export] Instance shm_ok_perm : Proper ((≡ₚ) ==> eq ==> eq ==> iff) shm_ok.
Proof.
  intros T T' HT m ? <- r ? <-. assert (forall f, cnt f T' = cnt f T) as Hc by (intros; by rewrite HT).
  split; intros [] ; split; rewrite ?Hc in *; auto.
Qed.

#[export] Instance Inv_perm : Proper (eq ==> (≡ₚ) ==> iff) Inv.
Proof.
  assert (forall σ T T', T ≡ₚ T' -> Inv σ T -> Inv σ T') as G.
  { intros σ T T' HT [H1 H2 H3 H4 H5]. split; [|by setoid_rewrite <- HT|done|by rewrite <- HT|done].
    intros m r Hm. rewrite <- HT. auto. }
  intros σ ? <- T T' HT. split; apply G; [done|by symmetry].
Qed.

(** Counts of an object do not see tokens of others. *)
Lemma cnt_other m x k A l : x <> m -> (forall tk, tk ∈ A -> obj tk = m) -> cnt (at_obj x k) (A ++ l) = cnt (at_obj x k) l.
Proof.
  intros Hx HA. rewrite cnt_app, (cnt_none (at_obj x k) A); [lia|]. intros tk Htk. unfold at_obj.
  rewrite (HA tk Htk). by rewrite (proj2 (Z.eqb_neq _ _)).
Qed.

Lemma shm_ok_other m x r A B l :
  x <> m -> (forall tk, tk ∈ A -> obj tk = m) -> (forall tk, tk ∈ B -> obj tk = m) ->
  shm_ok (A ++ l) x r -> shm_ok (B ++ l) x r.
Proof.
  intros Hx HA HB []. split; rewrite ?(cnt_other m x _ A) in * by done; rewrite ?(cnt_other m x _ B) by done; auto.
Qed.

(** One object changes, with the tokens on it. *)
Lemma Inv_step σ σ' A B l m r r' :
  Inv σ (A ++ l) -> shms σ !! m = Some r -> shms σ' = <[m := r']> (shms σ) -> reg_shm_list σ' = reg_shm_list σ ->
  shm_release_waiters σ' = shm_release_waiters σ + cnt is_wait B - cnt is_wait A -> shm_release_waiters σ' <= UINT64_MAX ->
  (forall tk, tk ∈ A -> obj tk = m) -> (forall tk, tk ∈ B -> obj tk = m) ->
  shm_ok (B ++ l) m r' -> Inv σ' (B ++ l).
Proof.
  intros [H1 H2 H3 H4 H5] Hm Hs Hl Hw Hw' HA HB Hok.
  assert (forall x, is_Some (shms σ' !! x) <-> is_Some (shms σ !! x)) as Hx.
  { intros x. rewrite Hs. destruct (decide (x = m)) as [->|]; [rewrite lookup_insert_eq, Hm; split; eauto|by rewrite lookup_insert_ne]. }
  split.
  - intros x rx. rewrite Hs. destruct (decide (x = m)) as [->|Hne]; [rewrite lookup_insert_eq; by intros [= <-]|].
    rewrite lookup_insert_ne by done. intros Hxx. eapply (shm_ok_other m x rx A B); [done|done|done|auto].
  - intros tk. rewrite elem_of_app, Hx. intros [Htk|Htk]; [rewrite (HB tk Htk); eauto|apply H2, elem_of_app; auto].
  - intros x. by rewrite Hl, Hx.
  - rewrite Hw, H4, !cnt_app. lia.
  - done.
Qed.

(** One object goes. *)
Lemma Inv_delete σ σ' A l m :
  Inv σ (A ++ l) -> shms σ' = delete m (shms σ) -> reg_shm_list σ' = filter (fun x => x <> m) (reg_shm_list σ) ->
  shm_release_waiters σ' = shm_release_waiters σ - cnt is_wait A ->
  (forall tk, tk ∈ A -> obj tk = m) -> (forall tk, tk ∈ l -> obj tk <> m) -> Inv σ' l.
Proof.
  intros [H1 H2 H3 H4 H5] Hs Hl Hw HA Hno. split.
  - intros x rx. rewrite Hs, lookup_delete_Some. intros [Hne Hx]. apply (shm_ok_other m x rx A []); [done|done| |auto].
    by intros tk ?%elem_of_nil.
  - intros tk Htk. rewrite Hs, lookup_delete_ne by (intros E; by apply (Hno tk Htk)). apply H2, elem_of_app; auto.
  - intros x. rewrite Hl, Hs, list_elem_of_filter, H3. destruct (decide (x = m)) as [->|Hne].
    + rewrite lookup_delete_eq. split; [by intros []|by intros [? ?]].
    + rewrite lookup_delete_ne by done. tauto.
  - rewrite Hw, H4, cnt_app. lia.
  - pose proof (cnt_nonneg is_wait A). lia.
Qed.

Lemma cnt_tok m k tk l : obj tk = m -> cnt (at_obj m k) (tk :: l) = b2z (k tk) + cnt (at_obj m k) l.
Proof. intros <-. rewrite cnt_cons. unfold at_obj at 1. by rewrite Z.eqb_refl. Qed.

Lemma mm_none {A} (P : Prop) : P -> ((@None A) = None <-> P).
Proof. done. Qed.

Lemma mm_some {A} (v : A) (P : Prop) : ~ P -> (Some v = None <-> P).
Proof. by intros; split. Qed.

(** Proves [shm_ok] after a change of one object from [H], its [shm_ok] before, by cases on its flags. *)
Ltac kinds := cbn [app is_ref is_fresh is_mapped is_found is_dying is_rel is_wait is_mapping is_unmapping b2z negb andb orb
  refc mm mapcount guarded releasing release_frees set_refc set_mm set_mapcount set_guarded set_releasing set_release_frees] in *.
Ltac nonneg_counts := repeat match goal with
  | H : context [cnt ?f ?l] |- _ => lazymatch goal with _ : 0 <= cnt f l |- _ => fail | _ => pose proof (cnt_nonneg f l) end end.
Ltac flag_cases := repeat match goal with
  | H : ?x = ?x -> _ |- _ => specialize (H eq_refl)
  | H : true = false -> _ |- _ => clear H
  | H : false = true -> _ |- _ => clear H
  | H : true = false |- _ => discriminate H
  | H : false = true |- _ => discriminate H
  | H : None = None <-> _ |- _ => apply proj1 in H; specialize (H eq_refl)
  | H : Some _ = None <-> _ |- _ => apply proj2 in H
  | H : _ /\ _ |- _ => destruct H
  | H : ?P -> Some _ = None |- _ => assert (~ P) by (intros HP; discriminate (H HP)); clear H
  end.
Ltac shm_tac H :=
  let K := fresh "K" in
  match type of H with shm_ok _ _ ?r => destruct r as [? ? ? [|] ? ? [] [] [] ?] end;
  destruct H; kinds; rewrite ?cnt_tok in * by reflexivity; kinds; flag_cases; nonneg_counts;
  repeat match goal with H : context [?a =? ?b] |- _ => destruct (Z.eqb_spec a b) end; kinds; try lia;
  split; kinds; rewrite ?cnt_tok by reflexivity; kinds; intros; flag_cases;
  repeat match goal with |- _ /\ _ => split | |- None = None <-> _ => apply mm_none | |- Some _ = None <-> _ => apply mm_some end;
  try reflexivity; try lia;
  repeat match goal with |- context [?a =? ?b] => destruct (Z.eqb_spec a b) end; kinds; lia.

Lemma ok_get m r l :
  shm_ok ([TFound m] ++ l) m r -> refc r < UINT32_MAX -> shm_ok ([TRef m false false] ++ l) m (set_refc (refc r + 1) r).
Proof. intros H ?. shm_tac H. Qed.

Lemma ok_new m T ps offs c :
  (forall tk, tk ∈ T -> obj tk <> m) -> shm_ok ([TRef m true false] ++ T) m (new_reg_shm ps offs c).
Proof.
  intros H. assert (forall k, cnt (at_obj m k) T = 0) as Hk.
  { intros k. apply cnt_none. intros tk Htk. unfold at_obj. by rewrite (proj2 (Z.eqb_neq _ _) (H tk Htk)). }
  split; kinds; rewrite ?cnt_tok, ?Hk by reflexivity; kinds; cbn; try done; lia.
Qed.

Lemma ok_unguard m r l : shm_ok ([TRef m true false] ++ l) m r -> shm_ok ([] ++ l) m (set_guarded false r).
Proof. intros H. shm_tac H. Qed.

Lemma ok_find m r l : shm_ok ([] ++ l) m r -> 0 < refc r -> shm_ok ([TFound m] ++ l) m r.
Proof. intros H ?. shm_tac H. Qed.

Lemma ok_put m r l f b :
  shm_ok ([TRef m f b] ++ l) m r -> (refc r = 1 -> cnt (at_obj m is_found) l = 0) ->
  shm_ok ((if refc r - 1 =? 0 then [TDying m] else []) ++ l) m (set_refc (refc r - 1) r).
Proof. intros H Hf. destruct (Z.eqb_spec (refc r - 1) 0), f, b; shm_tac H. Qed.

Lemma ok_free m r l :
  shm_ok ([TDying m] ++ l) m r -> guarded r && negb (releasing r) = false -> shm_ok ([] ++ l) m (set_release_frees true r).
Proof. intros H Hg. shm_tac H. Qed.

Lemma ok_release m r l :
  shm_ok ([] ++ l) m r -> guarded r = false -> releasing r = false ->
  shm_ok ([TRef m false false; TRelease m] ++ l) m (set_releasing true r).
Proof. intros H ??. shm_tac H. Qed.

Lemma ok_wait m r l : shm_ok ([TRelease m] ++ l) m r -> shm_ok ([TWait m] ++ l) m r.
Proof. intros H. shm_tac H. Qed.

Lemma ok_map m r l f :
  shm_ok ([TRef m f false] ++ l) m r -> mapcount r <> 0 -> mapcount r < UINT32_MAX ->
  shm_ok ([TRef m f true] ++ l) m (set_mapcount (mapcount r + 1) r).
Proof. intros H ??. destruct f; shm_tac H. Qed.

Lemma ok_mapping m r l f :
  shm_ok ([TRef m f false] ++ l) m r -> mapcount r = 0 ->
  cnt (at_obj m is_mapping) l + cnt (at_obj m is_unmapping) l = 0 -> shm_ok ([TMapping m f] ++ l) m r.
Proof. intros H ??. destruct f; shm_tac H. Qed.

Lemma ok_mapped m r l f v : shm_ok ([TMapping m f] ++ l) m r -> shm_ok ([TRef m f true] ++ l) m (set_mapcount 1 (set_mm (Some v) r)).
Proof. intros H. destruct f; shm_tac H. Qed.

Lemma ok_not_mapped m r l f : shm_ok ([TMapping m f] ++ l) m r -> shm_ok ([TRef m f false] ++ l) m (set_mm None r).
Proof. intros H. destruct f; shm_tac H. Qed.

Lemma ok_unmap m r l f :
  shm_ok ([TRef m f true] ++ l) m r -> cnt (at_obj m is_mapping) l + cnt (at_obj m is_unmapping) l = 0 ->
  shm_ok ([if mapcount r - 1 =? 0 then TUnmapping m f else TRef m f false] ++ l) m (set_mapcount (mapcount r - 1) r).
Proof. intros H ?. destruct (Z.eqb_spec (mapcount r - 1) 0), f; shm_tac H. Qed.

Lemma ok_unmapped m r l f : shm_ok ([TUnmapping m f] ++ l) m r -> shm_ok ([TRef m f false] ++ l) m (set_mm None r).
Proof. intros H. destruct f; shm_tac H. Qed.

(** No token is left on an object that is freed. *)
Lemma no_tok m l :
  cnt (at_obj m is_ref) l = 0 -> cnt (at_obj m is_found) l = 0 -> cnt (at_obj m is_dying) l = 0 ->
  cnt (at_obj m is_rel) l = 0 -> forall tk, tk ∈ l -> obj tk <> m.
Proof.
  intros H1 H2 H3 H4 tk Htk <-.
  assert (forall k, k tk = true -> cnt (at_obj (obj tk) k) l <> 0) as G.
  { intros k Hk. pose proof (cnt_pos (at_obj (obj tk) k) l tk Htk). unfold at_obj in H at 1.
    rewrite Z.eqb_refl, Hk in H. specialize (H eq_refl). lia. }
  destruct tk; solve [by apply (G is_ref)|by apply (G is_found)|by apply (G is_dying)|by apply (G is_rel)].
Qed.

Lemma dying_last m r l :
  shm_ok ([TDying m] ++ l) m r -> guarded r && negb (releasing r) = true -> forall tk, tk ∈ l -> obj tk <> m.
Proof.
  intros H Hg. apply andb_true_iff in Hg as [Hg Hr]. apply no_tok; destruct H; kinds; rewrite ?cnt_tok in * by reflexivity; kinds.
  all: rewrite Hg in *; apply negb_true_iff in Hr; rewrite Hr in *; kinds; flag_cases; nonneg_counts; destruct (Z.eqb_spec (refc r) 0); kinds; lia.
Qed.

Lemma wait_last m r l :
  shm_ok ([TWait m] ++ l) m r -> release_frees r = true -> forall tk, tk ∈ l -> obj tk <> m.
Proof.
  intros H Hf. apply no_tok; destruct H, r as [? ? ? ? ? ? [] [] ? ?]; kinds; rewrite ?cnt_tok in * by reflexivity; kinds.
  all: subst; flag_cases; nonneg_counts; repeat match goal with H : context [?a =? ?b] |- _ => destruct (Z.eqb_spec a b) end; kinds; lia.
Qed.
