(* ===== verification/ShmSafe.v ===== *)
(** * Registered shared memory: no step fails

    Each step of [ShmRefs] keeps its invariant when the normal world is polite; what follows for the references
    and the mappings of an object. *)

From S2P Require Import Prelude ErrM WaitQueue Mutex RecMutex Shm ShmRefs.
From stdpp Require Import base gmap list.
From Stdlib Require Import ZArith Lia.

Local Open Scope Z_scope.

(** ** Each step keeps the invariant *)

Definition good (o : outcome_of cfg) : Prop :=
  match o with Next g => Inv (shm g) (toks g) | Bad => False | _ => True end.

Lemma good_tok tk g f : (forall l, Inv (shm g) (tk :: l) -> good (f l)) -> Inv (shm g) (toks g) -> good (with_tok tk g f).
Proof.
  intros H HI. unfold with_tok. destruct (take_tok tk (toks g)) as [l|] eqn:E; [|done].
  apply H. by rewrite <- (take_tok_perm _ _ _ E).
Qed.

(** The object of a token. *)
Lemma Inv_look σ tk l : Inv σ (tk :: l) -> exists r, shms σ !! obj tk = Some r /\ shm_ok ([tk] ++ l) (obj tk) r.
Proof. intros H. destruct (i_tok _ _ H tk) as [r Hr]; [left|]. exists r. split; [done|]. by apply (i_obj _ _ H). Qed.

(** One token becomes others on the same object, which may change. *)
Lemma Inv_tok σ tk B l r r' :
  Inv σ (tk :: l) -> shms σ !! obj tk = Some r -> shm_ok (B ++ l) (obj tk) r' ->
  (forall x, x ∈ B -> obj x = obj tk) -> cnt is_wait B = b2z (is_wait tk) ->
  Inv (set_shms (<[obj tk := r']> (shms σ)) σ) (B ++ l).
Proof.
  intros HI Hr Hok HB Hw. eapply (Inv_step σ _ [tk] B l (obj tk)); try done.
  - rewrite Hw, cnt_cons, cnt_nil. cbn. lia.
  - by apply (i_max _ _ HI).
  - by intros x ->%list_elem_of_singleton.
Qed.

Ltac tok_one := let x := fresh in intros x; rewrite ?elem_of_cons, ?elem_of_nil; intuition (subst; done).

Lemma step_get g m l :
  Inv (shm g) (TFound m :: l) -> counter refc m g < UINT32_MAX -> good (run (mobj_get m) (fun _ => TRef m false false :: l) g).
Proof.
  intros HI Hc. destruct (Inv_look _ _ _ HI) as (r & Hr & Hok). cbn in Hr, Hok. unfold counter in Hc. rewrite Hr in Hc. cbn in Hc.
  assert (0 < refc r) as Hp.
  { apply (k_found _ _ _ Hok). cbn. rewrite cnt_tok by done. pose proof (cnt_nonneg (at_obj m is_found) l). cbn. lia. }
  unfold run, mobj_get. rewrite (rd_at _ _ _ _ _ Hr), refcount_inc_at by lia. rewrite (wr_end _ _ _ _ Hr). cbn.
  eapply (Inv_tok _ (TFound m) [TRef m false false]); [done..| | |done]; [by apply ok_get|tok_one].
Qed.

Lemma found_none m l : TFound m ∉ l -> cnt (at_obj m is_found) l = 0.
Proof.
  intros H. apply cnt_none. intros tk Htk. unfold at_obj. destruct (Z.eqb_spec (obj tk) m) as [<-|]; [|done].
  by destruct tk.
Qed.

Lemma map_none m l : busy_map m l = false -> cnt (at_obj m is_mapping) l + cnt (at_obj m is_unmapping) l = 0.
Proof.
  unfold busy_map. intros H. assert (forall tk, tk ∈ l -> at_obj m (fun tk => is_mapping tk || is_unmapping tk) tk = false) as G.
  { intros tk Htk. destruct (at_obj _ _ tk) eqn:E; [|done]. exfalso. apply not_true_iff_false in H. apply H, existsb_exists.
    exists tk. by rewrite <- list_elem_of_In. }
  rewrite !cnt_none; [done|..]; intros tk Htk; specialize (G tk Htk); unfold at_obj in *;
    destruct (_ =? _); [|done| |done]; cbn in *; by apply orb_false_iff in G as [? ?].
Qed.

Lemma step_put g m l f b :
  Inv (shm g) (TRef m f b :: l) -> true && (counter refc m g =? 1) && bool_decide (TFound m ∈ l) = false ->
  good (run (mobj_put_dec m) (fun last => if (last : bool) then TDying m :: l else l) g).
Proof.
  intros HI Hp. destruct (Inv_look _ _ _ HI) as (r & Hr & Hok). cbn in Hr, Hok. unfold counter in Hp. rewrite Hr in Hp. cbn in Hp.
  assert (0 < refc r <= UINT32_MAX) as Hn.
  { split; [|apply (k_range _ _ _ Hok)]. rewrite (k_refc _ _ _ Hok). cbn. rewrite cnt_tok by done.
    pose proof (cnt_nonneg (at_obj m is_ref) l). pose proof (b2z_range (negb (guarded r) && negb (releasing r))). cbn. lia. }
  unfold run, mobj_put_dec. rewrite (rd_at _ _ _ _ _ Hr), refcount_dec_at by done. rewrite (wr_at _ _ _ _ _ Hr). cbn.
  replace (if _ : bool then _ else l) with ((if refc r - 1 =? 0 then [TDying m] else []) ++ l) by (by destruct (_ =? 0)).
  eapply (Inv_tok _ (TRef m f b)); [done..| | |by destruct (_ =? 0)].
  - eapply ok_put; [done|]. intros E. rewrite E in Hp. cbn in Hp. apply found_none. by apply bool_decide_eq_false in Hp.
  - destruct (_ =? 0); tok_one.
Qed.

Lemma step_free g m l : Inv (shm g) (TDying m :: l) -> good (run (mobj_reg_shm_free m) (fun _ => l) g).
Proof.
  intros HI. destruct (Inv_look _ _ _ HI) as (r & Hr & Hok). cbn in Hr, Hok.
  unfold run, mobj_reg_shm_free. rewrite !(rd_at _ _ _ _ _ Hr). destruct (guarded r && negb (releasing r)) eqn:Hg.
  - unfold reg_shm_free_helper. rewrite (rd_at _ _ _ _ _ Hr). cbn.
    eapply (Inv_delete _ _ [TDying m] l m); try done; [cbn; rewrite cnt_cons, cnt_nil; cbn; lia|tok_one|by eapply dying_last].
  - rewrite (wr_end _ _ _ _ Hr). cbn. eapply (Inv_tok _ (TDying m) []); [done..| |tok_one|done]. by apply ok_free.
Qed.

Lemma step_unguard g m l : Inv (shm g) (TRef m true false :: l) -> good (run (mobj_reg_shm_unguard m) (fun _ => l) g).
Proof.
  intros HI. destruct (Inv_look _ _ _ HI) as (r & Hr & Hok). cbn in Hr, Hok.
  unfold run, mobj_reg_shm_unguard. rewrite (wr_end _ _ _ _ Hr). cbn.
  eapply (Inv_tok _ (TRef m true false) []); [done..| |tok_one|done]. by apply ok_unguard.
Qed.

(** A token appears on an object that exists. *)
Lemma Inv_new_tok σ B T m r r' :
  Inv σ T -> shms σ !! m = Some r -> shm_ok (B ++ T) m r' -> (forall x, x ∈ B -> obj x = m) -> cnt is_wait B = 0 ->
  Inv (set_shms (<[m := r']> (shms σ)) σ) (B ++ T).
Proof.
  intros HI Hr Hok HB Hw. eapply (Inv_step σ _ [] B T m); try done; [cbn; rewrite cnt_nil; lia|by apply (i_max _ _ HI)|].
  by intros x ?%elem_of_nil.
Qed.

Lemma step_find g c m :
  Inv (shm g) (toks g) -> find_cookie (shms (shm g)) c (reg_shm_list (shm g)) = Some m ->
  true && (counter refc m g =? 0) = false -> good (run (reg_shm_find_unlocked c) (fun _ => TFound m :: toks g) g).
Proof.
  intros HI Hf Hp. destruct (find_cookie_Some _ _ _ _ Hf) as (_ & r & Hr & _). unfold counter in Hp. rewrite Hr in Hp. cbn in Hp.
  pose proof (i_obj _ _ HI _ _ Hr) as Hok. cbn. rewrite <- (set_shms_id _ _ _ Hr).
  apply (Inv_new_tok _ [TFound m] _ _ r); [done..| |tok_one|done]. apply ok_find; [done|].
  pose proof (k_refc _ _ _ Hok). pose proof (cnt_nonneg (at_obj m is_ref) (toks g)).
  pose proof (b2z_range (negb (guarded r) && negb (releasing r))). apply Z.eqb_neq in Hp. lia.
Qed.

Lemma step_release g c :
  Inv (shm g) (toks g) ->
  good (run (release_find c)
    (fun om => match om with Some m => TRef m false false :: TRelease m :: toks g | None => toks g end) g).
Proof.
  intros HI. unfold run, release_find. rewrite find_at.
  destruct (find_cookie (shms (shm g)) c (reg_shm_list (shm g))) as [m|] eqn:Hf; [|by destruct g].
  destruct (find_cookie_Some _ _ _ _ Hf) as (_ & r & Hr & _).
  rewrite !(rd_at _ _ _ _ _ Hr). destruct (guarded r || releasing r) eqn:Hg; [by destruct g|].
  apply orb_false_iff in Hg as [??]. rewrite (wr_at _ _ _ _ _ Hr). cbn.
  eapply (Inv_new_tok _ [TRef m false false; TRelease m]); [done..| |tok_one|done].
  apply ok_release; [|done..]. by apply (i_obj _ _ HI).
Qed.

Lemma step_wait g m l :
  Inv (shm g) (TRelease m :: l) -> shm_release_waiters (shm g) < UINT64_MAX -> good (run release_wait (fun _ => TWait m :: l) g).
Proof.
  intros HI Hw. destruct (Inv_look _ _ _ HI) as (r & Hr & Hok). cbn in Hr, Hok.
  assert (0 <= shm_release_waiters (shm g)) by (rewrite (i_wait _ _ HI); apply cnt_nonneg).
  unfold run, release_wait, mbind, M_mbind, m_bind, gets, modify, assert_. cbn -[u64].
  rewrite u64_small by (unfold is_u64, UINT64_MAX in *; lia). rewrite (proj2 (Z.eqb_neq _ _)) by lia. cbn.
  eapply (Inv_step (shm g) _ [TRelease m] [TWait m] l m r r); try done; try tok_one.
  - by rewrite insert_id.
  - unfold cnt. cbn. lia.
  - cbn. unfold UINT64_MAX in *. lia.
  - by apply ok_wait.
Qed.

Lemma waiter_counted σ m l : Inv σ (TWait m :: l) -> 0 < shm_release_waiters σ <= UINT64_MAX.
Proof.
  intros HI. pose proof (i_max _ _ HI). split; [|done]. rewrite (i_wait _ _ HI), cnt_cons.
  pose proof (cnt_nonneg is_wait l). cbn. lia.
Qed.

Lemma step_try g m l :
  Inv (shm g) (TWait m :: l) -> good (run (release_try m) (fun b => if (b : bool) then l else TWait m :: l) g).
Proof.
  intros HI. destruct (Inv_look _ _ _ HI) as (r & Hr & Hok). cbn in Hr, Hok. pose proof (waiter_counted _ _ _ HI).
  unfold run. destruct (release_frees r) eqn:Hf.
  - rewrite (release_try_at _ _ _ Hr Hf) by done. cbn.
    eapply (Inv_delete (shm g) _ [TWait m] l m); try done; [tok_one|by eapply wait_last].
  - unfold release_try. rewrite (rd_at _ _ _ _ _ Hr), Hf. by cbn.
Qed.

Lemma step_alloc g nonsec a ps offs c :
  Inv (shm g) (toks g) ->
  good (run (mobj_reg_shm_alloc nonsec (fun _ => a) ps offs c)
        (fun om => match om with Some m => TRef m true false :: toks g | None => toks g end) g).
Proof.
  intros HI. unfold run, mobj_reg_shm_alloc. destruct (_ || _ || _); [by destruct g|].
  unfold mbind, M_mbind, m_bind, get. destruct (_ || _) eqn:Ha; [by destruct g|]. destruct (negb _); [by destruct g|].
  apply orb_false_iff in Ha as [_ Ha]. apply bool_decide_eq_false, eq_None_not_Some in Ha. cbn.
  destruct HI as [H1 H2 H3 H4 H5].
  assert (forall tk, tk ∈ toks g -> obj tk <> a) as Hno by (intros tk Htk <-; destruct (H2 tk Htk); congruence).
  split; cbn; [| | |by rewrite cnt_cons|done].
  - intros m r. destruct (decide (m = a)) as [->|Hne].
    + rewrite lookup_insert_eq. intros [= <-]. by apply ok_new.
    + rewrite lookup_insert_ne by done. intros Hm. apply (shm_ok_other a m r [] [TRef a true false]); [done|tok_one|tok_one|by apply H1].
  - intros tk [->|Htk]%elem_of_cons; cbn; [rewrite lookup_insert_eq; eauto|].
    rewrite lookup_insert_ne; [auto|]. intros E. by apply (Hno tk Htk).
  - intros m. rewrite elem_of_cons, H3. destruct (decide (m = a)) as [->|Hne]; [rewrite lookup_insert_eq; split; eauto|].
    rewrite lookup_insert_ne by done. tauto.
Qed.

(** *** Mapping *)

Lemma step_map g m l f :
  Inv (shm g) (TRef m f false :: l) -> busy_map m l = false -> counter mapcount m g < UINT32_MAX ->
  good (run (inc_map_fast m) (fun b => if (b : bool) then TRef m f true :: l else TMapping m f :: l) g).
Proof.
  intros HI Hb Hc. destruct (Inv_look _ _ _ HI) as (r & Hr & Hok). cbn in Hr, Hok. unfold counter in Hc. rewrite Hr in Hc. cbn in Hc.
  apply map_none in Hb. pose proof (k_map _ _ _ Hok). pose proof (cnt_nonneg (at_obj m is_mapped) ([TRef m f false] ++ l)).
  unfold run, inc_map_fast. rewrite (rd_at _ _ _ _ _ Hr). destruct (decide (mapcount r = 0)) as [E|E].
  - rewrite E. cbn. rewrite <- (set_shms_id _ _ _ Hr).
    apply (Inv_tok _ (TRef m f false) [TMapping m f] _ r); [done..| |tok_one|done]. by apply ok_mapping.
  - rewrite refcount_inc_at by (cbn in *; lia). rewrite (wr_at _ _ _ _ _ Hr). cbn.
    eapply (Inv_tok _ (TRef m f false) [TRef m f true]); [done..| |tok_one|done]. by apply ok_map.
Qed.

(** A thread that maps an object finds it not mapped, and no other thread maps or unmaps it. *)
Lemma mapping_alone m r l f : shm_ok ([TMapping m f] ++ l) m r -> mapcount r = 0 /\ mm r = None.
Proof.
  intros []. kinds. rewrite ?cnt_tok in * by reflexivity. kinds. nonneg_counts.
  destruct (Z.eqb_spec (mapcount r) 0); kinds; [|lia]. split; [done|]. apply k_mm. lia.
Qed.

Lemma unmapping_alone m r l f : shm_ok ([TUnmapping m f] ++ l) m r -> mapcount r = 0 /\ mm r <> None.
Proof.
  intros []. kinds. rewrite ?cnt_tok in * by reflexivity. kinds. nonneg_counts.
  destruct (Z.eqb_spec (mapcount r) 0); kinds; [|lia]. split; [done|]. rewrite k_mm. lia.
Qed.

Lemma step_map_slow g m l f va res :
  Inv (shm g) (TMapping m f :: l) ->
  good (run (inc_map_slow m va res) (fun r => TRef m f (r =? TEE_SUCCESS) :: l) g).
Proof.
  intros HI. destruct (Inv_look _ _ _ HI) as (r & Hr & Hok). cbn in Hr, Hok.
  destruct (mapping_alone _ _ _ _ Hok) as [E1 E2].
  unfold run, inc_map_slow. rewrite (rd_at _ _ _ _ _ Hr), E1. cbn [Z.eqb negb]. rewrite (rd_at _ _ _ _ _ Hr), E2.
  assert (forall s', s' = set_shms (<[m := set_mm None r]> (shms (shm g))) (shm g) -> Inv s' (TRef m f false :: l)) as Hfail.
  { intros s' ->. apply (Inv_tok _ (TMapping m f) [TRef m f false] _ r); [done..| |tok_one|done]. by apply ok_not_mapped. }
  unfold mbind, M_mbind, m_bind, assert_, mret, M_mret, m_ret, wr.
  rewrite bool_decide_eq_true_2 by done. destruct va as [v|].
  - rewrite Hr. destruct (Z.eqb_spec res TEE_SUCCESS) as [->|Hres]; cbn [negb shms set_shms]; rewrite lookup_insert_eq; cbn -[insert].
    + rewrite insert_insert_eq.
      change (Inv (set_shms (<[m := set_mapcount 1 (set_mm (Some v) r)]> (shms (shm g))) (shm g)) ([TRef m f true] ++ l)).
      apply (Inv_tok _ (TMapping m f) [TRef m f true] _ r); [done..| |tok_one|done].
      by apply ok_mapped.
    + rewrite (proj2 (Z.eqb_neq _ _) Hres), insert_insert_eq. by apply Hfail.
  - cbn. apply Hfail. destruct r; cbn in *; subst. by rewrite set_shms_id.
Qed.

Lemma step_unmap g m l f :
  Inv (shm g) (TRef m f true :: l) -> busy_map m l = false ->
  good (run (dec_map_fast m) (fun b => if (b : bool) then TUnmapping m f :: l else TRef m f false :: l) g).
Proof.
  intros HI Hb. destruct (Inv_look _ _ _ HI) as (r & Hr & Hok). cbn in Hr, Hok. apply map_none in Hb.
  assert (0 < mapcount r <= UINT32_MAX) as Hn.
  { pose proof (k_map _ _ _ Hok) as Hm. cbn in Hm. rewrite cnt_tok in Hm by done.
    pose proof (cnt_nonneg (at_obj m is_mapped) l). cbn in Hm. lia. }
  unfold run, dec_map_fast. rewrite (rd_at _ _ _ _ _ Hr), refcount_dec_at by done. rewrite (wr_at _ _ _ _ _ Hr). cbn.
  replace (if _ : bool then _ else _) with ([if mapcount r - 1 =? 0 then TUnmapping m f else TRef m f false] ++ l)
    by (by destruct (_ =? 0)).
  eapply (Inv_tok _ (TRef m f true)); [done..| | |by destruct (_ =? 0)].
  - by apply ok_unmap.
  - destruct (_ =? 0); tok_one.
Qed.

Lemma step_unmap_slow g m l f :
  Inv (shm g) (TUnmapping m f :: l) -> good (run (dec_map_slow m) (fun _ => TRef m f false :: l) g).
Proof.
  intros HI. destruct (Inv_look _ _ _ HI) as (r & Hr & Hok). cbn in Hr, Hok.
  destruct (unmapping_alone _ _ _ _ Hok) as [E1 E2].
  unfold run, dec_map_slow. rewrite (rd_at _ _ _ _ _ Hr), E1. cbn [Z.eqb negb]. rewrite (rd_at _ _ _ _ _ Hr).
  unfold assert_. rewrite bool_decide_eq_true_2 by done. unfold mbind, M_mbind, m_bind, m_ret. rewrite (wr_end _ _ _ _ Hr). cbn.
  apply (Inv_tok _ (TUnmapping m f) [TRef m f false] _ r); [done..| |tok_one|done]. by apply ok_unmapped.
Qed.

Lemma step_good nonsec g e : Inv (shm g) (toks g) -> good (step nonsec true g e).
Proof.
  intros HI. destruct e; cbn -[run counter andb].
  - by apply step_alloc.
  - apply good_tok; [|done]. intros. by apply step_unguard.
  - destruct (find_cookie _ _ _) eqn:Hf; [|done]. destruct (_ && _) eqn:E; [done|]. by eapply step_find.
  - apply good_tok; [|done]. intros. destruct (_ >=? _) eqn:E; [done|]. apply step_get; [done|lia].
  - apply good_tok; [|done]. intros. destruct (_ && _) eqn:E; [done|]. by eapply step_put.
  - apply good_tok; [|done]. intros. by apply step_free.
  - by apply step_release.
  - apply good_tok; [|done]. intros. destruct (_ >=? _) eqn:E; [done|]. apply step_wait; [done|lia].
  - apply good_tok; [|done]. intros. by apply step_try.
  - apply good_tok; [|done]. intros. destruct (true && _) eqn:Eb; [done|].
    destruct (_ >=? _) eqn:E; [done|]. apply step_map; [done..|lia].
  - apply good_tok; [|done]. intros. by apply step_map_slow.
  - apply good_tok; [|done]. intros. destruct (true && _) eqn:Eb; [done|]. by apply step_unmap.
  - apply good_tok; [|done]. intros. by apply step_unmap_slow.
Qed.

Lemma steps_good nonsec es g : Inv (shm g) (toks g) -> good (steps nonsec true g es).
Proof.
  revert g. induction es as [|e es IH]; intros g HI; cbn [steps]; [done|].
  pose proof (step_good nonsec g e HI). destruct (step nonsec true g e); cbn in *; auto.
Qed.

Lemma Inv_init : Inv (shm init) (toks init).
Proof.
  split; cbn; [done|by intros tk ?%elem_of_nil| |done|unfold UINT64_MAX; lia].
  intros m. rewrite elem_of_nil, lookup_empty. split; [done|by intros []].
Qed.

(** ** Properties *)

(** C15. As long as normal world does not use a cookie while the last reference to its object goes, and no two threads
    map or unmap one object at the same time, no interleaving of the operations on registered shared memory fails:
    no assertion, no panic for a lost reference, no access to an object that was freed. *)
Theorem shm_runs_never_fail nonsec es : steps nonsec true init es <> Bad.
Proof. intros E. pose proof (steps_good nonsec es init Inv_init) as H. by rewrite E in H. Qed.

Lemma shm_reach nonsec es g : steps nonsec true init es = Next g -> Inv (shm g) (toks g).
Proof. intros E. pose proof (steps_good nonsec es init Inv_init) as H. by rewrite E in H. Qed.

(** C18. In each state such a run reaches, an object referred to by a thread exists; its counter is exactly the number of
    the references held by threads, and one more while it is registered; a mapped reference finds its object mapped;
    and when the threads are done, each object left is a registered one with one reference, and nobody waits. *)
Theorem shm_references_exact nonsec es g (H : steps nonsec true init es = Next g) :
  (forall tk, tk ∈ toks g -> is_Some (shms (shm g) !! obj tk)) /\
  (forall m r, shms (shm g) !! m = Some r ->
     refc r = cnt (at_obj m is_ref) (toks g) + b2z (negb (guarded r) && negb (releasing r)) /\
     (0 < cnt (at_obj m is_mapped) (toks g) -> mm r <> None)) /\
  (toks g = [] -> shm_release_waiters (shm g) = 0 /\
     forall m r, shms (shm g) !! m = Some r -> guarded r = false /\ releasing r = false /\ refc r = 1).
Proof.
  apply shm_reach in H. split; [apply (i_tok _ _ H)|]. split.
  - intros m r Hr. pose proof (i_obj _ _ H _ _ Hr) as Hok. split; [apply (k_refc _ _ _ Hok)|].
    intros Hm E. apply (k_mm _ _ _ Hok) in E. pose proof (k_map _ _ _ Hok). lia.
  - intros Hn. split; [by rewrite (i_wait _ _ H), Hn|]. intros m r Hr. pose proof (i_obj _ _ H _ _ Hr) as [].
    rewrite Hn, !cnt_nil in *. destruct (guarded r), (releasing r); kinds; flag_cases; try done;
      destruct (Z.eqb_spec (refc r) 0), (release_frees r); kinds; lia.
Qed.

(** A release ends: when the thread that waits is the last that knows the object, its next look finds that
    [mobj_reg_shm_free] ran, frees the object and leaves. *)
Theorem shm_release_ends nonsec es g m l
    (H : steps nonsec true init es = Next g) (Hw : toks g ≡ₚ TWait m :: l) (Hl : forall tk, tk ∈ l -> obj tk <> m) :
  exists g', step nonsec true g (EvTry m) = Next g' /\ shms (shm g') !! m = None /\ toks g' ≡ₚ l.
Proof.
  apply shm_reach in H. pose proof H as H'. rewrite Hw in H'. destruct (Inv_look _ _ _ H') as (r & Hr & Hok). cbn in Hr, Hok.
  assert (forall k, cnt (at_obj m k) l = 0) as Hk.
  { intros k. apply cnt_none. intros tk Htk. unfold at_obj. by rewrite (proj2 (Z.eqb_neq _ _) (Hl tk Htk)). }
  assert (release_frees r = true) as Hf.
  { destruct Hok. rewrite !cnt_tok, !Hk in * by done. kinds.
    destruct (guarded r) eqn:?, (releasing r) eqn:?, (release_frees r); kinds; flag_cases; try done; try lia.
    destruct (Z.eqb_spec (refc r) 0); kinds; lia. }
  cbn [step]. unfold with_tok. destruct (take_tok (TWait m) (toks g)) as [l'|] eqn:E.
  - apply take_tok_perm in E. unfold run. rewrite (release_try_at _ _ _ Hr Hf) by (by eapply waiter_counted).
    eexists. split; [done|]. cbn. split; [apply lookup_delete_eq|].
    apply (Permutation_cons_inv (a := TWait m)). by rewrite <- E, <- Hw.
  - exfalso. apply (take_tok_None _ _ E). rewrite Hw. left.
Qed.

(** ** Runs *)

Definition demo_start : list event := [EvAlloc 16 [4096; 8192] 100 7; EvUnguard 16].

(** A buffer is registered, mapped by a thread, and released while that thread still uses it. *)
Definition demo_run : list event :=
  demo_start ++ [EvFind 7; EvGet 16; EvMap 16 false; EvMapSlow 16 false (Some 65536) TEE_SUCCESS;
    EvRelease 7; EvPut 16 false false; EvWait 16; EvTry 16;
    EvUnmap 16 false; EvUnmapSlow 16 false; EvPut 16 false false; EvFree 16].

Definition demo_cfg : cfg :=
  match steps (fun _ => true) true init demo_run with Next g => g | _ => init end.

Definition end_of (o : outcome_of cfg) : cfg := match o with Next g => g | _ => init end.

Lemma shm_references_exact_witness :
  let g := end_of (steps (fun _ => true) true init (take 6 demo_run)) in
  toks g = [TRef 16 false true] /\ refc <$> (shms (shm g) !! 16) = Some 2 /\
  (forall m r, shms (shm g) !! m = Some r -> 0 < cnt (at_obj m is_mapped) (toks g) -> mm r <> None).
Proof.
  split; [by vm_compute|]. split; [by vm_compute|]. intros m r Hr.
  apply (shm_references_exact (fun _ => true) (take 6 demo_run) (end_of (steps (fun _ => true) true init (take 6 demo_run)))).
  - by vm_compute.
  - exact Hr.
Defined.

Lemma shm_release_ends_witness :
  toks demo_cfg = [TWait 16] /\
  exists g', step (fun _ => true) true demo_cfg (EvTry 16) = Next g' /\ shms (shm g') !! 16 = None /\ toks g' ≡ₚ [].
Proof.
  split; [by vm_compute|]. apply (shm_release_ends (fun _ => true) demo_run demo_cfg 16 []).
  - by vm_compute.
  - by vm_compute.
  - by intros tk ?%elem_of_nil.
Defined.
