(* ===== verification/ShmRaces.v ===== *)
(** * Registered shared memory: the races that [mobj_dyn_shm.c] leaves to normal world

    [ShmSafe] shows that no run fails as long as normal world is polite ([ShmRefs.step]). Here: each step that
    is not polite leads to a failure, from whatever state it is made in. *)

From S2P Require Import Prelude ErrM WaitQueue Mutex RecMutex Shm ShmRefs ShmSafe.
From stdpp Require Import base gmap list.
From Stdlib Require Import ZArith Lia.

Local Open Scope Z_scope.

(** ** Steps of a thread whose token is there *)

Lemma with_tok_in tk g : tk ∈ toks g -> exists l, toks g ≡ₚ tk :: l /\ forall f, with_tok tk g f = f l.
Proof.
  intros H. unfold with_tok. destruct (take_tok tk (toks g)) as [l|] eqn:E; [|by destruct (take_tok_None _ _ E)].
  exists l. split; [by apply take_tok_perm|done].
Qed.

(** A polite step is a step; so is a polite run. *)
Lemma step_polite nonsec g e g' : step nonsec true g e = Next g' -> step nonsec false g e = Next g'.
Proof.
  destruct e; cbn -[run counter]; unfold with_tok; try done.
  - destruct (find_cookie _ _ _); [|done]. by destruct (counter _ _ _ =? 0).
  - destruct (take_tok _ _); [|done]. by destruct (_ && _).
  - destruct (take_tok _ _); [|done]. by destruct (busy_map _ _).
  - destruct (take_tok _ _); [|done]. by destruct (busy_map _ _).
Qed.

Lemma steps_polite nonsec es g g' : steps nonsec true g es = Next g' -> steps nonsec false g es = Next g'.
Proof.
  revert g. induction es as [|e es IH]; cbn [steps]; intros g; [done|].
  destruct (step nonsec true g e) eqn:E; try done. rewrite (step_polite _ _ _ _ E). apply IH.
Qed.

Lemma steps_app nonsec p es es' g g' :
  steps nonsec p g es = Next g' -> steps nonsec p g (es ++ es') = steps nonsec p g' es'.
Proof.
  revert g. induction es as [|e es IH]; cbn [steps app]; intros g; [by intros [= ->]|].
  destruct (step nonsec p g e); try done. apply IH.
Qed.

Lemma steps_bad nonsec p g e es : step nonsec p g e = Bad -> steps nonsec p g (e :: es) = Bad.
Proof. intros H. cbn [steps]. by rewrite H. Qed.

Section thread.
Context (nonsec : Z -> bool) (g : cfg) (m : Z) (r : mobj_reg_shm) (Hr : shms (shm g) !! m = Some r).

Lemma counter_at f : counter f m g = f r.
Proof. unfold counter. by rewrite Hr. Qed.

(** No reference can be taken to an object without one. *)
Lemma get_fails : TFound m ∈ toks g -> refc r = 0 -> step nonsec false g (EvGet m) = Bad.
Proof.
  intros Ht E. cbn -[run counter]. destruct (with_tok_in _ _ Ht) as (l & _ & ->). rewrite counter_at, E. cbn.
  unfold run, mobj_get. by rewrite (rd_at _ _ _ _ _ Hr), E.
Qed.

(** The last reference is given back. *)
Lemma put_last f b l :
  take_tok (TRef m f b) (toks g) = Some l -> refc r = 1 ->
  step nonsec false g (EvPut m f b) =
  Next (mkCfg (set_shms (<[m := set_refc 0 r]> (shms (shm g))) (shm g)) (TDying m :: l)).
Proof.
  intros Hl E. cbn -[run]. unfold with_tok. rewrite Hl. cbn [andb]. unfold run, mobj_put_dec.
  rewrite (rd_at _ _ _ _ _ Hr), E. cbn -[insert]. by rewrite (wr_at _ _ _ _ _ Hr).
Qed.

(** The first to map an object; *)
Lemma map_first f :
  TRef m f false ∈ toks g -> mapcount r = 0 ->
  exists l, toks g ≡ₚ TRef m f false :: l /\ step nonsec false g (EvMap m f) = Next (mkCfg (shm g) (TMapping m f :: l)).
Proof.
  intros Ht E. cbn -[run counter]. destruct (with_tok_in _ _ Ht) as (l & Hl & ->). exists l. split; [done|].
  rewrite counter_at, E. cbn. unfold run, inc_map_fast. by rewrite (rd_at _ _ _ _ _ Hr), E.
Qed.

(** ... who succeeds; *)
Lemma map_slow_first f v :
  TMapping m f ∈ toks g -> mapcount r = 0 -> mm r = None ->
  exists l, toks g ≡ₚ TMapping m f :: l /\
    step nonsec false g (EvMapSlow m f (Some v) TEE_SUCCESS) =
    Next (mkCfg (set_shms (<[m := set_mapcount 1 (set_mm (Some v) r)]> (shms (shm g))) (shm g)) (TRef m f true :: l)).
Proof.
  intros Ht E E'. cbn -[run]. destruct (with_tok_in _ _ Ht) as (l & Hl & ->). exists l. split; [done|].
  unfold run, inc_map_slow. rewrite (rd_at _ _ _ _ _ Hr), E. cbn [Z.eqb negb]. rewrite (rd_at _ _ _ _ _ Hr), E'.
  rewrite bool_decide_eq_true_2 by done. unfold mbind, M_mbind, m_bind, assert_, m_ret, wr. rewrite Hr.
  cbn [negb TEE_SUCCESS Z.eqb shms set_shms]. rewrite lookup_insert_eq. unfold mret, M_mret, m_ret.
  cbn -[insert]. by rewrite insert_insert_eq.
Qed.

(** ... who finds it still mapped by a thread about to unmap it; *)
Lemma map_slow_fails f va res :
  TMapping m f ∈ toks g -> mapcount r = 0 -> mm r <> None -> step nonsec false g (EvMapSlow m f va res) = Bad.
Proof.
  intros Ht E E'. cbn -[run]. destruct (with_tok_in _ _ Ht) as (l & _ & ->).
  unfold run, inc_map_slow. rewrite (rd_at _ _ _ _ _ Hr), E. cbn [Z.eqb negb]. rewrite (rd_at _ _ _ _ _ Hr).
  by rewrite bool_decide_eq_false_2.
Qed.

(** ... and who finds that another thread was quicker: it is not counted. *)
Lemma map_slow_second f va res :
  TMapping m f ∈ toks g -> mapcount r <> 0 ->
  exists l, toks g ≡ₚ TMapping m f :: l /\
    step nonsec false g (EvMapSlow m f va res) = Next (mkCfg (shm g) (TRef m f true :: l)).
Proof.
  intros Ht E. cbn -[run]. destruct (with_tok_in _ _ Ht) as (l & Hl & ->). exists l. split; [done|].
  unfold run, inc_map_slow. rewrite (rd_at _ _ _ _ _ Hr), (proj2 (Z.eqb_neq _ _) E). done.
Qed.

(** The last count goes; the next finds none. *)
Lemma unmap_last f :
  TRef m f true ∈ toks g -> mapcount r = 1 ->
  exists l, toks g ≡ₚ TRef m f true :: l /\
    step nonsec false g (EvUnmap m f) =
    Next (mkCfg (set_shms (<[m := set_mapcount 0 r]> (shms (shm g))) (shm g)) (TUnmapping m f :: l)).
Proof.
  intros Ht E. cbn -[run]. destruct (with_tok_in _ _ Ht) as (l & Hl & ->). exists l. split; [done|].
  unfold run, dec_map_fast. rewrite (rd_at _ _ _ _ _ Hr), E. cbn -[insert]. by rewrite (wr_at _ _ _ _ _ Hr).
Qed.

Lemma unmap_fails f : TRef m f true ∈ toks g -> mapcount r = 0 -> step nonsec false g (EvUnmap m f) = Bad.
Proof.
  intros Ht E. cbn -[run]. destruct (with_tok_in _ _ Ht) as (l & _ & ->).
  unfold run, dec_map_fast. by rewrite (rd_at _ _ _ _ _ Hr), E.
Qed.
End thread.

(** ** Each kind of race *)

(** A token stays when another one is replaced. *)
Lemma other_stays (tk tk' x : tok) (T l : list tok) : T ≡ₚ tk :: l -> tk' ∈ T -> tk' <> tk -> tk' ∈ x :: l.
Proof. intros HT. rewrite HT. intros [->|H]%elem_of_cons Hne; [done|by right]. Qed.

(** Two threads map one object: only one is counted, and the second one's unmapping finds the counter at 0. *)
Lemma two_mappings nonsec g m r f f' l :
  shms (shm g) !! m = Some r -> mapcount r = 0 -> mm r = None -> toks g = TMapping m f :: l -> TMapping m f' ∈ l ->
  steps nonsec false g [EvMapSlow m f (Some SMALL_PAGE_SIZE) TEE_SUCCESS; EvMapSlow m f' (Some SMALL_PAGE_SIZE) TEE_SUCCESS;
    EvUnmap m f; EvUnmap m f'] = Bad.
Proof.
  intros Hr E E' HT Hf'. cbn [steps].
  destruct (map_slow_first nonsec g m r Hr f SMALL_PAGE_SIZE) as (l1 & Hl1 & ->); [rewrite HT; left|done..|].
  assert (TMapping m f' ∈ l1) as Hin by (rewrite HT in Hl1; apply Permutation_cons_inv in Hl1; by rewrite <- Hl1).
  set (g1 := mkCfg _ _). set (r1 := set_mapcount 1 (set_mm (Some SMALL_PAGE_SIZE) r)).
  assert (shms (shm g1) !! m = Some r1) as Hr1 by apply lookup_insert_eq.
  destruct (map_slow_second nonsec g1 m r1 Hr1 f' (Some SMALL_PAGE_SIZE) TEE_SUCCESS) as (l2 & Hl2 & ->); [by right|done|].
  set (g2 := mkCfg (shm g1) _).
  assert (TRef m f true ∈ l2) as Hin2.
  { assert (TRef m f true ∈ toks g1) as H by left. rewrite Hl2 in H. by apply elem_of_cons in H as [|]. }
  destruct (unmap_last nonsec g2 m r1 Hr1 f) as (l3 & Hl3 & ->); [by right|done|].
  set (g3 := mkCfg _ (_ :: l3)).
  assert (shms (shm g3) !! m = Some (set_mapcount 0 r1)) as Hr3 by apply lookup_insert_eq.
  rewrite (unmap_fails nonsec g3 m _ Hr3 f'); [done| |done].
  right. destruct (decide (f' = f)) as [->|Hne].
  - apply elem_of_Permutation in Hin2 as [l2' Hl2']. cbn [toks g2] in Hl3. rewrite Hl2' in Hl3.
    apply Permutation_cons_inv in Hl3. rewrite <- Hl3. left.
  - assert (TRef m f' true ∈ toks g2) as H by left. rewrite Hl3 in H. apply elem_of_cons in H as [[= ->]|]; done.
Qed.

(** One thread maps an object while another one does, or is about to unmap it. *)
Lemma map_race nonsec g m r f l :
  Inv (shm g) (toks g) -> shms (shm g) !! m = Some r -> toks g ≡ₚ TRef m f false :: l -> busy_map m l = true ->
  exists es, (length es <= 4)%nat /\ steps nonsec false g (EvMap m f :: es) = Bad.
Proof.
  intros HI Hr Hl Hb. unfold busy_map in Hb. apply existsb_exists in Hb as (x & Hx & Hk). rewrite <- list_elem_of_In in Hx.
  unfold at_obj in Hk. apply andb_true_iff in Hk as [Hm Hk]. apply Z.eqb_eq in Hm.
  assert (TRef m f false ∈ toks g) as Hf by (rewrite Hl; left).
  assert (x ∈ toks g) as Hxg by (rewrite Hl; by right).
  apply elem_of_Permutation in Hxg as [T' HT']. pose proof (i_obj _ _ HI _ _ Hr) as Hok. rewrite HT' in Hok.
  cbn [steps]. destruct x as [|y f'|y f'| | | |]; try done; cbn in Hm; subst y.
  - destruct (mapping_alone _ _ _ _ Hok) as [E1 E2].
    destruct (map_first nonsec g m r Hr f Hf E1) as (l1 & Hl1 & ->).
    eexists. split; [|eapply (two_mappings nonsec (mkCfg _ _) m r f f' l1); try done]; [cbn; lia|].
    rewrite Hl in Hl1. apply Permutation_cons_inv in Hl1. by rewrite <- Hl1.
  - destruct (unmapping_alone _ _ _ _ Hok) as [E1 E2].
    destruct (map_first nonsec g m r Hr f Hf E1) as (l1 & Hl1 & ->).
    exists [EvMapSlow m f (Some SMALL_PAGE_SIZE) TEE_SUCCESS]. split; [cbn; lia|].
    by rewrite (steps_bad _ _ _ _ _ (map_slow_fails nonsec (mkCfg _ _) m r Hr f _ _ (list_elem_of_here _ _) E1 E2)).
Qed.

(** No thread unmaps a mapped object while another one maps or unmaps it. *)
Lemma unmap_no_race g m f l : Inv (shm g) (TRef m f true :: l) -> busy_map m l = false.
Proof.
  intros HI. destruct (Inv_look _ _ _ HI) as (r & _ & Hok). cbn in Hok. apply not_true_iff_false. intros Hb.
  unfold busy_map in Hb. apply existsb_exists in Hb as (x & Hx & Hk). rewrite <- list_elem_of_In in Hx.
  assert (0 < cnt (at_obj m (fun tk => is_mapping tk || is_unmapping tk)) l) as Hp by (pose proof (cnt_pos _ _ _ Hx Hk); lia).
  assert (cnt (at_obj m (fun tk => is_mapping tk || is_unmapping tk)) l <=
          cnt (at_obj m is_mapping) l + cnt (at_obj m is_unmapping) l) as Hle.
  { clear. induction l as [|x l IH]; [done|]. rewrite !cnt_cons. unfold at_obj at 1 3 5.
    destruct (_ =? _), (is_mapping x), (is_unmapping x); cbn; lia. }
  destruct Hok. rewrite !cnt_tok in * by done. kinds. nonneg_counts. destruct (Z.eqb_spec (mapcount r) 0); kinds; lia.
Qed.

(** ** Property *)

(** C35. The two assumptions of [shm_runs_never_fail] are needed, wherever they are violated: after any run, of any
    threads, each step that uses a cookie whose object has no reference left, that gives the last reference back while another
    thread has just found the object by its cookie, or that maps an object while another thread maps it or is about
    to unmap it, is followed, in at most four steps of the threads concerned, by a failure: the panic of [mobj_get], or a failed
    assertion of [refcount_dec] or of [mobj_reg_shm_inc_map]. *)
Theorem shm_races_fail nonsec es g e
    (H : steps nonsec true init es = Next g) (He : step nonsec true g e = Rude) :
  exists es', (length es' <= 4)%nat /\ steps nonsec false init (es ++ e :: es') = Bad.
Proof.
  pose proof (shm_reach _ _ _ H) as HI. setoid_rewrite (steps_app _ _ _ _ _ _ (steps_polite _ _ _ _ H)).
  destruct e as [| |c| |m f b| | | | |m f| |m f|]; cbn -[run counter] in He;
    try (unfold with_tok in He; destruct (take_tok _ _) as [l|] eqn:El; [|done]; pose proof (take_tok_perm _ _ _ El) as Hl);
    try (by repeat match goal with H : (if ?c then _ else _) = Rude |- _ => destruct c | H : run ?a _ _ = Rude |- _ =>
           unfold run in H; destruct (a _) as [[] ?] end).
  - destruct (find_cookie _ _ _) as [m|] eqn:Ef; [|done].
    destruct (counter refc m g =? 0) eqn:E0; [|done]. apply Z.eqb_eq in E0.
    destruct (find_cookie_Some _ _ _ _ Ef) as (_ & r & Hr & _). rewrite (counter_at _ _ _ Hr) in E0.
    exists [EvGet m]. split; [cbn; lia|]. cbn [steps].
    replace (step nonsec false g (EvFind c)) with (Next (mkCfg (shm g) (TFound m :: toks g))) by (cbn; by rewrite Ef).
    by rewrite (get_fails nonsec (mkCfg _ _) m r Hr (list_elem_of_here _ _) E0).
  - destruct (_ && _) eqn:E; [|unfold run in He; by destruct (mobj_put_dec _ _) as [[] ?]].
    apply andb_true_iff in E as [E1 E2]. apply Z.eqb_eq in E1. apply bool_decide_eq_true in E2.
    rewrite Hl in HI. destruct (Inv_look _ _ _ HI) as (r & Hr & _). cbn in Hr. rewrite (counter_at _ _ _ Hr) in E1.
    exists [EvGet m]. split; [cbn; lia|]. cbn [steps]. rewrite (put_last nonsec g m r Hr f b l El E1).
    rewrite (get_fails nonsec (mkCfg _ _) m (set_refc 0 r)); [done|apply lookup_insert_eq|by right|done].
  - destruct (busy_map m l) eqn:E; [|destruct (_ >=? _); [done|unfold run in He; by destruct (inc_map_fast _ _) as [[] ?]]].
    rewrite Hl in HI. destruct (Inv_look _ _ _ HI) as (r & Hr & _). rewrite <- Hl in HI. by apply (map_race nonsec g m r f l).
  - rewrite Hl in HI. apply unmap_no_race in HI. rewrite HI in He. unfold run in He. by destruct (dec_map_fast _ _) as [[] ?].
Qed.

(** ** Runs *)

(** A thread finds a buffer by its cookie, normal world releases it, and the last reference is given back. *)
Definition race_run : list event := demo_start ++ [EvFind 7; EvRelease 7].

Lemma shm_races_fail_witness :
  let nonsec := fun _ => true in
  step nonsec true (end_of (steps nonsec true init race_run)) (EvPut 16 false false) = Rude /\
  exists es', (length es' <= 4)%nat /\ steps nonsec false init (race_run ++ EvPut 16 false false :: es') = Bad.
Proof.
  split; [by vm_compute|].
  apply (shm_races_fail (fun _ => true) race_run (end_of (steps (fun _ => true) true init race_run))).
  - by vm_compute.
  - by vm_compute.
Defined.

(** After the release freed the object, the thread that found it reads memory that is no longer there; and the
    mapping of a thread is lost when two threads map at once. *)
Example shm_races :
  let run es := steps (fun _ => true) false init (demo_start ++ es) in
  run [EvFind 7; EvRelease 7; EvPut 16 false false; EvFree 16; EvWait 16; EvTry 16; EvGet 16] = Bad /\
  let two := [EvFind 7; EvGet 16; EvFind 7; EvGet 16; EvMap 16 false; EvMap 16 false;
              EvMapSlow 16 false (Some 65536) TEE_SUCCESS; EvMapSlow 16 false (Some 131072) TEE_SUCCESS;
              EvUnmap 16 false; EvUnmapSlow 16 false] in
  let g := end_of (run two) in
  toks g = [TRef 16 false false; TRef 16 false true] /\ (mm <$> shms (shm g) !! 16) = Some None.
Proof. vm_compute. repeat split. Qed.
