(* ===== verification/ShmAddr.v ===== *)
(** * Registered shared memory: addresses

    The pages of an object of [Shm] never change, and what [mobj_reg_shm_get_pa] gives for them: always
    an address inside a page that [core_pbuf_is] called non-secure, whatever the interleaving. *)

From stdpp Require Import base gmap list.
From Stdlib Require Import ZArith Lia.
From S2P Require Import Prelude ErrM WaitQueue Mutex RecMutex Shm ShmRefs.

Local Open Scope Z_scope.

Section addresses.
Context (nonsec : Z -> bool).

(** What [mobj_reg_shm_alloc] establishes for the fields that nothing changes. *)
Record geo_ok (r : mobj_reg_shm) : Prop := {
  g_offset : 0 <= page_offset r < SMALL_PAGE_SIZE;
  g_pages : forall p, p ∈ pages r -> page_ok nonsec p = true /\ is_u64 p;
  g_some : pages r <> [];
  g_size : size r = u64 (u64 (Z.of_nat (length (pages r)) * SMALL_PAGE_SIZE) - page_offset r) }.

Definition Geo (σ : shm_st) : Prop := forall m r, shms σ !! m = Some r -> geo_ok r.

Definition keeps {A} (a : M shm_st A) : Prop := forall σ, Geo σ -> Geo (a σ).2.

Lemma keeps_geo_ret {A} (x : A) : keeps (mret x).
Proof. by intros σ. Qed.

Lemma keeps_geo_bind {A B} (a : M shm_st A) (k : A -> M shm_st B) : keeps a -> (forall x, keeps (k x)) -> keeps (a ≫= k).
Proof.
  intros Ha Hk σ Hs. specialize (Ha σ Hs). unfold mbind, M_mbind, m_bind. destruct (a σ) as [[x| |] σ']; cbn in *; [by apply Hk|done|done].
Qed.

Lemma keeps_rd {A} m (f : mobj_reg_shm -> A) : keeps (rd m f).
Proof. intros σ Hs. unfold rd. by destruct (shms σ !! m). Qed.

Lemma keeps_gets {A} (f : shm_st -> A) : keeps (gets f).
Proof. by intros σ. Qed.

Lemma keeps_assert b : keeps (assert_ b).
Proof. intros σ. by destruct b. Qed.

Lemma keeps_panic {A} : keeps (@panic shm_st A).
Proof. by intros σ. Qed.

Lemma keeps_wr m f : (forall r, geo_ok r -> geo_ok (f r)) -> keeps (wr m f).
Proof.
  intros Hf σ Hs. unfold wr. destruct (shms σ !! m) as [r|] eqn:E; [|done]. intros x rx. cbn.
  intros [(-> & <-)|(? & ?)]%lookup_insert_Some; [by eapply Hf, Hs|by eapply Hs].
Qed.

Lemma keeps_waiters n : keeps (modify (set_waiters n)).
Proof. by intros σ Hs. Qed.

Lemma keeps_freed m : keeps (reg_shm_free_helper m).
Proof.
  apply keeps_geo_bind; [apply keeps_rd|]. intros ? σ Hs x rx. cbn. intros (? & ?)%lookup_delete_Some. by eapply Hs.
Qed.

Lemma geo_same r r' : size r' = size r -> page_offset r' = page_offset r -> pages r' = pages r -> geo_ok r -> geo_ok r'.
Proof. intros E1 E2 E3 []. split; rewrite ?E1, ?E2, ?E3; done. Qed.

#[local] Hint Resolve keeps_geo_ret keeps_geo_bind keeps_rd keeps_gets keeps_assert keeps_panic keeps_waiters keeps_freed : keeps.
#[local] Hint Extern 2 (keeps (wr _ _)) => (apply keeps_wr; intros ?; by apply geo_same) : keeps.
#[local] Hint Extern 1 (keeps (if ?b then _ else _)) => destruct b : keeps.
#[local] Hint Extern 1 (keeps (match ?b with _ => _ end)) => destruct b as [?|] : keeps.

Ltac keep := repeat (first [progress (intros; auto 2 with keeps) | apply keeps_geo_bind | match goal with |- keeps (match ?b with _ => _ end) => destruct b end]).

Lemma keeps_get m : keeps (mobj_get m).
Proof. unfold mobj_get. keep. Qed.

Lemma keeps_put m : keeps (mobj_put_dec m).
Proof. unfold mobj_put_dec. keep. Qed.

Lemma keeps_free m : keeps (mobj_reg_shm_free m).
Proof. unfold mobj_reg_shm_free. keep. Qed.

Lemma keeps_map m : keeps (inc_map_fast m).
Proof. unfold inc_map_fast. keep. Qed.

Lemma keeps_map_slow m va res : keeps (inc_map_slow m va res).
Proof. unfold inc_map_slow. keep. Qed.

Lemma keeps_unmap m : keeps (dec_map_fast m).
Proof. unfold dec_map_fast. keep. Qed.

Lemma keeps_unmap_slow m : keeps (dec_map_slow m).
Proof. unfold dec_map_slow. keep. Qed.

Lemma keeps_unguard m : keeps (mobj_reg_shm_unguard m).
Proof. unfold mobj_reg_shm_unguard. keep. Qed.

Lemma keeps_find c : keeps (reg_shm_find_unlocked c).
Proof. unfold reg_shm_find_unlocked. keep. Qed.

Lemma keeps_release c : keeps (release_find c).
Proof. unfold release_find. apply keeps_geo_bind; [apply keeps_find|]. keep. Qed.

Lemma keeps_wait : keeps release_wait.
Proof. unfold release_wait. keep. Qed.

Lemma keeps_try m : keeps (release_try m).
Proof. unfold release_try. keep. Qed.

(** The arguments of [mobj_reg_shm_alloc] fit their types. *)
Definition args_ok (e : event) : Prop :=
  match e with EvAlloc _ ps offs _ => (forall p, p ∈ ps -> is_u64 p) /\ 0 <= offs | _ => True end.

Lemma keeps_alloc calloc ps offs c :
  (forall p, p ∈ ps -> is_u64 p) -> 0 <= offs -> keeps (mobj_reg_shm_alloc nonsec calloc ps offs c).
Proof.
  intros Hps Hoffs. unfold mobj_reg_shm_alloc. destruct (_ || _ || _) eqn:E; [keep|].
  apply orb_false_iff in E as [[E1 E2]%orb_false_iff _].
  intros σ Hs. unfold mbind, M_mbind, m_bind, get. destruct (_ || _); [done|].
  destruct (forallb (page_ok nonsec) ps) eqn:Hp; [|done]. intros m r.
  set (a := calloc _) in *. intros Hm. change (<[a := new_reg_shm ps offs c]> (shms σ) !! m = Some r) in Hm. apply lookup_insert_Some in Hm as [(_ & <-)|(_ & Hm)]; [|by eapply Hs].
  split; cbn; [unfold SMALL_PAGE_SIZE in *; lia| |by destruct ps|done].
  intros p Hpp. split; [|auto]. rewrite forallb_forall in Hp. apply Hp. by apply list_elem_of_In.
Qed.

Definition next_ok (o : outcome_of cfg) : Prop := match o with Next g => Geo (shm g) | _ => True end.

Lemma next_run {X} (a : M shm_st X) k g : keeps a -> Geo (shm g) -> next_ok (run a k g).
Proof. intros Ha Hg. specialize (Ha _ Hg). unfold run. by destruct (a (shm g)) as [[| |] ?]. Qed.

Lemma next_tok tk g f : (forall l, next_ok (f l)) -> next_ok (with_tok tk g f).
Proof. intros H. unfold with_tok. by destruct (take_tok tk (toks g)). Qed.

Lemma next_if (b : bool) o1 o2 : next_ok o1 -> next_ok o2 -> next_ok (if b then o1 else o2).
Proof. by destruct b. Qed.

#[local] Hint Resolve keeps_get keeps_put keeps_free keeps_map keeps_map_slow keeps_unmap keeps_unmap_slow keeps_unguard
  keeps_find keeps_release keeps_wait keeps_try : keeps.

Lemma step_geo polite g e : args_ok e -> Geo (shm g) -> next_ok (step nonsec polite g e).
Proof.
  intros He Hg. destruct e; cbn [step]; try (apply next_tok; intros l).
  all: repeat (apply next_if; [done|]).
  all: try (apply next_run; [solve [auto with keeps]|done]).
  - apply next_run; [by apply keeps_alloc; destruct He|done].
  - destruct (find_cookie _ _ _); [|done]. apply next_if; [done|]. apply next_run; [auto with keeps|done].
Qed.

Lemma steps_geo polite es g : Forall args_ok es -> Geo (shm g) -> next_ok (steps nonsec polite g es).
Proof.
  intros Hes. revert g. induction Hes as [|e es He Hes IH]; intros g Hg; cbn [steps]; [done|].
  pose proof (step_geo polite g e He Hg). destruct (step nonsec polite g e); cbn in *; auto.
Qed.

(** An offset below the size stays in the array of pages. *)
Lemma geo_index r offst :
  geo_ok r -> 0 <= offst < size r ->
  offst + page_offset r < 2 ^ 64 /\ (offst + page_offset r) / SMALL_PAGE_SIZE < Z.of_nat (length (pages r)).
Proof.
  intros [[Ho1 Ho2] _ Hs Hsz] H. unfold SMALL_PAGE_SIZE in *. rewrite Hsz in H. clear Hsz.
  assert (0 < Z.of_nat (length (pages r))) as Hlen by (destruct (pages r); [done|cbn; lia]).
  set (n := Z.of_nat (length (pages r))) in *. unfold u64 in H.
  assert (n * 4096 mod 18446744073709551616 = 4096 * (n mod 4503599627370496)) as E.
  { replace 18446744073709551616 with (4096 * 4503599627370496) by done.
    rewrite (Z.mul_comm n), Z.mul_mod_distr_l by done. done. }
  rewrite E in H. pose proof (Z.mod_pos_bound n 4503599627370496 eq_refl).
  pose proof (Z.mod_le n 4503599627370496 ltac:(lia) eq_refl).
  destruct (Z.eq_dec (n mod 4503599627370496) 0) as [E0|E0].
  - rewrite E0 in H. pose proof (Z.div_mod n 4503599627370496 ltac:(lia)).
    assert (4503599627370496 <= n) by lia. split; [|apply Z.div_lt_upper_bound; [done|]].
    all: destruct (Z.eq_dec (page_offset r) 0) as [e|e]; [rewrite e in H; change ((4096 * 0 - 0) mod 18446744073709551616) with 0 in H; lia|].
    all: rewrite <- (Z.mod_unique (4096 * 0 - page_offset r) 18446744073709551616 (-1) (18446744073709551616 - page_offset r)) in H by lia; lia.
  - rewrite Z.mod_small in H by lia. split; [lia|]. apply Z.div_lt_upper_bound; lia.
Qed.

Lemma page_plus p x : page_ok nonsec p = true -> is_u64 p -> u64 (p + Z.land x SMALL_PAGE_MASK) = p + x mod SMALL_PAGE_SIZE.
Proof.
  unfold page_ok, SMALL_PAGE_MASK, SMALL_PAGE_SIZE, is_u64. intros [Ha _]%andb_true_iff Hp. apply Z.eqb_eq in Ha.
  change 4095 with (Z.ones 12) in *. rewrite Z.land_ones in * by lia. apply u64_small. unfold is_u64.
  pose proof (Z.mod_pos_bound x (2 ^ 12) eq_refl). change (2 ^ 12) with 4096 in *. pose proof (Z.div_mod p 4096 ltac:(lia)).
  assert (p / 4096 < 4503599627370496) by (apply Z.div_lt_upper_bound; lia). lia.
Qed.
End addresses.

(** C19. Whatever the interleaving, and whatever addresses, sizes and offsets normal world gave, the address
    [mobj_reg_shm_get_pa] gives for an offset of an object is that offset, after the first page's, in the
    object's pages; the array is not read out of bounds, and the page was checked to be
    non-secure memory. Past the size there is no address. *)
Theorem shm_addresses_nonsecure nonsec polite es g m r offst
    (Hes : Forall args_ok es) (H : steps nonsec polite init es = Next g) (Hr : shms (shm g) !! m = Some r) (Ho : 0 <= offst) :
  if offst <? size r then
    exists page, pages r !! Z.to_nat ((offst + page_offset r) / SMALL_PAGE_SIZE) = Some page /\ nonsec page = true /\
      mobj_reg_shm_get_pa r offst SMALL_PAGE_SIZE = Return (Some page) /\
      mobj_reg_shm_get_pa r offst 0 = Return (Some (page + (offst + page_offset r) mod SMALL_PAGE_SIZE))
  else mobj_reg_shm_get_pa r offst 0 = Return None /\ mobj_reg_shm_get_pa r offst SMALL_PAGE_SIZE = Return None.
Proof.
  pose proof (steps_geo nonsec polite es init Hes) as Hg. rewrite H in Hg. cbn in Hg.
  assert (geo_ok nonsec r) as G by (eapply Hg; [by intros ? ?|done]). clear Hg.
  unfold mobj_reg_shm_get_pa. destruct (Z.ltb_spec offst (size r)) as [Hlt|Hge]; [|by rewrite (proj2 (Z.geb_le _ _))].
  rewrite Z.geb_leb, (proj2 (Z.leb_gt _ _)) by done. destruct (geo_index _ _ _ G (conj Ho Hlt)) as [H1 H2].
  pose proof (g_offset _ _ G). rewrite u64_small by (unfold is_u64; lia).
  destruct (lookup_lt_is_Some_2 (pages r) (Z.to_nat ((offst + page_offset r) / SMALL_PAGE_SIZE))) as [page Hpage].
  { pose proof (Z.div_pos (offst + page_offset r) SMALL_PAGE_SIZE ltac:(lia) ltac:(done)). lia. }
  rewrite Hpage. exists page. destruct (g_pages _ _ G page) as [Hok Hu]; [by eapply list_elem_of_lookup_2|].
  split; [done|]. split; [by apply andb_true_iff in Hok as [? ?]|]. split; [done|]. cbn [Z.eqb]. by rewrite (page_plus nonsec).
Qed.

Lemma shm_addresses_nonsecure_witness :
  let r := new_reg_shm [4096; 12288] 100 7 in
  mobj_reg_shm_get_pa r 4000 0 = Return (Some 12292) /\
  (exists page, pages r !! Z.to_nat ((4000 + page_offset r) / SMALL_PAGE_SIZE) = Some page /\ (page <? 65536) = true /\
      mobj_reg_shm_get_pa r 4000 SMALL_PAGE_SIZE = Return (Some page) /\
      mobj_reg_shm_get_pa r 4000 0 = Return (Some (page + (4000 + page_offset r) mod SMALL_PAGE_SIZE))).
Proof.
  split; [by vm_compute|]. set (es := [EvAlloc 16 [4096; 12288] 100 7]).
  refine (shm_addresses_nonsecure (fun p => p <? 65536) false es
    (match steps (fun p => p <? 65536) false init es with Next g => g | _ => init end) 16 (new_reg_shm [4096; 12288] 100 7) 4000 _ _ _ _).
  - constructor; [|by constructor]. split; [|lia]. intros p. rewrite !elem_of_cons, elem_of_nil. unfold is_u64. lia.
  - by vm_compute.
  - by vm_compute.
  - lia.
Defined.
