(* ===== verification/MsgParams.v ===== *)
(** * Parameters of messages: [core/tee/entry_std.c] and [core/kernel/msg_param.c]

    How the parameters of a message from normal world become the parameters of a trusted application, the
    references to shared memory this takes and gives back, and the lists of pages of buffers that are
    not contiguous. The fields of a message are read once each ([READ_ONCE]), so a message is a list of what
    was read; memory that holds lists of pages is read through [ram], which may answer differently each time.
    The configuration has no FF-A and no secure data path, and has reserved and dynamic shared memory. *)

From stdpp Require Import base gmap list.
From Stdlib Require Import ZArith Lia.
From S2P Require Import Prelude ErrM Vm WaitQueue Mutex RecMutex Shm.

Local Open Scope Z_scope.

(** ** Constants *)

Definition OPTEE_MSG_ATTR_TYPE_NONE : Z := 0.
Definition OPTEE_MSG_ATTR_TYPE_VALUE_INPUT : Z := 1.
Definition OPTEE_MSG_ATTR_TYPE_VALUE_OUTPUT : Z := 2.
Definition OPTEE_MSG_ATTR_TYPE_VALUE_INOUT : Z := 3.
Definition OPTEE_MSG_ATTR_TYPE_RMEM_INPUT : Z := 5.
Definition OPTEE_MSG_ATTR_TYPE_RMEM_OUTPUT : Z := 6.
Definition OPTEE_MSG_ATTR_TYPE_RMEM_INOUT : Z := 7.
Definition OPTEE_MSG_ATTR_TYPE_TMEM_INPUT : Z := 9.
Definition OPTEE_MSG_ATTR_TYPE_TMEM_OUTPUT : Z := 10.
Definition OPTEE_MSG_ATTR_TYPE_TMEM_INOUT : Z := 11.
Definition OPTEE_MSG_ATTR_TYPE_MASK : Z := 255.
Definition OPTEE_MSG_ATTR_META : Z := 256.
Definition OPTEE_MSG_ATTR_NONCONTIG : Z := 512.
Definition TEE_NUM_PARAMS : nat := 4.
Definition TEE_PARAM_TYPE_NONE : Z := 0.
Definition TEE_PARAM_TYPE_VALUE_INPUT : Z := 1.
Definition TEE_PARAM_TYPE_VALUE_OUTPUT : Z := 2.
Definition TEE_PARAM_TYPE_VALUE_INOUT : Z := 3.
Definition TEE_ERROR_SECURITY : Z := 0xFFFF000F.
Definition TEE_LOGIN_PUBLIC : Z := 0.
Definition TEE_LOGIN_USER : Z := 1.
Definition TEE_LOGIN_GROUP : Z := 2.
Definition TEE_LOGIN_APPLICATION : Z := 4.
Definition TEE_LOGIN_APPLICATION_USER : Z := 5.
Definition TEE_LOGIN_APPLICATION_GROUP : Z := 6.
Definition TEE_LOGIN_REE_KERNEL : Z := 0x80000000.

(** ** Data *)

(** [struct optee_msg_param]: the union is of three words of 64 bits. *)
Record optee_msg_param : Set := mkParam { attr : Z; w0 : Z; w1 : Z; w2 : Z }.

Definition tmem_buf_ptr := w0.
Definition tmem_size := w1.
Definition tmem_shm_ref := w2.
Definition rmem_offs := w0.
Definition rmem_size := w1.
Definition rmem_shm_ref := w2.

(** A pointer to a memory object: none, the reserved shared memory, or a registered one. *)
Inductive mobj_ptr : Set := MNull | MShm | MReg (m : Z).

#[export] Instance mobj_ptr_eq_dec : EqDecision mobj_ptr.
Proof. solve_decision. Defined.

Record param_mem : Set := mkMem { mem_mobj : mobj_ptr; mem_offs : Z; mem_size : Z }.

Inductive param_u : Set := PVal (a b : Z) | PMem (m : param_mem).

(** What [memset] leaves: a null reference. *)
Definition zero_param : param_u := PMem (mkMem MNull 0 0).

Record tee_ta_param : Set := mkTaParam { types : Z; u : list param_u }.

(** [shm_mobj] (a [struct mobj_phys]) by its counter; [clock] counts the answers from outside. *)
Record msg_st : Set := mkMsg { reg : shm_st; shm_mobj : Z; clock : nat }.

Definition set_reg (x : shm_st) (s : msg_st) : msg_st := mkMsg x (shm_mobj s) (clock s).
Definition set_shm_mobj (n : Z) (s : msg_st) : msg_st := mkMsg (reg s) n (clock s).

(** What is outside: [malloc], [calloc], the addresses and results of mappings, the memory of normal world, which
    of it is non-secure, and where the reserved shared memory is. *)
Record Env : Type := mkEnv {
  e_malloc : nat -> Z -> bool; e_calloc : nat -> Z -> Z; e_va : nat -> option Z; e_map : nat -> Z;
  e_ram : nat -> Z -> Z; e_nonsec : Z -> bool; e_shm_pa : Z; e_shm_size : Z }.

Section messages.
Context (E : Env).

Definition tick : M msg_st nat := fun s => (ROk (clock s), mkMsg (reg s) (shm_mobj s) (S (clock s))).
Definition on_reg {A} (m : M shm_st A) : M msg_st A := zoom reg set_reg m.

(** ** Lists of pages *)

(** [mobj_mapped_shm_alloc(&page, 1, 0, 0)] and [mobj_get_va]. *)
Definition map_page (page : Z) : M msg_st (option (Z * Z)) :=
  k ← tick;
  om ← on_reg (mobj_mapped_shm_alloc (e_nonsec E) (e_calloc E k) (e_va E k) (e_map E k) [page] 0 0);
  match om with
  | None => mret None
  | Some m =>
      ov ← on_reg (rd m (fun r => mobj_reg_shm_get_va r 0));
      match ov with
      | None => panic
      | Some va => assert_ (negb (va =? 0)) ;; mret (Some (m, va))
      end
  end.

(** The word at [va] in the page [page] mapped at [base]. *)
Definition read_va (page base va : Z) : M msg_st Z := k ← tick; mret (u64 (e_ram E k (page + (va - base)))).

(** The last word of a page is the address of the next one: [inl] where the loop is left, with [mobj]. *)
Definition next_page (m page base va : Z) : M msg_st (option Z + Z * Z * Z * Z) :=
  if Z.land (u64 (va + 8)) SMALL_PAGE_MASK =? 0 then
    p ← read_va page base va;
    if negb (Z.land p SMALL_PAGE_MASK =? 0) then mret (inl (Some m))
    else
      on_reg (mobj_put m) ;;
      om ← map_page p;
      match om with
      | None => mret (inl None)
      | Some (m, va) => mret (inr (m, p, va, va))
      end
  else mret (inr (m, page, base, va)).

(** [n] more entries; the object that is mapped at the end, and the pages unless one is malformed. *)
Fixpoint extract_loop (n : nat) (m page base va : Z) (ps : list Z) : M msg_st (option Z * option (list Z)) :=
  match n with
  | O => mret (Some m, Some ps)
  | S n =>
      r ← next_page m page base va;
      match r with
      | inl om => mret (om, None)
      | inr (m, page, base, va) =>
          p ← read_va page base va;
          if negb (Z.land p SMALL_PAGE_MASK =? 0) then mret (Some m, None)
          else extract_loop n m page base (u64 (va + 8)) (ps ++ [p])
      end
  end.

Definition msg_param_extract_pages (buffer : Z) (num_pages : nat) : M msg_st (option (list Z)) :=
  if negb (Z.land buffer SMALL_PAGE_MASK =? 0) then mret None
  else
    om ← map_page buffer;
    match om with
    | None => mret None
    | Some (m, va) =>
        r ← extract_loop num_pages m buffer va va [];
        match r.1 with Some m => on_reg (mobj_put m) | None => mret tt end ;;
        mret r.2
    end.

Definition MUL_OVERFLOW (a b : Z) : option Z := if a * b <=? UINT64_MAX then Some (a * b) else None.

Definition msg_param_mobj_from_noncontig (buf_ptr size shm_ref : Z) (map_buffer : bool) : M msg_st (option Z) :=
  let page_offset := Z.land buf_ptr SMALL_PAGE_MASK in
  match ADD_OVERFLOW size page_offset with
  | None => mret None
  | Some size_plus_offs =>
      let num_pages := u64 (u64 (size_plus_offs - 1) / SMALL_PAGE_SIZE + 1) in
      match MUL_OVERFLOW num_pages SIZEOF_PADDR with
      | None => mret None
      | Some msize =>
          k ← tick;
          if negb (e_malloc E k msize) then mret None
          else
            ops ← msg_param_extract_pages (Z.land buf_ptr (u64 (Z.lnot SMALL_PAGE_MASK))) (Z.to_nat num_pages);
            match ops with
            | None => mret None
            | Some ps =>
                k ← tick;
                on_reg (if map_buffer
                        then mobj_mapped_shm_alloc (e_nonsec E) (e_calloc E k) (e_va E k) (e_map E k) ps page_offset shm_ref
                        else mobj_reg_shm_alloc (e_nonsec E) (e_calloc E k) ps page_offset shm_ref)
            end
      end
  end.

(** ** References to memory *)

(** [mobj_get] and [mobj_put] of any pointer; the reserved shared memory is never freed. *)
Definition mobj_get_ptr (p : mobj_ptr) : M msg_st unit :=
  match p with
  | MNull => mret tt
  | MReg m => on_reg (mobj_get m)
  | MShm => n ← gets shm_mobj; match refcount_inc n [] with (Some n', _) => modify (set_shm_mobj n') | (None, _) => panic end
  end.

Definition mobj_put_ptr (p : mobj_ptr) : M msg_st unit :=
  match p with
  | MNull => mret tt
  | MReg m => on_reg (mobj_put m)
  | MShm => n ← gets shm_mobj; match refcount_dec n [] with Return (n', _) => modify (set_shm_mobj n') | Panic => panic end
  end.

Definition param_mem_from_mobj (pa sz : Z) : M msg_st (option param_mem) :=
  if negb (core_is_buffer_inside pa (Z.max sz 1) (e_shm_pa E) (e_shm_size E)) then mret None
  else mobj_get_ptr MShm ;; mret (Some (mkMem MShm (u64 (pa - e_shm_pa E)) sz)).

(** The result and [*mem], which was zero before. *)
Definition set_tmem_param (p : optee_msg_param) (attr : Z) : M msg_st (Z * param_mem) :=
  if tmem_buf_ptr p =? 0 then mret (TEE_SUCCESS, mkMem MNull 0 0)
  else if has_flag attr OPTEE_MSG_ATTR_NONCONTIG then
    om ← msg_param_mobj_from_noncontig (tmem_buf_ptr p) (tmem_size p) (tmem_shm_ref p) false;
    match om with
    | None => mret (TEE_ERROR_BAD_PARAMETERS, mkMem MNull 0 0)
    | Some m => mret (TEE_SUCCESS, mkMem (MReg m) 0 (tmem_size p))
    end
  else
    om ← param_mem_from_mobj (tmem_buf_ptr p) (tmem_size p);
    match om with
    | Some mem => mret (TEE_SUCCESS, mem)
    | None => mret (TEE_ERROR_BAD_PARAMETERS, mkMem MNull 0 0)
    end.

Definition set_rmem_param (p : optee_msg_param) : M msg_st (Z * param_mem) :=
  om ← on_reg (mobj_reg_shm_get_by_cookie (rmem_shm_ref p));
  match om with
  | None => mret (TEE_ERROR_BAD_PARAMETERS, mkMem MNull 0 0)
  | Some m =>
      let mem := mkMem (MReg m) (rmem_offs p) (rmem_size p) in
      sz ← on_reg (rd m size);
      match ADD_OVERFLOW (rmem_offs p) (rmem_size p) with
      | None => mret (TEE_ERROR_SECURITY, mem)
      | Some req_size => mret (if sz <? req_size then TEE_ERROR_SECURITY else TEE_SUCCESS, mem)
      end
  end.

(** ** [copy_in_params] *)

Inductive attr_kind : Set := KNone | KValue | KRmem | KTmem | KOther.

Definition kind_of (attr : Z) : attr_kind :=
  if attr =? OPTEE_MSG_ATTR_TYPE_NONE then KNone
  else if (attr =? OPTEE_MSG_ATTR_TYPE_VALUE_INPUT) || (attr =? OPTEE_MSG_ATTR_TYPE_VALUE_OUTPUT)
          || (attr =? OPTEE_MSG_ATTR_TYPE_VALUE_INOUT) then KValue
  else if (attr =? OPTEE_MSG_ATTR_TYPE_TMEM_INPUT) || (attr =? OPTEE_MSG_ATTR_TYPE_TMEM_OUTPUT)
          || (attr =? OPTEE_MSG_ATTR_TYPE_TMEM_INOUT) then KTmem
  else if (attr =? OPTEE_MSG_ATTR_TYPE_RMEM_INPUT) || (attr =? OPTEE_MSG_ATTR_TYPE_RMEM_OUTPUT)
          || (attr =? OPTEE_MSG_ATTR_TYPE_RMEM_INOUT) then KRmem
  else KOther.

(** One parameter: the result, its type and [ta_param->u[n]]. *)
Definition copy_in_param (p : optee_msg_param) : M msg_st (Z * Z * param_u) :=
  if has_flag (attr p) OPTEE_MSG_ATTR_META then mret (TEE_ERROR_BAD_PARAMETERS, 0, zero_param)
  else
    let a := Z.land (attr p) OPTEE_MSG_ATTR_TYPE_MASK in
    match kind_of a with
    | KNone => mret (TEE_SUCCESS, TEE_PARAM_TYPE_NONE, zero_param)
    | KValue => mret (TEE_SUCCESS, TEE_PARAM_TYPE_VALUE_INPUT + a - OPTEE_MSG_ATTR_TYPE_VALUE_INPUT, PVal (u32 (w0 p)) (u32 (w1 p)))
    | KTmem =>
        '(res, mem) ← set_tmem_param p (attr p);
        mret (res, TEE_PARAM_TYPE_MEMREF_INPUT + a - OPTEE_MSG_ATTR_TYPE_TMEM_INPUT, PMem mem)
    | KRmem =>
        '(res, mem) ← set_rmem_param p;
        mret (res, TEE_PARAM_TYPE_MEMREF_INPUT + a - OPTEE_MSG_ATTR_TYPE_RMEM_INPUT, PMem mem)
    | KOther => mret (TEE_ERROR_BAD_PARAMETERS, 0, zero_param)
    end.

(** The result, [saved_attr], [pt] and [ta_param->u] as far as the loop came. *)
Fixpoint copy_in_loop (ps : list optee_msg_param) : M msg_st (Z * (list Z * list Z * list param_u)) :=
  match ps with
  | [] => mret (TEE_SUCCESS, ([], [], []))
  | p :: ps =>
      '(res, t, v) ← copy_in_param p;
      if negb (res =? TEE_SUCCESS) then mret (res, ([attr p], [t], [v]))
      else
        '(res, (saved, pt, us)) ← copy_in_loop ps;
        mret (res, (attr p :: saved, t :: pt, v :: us))
  end.

(** What the loop did not reach is zero. *)
Definition pad {A} (x : A) (l : list A) : list A := take TEE_NUM_PARAMS (l ++ replicate TEE_NUM_PARAMS x).

Definition TEE_PARAM_TYPES (t0 t1 t2 t3 : Z) : Z :=
  Z.lor (Z.lor (Z.lor t0 (Z.shiftl t1 4)) (Z.shiftl t2 8)) (Z.shiftl t3 12).

(** [saved_attr] is zero before, as the callers declare it; [None] for [*ta_param] means it was not written. *)
Definition copy_in_params (ps : list optee_msg_param) : M msg_st (Z * list Z * option tee_ta_param) :=
  if (TEE_NUM_PARAMS <? length ps)%nat then mret (TEE_ERROR_BAD_PARAMETERS, replicate TEE_NUM_PARAMS 0, None)
  else
    '(res, (saved, pt, us)) ← copy_in_loop ps;
    let ty := match pad 0 pt with [t0; t1; t2; t3] => TEE_PARAM_TYPES t0 t1 t2 t3 | _ => 0 end in
    mret (res, pad 0 saved, Some (mkTaParam (if res =? TEE_SUCCESS then ty else 0) (pad zero_param us))).

(** ** [cleanup_shm_refs]

    Reading an element past the end of [saved_attr], or [*param] when it was not written, is [RPanic]. *)

Definition cleanup_kind (attr : Z) : bool := match kind_of attr with KTmem | KRmem => true | _ => false end.

Fixpoint cleanup_from (n : nat) (saved : list Z) (param : option tee_ta_param) (more : nat) : M msg_st unit :=
  match more with
  | O => mret tt
  | S more =>
      match saved !! n with
      | None => panic
      | Some a =>
          if cleanup_kind a then
            match param with
            | None => panic
            | Some p => match u p !! n with Some (PMem mem) => mobj_put_ptr (mem_mobj mem) | _ => panic end
            end
          else mret tt
      end ;; cleanup_from (S n) saved param more
  end.

Definition cleanup_shm_refs (saved : list Z) (param : option tee_ta_param) (num_params : nat) : M msg_st unit :=
  cleanup_from 0 saved param num_params.

(** ** [copy_out_param] *)

Definition set_size (n : Z) (p : optee_msg_param) : optee_msg_param := mkParam (attr p) (w0 p) n (w2 p).
Definition set_value (a b : Z) (p : optee_msg_param) : optee_msg_param := mkParam (attr p) a b (w2 p).

(** Parameter [n] of the message, by its type, [saved_attr[n]] and [ta_param->u[n]]. *)
Definition copy_out_one (ty saved : Z) (v : param_u) (p : optee_msg_param) : optee_msg_param :=
  if (ty =? TEE_PARAM_TYPE_MEMREF_OUTPUT) || (ty =? TEE_PARAM_TYPE_MEMREF_INOUT) then
    let a := Z.land saved OPTEE_MSG_ATTR_TYPE_MASK in
    if (a =? OPTEE_MSG_ATTR_TYPE_TMEM_OUTPUT) || (a =? OPTEE_MSG_ATTR_TYPE_TMEM_INOUT)
       || (a =? OPTEE_MSG_ATTR_TYPE_RMEM_OUTPUT) || (a =? OPTEE_MSG_ATTR_TYPE_RMEM_INOUT) then
      match v with PMem m => set_size (mem_size m) p | PVal _ _ => p end
    else p
  else if (ty =? TEE_PARAM_TYPE_VALUE_OUTPUT) || (ty =? TEE_PARAM_TYPE_VALUE_INOUT) then
    match v with PVal a b => set_value a b p | PMem _ => p end
  else p.

Definition copy_out_param (ta : tee_ta_param) (saved : list Z) (ps : list optee_msg_param) : list optee_msg_param :=
  imap (fun n p => copy_out_one (TEE_PARAM_TYPE_GET (types ta) n) (default 0 (saved !! n)) (default zero_param (u ta !! n)) p) ps.

(** ** [get_open_session_meta] *)

Record TEE_UUID : Set := mkUuid { timeLow : Z; timeMid : Z; timeHiAndVersion : Z; clockSeqAndNode : list Z }.

Definition tee_uuid_from_octets (s : list Z) : TEE_UUID :=
  let b n := nth n s 0 in
  mkUuid (Z.lor (Z.lor (Z.lor (Z.shiftl (b 0%nat) 24) (Z.shiftl (b 1%nat) 16)) (Z.shiftl (b 2%nat) 8)) (b 3%nat))
         (Z.lor (Z.shiftl (b 4%nat) 8) (b 5%nat)) (Z.lor (Z.shiftl (b 6%nat) 8) (b 7%nat)) (take 8 (drop 8 s)).

Definition tee_uuid_to_octets (d : TEE_UUID) : list Z :=
  let byte x n := Z.land (Z.shiftr x n) 255 in
  [byte (timeLow d) 24; byte (timeLow d) 16; byte (timeLow d) 8; byte (timeLow d) 0;
   byte (timeMid d) 8; byte (timeMid d) 0; byte (timeHiAndVersion d) 8; byte (timeHiAndVersion d) 0]
  ++ take 8 (clockSeqAndNode d).

(** The octets of two words in memory (little endian): what a pointer to [u.value] gives. *)
Definition octets (a b : Z) : list Z :=
  ((fun i => Z.land (Z.shiftr a (8 * i)) 255) <$> seqZ 0 8) ++ ((fun i => Z.land (Z.shiftr b (8 * i)) 255) <$> seqZ 0 8).

Definition nil_uuid : TEE_UUID := mkUuid 0 0 0 (replicate 8 0).

(** The UUID of the application, the client's login and UUID, and [num_meta]. *)
Definition get_open_session_meta (ps : list optee_msg_param) : option (TEE_UUID * Z * TEE_UUID * nat) :=
  let req_attr := Z.lor OPTEE_MSG_ATTR_META OPTEE_MSG_ATTR_TYPE_VALUE_INPUT in
  match ps with
  | p0 :: p1 :: _ =>
      if negb (attr p0 =? req_attr) || negb (attr p1 =? req_attr) then None
      else
        let uuid := tee_uuid_from_octets (octets (w0 p0) (w1 p0)) in
        let login := Z.land (w2 p1) UINT32_MAX in
        if (login =? TEE_LOGIN_PUBLIC) || (login =? TEE_LOGIN_REE_KERNEL) then Some (uuid, login, nil_uuid, 2%nat)
        else if (login =? TEE_LOGIN_USER) || (login =? TEE_LOGIN_GROUP) || (login =? TEE_LOGIN_APPLICATION)
                || (login =? TEE_LOGIN_APPLICATION_USER) || (login =? TEE_LOGIN_APPLICATION_GROUP)
        then Some (uuid, login, tee_uuid_from_octets (octets (w0 p1) (w1 p1)), 2%nat)
        else None
  | _ => None
  end.

(** ** Registration *)

Definition register_shm (ps : list optee_msg_param) : M msg_st Z :=
  match ps with
  | [p] =>
      if negb (attr p =? Z.lor OPTEE_MSG_ATTR_TYPE_TMEM_OUTPUT OPTEE_MSG_ATTR_NONCONTIG) then mret TEE_ERROR_BAD_PARAMETERS
      else
        om ← msg_param_mobj_from_noncontig (tmem_buf_ptr p) (tmem_size p) (tmem_shm_ref p) false;
        match om with
        | None => mret TEE_ERROR_BAD_PARAMETERS
        | Some m => on_reg (mobj_reg_shm_unguard m) ;; mret TEE_SUCCESS
        end
  | _ => mret TEE_ERROR_BAD_PARAMETERS
  end.

(** [mobj_reg_shm_release_by_cookie]: [None] when it waits for others. *)
Definition mobj_reg_shm_release_by_cookie (c : Z) : M shm_st (option Z) :=
  om ← release_find c;
  match om with
  | None => mret (Some TEE_ERROR_BAD_PARAMETERS)
  | Some m => mobj_put m ;; release_wait ;; b ← release_try m; mret (if (b : bool) then Some TEE_SUCCESS else None)
  end.

Definition unregister_shm (ps : list optee_msg_param) : M msg_st (option Z) :=
  match ps with
  | [p] => on_reg (mobj_reg_shm_release_by_cookie (rmem_shm_ref p))
  | _ => mret (Some TEE_ERROR_BAD_PARAMETERS)
  end.

(** ** The references of a request

    [entry_invoke_command] and [entry_open_session], without what they do to sessions ([Session]): [ta] is what
    the trusted application makes of its parameters (it does not change the memory objects in them), or nothing
    where the request fails before. *)

Definition serve (ta : tee_ta_param -> option (Z * tee_ta_param)) (ps : list optee_msg_param) : M msg_st (Z * list optee_msg_param) :=
  '(res, saved, param) ← copy_in_params ps;
  let '(res, out) :=
    match param with
    | Some p => if res =? TEE_SUCCESS then
                  match ta p with Some (r, q) => (r, copy_out_param q saved ps) | None => (TEE_ERROR_BAD_PARAMETERS, ps) end
                else (res, ps)
    | None => (res, ps)
    end in
  cleanup_shm_refs saved param (length ps) ;;
  mret (res, out).
End messages.
