(* ===== verification/MsgPages.v ===== *)
(** * Lists of pages: what [msg_param_extract_pages] gives

    The loop maps one page of the list after the other and leaves no object behind, whatever normal world
    writes meanwhile; with memory that does not change it gives the entries of the linked list. *)

From stdpp Require Import base gmap list.
From Stdlib Require Import ZArith Lia.
From S2P Require Import Prelude ErrM Vm WaitQueue Mutex RecMutex Shm MsgParams.

Local Open Scope Z_scope.

Lemma bind_run {S A B} (a : M S A) (k : A -> M S B) s x s' : a s = (ROk x, s') -> (a ≫= k) s = k x s'.
Proof. intros H. unfold mbind, M_mbind, m_bind. by rewrite H. Qed.

(** ** An object that comes and goes *)

Definition listed (σ : shm_st) : Prop := forall m, m ∈ reg_shm_list σ -> is_Some (shms σ !! m).

Definition added (m : Z) (r : mobj_reg_shm) (σ : shm_st) : shm_st :=
  set_list (m :: reg_shm_list σ) (set_shms (<[m := r]> (shms σ)) σ).

Lemma added_at m r σ : shms (added m r σ) !! m = Some r.
Proof. apply lookup_insert_eq. Qed.

Lemma added_wr m r f σ : wr m f (added m r σ) = (ROk tt, added m (f r) σ).
Proof. unfold wr. rewrite added_at. unfold added, set_shms, set_list. cbn [shms reg_shm_list]. by rewrite insert_insert_eq. Qed.

Lemma rd_added {A B} m r σ (f : mobj_reg_shm -> A) (k : A -> M shm_st B) : (rd m f ≫= k) (added m r σ) = k (f r) (added m r σ).
Proof. unfold mbind, M_mbind, m_bind, rd. by rewrite added_at. Qed.

Lemma wr_added {B} m r σ f (k : M shm_st B) : (wr m f ;; k) (added m r σ) = k (added m (f r) σ).
Proof. unfold mbind, M_mbind, m_bind. by rewrite added_wr. Qed.

Lemma filter_ne_id (m : Z) (l : list Z) : m ∉ l -> filter (fun x => x <> m) l = l.
Proof.
  induction l as [|x l IH]; [done|]. intros [Hx Hl]%not_elem_of_cons.
  rewrite filter_cons_True by done. by rewrite IH.
Qed.

Lemma freed_added m r σ : listed σ -> shms σ !! m = None -> freed m (added m r σ) = σ.
Proof.
  intros Hl Hm. destruct σ as [s l w]. unfold freed, added, set_list, set_shms. cbn in *.
  rewrite delete_insert_id by done. f_equal. destruct (decide _) as [Hd2|_]; [done|]. apply filter_ne_id. intros Hx.
  destruct (Hl m Hx) as [? E]. cbn in E. congruence.
Qed.

(** The last reference to a guarded object removes it. *)
Lemma put_added m r σ :
  listed σ -> shms σ !! m = None -> refc r = 1 -> guarded r = true -> releasing r = false ->
  mobj_put m (added m r σ) = (ROk tt, σ).
Proof.
  intros Hl Hm H1 H2 H3. unfold mobj_put.
  assert (mobj_put_dec m (added m r σ) = (ROk true, added m (set_refc 0 r) σ)) as Hd.
  { unfold mobj_put_dec. rewrite rd_added, H1. change (refcount_dec 1 []) with (Return (0, true)). cbv beta iota. by rewrite wr_added. }
  unfold mbind at 1, M_mbind, m_bind. rewrite Hd.
  change (mobj_reg_shm_free m (added m (set_refc 0 r) σ) = (ROk tt, σ)). unfold mobj_reg_shm_free.
  rewrite !rd_added. cbn [guarded releasing set_refc]. rewrite H2, H3. cbn [andb negb].
  unfold reg_shm_free_helper. rewrite rd_added. unfold modify. f_equal. by apply freed_added.
Qed.

(** [mobj_reg_shm_alloc] fails and changes nothing, or adds an object over pages that are aligned and non-secure. *)
Definition can_alloc (nonsec : Z -> bool) (calloc : Z -> Z) (ps : list Z) (offs : Z) (σ : shm_st) : Prop :=
  let s := mobj_reg_shm_size (Z.of_nat (length ps)) in
  ps <> [] /\ offs < SMALL_PAGE_SIZE /\ s <> 0 /\ calloc s <> 0 /\ shms σ !! calloc s = None /\ forallb (page_ok nonsec) ps = true.

Lemma alloc_cases nonsec calloc ps offs c σ :
  (mobj_reg_shm_alloc nonsec calloc ps offs c σ = (ROk None, σ) /\ ~ can_alloc nonsec calloc ps offs σ) \/
  exists m, mobj_reg_shm_alloc nonsec calloc ps offs c σ = (ROk (Some m), added m (new_reg_shm ps offs c) σ) /\
    m <> 0 /\ shms σ !! m = None /\ ps <> [] /\ offs < SMALL_PAGE_SIZE /\ forallb (page_ok nonsec) ps = true /\
    m = calloc (mobj_reg_shm_size (Z.of_nat (length ps))).
Proof.
  unfold mobj_reg_shm_alloc. destruct (_ || _ || _) eqn:E.
  { left. split; [done|]. intros (H1 & H2 & H3 & _). destruct ps as [|p ps]; [done|].
    apply orb_true_iff in E as [[E|E]%orb_true_iff|E]; [done|unfold SMALL_PAGE_SIZE in *; lia|by apply Z.eqb_eq in E]. }
  apply orb_false_iff in E as [[E1 E2]%orb_false_iff _]. unfold mbind, M_mbind, m_bind, get.
  destruct (_ || _) eqn:Ha.
  { left. split; [done|]. intros (_ & _ & _ & H4 & H5 & _). apply orb_true_iff in Ha as [Ha|Ha]; [by apply Z.eqb_eq in Ha|].
    apply bool_decide_eq_true in Ha as [? Ha]. congruence. }
  apply orb_false_iff in Ha as [Ha1 Ha2].
  destruct (forallb (page_ok nonsec) ps) eqn:Hp; [|left; split; [done|intros H; destruct H as (_ & _ & _ & _ & _ & H); congruence]].
  right. eexists. split; [done|].
  apply bool_decide_eq_false, eq_None_not_Some in Ha2. apply Z.eqb_neq in Ha1, E1.
  repeat split; try done; [by intros ->|unfold SMALL_PAGE_SIZE in *; lia].
Qed.

Definition mapped_obj (p v : Z) : mobj_reg_shm := set_mapcount 1 (set_mm (Some v) (new_reg_shm [p] 0 0)).

(** [mobj_mapped_shm_alloc] of a page likewise, mapped. *)
Lemma mapped_alloc_cases nonsec calloc va res p σ :
  listed σ ->
  (mobj_mapped_shm_alloc nonsec calloc va res [p] 0 0 σ = (ROk None, σ) /\
    ~ (can_alloc nonsec calloc [p] 0 σ /\ is_Some va /\ res = TEE_SUCCESS)) \/
  exists m v, va = Some v /\ shms σ !! m = None /\ page_ok nonsec p = true /\
    mobj_mapped_shm_alloc nonsec calloc va res [p] 0 0 σ = (ROk (Some m), added m (mapped_obj p v) σ).
Proof.
  intros Hl. unfold mobj_mapped_shm_alloc.
  destruct (alloc_cases nonsec calloc [p] 0 0 σ) as [[E HE]|(m & E & _ & Hm & _ & _ & Hp & _)]; rewrite (bind_run _ _ _ _ _ E); [left; split; [done|tauto]|].
  assert (mobj_inc_map m va res (added m (new_reg_shm [p] 0 0) σ) =
    match va with
    | None => (ROk TEE_ERROR_OUT_OF_MEMORY, added m (new_reg_shm [p] 0 0) σ)
    | Some v => if res =? TEE_SUCCESS then (ROk TEE_SUCCESS, added m (mapped_obj p v) σ)
                else (ROk res, added m (set_mm None (set_mm (Some v) (new_reg_shm [p] 0 0))) σ)
    end) as Hi.
  { unfold mobj_inc_map, inc_map_fast. unfold mbind at 1, M_mbind, m_bind at 1. rewrite rd_added. cbn [mapcount new_reg_shm refcount_inc Z.eqb mret M_mret m_ret].
    unfold inc_map_slow. rewrite rd_added. cbn [mapcount new_reg_shm Z.eqb negb]. rewrite rd_added.
    rewrite bool_decide_eq_true_2 by done. rewrite (bind_run (assert_ true) _ _ tt _ eq_refl).
    destruct va as [v|]; [|done]. rewrite wr_added. destruct (res =? TEE_SUCCESS); cbn [negb]; by rewrite wr_added. }
  destruct va as [v|]; [destruct (Z.eqb_spec res TEE_SUCCESS) as [->|Hr]|]; rewrite (bind_run _ _ _ _ _ Hi).
  - right. exists m, v. split; [done|]. split; [done|]. split; [by apply andb_true_iff in Hp as [? _]|done].
  - left. split; [|tauto]. rewrite (proj2 (Z.eqb_neq _ _) Hr). cbn [negb]. by erewrite bind_run by (by apply put_added).
  - left. split; [|intros (_ & [? ?] & _); done]. change (negb (TEE_ERROR_OUT_OF_MEMORY =? TEE_SUCCESS)) with true. cbv iota. by erewrite bind_run by (by apply put_added).
Qed.

(** ** The loop *)

(** The pages of the linked list of [mem] from [b], and its entries: 511 to a page. *)
Fixpoint chain (mem : Z -> Z) (b : Z) (c : nat) : Z :=
  match c with O => b | S c => u64 (mem (chain mem b c + 4088)) end.

Definition entry (mem : Z -> Z) (b : Z) (t : nat) : Z := u64 (mem (chain mem b (t / 511) + 8 * Z.of_nat (t mod 511))).

Definition aligned (p : Z) : Prop := Z.land p SMALL_PAGE_MASK = 0.

(** A page of virtual addresses. *)
Definition good_va (v : Z) : Prop := v mod 4096 = 0 /\ 0 < v < 2 ^ 64.

Lemma good_va_room v : good_va v -> v + 4096 <= 2 ^ 64.
Proof.
  intros [H1 H2]. pose proof (Z.div_mod v 4096 ltac:(lia)). assert (v / 4096 < 4503599627370496) by (apply Z.div_lt_upper_bound; lia). lia.
Qed.

(** The test for the last word of a page. *)
Lemma last_word v (i : nat) :
  good_va v -> (i <= 511)%nat -> (Z.land (u64 (v + 8 * Z.of_nat i + 8)) SMALL_PAGE_MASK =? 0) = (i =? 511)%nat.
Proof.
  intros Hv Hi. pose proof (good_va_room v Hv). destruct Hv as [H1 H2].
  change SMALL_PAGE_MASK with (Z.ones 12). rewrite Z.land_ones by lia. change (2 ^ 12) with 4096.
  destruct (Nat.eqb_spec i 511) as [->|Hne].
  - replace (v + 8 * Z.of_nat 511 + 8) with (v + 4096) by lia. apply Z.eqb_eq. unfold u64.
    pose proof (Z.div_mod v 4096 ltac:(lia)) as Hd. rewrite H1, Z.add_0_r in Hd.
    replace 18446744073709551616 with (4096 * 4503599627370496) by done. rewrite Hd.
    replace (4096 * (v / 4096) + 4096) with (4096 * (v / 4096 + 1)) by lia.
    rewrite Z.mul_mod_distr_l by done. rewrite Z.mul_comm. by apply Z.mod_mul.
  - apply Z.eqb_neq. rewrite u64_small by (unfold is_u64; lia).
    replace (v + 8 * Z.of_nat i + 8) with (8 * Z.of_nat i + 8 + (v / 4096) * 4096).
    + rewrite Z.mod_add by done. rewrite Z.mod_small by lia. lia.
    + pose proof (Z.div_mod v 4096 ltac:(lia)). lia.
Qed.

(** Memory and addresses do not run out. *)
Definition available (E : Env) (σ : shm_st) : Prop :=
  forall k, is_Some (e_va E k) /\ e_map E k = TEE_SUCCESS /\ forall s, e_calloc E k s <> 0 /\ shms σ !! e_calloc E k s = None.

Section loop.
Context (E : Env) (Hva : forall k v, e_va E k = Some v -> good_va v).
Context (σ : shm_st) (Hσ : listed σ).

Lemma map_page_cases p rf k :
  (map_page E p (mkMsg σ rf k) = (ROk None, mkMsg σ rf (S k)) /\ ~ (available E σ /\ page_ok (e_nonsec E) p = true)) \/
  exists m v, good_va v /\ shms σ !! m = None /\ page_ok (e_nonsec E) p = true /\
    map_page E p (mkMsg σ rf k) = (ROk (Some (m, v)), mkMsg (added m (mapped_obj p v) σ) rf (S k)).
Proof.
  unfold map_page. rewrite (bind_run tick _ (mkMsg σ rf k) k (mkMsg σ rf (S k)) eq_refl).
  destruct (mapped_alloc_cases (e_nonsec E) (e_calloc E k) (e_va E k) (e_map E k) p σ Hσ) as [[H HN]|(m & v & Hv & Hm & Hp & H)].
  - left. split; [erewrite bind_run; [|unfold on_reg, zoom; cbn [reg]; by rewrite H]; done|].
    intros [Hav Hp]. destruct (Hav k) as (H1 & H2 & H3). destruct (H3 (mobj_reg_shm_size 1)). apply HN.
    repeat split; try done. cbn [forallb]. by rewrite Hp.
  - right. exists m, v. pose proof (Hva _ _ Hv) as Hg. split; [done|]. split; [done|]. split; [done|].
    erewrite bind_run; [|unfold on_reg, zoom; cbn [reg]; by rewrite H]. cbv iota beta.
    erewrite bind_run; [|unfold on_reg, zoom, rd; cbn [reg set_reg]; by rewrite added_at]. cbv iota beta.
    change (mobj_reg_shm_get_va (mapped_obj p v) 0) with (Some (u64 (v + 0 + 0))). cbv iota beta.
    rewrite !Z.add_0_r, u64_small by (destruct Hg; unfold is_u64; lia).
    rewrite (proj2 (Z.eqb_neq _ _)) by (destruct Hg; lia). done.
Qed.

Lemma put_mapped m p v rf k :
  shms σ !! m = None -> on_reg (mobj_put m) (mkMsg (added m (mapped_obj p v) σ) rf k) = (ROk tt, mkMsg σ rf k).
Proof. intros Hm. unfold on_reg, zoom. cbn [reg]. by rewrite put_added. Qed.

Lemma read_va_at p v i x rf k :
  read_va E p v (v + 8 * Z.of_nat i) (mkMsg x rf k) = (ROk (u64 (e_ram E k (p + 8 * Z.of_nat i))), mkMsg x rf (S k)).
Proof.
  unfold read_va. rewrite (bind_run tick _ (mkMsg x rf k) k (mkMsg x rf (S k)) eq_refl).
  by replace (p + (v + 8 * Z.of_nat i - v)) with (p + 8 * Z.of_nat i) by lia.
Qed.

(** What is left mapped. *)
Definition left_over (om : option Z) (s : shm_st) : Prop :=
  match om with None => s = σ | Some m => exists p v, s = added m (mapped_obj p v) σ /\ shms σ !! m = None end.

Lemma next_page_within m p v i rf k :
  good_va v -> (i < 511)%nat ->
  next_page E m p v (v + 8 * Z.of_nat i) (mkMsg (added m (mapped_obj p v) σ) rf k) =
    (ROk (inr (m, p, v, v + 8 * Z.of_nat i)), mkMsg (added m (mapped_obj p v) σ) rf k).
Proof.
  intros Hv Hi. unfold next_page. rewrite last_word by (done || lia). by rewrite (proj2 (Nat.eqb_neq _ _)) by lia.
Qed.

Lemma next_page_last m p v rf k :
  good_va v -> shms σ !! m = None ->
  let w := u64 (e_ram E k (p + 4088)) in
  (exists om s' k', next_page E m p v (v + 8 * Z.of_nat 511) (mkMsg (added m (mapped_obj p v) σ) rf k) = (ROk (inl om), mkMsg s' rf k') /\
     left_over om s' /\ ~ (available E σ /\ page_ok (e_nonsec E) w = true)) \/
  (exists m' v' k', next_page E m p v (v + 8 * Z.of_nat 511) (mkMsg (added m (mapped_obj p v) σ) rf k) =
     (ROk (inr (m', w, v', v')), mkMsg (added m' (mapped_obj w v') σ) rf k') /\ good_va v' /\ shms σ !! m' = None).
Proof.
  intros Hv Hm w. unfold next_page. rewrite last_word by (done || lia). cbn [Nat.eqb].
  rewrite (bind_run _ _ _ _ _ (read_va_at p v 511 _ rf k)). change (p + 8 * Z.of_nat 511) with (p + 4088). fold w.
  destruct (Z.eqb_spec (Z.land w SMALL_PAGE_MASK) 0) as [Hw|Hw]; cbn [negb].
  - rewrite (bind_run _ _ _ _ _ (put_mapped m p v rf (S k) Hm)).
    destruct (map_page_cases w rf (S k)) as [[H HN]|(m' & v' & Hv' & Hm' & _ & H)]; rewrite (bind_run _ _ _ _ _ H).
    + left. by eexists None, _, _.
    + right. by eexists _, _, _.
  - left. eexists (Some m), _, _. split; [done|]. split; [by exists p, v|]. intros [_ Hp%andb_true_iff].
    destruct Hp as [Hp _]. by apply Z.eqb_eq in Hp.
Qed.

(** What the loop gives for [n] more entries from word [i] of page [p], the page [c] of the list. *)
Definition loop_result (n : nat) (p : Z) (i : nat) (ps : list Z) (om : option Z) (r : option (list Z)) (s : shm_st) : Prop :=
  left_over om s /\
  (forall l, r = Some l -> exists l', l = ps ++ l' /\ length l' = n /\ Forall aligned l' /\
     forall mem b c, (forall k a, e_ram E k a = mem a) -> p = chain mem b c ->
       forall j, (j < n)%nat -> l' !! j = Some (entry mem b (c * 511 + i + j))) /\
  (forall mem b c, available E σ -> (forall k a, e_ram E k a = mem a) -> p = chain mem b c ->
     (forall c', (c < c')%nat -> (c' * 511 < c * 511 + i + n)%nat -> page_ok (e_nonsec E) (chain mem b c') = true) ->
     (forall j, (j < n)%nat -> aligned (entry mem b (c * 511 + i + j))) -> r <> None).

Definition loop_ends (n : nat) (m p v : Z) (i : nat) (ps : list Z) (a : M msg_st (option Z * option (list Z))) (rf : Z) (k : nat) : Prop :=
  exists om r s' k', a (mkMsg (added m (mapped_obj p v) σ) rf k) = (ROk (om, r), mkMsg s' rf k') /\ loop_result n p i ps om r s'.

Lemma entry_at mem b c i : (i < 511)%nat -> entry mem b (c * 511 + i) = u64 (mem (chain mem b c + 8 * Z.of_nat i)).
Proof.
  intros Hi. unfold entry. rewrite Nat.div_add_l, Nat.div_small, Nat.add_0_r by lia.
  by rewrite (Nat.add_comm (c * 511)), Nat.Div0.mod_add, Nat.mod_small by lia.
Qed.

(** One entry is read at a word that is not the last of its page, and the loop goes on. *)
Lemma extract_entry n m p v i ps rf k :
  (forall ps k, loop_ends n m p v (S i) ps (extract_loop E n m p v (v + 8 * Z.of_nat (S i)) ps) rf k) ->
  good_va v -> shms σ !! m = None -> (i < 511)%nat ->
  loop_ends (S n) m p v i ps
    (q ← read_va E p v (v + 8 * Z.of_nat i);
     if negb (Z.land q SMALL_PAGE_MASK =? 0) then mret (Some m, None)
     else extract_loop E n m p v (u64 (v + 8 * Z.of_nat i + 8)) (ps ++ [q])) rf k.
Proof.
  intros IH Hv Hm Hi. unfold loop_ends.
  rewrite (bind_run _ _ _ _ _ (read_va_at p v i _ rf k)). set (q := u64 (e_ram E k (p + 8 * Z.of_nat i))).
  assert (forall mem b c, (forall k a, e_ram E k a = mem a) -> p = chain mem b c -> entry mem b (c * 511 + i) = q) as Hq0.
  { intros mem b c Hst Hp. unfold q. by rewrite entry_at, Hst, Hp. }
  destruct (Z.eqb_spec (Z.land q SMALL_PAGE_MASK) 0) as [Hq|Hq]; cbn [negb].
  - pose proof (good_va_room v Hv). rewrite u64_small by (destruct Hv; unfold is_u64; lia).
    replace (v + 8 * Z.of_nat i + 8) with (v + 8 * Z.of_nat (S i)) by lia.
    destruct (IH (ps ++ [q]) (S k)) as (om & r & s' & k' & H1 & H2 & H3 & H4).
    exists om, r, s', k'. split; [done|]. split; [done|]. split.
    + intros l Hl. destruct (H3 l Hl) as (l' & -> & Hlen & Hal & Hmem).
      exists (q :: l'). split; [by rewrite <- app_assoc|]. split; [cbn; lia|]. split; [by constructor|].
      intros mem b c Hst Hp [|j] Hj; [by rewrite Nat.add_0_r, (Hq0 mem b c)|].
      change ((q :: l') !! S j) with (l' !! j). rewrite (Hmem mem b c Hst Hp j ltac:(lia)). do 2 f_equal. lia.
    + intros mem b c Hav Hst Hp Hc He. apply (H4 mem b c Hav Hst Hp).
      * intros c' ??. apply Hc; lia.
      * intros j Hj. replace (c * 511 + S i + j)%nat with (c * 511 + i + S j)%nat by lia. apply He. lia.
  - eexists _, _, _, _. split; [done|]. split; [by exists p, v|]. split; [done|].
    intros mem b c _ Hst Hp _ He. specialize (He 0%nat ltac:(lia)). rewrite Nat.add_0_r, (Hq0 mem b c Hst Hp) in He. done.
Qed.

(** The loop returns in any case. *)
Lemma extract_loop_run n m p v i ps rf k :
  good_va v -> shms σ !! m = None -> (i <= 511)%nat ->
  loop_ends n m p v i ps (extract_loop E n m p v (v + 8 * Z.of_nat i) ps) rf k.
Proof.
  revert m p v i ps k. induction n as [|n IH]; intros m p v i ps k Hv Hm Hi; cbn [extract_loop].
  - eexists _, _, _, _. split; [done|]. split; [by exists p, v|]. split; [|done]. intros l [= <-]. exists [].
    rewrite app_nil_r. do 2 (split; [done|]). split; [constructor|]. intros; lia.
  - destruct (decide (i < 511)%nat) as [Hlt|Hge].
    + unfold loop_ends. rewrite (bind_run _ _ _ _ _ (next_page_within m p v i rf k Hv Hlt)).
      apply extract_entry; [intros; apply IH|..]; done || lia.
    + replace i with 511%nat by lia. unfold loop_ends.
      destruct (next_page_last m p v rf k Hv Hm) as [(om & s' & k' & H & Hl & HN)|(m' & v' & k' & H & Hv' & Hm')];
        rewrite (bind_run _ _ _ _ _ H).
      * exists om, None, s', k'. split; [done|]. split; [done|]. split; [done|].
        intros mem b c Hav Hst Hp Hc _. exfalso. apply HN. split; [done|]. rewrite Hst, Hp. apply (Hc (S c)); lia.
      * set (w := u64 (e_ram E k (p + 4088))) in *.
        destruct (extract_entry n m' w v' 0 ps rf k') as (om & r & s'' & k'' & H1 & H2 & H3 & H4);
          [intros; apply IH; done || lia|done|done|lia|].
        rewrite Z.mul_0_r, Z.add_0_r in H1. exists om, r, s'', k''. split; [done|]. split; [done|].
        assert (forall mem b c, (forall k a, e_ram E k a = mem a) -> p = chain mem b c -> w = chain mem b (S c)) as Hw
          by (intros mem b c Hst Hp; cbn; by rewrite <- Hp, <- (Hst k)).
        split.
        -- intros l Hl. destruct (H3 l Hl) as (l' & -> & Hlen & Hal & Hmem). exists l'. do 3 (split; [done|]).
           intros mem b c Hst Hp j Hj. rewrite (Hmem mem b (S c) Hst (Hw _ _ _ Hst Hp) j Hj). do 2 f_equal. lia.
        -- intros mem b c Hav Hst Hp Hc He. apply (H4 mem b (S c) Hav Hst (Hw _ _ _ Hst Hp)).
           ++ intros c' ??. apply Hc; lia.
           ++ intros j Hj. replace (S c * 511 + 0 + j)%nat with (c * 511 + 511 + j)%nat by lia. by apply He.
Qed.
End loop.

(** ** The functions *)

Definition stable (E : Env) (mem : Z -> Z) : Prop := forall k a, e_ram E k a = mem a.

(** The pages of the list that hold the first [n] entries may be mapped, and these entries are addresses of pages. *)
Definition well_formed (E : Env) (mem : Z -> Z) (b : Z) (n : nat) : Prop :=
  page_ok (e_nonsec E) b = true /\
  (forall c, (c * 511 < n)%nat -> page_ok (e_nonsec E) (chain mem b c) = true) /\
  (forall t, (t < n)%nat -> aligned (entry mem b t)).

Lemma extract_pages_run E s b n :
  (forall k v, e_va E k = Some v -> good_va v) -> listed (reg s) ->
  exists r k', msg_param_extract_pages E b n s = (ROk r, mkMsg (reg s) (shm_mobj s) k') /\
    (forall ps, r = Some ps -> length ps = n /\ Forall aligned ps /\
       forall mem, stable E mem -> forall t, (t < n)%nat -> ps !! t = Some (entry mem b t)) /\
    (forall mem, stable E mem -> available E (reg s) -> well_formed E mem b n -> r <> None).
Proof.
  intros Hva Hs. destruct s as [σ rf k]. cbn [reg shm_mobj] in *. unfold msg_param_extract_pages.
  destruct (Z.eqb_spec (Z.land b SMALL_PAGE_MASK) 0) as [Hb|Hb]; cbn [negb].
  2: { exists None, k. split; [done|]. split; [done|]. intros mem _ _ [Hp _]. apply andb_true_iff in Hp as [Hp _].
       by apply Z.eqb_eq in Hp. }
  destruct (map_page_cases E Hva σ Hs b rf k) as [[H HN]|(m & v & Hv & Hm & _ & H)]; rewrite (bind_run _ _ _ _ _ H).
  { exists None, (S k). split; [done|]. split; [done|]. intros mem _ Hav [Hp _]. tauto. }
  pose proof (extract_loop_run E Hva σ Hs n m b v 0 [] rf (S k) Hv Hm ltac:(lia)) as (om & r & s' & k' & H1 & Hl & H2 & H3).
  rewrite Z.mul_0_r, Z.add_0_r in H1. cbv iota beta. rewrite (bind_run _ _ _ _ _ H1). cbn [fst snd].
  exists r, k'. split; [|split].
  - destruct om as [m'|]; cbn in Hl; [destruct Hl as (p' & v' & -> & Hm')|subst s']; [|done].
    by rewrite (bind_run _ _ _ _ _ (put_mapped σ Hs m' p' v' rf k' Hm')).
  - intros ps Hps. destruct (H2 ps Hps) as (l' & -> & Hlen & Hal & Hmem). split; [done|]. split; [done|].
    intros mem Hst t Ht. cbn [app]. by rewrite (Hmem mem b 0%nat Hst eq_refl t Ht).
  - intros mem Hst Hav (_ & Hc & He). apply (H3 mem b 0%nat Hav Hst eq_refl); [|done]. intros c' _ ?. apply Hc. lia.
Qed.

(** C20. [msg_param_extract_pages] always returns, and leaves no object mapped or allocated, whatever normal world
    writes into the list meanwhile. Its pages are aligned, and of a list that does not change they are the entries:
    511 from each page, the last word of which links to the next. It gives them whenever
    memory lasts and the pages of the list are non-secure and its entries aligned. *)
Theorem msg_extract_pages_exact E s b n
    (Hva : forall k v, e_va E k = Some v -> good_va v) (Hs : listed (reg s)) :
  exists r k', msg_param_extract_pages E b n s = (ROk r, mkMsg (reg s) (shm_mobj s) k') /\
    (forall ps, r = Some ps -> length ps = n /\ Forall aligned ps /\
       forall mem, stable E mem -> forall t, (t < n)%nat -> ps !! t = Some (entry mem b t)) /\
    (forall mem, stable E mem -> available E (reg s) -> well_formed E mem b n -> r <> None).
Proof. by apply extract_pages_run. Qed.

(** [malloc] does not give [2 ^ 55] bytes. *)
Definition heap_bounded (E : Env) : Prop := forall k n, 2 ^ 55 <= n -> e_malloc E k n = false.

(** The number of pages covers the buffer, unless it is the one of an empty buffer at the start of a page. *)
Lemma noncontig_pages sz po :
  0 <= sz -> 0 <= po < 4096 -> sz + po <= UINT64_MAX ->
  let np := u64 (u64 (sz + po - 1) / SMALL_PAGE_SIZE + 1) in
  np < 2 ^ 52 ->
  0 < sz + po /\ np = (sz + po - 1) / SMALL_PAGE_SIZE + 1 /\ sz <= u64 (u64 (np * SMALL_PAGE_SIZE) - po).
Proof.
  cbv zeta. unfold SMALL_PAGE_SIZE, UINT64_MAX. intros Hsz Hpo Hov Hnp.
  destruct (Z.eq_dec (sz + po) 0) as [E0|E0]; [exfalso; revert Hnp; rewrite E0; by vm_compute|].
  pose proof (Z.div_mod (sz + po - 1) 4096 ltac:(lia)). pose proof (Z.mod_pos_bound (sz + po - 1) 4096 ltac:(lia)).
  rewrite (u64_small (sz + po - 1)) in * by (unfold is_u64; lia).
  assert ((sz + po - 1) / 4096 < 4503599627370496) by (apply Z.div_lt_upper_bound; lia).
  assert (0 <= (sz + po - 1) / 4096) by (apply Z.div_pos; lia).
  rewrite (u64_small (_ / _ + 1)) in * by (unfold is_u64; lia). split; [lia|]. split; [done|].
  rewrite (u64_small (_ * 4096)) by (unfold is_u64; lia). rewrite u64_small by (unfold is_u64; lia). lia.
Qed.

(** [msg_param_mobj_from_noncontig] without mapping: nothing changes, or there is a new object of at least the size. *)
Lemma from_noncontig_run E s pa sz c :
  (forall k v, e_va E k = Some v -> good_va v) -> listed (reg s) -> 0 <= sz ->
  heap_bounded E ->
  exists om s', msg_param_mobj_from_noncontig E pa sz c false s = (ROk om, s') /\ shm_mobj s' = shm_mobj s /\
    match om with
    | None => reg s' = reg s
    | Some m => exists ps, let r := new_reg_shm ps (Z.land pa SMALL_PAGE_MASK) c in
        reg s' = added m r (reg s) /\ shms (reg s) !! m = None /\ sz <= size r /\ forallb (page_ok (e_nonsec E)) ps = true /\
        length ps = Z.to_nat ((sz + Z.land pa SMALL_PAGE_MASK - 1) / SMALL_PAGE_SIZE + 1)
    end.
Proof.
  intros Hva Hs Hsz Hheap. unfold msg_param_mobj_from_noncontig. set (po := Z.land pa SMALL_PAGE_MASK).
  assert (0 <= po < 4096) as Hpo.
  { unfold po. change SMALL_PAGE_MASK with (Z.ones 12). rewrite Z.land_ones by lia. apply Z.mod_pos_bound. lia. }
  unfold ADD_OVERFLOW. destruct (Z.leb_spec (sz + po) UINT64_MAX) as [Hov|]; [|by exists None, s].
  set (np := u64 (u64 (sz + po - 1) / SMALL_PAGE_SIZE + 1)).
  unfold MUL_OVERFLOW. destruct (np * SIZEOF_PADDR <=? UINT64_MAX); [|by exists None, s].
  destruct s as [σ rf k]. cbn [reg shm_mobj] in *.
  rewrite (bind_run tick _ (mkMsg σ rf k) k (mkMsg σ rf (S k)) eq_refl).
  destruct (e_malloc E k (np * SIZEOF_PADDR)) eqn:Hmal; cbn [negb]; [|by eexists None, _].
  assert (np * SIZEOF_PADDR < 2 ^ 55) as Hnp by (destruct (Z.lt_ge_cases (np * SIZEOF_PADDR) (2 ^ 55)) as [|Hge]; [done|rewrite (Hheap k _ Hge) in Hmal; done]).
  destruct (extract_pages_run E (mkMsg σ rf (S k)) (Z.land pa (u64 (Z.lnot SMALL_PAGE_MASK))) (Z.to_nat np) Hva Hs) as (r & k' & H & Hr & _).
  cbn [reg shm_mobj] in H. rewrite (bind_run _ _ _ _ _ H). destruct r as [ps|]; [|by eexists None, _].
  destruct (Hr ps eq_refl) as (Hlen & _). rewrite (bind_run tick _ (mkMsg σ rf k') k' (mkMsg σ rf (S k')) eq_refl).
  unfold on_reg, zoom. cbn [reg].
  destruct (alloc_cases (e_nonsec E) (e_calloc E k') ps po c σ) as [[Ha _]|(m & Ha & _ & Hm & Hne & _ & Hp & _)]; rewrite Ha.
  { by eexists None, _. }
  destruct (noncontig_pages sz po Hsz Hpo Hov) as (Hn0 & Hn1 & Hn2); [fold np; unfold SIZEOF_PADDR in *; lia|]. fold np in Hn1, Hn2.
  assert (0 <= np) by (rewrite Hn1; pose proof (Z.div_pos (sz + po - 1) SMALL_PAGE_SIZE ltac:(lia) ltac:(done)); lia).
  eexists (Some m), _. split; [done|]. split; [done|]. exists ps. do 2 (split; [done|]). split; [|by rewrite Hlen, Hn1].
  cbn [size new_reg_shm]. by rewrite Hlen, Z2Nat.id.
Qed.
