(* ===== verification/MsgRefs.v ===== *)
(** * References of the parameters of messages

    What taking and giving back references does to the memory objects, for [MsgProps]. *)

From stdpp Require Import base gmap list.
From Stdlib Require Import ZArith Lia.
From S2P Require Import Prelude ErrM Vm WaitQueue Mutex RecMutex Shm MsgParams MsgPages.

Local Open Scope Z_scope.

(** ** States that differ by references *)

Definition of_ptr (p : mobj_ptr) (A : list mobj_ptr) : Z := cnt (fun x => bool_decide (x = p)) A.

Lemma of_ptr_cons p x A : of_ptr p (x :: A) = (if bool_decide (x = p) then 1 else 0) + of_ptr p A.
Proof. unfold of_ptr. by rewrite cnt_cons. Qed.

Lemma of_ptr_nil p : of_ptr p [] = 0.
Proof. done. Qed.

Lemma of_ptr_app p A B : of_ptr p (A ++ B) = of_ptr p A + of_ptr p B.
Proof. apply cnt_app. Qed.

Lemma of_ptr_nonneg p A : 0 <= of_ptr p A.
Proof. apply cnt_nonneg. Qed.

Lemma of_ptr_bound p A : 0 <= of_ptr p A <= Z.of_nat (length A).
Proof.
  split; [apply of_ptr_nonneg|]. unfold of_ptr, cnt. pose proof (List.filter_length_le (fun x => bool_decide (x = p)) A). lia.
Qed.

(** What became of an object of [s] (or a new one) when the references [n] to it were taken. *)
Definition obj_grown (o o' : option mobj_reg_shm) (n : Z) : Prop :=
  match o with
  | Some r => o' = Some (set_refc (refc r + n) r)
  | None => match o' with
            | Some r' => refc r' = n /\ 0 < n /\ guarded r' = true /\ releasing r' = false
            | None => n = 0
            end
  end.

(** [s'] is [s] with the references [A] more, some of them to new objects. *)
Record grown (A : list mobj_ptr) (s s' : msg_st) : Prop := {
  g_obj : forall m, obj_grown (shms (reg s) !! m) (shms (reg s') !! m) (of_ptr (MReg m) A);
  g_list : exists new, reg_shm_list (reg s') = new ++ reg_shm_list (reg s) /\
             forall m, m ∈ new <-> shms (reg s) !! m = None /\ is_Some (shms (reg s') !! m);
  g_wait : shm_release_waiters (reg s') = shm_release_waiters (reg s);
  g_shm : shm_mobj s' = shm_mobj s + of_ptr MShm A }.

(** [k] more references may be taken to each object. *)
Record wf (k : Z) (s : msg_st) : Prop := {
  wf_list : listed (reg s);
  wf_obj : forall m r, shms (reg s) !! m = Some r -> 0 < refc r /\ refc r + k <= UINT32_MAX;
  wf_shm : 0 < shm_mobj s /\ shm_mobj s + k <= UINT32_MAX }.

Lemma set_refc_id r : set_refc (refc r) r = r.
Proof. by destruct r. Qed.

Lemma obj_grown_refl o : obj_grown o o 0.
Proof. destruct o as [r|]; cbn; [by rewrite Z.add_0_r, set_refc_id|done]. Qed.

Lemma grown_equal s s' : reg s' = reg s -> shm_mobj s' = shm_mobj s -> grown [] s s'.
Proof.
  intros H1 H2. split; rewrite ?H1, ?H2; [|exists []|done|].
  - intros m. apply obj_grown_refl.
  - split; [done|]. intros m. rewrite elem_of_nil. split; [done|]. intros [H [? H']]. congruence.
  - rewrite of_ptr_nil. lia.
Qed.

#[export] Instance grown_perm : Proper ((≡ₚ) ==> eq ==> eq ==> iff) grown.
Proof.
  assert (forall A B s s', A ≡ₚ B -> grown A s s' -> grown B s s') as G.
  { intros A B s s' HAB []. assert (forall p, of_ptr p A = of_ptr p B) as Hc by (intros; unfold of_ptr; by rewrite HAB).
    split; [intros m; rewrite <- Hc; done|done|done|by rewrite <- Hc]. }
  intros A B HAB s ? <- s' ? <-. split; apply G; [done|by symmetry].
Qed.

(** Null references do not count. *)
Lemma grown_null A s s' : grown (MNull :: A) s s' <-> grown A s s'.
Proof. split; intros [O L W S]; by split. Qed.

Lemma grown_nulls B A s s' : (forall p, p ∈ B -> p = MNull) -> grown (B ++ A) s s' <-> grown A s s'.
Proof.
  induction B as [|p B IH]; intros H; [done|]. cbn [app]. rewrite (H p) by left. rewrite grown_null.
  apply IH. intros q Hq. apply H. by right.
Qed.

Lemma obj_grown_trans o o1 o2 n1 n2 : 0 <= n1 -> 0 <= n2 -> obj_grown o o1 n1 -> obj_grown o1 o2 n2 -> obj_grown o o2 (n2 + n1).
Proof.
  intros ? ?. destruct o as [r|]; cbn.
  - intros ->. cbn. intros ->. f_equal. unfold set_refc. cbn. f_equal. lia.
  - destruct o1 as [r1|]; cbn.
    + intros (-> & ? & ? & ?) ->. cbn. repeat split; try done; lia.
    + intros ->. destruct o2; [rewrite Z.add_0_r; tauto|lia].
Qed.

Lemma obj_grown_some o o' n : obj_grown o o' n -> is_Some o -> is_Some o'.
Proof. destruct o; cbn; [intros ->; eauto|by intros _ []]. Qed.

Lemma grown_more A B s s1 s2 : grown A s s1 -> grown B s1 s2 -> grown (B ++ A) s s2.
Proof.
  intros [O1 (n1 & L1 & N1) W1 S1] [O2 (n2 & L2 & N2) W2 S2]. split.
  - intros m. rewrite of_ptr_app. eapply obj_grown_trans; eauto using of_ptr_nonneg.
  - exists (n2 ++ n1). split; [by rewrite L2, L1, app_assoc|]. intros m. rewrite elem_of_app, N2, N1.
    specialize (O1 m). specialize (O2 m). split.
    + intros [[H1 H2]|[H1 H2]]; (split; [|done || by eapply obj_grown_some]); [|done].
      destruct (shms (reg s) !! m) eqn:E; [|done]. cbn in O1. congruence.
    + intros [H1 H2]. destruct (shms (reg s1) !! m) eqn:E; [right|left]; eauto.
  - by rewrite W2.
  - rewrite S2, S1, of_ptr_app. lia.
Qed.

(** With all references given back the objects are the same. *)
Lemma grown_nil s s' : grown [] s s' -> reg s' = reg s /\ shm_mobj s' = shm_mobj s.
Proof.
  intros [O (new & L & N) W S]. split; [|rewrite S, of_ptr_nil; lia].
  assert (shms (reg s') = shms (reg s)) as E.
  { apply map_eq. intros m. specialize (O m). rewrite of_ptr_nil in O. destruct (shms (reg s) !! m) as [r|]; cbn in O.
    - by rewrite O, Z.add_0_r, set_refc_id.
    - destruct (shms (reg s') !! m); [lia|done]. }
  assert (new = []) as ->.
  { destruct new as [|m new]; [done|]. exfalso. destruct (proj1 (N m)) as [H [? H']]; [left|]. rewrite E in H'. congruence. }
  destruct (reg s), (reg s'); cbn in *. congruence.
Qed.

(** ** Taking and giving back one reference *)

Lemma grown_update m f s r :
  shms (reg s) !! m = Some r -> f = set_refc (refc r + 1) ->
  grown [MReg m] s (set_reg (set_shms (<[m := f r]> (shms (reg s))) (reg s)) s).
Proof.
  intros Hr ->. split; [|exists []|done|change (of_ptr MShm [MReg m]) with 0; cbn; lia].
  - intros x. cbn [reg set_reg shms set_shms]. rewrite of_ptr_cons, of_ptr_nil, Z.add_0_r. destruct (decide (x = m)) as [->|Hne].
    + rewrite Hr, lookup_insert_eq, bool_decide_eq_true_2 by done. done.
    + rewrite lookup_insert_ne, bool_decide_eq_false_2 by congruence. apply obj_grown_refl.
  - split; [done|]. intros x. cbn [reg set_reg shms set_shms]. rewrite elem_of_nil. split; [done|]. intros [H1 [? H2]].
    destruct (decide (x = m)) as [->|Hne]; [congruence|]. rewrite lookup_insert_ne in H2 by done. congruence.
Qed.

(** The pointer is to something. *)
Definition exists_ptr (p : mobj_ptr) (s : msg_st) : Prop :=
  match p with MReg m => is_Some (shms (reg s) !! m) | _ => True end.

Lemma on_reg_run {A} (a : M shm_st A) s r x : a (reg s) = (r, x) -> on_reg a s = (r, set_reg x s).
Proof. intros H. unfold on_reg, zoom. by rewrite H. Qed.

Lemma get_ptr_run p s :
  wf 1 s -> exists_ptr p s -> exists s', mobj_get_ptr p s = (ROk tt, s') /\ grown [p] s s'.
Proof.
  intros [_ Ho Hs] Hp. destruct p as [| |m]; cbn [mobj_get_ptr exists_ptr] in *.
  - exists s. split; [done|]. apply grown_null. by apply grown_equal.
  - unfold gets, mbind, M_mbind, m_bind. rewrite refcount_inc_at by lia. eexists. split; [done|].
    split; [|exists []|done|done].
    + intros m. apply obj_grown_refl.
    + split; [done|]. intros m. cbn. rewrite elem_of_nil. split; [done|]. intros [H [? H']]. congruence.
  - destruct Hp as [r Hr]. destruct (Ho m r Hr) as [H1 H2].
    assert (mobj_get m (reg s) = (ROk tt, set_shms (<[m := set_refc (refc r + 1) r]> (shms (reg s))) (reg s))) as Hg.
    { unfold mobj_get. rewrite (rd_at _ _ _ _ _ Hr), refcount_inc_at by lia. by apply wr_end. }
    eexists. split; [by apply on_reg_run|]. by apply (grown_update m (set_refc (refc r + 1))).
Qed.

(** An object that is new, with its one reference. *)
Lemma grown_new m r s s' :
  listed (reg s) -> shms (reg s) !! m = None -> reg s' = added m r (reg s) -> shm_mobj s' = shm_mobj s ->
  refc r = 1 -> guarded r = true -> releasing r = false -> grown [MReg m] s s'.
Proof.
  intros Hl Hm E1 E2 H1 H2 H3. split; rewrite ?E1, ?E2; [|exists [m]|done|change (of_ptr MShm [MReg m]) with 0; lia].
  - intros x. rewrite of_ptr_cons, of_ptr_nil, Z.add_0_r. unfold added. cbn [shms set_list set_shms].
    destruct (decide (x = m)) as [->|Hne].
    + rewrite Hm, lookup_insert_eq, bool_decide_eq_true_2 by done. cbn. repeat split; done.
    + rewrite lookup_insert_ne, bool_decide_eq_false_2 by congruence. apply obj_grown_refl.
  - split; [done|]. intros x. unfold added. cbn [shms set_list set_shms]. rewrite list_elem_of_singleton. split.
    + intros ->. rewrite lookup_insert_eq. eauto.
    + intros [Hx [? Hx']]. destruct (decide (x = m)) as [->|Hne]; [done|]. rewrite lookup_insert_ne in Hx' by done. congruence.
Qed.

(** The room for references shrinks by those that were taken. *)
Lemma wf_grown k A s s' : wf (k + Z.of_nat (length A)) s -> 0 <= k <= UINT32_MAX - Z.of_nat (length A) -> grown A s s' -> wf k s'.
Proof.
  intros [Hl Ho Hs] Hk [O (new & L & N) W S].
  assert (forall p, of_ptr p A <= Z.of_nat (length A)) as Hc by (intros p; apply of_ptr_bound).
  split.
  - intros m. rewrite L, elem_of_app, N. intros [[_ H]|H]; [done|]. eapply obj_grown_some; [apply O|auto].
  - intros m r Hr. specialize (O m). specialize (Hc (MReg m)). pose proof (of_ptr_nonneg (MReg m) A).
    destruct (shms (reg s) !! m) as [r0|] eqn:E; cbn in O.
    + rewrite Hr in O. injection O as ->. cbn. destruct (Ho m r0 E). lia.
    + rewrite Hr in O. destruct O as (-> & ? & _). lia.
  - rewrite S. specialize (Hc MShm). pose proof (of_ptr_nonneg MShm A). lia.
Qed.

(** The object of a reference to give back, with a counter that is not zero. *)
Lemma put_dec_run m r σ :
  shms σ !! m = Some r -> 0 < refc r <= UINT32_MAX ->
  mobj_put_dec m σ = (ROk (refc r - 1 =? 0), set_shms (<[m := set_refc (refc r - 1) r]> (shms σ)) σ).
Proof. intros Hr Hn. unfold mobj_put_dec. rewrite (rd_at _ _ _ _ _ Hr), refcount_dec_at by done. by rewrite (wr_at _ _ _ _ _ Hr). Qed.

(** The states in which [m] is another object, or none. *)
Lemma grown_reset m A B s s' x o :
  grown A s s' -> (forall p, p <> MReg m -> of_ptr p A = of_ptr p B) ->
  (forall y, shms x !! y = if decide (y = m) then o else shms (reg s') !! y) ->
  obj_grown (shms (reg s) !! m) o (of_ptr (MReg m) B) -> is_Some (shms (reg s') !! m) ->
  (match o with
   | Some _ => reg_shm_list x = reg_shm_list (reg s')
   | None => shms (reg s) !! m = None /\ m ∉ reg_shm_list (reg s) /\ reg_shm_list x = filter (fun y => y <> m) (reg_shm_list (reg s'))
   end) ->
  shm_release_waiters x = shm_release_waiters (reg s') -> grown B s (set_reg x s').
Proof.
  intros [O (new & L & N) W S] Hp Hx Ho Hm Hl Hw. split; cbn [reg set_reg shm_mobj].
  - intros y. rewrite Hx. destruct (decide (y = m)) as [->|Hne]; [done|]. rewrite <- Hp by congruence. apply O.
  - destruct o as [r'|].
    + exists new. split; [by rewrite Hl|]. intros y. rewrite N, Hx. destruct (decide (y = m)) as [->|Hne]; [|done]. naive_solver.
    + destruct Hl as (H1 & H2 & H3). exists (filter (fun y => y <> m) new). split.
      * by rewrite H3, L, filter_app, (filter_ne_id m (reg_shm_list (reg s))).
      * intros y. rewrite list_elem_of_filter, N, Hx. destruct (decide (y = m)) as [->|Hne]; [|tauto].
        split; [by intros []|by intros [_ []]].
  - by rewrite Hw.
  - by rewrite <- Hp.
Qed.

Lemma put_reg_run m A s s' :
  wf (1 + Z.of_nat (length A)) s -> grown (MReg m :: A) s s' ->
  exists s'', on_reg (mobj_put m) s' = (ROk tt, s'') /\ grown A s s''.
Proof.
  intros Hwf Hg. pose proof (of_ptr_bound (MReg m) A) as [Hc' Hc].
  pose proof Hg as [O (new & L & N) W S]. specialize (O m). rewrite of_ptr_cons, bool_decide_eq_true_2 in O by done.
  assert (forall p, p <> MReg m -> of_ptr p (MReg m :: A) = of_ptr p A) as Hp.
  { intros p Hp. rewrite of_ptr_cons, bool_decide_eq_false_2 by congruence. lia. }
  assert (exists r', shms (reg s') !! m = Some r' /\ 0 < refc r' <= UINT32_MAX) as (r' & Hr' & Hn).
  { destruct (shms (reg s) !! m) as [r|] eqn:E; cbn in O.
    - eexists. split; [done|]. cbn. destruct (wf_obj _ _ Hwf m r E). lia.
    - destruct (shms (reg s') !! m) as [r'|]; [|lia]. eexists. split; [done|]. pose proof (wf_shm _ _ Hwf). lia. }
  assert (mobj_put m (reg s') = (if refc r' - 1 =? 0 then mobj_reg_shm_free m else mret tt)
            (set_shms (<[m := set_refc (refc r' - 1) r']> (shms (reg s'))) (reg s'))) as Hput.
  { unfold mobj_put. by rewrite (bind_run _ _ _ _ _ (put_dec_run m r' _ Hr' Hn)). }
  destruct (Z.eqb_spec (refc r' - 1) 0) as [E1|E1].
  + (* the last one, of a new object *)
    destruct (shms (reg s) !! m) as [r|] eqn:E; cbn in O.
    { rewrite Hr' in O. injection O as ->. cbn in E1. destruct (wf_obj _ _ Hwf m r E). lia. }
    rewrite Hr' in O. destruct O as (O1 & _ & O2 & O3).
    unfold mobj_reg_shm_free in Hput.
    set (σ1 := set_shms _ (reg s')) in Hput. assert (shms σ1 !! m = Some (set_refc (refc r' - 1) r')) as H1 by apply lookup_insert_eq.
    rewrite !(rd_at _ _ _ _ _ H1) in Hput. cbn [guarded releasing set_refc] in Hput. rewrite O2, O3 in Hput. cbn [andb negb] in Hput.
    unfold reg_shm_free_helper in Hput. rewrite (rd_at _ _ _ _ _ H1) in Hput.
    eexists. split; [apply on_reg_run; exact Hput|].
    apply (grown_reset m (MReg m :: A) A s s' _ None); try done; [|rewrite E; cbn; lia|].
    * intros y. unfold σ1. cbn [shms set_list set_shms]. destruct (decide (y = m)) as [->|Hne]; [apply lookup_delete_eq|].
      by rewrite lookup_delete_ne, lookup_insert_ne.
    * split; [done|]. split; [|done]. intros Hin. destruct (wf_list _ _ Hwf m Hin). congruence.
  + eexists. split; [apply on_reg_run; exact Hput|].
    apply (grown_reset m (MReg m :: A) A s s' _ (Some (set_refc (refc r' - 1) r'))); try done.
    * intros y. cbn [shms set_shms]. destruct (decide (y = m)) as [->|Hne]; [apply lookup_insert_eq|by rewrite lookup_insert_ne].
    * destruct (shms (reg s) !! m) as [r|] eqn:E; cbn in O |- *.
      -- rewrite Hr' in O. injection O as ->. unfold set_refc. cbn. do 2 f_equal. lia.
      -- rewrite Hr' in O. cbn. destruct O as (? & ? & ? & ?). repeat split; try done; lia.
Qed.

Lemma put_ptr_run p A s s' :
  wf (1 + Z.of_nat (length A)) s -> grown (p :: A) s s' ->
  exists s'', mobj_put_ptr p s' = (ROk tt, s'') /\ grown A s s''.
Proof.
  intros Hwf Hg. pose proof (of_ptr_bound p A) as [Hc' Hc]. destruct p as [| |m]; cbn [mobj_put_ptr].
  - exists s'. split; [done|]. by apply grown_null.
  - destruct Hg as [O L W S]. rewrite of_ptr_cons, bool_decide_eq_true_2 in S by done.
    destruct (wf_shm _ _ Hwf). unfold gets, mbind, M_mbind, m_bind. rewrite refcount_dec_at by lia.
    eexists. split; [done|]. split; [|done|done|cbn [shm_mobj set_shm_mobj]; lia].
    intros m. specialize (O m). by rewrite of_ptr_cons, bool_decide_eq_false_2, Z.add_0_l in O.
  - by apply put_reg_run.
Qed.
