(* ===== verification/MsgProps.v ===== *)
(** * Parameters of messages: properties

    References and bounds of the memory that messages name. *)

From stdpp Require Import base gmap list.
From Stdlib Require Import ZArith Lia.
From S2P Require Import Prelude ErrM Vm WaitQueue Mutex RecMutex Shm MsgParams MsgPages MsgRefs.

Local Open Scope Z_scope.

(** What the platform promises: where mappings are, that [malloc] has bounds, where the reserved shared memory is. *)
Record env_ok (E : Env) : Prop := {
  ok_va : forall k v, e_va E k = Some v -> good_va v;
  ok_heap : heap_bounded E;
  ok_shm : 0 < e_shm_pa E /\ 0 <= e_shm_size E /\ e_shm_pa E + e_shm_size E <= 2 ^ 64 }.

Definition param_ok (p : optee_msg_param) : Prop := is_u64 (attr p) /\ is_u64 (w0 p) /\ is_u64 (w1 p) /\ is_u64 (w2 p).

Section props.
Context (E : Env) (HE : env_ok E).

(** A reference to memory stays within its object, which exists. *)
Definition mem_in (s : msg_st) (m : param_mem) : Prop :=
  match mem_mobj m with
  | MNull => mem_offs m = 0 /\ mem_size m = 0
  | MShm => 0 <= mem_offs m /\ 0 <= mem_size m /\ mem_offs m + mem_size m <= e_shm_size E
  | MReg x => exists r, shms (reg s) !! x = Some r /\ 0 < refc r /\
                0 <= mem_offs m /\ 0 <= mem_size m /\ mem_offs m + mem_size m <= size r
  end.

Definition param_in (s : msg_st) (v : param_u) : Prop := match v with PVal _ _ => True | PMem m => mem_in s m end.

Definition mobj_of (v : param_u) : mobj_ptr := match v with PMem m => mem_mobj m | PVal _ _ => MNull end.

Lemma param_in_grown A s s' v : grown A s s' -> param_in s v -> param_in s' v.
Proof.
  intros Hg. destruct v as [|[[| |x] o z]]; cbn; try done. intros (r & Hr & H1 & H2). pose proof (g_obj _ _ _ Hg x) as O.
  rewrite Hr in O. cbn in O. eexists. split; [done|]. pose proof (of_ptr_nonneg (MReg x) A). cbn. split; [lia|done].
Qed.

Lemma inside_bounds b bl a al :
  is_u64 b -> is_u64 bl -> 0 < a -> 0 <= al -> a + al <= 2 ^ 64 -> 0 < b ->
  core_is_buffer_inside b bl a al = true -> a <= b /\ b + bl <= a + al.
Proof.
  intros Hb Hbl Ha Hal Hle Hb0. unfold core_is_buffer_inside, is_valid_conf_and_notnull_size, is_u64 in *.
  rewrite (u64_small (b - 1)), (u64_small (a - 1)) by (unfold is_u64; lia).
  assert (0 <= a - 1 + al < 2 ^ 64) by lia. rewrite (u64_small (a - 1 + al)) by (unfold is_u64; lia).
  destruct (Z.lt_ge_cases (b - 1 + bl) 18446744073709551616) as [Hs|Hw].
  - rewrite (u64_small (b - 1 + bl)) by (unfold is_u64; lia).
    destruct (_ || _) eqn:E1; [done|]. destruct ((bl =? 0) || _) eqn:E2; [done|]. cbn [negb]. intros [H1 H2]%andb_true_iff. lia.
  - assert (u64 (b - 1 + bl) = b - 1 + bl - 18446744073709551616) as ->.
    { unfold u64. symmetry. apply (Z.mod_unique _ _ 1); lia. }
    destruct (_ || _) eqn:E1; [done|]. apply orb_false_iff in E1 as [E1 _]. lia.
Qed.

(** ** One parameter *)

(** A pointer to an object that [s] does not have. *)
Definition fresh_ptr (s : msg_st) (p : mobj_ptr) : Prop := exists m, p = MReg m /\ shms (reg s) !! m = None.

Lemma set_tmem_run p s :
  param_ok p -> wf 1 s ->
  exists res mem s', set_tmem_param E p (attr p) s = (ROk (res, mem), s') /\ grown [mem_mobj mem] s s' /\
    (res = TEE_SUCCESS -> mem_in s' mem) /\
    (res = TEE_SUCCESS -> has_flag (attr p) OPTEE_MSG_ATTR_NONCONTIG = true -> w0 p <> 0 -> fresh_ptr s (mem_mobj mem)).
Proof.
  intros (_ & H0 & H1 & H2) Hwf. unfold set_tmem_param, tmem_buf_ptr, tmem_size, tmem_shm_ref.
  assert (grown [MNull] s s) as Hnull by (apply grown_null; by apply grown_equal).
  destruct (Z.eqb_spec (w0 p) 0) as [|Hpa]; [by eexists _, (mkMem MNull 0 0), s|].
  destruct (has_flag (attr p) OPTEE_MSG_ATTR_NONCONTIG).
  - destruct (from_noncontig_run E s (w0 p) (w1 p) (w2 p) (ok_va _ HE) (wf_list _ _ Hwf) ltac:(destruct H1; lia) (ok_heap _ HE))
      as (om & s' & H & Hs & Hm). rewrite (bind_run _ _ _ _ _ H). destruct om as [m|].
    + destruct Hm as (ps & Hr & Hm & Hsz & _). eexists _, (mkMem (MReg m) 0 (w1 p)), s'. split; [done|]. split.
      * by eapply grown_new; [apply (wf_list _ _ Hwf)|done|done|done|..].
      * split; [|intros _ _ _; by exists m].
        intros _. cbn. rewrite Hr. eexists. split; [apply added_at|]. cbn in *. destruct H1. lia.
    + eexists _, (mkMem MNull 0 0), s'. split; [done|]. split; [|done]. apply grown_null. by apply grown_equal.
  - unfold param_mem_from_mobj. destruct (core_is_buffer_inside _ _ _ _) eqn:Hin; cbn [negb].
    + destruct (get_ptr_run MShm s Hwf I) as (s' & Hg & Hgr).
      rewrite (bind_run _ _ _ (Some (mkMem MShm (u64 (w0 p - e_shm_pa E)) (w1 p))) s') by (by rewrite (bind_run _ _ _ _ _ Hg)).
      eexists _, _, s'. split; [done|]. split; [done|]. split; [|done]. intros _. cbn. destruct (ok_shm _ HE) as (Hs1 & Hs2 & Hs3).
      unfold is_u64 in *. apply inside_bounds in Hin; [|unfold is_u64; lia..].
      rewrite u64_small by (unfold is_u64; lia). lia.
    + by eexists _, (mkMem MNull 0 0), s.
Qed.

Lemma get_by_cookie_run c s :
  wf 1 s ->
  (on_reg (mobj_reg_shm_get_by_cookie c) s = (ROk None, s)) \/
  exists m r s', shms (reg s) !! m = Some r /\ cookie r = c /\ on_reg (mobj_reg_shm_get_by_cookie c) s = (ROk (Some m), s') /\ grown [MReg m] s s'.
Proof.
  intros Hwf. destruct (find_cookie (shms (reg s)) c (reg_shm_list (reg s))) as [m|] eqn:Hf.
  - right. destruct (find_cookie_Some _ _ _ _ Hf) as (_ & r & Hr & Hc).
    destruct (get_ptr_run (MReg m) s Hwf ltac:(eexists; done)) as (s' & Hg & Hgr). exists m, r, s'.
    split; [done|]. split; [done|]. split; [|done]. cbn in Hg. unfold on_reg, zoom in *.
    unfold mobj_reg_shm_get_by_cookie. rewrite find_at, Hf.
    destruct (mobj_get m (reg s)) as [x σ] eqn:E1. injection Hg as -> <-. by rewrite (bind_run _ _ _ _ _ E1).
  - left. unfold on_reg, zoom, mobj_reg_shm_get_by_cookie. rewrite find_at, Hf. by destruct s.
Qed.

Lemma set_rmem_run p s :
  param_ok p -> wf 1 s ->
  exists res mem s', set_rmem_param p s = (ROk (res, mem), s') /\ grown [mem_mobj mem] s s' /\
    (res = TEE_SUCCESS -> mem_in s' mem).
Proof.
  intros (_ & H0 & H1 & H2) Hwf. unfold set_rmem_param, rmem_offs, rmem_size, rmem_shm_ref.
  destruct (get_by_cookie_run (w2 p) s Hwf) as [H|(m & r & s' & Hr & _ & H & Hg)]; rewrite (bind_run _ _ _ _ _ H).
  - eexists _, (mkMem MNull 0 0), s. split; [done|]. split; [|done]. apply grown_null. by apply grown_equal.
  - pose proof (g_obj _ _ _ Hg m) as O. rewrite Hr in O. cbn in O.
    rewrite (bind_run _ _ _ (size r) s').
    2: { unfold on_reg, zoom, rd. rewrite O. cbn. by destruct s'. }
    unfold ADD_OVERFLOW. destruct (Z.leb_spec (w0 p + w1 p) UINT64_MAX) as [Hov|]; [|eexists _, (mkMem (MReg m) _ _), s'; by split].
    eexists _, (mkMem (MReg m) _ _), s'. split; [done|]. split; [done|].
    destruct (Z.ltb_spec (size r) (w0 p + w1 p)); [done|]. intros _. cbn. eexists. split; [done|]. cbn.
    destruct (wf_obj _ _ Hwf m r Hr). pose proof (of_ptr_nonneg (MReg m) [MReg m]). destruct H0, H1. lia.
Qed.

(** ** All of them *)

(** Cleaning up finds a reference where the attribute says so. *)
Definition shape (a : Z) (v : param_u) : Prop := cleanup_kind a = true -> exists m, v = PMem m.

(** The attribute has nothing that [cleanup_shm_refs] does not expect: no bit besides the type, of a memory reference. *)
Definition plain (p : optee_msg_param) : Prop := cleanup_kind (Z.land (attr p) OPTEE_MSG_ATTR_TYPE_MASK) = cleanup_kind (attr p).

(** A buffer that is not contiguous, of which [cleanup_shm_refs] does not know that it is a reference. *)
Definition leaks (p : optee_msg_param) : bool :=
  match kind_of (Z.land (attr p) OPTEE_MSG_ATTR_TYPE_MASK) with
  | KTmem => has_flag (attr p) OPTEE_MSG_ATTR_NONCONTIG && negb (tmem_buf_ptr p =? 0)
  | _ => false
  end.

Lemma cleanup_kind_masked a : cleanup_kind a = true -> Z.land a OPTEE_MSG_ATTR_TYPE_MASK = a.
Proof.
  unfold cleanup_kind, kind_of. repeat (case_match; try done); intros _;
    repeat match goal with H : _ || _ = true |- _ => apply orb_true_iff in H as [H|H] end;
    repeat match goal with H : (_ =? _) = true |- _ => apply Z.eqb_eq in H as -> end; done.
Qed.

Lemma leaks_uncleaned p : leaks p = true -> cleanup_kind (attr p) = false.
Proof.
  intros H. apply not_true_iff_false. intros Hc%cleanup_kind_masked. unfold leaks in H.
  destruct (kind_of _); try done. apply andb_true_iff in H as [H _]. unfold has_flag in H.
  rewrite <- Hc, <- Z.land_assoc in H. change (Z.land OPTEE_MSG_ATTR_TYPE_MASK OPTEE_MSG_ATTR_NONCONTIG) with 0 in H.
  by rewrite Z.land_0_r in H.
Qed.

Lemma copy_in_param_run p s :
  param_ok p -> wf 1 s ->
  exists res t v s', copy_in_param E p s = (ROk (res, t, v), s') /\ grown [mobj_of v] s s' /\
    (res = TEE_SUCCESS -> param_in s' v) /\ shape (attr p) v /\
    (plain p -> cleanup_kind (attr p) = false -> mobj_of v = MNull) /\
    (res = TEE_SUCCESS -> leaks p = true -> fresh_ptr s (mobj_of v)).
Proof.
  intros Hp Hwf. unfold leaks. assert (forall v, mobj_of v = MNull -> grown [mobj_of v] s s) as Hn.
  { intros v ->. apply grown_null. by apply grown_equal. }
  unfold copy_in_param. destruct (has_flag (attr p) OPTEE_MSG_ATTR_META) eqn:Hmeta.
  { eexists _, _, zero_param, s. split; [done|]. split; [by apply Hn|]. split; [done|]. split; [|done].
    intros Hk. eauto. }
  unfold plain, shape. cbn zeta. set (a := Z.land (attr p) OPTEE_MSG_ATTR_TYPE_MASK).
  assert (forall k, kind_of a = k -> cleanup_kind (attr p) = true -> k = KTmem \/ k = KRmem) as Hk.
  { intros k <- Hc. unfold a. rewrite (cleanup_kind_masked _ Hc). unfold cleanup_kind in Hc. destruct (kind_of (attr p)); [done|done|by right|by left|done]. }
  destruct (kind_of a) eqn:Ek.
  - eexists _, _, zero_param, s. split; [done|]. split; [by apply Hn|]. split; [done|]. split; [eauto|done].
  - eexists _, _, (PVal _ _), s. split; [done|]. split; [by apply Hn|]. split; [done|]. split; [|done].
    intros Hc. by destruct (Hk _ eq_refl Hc).
  - destruct (set_rmem_run p s Hp Hwf) as (res & mem & s' & H & Hg & Hin). rewrite (bind_run _ _ _ _ _ H).
    eexists _, _, (PMem mem), s'. split; [done|]. do 2 (split; [done|]). split; [eauto|]. split; [|done].
    intros Hpl. rewrite <- Hpl. unfold cleanup_kind. fold a. by rewrite Ek.
  - destruct (set_tmem_run p s Hp Hwf) as (res & mem & s' & H & Hg & Hin & Hf). rewrite (bind_run _ _ _ _ _ H).
    eexists _, _, (PMem mem), s'. split; [done|]. do 2 (split; [done|]). split; [eauto|]. split.
    + intros Hpl. rewrite <- Hpl. unfold cleanup_kind. fold a. by rewrite Ek.
    + intros Hs [Hn' H0]%andb_true_iff. apply Hf; [done..|]. by apply negb_true_iff, Z.eqb_neq in H0.
  - eexists _, _, zero_param, s. split; [done|]. split; [by apply Hn|]. split; [done|]. split; [eauto|done].
Qed.

(** An attribute and the parameter it became. *)
Definition linked (a : Z) (v : param_u) : Prop :=
  shape a v /\
  (cleanup_kind (Z.land a OPTEE_MSG_ATTR_TYPE_MASK) = cleanup_kind a -> cleanup_kind a = false -> mobj_of v = MNull).

Lemma wf_less k k' s : wf k s -> k' <= k -> wf k' s.
Proof. intros [H1 H2 H3] Hk. split; [done| |lia]. intros m r Hr. destruct (H2 m r Hr). lia. Qed.

(** The references that [cleanup_shm_refs] leaves, of parameters with their saved attributes. *)
Definition kept (l : list (Z * param_u)) : list mobj_ptr := (fun x => mobj_of x.2) <$> filter (fun x => cleanup_kind x.1 = false) l.

(** [n] objects that [s] does not have, with a reference among [K]. *)
Definition new_objects (s : msg_st) (n : Z) (K : list mobj_ptr) : Prop :=
  exists ms : list Z, NoDup ms /\ Z.of_nat (length ms) = n /\ forall m, m ∈ ms -> shms (reg s) !! m = None /\ MReg m ∈ K.

Lemma new_objects_cons s s1 p v l n :
  grown [mobj_of v] s s1 -> (leaks p = true -> fresh_ptr s (mobj_of v)) ->
  new_objects s1 n (kept l) -> new_objects s (b2z (leaks p) + n) (kept ((attr p, v) :: l)).
Proof.
  intros Hg Hf (ms & Hnd & Hlen & Hms). unfold new_objects, kept.
  assert (forall m, shms (reg s1) !! m = None -> shms (reg s) !! m = None) as Hback.
  { intros m Hm. pose proof (g_obj _ _ _ Hg m) as O. destruct (shms (reg s) !! m); [cbn in O; congruence|done]. }
  assert (forall m, m ∈ ms -> MReg m ∈ kept ((attr p, v) :: l)) as Hin.
  { intros m Hm. destruct (Hms m Hm) as [_ H]. unfold kept in *. rewrite filter_cons. case_decide; [by right|done]. }
  destruct (leaks p) eqn:El; cbn [b2z].
  - destruct (Hf eq_refl) as (m & Hm & Hs). exists (m :: ms). split; [|split].
    + constructor; [|done]. intros Hin'. destruct (Hms m Hin') as [H _]. pose proof (g_obj _ _ _ Hg m) as O.
      rewrite Hs, H in O. cbn in O. rewrite Hm, of_ptr_cons, bool_decide_eq_true_2, of_ptr_nil in O by done. lia.
    + cbn [length]. lia.
    + intros x [->|Hx]%elem_of_cons.
      * split; [done|]. rewrite filter_cons_True by (by apply leaks_uncleaned). cbn. rewrite Hm. left.
      * split; [apply Hback; by apply Hms|by apply Hin].
  - exists ms. split; [done|]. split; [lia|]. intros m Hm. split; [apply Hback; by apply Hms|by apply Hin].
Qed.

Lemma copy_in_loop_run ps s :
  Forall param_ok ps -> wf (Z.of_nat (length ps)) s ->
  exists res saved pt us s', copy_in_loop E ps s = (ROk (res, (saved, pt, us)), s') /\ grown (mobj_of <$> us) s s' /\
    (res = TEE_SUCCESS -> length us = length ps /\ Forall (param_in s') us) /\ (length us <= length ps)%nat /\
    saved = take (length us) (attr <$> ps) /\ Forall2 linked saved us /\
    (res = TEE_SUCCESS -> new_objects s (cnt leaks ps) (kept (zip saved us))).
Proof.
  intros Hps. revert s. induction Hps as [|p ps Hp Hps IH]; intros s Hwf; cbn [copy_in_loop].
  { eexists _, [], [], [], s. split; [done|]. split; [by apply grown_equal|]. split; [done|]. split; [done|]. split; [done|].
    split; [constructor|]. intros _. exists []. split; [constructor|]. split; [done|]. by intros m ?%elem_of_nil. }
  cbn [length] in Hwf. destruct (copy_in_param_run p s Hp (wf_less _ 1 _ Hwf ltac:(lia))) as (res & t & v & s1 & H & Hg & Hin & Hsh & Hpl & Hfr).
  rewrite (bind_run _ _ _ _ _ H). destruct (Z.eqb_spec res TEE_SUCCESS) as [->|Hne]; cbn [negb].
  2: { eexists _, [attr p], [t], [v], s1. split; [done|]. split; [done|]. split; [done|]. split; [cbn; lia|].
       split; [done|]. split; [repeat constructor; done|done]. }
  assert (wf (Z.of_nat (length ps)) s1) as Hwf1.
  { eapply (wf_grown _ [mobj_of v]); [|split; [lia|]|done]; cbn [length]; [by replace (Z.of_nat (length ps) + Z.of_nat 1) with (Z.of_nat (S (length ps))) by lia|].
    pose proof (wf_shm _ _ Hwf). lia. }
  destruct (IH s1 Hwf1) as (res & saved & pt & us & s2 & H' & Hg' & Hin' & Hlen & Hsv & Hl & Hnew). rewrite (bind_run _ _ _ _ _ H').
  eexists _, _, _, _, s2. split; [done|]. split; [|split; [|split; [|split; [|split]]]].
  - cbn [fmap list_fmap]. rewrite Permutation_cons_append. by eapply grown_more.
  - intros Hr. destruct (Hin' Hr) as [Hlen' Hall]. split; [cbn; lia|]. constructor; [|done].
    eapply param_in_grown; [exact Hg'|]. by apply Hin.
  - cbn. lia.
  - cbn. by rewrite Hsv.
  - by constructor.
  - intros Hr. rewrite cnt_cons. cbn [zip zip_with]. apply (new_objects_cons s s1); auto.
Qed.

Lemma pad_linked saved us : Forall2 linked saved us -> Forall2 linked (pad 0 saved) (pad zero_param us).
Proof.
  intros H. unfold pad. apply Forall2_take, Forall2_app; [done|]. apply Forall2_replicate. by split; [intros ?|].
Qed.

Lemma pad_elem {A} (x y : A) l : y ∈ pad x l -> y = x \/ y ∈ l.
Proof.
  unfold pad. intros (j & Hj & _)%elem_of_take. apply list_elem_of_lookup_2 in Hj.
  apply elem_of_app in Hj as [Hj|Hj]; [by right|left]. by apply elem_of_replicate in Hj as [-> _].
Qed.

Lemma pad_length {A} (x : A) l : length (pad x l) = TEE_NUM_PARAMS.
Proof. unfold pad. rewrite length_take, length_app, length_replicate. unfold TEE_NUM_PARAMS. lia. Qed.

Lemma pad_short {A} (x : A) l : (length l <= TEE_NUM_PARAMS)%nat -> pad x l = l ++ replicate (TEE_NUM_PARAMS - length l) x.
Proof. intros Hl. unfold pad. rewrite take_app, take_ge, take_replicate by lia. do 2 f_equal. lia. Qed.

(** What is left past the parameters is null. *)
Lemma grown_pad us s s' :
  (length us <= TEE_NUM_PARAMS)%nat -> grown (mobj_of <$> us) s s' -> grown (mobj_of <$> pad zero_param us) s s'.
Proof.
  intros Hl Hg. rewrite pad_short, fmap_app, fmap_replicate by done. rewrite Permutation_app_comm.
  apply grown_nulls; [|done]. by intros p [-> _]%elem_of_replicate.
Qed.

Lemma pad_drop us n : (length us <= n)%nat -> forall p, p ∈ mobj_of <$> drop n (pad zero_param us) -> p = MNull.
Proof.
  intros Hn p (v & -> & Hv)%list_elem_of_fmap. apply list_elem_of_lookup in Hv as [j Hj]. unfold pad in Hj.
  rewrite lookup_drop, lookup_take_Some, lookup_app_r in Hj by lia. destruct Hj as [Hj _].
  by apply lookup_replicate_1 in Hj as [-> _].
Qed.

Lemma cleanup_run sv ta more n K s s' :
  Forall2 linked sv (u ta) -> length (u ta) = TEE_NUM_PARAMS -> (n + more <= TEE_NUM_PARAMS)%nat -> (length K <= n)%nat ->
  wf (Z.of_nat TEE_NUM_PARAMS) s -> grown (K ++ (mobj_of <$> drop n (u ta))) s s' ->
  exists s'' K', cleanup_from n sv (Some ta) more s' = (ROk tt, s'') /\ grown (K' ++ K ++ (mobj_of <$> drop (n + more) (u ta))) s s'' /\
    K' ≡ₚ kept (take more (drop n (zip sv (u ta)))) /\
    ((forall a, a ∈ sv -> cleanup_kind (Z.land a OPTEE_MSG_ATTR_TYPE_MASK) = cleanup_kind a) -> forall p, p ∈ K' -> p = MNull).
Proof.
  intros Hl Hlen. revert n K s'. induction more as [|more IH]; intros n K s' Hn HK Hwf Hg; cbn [cleanup_from].
  { exists s', []. rewrite Nat.add_0_r. split; [done|]. split; [done|]. split; [done|]. by intros _ p ?%elem_of_nil. }
  destruct (lookup_lt_is_Some_2 (u ta) n ltac:(lia)) as [v Hv].
  destruct (Forall2_lookup_r _ _ _ _ _ Hl Hv) as (a & Ha & [Hsh Hnull]). rewrite Ha.
  assert (zip sv (u ta) !! n = Some (a, v)) as Hz by (apply lookup_zip_Some; done).
  rewrite (drop_S _ _ _ Hz), firstn_cons. unfold kept. rewrite filter_cons. cbn [fst].
  rewrite (drop_S _ _ _ Hv) in Hg. cbn [fmap list_fmap] in Hg.
  replace (n + S more)%nat with (S n + more)%nat by lia. destruct (cleanup_kind a) eqn:Hc.
  - destruct (Hsh Hc) as [mem ->]. rewrite Hv. cbn [mobj_of] in Hg. rewrite <- Permutation_middle in Hg.
    destruct (put_ptr_run (mem_mobj mem) (K ++ (mobj_of <$> drop (S n) (u ta))) s s') as (s1 & Hp & Hg1); [|done|].
    { eapply wf_less; [exact Hwf|]. rewrite length_app, length_fmap, length_drop. lia. }
    rewrite (bind_run _ _ _ _ _ Hp), decide_False by done. apply IH; done || lia.
  - destruct (IH (S n) (mobj_of v :: K) s') as (s'' & K' & H1 & H2 & H4 & H3); [lia|cbn; lia|done| |].
    { cbn [app]. by rewrite Permutation_middle. }
    exists s'', (K' ++ [mobj_of v]). split; [done|]. split; [by rewrite <- app_assoc|].
    split; [rewrite H4, decide_True by done; cbn; by rewrite Permutation_app_comm|].
    intros Hpl p [Hp| ->%list_elem_of_singleton]%elem_of_app; [by apply H3|].
    apply Hnull; [|done]. rewrite Hpl; [done|]. by eapply list_elem_of_lookup_2.
Qed.
End props.

(** C16. [copy_in_params] of any message returns, and when it succeeds there were at most four parameters and each
    reference to memory is null or stays within a memory object that exists and is referred to: offset and size do
    not overflow and do not exceed its size. *)
Theorem msg_memrefs_in_bounds E ps s
    (HE : env_ok E) (Hps : Forall param_ok ps) (Hwf : wf (Z.of_nat TEE_NUM_PARAMS) s) :
  exists res saved param s', copy_in_params E ps s = (ROk (res, saved, param), s') /\
    (res = TEE_SUCCESS -> (length ps <= TEE_NUM_PARAMS)%nat /\ exists ta, param = Some ta /\
       length (u ta) = TEE_NUM_PARAMS /\ Forall (param_in E s') (u ta)).
Proof.
  unfold copy_in_params. destruct (Nat.ltb_spec TEE_NUM_PARAMS (length ps)); [by eexists _, _, None, s|].
  destruct (copy_in_loop_run E HE ps s Hps (wf_less _ (Z.of_nat (length ps)) _ Hwf ltac:(lia))) as (res & saved & pt & us & s' & H1 & _ & Hin & _).
  rewrite (bind_run _ _ _ _ _ H1). eexists _, _, _, s'. split; [done|]. intros Hr. split; [done|].
  eexists. split; [done|]. cbn [u]. split; [apply pad_length|]. destruct (Hin Hr) as [_ Hall].
  unfold pad. apply Forall_take, Forall_app. split; [done|]. by apply Forall_replicate.
Qed.

Lemma take_zip_pad saved us n :
  (n <= TEE_NUM_PARAMS)%nat -> length saved = n -> length us = n -> take n (zip (pad 0 saved) (pad zero_param us)) = zip saved us.
Proof.
  intros Hn H1 H2. rewrite !pad_short, zip_with_app by lia. rewrite take_app_le, take_ge by (rewrite length_zip_with; lia). done.
Qed.

(** The clean-up of a request runs, and [K] is what it leaves. *)
Lemma serve_run E ta ps s :
  env_ok E -> Forall param_ok ps -> wf (Z.of_nat TEE_NUM_PARAMS) s -> (length ps <= TEE_NUM_PARAMS)%nat ->
  exists rc saved p s1 res out s' K,
    copy_in_params E ps s = (ROk (rc, saved, Some p), s1) /\ serve E ta ps s = (ROk (res, out), s') /\ grown K s s' /\
    (Forall plain ps -> forall x, x ∈ K -> x = MNull) /\ (rc = TEE_SUCCESS -> new_objects s (cnt leaks ps) K).
Proof.
  intros HE Hps Hwf Hlen.
  destruct (copy_in_loop_run E HE ps s Hps (wf_less _ (Z.of_nat (length ps)) _ Hwf ltac:(lia)))
    as (res & saved & pt & us & s1 & H1 & Hg & Hok & Hle & Hsv & Hl & Hnew).
  assert (exists p, copy_in_params E ps s = (ROk (res, pad 0 saved, Some p), s1) /\ u p = pad zero_param us) as (p & Hc & Hp).
  { unfold copy_in_params. rewrite (proj2 (Nat.ltb_ge _ _)) by done. rewrite (bind_run _ _ _ _ _ H1). by eexists. }
  unfold serve. rewrite (bind_run _ _ _ _ _ Hc).
  destruct (cleanup_run (pad 0 saved) p (length ps) 0 [] s s1) as (s2 & K & H2 & Hg2 & HK & Hn); try done.
  { rewrite Hp. by apply pad_linked. }
  { rewrite Hp. apply pad_length. }
  { rewrite Hp. cbn [app drop]. apply grown_pad; [lia|done]. }
  destruct (if res =? TEE_SUCCESS then _ else _) as [r out] eqn:Ho.
  rewrite (bind_run _ _ _ _ _ H2). eexists _, _, _, _, _, _, s2, K. split; [done|]. split; [done|]. split; [|split].
  - cbn [app plus] in Hg2. rewrite Hp, Permutation_app_comm in Hg2.
    eapply grown_nulls; [apply (pad_drop us (length ps) Hle)|exact Hg2].
  - intros Hpl. apply Hn. intros a [->|Ha]%pad_elem; [done|]. rewrite Hsv in Ha. apply elem_of_take in Ha as (j & Ha & _).
    apply list_lookup_fmap_Some in Ha as (q & -> & Hq). rewrite Forall_lookup in Hpl. by eapply Hpl.
  - intros Hr. destruct (Hok Hr) as [Hlen' _]. destruct (Hnew Hr) as (ms & Hnd & Hc' & Hms). exists ms. split; [done|]. split; [done|].
    intros m Hm. destruct (Hms m Hm) as [Hs Hin]. split; [done|].
    rewrite HK, Hp, drop_0, take_zip_pad; [done|lia| |done]. by rewrite (Forall2_length _ _ _ Hl).
Qed.

(** C17. Serving a request with at most four parameters never fails an assertion on a reference; and if no attribute
    of a memory reference has more than its type, all references taken for the parameters are given back:
    every object is as before, whether the request succeeds or not. *)
Theorem msg_references_returned E ta ps s
    (HE : env_ok E) (Hps : Forall param_ok ps) (Hwf : wf (Z.of_nat TEE_NUM_PARAMS) s) (Hlen : (length ps <= TEE_NUM_PARAMS)%nat) :
  exists res out s', serve E ta ps s = (ROk (res, out), s') /\
    (Forall plain ps -> reg s' = reg s /\ shm_mobj s' = shm_mobj s).
Proof.
  destruct (serve_run E ta ps s HE Hps Hwf Hlen) as (_ & _ & _ & _ & res & out & s' & K & _ & H & Hg & Hpl & _).
  exists res, out, s'. split; [done|]. intros Hps'. apply grown_nil. rewrite <- (app_nil_r K) in Hg.
  by eapply grown_nulls; [exact (Hpl Hps')|].
Qed.

(** ** Registration *)

Lemma find_cookie_added m r σ c : cookie r = c -> find_cookie (shms (added m r σ)) c (reg_shm_list (added m r σ)) = Some m.
Proof. intros H. cbn [reg_shm_list added set_list find_cookie]. rewrite added_at, H, Z.eqb_refl. done. Qed.

(** The release of a registered object nobody else refers to. *)
Lemma release_added m r σ :
  listed σ -> shms σ !! m = None -> refc r = 1 -> guarded r = false -> releasing r = false ->
  0 <= shm_release_waiters σ < UINT64_MAX ->
  mobj_reg_shm_release_by_cookie (cookie r) (added m r σ) = (ROk (Some TEE_SUCCESS), σ).
Proof.
  intros Hl Hm H1 H2 H3 Hw. unfold mobj_reg_shm_release_by_cookie.
  assert (release_find (cookie r) (added m r σ) = (ROk (Some m), added m (set_releasing true r) σ)) as Hf.
  { unfold release_find. rewrite find_at, find_cookie_added by done. rewrite !rd_added, H2, H3. cbn [orb]. by rewrite wr_added. }
  rewrite (bind_run _ _ _ _ _ Hf).
  set (r1 := set_release_frees true (set_refc 0 (set_releasing true r))).
  assert (mobj_put m (added m (set_releasing true r) σ) = (ROk tt, added m r1 σ)) as Hp.
  { unfold mobj_put. assert (mobj_put_dec m (added m (set_releasing true r) σ) = (ROk true, added m (set_refc 0 (set_releasing true r)) σ)) as Hd.
    { unfold mobj_put_dec. rewrite rd_added. cbn [refc set_releasing]. rewrite H1. change (refcount_dec 1 []) with (Return (0, true)).
      cbv beta iota. by rewrite wr_added. }
    rewrite (bind_run _ _ _ _ _ Hd). unfold mobj_reg_shm_free. rewrite !rd_added. cbn [guarded releasing set_refc set_releasing].
    rewrite H2. cbn [andb]. by rewrite added_wr. }
  rewrite (bind_run _ _ _ _ _ Hp).
  assert (release_wait (added m r1 σ) = (ROk tt, set_waiters (shm_release_waiters σ + 1) (added m r1 σ))) as Hwt.
  { unfold release_wait, gets, modify, assert_, mbind, M_mbind, m_bind. cbn -[u64].
    rewrite u64_small by (unfold is_u64, UINT64_MAX in *; lia). by rewrite (proj2 (Z.eqb_neq _ _)) by lia. }
  rewrite (bind_run _ _ _ _ _ Hwt).
  erewrite bind_run by (apply (release_try_at m r1); [apply added_at|done|cbn; lia]).
  change (freed m (set_waiters (shm_release_waiters σ + 1) (added m r1 σ)))
    with (set_waiters (shm_release_waiters σ + 1) (freed m (added m r1 σ))).
  rewrite freed_added by done. cbn. f_equal. destruct σ; cbn. unfold set_waiters. cbn. f_equal. lia.
Qed.

(** C34. A buffer that normal world registers is registered under its cookie with one reference, and covers the size
    that was given; unregistering the cookie then frees it without waiting, and all is as before. *)
Theorem msg_register_roundtrip E p s s'
    (HE : env_ok E) (Hp : param_ok p) (Hs : listed (reg s)) (Hw : 0 <= shm_release_waiters (reg s) < UINT64_MAX)
    (H : register_shm E [p] s = (ROk TEE_SUCCESS, s')) :
  (exists m r, reg s' = added m r (reg s) /\ shms (reg s) !! m = None /\ cookie r = tmem_shm_ref p /\ refc r = 1 /\
     guarded r = false /\ tmem_size p <= size r) /\
  exists s'', unregister_shm [mkParam 0 0 0 (tmem_shm_ref p)] s' = (ROk (Some TEE_SUCCESS), s'') /\
     reg s'' = reg s /\ shm_mobj s'' = shm_mobj s.
Proof.
  unfold register_shm in H. destruct (negb _); [done|].
  destruct Hp as (_ & H0 & H1 & H2).
  destruct (from_noncontig_run E s (tmem_buf_ptr p) (tmem_size p) (tmem_shm_ref p) (ok_va _ HE) Hs ltac:(destruct H1; done) (ok_heap _ HE))
    as (om & s1 & Hn & Hsm & Hm). rewrite (bind_run _ _ _ _ _ Hn) in H. destruct om as [m|]; [|done].
  destruct Hm as (ps & Hr & Hm & Hsz & _).
  assert (on_reg (mobj_reg_shm_unguard m) s1 =
    (ROk tt, set_reg (added m (set_guarded false (new_reg_shm ps (Z.land (tmem_buf_ptr p) SMALL_PAGE_MASK) (tmem_shm_ref p))) (reg s)) s1)) as Hu.
  { apply on_reg_run. rewrite Hr. apply added_wr. }
  rewrite (bind_run _ _ _ _ _ Hu) in H. injection H as <-. split; [by eexists m, _|].
  eexists. split; [|split]; [apply on_reg_run; cbn [reg set_reg]; by apply release_added|done|done].
Qed.

(** ** A platform *)

Definition demo_ram (k : nat) (a : Z) : Z :=
  if a =? 0x100000 + 4088 then 0x102000 else 0x200000 + 4096 * ((a / 8) mod 1024).

Definition demo_env : Env :=
  mkEnv (fun _ n => n <? 2 ^ 30) (fun k _ => 1000 + Z.of_nat k) (fun _ => Some 0x40000000)
    (fun _ => TEE_SUCCESS) demo_ram (fun p => 0x100000 <=? p) 0x80000000 0x10000.

Definition demo_st : msg_st :=
  mkMsg (mkShmSt {[ 5 := set_guarded false (new_reg_shm [0x300000; 0x301000] 100 77) ]} [5] 0) 1 0.

Definition empty_st : msg_st := mkMsg (mkShmSt ∅ [] 0) 1 0.

Lemma demo_env_ok : env_ok demo_env.
Proof.
  split; cbn [e_va demo_env e_shm_pa e_shm_size]; [|intros k n; cbn; lia|lia].
  by intros k v [= <-].
Qed.

Lemma demo_wf : wf (Z.of_nat TEE_NUM_PARAMS) demo_st.
Proof.
  split; cbn; [|intros m r [<- <-]%lookup_singleton_Some; cbn; unfold TEE_NUM_PARAMS, UINT32_MAX; lia|unfold TEE_NUM_PARAMS, UINT32_MAX; lia].
  intros m ->%list_elem_of_singleton. cbn. rewrite lookup_singleton_eq. eauto.
Qed.

Lemma empty_wf : wf (Z.of_nat TEE_NUM_PARAMS) empty_st.
Proof. split; [by intros m ?%elem_of_nil|by intros m r|cbn; unfold TEE_NUM_PARAMS, UINT32_MAX; lia]. Qed.

(** C36. What [cleanup_shm_refs] does not look at. With more than four parameters [copy_in_params] refuses the message,
    but the clean-up still goes through all of them and reads [saved_attr] past its end. And for any message
    whose parameters are accepted, each buffer that is not contiguous ([OPTEE_MSG_ATTR_NONCONTIG]) leaves behind one memory
    object that was not there before, whose reference is never given back: it stays, and as it is guarded,
    unregistering its cookie is refused. *)
Theorem msg_cleanup_unchecked E ta ps s :
  ((length ps > TEE_NUM_PARAMS)%nat -> (serve E ta ps s).1 = RPanic) /\
  forall saved p s1 (HE : env_ok E) (Hps : Forall param_ok ps) (Hwf : wf (Z.of_nat TEE_NUM_PARAMS) s)
    (Hin : copy_in_params E ps s = (ROk (TEE_SUCCESS, saved, Some p), s1)),
  exists res out s' ms, serve E ta ps s = (ROk (res, out), s') /\
    NoDup ms /\ Z.of_nat (length ms) = cnt leaks ps /\
    forall m, m ∈ ms -> shms (reg s) !! m = None /\
      (exists r, shms (reg s') !! m = Some r /\ 0 < refc r /\ guarded r = true) /\
      forall c, find_cookie (shms (reg s')) c (reg_shm_list (reg s')) = Some m ->
        unregister_shm [mkParam 0 0 0 c] s' = (ROk (Some TEE_ERROR_BAD_PARAMETERS), s').
Proof.
  split.
  - intros H. unfold serve, copy_in_params. rewrite (proj2 (Nat.ltb_lt _ _)) by lia.
    do 5 (destruct ps as [|? ps]; [cbn in H; unfold TEE_NUM_PARAMS in H; lia|]). done.
  - intros saved p s1 HE Hps Hwf Hin. destruct (Nat.le_gt_cases (length ps) TEE_NUM_PARAMS) as [Hlen|Hlen].
    2: { unfold copy_in_params in Hin. by rewrite (proj2 (Nat.ltb_lt _ _)) in Hin by lia. }
    destruct (serve_run E ta ps s HE Hps Hwf Hlen) as (rc & sv & p' & s1' & res & out & s' & K & Hc & Hrun & Hg & _ & Hnew).
    rewrite Hin in Hc. injection Hc as <- _ _ _. destruct (Hnew eq_refl) as (ms & Hnd & Hlen' & Hms).
    exists res, out, s', ms. split; [done|]. split; [done|]. split; [done|]. intros m Hm.
    destruct (Hms m Hm) as [Hs HmK]. split; [done|].
    pose proof (g_obj _ _ _ Hg m) as O. rewrite Hs in O. cbn [obj_grown] in O.
    assert (0 < of_ptr (MReg m) K) as Hpos.
    { pose proof (cnt_pos (fun x => bool_decide (x = MReg m)) K (MReg m) HmK (bool_decide_eq_true_2 _ eq_refl)). unfold of_ptr. lia. }
    destruct (shms (reg s') !! m) as [r|] eqn:Hr; [|lia]. destruct O as (Hn & _ & Hgd & _).
    split; [exists r; split; [done|split; [lia|done]]|]. intros c Hf.
    unfold unregister_shm, on_reg, zoom, mobj_reg_shm_release_by_cookie. cbn [rmem_shm_ref w2].
    rewrite (bind_run _ _ _ None (reg s')); [by destruct s'|].
    unfold release_find. rewrite find_at, Hf. rewrite !(rd_at _ _ _ _ _ Hr), Hgd. done.
Qed.

(** Two buffers that are not contiguous, and a value: two objects stay. *)
Definition leaky_msg : list optee_msg_param :=
  [mkParam (10 + 512) 0x100004 5000 99; mkParam 3 1 2 3; mkParam (10 + 512) 0x100004 5000 98].

Lemma msg_cleanup_unchecked_witness :
  let ta := fun q => Some (TEE_SUCCESS, q) in
  (serve demo_env ta (leaky_msg ++ leaky_msg) empty_st).1 = RPanic /\
  exists res out s' ms, serve demo_env ta leaky_msg empty_st = (ROk (res, out), s') /\ length ms = 2%nat /\ NoDup ms /\
    forall m, m ∈ ms -> exists r, shms (reg s') !! m = Some r /\ 0 < refc r /\ guarded r = true.
Proof.
  split; [apply msg_cleanup_unchecked; cbn; unfold TEE_NUM_PARAMS; lia|].
  destruct (msg_cleanup_unchecked demo_env (fun q => Some (TEE_SUCCESS, q)) leaky_msg empty_st) as [_ H].
  destruct (copy_in_params demo_env leaky_msg empty_st) as [[[[rc saved] [p|]]| |] s1] eqn:E; [|by vm_compute in E..].
  assert (rc = TEE_SUCCESS) as -> by (apply (f_equal fst) in E; vm_compute in E; by injection E).
  destruct (H saved p s1 demo_env_ok ltac:(repeat constructor; cbn; lia) empty_wf eq_refl) as (res & out & s' & ms & H1 & H2 & H3 & H4).
  exists res, out, s', ms. split; [exact H1|]. split; [|split; [exact H2|]].
  { assert (cnt leaks leaky_msg = 2) as E2 by (by vm_compute). lia. }
  intros m Hm. by apply H4.
Defined.

(** ** Witnesses *)

Lemma demo_available : available demo_env (reg demo_st).
Proof.
  intros k. split; [by eexists|]. split; [done|]. intros n. cbn. split; [lia|]. apply lookup_singleton_ne. lia.
Qed.

Lemma demo_well_formed : well_formed demo_env (demo_ram 0) 0x100000 513.
Proof.
  split; [done|]. split.
  - intros [|[|c]] Hc; [done|done|lia].
  - assert (forallb (fun t => Z.land (entry (demo_ram 0) 0x100000 t) SMALL_PAGE_MASK =? 0) (seq 0 513) = true) as H by (by vm_compute).
    rewrite forallb_forall in H. intros t Ht. apply Z.eqb_eq, H, in_seq. lia.
Qed.

Lemma msg_extract_pages_exact_witness :
  exists ps k', msg_param_extract_pages demo_env 0x100000 513 demo_st = (ROk (Some ps), mkMsg (reg demo_st) 1 k') /\
    length ps = 513%nat /\ ps !! 511%nat = Some (entry (demo_ram 0) 0x100000 511).
Proof.
  destruct (msg_extract_pages_exact demo_env demo_st 0x100000 513) as (r & k' & H1 & H2 & H3).
  - apply (ok_va _ demo_env_ok).
  - apply (wf_list _ _ demo_wf).
  - assert (stable demo_env (demo_ram 0)) as Hst by (by intros k a).
    destruct r as [ps|]; [|destruct (H3 _ Hst demo_available demo_well_formed eq_refl)].
    exists ps, k'. split; [exact H1|]. destruct (H2 ps eq_refl) as (Hl & _ & Hm). split; [exact Hl|].
    apply Hm; [exact Hst|lia].
Defined.

Definition demo_msg : list optee_msg_param := [mkParam 5 0 8000 77; mkParam 10 0x80000010 100 0; mkParam 3 1 2 3].

Lemma demo_msg_ok : Forall param_ok demo_msg.
Proof. repeat constructor; cbn; lia. Qed.

Lemma msg_memrefs_in_bounds_witness :
  exists saved ta s', copy_in_params demo_env demo_msg demo_st = (ROk (TEE_SUCCESS, saved, Some ta), s') /\
    Forall (param_in demo_env s') (u ta).
Proof.
  destruct (msg_memrefs_in_bounds demo_env demo_msg demo_st demo_env_ok demo_msg_ok demo_wf) as (res & saved & param & s' & H1 & H2).
  assert (res = TEE_SUCCESS) as E by (apply (f_equal fst) in H1; vm_compute in H1; by injection H1).
  destruct (H2 E) as (_ & ta & Hta & _ & Hin). exists saved, ta, s'. rewrite E, Hta in H1. split; [exact H1|exact Hin].
Defined.

Lemma msg_references_returned_witness :
  exists out s', serve demo_env (fun q => Some (TEE_SUCCESS, q)) demo_msg demo_st = (ROk (TEE_SUCCESS, out), s') /\
    reg s' = reg demo_st.
Proof.
  destruct (msg_references_returned demo_env (fun q => Some (TEE_SUCCESS, q)) demo_msg demo_st demo_env_ok demo_msg_ok demo_wf)
    as (res & out & s' & H1 & H2); [cbn; unfold TEE_NUM_PARAMS; lia|].
  assert (res = TEE_SUCCESS) as E by (apply (f_equal fst) in H1; vm_compute in H1; by injection H1).
  exists out, s'. rewrite E in H1. split; [exact H1|]. apply H2. repeat constructor.
Defined.

Definition demo_registered : msg_st := (register_shm demo_env [mkParam (10 + 512) 0x100004 5000 99] demo_st).2.

Lemma msg_register_roundtrip_witness :
  exists s'', unregister_shm [mkParam 0 0 0 99] demo_registered = (ROk (Some TEE_SUCCESS), s'') /\ reg s'' = reg demo_st.
Proof.
  destruct (msg_register_roundtrip demo_env (mkParam (10 + 512) 0x100004 5000 99) demo_st demo_registered demo_env_ok)
    as (_ & s'' & H1 & H2 & _).
  - repeat split; done.
  - apply (wf_list _ _ demo_wf).
  - cbn. unfold UINT64_MAX. lia.
  - by vm_compute.
  - exists s''. split; [exact H1|exact H2].
Defined.
